(* ===== verification/_CoqProject ===== *)
-Q . S2P
Prelude.v
Spinlock.v
SxeList.v
Pool.v
PoolWalker.v
Hex.v
Hash.v
RingBuffer.v
Dict.v
HttpUrl.v
HttpMessage.v
CString.v
Buffer.v
Numbers.v
StrUtil.v
CStr.v
JitsonSource.v
JitsonToken.v
JitsonStack.v
JitsonParse.v
JitsonGrammar.v
JitsonBuild.v
Factory.v
JitsonValue.v
JitsonAccess.v
JitsonPrint.v
JitsonWrite.v
Objects.v
Sxe.v
SxeStream.v
SxeSend.v
SxeConnect.v
SxeLife.v
Httpd.v
HttpdResponse.v
HttpdSend.v
HttpdRequest.v
HttpdExample.v
Cdb.v
CdbStore.v
CdbPut.v
CdbRefine.v
CdbExample.v
CdbCount.v
CdbChain.v
CdbView.v
CdbGroups.v
CdbLeave.v
CdbInc.v
CdbKeep.v
CdbCounters.v
CdbCounting.v
CdbWalk.v
CdbCountExample.v
