(* ===== verification/Prelude.v ===== *)
(** * libsxe: a verification development

    libsxe is a library of C components for event driven network programs: intrusive lists, pools
    of objects in states, hash tables, counted strings, a ring buffer, a dictionary, parsers
    for HTTP and for JSON. This development models the components that hold the library's data
    and its protocols, translated from the sources under src/, and proves what they do. This file
    is the root of the library and holds what all components share.

    ** How C is modelled

    - An operation is a function to [outcome]: [Ret] for a normal return, [Abort] for a failed release
      assertion (SXEA1), [Fault] for an access outside the memory that the model knows, which is
      undefined behaviour in C. SXEA6, which only a debug build checks, is [assert6], over
      the class [Build]; a theorem is about both builds unless it fixes one.
    - An operation that changes memory is a command [cmd S A], a state monad over the memory
      [S] of its component. Memory is explicit, and as shared as in the source: list nodes are cells that
      hold addresses, pool nodes and queues share one memory, tokens are bytes.
    - Integers are in Z, with their width written out: [u8], [u32], [u64] wrap.
    - A pointer into an array is an offset, a string argument the bytes from its pointer to the end
      of its object. Reading behind them is a fault, so that a theorem that gives [Ret] also
      shows that memory is only used within its bounds.
    - A loop that is not structural has fuel. Each operation gives its own loop a fuel that is shown
      to be enough: the number of bytes left or of nodes in a list, or one more. Exhausted
      fuel is a [Fault], so that a theorem that gives [Ret] shows that the loop ends.
    - What the library takes from elsewhere is an argument: the allocator (which may fail), a hash function,
      a callback, strtod, strftime, vsnprintf, the interference of other threads. Where its documented
      behaviour matters it is a class or a hypothesis, with an instance in the witnesses.
    - Logging is dropped; it only writes output.

    ** The files

    Lists and pools. SxeList.v is sxe-list.c and sxe-list-walker.c: the doubly linked list with relative
    pointers; [list_refines_deque] is its refinement of a functional deque. Spinlock.v is
    sxe-spinlock.h: one thread's loop, and the interleaving of any number of threads,
    with mutual exclusion in every reachable state. Pool.v is sxe-pool.c over both: one
    list per state, all in the pool's own memory, and the lock around each operation;
    [pool_refines_spec] is the refinement of a map from states to queues by age,
    [set_state_contended] what a lock that is not won leaves. PoolWalker.v is
    sxe-pool-walker.c and the timeout functions.

    Maps. Hash.v is sxe-hash.c and sxe-hash-classic.c, hash tables whose buckets are states of a
    pool. Dict.v is sxe-dict.c, chained tables that grow; [dict_refines_map] relates it to a
    finite map while no allocation is refused. The hash functions of Hash.v are arguments; Dict.v has its own.

    Strings and numbers. CString.v has the functions of string.h that the others use. Buffer.v is
    sxe-buffer.c and CStr.v its predecessor sxe-cstr.c, counted strings in fixed memory that
    share a pointer type with literals. StrUtil.v is searching, bounded copying, encoding and rotation;
    Numbers.v sxe-unsigned.c and sxe-uint64.c; Hex.v hexadecimal and the digests
    of lib-sha1 and lib-md5 in it.

    Streams and HTTP. RingBuffer.v is sxe-ring-buffer.c: one writer, many readers, laps;
    [ring_stream] says that a reader that is not overrun reads what was written. HttpUrl.v
    is sxe-http-url.c. HttpMessage.v is sxe-http-message.c, the header parser that stops where the
    buffer ends and resumes when more arrives: [parse_next_header_resumes] says that the
    cuts do not matter, [headers_roundtrip] that printed headers are read back.

    JSON (lib-sxe-jitson). JitsonSource.v reads text. JitsonToken.v is the memory of the 16 byte
    tokens, the type [json] of values, and the image of a value in memory. JitsonStack.v
    is the stack of tokens and the whole parser with its extensions. JitsonParse.v has a
    reference parser and the simulation; JitsonGrammar.v an inductive grammar and the theorems: the
    parser refines the reference, loads every text of the grammar, and loads nothing else.
    JitsonBuild.v is the other way to make a jitson, value by value: its calls refine a stack
    of partial collections, and build what the parser loads.
    Factory.v is the text factory of lib-sxe-util, a growing buffer. JitsonValue.v is the heap
    of blocks that values live in, with the types' operations; JitsonAccess.v the accessors, that follow
    references and build the indexes of arrays and objects when they are first used:
    [array_get_element_spec] and [object_get_member_spec] say what they find, whether the index is there or not.
    JitsonPrint.v says what text a value has, and that it is in the grammar; JitsonWrite.v that
    sxe_jitson_to_json writes it ([to_json_spec]), so that what is written is read back
    ([json_roundtrip]).

    Events (lib-sxe). Objects.v is the store that the event layer and its clients share: pools of any elements, buffers in lists, and
    the bytes they hold, with the operations of Pool.v and Buffer.v on them. Sxe.v is the data of
    sxe.c: the record SXE, the world (SXEs, pools, the client's own state, the deferred events and a trace
    of the system calls), and the kernel, an argument that answers each call by the calls so far. SxeStream.v is
    input: sxe_io_cb_read, consuming, pausing, and events that are deferred to
    the end of a turn; [input_stream] says that a client, whatever it consumes and in whatever pieces bytes arrive, is
    shown the bytes of the connection in order, none lost and none twice. SxeSend.v is output: sxe_send_buffers,
    sxe_send and sxe_sendfile with the callbacks that go on where the socket was full: [send_buffers_spec] and
    [send_completes]. SxeConnect.v is listening, accepting and connecting, SxeLife.v sxe_new and sxe_close;
    [sxe_lifecycle] relates them to an allocator.

    The server (lib-sxe-httpd). Httpd.v is sxe-httpd.c over these: the states of a request, the events of the SXE, the
    application's handlers (the class [Handlers]), and each call that builds or sends a response. HttpdResponse.v has
    the representation [serving] (every buffer is free, in a request's queue, or on loan) and each call's
    effect: [response_built] composes them, [copy_all_or_nothing] is the case of no buffers left. HttpdSend.v is the end of a
    response, over the laws of SxeSend.v: [response_end_spec] and [response_delivered]. HttpdRequest.v is the reading of a
    request, over the lemmas of HttpMessage.v: [request_dispatch] and [body_dispatch] say which
    handlers are called, with what. HttpdExample.v runs the server on concrete inputs.

    The key value store (lib-sxe-cdb). Cdb.v is the instance of sxe-cdb.c, its memories of sheets, of keys and values and of counts,
    with what a thread keeps; putting, splitting a sheet, looking up and copying. CdbStore.v has the representation
    [store], a log of entries that lie one behind the other and each have their cell, and CdbPut.v what putting does to it:
    [put_val_spec]. CdbRefine.v says that a client that puts, looks up, fetches and replaces sees a finite map
    ([cdb_refines_map]); CdbExample.v runs one. CdbCount.v is counting: the nodes of counts, the increment with all its cases, and the walk. CdbChain.v
    has lists that are linked in both directions, and what an increment does to groups of keys; CdbView.v the accesses to
    memory as steps of a view; CdbGroups.v and CdbLeave.v the ways through the increment, each a step of
    one list; CdbInc.v composes them. CdbKeep.v says what putting leaves alone. CdbCounters.v makes one map of the 256 lists, CdbCounting.v relates
    a client's increments to it ([counters_refine_map]), and CdbWalk.v the walks ([walk_counts_spec]). CdbCountExample.v runs both.

    ** What components promise each other

    A pool relies on lists through the lemmas on [is_list], and on the lock through the
    argument [others], any change that other threads make while the lock is free. A hash relies on pools through
    [pool_refines_spec]'s underlying lemmas. The parser and the builder rely on the stack through [holds]: a stack
    has a memory of given tokens at its start and any junk behind it, and expanding it, reading a field and
    storing one have a lemma each in JitsonParse.v. The parser relies on the source through
    [left]: the text that is left.

    The event layer gives its client the class [Callbacks], what each function pointer does. The server is such a client:
    HttpdSend.v takes the predicate [progress] and its lemmas from SxeSend.v. The server in turn gives
    its application the class [Handlers]; its theorems ask of a handler only what they need: in HttpdSend.v that the handler for a
    sent response takes note, in HttpdRequest.v that the handlers for a request take note and leave the
    connection alone. What is asked of the kernel is a class as well: [RecvLaw] and [SendLaw] that a call takes no more bytes
    than it is given room for, [SendProgress] that a socket goes on taking bytes. Of the key value store's surroundings [HashWords] says
    that the hash has 8 words, and [MapLaw] that no memory of size 0 is mapped.

    ** Bounds

    A stack has at most [LIMIT] tokens, 4096 less than 2^32; the growth of a larger one overflows. The
    values in memory are in at most [BLOCKS] blocks (2^24) at addresses that are multiples of [BLOCK], and
    an array or object has at most 2^32 - 1 tokens ([fits_u32]); a factory's text is shorter than [FACTORY_LIMIT],
    2^62, where doubling its buffer cannot overflow. An SXE's input
    buffer has 1500 bytes, so that it has at most as many headers: reading them has the fuel [HEADERS_FUEL] of one more. One turn of
    the loop runs at most 64 deferred events, and sending takes at most as many write events as there are bytes. A key value store
    splits a sheet at most 8190 times before a put ends, since the mapping of 8192 sheets has the size 2^32, which is 0 in 32 bits: [PUT_FUEL]
    is 8193. Its clients keep keys and values below 4 GB, and counts below 2^48. The
    other theorems on sizes carry the bounds of the C types: 32 bit counts in pools, rings, buffers and
    messages, 16 bit lengths in CStr.v. The layout is that of an LP64 platform, little endian.

    ** Not modelled

    - lib-sxe-jitson's duplication and release of values, registration of types and operators
      (sxe-jitson-oper.c), and the constructors of references. lib-sxe-cdb's ensembles of instances. lib-sxe-thread's
      memory list.
    - Of lib-sxe: TLS, timers, raw and broadcast sockets, and libev itself, of which the model keeps what it watches; of
      lib-sxe-httpd the functions that format a diagnostic string. lib-sxe-pool-tcp, a client of lib-sxe.
    - lib-sxe-log: output and clocks. lib-sxe-mmap's sxe-mmap.c, lib-sxe-spawn, lib-sxe-dirwatch, lib-sxe-sync-ev,
      lib-sxe-socket, lib-sxe-thread.c, lib-port, and the files of lib-sxe-util on
      files and limits: wrappers of the operating system.
    - lib-lookup3, lib-murmurhash3, lib-sha1's sha1.c and lib-md5's md5.c: third party hash functions.
      lib-ev, lib-tap: third party libraries. lib-mock, lib-sxe-test, test directories: test support. *)

From Stdlib Require Export ZArith Lia.
From stdpp Require Export base option list gmap strings.
#[export] Set Default Goal Selector "!".
#[global] Open Scope Z_scope.

(** ** Outcomes of C code

    [Ret] is a normal return, [Abort] a failed release assertion (SXEA1 calls
    sxe_log_assert, which aborts the process), [Fault] an access outside the
    memory the model knows (undefined behaviour in C). *)
Inductive outcome (A : Type) : Type :=
| Ret (a : A)
| Abort
| Fault.
Arguments Ret {A} _.
Arguments Abort {A}.
Arguments Fault {A}.

#[export] Instance outcome_ret : MRet outcome := fun A a => Ret a.
#[export] Instance outcome_bind : MBind outcome := fun A B f m =>
  match m with Ret a => f a | Abort => Abort | Fault => Fault end.

#[export] Instance outcome_eq_dec {A} `{EqDecision A} : EqDecision (outcome A).
Proof. solve_decision. Defined.

(** SXEA1: the condition is checked in every build. *)
Definition assert1 (b : bool) : outcome unit := if b then Ret tt else Abort.

(** A debug build (SXE_DEBUG=1) also checks SXEA6; a release build drops it. *)
Class Build := debug : bool.

(** SXEA6: the condition is checked in a debug build only. *)
Definition assert6 `{Build} (b : bool) : outcome unit :=
  if debug then assert1 b else Ret tt.

(** An optional read: no value means the access was out of bounds. *)
Definition load {A} (o : option A) : outcome A :=
  match o with Some a => Ret a | None => Fault end.

(** ** Commands: code that threads a mutable store *)
Definition cmd (S A : Type) : Type := S -> outcome (A * S).

#[export] Instance cmd_ret {S} : MRet (cmd S) := fun A a s => Ret (a, s).
#[export] Instance cmd_bind {S} : MBind (cmd S) := fun A B f m s =>
  match m s with
  | Ret (a, s') => f a s'
  | Abort => Abort
  | Fault => Fault
  end.

Definition lift {S A} (o : outcome A) : cmd S A := fun s =>
  match o with Ret a => Ret (a, s) | Abort => Abort | Fault => Fault end.
Definition gets {S A} (f : S -> A) : cmd S A := fun s => Ret (f s, s).
Definition modify {S} (f : S -> S) : cmd S unit := fun s => Ret (tt, f s).

Section CmdLemmas.
Context {S : Type}.

Lemma cmd_bind_ret {A B} (m : cmd S A) (f : A -> cmd S B) s a s' :
  m s = Ret (a, s') -> (m ≫= f) s = f a s'.
Proof. intros E. unfold mbind, cmd_bind. by rewrite E. Qed.

Lemma cmd_bind_inv {A B} (m : cmd S A) (f : A -> cmd S B) s r :
  (m ≫= f) s = Ret r -> exists a s', m s = Ret (a, s') /\ f a s' = Ret r.
Proof.
  unfold mbind, cmd_bind. destruct (m s) as [[a s']| |] eqn:E; try done. eauto.
Qed.
End CmdLemmas.

(** ** Machine integers *)
Definition u8  (z : Z) : Z := z mod 256.
Definition u16 (z : Z) : Z := z mod 65536.
Definition u32 (z : Z) : Z := z mod 4294967296.
Definition u64 (z : Z) : Z := z mod 18446744073709551616.

(** A plain [char] is signed on the platforms libsxe is built for. *)
Definition schar (b : Z) : Z := if b <? 128 then b else b - 256.

Definition is_u8  (z : Z) : Prop := 0 <= z < 256.
Definition is_u32 (z : Z) : Prop := 0 <= z < 4294967296.
Definition is_u64 (z : Z) : Prop := 0 <= z < 18446744073709551616.

(** Linear arithmetic over the wrap-around functions. *)
Ltac word_lia :=
  unfold is_u8, is_u32, is_u64, u8, u16, u32, u64 in *;
  Z.to_euclidean_division_equations; lia.

Create HintDb machine.
Create Rewrite HintDb machine.

Lemma u8_small z : is_u8 z -> u8 z = z.
Proof. apply Z.mod_small. Qed.
Lemma u32_small z : is_u32 z -> u32 z = z.
Proof. apply Z.mod_small. Qed.
Lemma u64_small z : is_u64 z -> u64 z = z.
Proof. apply Z.mod_small. Qed.
Lemma u8_range z : is_u8 (u8 z).
Proof. apply Z.mod_pos_bound. lia. Qed.
Lemma u32_range z : is_u32 (u32 z).
Proof. apply Z.mod_pos_bound. lia. Qed.
Lemma u64_range z : is_u64 (u64 z).
Proof. apply Z.mod_pos_bound. lia. Qed.
#[export] Hint Resolve u8_range u32_range u64_range : machine.
#[export] Hint Rewrite u8_small u32_small u64_small using (by auto with machine) : machine.

Lemma u64_sub_add a b : is_u64 a -> u64 (u64 (a - b) + b) = a.
Proof. word_lia. Qed.
Lemma u64_sub_inj a b c : is_u64 a -> is_u64 b -> u64 (a - c) = u64 (b - c) -> a = b.
Proof. word_lia. Qed.

(** A bit of a number below [2 ^ n] at or above [n] is zero. *)
Lemma testbit_high l n i : 0 <= l < 2 ^ n -> 0 <= n <= i -> Z.testbit l i = false.
Proof.
  intros Hl Hn. destruct (Z.eq_dec l 0) as [->|]; [apply Z.bits_0|].
  apply Z.bits_above_log2; [lia|]. apply Z.log2_lt_pow2; [lia|].
  apply Z.lt_le_trans with (2 ^ n); [lia|]. apply Z.pow_le_mono_r; lia.
Qed.

(** A number without bits at or above [n] is below [2 ^ n]. *)
Lemma bits_bound a n : 0 <= n -> (forall i, n <= i -> Z.testbit a i = false) -> 0 <= a < 2 ^ n.
Proof.
  intros Hn Hb. replace a with (a mod 2 ^ n); [apply Z.mod_pos_bound; lia|].
  rewrite <-Z.land_ones by lia. apply Z.bits_inj'. intros i Hi. rewrite Z.land_spec, Z.testbit_ones_nonneg by lia.
  destruct (Z.ltb_spec i n); [apply andb_true_r|]. by rewrite (Hb i) by lia.
Qed.

Lemma lxor_bound a b n : 0 <= n -> 0 <= a < 2 ^ n -> 0 <= b < 2 ^ n -> 0 <= Z.lxor a b < 2 ^ n.
Proof.
  intros Hn Ha Hb. apply bits_bound; [done|]. intros i Hi. rewrite Z.lxor_spec.
  by rewrite (testbit_high a n), (testbit_high b n) by lia.
Qed.

Lemma shiftr_bound a n k : 0 <= k -> 0 <= a < 2 ^ n -> 0 <= Z.shiftr a k < 2 ^ n.
Proof.
  intros Hk Ha. rewrite Z.shiftr_div_pow2 by lia. pose proof (Z.pow_pos_nonneg 2 k ltac:(lia) Hk).
  split; [apply Z.div_pos; lia|]. apply Z.le_lt_trans with a; [|lia]. apply Z.div_le_upper_bound; [lia|]. nia.
Qed.

(** Combining disjoint bit fields with or is addition. *)
Lemma lor_shift h l n : 0 <= n -> 0 <= l < 2 ^ n -> Z.lor (Z.shiftl h n) l = h * 2 ^ n + l.
Proof.
  intros Hn Hl.
  assert (E : Z.land (Z.shiftl h n) l = 0).
  { apply Z.bits_inj'. intros i Hi. rewrite Z.land_spec, Z.bits_0.
    destruct (Z.ltb_spec i n); [by rewrite Z.shiftl_spec_low|].
    rewrite (testbit_high l n) by lia. apply andb_false_r. }
  rewrite <-Z.lxor_lor, <-Z.add_nocarry_lxor by done. by rewrite Z.shiftl_mul_pow2.
Qed.

(** The unsigned constant of all one bits, [~0U]. *)
Definition SXE_UNSIGNED_MAXIMUM : Z := 4294967295.

Create Rewrite HintDb zlen.

(** ** Byte memory *)

(** [rd s i] is the byte at [s[i]], if the object [s] extends that far. *)
Definition rd (s : list Z) (i : Z) : option Z :=
  if 0 <=? i then s !! Z.to_nat i else None.

(** [wr s i v] stores [v] at [s[i]]; out of bounds is a fault. *)
Definition wr (s : list Z) (i v : Z) : outcome (list Z) :=
  if (0 <=? i) && (i <? Z.of_nat (length s)) then Ret (<[Z.to_nat i := v]> s) else Fault.

(** [zlen] is the length as an integer of the source. *)
Definition zlen {A} (l : list A) : Z := Z.of_nat (length l).

Section ByteLemmas.
Implicit Types (s : list Z) (i : Z).

Lemma rd_lt s i : 0 <= i < zlen s -> exists b, rd s i = Some b.
Proof.
  unfold zlen, rd. intros [H1 H2]. destruct (Z.leb_spec 0 i); [|lia].
  apply lookup_lt_is_Some_2. lia.
Qed.

Lemma rd_Some s i b : rd s i = Some b -> 0 <= i < zlen s.
Proof.
  unfold rd, zlen. destruct (Z.leb_spec 0 i); [|done].
  intros E%lookup_lt_Some. lia.
Qed.

Lemma rd_app_l s t i : i < zlen s -> rd (s ++ t) i = rd s i.
Proof.
  unfold rd, zlen. destruct (Z.leb_spec 0 i); [|done].
  intros. apply lookup_app_l. lia.
Qed.

Lemma rd_app_r s t i : zlen s <= i -> rd (s ++ t) i = rd t (i - zlen s).
Proof.
  unfold rd, zlen. intros.
  destruct (Z.leb_spec 0 i), (Z.leb_spec 0 (i - Z.of_nat (length s))); try lia.
  rewrite lookup_app_r by lia. f_equal. lia.
Qed.

Lemma rd_nat s (n : nat) : rd s (Z.of_nat n) = s !! n.
Proof. unfold rd. destruct (Z.leb_spec 0 (Z.of_nat n)); [|lia]. by rewrite Nat2Z.id. Qed.

Lemma wr_ok s i v : 0 <= i < zlen s -> wr s i v = Ret (<[Z.to_nat i := v]> s).
Proof.
  unfold wr, zlen. intros. by replace ((0 <=? i) && (i <? Z.of_nat (length s))) with true by lia.
Qed.

Lemma zlen_app {A} (l k : list A) : zlen (l ++ k) = zlen l + zlen k.
Proof. unfold zlen. rewrite length_app. lia. Qed.
Lemma zlen_nonneg {A} (l : list A) : 0 <= zlen l.
Proof. unfold zlen. lia. Qed.
Lemma zlen_cons {A} (a : A) (l : list A) : zlen (a :: l) = 1 + zlen l.
Proof. unfold zlen. simpl. lia. Qed.
Lemma zlen_insert s n v : zlen (<[n := v]> s) = zlen s.
Proof. unfold zlen. by rewrite length_insert. Qed.
Lemma zlen_replicate {A} n (a : A) : zlen (replicate n a) = Z.of_nat n.
Proof. unfold zlen. by rewrite length_replicate. Qed.
End ByteLemmas.
#[export] Hint Rewrite @zlen_app @zlen_cons zlen_insert @zlen_replicate : zlen.

Lemma elem_of_mid {A} (l1 l2 : list A) x : x ∈ l1 ++ x :: l2.
Proof. apply elem_of_app. right. constructor. Qed.
Lemma elem_of_end {A} (l1 l2 : list A) x : x ∈ (l1 ++ [x]) ++ l2.
Proof. rewrite <-(assoc_L (++)). apply elem_of_mid. Qed.

Lemma filter_all {A} (P : A -> Prop) `{!forall x, Decision (P x)} (l : list A) :
  (forall x, x ∈ l -> P x) -> filter P l = l.
Proof.
  induction l as [|a l IH]; [done|]. intros Hall.
  rewrite filter_cons_True, IH; [done| |]; intros; apply Hall; by constructor.
Qed.

(** Lists of lists: the queues of a pool, the chains of a table. *)
Section Concat.
Context {A : Type}.
Implicit Types (qs : list (list A)) (q : list A) (k : nat) (i : A).

Lemma concat_elem qs i : i ∈ concat qs <-> exists k q, qs !! k = Some q /\ i ∈ q.
Proof.
  induction qs as [|q qs IH]; simpl.
  - split; [intros []%elem_of_nil|by intros (k & q & ? & ?)].
  - rewrite elem_of_app, IH. split.
    + intros [H|(k & q' & H1 & H2)]; [by exists 0%nat, q|by exists (S k), q'].
    + intros ([|k] & q' & H1 & H2); [left|right]; simpl in *; [congruence|eauto].
Qed.

Lemma concat_insert_perm qs k q q' :
  qs !! k = Some q -> concat (<[k := q']> qs) ++ q ≡ₚ concat qs ++ q'.
Proof.
  revert k. induction qs as [|q0 qs IH]; intros [|k]; simpl; intros E; try done.
  - injection E as ->. solve_Permutation.
  - rewrite <-!(assoc_L (++)). by rewrite IH.
Qed.

Lemma concat_unique qs k k' q q' i :
  NoDup (concat qs) -> qs !! k = Some q -> qs !! k' = Some q' -> i ∈ q -> i ∈ q' -> k = k'.
Proof.
  revert k k'. induction qs as [|q0 qs IH]; intros [|k] [|k']; simpl; intros ND E E' Hi Hi'; try done.
  - injection E as ->. apply NoDup_app in ND as (_ & ND & _). exfalso.
    apply (ND i Hi), concat_elem. eauto.
  - injection E' as ->. apply NoDup_app in ND as (_ & ND & _). exfalso.
    apply (ND i Hi'), concat_elem. eauto.
  - apply NoDup_app in ND as (_ & _ & ND). f_equal. eauto.
Qed.

Lemma concat_remove_perm qs k q1 i q2 :
  qs !! k = Some (q1 ++ i :: q2) -> concat qs ≡ₚ i :: concat (<[k := q1 ++ q2]> qs).
Proof.
  intros E. apply (concat_insert_perm _ _ _ (q1 ++ q2)) in E.
  apply (Permutation_app_inv_r (q1 ++ q2)). rewrite <-E. solve_Permutation.
Qed.

Lemma concat_push_perm qs k q i :
  qs !! k = Some q -> concat (<[k := q ++ [i]]> qs) ≡ₚ i :: concat qs.
Proof.
  intros E. apply (concat_insert_perm _ _ _ (q ++ [i])) in E.
  apply (Permutation_app_inv_r q). rewrite E. solve_Permutation.
Qed.

Lemma concat_NoDup_in qs k q : NoDup (concat qs) -> qs !! k = Some q -> NoDup q.
Proof.
  revert k. induction qs as [|q0 qs IH]; intros [|k]; simpl; intros ND E; try done; apply NoDup_app in ND as (? & ? & ?).
  - by injection E as <-.
  - by eapply IH.
Qed.
End Concat.

(** Every element of a byte memory is a byte. *)
Definition bytes_ok (s : list Z) : Prop := Forall is_u8 s.

Lemma rd_bytes s i c : bytes_ok s -> rd s i = Some c -> is_u8 c.
Proof.
  unfold rd. destruct (0 <=? i); [|done]. intros Hs E. unfold bytes_ok in Hs. rewrite Forall_forall in Hs. by eapply Hs, list_elem_of_lookup_2.
Qed.

Lemma rd_at pre c suf i : i = zlen pre -> rd (pre ++ c :: suf) i = Some c.
Proof. intros ->. rewrite rd_app_r by lia. by rewrite Z.sub_diag. Qed.

Lemma rd_at2 pre c d suf i : i = zlen pre + 1 -> rd (pre ++ c :: d :: suf) i = Some d.
Proof. intros ->. rewrite rd_app_r by lia. by replace (zlen pre + 1 - zlen pre) with 1 by lia. Qed.

Lemma wr_at pre c suf i v : i = zlen pre -> wr (pre ++ c :: suf) i v = Ret (pre ++ v :: suf).
Proof.
  intros ->. rewrite wr_ok by (rewrite zlen_app, zlen_cons; pose proof (zlen_nonneg pre); pose proof (zlen_nonneg suf); lia).
  f_equal. unfold zlen. rewrite Nat2Z.id, insert_app_r_alt by lia. by rewrite Nat.sub_diag.
Qed.

(** Storing consecutive bytes (memcpy of a value, or a formatted string). *)
Fixpoint wr_bytes (s : list Z) (i : Z) (l : list Z) : outcome (list Z) :=
  match l with
  | [] => Ret s
  | v :: l => s ← wr s i v; wr_bytes s (i + 1) l
  end.

Lemma wr_bytes_at l : forall pre old post i,
  i = zlen pre -> length old = length l -> wr_bytes (pre ++ old ++ post) i l = Ret (pre ++ l ++ post).
Proof.
  induction l as [|v l IH]; intros pre [|o old] post i -> Hl; simpl in Hl; try done; cbn [wr_bytes].
  simpl app. rewrite (wr_at pre) by done. cbn [mbind outcome_bind].
  specialize (IH (pre ++ [v]) old post (zlen pre + 1)).
  rewrite <-!(assoc_L (++)) in IH. simpl in IH. apply IH; [|lia].
  rewrite zlen_app, zlen_cons. change (zlen []) with 0. lia.
Qed.

(** The [n] bytes at offset [i], if the object holds them. *)
Definition slice (s : list Z) (i n : Z) : option (list Z) :=
  if (0 <=? i) && (0 <=? n) && (i + n <=? zlen s) then Some (take (Z.to_nat n) (drop (Z.to_nat i) s)) else None.

Lemma slice_Some s i n :
  0 <= i -> 0 <= n -> i + n <= zlen s -> slice s i n = Some (take (Z.to_nat n) (drop (Z.to_nat i) s)).
Proof. intros. unfold slice. by replace ((0 <=? i) && (0 <=? n) && (i + n <=? zlen s)) with true by lia. Qed.

Lemma take_zlen {A} (l : list A) : take (Z.to_nat (zlen l)) l = l.
Proof. unfold zlen. by rewrite Nat2Z.id, take_ge. Qed.

Lemma slice_prefix l t : slice (l ++ t) 0 (zlen l) = Some l.
Proof.
  rewrite slice_Some by (rewrite ?zlen_app; unfold zlen; lia). change (Z.to_nat 0) with 0%nat.
  by rewrite drop_0, take_app_le, take_zlen by (unfold zlen; lia).
Qed.

Lemma slice_mid pre l post : slice (pre ++ l ++ post) (zlen pre) (zlen l) = Some l.
Proof.
  pose proof (zlen_nonneg pre). pose proof (zlen_nonneg l). pose proof (zlen_nonneg post).
  rewrite slice_Some by (rewrite ?zlen_app; lia). unfold zlen. rewrite !Nat2Z.id, drop_app_length.
  by rewrite take_app_length.
Qed.

Lemma slice_length s i n l : slice s i n = Some l -> zlen l = n.
Proof.
  unfold slice, zlen. destruct (_ && _) eqn:E; [|done]. intros [= <-]. rewrite length_take, length_drop. lia.
Qed.

(** The memory after storing [l] at [i]. *)
Definition splice (s : list Z) (i : Z) (l : list Z) : list Z :=
  take (Z.to_nat i) s ++ l ++ drop (Z.to_nat i + length l) s.

Lemma wr_bytes_ok s i l : 0 <= i -> i + zlen l <= zlen s -> wr_bytes s i l = Ret (splice s i l).
Proof.
  intros Hi Hl. unfold zlen in *.
  rewrite <-(take_drop (Z.to_nat i) s) at 1. rewrite <-(take_drop (length l) (drop (Z.to_nat i) s)) at 1.
  rewrite wr_bytes_at; [by rewrite drop_drop| |].
  - unfold zlen. rewrite length_take. lia.
  - rewrite length_take, length_drop. lia.
Qed.

Lemma splice_length s i l : 0 <= i -> i + zlen l <= zlen s -> length (splice s i l) = length s.
Proof. unfold zlen, splice. intros. rewrite !length_app, length_take, length_drop. lia. Qed.

Lemma splice_lookup s i l j :
  0 <= i -> i + zlen l <= zlen s ->
  splice s i l !! j = if decide (Z.to_nat i <= j < Z.to_nat i + length l)%nat then l !! (j - Z.to_nat i)%nat else s !! j.
Proof.
  unfold zlen, splice. intros Hi Hl. rewrite lookup_app. case_decide.
  - rewrite lookup_take_ge by lia. rewrite length_take.
    replace (Z.to_nat i `min` length s)%nat with (Z.to_nat i) by lia. by rewrite lookup_app_l by lia.
  - destruct (decide (j < Z.to_nat i)%nat).
    + rewrite lookup_take_lt by lia. by destruct (s !! j) eqn:E; [|apply lookup_ge_None in E; lia].
    + rewrite lookup_take_ge by lia. rewrite length_take, lookup_app_r by lia. rewrite lookup_drop. f_equal. lia.
Qed.

Lemma slice_splice_other s i l a n :
  0 <= i -> i + zlen l <= zlen s -> a + n <= i \/ i + zlen l <= a -> slice (splice s i l) a n = slice s a n.
Proof.
  intros Hi Hl Hd. unfold slice. unfold zlen in *. rewrite splice_length by (unfold zlen; lia).
  destruct (_ && _) eqn:E; [|done]. f_equal. apply list_eq. intros j.
  destruct (decide (j < Z.to_nat n)%nat); [|by rewrite !lookup_take_ge by lia].
  rewrite !lookup_take_lt, !lookup_drop, splice_lookup by (unfold zlen; lia). rewrite decide_False by lia. done.
Qed.

Lemma slice_splice_same s i l : 0 <= i -> i + zlen l <= zlen s -> slice (splice s i l) i (zlen l) = Some l.
Proof.
  intros Hi Hl. pose proof (splice_length s i l Hi Hl). unfold zlen in *. rewrite slice_Some by (unfold zlen; lia).
  f_equal. apply list_eq. intros j.
  destruct (decide (j < length l)%nat).
  - rewrite lookup_take_lt, lookup_drop, splice_lookup by (unfold zlen; lia). rewrite decide_True by lia. f_equal. lia.
  - rewrite lookup_take_ge by lia. symmetry. apply lookup_ge_None. lia.
Qed.

(** The 32 bit word that the host (little endian) reads from 4 bytes. *)
Definition le32 (b0 b1 b2 b3 : Z) : Z := b0 + 256 * b1 + 65536 * b2 + 16777216 * b3.

Definition ld32 (s : list Z) (i : Z) : outcome Z :=
  b0 ← load (rd s i); b1 ← load (rd s (i + 1)); b2 ← load (rd s (i + 2)); b3 ← load (rd s (i + 3));
  mret (le32 b0 b1 b2 b3).

Lemma ld32_at pre b0 b1 b2 b3 post i :
  i = zlen pre -> ld32 (pre ++ b0 :: b1 :: b2 :: b3 :: post) i = Ret (le32 b0 b1 b2 b3).
Proof.
  intros ->. unfold ld32.
  assert (E : forall k, 0 <= k -> rd (pre ++ b0 :: b1 :: b2 :: b3 :: post) (zlen pre + k) = rd (b0 :: b1 :: b2 :: b3 :: post) k).
  { intros k Hk. rewrite rd_app_r by lia. f_equal. lia. }
  rewrite (E 1), (E 2), (E 3), (rd_at pre) by (done || lia). done.
Qed.

(** The four and eight bytes of a word as the host stores it. *)
Definition bytes32 (v : Z) : list Z := [u8 v; u8 (v / 256); u8 (v / 65536); u8 (v / 16777216)].
Definition bytes64 (v : Z) : list Z := bytes32 (u32 v) ++ bytes32 (u32 (v / 4294967296)).

Lemma ld32_bytes32 pre v post i : i = zlen pre -> ld32 (pre ++ bytes32 v ++ post) i = Ret (u32 v).
Proof.
  intros Hi. unfold bytes32. cbn [app]. rewrite ld32_at by done. f_equal. unfold le32. word_lia.
Qed.

Lemma zlen_bytes32 v : zlen (bytes32 v) = 4.
Proof. done. Qed.
Lemma zlen_bytes64 v : zlen (bytes64 v) = 8.
Proof. done. Qed.

Lemma bytes32_inj a b x y : is_u32 a -> is_u32 b -> bytes32 a ++ x = bytes32 b ++ y -> a = b /\ x = y.
Proof.
  intros Ha Hb E. pose proof (ld32_bytes32 [] a x 0 eq_refl) as Ea. pose proof (ld32_bytes32 [] b y 0 eq_refl) as Eb. cbn [app] in Ea, Eb. rewrite E, Eb in Ea.
  injection Ea as Ea. rewrite !u32_small in Ea by done. subst b. by apply app_inv_head in E.
Qed.

(** htonl on the host: the bytes in the opposite order. *)
Definition bswap32 (v : Z) : Z :=
  Z.lor (Z.lor (Z.shiftl (Z.land v 255) 24) (Z.shiftl (Z.land v 65280) 8))
        (Z.lor (Z.land (Z.shiftr v 8) 65280) (Z.shiftr v 24)).

Lemma land_byte1 v : Z.land v 65280 = Z.shiftl (v / 256 mod 256) 8.
Proof.
  apply Z.bits_inj'. intros i Hi. change 65280 with (Z.shiftl (Z.ones 8) 8).
  rewrite Z.land_spec. destruct (Z.ltb_spec i 8).
  - rewrite !Z.shiftl_spec_low by lia. apply andb_false_r.
  - rewrite !Z.shiftl_spec by lia. change 256 with (2 ^ 8).
    rewrite <-Z.land_ones, <-Z.shiftr_div_pow2, Z.land_spec, Z.shiftr_spec by lia.
    by replace (i - 8 + 8) with i by lia.
Qed.

Lemma bswap32_le32 b0 b1 b2 b3 :
  is_u8 b0 -> is_u8 b1 -> is_u8 b2 -> is_u8 b3 -> bswap32 (le32 b0 b1 b2 b3) = le32 b3 b2 b1 b0.
Proof.
  unfold is_u8. intros. unfold bswap32. rewrite !land_byte1, !Z.shiftr_div_pow2 by lia.
  change 255 with (Z.ones 8). rewrite Z.land_ones by lia. change (2 ^ 8) with 256. change (2 ^ 24) with 16777216.
  replace (le32 b0 b1 b2 b3 mod 256) with b0 by (unfold le32; Z.to_euclidean_division_equations; lia).
  replace (le32 b0 b1 b2 b3 / 256 mod 256) with b1 by (unfold le32; Z.to_euclidean_division_equations; lia).
  replace (le32 b0 b1 b2 b3 / 256 / 256 mod 256) with b2 by (unfold le32; Z.to_euclidean_division_equations; lia).
  replace (le32 b0 b1 b2 b3 / 16777216) with b3 by (unfold le32; Z.to_euclidean_division_equations; lia).
  rewrite (lor_shift b2 b3) by lia. rewrite Z.shiftl_shiftl by lia.
  rewrite (lor_shift b0) by (rewrite ?Z.shiftl_mul_pow2; lia).
  rewrite Z.shiftl_mul_pow2 by lia.
  replace (b0 * 2 ^ 24 + b1 * 2 ^ (8 + 8)) with (Z.shiftl (b0 * 256 + b1) 16) by (rewrite Z.shiftl_mul_pow2; lia).
  rewrite lor_shift by lia. unfold le32. lia.
Qed.

(** Induction over a list two elements at a time. *)
Lemma list_ind2 {A} (P : list A -> Prop) :
  P [] -> (forall x, P [x]) -> (forall x y l, P l -> P (x :: y :: l)) -> forall l, P l.
Proof.
  intros P0 P1 P2. assert (G : forall n l, (length l <= n)%nat -> P l); [|intros l; by apply (G (length l))].
  induction n as [|n IH]; intros [|x [|y l]] Hl; simpl in Hl; auto; try lia. apply P2, IH. lia.
Qed.

(** ** C strings *)

(** The bytes of a C string up to its NUL; [None] when the object holds none. *)
Fixpoint cstring (s : list Z) : option (list Z) :=
  match s with
  | [] => None
  | b :: s' => if b =? 0 then Some [] else cons b <$> cstring s'
  end.

(** Standard library strlen. *)
Definition strlen (s : list Z) : option Z := zlen <$> cstring s.

Definition no_nul (s : list Z) : Prop := Forall (fun b => b <> 0) s.

Lemma cstring_app s t : no_nul s -> cstring (s ++ 0 :: t) = Some s.
Proof.
  induction 1 as [|b s Hb _ IH]; [done|]. simpl.
  destruct (Z.eqb_spec b 0); [lia|]. by rewrite IH.
Qed.

Lemma cstring_inv s r : cstring s = Some r -> exists t, s = r ++ 0 :: t /\ no_nul r.
Proof.
  revert r. induction s as [|b s IH]; intros r; simpl; [done|].
  destruct (Z.eqb_spec b 0) as [->|Hb].
  - intros [= <-]. exists s. split; [done|constructor].
  - destruct (cstring s) as [r'|] eqn:E; [|done]. intros [= <-].
    destruct (IH r' eq_refl) as (t & -> & Hr). exists t. split; [done|].
    by constructor.
Qed.

Lemma strlen_app s t : no_nul s -> strlen (s ++ 0 :: t) = Some (zlen s).
Proof. intros. unfold strlen. by rewrite cstring_app. Qed.

(** ** Return codes *)

(** lib-sxe-log/sxe-log.h:91-119, SXE_RETURN. Values of errno; the model needs only that they differ. *)
Inductive SXE_RETURN :=
| SXE_RETURN_OK
| SXE_RETURN_NO_SUCH_PROCESS
| SXE_RETURN_ERROR_INTERRUPTED
| SXE_RETURN_ERROR_WRITE_FAILED
| SXE_RETURN_ERROR_COMMAND_NOT_RUN
| SXE_RETURN_WARN_ALREADY_CLOSED
| SXE_RETURN_WARN_WOULD_BLOCK
| SXE_RETURN_ERROR_ALLOC
| SXE_RETURN_ERROR_INVALID
| SXE_RETURN_OUT_OF_RANGE
| SXE_RETURN_DEADLOCK_WOULD_OCCUR
| SXE_RETURN_ERROR_LOCK_NOT_TAKEN
| SXE_RETURN_END_OF_FILE
| SXE_RETURN_ERROR_BAD_MESSAGE
| SXE_RETURN_ERROR_INCORRECT_STATE
| SXE_RETURN_ERROR_ADDRESS_IN_USE
| SXE_RETURN_NO_UNUSED_ELEMENTS
| SXE_RETURN_ERROR_ALREADY_CONNECTED
| SXE_RETURN_ERROR_NO_CONNECTION
| SXE_RETURN_ERROR_TIMED_OUT
| SXE_RETURN_WARN_ALREADY_INITIALIZED
| SXE_RETURN_IN_PROGRESS
| SXE_RETURN_ERROR_NOT_INITIALIZED
| SXE_RETURN_UNCATEGORIZED
| SXE_RETURN_EXPIRED_VALUE
| SXE_RETURN_ERROR_INTERNAL
| SXE_RETURN_INVALID_VALUE.

#[export] Instance SXE_RETURN_eq_dec : EqDecision SXE_RETURN.
Proof. solve_decision. Defined.

(** ** Automation *)

(** Case split on the test of the goal's or a hypothesis' conditional. *)
Ltac case_if :=
  match goal with
  | |- context [if ?b then _ else _] => destruct b eqn:?
  | H : context [if ?b then _ else _] |- _ => destruct b eqn:?
  end.

(** Evaluate the constant powers of two of the goal. *)
Ltac eval_pow2 :=
  repeat match goal with
  | |- context [2 ^ ?e] => let v := eval vm_compute in (2 ^ e) in change (2 ^ e) with v
  end.

(** Run the first command of a sequence by the equation [E] for it. *)
Ltac step_by E := rewrite (cmd_bind_ret _ _ _ _ _ E).

(** Run the monadic operations on known results. *)
Ltac mrun :=
  repeat (unfold mbind, mret, outcome_bind, outcome_ret, cmd_bind, cmd_ret, lift, gets, modify,
            assert1, load in *; simpl).
