(* ===== verification/Spinlock.v ===== *)
(** * Spinlock: the lock of lib-sxe-mmap/sxe-spinlock.h

    The atomic compare and exchange is one step. [sxe_spinlock_take] is the
    loop of one thread among others: between two of its attempts (the yield)
    the others may change the store, which is the argument [others]. [step]
    interleaves any number of threads; the lock is mutually exclusive in every
    reachable state. *)

From S2P Require Import Prelude.

(** lib-sxe-mmap/sxe-spinlock.h:101-105, SXE_SPINLOCK_STATUS. *)
Inductive SXE_SPINLOCK_STATUS :=
| SXE_SPINLOCK_STATUS_NOT_TAKEN
| SXE_SPINLOCK_STATUS_TAKEN
| SXE_SPINLOCK_STATUS_ALREADY_TAKEN.

#[export] Instance SXE_SPINLOCK_STATUS_eq_dec : EqDecision SXE_SPINLOCK_STATUS.
Proof. solve_decision. Defined.

(** lib-sxe-mmap/sxe-spinlock.h:107-109, SXE_SPINLOCK. *)
Record SXE_SPINLOCK := mk_spinlock { lock : Z }.

(** A store that contains a spinlock, and the laws of its accessors. *)
Class HasLock (S : Type) := {
  get_lock : S -> Z;
  put_lock : Z -> S -> S;
  has_lock : S -> Prop;
  get_put_lock : forall v s, has_lock s -> get_lock (put_lock v s) = v;
  put_put_lock : forall v w s, put_lock v (put_lock w s) = put_lock v s;
  put_get_lock : forall s, put_lock (get_lock s) s = s
}.

#[export, refine] Instance spinlock_has_lock : HasLock SXE_SPINLOCK :=
  {| get_lock := lock; put_lock v _ := mk_spinlock v; has_lock _ := True |}.
Proof. all: by try intros []. Defined.

(** lib-sxe-mmap/sxe-mmap.c:33-33, sxe_spinlock_count_max. *)
Definition sxe_spinlock_count_max : Z := 1000000.

Section Ops.
Context {S : Type} `{!HasLock S}.

(** lib-sxe-mmap/sxe-spinlock.h:63-67, InterlockedCompareExchange. *)
Definition InterlockedCompareExchange (Exchange Comperand : Z) (s : S) : Z * S :=
  let old := get_lock s in
  (old, if old =? Comperand then put_lock Exchange s else s).

(** lib-sxe-mmap/sxe-spinlock.h:111-115, sxe_spinlock_construct. *)
Definition sxe_spinlock_construct (s : S) : S := put_lock 0 s.

(** lib-sxe-mmap/sxe-spinlock.h:117-121, sxe_spinlock_force. Others may run between the
    two exchanges. *)
Definition sxe_spinlock_force (others : S -> S) (tid : Z) (s : S) : S :=
  let '(old, s) := InterlockedCompareExchange tid tid s in
  snd (InterlockedCompareExchange tid old (others s)).

(** What one evaluation of the loop's condition and body decides. *)
Inductive attempt := Done (st : SXE_SPINLOCK_STATUS) | Again.

(** lib-sxe-mmap/sxe-spinlock.h:132-149, sxe_spinlock_take. One turn of the loop, and the
    test after it. *)
Definition take_turn (max our_tid count : Z) (s : S) : attempt * S :=
  if count <? max then
    let '(old_tid, s) := InterlockedCompareExchange our_tid 0 s in
    if negb (old_tid =? 0) then
      if old_tid =? our_tid then (Done SXE_SPINLOCK_STATUS_ALREADY_TAKEN, s) else (Again, s)
    else (Done (if count >=? max then SXE_SPINLOCK_STATUS_NOT_TAKEN else SXE_SPINLOCK_STATUS_TAKEN), s)
  else (Done SXE_SPINLOCK_STATUS_NOT_TAKEN, s).

(** The loop; [rest] is the number of turns that remain. *)
Fixpoint take_loop (others : Z -> S -> S) (max our_tid : Z) (rest : nat) (count : Z) (s : S)
  : SXE_SPINLOCK_STATUS * S :=
  match take_turn max our_tid count s with
  | (Done st, s) => (st, s)
  | (Again, s) =>
      match rest with
      | O => (SXE_SPINLOCK_STATUS_NOT_TAKEN, s)
      | Datatypes.S rest => take_loop others max our_tid rest (u32 (count + 1)) (others count s)
      end
  end.

(** lib-sxe-mmap/sxe-spinlock.h:123-150, sxe_spinlock_take. *)
Definition sxe_spinlock_take (others : Z -> S -> S) (max our_tid : Z) (s : S)
  : SXE_SPINLOCK_STATUS * S :=
  take_loop others max our_tid (Z.to_nat max) 0 s.

(** lib-sxe-mmap/sxe-spinlock.h:152-160, sxe_spinlock_give. *)
Definition sxe_spinlock_give (our_tid : Z) : cmd S unit := fun s =>
  let '(old_tid, s) := InterlockedCompareExchange 0 our_tid s in
  if old_tid =? our_tid then Ret (tt, s) else Abort.

(** ** One thread *)

(** The store just before attempt number [n] of a thread that has not got the
    lock yet. *)
Fixpoint before (others : Z -> S -> S) (n : nat) (s : S) : S :=
  match n with
  | O => s
  | Datatypes.S n => others (Z.of_nat n) (before others n s)
  end.

Lemma take_turn_cases max our_tid count s :
  count < max ->
  take_turn max our_tid count s =
  if get_lock s =? 0 then (Done SXE_SPINLOCK_STATUS_TAKEN, put_lock our_tid s)
  else if get_lock s =? our_tid then (Done SXE_SPINLOCK_STATUS_ALREADY_TAKEN, s)
  else (Again, s).
Proof.
  intros Hc. unfold take_turn, InterlockedCompareExchange.
  destruct (Z.ltb_spec count max); [|lia]. destruct (get_lock s =? 0); simpl; [|done].
  unfold Z.geb. by destruct (Z.compare_spec count max); try lia.
Qed.

Lemma take_turn_end max our_tid count s :
  max <= count -> take_turn max our_tid count s = (Done SXE_SPINLOCK_STATUS_NOT_TAKEN, s).
Proof. intros. unfold take_turn. by destruct (Z.ltb_spec count max); [lia|]. Qed.

(** The first attempt, if any of the [max] ones, that does not find the lock
    with another thread. *)
Fixpoint first_open (others : Z -> S -> S) (our_tid : Z) (k n : nat) (s : S) : option nat :=
  match k with
  | O => None
  | Datatypes.S k =>
      let v := get_lock (before others n s) in
      if (v =? 0) || (v =? our_tid) then Some n else first_open others our_tid k (Datatypes.S n) s
  end.

Lemma take_loop_spec others max our_tid rest n s :
  is_u32 max -> Z.of_nat n <= max -> (max = Z.of_nat rest + Z.of_nat n) ->
  take_loop others max our_tid rest (Z.of_nat n) (before others n s) =
  match first_open others our_tid rest n s with
  | Some k => let sk := before others k s in
              if get_lock sk =? 0 then (SXE_SPINLOCK_STATUS_TAKEN, put_lock our_tid sk)
              else (SXE_SPINLOCK_STATUS_ALREADY_TAKEN, sk)
  | None => (SXE_SPINLOCK_STATUS_NOT_TAKEN, before others (n + rest) s)
  end.
Proof.
  revert n. induction rest as [|rest IH]; intros n Hm Hn E.
  - simpl. rewrite take_turn_end by lia. by rewrite Nat.add_0_r.
  - cbn [take_loop first_open]. rewrite take_turn_cases by lia. cbv zeta.
    destruct (get_lock (before others n s) =? 0) eqn:E0; simpl; [by rewrite E0|].
    destruct (get_lock (before others n s) =? our_tid) eqn:E1; simpl; [by rewrite E0|].
    replace (u32 (Z.of_nat n + 1)) with (Z.of_nat (Datatypes.S n)) by word_lia.
    change (others (Z.of_nat n) (before others n s)) with (before others (Datatypes.S n) s).
    rewrite IH by (done || lia). by rewrite Nat.add_succ_r.
Qed.

(** Taking the lock makes at most [max] attempts and reports the first one
    that found the lock free (the caller then owns it) or already its own; if
    every attempt found it with another thread, nothing was changed by the
    caller. *)
Theorem sxe_spinlock_take_spec others max our_tid s :
  is_u32 max ->
  sxe_spinlock_take others max our_tid s =
  match first_open others our_tid (Z.to_nat max) 0 s with
  | Some k => let sk := before others k s in
              if get_lock sk =? 0 then (SXE_SPINLOCK_STATUS_TAKEN, put_lock our_tid sk)
              else (SXE_SPINLOCK_STATUS_ALREADY_TAKEN, sk)
  | None => (SXE_SPINLOCK_STATUS_NOT_TAKEN, before others (Z.to_nat max) s)
  end.
Proof.
  intros Hm. unfold is_u32 in *. unfold sxe_spinlock_take.
  apply (take_loop_spec others max our_tid (Z.to_nat max) 0 s); unfold is_u32; lia.
Qed.

(** A free lock is taken by the first attempt. *)
Lemma take_free others max our_tid s :
  0 < max -> get_lock s = 0 ->
  sxe_spinlock_take others max our_tid s = (SXE_SPINLOCK_STATUS_TAKEN, put_lock our_tid s).
Proof.
  intros Hm E. unfold sxe_spinlock_take. destruct (Z.to_nat max) eqn:En; [lia|]. cbn [take_loop].
  rewrite take_turn_cases by done. by rewrite E.
Qed.

(** Giving up a lock that was taken restores the free lock. *)
Lemma give_taken our_tid s :
  has_lock s -> sxe_spinlock_give our_tid (put_lock our_tid s) = Ret (tt, put_lock 0 s).
Proof.
  intros Hl. unfold sxe_spinlock_give, InterlockedCompareExchange.
  by rewrite get_put_lock, Z.eqb_refl, put_put_lock.
Qed.

(** A forced lock ends with the given thread when no other thread intervenes. *)
Lemma force_alone tid s : has_lock s -> sxe_spinlock_force (fun s => s) tid s = put_lock tid s.
Proof.
  intros Hl. unfold sxe_spinlock_force, InterlockedCompareExchange.
  destruct (Z.eqb_spec (get_lock s) tid) as [E|E]; simpl.
  - rewrite get_put_lock by done. rewrite E, Z.eqb_refl. simpl. by rewrite put_put_lock.
  - by rewrite Z.eqb_refl.
Qed.

(** Every property that the other threads maintain holds when the lock has
    been taken, just before the lock word was written. *)
Lemma take_rely (Inv : S -> Prop) others max our_tid s st s' :
  is_u32 max -> Inv s -> (forall n s, Inv s -> Inv (others n s)) ->
  sxe_spinlock_take others max our_tid s = (st, s') ->
  match st with
  | SXE_SPINLOCK_STATUS_TAKEN => exists s1, Inv s1 /\ get_lock s1 = 0 /\ s' = put_lock our_tid s1
  | SXE_SPINLOCK_STATUS_ALREADY_TAKEN => Inv s' /\ get_lock s' <> 0
  | SXE_SPINLOCK_STATUS_NOT_TAKEN => Inv s'
  end.
Proof.
  intros Hm Hs Ho. unfold sxe_spinlock_take.
  assert (B : forall n, Inv (before others n s)) by (induction n; simpl; auto).
  intros E. pose proof (take_loop_spec others max our_tid (Z.to_nat max) 0 s Hm) as T.
  unfold is_u32 in *. change (before others 0 s) with s in T. change (Z.of_nat 0) with 0 in T.
  rewrite E in T. specialize (T ltac:(lia) ltac:(lia)).
  destruct (first_open _ _ _ _ _) as [k|]; [|by injection T as -> ->].
  cbv zeta in T. destruct (Z.eqb_spec (get_lock (before others k s)) 0); injection T as -> ->; eauto.
Qed.
End Ops.

(** ** Any number of threads

    Each thread runs its own program counter over one shared lock. A thread
    that is [Idle] may start to take the lock; a [Trying] thread makes one
    attempt per step; a [Holding] thread may give the lock up. Thread ids are
    not zero, as the operating system guarantees. *)
Inductive pc := Idle | Trying (count : Z) | Holding.

Record system := mk_system { shared : SXE_SPINLOCK; pcs : Z -> pc }.

Definition set_pc (t : Z) (p : pc) (f : Z -> pc) : Z -> pc :=
  fun u => if decide (u = t) then p else f u.

Inductive step (max : Z) : system -> system -> Prop :=
| step_start t l f : t <> 0 -> f t = Idle ->
    step max (mk_system l f) (mk_system l (set_pc t (Trying 0) f))
| step_again t count l l' f : t <> 0 -> f t = Trying count ->
    take_turn max t count l = (Again, l') ->
    step max (mk_system l f) (mk_system l' (set_pc t (Trying (u32 (count + 1))) f))
| step_done t count st l l' f : t <> 0 -> f t = Trying count ->
    take_turn max t count l = (Done st, l') ->
    step max (mk_system l f)
      (mk_system l' (set_pc t (if decide (st = SXE_SPINLOCK_STATUS_TAKEN) then Holding else Idle) f))
| step_give t l l' f : t <> 0 -> f t = Holding ->
    sxe_spinlock_give t l = Ret (tt, l') ->
    step max (mk_system l f) (mk_system l' (set_pc t Idle f)).

Inductive reachable (max : Z) : system -> Prop :=
| reach_init : reachable max (mk_system (sxe_spinlock_construct (mk_spinlock 0)) (fun _ => Idle))
| reach_step s s' : reachable max s -> step max s s' -> reachable max s'.

(** The lock word names the holder, and nobody holds a lock that is zero. *)
Definition lock_inv (s : system) : Prop :=
  forall t, pcs s t = Holding <-> t <> 0 /\ lock (shared s) = t.

(** A turn that does not take the lock leaves it alone; one that takes it
    found it free. *)
Lemma take_turn_word max t count l a l' :
  take_turn max t count l = (a, l') ->
  match a with
  | Done SXE_SPINLOCK_STATUS_TAKEN => lock l = 0 /\ lock l' = t
  | _ => l' = l
  end.
Proof.
  destruct (Z.lt_ge_cases count max) as [H|H]; [rewrite take_turn_cases by done|rewrite take_turn_end by done].
  - simpl. destruct (Z.eqb_spec (lock l) 0), (Z.eqb_spec (lock l) t); by intros [= <- <-].
  - by intros [= <- <-].
Qed.

Lemma step_inv max s s' : lock_inv s -> step max s s' -> lock_inv s'.
Proof.
  intros I St u. revert I.
  destruct St as [t l f Ht Hi|t count l l' f Ht Hi E|t count st l l' f Ht Hi E|t l l' f Ht Hi E];
    intros I; pose proof (I u) as Iu; pose proof (I t) as It; simpl in *; unfold set_pc.
  - destruct (decide (u = t)) as [->|]; [|done]. rewrite Hi in It. by rewrite <-It.
  - apply take_turn_word in E as ->. destruct (decide (u = t)) as [->|]; [|done].
    rewrite Hi in It. by rewrite <-It.
  - apply take_turn_word in E. destruct st; simpl in *.
    1,3: subst l'; destruct (decide (u = t)) as [->|]; [|done]; rewrite Hi in It; by rewrite <-It.
    destruct E as [E0 E1]. rewrite E1. destruct (decide (u = t)) as [->|]; [by split|].
    rewrite Iu, E0. split; [intros [? ?]; congruence|intros [_ ?]; congruence].
  - unfold sxe_spinlock_give, InterlockedCompareExchange in E. simpl in E.
    destruct (Z.eqb_spec (lock l) t) as [El|]; [|done]. injection E as [= <-]. simpl.
    destruct (decide (u = t)) as [->|]; [split; [done|]; intros [? ?]; congruence|].
    rewrite Iu. split; intros [? ?]; congruence.
Qed.

Lemma reachable_inv max s : reachable max s -> lock_inv s.
Proof.
  induction 1 as [|s s' _ IH St]; [|by eapply step_inv].
  intros t. simpl. split; [done|]. intros [? ?]; congruence.
Qed.

(** C36: in every reachable state of any number of threads at most one thread
    holds the lock. *)
Theorem spinlock_mutual_exclusion max s t u :
  reachable max s -> pcs s t = Holding -> pcs s u = Holding -> t = u.
Proof. intros I%reachable_inv [_ <-]%I [_ <-]%I. done. Qed.

(** A thread that holds the lock can always give it up (the release
    assertion never fires for it), and the lock is then free; any other thread
    that tries to give it up aborts. *)
Theorem spinlock_give_spec max s t u :
  reachable max s -> pcs s t = Holding -> u <> t ->
  sxe_spinlock_give t (shared s) = Ret (tt, mk_spinlock 0) /\
  sxe_spinlock_give u (shared s) = Abort.
Proof.
  intros I%reachable_inv [_ E]%I Hu. unfold sxe_spinlock_give, InterlockedCompareExchange. simpl.
  destruct (Z.eqb_spec (lock (shared s)) t), (Z.eqb_spec (lock (shared s)) u); try done; congruence.
Qed.

(** ** Witnesses *)
Definition trying_twice (n : Z) (l : SXE_SPINLOCK) : SXE_SPINLOCK :=
  if n =? 1 then mk_spinlock 0 else l.

Lemma sxe_spinlock_take_spec_witness :
  sxe_spinlock_take trying_twice sxe_spinlock_count_max 7 (mk_spinlock 9) =
  (SXE_SPINLOCK_STATUS_TAKEN, mk_spinlock 7).
Proof. rewrite sxe_spinlock_take_spec; [reflexivity|]. unfold is_u32, sxe_spinlock_count_max. lia. Defined.

(** Thread 5 takes the lock. *)
Lemma one_holder : reachable 10 (mk_system (mk_spinlock 5) (set_pc 5 Holding (set_pc 5 (Trying 0) (fun _ => Idle)))).
Proof.
  eapply reach_step; [eapply reach_step; [apply reach_init|]|].
  - by apply (step_start _ 5).
  - by apply (step_done _ 5 0 SXE_SPINLOCK_STATUS_TAKEN).
Qed.

(** Thread 7 tries while thread 5 holds the lock: it is not let in, now or at its next attempt. *)
Definition contended : system := mk_system (mk_spinlock 5) (set_pc 7 (Trying 1) (set_pc 7 (Trying 0) (set_pc 5 Holding (set_pc 5 (Trying 0) (fun _ => Idle))))).
Lemma contended_reachable : reachable 10 contended.
Proof.
  eapply reach_step; [eapply reach_step; [exact one_holder|]|].
  - by apply (step_start _ 7).
  - by apply (step_again _ 7 0 (mk_spinlock 5) (mk_spinlock 5)).
Qed.

Lemma spinlock_mutual_exclusion_witness : pcs contended 5 = Holding /\ (forall s, s = contended \/ step 10 contended s -> pcs s 5 = Holding -> pcs s 7 <> Holding).
Proof.
  split; [reflexivity|]. intros s [->|St] H5 H7.
  - discriminate (spinlock_mutual_exclusion 10 contended 5 7 contended_reachable H5 H7).
  - discriminate (spinlock_mutual_exclusion 10 s 5 7 (reach_step 10 contended s contended_reachable St) H5 H7).
Defined.

Lemma spinlock_give_spec_witness :
  sxe_spinlock_give 5 (mk_spinlock 5) = Ret (tt, mk_spinlock 0) /\ sxe_spinlock_give 6 (mk_spinlock 5) = Abort.
Proof. by apply (spinlock_give_spec 10 _ 5 6 one_holder). Defined.
