(* ===== verification/SxeList.v ===== *)
(** * SxeList: the intrusive doubly linked list (lib-sxe-list)

    Nodes live in a memory indexed by address and hold relative pointers, the
    way the code stores them so that a list can be mapped at another address.
    [is_list] is the representation predicate; the operations are shown to be
    the operations of a functional deque of node addresses. *)

From S2P Require Import Prelude.

(** lib-sxe-list/sxe-list.h:34-38, SXE_LIST_NODE. *)
Record SXE_LIST_NODE := mk_node { next : Z; prev : Z; id : Z }.

(** lib-sxe-list/sxe-list.h:40-44, SXE_LIST. The sentinel is the structure's first
    member, so it is the node at the list's own address. *)
Record SXE_LIST := mk_list { llength : Z; offset : Z }.

(** lib-sxe-list/sxe-list.h:46-50, SXE_LIST_WALKER. *)
Record SXE_LIST_WALKER := mk_walker { w_list : Z; w_back : Z; w_node : Z }.

Record mem := mk_mem { nodes : gmap Z SXE_LIST_NODE; lists : gmap Z SXE_LIST }.

Definition NULL : Z := 0.

(** lib-sxe-util/sxe-util.h:50-50, SXE_PTR_REL. *)
Definition PTR_REL (base p : Z) : Z := u64 (p - base).
(** lib-sxe-util/sxe-util.h:49-49, SXE_PTR_FIX. *)
Definition PTR_FIX (base r : Z) : Z := u64 (r + base).

(** ** Memory accesses *)
Definition rd_field (f : SXE_LIST_NODE -> Z) (a : Z) : cmd mem Z :=
  fun m => match nodes m !! a with Some n => Ret (f n, m) | None => Fault end.
Abbreviation rd_next := (rd_field next).
Abbreviation rd_prev := (rd_field prev).
Abbreviation rd_id := (rd_field id).
Definition rd_list (l : Z) : cmd mem SXE_LIST :=
  fun m => match lists m !! l with Some h => Ret (h, m) | None => Fault end.
Definition upd_node (a : Z) (f : SXE_LIST_NODE -> SXE_LIST_NODE) : cmd mem unit :=
  fun m => match nodes m !! a with
           | Some n => Ret (tt, mk_mem (<[a := f n]> (nodes m)) (lists m))
           | None => Fault
           end.
Definition upd_length (l : Z) (f : Z -> Z) : cmd mem unit :=
  fun m => match lists m !! l with
           | Some h => Ret (tt, mk_mem (nodes m) (<[l := mk_list (f (llength h)) (offset h)]> (lists m)))
           | None => Fault
           end.
Definition set_next (v : Z) (n : SXE_LIST_NODE) := mk_node v (prev n) (id n).
Definition set_prev (v : Z) (n : SXE_LIST_NODE) := mk_node (next n) v (id n).
Definition set_id   (v : Z) (n : SXE_LIST_NODE) := mk_node (next n) (prev n) v.

(** ** Operations *)

(** lib-sxe-list/sxe-list.c:39-54, sxe_list_construct_impl. *)
Definition sxe_list_construct_impl (list i off : Z) : cmd mem unit := fun m =>
  Ret (tt, mk_mem (<[list := mk_node (PTR_REL list list) (PTR_REL list list) i]> (nodes m))
                  (<[list := mk_list 0 off]> (lists m))).

(** lib-sxe-list/sxe-list.h:28-28, SXE_LIST_GET_LENGTH. *)
Definition SXE_LIST_GET_LENGTH (list : Z) : cmd mem Z := h ← rd_list list; mret (llength h).
(** lib-sxe-list/sxe-list.h:29-29, SXE_LIST_IS_EMPTY. *)
Definition SXE_LIST_IS_EMPTY (list : Z) : cmd mem bool := h ← rd_list list; mret (llength h =? 0).
(** lib-sxe-list/sxe-list.h:30-30, SXE_LIST_NODE_GET_ID. *)
Definition SXE_LIST_NODE_GET_ID (node : Z) : cmd mem Z := rd_id node.

(** lib-sxe-list/sxe-list.c:56-73, sxe_list_push. *)
Definition sxe_list_push (list object : Z) : cmd mem unit :=
  h ← rd_list list;
  let node := u64 (object + offset h) in
  upd_node node (set_next (PTR_REL list list));;
  TAIL ← rd_prev list;
  upd_node node (set_prev TAIL);;
  upd_node list (set_prev (PTR_REL list node));;
  p ← rd_prev node;
  upd_node (PTR_FIX list p) (set_next (PTR_REL list node));;
  i ← rd_id list;
  upd_node node (set_id i);;
  upd_length list (fun k => u32 (k + 1)).

(** lib-sxe-list/sxe-list.c:75-92, sxe_list_unshift. *)
Definition sxe_list_unshift (list object : Z) : cmd mem unit :=
  h ← rd_list list;
  let node := u64 (object + offset h) in
  upd_node node (set_prev (PTR_REL list list));;
  HEAD ← rd_next list;
  upd_node node (set_next HEAD);;
  upd_node list (set_next (PTR_REL list node));;
  n ← rd_next node;
  upd_node (PTR_FIX list n) (set_prev (PTR_REL list node));;
  i ← rd_id list;
  upd_node node (set_id i);;
  upd_length list (fun k => u32 (k + 1)).

Section Operations.
Context `{Build}.

(** A condition that a debug build evaluates, reading memory, and a release
    build does not. *)
Definition check6 (c : cmd mem bool) : cmd mem unit :=
  if debug then b ← c; lift (assert1 b) else mret tt.

(** lib-sxe-list/sxe-list.c:94-120, sxe_list_remove. *)
Definition sxe_list_remove (list object : Z) : cmd mem Z :=
  h ← rd_list list;
  HEAD ← rd_next list;
  TAIL ← rd_prev list;
  let SENTINEL := PTR_REL list list in
  lift (assert1 (negb (HEAD =? SENTINEL) && negb (TAIL =? SENTINEL)));;
  lift (assert1 (negb (HEAD =? SENTINEL) || negb (TAIL =? SENTINEL)));;
  let node := u64 (object + offset h) in
  check6 (i ← rd_id node; j ← rd_id list; mret (i =? j));;
  n ← rd_next node;
  p ← rd_prev node;
  lift (assert1 (negb (n =? PTR_REL list NULL) && negb (p =? PTR_REL list NULL)));;
  upd_node (PTR_FIX list n) (set_prev p);;
  p ← rd_prev node;
  n ← rd_next node;
  upd_node (PTR_FIX list p) (set_next n);;
  upd_node node (set_prev (PTR_REL list NULL));;
  upd_node node (set_next (PTR_REL list NULL));;
  upd_length list (fun k => u32 (k - 1));;
  mret object.

(** lib-sxe-list/sxe-list.c:122-145, sxe_list_pop. *)
Definition sxe_list_pop (list : Z) : cmd mem Z :=
  TAIL ← rd_prev list;
  let node := PTR_FIX list TAIL in
  if node =? list then
    HEAD ← rd_next list;
    lift (assert1 (HEAD =? PTR_REL list list));;
    mret NULL
  else
    h ← rd_list list;
    sxe_list_remove list (u64 (node - offset h)).

(** lib-sxe-list/sxe-list.c:147-170, sxe_list_shift. *)
Definition sxe_list_shift (list : Z) : cmd mem Z :=
  HEAD ← rd_next list;
  let node := PTR_FIX list HEAD in
  if node =? list then
    TAIL ← rd_prev list;
    lift (assert1 (TAIL =? PTR_REL list list));;
    mret NULL
  else
    h ← rd_list list;
    sxe_list_remove list (u64 (node - offset h)).

(** lib-sxe-list/sxe-list.c:172-203, sxe_list_peek_head. *)
Definition sxe_list_peek_head (list : Z) : cmd mem Z :=
  HEAD ← rd_next list;
  TAIL ← rd_prev list;
  let SENTINEL := PTR_REL list list in
  if HEAD =? SENTINEL then
    lift (assert1 (TAIL =? SENTINEL));;
    mret NULL
  else
    lift (assert1 (negb (TAIL =? SENTINEL)));;
    p ← rd_prev (PTR_FIX list HEAD);
    lift (assert1 (p =? SENTINEL));;
    let node := PTR_FIX list HEAD in
    check6 (i ← rd_id node; j ← rd_id list; mret (i =? j));;
    check6 (n ← rd_next (PTR_FIX list TAIL); mret (n =? SENTINEL));;
    h ← rd_list list;
    mret (u64 (node - offset h)).

(** lib-sxe-list/sxe-list.c:205-236, sxe_list_peek_tail. *)
Definition sxe_list_peek_tail (list : Z) : cmd mem Z :=
  HEAD ← rd_next list;
  TAIL ← rd_prev list;
  let SENTINEL := PTR_REL list list in
  if TAIL =? SENTINEL then
    lift (assert1 (HEAD =? SENTINEL));;
    mret NULL
  else
    lift (assert1 (negb (HEAD =? SENTINEL)));;
    n ← rd_next (PTR_FIX list TAIL);
    lift (assert1 (n =? SENTINEL));;
    let node := PTR_FIX list TAIL in
    check6 (i ← rd_id node; j ← rd_id list; mret (i =? j));;
    check6 (p ← rd_prev (PTR_FIX list HEAD); mret (p =? SENTINEL));;
    h ← rd_list list;
    mret (u64 (node - offset h)).
End Operations.

(** ** Walkers *)

(** lib-sxe-list/sxe-list-walker.c:26-40, sxe_list_walker_construct. *)
Definition sxe_list_walker_construct (list : Z) : SXE_LIST_WALKER := mk_walker list list list.

(** lib-sxe-list/sxe-list-walker.c:42-64, sxe_list_walker_back. *)
Definition sxe_list_walker_back (w : SXE_LIST_WALKER) : cmd mem (Z * SXE_LIST_WALKER) :=
  if w_back w =? w_list w then mret (NULL, w)
  else
    h ← rd_list (w_list w);
    mret (u64 (w_back w - offset h), mk_walker (w_list w) (w_list w) (w_back w)).

(** lib-sxe-list/sxe-list-walker.c:65-85, sxe_list_walker_find. *)
Definition sxe_list_walker_find (w : SXE_LIST_WALKER) : cmd mem Z :=
  if w_node w =? w_list w then mret NULL
  else
    h ← rd_list (w_list w);
    mret (u64 (w_node w - offset h)).

(** lib-sxe-list/sxe-list-walker.c:87-109, sxe_list_walker_step. *)
Definition sxe_list_walker_step (w : SXE_LIST_WALKER) : cmd mem (Z * SXE_LIST_WALKER) :=
  n ← rd_next (w_node w);
  let node := PTR_FIX (w_list w) n in
  let w' := mk_walker (w_list w) (w_node w) node in
  if node =? w_list w then mret (NULL, w')
  else
    h ← rd_list (w_list w);
    mret (u64 (node - offset h), w').

(** ** Representation *)
Definition get_next (m : mem) (a : Z) : option Z := next <$> nodes m !! a.
Definition get_prev (m : mem) (a : Z) : option Z := prev <$> nodes m !! a.
Definition get_id   (m : mem) (a : Z) : option Z := id <$> nodes m !! a.

(** [seg m l p xs q]: starting at [p], the next links visit [xs] and reach [q],
    and the prev links lead back; links are relative to the list [l]. *)
Fixpoint seg (m : mem) (l p : Z) (xs : list Z) (q : Z) : Prop :=
  match xs with
  | [] => get_next m p = Some (PTR_REL l q) /\ get_prev m q = Some (PTR_REL l p)
  | x :: xs' => get_next m p = Some (PTR_REL l x) /\ get_prev m x = Some (PTR_REL l p) /\ seg m l x xs' q
  end.

(** The list at [l], with identifier [i] and member offset [off], holds exactly
    the nodes [xs], head first. *)
Record is_list (m : mem) (l i off : Z) (xs : list Z) : Prop := {
  il_seg : seg m l l xs l;
  il_nodup : NoDup (l :: xs);
  il_addr : Forall is_u64 (l :: xs);
  il_nonnull : Forall (fun a => a <> NULL) (l :: xs);
  il_ids : forall x, x ∈ l :: xs -> get_id m x = Some i;
  il_head : lists m !! l = Some (mk_list (u32 (zlen xs)) off)
}.

(** What an operation on the list [l] leaves alone. *)
Definition frame (m m' : mem) (l : Z) (touched : list Z) : Prop :=
  (forall a, a ∉ l :: touched -> nodes m' !! a = nodes m !! a) /\
  (forall a, a <> l -> lists m' !! a = lists m !! a) /\
  dom (nodes m') = dom (nodes m).

(** ** Effect of the updates on the fields *)
Definition up (a : Z) (f : SXE_LIST_NODE -> SXE_LIST_NODE) (m : mem) : mem :=
  match nodes m !! a with
  | Some n => mk_mem (<[a := f n]> (nodes m)) (lists m)
  | None => m
  end.
Definition up_len (l : Z) (f : Z -> Z) (m : mem) : mem :=
  match lists m !! l with
  | Some h => mk_mem (nodes m) (<[l := mk_list (f (llength h)) (offset h)]> (lists m))
  | None => m
  end.

Lemma up_lookup_ne a f m b : a <> b -> nodes (up a f m) !! b = nodes m !! b.
Proof. intros Hne. unfold up. destruct (nodes m !! a); [|done]. by apply lookup_insert_ne. Qed.

Lemma up_lists a f m : lists (up a f m) = lists m.
Proof. unfold up. by destruct (nodes m !! a). Qed.

Lemma up_dom a f m : dom (nodes (up a f m)) = dom (nodes m).
Proof.
  unfold up. destruct (nodes m !! a) eqn:E; [|done]. simpl.
  apply dom_insert_lookup_L. eauto.
Qed.

Lemma up_len_nodes l f m : nodes (up_len l f m) = nodes m.
Proof. unfold up_len. by destruct (lists m !! l). Qed.

Lemma up_len_lookup_eq l f m h :
  lists m !! l = Some h -> lists (up_len l f m) !! l = Some (mk_list (f (llength h)) (offset h)).
Proof. unfold up_len. intros ->. apply lookup_insert_eq. Qed.

Lemma up_len_lookup_ne l f m b : l <> b -> lists (up_len l f m) !! b = lists m !! b.
Proof. intros Hne. unfold up_len. destruct (lists m !! l); [|done]. by apply lookup_insert_ne. Qed.

(** Reading a field after an update: of another field, of another node, of the
    updated one. *)
Section Fields.
Variables (g : SXE_LIST_NODE -> Z) (a : Z) (f : SXE_LIST_NODE -> SXE_LIST_NODE) (m : mem).

Lemma field_other b : (forall n, g (f n) = g n) -> g <$> nodes (up a f m) !! b = g <$> nodes m !! b.
Proof.
  intros Hg. destruct (decide (a = b)) as [<-|]; [|by rewrite up_lookup_ne].
  unfold up. destruct (nodes m !! a) eqn:E; [|by rewrite E]. simpl.
  by rewrite lookup_insert_eq; simpl; rewrite Hg.
Qed.

Lemma field_eq v : (forall n, g (f n) = v) -> a ∈ dom (nodes m) -> g <$> nodes (up a f m) !! a = Some v.
Proof.
  intros Hg [n E]%elem_of_dom. unfold up. rewrite E. simpl.
  by rewrite lookup_insert_eq; simpl; rewrite Hg.
Qed.

Lemma field_ne b : a <> b -> g <$> nodes (up a f m) !! b = g <$> nodes m !! b.
Proof. intros. by rewrite up_lookup_ne. Qed.
End Fields.

Lemma next_eq a v m : a ∈ dom (nodes m) -> next <$> nodes (up a (set_next v) m) !! a = Some v.
Proof. by apply field_eq. Qed.
Lemma prev_eq a v m : a ∈ dom (nodes m) -> prev <$> nodes (up a (set_prev v) m) !! a = Some v.
Proof. by apply field_eq. Qed.
Lemma id_eq a v m : a ∈ dom (nodes m) -> id <$> nodes (up a (set_id v) m) !! a = Some v.
Proof. by apply field_eq. Qed.

Lemma upd_node_up a f m : a ∈ dom (nodes m) -> upd_node a f m = Ret (tt, up a f m).
Proof. intros [n E]%elem_of_dom. unfold upd_node, up. by rewrite E. Qed.

Lemma upd_length_up l f m h : lists m !! l = Some h -> upd_length l f m = Ret (tt, up_len l f m).
Proof. intros E. unfold upd_length, up_len. by rewrite E. Qed.

Lemma rd_field_ok g a m v : g <$> nodes m !! a = Some v -> rd_field g a m = Ret (v, m).
Proof. unfold rd_field. destruct (nodes m !! a); simpl; [|done]. by intros [= ->]. Qed.

Lemma rd_list_ok l m h : lists m !! l = Some h -> rd_list l m = Ret (h, m).
Proof. unfold rd_list. by intros ->. Qed.

(** Compute a field of an updated memory down to a fact of the context. *)
Ltac addr_ne := solve [done | by apply not_eq_sym | congruence].
Ltac node_field :=
  unfold get_next, get_prev, get_id in *; rewrite ?up_len_nodes;
  repeat first
    [ rewrite field_other by done
    | rewrite next_eq by (rewrite ?up_dom; assumption)
    | rewrite prev_eq by (rewrite ?up_dom; assumption)
    | rewrite id_eq by (rewrite ?up_dom; assumption)
    | rewrite field_ne by addr_ne ];
  try done.

(** ** Segments *)

(** The last node of a segment, and its first one. *)
Fixpoint final (p : Z) (xs : list Z) : Z :=
  match xs with [] => p | x :: xs' => final x xs' end.
Definition first (xs : list Z) (q : Z) : Z := match xs with [] => q | x :: _ => x end.

Lemma final_in p xs : final p xs ∈ p :: xs.
Proof. revert p. induction xs as [|x xs IH]; intros p; simpl; set_solver. Qed.

Lemma final_snoc p xs x : final p (xs ++ [x]) = x.
Proof. revert p. induction xs; simpl; auto. Qed.

Lemma first_in xs q : first xs q ∈ xs ++ [q].
Proof. destruct xs; simpl; set_solver. Qed.

Lemma seg_frame m m' l p xs q :
  seg m l p xs q ->
  (forall a, a ∈ p :: xs -> get_next m' a = get_next m a) ->
  (forall a, a ∈ xs ++ [q] -> get_prev m' a = get_prev m a) ->
  seg m' l p xs q.
Proof.
  revert p. induction xs as [|x xs IH]; intros p; simpl; intros Hs Hn Hp.
  - rewrite Hn, Hp by set_solver. done.
  - destruct Hs as (H1 & H2 & H3). rewrite Hn, Hp by set_solver.
    split_and!; try done. apply IH; set_solver.
Qed.

Lemma seg_ends m l p xs q :
  seg m l p xs q ->
  get_next m p = Some (PTR_REL l (first xs q)) /\
  get_prev m q = Some (PTR_REL l (final p xs)).
Proof.
  revert p. induction xs as [|x xs IH]; intros p; simpl; [done|].
  intros (H1 & H2 & H3). split; [done|]. by apply (IH x).
Qed.

Lemma seg_middle m l p xs x ys q :
  seg m l p (xs ++ x :: ys) q ->
  get_next m x = Some (PTR_REL l (first ys q)) /\
  get_prev m x = Some (PTR_REL l (final p xs)).
Proof.
  revert p. induction xs as [|y xs IH]; intros p; simpl.
  - intros (H1 & H2 & H3). split; [|done]. by apply seg_ends in H3 as [? _].
  - intros (H1 & H2 & H3). by apply (IH y).
Qed.

Lemma seg_snoc m m' l p xs q x :
  seg m l p xs q -> NoDup (p :: xs) ->
  (forall a, a ∈ p :: xs -> a <> final p xs -> get_next m' a = get_next m a) ->
  (forall a, a ∈ xs -> get_prev m' a = get_prev m a) ->
  get_next m' (final p xs) = Some (PTR_REL l x) -> get_prev m' x = Some (PTR_REL l (final p xs)) ->
  get_next m' x = Some (PTR_REL l q) -> get_prev m' q = Some (PTR_REL l x) ->
  seg m' l p (xs ++ [x]) q.
Proof.
  revert p. induction xs as [|y xs IH]; intros p; simpl; [done|].
  intros (H1 & H2 & H3) [Hp ND]%NoDup_cons Hn Hv Hl Hx1 Hx2 Hx3.
  pose proof (final_in y xs).
  rewrite Hn, Hv by set_solver. split_and!; try done.
  apply (IH y); auto; set_solver.
Qed.

Lemma seg_cons m m' l p xs q x :
  seg m l p xs q ->
  (forall a, a ∈ xs -> get_next m' a = get_next m a) ->
  (forall a, a ∈ xs ++ [q] -> a <> first xs q -> get_prev m' a = get_prev m a) ->
  NoDup (xs ++ [q]) ->
  get_next m' p = Some (PTR_REL l x) -> get_prev m' x = Some (PTR_REL l p) ->
  get_next m' x = Some (PTR_REL l (first xs q)) -> get_prev m' (first xs q) = Some (PTR_REL l x) ->
  seg m' l p (x :: xs) q.
Proof.
  intros Hs Hn Hv ND H1 H2 H3 H4. split_and!; try done.
  destruct xs as [|y xs]; simpl in *; [done|].
  destruct Hs as (_ & _ & Hs). split_and!; try done.
  apply NoDup_cons in ND as [Hy _].
  apply (seg_frame m); set_solver.
Qed.

Lemma seg_delete m m' l p xs x ys q :
  seg m l p (xs ++ x :: ys) q -> NoDup (p :: xs ++ x :: ys) -> NoDup (xs ++ x :: ys ++ [q]) ->
  (forall a, a ∈ p :: xs ++ ys -> a <> final p xs -> get_next m' a = get_next m a) ->
  (forall a, a ∈ xs ++ ys ++ [q] -> a <> first ys q -> get_prev m' a = get_prev m a) ->
  get_next m' (final p xs) = Some (PTR_REL l (first ys q)) ->
  get_prev m' (first ys q) = Some (PTR_REL l (final p xs)) ->
  seg m' l p (xs ++ ys) q.
Proof.
  revert p. induction xs as [|y xs IH]; intros p; simpl.
  - intros (H1 & H2 & Hs) ND ND' Hn Hv Hl Hf.
    destruct ys as [|y ys]; simpl in *; [done|]. destruct Hs as (_ & _ & Hs).
    split_and!; try done.
    apply NoDup_cons in ND' as [? [Hy ?]%NoDup_cons].
    apply NoDup_cons in ND as [Hp [? [? ?]%NoDup_cons]%NoDup_cons].
    apply (seg_frame m); [done|set_solver|].
    intros a Ha. apply Hv; set_solver.
  - intros (H1 & H2 & Hs) [Hp ND]%NoDup_cons [Hy ND']%NoDup_cons Hn Hv Hl Hf.
    pose proof (final_in y xs). pose proof (first_in ys q).
    rewrite Hn, Hv by set_solver. split_and!; try done.
    apply (IH y); auto; set_solver.
Qed.

(** ** Correctness of the operations *)
Lemma PTR_FIX_REL l a : is_u64 a -> PTR_FIX l (PTR_REL l a) = a.
Proof. apply u64_sub_add. Qed.

Lemma PTR_REL_eqb l a b : is_u64 a -> is_u64 b -> (PTR_REL l a =? PTR_REL l b) = bool_decide (a = b).
Proof.
  intros. destruct (Z.eqb_spec (PTR_REL l a) (PTR_REL l b)) as [E|E]; symmetry.
  - apply bool_decide_eq_true_2. eapply u64_sub_inj; eauto.
  - apply bool_decide_eq_false_2. congruence.
Qed.

Lemma get_next_Some m a v : get_next m a = Some v -> exists n, nodes m !! a = Some n /\ next n = v.
Proof. unfold get_next. destruct (nodes m !! a) eqn:E; simpl; [|done]. intros [= <-]. eauto. Qed.
Lemma get_prev_Some m a v : get_prev m a = Some v -> exists n, nodes m !! a = Some n /\ prev n = v.
Proof. unfold get_prev. destruct (nodes m !! a) eqn:E; simpl; [|done]. intros [= <-]. eauto. Qed.
Lemma get_id_Some m a v : get_id m a = Some v -> exists n, nodes m !! a = Some n /\ id n = v.
Proof. unfold get_id. destruct (nodes m !! a) eqn:E; simpl; [|done]. intros [= <-]. eauto. Qed.

Lemma is_list_sentinel m l i off xs :
  is_list m l i off xs ->
  nodes m !! l = Some (mk_node (PTR_REL l (first xs l)) (PTR_REL l (final l xs)) i).
Proof.
  intros [Hs ND Ha Hz Hi Hh]. destruct (seg_ends _ _ _ _ _ Hs) as [H1 H2].
  specialize (Hi l ltac:(set_solver)). unfold get_next, get_prev, get_id in *.
  destruct (nodes m !! l) as [[]|]; simpl in *; congruence.
Qed.

Lemma is_list_dom m l i off xs x : is_list m l i off xs -> x ∈ l :: xs -> x ∈ dom (nodes m).
Proof.
  intros [Hs ND Ha Hz Hi Hh] Hx. apply elem_of_dom.
  destruct (get_id_Some _ _ _ (Hi x Hx)) as (n & -> & _). eauto.
Qed.

Lemma is_list_u64 m l i off xs x : is_list m l i off xs -> x ∈ l :: xs -> is_u64 x.
Proof. intros [] Hx. by eapply Forall_forall. Qed.

Lemma is_list_nonnull m l i off xs x : is_list m l i off xs -> x ∈ l :: xs -> x <> NULL.
Proof. intros [] Hx. revert x Hx. by apply Forall_forall. Qed.

Lemma final_mem l xs : final l xs ∈ l :: xs.
Proof. apply final_in. Qed.
Lemma first_mem l xs : first xs l ∈ l :: xs.
Proof. destruct xs; simpl; set_solver. Qed.
Create HintDb lists.
#[export] Hint Resolve final_mem first_mem : lists.

(** The list depends only on its own nodes and its head. *)
Lemma is_list_frame m m' l i off xs :
  is_list m l i off xs ->
  (forall a, a ∈ l :: xs -> nodes m' !! a = nodes m !! a) ->
  lists m' !! l = lists m !! l ->
  is_list m' l i off xs.
Proof.
  intros [Hs ND Ha Hz Hi Hh] Hn Hl. split; try done.
  - apply (seg_frame m); [done| |]; intros a Ha'; unfold get_next, get_prev; rewrite Hn; set_solver.
  - intros x Hx. unfold get_id. rewrite Hn by done. by apply Hi.
  - by rewrite Hl.
Qed.

Lemma construct_spec m l i off :
  is_u64 l -> l <> NULL ->
  exists m', sxe_list_construct_impl l i off m = Ret (tt, m') /\ is_list m' l i off [] /\
    (forall a, a <> l -> nodes m' !! a = nodes m !! a) /\
    (forall a, a <> l -> lists m' !! a = lists m !! a) /\
    dom (nodes m') = {[l]} ∪ dom (nodes m).
Proof.
  intros Hl Hz. eexists. split; [done|]. simpl. split_and!.
  - split; simpl; unfold get_next, get_prev, get_id; simpl; rewrite ?lookup_insert_eq; simpl; try done.
    + apply NoDup_singleton.
    + by apply Forall_singleton.
    + by apply Forall_singleton.
    + intros x ->%list_elem_of_singleton. by rewrite lookup_insert_eq.
  - intros a Ha. by rewrite lookup_insert_ne.
  - intros a Ha. by rewrite lookup_insert_ne.
  - apply dom_insert_L.
Qed.

(** Run one memory access whose side condition is in the context. *)
Ltac cmd_step :=
  first
    [ erewrite cmd_bind_ret by (apply upd_node_up; rewrite ?up_dom; eassumption)
    | erewrite cmd_bind_ret by (apply rd_list_ok; rewrite ?up_lists; eassumption)
    | erewrite cmd_bind_ret by (apply rd_field_ok; node_field; eassumption) ].

Definition push_mem (l x t i : Z) (m : mem) : mem :=
  up_len l (fun k => u32 (k + 1))
    (up x (set_id i) (up t (set_next (PTR_REL l x))
      (up l (set_prev (PTR_REL l x)) (up x (set_prev (PTR_REL l t)) (up x (set_next (PTR_REL l l)) m))))).

Lemma push_run m l i off xs obj x :
  is_list m l i off xs -> x = u64 (obj + off) -> x ∉ l :: xs -> x ∈ dom (nodes m) ->
  sxe_list_push l obj m = Ret (tt, push_mem l x (final l xs) i m).
Proof.
  intros HL Ex Hx Hd.
  pose proof (il_head _ _ _ _ _ HL) as Hh.
  destruct (seg_ends _ _ _ _ _ (il_seg _ _ _ _ _ HL)) as [_ Ht].
  pose proof (il_ids _ _ _ _ _ HL l ltac:(constructor)) as Hi.
  assert (l ∈ dom (nodes m)) by (apply (is_list_dom _ _ _ _ _ _ HL); constructor).
  assert (final l xs ∈ dom (nodes m)) by (apply (is_list_dom _ _ _ _ _ _ HL), final_mem).
  assert (is_u64 (final l xs)) by (eapply is_list_u64; eauto with lists).
  assert (x <> l) by (intros E; apply Hx; rewrite E; constructor).
  assert (final l xs <> x) by (intros E; apply Hx; rewrite <-E; apply final_mem).
  unfold sxe_list_push. cmd_step. simpl offset. rewrite <-Ex.
  do 5 cmd_step. rewrite PTR_FIX_REL by done. do 3 cmd_step.
  eapply upd_length_up. rewrite !up_lists. done.
Qed.

(** Every node of a list, and the sentinel, differ from a node outside it. *)
Lemma outside_ne (x : Z) (L : list Z) a : x ∉ L -> a ∈ L -> a <> x.
Proof. by intros Hx Ha ->. Qed.

Lemma u32_succ n : u32 (u32 n + 1) = u32 (n + 1).
Proof. unfold u32. by rewrite Zplus_mod_idemp_l. Qed.
Lemma u32_pred n : u32 (u32 n - 1) = u32 (n - 1).
Proof. unfold u32. by rewrite Zminus_mod_idemp_l. Qed.

Lemma push_mem_list m l i off xs x :
  is_list m l i off xs -> x ∉ l :: xs -> x ∈ dom (nodes m) -> is_u64 x -> x <> NULL ->
  is_list (push_mem l x (final l xs) i m) l i off (xs ++ [x]).
Proof.
  intros HL Hx Hd Hu Hz. assert (HL' := HL). destruct HL' as [Hs ND Ha Hnn Hi Hh].
  pose proof (outside_ne _ _ _ Hx (final_mem l xs)).
  assert (l <> x) by (apply (outside_ne _ _ _ Hx); constructor).
  assert (l ∈ dom (nodes m)) by (apply (is_list_dom _ _ _ _ _ _ HL); constructor).
  assert (final l xs ∈ dom (nodes m)) by (apply (is_list_dom _ _ _ _ _ _ HL), final_mem).
  unfold push_mem. split.
  - apply (seg_snoc m); try done.
    + intros a Hin Hne. pose proof (outside_ne _ _ _ Hx Hin). node_field.
    + intros a Hin. pose proof (outside_ne x _ a Hx ltac:(set_solver)).
      assert (a <> l) by (intros ->; apply NoDup_cons in ND as [? _]; done). node_field.
    + node_field.
    + node_field.
    + node_field.
    + node_field.
  - rewrite app_comm_cons. apply NoDup_app. split_and!; [done|set_solver|apply NoDup_singleton].
  - rewrite app_comm_cons. apply Forall_app. split; [done|]. by apply Forall_singleton.
  - rewrite app_comm_cons. apply Forall_app. split; [done|]. by apply Forall_singleton.
  - intros y Hy. destruct (decide (y = x)) as [->|]; [node_field|].
    assert (y ∈ l :: xs) by set_solver. specialize (Hi y ltac:(done)). node_field.
  - erewrite up_len_lookup_eq by (rewrite ?up_lists; eassumption). simpl.
    f_equal. f_equal. rewrite u32_succ, zlen_app. done.
Qed.

Lemma push_mem_frame m l xs i x :
  frame m (push_mem l x (final l xs) i m) l (x :: xs).
Proof.
  pose proof (final_mem l xs). unfold push_mem. split_and!.
  - intros a Ha. rewrite up_len_nodes. rewrite !up_lookup_ne; set_solver.
  - intros a Ha. rewrite up_len_lookup_ne by done. by rewrite !up_lists.
  - by rewrite up_len_nodes, !up_dom.
Qed.

Theorem sxe_list_push_spec m l i off xs obj x :
  is_list m l i off xs -> x = u64 (obj + off) -> x ∉ l :: xs -> x ∈ dom (nodes m) -> x <> NULL ->
  exists m', sxe_list_push l obj m = Ret (tt, m') /\ is_list m' l i off (xs ++ [x]) /\ frame m m' l (x :: xs).
Proof.
  intros HL Hx Hout Hd Hz. eexists. split; [by eapply push_run|]. split.
  - apply push_mem_list; auto. subst. auto with machine.
  - apply push_mem_frame.
Qed.

(** *** Unshift *)
Definition unshift_mem (l x f i : Z) (m : mem) : mem :=
  up_len l (fun k => u32 (k + 1))
    (up x (set_id i) (up f (set_prev (PTR_REL l x))
      (up l (set_next (PTR_REL l x)) (up x (set_next (PTR_REL l f)) (up x (set_prev (PTR_REL l l)) m))))).

Lemma unshift_run m l i off xs obj x :
  is_list m l i off xs -> x = u64 (obj + off) -> x ∉ l :: xs -> x ∈ dom (nodes m) ->
  sxe_list_unshift l obj m = Ret (tt, unshift_mem l x (first xs l) i m).
Proof.
  intros HL Ex Hx Hd.
  pose proof (il_head _ _ _ _ _ HL) as Hh.
  destruct (seg_ends _ _ _ _ _ (il_seg _ _ _ _ _ HL)) as [Ht _].
  pose proof (il_ids _ _ _ _ _ HL l ltac:(constructor)) as Hi.
  assert (l ∈ dom (nodes m)) by (apply (is_list_dom _ _ _ _ _ _ HL); constructor).
  assert (first xs l ∈ dom (nodes m)) by (apply (is_list_dom _ _ _ _ _ _ HL), first_mem).
  assert (is_u64 (first xs l)) by (eapply is_list_u64; eauto with lists).
  assert (l <> x) by (apply (outside_ne _ _ _ Hx); constructor).
  pose proof (outside_ne _ _ _ Hx (first_mem l xs)).
  unfold sxe_list_unshift. cmd_step. simpl offset. rewrite <-Ex.
  do 5 cmd_step. rewrite PTR_FIX_REL by done. do 3 cmd_step.
  eapply upd_length_up. rewrite !up_lists. done.
Qed.

Lemma unshift_mem_list m l i off xs x :
  is_list m l i off xs -> x ∉ l :: xs -> x ∈ dom (nodes m) -> is_u64 x -> x <> NULL ->
  is_list (unshift_mem l x (first xs l) i m) l i off (x :: xs).
Proof.
  intros HL Hx Hd Hu Hz. assert (HL' := HL). destruct HL' as [Hs ND Ha Hnn Hi Hh].
  pose proof (outside_ne _ _ _ Hx (first_mem l xs)).
  assert (l <> x) by (apply (outside_ne _ _ _ Hx); constructor).
  assert (l ∈ dom (nodes m)) by (apply (is_list_dom _ _ _ _ _ _ HL); constructor).
  assert (first xs l ∈ dom (nodes m)) by (apply (is_list_dom _ _ _ _ _ _ HL), first_mem).
  assert (HP : x :: l :: xs ≡ₚ l :: x :: xs) by constructor.
  unfold unshift_mem. split.
  - apply (seg_cons m); try done.
    + intros a Hin. pose proof (outside_ne x _ a Hx ltac:(set_solver)).
      assert (a <> l) by (intros ->; apply NoDup_cons in ND as [? _]; done). node_field.
    + intros a Hin Hne. pose proof (outside_ne x _ a Hx ltac:(set_solver)). node_field.
    + apply NoDup_app. apply NoDup_cons in ND as [? ?].
      split_and!; [done|set_solver|apply NoDup_singleton].
    + node_field.
    + node_field.
    + node_field.
    + node_field.
  - rewrite <-HP. by apply NoDup_cons.
  - rewrite <-HP. by apply Forall_cons.
  - rewrite <-HP. by apply Forall_cons.
  - intros y Hy. destruct (decide (y = x)) as [->|]; [node_field|].
    assert (y ∈ l :: xs) by set_solver. specialize (Hi y ltac:(done)). node_field.
  - erewrite up_len_lookup_eq by (rewrite ?up_lists; eassumption). simpl.
    f_equal. f_equal. rewrite u32_succ, zlen_cons. f_equal. lia.
Qed.

Lemma unshift_mem_frame m l xs i x :
  frame m (unshift_mem l x (first xs l) i m) l (x :: xs).
Proof.
  pose proof (first_mem l xs). unfold unshift_mem. split_and!.
  - intros a Ha. rewrite up_len_nodes. rewrite !up_lookup_ne; set_solver.
  - intros a Ha. rewrite up_len_lookup_ne by done. by rewrite !up_lists.
  - by rewrite up_len_nodes, !up_dom.
Qed.

Theorem sxe_list_unshift_spec m l i off xs obj x :
  is_list m l i off xs -> x = u64 (obj + off) -> x ∉ l :: xs -> x ∈ dom (nodes m) -> x <> NULL ->
  exists m', sxe_list_unshift l obj m = Ret (tt, m') /\ is_list m' l i off (x :: xs) /\ frame m m' l (x :: xs).
Proof.
  intros HL Hx Hout Hd Hz. eexists. split; [by eapply unshift_run|]. split.
  - apply unshift_mem_list; auto. subst. auto with machine.
  - apply unshift_mem_frame.
Qed.

(** *** Remove *)
Definition remove_mem (l x p n : Z) (m : mem) : mem :=
  up_len l (fun k => u32 (k - 1))
    (up x (set_next (PTR_REL l NULL)) (up x (set_prev (PTR_REL l NULL))
      (up p (set_next (PTR_REL l n)) (up n (set_prev (PTR_REL l p)) m)))).

Section Remove.
Context `{Build}.
Variables (m : mem) (l i off : Z) (xs : list Z) (x : Z) (ys : list Z).
Hypothesis HL : is_list m l i off (xs ++ x :: ys).

Lemma remove_perm : l :: xs ++ x :: ys ≡ₚ x :: l :: xs ++ ys.
Proof using. solve_Permutation. Qed.

Lemma remove_facts :
  x <> l /\ final l xs <> x /\ first ys l <> x /\ NoDup (l :: xs ++ ys) /\ (x ∉ l :: xs ++ ys) /\
  final l xs ∈ l :: xs ++ x :: ys /\ first ys l ∈ l :: xs ++ x :: ys.
Proof.
  pose proof (il_nodup _ _ _ _ _ HL) as ND.
  rewrite remove_perm in ND. apply NoDup_cons in ND as [Hx ND'].
  pose proof (final_mem l xs). pose proof (first_mem l ys).
  split_and!; try done; set_solver.
Qed.

Lemma remove_run obj :
  x = u64 (obj + off) ->
  sxe_list_remove l obj m = Ret (obj, remove_mem l x (final l xs) (first ys l) m).
Proof.
  intros Ex. destruct remove_facts as (Hxl & Hpx & Hnx & ND' & Hx' & Hpin & Hnin).
  pose proof (il_head _ _ _ _ _ HL) as Hh.
  pose proof (il_seg _ _ _ _ _ HL) as Hs.
  destruct (seg_ends _ _ _ _ _ Hs) as [Hhd Htl].
  destruct (seg_middle _ _ _ _ _ _ _ Hs) as [Hxn Hxp].
  assert (Hxin : x ∈ l :: xs ++ x :: ys) by set_solver.
  pose proof (il_ids _ _ _ _ _ HL l ltac:(constructor)) as Hil.
  pose proof (il_ids _ _ _ _ _ HL x ltac:(done)) as Hix.
  assert (Hne : forall a, a ∈ xs ++ x :: ys -> a <> l).
  { intros a Ha ->. by apply NoDup_cons in ND' as [? _]; set_solver. }
  assert (U : forall a, a ∈ l :: xs ++ x :: ys -> is_u64 a) by (intros; by eapply is_list_u64).
  assert (Z0 : forall a, a ∈ l :: xs ++ x :: ys -> a <> NULL) by (intros; by eapply is_list_nonnull).
  assert (D : forall a, a ∈ l :: xs ++ x :: ys -> a ∈ dom (nodes m)) by (intros; by eapply is_list_dom).
  assert (first (xs ++ x :: ys) l <> l) by (apply Hne; destruct xs; simpl; set_solver).
  assert (final l (xs ++ x :: ys) <> l).
  { apply Hne. clear. assert (G : forall p, final p (xs ++ x :: ys) ∈ xs ++ x :: ys); [|done].
    induction xs as [|y zs IH]; intros p; simpl; [apply final_in|]. specialize (IH y). set_solver. }
  pose proof (D _ Hxin). pose proof (D _ Hpin). pose proof (D _ Hnin). pose proof (D l ltac:(constructor)).
  unfold sxe_list_remove.
  do 3 cmd_step. cbv zeta.
  assert (E0 : forall a, a ∈ l :: xs ++ x :: ys -> (PTR_REL l a =? PTR_REL l NULL) = false).
  { intros a Ha. rewrite PTR_REL_eqb; [|by apply U|by unfold NULL, is_u64]. by apply bool_decide_eq_false_2, Z0. }
  assert (E1 : forall a, a ∈ l :: xs ++ x :: ys -> a <> l -> (PTR_REL l a =? PTR_REL l l) = false).
  { intros a Ha Hal. rewrite PTR_REL_eqb; [|by apply U|apply U; constructor]. by apply bool_decide_eq_false_2. }
  rewrite (E1 (first _ _)), (E1 (final _ _)) by (done || apply first_mem || apply final_mem).
  simpl offset. rewrite <-Ex.
  do 2 (erewrite cmd_bind_ret by reflexivity).
  assert (Hck : check6 (i ← rd_id x; j ← rd_id l; mret (i =? j)) m = Ret (tt, m)).
  { unfold check6. destruct debug; [|done]. erewrite cmd_bind_ret; [|do 2 cmd_step; reflexivity].
    by rewrite Z.eqb_refl. }
  rewrite (cmd_bind_ret _ _ _ _ _ Hck).
  do 2 cmd_step. rewrite !E0 by done. erewrite cmd_bind_ret by reflexivity.
  rewrite PTR_FIX_REL by auto. do 3 cmd_step. rewrite PTR_FIX_REL by auto.
  do 3 cmd_step.
  erewrite cmd_bind_ret by (eapply upd_length_up; rewrite !up_lists; done). done.
Qed.

Lemma remove_mem_list :
  is_list (remove_mem l x (final l xs) (first ys l) m) l i off (xs ++ ys).
Proof.
  destruct remove_facts as (Hxl & Hpx & Hnx & ND' & Hx' & Hpin & Hnin).
  pose proof (is_list_dom _ _ _ _ _ _ HL Hpin). pose proof (is_list_dom _ _ _ _ _ _ HL Hnin).
  destruct HL as [Hs ND Ha Hz Hi Hh].
  assert (Hsub : forall a, a ∈ l :: xs ++ ys -> a <> x) by (intros a Hin ->; done).
  unfold remove_mem. split.
  - apply (seg_delete m _ _ _ _ x); try done.
    + apply NoDup_cons in ND as [Hl ND]. rewrite app_comm_cons, app_assoc.
      apply NoDup_app. split_and!; [done|set_solver|apply NoDup_singleton].
    + intros a Hin Hne. pose proof (Hsub a Hin). node_field.
    + intros a Hin Hne. pose proof (Hsub a ltac:(set_solver)). node_field.
    + node_field.
    + node_field.
  - done.
  - rewrite remove_perm in Ha. by apply Forall_cons in Ha as [_ Ha].
  - rewrite remove_perm in Hz. by apply Forall_cons in Hz as [_ Hz].
  - intros y Hy. specialize (Hi y ltac:(set_solver)). node_field.
  - erewrite up_len_lookup_eq by (rewrite ?up_lists; eassumption). simpl.
    f_equal. f_equal. rewrite u32_pred, !zlen_app, zlen_cons. f_equal. lia.
Qed.

Lemma remove_mem_frame :
  frame m (remove_mem l x (final l xs) (first ys l) m) l (xs ++ x :: ys).
Proof.
  destruct remove_facts as (Hxl & Hpx & Hnx & ND' & Hx' & Hpin & Hnin).
  unfold remove_mem. split_and!.
  - intros a Ha. rewrite up_len_nodes, !up_lookup_ne; set_solver.
  - intros a Ha. rewrite up_len_lookup_ne by done. by rewrite !up_lists.
  - by rewrite up_len_nodes, !up_dom.
Qed.

(** The removed node's links are the relative NULL; its identifier stays. *)
Lemma remove_mem_node :
  nodes (remove_mem l x (final l xs) (first ys l) m) !! x = Some (mk_node (PTR_REL l NULL) (PTR_REL l NULL) i).
Proof.
  destruct remove_facts as (Hxl & Hpx & Hnx & ND' & Hx' & Hpin & Hnin).
  assert (Hin : x ∈ l :: xs ++ x :: ys) by set_solver.
  pose proof (is_list_dom _ _ _ _ _ _ HL Hin).
  pose proof (il_ids _ _ _ _ _ HL x Hin) as Hi.
  assert (E1 : get_next (remove_mem l x (final l xs) (first ys l) m) x = Some (PTR_REL l NULL))
    by (unfold remove_mem; node_field).
  assert (E2 : get_prev (remove_mem l x (final l xs) (first ys l) m) x = Some (PTR_REL l NULL))
    by (unfold remove_mem; node_field).
  assert (E3 : get_id (remove_mem l x (final l xs) (first ys l) m) x = Some i)
    by (unfold remove_mem; node_field).
  unfold get_next, get_prev, get_id in *.
  destruct (nodes (remove_mem _ _ _ _ _) !! x) as [[]|]; simpl in *; congruence.
Qed.

Theorem sxe_list_remove_spec obj :
  x = u64 (obj + off) ->
  exists m', sxe_list_remove l obj m = Ret (obj, m') /\ is_list m' l i off (xs ++ ys) /\
    nodes m' !! x = Some (mk_node (PTR_REL l NULL) (PTR_REL l NULL) i) /\ frame m m' l (xs ++ x :: ys).
Proof.
  intros Ex. eexists. split; [by apply remove_run|].
  split_and!; [apply remove_mem_list|apply remove_mem_node|apply remove_mem_frame..].
Qed.
End Remove.

(** *** Pop, shift and the peeks *)
Lemma obj_node off x : is_u64 x -> x = u64 (u64 (x - off) + off).
Proof. intros. symmetry. by apply u64_sub_add. Qed.

(** The last node of a non-empty list. *)
Lemma split_last xs p : xs <> [] -> exists ys, xs = ys ++ [final p xs].
Proof.
  intros Hne. destruct (exists_last Hne) as (ys & y & ->). exists ys. by rewrite final_snoc.
Qed.

(** Which end a queue operation takes from: the head, the tail or a given node. *)
Definition other_than (l : Z) (xs : list Z) : Prop := forall a, a ∈ xs -> a <> l.

Lemma is_list_other m l i off xs : is_list m l i off xs -> other_than l xs.
Proof. intros [_ [Hl _]%NoDup_cons _ _ _ _] a Ha ->. done. Qed.

Lemma first_app_ne xs l : xs <> [] -> other_than l xs -> first xs l <> l.
Proof. intros Hne Ho. destruct xs; [done|]. apply Ho. constructor. Qed.

Lemma final_ne xs l : xs <> [] -> other_than l xs -> final l xs <> l.
Proof.
  intros Hne Ho. destruct (split_last xs l Hne) as [ys E]. apply Ho. rewrite E at 2. set_solver.
Qed.

Section Ends.
Context `{Build}.
Variables (m : mem) (l i off : Z).

Lemma list_ends_read xs :
  is_list m l i off xs ->
  rd_next l m = Ret (PTR_REL l (first xs l), m) /\ rd_prev l m = Ret (PTR_REL l (final l xs), m) /\
  rd_id l m = Ret (i, m).
Proof.
  intros HL. destruct (seg_ends _ _ _ _ _ (il_seg _ _ _ _ _ HL)) as [H1 H2].
  pose proof (il_ids _ _ _ _ _ HL l ltac:(constructor)) as H3.
  split_and!; by apply rd_field_ok.
Qed.

Theorem sxe_list_shift_spec xs :
  is_list m l i off xs ->
  match xs with
  | [] => sxe_list_shift l m = Ret (NULL, m)
  | x :: ys => exists m', sxe_list_shift l m = Ret (u64 (x - off), m') /\ is_list m' l i off ys /\
                 nodes m' !! x = Some (mk_node (PTR_REL l NULL) (PTR_REL l NULL) i) /\ frame m m' l xs
  end.
Proof.
  intros HL. destruct (list_ends_read _ HL) as (En & Ep & _).
  assert (U : forall a, a ∈ l :: xs -> is_u64 a) by (intros; by eapply is_list_u64).
  pose proof (is_list_other _ _ _ _ _ HL) as Ho.
  unfold sxe_list_shift. rewrite (cmd_bind_ret _ _ _ _ _ En). cbv zeta.
  rewrite PTR_FIX_REL by apply U, first_mem. destruct xs as [|x ys]; simpl.
  - rewrite Z.eqb_refl. rewrite (cmd_bind_ret _ _ _ _ _ Ep). simpl. rewrite Z.eqb_refl. done.
  - destruct (Z.eqb_spec x l) as [E|E]; [exfalso; apply (Ho x); [constructor|done]|].
    assert (HL' := HL). apply (sxe_list_remove_spec m l i off [] x ys) with (obj := u64 (x - off)) in HL'.
    + rewrite (cmd_bind_ret _ _ _ _ _ (rd_list_ok _ _ _ (il_head _ _ _ _ _ HL))). exact HL'.
    + apply obj_node, U. set_solver.
Qed.

Theorem sxe_list_pop_spec xs :
  is_list m l i off xs ->
  match reverse xs with
  | [] => sxe_list_pop l m = Ret (NULL, m)
  | x :: ys => exists m', sxe_list_pop l m = Ret (u64 (x - off), m') /\ is_list m' l i off (reverse ys) /\
                 nodes m' !! x = Some (mk_node (PTR_REL l NULL) (PTR_REL l NULL) i) /\ frame m m' l xs
  end.
Proof.
  intros HL. destruct (list_ends_read _ HL) as (En & Ep & _).
  assert (U : forall a, a ∈ l :: xs -> is_u64 a) by (intros; by eapply is_list_u64).
  pose proof (is_list_other _ _ _ _ _ HL) as Ho.
  unfold sxe_list_pop. rewrite (cmd_bind_ret _ _ _ _ _ Ep). cbv zeta.
  rewrite PTR_FIX_REL by apply U, final_mem.
  destruct (reverse xs) as [|x ys] eqn:Er.
  - apply (f_equal reverse) in Er. rewrite reverse_involutive in Er. subst xs. simpl.
    rewrite Z.eqb_refl. rewrite (cmd_bind_ret _ _ _ _ _ En). simpl. rewrite Z.eqb_refl. done.
  - assert (Exs : xs = reverse ys ++ [x]).
    { apply (f_equal reverse) in Er. rewrite reverse_involutive in Er. subst xs.
      by rewrite reverse_cons. }
    rewrite Exs, final_snoc in *.
    destruct (Z.eqb_spec x l) as [E|E]; [exfalso; apply (Ho x); [set_solver|done]|].
    assert (HL' := HL). apply (sxe_list_remove_spec m l i off (reverse ys) x []) with (obj := u64 (x - off)) in HL'.
    + rewrite (cmd_bind_ret _ _ _ _ _ (rd_list_ok _ _ _ (il_head _ _ _ _ _ HL))).
      rewrite app_nil_r in HL'. exact HL'.
    + apply obj_node, U. set_solver.
Qed.

(** The debug checks of the peeks hold on a well-formed list. *)
Lemma peek_checks xs x ys :
  is_list m l i off xs -> xs = x :: ys ->
  check6 (j ← rd_id x; k ← rd_id l; mret (j =? k)) m = Ret (tt, m) /\
  check6 (n ← rd_next (final l xs); mret (n =? PTR_REL l l)) m = Ret (tt, m).
Proof.
  intros HL ->. destruct (list_ends_read _ HL) as (En & Ep & Ei).
  destruct (split_last (x :: ys) l) as [zs E]; [done|].
  assert (Hn : get_next m (final l (x :: ys)) = Some (PTR_REL l l)).
  { pose proof (il_seg _ _ _ _ _ HL) as Hs. rewrite E in Hs.
    by apply seg_middle in Hs as [? _]. }
  pose proof (il_ids _ _ _ _ _ HL x ltac:(set_solver)) as Hi.
  unfold check6. destruct debug; [|done]. split.
  - erewrite cmd_bind_ret.
    2:{ erewrite cmd_bind_ret by (by apply rd_field_ok). rewrite (cmd_bind_ret _ _ _ _ _ Ei). reflexivity. }
    by rewrite Z.eqb_refl.
  - erewrite cmd_bind_ret.
    2:{ erewrite cmd_bind_ret by (by apply rd_field_ok). reflexivity. }
    by rewrite Z.eqb_refl.
Qed.

Theorem sxe_list_peek_head_spec xs :
  is_list m l i off xs ->
  sxe_list_peek_head l m = Ret (match xs with [] => NULL | x :: _ => u64 (x - off) end, m).
Proof.
  intros HL. destruct (list_ends_read _ HL) as (En & Ep & Ei).
  assert (U : forall a, a ∈ l :: xs -> is_u64 a) by (intros; by eapply is_list_u64).
  pose proof (is_list_other _ _ _ _ _ HL) as Ho.
  unfold sxe_list_peek_head. rewrite (cmd_bind_ret _ _ _ _ _ En), (cmd_bind_ret _ _ _ _ _ Ep).
  cbv zeta. destruct xs as [|x ys].
  - simpl. rewrite Z.eqb_refl. done.
  - destruct (peek_checks _ x ys HL eq_refl) as [Hc1 Hc2].
    assert (x <> l) by (apply Ho; constructor).
    pose proof (final_ne _ _ (ltac:(done) : x :: ys <> []) Ho).
    assert (Hp : rd_prev x m = Ret (PTR_REL l l, m)).
    { apply rd_field_ok. pose proof (il_seg _ _ _ _ _ HL) as (_ & Hp & _). exact Hp. }
    assert (E1 : forall a, a ∈ l :: x :: ys -> a <> l -> (PTR_REL l a =? PTR_REL l l) = false).
    { intros a Ha Hal. rewrite PTR_REL_eqb; [|by apply U|apply U; constructor]. by apply bool_decide_eq_false_2. }
    change (first (x :: ys) l) with x in *.
    rewrite (E1 x), (E1 (final _ _)) by (done || apply final_mem || set_solver).
    erewrite cmd_bind_ret by reflexivity.
    rewrite PTR_FIX_REL by (apply U; set_solver). rewrite (cmd_bind_ret _ _ _ _ _ Hp), Z.eqb_refl.
    erewrite cmd_bind_ret by reflexivity.
    rewrite (cmd_bind_ret _ _ _ _ _ Hc1).
    rewrite PTR_FIX_REL by (apply U, final_mem). rewrite (cmd_bind_ret _ _ _ _ _ Hc2).
    by rewrite (cmd_bind_ret _ _ _ _ _ (rd_list_ok _ _ _ (il_head _ _ _ _ _ HL))).
Qed.
End Ends.

(** *** Walking a list *)
Fixpoint walk (fuel : nat) (w : SXE_LIST_WALKER) : cmd mem (list Z) :=
  match fuel with
  | O => mret []
  | S fuel =>
      '(o, w') ← sxe_list_walker_step w;
      if o =? NULL then mret [] else r ← walk fuel w'; mret (o :: r)
  end.

Section Walk.
Variables (m : mem) (l i off : Z).

(** A step from a node of the list reaches the node after it. *)
Lemma walker_step_at p xs y ys b :
  is_list m l i off (xs ++ y :: ys) -> p = final l xs ->
  sxe_list_walker_step (mk_walker l b p) m = Ret ((u64 (y - off), mk_walker l p y), m).
Proof.
  intros HL ->.
  assert (U : is_u64 y) by (eapply is_list_u64; [exact HL|set_solver]).
  assert (Hy : y <> l) by (eapply is_list_other; [exact HL|set_solver]).
  assert (Hn : rd_next (final l xs) m = Ret (PTR_REL l y, m)).
  { apply rd_field_ok. pose proof (il_seg _ _ _ _ _ HL) as Hs. clear HL.
    set (p := l) in Hs at 2 |- * at 1. clearbody p.
    revert p Hs. induction xs as [|x xs IH]; intros p (H1 & H2 & H3); [done|]. by apply IH. }
  unfold sxe_list_walker_step. cbn [w_node w_list]. rewrite (cmd_bind_ret _ _ _ _ _ Hn). cbv zeta.
  rewrite PTR_FIX_REL by done. destruct (Z.eqb_spec y l); [done|].
  by rewrite (cmd_bind_ret _ _ _ _ _ (rd_list_ok _ _ _ (il_head _ _ _ _ _ HL))).
Qed.

(** A step from the last node reports the end of the list. *)
Lemma walker_step_end xs b :
  is_list m l i off xs ->
  sxe_list_walker_step (mk_walker l b (final l xs)) m = Ret ((NULL, mk_walker l (final l xs) l), m).
Proof.
  intros HL.
  assert (U : is_u64 l) by (eapply is_list_u64; [exact HL|constructor]).
  assert (Hn : rd_next (final l xs) m = Ret (PTR_REL l l, m)).
  { apply rd_field_ok. pose proof (il_seg _ _ _ _ _ HL) as Hs. clear HL.
    set (p := l) in Hs at 2 |- * at 1. clearbody p.
    revert p Hs. induction xs as [|x xs IH]; intros p; [by intros [? _]|]. intros (H1 & H2 & H3). by apply IH. }
  unfold sxe_list_walker_step. cbn [w_node w_list]. rewrite (cmd_bind_ret _ _ _ _ _ Hn). cbv zeta.
  rewrite PTR_FIX_REL by done. by rewrite Z.eqb_refl.
Qed.
End Walk.

(** The object that holds a node. *)
Definition obj_of (off x : Z) : Z := u64 (x - off).
Definition nonnull_objs (off : Z) (xs : list Z) : Prop := Forall (fun x => obj_of off x <> NULL) xs.

Lemma walk_from m l i off xs ys b fuel :
  is_list m l i off (xs ++ ys) -> nonnull_objs off ys -> (length ys < fuel)%nat ->
  walk fuel (mk_walker l b (final l xs)) m = Ret (obj_of off <$> ys, m).
Proof.
  revert xs b fuel. induction ys as [|y ys IH]; intros xs b [|fuel] HL Hn Hf; simpl in Hf; try lia.
  - rewrite app_nil_r in HL. simpl.
    by rewrite (cmd_bind_ret _ _ _ _ _ (walker_step_end _ _ _ _ _ b HL)).
  - apply Forall_cons in Hn as [Hy Hn]. cbn [walk].
    rewrite (cmd_bind_ret _ _ _ _ _ (walker_step_at _ _ _ _ _ _ _ _ b HL eq_refl)).
    change (u64 (y - off)) with (obj_of off y).
    destruct (Z.eqb_spec (obj_of off y) NULL); [done|].
    erewrite cmd_bind_ret; [|rewrite <-(final_snoc l xs y); apply IH; [by rewrite <-app_assoc|done|lia]].
    done.
Qed.

(** A complete walk of a list visits its objects, head first, and ends. *)
Theorem walk_all m l i off xs :
  is_list m l i off xs -> nonnull_objs off xs ->
  walk (S (length xs)) (sxe_list_walker_construct l) m = Ret (obj_of off <$> xs, m).
Proof. intros. apply (walk_from m l i off [] xs l); [done..|lia]. Qed.

(** Stepping back returns to the previous node, once. *)
Lemma walker_back_spec m l h b n :
  lists m !! l = Some h ->
  sxe_list_walker_back (mk_walker l b n) m =
  Ret (if b =? l then (NULL, mk_walker l b n) else (obj_of (offset h) b, mk_walker l l b), m).
Proof.
  intros Hh. unfold sxe_list_walker_back. simpl. destruct (b =? l); [done|].
  by rewrite (cmd_bind_ret _ _ _ _ _ (rd_list_ok _ _ _ Hh)).
Qed.

Lemma walker_find_spec m l h b n :
  lists m !! l = Some h ->
  sxe_list_walker_find (mk_walker l b n) m = Ret (if n =? l then NULL else obj_of (offset h) n, m).
Proof.
  intros Hh. unfold sxe_list_walker_find. simpl. destruct (n =? l); [done|].
  by rewrite (cmd_bind_ret _ _ _ _ _ (rd_list_ok _ _ _ Hh)).
Qed.

(** ** Refinement: a list is a deque of nodes *)
Inductive deque_op := Push (x : Z) | Unshift (x : Z) | Pop | Shift | Remove (x : Z) | PeekHead.

(** The specification: a step of the functional deque, defined when the client
    keeps its side of the contract. [ok] is the set of nodes it may insert. *)
Definition deque_step (ok : gset Z) (l : Z) (xs : list Z) (op : deque_op) : option (option Z * list Z) :=
  match op with
  | Push x => if decide (x ∈ ok /\ x ∉ l :: xs) then Some (None, xs ++ [x]) else None
  | Unshift x => if decide (x ∈ ok /\ x ∉ l :: xs) then Some (None, x :: xs) else None
  | Pop => Some (last xs, reverse (tail (reverse xs)))
  | Shift => Some (head xs, tail xs)
  | Remove x => if decide (x ∈ xs) then Some (Some x, filter (fun y => y <> x) xs) else None
  | PeekHead => Some (head xs, xs)
  end.

Fixpoint deque_run (ok : gset Z) (l : Z) (xs : list Z) (ops : list deque_op) : option (list (option Z) * list Z) :=
  match ops with
  | [] => Some ([], xs)
  | op :: ops =>
      match deque_step ok l xs op with
      | Some (o, xs') => match deque_run ok l xs' ops with Some (os, ys) => Some (o :: os, ys) | None => None end
      | None => None
      end
  end.

Section Refinement.
Context `{Build}.

(** The implementation: the same step with the library's calls. *)
Definition list_step (l off : Z) (op : deque_op) : cmd mem Z :=
  match op with
  | Push x => sxe_list_push l (obj_of off x);; mret NULL
  | Unshift x => sxe_list_unshift l (obj_of off x);; mret NULL
  | Pop => sxe_list_pop l
  | Shift => sxe_list_shift l
  | Remove x => sxe_list_remove l (obj_of off x)
  | PeekHead => sxe_list_peek_head l
  end.

Fixpoint list_run (l off : Z) (ops : list deque_op) : cmd mem (list Z) :=
  match ops with
  | [] => mret []
  | op :: ops => o ← list_step l off op; os ← list_run l off ops; mret (o :: os)
  end.

Definition out_of (off : Z) (o : option Z) : Z := match o with Some x => obj_of off x | None => NULL end.

Definition insertable (m : mem) (ok : gset Z) : Prop :=
  forall x, x ∈ ok -> x ∈ dom (nodes m) /\ is_u64 x /\ x <> NULL.

Lemma filter_remove (xs ys : list Z) x :
  NoDup (xs ++ x :: ys) -> filter (fun y => y <> x) (xs ++ x :: ys) = xs ++ ys.
Proof.
  intros (N1 & N2 & [N3 N4]%NoDup_cons)%NoDup_app. rewrite filter_app, filter_cons_False by auto.
  rewrite !filter_all; try done; intros y Hy ->; [done|]. apply (N2 x); set_solver.
Qed.

Lemma list_step_refines m l i off ok xs op o xs' :
  is_list m l i off xs -> insertable m ok -> deque_step ok l xs op = Some (o, xs') ->
  exists m', list_step l off op m = Ret (out_of off o, m') /\ is_list m' l i off xs' /\
    dom (nodes m') = dom (nodes m).
Proof.
  intros HL Hok.
  assert (U : forall a, a ∈ l :: xs -> is_u64 a) by (intros; by eapply is_list_u64).
  destruct op as [x|x| | |x|]; simpl; intros E.
  - case_decide as Hx; [|done]. injection E as [= <- <-].
    destruct (Hok x) as (D & Ux & Zx); [tauto|].
    destruct (sxe_list_push_spec m l i off xs (obj_of off x) x) as (m' & E & HL' & _ & _ & Hd);
      [done|by apply obj_node|tauto|done..|].
    exists m'. by rewrite (cmd_bind_ret _ _ _ _ _ E).
  - case_decide as Hx; [|done]. injection E as [= <- <-].
    destruct (Hok x) as (D & Ux & Zx); [tauto|].
    destruct (sxe_list_unshift_spec m l i off xs (obj_of off x) x) as (m' & E & HL' & _ & _ & Hd);
      [done|by apply obj_node|tauto|done..|].
    exists m'. by rewrite (cmd_bind_ret _ _ _ _ _ E).
  - injection E as [= <- <-]. pose proof (sxe_list_pop_spec m l i off xs HL) as Hp.
    destruct (reverse xs) as [|x ys] eqn:Er; apply (f_equal reverse) in Er;
      rewrite reverse_involutive in Er; subst xs; simpl.
    + by exists m.
    + destruct Hp as (m' & E & HL' & _ & _ & _ & Hd). exists m'.
      rewrite reverse_cons, last_snoc. done.
  - injection E as [= <- <-]. pose proof (sxe_list_shift_spec m l i off xs HL) as Hp.
    destruct xs as [|x ys]; simpl; [by exists m|].
    destruct Hp as (m' & E & HL' & _ & _ & _ & Hd). by exists m'.
  - case_decide as Hx; [|done]. injection E as [= <- <-].
    apply list_elem_of_split in Hx as (ys & zs & ->).
    destruct (sxe_list_remove_spec m l i off ys x zs HL (obj_of off x)) as (m' & E & HL' & _ & _ & _ & Hd).
    { apply obj_node, U. set_solver. }
    exists m'. rewrite filter_remove; [done|]. pose proof (il_nodup _ _ _ _ _ HL) as [_ ?]%NoDup_cons. done.
  - injection E as [= <- <-]. exists m. split; [|done].
    rewrite (sxe_list_peek_head_spec m l i off xs HL). by destruct xs.
Qed.

(** C1: the list implements a deque. Any sequence of calls whose contract the
    client keeps returns exactly what the functional deque returns, never aborts
    or leaves the list's memory, and leaves a well-formed list. *)
Theorem list_refines_deque m l i off ok ops :
  forall xs os ys, is_list m l i off xs -> insertable m ok ->
  deque_run ok l xs ops = Some (os, ys) ->
  exists m', list_run l off ops m = Ret (out_of off <$> os, m') /\ is_list m' l i off ys.
Proof.
  revert m. induction ops as [|op ops IH]; intros m xs os ys HL Hok; simpl; intros E.
  - injection E as [= <- <-]. by exists m.
  - destruct (deque_step ok l xs op) as [[o xs']|] eqn:Es; [|done].
    destruct (deque_run ok l xs' ops) as [[os' ys']|] eqn:Er; [|done]. injection E as [= <- <-].
    destruct (list_step_refines _ _ _ _ _ _ _ _ _ HL Hok Es) as (m1 & E1 & HL1 & Hd).
    destruct (IH m1 xs' os' ys' HL1) as (m2 & E2 & HL2); [|done|].
    { intros x Hx. rewrite Hd. by apply Hok. }
    exists m2. rewrite (cmd_bind_ret _ _ _ _ _ E1), (cmd_bind_ret _ _ _ _ _ E2). done.
Qed.
End Refinement.

(** ** Witnesses: a list at address 100 with the nodes 200, 300 and 400 *)
Definition example_mem : mem :=
  mk_mem {[200 := mk_node 0 0 0; 300 := mk_node 0 0 0; 400 := mk_node 0 0 0]} ∅.
Definition example_ok : gset Z := {[200; 300; 400]}.
Definition example_ops : list deque_op :=
  [Push 200; Unshift 300; PeekHead; Push 400; Remove 200; Pop; Shift; Shift].

Lemma example_list : exists m, is_list m 100 5 16 [] /\ insertable m example_ok.
Proof.
  destruct (construct_spec example_mem 100 5 16) as (m & _ & HL & _ & _ & D); [unfold is_u64; lia|done|].
  exists m. split; [done|]. intros x Hx. unfold example_ok in Hx. rewrite D.
  assert (x = 200 \/ x = 300 \/ x = 400) as [->|[->| ->]] by set_solver;
    (split; [vm_compute; set_solver|by unfold is_u64, NULL]).
Qed.

Lemma list_refines_deque_witness : exists m m',
  list_run (H := true) 100 16 example_ops m = Ret ([0; 0; 284; 0; 184; 384; 284; 0], m') /\
  is_list m' 100 5 16 [].
Proof.
  destruct example_list as (m & HL & Hok). exists m.
  destruct (list_refines_deque (H := true) m 100 5 16 example_ok example_ops []
    [None; None; Some 300; None; Some 200; Some 400; Some 300; None] [] HL Hok) as (m' & R & HL').
  - vm_compute. reflexivity.
  - exists m'. split; [exact R|exact HL'].
Defined.

Lemma walk_all_witness : exists m,
  walk 3 (sxe_list_walker_construct 100) m = Ret ([184; 284], m).
Proof.
  destruct example_list as (m & HL & Hok).
  destruct (Hok 200) as (D2 & _); [by vm_compute|]. destruct (Hok 300) as (D3 & _); [by vm_compute|].
  destruct (sxe_list_push_spec m 100 5 16 [] 184 200 HL) as (m1 & _ & HL1 & _ & _ & E1);
    [reflexivity|set_solver|done|done|].
  destruct (sxe_list_push_spec m1 100 5 16 [200] 284 300 HL1) as (m2 & _ & HL2 & _);
    [reflexivity|set_solver|by rewrite E1|done|].
  exists m2. apply (walk_all m2 100 5 16 [200; 300] HL2). repeat constructor; done.
Defined.
