(* ===== verification/Pool.v ===== *)
(** * Pool: fixed size object pools (lib-sxe-pool)

    A pool keeps its objects in one queue per state, oldest first. The pool
    structure, the state queues and the nodes are one block of memory laid out
    as [sxe_pool_construct] lays it out on an LP64 platform; the queues are the
    lists of SxeList, over the same memory. Operations on a locked pool take
    its spinlock, while other threads may change the whole store. *)

From Stdlib Require Import Sorted.
From S2P Require Import Prelude Spinlock SxeList.

(** lib-sxe-pool/sxe-pool-private.h:43-58, SXE_POOL_IMPL. The member timeout_node is the
    list node at the structure's address plus [TIMEOUT_NODE_OFFSET]; functions
    are represented by their addresses. *)
Record SXE_POOL_IMPL := mk_impl {
  p_spinlock : Z;
  p_name : list Z;
  p_options : Z;
  p_number : Z;
  p_size : Z;
  p_states : Z;
  p_nodes : Z;
  p_queue : Z;
  p_event_timeout : Z;
  p_caller_info : Z;
  p_state_timeouts : option (list Z);
  p_next_count : Z;
  p_state_to_string : Z
}.

(** The store: list memory, pool structures, the [last] member of the pool nodes
    (the union of a time and a count, both 64 bits wide), the system clock and
    the number of pools with timeouts. *)
Record world := mk_world {
  w_mem : mem;
  w_impls : gmap Z SXE_POOL_IMPL;
  w_last : gmap Z Z;
  w_now : Z;
  w_timeout_count : Z
}.

(** lib-sxe-pool/sxe-pool.h:29-29, SXE_POOL_LOCK_TAKEN. *)
Definition SXE_POOL_LOCK_TAKEN : Z := 0.
(** lib-sxe-pool/sxe-pool.h:30-30, SXE_POOL_NO_INDEX. *)
Definition SXE_POOL_NO_INDEX : Z := u32 (-1).
(** lib-sxe-pool/sxe-pool.h:31-31, SXE_POOL_INCORRECT_STATE. *)
Definition SXE_POOL_INCORRECT_STATE : Z := u32 (-2).
(** lib-sxe-pool/sxe-pool.h:32-32, SXE_POOL_LOCK_NOT_TAKEN. *)
Definition SXE_POOL_LOCK_NOT_TAKEN : Z := u32 (-3).
(** lib-sxe-pool/sxe-pool.h:33-33, SXE_POOL_NAME_MAXIMUM_LENGTH. *)
Definition SXE_POOL_NAME_MAXIMUM_LENGTH : Z := 31.
(** lib-sxe-util/sxe-util.h:37-37, SXE_BIT_OPTION. *)
Definition SXE_BIT_OPTION (number : Z) : Z := Z.shiftl 1 number.
(** lib-sxe-pool/sxe-pool.h:36-36, SXE_POOL_OPTION_LOCKED. *)
Definition SXE_POOL_OPTION_LOCKED : Z := SXE_BIT_OPTION 0.
(** lib-sxe-pool/sxe-pool.h:37-37, SXE_POOL_OPTION_TIMED. *)
Definition SXE_POOL_OPTION_TIMED : Z := SXE_BIT_OPTION 1.

(** Sizes of the structures on an LP64 platform. *)
Definition SIZEOF_POOL_IMPL : Z := 144.
Definition TIMEOUT_NODE_OFFSET : Z := 104.
Definition SIZEOF_LIST : Z := 40.
Definition SIZEOF_POOL_NODE : Z := 32.

(** lib-sxe-pool/sxe-pool-private.h:30-30, SXE_POOL_ARRAY_TO_IMPL. *)
Definition SXE_POOL_ARRAY_TO_IMPL (array : Z) : Z := u64 (array - SIZEOF_POOL_IMPL).
(** lib-sxe-pool/sxe-pool-private.h:31-31, SXE_POOL_IMPL_TO_ARRAY. *)
Definition SXE_POOL_IMPL_TO_ARRAY (impl : Z) : Z := u64 (impl + SIZEOF_POOL_IMPL).
(** lib-sxe-pool/sxe-pool-private.h:32-32, SXE_POOL_NODES. The address of element [i]. *)
Definition NODES_AT (pool : Z) (p : SXE_POOL_IMPL) (i : Z) : Z :=
  u64 (PTR_FIX pool (p_nodes p) + SIZEOF_POOL_NODE * i).
(** lib-sxe-pool/sxe-pool-private.h:33-33, SXE_POOL_QUEUE. The address of element [state]. *)
Definition QUEUE_AT (pool : Z) (p : SXE_POOL_IMPL) (state : Z) : Z :=
  u64 (PTR_FIX pool (p_queue p) + SIZEOF_LIST * state).
(** The index of a node, by pointer subtraction. *)
Definition NODE_INDEX (pool : Z) (p : SXE_POOL_IMPL) (node : Z) : Z :=
  u32 (Z.quot (node - PTR_FIX pool (p_nodes p)) SIZEOF_POOL_NODE).

(** ** Accesses *)
Definition with_mem (m : mem) (w : world) : world :=
  mk_world m (w_impls w) (w_last w) (w_now w) (w_timeout_count w).
Definition with_last (f : gmap Z Z -> gmap Z Z) (w : world) : world :=
  mk_world (w_mem w) (w_impls w) (f (w_last w)) (w_now w) (w_timeout_count w).
Definition on_mem {A} (c : cmd mem A) : cmd world A := fun w =>
  match c (w_mem w) with
  | Ret (a, m) => Ret (a, with_mem m w)
  | Abort => Abort
  | Fault => Fault
  end.
Definition rd_impl (pool : Z) : cmd world SXE_POOL_IMPL := fun w =>
  match w_impls w !! pool with Some p => Ret (p, w) | None => Fault end.
Definition with_impls (f : gmap Z SXE_POOL_IMPL -> gmap Z SXE_POOL_IMPL) (w : world) : world :=
  mk_world (w_mem w) (f (w_impls w)) (w_last w) (w_now w) (w_timeout_count w).
Definition upd_impl (pool : Z) (f : SXE_POOL_IMPL -> SXE_POOL_IMPL) : cmd world unit := fun w =>
  match w_impls w !! pool with
  | Some p => Ret (tt, with_impls <[pool := f p]> w)
  | None => Fault
  end.
Definition rd_last (node : Z) : cmd world Z := fun w =>
  match w_last w !! node with Some t => Ret (t, w) | None => Fault end.
Definition wr_last (node t : Z) : cmd world unit := fun w =>
  match w_last w !! node with
  | Some _ => Ret (tt, with_last <[node := t]> w)
  | None => Fault
  end.
(** The clock is read through sxe_time_get. *)
Definition sxe_time_get : cmd world Z := gets w_now.

Definition set_spinlock (v : Z) (p : SXE_POOL_IMPL) : SXE_POOL_IMPL :=
  mk_impl v (p_name p) (p_options p) (p_number p) (p_size p) (p_states p) (p_nodes p) (p_queue p)
    (p_event_timeout p) (p_caller_info p) (p_state_timeouts p) (p_next_count p) (p_state_to_string p).
Definition set_next_count (v : Z) (p : SXE_POOL_IMPL) : SXE_POOL_IMPL :=
  mk_impl (p_spinlock p) (p_name p) (p_options p) (p_number p) (p_size p) (p_states p) (p_nodes p) (p_queue p)
    (p_event_timeout p) (p_caller_info p) (p_state_timeouts p) v (p_state_to_string p).
Definition set_timeouts (callback info : Z) (ts : option (list Z)) (p : SXE_POOL_IMPL) : SXE_POOL_IMPL :=
  mk_impl (p_spinlock p) (p_name p) (p_options p) (p_number p) (p_size p) (p_states p) (p_nodes p) (p_queue p)
    callback info ts (p_next_count p) (p_state_to_string p).
Definition set_to_string (v : Z) (p : SXE_POOL_IMPL) : SXE_POOL_IMPL :=
  mk_impl (p_spinlock p) (p_name p) (p_options p) (p_number p) (p_size p) (p_states p) (p_nodes p) (p_queue p)
    (p_event_timeout p) (p_caller_info p) (p_state_timeouts p) (p_next_count p) v.

Definition locked (p : SXE_POOL_IMPL) : bool := negb (Z.land (p_options p) SXE_POOL_OPTION_LOCKED =? 0).
Definition timed (p : SXE_POOL_IMPL) : bool := negb (Z.land (p_options p) SXE_POOL_OPTION_TIMED =? 0).

(** The spinlock is a member of the pool structure at [pool]. *)
Definition lock_of_pool (pool : Z) (w : world) : Z :=
  match w_impls w !! pool with Some p => p_spinlock p | None => 0 end.

#[refine] Definition pool_has_lock (pool : Z) : HasLock world :=
  {| get_lock := lock_of_pool pool;
     put_lock v := with_impls (alter (set_spinlock v) pool);
     has_lock w := is_Some (w_impls w !! pool) |}.
Proof.
  - intros v w [p E]. unfold lock_of_pool. simpl. by rewrite lookup_alter_eq, E.
  - intros v u w. unfold with_impls. simpl. f_equal. by rewrite alter_alter_eq.
  - intros w. unfold with_impls, lock_of_pool. destruct w as [m im ls n c]. simpl. f_equal.
    apply alter_id. intros p E. rewrite E. by destruct p.
Defined.

Lemma put_pool_lock pool p v w :
  w_impls w !! pool = Some p ->
  put_lock (HasLock := pool_has_lock pool) v w = with_impls <[pool := set_spinlock v p]> w.
Proof.
  intros E. simpl. unfold with_impls. f_equal. apply map_eq. intros j.
  destruct (decide (pool = j)) as [<-|].
  - by rewrite lookup_alter_eq, lookup_insert_eq, E.
  - by rewrite lookup_alter_ne, lookup_insert_ne.
Qed.

(** ** Locks *)
Section Locks.
(** What the other threads do to the store while this thread waits for a lock,
    how often it tries, and its thread id. *)
Context (others : Z -> world -> world) (spin_max tid : Z).

(** lib-sxe-pool/sxe-pool-private.h:68-86, sxe_pool_lock. *)
Definition sxe_pool_lock (pool : Z) : cmd world Z :=
  p ← rd_impl pool;
  if negb (locked p) then mret SXE_POOL_LOCK_TAKEN
  else fun w =>
    let '(st, w) := sxe_spinlock_take (S := world) (HasLock0 := pool_has_lock pool) others spin_max tid w in
    Ret (if decide (st <> SXE_SPINLOCK_STATUS_TAKEN) then SXE_POOL_LOCK_NOT_TAKEN else SXE_POOL_LOCK_TAKEN, w).

(** lib-sxe-pool/sxe-pool-private.h:88-98, sxe_pool_unlock. *)
Definition sxe_pool_unlock (pool : Z) : cmd world unit :=
  p ← rd_impl pool;
  if negb (locked p) then mret tt
  else sxe_spinlock_give (S := world) (HasLock0 := pool_has_lock pool) tid.
End Locks.

(** ** Construction and simple accessors *)

(** Standard library strncpy into an array of [n] bytes: copies up to the NUL
    and fills the rest with NUL. *)
Definition strncpy (n : nat) (s : list Z) : list Z :=
  let t := take n s in t ++ replicate (n - length t) 0.

(** lib-sxe-pool/sxe-pool.c:95-113, sxe_pool_size. *)
Definition sxe_pool_size (number size states : Z) : Z :=
  u64 (1 * SIZEOF_POOL_IMPL + number * size + states * SIZEOF_LIST + number * SIZEOF_POOL_NODE).

(** lib-sxe-pool/sxe-pool.c:195-209, sxe_pool_from_base. *)
Definition sxe_pool_from_base (base : Z) : Z := SXE_POOL_IMPL_TO_ARRAY base.
(** lib-sxe-pool/sxe-pool.c:211-225, sxe_pool_to_base. *)
Definition sxe_pool_to_base (array : Z) : Z := SXE_POOL_ARRAY_TO_IMPL array.

Section Operations.
Context `{Build} (others : Z -> world -> world) (spin_max tid : Z).
(** The address of the default state_to_string function and of the static
    list of pools with timeouts. *)
Context (default_to_string sxe_pool_timeout_list : Z).
Abbreviation lock_pool := (sxe_pool_lock others spin_max tid).
Abbreviation unlock_pool := (sxe_pool_unlock tid).

(** lib-sxe-pool/sxe-pool.c:38-38, SXE_POOL_ASSERT_ARRAY_INITIALIZED. *)
Definition SXE_POOL_ASSERT_ARRAY_INITIALIZED (array : Z) : cmd world unit :=
  lift (assert6 (negb (array =? NULL))).

(** lib-sxe-pool/sxe-pool.c:60-66, sxe_pool_get_name. *)
Definition sxe_pool_get_name (array : Z) : cmd world (list Z) :=
  SXE_POOL_ASSERT_ARRAY_INITIALIZED array;;
  p ← rd_impl (SXE_POOL_ARRAY_TO_IMPL array);
  mret (p_name p).

(** lib-sxe-pool/sxe-pool.c:68-79, sxe_pool_get_number_in_state. *)
Definition sxe_pool_get_number_in_state (array state : Z) : cmd world Z :=
  let pool := SXE_POOL_ARRAY_TO_IMPL array in
  SXE_POOL_ASSERT_ARRAY_INITIALIZED array;;
  p ← rd_impl pool;
  on_mem (SXE_LIST_GET_LENGTH (QUEUE_AT pool p state)).

(** lib-sxe-pool/sxe-pool.c:81-93, sxe_pool_index_to_state. *)
Definition sxe_pool_index_to_state (array id : Z) : cmd world Z :=
  let pool := SXE_POOL_ARRAY_TO_IMPL array in
  p ← rd_impl pool;
  lift (assert1 (id <? p_number p));;
  on_mem (SXE_LIST_NODE_GET_ID (NODES_AT pool p id)).

(** lib-sxe-pool/sxe-pool.c:164-166, sxe_pool_construct. The loop over the state
    queues, last state first. *)
Fixpoint construct_queues (pool : Z) (p : SXE_POOL_IMPL) (n : nat) : cmd world unit :=
  match n with
  | O => mret tt
  | S i => on_mem (sxe_list_construct_impl (QUEUE_AT pool p (Z.of_nat i)) (Z.of_nat i) 0);;
           construct_queues pool p i
  end.

(** lib-sxe-pool/sxe-pool.c:179-188, sxe_pool_construct. The loop over the nodes, last
    node first. *)
Fixpoint construct_free_list (pool current_time : Z) (n : nat) : cmd world unit :=
  match n with
  | O => mret tt
  | S i =>
      p ← rd_impl pool;
      let node := NODES_AT pool p (Z.of_nat i) in
      (if timed p then wr_last node current_time
       else upd_impl pool (set_next_count (u64 (p_next_count p + 1)));;
            p ← rd_impl pool;
            wr_last node (p_next_count p));;
      on_mem (sxe_list_push (QUEUE_AT pool p 0) node);;
      construct_free_list pool current_time i
  end.

(** lib-sxe-pool/sxe-pool.c:115-193, sxe_pool_construct. The members that it does not
    set keep the values [raw] the memory had. *)
Definition sxe_pool_construct (base : Z) (name : list Z) (number size states options : Z) : cmd world Z :=
  raw ← rd_impl base;
  let p :=
    mk_impl (p_spinlock raw)
      (<[31%nat := 0]> (strncpy (Z.to_nat (SXE_POOL_NAME_MAXIMUM_LENGTH + 1)) name))
      options number size states
      (u64 (SIZEOF_POOL_IMPL + number * size + states * SIZEOF_LIST))
      (u64 (SIZEOF_POOL_IMPL + number * size))
      NULL (p_caller_info raw) None (p_next_count raw) default_to_string in
  upd_impl base (fun _ => p);;
  (if locked p then modify (put_lock (HasLock := pool_has_lock base) 0) else mret tt);;
  construct_queues base p (Z.to_nat states);;
  current_time ← (if timed p then sxe_time_get else upd_impl base (set_next_count 0);; mret 0);
  construct_free_list base current_time (Z.to_nat number);;
  mret (SXE_POOL_IMPL_TO_ARRAY base).

(** lib-sxe-pool/sxe-pool.c:227-259, sxe_pool_new. [malloc] allocates memory for the
    caller, or returns NULL. *)
Definition sxe_pool_new (malloc : Z -> cmd world Z) (name : list Z) (number size states options : Z)
  : cmd world Z :=
  base ← malloc (sxe_pool_size number size states);
  lift (assert1 (negb (base =? NULL)));;
  sxe_pool_construct base name number size states options.

(** lib-sxe-pool/sxe-pool.c:261-309, sxe_pool_new_with_timeouts. [from_double] converts
    the timeouts, which are floating point seconds, to SXE_TIME. *)
Definition sxe_pool_new_with_timeouts {double : Type} (from_double : double -> Z)
  (malloc : Z -> cmd world Z) (name : list Z) (number size states : Z)
  (timeouts : list double) (callback caller_info : Z) : cmd world Z :=
  lift (assert1 (negb (callback =? NULL)));;
  c ← gets w_timeout_count;
  (if c =? 0 then on_mem (sxe_list_construct_impl sxe_pool_timeout_list 0 TIMEOUT_NODE_OFFSET) else mret tt);;
  array ← sxe_pool_new malloc name number size states SXE_POOL_OPTION_TIMED;
  let pool := SXE_POOL_ARRAY_TO_IMPL array in
  block ← malloc (u64 (states * 8));
  lift (assert1 (negb (block =? NULL)));;
  lift (if Z.of_nat (length timeouts) <? states then Fault else Ret tt);;
  upd_impl pool (set_timeouts callback caller_info (Some (from_double <$> take (Z.to_nat states) timeouts)));;
  on_mem (sxe_list_push sxe_pool_timeout_list pool);;
  modify (fun w => mk_world (w_mem w) (w_impls w) (w_last w) (w_now w) (u32 (w_timeout_count w + 1)));;
  mret array.

(** lib-sxe-pool/sxe-pool.c:311-320, sxe_pool_set_state_to_string. *)
Definition sxe_pool_set_state_to_string (array state_to_string : Z) : cmd world unit :=
  SXE_POOL_ASSERT_ARRAY_INITIALIZED array;;
  upd_impl (SXE_POOL_ARRAY_TO_IMPL array) (set_to_string state_to_string).

(** ** Moving elements between states *)

(** lib-sxe-pool/sxe-pool.c:383-424, sxe_pool_set_indexed_element_state_unlocked. [abort] is the
    mode SXE_POOL_ON_INCORRECT_STATE_ABORT. *)
Definition sxe_pool_set_indexed_element_state_unlocked (array id old_state new_state : Z) (abort : bool)
  : cmd world bool :=
  let pool := SXE_POOL_ARRAY_TO_IMPL array in
  SXE_POOL_ASSERT_ARRAY_INITIALIZED array;;
  p ← rd_impl pool;
  let node := NODES_AT pool p id in
  i ← on_mem (SXE_LIST_NODE_GET_ID node);
  if negb (i =? old_state) then
    lift (assert1 (negb abort));;
    mret false
  else
    on_mem (sxe_list_remove (QUEUE_AT pool p old_state) node);;
    (if timed p then t ← sxe_time_get; wr_last node t
     else upd_impl pool (set_next_count (u64 (p_next_count p + 1)));;
          p ← rd_impl pool;
          wr_last node (p_next_count p));;
    on_mem (sxe_list_push (QUEUE_AT pool p new_state) node);;
    mret true.

(** The debug checks of the operations' arguments. *)
Definition check_index (p : SXE_POOL_IMPL) (id : Z) : cmd world unit := lift (assert6 (id <? p_number p)).
Definition check_state (p : SXE_POOL_IMPL) (state : Z) : cmd world unit := lift (assert6 (state <=? p_states p)).

(** lib-sxe-pool/sxe-pool.c:426-455, sxe_pool_set_indexed_element_state. *)
Definition sxe_pool_set_indexed_element_state (array id old_state new_state : Z) : cmd world Z :=
  let pool := SXE_POOL_ARRAY_TO_IMPL array in
  SXE_POOL_ASSERT_ARRAY_INITIALIZED array;;
  p ← rd_impl pool;
  check_index p id;; check_state p old_state;; check_state p new_state;;
  result ← lock_pool pool;
  if result =? SXE_POOL_LOCK_NOT_TAKEN then mret result
  else
    b ← sxe_pool_set_indexed_element_state_unlocked array id old_state new_state true;
    lift (assert1 b);;
    unlock_pool pool;;
    mret result.

(** lib-sxe-pool/sxe-pool.c:457-504, sxe_pool_try_to_set_indexed_element_state. Returns the
    result and the final value of the in/out parameter. *)
Definition sxe_pool_try_to_set_indexed_element_state (array id old_state new_state_in : Z)
  : cmd world (Z * Z) :=
  let pool := SXE_POOL_ARRAY_TO_IMPL array in
  SXE_POOL_ASSERT_ARRAY_INITIALIZED array;;
  p ← rd_impl pool;
  check_index p id;; check_state p old_state;; check_state p new_state_in;;
  r ← lock_pool pool;
  if r =? SXE_POOL_LOCK_NOT_TAKEN then mret (SXE_POOL_LOCK_NOT_TAKEN, new_state_in)
  else
    b ← sxe_pool_set_indexed_element_state_unlocked array id old_state new_state_in false;
    out ← (if (b : bool) then mret (id, new_state_in)
           else s ← sxe_pool_index_to_state array id; mret (SXE_POOL_INCORRECT_STATE, s));
    unlock_pool pool;;
    mret out.

(** lib-sxe-pool/sxe-pool.c:506-547, sxe_pool_set_oldest_element_state. *)
Definition sxe_pool_set_oldest_element_state (array old_state new_state : Z) : cmd world Z :=
  let pool := SXE_POOL_ARRAY_TO_IMPL array in
  SXE_POOL_ASSERT_ARRAY_INITIALIZED array;;
  p ← rd_impl pool;
  check_state p old_state;; check_state p new_state;;
  r ← lock_pool pool;
  if r =? SXE_POOL_LOCK_NOT_TAKEN then mret r
  else
    p ← rd_impl pool;
    node ← on_mem (sxe_list_peek_head (QUEUE_AT pool p old_state));
    if node =? NULL then unlock_pool pool;; mret SXE_POOL_NO_INDEX
    else
      let result := NODE_INDEX pool p node in
      b ← sxe_pool_set_indexed_element_state_unlocked array result old_state new_state true;
      lift (assert1 b);;
      unlock_pool pool;;
      mret result.

(** lib-sxe-pool/sxe-pool.c:549-576, sxe_pool_touch_indexed_element. *)
Definition sxe_pool_touch_indexed_element (array id : Z) : cmd world Z :=
  let pool := SXE_POOL_ARRAY_TO_IMPL array in
  SXE_POOL_ASSERT_ARRAY_INITIALIZED array;;
  result ← lock_pool pool;
  if result =? SXE_POOL_LOCK_NOT_TAKEN then mret result
  else
    p ← rd_impl pool;
    state ← on_mem (SXE_LIST_NODE_GET_ID (NODES_AT pool p id));
    b ← sxe_pool_set_indexed_element_state_unlocked array id state state true;
    lift (assert1 b);;
    unlock_pool pool;;
    mret result.

(** ** Queries *)

(** lib-sxe-pool/sxe-pool.c:578-609, sxe_pool_get_oldest_element_index. *)
Definition sxe_pool_get_oldest_element_index (array state : Z) : cmd world Z :=
  let pool := SXE_POOL_ARRAY_TO_IMPL array in
  SXE_POOL_ASSERT_ARRAY_INITIALIZED array;;
  p ← rd_impl pool;
  check_state p state;;
  r ← lock_pool pool;
  if r =? SXE_POOL_LOCK_NOT_TAKEN then mret SXE_POOL_NO_INDEX
  else
    p ← rd_impl pool;
    node ← on_mem (sxe_list_peek_head (QUEUE_AT pool p state));
    let id := if node =? NULL then SXE_POOL_NO_INDEX else NODE_INDEX pool p node in
    unlock_pool pool;;
    mret id.

(** lib-sxe-pool/sxe-pool.c:611-643, sxe_pool_impl_get_oldest_element_time_or_count. *)
Definition sxe_pool_impl_get_oldest_element_time_or_count (pool state : Z) : cmd world Z :=
  r ← lock_pool pool;
  if r =? SXE_POOL_LOCK_NOT_TAKEN then mret 0
  else
    p ← rd_impl pool;
    node ← on_mem (sxe_list_peek_head (QUEUE_AT pool p state));
    last_time ← (if node =? NULL then mret 0 else rd_last node);
    unlock_pool pool;;
    mret last_time.

(** lib-sxe-pool/sxe-pool.c:645-661, sxe_pool_get_oldest_element_time. *)
Definition sxe_pool_get_oldest_element_time (array state : Z) : cmd world Z :=
  let pool := SXE_POOL_ARRAY_TO_IMPL array in
  SXE_POOL_ASSERT_ARRAY_INITIALIZED array;;
  p ← rd_impl pool;
  lift (assert1 (timed p));;
  sxe_pool_impl_get_oldest_element_time_or_count pool state.

(** lib-sxe-pool/sxe-pool.c:663-679, sxe_pool_get_oldest_element_count. *)
Definition sxe_pool_get_oldest_element_count (array state : Z) : cmd world Z :=
  let pool := SXE_POOL_ARRAY_TO_IMPL array in
  SXE_POOL_ASSERT_ARRAY_INITIALIZED array;;
  p ← rd_impl pool;
  lift (assert1 (negb (timed p)));;
  sxe_pool_impl_get_oldest_element_time_or_count pool state.

(** lib-sxe-pool/sxe-pool.c:681-705, sxe_pool_get_element_time_by_index. *)
Definition sxe_pool_get_element_time_by_index (array element : Z) : cmd world Z :=
  let pool := SXE_POOL_ARRAY_TO_IMPL array in
  SXE_POOL_ASSERT_ARRAY_INITIALIZED array;;
  p ← rd_impl pool;
  lift (assert1 (timed p));;
  check_index p element;;
  rd_last (NODES_AT pool p element).

(** lib-sxe-pool/sxe-pool.c:707-724, sxe_pool_delete. The pool's block goes back to
    the allocator: the structure, without which no operation reaches the queues
    and the nodes, is no longer in the store. *)
Definition sxe_pool_delete (array : Z) : cmd world unit :=
  let pool := SXE_POOL_ARRAY_TO_IMPL array in
  SXE_POOL_ASSERT_ARRAY_INITIALIZED array;;
  p ← rd_impl pool;
  (if negb (p_event_timeout p =? NULL) then
     r ← on_mem (sxe_list_remove sxe_pool_timeout_list pool);
     lift (assert1 (r =? pool))
   else mret tt);;
  modify (with_impls (delete pool)).

(** lib-sxe-pool/sxe-pool.c:726-744, sxe_pool_override_locked. *)
Definition sxe_pool_override_locked (array : Z) : cmd world unit :=
  let pool := SXE_POOL_ARRAY_TO_IMPL array in
  SXE_POOL_ASSERT_ARRAY_INITIALIZED array;;
  p ← rd_impl pool;
  if locked p then modify (sxe_spinlock_force (HasLock0 := pool_has_lock pool) (others 0) 0)
  else mret tt.
End Operations.

(** ** Representation of a pool *)

(** The layout of a pool: the queues and then the nodes follow the objects, and
    the block does not wrap around the address space. *)
Record layout (pool : Z) (p : SXE_POOL_IMPL) : Prop := {
  lay_pool : 0 < pool;
  lay_queue : SIZEOF_POOL_IMPL <= p_queue p;
  lay_nodes : p_nodes p = p_queue p + SIZEOF_LIST * p_states p;
  lay_end : pool + p_nodes p + SIZEOF_POOL_NODE * p_number p < 18446744073709551616;
  lay_number : 0 <= p_number p <= 4294967293;
  lay_states : 1 <= p_states p < 4294967295
}.

Definition qaddr (pool : Z) (p : SXE_POOL_IMPL) (k : nat) : Z := pool + p_queue p + SIZEOF_LIST * Z.of_nat k.
Definition naddr (pool : Z) (p : SXE_POOL_IMPL) (i : nat) : Z := pool + p_nodes p + SIZEOF_POOL_NODE * Z.of_nat i.

(** The state queues [qs] (of node indices) partition the nodes of the pool, and
    the list of state [k] holds the nodes of [qs !! k] with identifier [k]. *)
Record queues_ok (m : mem) (pool : Z) (p : SXE_POOL_IMPL) (qs : list (list nat)) : Prop := {
  qo_states : length qs = Z.to_nat (p_states p);
  qo_lists : forall k q, qs !! k = Some q -> is_list m (qaddr pool p k) (Z.of_nat k) 0 (naddr pool p <$> q);
  qo_nodup : NoDup (concat qs);
  qo_bound : forall i, i ∈ concat qs -> Z.of_nat i < p_number p;
  qo_dom : forall i, Z.of_nat i < p_number p -> naddr pool p i ∈ dom (nodes m)
}.

(** What a pool is to its clients: a queue of indices per state, and the stamp
    (time or count) of the last insertion of every element. *)
Record pool_abs := mk_abs { queues : list (list nat); stamps : list Z }.

(** The pool structure at [pool] is [p], every element is in exactly one queue. *)
Record is_pool (w : world) (pool : Z) (p : SXE_POOL_IMPL) (a : pool_abs) : Prop := {
  ip_impl : w_impls w !! pool = Some p;
  ip_layout : layout pool p;
  ip_queues : queues_ok (w_mem w) pool p (queues a);
  ip_all : forall i, Z.of_nat i < p_number p -> i ∈ concat (queues a);
  ip_nstamps : length (stamps a) = Z.to_nat (p_number p);
  ip_stamps : forall i t, stamps a !! i = Some t -> w_last w !! naddr pool p i = Some t
}.

Ltac unfold_layout :=
  unfold QUEUE_AT, NODES_AT, PTR_FIX, qaddr, naddr, SIZEOF_LIST, SIZEOF_POOL_NODE, SIZEOF_POOL_IMPL in *.

Section Layout.
Variables (pool : Z) (p : SXE_POOL_IMPL).
Hypothesis L : layout pool p.

Lemma QUEUE_AT_qaddr (k : nat) : Z.of_nat k < p_states p -> QUEUE_AT pool p (Z.of_nat k) = qaddr pool p k.
Proof using L. destruct L. unfold_layout. intros. rewrite (u64_small (_ + _)); rewrite ?u64_small; unfold is_u64; lia. Qed.

Lemma NODES_AT_naddr (i : nat) : Z.of_nat i < p_number p -> NODES_AT pool p (Z.of_nat i) = naddr pool p i.
Proof using L. destruct L. unfold_layout. intros. rewrite (u64_small (_ + _)); rewrite ?u64_small; unfold is_u64; lia. Qed.

Lemma naddr_u64 (i : nat) : Z.of_nat i < p_number p -> is_u64 (naddr pool p i).
Proof using L. destruct L. unfold_layout. unfold is_u64. lia. Qed.

Lemma naddr_pos (i : nat) : naddr pool p i <> NULL.
Proof using L. destruct L. unfold_layout. unfold NULL. lia. Qed.

Lemma naddr_inj (i j : nat) : naddr pool p i = naddr pool p j -> i = j.
Proof using. unfold_layout. lia. Qed.

Lemma qaddr_inj (i j : nat) : qaddr pool p i = qaddr pool p j -> i = j.
Proof using. unfold_layout. lia. Qed.

Lemma qaddr_ne_naddr (k i : nat) : Z.of_nat k < p_states p -> qaddr pool p k <> naddr pool p i.
Proof using L. destruct L. unfold_layout. lia. Qed.

Lemma NODE_INDEX_naddr (i : nat) : Z.of_nat i < p_number p -> NODE_INDEX pool p (naddr pool p i) = Z.of_nat i.
Proof using L.
  destruct L. unfold NODE_INDEX. unfold_layout. intros.
  rewrite u64_small by (unfold is_u64; lia).
  replace (pool + p_nodes p + 32 * Z.of_nat i - (p_nodes p + pool)) with (Z.of_nat i * 32) by lia.
  rewrite Z.quot_mul by done. apply u32_small. unfold is_u32. lia.
Qed.

Lemma impl_of_array : SXE_POOL_ARRAY_TO_IMPL (SXE_POOL_IMPL_TO_ARRAY pool) = pool.
Proof using L.
  destruct L. unfold SXE_POOL_ARRAY_TO_IMPL, SXE_POOL_IMPL_TO_ARRAY. unfold_layout. word_lia.
Qed.

Lemma array_nonnull : SXE_POOL_IMPL_TO_ARRAY pool <> NULL.
Proof using L.
  destruct L. unfold SXE_POOL_IMPL_TO_ARRAY, NULL. unfold_layout. rewrite u64_small; unfold is_u64; lia.
Qed.
End Layout.

Lemma layout_shape pool p p' :
  p_nodes p' = p_nodes p -> p_queue p' = p_queue p -> p_number p' = p_number p -> p_states p' = p_states p ->
  layout pool p -> layout pool p'.
Proof. intros E1 E2 E3 E4 []. split; rewrite ?E1, ?E2, ?E3, ?E4; done. Qed.

Instance naddr_Inj pool p : Inj (=) (=) (naddr pool p).
Proof. intros i j. apply naddr_inj. Qed.

(** The list memory outside the block of a pool is unchanged. *)
Definition outside (pool : Z) (p : SXE_POOL_IMPL) (m m' : mem) : Prop :=
  dom (nodes m') = dom (nodes m) /\
  (forall a, (forall k, a <> qaddr pool p k) -> (forall i, a <> naddr pool p i) -> nodes m' !! a = nodes m !! a) /\
  (forall a, (forall k, a <> qaddr pool p k) -> lists m' !! a = lists m !! a).

Lemma outside_trans pool p m1 m2 m3 :
  outside pool p m1 m2 -> outside pool p m2 m3 -> outside pool p m1 m3.
Proof.
  intros (D1 & N1 & L1) (D2 & N2 & L2). split_and!; [congruence|..].
  - intros. by rewrite N2, N1.
  - intros. by rewrite L2, L1.
Qed.

Section Queues.
Context `{Build}.
Variables (pool : Z) (p : SXE_POOL_IMPL).
Hypothesis L : layout pool p.
Implicit Types (m : mem) (qs : list (list nat)) (k i : nat).

Lemma frame_outside m m' k t : frame m m' (qaddr pool p k) (naddr pool p <$> t) -> outside pool p m m'.
Proof.
  intros (F1 & F2 & F3). split_and!; [done|..].
  - intros a Hq Hn. apply F1. rewrite not_elem_of_cons. split; [done|].
    rewrite list_elem_of_fmap. intros (j & -> & _). by apply (Hn j).
  - intros a Hq. by apply F2.
Qed.

(** A list of another state is not affected. *)
Lemma other_queue m m' k t k' q :
  frame m m' (qaddr pool p k) (naddr pool p <$> t) -> k <> k' ->
  Z.of_nat k < p_states p -> Z.of_nat k' < p_states p -> (forall i, i ∈ q -> i ∉ t) ->
  is_list m (qaddr pool p k') (Z.of_nat k') 0 (naddr pool p <$> q) ->
  is_list m' (qaddr pool p k') (Z.of_nat k') 0 (naddr pool p <$> q).
Proof using L.
  intros (F1 & F2 & F3) Hk Hs Hs' Hd HL. apply (is_list_frame m); [done| |].
  - intros a Ha. apply F1. apply not_elem_of_cons. rewrite list_elem_of_fmap.
    apply elem_of_cons in Ha as [->|(j & -> & Hj)%list_elem_of_fmap].
    + split; [intros E%qaddr_inj; done|]. intros (j & E & _). by apply (qaddr_ne_naddr pool p L) in E.
    + split; [by apply not_eq_sym, qaddr_ne_naddr|]. intros (j' & ->%naddr_inj & Hj'). by apply (Hd _ Hj).
  - apply F2. intros E%qaddr_inj. done.
Qed.

Lemma queue_state m qs k q : queues_ok m pool p qs -> qs !! k = Some q -> Z.of_nat k < p_states p.
Proof. intros Q E%lookup_lt_Some. rewrite (qo_states _ _ _ _ Q) in E. lia. Qed.

Lemma queues_remove m qs k q1 i q2 :
  queues_ok m pool p qs -> qs !! k = Some (q1 ++ i :: q2) ->
  exists m', sxe_list_remove (qaddr pool p k) (naddr pool p i) m = Ret (naddr pool p i, m') /\
    queues_ok m' pool p (<[k := q1 ++ q2]> qs) /\ outside pool p m m'.
Proof using L.
  intros Q E. pose proof (queue_state _ _ _ _ Q E) as Hk.
  pose proof (concat_remove_perm _ _ _ _ _ E) as P.
  pose proof (qo_lists _ _ _ _ Q _ _ E) as HL. rewrite fmap_app, fmap_cons in HL.
  assert (Hi : i ∈ concat qs) by (rewrite P; constructor).
  destruct (sxe_list_remove_spec m _ _ _ _ _ _ HL (naddr pool p i)) as (m' & R & HL' & _ & F).
  { rewrite Z.add_0_r, u64_small; [done|]. by apply naddr_u64, (qo_bound _ _ _ _ Q). }
  assert (F' : frame m m' (qaddr pool p k) (naddr pool p <$> q1 ++ i :: q2)) by by rewrite fmap_app, fmap_cons.
  exists m'. split_and!; [done| |by eapply frame_outside].
  split.
  - by rewrite length_insert, (qo_states _ _ _ _ Q).
  - intros k' q. destruct (decide (k = k')) as [<-|Hne].
    + rewrite list_lookup_insert_eq by by eapply lookup_lt_Some. intros [= <-]. by rewrite fmap_app.
    + rewrite list_lookup_insert_ne by done. intros E'. eapply other_queue; eauto.
      * by eapply queue_state.
      * intros j Hj Hj'. apply Hne. eapply concat_unique; eauto using qo_nodup.
      * by eapply qo_lists.
  - pose proof (qo_nodup _ _ _ _ Q) as ND. rewrite P in ND. by apply NoDup_cons in ND as [_ ND].
  - intros j Hj. apply (qo_bound _ _ _ _ Q). rewrite P. by constructor.
  - intros j Hj. destruct F as (_ & _ & ->). by apply (qo_dom _ _ _ _ Q).
Qed.

Lemma queues_push m qs k q i :
  queues_ok m pool p qs -> qs !! k = Some q -> i ∉ concat qs -> Z.of_nat i < p_number p ->
  exists m', sxe_list_push (qaddr pool p k) (naddr pool p i) m = Ret (tt, m') /\
    queues_ok m' pool p (<[k := q ++ [i]]> qs) /\ outside pool p m m'.
Proof using L.
  intros Q E Hi Hb. pose proof (queue_state _ _ _ _ Q E) as Hk.
  pose proof (concat_push_perm _ _ _ i E) as P.
  assert (Hq : forall j, j ∈ q -> j ∈ concat qs) by (intros; apply concat_elem; eauto).
  pose proof (qo_lists _ _ _ _ Q _ _ E) as HL.
  destruct (sxe_list_push_spec m _ _ _ _ (naddr pool p i) (naddr pool p i) HL) as (m' & R & HL' & F).
  { rewrite Z.add_0_r, u64_small; [done|]. by apply naddr_u64. }
  { rewrite not_elem_of_cons. split; [by apply not_eq_sym, qaddr_ne_naddr|].
    rewrite list_elem_of_fmap. intros (j & ->%naddr_inj & Hj). auto. }
  { by apply (qo_dom _ _ _ _ Q). }
  { by apply naddr_pos. }
  assert (F' : frame m m' (qaddr pool p k) (naddr pool p <$> i :: q)) by done.
  exists m'. split_and!; [done| |by eapply frame_outside].
  split.
  - by rewrite length_insert, (qo_states _ _ _ _ Q).
  - intros k' q'. destruct (decide (k = k')) as [<-|Hne].
    + rewrite list_lookup_insert_eq by by eapply lookup_lt_Some. intros [= <-]. by rewrite fmap_app.
    + rewrite list_lookup_insert_ne by done. intros E'. eapply other_queue; eauto.
      * by eapply queue_state.
      * intros j Hj [->|Hj']%elem_of_cons; [apply Hi, concat_elem; eauto|].
        apply Hne. eapply concat_unique; eauto using qo_nodup.
      * by eapply qo_lists.
  - rewrite P. apply NoDup_cons. split; [done|]. by eapply qo_nodup.
  - intros j. rewrite P. intros [->|Hj]%elem_of_cons; [done|]. by apply (qo_bound _ _ _ _ Q).
  - intros j Hj. destruct F as (_ & _ & ->). by apply (qo_dom _ _ _ _ Q).
Qed.
End Queues.

(** ** The abstract pool *)

(** The state an element is in: the queue that holds it. *)
Definition state_of (a : pool_abs) (i : nat) : option nat := fst <$> list_find (fun q => i ∈ q) (queues a).

(** Moving element [i] from one state to the tail of another, at time [t]. *)
Definition move (i old new : nat) (t : Z) (a : pool_abs) : pool_abs :=
  mk_abs (alter (fun q => q ++ [i]) new (alter (filter (fun j => j <> i)) old (queues a)))
         (<[i := t]> (stamps a)).

(** The stamp an insertion gets, and the pool structure after it. *)
Definition stamp (w : world) (p : SXE_POOL_IMPL) : Z := if timed p then w_now w else u64 (p_next_count p + 1).
Definition bump (p : SXE_POOL_IMPL) : SXE_POOL_IMPL :=
  if timed p then p else set_next_count (u64 (p_next_count p + 1)) p.

(** The store outside the pool at [pool] is unchanged. *)
Record untouched (pool : Z) (p : SXE_POOL_IMPL) (w w' : world) : Prop := {
  ut_mem : outside pool p (w_mem w) (w_mem w');
  ut_impls : forall b, b <> pool -> w_impls w' !! b = w_impls w !! b;
  ut_last : forall b, (forall i, b <> naddr pool p i) -> w_last w' !! b = w_last w !! b;
  ut_now : w_now w' = w_now w;
  ut_count : w_timeout_count w' = w_timeout_count w
}.

Lemma on_mem_ret {A} (c : cmd mem A) w a m :
  c (w_mem w) = Ret (a, m) -> on_mem c w = Ret (a, with_mem m w).
Proof. unfold on_mem. by intros ->. Qed.

Lemma rd_impl_ret pool p w : w_impls w !! pool = Some p -> rd_impl pool w = Ret (p, w).
Proof. unfold rd_impl. by intros ->. Qed.

Lemma upd_impl_ret pool f p w :
  w_impls w !! pool = Some p -> upd_impl pool f w = Ret (tt, with_impls <[pool := f p]> w).
Proof. unfold upd_impl. by intros ->. Qed.

Lemma wr_last_ret node t w :
  is_Some (w_last w !! node) -> wr_last node t w = Ret (tt, with_last <[node := t]> w).
Proof. unfold wr_last. by intros [? ->]. Qed.

Lemma with_mem_same w : with_mem (w_mem w) w = w.
Proof. by destruct w. Qed.

Section Abstract.
Variables (w : world) (pool : Z) (p : SXE_POOL_IMPL) (a : pool_abs).
Hypothesis P : is_pool w pool p a.

Lemma state_of_queue i k : state_of a i = Some k -> exists q, queues a !! k = Some q /\ i ∈ q.
Proof using.
  unfold state_of. destruct (list_find _ _) as [[k' q]|] eqn:E; [|done]. intros [= <-].
  apply list_find_Some in E as (E & Hi & _). eauto.
Qed.

Lemma queue_state_of i k q : queues a !! k = Some q -> i ∈ q -> state_of a i = Some k.
Proof using P.
  intros E Hi. unfold state_of. destruct (list_find _ _) as [[k' q']|] eqn:F; simpl.
  - apply list_find_Some in F as (F & Hi' & _). f_equal.
    eapply concat_unique; eauto. eapply qo_nodup, ip_queues, P.
  - exfalso. apply list_find_None in F. rewrite Forall_forall in F.
    by apply (F q); [eapply list_elem_of_lookup_2|].
Qed.

Lemma state_of_total i : Z.of_nat i < p_number p -> exists k, state_of a i = Some k.
Proof using P.
  intros Hi. apply (ip_all _ _ _ _ P), concat_elem in Hi as (k & q & E & Hi).
  exists k. by eapply queue_state_of.
Qed.

Lemma state_of_bound i k : state_of a i = Some k -> Z.of_nat i < p_number p /\ Z.of_nat k < p_states p.
Proof using P.
  intros (q & E & Hi)%state_of_queue. split.
  - eapply qo_bound; [apply (ip_queues _ _ _ _ P)|]. apply concat_elem. eauto.
  - eapply queue_state; [apply (ip_queues _ _ _ _ P)|done].
Qed.

(** The identifier stored in a node is the state of the element. *)
Lemma node_id i k :
  state_of a i = Some k ->
  on_mem (SXE_LIST_NODE_GET_ID (NODES_AT pool p (Z.of_nat i))) w = Ret (Z.of_nat k, w).
Proof using P.
  intros Hs. pose proof (state_of_bound _ _ Hs) as [Hi _]. apply state_of_queue in Hs as (q & E & Hq).
  rewrite NODES_AT_naddr by (done || apply P).
  erewrite on_mem_ret; [by rewrite with_mem_same|]. apply rd_field_ok.
  eapply il_ids; [eapply qo_lists; [apply (ip_queues _ _ _ _ P)|done]|].
  right. by apply list_elem_of_fmap_2.
Qed.
End Abstract.

Section MoveSpec.
Context `{Build}.
Variables (w : world) (pool : Z) (p : SXE_POOL_IMPL) (a : pool_abs).
Hypothesis P : is_pool w pool p a.
Let L : layout pool p := ip_layout _ _ _ _ P.
Abbreviation array := (SXE_POOL_IMPL_TO_ARRAY pool).

Lemma assert_array w' : SXE_POOL_ASSERT_ARRAY_INITIALIZED array w' = Ret (tt, w').
Proof using P.
  unfold SXE_POOL_ASSERT_ARRAY_INITIALIZED, assert6.
  destruct (Z.eqb_spec array NULL) as [E|]; [by apply (array_nonnull pool p L) in E|]. by destruct debug.
Qed.

Lemma bump_same_layout : p_nodes (bump p) = p_nodes p /\ p_queue (bump p) = p_queue p /\
  p_number (bump p) = p_number p /\ p_states (bump p) = p_states p /\ p_options (bump p) = p_options p /\
  p_spinlock (bump p) = p_spinlock p.
Proof using. unfold bump. by destruct (timed p). Qed.

(** Writing the stamp of element [i]. *)
Definition restamp (i : Z) (p : SXE_POOL_IMPL) : cmd world unit :=
  if timed p then t ← sxe_time_get; wr_last i t
  else upd_impl pool (set_next_count (u64 (p_next_count p + 1)));;
       p ← rd_impl pool;
       wr_last i (p_next_count p).

Lemma restamp_run i w1 :
  w_impls w1 !! pool = Some p -> is_Some (w_last w1 !! i) ->
  restamp i p w1 = Ret (tt, with_last <[i := stamp w1 p]> (with_impls <[pool := bump p]> w1)).
Proof using.
  intros E1 E2. unfold restamp, bump, stamp. destruct (timed p).
  - erewrite cmd_bind_ret by done. rewrite wr_last_ret by done.
    unfold with_impls. destruct w1. simpl in *. by rewrite insert_id.
  - rewrite (cmd_bind_ret _ _ _ _ _ (upd_impl_ret _ _ _ _ E1)).
    erewrite cmd_bind_ret by (apply rd_impl_ret; apply lookup_insert_eq).
    by rewrite wr_last_ret.
Qed.

(** The queues after taking element [i] out of its state, in the form the list
    lemmas give. *)
Lemma alter_remove k q1 i q2 :
  queues a !! k = Some (q1 ++ i :: q2) ->
  alter (filter (fun j => j <> i)) k (queues a) = <[k := q1 ++ q2]> (queues a).
Proof using P.
  intros E. pose proof (qo_nodup _ _ _ _ (ip_queues _ _ _ _ P)) as ND.
  rewrite (concat_remove_perm _ _ _ _ _ E) in ND. apply NoDup_cons in ND as [Hi _].
  assert (Hq : i ∉ q1 ++ q2).
  { intros Hq. apply Hi, concat_elem. exists k, (q1 ++ q2). split; [|done].
    apply list_lookup_insert_eq. by eapply lookup_lt_Some. }
  apply list_eq. intros j. destruct (decide (k = j)) as [<-|].
  - rewrite list_lookup_alter_eq, list_lookup_insert_eq, E by by eapply lookup_lt_Some. simpl. f_equal.
    rewrite filter_app, filter_cons_False by auto.
    rewrite !filter_all; [done|..]; intros x Hx ->; apply Hq; set_solver.
  - by rewrite list_lookup_alter_ne, list_lookup_insert_ne.
Qed.

Lemma alter_insert (qs : list (list nat)) k q (f : list nat -> list nat) :
  qs !! k = Some q -> alter f k qs = <[k := f q]> qs.
Proof using.
  intros E. apply list_eq. intros j. destruct (decide (k = j)) as [<-|].
  - by rewrite list_lookup_alter_eq, list_lookup_insert_eq, E by by eapply lookup_lt_Some.
  - by rewrite list_lookup_alter_ne, list_lookup_insert_ne.
Qed.

Lemma queues_ok_ext m p' qs :
  p_nodes p' = p_nodes p -> p_queue p' = p_queue p -> p_number p' = p_number p -> p_states p' = p_states p ->
  queues_ok m pool p qs -> queues_ok m pool p' qs.
Proof using.
  intros E1 E2 E3 E4 []. unfold qaddr, naddr in *. split; unfold qaddr, naddr; rewrite ?E1, ?E2, ?E3, ?E4; done.
Qed.

Lemma layout_ext p' :
  p_nodes p' = p_nodes p -> p_queue p' = p_queue p -> p_number p' = p_number p -> p_states p' = p_states p ->
  layout pool p'.
Proof using P. intros. by apply layout_shape with p. Qed.

(** The store after a move is the pool with the element moved. *)
Lemma moved_is_pool i old new t m' :
  state_of a i = Some old -> Z.of_nat new < p_states p ->
  queues_ok m' pool p (queues (move i old new t a)) -> outside pool p (w_mem w) m' ->
  let w' := with_mem m' (with_last <[naddr pool p i := t]> (with_impls <[pool := bump p]> w)) in
  is_pool w' pool (bump p) (move i old new t a) /\ untouched pool p w w'.
Proof using P.
  intros Hs Hnew Q O. destruct bump_same_layout as (B1 & B2 & B3 & B4 & _).
  pose proof (state_of_bound _ _ _ _ P _ _ Hs) as [Hi Hold]. split.
  - split; simpl.
    + apply lookup_insert_eq.
    + by apply layout_ext.
    + by apply queues_ok_ext.
    + rewrite B3. intros j Hj. apply (ip_all _ _ _ _ P) in Hj.
      apply state_of_queue in Hs as (q & E & [q1 [q2 ->]]%list_elem_of_split).
      rewrite (alter_remove _ _ _ _ E).
      rewrite (concat_remove_perm _ _ _ _ _ E) in Hj.
      assert (Hl : (new < length (<[old := q1 ++ q2]> (queues a)))%nat).
      { rewrite length_insert, (qo_states _ _ _ _ (ip_queues _ _ _ _ P)). lia. }
      apply lookup_lt_is_Some_2 in Hl as [q' E'].
      rewrite (alter_insert _ _ _ _ E'). by rewrite concat_push_perm.
    + by rewrite length_insert, B3, (ip_nstamps _ _ _ _ P).
    + intros j u Hj. replace (naddr pool (bump p) j) with (naddr pool p j) by (unfold naddr; by rewrite B1).
      destruct (decide (i = j)) as [<-|].
      * rewrite list_lookup_insert_eq in Hj by (rewrite (ip_nstamps _ _ _ _ P); lia).
        injection Hj as [= <-]. apply lookup_insert_eq.
      * rewrite list_lookup_insert_ne in Hj by done. rewrite lookup_insert_ne; [by apply (ip_stamps _ _ _ _ P)|].
        by intros ?%naddr_inj.
  - split; simpl; try done.
    + intros b Hb. by apply lookup_insert_ne.
    + intros b Hb. by apply lookup_insert_ne.
Qed.

(** Moving an element that is in the expected state. *)
Lemma unlocked_move i old new ab :
  state_of a i = Some old -> Z.of_nat new < p_states p ->
  exists w', sxe_pool_set_indexed_element_state_unlocked array (Z.of_nat i) (Z.of_nat old) (Z.of_nat new) ab w
    = Ret (true, w') /\
    is_pool w' pool (bump p) (move i old new (stamp w p) a) /\ untouched pool p w w'.
Proof using P.
  intros Hs Hnew. pose proof (node_id _ _ _ _ P _ _ Hs) as Hid.
  pose proof (state_of_bound _ _ _ _ P _ _ Hs) as [Hi Hold].
  pose proof Hs as (q & E & [q1 [q2 ->]]%list_elem_of_split)%state_of_queue.
  destruct (queues_remove pool p L _ _ _ _ _ _ (ip_queues _ _ _ _ P) E) as (m1 & R1 & Q1 & O1).
  set (qs1 := <[old := q1 ++ q2]> (queues a)) in *.
  destruct (lookup_lt_is_Some_2 qs1 new) as [q' E'].
  { rewrite (qo_states _ _ _ _ Q1). lia. }
  destruct (queues_push pool p L _ _ _ _ i Q1 E') as (m2 & R2 & Q2 & O2); [|done|].
  { pose proof (qo_nodup _ _ _ _ (ip_queues _ _ _ _ P)) as ND.
    rewrite (concat_remove_perm _ _ _ _ _ E) in ND. by apply NoDup_cons in ND as [? _]. }
  unfold sxe_pool_set_indexed_element_state_unlocked. rewrite (impl_of_array pool p L). cbv zeta.
  rewrite (cmd_bind_ret _ _ _ _ _ (assert_array _)).
  rewrite (cmd_bind_ret _ _ _ _ _ (rd_impl_ret _ _ _ (ip_impl _ _ _ _ P))).
  rewrite (cmd_bind_ret _ _ _ _ _ Hid), Z.eqb_refl. change (negb true) with false. cbv iota.
  rewrite (NODES_AT_naddr pool p L), !(QUEUE_AT_qaddr pool p L) by done.
  rewrite (cmd_bind_ret _ _ _ _ _ (on_mem_ret _ _ _ _ R1)).
  change (if timed p then _ else _) with (restamp (naddr pool p i) p).
  erewrite cmd_bind_ret; [|apply restamp_run; [apply P|]].
  2:{ simpl. destruct (lookup_lt_is_Some_2 (stamps a) i) as [t Et]; [rewrite (ip_nstamps _ _ _ _ P); lia|].
      exists t. by apply (ip_stamps _ _ _ _ P). }
  erewrite cmd_bind_ret by (by apply on_mem_ret).
  eexists. split; [done|].
  apply (moved_is_pool i old new (stamp w p) m2 Hs Hnew); [|by eapply outside_trans].
  unfold move. simpl. by rewrite (alter_remove _ _ _ _ E), (alter_insert _ _ _ _ E').
Qed.

(** Moving an element that is in another state: abort, or report failure. *)
Lemma unlocked_wrong i k old new (ab : bool) :
  state_of a i = Some k -> Z.of_nat k <> old ->
  sxe_pool_set_indexed_element_state_unlocked array (Z.of_nat i) old new ab w =
  if ab then Abort else Ret (false, w).
Proof using P.
  intros Hs Hk. pose proof (node_id _ _ _ _ P _ _ Hs) as Hid.
  unfold sxe_pool_set_indexed_element_state_unlocked. rewrite (impl_of_array pool p L). cbv zeta.
  rewrite (cmd_bind_ret _ _ _ _ _ (assert_array _)).
  rewrite (cmd_bind_ret _ _ _ _ _ (rd_impl_ret _ _ _ (ip_impl _ _ _ _ P))).
  rewrite (cmd_bind_ret _ _ _ _ _ Hid). destruct (Z.eqb_spec (Z.of_nat k) old); [done|]. by destruct ab.
Qed.
End MoveSpec.

(** ** Locked operations when the lock is free *)
Section Locked.
Context `{Build} (others : Z -> world -> world) (spin_max tid : Z).
Variable (pool : Z).
Abbreviation array := (SXE_POOL_IMPL_TO_ARRAY pool).
Abbreviation lock_pool := (sxe_pool_lock others spin_max tid pool).
Abbreviation unlock_pool := (sxe_pool_unlock tid pool).

(** A pool whose lock, if it has one, is free and can be tried. *)
Definition available (p : SXE_POOL_IMPL) : Prop := locked p = true -> p_spinlock p = 0 /\ 0 < spin_max.

Definition hold (p : SXE_POOL_IMPL) : SXE_POOL_IMPL := if locked p then set_spinlock tid p else p.
Definition unhold (p : SXE_POOL_IMPL) : SXE_POOL_IMPL := if locked p then set_spinlock 0 p else p.

Lemma unhold_hold p : available p -> unhold (hold p) = p.
Proof using.
  intros A. unfold unhold, hold, available in *. destruct (locked p) eqn:E; [|by rewrite E].
  change (locked (set_spinlock tid p)) with (locked p). rewrite E.
  destruct p; simpl in *. unfold set_spinlock; simpl. by destruct A as [-> _].
Qed.

Lemma unhold_bump_hold p : available p -> unhold (bump (hold p)) = bump p.
Proof using.
  intros A. unfold unhold, hold, bump, available in *. destruct (locked p) eqn:E.
  - change (timed (set_spinlock tid p)) with (timed p). destruct A as [A _]; [done|].
    destruct (timed p).
    + change (locked (set_spinlock tid p)) with (locked p). rewrite E.
      destruct p; simpl in *. unfold set_spinlock; simpl. by subst.
    + change (locked (set_next_count _ (set_spinlock tid p))) with (locked p). rewrite E.
      destruct p; simpl in *. unfold set_spinlock, set_next_count; simpl. by subst.
  - destruct (timed p); [by rewrite E|]. change (locked (set_next_count _ p)) with (locked p). by rewrite E.
Qed.

Lemma pool_lock_run w p :
  w_impls w !! pool = Some p -> available p ->
  lock_pool w = Ret (SXE_POOL_LOCK_TAKEN, with_impls <[pool := hold p]> w).
Proof using.
  intros E A. unfold sxe_pool_lock. rewrite (cmd_bind_ret _ _ _ _ _ (rd_impl_ret _ _ _ E)).
  unfold hold. destruct (locked p) eqn:El; simpl.
  - destruct (A El) as [A0 Am].
    rewrite (@take_free _ (pool_has_lock pool)); [|done|by simpl; unfold lock_of_pool; rewrite E].
    by rewrite (put_pool_lock _ _ _ _ E).
  - unfold mret, cmd_ret, with_impls. destruct w. simpl in *. by rewrite insert_id.
Qed.

Lemma pool_unlock_run w p :
  w_impls w !! pool = Some p -> (locked p = true -> p_spinlock p = tid) ->
  unlock_pool w = Ret (tt, with_impls <[pool := unhold p]> w).
Proof using.
  intros E A. unfold sxe_pool_unlock. rewrite (cmd_bind_ret _ _ _ _ _ (rd_impl_ret _ _ _ E)).
  unfold unhold. destruct (locked p) eqn:El; simpl.
  - unfold sxe_spinlock_give, InterlockedCompareExchange. rewrite (put_pool_lock _ _ _ _ E). simpl.
    unfold lock_of_pool. by rewrite E, A, !Z.eqb_refl.
  - unfold mret, cmd_ret, with_impls. destruct w. simpl in *. by rewrite insert_id.
Qed.

(** Changing the lock word does not change the pool. *)
Lemma is_pool_relock w p p' a :
  p_nodes p' = p_nodes p -> p_queue p' = p_queue p -> p_number p' = p_number p -> p_states p' = p_states p ->
  is_pool w pool p a -> is_pool (with_impls <[pool := p']> w) pool p' a.
Proof using.
  intros E1 E2 E3 E4 P. split; simpl.
  - apply lookup_insert_eq.
  - by eapply layout_ext.
  - by eapply queues_ok_ext; [..|apply P].
  - rewrite E3. apply P.
  - rewrite E3. apply P.
  - intros i t Hi. unfold naddr. rewrite E1. by apply (ip_stamps _ _ _ _ P).
Qed.

Lemma hold_fields p : p_nodes (hold p) = p_nodes p /\ p_queue (hold p) = p_queue p /\
  p_number (hold p) = p_number p /\ p_states (hold p) = p_states p /\ timed (hold p) = timed p /\
  p_next_count (hold p) = p_next_count p /\ locked (hold p) = locked p /\ (locked p = true -> p_spinlock (hold p) = tid).
Proof using. unfold hold. destruct (locked p) eqn:E; split_and!; try done. Qed.

Lemma unhold_fields p : p_nodes (unhold p) = p_nodes p /\ p_queue (unhold p) = p_queue p /\
  p_number (unhold p) = p_number p /\ p_states (unhold p) = p_states p.
Proof using. unfold unhold. by destruct (locked p). Qed.

Lemma is_pool_hold w p a : is_pool w pool p a -> is_pool (with_impls <[pool := hold p]> w) pool (hold p) a.
Proof using. destruct (hold_fields p) as (? & ? & ? & ? & _). by apply is_pool_relock. Qed.

Lemma is_pool_unhold w p a : is_pool w pool p a -> is_pool (with_impls <[pool := unhold p]> w) pool (unhold p) a.
Proof using. destruct (unhold_fields p) as (? & ? & ? & ?). by apply is_pool_relock. Qed.

Lemma untouched_impls w w1 w2 p q q' :
  p_nodes q = p_nodes p -> p_queue q = p_queue p ->
  untouched pool q (with_impls <[pool := q']> w) w1 ->
  forall q2, w2 = with_impls <[pool := q2]> w1 -> untouched pool p w w2.
Proof using.
  intros E1 E2 [(M1 & M2 & M3) I La N C] q2 ->.
  unfold qaddr, naddr in *. rewrite ?E1, ?E2 in *. split; simpl in *; try done.
  - intros b Hb. rewrite lookup_insert_ne by done. rewrite I by done. by rewrite lookup_insert_ne.
Qed.

Lemma unlock_after w p a :
  is_pool w pool p a -> (locked p = true -> p_spinlock p = tid) ->
  unlock_pool w = Ret (tt, with_impls <[pool := unhold p]> w) /\
  is_pool (with_impls <[pool := unhold p]> w) pool (unhold p) a.
Proof using. intros P A. split; [by apply pool_unlock_run; [apply P|]|by apply is_pool_unhold]. Qed.
End Locked.

(** ** Specification: what a pool promises, as a state machine *)
Record pool_spec := mk_spec { sp_abs : pool_abs; sp_timed : bool; sp_now : Z; sp_count : Z }.

Inductive pool_op :=
| SetState (i old new : nat)
| TryState (i old new : nat)
| SetOldest (old new : nat)
| Touch (i : nat)
| OldestIndex (k : nat)
| OldestStamp (k : nat)
| NumberIn (k : nat)
| StateOf (i : nat)
| Tick (t : Z).

Definition spec_stamp (s : pool_spec) : Z := if sp_timed s then sp_now s else u64 (sp_count s + 1).
Definition spec_move (i old new : nat) (s : pool_spec) : pool_spec :=
  mk_spec (move i old new (spec_stamp s) (sp_abs s)) (sp_timed s) (sp_now s)
    (if sp_timed s then sp_count s else u64 (sp_count s + 1)).

(** The indices and states an operation names exist in the pool. *)
Definition op_ok (s : pool_spec) (op : pool_op) : bool :=
  let ni := length (stamps (sp_abs s)) in
  let ns := length (queues (sp_abs s)) in
  match op with
  | SetState i old new | TryState i old new => bool_decide (i < ni /\ old < ns /\ new < ns)%nat
  | SetOldest old new => bool_decide (old < ns /\ new < ns)%nat
  | Touch i | StateOf i => bool_decide (i < ni)%nat
  | OldestIndex k | OldestStamp k | NumberIn k => bool_decide (k < ns)%nat
  | Tick _ => true
  end.

(** One operation: its results and the new state, or [None] when it aborts. *)
Definition spec_step (s : pool_spec) (op : pool_op) : option (list Z * pool_spec) :=
  let a := sp_abs s in
  match op with
  | SetState i old new =>
      if decide (state_of a i = Some old) then Some ([SXE_POOL_LOCK_TAKEN], spec_move i old new s) else None
  | TryState i old new =>
      k ← state_of a i;
      Some (if decide (k = old) then ([Z.of_nat i; Z.of_nat new], spec_move i old new s)
            else ([SXE_POOL_INCORRECT_STATE; Z.of_nat k], s))
  | SetOldest old new =>
      q ← queues a !! old;
      Some (match q with i :: _ => ([Z.of_nat i], spec_move i old new s) | [] => ([SXE_POOL_NO_INDEX], s) end)
  | Touch i => k ← state_of a i; Some ([SXE_POOL_LOCK_TAKEN], spec_move i k k s)
  | OldestIndex k =>
      q ← queues a !! k; Some ([match q with i :: _ => Z.of_nat i | [] => SXE_POOL_NO_INDEX end], s)
  | OldestStamp k =>
      q ← queues a !! k;
      match q with i :: _ => t ← stamps a !! i; Some ([t], s) | [] => Some ([0], s) end
  | NumberIn k => q ← queues a !! k; Some ([zlen q], s)
  | StateOf i => k ← state_of a i; Some ([Z.of_nat k], s)
  | Tick t => Some ([], mk_spec a (sp_timed s) t (sp_count s))
  end.

Section Refinement.
Context `{Build} (others : Z -> world -> world) (spin_max tid : Z) (pool : Z).
Abbreviation array := (SXE_POOL_IMPL_TO_ARRAY pool).
Abbreviation lock_pool := (sxe_pool_lock others spin_max tid pool).
Abbreviation unlock_pool := (sxe_pool_unlock tid pool).
Abbreviation unlocked := (sxe_pool_set_indexed_element_state_unlocked array).

(** The library's call for each operation. *)
Definition impl_step (op : pool_op) : cmd world (list Z) :=
  match op with
  | SetState i old new =>
      r ← sxe_pool_set_indexed_element_state others spin_max tid array (Z.of_nat i) (Z.of_nat old) (Z.of_nat new);
      mret [r]
  | TryState i old new =>
      r ← sxe_pool_try_to_set_indexed_element_state others spin_max tid array (Z.of_nat i) (Z.of_nat old) (Z.of_nat new);
      mret [fst r; snd r]
  | SetOldest old new =>
      r ← sxe_pool_set_oldest_element_state others spin_max tid array (Z.of_nat old) (Z.of_nat new); mret [r]
  | Touch i => r ← sxe_pool_touch_indexed_element others spin_max tid array (Z.of_nat i); mret [r]
  | OldestIndex k => r ← sxe_pool_get_oldest_element_index others spin_max tid array (Z.of_nat k); mret [r]
  | OldestStamp k =>
      p ← rd_impl pool;
      r ← (if timed p then sxe_pool_get_oldest_element_time others spin_max tid array (Z.of_nat k)
           else sxe_pool_get_oldest_element_count others spin_max tid array (Z.of_nat k));
      mret [r]
  | NumberIn k => r ← sxe_pool_get_number_in_state array (Z.of_nat k); mret [r]
  | StateOf i => r ← sxe_pool_index_to_state array (Z.of_nat i); mret [r]
  | Tick t => modify (fun w => mk_world (w_mem w) (w_impls w) (w_last w) t (w_timeout_count w));; mret []
  end.

(** The store, with pool structure [p], implements the specification's state. *)
Record implements (w : world) (p : SXE_POOL_IMPL) (s : pool_spec) : Prop := {
  im_pool : is_pool w pool p (sp_abs s);
  im_available : available spin_max p;
  im_timed : timed p = sp_timed s;
  im_now : w_now w = sp_now s;
  im_count : p_next_count p = sp_count s
}.

Section Move.
Variables (w : world) (p : SXE_POOL_IMPL) (a : pool_abs).
Hypothesis (P : is_pool w pool p a) (A : available spin_max p).
Let w1 := with_impls <[pool := hold tid p]> w.

Lemma locked_move {R} i old new (ab : bool) (r : R) :
  state_of a i = Some old -> Z.of_nat new < p_states p ->
  exists w2, unlocked (Z.of_nat i) (Z.of_nat old) (Z.of_nat new) ab w1 = Ret (true, w2) /\
  exists w3, unlock_pool w2 = Ret (tt, w3) /\ is_pool w3 pool (bump p) (move i old new (stamp w p) a) /\
    untouched pool p w w3.
Proof using P A.
  intros Hs Hn. destruct (hold_fields tid p) as (F1 & F2 & F3 & F4 & F5 & F6 & F7 & F8).
  pose proof (is_pool_hold tid pool _ _ _ P) as P1.
  destruct (unlocked_move _ _ _ _ P1 i old new ab Hs) as (w2 & R2 & P2 & U2); [by rewrite F4|].
  exists w2. split; [done|].
  assert (Es : stamp w1 (hold tid p) = stamp w p) by (unfold stamp; by rewrite F5, F6).
  fold w1 in P2. rewrite Es in P2.
  destruct (bump_same_layout (hold tid p)) as (B1 & B2 & B3 & B4 & B5 & B6).
  destruct (unlock_after tid pool _ _ _ P2) as [R3 P3].
  { unfold locked. rewrite B5, B6. fold (locked (hold tid p)). rewrite F7. apply F8. }
  rewrite (unhold_bump_hold spin_max) in R3, P3 by done.
  exists (with_impls <[pool := bump p]> w2). split_and!; [done|done|].
  by eapply (untouched_impls pool w w2 _ p (hold tid p) (hold tid p)).
Qed.

Lemma unlock_held : unlock_pool w1 = Ret (tt, w).
Proof using P A.
  unfold w1. destruct (hold_fields tid p) as (F1 & F2 & F3 & F4 & F5 & F6 & F7 & F8).
  erewrite pool_unlock_run; [|apply lookup_insert_eq|by rewrite F7].
  rewrite (unhold_hold spin_max) by done. unfold with_impls. destruct w as [m im ls n c]. simpl.
  do 2 f_equal. rewrite insert_insert_eq. f_equal. apply insert_id, (ip_impl _ _ _ _ P).
Qed.

Lemma lock_held : lock_pool w = Ret (SXE_POOL_LOCK_TAKEN, w1).
Proof using P A. apply pool_lock_run; [apply P|done]. Qed.

Lemma rd_impl_held : rd_impl pool w1 = Ret (hold tid p, w1).
Proof using. apply rd_impl_ret, lookup_insert_eq. Qed.
End Move.

(** The head of a state queue. *)
Lemma peek_queue w p a k q :
  is_pool w pool p a -> queues a !! k = Some q ->
  on_mem (sxe_list_peek_head (QUEUE_AT pool p (Z.of_nat k))) w =
  Ret (match q with i :: _ => naddr pool p i | [] => NULL end, w).
Proof using.
  intros P E. pose proof (ip_queues _ _ _ _ P) as Q.
  rewrite (QUEUE_AT_qaddr pool p (ip_layout _ _ _ _ P)) by by eapply queue_state.
  erewrite on_mem_ret; [by rewrite with_mem_same|].
  rewrite (sxe_list_peek_head_spec _ _ _ _ _ (qo_lists _ _ _ _ Q _ _ E)).
  destruct q as [|i q]; simpl; [done|]. do 2 f_equal. rewrite Z.sub_0_r. apply u64_small.
  apply naddr_u64; [apply P|]. eapply qo_bound; [done|]. apply concat_elem. exists k, (i :: q).
  split; [done|constructor].
Qed.

Section Checks.
Variables (w : world) (p : SXE_POOL_IMPL) (a : pool_abs).
Hypothesis P : is_pool w pool p a.

Lemma check_index_ok i w' : (i < length (stamps a))%nat -> check_index p (Z.of_nat i) w' = Ret (tt, w').
Proof using P.
  rewrite (ip_nstamps _ _ _ _ P). intros Hi. unfold check_index, assert6.
  replace (Z.of_nat i <? p_number p) with true by lia. by destruct debug.
Qed.

Lemma check_state_ok k w' : (k < length (queues a))%nat -> check_state p (Z.of_nat k) w' = Ret (tt, w').
Proof using P.
  rewrite (qo_states _ _ _ _ (ip_queues _ _ _ _ P)). intros Hi. unfold check_state, assert6.
  replace (Z.of_nat k <=? p_states p) with true by lia. by destruct debug.
Qed.

Lemma states_bound k : (k < length (queues a))%nat -> Z.of_nat k < p_states p.
Proof using P. rewrite (qo_states _ _ _ _ (ip_queues _ _ _ _ P)). lia. Qed.

Lemma number_bound i : (i < length (stamps a))%nat -> Z.of_nat i < p_number p.
Proof using P. rewrite (ip_nstamps _ _ _ _ P). lia. Qed.

Lemma rd_impl_pool : rd_impl pool w = Ret (p, w).
Proof using P. apply rd_impl_ret, P. Qed.
End Checks.

Lemma implements_move w p s i old new w' :
  implements w p s -> is_pool w' pool (bump p) (move i old new (stamp w p) (sp_abs s)) ->
  untouched pool p w w' -> implements w' (bump p) (spec_move i old new s).
Proof using.
  intros [P A T N C] P' U.
  assert (Es : stamp w p = spec_stamp s) by (unfold stamp, spec_stamp; by rewrite T, N, C).
  rewrite Es in P'. split; simpl; try done.
  - unfold available, bump in *. by destruct (timed p).
  - rewrite <-T. unfold bump. by destruct (timed p) eqn:E.
  - by rewrite (ut_now _ _ _ _ U).
  - unfold bump. rewrite <-T, <-C. by destruct (timed p).
Qed.
End Refinement.

(** Run a command whose result is the given equation. *)
Ltac lock_taken := change (SXE_POOL_LOCK_TAKEN =? SXE_POOL_LOCK_NOT_TAKEN) with false; cbv iota.

Lemma state_of_step pool w p a i k :
  is_pool w pool p a -> state_of a i = Some k ->
  sxe_pool_index_to_state (SXE_POOL_IMPL_TO_ARRAY pool) (Z.of_nat i) w = Ret (Z.of_nat k, w).
Proof.
  intros P Hs. pose proof (state_of_bound _ _ _ _ P _ _ Hs) as [Hi _].
  unfold sxe_pool_index_to_state. rewrite (impl_of_array pool p (ip_layout _ _ _ _ P)). cbv zeta.
  step_by (rd_impl_pool pool w p a P).
  replace (Z.of_nat i <? p_number p) with true by lia.
  erewrite cmd_bind_ret by done. exact (node_id _ _ _ _ P i k Hs).
Qed.

(** A state queue is not longer than the pool. *)
Lemma queue_length pool w p a k q :
  is_pool w pool p a -> queues a !! k = Some q -> (length q <= Z.to_nat (p_number p))%nat.
Proof.
  intros P E. pose proof (ip_queues _ _ _ _ P) as Q.
  rewrite <-(length_seq (Z.to_nat (p_number p)) 0). apply submseteq_length, NoDup_submseteq.
  - pose proof (qo_nodup _ _ _ _ Q) as ND. eapply list_elem_of_lookup_2 in E.
    clear -ND E. induction (queues a) as [|q' qs IH]; [by apply elem_of_nil in E|]. simpl in ND.
    apply NoDup_app in ND as (N1 & _ & N2). apply elem_of_cons in E as [->|E]; auto.
  - intros i Hi. apply elem_of_seq. split; [lia|].
    assert (Z.of_nat i < p_number p); [|lia]. apply (qo_bound _ _ _ _ Q), concat_elem. eauto.
Qed.

Section Steps.
Context `{Build} (others : Z -> world -> world) (spin_max tid : Z) (pool : Z).
Abbreviation array := (SXE_POOL_IMPL_TO_ARRAY pool).
Abbreviation lock_pool := (sxe_pool_lock others spin_max tid pool).
Abbreviation unlock_pool := (sxe_pool_unlock tid pool).
Variables (w : world) (p : SXE_POOL_IMPL) (a : pool_abs).
Hypothesis (P : is_pool w pool p a) (A : available spin_max p).
Let L : layout pool p := ip_layout _ _ _ _ P.
Let P1 := is_pool_hold tid pool _ _ _ P.
Abbreviation w1 := (with_impls <[pool := hold tid p]> w).

(** Start an operation: its address computation, its first assertion and its
    read of the pool structure. *)
Ltac enter :=
  rewrite (impl_of_array pool p L); cbv zeta; step_by (assert_array w pool p a P w).

Lemma hold_states k : Z.of_nat k < p_states p -> Z.of_nat k < p_states (hold tid p).
Proof using. destruct (hold_fields tid p) as (_ & _ & _ & -> & _). done. Qed.
Lemma hold_index i : NODE_INDEX pool (hold tid p) i = NODE_INDEX pool p i.
Proof using. unfold NODE_INDEX. by destruct (hold_fields tid p) as (-> & _). Qed.
Lemma hold_naddr i : naddr pool (hold tid p) i = naddr pool p i.
Proof using. unfold naddr. by destruct (hold_fields tid p) as (-> & _). Qed.

Lemma set_state_step i old new :
  state_of a i = Some old -> (i < length (stamps a) /\ old < length (queues a) /\ new < length (queues a))%nat ->
  exists w', sxe_pool_set_indexed_element_state others spin_max tid array (Z.of_nat i) (Z.of_nat old) (Z.of_nat new) w
    = Ret (SXE_POOL_LOCK_TAKEN, w') /\
    is_pool w' pool (bump p) (move i old new (stamp w p) a) /\ untouched pool p w w'.
Proof using P A.
  intros Hs (Hi & Hold & Hnew).
  destruct (locked_move spin_max tid pool w p a P A i old new true 0 Hs (states_bound _ _ _ _ P _ Hnew))
    as (w2 & R2 & w3 & R3 & P3 & U3).
  unfold sxe_pool_set_indexed_element_state. enter. step_by (rd_impl_pool pool w p a P).
  step_by (check_index_ok pool w p a P i w Hi).
  step_by (check_state_ok pool w p a P old w Hold). step_by (check_state_ok pool w p a P new w Hnew).
  step_by (lock_held others spin_max tid pool w p a P A). lock_taken.
  step_by R2. erewrite cmd_bind_ret by done. step_by R3. eauto.
Qed.

Lemma set_state_wrong i k old new :
  state_of a i = Some k -> k <> old ->
  (i < length (stamps a) /\ old < length (queues a) /\ new < length (queues a))%nat ->
  sxe_pool_set_indexed_element_state others spin_max tid array (Z.of_nat i) (Z.of_nat old) (Z.of_nat new) w = Abort.
Proof using P A.
  intros Hs Hk (Hi & Hold & Hnew).
  unfold sxe_pool_set_indexed_element_state. enter. step_by (rd_impl_pool pool w p a P).
  step_by (check_index_ok pool w p a P i w Hi).
  step_by (check_state_ok pool w p a P old w Hold). step_by (check_state_ok pool w p a P new w Hnew).
  step_by (lock_held others spin_max tid pool w p a P A). lock_taken.
  unfold mbind, cmd_bind. rewrite (unlocked_wrong _ _ _ _ P1 i k) by (done || lia). done.
Qed.

Lemma try_state_step i k old new :
  state_of a i = Some k -> (i < length (stamps a) /\ old < length (queues a) /\ new < length (queues a))%nat ->
  if decide (k = old) then
    exists w', sxe_pool_try_to_set_indexed_element_state others spin_max tid array (Z.of_nat i) (Z.of_nat old) (Z.of_nat new) w
      = Ret ((Z.of_nat i, Z.of_nat new), w') /\
      is_pool w' pool (bump p) (move i old new (stamp w p) a) /\ untouched pool p w w'
  else
    sxe_pool_try_to_set_indexed_element_state others spin_max tid array (Z.of_nat i) (Z.of_nat old) (Z.of_nat new) w
      = Ret ((SXE_POOL_INCORRECT_STATE, Z.of_nat k), w).
Proof using P A.
  intros Hs (Hi & Hold & Hnew).
  unfold sxe_pool_try_to_set_indexed_element_state. enter. step_by (rd_impl_pool pool w p a P).
  step_by (check_index_ok pool w p a P i w Hi).
  step_by (check_state_ok pool w p a P old w Hold). step_by (check_state_ok pool w p a P new w Hnew).
  step_by (lock_held others spin_max tid pool w p a P A). lock_taken. case_decide as Hk.
  - subst k.
    destruct (locked_move spin_max tid pool w p a P A i old new false 0 Hs (states_bound _ _ _ _ P _ Hnew))
      as (w2 & R2 & w3 & R3 & P3 & U3).
    step_by R2. erewrite cmd_bind_ret by done. step_by R3. eauto.
  - step_by (unlocked_wrong _ _ _ _ P1 i k (Z.of_nat old) (Z.of_nat new) false Hs ltac:(lia)).
    erewrite cmd_bind_ret; [|by step_by (state_of_step _ _ _ _ _ _ P1 Hs)].
    by step_by (unlock_held spin_max tid pool w p a P A).
Qed.

Lemma set_oldest_step old new q :
  queues a !! old = Some q -> (old < length (queues a) /\ new < length (queues a))%nat ->
  match q with
  | i :: _ =>
      exists w', sxe_pool_set_oldest_element_state others spin_max tid array (Z.of_nat old) (Z.of_nat new) w
        = Ret (Z.of_nat i, w') /\
        is_pool w' pool (bump p) (move i old new (stamp w p) a) /\ untouched pool p w w'
  | [] =>
      sxe_pool_set_oldest_element_state others spin_max tid array (Z.of_nat old) (Z.of_nat new) w
        = Ret (SXE_POOL_NO_INDEX, w)
  end.
Proof using P A.
  intros E (Hold & Hnew).
  unfold sxe_pool_set_oldest_element_state. enter. step_by (rd_impl_pool pool w p a P).
  step_by (check_state_ok pool w p a P old w Hold). step_by (check_state_ok pool w p a P new w Hnew).
  step_by (lock_held others spin_max tid pool w p a P A). lock_taken.
  step_by (rd_impl_held tid pool w p). step_by (peek_queue pool _ _ _ _ _ P1 E).
  destruct q as [|i q].
  - rewrite Z.eqb_refl. by step_by (unlock_held spin_max tid pool w p a P A).
  - assert (Hs : state_of a i = Some old) by (eapply queue_state_of; [done..|constructor]).
    pose proof (state_of_bound _ _ _ _ P _ _ Hs) as [Hi _].
    rewrite hold_index, hold_naddr.
    destruct (Z.eqb_spec (naddr pool p i) NULL) as [En|]; [by apply naddr_pos in En|].
    rewrite NODE_INDEX_naddr by done.
    destruct (locked_move spin_max tid pool w p a P A i old new true 0 Hs (states_bound _ _ _ _ P _ Hnew))
      as (w2 & R2 & w3 & R3 & P3 & U3).
    step_by R2. erewrite cmd_bind_ret by done. step_by R3. eauto.
Qed.

Lemma touch_step i k :
  state_of a i = Some k ->
  exists w', sxe_pool_touch_indexed_element others spin_max tid array (Z.of_nat i) w = Ret (SXE_POOL_LOCK_TAKEN, w') /\
    is_pool w' pool (bump p) (move i k k (stamp w p) a) /\ untouched pool p w w'.
Proof using P A.
  intros Hs. pose proof (state_of_bound _ _ _ _ P _ _ Hs) as [_ Hk].
  destruct (locked_move spin_max tid pool w p a P A i k k true 0 Hs Hk) as (w2 & R2 & w3 & R3 & P3 & U3).
  unfold sxe_pool_touch_indexed_element. enter.
  step_by (lock_held others spin_max tid pool w p a P A). lock_taken.
  step_by (rd_impl_held tid pool w p). step_by (node_id _ _ _ _ P1 i k Hs).
  step_by R2. erewrite cmd_bind_ret by done. step_by R3. eauto.
Qed.

Lemma oldest_index_step k q :
  queues a !! k = Some q ->
  sxe_pool_get_oldest_element_index others spin_max tid array (Z.of_nat k) w =
  Ret (match q with i :: _ => Z.of_nat i | [] => SXE_POOL_NO_INDEX end, w).
Proof using P A.
  intros E. unfold sxe_pool_get_oldest_element_index. enter. step_by (rd_impl_pool pool w p a P).
  step_by (check_state_ok pool w p a P k w (lookup_lt_Some _ _ _ E)).
  step_by (lock_held others spin_max tid pool w p a P A). lock_taken.
  step_by (rd_impl_held tid pool w p). step_by (peek_queue pool _ _ _ _ _ P1 E).
  step_by (unlock_held spin_max tid pool w p a P A).
  destruct q as [|i q]; [done|]. rewrite hold_index, hold_naddr.
  destruct (Z.eqb_spec (naddr pool p i) NULL) as [En|]; [by apply naddr_pos in En|].
  rewrite NODE_INDEX_naddr; [done..|]. eapply state_of_bound; [done|].
  eapply queue_state_of; [done..|constructor].
Qed.

Lemma oldest_stamp_step k q :
  queues a !! k = Some q ->
  match q with
  | i :: _ => exists t, stamps a !! i = Some t /\
      sxe_pool_impl_get_oldest_element_time_or_count others spin_max tid pool (Z.of_nat k) w = Ret (t, w)
  | [] => sxe_pool_impl_get_oldest_element_time_or_count others spin_max tid pool (Z.of_nat k) w = Ret (0, w)
  end.
Proof using P A.
  intros E.
  unfold sxe_pool_impl_get_oldest_element_time_or_count.
  step_by (lock_held others spin_max tid pool w p a P A). lock_taken.
  step_by (rd_impl_held tid pool w p). step_by (peek_queue pool _ _ _ _ _ P1 E).
  destruct q as [|i q].
  - erewrite cmd_bind_ret by done. by step_by (unlock_held spin_max tid pool w p a P A).
  - assert (Hs : state_of a i = Some k) by (eapply queue_state_of; [done..|constructor]).
    pose proof (state_of_bound _ _ _ _ P _ _ Hs) as [Hi _].
    destruct (lookup_lt_is_Some_2 (stamps a) i) as [t Et]; [rewrite (ip_nstamps _ _ _ _ P); lia|].
    exists t. split; [done|]. rewrite hold_naddr.
    destruct (Z.eqb_spec (naddr pool p i) NULL) as [En|]; [by apply naddr_pos in En|].
    erewrite cmd_bind_ret; [by step_by (unlock_held spin_max tid pool w p a P A)|].
    unfold rd_last. simpl. by rewrite (ip_stamps _ _ _ _ P _ _ Et).
Qed.

Lemma number_in_step k q :
  queues a !! k = Some q -> sxe_pool_get_number_in_state array (Z.of_nat k) w = Ret (zlen q, w).
Proof using P.
  intros E. unfold sxe_pool_get_number_in_state. enter. step_by (rd_impl_pool pool w p a P).
  pose proof (ip_queues _ _ _ _ P) as Q.
  rewrite (QUEUE_AT_qaddr pool p L) by by eapply queue_state.
  erewrite on_mem_ret.
  2:{ unfold SXE_LIST_GET_LENGTH. by step_by (rd_list_ok _ _ _ (il_head _ _ _ _ _ (qo_lists _ _ _ _ Q _ _ E))). }
  rewrite with_mem_same. simpl. unfold zlen. rewrite length_fmap. do 2 f_equal. apply u32_small.
  pose proof (queue_length pool w p a k q P E). destruct L. unfold is_u32. lia.
Qed.
End Steps.

(** ** Refinement of the specification *)
Section Runs.
Context `{Build} (others : Z -> world -> world) (spin_max tid : Z) (pool : Z).
Abbreviation impl := (impl_step others spin_max tid pool).
Abbreviation implements := (implements spin_max pool).

(** The operations run up to the first one that aborts. *)
Fixpoint spec_run (s : pool_spec) (ops : list pool_op) : option (list (list Z) * pool_spec) :=
  match ops with
  | [] => Some ([], s)
  | op :: ops => '(r, s) ← spec_step s op; '(rs, s) ← spec_run s ops; Some (r :: rs, s)
  end.

Fixpoint impl_run (ops : list pool_op) : cmd world (list (list Z)) :=
  match ops with
  | [] => mret []
  | op :: ops => r ← impl op; rs ← impl_run ops; mret (r :: rs)
  end.

(** Every operation of the run names existing elements and states. *)
Fixpoint run_ok (s : pool_spec) (ops : list pool_op) : bool :=
  match ops with
  | [] => true
  | op :: ops => op_ok s op && match spec_step s op with Some (_, s) => run_ok s ops | None => true end
  end.

Lemma implements_tick w p s t :
  implements w p s ->
  implements (mk_world (w_mem w) (w_impls w) (w_last w) t (w_timeout_count w)) p
    (mk_spec (sp_abs s) (sp_timed s) t (sp_count s)).
Proof using. intros [[] A T N C]. by split. Qed.

(** One step of the implementation does what the specification says, and
    aborts exactly when it has no step. *)
Lemma step_refines w p s op :
  implements w p s -> op_ok s op = true ->
  match spec_step s op with
  | Some (r, s') => exists w' p', impl op w = Ret (r, w') /\ implements w' p' s'
  | None => impl op w = Abort
  end.
Proof using.
  intros I Hok. pose proof I as [P A T N C].
  destruct op as [i old new|i old new|old new|i|k|k|k|i|t]; simpl in Hok; try apply bool_decide_eq_true in Hok;
    cbn [spec_step impl_step].
  - destruct (state_of_total _ _ _ _ P i) as [k Hs]; [eapply number_bound; [done|lia]|].
    case_decide as Hd.
    + destruct (set_state_step others spin_max tid pool w p _ P A i old new Hd Hok) as (w' & R & P' & U).
      step_by R. exists w', (bump p). split; [done|]. by eapply implements_move.
    + unfold mbind at 1, cmd_bind at 1.
      erewrite set_state_wrong; [done|done|done|exact Hs| |done]. intros ->. congruence.
  - destruct (state_of_total _ _ _ _ P i) as [k Hs]; [eapply number_bound; [done|lia]|].
    rewrite Hs. simpl. pose proof (try_state_step others spin_max tid pool w p _ P A i k old new Hs Hok) as R.
    case_decide.
    + destruct R as (w' & R & P' & U). step_by R. exists w', (bump p). split; [done|]. by eapply implements_move.
    + step_by R. by exists w, p.
  - destruct (lookup_lt_is_Some_2 (queues (sp_abs s)) old) as [q E]; [lia|].
    rewrite E. simpl. pose proof (set_oldest_step others spin_max tid pool w p _ P A old new q E Hok) as R.
    destruct q as [|i q]; [step_by R; by exists w, p|].
    destruct R as (w' & R & P' & U). step_by R. exists w', (bump p). split; [done|]. by eapply implements_move.
  - destruct (state_of_total _ _ _ _ P i) as [k Hs]; [eapply number_bound; [done|lia]|].
    rewrite Hs. simpl.
    destruct (touch_step others spin_max tid pool w p _ P A i k Hs) as (w' & R & P' & U).
    step_by R. exists w', (bump p). split; [done|]. by eapply implements_move.
  - destruct (lookup_lt_is_Some_2 (queues (sp_abs s)) k) as [q E]; [lia|].
    rewrite E. simpl. step_by (oldest_index_step others spin_max tid pool w p _ P A k q E). by exists w, p.
  - destruct (lookup_lt_is_Some_2 (queues (sp_abs s)) k) as [q E]; [lia|].
    rewrite E. simpl. pose proof (oldest_stamp_step others spin_max tid pool w p _ P A k q E) as R.
    step_by (rd_impl_pool pool w p _ P).
    assert (G : forall t, sxe_pool_impl_get_oldest_element_time_or_count others spin_max tid pool (Z.of_nat k) w = Ret (t, w) ->
      (if timed p then sxe_pool_get_oldest_element_time others spin_max tid (SXE_POOL_IMPL_TO_ARRAY pool) (Z.of_nat k)
       else sxe_pool_get_oldest_element_count others spin_max tid (SXE_POOL_IMPL_TO_ARRAY pool) (Z.of_nat k)) w = Ret (t, w)).
    { intros t R'. unfold sxe_pool_get_oldest_element_time, sxe_pool_get_oldest_element_count.
      rewrite (impl_of_array pool p (ip_layout _ _ _ _ P)). cbv zeta.
      destruct (timed p) eqn:Et; step_by (assert_array w pool p _ P w); step_by (rd_impl_pool pool w p _ P);
        rewrite Et; by erewrite cmd_bind_ret by done. }
    destruct q as [|i q].
    + step_by (G _ R). by exists w, p.
    + destruct R as (t & Et & R). rewrite Et. simpl. step_by (G _ R). by exists w, p.
  - destruct (lookup_lt_is_Some_2 (queues (sp_abs s)) k) as [q E]; [lia|].
    rewrite E. simpl. step_by (number_in_step pool w p _ P k q E). by exists w, p.
  - destruct (state_of_total _ _ _ _ P i) as [k Hs]; [eapply number_bound; [done|lia]|].
    rewrite Hs. simpl. step_by (state_of_step _ _ _ _ _ _ P Hs). by exists w, p.
  - eexists _, p. split; [done|]. by apply implements_tick.
Qed.

(** C2: a pool is a refinement of its specification. Whatever sequence of moves,
    touches and queries is run on existing elements and states, each call
    returns what the specification's state machine returns, the store goes on
    implementing it (every element in exactly one state queue, stamped with its
    last insertion), and a call aborts exactly when an element is moved from a
    state it is not in. *)
Theorem pool_refines_spec ops :
  forall w p s, implements w p s -> run_ok s ops = true ->
  match spec_run s ops with
  | Some (rs, s') => exists w' p', impl_run ops w = Ret (rs, w') /\ implements w' p' s'
  | None => impl_run ops w = Abort
  end.
Proof using.
  induction ops as [|op ops IH]; intros w p s I Hok; simpl.
  - by exists w, p.
  - simpl in Hok. apply andb_true_iff in Hok as [H1 H2]. pose proof (step_refines w p s op I H1) as R.
    destruct (spec_step s op) as [[r s1]|]; simpl.
    + destruct R as (w1 & p1 & R & I1). specialize (IH w1 p1 s1 I1 H2).
      destruct (spec_run s1 ops) as [[rs s2]|]; simpl.
      * destruct IH as (w2 & p2 & R2 & I2). exists w2, p2. step_by R. by step_by R2.
      * step_by R. unfold mbind, cmd_bind. by rewrite IH.
    + unfold mbind, cmd_bind. by rewrite R.
Qed.
End Runs.

(** ** Construction *)
Section Construct.
Context `{Build}.
Variables (pool : Z).

(** The members that decide the layout and the behaviour, the same in [p'] as in [p]. *)
Definition same_shape (p p' : SXE_POOL_IMPL) : Prop :=
  p_nodes p' = p_nodes p /\ p_queue p' = p_queue p /\ p_number p' = p_number p /\
  p_states p' = p_states p /\ p_options p' = p_options p /\ p_spinlock p' = p_spinlock p.

Lemma construct_queues_run p n w :
  layout pool p -> Z.of_nat n <= p_states p ->
  (forall k, (n <= k)%nat -> Z.of_nat k < p_states p -> is_list (w_mem w) (qaddr pool p k) (Z.of_nat k) 0 []) ->
  exists m', construct_queues pool p n w = Ret (tt, with_mem m' w) /\
    (forall k, Z.of_nat k < p_states p -> is_list m' (qaddr pool p k) (Z.of_nat k) 0 []) /\
    dom (nodes (w_mem w)) ⊆ dom (nodes m').
Proof using.
  intros L. revert w. induction n as [|n IH]; intros w Hn Hd; cbn [construct_queues].
  - exists (w_mem w). rewrite with_mem_same. split_and!; [done| |done]. intros k Hk. apply Hd; [lia|done].
  - rewrite (QUEUE_AT_qaddr pool p L) by lia.
    destruct (construct_spec (w_mem w) (qaddr pool p n) (Z.of_nat n) 0) as (m1 & R & HL & F1 & F2 & D).
    { destruct L. unfold_layout. unfold is_u64. lia. }
    { destruct L. unfold_layout. unfold NULL. lia. }
    step_by (on_mem_ret _ _ _ _ R).
    destruct (IH (with_mem m1 w)) as (m2 & R2 & H2 & D2); [lia| |].
    + intros k Hk Hs. simpl. destruct (decide (k = n)) as [->|]; [done|].
      apply (is_list_frame (w_mem w)); [apply Hd; lia|..].
      * intros a ->%list_elem_of_singleton. apply F1. by intros ?%qaddr_inj.
      * apply F2. by intros ?%qaddr_inj.
    + exists m2. split_and!; [done|done|]. simpl in D2. rewrite <-D2, D. set_solver.
Qed.

Lemma constructed_queues p m :
  layout pool p -> (forall k, Z.of_nat k < p_states p -> is_list m (qaddr pool p k) (Z.of_nat k) 0 []) ->
  (forall i, Z.of_nat i < p_number p -> naddr pool p i ∈ dom (nodes m)) ->
  queues_ok m pool p (replicate (Z.to_nat (p_states p)) []).
Proof using.
  intros L Hl Hd.
  assert (E : forall n, concat (replicate n []) = @nil nat) by (induction n; simpl; auto).
  split; rewrite ?E; try done.
  - apply length_replicate.
  - intros k q [-> Hk]%lookup_replicate. apply Hl. destruct L. lia.
  - apply NoDup_nil. done.
  - by intros i Hi%elem_of_nil.
Qed.

(** The stamp element [i] gets from the loop that starts with [n] elements to go
    and counter [c]. *)
Definition free_stamp (timed : bool) (t c : Z) (n i : nat) : Z :=
  if timed then t else c + (Z.of_nat n - Z.of_nat i).

Lemma free_list_run t n : forall w p q qs,
  w_impls w !! pool = Some p -> layout pool p -> queues_ok (w_mem w) pool p (q :: qs) ->
  Z.of_nat n <= p_number p -> (forall i, (i < n)%nat -> i ∉ concat (q :: qs)) ->
  (forall i, Z.of_nat i < p_number p -> is_Some (w_last w !! naddr pool p i)) ->
  (timed p = false -> 0 <= p_next_count p /\ p_next_count p + Z.of_nat n < 18446744073709551616) ->
  exists w' p', construct_free_list pool t n w = Ret (tt, w') /\
    w_impls w' !! pool = Some p' /\ same_shape p p' /\
    p_next_count p' = (if timed p then p_next_count p else p_next_count p + Z.of_nat n) /\
    queues_ok (w_mem w') pool p ((q ++ rev (seq 0 n)) :: qs) /\
    (forall i, (i < n)%nat -> w_last w' !! naddr pool p i = Some (free_stamp (timed p) t (p_next_count p) n i)) /\
    (forall i, (n <= i)%nat -> w_last w' !! naddr pool p i = w_last w !! naddr pool p i) /\
    w_now w' = w_now w.
Proof using.
  induction n as [|n IH]; intros w p q qs Ei L Q Hn Hf Hl Hc; cbn [construct_free_list].
  - exists w, p. unfold same_shape. simpl. rewrite app_nil_r. split_and!; try done; [destruct (timed p); lia|lia].
  - destruct (bump_same_layout p) as (B1 & B2 & B3 & B4 & B5 & B6).
    set (p1 := bump p) in *.
    set (s := if timed p then t else p_next_count p + 1).
    set (w1 := with_last <[naddr pool p n := s]> (with_impls <[pool := p1]> w)).
    assert (Hs : is_Some (w_last w !! naddr pool p n)) by (apply Hl; lia).
    destruct (queues_push pool p L _ _ 0%nat q n Q eq_refl) as (m2 & R2 & Q2 & _); [apply Hf; lia|lia|].
    assert (Ec : p_next_count p1 = if timed p then p_next_count p else p_next_count p + 1).
    { unfold p1, bump. destruct (timed p); [done|]. simpl. apply u64_small. unfold is_u64. specialize (Hc eq_refl). lia. }
    assert (Et : timed p1 = timed p) by (unfold timed; by rewrite B5).
    destruct (IH (with_mem m2 w1) p1 (q ++ [n]) qs) as (w' & p' & R & E' & S' & C' & Q' & S1 & S2 & N').
    + apply lookup_insert_eq.
    + by apply layout_shape with p.
    + by apply queues_ok_ext with p.
    + rewrite B3. lia.
    + intros i Hi. simpl. rewrite <-(assoc_L (++)), elem_of_app. simpl.
      specialize (Hf i ltac:(lia)). simpl in Hf. rewrite elem_of_app in Hf.
      intros [?|[->|?]%elem_of_cons]; [tauto|lia|tauto].
    + rewrite B3. intros i Hi. simpl. replace (naddr pool p1 i) with (naddr pool p i) by (unfold naddr; by rewrite B1).
      destruct (decide (n = i)) as [->|].
      * rewrite lookup_insert_eq. eauto.
      * rewrite lookup_insert_ne by (by intros ?%naddr_inj). by apply Hl.
    + rewrite Ec, Et. destruct (timed p); [done|]. intros _. specialize (Hc eq_refl). lia.
    + assert (En : forall i, naddr pool p1 i = naddr pool p i) by (intros; unfold naddr; by rewrite B1).
      exists w', p'. split_and!.
      * step_by (rd_impl_ret _ _ _ Ei). rewrite (NODES_AT_naddr pool p L) by lia.
        change (QUEUE_AT pool p 0) with (QUEUE_AT pool p (Z.of_nat 0)).
        rewrite (QUEUE_AT_qaddr pool p L) by (destruct L; lia).
        erewrite (cmd_bind_ret _ _ w tt w1).
        { by step_by (on_mem_ret _ w1 _ _ R2). }
        unfold w1, s, p1, bump. destruct (timed p).
        -- rewrite wr_last_ret by done. unfold with_impls. destruct w. simpl in *. by rewrite insert_id.
        -- step_by (upd_impl_ret pool (set_next_count (u64 (p_next_count p + 1))) _ _ Ei).
           erewrite cmd_bind_ret by (apply rd_impl_ret; apply lookup_insert_eq).
           rewrite wr_last_ret by done. simpl. rewrite u64_small by (unfold is_u64; specialize (Hc eq_refl); lia). done.
      * done.
      * destruct S' as (? & ? & ? & ? & ? & ?). split_and!; congruence.
      * rewrite C', Et, Ec. destruct (timed p); lia.
      * rewrite seq_S, rev_app_distr. simpl. rewrite <-(assoc_L (++)) in Q'. by apply queues_ok_ext with p1.
      * intros i Hi. destruct (decide (i = n)) as [->|].
        -- rewrite <-En, S2 by lia. simpl. rewrite En, lookup_insert_eq. unfold s, free_stamp.
           destruct (timed p); [done|]. f_equal. lia.
        -- rewrite <-En, S1, Et, Ec by lia. unfold free_stamp. destruct (timed p); [done|]. f_equal. lia.
      * intros i Hi. rewrite <-En, S2 by lia. simpl. rewrite En. apply lookup_insert_ne.
        intros ->%naddr_inj. lia.
      * done.
Qed.
End Construct.

(** The memory that a pool is constructed in: a block of [sxe_pool_size] bytes. *)
Record raw_block (w : world) (base number size states : Z) (raw : SXE_POOL_IMPL) : Prop := {
  rb_impl : w_impls w !! base = Some raw;
  rb_base : 0 < base;
  rb_number : 0 <= number <= 4294967293;
  rb_size : 0 <= size;
  rb_states : 1 <= states < 4294967295;
  rb_end : base + (SIZEOF_POOL_IMPL + number * size + states * SIZEOF_LIST + number * SIZEOF_POOL_NODE)
           < 18446744073709551616;
  rb_nodes : forall i, 0 <= i < number ->
    let a := base + SIZEOF_POOL_IMPL + number * size + states * SIZEOF_LIST + SIZEOF_POOL_NODE * i in
    a ∈ dom (nodes (w_mem w)) /\ is_Some (w_last w !! a)
}.

(** A new pool: all elements are in state 0, the last one is the oldest. *)
Definition new_pool (number states : nat) (timed : bool) (now : Z) : pool_abs :=
  mk_abs (rev (seq 0 number) :: replicate (states - 1) [])
         ((fun i => free_stamp timed now 0 number i) <$> seq 0 number).

Section ConstructSpec.
Context `{Build} (spin_max default_to_string : Z).

(** Once the queues are empty and the counter is reset, the loop over the nodes
    completes the pool. *)
Lemma fill_pool base p w t :
  layout base p -> w_impls w !! base = Some p ->
  queues_ok (w_mem w) base p (replicate (Z.to_nat (p_states p)) []) ->
  (forall i, Z.of_nat i < p_number p -> is_Some (w_last w !! naddr base p i)) ->
  (timed p = false -> p_next_count p = 0) -> (timed p = true -> t = w_now w) ->
  available spin_max p ->
  exists w' p', construct_free_list base t (Z.to_nat (p_number p)) w = Ret (tt, w') /\
    implements spin_max base w' p'
      (mk_spec (new_pool (Z.to_nat (p_number p)) (Z.to_nat (p_states p)) (timed p) (w_now w)) (timed p) (w_now w)
        (if timed p then p_next_count p else p_number p)).
Proof using.
  intros L E Q Hl Hc Ht A. pose proof L as [_ _ _ _ HN HS].
  destruct (Z.to_nat (p_states p)) as [|ns] eqn:Es; [lia|]. simpl in Q.
  destruct (free_list_run base t (Z.to_nat (p_number p)) w p [] (replicate ns []))
    as (w' & p' & R & E' & (S1 & S2 & S3 & S4 & S5 & S6) & C & Q' & T & _ & N); try done; try lia.
  { pose proof (qo_bound _ _ _ _ Q) as Hb. intros i Hi Hi'.
    assert (Ec : forall n, concat (replicate n []) = @nil nat) by (induction n; simpl; auto).
    simpl in Hi'. rewrite Ec in Hi'. by apply elem_of_nil in Hi'. }
  { intros Ef. rewrite Hc by done. lia. }
  exists w', p'. split; [done|].
  assert (Et : timed p' = timed p) by (unfold timed; by rewrite S5).
  split; simpl; [|unfold available, locked in *; by rewrite S5, S6|done|done|].
  - split; simpl.
    + done.
    + by apply layout_shape with p.
    + rewrite Nat.sub_0_r. by apply queues_ok_ext with p.
    + rewrite S3. intros i Hi. apply elem_of_app. left. apply list_elem_of_In, in_rev. rewrite rev_involutive.
      apply list_elem_of_In, elem_of_seq. lia.
    + by rewrite length_fmap, length_seq, S3.
    + intros i u Hi. apply list_lookup_fmap_Some in Hi as (j & -> & Hj).
      apply lookup_seq in Hj as [-> Hj]. simpl.
      replace (naddr base p' i) with (naddr base p i) by (unfold naddr; by rewrite S1).
      rewrite T by done. unfold free_stamp. destruct (timed p); [by rewrite Ht|]. by rewrite Hc.
  - rewrite C. destruct (timed p); [done|]. rewrite Hc by done. lia.
Qed.

(** The steps of the construction. *)
Lemma construct_run w base name number size states options raw :
  raw_block w base number size states raw -> 0 < spin_max ->
  let td := negb (Z.land options SXE_POOL_OPTION_TIMED =? 0) in
  exists w' p', sxe_pool_construct default_to_string base name number size states options w =
      Ret (SXE_POOL_IMPL_TO_ARRAY base, w') /\
    implements spin_max base w' p'
      (mk_spec (new_pool (Z.to_nat number) (Z.to_nat states) td (w_now w)) td (w_now w)
        (if td then p_next_count raw else number)).
Proof using.
  intros [Ei Hb HN Hsz HS He Hnd] Hsp td. unfold sxe_pool_construct.
  step_by (rd_impl_ret _ _ _ Ei). cbv zeta. set (p := mk_impl _ _ _ _ _ _ _ _ _ _ _ _ _).
  assert (L : layout base p).
  { unfold SIZEOF_POOL_IMPL, SIZEOF_LIST, SIZEOF_POOL_NODE in *.
    assert (0 <= number * size) by nia.
    split; simpl; unfold SIZEOF_POOL_IMPL, SIZEOF_LIST, SIZEOF_POOL_NODE; try done;
      rewrite ?(u64_small (_ + _)) by (unfold is_u64; lia); lia. }
  assert (Hna : forall i, Z.of_nat i < number -> naddr base p i ∈ dom (nodes (w_mem w)) /\ is_Some (w_last w !! naddr base p i)).
  { intros i Hi. specialize (Hnd (Z.of_nat i) ltac:(lia)). cbv zeta in Hnd.
    unfold naddr. simpl. unfold SIZEOF_POOL_IMPL, SIZEOF_LIST, SIZEOF_POOL_NODE in *.
    rewrite u64_small by (unfold is_u64; nia).
    by replace (base + (144 + number * size + states * 40) + 32 * Z.of_nat i) with
      (base + 144 + number * size + states * 40 + 32 * Z.of_nat i) by lia. }
  step_by (upd_impl_ret base (fun _ => p) _ _ Ei).
  (* the lock *)
  set (p1 := if locked p then set_spinlock 0 p else p).
  erewrite (cmd_bind_ret _ _ _ tt (with_impls <[base := p1]> w)).
  2:{ unfold p1. destruct (locked p); [|done]. unfold modify. do 2 f_equal.
      rewrite (put_pool_lock base p) by apply lookup_insert_eq.
      unfold with_impls. simpl. by rewrite insert_insert_eq. }
  assert (L1 : layout base p1) by (apply layout_shape with p; [unfold p1; by destruct (locked p)..|done]).
  (* the state queues *)
  destruct (construct_queues_run base p (Z.to_nat states) (with_impls <[base := p1]> w) L) as (m1 & R1 & Q1 & D1);
    [simpl; lia|intros k Hk; simpl; lia|].
  step_by R1.
  set (p2 := if timed p then p1 else set_next_count 0 p1).
  set (w2 := with_impls <[base := p2]> (with_mem m1 (with_impls <[base := p1]> w))).
  set (t := if timed p then w_now w else 0).
  erewrite (cmd_bind_ret _ _ _ t w2).
  2:{ unfold w2, t, p2. destruct (timed p).
      - unfold sxe_time_get, gets, with_impls, with_mem. simpl. by rewrite insert_insert_eq.
      - by erewrite cmd_bind_ret by (apply upd_impl_ret; apply lookup_insert_eq). }
  assert (Sh : p_nodes p2 = p_nodes p /\ p_queue p2 = p_queue p /\ p_number p2 = p_number p /\
    p_states p2 = p_states p /\ p_options p2 = p_options p /\ (locked p = true -> p_spinlock p2 = 0) /\
    p_next_count p2 = if timed p then p_next_count raw else 0).
  { unfold p2, p1. by destruct (timed p), (locked p) eqn:El. }
  destruct Sh as (S1 & S2 & S3 & S4 & S5 & S6 & S7).
  assert (Et : timed p2 = timed p) by (unfold timed; by rewrite S5).
  destruct (fill_pool base p2 w2 t) as (w' & p' & R & I).
  - by apply layout_shape with p.
  - apply lookup_insert_eq.
  - apply queues_ok_ext with p; try done. rewrite S4. apply constructed_queues; [done|done|].
    intros i Hi. apply D1, Hna. done.
  - intros i Hi. replace (naddr base p2 i) with (naddr base p i) by (unfold naddr; by rewrite S1).
    apply Hna. by rewrite S3 in Hi.
  - rewrite Et, S7. by intros ->.
  - rewrite Et. unfold t. by intros ->.
  - unfold available, locked. rewrite S5. fold (locked p). auto.
  - rewrite S3 in R. simpl in R. step_by R. exists w', p'. split; [done|].
    rewrite S3, S4, S7, Et in I. change td with (timed p). by destruct (timed p).
Qed.

(** Constructing a pool in a large enough block makes a well-formed pool whose
    elements are all in state 0 in descending index order (so that index
    number - 1 is the oldest), stamped with the clock or counted from 1 up, and
    with a free lock. *)
Theorem sxe_pool_construct_spec w base name number size states options raw :
  raw_block w base number size states raw -> 0 < spin_max ->
  let td := negb (Z.land options SXE_POOL_OPTION_TIMED =? 0) in
  exists w' p', sxe_pool_construct default_to_string base name number size states options w =
      Ret (SXE_POOL_IMPL_TO_ARRAY base, w') /\
    implements spin_max base w' p'
      (mk_spec (new_pool (Z.to_nat number) (Z.to_nat states) td (w_now w)) td (w_now w)
        (if td then p_next_count raw else number)).
Proof using. apply construct_run. Qed.
End ConstructSpec.

(** ** Ages: the head of a state queue is its oldest element *)
Section Ages.
Implicit Types (a : pool_abs) (i j k : nat) (t c : Z).

(** The stamp of an element. *)
Definition age a i : Z := default 0 (stamps a !! i).

(** Every state queue is ordered by stamp, and no stamp is later than [c]. *)
Definition aged a c : Prop :=
  (forall k q, queues a !! k = Some q -> StronglySorted (fun i j => age a i <= age a j) q) /\
  (forall i, i ∈ concat (queues a) -> age a i <= c).

Lemma sorted_mono {A} (R R' : A -> A -> Prop) l :
  (forall x y, x ∈ l -> y ∈ l -> R x y -> R' x y) -> StronglySorted R l -> StronglySorted R' l.
Proof.
  intros HR. induction 1 as [|x l S IH F]; constructor.
  - apply IH. intros; apply HR; [by constructor..|done].
  - apply Forall_forall. intros y Hy. rewrite Forall_forall in F. apply HR; [constructor|by constructor|auto].
Qed.

Lemma sorted_remove {A} (R : A -> A -> Prop) l1 x l2 :
  StronglySorted R (l1 ++ x :: l2) -> StronglySorted R (l1 ++ l2).
Proof.
  induction l1 as [|y l1 IH]; simpl; inversion 1; subst; [done|]. constructor; [auto|].
  rewrite Forall_app, Forall_cons in *. tauto.
Qed.

Lemma sorted_snoc {A} (R : A -> A -> Prop) l x :
  StronglySorted R l -> (forall y, y ∈ l -> R y x) -> StronglySorted R (l ++ [x]).
Proof.
  induction 1 as [|y l S IH F]; simpl; intros Hx; constructor; try done.
  - constructor.
  - apply IH. intros; apply Hx; by constructor.
  - rewrite Forall_app, Forall_singleton. split; [done|]. apply Hx. constructor.
Qed.

Lemma age_move i old new t a j :
  (i < length (stamps a))%nat -> age (move i old new t a) j = if decide (j = i) then t else age a j.
Proof.
  intros Hi. unfold age, move. simpl. case_decide as E; [subst; by rewrite list_lookup_insert_eq|].
  by rewrite list_lookup_insert_ne.
Qed.

Lemma move_aged w pool p a i old new t c :
  is_pool w pool p a -> state_of a i = Some old -> (new < length (queues a))%nat ->
  aged a c -> c <= t -> aged (move i old new t a) t.
Proof.
  intros P Hs Hn [S M] Hc.
  assert (Hi : (i < length (stamps a))%nat).
  { rewrite (ip_nstamps _ _ _ _ P). pose proof (state_of_bound _ _ _ _ P _ _ Hs). lia. }
  pose proof (qo_nodup _ _ _ _ (ip_queues _ _ _ _ P)) as ND.
  apply state_of_queue in Hs as (q & E & [q1 [q2 ->]]%list_elem_of_split).
  pose proof (concat_remove_perm _ _ _ _ _ E) as P1.
  assert (Eq : queues (move i old new t a) = alter (fun q => q ++ [i]) new (<[old := q1 ++ q2]> (queues a))).
  { unfold move. simpl. by rewrite (alter_remove w pool p a P _ _ _ _ E). }
  set (qs1 := <[old := q1 ++ q2]> (queues a)) in *.
  assert (Hin : forall j, j ∈ concat qs1 -> j <> i /\ j ∈ concat (queues a)).
  { intros j Hj. rewrite P1 in ND. apply NoDup_cons in ND as [Hi' _]. split; [by intros ->|].
    rewrite P1. by constructor. }
  assert (S1 : forall k q, qs1 !! k = Some q ->
    StronglySorted (fun i' j => age (move i old new t a) i' <= age (move i old new t a) j) q).
  { intros k q Ek. apply (sorted_mono (fun i j => age a i <= age a j)).
    - intros x y Hx Hy. rewrite !age_move by done.
      destruct (Hin x) as [? _]; [apply concat_elem; eauto|].
      destruct (Hin y) as [? _]; [apply concat_elem; eauto|]. by rewrite !decide_False.
    - destruct (decide (old = k)) as [<-|].
      + unfold qs1 in Ek. rewrite list_lookup_insert_eq in Ek by by eapply lookup_lt_Some.
        injection Ek as [= <-]. eapply sorted_remove, S, E.
      + unfold qs1 in Ek. rewrite list_lookup_insert_ne in Ek by done. by eapply S. }
  assert (Hn1 : (new < length qs1)%nat) by (unfold qs1; by rewrite length_insert).
  apply lookup_lt_is_Some_2 in Hn1 as [qn En].
  assert (Hup : forall j, j ∈ concat qs1 -> age (move i old new t a) j <= t).
  { intros j [Hj1 Hj2]%Hin. rewrite age_move, decide_False by done. specialize (M j Hj2). lia. }
  rewrite (alter_insert qs1 _ _ (fun q => q ++ [i]) En) in Eq. split; rewrite Eq.
  - intros k q Ek. destruct (decide (new = k)) as [<-|].
    + rewrite list_lookup_insert_eq in Ek by by eapply lookup_lt_Some. injection Ek as [= <-].
      apply sorted_snoc; [by eapply S1|]. intros y Hy. rewrite (age_move _ _ _ _ _ i), decide_True by done.
      apply Hup, concat_elem. eauto.
    + rewrite list_lookup_insert_ne in Ek by done. by eapply S1.
  - intros j. rewrite (concat_push_perm _ _ _ i En). intros [->|Hj]%elem_of_cons; [|auto].
    by rewrite age_move, decide_True.
Qed.
End Ages.

(** The latest stamp an element of the pool can have. *)
Definition horizon (s : pool_spec) : Z := if sp_timed s then sp_now s else sp_count s.

(** The clock does not run backwards and the counter does not wrap around. *)
Definition time_ok (s : pool_spec) (op : pool_op) : bool :=
  match op with
  | Tick t => sp_now s <=? t
  | _ => sp_timed s || ((0 <=? sp_count s) && (sp_count s + 1 <? 18446744073709551616))
  end.

Section AgeSteps.
Context `{Build} (others : Z -> world -> world) (spin_max tid : Z) (pool : Z).
Abbreviation impl := (impl_step others spin_max tid pool).
Abbreviation implements := (implements spin_max pool).

Lemma spec_move_aged w p s i old new :
  implements w p s -> state_of (sp_abs s) i = Some old -> (new < length (queues (sp_abs s)))%nat ->
  (sp_timed s || ((0 <=? sp_count s) && (sp_count s + 1 <? 18446744073709551616))) = true ->
  aged (sp_abs s) (horizon s) -> aged (sp_abs (spec_move i old new s)) (horizon (spec_move i old new s)).
Proof using.
  intros I Hs Hn Ht Ha.
  replace (horizon (spec_move i old new s)) with (spec_stamp s) by (unfold horizon, spec_stamp; simpl; by destruct (sp_timed s)).
  simpl. eapply move_aged; [by eapply im_pool|done..|].
  unfold horizon, spec_stamp. destruct (sp_timed s); [lia|]. rewrite u64_small; unfold is_u64; lia.
Qed.

(** C33: every operation keeps each state queue ordered by the elements' stamps,
    as long as the clock is monotone and the counter does not wrap around; the
    head, which the oldest operations use, is the element that has been in the
    state longest. *)
Theorem pool_step_keeps_ages w p s op r w' :
  implements w p s -> op_ok s op = true -> time_ok s op = true -> aged (sp_abs s) (horizon s) ->
  impl op w = Ret (r, w') ->
  exists p' s', implements w' p' s' /\ aged (sp_abs s') (horizon s') /\
    forall k i q j, queues (sp_abs s') !! k = Some (i :: q) -> j ∈ q -> age (sp_abs s') i <= age (sp_abs s') j.
Proof using.
  intros I Hok Ht Ha R. pose proof (step_refines others spin_max tid pool w p s op I Hok) as St.
  destruct (spec_step s op) as [[r1 s']|] eqn:E; [|congruence].
  destruct St as (w1 & p' & R1 & I'). assert (w1 = w') as -> by congruence.
  assert (Ha' : aged (sp_abs s') (horizon s')).
  { destruct op as [i old new|i old new|old new|i|k|k|k|i|t]; simpl in E, Hok, Ht; try apply bool_decide_eq_true in Hok.
    - case_decide; [|done]. injection E as [= <- <-]. eapply spec_move_aged; eauto; lia.
    - destruct (state_of (sp_abs s) i) as [k|] eqn:Es; [|done]. simpl in E.
      case_decide; injection E as [= <- <-]; [|done]. subst. eapply spec_move_aged; eauto; lia.
    - destruct (queues (sp_abs s) !! old) as [[|i q]|] eqn:Eq; [..|done]; injection E as [= <- <-]; [done|].
      eapply spec_move_aged; eauto; [|lia]. eapply queue_state_of; [by eapply im_pool|done|constructor].
    - destruct (state_of (sp_abs s) i) as [k|] eqn:Es; [|done]. injection E as [= <- <-].
      eapply spec_move_aged; eauto. apply state_of_queue in Es as (q & Eq & _). by eapply lookup_lt_Some.
    - destruct (queues (sp_abs s) !! k); [|done]. by injection E as [= <- <-].
    - destruct (queues (sp_abs s) !! k) as [[|i q]|]; [..|done]; simpl in E; [by injection E as [= <- <-]|].
      destruct (stamps (sp_abs s) !! i); [|done]. by injection E as [= <- <-].
    - destruct (queues (sp_abs s) !! k); [|done]. by injection E as [= <- <-].
    - destruct (state_of (sp_abs s) i); [|done]. by injection E as [= <- <-].
    - injection E as [= <- <-]. destruct Ha as [S M]. split; [done|]. intros i Hi. specialize (M i Hi).
      unfold horizon in *. simpl. destruct (sp_timed s); lia. }
  exists p', s'. split_and!; [done..|]. intros k i q j Ek Hj. destruct Ha' as [S _].
  specialize (S k _ Ek). apply StronglySorted_inv in S as [_ F]. rewrite Forall_forall in F. auto.
Qed.
End AgeSteps.

(** ** Contention: other threads work on the pool while this one waits *)
Section Contention.
Context `{Build} (others : Z -> world -> world) (spin_max tid : Z) (pool number states : Z).
Abbreviation array := (SXE_POOL_IMPL_TO_ARRAY pool).

(** A locked pool of the given dimensions. *)
Definition locked_pool (w : world) (p : SXE_POOL_IMPL) (a : pool_abs) : Prop :=
  is_pool w pool p a /\ locked p = true /\ p_number p = number /\ p_states p = states.

(** The other threads keep it one. *)
Hypothesis Hothers : forall n w p a, locked_pool w p a -> exists p' a', locked_pool (others n w) p' a'.
Hypothesis Hmax : 0 < spin_max /\ is_u32 spin_max.

Abbreviation before := (before others).
Abbreviation first_open := (first_open (HasLock0 := pool_has_lock pool) others tid (Z.to_nat spin_max) 0).

Lemma before_locked w p a n : locked_pool w p a -> exists p1 a1, locked_pool (before n w) p1 a1.
Proof using Hothers. intros HL. induction n as [|n (p1 & a1 & IH)]; [by exists p, a|]. cbn [Spinlock.before]. by apply (Hothers _ _ p1 a1). Qed.

(** Waiting for the lock: what its first attempt that does not find it with another thread finds, on what the others made of the pool until then. *)
Lemma lock_contended w p a :
  locked_pool w p a ->
  match first_open w with
  | None => sxe_pool_lock others spin_max tid pool w = Ret (SXE_POOL_LOCK_NOT_TAKEN, before (Z.to_nat spin_max) w)
  | Some n =>
      (exists p1 a1, locked_pool (before n w) p1 a1) /\
      forall p1 a1, locked_pool (before n w) p1 a1 ->
        if p_spinlock p1 =? 0 then sxe_pool_lock others spin_max tid pool w = Ret (SXE_POOL_LOCK_TAKEN, with_impls <[pool := hold tid p1]> (before n w))
        else sxe_pool_lock others spin_max tid pool w = Ret (SXE_POOL_LOCK_NOT_TAKEN, before n w)
  end.
Proof using Hothers Hmax.
  intros HL. pose proof HL as (P & El & EN & ES). unfold sxe_pool_lock.
  step_by (rd_impl_ret _ _ _ (ip_impl _ _ _ _ P)). rewrite El. change (negb true) with false. cbv iota beta.
  rewrite (sxe_spinlock_take_spec (HasLock0 := pool_has_lock pool)) by tauto.
  destruct (first_open w) as [n|]; [|by rewrite decide_True].
  split; [by apply (before_locked w p a)|]. intros p1 a1 HL1. pose proof HL1 as (P1 & El1 & _). pose proof (ip_impl _ _ _ _ P1) as Ei.
  cbv zeta. change (get_lock (before n w)) with (lock_of_pool pool (before n w)). unfold lock_of_pool. rewrite Ei. destruct (p_spinlock p1 =? 0).
  - rewrite decide_False by (intros Hn; by apply Hn). do 2 f_equal. unfold hold. rewrite El1. by apply put_pool_lock.
  - by rewrite decide_True.
Qed.

(** C29: moving an element while other threads work on the pool, who may do anything to it between two attempts to take its lock but keep it a locked pool of its
    dimensions. If all attempts, [spin_max] of them, find the lock with another thread, the call says that the lock was not taken, and all that happened is
    what the others did meanwhile. Otherwise the first attempt that does not decides. If it finds the lock with this thread itself, the call says that the lock was not taken
    and again does nothing. If it finds the lock free, the call does on the pool as the others left it before that attempt what it does without other
    threads: if the element is in the expected state it is moved to the end of the new state's queue, with the stamp of the moment, the lock is free again, and nothing
    outside of the pool is changed; if it is not, the call aborts. It never touches memory outside of the pool. *)
Theorem set_state_contended w p a i old new :
  locked_pool w p a -> Z.of_nat i < number -> Z.of_nat old < states -> Z.of_nat new < states ->
  let result := sxe_pool_set_indexed_element_state others spin_max tid array (Z.of_nat i) (Z.of_nat old) (Z.of_nat new) w in
  match first_open w with
  | None => result = Ret (SXE_POOL_LOCK_NOT_TAKEN, before (Z.to_nat spin_max) w)
  | Some n =>
      let w1 := before n w in
      (exists p1 a1, locked_pool w1 p1 a1) /\
      forall p1 a1, locked_pool w1 p1 a1 ->
        if p_spinlock p1 =? 0 then
          if decide (state_of a1 i = Some old) then
            exists w' p', result = Ret (SXE_POOL_LOCK_TAKEN, w') /\ locked_pool w' p' (move i old new (stamp w1 p1) a1) /\ p_spinlock p' = 0 /\ untouched pool p1 w1 w'
          else result = Abort
        else result = Ret (SXE_POOL_LOCK_NOT_TAKEN, w1)
  end.
Proof using Hothers Hmax.
  intros HL Hi Hold Hnew. pose proof HL as (P & El & EN & ES). cbv zeta.
  unfold sxe_pool_set_indexed_element_state.
  rewrite (impl_of_array pool p (ip_layout _ _ _ _ P)). cbv zeta. step_by (assert_array w pool p a P w).
  step_by (rd_impl_pool pool w p a P).
  assert (B : forall k, Z.of_nat k < states -> (k < length (queues a))%nat).
  { intros k Hk. rewrite (qo_states _ _ _ _ (ip_queues _ _ _ _ P)). lia. }
  step_by (check_index_ok pool w p a P i w ltac:(rewrite (ip_nstamps _ _ _ _ P); lia)).
  step_by (check_state_ok pool w p a P old w (B _ Hold)). step_by (check_state_ok pool w p a P new w (B _ Hnew)).
  pose proof (lock_contended w p a HL) as Hl. destruct (first_open w) as [n|]; [|by step_by Hl].
  destruct Hl as (He & R). split; [done|]. intros p1 a1 HL1. specialize (R p1 a1 HL1). destruct (Z.eqb_spec (p_spinlock p1) 0) as [E0|E0]; step_by R; [|done].
  lock_taken. pose proof HL1 as (P1 & El1 & EN1 & ES1). assert (A1 : available spin_max p1) by (intros _; split; [done|tauto]).
  destruct (state_of_total _ _ _ _ P1 i) as [k Hs]; [lia|]. case_decide as Hk.
  - destruct (locked_move spin_max tid pool (before n w) p1 a1 P1 A1 i old new true 0 Hk) as (w2 & R2 & w3 & R3 & P3 & U3); [lia|].
    step_by R2. erewrite cmd_bind_ret by done. step_by R3.
    destruct (bump_same_layout p1) as (B1 & B2 & B3 & B4 & B5 & B6). exists w3, (bump p1). split; [done|].
    split; [split_and!; [done|unfold locked; by rewrite B5|congruence|congruence]|]. by rewrite B6.
  - unfold mbind, cmd_bind. by rewrite (unlocked_wrong _ _ _ _ (is_pool_hold tid pool _ _ _ P1) i k) by (done || (intros E; apply Hk; rewrite Hs; f_equal; lia)).
Qed.
End Contention.

(** ** Witnesses: a pool of three elements of eight bytes in two states, locked and
    counted, constructed at address 1000 *)
Definition raw_impl : SXE_POOL_IMPL := mk_impl 77 [] 0 0 0 0 0 0 0 0 None 99 0.
Definition raw_world : world :=
  mk_world (mk_mem {[1248 := mk_node 0 0 0; 1280 := mk_node 0 0 0; 1312 := mk_node 0 0 0]} ∅)
    {[1000 := raw_impl]} {[1248 := 0; 1280 := 0; 1312 := 0]} 5 0.

Lemma raw_world_block : raw_block raw_world 1000 3 8 2 raw_impl.
Proof.
  split; [reflexivity|lia..|unfold SIZEOF_POOL_IMPL, SIZEOF_LIST, SIZEOF_POOL_NODE; lia|].
  intros i Hi. assert (i = 0 \/ i = 1 \/ i = 2) as [->|[->| ->]] by lia; cbv zeta.
  all: split; [apply elem_of_dom|]; eexists; reflexivity.
Qed.

Definition idle_others (n : Z) (w : world) : world := w.
Definition example_spec : pool_spec := mk_spec (new_pool 3 2 false 5) false 5 3.

Lemma example_pool : exists w p, implements 10 1000 w p example_spec /\ locked p = true /\
  p_number p = 3 /\ p_states p = 2.
Proof.
  destruct (construct_run 10 0 raw_world 1000 [112] 3 8 2 1 raw_impl raw_world_block) as (w & p & R & I); [lia|].
  exists w, p. split; [exact I|].
  assert (E : (match sxe_pool_construct 0 1000 [112] 3 8 2 1 raw_world with
               | Ret (_, w) => (fun p => (p_options p, p_number p, p_states p)) <$> w_impls w !! 1000
               | _ => None end) = Some (1, 3, 2)) by (vm_compute; reflexivity).
  rewrite R, (ip_impl _ _ _ _ (im_pool _ _ _ _ _ I)) in E. injection E as E1 E2 E3.
  unfold locked. rewrite E1. auto.
Qed.

Lemma sxe_pool_construct_spec_witness :
  exists w' p', sxe_pool_construct 0 1000 [112] 3 8 2 1 raw_world = Ret (1144, w') /\
    implements 10 1000 w' p' example_spec.
Proof. apply (sxe_pool_construct_spec 10 0 raw_world 1000 [112] 3 8 2 1 raw_impl raw_world_block). lia. Defined.

Definition pool_example_ops : list pool_op :=
  [SetOldest 0 1; TryState 2 0 1; TryState 0 0 1; Tick 9; Touch 2; OldestIndex 1; OldestStamp 1; NumberIn 0; StateOf 1].

Lemma pool_refines_spec_witness : let H := true in
  exists w p, implements 10 1000 w p example_spec /\
  exists w' p' s', impl_run (H := true) idle_others 10 7 1000 pool_example_ops w =
    Ret ([[2]; [4294967294; 1]; [0; 1]; []; [0]; [0]; [5]; [1]; [0]], w') /\ implements 10 1000 w' p' s'.
Proof.
  intros H. destruct example_pool as (w & p & I & _). exists w, p. split; [exact I|].
  destruct (pool_refines_spec (H := true) idle_others 10 7 1000 pool_example_ops w p example_spec I eq_refl) as (w' & p' & R & I').
  eexists w', p', _. split; [exact R|exact I'].
Defined.

Lemma pool_step_keeps_ages_witness :
  exists w p r w', implements 10 1000 w p example_spec /\
  impl_step (H := true) idle_others 10 7 1000 (SetOldest 0 1) w = Ret (r, w') /\
  exists p' s', implements 10 1000 w' p' s' /\ aged (sp_abs s') (horizon s').
Proof.
  destruct example_pool as (w & p & I & _).
  destruct (step_refines (H := true) idle_others 10 7 1000 w p example_spec (SetOldest 0 1) I eq_refl) as (w' & p' & R & I').
  eexists w, p, _, w'. split; [exact I|]. split; [exact R|].
  assert (A : aged (sp_abs example_spec) (horizon example_spec)).
  { split.
    - intros [|[|k]] q [= <-]; repeat constructor; discriminate.
    - intros i Hi. simpl in Hi. repeat (apply elem_of_cons in Hi as [->|Hi]; [vm_compute; discriminate|]).
      by apply elem_of_nil in Hi. }
  destruct (pool_step_keeps_ages (H := true) idle_others 10 7 1000 w p example_spec (SetOldest 0 1) [Z.of_nat 2] w'
    I eq_refl eq_refl A R) as (p1 & s1 & I1 & A1 & _).
  exists p1, s1. split; [exact I1|exact A1].
Defined.

(** Another thread has the lock, gives it back after the first attempt, and leaves the pool as it is. *)
Definition with_lock (v : Z) (w : world) : world := with_impls (alter (set_spinlock v) 1000) w.
Lemma with_lock_keeps v w p a : locked_pool 1000 3 2 w p a -> locked_pool 1000 3 2 (with_lock v w) (set_spinlock v p) a.
Proof.
  intros (P & El & EN & ES). split; [|done]. unfold with_lock. pose proof (put_pool_lock 1000 p v w (ip_impl _ _ _ _ P)) as E. cbn [put_lock pool_has_lock] in E. rewrite E. by apply (is_pool_relock _ w p).
Qed.
Lemma with_lock_lock v w p a : locked_pool 1000 3 2 w p a -> lock_of_pool 1000 (with_lock v w) = v.
Proof. intros HL. destruct (with_lock_keeps v w p a HL) as (P & _). unfold lock_of_pool. by rewrite (ip_impl _ _ _ _ P). Qed.
Definition releasing (n : Z) (w : world) : world := with_lock 0 w.

Lemma set_state_contended_witness :
  exists w p, locked_pool 1000 3 2 w p (sp_abs example_spec) /\ p_spinlock p = 9 /\
  exists w' p' t, sxe_pool_set_indexed_element_state (H := true) releasing 10 7 1144 (Z.of_nat 2) (Z.of_nat 0) (Z.of_nat 1) w = Ret (SXE_POOL_LOCK_TAKEN, w') /\
    locked_pool 1000 3 2 w' p' (move 2 0 1 t (sp_abs example_spec)) /\ p_spinlock p' = 0.
Proof.
  destruct example_pool as (w & p & I & El & EN & ES).
  assert (HL : locked_pool 1000 3 2 w p (sp_abs example_spec)) by (split; [apply (im_pool _ _ _ _ _ I)|auto]).
  pose proof (with_lock_keeps 9 w p _ HL) as HL9. set (w9 := with_lock 9 w) in *. exists w9, (set_spinlock 9 p). do 2 (split; [done|]).
  pose proof (with_lock_keeps 0 w9 _ _ HL9) as HL0.
  assert (Hs : forall n w p a, locked_pool 1000 3 2 w p a -> exists p' a', locked_pool 1000 3 2 (releasing n w) p' a') by (intros n v q b Hq; exists (set_spinlock 0 q), b; by apply with_lock_keeps).
  pose proof (set_state_contended (H := true) releasing 10 7 1000 3 2 Hs ltac:(unfold is_u32; lia) w9 _ _ 2 0 1 HL9 ltac:(lia) ltac:(lia) ltac:(lia)) as C. cbv zeta in C.
  assert (F : first_open (HasLock0 := pool_has_lock 1000) releasing 7 (Z.to_nat 10) 0 w9 = Some 1%nat).
  { change (Z.to_nat 10) with 10%nat. cbn [first_open before]. cbn [get_lock pool_has_lock]. rewrite (with_lock_lock 9 w p _ HL : lock_of_pool 1000 w9 = 9). cbn [Z.eqb Pos.eqb orb]. unfold releasing. by rewrite (with_lock_lock 0 w9 _ _ HL9). }
  rewrite F in C. destruct C as (_ & C). specialize (C _ _ HL0). change (p_spinlock (set_spinlock 0 (set_spinlock 9 p)) =? 0) with true in C. cbv iota in C.
  rewrite decide_True in C by reflexivity. destruct C as (w' & p' & R & HL' & E' & _). by exists w', p', (stamp (releasing 0 w9) (set_spinlock 0 (set_spinlock 9 p))).
Defined.
