(* ===== verification/PoolWalker.v ===== *)
(** * PoolWalker: iteration over a state and the timeouts of pools

    A walker visits the elements of one state, and survives the element it
    stands on being moved away between two steps. [sxe_pool_check_timeouts]
    walks the pools with timeouts and hands their expired elements to a
    callback. *)

From S2P Require Import Prelude Spinlock SxeList Pool.

(** lib-sxe-pool/sxe-pool.h:41-49, SXE_POOL_WALKER. *)
Record SXE_POOL_WALKER := mk_pwalker {
  pw_list_walker : SXE_LIST_WALKER;
  pw_pool : Z;
  pw_state : Z;
  pw_last : Z
}.

Section Walker.
Context `{Build} (others : Z -> world -> world) (spin_max tid : Z).
Abbreviation lock_pool := (sxe_pool_lock others spin_max tid).
Abbreviation unlock_pool := (sxe_pool_unlock tid).

(** lib-sxe-pool/sxe-pool-walker.c:24-53, sxe_pool_walker_construct. *)
Definition sxe_pool_walker_construct (array state : Z) : cmd world SXE_POOL_WALKER :=
  let pool := SXE_POOL_ARRAY_TO_IMPL array in
  p ← rd_impl pool;
  lift (assert1 (negb (locked p && timed p)));;
  mret (mk_pwalker (sxe_list_walker_construct (QUEUE_AT pool p state)) pool state 0).

(** lib-sxe-pool/sxe-pool-walker.c:99-110, sxe_pool_walker_step. The loop that walks the
    state again, up to a node that is not older than the last one seen. *)
Fixpoint rewalk (fuel : nat) (last : Z) (lw : SXE_LIST_WALKER) : cmd world (Z * SXE_LIST_WALKER) :=
  match fuel with
  | O => lift Fault
  | S fuel =>
      '(node, lw) ← on_mem (sxe_list_walker_step lw);
      if node =? NULL then mret (NULL, lw)
      else
        t ← rd_last node;
        if t >=? last then mret (node, lw) else rewalk fuel last lw
  end.

(** lib-sxe-pool/sxe-pool-walker.c:55-135, sxe_pool_walker_step. Returns the index and
    the walker. [fuel] bounds the loop: the number of elements and one more is
    enough. *)
Definition sxe_pool_walker_step (fuel : nat) (walker : SXE_POOL_WALKER) : cmd world (Z * SXE_POOL_WALKER) :=
  let pool := pw_pool walker in
  result ← lock_pool pool;
  if result =? SXE_POOL_LOCK_NOT_TAKEN then mret (result, walker)
  else
    p ← rd_impl pool;
    node ← on_mem (sxe_list_walker_find (pw_list_walker walker));
    moved ← (if node =? NULL then mret false
             else i ← on_mem (SXE_LIST_NODE_GET_ID node); mret (negb (i =? pw_state walker)));
    '(node, lw) ←
      (if (moved : bool) then
         '(node, lw) ← on_mem (sxe_list_walker_back (pw_list_walker walker));
         stays ← (if node =? NULL then mret false
                  else i ← on_mem (SXE_LIST_NODE_GET_ID node); mret (i =? pw_state walker));
         if (stays : bool) then on_mem (sxe_list_walker_step lw)
         else rewalk fuel (pw_last walker) (sxe_list_walker_construct (QUEUE_AT pool p (pw_state walker)))
       else on_mem (sxe_list_walker_step (pw_list_walker walker)));
    out ← (if node =? NULL then mret (SXE_POOL_NO_INDEX, pw_last walker)
           else t ← rd_last node; mret (NODE_INDEX pool p node, t));
    unlock_pool pool;;
    mret (fst out, mk_pwalker lw pool (pw_state walker) (snd out)).

(** A client's loop: step until the end of the state. *)
Fixpoint pool_walk (fuel n : nat) (walker : SXE_POOL_WALKER) : cmd world (list Z) :=
  match n with
  | O => mret []
  | S n =>
      '(i, walker) ← sxe_pool_walker_step fuel walker;
      if i =? SXE_POOL_NO_INDEX then mret [] else is_ ← pool_walk fuel n walker; mret (i :: is_)
  end.

Section Quiet.
Variables (w : world) (pool : Z) (p : SXE_POOL_IMPL) (a : pool_abs).
Hypothesis (P : is_pool w pool p a) (A : available spin_max p).
Let L : layout pool p := ip_layout _ _ _ _ P.
Let P1 := is_pool_hold tid pool _ _ _ P.
Abbreviation w1 := (with_impls <[pool := hold tid p]> w).

Lemma queue_list k q : queues a !! k = Some q ->
  is_list (w_mem w) (qaddr pool p k) (Z.of_nat k) 0 (naddr pool p <$> q).
Proof using P. apply (qo_lists _ _ _ _ (ip_queues _ _ _ _ P)). Qed.

Lemma queue_index k q i : queues a !! k = Some q -> i ∈ q -> Z.of_nat i < p_number p.
Proof using P. intros E Hi. eapply qo_bound; [apply (ip_queues _ _ _ _ P)|]. apply concat_elem. eauto. Qed.

Lemma obj_naddr k q i : queues a !! k = Some q -> i ∈ q -> u64 (naddr pool p i - 0) = naddr pool p i.
Proof using P. intros E Hi. rewrite Z.sub_0_r. apply u64_small, naddr_u64; [done|by eapply queue_index]. Qed.

(** The list walker on a state queue: a step from the element after [q1], or from
    the head when [q1] is empty. *)
Lemma list_step k q1 q2 b :
  queues a !! k = Some (q1 ++ q2) ->
  let l := qaddr pool p k in
  on_mem (sxe_list_walker_step (mk_walker l b (final l (naddr pool p <$> q1)))) w1 =
  Ret (match q2 with
       | i :: _ => (naddr pool p i, mk_walker l (final l (naddr pool p <$> q1)) (naddr pool p i))
       | [] => (NULL, mk_walker l (final l (naddr pool p <$> q1)) l)
       end, w1).
Proof using P.
  intros E l. pose proof (queue_list _ _ E) as HL. rewrite fmap_app in HL.
  erewrite on_mem_ret; [by rewrite with_mem_same|]. simpl. destruct q2 as [|i q2].
  - rewrite app_nil_r in HL. by apply (walker_step_end _ _ _ _ _ b HL).
  - rewrite fmap_cons in HL. etrans; [exact (walker_step_at _ _ _ _ _ _ _ _ b HL eq_refl)|]. do 3 f_equal.
    eapply obj_naddr; [done|]. apply elem_of_mid.
Qed.

Lemma last_read i t : stamps a !! i = Some t -> rd_last (naddr pool p i) w1 = Ret (t, w1).
Proof using P. intros E. unfold rd_last. simpl. by rewrite (ip_stamps _ _ _ _ P _ _ E). Qed.

Lemma stamp_exists k q i : queues a !! k = Some q -> i ∈ q -> stamps a !! i = Some (age a i).
Proof using P.
  intros E Hi. pose proof (queue_index _ _ _ E Hi) as Hb.
  destruct (lookup_lt_is_Some_2 (stamps a) i) as [t Et]; [rewrite (ip_nstamps _ _ _ _ P); lia|].
  unfold age. by rewrite Et.
Qed.

(** One step of the pool walker that stands after [q1] in state [k]. *)
Definition walker_at (k : nat) (q1 : list nat) (b last : Z) : SXE_POOL_WALKER :=
  mk_pwalker (mk_walker (qaddr pool p k) b (final (qaddr pool p k) (naddr pool p <$> q1))) pool (Z.of_nat k) last.

Lemma final_fmap l (q1 : list nat) i : final l (naddr pool p <$> q1 ++ [i]) = naddr pool p i.
Proof using. rewrite fmap_app. apply final_snoc. Qed.

(** The common end of a step: stamp, unlock and return the index. *)
Lemma step_out k q1 i q2 :
  queues a !! k = Some (q1 ++ i :: q2) ->
  (t ← rd_last (naddr pool p i); mret (NODE_INDEX pool (hold tid p) (naddr pool p i), t)) w1 =
  Ret ((Z.of_nat i, age a i), w1) /\ (naddr pool p i =? NULL) = false.
Proof using P.
  intros E. split.
  - step_by (last_read i _ (stamp_exists _ _ i E (elem_of_mid _ _ _))).
    rewrite hold_index, NODE_INDEX_naddr; [done|done|]. eapply queue_index; [done|apply elem_of_mid].
  - apply Z.eqb_neq. by apply naddr_pos.
Qed.

(** The walker finds its node still in the state. *)
Lemma find_in_state k q1 q2 b last :
  queues a !! k = Some (q1 ++ q2) ->
  (node ← on_mem (sxe_list_walker_find (pw_list_walker (walker_at k q1 b last)));
   if node =? NULL then mret false
   else i ← on_mem (SXE_LIST_NODE_GET_ID node); mret (negb (i =? Z.of_nat k))) w1 = Ret (false, w1).
Proof using P.
  intros E. pose proof (queue_list _ _ E) as HL.
  erewrite cmd_bind_ret.
  2:{ apply on_mem_ret. apply walker_find_spec. apply (il_head _ _ _ _ _ HL). }
  rewrite with_mem_same. simpl.
  destruct q1 as [|i q1 _] using rev_ind; [simpl; by rewrite Z.eqb_refl|].
  rewrite final_fmap. assert (Hq : i ∈ (q1 ++ [i]) ++ q2) by apply elem_of_end.
  destruct (Z.eqb_spec (naddr pool p i) (qaddr pool p k)) as [En|].
  { exfalso. symmetry in En. revert En. apply qaddr_ne_naddr; [done|].
    eapply queue_state; [apply (ip_queues _ _ _ _ P)|done]. }
  unfold obj_of. rewrite (obj_naddr _ _ _ E Hq).
  destruct (Z.eqb_spec (naddr pool p i) NULL) as [En|]; [by apply naddr_pos in En|].
  pose proof (node_id _ _ _ _ P1 i k (queue_state_of _ _ _ _ P _ _ _ E Hq)) as R.
  replace (NODES_AT pool (hold tid p) (Z.of_nat i)) with (naddr pool p i) in R.
  2:{ rewrite <-(NODES_AT_naddr pool p L) by (by eapply queue_index).
      unfold NODES_AT. by destruct (hold_fields tid p) as (-> & _). }
  step_by R. by rewrite Z.eqb_refl.
Qed.

Lemma walker_step_quiet fuel k q1 q2 b last :
  queues a !! k = Some (q1 ++ q2) ->
  exists b' last', sxe_pool_walker_step fuel (walker_at k q1 b last) w =
  Ret (match q2 with
       | i :: _ => (Z.of_nat i, walker_at k (q1 ++ [i]) b' last')
       | [] => (SXE_POOL_NO_INDEX, mk_pwalker (mk_walker (qaddr pool p k) b' (qaddr pool p k)) pool (Z.of_nat k) last')
       end, w).
Proof using P A.
  intros E. unfold sxe_pool_walker_step. cbn [pw_pool walker_at]. cbv zeta.
  step_by (lock_held others spin_max tid pool w p a P A). lock_taken.
  step_by (rd_impl_held tid pool w p).
  pose proof (find_in_state k q1 q2 b last E) as F.
  apply cmd_bind_inv in F as (node & w' & F1 & F2). step_by F1. step_by F2.
  step_by (list_step k q1 q2 b E). destruct q2 as [|i q2].
  - rewrite Z.eqb_refl. erewrite cmd_bind_ret by done. step_by (unlock_held spin_max tid pool w p a P A).
    by eexists _, _.
  - destruct (step_out k q1 i q2 E) as [R Ez]. rewrite Ez. step_by R.
    step_by (unlock_held spin_max tid pool w p a P A). exists (final (qaddr pool p k) (naddr pool p <$> q1)), (age a i).
    unfold walker_at. by rewrite final_fmap.
Qed.

Lemma pool_walk_from fuel k q2 : forall q1 b last n,
  queues a !! k = Some (q1 ++ q2) -> (length q2 < n)%nat ->
  pool_walk fuel n (walker_at k q1 b last) w = Ret (Z.of_nat <$> q2, w).
Proof using P A.
  induction q2 as [|i q2 IH]; intros q1 b last [|n] E Hn; simpl in Hn; try lia; cbn [pool_walk];
    destruct (walker_step_quiet fuel k q1 _ b last E) as (b' & last' & R); step_by R.
  - by rewrite Z.eqb_refl.
  - assert (Hi : Z.of_nat i < p_number p) by (eapply queue_index; [done|apply elem_of_mid]).
    destruct (Z.eqb_spec (Z.of_nat i) SXE_POOL_NO_INDEX) as [En|].
    { change SXE_POOL_NO_INDEX with 4294967295 in En. pose proof (lay_number _ _ L). lia. }
    erewrite cmd_bind_ret; [done|]. apply IH; [by rewrite <-(assoc_L (++))|lia].
Qed.
End Quiet.

(** Walking a state of a pool that nobody changes visits exactly the elements
    of the state, oldest first, and ends with SXE_POOL_NO_INDEX. *)
Theorem pool_walk_all w pool p a k q :
  is_pool w pool p a -> available spin_max p -> locked p && timed p = false ->
  queues a !! k = Some q ->
  (walker ← sxe_pool_walker_construct (SXE_POOL_IMPL_TO_ARRAY pool) (Z.of_nat k);
   pool_walk (S (length q)) (S (length q)) walker) w = Ret (Z.of_nat <$> q, w).
Proof using.
  intros P A Hlt E. unfold sxe_pool_walker_construct.
  rewrite (impl_of_array pool p (ip_layout _ _ _ _ P)). cbv zeta.
  erewrite cmd_bind_ret.
  2:{ step_by (rd_impl_pool pool w p a P). rewrite Hlt. by erewrite cmd_bind_ret by done. }
  rewrite (QUEUE_AT_qaddr pool p (ip_layout _ _ _ _ P)) by (eapply queue_state; [apply P|done]).
  apply (pool_walk_from w pool p a P A (S (length q)) k q [] (qaddr pool p k) 0); [done|lia].
Qed.
(** ** The element under the walker has been moved *)

(** The elements after [j] in a queue. *)
Fixpoint after (j : nat) (q : list nat) : list nat :=
  match q with [] => [] | x :: q => if decide (x = j) then q else after j q end.

(** Where a walker of state [k] goes on: after the previous element, if that is
    still in the state; otherwise at the first element whose stamp is at least
    the last one seen. *)
Definition resume (a : pool_abs) (k : nat) (back : option nat) (last : Z) (q : list nat) : option nat :=
  match back with
  | Some j => if decide (state_of a j = Some k) then head (after j q) else List.find (fun i => last <=? age a i) q
  | None => List.find (fun i => last <=? age a i) q
  end.

Definition back_addr (pool : Z) (p : SXE_POOL_IMPL) (k : nat) (back : option nat) : Z :=
  match back with Some j => naddr pool p j | None => qaddr pool p k end.

Lemma after_split j q1 q2 : j ∉ q1 -> after j (q1 ++ j :: q2) = q2.
Proof using.
  induction q1 as [|x q1 IH]; simpl; intros Hj; [by rewrite decide_True|].
  apply not_elem_of_cons in Hj as [? ?]. rewrite decide_False by done. auto.
Qed.

Section Moved.
Variables (w : world) (pool : Z) (p : SXE_POOL_IMPL) (a : pool_abs).
Hypothesis (P : is_pool w pool p a) (A : available spin_max p).
Let L : layout pool p := ip_layout _ _ _ _ P.
Let P1 := is_pool_hold tid pool _ _ _ P.
Abbreviation w1 := (with_impls <[pool := hold tid p]> w).

Lemma held_node_id i k :
  state_of a i = Some k -> on_mem (SXE_LIST_NODE_GET_ID (naddr pool p i)) w1 = Ret (Z.of_nat k, w1).
Proof using P.
  intros Hs. pose proof (node_id _ _ _ _ P1 i k Hs) as R.
  replace (NODES_AT pool (hold tid p) (Z.of_nat i)) with (naddr pool p i) in R; [done|].
  rewrite <-(NODES_AT_naddr pool p L) by (by apply (state_of_bound _ _ _ _ P _ _ Hs)).
  unfold NODES_AT. by destruct (hold_fields tid p) as (-> & _).
Qed.

(** Looking for an element that is not older than the last one seen. *)
Lemma rewalk_run k q2 last : forall q1 b fuel,
  queues a !! k = Some (q1 ++ q2) -> (length q2 < fuel)%nat ->
  exists lw, rewalk fuel last (mk_walker (qaddr pool p k) b (final (qaddr pool p k) (naddr pool p <$> q1))) w1 =
  Ret ((match List.find (fun i => last <=? age a i) q2 with Some i => naddr pool p i | None => NULL end, lw), w1).
Proof using P.
  induction q2 as [|i q2 IH]; intros q1 b [|fuel] E Hf; simpl in Hf; try lia; cbn [rewalk];
    step_by (list_step w pool p a P k q1 _ b E).
  - rewrite Z.eqb_refl. by eexists.
  - destruct (Z.eqb_spec (naddr pool p i) NULL) as [En|]; [by apply naddr_pos in En|].
    step_by (last_read w pool p a P i _ (stamp_exists w pool p a P _ _ i E (elem_of_mid _ _ _))).
    simpl List.find. unfold Z.geb. rewrite Z.compare_antisym.
    destruct (Z.leb_spec last (age a i)) as [Hle|Hlt].
    + destruct (Z.compare_spec last (age a i)); simpl; [by eexists..|lia].
    + replace (last ?= age a i) with Gt by (symmetry; apply Z.compare_gt_iff; lia). simpl.
      destruct (IH (q1 ++ [i]) (final (qaddr pool p k) (naddr pool p <$> q1)) fuel) as [lw R];
        [by rewrite <-(assoc_L (++))|lia|].
      rewrite final_fmap in R. by exists lw.
Qed.

Lemma obj_of_naddr i : Z.of_nat i < p_number p -> obj_of 0 (naddr pool p i) = naddr pool p i.
Proof using P. intros Hi. unfold obj_of. rewrite Z.sub_0_r. by apply u64_small, naddr_u64. Qed.

Lemma naddr_ne k q i : queues a !! k = Some q -> (naddr pool p i =? qaddr pool p k) = false.
Proof using P.
  intros E. apply Z.eqb_neq, not_eq_sym, qaddr_ne_naddr; [done|].
  eapply queue_state; [apply (ip_queues _ _ _ _ P)|done].
Qed.

(** The element under the walker is found in another state. *)
Lemma find_moved i k k' q b :
  state_of a i = Some k' -> k' <> k -> queues a !! k = Some q ->
  (node ← on_mem (sxe_list_walker_find (mk_walker (qaddr pool p k) b (naddr pool p i)));
   if node =? NULL then mret false
   else i ← on_mem (SXE_LIST_NODE_GET_ID node); mret (negb (i =? Z.of_nat k))) w1 = Ret (true, w1).
Proof using P.
  intros Hs Hk E. pose proof (queue_list w pool p a P _ _ E) as HL.
  erewrite cmd_bind_ret by (apply on_mem_ret; apply walker_find_spec; apply (il_head _ _ _ _ _ HL)).
  rewrite with_mem_same. simpl. rewrite (naddr_ne _ _ _ E).
  rewrite obj_of_naddr by (by apply (state_of_bound _ _ _ _ P _ _ Hs)).
  destruct (Z.eqb_spec (naddr pool p i) NULL) as [En|]; [by apply naddr_pos in En|].
  step_by (held_node_id _ _ Hs). destruct (Z.eqb_spec (Z.of_nat k') (Z.of_nat k)); [lia|done].
Qed.

(** Stepping back, and whether the previous element is still in the state. *)
Lemma back_stays back i k q :
  queues a !! k = Some q -> (forall j, back = Some j -> Z.of_nat j < p_number p) ->
  exists node lw,
    on_mem (sxe_list_walker_back (mk_walker (qaddr pool p k) (back_addr pool p k back) (naddr pool p i))) w1
      = Ret ((node, lw), w1) /\
    (if node =? NULL then mret false
     else i ← on_mem (SXE_LIST_NODE_GET_ID node); mret (i =? Z.of_nat k)) w1 =
    Ret (match back with Some j => bool_decide (state_of a j = Some k) | None => false end, w1) /\
    (forall j, back = Some j -> lw = mk_walker (qaddr pool p k) (qaddr pool p k) (naddr pool p j)).
Proof using P.
  intros E Hb. pose proof (queue_list w pool p a P _ _ E) as HL.
  pose proof (walker_back_spec (w_mem w) (qaddr pool p k) _ (back_addr pool p k back) (naddr pool p i)
    (il_head _ _ _ _ _ HL)) as B.
  destruct back as [j|]; cbn [back_addr] in *.
  - rewrite (naddr_ne _ _ _ E) in B. simpl offset in B. specialize (Hb j eq_refl). rewrite obj_of_naddr in B by done.
    exists (naddr pool p j), (mk_walker (qaddr pool p k) (qaddr pool p k) (naddr pool p j)).
    split_and!; [by erewrite on_mem_ret by exact B| |by intros ? [= ->]].
    destruct (Z.eqb_spec (naddr pool p j) NULL) as [En|]; [by apply naddr_pos in En|].
    destruct (state_of_total _ _ _ _ P j Hb) as [kj Hj]. step_by (held_node_id _ _ Hj).
    unfold mret, cmd_ret. do 2 f_equal.
    rewrite Hj. destruct (Z.eqb_spec (Z.of_nat kj) (Z.of_nat k)); symmetry;
      [apply bool_decide_eq_true_2|apply bool_decide_eq_false_2]; [f_equal; lia|intros [= ->]; lia].
  - rewrite Z.eqb_refl in B. eexists NULL, _.
    split_and!; [by erewrite on_mem_ret by exact B|done|done].
Qed.

(** The index a step reports for a node. *)
Lemma report_index k q i :
  queues a !! k = Some q -> i ∈ q ->
  (t ← rd_last (naddr pool p i); mret (NODE_INDEX pool (hold tid p) (naddr pool p i), t)) w1 =
  Ret ((Z.of_nat i, age a i), w1) /\ (naddr pool p i =? NULL) = false.
Proof using P. intros E [q1 [q2 ->]]%list_elem_of_split. by eapply step_out. Qed.

(** when the element under a walker has been moved to another state, the next
    step resumes after the previous element, if that one is still in the state,
    and otherwise at the first element that is not older than the last one
    seen; the loop that searches for it ends. *)
Theorem walker_resumes fuel i k k' back last q :
  state_of a i = Some k' -> k' <> k -> queues a !! k = Some q ->
  (forall j, back = Some j -> Z.of_nat j < p_number p) -> (length q < fuel)%nat ->
  exists walker, sxe_pool_walker_step fuel
    (mk_pwalker (mk_walker (qaddr pool p k) (back_addr pool p k back) (naddr pool p i)) pool (Z.of_nat k) last) w =
  Ret ((match resume a k back last q with Some i => Z.of_nat i | None => SXE_POOL_NO_INDEX end, walker), w).
Proof using P A.
  intros Hs Hk E Hb Hf. unfold sxe_pool_walker_step. cbn [pw_pool pw_list_walker pw_state pw_last]. cbv zeta.
  step_by (lock_held others spin_max tid pool w p a P A). lock_taken.
  step_by (rd_impl_held tid pool w p).
  pose proof (find_moved i k k' q (back_addr pool p k back) Hs Hk E) as F.
  apply cmd_bind_inv in F as (node & w' & F1 & F2). step_by F1. step_by F2.
  destruct (back_stays back i k q E Hb) as (nb & lwb & B1 & B2 & B3).
  assert (G : exists lw, (
     '(node, lw) ← on_mem (sxe_list_walker_back (mk_walker (qaddr pool p k) (back_addr pool p k back) (naddr pool p i)));
     stays ← (if node =? NULL then mret false
              else i ← on_mem (SXE_LIST_NODE_GET_ID node); mret (i =? Z.of_nat k));
     if (stays : bool) then on_mem (sxe_list_walker_step lw)
     else rewalk fuel last (sxe_list_walker_construct (QUEUE_AT pool (hold tid p) (Z.of_nat k)))) w1 =
     Ret ((match resume a k back last q with Some i => naddr pool p i | None => NULL end, lw), w1) /\
     (forall x, resume a k back last q = Some x -> x ∈ q)).
  { step_by B1. step_by B2.
    replace (QUEUE_AT pool (hold tid p) (Z.of_nat k)) with (qaddr pool p k).
    2:{ rewrite <-(QUEUE_AT_qaddr pool p L) by (eapply queue_state; [apply (ip_queues _ _ _ _ P)|done]).
        unfold QUEUE_AT. by destruct (hold_fields tid p) as (_ & -> & _). }
    assert (Rw : exists lw, rewalk fuel last (sxe_list_walker_construct (qaddr pool p k)) w1 =
      Ret ((match List.find (fun i => last <=? age a i) q with Some i => naddr pool p i | None => NULL end, lw), w1))
      by (by apply (rewalk_run k q last [] (qaddr pool p k) fuel)).
    assert (Fi : forall x, List.find (fun i => last <=? age a i) q = Some x -> x ∈ q)
      by (intros x [? _]%find_some; by apply list_elem_of_In).
    destruct back as [j|]; cbn [resume]; [|destruct Rw as [lw Rw]; by exists lw].
    case_decide as Hj; [rewrite bool_decide_eq_true_2 by done|rewrite bool_decide_eq_false_2 by done;
      destruct Rw as [lw Rw]; by exists lw].
    rewrite (B3 j eq_refl). pose proof Hj as (q' & E' & [q1 [q2 ->]]%list_elem_of_split)%state_of_queue.
    assert (q = q1 ++ j :: q2) as -> by congruence.
    rewrite after_split.
    2:{ pose proof (qo_nodup _ _ _ _ (ip_queues _ _ _ _ P)) as ND.
        rewrite (concat_remove_perm _ _ _ _ _ E) in ND. apply NoDup_cons in ND as [Hn _].
        intros Hj1. apply Hn, concat_elem. exists k, (q1 ++ q2).
        rewrite list_lookup_insert_eq by by eapply lookup_lt_Some. split; [done|]. apply elem_of_app. by left. }
    pose proof (list_step w pool p a P k (q1 ++ [j]) q2 (qaddr pool p k)) as R.
    cbv zeta in R. rewrite final_fmap in R. specialize (R ltac:(by rewrite <-(assoc_L (++)))). rewrite R.
    destruct q2 as [|x q2]; simpl; eexists; (split; [done|]); [done|].
    intros ? [= <-]. rewrite elem_of_app. right. constructor. constructor. }
  destruct G as (lw & G & Hin). step_by G.
  destruct (resume a k back last q) as [x|].
  - destruct (report_index k q x E (Hin x eq_refl)) as [R Ez]. rewrite Ez. step_by R.
    step_by (unlock_held spin_max tid pool w p a P A). by eexists.
  - rewrite Z.eqb_refl. erewrite cmd_bind_ret by done.
    step_by (unlock_held spin_max tid pool w p a P A). by eexists.
Qed.
End Moved.
End Walker.

(** ** Timeouts *)
Section Timeouts.
Context `{Build} (others : Z -> world -> world) (spin_max tid : Z).
(** The static list of the pools with timeouts, and what calling the function at an
    address with a pool's array, an index and the caller's information does. *)
Context (sxe_pool_timeout_list : Z) (call : Z -> Z -> Z -> Z -> cmd world unit).

(** lib-sxe-pool/sxe-pool.c:348-376, sxe_pool_check_timeouts. The loop over the expired
    elements of one state; [false] when [fuel] turns are not enough. *)
Fixpoint check_state_timeouts (fuel : nat) (time_now pool state timeout index_last time_last : Z)
  : cmd world bool :=
  match fuel with
  | O => mret false
  | S fuel =>
      let array := SXE_POOL_IMPL_TO_ARRAY pool in
      index ← sxe_pool_get_oldest_element_index others spin_max tid array state;
      if SXE_POOL_NO_INDEX =? index then mret true
      else
        time ← sxe_pool_get_oldest_element_time others spin_max tid array state;
        lift (assert1 (negb (index_last =? index) || negb (time =? time_last)));;
        if u64 (time_now - time) <? timeout then mret true
        else
          p ← rd_impl pool;
          call (p_event_timeout p) array index (p_caller_info p);;
          check_state_timeouts fuel time_now pool state timeout index time
  end.

(** lib-sxe-pool/sxe-pool.c:340-377, sxe_pool_check_timeouts. The loop over the states of
    a pool, from [state] on; [n] bounds the number of states left. *)
Fixpoint check_pool_timeouts (fuel n : nat) (time_now pool state : Z) : cmd world bool :=
  p ← rd_impl pool;
  if negb (state <? p_states p) then mret true
  else
    match n with
    | O => mret false
    | S n =>
        timeout ← lift (load (p_state_timeouts p ≫= fun ts => rd ts state));
        if timeout =? 0 then check_pool_timeouts fuel n time_now pool (u32 (state + 1))
        else
          b ← check_state_timeouts fuel time_now pool state timeout SXE_POOL_NO_INDEX 0;
          if (b : bool) then check_pool_timeouts fuel n time_now pool (u32 (state + 1)) else mret false
    end.

(** lib-sxe-pool/sxe-pool.c:339-378, sxe_pool_check_timeouts. The loop over the pools. *)
Fixpoint check_pools (fuel n : nat) (time_now : Z) (walker : SXE_LIST_WALKER) : cmd world bool :=
  match n with
  | O => mret false
  | S n =>
      '(pool, walker) ← on_mem (sxe_list_walker_step walker);
      if pool =? NULL then mret true
      else
        b ← check_pool_timeouts fuel fuel time_now pool 0;
        if (b : bool) then check_pools fuel n time_now walker else mret false
  end.

(** lib-sxe-pool/sxe-pool.c:322-381, sxe_pool_check_timeouts. *)
Definition sxe_pool_check_timeouts (fuel : nat) : cmd world bool :=
  time_now ← sxe_time_get;
  check_pools fuel fuel time_now (sxe_list_walker_construct sxe_pool_timeout_list).

(** The elements of a queue that are left when the expired ones at its head are
    gone. *)
Fixpoint unexpired (a : pool_abs) (time_now timeout : Z) (q : list nat) : list nat :=
  match q with
  | [] => []
  | i :: q' => if u64 (time_now - age a i) <? timeout then q else unexpired a time_now timeout q'
  end.

Section OneState.
Variables (pool : Z) (k : nat) (time_now timeout : Z).
(** An invariant of the client. *)
Variable (Inv : pool_abs -> Prop).

(** A timed pool whose queue of state [k] is [q]. *)
Definition timed_pool (w : world) (a : pool_abs) (q : list nat) : Prop :=
  exists p, is_pool w pool p a /\ available spin_max p /\ timed p = true /\ queues a !! k = Some q /\ Inv a.

(** The contract of the callback: it moves the element it is given, the oldest of
    the state, to another state. *)
Hypothesis call_moves : forall w p a i q,
  is_pool w pool p a -> available spin_max p -> timed p = true -> queues a !! k = Some (i :: q) -> Inv a ->
  exists w' new t, new <> k /\ (new < length (queues a))%nat /\
    call (p_event_timeout p) (SXE_POOL_IMPL_TO_ARRAY pool) (Z.of_nat i) (p_caller_info p) w = Ret (tt, w') /\
    timed_pool w' (move i k new t a) q.

Lemma oldest_time w p a i q :
  is_pool w pool p a -> available spin_max p -> timed p = true -> queues a !! k = Some (i :: q) ->
  sxe_pool_get_oldest_element_time others spin_max tid (SXE_POOL_IMPL_TO_ARRAY pool) (Z.of_nat k) w
  = Ret (age a i, w).
Proof using.
  intros P A T E. unfold sxe_pool_get_oldest_element_time.
  rewrite (impl_of_array pool p (ip_layout _ _ _ _ P)). cbv zeta.
  step_by (assert_array w pool p a P w). step_by (rd_impl_pool pool w p a P). rewrite T.
  erewrite cmd_bind_ret by done.
  pose proof (oldest_stamp_step others spin_max tid pool w p a P A k (i :: q) E) as (t & Et & R).
  unfold age. by rewrite R, Et.
Qed.

Lemma unexpired_move i new t a q :
  i ∉ q -> (i < length (stamps a))%nat ->
  unexpired (move i k new t a) time_now timeout q = unexpired a time_now timeout q.
Proof using.
  intros Hi Hl. induction q as [|j q IH]; simpl; [done|].
  apply not_elem_of_cons in Hi as [Hj Hi]. rewrite age_move, decide_False by done. by rewrite IH.
Qed.

Lemma head_not_in_tail w p a i q :
  is_pool w pool p a -> queues a !! k = Some (i :: q) -> (i ∉ q) /\ (i < length (stamps a))%nat.
Proof using.
  intros P E. split.
  - pose proof (qo_nodup _ _ _ _ (ip_queues _ _ _ _ P)) as ND.
    rewrite (concat_remove_perm _ _ [] _ _ E) in ND. apply NoDup_cons in ND as [Hn _].
    intros Hi. apply Hn, concat_elem. exists k, q. split; [|done].
    apply list_lookup_insert_eq. by eapply lookup_lt_Some.
  - rewrite (ip_nstamps _ _ _ _ P).
    assert (Z.of_nat i < p_number p); [|lia].
    eapply qo_bound; [apply (ip_queues _ _ _ _ P)|]. apply concat_elem. exists k, (i :: q). split; [done|constructor].
Qed.

(** when the callback moves each expired element it is given to another state,
    checking a state's timeouts ends after one turn per expired element and one
    more: all expired elements at the head have been handed over, oldest first,
    the others stay, and the assertion that the callback made progress holds. *)
Theorem check_state_timeouts_spec q : forall w a index_last time_last fuel,
  timed_pool w a q -> (length q < fuel)%nat ->
  (forall i q', q = i :: q' -> index_last <> Z.of_nat i) ->
  exists w' a', check_state_timeouts fuel time_now pool (Z.of_nat k) timeout index_last time_last w = Ret (true, w') /\
    timed_pool w' a' (unexpired a time_now timeout q).
Proof using call_moves.
  induction q as [|i q IH]; intros w a index_last time_last [|fuel] (p & P & A & T & E & HI) Hf Hlast;
    simpl in Hf; try lia; cbn [check_state_timeouts]; cbv zeta;
    step_by (oldest_index_step others spin_max tid pool w p a P A k _ E).
  - rewrite Z.eqb_refl. exists w, a. split; [done|]. by exists p.
  - destruct (head_not_in_tail w p a i q P E) as [Hi Hl].
    destruct (Z.eqb_spec SXE_POOL_NO_INDEX (Z.of_nat i)) as [En|].
    { change SXE_POOL_NO_INDEX with 4294967295 in En. pose proof (lay_number _ _ (ip_layout _ _ _ _ P)).
      rewrite (ip_nstamps _ _ _ _ P) in Hl. lia. }
    step_by (oldest_time w p a i q P A T E).
    destruct (Z.eqb_spec index_last (Z.of_nat i)) as [Ei|]; [by edestruct Hlast|].
    erewrite cmd_bind_ret by done. simpl unexpired.
    destruct (u64 (time_now - age a i) <? timeout).
    + exists w, a. split; [done|]. by exists p.
    + step_by (rd_impl_pool pool w p a P).
      destruct (call_moves w p a i q P A T E HI) as (w1 & new & t & Hnew & Hln & R & TP). step_by R.
      destruct (IH w1 (move i k new t a) (Z.of_nat i) (age a i) fuel TP) as (w2 & a2 & R2 & TP2); [lia| |].
      { intros j q' -> Ej. apply Hi. assert (i = j) as -> by lia. constructor. }
      exists w2, a2. split; [done|]. by rewrite unexpired_move in TP2.
Qed.
End OneState.
End Timeouts.

(** ** Witnesses *)
Lemma pool_walk_all_witness : exists w,
  (walker ← sxe_pool_walker_construct 1144 (Z.of_nat 0);
   pool_walk idle_others 10 7 4 4 walker) w = Ret ([2; 1; 0], w).
Proof.
  destruct example_pool as (w & p & I & El & _). pose proof (im_timed _ _ _ _ _ I) as T.
  exists w. apply (pool_walk_all idle_others 10 7 w 1000 p (sp_abs example_spec) 0 [2; 1; 0]%nat).
  - apply (im_pool _ _ _ _ _ I).
  - apply (im_available _ _ _ _ _ I).
  - rewrite T. by destruct (locked p).
  - reflexivity.
Defined.

(** The walker stood on element 2, the first one, which was moved to state 1. *)
Lemma walker_resumes_witness : exists w p walker,
  sxe_pool_walker_step idle_others 10 7 4
    (mk_pwalker (mk_walker (qaddr 1000 p 0) (qaddr 1000 p 0) (naddr 1000 p 2)) 1000 0 1) w = Ret ((1, walker), w).
Proof.
  destruct example_pool as (w0 & p0 & I0 & _).
  destruct (step_refines (H := true) idle_others 10 7 1000 w0 p0 example_spec (SetOldest 0 1) I0 eq_refl) as (w & p & _ & I).
  exists w, p.
  destruct (walker_resumes idle_others 10 7 w 1000 p (sp_abs (spec_move 2 0 1 example_spec))
    (im_pool _ _ _ _ _ I) (im_available _ _ _ _ _ I) 4 2 0 1 None 1 [1; 0]%nat) as (walker & R).
  - reflexivity.
  - discriminate.
  - reflexivity.
  - discriminate.
  - simpl. lia.
  - exists walker. exact R.
Defined.

(** A callback that moves the element from state 0 to state 1. *)
Definition to_state_1 (f array i info : Z) : cmd world unit :=
  sxe_pool_set_indexed_element_state (H := true) idle_others 10 7 array i 0 1;; mret tt.

Definition two_states (a : pool_abs) : Prop := length (queues a) = 2%nat.

Lemma to_state_1_moves w p a i q :
  is_pool w 1000 p a -> available 10 p -> timed p = true -> queues a !! 0%nat = Some (i :: q) -> two_states a ->
  exists w' new t, new <> 0%nat /\ (new < length (queues a))%nat /\
    to_state_1 (p_event_timeout p) 1144 (Z.of_nat i) (p_caller_info p) w = Ret (tt, w') /\
    timed_pool 10 1000 0 two_states w' (move i 0 new t a) q.
Proof.
  intros P A T E HI. destruct (head_not_in_tail 1000 0 w p a i q P E) as [Hi Hl].
  destruct (set_state_step (H := true) idle_others 10 7 1000 w p a P A i 0 1) as (w' & R & P' & _).
  { eapply queue_state_of; [exact P|exact E|constructor]. }
  { rewrite HI. lia. }
  exists w', 1%nat, (stamp w p). split_and!; [done|rewrite HI; lia| |].
  - unfold to_state_1. change 1144 with (SXE_POOL_IMPL_TO_ARRAY 1000). by step_by R.
  - exists (bump p). unfold bump in *. rewrite T in *. split_and!; [done..| |].
    + unfold move. destruct a as [qs ts]. unfold two_states in HI. simpl in *.
      destruct qs as [|q0 [|q1 [|]]]; simpl in *; try done. injection E as [= ->]. simpl.
      rewrite filter_cons_False, filter_all; [done| |auto]. by intros x Hx ->.
    + unfold two_states, move. simpl. by rewrite !length_alter.
Qed.

Lemma check_state_timeouts_spec_witness : exists w w' a',
  check_state_timeouts (H := true) idle_others 10 7 to_state_1 4 100 1000 (Z.of_nat 0) 50 SXE_POOL_NO_INDEX 0 w = Ret (true, w') /\
  timed_pool 10 1000 0 two_states w' a' [].
Proof.
  destruct (construct_run 10 0 raw_world 1000 [112] 3 8 2 2 raw_impl raw_world_block) as (w & p & _ & I); [lia|].
  exists w.
  destruct (check_state_timeouts_spec (H := true) idle_others 10 7 to_state_1 1000 0 100 50 two_states to_state_1_moves
    [2; 1; 0]%nat w (new_pool 3 2 true 5) SXE_POOL_NO_INDEX 0 4) as (w' & a' & R & TP).
  - exists p. split_and!; [apply (im_pool _ _ _ _ _ I)|apply (im_available _ _ _ _ _ I)|apply (im_timed _ _ _ _ _ I)|reflexivity..].
  - simpl. lia.
  - intros i q' [= <- _]. discriminate.
  - exists w', a'. split; [exact R|exact TP].
Defined.
