(* ===== verification/Hex.v ===== *)
(** * Hex: hexadecimal conversions (lib-sxe-util/sxe-hex.c and its clients)

    Character memory is a list of bytes; an access outside it is a fault. The
    conversions are related to [parse_hex] and [print_hex], the functional
    reading and writing of pairs of digits. *)

From S2P Require Import Prelude.

(** lib-sxe-util/sxe-hex.c:27-27, NA. *)
Definition NA : Z := 255.

(** lib-sxe-util/sxe-hex.c:29-46, hex_character_to_nibble. *)
Definition hex_character_to_nibble : list Z :=
  replicate 48 NA ++ [0; 1; 2; 3; 4; 5; 6; 7; 8; 9] ++ replicate 6 NA ++
  [NA; 10; 11; 12; 13; 14; 15] ++ replicate 9 NA ++ replicate 16 NA ++
  [NA; 10; 11; 12; 13; 14; 15] ++ replicate 9 NA ++ replicate 144 NA.

(** lib-sxe-util/sxe-hex.c:48-48, hex_nibble_to_character. *)
Definition hex_nibble_to_character : list Z :=
  [48; 49; 50; 51; 52; 53; 54; 55; 56; 57; 97; 98; 99; 100; 101; 102; 0].

(** The value of the digit [c], or [NA]. *)
Definition to_nibble (c : Z) : outcome Z := load (rd hex_character_to_nibble (u8 c)).

(** ** Unsigned integers *)

(** lib-sxe-util/sxe-hex.c:59-66, sxe_valid_hex_to_unsigned. The loop, with [n] digits to go
    at most; the result is the value, or nothing at an unexpected character. *)
Fixpoint hex_digits (hex : list Z) (n : nat) (i val : Z) : outcome (option Z) :=
  match n with
  | O => Ret (Some val)
  | S n =>
      c ← load (rd hex i);
      if c =? 0 then Ret (Some val)
      else
        d ← to_nibble c;
        if d =? NA then Ret None
        else hex_digits hex n (u32 (i + 1)) (Z.lor (u32 (Z.shiftl val 4)) d)
  end.

(** lib-sxe-util/sxe-hex.c:50-74, sxe_valid_hex_to_unsigned. The result, and the value
    stored through the pointer if any. *)
Definition sxe_valid_hex_to_unsigned (hex : list Z) (hex_length_maximum : Z) : outcome (SXE_RETURN * option Z) :=
  v ← hex_digits hex (Z.to_nat hex_length_maximum) 0 0;
  mret (match v with
        | Some val => (SXE_RETURN_OK, Some val)
        | None => (SXE_RETURN_ERROR_INTERNAL, None)
        end).

(** lib-sxe-util/sxe-hex.c:76-97, sxe_hex_to_unsigned. *)
Definition sxe_hex_to_unsigned (hex : list Z) (hex_length_maximum : Z) : outcome Z :=
  v ← hex_digits hex (Z.to_nat hex_length_maximum) 0 0;
  mret (match v with Some val => val | None => SXE_UNSIGNED_MAXIMUM end).

(** ** Bytes *)

(** lib-sxe-util/sxe-hex.c:111-120, sxe_hex_to_bytes. The loop. *)
Fixpoint hex_to_bytes_loop (fuel : nat) (hex : list Z) (hex_length i : Z) (bytes : list Z)
  : outcome (SXE_RETURN * list Z) :=
  match fuel with
  | O => Fault
  | S fuel =>
      if negb (i <? hex_length) then Ret (SXE_RETURN_OK, bytes)
      else
        nibble_high ← c ← load (rd hex i); to_nibble c;
        if nibble_high =? NA then Ret (SXE_RETURN_ERROR_INTERNAL, bytes)
        else
          let i := u32 (i + 1) in
          nibble_low ← c ← load (rd hex i); to_nibble c;
          if nibble_low =? NA then Ret (SXE_RETURN_ERROR_INTERNAL, bytes)
          else
            bytes ← wr bytes (u32 (i - 1) / 2) (u8 (Z.lor (u32 (Z.shiftl nibble_high 4)) nibble_low));
            hex_to_bytes_loop fuel hex hex_length (u32 (i + 1)) bytes
  end.

(** lib-sxe-util/sxe-hex.c:99-127, sxe_hex_to_bytes. The result and the bytes. *)
Definition sxe_hex_to_bytes (bytes hex : list Z) (hex_length : Z) : outcome (SXE_RETURN * list Z) :=
  assert1 (hex_length mod 1 =? 0);;
  hex_to_bytes_loop (S (Z.to_nat hex_length)) hex hex_length 0 bytes.

(** lib-sxe-util/sxe-hex.c:134-137, sxe_hex_from_bytes. The loop, with [n] bytes to go. *)
Fixpoint hex_from_bytes_loop (n : nat) (bytes : list Z) (i : Z) (hex : list Z) : outcome (list Z) :=
  match n with
  | O => Ret hex
  | S n =>
      b ← load (rd bytes i);
      h ← load (rd hex_nibble_to_character (Z.shiftr b 4));
      hex ← wr hex (u32 (u32 (2 * i) + 0)) h;
      b ← load (rd bytes i);
      l ← load (rd hex_nibble_to_character (Z.land b 15));
      hex ← wr hex (u32 (u32 (2 * i) + 1)) l;
      hex_from_bytes_loop n bytes (u32 (i + 1)) hex
  end.

(** lib-sxe-util/sxe-hex.c:129-140, sxe_hex_from_bytes. *)
Definition sxe_hex_from_bytes (hex bytes : list Z) (size : Z) : outcome (list Z) :=
  hex_from_bytes_loop (Z.to_nat size) bytes 0 hex.

(** ** Reference functions *)
Definition nibble (c : Z) : option Z :=
  match rd hex_character_to_nibble (u8 c) with
  | Some d => if d =? NA then None else Some d
  | None => None
  end.

Definition digit (d : Z) : Z := default 0 (rd hex_nibble_to_character d).

Definition lower (c : Z) : Z := if (65 <=? c) && (c <=? 70) then c + 32 else c.

Fixpoint parse_hex (hex : list Z) : option (list Z) :=
  match hex with
  | h :: l :: hex' =>
      match nibble h, nibble l, parse_hex hex' with
      | Some dh, Some dl, Some bs => Some (16 * dh + dl :: bs)
      | _, _, _ => None
      end
  | [] => Some []
  | [_] => None
  end.

Definition print_hex (bs : list Z) : list Z := bs ≫= fun b => [digit (b / 16); digit (b mod 16)].

(** The value of a string of digits, most significant first. *)
Fixpoint digits_value (acc : Z) (hex : list Z) : option Z :=
  match hex with
  | [] => Some acc
  | c :: hex' => d ← nibble c; digits_value (16 * acc + d) hex'
  end.

(** A check of all bytes is a proof for all bytes. *)
Lemma all_bytes (P : Z -> bool) : forallb P (seqZ 0 256) = true -> forall c, is_u8 c -> P c = true.
Proof.
  intros H c Hc. rewrite forallb_forall in H. apply H, list_elem_of_In, elem_of_seqZ. unfold is_u8 in Hc. lia.
Qed.

Definition is_nibble (d : Z) : bool := (0 <=? d) && (d <? 16).

Lemma to_nibble_spec c :
  is_u8 c -> to_nibble c = Ret (default NA (nibble c)) /\ (forall d, nibble c = Some d -> 0 <= d < 16).
Proof.
  intros Hc.
  pose (P := fun c => match rd hex_character_to_nibble (u8 c) with
    | Some d => (d =? NA) || is_nibble d | None => false end).
  assert (H : P c = true) by (apply all_bytes; [vm_compute; reflexivity|done]).
  unfold P, to_nibble, nibble in *. clear P. destruct (rd _ _) as [d|]; [|done]. simpl.
  destruct (d =? NA) eqn:E; simpl in *; [split; [f_equal; lia|done]|]. split; [done|].
  intros d' [= <-]. unfold is_nibble in H. lia.
Qed.

Lemma nibble_digit d : 0 <= d < 16 -> nibble (digit d) = Some d.
Proof.
  intros Hd. pose (P := fun d => negb (is_nibble d) || bool_decide (nibble (digit d) = Some d)).
  assert (H : P d = true) by (apply all_bytes; [vm_compute; reflexivity|unfold is_u8; lia]).
  unfold P, is_nibble in H. apply orb_true_iff in H as [H|H]; [lia|by apply bool_decide_eq_true in H].
Qed.

Lemma digit_nibble c d : is_u8 c -> nibble c = Some d -> digit d = lower c.
Proof.
  intros Hc. pose (P := fun c => match nibble c with Some d => digit d =? lower c | None => true end).
  assert (H : P c = true) by (apply all_bytes; [vm_compute; reflexivity|done]).
  unfold P in H. intros E. rewrite E in H. lia.
Qed.

Lemma digit_not_na d : 0 <= d < 16 -> (d =? NA) = false.
Proof. unfold NA. lia. Qed.

Lemma lor_nibbles h l : 0 <= h < 16 -> 0 <= l < 16 -> u8 (Z.lor (u32 (Z.shiftl h 4)) l) = 16 * h + l.
Proof.
  intros Hh Hl.
  rewrite u32_small by (rewrite Z.shiftl_mul_pow2 by lia; unfold is_u32; lia).
  rewrite lor_shift by lia. unfold u8. rewrite Z.mod_small; lia.
Qed.

(** ** Correctness *)
(** The loop of sxe_hex_to_bytes, when [pre] has been converted to [acc]: it
    converts the pairs [hex] or stops at the first that is not one. *)
Lemma hex_to_bytes_run hex : forall pre acc rest tail fuel,
  bytes_ok hex -> (exists n, length hex = 2 * n)%nat -> (length hex <= 2 * length rest)%nat ->
  zlen pre = 2 * zlen acc -> zlen pre + zlen hex < 4294967296 -> (length hex < fuel)%nat ->
  exists out, hex_to_bytes_loop fuel (pre ++ hex ++ tail) (zlen pre + zlen hex) (zlen pre) (acc ++ rest) =
    Ret (match parse_hex hex with Some _ => SXE_RETURN_OK | None => SXE_RETURN_ERROR_INTERNAL end, out) /\
    length out = length (acc ++ rest) /\
    forall bs, parse_hex hex = Some bs -> out = acc ++ bs ++ drop (length bs) rest.
Proof.
  induction hex as [|h|h l hex IH] using list_ind2; intros pre acc rest tail [|fuel] Hb Hm Hr Hp Hlt Hf;
    simpl in Hf; try lia; cbn [hex_to_bytes_loop parse_hex].
  - change (zlen []) with 0. replace (zlen pre <? zlen pre + 0) with false by lia. simpl.
    exists (acc ++ rest). split_and!; [done..|]. by intros ? [= <-].
  - destruct Hm as [n Hm]. simpl in Hm. lia.
  - rewrite !zlen_cons in *. pose proof (zlen_nonneg hex). pose proof (zlen_nonneg pre). pose proof (zlen_nonneg acc).
    replace (zlen pre <? zlen pre + (1 + (1 + zlen hex))) with true by lia. simpl negb. cbv iota.
    apply Forall_cons in Hb as [Hh [Hl Hb]%Forall_cons].
    destruct (to_nibble_spec h Hh) as [Eh Rh]. destruct (to_nibble_spec l Hl) as [El Rl].
    simpl app. rewrite (rd_at pre h _ (zlen pre)) by done. simpl. rewrite Eh.
    destruct (nibble h) as [dh|]; simpl.
    2:{ exists (acc ++ rest). split_and!; [done..|]. discriminate. }
    rewrite (digit_not_na dh) by auto.
    rewrite rd_at2 by word_lia. simpl. rewrite El.
    destruct (nibble l) as [dl|]; simpl.
    2:{ exists (acc ++ rest). split_and!; [done..|]. discriminate. }
    rewrite (digit_not_na dl) by auto. specialize (Rh dh eq_refl). specialize (Rl dl eq_refl).
    destruct rest as [|r rest]; [simpl in Hr; lia|].
    rewrite wr_at by (rewrite Hp in *; word_lia). simpl. rewrite lor_nibbles by done.
    destruct (IH (pre ++ [h; l]) (acc ++ [16 * dh + dl]) rest tail fuel) as (out & R & Lo & Ho); try done.
    + destruct Hm as [n Hm]. simpl in Hm. exists (n - 1)%nat. lia.
    + simpl in Hr. lia.
    + rewrite !zlen_app, !zlen_cons. change (zlen []) with 0. lia.
    + rewrite !zlen_app, !zlen_cons. change (zlen []) with 0. lia.
    + lia.
    + exists out. split_and!.
      * rewrite <-!(assoc_L (++)) in R. simpl in R. rewrite zlen_app, !zlen_cons in R. change (zlen []) with 0 in R.
        replace (u32 (u32 (zlen pre + 1) + 1)) with (zlen pre + (1 + (1 + 0))) by word_lia.
        replace (zlen pre + (1 + (1 + zlen hex))) with (zlen pre + (1 + (1 + 0)) + zlen hex) by lia.
        rewrite R. by destruct (parse_hex hex).
      * rewrite Lo, !length_app. simpl. lia.
      * intros bs Eb. destruct (parse_hex hex) as [bs'|]; [|done]. injection Eb as [= <-].
        rewrite (Ho bs' eq_refl), <-!(assoc_L (++)). done.
Qed.

(** The conversion of a whole string of [hex] digits, whatever follows it. *)
Lemma hex_to_bytes_whole bytes hex tail :
  bytes_ok hex -> (exists n, length hex = 2 * n)%nat -> (length hex <= 2 * length bytes)%nat ->
  is_u32 (zlen hex) ->
  exists out, sxe_hex_to_bytes bytes (hex ++ tail) (zlen hex) =
    Ret (match parse_hex hex with Some _ => SXE_RETURN_OK | None => SXE_RETURN_ERROR_INTERNAL end, out) /\
    length out = length bytes /\
    forall bs, parse_hex hex = Some bs -> out = bs ++ drop (length bs) bytes.
Proof.
  intros Hb He Hl Hu. unfold sxe_hex_to_bytes. rewrite Z.mod_1_r.
  change (assert1 (0 =? 0)) with (Ret tt). unfold mbind at 1, outcome_bind at 1.
  apply (hex_to_bytes_run hex [] [] bytes tail); try done; unfold is_u32, zlen in *; simpl; lia.
Qed.

Lemma print_hex_cons b bs : print_hex (b :: bs) = digit (b / 16) :: digit (b mod 16) :: print_hex bs.
Proof. done. Qed.

Lemma length_print_hex bs : length (print_hex bs) = (2 * length bs)%nat.
Proof. induction bs as [|b bs IH]; simpl; [done|]. unfold print_hex in *. simpl. rewrite IH. lia. Qed.

Lemma digit_u8 d : 0 <= d < 16 -> rd hex_nibble_to_character d = Some (digit d) /\ is_u8 (digit d).
Proof.
  intros Hd. pose (P := fun d => negb (is_nibble d) ||
    match rd hex_nibble_to_character d with Some c => (digit d =? c) && (0 <=? c) && (c <? 256) | None => false end).
  assert (H : P d = true) by (apply all_bytes; [vm_compute; reflexivity|unfold is_u8; lia]).
  unfold P, is_nibble in H. clear P. destruct (rd hex_nibble_to_character d) as [c|]; [|lia].
  assert (digit d = c) as -> by lia. unfold is_u8. split; [done|lia].
Qed.

Lemma print_hex_ok bs : bytes_ok bs -> bytes_ok (print_hex bs).
Proof.
  induction 1 as [|b bs Hb _ IH]; [constructor|]. unfold is_u8 in Hb.
  constructor; [|constructor; [|exact IH]]; apply digit_u8; Z.to_euclidean_division_equations; lia.
Qed.

Lemma hex_from_bytes_run bs : forall pre acc rest tail,
  bytes_ok bs -> (2 * length bs <= length rest)%nat -> zlen acc = 2 * zlen pre ->
  zlen pre + zlen bs < 2147483648 ->
  hex_from_bytes_loop (length bs) (pre ++ bs ++ tail) (zlen pre) (acc ++ rest) =
  Ret (acc ++ print_hex bs ++ drop (2 * length bs) rest).
Proof.
  induction bs as [|b bs IH]; intros pre acc rest tail Hb Hr Hp Hl; cbn [hex_from_bytes_loop length]; [done|].
  apply Forall_cons in Hb as [Hb Hbs]. unfold is_u8 in Hb. rewrite zlen_cons in Hl.
  pose proof (zlen_nonneg pre). pose proof (zlen_nonneg bs).
  destruct rest as [|r1 [|r2 rest]]; simpl in Hr; try lia.
  replace (drop (2 * S (length bs)) (r1 :: r2 :: rest)) with (drop (2 * length bs) rest)
    by by replace (2 * S (length bs))%nat with (S (S (2 * length bs))) by lia.
  simpl app. rewrite (rd_at pre b _ (zlen pre)) by done. simpl.
  rewrite Z.shiftr_div_pow2 by lia. change (2 ^ 4) with 16. change 15 with (Z.ones 4).
  rewrite Z.land_ones by lia. change (2 ^ 4) with 16.
  destruct (digit_u8 (b / 16)) as [-> _]; [Z.to_euclidean_division_equations; lia|].
  destruct (digit_u8 (b mod 16)) as [-> _]; [Z.to_euclidean_division_equations; lia|]. simpl.
  rewrite (wr_at acc) by word_lia. simpl.
  replace (acc ++ digit (b / 16) :: r2 :: rest) with ((acc ++ [digit (b / 16)]) ++ r2 :: rest) by by rewrite <-(assoc_L (++)).
  rewrite wr_at by (rewrite zlen_app, zlen_cons; change (zlen []) with 0; word_lia). simpl.
  replace (u32 (zlen pre + 1)) with (zlen (pre ++ [b])) by (rewrite zlen_app, zlen_cons; change (zlen []) with 0; word_lia).
  replace (pre ++ b :: bs ++ tail) with ((pre ++ [b]) ++ bs ++ tail) by by rewrite <-!(assoc_L (++)).
  replace ((acc ++ [digit (b / 16)]) ++ digit (b mod 16) :: rest) with
    ((acc ++ [digit (b / 16); digit (b mod 16)]) ++ rest) by by rewrite <-!(assoc_L (++)).
  rewrite IH; try done; try lia; rewrite ?zlen_app, ?zlen_cons; change (zlen []) with 0; try lia.
  rewrite <-!(assoc_L (++)). done.
Qed.

Lemma hex_from_bytes_whole hex bs tail :
  bytes_ok bs -> (2 * length bs <= length hex)%nat -> zlen bs < 2147483648 ->
  sxe_hex_from_bytes hex (bs ++ tail) (zlen bs) = Ret (print_hex bs ++ drop (2 * length bs) hex).
Proof.
  intros Hb Hl Hs. unfold sxe_hex_from_bytes, zlen. rewrite Nat2Z.id.
  apply (hex_from_bytes_run bs [] [] hex tail); unfold zlen in *; try done; simpl; lia.
Qed.

Lemma parse_print_hex bs : bytes_ok bs -> parse_hex (print_hex bs) = Some bs.
Proof.
  induction 1 as [|b bs Hb _ IH]; [done|]. unfold is_u8 in Hb. rewrite print_hex_cons. cbn [parse_hex].
  rewrite !nibble_digit, IH by (Z.to_euclidean_division_equations; lia). do 2 f_equal. Z.to_euclidean_division_equations; lia.
Qed.

Lemma print_parse_hex hex bs : bytes_ok hex -> parse_hex hex = Some bs -> print_hex bs = lower <$> hex /\ bytes_ok bs.
Proof.
  revert bs. induction hex as [|h|h l hex IH] using list_ind2; intros bs; simpl; try done.
  - intros _ [= <-]. split; [done|constructor].
  - intros [Hh [Hl Hb]%Forall_cons]%Forall_cons.
    destruct (nibble h) as [dh|] eqn:Eh; [|done]. destruct (nibble l) as [dl|] eqn:El; [|done].
    destruct (parse_hex hex) as [bs'|]; [|done]. intros [= <-]. destruct (IH bs' Hb eq_refl) as [E Hok].
    destruct (to_nibble_spec h Hh) as [_ Rh]. destruct (to_nibble_spec l Hl) as [_ Rl].
    specialize (Rh dh Eh). specialize (Rl dl El).
    rewrite print_hex_cons. replace ((16 * dh + dl) / 16) with dh by (Z.to_euclidean_division_equations; lia).
    replace ((16 * dh + dl) mod 16) with dl by (Z.to_euclidean_division_equations; lia).
    rewrite (digit_nibble h dh), (digit_nibble l dl) by done. split; [by f_equal; f_equal|].
    constructor; [unfold is_u8; lia|done].
Qed.

(** Writing bytes in hexadecimal and reading them back gives the same bytes;
    the rest of both buffers is left alone. *)
Theorem hex_bytes_roundtrip bs hexbuf bytes tail :
  bytes_ok bs -> zlen bs < 2147483648 -> (2 * length bs <= length hexbuf)%nat -> (length bs <= length bytes)%nat ->
  exists hex, sxe_hex_from_bytes hexbuf (bs ++ tail) (zlen bs) = Ret hex /\
    drop (2 * length bs) hex = drop (2 * length bs) hexbuf /\
    sxe_hex_to_bytes bytes hex (2 * zlen bs) = Ret (SXE_RETURN_OK, bs ++ drop (length bs) bytes).
Proof.
  intros Hb Hs Hh Hl. rewrite hex_from_bytes_whole by done. eexists. split; [done|].
  pose proof (length_print_hex bs) as Lp. split.
  - by rewrite <-Lp, drop_app_length.
  - replace (2 * zlen bs) with (zlen (print_hex bs)) by (unfold zlen; lia).
    destruct (hex_to_bytes_whole bytes (print_hex bs) (drop (2 * length bs) hexbuf)) as (out & R & _ & Ho).
    + by apply print_hex_ok.
    + by exists (length bs).
    + lia.
    + unfold is_u32, zlen in *. lia.
    + rewrite R, parse_print_hex by done. by rewrite (Ho bs) by (by apply parse_print_hex).
Qed.

(** Reading an even number of characters as hexadecimal succeeds exactly when
    all of them are digits; it never reads or writes out of bounds; and the bytes
    read, written in hexadecimal, are the characters in lower case. *)
Theorem sxe_hex_to_bytes_spec bytes hex tail :
  bytes_ok hex -> (exists n, length hex = 2 * n)%nat -> (length hex <= 2 * length bytes)%nat -> is_u32 (zlen hex) ->
  exists r out, sxe_hex_to_bytes bytes (hex ++ tail) (zlen hex) = Ret (r, out) /\ length out = length bytes /\
    (r = SXE_RETURN_OK <-> Forall (fun c => is_Some (nibble c)) hex) /\
    (r = SXE_RETURN_OK -> exists bs, out = bs ++ drop (length bs) bytes /\ print_hex bs = lower <$> hex).
Proof.
  intros Hb He Hl Hu. destruct (hex_to_bytes_whole bytes hex tail Hb He Hl Hu) as (out & R & Lo & Ho).
  do 2 eexists. split; [exact R|]. split; [done|].
  assert (G : is_Some (parse_hex hex) <-> Forall (fun c => is_Some (nibble c)) hex).
  { clear - He. induction hex as [|h|h l hex IH] using list_ind2; simpl.
    - split; [constructor|]. by exists [].
    - destruct He as [n He]. simpl in He. lia.
    - destruct He as [n He]. simpl in He. rewrite !Forall_cons, <-IH by (exists (n - 1)%nat; lia).
      destruct (nibble h) as [dh|]; [|split; [by intros [? ?]|by intros [[? ?] _]]].
      destruct (nibble l) as [dl|]; [|split; [by intros [? ?]|by intros (_ & [? ?] & _)]].
      destruct (parse_hex hex) as [bs|]; [|split; [by intros [? ?]|by intros (_ & _ & [? ?])]]. split; eauto. }
  rewrite <-G. destruct (parse_hex hex) as [bs|] eqn:E; simpl.
  - split; [split; eauto|]. intros _. exists bs. split; [by apply Ho|]. by eapply print_parse_hex.
  - split; [|done]. split; [done|]. by intros [? ?].
Qed.

(** ** Digests in hexadecimal *)

(** Standard library snprintf with the format %08x and room for 9 characters. *)
Definition printed_08x (v : Z) : list Z :=
  map (fun k => digit (Z.land (Z.shiftr v (4 * k)) 15)) [7; 6; 5; 4; 3; 2; 1; 0].
Definition snprintf_08x (buffer : list Z) (at_ v : Z) : outcome (list Z) := wr_bytes buffer at_ (printed_08x v ++ [0]).

(** lib-sha1/sha1.h:9-9, SHA1_IN_HEX_LENGTH. *)
Definition SHA1_IN_HEX_LENGTH : Z := 20 * 2.
(** lib-md5/md5.h:10-10, MD5_IN_HEX_LENGTH. *)
Definition MD5_IN_HEX_LENGTH : Z := 16 * 2.

(** lib-sha1/sha1-from-hex.c:27-36, sha1_from_hex. The digest is its 20 bytes of memory. *)
Definition sha1_from_hex (sha1 sha1_in_hex : list Z) : outcome (SXE_RETURN * list Z) :=
  sxe_hex_to_bytes sha1 sha1_in_hex SHA1_IN_HEX_LENGTH.

(** lib-sha1/sha1-from-hex.c:38-57, sha1_to_hex. *)
Definition sha1_to_hex (sha1 sha1_in_hex : list Z) (sha1_in_hex_length : Z) : outcome (SXE_RETURN * list Z) :=
  assert1 (sha1_in_hex_length =? SHA1_IN_HEX_LENGTH + 1);;
  w ← ld32 sha1 0; h ← snprintf_08x sha1_in_hex 0 (bswap32 w);
  w ← ld32 sha1 4; h ← snprintf_08x h 8 (bswap32 w);
  w ← ld32 sha1 8; h ← snprintf_08x h 16 (bswap32 w);
  w ← ld32 sha1 12; h ← snprintf_08x h 24 (bswap32 w);
  w ← ld32 sha1 16; h ← snprintf_08x h 32 (bswap32 w);
  mret (SXE_RETURN_OK, h).

(** lib-md5/md5-from-hex.c:40-58, md5_to_hex. *)
Definition md5_to_hex (md5 md5_in_hex : list Z) (md5_in_hex_length : Z) : outcome (SXE_RETURN * list Z) :=
  assert1 (md5_in_hex_length =? MD5_IN_HEX_LENGTH + 1);;
  w ← ld32 md5 0; h ← snprintf_08x md5_in_hex 0 (bswap32 w);
  w ← ld32 md5 4; h ← snprintf_08x h 8 (bswap32 w);
  w ← ld32 md5 8; h ← snprintf_08x h 16 (bswap32 w);
  w ← ld32 md5 12; h ← snprintf_08x h 24 (bswap32 w);
  mret (SXE_RETURN_OK, h).

Lemma printed_bytes b0 b1 b2 b3 :
  is_u8 b0 -> is_u8 b1 -> is_u8 b2 -> is_u8 b3 ->
  printed_08x (bswap32 (le32 b0 b1 b2 b3)) = print_hex [b0; b1; b2; b3].
Proof.
  intros H0 H1 H2 H3. rewrite bswap32_le32 by done. unfold is_u8 in *.
  assert (E : forall k, 0 <= k -> Z.land (Z.shiftr (le32 b3 b2 b1 b0) k) 15 = (le32 b3 b2 b1 b0) / 2 ^ k mod 16).
  { intros k Hk. change 15 with (Z.ones 4). by rewrite Z.land_ones, Z.shiftr_div_pow2. }
  unfold printed_08x. cbn [map]. rewrite !E by lia. unfold le32. rewrite !print_hex_cons.
  eval_pow2.
  repeat match goal with |- digit ?a :: _ = digit ?b :: _ =>
    replace a with b by (Z.to_euclidean_division_equations; lia); f_equal end.
Qed.

Lemma print_hex_app bs cs : print_hex (bs ++ cs) = print_hex bs ++ print_hex cs.
Proof. induction bs as [|b bs IH]; [done|]. rewrite <-app_comm_cons, !print_hex_cons, IH. done. Qed.

(** Printing the word at [pre] of a digest: the digits follow those of [pre]. *)
Lemma print_word pre b0 b1 b2 b3 post buf :
  is_u8 b0 -> is_u8 b1 -> is_u8 b2 -> is_u8 b3 -> (9 <= length buf)%nat ->
  exists w, ld32 (pre ++ b0 :: b1 :: b2 :: b3 :: post) (zlen pre) = Ret w /\
    snprintf_08x (print_hex pre ++ buf) (2 * zlen pre) (bswap32 w) =
    Ret (print_hex (pre ++ [b0; b1; b2; b3]) ++ 0 :: drop 9 buf).
Proof.
  intros H0 H1 H2 H3 Hl. rewrite ld32_at by done. eexists. split; [done|].
  unfold snprintf_08x. rewrite printed_bytes by done.
  rewrite <-(take_drop 9 buf) at 1.
  rewrite wr_bytes_at; [by rewrite print_hex_app, <-!(assoc_L (++))| |].
  - unfold zlen. rewrite length_print_hex. lia.
  - rewrite length_take, length_app, length_print_hex. cbn [length]. lia.
Qed.

Ltac bytes_of_list :=
  repeat match goal with
  | H : Forall is_u8 (_ :: _) |- _ => apply Forall_cons in H as [? H]
  end.

(** Print the word at offset [n] of the digest, when [buf] is left of the buffer. *)
Ltac print_at n buf :=
  match goal with
  | |- context [ld32 ?m ?i] =>
      let pre := eval cbn [take] in (take n m) in
      let post := eval cbn [drop] in (drop n m) in
      match post with
      | ?b0 :: ?b1 :: ?b2 :: ?b3 :: ?rest =>
          let w := fresh "w" in let E1 := fresh "E" in let E2 := fresh "E" in
          destruct (print_word pre b0 b1 b2 b3 rest buf) as (w & E1 & E2);
            [assumption..|cbn [length]; rewrite ?length_drop; cbn [length]; rewrite ?length_drop; lia|];
            replace (ld32 m i) with (Ret w) by (symmetry; exact E1);
            cbn [mbind outcome_bind];
            match goal with
            | |- context [snprintf_08x ?h ?j (bswap32 w)] =>
                match type of E2 with _ = ?r => replace (snprintf_08x h j (bswap32 w)) with r by (symmetry; exact E2) end
            end;
            cbn [mbind outcome_bind app drop]; clear w E1 E2
      end
  end.

Ltac start_digest Hb :=
  unfold bytes_ok in Hb; bytes_of_list; rewrite Z.eqb_refl;
  change (assert1 true) with (Ret tt); cbn [mbind outcome_bind].

(** A digest of twenty bytes and room for its digits. *)
Lemma sha1_to_hex_run bs buf :
  length bs = 20%nat -> bytes_ok bs -> length buf = 41%nat ->
  sha1_to_hex bs buf (SHA1_IN_HEX_LENGTH + 1) = Ret (SXE_RETURN_OK, print_hex bs ++ [0]).
Proof.
  intros Hl Hb Hbuf. do 20 (destruct bs as [|? bs]; [done|]). destruct bs; [|done].
  unfold sha1_to_hex. start_digest Hb.
  print_at 0%nat buf. print_at 4%nat (0 :: drop 9 buf). rewrite drop_drop.
  print_at 8%nat (0 :: drop (9 + 8) buf). rewrite drop_drop.
  print_at 12%nat (0 :: drop (9 + 8 + 8) buf). rewrite drop_drop.
  print_at 16%nat (0 :: drop (9 + 8 + 8 + 8) buf). rewrite drop_drop.
  rewrite (drop_ge buf) by lia. done.
Qed.

Lemma md5_to_hex_run bs buf :
  length bs = 16%nat -> bytes_ok bs -> length buf = 33%nat ->
  md5_to_hex bs buf (MD5_IN_HEX_LENGTH + 1) = Ret (SXE_RETURN_OK, print_hex bs ++ [0]).
Proof.
  intros Hl Hb Hbuf. do 16 (destruct bs as [|? bs]; [done|]). destruct bs; [|done].
  unfold md5_to_hex. start_digest Hb.
  print_at 0%nat buf. print_at 4%nat (0 :: drop 9 buf). rewrite drop_drop.
  print_at 8%nat (0 :: drop (9 + 8) buf). rewrite drop_drop.
  print_at 12%nat (0 :: drop (9 + 8 + 8) buf). rewrite drop_drop.
  rewrite (drop_ge buf) by lia. done.
Qed.

(** a digest printed in hexadecimal is its bytes' digits and a NUL, and SHA1
    digests are read back from them. *)
Theorem digest_hex_roundtrip sha1 md5 buf1 buf2 old :
  length sha1 = 20%nat -> bytes_ok sha1 -> length md5 = 16%nat -> bytes_ok md5 ->
  length buf1 = 41%nat -> length buf2 = 33%nat -> length old = 20%nat ->
  md5_to_hex md5 buf2 (MD5_IN_HEX_LENGTH + 1) = Ret (SXE_RETURN_OK, print_hex md5 ++ [0]) /\
  exists hex, sha1_to_hex sha1 buf1 (SHA1_IN_HEX_LENGTH + 1) = Ret (SXE_RETURN_OK, hex) /\
    sha1_from_hex old hex = Ret (SXE_RETURN_OK, sha1).
Proof.
  intros Hs Os Hm Om B1 B2 Ho. split; [by apply md5_to_hex_run|].
  eexists. split; [by apply sha1_to_hex_run|].
  pose proof (length_print_hex sha1) as Lp.
  destruct (hex_to_bytes_whole old (print_hex sha1) [0]) as (out & R & _ & Hout).
  - by apply print_hex_ok.
  - by exists (length sha1).
  - lia.
  - unfold is_u32, zlen. lia.
  - unfold sha1_from_hex. replace SHA1_IN_HEX_LENGTH with (zlen (print_hex sha1)) by (unfold zlen, SHA1_IN_HEX_LENGTH; lia).
    rewrite R, (Hout sha1), parse_print_hex by (done || by apply parse_print_hex).
    rewrite drop_ge by lia. by rewrite app_nil_r.
Qed.

(** *** Unsigned integers *)
Lemma lor_digit acc d : 0 <= acc -> 0 <= d < 16 -> Z.lor (u32 (Z.shiftl (u32 acc) 4)) d = u32 (16 * acc + d).
Proof.
  intros Ha Hd.
  replace (u32 (Z.shiftl (u32 acc) 4)) with (Z.shiftl (acc mod 268435456) 4).
  - rewrite lor_shift by lia. unfold u32. change (2 ^ 4) with 16. Z.to_euclidean_division_equations; lia.
  - rewrite !Z.shiftl_mul_pow2 by lia. unfold u32. change (2 ^ 4) with 16. Z.to_euclidean_division_equations; lia.
Qed.

(** Digits are read until a NUL or the maximum length. *)
Lemma hex_digits_run ds : forall pre tail n acc,
  bytes_ok ds -> no_nul ds -> 0 <= acc -> zlen pre + zlen ds < 4294967296 ->
  (n = length ds \/ ((length ds < n)%nat /\ exists t, tail = 0 :: t)) ->
  hex_digits (pre ++ ds ++ tail) n (zlen pre) (u32 acc) = Ret (u32 <$> digits_value acc ds).
Proof.
  induction ds as [|c ds IH]; intros pre tail n acc Hb Hn Ha Hl Hend.
  - destruct Hend as [->|[Hlt [t ->]]]; [done|]. destruct n as [|n]; [simpl in Hlt; lia|].
    cbn [hex_digits app]. by rewrite (rd_at pre).
  - apply Forall_cons in Hb as [Hc Hb]. apply Forall_cons in Hn as [Hc0 Hn]. rewrite zlen_cons in Hl.
    pose proof (zlen_nonneg pre). pose proof (zlen_nonneg ds).
    destruct n as [|n]; [simpl in Hend; lia|]. cbn [hex_digits app digits_value].
    rewrite (rd_at pre) by done. cbn [load mbind outcome_bind]. destruct (Z.eqb_spec c 0); [done|].
    destruct (to_nibble_spec c Hc) as [-> Rc]. destruct (nibble c) as [d|]; [|done]. specialize (Rc d eq_refl).
    cbn [default mbind outcome_bind option_bind]. rewrite digit_not_na, lor_digit by done.
    replace (u32 (zlen pre + 1)) with (zlen (pre ++ [c])) by (rewrite zlen_app, zlen_cons; change (zlen []) with 0; word_lia).
    replace (pre ++ c :: ds ++ tail) with ((pre ++ [c]) ++ ds ++ tail) by by rewrite <-!(assoc_L (++)).
    apply IH; try done; [lia|rewrite zlen_app, zlen_cons; change (zlen []) with 0; lia|].
    simpl in Hend. destruct Hend as [?|[? ?]]; [left; lia|right; split; [lia|done]].
Qed.

(** Reading an unsigned takes the digits up to the first NUL or the maximum
    length and gives their value modulo 2^32, so that eight digits are exact and
    a longer string silently loses its leading ones; any other character is an
    error, which sxe_hex_to_unsigned cannot tell from the digits ffffffff. *)
Theorem hex_to_unsigned_spec ds tail n :
  bytes_ok ds -> no_nul ds -> zlen ds < 4294967296 ->
  (n = zlen ds \/ (zlen ds < n /\ exists t, tail = 0 :: t)) ->
  sxe_valid_hex_to_unsigned (ds ++ tail) n =
    Ret (match digits_value 0 ds with
         | Some v => (SXE_RETURN_OK, Some (u32 v))
         | None => (SXE_RETURN_ERROR_INTERNAL, None)
         end) /\
  sxe_hex_to_unsigned (ds ++ tail) n = Ret (default SXE_UNSIGNED_MAXIMUM (u32 <$> digits_value 0 ds)).
Proof.
  intros Hb Hn Hl Hend.
  assert (R : hex_digits (ds ++ tail) (Z.to_nat n) 0 0 = Ret (u32 <$> digits_value 0 ds)).
  { apply (hex_digits_run ds [] tail (Z.to_nat n) 0); try done. unfold zlen in Hend.
    destruct Hend as [->|[? ?]]; [left; lia|right; split; [lia|done]]. }
  unfold sxe_valid_hex_to_unsigned, sxe_hex_to_unsigned. rewrite R. simpl. by destruct (digits_value 0 ds).
Qed.

(** The digit count is not checked to be even: a length of one reads the second
    character, beyond the string it was given, and succeeds. *)
Lemma sxe_hex_to_bytes_odd : sxe_hex_to_bytes [0] [97; 98] 1 = Ret (SXE_RETURN_OK, [171]).
Proof. reflexivity. Qed.

(** ** Witnesses *)
Lemma bytes_ok_check s : forallb (fun b => (0 <=? b) && (b <? 256)) s = true -> bytes_ok s.
Proof.
  intros H. apply Forall_forall. intros b Hb. rewrite forallb_forall in H.
  specialize (H b (proj1 (list_elem_of_In _ _) Hb)). unfold is_u8. lia.
Qed.

Lemma hex_bytes_roundtrip_witness : exists hex,
  sxe_hex_from_bytes [0; 0; 0; 0; 9] [171; 16; 7] 2 = Ret hex /\
  sxe_hex_to_bytes [0; 0; 5] hex 4 = Ret (SXE_RETURN_OK, [171; 16; 5]).
Proof.
  destruct (hex_bytes_roundtrip [171; 16] [0; 0; 0; 0; 9] [0; 0; 5] [7]) as (hex & E & _ & R).
  - by apply bytes_ok_check.
  - reflexivity.
  - simpl. lia.
  - simpl. lia.
  - exists hex. split; [exact E|exact R].
Defined.

Lemma sxe_hex_to_bytes_spec_witness : exists r out,
  sxe_hex_to_bytes [0] [65; 103; 0] 2 = Ret (r, out) /\ ~ (r = SXE_RETURN_OK).
Proof.
  destruct (sxe_hex_to_bytes_spec [0] [65; 103] [0]) as (r & out & E & _ & H & _).
  - by apply bytes_ok_check.
  - by exists 1%nat.
  - simpl. lia.
  - unfold is_u32, zlen. simpl. lia.
  - exists r, out. split; [exact E|]. intros Hr. apply H in Hr. apply Forall_cons in Hr as [_ Hr].
    apply Forall_cons in Hr as [[d Hd] _]. vm_compute in Hd. discriminate.
Defined.

Lemma digest_hex_roundtrip_witness : exists hex,
  sha1_to_hex (seqZ 100 20) (replicate 41 1) 41 = Ret (SXE_RETURN_OK, hex) /\
  sha1_from_hex (replicate 20 0) hex = Ret (SXE_RETURN_OK, seqZ 100 20).
Proof.
  destruct (digest_hex_roundtrip (seqZ 100 20) (seqZ 50 16) (replicate 41 1) (replicate 33 1) (replicate 20 0))
    as (_ & hex & E & R); try reflexivity.
  - by apply bytes_ok_check.
  - by apply bytes_ok_check.
  - exists hex. split; [exact E|exact R].
Defined.

Lemma hex_to_unsigned_spec_witness :
  sxe_hex_to_unsigned [49; 70; 97; 0; 77] 8 = Ret 506.
Proof.
  apply (hex_to_unsigned_spec [49; 70; 97] [0; 77] 8).
  - by apply bytes_ok_check.
  - by repeat constructor.
  - reflexivity.
  - right. split; [reflexivity|by exists [77]].
Defined.
