(* ===== verification/Hash.v ===== *)
(** * Hash: hash tables over pools (lib-sxe-hash)

    A hash is a pool whose states are the free queue, the queue of elements taken
    but not added yet, and one state per bucket. The elements' memory is a list
    of bytes per table; the key of an element is a slice of it. *)

From S2P Require Import Prelude Spinlock SxeList Pool PoolWalker Hex.

(** lib-sxe-hash/sxe-hash.h:51-59, SXE_HASH. The hash function is given the bytes of
    the key. *)
Record SXE_HASH := mk_hash {
  h_pool : Z;
  h_count : Z;
  h_size : Z;
  h_key_offset : Z;
  h_key_size : Z;
  h_options : Z;
  h_hash_key : list Z -> outcome Z
}.

(** The store: pools, hash structures by address, and the elements' memory by the
    address of the array. *)
Record hstore := mk_hstore { hs_world : world; hs_hash : gmap Z SXE_HASH; hs_bytes : gmap Z (list Z) }.

(** lib-sxe-hash/sxe-hash.h:31-31, SXE_HASH_KEY_NOT_FOUND. *)
Definition SXE_HASH_KEY_NOT_FOUND : Z := SXE_UNSIGNED_MAXIMUM.
(** lib-sxe-hash/sxe-hash.h:32-32, SXE_HASH_FULL. *)
Definition SXE_HASH_FULL : Z := SXE_UNSIGNED_MAXIMUM.
(** lib-sxe-hash/sxe-hash.h:36-36, SXE_HASH_OPTION_LOCKED. *)
Definition SXE_HASH_OPTION_LOCKED : Z := SXE_BIT_OPTION 0.
(** lib-sxe-hash/sxe-hash.h:38-38, SXE_HASH_OPTION_COMPUTED_HASH. *)
Definition SXE_HASH_OPTION_COMPUTED_HASH : Z := SXE_BIT_OPTION 1.
(** lib-sxe-hash/sxe-hash.c:27-27, SXE_HASH_UNUSED_BUCKET. *)
Definition SXE_HASH_UNUSED_BUCKET : Z := 0.
(** lib-sxe-hash/sxe-hash.c:28-28, SXE_HASH_NEW_BUCKET. *)
Definition SXE_HASH_NEW_BUCKET : Z := 1.
(** lib-sxe-hash/sxe-hash.c:29-29, SXE_HASH_BUCKETS_RESERVED. *)
Definition SXE_HASH_BUCKETS_RESERVED : Z := 2.
(** The size of the structure on an LP64 platform. *)
Definition SIZEOF_HASH : Z := 40.

(** lib-sxe-hash/sxe-hash-private.h:24-24, SXE_HASH_ARRAY_TO_IMPL. *)
Definition SXE_HASH_ARRAY_TO_IMPL (array : Z) : Z := u64 (sxe_pool_to_base array - SIZEOF_HASH).

(** lib-sxe-hash/sxe-hash.c:31-46, sxe_prehashed_key_hash. *)
Definition sxe_prehashed_key_hash (key : list Z) : outcome Z := ld32 key 0.

Definition on_world {A} (c : cmd world A) : cmd hstore A := fun s =>
  match c (hs_world s) with
  | Ret (a, w) => Ret (a, mk_hstore w (hs_hash s) (hs_bytes s))
  | Abort => Abort
  | Fault => Fault
  end.
Definition rd_hash (hash : Z) : cmd hstore SXE_HASH := fun s => lift (load (hs_hash s !! hash)) s.
Definition wr_hash (hash : Z) (h : SXE_HASH) : cmd hstore unit :=
  modify (fun s => mk_hstore (hs_world s) (<[hash := h]> (hs_hash s)) (hs_bytes s)).
Definition rd_bytes_at (array i n : Z) : cmd hstore (list Z) := fun s =>
  lift (bs ← load (hs_bytes s !! array); load (slice bs i n)) s.
Definition wr_bytes_to (array i : Z) (l : list Z) : cmd hstore unit := fun s =>
  match hs_bytes s !! array with
  | Some bs => match wr_bytes bs i l with
               | Ret bs => Ret (tt, mk_hstore (hs_world s) (hs_hash s) (<[array := bs]> (hs_bytes s)))
               | Abort => Abort
               | Fault => Fault
               end
  | None => Fault
  end.

Section Operations.
Context `{Build} (others : Z -> world -> world) (spin_max tid default_to_string : Z).

(** lib-sxe-hash/sxe-hash.c:48-86, sxe_hash_new_plus. [malloc] allocates memory, and
    [hash_sum] is the function sxe_hash_sum points to. *)
Definition sxe_hash_new_plus (malloc : Z -> cmd hstore Z) (hash_sum : list Z -> outcome Z)
  (name : list Z) (element_count element_size key_offset key_size options : Z) : cmd hstore Z :=
  let size := u32 (SIZEOF_HASH + sxe_pool_size element_count element_size (u32 (element_count + SXE_HASH_BUCKETS_RESERVED))) in
  hash ← malloc size;
  lift (assert1 (negb (hash =? NULL)));;
  pool ← on_world (sxe_pool_construct default_to_string (u64 (hash + SIZEOF_HASH)) name element_count element_size
                     (u32 (element_count + SXE_HASH_BUCKETS_RESERVED))
                     (if negb (Z.land options SXE_HASH_OPTION_LOCKED =? 0) then SXE_POOL_OPTION_LOCKED else 0));
  wr_hash hash (mk_hash pool element_count element_size key_offset key_size options
    (if negb (Z.land options SXE_HASH_OPTION_COMPUTED_HASH =? 0) then hash_sum else sxe_prehashed_key_hash));;
  mret pool.

(** lib-sxe-hash/sxe-hash.c:88-97, sxe_hash_reconstruct. *)
Definition sxe_hash_reconstruct (array : Z) : cmd hstore unit :=
  let hash := SXE_HASH_ARRAY_TO_IMPL array in
  h ← rd_hash hash;
  name ← on_world (sxe_pool_get_name array);
  pool ← on_world (sxe_pool_construct default_to_string (u64 (hash + SIZEOF_HASH)) name (h_count h) (h_size h)
                     (u32 (h_count h + SXE_HASH_BUCKETS_RESERVED))
                     (if negb (Z.land (h_options h) SXE_HASH_OPTION_LOCKED =? 0) then SXE_POOL_OPTION_LOCKED else 0));
  wr_hash hash (mk_hash pool (h_count h) (h_size h) (h_key_offset h) (h_key_size h) (h_options h) (h_hash_key h)).

(** lib-sxe-hash/sxe-hash.c:98-110, sxe_hash_delete. *)
Definition sxe_hash_delete (array : Z) : cmd hstore unit :=
  modify (fun s => mk_hstore (hs_world s) (delete (SXE_HASH_ARRAY_TO_IMPL array) (hs_hash s)) (delete array (hs_bytes s))).

(** lib-sxe-hash/sxe-hash.c:112-136, sxe_hash_take. *)
Definition sxe_hash_take (array : Z) : cmd hstore Z :=
  h ← rd_hash (SXE_HASH_ARRAY_TO_IMPL array);
  id ← on_world (sxe_pool_set_oldest_element_state others spin_max tid (h_pool h) SXE_HASH_UNUSED_BUCKET SXE_HASH_NEW_BUCKET);
  mret (if id =? SXE_POOL_NO_INDEX then SXE_HASH_FULL else id).

(** The bucket of a key. *)
Definition bucket_of (h : SXE_HASH) (key : list Z) : outcome Z :=
  sum ← h_hash_key h key;
  if h_count h =? 0 then Fault else mret (u32 (u32 sum mod h_count h + SXE_HASH_BUCKETS_RESERVED)).

(** lib-sxe-hash/sxe-hash.c:159-163, sxe_hash_look. The loop over the bucket. *)
Fixpoint look_loop (fuel n : nat) (array : Z) (h : SXE_HASH) (key : list Z) (walker : SXE_POOL_WALKER) : cmd hstore Z :=
  match n with
  | O => lift Fault
  | S n =>
      '(id, walker) ← on_world (sxe_pool_walker_step others spin_max tid fuel walker);
      if id =? SXE_HASH_KEY_NOT_FOUND then mret id
      else
        element ← rd_bytes_at array (u32 (id * h_size h) + h_key_offset h) (h_key_size h);
        if bool_decide (element = key) then mret id else look_loop fuel n array h key walker
  end.

(** lib-sxe-hash/sxe-hash.c:138-167, sxe_hash_look. [key] is the memory the key pointer
    points to; [fuel] bounds the length of a bucket. *)
Definition sxe_hash_look (fuel : nat) (array : Z) (key : list Z) : cmd hstore Z :=
  h ← rd_hash (SXE_HASH_ARRAY_TO_IMPL array);
  key ← lift (load (slice key 0 (h_key_size h)));
  bucket ← lift (bucket_of h key);
  walker ← on_world (sxe_pool_walker_construct array bucket);
  look_loop fuel fuel array h key walker.

(** lib-sxe-hash/sxe-hash.c:169-189, sxe_hash_add. *)
Definition sxe_hash_add (array id : Z) : cmd hstore unit :=
  h ← rd_hash (SXE_HASH_ARRAY_TO_IMPL array);
  key ← rd_bytes_at array (u32 (u32 (id * h_size h) + h_key_offset h)) (h_key_size h);
  bucket ← lift (bucket_of h key);
  on_world (sxe_pool_set_indexed_element_state others spin_max tid array id SXE_HASH_NEW_BUCKET bucket);;
  mret tt.

(** lib-sxe-hash/sxe-hash.c:191-199, sxe_hash_give. *)
Definition sxe_hash_give (array id : Z) : cmd hstore unit :=
  h ← rd_hash (SXE_HASH_ARRAY_TO_IMPL array);
  state ← on_world (sxe_pool_index_to_state array id);
  on_world (sxe_pool_set_indexed_element_state others spin_max tid (h_pool h) id state SXE_HASH_UNUSED_BUCKET);;
  mret tt.

(** ** Classic hashes: SHA1 keys in hexadecimal, unsigned values *)

(** lib-sxe-hash/sxe-hash.h:46-49, SXE_HASH_KEY_VALUE_PAIR. The sizes of the pair and of
    its first member, the digest. *)
Definition SIZEOF_KEY_VALUE_PAIR : Z := 24.
Definition SIZEOF_SHA1 : Z := 20.
(** lib-sxe-hash/sxe-hash.h:33-33, SXE_HASH_SHA1_AS_HEX_LENGTH. *)
Definition SXE_HASH_SHA1_AS_HEX_LENGTH : Z := SHA1_IN_HEX_LENGTH.

(** The bytes of a value in memory. *)
Definition le32_bytes (v : Z) : list Z := [v mod 256; v / 256 mod 256; v / 65536 mod 256; v / 16777216 mod 256].

(** lib-sxe-hash/sxe-hash-classic.c:25-45, sxe_hash_new. *)
Definition sxe_hash_new (malloc : Z -> cmd hstore Z) (hash_sum : list Z -> outcome Z) (name : list Z) (element_count : Z)
  : cmd hstore Z :=
  sxe_hash_new_plus malloc hash_sum name element_count SIZEOF_KEY_VALUE_PAIR 0 SIZEOF_SHA1 0.

(** lib-sxe-hash/sxe-hash-classic.c:47-70, sxe_hash_set. *)
Definition sxe_hash_set (array : Z) (sha1_as_char : list Z) (sha1_key_len value : Z) : cmd hstore Z :=
  h ← rd_hash (SXE_HASH_ARRAY_TO_IMPL array);
  lift (assert6 (sha1_key_len =? SXE_HASH_SHA1_AS_HEX_LENGTH));;
  id ← sxe_hash_take array;
  if id =? SXE_HASH_FULL then mret id
  else
    let at_ := SIZEOF_KEY_VALUE_PAIR * id in
    old ← rd_bytes_at (h_pool h) at_ SIZEOF_SHA1;
    r ← lift (sha1_from_hex old sha1_as_char);
    wr_bytes_to (h_pool h) at_ (snd r);;
    wr_bytes_to (h_pool h) (at_ + SIZEOF_SHA1) (le32_bytes value);;
    sxe_hash_add array id;;
    mret id.

(** The value member of the pair [id]. *)
Definition rd_value (array id : Z) : cmd hstore Z :=
  l ← rd_bytes_at array (SIZEOF_KEY_VALUE_PAIR * id + SIZEOF_SHA1) 4; lift (ld32 l 0).

(** lib-sxe-hash/sxe-hash-classic.c:72-100, sxe_hash_get. The digest on the stack holds
    [junk] before it is read. *)
Definition sxe_hash_get (fuel : nat) (junk : list Z) (array : Z) (sha1_as_char : list Z) (sha1_key_len : Z) : cmd hstore Z :=
  h ← rd_hash (SXE_HASH_ARRAY_TO_IMPL array);
  lift (assert6 (sha1_key_len =? SXE_HASH_SHA1_AS_HEX_LENGTH));;
  r ← lift (sha1_from_hex junk sha1_as_char);
  if negb (bool_decide (fst r = SXE_RETURN_OK)) then mret SXE_HASH_KEY_NOT_FOUND
  else
    id ← sxe_hash_look fuel array (snd r);
    if negb (id =? SXE_HASH_KEY_NOT_FOUND) then rd_value (h_pool h) id else mret SXE_HASH_KEY_NOT_FOUND.

(** lib-sxe-hash/sxe-hash-classic.c:102-128, sxe_hash_remove. *)
Definition sxe_hash_remove (fuel : nat) (junk : list Z) (array : Z) (sha1_as_char : list Z) (sha1_key_len : Z) : cmd hstore Z :=
  h ← rd_hash (SXE_HASH_ARRAY_TO_IMPL array);
  lift (assert6 (sha1_key_len =? SXE_HASH_SHA1_AS_HEX_LENGTH));;
  r ← lift (sha1_from_hex junk sha1_as_char);
  if negb (bool_decide (fst r = SXE_RETURN_OK)) then mret SXE_HASH_KEY_NOT_FOUND
  else
    id ← sxe_hash_look fuel array (snd r);
    if negb (id =? SXE_HASH_KEY_NOT_FOUND) then
      value ← rd_value (h_pool h) id;
      sxe_hash_give array id;;
      mret value
    else mret SXE_HASH_KEY_NOT_FOUND.
End Operations.

(** ** Representation *)

(** The key of element [i]. *)
Definition key_of (h : SXE_HASH) (bs : list Z) (i : nat) : list Z :=
  take (Z.to_nat (h_key_size h)) (drop (Z.to_nat (Z.of_nat i * h_size h + h_key_offset h)) bs).

(** The hash [h] over the pool at [pool]: every element in a bucket is in the bucket
    of its key. *)
Record is_hash (spin_max : Z) (s : hstore) (pool : Z) (h : SXE_HASH) (p : SXE_POOL_IMPL) (a : pool_abs) (bs : list Z) : Prop := {
  ih_pool : is_pool (hs_world s) pool p a;
  ih_available : available spin_max p;
  ih_untimed : timed p = false;
  ih_struct : hs_hash s !! SXE_HASH_ARRAY_TO_IMPL (SXE_POOL_IMPL_TO_ARRAY pool) = Some h;
  ih_self : h_pool h = SXE_POOL_IMPL_TO_ARRAY pool;
  ih_number : p_number p = h_count h;
  ih_states : p_states p = h_count h + SXE_HASH_BUCKETS_RESERVED;
  ih_nonempty : 0 < h_count h;
  ih_bytes : hs_bytes s !! SXE_POOL_IMPL_TO_ARRAY pool = Some bs;
  ih_size : zlen bs = h_count h * h_size h;
  ih_total : h_count h * h_size h < 4294967296;
  ih_key : 0 <= h_key_offset h /\ 0 <= h_key_size h /\ h_key_offset h + h_key_size h <= h_size h;
  ih_placed : forall k q i, queues a !! k = Some q -> (2 <= k)%nat -> i ∈ q ->
    bucket_of h (key_of h bs i) = Ret (Z.of_nat k)
}.

Lemma on_world_ret {A} (c : cmd world A) s a w :
  c (hs_world s) = Ret (a, w) -> on_world c s = Ret (a, mk_hstore w (hs_hash s) (hs_bytes s)).
Proof. unfold on_world. by intros ->. Qed.

Lemma same_hstore s : mk_hstore (hs_world s) (hs_hash s) (hs_bytes s) = s.
Proof. by destruct s. Qed.

(** ** Classic hashes: keys and values in the elements' memory *)

(** The value of element [i] of a classic hash. *)
Definition value_of (bs : list Z) (i : nat) : outcome Z :=
  l ← load (slice bs (24 * Z.of_nat i + 20) 4); ld32 l 0.

Definition classic (h : SXE_HASH) : Prop := h_size h = 24 /\ h_key_offset h = 0 /\ h_key_size h = 20.

Lemma find_app {A} (f : A -> bool) l1 l2 :
  List.find f (l1 ++ l2) = match List.find f l1 with Some x => Some x | None => List.find f l2 end.
Proof. induction l1 as [|x l1 IH]; simpl; [done|]. by destruct (f x). Qed.

Lemma find_ext_in {A} (f g : A -> bool) l : (forall x, x ∈ l -> f x = g x) -> List.find f l = List.find g l.
Proof.
  induction l as [|x l IH]; simpl; intros Hfg; [done|]. rewrite Hfg by constructor.
  rewrite IH; [done|]. intros; apply Hfg; by constructor.
Qed.

Lemma sha1_read old digits tail sha1 :
  length old = 20%nat -> bytes_ok digits -> length digits = 40%nat -> parse_hex digits = Some sha1 ->
  sha1_from_hex old (digits ++ tail) = Ret (SXE_RETURN_OK, sha1) /\ length sha1 = 20%nat.
Proof.
  intros Ho Hd Hl Hp. destruct (print_parse_hex _ _ Hd Hp) as [Epr _].
  assert (Ls : length sha1 = 20%nat).
  { apply (f_equal length) in Epr. rewrite length_print_hex, length_fmap in Epr. lia. }
  split; [|done]. destruct (hex_to_bytes_whole old digits tail Hd) as (out & R & _ & Hout).
  - by exists 20%nat.
  - lia.
  - unfold is_u32, zlen. lia.
  - unfold sha1_from_hex. change SHA1_IN_HEX_LENGTH with 40. replace 40 with (zlen digits) by (unfold zlen; lia).
    rewrite R, Hp, (Hout sha1 Hp). by rewrite drop_ge, app_nil_r by lia.
Qed.

Lemma ld32_value v : is_u32 v -> ld32 (le32_bytes v) 0 = Ret v.
Proof.
  intros Hv. unfold le32_bytes. etrans; [exact (ld32_at [] _ _ _ _ [] 0 eq_refl)|]. f_equal. unfold le32, is_u32 in *.
  Z.to_euclidean_division_equations; lia.
Qed.

(** Moving through state 1 puts the element at the end of its bucket. *)
Lemma moved_bucket a i b q t1 t2 :
  (2 <= b)%nat -> queues a !! b = Some q ->
  queues (move i 1 b t2 (move i 0 1 t1 a)) !! b = Some (q ++ [i]).
Proof.
  intros Hb E. unfold move. simpl.
  rewrite list_lookup_alter_eq, !list_lookup_alter_ne by lia. by rewrite E.
Qed.

Section Tables.
Context `{Build} (others : Z -> world -> world) (spin_max tid : Z) (pool : Z).
Abbreviation array := (SXE_POOL_IMPL_TO_ARRAY pool).

Section Look.
Variables (s : hstore) (h : SXE_HASH) (p : SXE_POOL_IMPL) (a : pool_abs) (bs : list Z).
Hypothesis I : is_hash spin_max s pool h p a bs.

Lemma rd_hash_ok : rd_hash (SXE_HASH_ARRAY_TO_IMPL array) s = Ret (h, s).
Proof using I. unfold rd_hash. by rewrite (ih_struct _ _ _ _ _ _ _ I). Qed.

Lemma key_bounds i : Z.of_nat i < h_count h ->
  0 <= Z.of_nat i * h_size h /\ Z.of_nat i * h_size h + h_key_offset h < 4294967296 /\
  Z.of_nat i * h_size h + h_key_offset h + h_key_size h <= zlen bs /\ 0 <= h_key_offset h /\ 0 <= h_key_size h.
Proof using I.
  intros Hi. destruct (ih_key _ _ _ _ _ _ _ I) as (K1 & K2 & K3).
  pose proof (ih_size _ _ _ _ _ _ _ I). pose proof (ih_total _ _ _ _ _ _ _ I).
  assert (Hs : Z.of_nat i * h_size h + h_size h <= h_count h * h_size h) by nia. split_and!; nia.
Qed.

Lemma slice_key i : Z.of_nat i < h_count h ->
  slice bs (Z.of_nat i * h_size h + h_key_offset h) (h_key_size h) = Some (key_of h bs i).
Proof using I. intros Hi. pose proof (key_bounds i Hi). by rewrite slice_Some by lia. Qed.

(** Both ways in which the code computes the address of a key. *)
Lemma rd_key_look i : Z.of_nat i < h_count h ->
  rd_bytes_at array (u32 (Z.of_nat i * h_size h) + h_key_offset h) (h_key_size h) s = Ret (key_of h bs i, s).
Proof using I.
  intros Hi. pose proof (key_bounds i Hi).
  unfold rd_bytes_at. rewrite (ih_bytes _ _ _ _ _ _ _ I). cbn [load mbind outcome_bind].
  rewrite u32_small by (unfold is_u32; lia). by rewrite slice_key.
Qed.

Lemma rd_key_add i : Z.of_nat i < h_count h ->
  rd_bytes_at array (u32 (u32 (Z.of_nat i * h_size h) + h_key_offset h)) (h_key_size h) s = Ret (key_of h bs i, s).
Proof using I.
  intros Hi. pose proof (key_bounds i Hi).
  rewrite (u32_small (_ + _)) by (rewrite u32_small by (unfold is_u32; lia); unfold is_u32; lia).
  by apply rd_key_look.
Qed.

(** Whether element [i] has the key. *)
Definition has_key (key : list Z) (i : nat) : bool := bool_decide (key_of h bs i = key).

Lemma look_loop_run fuel k key q2 : forall q1 b last n,
  queues a !! k = Some (q1 ++ q2) -> (length q2 < n)%nat ->
  look_loop others spin_max tid fuel n array h key (walker_at pool p k q1 b last) s =
  Ret (match List.find (has_key key) q2 with Some i => Z.of_nat i | None => SXE_HASH_KEY_NOT_FOUND end, s).
Proof using I.
  pose proof (ih_pool _ _ _ _ _ _ _ I) as P. pose proof (ih_available _ _ _ _ _ _ _ I) as A.
  induction q2 as [|i q2 IH]; intros q1 b last [|n] E Hn; simpl in Hn; try lia; cbn [look_loop];
    destruct (walker_step_quiet others spin_max tid _ pool p a P A fuel k q1 _ b last E) as (b' & last' & R);
    step_by (on_world_ret _ _ _ _ R); rewrite same_hstore.
  - done.
  - assert (Hi : Z.of_nat i < p_number p) by (eapply queue_index; [exact P|exact E|apply elem_of_mid]).
    destruct (Z.eqb_spec (Z.of_nat i) SXE_HASH_KEY_NOT_FOUND) as [En|].
    { unfold SXE_HASH_KEY_NOT_FOUND, SXE_UNSIGNED_MAXIMUM in En. pose proof (lay_number _ _ (ip_layout _ _ _ _ P)). lia. }
    rewrite (ih_number _ _ _ _ _ _ _ I) in Hi. step_by (rd_key_look i Hi).
    simpl List.find. unfold has_key at 1. destruct (bool_decide (key_of h bs i = key)); [done|].
    apply IH; [by rewrite <-(assoc_L (++))|lia].
Qed.

Lemma bucket_range key b : bucket_of h key = Ret b -> 2 <= b < h_count h + 2 /\ b = Z.of_nat (Z.to_nat b).
Proof using I.
  unfold bucket_of. pose proof (ih_nonempty _ _ _ _ _ _ _ I).
  pose proof (lay_states _ _ (ip_layout _ _ _ _ (ih_pool _ _ _ _ _ _ _ I))) as Hst.
  rewrite (ih_states _ _ _ _ _ _ _ I) in Hst. unfold SXE_HASH_BUCKETS_RESERVED in *.
  destruct (h_hash_key h key) as [sum| |]; [|done..]. simpl. destruct (Z.eqb_spec (h_count h) 0); [lia|].
  intros [= <-]. pose proof (Z.mod_pos_bound (u32 sum) (h_count h) ltac:(lia)).
  rewrite u32_small by (unfold is_u32; lia). lia.
Qed.

Lemma bucket_queue key b : bucket_of h key = Ret b -> exists q, queues a !! Z.to_nat b = Some q.
Proof using I.
  intros [Hb _]%bucket_range. apply lookup_lt_is_Some_2.
  rewrite (qo_states _ _ _ _ (ip_queues _ _ _ _ (ih_pool _ _ _ _ _ _ _ I))), (ih_states _ _ _ _ _ _ _ I).
  unfold SXE_HASH_BUCKETS_RESERVED. lia.
Qed.

(** Looking a key up scans the bucket of the key, oldest element first. *)
Lemma look_run fuel key kmem b q :
  slice kmem 0 (h_key_size h) = Some key -> bucket_of h key = Ret b -> queues a !! Z.to_nat b = Some q ->
  (length q < fuel)%nat ->
  sxe_hash_look others spin_max tid fuel array kmem s =
  Ret (match List.find (has_key key) q with Some i => Z.of_nat i | None => SXE_HASH_KEY_NOT_FOUND end, s).
Proof using I.
  intros Ek Eb E Hf. pose proof (ih_pool _ _ _ _ _ _ _ I) as P. pose proof (bucket_range _ _ Eb) as [Hr Hb].
  unfold sxe_hash_look. step_by rd_hash_ok. rewrite Ek. cbn [load].
  erewrite cmd_bind_ret by reflexivity. rewrite Eb. erewrite cmd_bind_ret by reflexivity.
  erewrite cmd_bind_ret.
  2:{ apply on_world_ret. unfold sxe_pool_walker_construct.
      rewrite (impl_of_array pool p (ip_layout _ _ _ _ P)). cbv zeta.
      step_by (rd_impl_pool pool _ p a P). rewrite (ih_untimed _ _ _ _ _ _ _ I), andb_false_r.
      erewrite cmd_bind_ret by reflexivity. reflexivity. }
  rewrite same_hstore, Hb.
  rewrite (QUEUE_AT_qaddr pool p (ip_layout _ _ _ _ P)) by (eapply queue_state; [apply P|exact E]).
  by apply (look_loop_run fuel (Z.to_nat b) key q [] (qaddr pool p (Z.to_nat b)) 0 fuel).
Qed.
End Look.

(** C34: a lookup is exact. It finds an element with the key whenever there is one
    among all the elements in the table, and otherwise returns
    SXE_HASH_KEY_NOT_FOUND; it changes nothing and always ends. *)
Theorem sxe_hash_look_exact s h p a bs fuel key kmem b :
  is_hash spin_max s pool h p a bs ->
  slice kmem 0 (h_key_size h) = Some key -> bucket_of h key = Ret b -> (Z.to_nat (h_count h) < fuel)%nat ->
  exists r, sxe_hash_look others spin_max tid fuel array kmem s = Ret (r, s) /\
    ((r = SXE_HASH_KEY_NOT_FOUND /\
      forall k q i, queues a !! k = Some q -> (2 <= k)%nat -> i ∈ q -> key_of h bs i <> key) \/
     (exists k q i, r = Z.of_nat i /\ queues a !! k = Some q /\ (2 <= k)%nat /\ i ∈ q /\ key_of h bs i = key)).
Proof using.
  intros I Ek Eb Hf. destruct (bucket_queue s h p a bs I key b Eb) as [q E].
  pose proof (queue_length pool _ p a _ q (ih_pool _ _ _ _ _ _ _ I) E) as Hq. rewrite (ih_number _ _ _ _ _ _ _ I) in Hq.
  rewrite (look_run s h p a bs I fuel key kmem b q Ek Eb E) by lia. eexists. split; [done|].
  destruct (bucket_range s h p a bs I key b Eb) as [Hr Hb].
  destruct (List.find (has_key h bs key) q) as [i|] eqn:Ef.
  - right. apply find_some in Ef as [Hi Hk]. unfold has_key in Hk. apply bool_decide_eq_true in Hk.
    exists (Z.to_nat b), q, i. split_and!; [done|done|lia|by apply list_elem_of_In|done].
  - left. split; [done|]. intros k q' i E' Hk Hi Ekey.
    pose proof (ih_placed _ _ _ _ _ _ _ I k q' i E' Hk Hi) as Hp. rewrite Ekey, Eb in Hp. injection Hp as ->.
    rewrite Nat2Z.id in E. assert (q' = q) as -> by congruence.
    pose proof (find_none _ _ Ef i ltac:(by apply list_elem_of_In)) as Hn. unfold has_key in Hn.
    by apply bool_decide_eq_false in Hn.
Qed.

(** The elements of a queue after a move. *)
Lemma move_queue a i old new t k q j :
  queues (move i old new t a) !! k = Some q -> j ∈ q ->
  (j = i /\ k = new) \/ (exists q', queues a !! k = Some q' /\ j ∈ q' /\ (k = old -> j <> i)).
Proof using.
  unfold move. simpl. intros E Hj.
  assert (G : forall q0, alter (filter (fun j => j <> i)) old (queues a) !! k = Some q0 -> j ∈ q0 ->
    exists q', queues a !! k = Some q' /\ j ∈ q' /\ (k = old -> j <> i)).
  { intros q0 E0 Hj0. destruct (decide (old = k)) as [<-|Hne].
    - rewrite list_lookup_alter_eq in E0. destruct (queues a !! old) as [q'|]; [|done].
      injection E0 as [= <-]. apply list_elem_of_filter in Hj0 as [? ?]. eauto.
    - rewrite list_lookup_alter_ne in E0 by done. exists q0. split_and!; [done|done|]. intros ->. done. }
  destruct (decide (new = k)) as [<-|Hne].
  - rewrite list_lookup_alter_eq in E. destruct (alter _ old _ !! new) as [q0|]; [|done].
    injection E as [= <-]. apply elem_of_app in Hj as [Hj|Hj%list_elem_of_singleton]; [right; by eapply G|by left].
  - rewrite list_lookup_alter_ne in E by done. right. by eapply G.
Qed.

Section Updates.
Variables (s : hstore) (h : SXE_HASH) (p : SXE_POOL_IMPL) (a : pool_abs) (bs : list Z).
Hypothesis I : is_hash spin_max s pool h p a bs.
Let P := ih_pool _ _ _ _ _ _ _ I.
Let A := ih_available _ _ _ _ _ _ _ I.

(** Moving an element to a state that is not a bucket, or to the bucket of its key. *)
Lemma is_hash_move w' i old new t :
  is_pool w' pool (bump p) (move i old new t a) ->
  ((2 <= new)%nat -> bucket_of h (key_of h bs i) = Ret (Z.of_nat new)) ->
  is_hash spin_max (mk_hstore w' (hs_hash s) (hs_bytes s)) pool h (bump p) (move i old new t a) bs.
Proof using I.
  intros P' Hn. destruct (bump_same_layout p) as (B1 & B2 & B3 & B4 & B5 & B6). destruct I as [].
  split; rewrite ?B3, ?B4; try done.
  - unfold available, locked in *. by rewrite B5, B6.
  - unfold timed in *. by rewrite B5.
  - intros k q j E Hk Hj. destruct (move_queue _ _ _ _ _ _ _ _ E Hj) as [[-> ->]|(q' & E' & Hj' & _)]; eauto.
Qed.

Lemma hash_states k : (k < Z.to_nat (h_count h) + 2)%nat -> (k < length (queues a))%nat.
Proof using I.
  rewrite (qo_states _ _ _ _ (ip_queues _ _ _ _ P)), (ih_states _ _ _ _ _ _ _ I). unfold SXE_HASH_BUCKETS_RESERVED.
  pose proof (ih_nonempty _ _ _ _ _ _ _ I). lia.
Qed.

Lemma take_run i q :
  queues a !! 0%nat = Some (i :: q) ->
  exists w', sxe_hash_take others spin_max tid array s = Ret (Z.of_nat i, mk_hstore w' (hs_hash s) (hs_bytes s)) /\
    is_hash spin_max (mk_hstore w' (hs_hash s) (hs_bytes s)) pool h (bump p) (move i 0 1 (stamp (hs_world s) p) a) bs /\
    Z.of_nat i < h_count h.
Proof using I.
  intros E. pose proof (set_oldest_step others spin_max tid pool _ p a P A 0 1 (i :: q) E) as (w' & R & P' & _).
  { split; apply hash_states; lia. }
  assert (Hi : Z.of_nat i < h_count h).
  { rewrite <-(ih_number _ _ _ _ _ _ _ I). eapply queue_index; [exact P|exact E|constructor]. }
  exists w'. split_and!; [|by apply is_hash_move; [|lia]|done].
  unfold sxe_hash_take. step_by (rd_hash_ok s h p a bs I). rewrite (ih_self _ _ _ _ _ _ _ I).
  step_by (on_world_ret _ _ _ _ R).
  destruct (Z.eqb_spec (Z.of_nat i) SXE_POOL_NO_INDEX) as [En|]; [|done].
  change SXE_POOL_NO_INDEX with 4294967295 in En.
  pose proof (lay_number _ _ (ip_layout _ _ _ _ P)). rewrite (ih_number _ _ _ _ _ _ _ I) in *. lia.
Qed.

Lemma take_full : queues a !! 0%nat = Some [] ->
  sxe_hash_take others spin_max tid array s = Ret (SXE_HASH_FULL, s).
Proof using I.
  intros E. pose proof (set_oldest_step others spin_max tid pool _ p a P A 0 1 [] E) as R.
  unfold sxe_hash_take. step_by (rd_hash_ok s h p a bs I). rewrite (ih_self _ _ _ _ _ _ _ I).
  step_by (on_world_ret _ _ _ _ (R ltac:(split; apply hash_states; lia))). by rewrite same_hstore.
Qed.

Lemma add_run i b :
  state_of a i = Some 1%nat -> bucket_of h (key_of h bs i) = Ret b ->
  exists w', sxe_hash_add others spin_max tid array (Z.of_nat i) s = Ret (tt, mk_hstore w' (hs_hash s) (hs_bytes s)) /\
    is_hash spin_max (mk_hstore w' (hs_hash s) (hs_bytes s)) pool h (bump p)
      (move i 1 (Z.to_nat b) (stamp (hs_world s) p) a) bs.
Proof using I.
  intros Hs Eb. destruct (bucket_range s h p a bs I _ _ Eb) as [Hr Hb].
  pose proof (state_of_bound _ _ _ _ P _ _ Hs) as [Hi _]. rewrite (ih_number _ _ _ _ _ _ _ I) in Hi.
  assert (Hn : (i < length (stamps a))%nat).
  { rewrite (ip_nstamps _ _ _ _ P), (ih_number _ _ _ _ _ _ _ I). lia. }
  destruct (set_state_step others spin_max tid pool _ p a P A i 1 (Z.to_nat b) Hs) as (w' & R & P' & _).
  { split_and!; [done|apply hash_states; lia..]. }
  exists w'. split.
  - unfold sxe_hash_add. step_by (rd_hash_ok s h p a bs I). step_by (rd_key_add s h p a bs I i Hi).
    rewrite Eb. erewrite cmd_bind_ret by reflexivity. rewrite Hb. by step_by (on_world_ret _ _ _ _ R).
  - apply is_hash_move; [done|]. intros _. by rewrite Eb, <-Hb.
Qed.

(** Storing bytes inside an element that is in no bucket. *)
Lemma write_run i off l :
  state_of a i = Some 1%nat -> 0 <= off -> off + zlen l <= h_size h ->
  let bs' := splice bs (Z.of_nat i * h_size h + off) l in
  let s' := mk_hstore (hs_world s) (hs_hash s) (<[array := bs']> (hs_bytes s)) in
  wr_bytes_to array (Z.of_nat i * h_size h + off) l s = Ret (tt, s') /\
  is_hash spin_max s' pool h p a bs' /\
  (forall j, j <> i -> Z.of_nat j < h_count h -> forall o n, 0 <= o -> 0 <= n -> o + n <= h_size h ->
     slice bs' (Z.of_nat j * h_size h + o) n = slice bs (Z.of_nat j * h_size h + o) n).
Proof using I.
  intros Hs Ho Hl bs' s'. pose proof (state_of_bound _ _ _ _ P _ _ Hs) as [Hi _].
  rewrite (ih_number _ _ _ _ _ _ _ I) in Hi. pose proof (ih_size _ _ _ _ _ _ _ I) as Hz.
  pose proof (zlen_nonneg l).
  assert (Hfit : 0 <= Z.of_nat i * h_size h + off /\ Z.of_nat i * h_size h + off + zlen l <= zlen bs) by (rewrite Hz; nia).
  assert (Hother : forall j, j <> i -> Z.of_nat j < h_count h -> forall o n, 0 <= o -> 0 <= n -> o + n <= h_size h ->
     slice bs' (Z.of_nat j * h_size h + o) n = slice bs (Z.of_nat j * h_size h + o) n).
  { intros j Hj Hjc o n Ho' Hn' Hon. apply slice_splice_other; [lia..|].
    destruct (Nat.lt_total j i) as [?|[?|?]]; [left|lia|right]; nia. }
  split; [|split; [|done]].
  - unfold wr_bytes_to. rewrite (ih_bytes _ _ _ _ _ _ _ I), wr_bytes_ok by lia. done.
  - assert (Hlen : zlen bs' = zlen bs) by (unfold zlen, bs'; f_equal; apply splice_length; lia).
    pose proof I as []. split; simpl; try done.
    + apply lookup_insert_eq.
    + by rewrite Hlen.
    + intros k q j E Hk Hj. rewrite <-(ih_placed0 k q j E Hk Hj). f_equal.
      assert (Hjc : Z.of_nat j < h_count h).
      { rewrite <-ih_number0. by eapply queue_index. }
      assert (j <> i).
      { intros ->. rewrite (queue_state_of _ _ _ _ P i k q E Hj) in Hs. injection Hs as ->. lia. }
      destruct (key_bounds s h p a bs I j Hjc) as (K0 & K1 & K2 & K3 & K4).
      assert (Es : Some (key_of h bs' j) = Some (key_of h bs j)); [|by injection Es].
      destruct ih_key0 as (_ & _ & K5).
      rewrite <-(slice_key s h p a bs I j Hjc), <-(Hother j) by (done || lia).
      symmetry. apply slice_Some; [lia|lia|]. by rewrite Hlen.
Qed.
End Updates.

(** Reading the value of an element. *)
Lemma rd_value_run s h p a bs i :
  is_hash spin_max s pool h p a bs -> classic h -> Z.of_nat i < h_count h ->
  rd_value array (Z.of_nat i) s = lift (value_of bs i) s.
Proof using.
  intros I (C1 & _) Hi. unfold rd_value, value_of, SIZEOF_KEY_VALUE_PAIR, SIZEOF_SHA1.
  pose proof (ih_size _ _ _ _ _ _ _ I) as Hz. rewrite C1 in Hz.
  destruct (slice bs (24 * Z.of_nat i + 20) 4) as [l|] eqn:El.
  - erewrite cmd_bind_ret; [reflexivity|]. unfold rd_bytes_at. rewrite (ih_bytes _ _ _ _ _ _ _ I).
    cbn [load mbind outcome_bind]. by rewrite El.
  - rewrite slice_Some in El by nia. done.
Qed.

Section Classic.
Variables (h : SXE_HASH) (digits tail sha1 junk : list Z) (value b : Z).
Hypothesis (C : classic h) (Hd : bytes_ok digits) (Hdl : length digits = 40%nat) (Hp : parse_hex digits = Some sha1)
  (Hv : is_u32 value) (Eb : bucket_of h sha1 = Ret b) (Hj : length junk = 20%nat).

Lemma assert_length s : lift (assert6 (40 =? SXE_HASH_SHA1_AS_HEX_LENGTH)) s = @Ret (unit * hstore) (tt, s).
Proof using. unfold assert6. by destruct debug. Qed.

(** Getting the value of a digest: the value of the first element of its bucket with
    that key. *)
Lemma get_run s p a bs q fuel :
  is_hash spin_max s pool h p a bs -> queues a !! Z.to_nat b = Some q -> (length q < fuel)%nat ->
  sxe_hash_get others spin_max tid fuel junk array (digits ++ tail) 40 s =
  match List.find (has_key h bs sha1) q with
  | Some i => lift (value_of bs i) s
  | None => Ret (SXE_HASH_KEY_NOT_FOUND, s)
  end.
Proof using C Hd Hdl Hp Eb Hj.
  intros I E Hf. unfold sxe_hash_get. step_by (rd_hash_ok s h p a bs I). step_by (assert_length s).
  destruct (sha1_read junk digits tail sha1 Hj Hd Hdl Hp) as [R Ls].
  rewrite R. erewrite cmd_bind_ret by reflexivity. simpl fst. rewrite bool_decide_eq_true_2 by done.
  change (negb true) with false. cbv iota. simpl snd.
  assert (Hs : slice sha1 0 (h_key_size h) = Some sha1).
  { destruct C as (_ & _ & ->). rewrite slice_Some by (unfold zlen; lia). change (Z.to_nat 0) with 0%nat. by rewrite drop_0, take_ge by lia. }
  step_by (look_run s h p a bs I fuel sha1 sha1 b q Hs Eb E Hf).
  destruct (List.find (has_key h bs sha1) q) as [i|] eqn:Ef; [|done].
  apply find_some in Ef as [Hi _]. apply list_elem_of_In in Hi.
  assert (Hic : Z.of_nat i < h_count h).
  { rewrite <-(ih_number _ _ _ _ _ _ _ I). eapply queue_index; [apply I|exact E|exact Hi]. }
  destruct (Z.eqb_spec (Z.of_nat i) SXE_HASH_KEY_NOT_FOUND) as [En|].
  { unfold SXE_HASH_KEY_NOT_FOUND, SXE_UNSIGNED_MAXIMUM in En.
    pose proof (lay_number _ _ (ip_layout _ _ _ _ (ih_pool _ _ _ _ _ _ _ I))).
    rewrite (ih_number _ _ _ _ _ _ _ I) in *. lia. }
  change (negb false) with true. cbv iota. rewrite (ih_self _ _ _ _ _ _ _ I). by eapply rd_value_run.
Qed.

(** Setting a digest's value takes the oldest free element and puts it at the end of
    the digest's bucket, with the key and the value. *)
Lemma set_run s p a bs i q0 q :
  is_hash spin_max s pool h p a bs -> queues a !! 0%nat = Some (i :: q0) -> queues a !! Z.to_nat b = Some q ->
  exists s' p' a' bs', sxe_hash_set others spin_max tid array (digits ++ tail) 40 value s = Ret (Z.of_nat i, s') /\
    is_hash spin_max s' pool h p' a' bs' /\ queues a' !! Z.to_nat b = Some (q ++ [i]) /\
    key_of h bs' i = sha1 /\ value_of bs' i = Ret value /\
    (forall j, j ∈ q -> key_of h bs' j = key_of h bs j /\ value_of bs' j = value_of bs j).
Proof using C Hd Hdl Hp Hv Eb Hj.
  intros I E0 E. pose proof C as (C1 & C2 & C3).
  destruct (bucket_range s h p a bs I sha1 b Eb) as [Hr Hb].
  destruct (take_run s h p a bs I i q0 E0) as (w1 & R1 & I1 & Hi).
  set (s1 := mk_hstore w1 (hs_hash s) (hs_bytes s)) in *.
  set (a1 := move i 0 1 (stamp (hs_world s) p) a) in *.
  assert (Hs1 : state_of a1 i = Some 1%nat).
  { destruct (queues a !! 1%nat) as [qn|] eqn:En.
    - eapply queue_state_of; [apply (ih_pool _ _ _ _ _ _ _ I1)| |].
      + unfold a1, move. simpl. rewrite list_lookup_alter_eq, list_lookup_alter_ne, En by lia. reflexivity.
      + apply elem_of_app. right. constructor.
    - apply lookup_ge_None in En. pose proof (hash_states s h p a bs I 1 ltac:(lia)). lia. }
  (* the old bytes and the key *)
  assert (Hz : zlen bs = h_count h * 24) by (rewrite (ih_size _ _ _ _ _ _ _ I), C1; done).
  destruct (slice bs (Z.of_nat i * 24 + 0) 20) as [old|] eqn:Eo; [|rewrite slice_Some in Eo by lia; done].
  destruct (sha1_read old digits tail sha1) as [Rh Ls]; [apply slice_length in Eo; unfold zlen in Eo; lia|done..|].
  destruct (write_run s1 h (bump p) a1 bs I1 i 0 sha1 Hs1) as (R2 & I2 & O2); [lia|rewrite C1; unfold zlen; lia|].
  rewrite C1 in R2, I2, O2. set (bs2 := splice bs (Z.of_nat i * 24 + 0) sha1) in *.
  set (s2 := mk_hstore _ _ (<[array := bs2]> (hs_bytes s1))) in *.
  (* the value *)
  destruct (write_run s2 h (bump p) a1 bs2 I2 i 20 (le32_bytes value) Hs1) as (R3 & I3 & O3); [lia|rewrite C1; done|].
  rewrite C1 in R3, I3, O3. set (bs3 := splice bs2 (Z.of_nat i * 24 + 20) (le32_bytes value)) in *.
  set (s3 := mk_hstore _ _ (<[array := bs3]> (hs_bytes s2))) in *.
  assert (Hz2 : zlen bs2 = zlen bs).
  { unfold zlen, bs2. f_equal. apply splice_length; unfold zlen in *; lia. }
  assert (Ek : key_of h bs3 i = sha1).
  { assert (Es : slice bs3 (Z.of_nat i * 24 + 0) 20 = Some sha1).
    { unfold bs3. rewrite slice_splice_other by (change (zlen (le32_bytes value)) with 4; lia).
      unfold bs2. replace 20 with (zlen sha1) by (unfold zlen; lia). apply slice_splice_same; unfold zlen in *; lia. }
    pose proof (slice_key s3 h (bump p) a1 bs3 I3 i Hi) as Es'. rewrite C1, C2, C3 in Es'. congruence. }
  destruct (add_run s3 h (bump p) a1 bs3 I3 i b Hs1) as (w4 & R4 & I4); [by rewrite Ek|].
  eexists _, _, _, bs3. split_and!; [|exact I4|..].
  - unfold sxe_hash_set. step_by (rd_hash_ok s h p a bs I). step_by (assert_length s). step_by R1.
    destruct (Z.eqb_spec (Z.of_nat i) SXE_HASH_FULL) as [En|].
    { unfold SXE_HASH_FULL, SXE_UNSIGNED_MAXIMUM in En. pose proof (ih_total _ _ _ _ _ _ _ I). lia. }
    rewrite (ih_self _ _ _ _ _ _ _ I). unfold SIZEOF_KEY_VALUE_PAIR, SIZEOF_SHA1.
    replace (24 * Z.of_nat i) with (Z.of_nat i * 24 + 0) by lia.
    replace (Z.of_nat i * 24 + 0 + 20) with (Z.of_nat i * 24 + 20) by lia.
    erewrite (cmd_bind_ret _ _ s1 old s1).
    2:{ unfold rd_bytes_at. rewrite (ih_bytes _ _ _ _ _ _ _ I1). cbn [load mbind outcome_bind]. by rewrite Eo. }
    rewrite Rh. erewrite cmd_bind_ret by reflexivity. simpl snd. step_by R2. step_by R3. step_by R4. done.
  - exact (moved_bucket a i (Z.to_nat b) q _ _ ltac:(lia) E).
  - exact Ek.
  - unfold value_of. replace (24 * Z.of_nat i + 20) with (Z.of_nat i * 24 + 20) by lia.
    change 4 with (zlen (le32_bytes value)) at 1. unfold bs3.
    rewrite slice_splice_same by (change (zlen (le32_bytes value)) with 4; lia). by apply ld32_value.
  - intros j Hjq. assert (Hjc : Z.of_nat j < h_count h).
    { rewrite <-(ih_number _ _ _ _ _ _ _ I). eapply queue_index; [apply I|exact E|exact Hjq]. }
    assert (Hji : j <> i).
    { intros ->. pose proof (ip_queues _ _ _ _ (ih_pool _ _ _ _ _ _ _ I)) as Q.
      assert (0%nat = Z.to_nat b); [|lia].
      eapply concat_unique; [apply (qo_nodup _ _ _ _ Q)|exact E0|exact E|constructor|done]. }
    split.
    + pose proof (slice_key s3 h (bump p) a1 bs3 I3 j Hjc) as S1. pose proof (slice_key s h p a bs I j Hjc) as S2.
      rewrite C1, C2, C3 in S1, S2. rewrite O3, O2 in S1 by (done || lia). congruence.
    + unfold value_of. replace (24 * Z.of_nat j + 20) with (Z.of_nat j * 24 + 20) by lia.
      by rewrite O3, O2 by (done || lia).
Qed.

(** Setting a digest's value in a table with a free element, and getting it.
    The call returns the index of the free element and keeps the table
    well-formed; the value got is the new one if the digest was not in the table
    before, and otherwise still the first value that was set for it. *)
Theorem sxe_hash_set_get s p a bs i q0 q fuel :
  is_hash spin_max s pool h p a bs -> queues a !! 0%nat = Some (i :: q0) -> queues a !! Z.to_nat b = Some q ->
  (S (Z.to_nat (h_count h)) < fuel)%nat ->
  exists s' p' a' bs', sxe_hash_set others spin_max tid array (digits ++ tail) 40 value s = Ret (Z.of_nat i, s') /\
    is_hash spin_max s' pool h p' a' bs' /\
    sxe_hash_get others spin_max tid fuel junk array (digits ++ tail) 40 s' =
    match List.find (has_key h bs sha1) q with
    | Some j => lift (value_of bs j) s'
    | None => Ret (value, s')
    end.
Proof using C Hd Hdl Hp Hv Eb Hj.
  intros I E0 E Hf.
  destruct (set_run s p a bs i q0 q I E0 E) as (s' & p' & a' & bs' & R & I' & E' & Ek & Ev & Ho).
  exists s', p', a', bs'. split_and!; [done|done|].
  rewrite (get_run s' p' a' bs' (q ++ [i]) fuel I' E').
  2:{ pose proof (queue_length pool _ p a _ q (ih_pool _ _ _ _ _ _ _ I) E) as Hq.
      rewrite (ih_number _ _ _ _ _ _ _ I) in Hq. rewrite length_app. simpl. lia. }
  rewrite find_app, (find_ext_in (has_key h bs' sha1) (has_key h bs sha1) q).
  2:{ intros j Hjq. unfold has_key. by destruct (Ho j Hjq) as [-> _]. }
  destruct (List.find (has_key h bs sha1) q) as [j|] eqn:Ef.
  - apply find_some in Ef as [Hjq _]. apply list_elem_of_In in Hjq. by destruct (Ho j Hjq) as [_ ->].
  - simpl. unfold has_key. rewrite Ek, bool_decide_eq_true_2 by done. by rewrite Ev.
Qed.

(** Giving an element back puts it in the free queue. *)
Lemma give_run s p a bs i k :
  is_hash spin_max s pool h p a bs -> state_of a i = Some k ->
  exists w', sxe_hash_give others spin_max tid array (Z.of_nat i) s = Ret (tt, mk_hstore w' (hs_hash s) (hs_bytes s)) /\
    is_hash spin_max (mk_hstore w' (hs_hash s) (hs_bytes s)) pool h (bump p)
      (move i k 0 (stamp (hs_world s) p) a) bs.
Proof using C Hd Hdl Hp Hv Eb Hj.
  intros I Hs. pose proof (ih_pool _ _ _ _ _ _ _ I) as P. pose proof (ih_available _ _ _ _ _ _ _ I) as A.
  pose proof (state_of_bound _ _ _ _ P _ _ Hs) as [Hi Hk].
  destruct (set_state_step others spin_max tid pool _ p a P A i k 0 Hs) as (w' & R & P' & _).
  { rewrite (ip_nstamps _ _ _ _ P), (qo_states _ _ _ _ (ip_queues _ _ _ _ P)). lia. }
  exists w'. split; [|apply (is_hash_move s h p a bs I); [done|lia]].
  unfold sxe_hash_give. step_by (rd_hash_ok s h p a bs I).
  step_by (on_world_ret _ _ _ _ (state_of_step _ _ _ _ _ _ P Hs)). rewrite same_hstore, (ih_self _ _ _ _ _ _ _ I).
  by step_by (on_world_ret _ _ _ _ R).
Qed.

(** Removing a digest that is in the table returns its value and takes exactly
    the element that held it out of the bucket; if no other element has the same
    digest, it is then not found. *)
Theorem sxe_hash_remove_get s p a bs q i v fuel :
  is_hash spin_max s pool h p a bs -> queues a !! Z.to_nat b = Some q ->
  List.find (has_key h bs sha1) q = Some i -> value_of bs i = Ret v -> (Z.to_nat (h_count h) < fuel)%nat ->
  exists s' p' a', sxe_hash_remove others spin_max tid fuel junk array (digits ++ tail) 40 s = Ret (v, s') /\
    is_hash spin_max s' pool h p' a' bs /\ queues a' !! Z.to_nat b = Some (filter (fun j => j <> i) q) /\
    ((forall j, j ∈ q -> has_key h bs sha1 j = true -> j = i) ->
     sxe_hash_get others spin_max tid fuel junk array (digits ++ tail) 40 s' = Ret (SXE_HASH_KEY_NOT_FOUND, s')).
Proof using C Hd Hdl Hp Hv Eb Hj.
  intros I E Ef Ev Hf. pose proof (ih_pool _ _ _ _ _ _ _ I) as P.
  pose proof (queue_length pool _ p a _ q P E) as Hq. rewrite (ih_number _ _ _ _ _ _ _ I) in Hq.
  destruct (bucket_range s h p a bs I sha1 b Eb) as [Hr Hb].
  pose proof Ef as [Hi Hki]%find_some. apply list_elem_of_In in Hi.
  pose proof (queue_state_of _ _ _ _ P _ _ _ E Hi) as Hs.
  destruct (give_run s p a bs i _ I Hs) as (w' & R & I').
  assert (Hic : Z.of_nat i < h_count h) by (rewrite <-(ih_number _ _ _ _ _ _ _ I); by eapply queue_index).
  assert (E' : queues (move i (Z.to_nat b) 0 (stamp (hs_world s) p) a) !! Z.to_nat b = Some (filter (fun j => j <> i) q)).
  { unfold move. simpl. rewrite list_lookup_alter_ne, list_lookup_alter_eq, E by lia. done. }
  eexists _, _, _. split; [|split; [exact I'|split; [exact E'|]]].
  - unfold sxe_hash_remove. step_by (rd_hash_ok s h p a bs I). step_by (assert_length s).
    destruct (sha1_read junk digits tail sha1 Hj Hd Hdl Hp) as [Rh Ls].
    rewrite Rh. erewrite cmd_bind_ret by reflexivity. simpl fst. rewrite bool_decide_eq_true_2 by done.
    change (negb true) with false. cbv iota. simpl snd.
    assert (Hsl : slice sha1 0 (h_key_size h) = Some sha1).
    { destruct C as (_ & _ & ->). rewrite slice_Some by (unfold zlen; lia).
      change (Z.to_nat 0) with 0%nat. by rewrite drop_0, take_ge by lia. }
    step_by (look_run s h p a bs I fuel sha1 sha1 b q Hsl Eb E ltac:(lia)). rewrite Ef.
    destruct (Z.eqb_spec (Z.of_nat i) SXE_HASH_KEY_NOT_FOUND) as [En|].
    { unfold SXE_HASH_KEY_NOT_FOUND, SXE_UNSIGNED_MAXIMUM in En. pose proof (ih_total _ _ _ _ _ _ _ I).
      pose proof (lay_number _ _ (ip_layout _ _ _ _ P)). rewrite (ih_number _ _ _ _ _ _ _ I) in *. lia. }
    change (negb false) with true. cbv iota. rewrite (ih_self _ _ _ _ _ _ _ I).
    erewrite cmd_bind_ret by (etrans; [eapply rd_value_run; [exact I|exact C|exact Hic]|rewrite Ev; reflexivity]).
    by step_by R.
  - intros Hu. rewrite (get_run _ _ _ bs _ fuel I' E').
    2:{ pose proof (length_filter (fun j => j <> i) q). lia. }
    destruct (List.find (has_key h bs sha1) (filter (fun j => j <> i) q)) as [j|] eqn:Ej; [|done].
    apply find_some in Ej as [Hjq Hjk]. apply list_elem_of_In, list_elem_of_filter in Hjq as [Hne Hjq].
    by destruct (Hne (Hu j Hjq Hjk)).
Qed.
End Classic.
End Tables.

(** ** Witnesses: a table of two pairs, with its pool at address 1000 *)
Definition hash_raw_world : world :=
  mk_world (mk_mem {[1352 := mk_node 0 0 0; 1384 := mk_node 0 0 0]} ∅)
    {[1000 := raw_impl]} {[1352 := 0; 1384 := 0]} 5 0.

Lemma hash_raw_block : raw_block hash_raw_world 1000 2 24 4 raw_impl.
Proof.
  split; [reflexivity|lia..|unfold SIZEOF_POOL_IMPL, SIZEOF_LIST, SIZEOF_POOL_NODE; lia|].
  intros i Hi. assert (i = 0 \/ i = 1) as [->| ->] by lia; cbv zeta.
  all: split; [apply elem_of_dom|]; eexists; reflexivity.
Qed.

Definition example_hash : SXE_HASH := mk_hash 1144 2 24 0 20 0 sxe_prehashed_key_hash.
Definition example_digits : list Z := concat (replicate 20 [48; 49]).
Definition example_sha1 : list Z := replicate 20 1.

Lemma empty_table : exists s p,
  is_hash 10 s 1000 example_hash p (new_pool 2 4 false 5) (replicate 48 7).
Proof.
  destruct (construct_run 10 0 hash_raw_world 1000 [104] 2 24 4 0 raw_impl hash_raw_block) as (w & p & R & I); [lia|].
  assert (E : (match sxe_pool_construct 0 1000 [104] 2 24 4 0 hash_raw_world with
               | Ret (_, w) => (fun p => (p_options p, p_number p, p_states p)) <$> w_impls w !! 1000
               | _ => None end) = Some (0, 2, 4)) by (vm_compute; reflexivity).
  rewrite R, (ip_impl _ _ _ _ (im_pool _ _ _ _ _ I)) in E. injection E as E1 E2 E3.
  exists (mk_hstore w {[960 := example_hash]} {[1144 := replicate 48 7]}), p.
  split.
  - exact (im_pool _ _ _ _ _ I).
  - exact (im_available _ _ _ _ _ I).
  - exact (im_timed _ _ _ _ _ I).
  - apply lookup_singleton_eq.
  - reflexivity.
  - exact E2.
  - exact E3.
  - reflexivity.
  - apply lookup_singleton_eq.
  - reflexivity.
  - reflexivity.
  - simpl. lia.
  - intros k q i E Hk Hi. exfalso. simpl in E.
    destruct k as [|[|[|[|k]]]]; [lia|lia| | |discriminate E]; injection E as <-; by apply elem_of_nil in Hi.
Qed.

Lemma example_classic : classic example_hash.
Proof. done. Qed.
Lemma example_digits_ok : bytes_ok example_digits.
Proof. by apply bytes_ok_check. Qed.

Lemma sxe_hash_set_get_witness : exists s s',
  sxe_hash_set (H := true) idle_others 10 7 1144 example_digits 40 99 s = Ret (1, s') /\
  sxe_hash_get (H := true) idle_others 10 7 4 (replicate 20 0) 1144 example_digits 40 s' = Ret (99, s').
Proof.
  destruct empty_table as (s & p & I). exists s.
  destruct (sxe_hash_set_get (H := true) idle_others 10 7 1000 example_hash example_digits [] example_sha1 (replicate 20 0) 99 3
    example_classic example_digits_ok eq_refl eq_refl ltac:(unfold is_u32; lia) eq_refl eq_refl
    s p (new_pool 2 4 false 5) (replicate 48 7) 1 [0%nat] [] 4 I eq_refl eq_refl ltac:(simpl; lia))
    as (s' & p' & a' & bs' & R & _ & G).
  exists s'. split; [exact R|exact G].
Defined.

(** A table that holds the digest. *)
Lemma filled_table : exists s p a bs, is_hash 10 s 1000 example_hash p a bs /\ queues a !! 3%nat = Some [1%nat] /\
  key_of example_hash bs 1 = example_sha1 /\ value_of bs 1 = Ret 99.
Proof.
  destruct empty_table as (s & p & I).
  destruct (set_run (H := true) idle_others 10 7 1000 example_hash example_digits [] example_sha1 (replicate 20 0) 99 3
    example_classic example_digits_ok eq_refl eq_refl ltac:(unfold is_u32; lia) eq_refl eq_refl
    s p (new_pool 2 4 false 5) (replicate 48 7) 1 [0%nat] [] I eq_refl eq_refl)
    as (s' & p' & a' & bs' & _ & I' & E & Ek & Ev & _).
  by exists s', p', a', bs'.
Qed.

Lemma sxe_hash_look_exact_witness : exists s r,
  sxe_hash_look idle_others 10 7 4 1144 example_sha1 s = Ret (r, s) /\ ~ (r = SXE_HASH_KEY_NOT_FOUND).
Proof.
  destruct filled_table as (s & p & a & bs & I & E & Ek & _). exists s.
  destruct (sxe_hash_look_exact idle_others 10 7 1000 s example_hash p a bs 4 example_sha1 example_sha1 3
    I eq_refl eq_refl ltac:(simpl; lia)) as (r & R & [[-> Hn]|(k & q & i & -> & Eq & _ & Hi & _)]).
  - exfalso. apply (Hn 3%nat [1%nat] 1%nat E); [lia|constructor|exact Ek].
  - exists (Z.of_nat i). split; [exact R|]. unfold SXE_HASH_KEY_NOT_FOUND, SXE_UNSIGNED_MAXIMUM.
    pose proof (queue_index _ _ _ _ (ih_pool _ _ _ _ _ _ _ I) k q i Eq Hi).
    pose proof (lay_number _ _ (ip_layout _ _ _ _ (ih_pool _ _ _ _ _ _ _ I))). lia.
Defined.

Lemma sxe_hash_remove_get_witness : exists s s',
  sxe_hash_remove (H := true) idle_others 10 7 4 (replicate 20 0) 1144 example_digits 40 s = Ret (99, s') /\
  sxe_hash_get (H := true) idle_others 10 7 4 (replicate 20 0) 1144 example_digits 40 s' = Ret (SXE_HASH_KEY_NOT_FOUND, s').
Proof.
  destruct filled_table as (s & p & a & bs & I & E & Ek & Ev). exists s.
  destruct (sxe_hash_remove_get (H := true) idle_others 10 7 1000 example_hash example_digits [] example_sha1 (replicate 20 0) 99 3
    example_classic example_digits_ok eq_refl eq_refl ltac:(unfold is_u32; lia) eq_refl eq_refl
    s p a bs [1%nat] 1 99 4 I E) as (s' & p' & a' & R & _ & _ & G).
  - simpl. unfold has_key. by rewrite Ek.
  - exact Ev.
  - simpl. lia.
  - exists s'. split; [exact R|]. apply G. intros j Hj _. by apply list_elem_of_singleton in Hj.
Defined.
