(* ===== verification/RingBuffer.v ===== *)
(** * RingBuffer: a ring that one writer fills and many readers follow
    (lib-sxe-ring-buffer)

    Pointers into the array are offsets from SXE_RING_BUFFER_ARRAY_BASE. The
    specification sees the bytes written as one stream, cut into laps of the
    ring; a reader is a position in that stream. *)

From S2P Require Import Prelude.

(** lib-sxe-ring-buffer/sxe-ring-buffer-private.h:19-23, SXE_RING_BUFFER_SIZE. The ring:
    its size, the number of times it wrapped, the next place to write, the last
    written place, and the array. *)
Record ring := mk_ring {
  rb_size : Z;
  rb_iteration : Z;
  rb_current : Z;
  rb_writen_end : Z;
  rb_array : list Z
}.

(** lib-sxe-ring-buffer/sxe-ring-buffer.h:30-36, SXE_RING_BUFFER_CONTEXT. *)
Record SXE_RING_BUFFER_CONTEXT := mk_context {
  itteration : Z;
  data_block : Z;
  data_block_len : Z;
  writable_block : Z;
  writable_block_len : Z
}.

(** lib-sxe-ring-buffer/sxe-ring-buffer-private.h:25-25, SXE_RING_BUFFER_END. *)
Definition SXE_RING_BUFFER_END (r : ring) : Z := rb_size r - 1.

(** lib-sxe-ring-buffer/sxe-ring-buffer-private.h:17-17, SXE_RING_BUFFER_SIZE_OF_INTERNALS. *)
Definition SXE_RING_BUFFER_SIZE_OF_INTERNALS : Z := 4 + 4 + 8 + 8.

(** Rings by the address of their memory. *)
Definition ring_store := gmap Z ring.

(** lib-sxe-ring-buffer/sxe-ring-buffer.c:32-48, sxe_ring_buffer_new. [malloc] returns an
    address and the initial bytes of the block. *)
Definition sxe_ring_buffer_new (malloc : Z -> option (Z * list Z)) (size : Z) : cmd ring_store Z := fun s =>
  match malloc (size + SXE_RING_BUFFER_SIZE_OF_INTERNALS) with
  | Some (base, junk) =>
      Ret (base, <[base := mk_ring size 0 0 0 (drop (Z.to_nat SXE_RING_BUFFER_SIZE_OF_INTERNALS) junk)]> s)
  | None => Abort
  end.

(** lib-sxe-ring-buffer/sxe-ring-buffer.c:50-52, sxe_ring_buffer_delete. *)
Definition sxe_ring_buffer_delete (base : Z) : cmd ring_store unit := modify (delete base).

(** lib-sxe-ring-buffer/sxe-ring-buffer.c:54-95, sxe_ring_buffer_add. *)
Definition sxe_ring_buffer_add (r : ring) (buf : list Z) (len : Z) : outcome ring :=
  assert1 (len <=? rb_size r);;
  let available_space := u32 (SXE_RING_BUFFER_END r - rb_current r + 1) in
  if len <=? available_space then
    l ← load (slice buf 0 len);
    array ← wr_bytes (rb_array r) (rb_current r) l;
    let current := rb_current r + len in
    if current =? SXE_RING_BUFFER_END r + 1 then
      mret (mk_ring (rb_size r) (u32 (rb_iteration r + 1)) 0 (SXE_RING_BUFFER_END r) array)
    else
      mret (mk_ring (rb_size r) (rb_iteration r) current
              (if rb_writen_end r <? current then current - 1 else rb_writen_end r) array)
  else
    l1 ← load (slice buf 0 available_space);
    array ← wr_bytes (rb_array r) (rb_current r) l1;
    l2 ← load (slice buf available_space (u32 (len - available_space)));
    array ← wr_bytes array 0 l2;
    mret (mk_ring (rb_size r) (u32 (rb_iteration r + 1)) (u32 (len - available_space)) (SXE_RING_BUFFER_END r) array).

(** lib-sxe-ring-buffer/sxe-ring-buffer.c:98-107, sxe_ring_buffer_next_writable_block. *)
Definition sxe_ring_buffer_next_writable_block (r : ring) (c : SXE_RING_BUFFER_CONTEXT) : outcome SXE_RING_BUFFER_CONTEXT :=
  let len := u32 (SXE_RING_BUFFER_END r - rb_current r + 1) in
  assert1 (negb (len =? 0));;
  mret (mk_context (itteration c) (data_block c) (data_block_len c) (rb_current r) len).

(** lib-sxe-ring-buffer/sxe-ring-buffer.c:110-133, sxe_ring_buffer_wrote_block. *)
Definition sxe_ring_buffer_wrote_block (r : ring) (c : SXE_RING_BUFFER_CONTEXT) (len : Z) : outcome ring :=
  assert1 (writable_block c =? rb_current r);;
  assert1 (len <=? u32 (SXE_RING_BUFFER_END r - rb_current r + 1));;
  let current := rb_current r + len in
  if current =? SXE_RING_BUFFER_END r + 1 then
    mret (mk_ring (rb_size r) (u32 (rb_iteration r + 1)) 0 (SXE_RING_BUFFER_END r) (rb_array r))
  else
    mret (mk_ring (rb_size r) (rb_iteration r) current
            (if rb_writen_end r <? current then current - 1 else rb_writen_end r) (rb_array r)).

(** lib-sxe-ring-buffer/sxe-ring-buffer.c:136-144, sxe_ring_buffer_force_ring_wrap. *)
Definition sxe_ring_buffer_force_ring_wrap (r : ring) : ring :=
  mk_ring (rb_size r) (u32 (rb_iteration r + 1)) 0 (rb_current r - 1) (rb_array r).

(** lib-sxe-ring-buffer/sxe-ring-buffer.c:146-157, sxe_ring_buffer_next_writable_block_size. *)
Definition sxe_ring_buffer_next_writable_block_size (r : ring) (c : SXE_RING_BUFFER_CONTEXT) (size : Z)
  : outcome (ring * SXE_RING_BUFFER_CONTEXT) :=
  assert1 (size <=? rb_size r);;
  c ← sxe_ring_buffer_next_writable_block r c;
  if writable_block_len c <? size then
    let r := sxe_ring_buffer_force_ring_wrap r in
    c ← sxe_ring_buffer_next_writable_block r c;
    mret (r, c)
  else mret (r, c).

(** lib-sxe-ring-buffer/sxe-ring-buffer.c:159-187, sxe_ring_buffer_join. *)
Definition sxe_ring_buffer_join (r : ring) (c : SXE_RING_BUFFER_CONTEXT) (replay_half : bool) : SXE_RING_BUFFER_CONTEXT :=
  let at_ it d := mk_context it d 0 (writable_block c) (writable_block_len c) in
  if replay_half then
    if rb_size r / 2 <=? rb_current r then at_ (rb_iteration r) (rb_current r - rb_size r / 2)
    else if rb_iteration r =? 0 then at_ (rb_iteration r) 0
    else at_ (u32 (rb_iteration r - 1)) (rb_current r + Z.quot (rb_writen_end r + 1) 2)
  else at_ (rb_iteration r) (rb_current r).

(** lib-sxe-ring-buffer/sxe-ring-buffer.c:190-211, sxe_ring_buffer_check_over_run. *)
Definition sxe_ring_buffer_check_over_run (r : ring) (c : SXE_RING_BUFFER_CONTEXT) : SXE_RETURN * SXE_RING_BUFFER_CONTEXT :=
  if (u32 (itteration c + 1) <? rb_iteration r)
     || ((itteration c <? rb_iteration r) && (data_block c <? rb_current r)) then
    (SXE_RETURN_ERROR_INTERNAL, mk_context (rb_iteration r) (rb_current r) 0 (writable_block c) (writable_block_len c))
  else (SXE_RETURN_OK, c).

(** lib-sxe-ring-buffer/sxe-ring-buffer.c:214-249, sxe_ring_buffer_next_block. *)
Definition sxe_ring_buffer_next_block (r : ring) (c : SXE_RING_BUFFER_CONTEXT) : SXE_RETURN * SXE_RING_BUFFER_CONTEXT :=
  let (result, c) := sxe_ring_buffer_check_over_run r c in
  let block it d len := mk_context it d (u32 len) (writable_block c) (writable_block_len c) in
  if bool_decide (result = SXE_RETURN_ERROR_INTERNAL) then (result, c)
  else if data_block c <? rb_current r then
    (result, block (itteration c) (data_block c) (rb_current r - data_block c))
  else if (rb_current r <=? data_block c) && (rb_iteration r =? u32 (itteration c + 1))
          && (rb_writen_end r =? data_block c - 1) then
    (result, block (u32 (itteration c + 1)) 0 (rb_current r))
  else if itteration c <? rb_iteration r then
    (result, block (itteration c) (data_block c) (rb_writen_end r - data_block c + 1))
  else (result, c).

(** lib-sxe-ring-buffer/sxe-ring-buffer.c:252-279, sxe_ring_buffer_consumed. *)
Definition sxe_ring_buffer_consumed (r : ring) (c : SXE_RING_BUFFER_CONTEXT) (len : Z)
  : outcome (SXE_RETURN * SXE_RING_BUFFER_CONTEXT) :=
  let (result, c) := sxe_ring_buffer_check_over_run r c in
  if bool_decide (result = SXE_RETURN_ERROR_INTERNAL) then mret (result, c)
  else
    let c := mk_context (itteration c) (data_block c + len) (u32 (data_block_len c - len))
               (writable_block c) (writable_block_len c) in
    assert1 (data_block c <=? rb_writen_end r + 1);;
    if (data_block c =? rb_writen_end r + 1) && negb (data_block c =? rb_current r) then
      assert1 (data_block_len c =? 0);;
      mret (result, mk_context (u32 (itteration c + 1)) 0 (data_block_len c) (writable_block c) (writable_block_len c))
    else mret (result, c).

(** ** The stream *)

(** What was written: the laps before the previous one, the previous lap, and the
    current one. *)
Record stream := mk_stream { st_past : list Z; st_prev : list Z; st_cur : list Z }.

Definition st_all (g : stream) : list Z := st_past g ++ st_prev g ++ st_cur g.

(** The current lap ends. *)
Definition st_wrap (g : stream) : stream := mk_stream (st_past g ++ st_prev g) (st_cur g) [].

Record is_ring (r : ring) (g : stream) : Prop := {
  ir_size : 0 < rb_size r < 4294967296;
  ir_current : rb_current r = zlen (st_cur g);
  ir_room : zlen (st_cur g) < rb_size r;
  ir_prev : zlen (st_prev g) <= rb_size r;
  ir_end : rb_writen_end r = Z.max (if rb_iteration r =? 0 then 1 else zlen (st_prev g)) (zlen (st_cur g)) - 1;
  ir_first : rb_iteration r = 0 -> st_prev g = [];
  ir_iteration : is_u32 (rb_iteration r);
  ir_length : zlen (rb_array r) = rb_size r;
  ir_array : exists junk, rb_array r = st_cur g ++ drop (length (st_cur g)) (st_prev g) ++ junk
}.

(** The reader [c] is at position [n] of the stream, and its block is part of it. *)
Inductive reader_at (r : ring) (g : stream) (c : SXE_RING_BUFFER_CONTEXT) (n : Z) : Prop :=
| reader_this_lap :
    itteration c = rb_iteration r -> 0 <= data_block c -> 0 <= data_block_len c ->
    data_block c + data_block_len c <= zlen (st_cur g) ->
    n = zlen (st_past g) + zlen (st_prev g) + data_block c -> reader_at r g c n
| reader_previous_lap :
    0 <= itteration c -> itteration c + 1 = rb_iteration r -> zlen (st_cur g) <= data_block c -> 0 <= data_block_len c ->
    data_block c + data_block_len c <= zlen (st_prev g) ->
    n = zlen (st_past g) + data_block c -> reader_at r g c n.

(** The writer has passed the reader. *)
Definition behind (r : ring) (c : SXE_RING_BUFFER_CONTEXT) : Prop :=
  0 <= itteration c < rb_iteration r /\ 0 <= data_block c /\
  (itteration c + 1 < rb_iteration r \/ data_block c < rb_current r).

(** ** Writing *)

(** The stream after [l], which fits in the current lap; a full lap ends. *)
Definition st_append (size : Z) (g : stream) (l : list Z) : stream :=
  let g' := mk_stream (st_past g) (st_prev g) (st_cur g ++ l) in
  if zlen (st_cur g) + zlen l =? size then st_wrap g' else g'.

(** The stream after sxe_ring_buffer_add. *)
Definition st_add (size : Z) (g : stream) (l : list Z) : stream :=
  let room := size - zlen (st_cur g) in
  if zlen l <=? room then st_append size g l
  else st_append size (st_append size g (take (Z.to_nat room) l)) (drop (Z.to_nat room) l).

Lemma st_all_wrap g : st_all (st_wrap g) = st_all g.
Proof. unfold st_all, st_wrap. simpl. by rewrite app_nil_r, (assoc_L (++)). Qed.

Lemma st_all_append size g l : st_all (st_append size g l) = st_all g ++ l.
Proof.
  unfold st_append. case_if; [rewrite st_all_wrap|]; unfold st_all; simpl; by rewrite !(assoc_L (++)).
Qed.

Lemma st_all_add size g l : st_all (st_add size g l) = st_all g ++ l.
Proof. unfold st_add. case_if; rewrite !st_all_append; [done|]. by rewrite <-(assoc_L (++)), take_drop. Qed.

(** The array holds the current lap and what it has not yet replaced of the previous one. *)
Lemma array_append arr c p l :
  (exists junk, arr = c ++ drop (length c) p ++ junk) -> zlen c + zlen l <= zlen arr ->
  exists arr', wr_bytes arr (zlen c) l = Ret arr' /\ zlen arr' = zlen arr /\
    exists junk, arr' = (c ++ l) ++ drop (length (c ++ l)) p ++ junk.
Proof.
  intros [junk E] Hl. pose proof (zlen_nonneg c). rewrite wr_bytes_ok by (unfold zlen in *; lia).
  eexists; split; [done|]. split; [by unfold zlen; rewrite splice_length|].
  unfold splice, zlen. rewrite Nat2Z.id. rewrite E.
  rewrite take_app_length, <-drop_drop, drop_app_length.
  destruct (le_lt_dec (length l) (length (drop (length c) p))) as [Hc|Hc].
  - rewrite drop_app_le, drop_drop, length_app by done. exists junk. by rewrite <-!(assoc_L (++)).
  - rewrite drop_app_ge by lia. rewrite (drop_ge p (length (c ++ l))) by (rewrite length_app; rewrite length_drop in Hc; lia).
    eexists. simpl. by rewrite <-!(assoc_L (++)).
Qed.

Section Writing.
Variables (r : ring) (g : stream).
Hypothesis I : is_ring r g.

Lemma available_space : u32 (SXE_RING_BUFFER_END r - rb_current r + 1) = rb_size r - zlen (st_cur g).
Proof using I.
  destruct I. unfold SXE_RING_BUFFER_END. pose proof (zlen_nonneg (st_cur g)). rewrite u32_small; unfold is_u32; lia.
Qed.

(** The ring after [l] was stored at the current place. *)
Definition advanced (arr l : list Z) : ring :=
  if rb_current r + zlen l =? SXE_RING_BUFFER_END r + 1 then
    mk_ring (rb_size r) (u32 (rb_iteration r + 1)) 0 (SXE_RING_BUFFER_END r) arr
  else
    mk_ring (rb_size r) (rb_iteration r) (rb_current r + zlen l)
      (if rb_writen_end r <? rb_current r + zlen l then rb_current r + zlen l - 1 else rb_writen_end r) arr.

Lemma advanced_ring arr l :
  rb_iteration r + 1 < 4294967295 -> zlen (st_cur g) + zlen l <= rb_size r -> zlen arr = rb_size r ->
  (exists junk, arr = (st_cur g ++ l) ++ drop (length (st_cur g ++ l)) (st_prev g) ++ junk) ->
  is_ring (advanced arr l) (st_append (rb_size r) g l).
Proof using I.
  intros Hit Hl Ha [junk Hj]. pose proof (zlen_nonneg l). pose proof (zlen_nonneg (st_cur g)).
  destruct I as [S C R P E F T L A]. unfold is_u32 in T. unfold advanced, st_append, SXE_RING_BUFFER_END.
  replace (rb_current r + zlen l =? rb_size r - 1 + 1) with (zlen (st_cur g) + zlen l =? rb_size r) by lia.
  destruct (Z.eqb_spec (zlen (st_cur g) + zlen l) (rb_size r)) as [Ef|Ef].
  - rewrite u32_small by (unfold is_u32; lia). split; simpl; rewrite ?zlen_app; try change (zlen (@nil Z)) with 0; try done; try lia.
    + replace (rb_iteration r + 1 =? 0) with false by lia. change (zlen []) with 0. lia.
    + unfold is_u32. lia.
    + rewrite Hj. eexists. by rewrite drop_0.
  - split; simpl; rewrite ?zlen_app; try done; try lia; [|by exists junk].
    rewrite E. pose proof (zlen_nonneg (st_prev g)). destruct (rb_iteration r =? 0); case_if; lia.
Qed.

Lemma advanced_iteration arr l : rb_iteration r + 1 < 4294967295 ->
  rb_iteration r <= rb_iteration (advanced arr l) <= rb_iteration r + 1.
Proof using I.
  destruct I as [_ _ _ _ _ _ T _ _]. unfold is_u32, advanced in *. intros.
  case_if; simpl; [|lia]. rewrite u32_small by (unfold is_u32; lia). lia.
Qed.

Lemma advanced_iteration_eq arr l : rb_iteration r + 1 < 4294967295 ->
  rb_iteration (advanced arr l) = rb_iteration r + (if zlen (st_cur g) + zlen l =? rb_size r then 1 else 0).
Proof using I.
  destruct I as [_ C _ _ _ _ T _ _]. unfold is_u32, advanced, SXE_RING_BUFFER_END in *. intros.
  replace (rb_current r + zlen l =? rb_size r - 1 + 1) with (zlen (st_cur g) + zlen l =? rb_size r) by lia.
  case_if; simpl; [|lia]. by rewrite u32_small by (unfold is_u32; lia).
Qed.

(** A reader is where it was or behind, and a reader behind stays behind. *)
Lemma advanced_reader arr l c n :
  rb_iteration r + 1 < 4294967295 -> reader_at r g c n ->
  reader_at (advanced arr l) (st_append (rb_size r) g l) c n \/ behind (advanced arr l) c.
Proof using I.
  intros Hit Hc. pose proof (zlen_nonneg l). pose proof (zlen_nonneg (st_cur g)).
  destruct I as [S C R P E F T L A]. unfold is_u32 in T. unfold advanced, st_append, SXE_RING_BUFFER_END.
  replace (rb_current r + zlen l =? rb_size r - 1 + 1) with (zlen (st_cur g) + zlen l =? rb_size r) by lia.
  destruct (Z.eqb_spec (zlen (st_cur g) + zlen l) (rb_size r)) as [Ef|Ef]; [rewrite u32_small by (unfold is_u32; lia)|].
  - destruct Hc as [H1 H2 H3 H4 H5|H1 H2 H3 H4 H5 H6].
    + left. apply reader_previous_lap; simpl; rewrite ?zlen_app; change (zlen []) with 0; lia.
    + right. unfold behind. simpl. lia.
  - destruct Hc as [H1 H2 H3 H4 H5|H1 H2 H3 H4 H5 H6].
    + left. apply reader_this_lap; simpl; rewrite ?zlen_app; lia.
    + destruct (Z.le_gt_cases (zlen (st_cur g) + zlen l) (data_block c)).
      * left. apply reader_previous_lap; simpl; rewrite ?zlen_app; lia.
      * right. unfold behind. simpl. lia.
Qed.

Lemma advanced_behind arr l c : rb_iteration r + 1 < 4294967295 -> behind r c -> behind (advanced arr l) c.
Proof using I.
  destruct I as [_ C _ _ _ _ T _ _]. unfold is_u32, behind, advanced in *. intros Hit Hc. pose proof (zlen_nonneg l).
  case_if; simpl; [rewrite u32_small by (unfold is_u32; lia)|]; lia.
Qed.
End Writing.

(** ** The operations that write *)

(** How a write changes the ring, as its readers see it. *)
Record written (r : ring) (r' : ring) (g' : stream) : Prop := {
  wt_ring : is_ring r' g';
  wt_size : rb_size r' = rb_size r;
  wt_iteration : rb_iteration r <= rb_iteration r';
  wt_behind : forall c, behind r c -> behind r' c
}.

Section Operations.
Variables (r : ring) (g : stream).
Hypothesis I : is_ring r g.

Lemma advanced_size arr l : rb_size (advanced r arr l) = rb_size r.
Proof using. unfold advanced. by case_if. Qed.

(** One store in the current lap. *)
Lemma append_run l :
  rb_iteration r + 1 < 4294967295 -> zlen (st_cur g) + zlen l <= rb_size r ->
  exists arr, wr_bytes (rb_array r) (rb_current r) l = Ret arr /\
    written r (advanced r arr l) (st_append (rb_size r) g l) /\
    rb_iteration (advanced r arr l) <= rb_iteration r + 1 /\
    forall c n, reader_at r g c n -> reader_at (advanced r arr l) (st_append (rb_size r) g l) c n \/ behind (advanced r arr l) c.
Proof using I.
  intros Hit Hl. rewrite (ir_current _ _ I).
  destruct (array_append (rb_array r) (st_cur g) (st_prev g) l (ir_array _ _ I)) as (arr & R & La & Ha).
  { rewrite (ir_length _ _ I). lia. }
  exists arr. split; [done|]. rewrite (ir_length _ _ I) in La.
  pose proof (advanced_iteration r g I arr l Hit). split_and!; [split| |]; try lia.
  - by apply advanced_ring.
  - apply advanced_size.
  - intros c. by apply (advanced_behind r g I).
  - intros c n. by apply advanced_reader.
Qed.

Lemma add_short l tail :
  zlen l <= rb_size r - zlen (st_cur g) ->
  sxe_ring_buffer_add r (l ++ tail) (zlen l) =
    (arr ← wr_bytes (rb_array r) (rb_current r) l; mret (advanced r arr l)).
Proof using I.
  intros Hl. unfold sxe_ring_buffer_add. rewrite (available_space r g I). pose proof (zlen_nonneg (st_cur g)).
  replace (zlen l <=? rb_size r) with true by lia. cbn [assert1 mbind outcome_bind].
  replace (zlen l <=? rb_size r - zlen (st_cur g)) with true by lia.
  rewrite slice_prefix.
  cbn [load mbind outcome_bind]. destruct (wr_bytes _ _ _); [|done|done]. unfold advanced. by case_if.
Qed.

(** A longer one fills the lap first, then continues at the start of the array. *)
Lemma add_long l tail : rb_iteration r + 1 < 4294967295 ->
  rb_size r - zlen (st_cur g) < zlen l <= rb_size r ->
  let room := Z.to_nat (rb_size r - zlen (st_cur g)) in
  exists arr arr', wr_bytes (rb_array r) (rb_current r) (take room l) = Ret arr /\
    wr_bytes arr 0 (drop room l) = Ret arr' /\
    sxe_ring_buffer_add r (l ++ tail) (zlen l) = Ret (advanced (advanced r arr (take room l)) arr' (drop room l)).
Proof using I.
  intros Hit Hl room. pose proof (zlen_nonneg (st_cur g)). pose proof (ir_room _ _ I). pose proof (ir_size _ _ I).
  assert (L1 : zlen (take room l) = rb_size r - zlen (st_cur g)) by (unfold zlen in *; rewrite length_take; lia).
  assert (L2 : zlen (drop room l) = zlen l - (rb_size r - zlen (st_cur g))) by (unfold zlen in *; rewrite length_drop; lia).
  destruct (append_run (take room l) Hit ltac:(lia)) as (arr & R1 & W & _).
  assert (Lar : zlen arr = rb_size r).
  { pose proof (ir_length _ _ (wt_ring _ _ _ W)) as L. rewrite advanced_size in L.
    unfold advanced in L. by destruct (_ =? _) in L. }
  exists arr. rewrite (wr_bytes_ok arr 0) by lia. eexists. split_and!; [done..|].
  unfold sxe_ring_buffer_add. rewrite (available_space r g I).
  replace (zlen l <=? rb_size r) with true by lia. cbn [assert1 mbind outcome_bind].
  replace (zlen l <=? rb_size r - zlen (st_cur g)) with false by lia.
  rewrite (slice_Some _ 0) by (rewrite ?zlen_app; unfold zlen in *; lia). change (Z.to_nat 0) with 0%nat.
  rewrite drop_0, take_app_le by (unfold zlen in *; lia). fold room. cbn [load mbind outcome_bind].
  rewrite R1. cbn [mbind outcome_bind].
  rewrite (u32_small (zlen l - _)) by (unfold is_u32; lia).
  rewrite slice_Some by (rewrite ?zlen_app; unfold zlen in *; lia). fold room.
  rewrite drop_app_le, take_app_le by (rewrite ?length_drop; unfold zlen in *; lia).
  rewrite (take_ge (drop room l)) by (rewrite length_drop; unfold zlen in *; lia). cbn [load mbind outcome_bind].
  rewrite wr_bytes_ok by lia. cbn [mbind outcome_bind]. unfold mret, outcome_ret. f_equal.
  unfold advanced at 2, SXE_RING_BUFFER_END. rewrite L1, (ir_current _ _ I).
  replace (zlen (st_cur g) + (rb_size r - zlen (st_cur g)) =? rb_size r - 1 + 1) with true by lia.
  unfold advanced, SXE_RING_BUFFER_END. simpl. rewrite L2.
  rewrite Z.add_0_l. replace (zlen l - (rb_size r - zlen (st_cur g)) =? rb_size r - 1 + 1) with false by lia.
  by replace (rb_size r - 1 <? zlen l - (rb_size r - zlen (st_cur g))) with false by lia.
Qed.

Lemma written_trans r1 g1 r2 g2 : written r r1 g1 -> written r1 r2 g2 -> written r r2 g2.
Proof using.
  intros W1 W2. split; [apply (wt_ring _ _ _ W2)| | |].
  - by rewrite (wt_size _ _ _ W2), (wt_size _ _ _ W1).
  - pose proof (wt_iteration _ _ _ W1). pose proof (wt_iteration _ _ _ W2). lia.
  - intros c Hc. by apply (wt_behind _ _ _ W2), (wt_behind _ _ _ W1).
Qed.
End Operations.

(** sxe_ring_buffer_add appends to the stream. *)
Lemma ring_add_run r g l tail : is_ring r g -> rb_iteration r + 2 < 4294967295 -> zlen l <= rb_size r ->
  exists r', sxe_ring_buffer_add r (l ++ tail) (zlen l) = Ret r' /\ written r r' (st_add (rb_size r) g l) /\
    rb_iteration r' = rb_iteration r + (if rb_size r <=? zlen (st_cur g) + zlen l then 1 else 0) /\
    forall c n, reader_at r g c n -> reader_at r' (st_add (rb_size r) g l) c n \/ behind r' c.
Proof.
  intros I Hit Hl. unfold st_add. case_if.
  - destruct (append_run r g I l ltac:(lia) ltac:(lia)) as (arr & R & W & Hi & Hr). eexists. split.
    + rewrite (add_short r g I) by lia. by rewrite R.
    + split_and!; [done| |done]. rewrite (advanced_iteration_eq r g I) by lia.
      by replace (rb_size r <=? zlen (st_cur g) + zlen l) with (zlen (st_cur g) + zlen l =? rb_size r) by lia.
  - destruct (add_long r g I l tail ltac:(lia) ltac:(lia)) as (arr & arr' & R1 & R2 & R). eexists; split; [exact R|].
    set (room := Z.to_nat (rb_size r - zlen (st_cur g))) in *. pose proof (zlen_nonneg (st_cur g)). pose proof (ir_room _ _ I).
    assert (L1 : zlen (take room l) = rb_size r - zlen (st_cur g)) by (unfold zlen in *; rewrite length_take; lia).
    assert (L2 : zlen (drop room l) = zlen l - (rb_size r - zlen (st_cur g))) by (unfold zlen in *; rewrite length_drop; lia).
    destruct (append_run r g I (take room l) ltac:(lia) ltac:(lia)) as (arr0 & R1' & W & Hi & Hr).
    assert (arr0 = arr) as -> by congruence. set (r1 := advanced r arr (take room l)) in *.
    assert (Eg : st_cur (st_append (rb_size r) g (take room l)) = []).
    { unfold st_append. by replace (zlen (st_cur g) + zlen (take room l) =? rb_size r) with true by lia. }
    destruct (append_run r1 _ (wt_ring _ _ _ W) (drop room l)) as (arr1 & R2' & W' & Hi' & Hr').
    { lia. }
    { rewrite Eg, (wt_size _ _ _ W). change (zlen []) with 0. lia. }
    assert (Ec : rb_current r1 = 0) by by rewrite (ir_current _ _ (wt_ring _ _ _ W)), Eg.
    assert (Ea : rb_array r1 = arr) by (unfold r1, advanced; by case_if).
    rewrite Ec, Ea, R2 in R2'. injection R2' as <-. rewrite (wt_size _ _ _ W) in *.
    split_and!; [by eapply written_trans| |].
    + rewrite (advanced_iteration_eq r1 _ (wt_ring _ _ _ W)), (wt_size _ _ _ W), Eg by lia.
      unfold r1. rewrite (advanced_iteration_eq r g I) by lia. change (zlen (@nil Z)) with 0. repeat case_if; lia.
    + intros c n Hc. destruct (Hr c n Hc) as [Hc1|Hb]; [by apply Hr'|]. right. by apply (wt_behind _ _ _ W').
Qed.

(** Ending the lap early. *)
Lemma wrap_run r g : is_ring r g -> rb_iteration r + 1 < 4294967295 ->
  written r (sxe_ring_buffer_force_ring_wrap r) (st_wrap g) /\
  forall c n, reader_at r g c n -> reader_at (sxe_ring_buffer_force_ring_wrap r) (st_wrap g) c n \/
    behind (sxe_ring_buffer_force_ring_wrap r) c.
Proof.
  intros I Hit. destruct I as [S C R P E F T L [junk A]]. unfold is_u32 in T. pose proof (zlen_nonneg (st_cur g)).
  unfold sxe_ring_buffer_force_ring_wrap, st_wrap. rewrite u32_small by (unfold is_u32; lia).
  split; [split; try done; simpl; try lia; [split; simpl; try change (zlen (@nil Z)) with 0; try done; try lia|]|].
  - replace (rb_iteration r + 1 =? 0) with false by lia. lia.
  - unfold is_u32. lia.
  - eexists. by rewrite A, drop_0.
  - unfold behind. simpl. intros c Hc. lia.
  - intros c n [H1 H2 H3 H4 H5|H1 H2 H3 H4 H5 H6].
    + left. apply reader_previous_lap; simpl; rewrite ?zlen_app; change (zlen (@nil Z)) with 0; lia.
    + right. unfold behind. simpl. lia.
Qed.


(** A writer that asks for a block, stores [l] in it and reports it. *)
Definition with_array (r : ring) (arr : list Z) : ring :=
  mk_ring (rb_size r) (rb_iteration r) (rb_current r) (rb_writen_end r) arr.
Definition ring_put (r : ring) (c : SXE_RING_BUFFER_CONTEXT) (l : list Z) : outcome (ring * SXE_RING_BUFFER_CONTEXT) :=
  '(r, c) ← sxe_ring_buffer_next_writable_block_size r c (zlen l);
  arr ← wr_bytes (rb_array r) (writable_block c) l;
  r ← sxe_ring_buffer_wrote_block (with_array r arr) c (zlen l);
  mret (r, c).

Definition st_put (size : Z) (g : stream) (l : list Z) : stream :=
  st_append size (if zlen l <=? size - zlen (st_cur g) then g else st_wrap g) l.

Lemma st_all_put size g l : st_all (st_put size g l) = st_all g ++ l.
Proof. unfold st_put. rewrite st_all_append. case_if; [done|]. by rewrite st_all_wrap. Qed.

Lemma next_writable_run r g c : is_ring r g ->
  exists c', sxe_ring_buffer_next_writable_block r c = Ret c' /\ writable_block c' = rb_current r /\
    writable_block_len c' = rb_size r - zlen (st_cur g).
Proof.
  intros I. unfold sxe_ring_buffer_next_writable_block. rewrite (available_space r g I).
  pose proof (ir_room _ _ I). replace (rb_size r - zlen (st_cur g) =? 0) with false by lia.
  by eexists.
Qed.

(** Storing in the offered block and reporting it is one append. *)
Lemma wrote_run r g c l : is_ring r g -> writable_block c = rb_current r -> zlen l <= rb_size r - zlen (st_cur g) ->
  rb_iteration r + 1 < 4294967295 ->
  exists arr, wr_bytes (rb_array r) (writable_block c) l = Ret arr /\
    sxe_ring_buffer_wrote_block (with_array r arr) c (zlen l) = Ret (advanced r arr l) /\
    written r (advanced r arr l) (st_append (rb_size r) g l) /\
    rb_iteration (advanced r arr l) <= rb_iteration r + 1 /\
    forall c n, reader_at r g c n -> reader_at (advanced r arr l) (st_append (rb_size r) g l) c n \/ behind (advanced r arr l) c.
Proof.
  intros I Hw Hl Hit. destruct (append_run r g I l Hit ltac:(lia)) as (arr & R & W).
  exists arr. rewrite Hw. split; [done|]. split; [|done].
  unfold sxe_ring_buffer_wrote_block. simpl. rewrite Hw, Z.eqb_refl. cbn [assert1 mbind outcome_bind].
  change (SXE_RING_BUFFER_END (with_array r arr)) with (SXE_RING_BUFFER_END r). rewrite (available_space r g I).
  replace (zlen l <=? rb_size r - zlen (st_cur g)) with true by lia. cbn [assert1 mbind outcome_bind].
  unfold advanced. by case_if.
Qed.

Lemma put_run r g c l : is_ring r g -> rb_iteration r + 2 < 4294967295 -> zlen l <= rb_size r ->
  exists r' c', ring_put r c l = Ret (r', c') /\ written r r' (st_put (rb_size r) g l) /\
    rb_iteration r' <= rb_iteration r + 2 /\
    forall c n, reader_at r g c n -> reader_at r' (st_put (rb_size r) g l) c n \/ behind r' c.
Proof.
  intros I Hit Hl. unfold ring_put, sxe_ring_buffer_next_writable_block_size, st_put.
  replace (zlen l <=? rb_size r) with true by lia. cbn [assert1 mbind outcome_bind].
  destruct (next_writable_run r g c I) as (c1 & -> & Hw & Hn). cbn [mbind outcome_bind]. rewrite Hn.
  destruct (Z.ltb_spec (rb_size r - zlen (st_cur g)) (zlen l)) as [Hs|Hs].
  - replace (zlen l <=? rb_size r - zlen (st_cur g)) with false by lia.
    destruct (wrap_run r g I ltac:(lia)) as [W Hr]. set (r1 := sxe_ring_buffer_force_ring_wrap r) in *.
    destruct (next_writable_run r1 _ c1 (wt_ring _ _ _ W)) as (c2 & -> & Hw2 & Hn2).
    assert (Hi1 : rb_iteration r1 = rb_iteration r + 1).
    { pose proof (ir_iteration _ _ I). unfold is_u32 in *. simpl. rewrite u32_small; unfold is_u32; lia. }
    destruct (wrote_run r1 _ c2 l (wt_ring _ _ _ W) Hw2) as (arr & R1 & R2 & W' & Hi' & Hr'); [|lia|].
    { rewrite (wt_size _ _ _ W). simpl. change (zlen (@nil Z)) with 0. lia. }
    exists (advanced r1 arr l), c2. cbn [mbind outcome_bind mret outcome_ret].
    rewrite R1. cbn [mbind outcome_bind]. rewrite R2. rewrite (wt_size _ _ _ W) in *. split_and!; [done| |lia|].
    + by eapply written_trans.
    + intros c0 n Hc. destruct (Hr c0 n Hc) as [Hc1|Hb]; [by apply Hr'|]. right. by apply (wt_behind _ _ _ W').
  - replace (zlen l <=? rb_size r - zlen (st_cur g)) with true by lia.
    destruct (wrote_run r g c1 l I Hw ltac:(lia) ltac:(lia)) as (arr & R1 & R2 & W' & Hi' & Hr').
    exists (advanced r arr l), c1. cbn [mbind outcome_bind mret outcome_ret].
    rewrite R1. cbn [mbind outcome_bind]. rewrite R2. split_and!; [done|done|lia|done].
Qed.

(** ** Reading *)
Section Reading.
Variables (r : ring) (g : stream).
Hypothesis I : is_ring r g.
Hypothesis Hmax : rb_iteration r < 4294967295.

Lemma check_current c n : reader_at r g c n -> sxe_ring_buffer_check_over_run r c = (SXE_RETURN_OK, c).
Proof using I Hmax.
  intros Hc. destruct I as [S C R P E F T L A]. unfold is_u32 in T. pose proof (zlen_nonneg (st_cur g)).
  unfold sxe_ring_buffer_check_over_run.
  destruct Hc; rewrite u32_small by (unfold is_u32; lia); case_if; done || lia.
Qed.

(** A reader that the writer has passed is told so, and moved to the end of the stream. *)
Lemma check_behind c : behind r c ->
  exists c', sxe_ring_buffer_check_over_run r c = (SXE_RETURN_ERROR_INTERNAL, c') /\
    reader_at r g c' (zlen (st_all g)) /\ data_block_len c' = 0.
Proof using I Hmax.
  intros (Hi & Hd & Hc). destruct I as [S C R P E F T L A]. unfold is_u32 in T.
  unfold sxe_ring_buffer_check_over_run. rewrite u32_small by (unfold is_u32; lia).
  replace ((itteration c + 1 <? rb_iteration r) || _) with true by lia.
  eexists. split; [done|]. split; [|done]. pose proof (zlen_nonneg (st_cur g)).
  apply reader_this_lap; simpl; unfold st_all; rewrite ?zlen_app; lia.
Qed.

(** The array holds the stream at the reader's position. *)
Lemma array_stream c n len : reader_at r g c n -> 0 <= len ->
  (itteration c = rb_iteration r -> data_block c + len <= zlen (st_cur g)) ->
  (itteration c < rb_iteration r -> data_block c + len <= zlen (st_prev g)) ->
  slice (rb_array r) (data_block c) len = slice (st_all g) n len /\ is_Some (slice (st_all g) n len).
Proof using I.
  intros Hc Hl H1 H2. destruct I as [S C R P E F T L [junk A]]. pose proof (zlen_nonneg (st_cur g)).
  pose proof (zlen_nonneg (st_past g)). pose proof (zlen_nonneg (st_prev g)). pose proof (zlen_nonneg junk).
  unfold st_all. destruct Hc as [Ei Hd Hb He ->|Ei0 Ei Hd Hb He ->].
  - specialize (H1 Ei). rewrite A, !slice_Some by (rewrite ?zlen_app; pose proof (zlen_nonneg (drop (length (st_cur g)) (st_prev g))); lia).
    split; [|done]. f_equal. rewrite (assoc_L (++) (st_past g)).
    replace (Z.to_nat (_ + data_block c)) with (length (st_past g ++ st_prev g) + Z.to_nat (data_block c))%nat
      by (rewrite length_app; unfold zlen; lia).
    rewrite <-drop_drop, drop_app_length, drop_app_le, take_app_le by (rewrite ?length_drop; unfold zlen in *; lia). done.
  - specialize (H2 ltac:(lia)). assert (Hj : zlen (drop (length (st_cur g)) (st_prev g)) = zlen (st_prev g) - zlen (st_cur g))
      by (unfold zlen in *; rewrite length_drop; lia).
    rewrite A, !slice_Some by (rewrite ?zlen_app; lia).
    split; [|done]. f_equal.
    replace (Z.to_nat (zlen (st_past g) + data_block c)) with (length (st_past g) + Z.to_nat (data_block c))%nat by (unfold zlen; lia).
    rewrite <-drop_drop, drop_app_length.
    rewrite drop_app_ge by (unfold zlen in *; lia).
    rewrite !drop_app_le, drop_drop, !take_app_le by (rewrite ?length_drop; unfold zlen in *; lia).
    do 2 f_equal. unfold zlen in *. lia.
Qed.

(** The block that the reader is offered next is the stream from its position; only
    at the end of the stream is it empty. *)
Lemma next_block_run c n : reader_at r g c n ->
  exists c', sxe_ring_buffer_next_block r c = (SXE_RETURN_OK, c') /\ reader_at r g c' n /\
    slice (rb_array r) (data_block c') (data_block_len c') = slice (st_all g) n (data_block_len c') /\
    is_Some (slice (st_all g) n (data_block_len c')) /\
    (data_block_len c' = 0 -> n = zlen (st_all g)).
Proof using I Hmax.
  intros Hc. unfold sxe_ring_buffer_next_block. rewrite (check_current c n Hc). simpl.
  assert (G : forall c', reader_at r g c' n -> (data_block_len c' = 0 -> n = zlen (st_all g)) ->
    reader_at r g c' n /\ slice (rb_array r) (data_block c') (data_block_len c') = slice (st_all g) n (data_block_len c') /\
    is_Some (slice (st_all g) n (data_block_len c')) /\ (data_block_len c' = 0 -> n = zlen (st_all g))).
  { intros c' Hc' H0. destruct (array_stream c' n (data_block_len c') Hc') as [-> Hs]; [by destruct Hc'|..|done].
    - destruct Hc'; [done|lia].
    - destruct Hc'; [lia|done]. }
  pose proof Hc as Hc0. destruct I as [S C R P E F T L A]. unfold is_u32 in T. pose proof (zlen_nonneg (st_cur g)).
  destruct Hc as [Ei Hd Hb He ->|Ei0 Ei Hd Hb He ->].
  - destruct (Z.ltb_spec (data_block c) (rb_current r)).
    + eexists. split; [done|]. apply G.
      * apply reader_this_lap; simpl; rewrite ?u32_small by (unfold is_u32; lia); lia.
      * simpl. rewrite u32_small by (unfold is_u32; lia). lia.
    + rewrite u32_small by (unfold is_u32; lia). replace (rb_iteration r =? itteration c + 1) with false by lia.
      rewrite andb_false_r. replace (itteration c <? rb_iteration r) with false by lia. simpl.
      eexists. split; [done|]. apply G; [done|]. intros _. unfold st_all. rewrite !zlen_app. lia.
  - replace (data_block c <? rb_current r) with false by lia. rewrite !(u32_small (itteration c + 1)) by (unfold is_u32; lia).
    replace (rb_iteration r =? itteration c + 1) with true by lia.
    replace (rb_current r <=? data_block c) with true by lia. simpl.
    replace (rb_iteration r =? 0) with false in E by lia.
    destruct (Z.eqb_spec (rb_writen_end r) (data_block c - 1)).
    + eexists. split; [done|]. apply G.
      * apply reader_this_lap; simpl; rewrite ?u32_small by (unfold is_u32; lia); lia.
      * simpl. rewrite u32_small by (unfold is_u32; lia). unfold st_all. rewrite !zlen_app. lia.
    + replace (itteration c <? rb_iteration r) with true by lia. eexists. split; [done|]. apply G.
      * apply reader_previous_lap; simpl; rewrite ?u32_small by (unfold is_u32; lia); lia.
      * simpl. rewrite u32_small by (unfold is_u32; lia). lia.
Qed.

(** Consuming part of the block moves the reader along the stream. *)
Lemma consumed_run c n k : reader_at r g c n -> 0 <= k <= data_block_len c ->
  exists c', sxe_ring_buffer_consumed r c k = Ret (SXE_RETURN_OK, c') /\ reader_at r g c' (n + k).
Proof using I Hmax.
  intros Hc Hk. unfold sxe_ring_buffer_consumed. rewrite (check_current c n Hc). simpl.
  destruct I as [S C R P E F T L A]. unfold is_u32 in T. pose proof (zlen_nonneg (st_cur g)).
  destruct Hc as [Ei Hd Hb He ->|Ei0 Ei Hd Hb He ->].
  - rewrite (u32_small (data_block_len c - k)) by (unfold is_u32; lia).
    replace (data_block c + k <=? rb_writen_end r + 1) with true by lia. cbn [assert1 mbind outcome_bind].
    assert (data_block c + k = rb_writen_end r + 1 -> data_block c + k = rb_current r) by (destruct (rb_iteration r =? 0); lia).
    destruct (Z.eqb_spec (data_block c + k) (rb_writen_end r + 1)), (Z.eqb_spec (data_block c + k) (rb_current r)); try lia; simpl.
    all: eexists; split; [done|]; apply reader_this_lap; simpl; lia.
  - rewrite !u32_small by (unfold is_u32; lia). replace (rb_iteration r =? 0) with false in E by lia.
    replace (data_block c + k <=? rb_writen_end r + 1) with true by lia. cbn [assert1 mbind outcome_bind].
    destruct (_ && _) eqn:Ew.
    + replace (data_block_len c - k =? 0) with true by lia. eexists. split; [done|]. apply reader_this_lap; simpl; lia.
    + eexists. split; [done|]. apply reader_previous_lap; simpl; lia.
Qed.
End Reading.

(** ** The operations against the stream *)

(** Sxe_ring_buffer_add aborts when the bytes are longer than the ring; otherwise it
    appends exactly them to the stream, whatever wrapping it takes, keeps the ring's
    invariant, and leaves each reader where it was or marked as overrun. *)
Theorem sxe_ring_buffer_add_spec r g l tail :
  is_ring r g -> rb_iteration r + 2 < 4294967295 -> zlen l < 4294967296 ->
  (rb_size r < zlen l /\ sxe_ring_buffer_add r (l ++ tail) (zlen l) = Abort) \/
  exists r' g', sxe_ring_buffer_add r (l ++ tail) (zlen l) = Ret r' /\ is_ring r' g' /\ st_all g' = st_all g ++ l /\
    forall c n, reader_at r g c n -> reader_at r' g' c n \/ behind r' c.
Proof.
  intros I Hit Hl. destruct (Z.le_gt_cases (zlen l) (rb_size r)).
  - right. destruct (ring_add_run r g l tail I Hit ltac:(lia)) as (r' & R & W & _ & Hr).
    exists r', (st_add (rb_size r) g l). split_and!; [done|apply W|apply st_all_add|done].
  - left. split; [lia|]. unfold sxe_ring_buffer_add. by replace (zlen l <=? rb_size r) with false by lia.
Qed.

Lemma st_add_cur size g l : zlen (st_cur g) < size -> zlen l <= size ->
  zlen (st_cur (st_add size g l)) = zlen (st_cur g) + zlen l - (if size <=? zlen (st_cur g) + zlen l then size else 0).
Proof.
  intros Hc Hl. pose proof (zlen_nonneg (st_cur g)). unfold st_add. case_if.
  - unfold st_append. replace (size <=? zlen (st_cur g) + zlen l) with (zlen (st_cur g) + zlen l =? size) by lia.
    case_if; simpl; rewrite ?zlen_app; change (zlen (@nil Z)) with 0; lia.
  - set (room := Z.to_nat (size - zlen (st_cur g))).
    assert (L1 : zlen (take room l) = size - zlen (st_cur g)) by (unfold zlen in *; rewrite length_take; lia).
    assert (L2 : zlen (drop room l) = zlen l - (size - zlen (st_cur g))) by (unfold zlen in *; rewrite length_drop; lia).
    unfold st_append at 2. replace (zlen (st_cur g) + zlen (take room l) =? size) with true by lia.
    unfold st_append. simpl. change (zlen (@nil Z)) with 0.
    replace (0 + zlen (drop room l) =? size) with false by lia. simpl.
    replace (size <=? zlen (st_cur g) + zlen l) with true by lia. lia.
Qed.

(** When the laps are full ones (no forced wrap), a reader whose unread bytes and the
    added ones together are fewer than the ring's size is never overrun: its next block
    is the stream from its position. *)
Theorem add_keeps_reader r g c n l tail :
  is_ring r g -> rb_iteration r + 2 < 4294967295 -> reader_at r g c n ->
  (rb_iteration r = 0 \/ zlen (st_prev g) = rb_size r) ->
  zlen (st_all g) - n + zlen l < rb_size r ->
  exists r' c', sxe_ring_buffer_add r (l ++ tail) (zlen l) = Ret r' /\
    sxe_ring_buffer_next_block r' c = (SXE_RETURN_OK, c') /\
    slice (rb_array r') (data_block c') (data_block_len c') = slice (st_all g ++ l) n (data_block_len c').
Proof.
  intros I Hit Hc Hfull Hn. pose proof (ir_current _ _ I) as Ecur. pose proof (ir_room _ _ I). pose proof (ir_iteration _ _ I) as T.
  pose proof (zlen_nonneg l). pose proof (zlen_nonneg (st_cur g)). unfold is_u32 in T.
  assert (Hpos : n <= zlen (st_all g)) by (unfold st_all; rewrite !zlen_app; destruct Hc; lia).
  destruct (ring_add_run r g l tail I Hit ltac:(lia)) as (r' & R & W & Hi & Hr).
  pose proof (st_add_cur (rb_size r) g l ltac:(lia) ltac:(lia)) as Ec.
  rewrite <-(ir_current _ _ (wt_ring _ _ _ W)) in Ec.
  destruct (Hr c n Hc) as [Hc'|(B1 & B2 & B3)].
  - destruct (next_block_run r' _ (wt_ring _ _ _ W) ltac:(case_if; lia) c n Hc') as (c' & N & _ & S & _).
    exists r', c'. rewrite S, st_all_add. done.
  - exfalso. unfold st_all in Hn. rewrite !zlen_app in Hn. destruct Hc; case_if; lia.
Qed.

(** The length of what a reader that joins with [replay_half] is given. *)
Definition replay_length (r : ring) : Z :=
  if rb_size r / 2 <=? rb_current r then rb_size r / 2
  else if rb_iteration r =? 0 then rb_current r else rb_size r - rb_size r / 2.

Lemma st_all_length g : zlen (st_all g) = zlen (st_past g) + zlen (st_prev g) + zlen (st_cur g).
Proof. unfold st_all. rewrite !zlen_app. lia. Qed.

Lemma join_now r g c : is_ring r g -> reader_at r g (sxe_ring_buffer_join r c false) (zlen (st_all g)).
Proof.
  intros I. pose proof (zlen_nonneg (st_cur g)). pose proof (ir_current _ _ I). rewrite st_all_length.
  apply reader_this_lap; simpl; lia.
Qed.

(** A reader that joins starts at the end of the stream; one that asks for half the
    ring starts half a ring before it (at the beginning, when less was written), the
    previous lap being a full one. *)
Theorem sxe_ring_buffer_join_spec r g c replay_half :
  is_ring r g -> (rb_iteration r = 0 \/ zlen (st_prev g) = rb_size r) ->
  let c' := sxe_ring_buffer_join r c replay_half in
  let n := zlen (st_all g) - (if replay_half then replay_length r else 0) in
  reader_at r g c' n /\ data_block_len c' = 0.
Proof.
  intros I Hfull c' n. destruct replay_half.
  2:{ subst n. rewrite Z.sub_0_r. split; [by apply join_now|done]. }
  destruct I as [S C R P E F T L A]. unfold is_u32 in T. pose proof (zlen_nonneg (st_cur g)). pose proof (zlen_nonneg (st_prev g)).
  assert (Hh : 2 * (rb_size r / 2) <= rb_size r < 2 * (rb_size r / 2) + 2) by (Z.to_euclidean_division_equations; lia).
  subst n c'. rewrite st_all_length. unfold sxe_ring_buffer_join, replay_length.
  destruct (Z.leb_spec (rb_size r / 2) (rb_current r)); [|destruct (Z.eqb_spec (rb_iteration r) 0)].
  all: split; [|done].
  - apply reader_this_lap; simpl; lia.
  - apply reader_this_lap; simpl; lia.
  - rewrite u32_small by (unfold is_u32; lia). replace (rb_writen_end r + 1) with (rb_size r) by lia.
    rewrite Z.quot_div_nonneg by lia. apply reader_previous_lap; simpl; lia.
Qed.

(** ** A writer and a reader *)

Inductive ring_op :=
| Op_add (l : list Z)
| Op_put (l : list Z)
| Op_wrap
| Op_read (k : Z).

Record session := mk_session {
  ses_ring : ring;
  ses_writer : SXE_RING_BUFFER_CONTEXT;
  ses_reader : SXE_RING_BUFFER_CONTEXT;
  ses_out : list Z;
  ses_lost : bool
}.

(** A read takes the next block, uses at most [k] bytes of it and says so. *)
Definition ring_read (r : ring) (c : SXE_RING_BUFFER_CONTEXT) (k : Z) : outcome (option (list Z) * SXE_RING_BUFFER_CONTEXT) :=
  let (result, c) := sxe_ring_buffer_next_block r c in
  if bool_decide (result = SXE_RETURN_OK) then
    blk ← load (slice (rb_array r) (data_block c) (Z.min k (data_block_len c)));
    '(result, c) ← sxe_ring_buffer_consumed r c (Z.min k (data_block_len c));
    mret (if bool_decide (result = SXE_RETURN_OK) then Some blk else None, c)
  else mret (None, c).

Definition ring_step (op : ring_op) (s : session) : outcome session :=
  match op with
  | Op_add l => r ← sxe_ring_buffer_add (ses_ring s) l (zlen l);
                mret (mk_session r (ses_writer s) (ses_reader s) (ses_out s) (ses_lost s))
  | Op_put l => '(r, c) ← ring_put (ses_ring s) (ses_writer s) l;
                mret (mk_session r c (ses_reader s) (ses_out s) (ses_lost s))
  | Op_wrap => mret (mk_session (sxe_ring_buffer_force_ring_wrap (ses_ring s)) (ses_writer s) (ses_reader s) (ses_out s) (ses_lost s))
  | Op_read k => '(got, c) ← ring_read (ses_ring s) (ses_reader s) k;
                 mret (match got with
                       | Some l => mk_session (ses_ring s) (ses_writer s) c (ses_out s ++ l) (ses_lost s)
                       | None => mk_session (ses_ring s) (ses_writer s) c (ses_out s) true
                       end)
  end.

Fixpoint run_session (ops : list ring_op) (s : session) : outcome session :=
  match ops with
  | [] => Ret s
  | op :: ops => s ← ring_step op s; run_session ops s
  end.

Definition op_bytes (op : ring_op) : list Z :=
  match op with Op_add l | Op_put l => l | _ => [] end.
Definition op_ok (size : Z) (op : ring_op) : Prop :=
  match op with Op_add l | Op_put l => zlen l <= size | Op_wrap => True | Op_read k => 0 <= k end.

(** What the reader got is the stream up to its position. *)
Definition session_ok (s : session) (w : list Z) : Prop := exists g,
  is_ring (ses_ring s) g /\ w = st_all g /\
  ((exists n, reader_at (ses_ring s) g (ses_reader s) n /\ (ses_lost s = false -> n = zlen (ses_out s))) \/
   behind (ses_ring s) (ses_reader s)) /\
  (ses_lost s = false -> exists rest, w = ses_out s ++ rest).

Lemma read_run r g c k : is_ring r g -> rb_iteration r < 4294967295 -> 0 <= k ->
  (forall n, reader_at r g c n ->
    exists blk c', ring_read r c k = Ret (Some blk, c') /\ reader_at r g c' (n + zlen blk) /\ slice (st_all g) n (zlen blk) = Some blk) /\
  (behind r c -> exists c', ring_read r c k = Ret (None, c') /\ reader_at r g c' (zlen (st_all g))).
Proof.
  intros I Hm Hk. split.
  - intros n Hc. destruct (next_block_run r g I Hm c n Hc) as (c1 & N & Hc1 & Hs & [blk Hb] & _).
    assert (Hk1 : 0 <= Z.min k (data_block_len c1) <= data_block_len c1) by (destruct Hc1; lia).
    destruct (array_stream r g I c1 n (Z.min k (data_block_len c1)) Hc1) as [Es [b Eb]]; [lia|destruct Hc1; lia..|].
    destruct (consumed_run r g I Hm c1 n _ Hc1 Hk1) as (c2 & R & Hc2).
    exists b, c2. unfold ring_read. rewrite N. simpl. rewrite Es, Eb. cbn [load mbind outcome_bind]. rewrite R. simpl.
    apply slice_length in Eb as Lb. by rewrite Lb.
  - intros Hb. destruct (check_behind r g I Hm c Hb) as (c' & Ec & Hc' & _). exists c'. split; [|done].
    unfold ring_read, sxe_ring_buffer_next_block. by rewrite Ec.
Qed.

(** A write keeps the session in order. *)
Lemma session_written s g r' g' c l :
  written (ses_ring s) r' g' -> st_all g' = st_all g ++ l ->
  (forall c n, reader_at (ses_ring s) g c n -> reader_at r' g' c n \/ behind r' c) ->
  ((exists n, reader_at (ses_ring s) g (ses_reader s) n /\ (ses_lost s = false -> n = zlen (ses_out s))) \/
   behind (ses_ring s) (ses_reader s)) ->
  (ses_lost s = false -> exists rest, st_all g = ses_out s ++ rest) ->
  session_ok (mk_session r' c (ses_reader s) (ses_out s) (ses_lost s)) (st_all g ++ l).
Proof.
  intros W Eg Hr Hpos Hpre. exists g'. simpl. split_and!; [apply W|done| |].
  - destruct Hpos as [(n & Hc & Hn)|Hb].
    + destruct (Hr _ n Hc); [left; eauto|by right].
    + right. by apply (wt_behind _ _ _ W).
  - intros Hl. destruct (Hpre Hl) as [rest ->]. exists (rest ++ l). by rewrite (assoc_L (++)).
Qed.

Lemma slice_app_next w out rest blk :
  w = out ++ rest -> slice w (zlen out) (zlen blk) = Some blk -> exists rest', w = (out ++ blk) ++ rest'.
Proof.
  intros -> Hs. unfold slice in Hs. destruct (_ && _) eqn:E; [|done]. injection Hs as Hs.
  unfold zlen in *. rewrite !Nat2Z.id, drop_app_length in Hs. exists (drop (length blk) rest).
  rewrite <-Hs at 1. by rewrite <-(assoc_L (++)), take_drop.
Qed.

Lemma ring_step_ok op s w : session_ok s w -> op_ok (rb_size (ses_ring s)) op -> rb_iteration (ses_ring s) + 2 < 4294967295 ->
  exists s', ring_step op s = Ret s' /\ session_ok s' (w ++ op_bytes op) /\
    rb_size (ses_ring s') = rb_size (ses_ring s) /\ rb_iteration (ses_ring s') <= rb_iteration (ses_ring s) + 2.
Proof.
  intros (g & I & -> & Hpos & Hpre) Hop Hit. destruct op as [l|l| |k]; simpl in Hop |- *.
  - destruct (ring_add_run _ g l [] I Hit Hop) as (r' & R & W & Hi & Hr). rewrite app_nil_r in R. rewrite R.
    eexists. split; [reflexivity|]. simpl. split_and!; [|apply W|case_if; lia].
    eapply session_written; [exact W|apply st_all_add|done..].
  - destruct (put_run _ g (ses_writer s) l I Hit Hop) as (r' & c' & R & W & Hi & Hr). rewrite R.
    eexists. split; [reflexivity|]. simpl. split_and!; [|apply W|lia].
    eapply session_written; [exact W|apply st_all_put|done..].
  - destruct (wrap_run _ g I ltac:(lia)) as [W Hr]. eexists. split; [reflexivity|]. split_and!; [|done|].
    + eapply session_written; [exact W| |done..]. by rewrite st_all_wrap, app_nil_r.
    + simpl. pose proof (ir_iteration _ _ I). unfold is_u32 in *. rewrite u32_small; unfold is_u32; lia.
  - rewrite app_nil_r. destruct (read_run _ g (ses_reader s) k I ltac:(lia) Hop) as [Hat Hbe].
    destruct Hpos as [(n & Hc & Hn)|Hb].
    + destruct (Hat n Hc) as (blk & c' & -> & Hc' & Hs). eexists. split; [reflexivity|]. simpl. split_and!; [|done|lia].
      exists g. simpl. split_and!; [done|done| |].
      * left. eexists. split; [exact Hc'|]. intros Hl. rewrite zlen_app, <-(Hn Hl). done.
      * intros Hl. destruct (Hpre Hl) as [rest Er]. rewrite (Hn Hl) in Hs. by eapply slice_app_next.
    + destruct (Hbe Hb) as (c' & -> & Hc'). eexists. split; [reflexivity|]. simpl. split_and!; [|done|lia].
      exists g. simpl. split_and!; [done|done| |done]. left. by eexists.
Qed.

Lemma run_session_ok ops : forall s w, session_ok s w -> Forall (op_ok (rb_size (ses_ring s))) ops ->
  rb_iteration (ses_ring s) + 2 * zlen ops < 4294967295 ->
  exists s', run_session ops s = Ret s' /\ session_ok s' (w ++ concat (op_bytes <$> ops)) /\ rb_iteration (ses_ring s') < 4294967295.
Proof.
  induction ops as [|op ops IH]; intros s w Hs Hops Hit; simpl.
  - exists s. rewrite app_nil_r. split_and!; [done..|]. change (zlen (@nil ring_op)) with 0 in Hit. lia.
  - rewrite zlen_cons in Hit. pose proof (zlen_nonneg ops). inversion Hops as [|? ? Hop Hops']; subst.
    destruct (ring_step_ok op s w Hs Hop ltac:(lia)) as (s1 & -> & Hs1 & Hz & Hi). cbn [mbind outcome_bind].
    rewrite (assoc_L (++)). apply IH; [done|by rewrite Hz|lia].
Qed.

(** The session of a new ring and a reader that joins it at once. *)
Definition new_session (malloc : Z -> option (Z * list Z)) (size : Z) (c : SXE_RING_BUFFER_CONTEXT) : outcome session :=
  '(base, st) ← sxe_ring_buffer_new malloc size ∅;
  r ← load (st !! base);
  mret (mk_session r c (sxe_ring_buffer_join r c false) [] false).

Lemma new_ring size junk : 0 < size < 4294967296 -> zlen junk = size ->
  is_ring (mk_ring size 0 0 0 junk) (mk_stream [] [] []).
Proof.
  intros. split; simpl; try change (zlen (@nil Z)) with 0; try done; try lia.
  - by exists junk.
Qed.

(** C32: the stream property. On a new ring of any size but 0, for which malloc gives the memory, a sequence of fewer than 2^31 adds, block writes of at most the
    ring's size (a longer one aborts), forced
    wraps and partial reads runs without an abort or a stray access. The bytes that the
    reader got are a prefix of the bytes written, in order and without a gap, unless it
    was told of an overrun; and when it is then offered an empty block, it got them all. *)
Theorem ring_stream malloc size base junk c ops :
  0 < size -> is_u32 size ->
  malloc (size + SXE_RING_BUFFER_SIZE_OF_INTERNALS) = Some (base, junk) ->
  zlen junk = size + SXE_RING_BUFFER_SIZE_OF_INTERNALS ->
  Forall (op_ok size) ops -> 2 * zlen ops < 4294967295 ->
  exists s, (s ← new_session malloc size c; run_session ops s) = Ret s /\
    (ses_lost s = false -> exists rest, concat (op_bytes <$> ops) = ses_out s ++ rest /\
      forall c', sxe_ring_buffer_next_block (ses_ring s) (ses_reader s) = (SXE_RETURN_OK, c') -> data_block_len c' = 0 -> rest = []).
Proof.
  intros Hsz Hmax Hm Hj Hops Hn. unfold SXE_RING_BUFFER_SIZE_OF_INTERNALS in *.
  unfold new_session, sxe_ring_buffer_new, SXE_RING_BUFFER_SIZE_OF_INTERNALS.
  rewrite Hm. unfold is_u32 in Hmax. cbn [mbind outcome_bind]. cbv beta iota; unfold ring_store; rewrite lookup_insert_eq. cbn [load mbind outcome_bind mret outcome_ret].
  set (junk' := drop _ junk). assert (Hj' : zlen junk' = size) by (unfold junk', zlen in *; rewrite length_drop; lia).
  set (s0 := mk_session _ _ _ _ _).
  pose proof (new_ring size junk' ltac:(lia) Hj') as I.
  destruct (run_session_ok ops s0 []) as (s & R & (g & Ig & Eg & Hpos & Hpre) & Hit); [|done|simpl; lia|].
  { exists (mk_stream [] [] []). split_and!; [done|done| |intros _; by exists []].
    left. eexists. split; [apply (join_now _ _ _ I)|done]. }
  exists s. split; [done|]. intros Hl. destruct (Hpre Hl) as [rest Er]. exists rest. split; [done|].
  intros c' Hnb H0. simpl in Eg. destruct Hpos as [(n & Hc & Hnn)|Hb].
  - destruct (next_block_run _ _ Ig Hit _ n Hc) as (c2 & N & _ & _ & _ & Hend). rewrite N in Hnb. injection Hnb as ->.
    specialize (Hend H0). rewrite (Hnn Hl), <-Eg in Hend. simpl in Er. rewrite Er, zlen_app in Hend.
    apply length_zero_iff_nil. unfold zlen in Hend. lia.
  - destruct (check_behind _ _ Ig Hit _ Hb) as (c2 & Ec & _). unfold sxe_ring_buffer_next_block in Hnb. by rewrite Ec in Hnb.
Qed.

(** ** What modelling showed *)

Definition context0 : SXE_RING_BUFFER_CONTEXT := mk_context 0 0 0 0 0.
Definition example_ring : ring := mk_ring 10 0 0 0 (replicate 10 0).

(** A reader that has read everything before a forced wrap is told that it was overrun
    as soon as the new lap is longer than the old one, although nothing it needs was
    overwritten. *)
Lemma forced_wrap_false_overrun :
  (s ← run_session [Op_put [1; 2]; Op_read 10; Op_put (replicate 9 7); Op_read 10]
         (mk_session example_ring context0 (sxe_ring_buffer_join example_ring context0 false) [] false);
   mret (ses_out s, ses_lost s)) = Ret ([1; 2], true).
Proof. vm_compute. reflexivity. Qed.

(** After a forced wrap, joining with half the ring can start after the last written
    byte, and the next block then has a length just below 2^32. *)
Lemma join_after_forced_wrap :
  (s ← run_session [Op_put (replicate 4 1); Op_wrap; Op_put (replicate 3 2)]
         (mk_session example_ring context0 context0 [] false);
   mret (data_block_len (snd (sxe_ring_buffer_next_block (ses_ring s) (sxe_ring_buffer_join (ses_ring s) context0 true))))) =
  Ret 4294967295.
Proof. vm_compute. reflexivity. Qed.

(** ** Witnesses *)
Lemma example_ring_ok : is_ring example_ring (mk_stream [] [] []).
Proof. by apply new_ring. Qed.

Lemma sxe_ring_buffer_add_spec_witness : exists r' g',
  sxe_ring_buffer_add example_ring [1; 2; 3] 3 = Ret r' /\ is_ring r' g' /\ st_all g' = [1; 2; 3].
Proof.
  destruct (sxe_ring_buffer_add_spec example_ring (mk_stream [] [] []) [1; 2; 3] [] example_ring_ok eq_refl eq_refl)
    as [[H _]|(r' & g' & R & I & E & _)]; [by vm_compute in H|]. by exists r', g'.
Defined.

Lemma add_keeps_reader_witness : exists r' c',
  sxe_ring_buffer_add example_ring [1; 2; 3] 3 = Ret r' /\
  sxe_ring_buffer_next_block r' (sxe_ring_buffer_join example_ring context0 false) = (SXE_RETURN_OK, c') /\
  slice (rb_array r') (data_block c') (data_block_len c') = slice [1; 2; 3] 0 (data_block_len c').
Proof.
  destruct (add_keeps_reader example_ring (mk_stream [] [] []) (sxe_ring_buffer_join example_ring context0 false) 0 [1; 2; 3] []
    example_ring_ok eq_refl (join_now _ _ _ example_ring_ok) (or_introl eq_refl) eq_refl) as (r' & c' & R).
  by exists r', c'.
Defined.

Lemma sxe_ring_buffer_join_spec_witness :
  reader_at example_ring (mk_stream [] [] []) (sxe_ring_buffer_join example_ring context0 true) 0.
Proof. exact (proj1 (sxe_ring_buffer_join_spec example_ring (mk_stream [] [] []) context0 true example_ring_ok (or_introl eq_refl))). Defined.

Lemma ring_stream_witness : exists s,
  (s ← new_session (fun n => Some (64, replicate (Z.to_nat n) 0)) 10 context0;
   run_session [Op_add (replicate 7 1); Op_read 5; Op_add (replicate 6 2); Op_read 9; Op_read 9] s) = Ret s /\
  (ses_lost s = false -> exists rest, replicate 7 1 ++ replicate 6 2 = ses_out s ++ rest).
Proof.
  destruct (ring_stream (fun n => Some (64, replicate (Z.to_nat n) 0)) 10 64 (replicate 34 0) context0
    [Op_add (replicate 7 1); Op_read 5; Op_add (replicate 6 2); Op_read 9; Op_read 9]
    eq_refl ltac:(by split) eq_refl eq_refl) as (s & R & Hs).
  - repeat constructor; done.
  - done.
  - exists s. split; [exact R|]. intros Hl. destruct (Hs Hl) as (rest & E & _). by exists rest.
Defined.
