(* ===== verification/Dict.v ===== *)
(** * Dict: a chained hash dictionary that grows (lib-sxe-dict)

    The nodes are a heap by address; a table is an array of pointers to chains of
    nodes. sxe_dict_add gives the caller the address of the node whose value it is to
    set. The specification is a finite map from keys to nodes. *)

From S2P Require Import Prelude.

(** lib-sxe-dict/sxe-dict.c:8-13, sxe_dict_node. The key is the bytes at its pointer. *)
Record sxe_dict_node := mk_node { next : Z; key : list Z; len : Z; value : Z }.

(** lib-sxe-dict/sxe-dict.h:11-17, sxe_dict. [None] is the NULL table. *)
Record sxe_dict := mk_dict { table : option (list Z); dsize : Z; count : Z; dload : Z; growth : Z }.

(** A dictionary and the heap of nodes. *)
Record dstate := mk_dstate { ds_dict : sxe_dict; ds_nodes : gmap Z sxe_dict_node }.

Definition NULL : Z := 0.

(** ** Memory

    What malloc and calloc do is a parameter. Each may refuse, and the program does not look
    whether it did: it stores through the pointer. *)

(** The allocator. For a node, the address it gives; for the bytes of a key, for a table of
    pointers and for a dictionary, whether it gives one. *)
Record allocator := mk_allocator {
  node_malloc : gmap Z sxe_dict_node -> option Z;
  key_malloc : gmap Z sxe_dict_node -> Z -> bool;
  table_calloc : gmap Z sxe_dict_node -> Z -> bool;
  dict_malloc : bool
}.

(** A zeroed table of [n] pointers. A negative number is a size that no memory has. *)
Definition calloc (A : allocator) (nodes : gmap Z sxe_dict_node) (n : Z) : option (list Z) :=
  if (0 <=? n) && table_calloc A nodes n then Some (replicate (Z.to_nat n) NULL) else None.

(** The addresses that malloc gives are not in use and not NULL. *)
Definition gives_fresh (A : allocator) : Prop :=
  forall nodes a, node_malloc A nodes = Some a -> nodes !! a = None /\ a <> NULL.

(** No allocation is refused. *)
Record never_refuses (A : allocator) : Prop := {
  nr_node : forall nodes, is_Some (node_malloc A nodes);
  nr_key : forall nodes n, key_malloc A nodes n = true;
  nr_table : forall nodes n, table_calloc A nodes n = true;
  nr_dict : dict_malloc A = true
}.

(** Conversion of an unsigned value to int. *)
Definition s32 (z : Z) : Z := let u := u32 z in if u <? 2147483648 then u else u - 4294967296.

(** ** The hash function *)

(** A 16 bit word in memory. *)
Definition ld16 (s : list Z) (i : Z) : outcome Z :=
  b0 ← load (rd s i); b1 ← load (rd s (i + 1)); mret (b0 + 256 * b1).

(** One step: xor and multiply. *)
Definition mix (h w : Z) : Z := u32 (Z.lxor h w * 709607).

Definition rotl5 (w : Z) : Z := Z.lor (u32 (Z.shiftl w 5)) (Z.shiftr w 27).

(** lib-sxe-dict/sxe-dict.c:21-25, meiyan. Eight bytes at a time. *)
Fixpoint meiyan_words (n : nat) (k : list Z) (i h : Z) : outcome Z :=
  match n with
  | O => Ret h
  | S n => a ← ld32 k i; b ← ld32 k (i + 4); meiyan_words n k (i + 8) (mix h (Z.lxor (rotl5 a) b))
  end.

(** lib-sxe-dict/sxe-dict.c:15-34, meiyan. The last byte is a (signed) char. *)
Definition meiyan (k : list Z) (n : Z) : outcome Z :=
  h ← meiyan_words (Z.to_nat (n / 8)) k 0 2166136261;
  let i := 8 * (n / 8) in
  let r := n mod 8 in
  '(h, i) ← (if negb (Z.land r 4 =? 0) then
               a ← ld16 k i; b ← ld16 k (i + 2); mret (mix (mix h a) b, i + 4)
             else mret (h, i));
  '(h, i) ← (if negb (Z.land r 2 =? 0) then a ← ld16 k i; mret (mix h a, i + 2) else mret (h, i));
  h ← (if negb (Z.land r 1 =? 0) then c ← load (rd k i); mret (mix h (u32 (schar c))) else mret h);
  mret (Z.lxor h (Z.shiftr h 16)).

(** ** Operations *)

Definition rd_node (a : Z) : cmd dstate sxe_dict_node := fun s => lift (load (ds_nodes s !! a)) s.
Definition wr_node (a : Z) (nd : sxe_dict_node) : cmd dstate unit := fun s =>
  match ds_nodes s !! a with
  | Some _ => Ret (tt, mk_dstate (ds_dict s) (<[a := nd]> (ds_nodes s)))
  | None => Fault
  end.
Definition set_next (nd : sxe_dict_node) (p : Z) : sxe_dict_node := mk_node p (key nd) (len nd) (value nd).
Definition set_value (nd : sxe_dict_node) (v : Z) : sxe_dict_node := mk_node (next nd) (key nd) (len nd) v.

(** The pointer in bucket [n] of the table. *)
Definition rd_bucket (n : Z) : cmd dstate Z := fun s => lift (t ← load (table (ds_dict s)); load (rd t n)) s.
Definition wr_bucket (n p : Z) : cmd dstate unit := fun s =>
  match table (ds_dict s) with
  | Some t =>
      match wr t n p with
      | Ret t => let d := ds_dict s in
                 Ret (tt, mk_dstate (mk_dict (Some t) (dsize d) (count d) (dload d) (growth d)) (ds_nodes s))
      | Abort => Abort
      | Fault => Fault
      end
  | None => Fault
  end.
Definition the_dict : cmd dstate sxe_dict := gets ds_dict.
Definition put_dict (d : sxe_dict) : cmd dstate unit := modify (fun s => mk_dstate d (ds_nodes s)).

(** The remainder of a division of unsigned numbers. *)
Definition urem (a b : Z) : outcome Z := if b =? 0 then Fault else Ret (a mod b).

(** lib-sxe-dict/sxe-dict.c:85-98, sxe_dict_reinsert_when_resizing. *)
Definition sxe_dict_reinsert_when_resizing (k2 : Z) : cmd dstate unit :=
  d ← the_dict;
  nd ← rd_node k2;
  h ← lift (meiyan (key nd) (len nd));
  n ← lift (urem h (dsize d));
  let n := s32 n in
  k ← rd_bucket n;
  if k =? NULL then wr_bucket n k2
  else
    nd ← rd_node k2;
    wr_node k2 (set_next nd k);;
    wr_bucket n k2.

(** lib-sxe-dict/sxe-dict.c:110-115, sxe_dict_resize. One chain of the old table. *)
Fixpoint resize_chain (fuel : nat) (k : Z) : cmd dstate unit :=
  match fuel with
  | O => lift Fault
  | S fuel =>
      if k =? NULL then mret tt
      else
        nd ← rd_node k;
        wr_node k (set_next nd NULL);;
        sxe_dict_reinsert_when_resizing k;;
        resize_chain fuel (next nd)
  end.

(** A number of steps that no chain of the heap exceeds. *)
Definition chain_fuel (s : dstate) : nat := S (size (ds_nodes s)).

(** lib-sxe-dict/sxe-dict.c:108-116, sxe_dict_resize. The [n] buckets of the old table from
    bucket [i]. *)
Fixpoint resize_loop (n : nat) (i : Z) (old : list Z) : cmd dstate unit :=
  match n with
  | O => mret tt
  | S n =>
      k ← lift (load (rd old i));
      fuel ← gets chain_fuel;
      resize_chain fuel k;;
      resize_loop n (i + 1) old
  end.

Section Operations.
Context (A : allocator).

(** lib-sxe-dict/sxe-dict.c:100-119, sxe_dict_resize. *)
Definition sxe_dict_resize (newsize : Z) : cmd dstate unit :=
  d ← the_dict;
  new ← gets (fun s => calloc A (ds_nodes s) newsize);
  let o := s32 (dsize d) in
  let old := match table d with Some t => t | None => [] end in
  put_dict (mk_dict new (u32 newsize) (count d) (dload d) (growth d));;
  resize_loop (Z.to_nat o) 0 old.

(** lib-sxe-dict/sxe-dict.c:59-70, sxe_dict_new. Beside the nodes that are in memory. *)
Definition sxe_dict_new (initial_size : Z) (nodes : gmap Z sxe_dict_node) : outcome dstate :=
  if dict_malloc A then
    Ret (mk_dstate (mk_dict (if initial_size =? 0 then None else calloc A nodes initial_size) (u32 initial_size) 0 100 2) nodes)
  else Fault.

(** lib-sxe-dict/sxe-dict.c:156-157, sxe_dict_add. The address of the last node of the
    chain, [NULL] when the bucket is empty. *)
Fixpoint chain_end (fuel : nat) (last k : Z) : cmd dstate Z :=
  match fuel with
  | O => lift Fault
  | S fuel => if k =? NULL then mret last else nd ← rd_node k; chain_end fuel k (next nd)
  end.

(** lib-sxe-dict/sxe-dict.c:36-46, sxe_dict_node_new. *)
Definition sxe_dict_node_new (k : list Z) (l : Z) : cmd dstate Z := fun s =>
  match node_malloc A (ds_nodes s) with
  | Some a =>
      if key_malloc A (ds_nodes s) l then
        match slice k 0 l with
        | Some bytes => Ret (a, mk_dstate (ds_dict s) (<[a := mk_node NULL bytes l NULL]> (ds_nodes s)))
        | None => Fault
        end
      else Fault
  | None => Fault
  end.

(** lib-sxe-dict/sxe-dict.c:159-159, sxe_dict_add. Storing a pointer through the link that the
    loop ended at: the bucket, or the last node's. *)
Definition link (bucket last a : Z) : cmd dstate unit :=
  if last =? NULL then wr_bucket bucket a else nd ← rd_node last; wr_node last (set_next nd a).

(** lib-sxe-dict/sxe-dict.c:147-154, sxe_dict_add. When the bucket is in use and the load is
    high, the table grows; the result is the key's bucket then. *)
Definition make_room (d : sxe_dict) (hash bucket : Z) : cmd dstate Z :=
  head ← rd_bucket bucket;
  if negb (head =? NULL) then
    let load := u32 (count d * 100) / dsize d in
    (if dload d <=? load then sxe_dict_resize (s32 (dsize d * growth d)) else mret tt);;
    d ← the_dict;
    lift (urem hash (dsize d))
  else mret bucket.

(** lib-sxe-dict/sxe-dict.c:132-162, sxe_dict_add. The result is the node whose value
    the returned pointer points to. *)
Definition sxe_dict_add (k : list Z) (keyn : Z) : cmd dstate Z :=
  keyn ← (if negb (keyn =? 0) then mret keyn else lift (load (strlen k)));
  d ← the_dict;
  (match table d with
   | None => new ← gets (fun s => calloc A (ds_nodes s) 1); put_dict (mk_dict new 1 (count d) (dload d) (growth d))
   | Some _ => mret tt
   end);;
  d ← the_dict;
  bytes ← lift (load (slice k 0 keyn));
  hash ← lift (meiyan bytes keyn);
  bucket ← lift (urem hash (dsize d));
  bucket ← make_room d hash bucket;
  head ← rd_bucket bucket;
  fuel ← gets chain_fuel;
  last ← chain_end fuel NULL head;
  a ← sxe_dict_node_new k keyn;
  link bucket last a;;
  d ← the_dict;
  put_dict (mk_dict (table d) (dsize d) (u32 (count d + 1)) (dload d) (growth d));;
  mret a.
End Operations.

(** lib-sxe-dict/sxe-dict.c:192-199, sxe_dict_find. *)
Fixpoint find_loop (fuel : nat) (k : Z) (bytes : list Z) (keyn : Z) : cmd dstate Z :=
  match fuel with
  | O => lift Fault
  | S fuel =>
      if k =? NULL then mret NULL
      else
        nd ← rd_node k;
        if (len nd =? keyn) && bool_decide (key nd = bytes) then mret (value nd)
        else find_loop fuel (next nd) bytes keyn
  end.

(** lib-sxe-dict/sxe-dict.c:173-200, sxe_dict_find. *)
Definition sxe_dict_find (k : list Z) (keyn : Z) : cmd dstate Z :=
  d ← the_dict;
  match table d with
  | None => mret NULL
  | Some _ =>
      bytes ← lift (load (slice k 0 keyn));
      hash ← lift (meiyan bytes keyn);
      n ← lift (urem hash (dsize d));
      head ← rd_bucket n;
      fuel ← gets chain_fuel;
      find_loop fuel head bytes keyn
  end.

Section ForEach.
(** The callback: whether to go on, the value it leaves, and its own state. *)
Context {U : Type} (f : list Z -> Z -> Z -> U -> bool * Z * U).

(** lib-sxe-dict/sxe-dict.c:206-215, sxe_dict_forEach. A chain; [false] when the callback
    stopped. *)
Fixpoint each_chain (fuel : nat) (k : Z) (user : U) : cmd dstate (bool * U) :=
  match fuel with
  | O => lift Fault
  | S fuel =>
      if k =? NULL then mret (true, user)
      else
        nd ← rd_node k;
        let '(more, v, user) := f (key nd) (len nd) (value nd) user in
        wr_node k (set_value nd v);;
        if (more : bool) then nd ← rd_node k; each_chain fuel (next nd) user else mret (false, user)
  end.

(** lib-sxe-dict/sxe-dict.c:205-216, sxe_dict_forEach. The [n] buckets from bucket [i]. *)
Fixpoint each_loop (n : nat) (i : Z) (user : U) : cmd dstate U :=
  match n with
  | O => mret user
  | S n =>
      k ← rd_bucket i;
      fuel ← gets chain_fuel;
      '(more, user) ← each_chain fuel k user;
      if (more : bool) then each_loop n (i + 1) user else mret user
  end.

(** lib-sxe-dict/sxe-dict.c:202-217, sxe_dict_forEach. *)
Definition sxe_dict_forEach (user : U) : cmd dstate U :=
  d ← the_dict; each_loop (Z.to_nat (dsize d)) 0 user.
End ForEach.

(** lib-sxe-dict/sxe-dict.c:48-57, sxe_dict_node_delete. *)
Fixpoint sxe_dict_node_delete (fuel : nat) (k : Z) : cmd dstate unit :=
  match fuel with
  | O => lift Fault
  | S fuel =>
      nd ← rd_node k;
      (if negb (next nd =? NULL) then sxe_dict_node_delete fuel (next nd) else mret tt);;
      modify (fun s => mk_dstate (ds_dict s) (delete k (ds_nodes s)))
  end.

(** lib-sxe-dict/sxe-dict.c:75-78, sxe_dict_delete. *)
Fixpoint delete_loop (n : nat) (i : Z) : cmd dstate unit :=
  match n with
  | O => mret tt
  | S n =>
      k ← rd_bucket i;
      fuel ← gets chain_fuel;
      (if negb (k =? NULL) then sxe_dict_node_delete fuel k else mret tt);;
      delete_loop n (i + 1)
  end.

(** lib-sxe-dict/sxe-dict.c:72-83, sxe_dict_delete. The table goes with the dictionary. *)
Definition sxe_dict_delete : cmd dstate unit :=
  d ← the_dict;
  delete_loop (Z.to_nat (dsize d)) 0;;
  put_dict (mk_dict None (dsize d) (count d) (dload d) (growth d)).

(** ** The hash of a key *)

Lemma ld32_total k i : 0 <= i -> i + 4 <= zlen k -> exists w, ld32 k i = Ret w.
Proof.
  intros H0 H1. unfold ld32.
  destruct (rd_lt k i ltac:(lia)) as [b0 ->], (rd_lt k (i + 1) ltac:(lia)) as [b1 ->],
    (rd_lt k (i + 2) ltac:(lia)) as [b2 ->], (rd_lt k (i + 3) ltac:(lia)) as [b3 ->]. by eexists.
Qed.

Lemma ld16_total k i : 0 <= i -> i + 2 <= zlen k -> exists w, ld16 k i = Ret w.
Proof.
  intros H0 H1. unfold ld16.
  destruct (rd_lt k i ltac:(lia)) as [b0 ->], (rd_lt k (i + 1) ltac:(lia)) as [b1 ->]. by eexists.
Qed.

Lemma mix_range h w : is_u32 (mix h w).
Proof. apply u32_range. Qed.

Lemma meiyan_words_total n : forall k i h, is_u32 h -> 0 <= i -> i + 8 * Z.of_nat n <= zlen k ->
  exists h', meiyan_words n k i h = Ret h' /\ is_u32 h'.
Proof.
  induction n as [|n IH]; intros k i h Hh Hi Hl; simpl; [by exists h|].
  destruct (ld32_total k i ltac:(lia) ltac:(lia)) as [a ->], (ld32_total k (i + 4) ltac:(lia) ltac:(lia)) as [b ->]. simpl.
  apply IH; [apply mix_range|lia|lia].
Qed.

(** The hash of [n] bytes that are there is a 32 bit number. *)
Lemma meiyan_total k n : 0 <= n <= zlen k -> exists h, meiyan k n = Ret h /\ is_u32 h.
Proof.
  intros Hn. unfold meiyan. set (q := n / 8). set (r := n mod 8).
  assert (Hr : n = 8 * q + r /\ 0 <= r < 8 /\ 0 <= q) by (unfold q, r; Z.to_euclidean_division_equations; lia).
  destruct (meiyan_words_total (Z.to_nat q) k 0 2166136261) as (h0 & -> & H0); [unfold is_u32; lia|lia|lia|].
  cbn [mbind outcome_bind].
  assert (Hbits : r = 4 * (if negb (Z.land r 4 =? 0) then 1 else 0) + 2 * (if negb (Z.land r 2 =? 0) then 1 else 0) +
    (if negb (Z.land r 1 =? 0) then 1 else 0)).
  { assert (r = 0 \/ r = 1 \/ r = 2 \/ r = 3 \/ r = 4 \/ r = 5 \/ r = 6 \/ r = 7) as [->|[->|[->|[->|[->|[->|[->| ->]]]]]]] by lia; done. }
  set (b4 := negb (Z.land r 4 =? 0)) in *. set (b2 := negb (Z.land r 2 =? 0)) in *. set (b1 := negb (Z.land r 1 =? 0)) in *.
  assert (S4 : exists h1, (if b4 then a ← ld16 k (8 * q); b ← ld16 k (8 * q + 2); mret (mix (mix h0 a) b, 8 * q + 4) else mret (h0, 8 * q)) =
    Ret (h1, 8 * q + if b4 then 4 else 0) /\ is_u32 h1).
  { destruct b4; [|exists h0; by rewrite Z.add_0_r].
    destruct (ld16_total k (8 * q) ltac:(lia)) as [a ->]; [case_if; case_if; lia|].
    destruct (ld16_total k (8 * q + 2) ltac:(lia)) as [b ->]; [case_if; case_if; lia|]. eexists. split; [done|apply mix_range]. }
  destruct S4 as (h1 & -> & H1). cbn [mbind outcome_bind]. set (i1 := 8 * q + if b4 then 4 else 0) in *.
  assert (Hi1 : 0 <= i1 /\ i1 + 2 * (if b2 then 1 else 0) + (if b1 then 1 else 0) <= zlen k) by (unfold i1; destruct b4, b2, b1; lia).
  clearbody i1.
  assert (S2 : exists h2, (if b2 then a ← ld16 k i1; mret (mix h1 a, i1 + 2) else mret (h1, i1)) =
    Ret (h2, i1 + if b2 then 2 else 0) /\ is_u32 h2).
  { destruct b2; [|exists h1; by rewrite Z.add_0_r].
    destruct (ld16_total k i1 ltac:(lia)) as [a ->]; [destruct b1; lia|]. eexists. split; [done|apply mix_range]. }
  destruct S2 as (h2 & -> & H2). cbn [mbind outcome_bind]. set (i2 := i1 + if b2 then 2 else 0) in *.
  assert (Hi2 : 0 <= i2 /\ i2 + (if b1 then 1 else 0) <= zlen k) by (unfold i2; destruct b2, b1; lia). clearbody i2.
  assert (S1 : exists h3, (if b1 then c ← load (rd k i2); mret (mix h2 (u32 (schar c))) else mret h2) = Ret h3 /\ is_u32 h3).
  { destruct b1; [|by exists h2]. destruct (rd_lt k i2 ltac:(lia)) as [c ->]. eexists. split; [done|apply mix_range]. }
  destruct S1 as (h3 & -> & H3). cbn [mbind outcome_bind]. eexists. split; [done|].
  unfold is_u32 in *. apply (lxor_bound _ _ 32); [lia|lia|]. apply shiftr_bound; lia.
Qed.

(** ** Chains *)

Section Chains.
Implicit Types (nodes : gmap Z sxe_dict_node) (l : list Z).

(** The chain from [p] runs over the nodes at the addresses [l]. *)
Fixpoint chain nodes (p : Z) l : Prop :=
  match l with
  | [] => p = NULL
  | a :: l => p = a /\ a <> NULL /\ exists nd, nodes !! a = Some nd /\ chain nodes (next nd) l
  end.

Lemma chain_frame nodes nodes' l : forall p, (forall a, a ∈ l -> nodes' !! a = nodes !! a) -> chain nodes p l -> chain nodes' p l.
Proof.
  induction l as [|a l IH]; intros p Hf; simpl; [done|]. intros (-> & Hn & nd & E & C).
  split; [done|]. split; [done|]. exists nd. split; [by rewrite Hf by constructor|].
  apply IH; [|done]. intros b Hb. apply Hf. by constructor.
Qed.

(** Only the links matter. *)
Lemma chain_links nodes nodes' l : forall p, (forall a, a ∈ l -> next <$> nodes' !! a = next <$> nodes !! a) -> chain nodes p l -> chain nodes' p l.
Proof.
  induction l as [|a l IH]; intros p Hf; simpl; [done|]. intros (-> & Hn & nd & E & C).
  split; [done|]. split; [done|]. pose proof (Hf a ltac:(by constructor)) as Ha. rewrite E in Ha.
  destruct (nodes' !! a) as [nd'|]; [|done]. simpl in Ha. exists nd'. split; [done|]. injection Ha as ->.
  apply IH; [|done]. intros b Hb. apply Hf. by constructor.
Qed.

Lemma chain_dom nodes l : forall p a, chain nodes p l -> a ∈ l -> is_Some (nodes !! a) /\ a <> NULL.
Proof.
  induction l as [|b l IH]; intros p a; simpl; [by intros _ []%elem_of_nil|].
  intros (-> & Hn & nd & E & C) [->|Ha]%elem_of_cons; [by rewrite E|]. by eapply IH.
Qed.

(** A chain without repetition is no longer than the heap. *)
Lemma dom_length nodes l : NoDup l -> (forall a, a ∈ l -> is_Some (nodes !! a)) -> (length l <= size nodes)%nat.
Proof.
  intros Hnd Hd. rewrite <-(size_list_to_set (C := gset Z) l) by done. rewrite <-size_dom.
  apply subseteq_size. intros a Ha. apply elem_of_list_to_set in Ha. by apply elem_of_dom, Hd.
Qed.

(** The node of an address. *)
Definition node_at nodes (a : Z) : sxe_dict_node := default (mk_node NULL [] 0 NULL) (nodes !! a).

Definition key_matches nodes (bytes : list Z) (n : Z) (a : Z) : bool :=
  (len (node_at nodes a) =? n) && bool_decide (key (node_at nodes a) = bytes).

Lemma find_loop_run s bytes n l : forall fuel p, chain (ds_nodes s) p l -> (length l < fuel)%nat ->
  find_loop fuel p bytes n s =
    Ret (match List.find (key_matches (ds_nodes s) bytes n) l with
         | Some a => value (node_at (ds_nodes s) a) | None => NULL end, s).
Proof.
  induction l as [|a l IH]; intros fuel p C Hf; destruct fuel as [|fuel]; try (simpl in Hf; lia); simpl in C |- *.
  - by rewrite C.
  - destruct C as (-> & Hn & nd & E & C). replace (a =? NULL) with false by (unfold NULL in *; lia).
    assert (R : rd_node a s = Ret (nd, s)) by (unfold rd_node; by rewrite E).
    rewrite (cmd_bind_ret _ _ _ _ _ R).
    assert (Ea : node_at (ds_nodes s) a = nd) by (unfold node_at; by rewrite E).
    unfold key_matches at 1. rewrite Ea. destruct (_ && _); [by rewrite Ea|]. apply IH; [done|simpl in Hf; lia].
Qed.

Lemma chain_end_run s l : forall fuel lst p, chain (ds_nodes s) p l -> (length l < fuel)%nat ->
  chain_end fuel lst p s = Ret (List.last l lst, s).
Proof.
  induction l as [|a l IH]; intros fuel lst p C Hf; destruct fuel as [|fuel]; try (simpl in Hf; lia); cbn [chain chain_end] in *.
  - by rewrite C.
  - destruct C as (-> & Hn & nd & E & C). replace (a =? NULL) with false by (unfold NULL in *; lia).
    assert (R : rd_node a s = Ret (nd, s)) by (unfold rd_node; by rewrite E).
    rewrite (cmd_bind_ret _ _ _ _ _ R). rewrite IH; [|done|simpl in Hf; lia].
    do 2 f_equal. destruct l as [|b l]; [done|]. clear. revert b. induction l as [|c l IH]; intros b; [done|]. apply (IH c).
Qed.

(** Linking a new node to the end. *)
Lemma chain_snoc nodes a nd l : forall p z lst, chain nodes p (l ++ [lst]) -> NoDup (l ++ [lst]) -> ~ a ∈ l ++ [lst] ->
  nodes !! lst = Some z -> nodes !! a = Some nd -> next nd = NULL -> a <> NULL ->
  chain (<[lst := set_next z a]> nodes) p ((l ++ [lst]) ++ [a]).
Proof.
  induction l as [|b l IH]; intros p z lst C Hnd Ha Hz Hnda Hn H0; simpl in *.
  - destruct C as (-> & Hl & nd' & E & C). split; [done|]. split; [done|]. exists (set_next z a).
    split; [apply lookup_insert_eq|]. simpl. split; [done|]. split; [done|]. exists nd.
    split; [|done]. rewrite lookup_insert_ne; [done|]. intros ->. apply Ha. constructor.
  - destruct C as (-> & Hl & nd' & E & C). apply NoDup_cons in Hnd as [Hb Hnd]. split; [done|]. split; [done|]. exists nd'. split.
    + rewrite lookup_insert_ne; [done|]. intros ->. apply Hb, elem_of_app. right. constructor.
    + eapply IH; try done. intros Hin. apply Ha. by constructor.
Qed.
End Chains.

(** ** Tables *)

Definition node_ok (nd : sxe_dict_node) : Prop := zlen (key nd) = len nd.

(** The bucket of the node at an address, in a table of the given size. *)
Definition bucket_of (nodes : gmap Z sxe_dict_node) (n a : Z) : nat :=
  match meiyan (key (node_at nodes a)) (len (node_at nodes a)) with Ret h => Z.to_nat (h mod n) | _ => O end.

(** A table whose chains are [cs]; the nodes [rest] wait to be inserted. *)
Record is_table (s : dstate) (cs : list (list Z)) (rest : list Z) : Prop := {
  tb_table : exists t, table (ds_dict s) = Some t /\ Forall2 (chain (ds_nodes s)) t cs;
  tb_size : dsize (ds_dict s) = zlen cs;
  tb_small : 0 < zlen cs < 2147483648;
  tb_nodup : NoDup (rest ++ concat cs);
  tb_ok : forall a, a ∈ rest ++ concat cs -> exists nd, ds_nodes s !! a = Some nd /\ node_ok nd /\ a <> NULL;
  tb_placed : forall b l a, cs !! b = Some l -> a ∈ l -> bucket_of (ds_nodes s) (zlen cs) a = b
}.

(** What the nodes hold, links apart. *)
Definition same_content (nodes nodes' : gmap Z sxe_dict_node) : Prop :=
  forall a, set_next <$> nodes' !! a = set_next <$> nodes !! a.

Lemma same_content_refl nodes : same_content nodes nodes.
Proof. done. Qed.
Lemma same_content_trans n1 n2 n3 : same_content n1 n2 -> same_content n2 n3 -> same_content n1 n3.
Proof. intros H1 H2 a. by rewrite H2. Qed.
Lemma same_content_link nodes a nd p : nodes !! a = Some nd -> same_content nodes (<[a := set_next nd p]> nodes).
Proof. intros E b. destruct (decide (a = b)) as [->|]; [by rewrite lookup_insert_eq, E|by rewrite lookup_insert_ne]. Qed.

Lemma same_content_node nodes nodes' a nd : same_content nodes nodes' -> nodes !! a = Some nd ->
  exists nd', nodes' !! a = Some nd' /\ key nd' = key nd /\ len nd' = len nd /\ value nd' = value nd.
Proof.
  intros S E. specialize (S a). rewrite E in S. destruct (nodes' !! a) as [nd'|]; [|done]. simpl in S. injection S as S.
  exists nd'. split; [done|]. pose proof (f_equal (fun f => key (f 0)) S). pose proof (f_equal (fun f => len (f 0)) S).
  pose proof (f_equal (fun f => value (f 0)) S). done.
Qed.

Lemma same_content_at nodes nodes' a : same_content nodes nodes' ->
  key (node_at nodes' a) = key (node_at nodes a) /\ len (node_at nodes' a) = len (node_at nodes a) /\
  value (node_at nodes' a) = value (node_at nodes a).
Proof.
  intros S. unfold node_at. specialize (S a) as Sa. destruct (nodes !! a) as [nd|] eqn:E.
  - destruct (same_content_node _ _ _ _ S E) as (nd' & -> & ? & ? & ?). done.
  - by destruct (nodes' !! a).
Qed.

Lemma same_content_bucket nodes nodes' n a : same_content nodes nodes' -> bucket_of nodes' n a = bucket_of nodes n a.
Proof. intros S. unfold bucket_of. destruct (same_content_at _ _ a S) as (-> & -> & _). done. Qed.

(** The dictionary apart from its table. *)
Definition same_fields (d d' : sxe_dict) : Prop :=
  dsize d' = dsize d /\ count d' = count d /\ dload d' = dload d /\ growth d' = growth d.

Lemma Forall2_chain_frame nodes nodes' t cs :
  (forall a, a ∈ concat cs -> nodes' !! a = nodes !! a) -> Forall2 (chain nodes) t cs -> Forall2 (chain nodes') t cs.
Proof.
  intros Hf H. induction H as [|p l t cs Hc _ IH]; constructor.
  - eapply chain_frame; [|exact Hc]. intros a Ha. apply Hf. simpl. apply elem_of_app. by left.
  - apply IH. intros a Ha. apply Hf. simpl. apply elem_of_app. by right.
Qed.

Lemma dict_bucket_range s cs rest a : is_table s cs rest -> a ∈ rest ++ concat cs ->
  exists h, meiyan (key (node_at (ds_nodes s) a)) (len (node_at (ds_nodes s) a)) = Ret h /\
    h mod dsize (ds_dict s) = Z.of_nat (bucket_of (ds_nodes s) (zlen cs) a) /\
    (bucket_of (ds_nodes s) (zlen cs) a < length cs)%nat.
Proof.
  intros T Ha. destruct (tb_ok _ _ _ T a Ha) as (nd & E & Hok & _).
  assert (En : node_at (ds_nodes s) a = nd) by (unfold node_at; by rewrite E).
  unfold bucket_of. rewrite En. destruct (meiyan_total (key nd) (len nd)) as (h & -> & Hh).
  { unfold node_ok in Hok. pose proof (zlen_nonneg (key nd)). lia. }
  exists h. split; [done|]. rewrite (tb_size _ _ _ T). pose proof (tb_small _ _ _ T).
  pose proof (Z.mod_pos_bound h (zlen cs) ltac:(lia)). unfold zlen in *. lia.
Qed.

(** The chain at a bucket. *)
Lemma bucket_chain s cs rest b : is_table s cs rest -> (b < length cs)%nat ->
  exists t p l, table (ds_dict s) = Some t /\ t !! b = Some p /\ cs !! b = Some l /\ chain (ds_nodes s) p l /\
    rd_bucket (Z.of_nat b) s = Ret (p, s) /\ length t = length cs /\ Forall2 (chain (ds_nodes s)) t cs.
Proof.
  intros T Hb. destruct (tb_table _ _ _ T) as (t & Et & F). pose proof (Forall2_length _ _ _ F) as Hl.
  destruct (lookup_lt_is_Some_2 cs b Hb) as [l El]. destruct (lookup_lt_is_Some_2 t b ltac:(lia)) as [p Ep].
  exists t, p, l. split_and!; try done.
  - by eapply Forall2_lookup_lr.
  - unfold rd_bucket. rewrite Et. simpl. by rewrite rd_nat, Ep.
Qed.

Lemma s32_small z : 0 <= z < 2147483648 -> s32 z = z.
Proof. intros Hz. unfold s32. rewrite u32_small by (unfold is_u32; lia). by replace (z <? 2147483648) with true by lia. Qed.

Lemma rd_node_ret s a nd : ds_nodes s !! a = Some nd -> rd_node a s = Ret (nd, s).
Proof. unfold rd_node. by intros ->. Qed.
Lemma wr_node_ret s a nd0 nd : ds_nodes s !! a = Some nd0 -> wr_node a nd s = Ret (tt, mk_dstate (ds_dict s) (<[a := nd]> (ds_nodes s))).
Proof. unfold wr_node. by intros ->. Qed.
Lemma wr_bucket_ret s t b p : table (ds_dict s) = Some t -> (b < length t)%nat ->
  wr_bucket (Z.of_nat b) p s = Ret (tt, mk_dstate (mk_dict (Some (<[b := p]> t)) (dsize (ds_dict s)) (count (ds_dict s))
    (dload (ds_dict s)) (growth (ds_dict s))) (ds_nodes s)).
Proof.
  intros Et Hb. unfold wr_bucket. rewrite Et, wr_ok by (unfold zlen; lia). by rewrite Nat2Z.id.
Qed.

(** Inserting a waiting node at the head of its chain. *)
Lemma reinsert_run s cs a rest nd : is_table s cs (a :: rest) -> ds_nodes s !! a = Some nd -> next nd = NULL ->
  exists s' cs', sxe_dict_reinsert_when_resizing a s = Ret (tt, s') /\ is_table s' cs' rest /\
    (concat cs' ≡ₚ a :: concat cs) /\ zlen cs' = zlen cs /\ same_fields (ds_dict s) (ds_dict s') /\
    exists p, ds_nodes s' = <[a := set_next nd p]> (ds_nodes s).
Proof.
  intros T E Hn. destruct (dict_bucket_range s cs _ a T ltac:(by constructor)) as (h & Eh & Em & Hb).
  set (b := bucket_of (ds_nodes s) (zlen cs) a) in *.
  destruct (bucket_chain s cs _ b T Hb) as (t & p & l & Et & Ep & El & C & Rb & Hlt & F).
  assert (Ea : node_at (ds_nodes s) a = nd) by (unfold node_at; by rewrite E). rewrite Ea in Eh.
  destruct (tb_ok _ _ _ T a ltac:(by constructor)) as (nd' & E' & Hok & Ha0). assert (nd' = nd) as -> by congruence. clear E'.
  set (nodes' := <[a := set_next nd p]> (ds_nodes s)).
  set (d' := mk_dict (Some (<[b := a]> t)) (dsize (ds_dict s)) (count (ds_dict s)) (dload (ds_dict s)) (growth (ds_dict s))).
  exists (mk_dstate d' nodes'), (<[b := (a :: l)]> cs).
  assert (Hc : (a ∉ concat cs) /\ NoDup (rest ++ concat cs) /\ (a ∉ rest)).
  { pose proof (tb_nodup _ _ _ T) as Hnd. simpl in Hnd. apply NoDup_cons in Hnd as [Hna Hnd].
    rewrite elem_of_app in Hna. tauto. }
  destruct Hc as (Hna & Hnd & Hnr).
  assert (Hperm : concat (<[b := (a :: l)]> cs) ≡ₚ a :: concat cs).
  { pose proof (concat_insert_perm cs b l (a :: l) El) as P. apply (Permutation_app_inv_r l). rewrite P. solve_Permutation. }
  split_and!; [|split; simpl|done|unfold zlen; by rewrite length_insert|done|by exists p].
  - unfold sxe_dict_reinsert_when_resizing, the_dict.
    rewrite (cmd_bind_ret _ _ s (ds_dict s) s eq_refl). rewrite (cmd_bind_ret _ _ _ _ _ (rd_node_ret _ _ _ E)).
    rewrite Eh. rewrite (cmd_bind_ret _ _ s h s eq_refl). unfold urem. pose proof (tb_small _ _ _ T). pose proof (tb_size _ _ _ T).
    replace (dsize (ds_dict s) =? 0) with false by lia. rewrite Em. rewrite (cmd_bind_ret _ _ s (Z.of_nat b) s eq_refl).
    rewrite s32_small by (unfold zlen in *; lia). rewrite (cmd_bind_ret _ _ _ _ _ Rb).
    destruct (Z.eqb_spec p NULL) as [->|Hp].
    + rewrite (wr_bucket_ret s t b a Et) by lia. do 3 f_equal. unfold nodes'. symmetry. apply insert_id. rewrite E. destruct nd; simpl in *. by subst.
    + rewrite (cmd_bind_ret _ _ _ _ _ (rd_node_ret _ _ _ E)). rewrite (cmd_bind_ret _ _ _ _ _ (wr_node_ret _ _ _ _ E)).
      rewrite (wr_bucket_ret _ t b a); [done|done|lia].
  - exists (<[b := a]> t). split; [done|]. apply Forall2_insert.
    + eapply Forall2_chain_frame; [|exact F]. intros x Hx. unfold nodes'. rewrite lookup_insert_ne; [done|]. by intros ->.
    + simpl. split; [done|]. split; [done|]. exists (set_next nd p). split; [apply lookup_insert_eq|]. simpl.
      eapply chain_frame; [|exact C]. intros x Hx. unfold nodes'. rewrite lookup_insert_ne; [done|]. intros ->.
      apply Hna, concat_elem. by exists b, l.
  - rewrite (tb_size _ _ _ T). unfold zlen. by rewrite length_insert.
  - unfold zlen. rewrite length_insert. apply (tb_small _ _ _ T).
  - rewrite Hperm. apply (NoDup_Permutation_proper _ (a :: rest ++ concat cs)); [by rewrite Permutation_middle|].
    apply (tb_nodup _ _ _ T).
  - intros x Hx. rewrite Hperm in Hx. destruct (tb_ok _ _ _ T x) as (ndx & Ex & Hokx & Hx0).
    { revert Hx. simpl. rewrite elem_of_app, !elem_of_cons, elem_of_app. tauto. }
    unfold nodes'. destruct (decide (a = x)) as [->|]; [|rewrite lookup_insert_ne by done; by exists ndx].
    rewrite lookup_insert_eq. exists (set_next nd p). split; [done|]. split; [done|done].
  - intros b' l' x Hl' Hx. unfold zlen. rewrite length_insert.
    rewrite (same_content_bucket (ds_nodes s)) by (by apply same_content_link).
    destruct (decide (b = b')) as [<-|Hne].
    + rewrite list_lookup_insert_eq in Hl' by lia. injection Hl' as <-. apply elem_of_cons in Hx as [->|Hx]; [done|].
      by apply (tb_placed _ _ _ T b l x).
    + rewrite list_lookup_insert_ne in Hl' by done. by apply (tb_placed _ _ _ T b' l' x).
Qed.

Lemma table_length s cs rest : is_table s cs rest -> (length (rest ++ concat cs) <= size (ds_nodes s))%nat.
Proof.
  intros T. apply dom_length; [apply (tb_nodup _ _ _ T)|]. intros a Ha. destruct (tb_ok _ _ _ T a Ha) as (nd & E & _). by exists nd.
Qed.

(** Relinking a waiting node leaves the table as it is. *)
Lemma unlink_table s cs a rest nd : is_table s cs (a :: rest) -> ds_nodes s !! a = Some nd ->
  is_table (mk_dstate (ds_dict s) (<[a := set_next nd NULL]> (ds_nodes s))) cs (a :: rest).
Proof.
  intros T E. destruct T as [(t & Et & F) Hs Hsm Hnd Hok Hpl]. split; simpl; try done.
  - exists t. split; [done|]. eapply Forall2_chain_frame; [|exact F]. intros x Hx. rewrite lookup_insert_ne; [done|].
    intros ->. simpl in Hnd. apply NoDup_cons in Hnd as [Hna _]. apply Hna, elem_of_app. by right.
  - intros x Hx. destruct (Hok x Hx) as (ndx & Ex & Hokx & Hx0). destruct (decide (a = x)) as [->|].
    + rewrite lookup_insert_eq. assert (ndx = nd) as -> by congruence. by exists (set_next nd NULL).
    + rewrite lookup_insert_ne by done. by exists ndx.
  - intros b l x Hl Hx. rewrite (same_content_bucket (ds_nodes s)) by (by apply same_content_link). by apply (Hpl b l x).
Qed.

(** What resizing keeps: the fields, the contents of the nodes, and the nodes that wait. *)
Definition kept (s s' : dstate) (later : list Z) : Prop :=
  same_fields (ds_dict s) (ds_dict s') /\ same_content (ds_nodes s) (ds_nodes s') /\
  forall a, a ∈ later -> ds_nodes s' !! a = ds_nodes s !! a.

Lemma kept_trans s1 s2 s3 l1 l2 : kept s1 s2 l1 -> kept s2 s3 l2 -> (forall a, a ∈ l2 -> a ∈ l1) -> kept s1 s3 l2.
Proof.
  intros ((F1 & F2 & F3 & F4) & C & N) ((F1' & F2' & F3' & F4') & C' & N') Hl. split_and!; [|by eapply same_content_trans|].
  - unfold same_fields. rewrite F1', F2', F3', F4'. done.
  - intros a Ha. rewrite N', N by auto. done.
Qed.

Lemma resize_chain_run rest : forall fuel k s cs later, is_table s cs (rest ++ later) -> chain (ds_nodes s) k rest ->
  (length rest < fuel)%nat ->
  exists s' cs', resize_chain fuel k s = Ret (tt, s') /\ is_table s' cs' later /\ (concat cs' ≡ₚ rest ++ concat cs) /\
    zlen cs' = zlen cs /\ kept s s' later.
Proof.
  induction rest as [|a rest IH]; intros fuel k s cs later T C Hf; destruct fuel as [|fuel]; try (simpl in Hf; lia); simpl in C; cbn [resize_chain].
  - subst k. exists s, cs. by split_and!.
  - destruct C as (-> & Ha0 & nd & E & C). replace (a =? NULL) with false by (unfold NULL in *; lia).
    rewrite (cmd_bind_ret _ _ _ _ _ (rd_node_ret _ _ _ E)). rewrite (cmd_bind_ret _ _ _ _ _ (wr_node_ret _ _ _ _ E)).
    pose proof (tb_nodup _ _ _ T) as Hnd. simpl in Hnd. apply NoDup_cons in Hnd as [Hna _]. rewrite !elem_of_app in Hna.
    pose proof (unlink_table s cs a (rest ++ later) nd T E) as T1. set (s1 := mk_dstate _ _) in *.
    destruct (reinsert_run s1 cs a (rest ++ later) (set_next nd NULL) T1) as (s2 & cs2 & R & T2 & P2 & L2 & F2 & p & N2); [apply lookup_insert_eq|done|].
    rewrite (cmd_bind_ret _ _ _ _ _ R). simpl in N2.
    assert (Hsame : forall x, x <> a -> ds_nodes s2 !! x = ds_nodes s !! x).
    { intros x Hx. rewrite N2, !lookup_insert_ne by done. done. }
    destruct (IH fuel (next nd) s2 cs2 later T2) as (s' & cs' & R' & T' & P' & L' & K'); [|simpl in Hf; lia|].
    { eapply chain_frame; [|exact C]. intros x Hx. apply Hsame. intros ->. tauto. }
    exists s', cs'. split_and!; [done|done| |lia|].
    + rewrite P', P2. simpl. by rewrite Permutation_middle.
    + eapply (kept_trans s s2 s' later); [|exact K'|done]. split_and!; [done| |].
      * rewrite N2. eapply same_content_trans; [by apply (same_content_link _ a nd NULL)|]. apply (same_content_link _ a (set_next nd NULL) p), lookup_insert_eq.
      * intros x Hx. apply Hsame. intros ->. tauto.
Qed.

Lemma resize_loop_run old_cs : forall n i old s cs, n = length old_cs -> is_table s cs (concat old_cs) ->
  (forall j p, old !! (Z.to_nat i + j)%nat = Some p -> forall l, old_cs !! j = Some l -> chain (ds_nodes s) p l) ->
  0 <= i -> length old = (Z.to_nat i + n)%nat ->
  exists s' cs', resize_loop n i old s = Ret (tt, s') /\ is_table s' cs' [] /\ (concat cs' ≡ₚ concat old_cs ++ concat cs) /\
    zlen cs' = zlen cs /\ kept s s' [].
Proof.
  induction old_cs as [|l old_cs IH]; intros n i old s cs -> T Hold Hi Hlen; cbn [resize_loop length].
  - exists s, cs. by split_and!.
  - destruct (lookup_lt_is_Some_2 old (Z.to_nat i)) as [p Ep]; [simpl in Hlen; lia|].
    assert (Er : rd old i = Some p) by (unfold rd; replace (0 <=? i) with true by lia; done).
    rewrite Er. rewrite (cmd_bind_ret _ _ s p s eq_refl). rewrite (cmd_bind_ret _ _ s (chain_fuel s) s eq_refl).
    simpl in T. pose proof (table_length _ _ _ T) as Hlt. rewrite !length_app in Hlt.
    destruct (resize_chain_run l (chain_fuel s) p s cs (concat old_cs) T) as (s1 & cs1 & R1 & T1 & P1 & L1 & K1).
    { apply (Hold 0%nat p); [by rewrite Nat.add_0_r|done]. }
    { unfold chain_fuel. lia. }
    rewrite (cmd_bind_ret _ _ _ _ _ R1).
    destruct (IH (length old_cs) (i + 1) old s1 cs1 eq_refl T1) as (s2 & cs2 & R2 & T2 & P2 & L2 & K2).
    { intros j q Eq l' El'. eapply chain_frame; [|apply (Hold (S j) q); [|exact El']].
      - intros a Ha. apply (proj2 (proj2 K1)). apply concat_elem. by exists j, l'.
      - rewrite <-Eq. f_equal. lia. }
    { lia. }
    { simpl in Hlen. lia. }
    exists s2, cs2. split_and!; [done|done| |lia|].
    + rewrite P2, P1. simpl. solve_Permutation.
    + eapply kept_trans; [exact K1|exact K2|]. by intros a Ha%elem_of_nil.
Qed.

Lemma calloc_given A nodes n : never_refuses A -> 0 <= n -> calloc A nodes n = Some (replicate (Z.to_nat n) NULL).
Proof. intros HA Hn. unfold calloc. rewrite (nr_table A HA). by replace (0 <=? n) with true by lia. Qed.

Lemma concat_replicate_nil {A} n : concat (replicate n (@nil A)) = [].
Proof. by induction n. Qed.

(** Growing the table keeps every node, at its address and with its contents. *)
Lemma resize_run A s cs newsize : never_refuses A -> is_table s cs [] -> 0 < newsize < 2147483648 ->
  exists s' cs', sxe_dict_resize A newsize s = Ret (tt, s') /\ is_table s' cs' [] /\ (concat cs' ≡ₚ concat cs) /\
    zlen cs' = newsize /\ same_content (ds_nodes s) (ds_nodes s') /\
    count (ds_dict s') = count (ds_dict s) /\ dload (ds_dict s') = dload (ds_dict s) /\ growth (ds_dict s') = growth (ds_dict s).
Proof.
  intros HA T Hn. destruct (tb_table _ _ _ T) as (t & Et & F). pose proof (tb_size _ _ _ T) as Hs. pose proof (tb_small _ _ _ T) as Hsm.
  unfold sxe_dict_resize, the_dict. rewrite (cmd_bind_ret _ _ s (ds_dict s) s eq_refl).
  rewrite (cmd_bind_ret (gets _) _ s _ s eq_refl), (calloc_given A _ _ HA) by lia. rewrite Et.
  rewrite Hs, s32_small by lia. rewrite u32_small by (unfold is_u32; lia).
  set (s1 := mk_dstate (mk_dict (Some (replicate (Z.to_nat newsize) NULL)) newsize (count (ds_dict s)) (dload (ds_dict s)) (growth (ds_dict s))) (ds_nodes s)).
  rewrite (cmd_bind_ret (put_dict _) _ s tt s1 eq_refl). set (cs0 := replicate (Z.to_nat newsize) (@nil Z)).
  assert (E0 : concat cs0 = []) by apply concat_replicate_nil.
  assert (T1 : is_table s1 cs0 (concat cs)).
  { split; simpl.
    - eexists. split; [done|]. unfold cs0. clear. induction (Z.to_nat newsize) as [|n IH]; simpl; constructor; [done|exact IH].
    - unfold cs0. rewrite zlen_replicate. lia.
    - unfold cs0. rewrite zlen_replicate. lia.
    - rewrite E0, app_nil_r. apply (tb_nodup _ _ _ T).
    - rewrite E0, app_nil_r. apply (tb_ok _ _ _ T).
    - intros b l a Hl Ha. exfalso. unfold cs0 in Hl. apply lookup_replicate in Hl as [-> _]. by apply elem_of_nil in Ha. }
  destruct (resize_loop_run cs (Z.to_nat (zlen cs)) 0 t s1 cs0) as (s' & cs' & R & T' & P & L & ((_ & K2 & K3 & K4) & K5 & _)); try done.
  - unfold zlen. by rewrite Nat2Z.id.
  - intros j p Ep l El. by eapply Forall2_lookup_lr.
  - apply Forall2_length in F. unfold zlen. simpl. lia.
  - exists s', cs'. split_and!; [done|done| |rewrite L; unfold cs0; rewrite zlen_replicate; lia|done..].
    by rewrite P, E0, app_nil_r.
Qed.

(** ** The dictionary as a finite map *)

(** A dictionary whose entries are [m]: for each key, the address of its node. *)
Record is_dict (s : dstate) (m : gmap (list Z) Z) : Prop := {
  dc_count : count (ds_dict s) = Z.of_nat (size m);
  dc_load : dload (ds_dict s) = 100 /\ growth (ds_dict s) = 2;
  dc_table : (table (ds_dict s) = None /\ m = ∅) \/
    exists cs, is_table s cs [] /\
      (forall k a, m !! k = Some a <-> a ∈ concat cs /\ key (node_at (ds_nodes s) a) = k)
}.

Lemma node_at_some nodes a nd : nodes !! a = Some nd -> node_at nodes a = nd.
Proof. unfold node_at. by intros ->. Qed.

(** Looking a key up in its chain. *)
Lemma find_in_chain (s : dstate) (cs : list (list Z)) (m : gmap (list Z) Z) bytes h l : is_table s cs [] ->
  (forall k a, m !! k = Some a <-> a ∈ concat cs /\ key (node_at (ds_nodes s) a) = k) ->
  meiyan bytes (zlen bytes) = Ret h -> cs !! Z.to_nat (h mod zlen cs) = Some l ->
  match List.find (key_matches (ds_nodes s) bytes (zlen bytes)) l with
  | Some a => m !! bytes = Some a
  | None => m !! bytes = None
  end.
Proof.
  intros T Hm Eh El. destruct (List.find _ l) as [a|] eqn:Ef.
  - apply find_some in Ef as [Ha Hk]. apply list_elem_of_In in Ha. apply Hm. split.
    + apply concat_elem. by eexists _, l.
    + unfold key_matches in Hk. apply andb_true_iff in Hk as [_ Hk]. by apply bool_decide_eq_true in Hk.
  - destruct (m !! bytes) as [a|] eqn:Ea; [|done]. exfalso. apply Hm in Ea as [Ha Hk].
    pose proof Ha as Ha2. apply concat_elem in Ha2 as (b & l' & El' & Hal).
    destruct (tb_ok _ _ _ T a) as (nd & E & Hok & _); [done|]. pose proof (node_at_some _ _ _ E) as En.
    pose proof (tb_placed _ _ _ T b l' a El' Hal) as Hb. unfold bucket_of in Hb. rewrite En in Hb, Hk. rewrite Hk in Hb.
    unfold node_ok in Hok. rewrite Hk in Hok. rewrite <-Hok, Eh in Hb. rewrite Hb in El. assert (l' = l) as -> by congruence.
    pose proof (find_none _ _ Ef a (proj1 (list_elem_of_In _ _) Hal)) as Hn. unfold key_matches in Hn.
    rewrite En, Hk, <-Hok, Z.eqb_refl, bool_decide_eq_true_2 in Hn by done. done.
Qed.

Lemma chain_short s cs rest b p l : is_table s cs rest -> cs !! b = Some l -> chain (ds_nodes s) p l -> (length l < chain_fuel s)%nat.
Proof.
  intros T El _. pose proof (table_length _ _ _ T) as H. rewrite length_app in H. unfold chain_fuel.
  assert (length l <= length (concat cs))%nat; [|lia]. clear T H. revert b El. induction cs as [|l0 cs IH]; intros [|b] El; simpl in *; try done.
  - injection El as ->. rewrite length_app. lia.
  - rewrite length_app. pose proof (IH _ El). lia.
Qed.

Section Dictionary.
Context (A : allocator) (A_fresh : gives_fresh A) (A_gives : never_refuses A).

(** The key [bytes] as the caller passes it: its length, or 0 and a NUL after it. *)
Definition passes_key (mem : list Z) (keyn : Z) (bytes : list Z) : Prop :=
  (exists tail, mem = bytes ++ tail) /\
  (keyn = zlen bytes /\ bytes <> [] \/ keyn = 0 /\ no_nul bytes /\ exists tail, mem = bytes ++ 0 :: tail).

Lemma dict_slice_key mem keyn bytes : passes_key mem keyn bytes -> slice mem 0 (zlen bytes) = Some bytes.
Proof using. intros [[tail ->] _]. apply slice_prefix. Qed.

Lemma find_run s m mem bytes : is_dict s m -> (exists tail, mem = bytes ++ tail) ->
  sxe_dict_find mem (zlen bytes) s =
    Ret (match m !! bytes with Some a => value (node_at (ds_nodes s) a) | None => NULL end, s).
Proof using.
  intros D [tail ->]. unfold sxe_dict_find, the_dict. rewrite (cmd_bind_ret _ _ s (ds_dict s) s eq_refl).
  destruct (dc_table _ _ D) as [[-> ->]|(cs & T & Hm)]; [by rewrite lookup_empty|].
  destruct (tb_table _ _ _ T) as (t & Et & F). rewrite Et, slice_prefix. rewrite (cmd_bind_ret _ _ s bytes s eq_refl).
  destruct (meiyan_total bytes (zlen bytes)) as (h & Eh & Hh); [pose proof (zlen_nonneg bytes); lia|].
  rewrite Eh. rewrite (cmd_bind_ret _ _ s h s eq_refl).
  pose proof (tb_small _ _ _ T). pose proof (tb_size _ _ _ T) as Hs. pose proof (Z.mod_pos_bound h (zlen cs) ltac:(lia)).
  unfold urem. rewrite Hs. replace (zlen cs =? 0) with false by lia. rewrite (cmd_bind_ret _ _ s (h mod zlen cs) s eq_refl).
  destruct (bucket_chain s cs [] (Z.to_nat (h mod zlen cs)) T) as (t' & p & l & _ & _ & El & C & Rb & _); [unfold zlen in *; lia|].
  rewrite Z2Nat.id in Rb by lia. rewrite (cmd_bind_ret _ _ _ _ _ Rb). rewrite (cmd_bind_ret _ _ s (chain_fuel s) s eq_refl).
  rewrite (find_loop_run s bytes (zlen bytes) l); [|done|by eapply chain_short].
  pose proof (find_in_chain s cs m bytes h l T Hm Eh El) as Hf. destruct (List.find _ l) as [a|]; by rewrite Hf.
Qed.

(** The contents of every node but [a] are unchanged. *)
Definition other_content (nodes nodes' : gmap Z sxe_dict_node) (a : Z) : Prop :=
  forall b, b <> a -> set_next <$> nodes' !! b = set_next <$> nodes !! b.

Lemma other_content_at nodes nodes' a b : other_content nodes nodes' a -> b <> a ->
  key (node_at nodes' b) = key (node_at nodes b) /\ len (node_at nodes' b) = len (node_at nodes b) /\
  value (node_at nodes' b) = value (node_at nodes b).
Proof using.
  intros O Hb. assert (Sc : same_content (<[a := node_at nodes' a]> nodes) (<[a := node_at nodes' a]> nodes')).
  { intros c. destruct (decide (a = c)) as [->|]; [by rewrite !lookup_insert_eq|]. rewrite !lookup_insert_ne by done. by apply O. }
  pose proof (same_content_at _ _ b Sc) as H. unfold node_at in *. by rewrite !lookup_insert_ne in H by done.
Qed.

(** Linking the new node [a] to the end of the chain [l] of bucket [b]. *)
Lemma link_run nodes d t b p l a new : table d = Some t -> t !! b = Some p -> (b < length t)%nat -> chain nodes p l -> NoDup l ->
  nodes !! a = Some new -> next new = NULL -> a <> NULL -> ~ a ∈ l ->
  exists t' nodes', link (Z.of_nat b) (List.last l NULL) a (mk_dstate d nodes) =
      Ret (tt, mk_dstate (mk_dict (Some t') (dsize d) (count d) (dload d) (growth d)) nodes') /\ length t' = length t /\
    (forall b', b' <> b -> t' !! b' = t !! b') /\ (exists p', t' !! b = Some p' /\ chain nodes' p' (l ++ [a])) /\
    (forall x, ~ x ∈ l -> nodes' !! x = nodes !! x) /\ same_content nodes nodes'.
Proof using.
  intros Et Ep Hb C Hnd Ea Hn Ha0 Hna. unfold link. destruct l as [|z l _] using rev_ind.
  - simpl in C |- *. rewrite (wr_bucket_ret _ t b a) by done. exists (<[b := a]> t), nodes. split_and!; try done.
    + by rewrite length_insert.
    + intros b' Hb'. by rewrite list_lookup_insert_ne.
    + exists a. rewrite list_lookup_insert_eq by lia. split; [done|]. simpl. split; [done|]. split; [done|]. by exists new.
  - rewrite List.last_last. destruct (chain_dom _ _ _ z C) as [[nz Ez] Hz0]; [apply elem_of_app; right; constructor|].
    replace (z =? NULL) with false by (unfold NULL in *; lia).
    rewrite (cmd_bind_ret _ _ (mk_dstate d nodes) nz (mk_dstate d nodes) (rd_node_ret (mk_dstate d nodes) z nz Ez)).
    rewrite (wr_node_ret (mk_dstate d nodes) z nz _ Ez). exists t, (<[z := set_next nz a]> nodes). split_and!; try done.
    + destruct d as [td ? ? ? ?]; simpl in *. by rewrite Et.
    + exists p. split; [done|]. by apply (chain_snoc nodes a new l p nz z).
    + intros x Hx. rewrite lookup_insert_ne; [done|]. intros <-. apply Hx, elem_of_app. right. constructor.
    + by apply same_content_link.
Qed.

(** Appending the new node to its chain. *)
Lemma dict_append_run s cs mem bytes h : is_table s cs [] -> (exists tail, mem = bytes ++ tail) ->
  meiyan bytes (zlen bytes) = Ret h ->
  exists p l s' cs' a, rd_bucket (h mod zlen cs) s = Ret (p, s) /\ cs !! Z.to_nat (h mod zlen cs) = Some l /\
    chain_end (chain_fuel s) NULL p s = Ret (List.last l NULL, s) /\
    (a ← sxe_dict_node_new A mem (zlen bytes); link (h mod zlen cs) (List.last l NULL) a;; mret a) s = Ret (a, s') /\
    is_table s' cs' [] /\ (concat cs' ≡ₚ a :: concat cs) /\ zlen cs' = zlen cs /\
    (a ∉ concat cs) /\ other_content (ds_nodes s) (ds_nodes s') a /\
    (exists q, ds_nodes s' !! a = Some (mk_node q bytes (zlen bytes) NULL)) /\ same_fields (ds_dict s) (ds_dict s').
Proof using A_fresh A_gives.
  intros T [tail ->] Eh. pose proof (tb_small _ _ _ T) as Hsm. pose proof (tb_size _ _ _ T) as Hs.
  pose proof (Z.mod_pos_bound h (zlen cs) ltac:(lia)) as Hb. set (b := Z.to_nat (h mod zlen cs)).
  destruct (bucket_chain s cs [] b T) as (t & p & l & Et & Ep & El & C & Rb & Hlt & F); [unfold b, zlen in *; lia|].
  replace (Z.of_nat b) with (h mod zlen cs) in Rb by (unfold b; lia).
  destruct (nr_node A A_gives (ds_nodes s)) as [a Em]. destruct (A_fresh _ _ Em) as [Hf Ha0].
  assert (Hna : a ∉ concat cs).
  { intros Hin. destruct (tb_ok _ _ _ T a Hin) as (nd & E & _). congruence. }
  set (new := mk_node NULL bytes (zlen bytes) NULL). set (nodes1 := <[a := new]> (ds_nodes s)).
  set (d := ds_dict s) in *.
  assert (Hl_in : forall x, x ∈ l -> x ∈ concat cs) by (intros x Hx; apply concat_elem; by exists b, l).
  assert (Hnd : NoDup l) by (apply (concat_NoDup_in cs b l); [apply (tb_nodup _ _ _ T)|done]).
  destruct (link_run nodes1 d t b p l a new) as (t' & nodes' & RL & Lt & Hother & (p' & Ep' & C') & Hframe & Hsc); try done.
  { unfold b, zlen in *. lia. }
  { eapply chain_frame; [|exact C]. intros x Hx. unfold nodes1. rewrite lookup_insert_ne; [done|]. intros <-. by apply Hna, Hl_in. }
  { apply lookup_insert_eq. }
  { intros Hin. by apply Hna, Hl_in. }
  replace (Z.of_nat b) with (h mod zlen cs) in RL by (unfold b; lia).
  assert (Hperm : concat (<[b := l ++ [a]]> cs) ≡ₚ a :: concat cs).
  { pose proof (concat_insert_perm cs b l (l ++ [a]) El) as P. apply (Permutation_app_inv_r l). rewrite P. solve_Permutation. }
  assert (Hnew : exists q, nodes' !! a = Some (mk_node q bytes (zlen bytes) NULL)).
  { destruct (same_content_node nodes1 nodes' a new Hsc (lookup_insert_eq _ _ _)) as (nd & E & K1 & K2 & K3).
    exists (next nd). rewrite E. destruct nd; simpl in *. by subst. }
  assert (Hoc : other_content (ds_nodes s) nodes' a).
  { intros x Hx. rewrite (Hsc x). unfold nodes1. by rewrite lookup_insert_ne. }
  exists p, l, (mk_dstate (mk_dict (Some t') (dsize d) (count d) (dload d) (growth d)) nodes'), (<[b := l ++ [a]]> cs), a.
  split_and!; try done.
  - apply chain_end_run; [done|by eapply chain_short].
  - assert (Rn : sxe_dict_node_new A (bytes ++ tail) (zlen bytes) s = Ret (a, mk_dstate d nodes1)).
    { unfold sxe_dict_node_new. by rewrite Em, (nr_key A A_gives), slice_prefix. }
    rewrite (cmd_bind_ret _ _ _ _ _ Rn). by rewrite (cmd_bind_ret _ _ _ _ _ RL).
  - split; simpl.
    + exists t'. split; [done|]. apply Forall2_same_length_lookup. split; [rewrite length_insert; lia|].
      intros b' q l' Eq Eq'. destruct (decide (b = b')) as [<-|Hne].
      * rewrite list_lookup_insert_eq in Eq' by (unfold b, zlen in *; lia). injection Eq' as <-. congruence.
      * rewrite list_lookup_insert_ne in Eq' by done. rewrite Hother in Eq by done.
        eapply chain_frame; [|by eapply (Forall2_lookup_lr _ _ _ b' q l' F)].
        intros x Hx. assert (Hxl : x ∉ l).
        { intros Hin. apply Hne. eapply (concat_unique cs b b' l l' x); try done. apply (tb_nodup _ _ _ T). }
        rewrite Hframe by done. unfold nodes1. rewrite lookup_insert_ne; [done|]. intros <-. apply Hna, concat_elem. by exists b', l'.
    + rewrite Hs. unfold zlen. by rewrite length_insert.
    + unfold zlen in *. by rewrite length_insert.
    + rewrite Hperm. constructor; [done|]. apply (tb_nodup _ _ _ T).
    + intros x Hx. rewrite Hperm in Hx. apply elem_of_cons in Hx as [->|Hx].
      * destruct Hnew as [q E]. eexists. split; [exact E|]. done.
      * destruct (tb_ok _ _ _ T x Hx) as (nx & Ex & Hok & Hx0). assert (x <> a) by (intros ->; done).
        assert (Ex1 : nodes1 !! x = Some nx) by (unfold nodes1; by rewrite lookup_insert_ne).
        destruct (same_content_node nodes1 nodes' x nx Hsc Ex1) as (nd & E & K1 & K2 & K3).
        exists nd. split; [done|]. split; [|done]. unfold node_ok in *. by rewrite K1, K2.
    + intros b' l' x Hl' Hx. unfold zlen. rewrite length_insert. destruct (decide (x = a)) as [->|Hxa].
      * destruct Hnew as [q E]. unfold bucket_of. rewrite (node_at_some _ _ _ E). simpl. rewrite Eh.
        change (Z.of_nat (length cs)) with (zlen cs). fold b. destruct (decide (b = b')) as [|Hne]; [done|]. exfalso.
        rewrite list_lookup_insert_ne in Hl' by done. apply Hna, concat_elem. by exists b', l'.
      * unfold bucket_of. destruct (other_content_at _ _ a x Hoc Hxa) as (-> & -> & _).
        change (bucket_of (ds_nodes s) (zlen cs) x = b'). destruct (decide (b = b')) as [<-|Hne].
        -- rewrite list_lookup_insert_eq in Hl' by (unfold b, zlen in *; lia). injection Hl' as <-.
           apply elem_of_app in Hx as [Hx|Hx%list_elem_of_singleton]; [|done]. by apply (tb_placed _ _ _ T b l x).
        -- rewrite list_lookup_insert_ne in Hl' by done. by apply (tb_placed _ _ _ T b' l' x).
  - unfold zlen. by rewrite length_insert.
Qed.

(** The entries of a table. *)
Definition entries (nodes : gmap Z sxe_dict_node) (cs : list (list Z)) (m : gmap (list Z) Z) : Prop :=
  forall k a, m !! k = Some a <-> a ∈ concat cs /\ key (node_at nodes a) = k.

Lemma entries_moved nodes nodes' cs cs' m : entries nodes cs m -> (concat cs' ≡ₚ concat cs) -> same_content nodes nodes' -> entries nodes' cs' m.
Proof using. intros He P S k a. rewrite (He k a), P. destruct (same_content_at _ _ a S) as (-> & _). done. Qed.

Lemma entries_added nodes nodes' cs cs' m a bytes q : entries nodes cs m -> m !! bytes = None -> (concat cs' ≡ₚ a :: concat cs) ->
  ~ a ∈ concat cs -> other_content nodes nodes' a -> nodes' !! a = Some (mk_node q bytes (zlen bytes) NULL) ->
  entries nodes' cs' (<[bytes := a]> m).
Proof using.
  intros He Hm P Hna O Ea k x. rewrite P, elem_of_cons. destruct (decide (x = a)) as [->|Hx].
  - rewrite (node_at_some _ _ _ Ea). simpl. destruct (decide (bytes = k)) as [<-|Hk].
    + rewrite lookup_insert_eq. split; [intros _; by split; [left|]|done].
    + rewrite lookup_insert_ne by done. split; [|by intros [_ ?]]. intros Hk'. apply He in Hk' as [? _]. done.
  - destruct (other_content_at _ _ a x O Hx) as (Kx & _). rewrite Kx. destruct (decide (bytes = k)) as [<-|Hk].
    + rewrite lookup_insert_eq. split; [congruence|]. intros [[?|Hin] Hkey]; [done|]. exfalso.
      assert (m !! bytes = Some x) by (apply He; done). congruence.
    + rewrite lookup_insert_ne by done. rewrite (He k x). split; [intros [? ?]; by split; [right|]|intros [[?|?] ?]; done].
Qed.

(** Making room: the table that the new node goes to. *)
Lemma grow_run s cs m h : is_table s cs [] -> entries (ds_nodes s) cs m ->
  count (ds_dict s) = Z.of_nat (size m) -> dload (ds_dict s) = 100 -> growth (ds_dict s) = 2 ->
  zlen cs < 1073741824 -> Z.of_nat (size m) < 42949672 ->
  exists s' cs' b, make_room A (ds_dict s) h (h mod zlen cs) s = Ret (b, s') /\
    b = h mod zlen cs' /\ is_table s' cs' [] /\ entries (ds_nodes s') cs' m /\ same_content (ds_nodes s) (ds_nodes s') /\
    count (ds_dict s') = count (ds_dict s) /\ dload (ds_dict s') = 100 /\ growth (ds_dict s') = 2 /\
    zlen cs' <= Z.max (zlen cs) (2 * Z.of_nat (size m)).
Proof using A_gives.
  intros T He Hc Hl Hg Hcs Hm. pose proof (tb_small _ _ _ T) as Hsm. pose proof (tb_size _ _ _ T) as Hs.
  pose proof (Z.mod_pos_bound h (zlen cs) ltac:(lia)) as Hb.
  destruct (bucket_chain s cs [] (Z.to_nat (h mod zlen cs)) T) as (t & p & l & _ & _ & _ & _ & Rb & _ & _); [unfold zlen in *; lia|].
  rewrite Z2Nat.id in Rb by lia. unfold make_room. rewrite (cmd_bind_ret _ _ _ _ _ Rb).
  assert (Hstay : forall s' cs', is_table s' cs' [] -> (d ← the_dict; lift (urem h (dsize d))) s' = Ret (h mod zlen cs', s')).
  { intros s' cs' T'. unfold the_dict. rewrite (cmd_bind_ret _ _ s' (ds_dict s') s' eq_refl). unfold urem.
    pose proof (tb_small _ _ _ T'). rewrite (tb_size _ _ _ T'). by replace (zlen cs' =? 0) with false by lia. }
  destruct (negb (p =? NULL)); [|by exists s, cs, (h mod zlen cs); split_and!; try done; lia].
  rewrite Hl, Hc, Hg, Hs. rewrite u32_small by (unfold is_u32; lia).
  destruct (Z.leb_spec 100 (Z.of_nat (size m) * 100 / zlen cs)) as [Hload|Hload].
  - assert (zlen cs <= Z.of_nat (size m)) by (Z.to_euclidean_division_equations; nia).
    rewrite s32_small by lia.
    destruct (resize_run A s cs (zlen cs * 2) A_gives T ltac:(lia)) as (s' & cs' & R & T' & P & L & S & K1 & K2 & K3).
    rewrite (cmd_bind_ret _ _ _ _ _ R). rewrite (Hstay s' cs' T'). exists s', cs', (h mod zlen cs').
    split_and!; try done; [by eapply entries_moved|congruence|congruence|congruence|lia].
  - rewrite (cmd_bind_ret _ _ s tt s eq_refl), (Hstay s cs T). exists s, cs, (h mod zlen cs). split_and!; try done. lia.
Qed.

Lemma key_length mem keyn bytes s : passes_key mem keyn bytes ->
  (if negb (keyn =? 0) then mret keyn else lift (load (strlen mem)) : cmd dstate Z) s = Ret (zlen bytes, s).
Proof using.
  intros [_ [[-> Hne]|(-> & Hnn & tail & ->)]].
  - destruct bytes as [|x bytes]; [done|]. rewrite zlen_cons. pose proof (zlen_nonneg bytes).
    by replace (1 + zlen bytes =? 0) with false by lia.
  - simpl. by rewrite strlen_app.
Qed.

(** Adding a new key. *)
Lemma dict_add_run s m mem keyn bytes : is_dict s m -> m !! bytes = None -> passes_key mem keyn bytes ->
  dsize (ds_dict s) < 1073741824 -> Z.of_nat (size m) < 42949672 ->
  exists s' a q, sxe_dict_add A mem keyn s = Ret (a, s') /\ is_dict s' (<[bytes := a]> m) /\
    other_content (ds_nodes s) (ds_nodes s') a /\ ds_nodes s' !! a = Some (mk_node q bytes (zlen bytes) NULL) /\
    (forall k, m !! k <> Some a) /\
    dsize (ds_dict s') <= Z.max (Z.max 1 (dsize (ds_dict s))) (2 * Z.of_nat (size m)).
Proof using A_fresh A_gives.
  intros D Hm Hk Hds Hsz. unfold sxe_dict_add, the_dict. rewrite (cmd_bind_ret _ _ _ _ _ (key_length mem keyn bytes s Hk)).
  rewrite (cmd_bind_ret _ _ s (ds_dict s) s eq_refl). pose proof (dc_count _ _ D) as Hc. destruct (dc_load _ _ D) as [Hl Hg].
  assert (Start : exists s1 cs1, (match table (ds_dict s) with
        | None => new ← gets (fun s => calloc A (ds_nodes s) 1); put_dict (mk_dict new 1 (count (ds_dict s)) (dload (ds_dict s)) (growth (ds_dict s)))
        | Some _ => mret tt end) s = Ret (tt, s1) /\ is_table s1 cs1 [] /\ entries (ds_nodes s1) cs1 m /\ ds_nodes s1 = ds_nodes s /\
      count (ds_dict s1) = count (ds_dict s) /\ dload (ds_dict s1) = 100 /\ growth (ds_dict s1) = 2 /\
      zlen cs1 <= Z.max 1 (dsize (ds_dict s))).
  { destruct (dc_table _ _ D) as [[Et ->]|(cs & T & He)].
    - rewrite Et, (cmd_bind_ret (gets _) _ s _ s eq_refl), (calloc_given A _ _ A_gives) by lia. eexists _, [[]]. split; [reflexivity|]. split_and!; try done; simpl; [|by intros k a; rewrite lookup_empty, elem_of_nil; split; [|intros [? _]]|change (zlen [[]]) with 1; lia].
      split; simpl; try done; try (intros; by apply elem_of_nil in H).
      + exists [NULL]. split; [done|]. by repeat constructor.
      + constructor.
      + intros [|b] l a Hl' Ha; [injection Hl' as <-; by apply elem_of_nil in Ha|done].
    - destruct (tb_table _ _ _ T) as (t & Et & _). rewrite Et. exists s, cs. split_and!; try done. rewrite (tb_size _ _ _ T). lia. }
  destruct Start as (s1 & cs1 & R1 & T1 & E1 & N1 & C1 & L1 & G1 & Z1). rewrite (cmd_bind_ret _ _ _ _ _ R1).
  rewrite (cmd_bind_ret _ _ s1 (ds_dict s1) s1 eq_refl).
  rewrite (dict_slice_key mem keyn bytes Hk). rewrite (cmd_bind_ret _ _ s1 bytes s1 eq_refl).
  destruct (meiyan_total bytes (zlen bytes)) as (h & Eh & Hh); [pose proof (zlen_nonneg bytes); lia|].
  rewrite Eh. rewrite (cmd_bind_ret _ _ s1 h s1 eq_refl). pose proof (tb_small _ _ _ T1). pose proof (tb_size _ _ _ T1) as Hs1.
  assert (Hr : urem h (dsize (ds_dict s1)) = Ret (h mod zlen cs1)).
  { unfold urem. rewrite Hs1. by replace (zlen cs1 =? 0) with false by lia. }
  rewrite Hr. rewrite (cmd_bind_ret _ _ s1 (h mod zlen cs1) s1 eq_refl).
  destruct (grow_run s1 cs1 m h T1 E1) as (s2 & cs2 & b & R2 & -> & T2 & E2 & S2 & C2 & L2 & G2 & Z2); try done; [congruence|lia|].
  rewrite (cmd_bind_ret _ _ _ _ _ R2).
  destruct (dict_append_run s2 cs2 mem bytes h T2 (proj1 Hk) Eh) as (p & l & s3 & cs3 & a & Rb & _ & Re & RA & T3 & P3 & L3 & Hna & O3 & [q Ea] & (F1 & F2 & F3 & F4)).
  rewrite (cmd_bind_ret _ _ _ _ _ Rb). rewrite (cmd_bind_ret _ _ s2 (chain_fuel s2) s2 eq_refl). rewrite (cmd_bind_ret _ _ _ _ _ Re).
  apply cmd_bind_inv in RA as (a' & s2' & Rn & RA). rewrite (cmd_bind_ret _ _ _ _ _ Rn).
  apply cmd_bind_inv in RA as ([] & s3' & Rl & RA). injection RA as -> ->. rewrite (cmd_bind_ret _ _ _ _ _ Rl).
  rewrite (cmd_bind_ret _ _ s3 (ds_dict s3) s3 eq_refl).
  set (s4 := mk_dstate (mk_dict (table (ds_dict s3)) (dsize (ds_dict s3)) (u32 (count (ds_dict s3) + 1)) (dload (ds_dict s3)) (growth (ds_dict s3))) (ds_nodes s3)).
  rewrite (cmd_bind_ret (put_dict _) _ s3 tt s4 eq_refl).
  assert (O : other_content (ds_nodes s) (ds_nodes s4) a).
  { intros x Hx. simpl. rewrite O3 by done. rewrite (S2 x). by rewrite N1. }
  exists s4, a, q. split_and!; [done| |done|done| |].
  - split; simpl.
    + rewrite map_size_insert_None by done. rewrite F2, C2, C1, Hc. rewrite u32_small by (unfold is_u32; lia). lia.
    + rewrite F3, F4. done.
    + right. exists cs3. split; [|by eapply entries_added].
      destruct T3 as [(t & Et & F) Ts Tsm Tnd Tok Tpl]. split; simpl; try done. by exists t.
  - intros k Hka. apply E2 in Hka as [Hin _]. done.
  - simpl. rewrite F1, (tb_size _ _ _ T2). lia.
Qed.

(** adding a key that is not in the dictionary gives the address of a new node with
    the key's bytes and a NULL value. Whatever growth of the table it causes, every other
    entry stays at its address with its value, so the pointers given out before are good. *)
Theorem sxe_dict_add_spec s m mem keyn bytes : is_dict s m -> m !! bytes = None -> passes_key mem keyn bytes ->
  dsize (ds_dict s) < 1073741824 -> Z.of_nat (size m) < 42949672 ->
  exists s' a, sxe_dict_add A mem keyn s = Ret (a, s') /\ is_dict s' (<[bytes := a]> m) /\
    key (node_at (ds_nodes s') a) = bytes /\ value (node_at (ds_nodes s') a) = NULL /\
    forall k b, m !! k = Some b -> b <> a /\ value (node_at (ds_nodes s') b) = value (node_at (ds_nodes s) b).
Proof using A_fresh A_gives.
  intros D Hm Hk Hds Hsz. destruct (dict_add_run s m mem keyn bytes D Hm Hk Hds Hsz) as (s' & a & q & R & D' & O & Ea & Hna & _).
  exists s', a. rewrite (node_at_some _ _ _ Ea). split_and!; try done. intros k b Hb.
  assert (b <> a) by (intros ->; by apply (Hna k)). split; [done|]. by apply (other_content_at _ _ a b O).
Qed.

(** A client that adds a key and stores a value through the pointer. *)
Definition dict_put (mem : list Z) (keyn v : Z) : cmd dstate unit :=
  a ← sxe_dict_add A mem keyn;
  nd ← rd_node a;
  wr_node a (set_value nd v).

Fixpoint dict_puts (l : list (list Z * Z)) : cmd dstate unit :=
  match l with
  | [] => mret tt
  | (k, v) :: l => dict_put k (zlen k) v;; dict_puts l
  end.

(** The values of the entries. *)
Definition stored (s : dstate) (m : gmap (list Z) Z) : gmap (list Z) Z := (fun a => value (node_at (ds_nodes s) a)) <$> m.

(** Storing a value changes neither keys nor links. *)
Lemma store_run s m k a nd v : is_dict s m -> m !! k = Some a -> ds_nodes s !! a = Some nd ->
  let s' := mk_dstate (ds_dict s) (<[a := set_value nd v]> (ds_nodes s)) in
  is_dict s' m /\ stored s' m = <[k := v]> (stored s m).
Proof using.
  intros D Hk E s'. destruct (dc_table _ _ D) as [[_ ->]|(cs & T & He)]; [by rewrite lookup_empty in Hk|].
  assert (Hat : forall x, key (node_at (ds_nodes s') x) = key (node_at (ds_nodes s) x) /\ len (node_at (ds_nodes s') x) = len (node_at (ds_nodes s) x)).
  { intros x. unfold node_at, s'. simpl. destruct (decide (a = x)) as [->|]; [by rewrite lookup_insert_eq, E|by rewrite lookup_insert_ne]. }
  split.
  - destruct D as [Dc Dl _]. split; [done|done|]. right. exists cs. split.
    + destruct T as [(t & Et & F) Ts Tsm Tnd Tok Tpl]. split; simpl; try done.
      * exists t. split; [done|]. eapply Forall2_impl; [exact F|]. intros p l. apply chain_links.
        intros x _. destruct (decide (a = x)) as [->|]; [by rewrite lookup_insert_eq, E|by rewrite lookup_insert_ne].
      * intros x Hx. destruct (Tok x Hx) as (nx & Ex & Hok & Hx0). destruct (decide (a = x)) as [->|].
        -- rewrite lookup_insert_eq. assert (nx = nd) as -> by congruence. by exists (set_value nd v).
        -- rewrite lookup_insert_ne by done. by exists nx.
      * intros b l x Hl Hx. rewrite <-(Tpl b l x Hl Hx).
        change (bucket_of (ds_nodes s') (zlen cs) x = bucket_of (ds_nodes s) (zlen cs) x). unfold bucket_of. destruct (Hat x) as [-> ->]. done.
    + intros k' x. destruct (Hat x) as [Hx _]. rewrite Hx. apply He.
  - apply map_eq. intros k'. unfold stored. rewrite lookup_fmap. destruct (decide (k = k')) as [<-|Hkk].
    + rewrite Hk, lookup_insert_eq. simpl. unfold node_at, s'. simpl. by rewrite lookup_insert_eq.
    + rewrite lookup_insert_ne, lookup_fmap by done. destruct (m !! k') as [b|] eqn:Eb; [|done]. simpl. f_equal.
      assert (a <> b). { intros Hab. pose proof Hk as Hk1. apply He in Hk1 as [_ K1]. apply He in Eb as [_ K2]. congruence. }
      unfold node_at, s'. simpl. by rewrite lookup_insert_ne.
Qed.

Lemma dict_put_run s m k v : is_dict s m -> m !! k = None -> k <> [] -> dsize (ds_dict s) < 1073741824 -> Z.of_nat (size m) < 42949672 ->
  exists s' a, dict_put k (zlen k) v s = Ret (tt, s') /\ is_dict s' (<[k := a]> m) /\
    stored s' (<[k := a]> m) = <[k := v]> (stored s m) /\
    dsize (ds_dict s') <= Z.max (Z.max 1 (dsize (ds_dict s))) (2 * Z.of_nat (size m)).
Proof using A_fresh A_gives.
  intros D Hm Hk Hds Hsz.
  assert (Hp : passes_key k (zlen k) k) by (split; [by exists []; rewrite app_nil_r|by left]).
  destruct (dict_add_run s m k (zlen k) k D Hm Hp Hds Hsz) as (s1 & a & q & R & D1 & O & Ea & Hna & Hz).
  unfold dict_put. rewrite (cmd_bind_ret _ _ _ _ _ R), (cmd_bind_ret _ _ _ _ _ (rd_node_ret _ _ _ Ea)).
  rewrite (wr_node_ret _ _ _ _ Ea). eexists _, a. split; [done|].
  destruct (store_run s1 (<[k := a]> m) k a _ v D1 (lookup_insert_eq _ _ _) Ea) as [D2 St]. split; [done|]. split; [|done].
  rewrite St. apply map_eq. intros k'. destruct (decide (k = k')) as [<-|Hne]; [by rewrite !lookup_insert_eq|].
  rewrite !lookup_insert_ne by done. unfold stored. rewrite !lookup_fmap, lookup_insert_ne by done.
  destruct (m !! k') as [b|] eqn:Eb; [|done]. simpl. f_equal. apply (other_content_at _ _ a b O). intros ->. by apply (Hna k').
Qed.

Lemma dict_puts_run l : forall s m, is_dict s m -> NoDup (l.*1) -> Forall (fun kv => kv.1 <> [] /\ m !! kv.1 = None) l ->
  dsize (ds_dict s) < 1073741824 -> Z.of_nat (size m) + zlen l < 42949672 ->
  exists s' m', dict_puts l s = Ret (tt, s') /\ is_dict s' m' /\ stored s' m' = list_to_map l ∪ stored s m.
Proof using A_fresh A_gives.
  induction l as [|[k v] l IH]; intros s m D Hnd Hl Hds Hsz; cbn [dict_puts].
  - exists s, m. split_and!; [done|done|]. simpl. by rewrite (left_id_L ∅ (∪)).
  - simpl in Hnd. apply NoDup_cons in Hnd as [Hk Hnd]. rewrite Forall_cons in Hl. destruct Hl as [[Hk0 Hm] Hl]. simpl in Hk0, Hm.
    rewrite zlen_cons in Hsz. pose proof (zlen_nonneg l).
    destruct (dict_put_run s m k v D Hm Hk0 Hds ltac:(lia)) as (s1 & a & R & D1 & St & Hz).
    rewrite (cmd_bind_ret _ _ _ _ _ R). destruct (IH s1 (<[k := a]> m) D1 Hnd) as (s' & m' & R' & D' & St').
    + rewrite Forall_forall in Hl |- *. intros [k' v'] Hin. destruct (Hl _ Hin) as [H1 H2]. split; [done|]. simpl in *.
      rewrite lookup_insert_ne; [done|]. intros ->. apply Hk, list_elem_of_fmap. by exists (k', v').
    + lia.
    + rewrite map_size_insert_None by done. lia.
    + exists s', m'. split_and!; [done|done|]. rewrite St', St. simpl.
      rewrite <-insert_union_l, <-insert_union_r; [done|]. by apply not_elem_of_list_to_map_1.
Qed.

Lemma new_dict n nodes : 0 <= n < 1073741824 ->
  exists s, sxe_dict_new A n nodes = Ret s /\ is_dict s ∅ /\ dsize (ds_dict s) = n.
Proof using A_gives.
  intros Hn. unfold sxe_dict_new. rewrite (nr_dict A A_gives), (calloc_given A _ _ A_gives) by lia.
  eexists. split; [reflexivity|]. split; [|simpl; apply u32_small; unfold is_u32; lia]. split; simpl; [by rewrite map_size_empty|done|]. destruct (Z.eqb_spec n 0) as [->|Hn0]; [by left|]. right.
  exists (replicate (Z.to_nat n) []). split; [|intros k a; rewrite lookup_empty, concat_replicate_nil, elem_of_nil; split; [done|by intros [? _]]].
  split; simpl; rewrite ?concat_replicate_nil, ?zlen_replicate.
  - eexists. split; [by destruct (Z.eqb_spec n 0)|]. clear. induction (Z.to_nat n) as [|k IH]; simpl; constructor; [done|exact IH].
  - rewrite u32_small by (unfold is_u32; lia). lia.
  - lia.
  - constructor.
  - intros a Ha. by apply elem_of_nil in Ha.
  - intros b l a Hl Ha. apply lookup_replicate in Hl as [-> _]. by apply elem_of_nil in Ha.
Qed.

(** C38: the dictionary is a finite map. When no allocation is refused (the program does not
    look whether one was: [dict_without_memory]), making a dictionary of any initial size below
    2^30 and then putting any values under fewer than 42949672 distinct keys of at least one
    byte each succeeds, and then finding a key by its length gives the value that was put
    under it, and NULL for every other key, however often the table grew. (The number bounds
    the entries whose hundredfold does not wrap. A length of 0, which sxe_dict_add takes for
    strlen and sxe_dict_find for the empty key, is left out.) *)
Theorem dict_refines_map n nodes l :
  0 <= n < 1073741824 -> NoDup (l.*1) -> Forall (fun kv => kv.1 <> []) l -> zlen l < 42949672 ->
  exists s0 s, sxe_dict_new A n nodes = Ret s0 /\ dict_puts l s0 = Ret (tt, s) /\
    forall k tail, sxe_dict_find (k ++ tail) (zlen k) s =
      Ret (default NULL ((list_to_map l : gmap (list Z) Z) !! k), s).
Proof using A_fresh A_gives.
  intros Hn Hnd Hl Hsz. destruct (new_dict n nodes Hn) as (s0 & R0 & D0 & Z0).
  destruct (dict_puts_run l s0 ∅ D0 Hnd) as (s & m & R & D & St).
  - eapply Forall_impl; [exact Hl|]. intros kv Hkv. split; [done|]. apply lookup_empty.
  - lia.
  - rewrite map_size_empty. lia.
  - exists s0, s. split; [done|]. split; [done|]. intros k tail. rewrite (find_run s m (k ++ tail) k D) by (by exists tail).
    assert (E : stored s m !! k = (list_to_map l : gmap (list Z) Z) !! k).
    { rewrite St. unfold stored. by rewrite fmap_empty, (right_id_L ∅ (∪)). }
    rewrite <-E. unfold stored. rewrite lookup_fmap. by destruct (m !! k).
Qed.
End Dictionary.

(** ** Visiting and deleting *)

(** A callback that only collects what it is shown. *)
Definition collect (k : list Z) (n v : Z) (u : list (list Z * Z)) : bool * Z * list (list Z * Z) := (true, v, u ++ [(k, v)]).

Definition entry (nodes : gmap Z sxe_dict_node) (a : Z) : list Z * Z := (key (node_at nodes a), value (node_at nodes a)).

Lemma each_chain_run s l : forall fuel p u, chain (ds_nodes s) p l -> (length l < fuel)%nat ->
  each_chain collect fuel p u s = Ret ((true, u ++ (entry (ds_nodes s) <$> l)), s).
Proof.
  induction l as [|a l IH]; intros fuel p u C Hf; destruct fuel as [|fuel]; try (simpl in Hf; lia); cbn [chain each_chain] in *.
  - subst p. simpl. by rewrite app_nil_r.
  - destruct C as (-> & Ha0 & nd & E & C). replace (a =? NULL) with false by (unfold NULL in *; lia).
    rewrite (cmd_bind_ret _ _ _ _ _ (rd_node_ret _ _ _ E)). unfold collect at 1. cbv beta iota.
    assert (Es : mk_dstate (ds_dict s) (<[a := set_value nd (value nd)]> (ds_nodes s)) = s).
    { rewrite insert_id; [by destruct s|]. rewrite E. by destruct nd. }
    pose proof (wr_node_ret s a nd (set_value nd (value nd)) E) as W. rewrite Es in W.
    rewrite (cmd_bind_ret _ _ _ _ _ W), (cmd_bind_ret _ _ _ _ _ (rd_node_ret _ _ _ E)).
    rewrite IH; [|done|simpl in Hf; lia]. do 2 f_equal. rewrite <-(assoc_L (++)). do 2 f_equal. simpl. f_equal.
    unfold entry. by rewrite (node_at_some _ _ _ E).
Qed.

Lemma each_loop_run s cs : is_table s cs [] -> forall n i u, (i + n = length cs)%nat ->
  each_loop collect n (Z.of_nat i) u s = Ret (u ++ (entry (ds_nodes s) <$> concat (drop i cs)), s).
Proof.
  intros T. induction n as [|n IH]; intros i u Hi; cbn [each_loop].
  - rewrite drop_ge by lia. simpl. by rewrite app_nil_r.
  - destruct (bucket_chain s cs [] i T ltac:(lia)) as (t & p & l & _ & _ & El & C & Rb & _).
    rewrite (cmd_bind_ret _ _ _ _ _ Rb), (cmd_bind_ret _ _ s (chain_fuel s) s eq_refl).
    rewrite (cmd_bind_ret _ _ _ _ _ (each_chain_run s l (chain_fuel s) p u C ltac:(by eapply chain_short))). cbv beta iota.
    replace (Z.of_nat i + 1) with (Z.of_nat (S i)) by lia. rewrite IH by lia.
    rewrite (drop_S cs l i El). simpl. by rewrite fmap_app, (assoc_L (++)).
Qed.

(** Visiting shows the callback every entry exactly once, with the value stored under
    its key, and changes nothing by itself. *)
Theorem sxe_dict_forEach_spec s m : is_dict s m -> (m = ∅ -> dsize (ds_dict s) = 0) ->
  exists l, sxe_dict_forEach collect [] s = Ret (l, s) /\ NoDup (l.*1) /\
    forall k v, (k, v) ∈ l <-> exists a, m !! k = Some a /\ v = value (node_at (ds_nodes s) a).
Proof.
  intros D H0. unfold sxe_dict_forEach, the_dict. rewrite (cmd_bind_ret _ _ s (ds_dict s) s eq_refl).
  destruct (dc_table _ _ D) as [[_ Em]|(cs & T & He)].
  - rewrite (H0 Em). exists []. split; [done|]. split; [constructor|]. intros k v. rewrite elem_of_nil. split; [done|].
    intros (a & Ha & _). by rewrite Em, lookup_empty in Ha.
  - rewrite (tb_size _ _ _ T). unfold zlen. rewrite Nat2Z.id. change 0 with (Z.of_nat 0). rewrite (each_loop_run s cs T) by lia.
    eexists. split; [done|]. rewrite drop_0. simpl. split.
    + rewrite <-list_fmap_compose. apply NoDup_fmap_2_strong; [|apply (tb_nodup _ _ _ T)].
      intros a b Ha Hb. simpl. intros Hk. assert (Ma : m !! key (node_at (ds_nodes s) a) = Some a) by (apply He; done).
      assert (Mb : m !! key (node_at (ds_nodes s) b) = Some b) by (apply He; done). rewrite Hk in Ma. congruence.
    + intros k v. rewrite list_elem_of_fmap. split.
      * intros (a & [= -> ->] & Ha). exists a. split; [by apply He|done].
      * intros (a & Ha & ->). apply He in Ha as [Ha Hk]. exists a. split; [|done]. unfold entry. by rewrite Hk.
Qed.

Fixpoint delete_all (l : list Z) (nodes : gmap Z sxe_dict_node) : gmap Z sxe_dict_node :=
  match l with [] => nodes | a :: l => delete a (delete_all l nodes) end.

Lemma delete_all_in l nodes a : a ∈ l -> delete_all l nodes !! a = None.
Proof.
  induction l as [|b l IH]; [by intros []%elem_of_nil|]. intros [->|Ha]%elem_of_cons; simpl; [apply lookup_delete_eq|].
  destruct (decide (b = a)) as [->|]; [apply lookup_delete_eq|]. rewrite lookup_delete_ne by done. by apply IH.
Qed.
Lemma delete_all_out l nodes a : ~ a ∈ l -> delete_all l nodes !! a = nodes !! a.
Proof.
  induction l as [|b l IH]; simpl; [done|]. intros Ha. rewrite elem_of_cons in Ha.
  rewrite lookup_delete_ne by (intros ->; tauto). apply IH. tauto.
Qed.

Lemma node_delete_run l : forall fuel a s, chain (ds_nodes s) a (a :: l) -> (length (a :: l) < fuel)%nat ->
  sxe_dict_node_delete fuel a s = Ret (tt, mk_dstate (ds_dict s) (delete_all (a :: l) (ds_nodes s))).
Proof.
  induction l as [|b l IH]; intros fuel a s C Hf; destruct fuel as [|fuel]; try (simpl in Hf; lia); cbn [sxe_dict_node_delete];
    destruct C as (_ & Ha0 & nd & E & C); rewrite (cmd_bind_ret _ _ _ _ _ (rd_node_ret _ _ _ E)).
  - simpl in C. rewrite C. simpl negb. cbv iota. by rewrite (cmd_bind_ret _ _ s tt s eq_refl).
  - pose proof C as (En & Hb0 & _). rewrite En in C |- *. replace (b =? NULL) with false by (unfold NULL in *; lia). simpl negb. cbv iota.
    by rewrite (cmd_bind_ret _ _ _ _ _ (IH fuel b s C ltac:(simpl in *; lia))).
Qed.

Lemma delete_loop_run cs : forall n i s t, table (ds_dict s) = Some t -> length t = (i + n)%nat ->
  Forall2 (chain (ds_nodes s)) (drop i t) cs -> NoDup (concat cs) -> (forall a, a ∈ concat cs -> is_Some (ds_nodes s !! a)) ->
  exists nodes', delete_loop n (Z.of_nat i) s = Ret (tt, mk_dstate (ds_dict s) nodes') /\
    (forall a, a ∈ concat cs -> nodes' !! a = None) /\ (forall a, ~ a ∈ concat cs -> nodes' !! a = ds_nodes s !! a).
Proof.
  induction cs as [|l cs IH]; intros n i s t Et Hlen F Hnd Hdom.
  - apply Forall2_nil_inv_r in F. assert (n = 0%nat) as -> by (apply (f_equal length) in F; rewrite length_drop in F; simpl in F; lia).
    exists (ds_nodes s). split; [by destruct s|]. split; [by intros a Ha%elem_of_nil|done].
  - apply Forall2_cons_inv_r in F as (p & t' & C & F & Ed). assert (Ep : t !! i = Some p) by (rewrite <-(Nat.add_0_r i), <-lookup_drop, Ed; done).
    assert (Ed' : drop (S i) t = t') by (replace (S i) with (i + 1)%nat by lia; by rewrite <-drop_drop, Ed).
    destruct n as [|n]; [apply (f_equal length) in Ed; rewrite length_drop in Ed; simpl in Ed; lia|]. cbn [delete_loop].
    assert (Rb : rd_bucket (Z.of_nat i) s = Ret (p, s)) by (unfold rd_bucket; rewrite Et; simpl; by rewrite rd_nat, Ep).
    rewrite (cmd_bind_ret _ _ _ _ _ Rb), (cmd_bind_ret _ _ s (chain_fuel s) s eq_refl). simpl in Hnd. apply NoDup_app in Hnd as (Hl & Hdis & Hnd).
    set (s1 := mk_dstate (ds_dict s) (delete_all l (ds_nodes s))).
    assert (R1 : (if negb (p =? NULL) then sxe_dict_node_delete (chain_fuel s) p else mret tt) s = Ret (tt, s1)).
    { destruct l as [|a l]; simpl in C.
      - subst p. simpl. unfold s1. simpl. by destruct s.
      - pose proof C as (-> & Ha0 & _). replace (a =? NULL) with false by (unfold NULL in *; lia). simpl negb. cbv iota.
        apply (node_delete_run l); [exact C|]. unfold chain_fuel. apply Nat.lt_succ_r, dom_length; [done|]. intros x Hx. apply Hdom. change (concat ((a :: l) :: cs)) with ((a :: l) ++ concat cs). apply elem_of_app. by left. }
    rewrite (cmd_bind_ret _ _ _ _ _ R1). replace (Z.of_nat i + 1) with (Z.of_nat (S i)) by lia.
    destruct (IH n (S i) s1 t Et) as (nodes' & R & Hin & Hout); [lia| |done| |].
    + rewrite Ed'. eapply Forall2_chain_frame; [|exact F]. intros a Ha. unfold s1. simpl. apply delete_all_out. intros Hal. by apply (Hdis a).
    + intros a Ha. unfold s1. simpl. rewrite delete_all_out by (intros Hal; by apply (Hdis a)). apply Hdom. simpl. apply elem_of_app. by right.
    + exists nodes'. split; [done|]. split; intros a; simpl; rewrite elem_of_app.
      * intros [Ha|Ha]; [|by apply Hin]. destruct (decide (a ∈ concat cs)) as [Hc|Hc]; [by apply Hin|]. rewrite Hout by done. by apply delete_all_in.
      * intros Ha. rewrite Hout by tauto. unfold s1. simpl. apply delete_all_out. tauto.
Qed.

(** deleting a dictionary frees the node of every entry, once, and no other memory. *)
Theorem sxe_dict_delete_spec s m : is_dict s m -> (table (ds_dict s) = None -> dsize (ds_dict s) = 0) ->
  exists s', sxe_dict_delete s = Ret (tt, s') /\ (forall k a, m !! k = Some a -> ds_nodes s' !! a = None) /\
    forall a, (forall k, m !! k <> Some a) -> ds_nodes s' !! a = ds_nodes s !! a.
Proof.
  intros D H0. unfold sxe_dict_delete, the_dict. rewrite (cmd_bind_ret _ _ s (ds_dict s) s eq_refl).
  destruct (dc_table _ _ D) as [[Et ->]|(cs & T & He)].
  - rewrite (H0 Et). simpl (Z.to_nat 0). rewrite (cmd_bind_ret (delete_loop 0 0) _ s tt s eq_refl). eexists. split; [reflexivity|]. simpl.
    split; [|done]. intros k a. by rewrite lookup_empty.
  - destruct (tb_table _ _ _ T) as (t & Et & F). pose proof (Forall2_length _ _ _ F).
    destruct (delete_loop_run cs (Z.to_nat (dsize (ds_dict s))) 0 s t Et) as (nodes' & R & Hin & Hout); try done.
    + rewrite (tb_size _ _ _ T). unfold zlen. lia.
    + apply (tb_nodup _ _ _ T).
    + intros a Ha. destruct (tb_ok _ _ _ T a Ha) as (nd & E & _). by exists nd.
    + change (Z.of_nat 0) with 0 in R. rewrite (cmd_bind_ret _ _ _ _ _ R). eexists. split; [reflexivity|]. simpl. split.
      * intros k a Ha. apply Hin. by apply He in Ha as [Ha _].
      * intros a Ha. apply Hout. intros Hc. apply (Ha (key (node_at (ds_nodes s) a))). by apply He.
Qed.

(** ** What modelling showed *)

(** An allocator for the examples: addresses above every one in use. *)
Definition bump : allocator :=
  mk_allocator (fun nodes => Some (fresh ({[NULL]} ∪ dom nodes : gset Z))) (fun _ _ => true) (fun _ _ => true) true.

Lemma bump_fresh : gives_fresh bump.
Proof.
  intros nodes a [= <-]. pose proof (is_fresh ({[NULL]} ∪ dom nodes : gset Z)) as H.
  rewrite not_elem_of_union, not_elem_of_singleton in H. destruct H as [H1 H2]. split; [by apply not_elem_of_dom|done].
Qed.

Lemma bump_gives : never_refuses bump.
Proof. split; [by eexists|done..]. Qed.

(** Adding a key again makes a second node for it, whose value finding never gives. *)
Lemma add_again_is_shadowed :
  (s ← sxe_dict_new bump 4 ∅;
   '(_, s) ← dict_put bump [65] 1 100 s;
   '(a, s) ← sxe_dict_add bump [65] 1 s;
   '(_, s) ← (nd ← rd_node a; wr_node a (set_value nd 200)) s;
   '(v, s) ← sxe_dict_find [65] 1 s;
   mret (count (ds_dict s), v)) = Ret (2, 100).
Proof. vm_compute. reflexivity. Qed.

(** When an allocation is refused, adding stores through NULL. The four refusals are those of
    the dictionary, of a node, of the bytes of a key and of a table that is to grow. *)
Lemma dict_without_memory (A1 A2 A3 : allocator) :
  A1 = mk_allocator (fun _ => None) (fun _ _ => true) (fun _ _ => true) true ->
  A2 = mk_allocator (node_malloc bump) (fun _ _ => false) (fun _ _ => true) true ->
  A3 = mk_allocator (node_malloc bump) (fun _ _ => true) (fun _ n => n <=? 1) true ->
  sxe_dict_new (mk_allocator (fun _ => None) (fun _ _ => true) (fun _ _ => true) false) 4 ∅ = Fault /\
  (s ← sxe_dict_new A1 4 ∅; dict_put A1 [65] 1 100 s) = Fault /\
  (s ← sxe_dict_new A2 4 ∅; dict_put A2 [65] 1 100 s) = Fault /\
  (s ← sxe_dict_new A3 1 ∅; '(_, s) ← dict_put A3 [65] 1 100 s; dict_put A3 [66] 1 200 s) = Fault.
Proof. intros -> -> ->. vm_compute. done. Qed.

(** ** Witnesses *)

Lemma dict_refines_map_witness : exists s0 s, sxe_dict_new bump 0 ∅ = Ret s0 /\
  dict_puts bump [([65; 66; 67], 100); ([68; 69], 200); ([72; 74; 75; 76], 300)] s0 = Ret (tt, s) /\
  sxe_dict_find [68; 69] 2 s = Ret (200, s).
Proof.
  destruct (dict_refines_map bump bump_fresh bump_gives 0 ∅ [([65; 66; 67], 100); ([68; 69], 200); ([72; 74; 75; 76], 300)])
    as (s0 & s & R0 & R & Hf).
  - lia.
  - by apply (bool_decide_unpack _); vm_compute.
  - repeat constructor; done.
  - done.
  - exists s0, s. split; [exact R0|]. split; [exact R|]. exact (Hf [68; 69] []).
Defined.

Lemma sxe_dict_add_spec_witness : exists s0 s a, sxe_dict_new bump 0 ∅ = Ret s0 /\
  sxe_dict_add bump [65; 66; 0] 0 s0 = Ret (a, s) /\ key (node_at (ds_nodes s) a) = [65; 66].
Proof.
  destruct (new_dict bump bump_gives 0 ∅ ltac:(lia)) as (s0 & R0 & D0 & Z0).
  destruct (sxe_dict_add_spec bump bump_fresh bump_gives s0 ∅ [65; 66; 0] 0 [65; 66]) as (s & a & R & _ & K & _).
  - exact D0.
  - apply lookup_empty.
  - split; [by exists [0]|]. right. split; [done|]. split; [by repeat constructor|by exists []].
  - lia.
  - done.
  - exists s0, s, a. split; [exact R0|]. split; [exact R|exact K].
Defined.

(** A dictionary of two entries. *)
Lemma example_dict : exists s m, is_dict s m /\ dsize (ds_dict s) <> 0 /\ table (ds_dict s) <> None /\ m <> ∅.
Proof.
  destruct (new_dict bump bump_gives 4 ∅ ltac:(lia)) as (s0 & _ & D0 & Z0).
  destruct (dict_puts_run bump bump_fresh bump_gives [([65], 1); ([66], 2)] s0 ∅ D0) as (s & m & R & D & St).
  - by apply (bool_decide_unpack _); vm_compute.
  - repeat constructor; simpl; try done; apply lookup_empty.
  - lia.
  - done.
  - exists s, m. split; [done|].
    assert (Hne : m <> ∅). { intros ->. unfold stored in St. rewrite fmap_empty in St. apply (f_equal (lookup [65])) in St. rewrite lookup_union_l in St by (by rewrite fmap_empty). done. }
    destruct (dc_table _ _ D) as [[_ ->]|(cs & T & _)]; [done|]. destruct (tb_table _ _ _ T) as (t & Et & _).
    split; [rewrite (tb_size _ _ _ T); pose proof (tb_small _ _ _ T); lia|]. split; [by rewrite Et|done].
Qed.

Lemma sxe_dict_forEach_spec_witness : exists s l, sxe_dict_forEach collect [] s = Ret (l, s) /\ NoDup (l.*1).
Proof.
  destruct example_dict as (s & m & D & _ & _ & Hne).
  destruct (sxe_dict_forEach_spec s m D (fun E => False_rect _ (Hne E))) as (l & R & N & _). by exists s, l.
Defined.

Lemma sxe_dict_delete_spec_witness : exists s s', sxe_dict_delete s = Ret (tt, s').
Proof.
  destruct example_dict as (s & m & D & _ & Ht & _).
  destruct (sxe_dict_delete_spec s m D (fun E => False_rect _ (Ht E))) as (s' & R & _). by exists s, s'.
Defined.
