(* ===== verification/HttpUrl.v ===== *)
(** * HttpUrl: the URL parser (lib-sxe-http/sxe-http-url.c) *)

From S2P Require Import Prelude.

(** lib-sxe-http/sxe-http.h:58-67, SXE_HTTP_URL. The pointers are offsets in the string;
    [None] is NULL. *)
Record SXE_HTTP_URL := mk_url {
  scheme : option Z;
  scheme_length : Z;
  host : option Z;
  host_length : Z;
  port : Z;
  port_length : Z;
  path : option Z;
  path_length : Z
}.

(** The structure after memset. *)
Definition url_zero : SXE_HTTP_URL := mk_url None 0 None 0 0 0 None 0.

Section Parser.
Variables (string : list Z) (string_maximum_length : Z).

(** The character at [idx]; no character at the maximum length or at a NUL. *)
Definition char_at (idx : Z) : outcome (option Z) :=
  if string_maximum_length <=? idx then Ret None
  else c ← load (rd string idx); mret (if c =? 0 then None else Some c).

(** lib-sxe-http/sxe-http-url.c:74-75, sxe_http_url_parse. The loops over the scheme and
    the host name: the first character that stops, or the end. *)
Fixpoint url_scan (fuel : nat) (stop : Z -> bool) (idx : Z) : outcome Z :=
  match fuel with
  | O => Fault
  | S fuel =>
      c ← char_at idx;
      match c with
      | None => Ret idx
      | Some c => if stop c then Ret idx else url_scan fuel stop (idx + 1)
      end
  end.

Definition isdigit (c : Z) : bool := (48 <=? c) && (c <=? 57).

(** lib-sxe-http/sxe-http-url.c:100-102, sxe_http_url_parse. The loop over the port. *)
Fixpoint port_scan (fuel : nat) (idx port : Z) : outcome (Z * Z) :=
  match fuel with
  | O => Fault
  | S fuel =>
      c ← char_at idx;
      match c with
      | None => Ret (idx, port)
      | Some c => if isdigit c then port_scan fuel (idx + 1) (u32 (port * 10 + c - 48)) else Ret (idx, port)
      end
  end.

Definition set_host (u : SXE_HTTP_URL) (start len : Z) : SXE_HTTP_URL :=
  mk_url (scheme u) (scheme_length u) (Some start) len (port u) (port_length u) (path u) (path_length u).
Definition set_port (u : SXE_HTTP_URL) (p len : Z) : SXE_HTTP_URL :=
  mk_url (scheme u) (scheme_length u) (host u) (host_length u) p len (path u) (path_length u).
Definition set_path (u : SXE_HTTP_URL) (start len : Z) : SXE_HTTP_URL :=
  mk_url (scheme u) (scheme_length u) (host u) (host_length u) (port u) (port_length u) (Some start) len.

Definition COLON : Z := 58.
Definition SLASH : Z := 47.

(** lib-sxe-http/sxe-http-url.c:119-124, sxe_http_url_parse. The rest is the path. *)
Definition parse_path (string_length : Z) (u : SXE_HTTP_URL) (idx : Z) : SXE_RETURN * SXE_HTTP_URL :=
  (SXE_RETURN_OK, set_path u idx (if string_length =? 0 then 0 else u32 (string_length - idx))).

(** lib-sxe-http/sxe-http-url.c:90-117, sxe_http_url_parse. After the host name. *)
Definition parse_port (fuel : nat) (string_length : Z) (u : SXE_HTTP_URL) (idx : Z) : outcome (SXE_RETURN * SXE_HTTP_URL) :=
  let idx := idx + 1 in
  c ← load (rd string (idx - 1));
  if c =? COLON then
    c ← char_at idx;
    if negb (match c with Some c => isdigit c | None => false end) then mret (SXE_RETURN_ERROR_INVALID, u)
    else
      let start := idx in
      '(idx, p) ← port_scan fuel idx (port u);
      let u := set_port u p (idx - start + 1) in
      c ← char_at idx;
      match c with
      | None => mret (SXE_RETURN_OK, u)
      | Some c => if negb (c =? SLASH) then mret (SXE_RETURN_ERROR_INVALID, u)
                  else mret (parse_path string_length u (idx + 1))
      end
  else mret (parse_path string_length u idx).

(** lib-sxe-http/sxe-http-url.c:72-88, sxe_http_url_parse. The host name. *)
Definition parse_host (fuel : nat) (string_length : Z) (u : SXE_HTTP_URL) (idx : Z) : outcome (SXE_RETURN * SXE_HTTP_URL) :=
  let start := idx in
  idx ← url_scan fuel (fun c => (c =? COLON) || (c =? SLASH)) start;
  if idx =? start then mret (SXE_RETURN_ERROR_INVALID, u)
  else
    let u := set_host u start (idx - start) in
    c ← char_at idx;
    match c with
    | None => mret (SXE_RETURN_OK, u)
    | Some _ => parse_port fuel string_length u idx
    end.

(** lib-sxe-http/sxe-http-url.c:42-70, sxe_http_url_parse. The scheme and what follows it. *)
Definition parse_scheme (fuel : nat) (string_length : Z) : outcome (SXE_RETURN * SXE_HTTP_URL) :=
  idx ← url_scan fuel (fun c => c =? COLON) 0;
  c ← char_at idx;
  match c with
  | None => mret (SXE_RETURN_ERROR_INVALID, url_zero)
  | Some _ =>
      if idx =? 0 then mret (SXE_RETURN_ERROR_INVALID, url_zero)
      else
        let u := mk_url (Some 0) idx None 0 0 0 None 0 in
        let idx := idx + 1 in
        if string_maximum_length <=? u32 (idx + 1) then mret (SXE_RETURN_ERROR_INVALID, u)
        else
          c ← load (rd string idx);
          if negb (c =? SLASH) then mret (SXE_RETURN_ERROR_INVALID, u)
          else
            c ← load (rd string (idx + 1));
            if negb (c =? SLASH) then mret (SXE_RETURN_ERROR_INVALID, u)
            else parse_host fuel string_length u (idx + 2)
  end.
End Parser.

(** lib-sxe-http/sxe-http-url.c:28-132, sxe_http_url_parse. Every loop ends within the
    bytes of the string. *)
Definition sxe_http_url_parse (string : list Z) (string_length : Z) : outcome (SXE_RETURN * SXE_HTTP_URL) :=
  let string_maximum_length := if string_length =? 0 then SXE_UNSIGNED_MAXIMUM else string_length in
  parse_scheme string string_maximum_length (S (length string)) string_length.

(** ** Reference: splitting the text *)

(** The longest prefix without a stopping character, and the rest. *)
Fixpoint span (stop : Z -> bool) (s : list Z) : list Z * list Z :=
  match s with
  | [] => ([], [])
  | c :: s' => if stop c then ([], s) else let (a, b) := span stop s' in (c :: a, b)
  end.

(** A URL in parts: the port is its digits, the path comes without its slash. *)
Record url_text := mk_url_text {
  ut_scheme : list Z;
  ut_host : list Z;
  ut_port : option (list Z);
  ut_path : option (list Z)
}.

Definition url_rest (scheme host : list Z) (port : option (list Z)) (s : list Z) : option url_text :=
  match s with
  | [] => Some (mk_url_text scheme host port None)
  | c :: p => if c =? SLASH then Some (mk_url_text scheme host port (Some p)) else None
  end.

(** After the host name. *)
Definition port_split (sch hst s : list Z) : option url_text :=
  match s with
  | [] => url_rest sch hst None []
  | c :: s' =>
      if c =? COLON then
        let (ds, s) := span (fun c => negb (isdigit c)) s' in
        match ds with [] => None | _ => url_rest sch hst (Some ds) s end
      else url_rest sch hst None s
  end.

(** After the slashes. *)
Definition host_split (sch s : list Z) : option url_text :=
  let (hst, s) := span (fun c => (c =? COLON) || (c =? SLASH)) s in
  match hst with [] => None | _ => port_split sch hst s end.

Definition url_split (s : list Z) : option url_text :=
  let (sch, s) := span (fun c => c =? COLON) s in
  match sch, s with
  | _ :: _, _ :: a :: b :: s => if (a =? SLASH) && (b =? SLASH) then host_split sch s else None
  | _, _ => None
  end.

(** The number that decimal digits write. *)
Definition decimal (ds : list Z) : Z := fold_left (fun n d => n * 10 + (d - 48)) ds 0.

(** The structure that describes the parts of a string of length [len]. *)
Definition url_of (t : url_text) (string_length : Z) (total : Z) : SXE_HTTP_URL :=
  mk_url (Some 0) (zlen (ut_scheme t)) (Some (zlen (ut_scheme t) + 3)) (zlen (ut_host t))
    (match ut_port t with Some ds => u32 (decimal ds) | None => 0 end)
    (match ut_port t with Some ds => 1 + zlen ds | None => 0 end)
    (match ut_path t with Some p => Some (total - zlen p) | None => None end)
    (match ut_path t with Some p => if string_length =? 0 then 0 else string_length - (total - zlen p) | None => 0 end).

(** What the parser sees of the memory: a NUL terminated string when the length given is
    0, and otherwise the given number of bytes, or fewer when a NUL comes first. *)
Definition sees (mem : list Z) (string_length : Z) (s : list Z) : Prop :=
  no_nul s /\ 0 <= string_length < 4294967296 /\ zlen s < 4294967290 /\
  exists tail, (mem = s ++ 0 :: tail /\ (string_length = 0 \/ zlen s < string_length)) \/
    (mem = s ++ tail /\ string_length = zlen s /\ s <> []).

Lemma span_eq stop s : let (a, b) := span stop s in s = a ++ b /\ Forall (fun c => stop c = false) a.
Proof.
  induction s as [|c s IH]; simpl; [done|]. destruct (stop c) eqn:E; [done|].
  destruct (span stop s) as [a b]. destruct IH as [-> Ha]. by split; [|constructor].
Qed.

Lemma span_app stop a b : Forall (fun c => stop c = false) a -> (forall c b', b = c :: b' -> stop c = true) -> span stop (a ++ b) = (a, b).
Proof.
  intros Ha Hb. induction Ha as [|c a Hc _ IH]; simpl; [|by rewrite Hc, IH].
  destruct b as [|c b]; simpl; [done|]. by rewrite (Hb c b eq_refl).
Qed.

Section Run.
Variables (mem : list Z) (string_length : Z) (s : list Z).
Hypothesis Hs : sees mem string_length s.
Let max := if string_length =? 0 then SXE_UNSIGNED_MAXIMUM else string_length.

Lemma max_bound : zlen s <= max < 4294967296.
Proof using Hs.
  destruct Hs as (_ & Hl & Hz & tail & [[_ [->|H]]|[_ [H _]]]); unfold max, SXE_UNSIGNED_MAXIMUM; simpl; try lia.
  all: destruct (Z.eqb_spec string_length 0); lia.
Qed.

Lemma rd_mid pre c rest : s = pre ++ c :: rest -> rd mem (zlen pre) = Some c.
Proof using Hs.
  intros Es. destruct Hs as (_ & _ & _ & tail & [[-> _]|[-> _]]); rewrite Es, <-(assoc_L (++)); by apply rd_at.
Qed.

Lemma char_mid pre c rest : s = pre ++ c :: rest -> char_at mem max (zlen pre) = Ret (Some c).
Proof using Hs.
  intros Es. pose proof max_bound. assert (zlen pre < zlen s) by (rewrite Es, zlen_app, zlen_cons; pose proof (zlen_nonneg rest); lia).
  unfold char_at. replace (max <=? zlen pre) with false by lia. rewrite (rd_mid pre c rest Es). simpl.
  destruct Hs as (Hn & _). unfold no_nul in Hn. rewrite Es, Forall_app, Forall_cons in Hn.
  by replace (c =? 0) with false by lia.
Qed.

Lemma char_end : char_at mem max (zlen s) = Ret None.
Proof using Hs.
  unfold char_at, max. destruct Hs as (_ & Hl & Hz & tail & [[-> H]|[_ [H Hne]]]).
  - destruct (_ <=? _) eqn:E; [done|]. by rewrite rd_at.
  - destruct (Z.eqb_spec string_length 0) as [E|]; [|by rewrite H, Z.leb_refl].
    destruct s; [done|]. rewrite E, zlen_cons in H. pose proof (zlen_nonneg l). lia.
Qed.

(** The scan finds the end of the span. *)
Lemma url_scan_run stop rest : forall pre fuel, s = pre ++ rest -> (length rest < fuel)%nat ->
  url_scan mem max fuel stop (zlen pre) = Ret (zlen pre + zlen (fst (span stop rest))).
Proof using Hs.
  induction rest as [|c rest IH]; intros pre fuel Es Hf; destruct fuel as [|fuel]; simpl in Hf; try lia; simpl.
  - rewrite app_nil_r in Es. subst pre. rewrite char_end. simpl. f_equal. unfold zlen. simpl. lia.
  - rewrite (char_mid pre c rest Es). simpl. destruct (stop c); [simpl; f_equal; unfold zlen; simpl; lia|].
    specialize (IH (pre ++ [c]) fuel). rewrite zlen_app in IH. change (zlen [c]) with 1 in IH. rewrite IH; [|by rewrite <-(assoc_L (++))|lia].
    destruct (span stop rest). simpl. rewrite zlen_cons. f_equal. lia.
Qed.

Lemma port_scan_run rest : forall pre fuel n, s = pre ++ rest -> (length rest < fuel)%nat ->
  port_scan mem max fuel (zlen pre) (u32 n) =
    let ds := fst (span (fun c => negb (isdigit c)) rest) in
    Ret (zlen pre + zlen ds, u32 (fold_left (fun n d => n * 10 + (d - 48)) ds n)).
Proof using Hs.
  induction rest as [|c rest IH]; intros pre fuel n Es Hf; destruct fuel as [|fuel]; simpl in Hf; try lia; simpl.
  - rewrite app_nil_r in Es. subst pre. rewrite char_end. simpl. do 2 f_equal. unfold zlen. simpl. lia.
  - rewrite (char_mid pre c rest Es). simpl. destruct (isdigit c) eqn:Ed; simpl.
    2:{ do 2 f_equal. unfold zlen. simpl. lia. }
    specialize (IH (pre ++ [c]) fuel (n * 10 + (c - 48))). rewrite zlen_app in IH. change (zlen [c]) with 1 in IH.
    replace (u32 (u32 n * 10 + c - 48)) with (u32 (n * 10 + (c - 48))) by word_lia.
    rewrite IH; [|by rewrite <-(assoc_L (++))|lia].
    destruct (span _ rest). simpl. rewrite zlen_cons. do 2 f_equal. lia.
Qed.

(** Whether the parser's result is the one that the text's parts describe. *)
Definition agrees (r : outcome (SXE_RETURN * SXE_HTTP_URL)) (t : option url_text) : Prop :=
  match t with
  | Some t => r = Ret (SXE_RETURN_OK, url_of t string_length (zlen s))
  | None => exists u, r = Ret (SXE_RETURN_ERROR_INVALID, u)
  end.

Lemma path_run sch hst port u p pre :
  s = pre ++ SLASH :: p -> u = url_of (mk_url_text sch hst port None) string_length (zlen s) ->
  parse_path string_length u (zlen pre + 1) = (SXE_RETURN_OK, url_of (mk_url_text sch hst port (Some p)) string_length (zlen s)).
Proof using Hs.
  intros Es ->. unfold parse_path, set_path, url_of. simpl.
  assert (Hz : zlen s = zlen pre + 1 + zlen p) by (rewrite Es, zlen_app, zlen_cons; lia).
  pose proof max_bound as Hm. unfold max in Hm. pose proof (zlen_nonneg pre). pose proof (zlen_nonneg p).
  f_equal. f_equal; [f_equal; lia|]. destruct (Z.eqb_spec string_length 0); [done|].
  rewrite u32_small by (unfold is_u32; lia). lia.
Qed.

(** After the host name. *)
Lemma port_run sch hst c rest pre fuel :
  s = pre ++ c :: rest -> (length s < fuel)%nat -> (c = COLON \/ c = SLASH) ->
  agrees (parse_port mem max fuel string_length (url_of (mk_url_text sch hst None None) string_length (zlen s)) (zlen pre))
    (port_split sch hst (c :: rest)).
Proof using Hs.
  intros Es Hf Hc. unfold parse_port, port_split. replace (zlen pre + 1 - 1) with (zlen pre) by lia.
  rewrite (rd_mid pre c rest Es). cbn [load mbind outcome_bind].
  destruct Hc as [-> | ->].
  2:{ unfold COLON, SLASH. simpl. f_equal. by apply path_run. }
  simpl (COLON =? COLON). cbv iota.
  assert (Es1 : s = (pre ++ [COLON]) ++ rest) by by rewrite Es, <-(assoc_L (++)).
  assert (Ep : zlen pre + 1 = zlen (pre ++ [COLON])) by (rewrite zlen_app; done). rewrite Ep.
  pose proof (span_eq (fun c => negb (isdigit c)) rest) as Hsp.
  pose proof (port_scan_run rest (pre ++ [COLON]) fuel 0 Es1) as Hps. cbv zeta in Hps.
  destruct (span (fun c => negb (isdigit c)) rest) as [[|d ds] r] eqn:Er; destruct Hsp as [-> Hds].
  { (* no digit *) simpl. destruct r as [|c r].
    - rewrite app_nil_r in Es1. rewrite <-Es1, char_end. simpl. by eexists.
    - rewrite (char_mid _ c r Es1). simpl. simpl in Er. destruct (isdigit c); simpl in Er; [by destruct (span _ r)|]. by eexists. }
  rewrite Forall_cons in Hds. destruct Hds as [Hd _]. simpl in Es1. rewrite (char_mid _ d (ds ++ r)) by done. simpl.
  apply negb_false_iff in Hd. rewrite Hd. simpl. change (port _) with 0. change 0 with (u32 0). rewrite Hps by (rewrite Es, length_app in Hf; simpl in Hf |- *; lia).
  clear Hps. simpl. set (pp := (pre ++ [COLON]) ++ d :: ds).
  assert (Es2 : s = pp ++ r) by (unfold pp; by rewrite Es1, <-!(assoc_L (++))).
  assert (Epp : zlen (pre ++ [COLON]) + zlen (d :: ds) = zlen pp) by (unfold pp; by rewrite (zlen_app (pre ++ [COLON]))).
  rewrite Epp. assert (Eu : set_port (url_of (mk_url_text sch hst None None) string_length (zlen s))
      (u32 (fold_left (λ n d0, n * 10 + (d0 - 48)) ds (0 * 10 + (d - 48)))) (zlen pp - zlen (pre ++ [COLON]) + 1) =
      url_of (mk_url_text sch hst (Some (d :: ds)) None) string_length (zlen s)).
  { unfold set_port, url_of. simpl. f_equal. lia. }
  simpl in Eu. rewrite Eu. destruct r as [|c r]; simpl.
  - rewrite app_nil_r in Es2. by rewrite <-Es2, char_end.
  - rewrite (char_mid pp c r Es2). simpl. destruct (Z.eqb_spec c SLASH) as [->|]; simpl; [|by eexists].
    f_equal. by apply path_run.
Qed.
End Run.

Section Parse.
Variables (mem : list Z) (string_length : Z) (s : list Z).
Hypothesis Hs : sees mem string_length s.
Let max := if string_length =? 0 then SXE_UNSIGNED_MAXIMUM else string_length.

Lemma span_stops stop r : forall a c b, span stop r = (a, c :: b) -> stop c = true.
Proof using.
  induction r as [|x r IH]; intros a c b; simpl; [done|]. destruct (stop x) eqn:E; [by intros [= <- <- <-]|].
  destruct (span stop r) as [a' b'] eqn:Er. intros [= <- ->]. by eapply IH.
Qed.

Lemma host_run sch rest pre fuel u : s = pre ++ rest -> (length s < fuel)%nat -> zlen pre = zlen sch + 3 ->
  u = mk_url (Some 0) (zlen sch) None 0 0 0 None 0 ->
  agrees string_length s (parse_host mem max fuel string_length u (zlen pre)) (host_split sch rest).
Proof using Hs.
  intros Es Hf Hp ->. unfold parse_host, host_split.
  unfold max. rewrite (url_scan_run mem string_length s Hs _ rest pre fuel Es) by (rewrite Es, length_app in Hf; lia).
  cbn [mbind outcome_bind]. pose proof (span_eq (fun c => (c =? COLON) || (c =? SLASH)) rest) as Hsp.
  pose proof (span_stops (fun c => (c =? COLON) || (c =? SLASH)) rest) as Hst.
  destruct (span _ rest) as [[|h hst] r]; destruct Hsp as [-> _]; simpl fst.
  { change (zlen (@nil Z)) with 0. rewrite Z.add_0_r, Z.eqb_refl. by eexists. }
  replace (zlen pre + zlen (h :: hst) =? zlen pre) with false by (rewrite zlen_cons; pose proof (zlen_nonneg hst); lia).
  rewrite (assoc_L (++)) in Es. rewrite <-zlen_app.
  assert (Eu : set_host (mk_url (Some 0) (zlen sch) None 0 0 0 None 0) (zlen pre) (zlen (pre ++ h :: hst) - zlen pre) =
      url_of (mk_url_text sch (h :: hst) None None) string_length (zlen s)).
  { unfold set_host, url_of. simpl. rewrite zlen_app. do 2 f_equal; [done|lia]. }
  rewrite Eu. destruct r as [|c r].
  - rewrite app_nil_r in Es. rewrite <-Es. rewrite (char_end mem string_length s Hs). done.
  - rewrite (char_mid mem string_length s Hs _ c r Es). cbn [mbind outcome_bind].
    apply (port_run mem string_length s Hs sch (h :: hst) c r); [done|done|].
    specialize (Hst _ _ _ eq_refl). simpl in Hst. lia.
Qed.

Lemma parse_run : agrees string_length s (sxe_http_url_parse mem string_length) (url_split s).
Proof using Hs.
  unfold url_split, sxe_http_url_parse, parse_scheme. fold max.
  assert (Hf : (length s < S (length mem))%nat).
  { destruct Hs as (_ & _ & _ & tail & [[-> _]|[-> _]]); rewrite length_app; simpl; lia. }
  pose proof (url_scan_run mem string_length s Hs (fun c => c =? COLON) s [] (S (length mem)) eq_refl Hf) as R0.
  change (zlen (@nil Z)) with 0 in R0. unfold max. rewrite R0. clear R0.
  cbn [mbind outcome_bind]. pose proof (span_eq (fun c => c =? COLON) s) as Hsp.
  destruct (span (fun c => c =? COLON) s) as [sch r]; destruct Hsp as [Es _]. simpl fst.
  rewrite Z.add_0_l. destruct r as [|c r].
  { rewrite app_nil_r in Es. rewrite <-Es, (char_end mem string_length s Hs). simpl. by destruct s; eexists. }
  rewrite (char_mid mem string_length s Hs sch c r Es). cbn [mbind outcome_bind].
  destruct sch as [|c0 sch]; [simpl; by eexists|]. set (sc := c0 :: sch) in *.
  replace (zlen sc =? 0) with false by (unfold sc; rewrite zlen_cons; pose proof (zlen_nonneg sch); lia).
  pose proof (max_bound mem string_length s Hs) as Hm. cbv zeta in Hm.
  assert (Hz : zlen s = zlen sc + 1 + zlen r) by (rewrite Es, zlen_app, zlen_cons; lia).
  pose proof (zlen_nonneg sc). pose proof (zlen_nonneg r). destruct (Hs) as (_ & _ & Hbig & _).
  rewrite u32_small by (unfold is_u32; lia).
  assert (E1 : s = (sc ++ [c]) ++ r) by by rewrite Es, <-(assoc_L (++)).
  assert (L1 : zlen (sc ++ [c]) = zlen sc + 1) by (rewrite zlen_app; done).
  assert (Hend : forall pre r, s = pre ++ r -> zlen pre + 1 < max -> match r with [] => rd mem (zlen pre) = Some 0 \/ zlen s = max | x :: _ => rd mem (zlen pre) = Some x end).
  { intros pre [|x r'] Ep Hlt; [|by eapply rd_mid]. rewrite app_nil_r in Ep. subst pre.
    destruct Hs as (_ & _ & _ & tail & [[-> _]|[_ [Hl Hne]]]); [left; by rewrite rd_at|]. right. unfold max.
    destruct (Z.eqb_spec string_length 0) as [E0|]; [|lia]. destruct s; [done|]. rewrite E0, zlen_cons in Hl. pose proof (zlen_nonneg l). lia. }
  fold max. destruct (Z.leb_spec max (zlen sc + 1 + 1)) as [Hshort|Hlong].
  { (* nothing can follow *) destruct r as [|x [|y r']]; [by eexists..|]. exfalso.
    rewrite !zlen_cons in Hz. pose proof (zlen_nonneg r'). lia. }
  pose proof (Hend (sc ++ [c]) r E1 ltac:(lia)) as R1. rewrite L1 in R1.
  destruct r as [|x r].
  { destruct R1 as [-> | E0]; [|change (zlen (@nil Z)) with 0 in Hz; lia]. by eexists. }
  rewrite R1. cbn [load mbind outcome_bind]. unfold SLASH at 1. destruct (Z.eqb_spec x 47) as [->|Hx]; simpl negb; cbv iota.
  2:{ unfold SLASH. replace (x =? 47) with false by lia. destruct r; by eexists. }
  assert (E2 : s = ((sc ++ [c]) ++ [47]) ++ r) by by rewrite E1, <-!(assoc_L (++)).
  assert (L2 : zlen ((sc ++ [c]) ++ [47]) = zlen sc + 1 + 1) by (rewrite zlen_app, L1; done).
  assert (R2 : match r with [] => rd mem (zlen sc + 1 + 1) = Some 0 | x :: _ => rd mem (zlen sc + 1 + 1) = Some x end).
  { rewrite <-L2. destruct r as [|y r]; [|by eapply rd_mid]. rewrite app_nil_r in E2.
    rewrite !zlen_cons in Hz. change (zlen (@nil Z)) with 0 in Hz. rewrite <-E2.
    destruct Hs as (_ & _ & _ & tail & [[-> _]|[_ [Hl Hne]]]); [by rewrite rd_at|]. exfalso. unfold max in Hlong.
    destruct (Z.eqb_spec string_length 0); lia. }
  destruct r as [|y r].
  { rewrite R2. by eexists. }
  rewrite R2. cbn [load mbind outcome_bind]. unfold SLASH at 1. destruct (Z.eqb_spec y 47) as [->|Hy]; simpl negb; cbv iota.
  2:{ unfold SLASH. replace (y =? 47) with false by lia. by eexists. }
  assert (E3 : s = (((sc ++ [c]) ++ [47]) ++ [47]) ++ r) by by rewrite E2, <-!(assoc_L (++)).
  assert (L3 : zlen sc + 1 + 2 = zlen (((sc ++ [c]) ++ [47]) ++ [47])) by (rewrite zlen_app, L2; change (zlen [47]) with 1; lia).
  rewrite L3. apply host_run; [done|done| |done]. lia.
Qed.
End Parse.

(** C35: the URL parser returns OK exactly when the text splits as
    scheme://host[:port][/path], with nonempty scheme, host and port digits; the
    structure then describes those parts (the port modulo 2^32), and every other text
    is reported as an invalid URI. Nothing outside the string is read. *)
Theorem sxe_http_url_parse_spec mem string_length s :
  sees mem string_length s ->
  match url_split s with
  | Some t => sxe_http_url_parse mem string_length = Ret (SXE_RETURN_OK, url_of t string_length (zlen s))
  | None => exists u, sxe_http_url_parse mem string_length = Ret (SXE_RETURN_ERROR_INVALID, u)
  end.
Proof. intros Hs. exact (parse_run mem string_length s Hs). Qed.

(** ** Printing and parsing *)

Definition url_print (t : url_text) : list Z :=
  ut_scheme t ++ COLON :: SLASH :: SLASH :: ut_host t ++
  match ut_port t with Some ds => COLON :: ds | None => [] end ++
  match ut_path t with Some p => SLASH :: p | None => [] end.

(** A text that can be split again. *)
Definition url_valid (t : url_text) : Prop :=
  ut_scheme t <> [] /\ Forall (fun c => c <> COLON) (ut_scheme t) /\
  ut_host t <> [] /\ Forall (fun c => c <> COLON /\ c <> SLASH) (ut_host t) /\
  match ut_port t with Some ds => ds <> [] /\ Forall (fun c => isdigit c = true) ds | None => True end.

Lemma url_split_print t : url_valid t -> url_split (url_print t) = Some t.
Proof.
  destruct t as [sch hst pt pa]. intros (Hs & Hsc & Hh & Hhc & Hp). simpl in *. unfold url_split, url_print. simpl.
  rewrite span_app; [|eapply Forall_impl; [exact Hsc|]; simpl; lia|by intros c b [= <- _]].
  destruct sch as [|c0 sch]; [done|]. simpl. unfold host_split.
  rewrite span_app.
  2:{ eapply Forall_impl; [exact Hhc|]. simpl. lia. }
  2:{ intros c b E. destruct pt as [ds|]; [by injection E as <- _|]. destruct pa as [p|]; [|done]. by injection E as <- _. }
  destruct hst as [|h0 hst]; [done|]. unfold port_split. destruct pt as [ds|]; simpl.
  - destruct Hp as [Hd Hds]. rewrite span_app.
    + destruct ds; [done|]. by destruct pa.
    + eapply Forall_impl; [exact Hds|]. simpl. intros x ->. done.
    + intros c b E. destruct pa as [p|]; [|done]. by injection E as <- _.
  - by destruct pa.
Qed.

(** A printed URL parses to the structure of its parts. *)
Theorem url_print_parse mem string_length t :
  url_valid t -> sees mem string_length (url_print t) ->
  sxe_http_url_parse mem string_length = Ret (SXE_RETURN_OK, url_of t string_length (zlen (url_print t))).
Proof.
  intros Ht Hs. pose proof (parse_run mem string_length _ Hs) as P. by rewrite (url_split_print t Ht) in P.
Qed.

(** ** Witnesses: https://sophos.com:8080/path *)
Definition example_url : url_text :=
  mk_url_text [104; 116; 116; 112; 115] [115; 111; 112; 104; 111; 115; 46; 99; 111; 109]
    (Some [56; 48; 56; 48]) (Some [112; 97; 116; 104]).
Definition example_url_memory : list Z := url_print example_url ++ [0; 88].

Lemma example_sees : sees example_url_memory 0 (url_print example_url).
Proof.
  split; [unfold no_nul, url_print; simpl; repeat constructor; done|]. split; [lia|]. split; [vm_compute; done|].
  exists [88]. left. split; [reflexivity|by left].
Qed.

Lemma sxe_http_url_parse_spec_witness :
  sxe_http_url_parse example_url_memory 0 = Ret (SXE_RETURN_OK, mk_url (Some 0) 5 (Some 8) 10 8080 5 (Some 24) 0).
Proof. exact (sxe_http_url_parse_spec example_url_memory 0 (url_print example_url) example_sees). Defined.

Lemma url_print_parse_witness :
  sxe_http_url_parse example_url_memory 0 = Ret (SXE_RETURN_OK, mk_url (Some 0) 5 (Some 8) 10 8080 5 (Some 24) 0).
Proof.
  refine (url_print_parse example_url_memory 0 example_url _ example_sees).
  repeat split; try done; simpl; repeat constructor; done.
Defined.
