(* ===== verification/HttpMessage.v ===== *)
(** * HttpMessage: the incremental parser of request lines and headers
    (lib-sxe-http/sxe-http-message.c)

    The receive buffer is shared with the caller, which appends to it and moves its
    contents; it is an argument of the operations, and the message holds offsets. *)

From S2P Require Import Prelude.

(** lib-sxe-http/sxe-http.h:53-56, SXE_HTTP_LINE_ELEMENT_TYPE. *)
Inductive SXE_HTTP_LINE_ELEMENT_TYPE :=
| SXE_HTTP_LINE_ELEMENT_TYPE_TOKEN
| SXE_HTTP_LINE_ELEMENT_TYPE_END_OF_LINE.

#[export] Instance line_element_type_eq_dec : EqDecision SXE_HTTP_LINE_ELEMENT_TYPE.
Proof. solve_decision. Defined.

(** lib-sxe-http/sxe-http.h:69-80, SXE_HTTP_MESSAGE. The pointer to the buffer is an
    argument of the operations. *)
Record SXE_HTTP_MESSAGE := mk_message {
  buffer_length : Z;
  consumed : Z;
  element_length : Z;
  name_length : Z;
  value_offset : Z;
  value_length : Z;
  next_field : Z;
  ignore_line : Z;
  ignore_length : Z
}.

(** lib-sxe-http/sxe-http-message.c:31-31, SXE_HTTP_LINE_PARSED. *)
Definition SXE_HTTP_LINE_PARSED : Z := SXE_UNSIGNED_MAXIMUM.

(** Assignments to the members. *)
Definition set_buffer_length m v := mk_message v (consumed m) (element_length m) (name_length m) (value_offset m) (value_length m) (next_field m) (ignore_line m) (ignore_length m).
Definition set_consumed m v := mk_message (buffer_length m) v (element_length m) (name_length m) (value_offset m) (value_length m) (next_field m) (ignore_line m) (ignore_length m).
Definition set_element_length m v := mk_message (buffer_length m) (consumed m) v (name_length m) (value_offset m) (value_length m) (next_field m) (ignore_line m) (ignore_length m).
Definition set_name_length m v := mk_message (buffer_length m) (consumed m) (element_length m) v (value_offset m) (value_length m) (next_field m) (ignore_line m) (ignore_length m).
Definition set_value_offset m v := mk_message (buffer_length m) (consumed m) (element_length m) (name_length m) v (value_length m) (next_field m) (ignore_line m) (ignore_length m).
Definition set_value_length m v := mk_message (buffer_length m) (consumed m) (element_length m) (name_length m) (value_offset m) v (next_field m) (ignore_line m) (ignore_length m).
Definition set_next_field m v := mk_message (buffer_length m) (consumed m) (element_length m) (name_length m) (value_offset m) (value_length m) v (ignore_line m) (ignore_length m).
Definition set_ignore_line m v := mk_message (buffer_length m) (consumed m) (element_length m) (name_length m) (value_offset m) (value_length m) (next_field m) v (ignore_length m).
Definition set_ignore_length m v := mk_message (buffer_length m) (consumed m) (element_length m) (name_length m) (value_offset m) (value_length m) (next_field m) (ignore_line m) v.

Definition CR : Z := 13.
Definition LF : Z := 10.
Definition TAB : Z := 9.
Definition SPACE : Z := 32.
Definition COLON : Z := 58.
Definition is_blank (c : Z) : bool := (c =? SPACE) || (c =? TAB).

(** The ctype.h classes in the C locale. *)
Definition isgraph (c : Z) : bool := (33 <=? c) && (c <=? 126).
Definition isspace (c : Z) : bool := (c =? 32) || ((9 <=? c) && (c <=? 13)).

(** lib-sxe-http/sxe-http-message.c:40-52, sxe_http_message_construct. The members that it
    leaves alone keep the contents [m] of the memory. *)
Definition sxe_http_message_construct (m : SXE_HTTP_MESSAGE) (length : Z) : SXE_HTTP_MESSAGE :=
  mk_message length 0 0 (name_length m) (value_offset m) (value_length m) 0 0 0.

(** lib-sxe-http/sxe-http-message.c:62-70, sxe_http_message_increase_buffer_length. *)
Definition sxe_http_message_increase_buffer_length (m : SXE_HTTP_MESSAGE) (length : Z) : outcome SXE_HTTP_MESSAGE :=
  assert1 (buffer_length m <=? length);;
  mret (set_buffer_length m length).

(** How a scan of the buffer ends: at a character that it looks for, at a bad one, or at
    the end of the data. *)
Inductive scan := Scan_found (offset : Z) | Scan_bad (offset : Z) | Scan_end (offset : Z).

Section Parser.
Variable buffer : list Z.

Definition rd_buffer (i : Z) : outcome Z := load (rd buffer i).

(** The scanning loops: [buffer[offset]] is read first; the loop stops at a character it
    looks for, then tests for a bad one, for the end of the data, and for other bad
    ones, in the loop's order. *)
Fixpoint scan_for (fuel : nat) (len : Z) (stop bad_first bad_last : Z -> bool) (offset : Z) : outcome scan :=
  match fuel with
  | O => Fault
  | S fuel =>
      c ← rd_buffer offset;
      if stop c then Ret (Scan_found offset)
      else if bad_first c then Ret (Scan_bad offset)
      else if len <=? offset then Ret (Scan_end offset)
      else if bad_last c then Ret (Scan_bad offset)
      else scan_for fuel len stop bad_first bad_last (offset + 1)
  end.
Definition never (c : Z) : bool := false.

(** A number of steps that no scan of the buffer exceeds. *)
Definition steps : nat := S (length buffer).

(** lib-sxe-http/sxe-http-message.c:79-91, sxe_http_message_skip_whitespace. *)
Fixpoint skip_loop (fuel : nat) (len offset : Z) : outcome (SXE_RETURN * Z) :=
  match fuel with
  | O => Fault
  | S fuel =>
      if len <=? offset then Ret (SXE_RETURN_WARN_WOULD_BLOCK, offset)
      else
        c ← rd_buffer offset;
        if negb (is_blank c) then Ret (SXE_RETURN_OK, offset) else skip_loop fuel len (offset + 1)
  end.

(** lib-sxe-http/sxe-http-message.c:72-95, sxe_http_message_skip_whitespace. *)
Definition sxe_http_message_skip_whitespace (m : SXE_HTTP_MESSAGE) (offset : Z) : outcome (SXE_RETURN * Z) :=
  skip_loop steps (buffer_length m) offset.

(** lib-sxe-http/sxe-http-message.c:112-112, sxe_http_message_parse_next_line_element. The
    test with strchr also finds the NUL that ends the string of terminators. *)
Definition terminator (type : SXE_HTTP_LINE_ELEMENT_TYPE) (c : Z) : bool :=
  (c =? 0) || (c =? CR) || (bool_decide (type = SXE_HTTP_LINE_ELEMENT_TYPE_TOKEN) && is_blank c).

(** Whether the two bytes before [i] are a line end. *)
Definition line_ends_before (i : Z) : outcome bool :=
  if 2 <=? i then
    a ← rd_buffer (i - 2);
    if a =? CR then b ← rd_buffer (i - 1); mret (b =? LF) else mret false
  else mret false.

(** lib-sxe-http/sxe-http-message.c:145-198, sxe_http_message_parse_next_line_element. From
    the start of the element. *)
Definition parse_element (m : SXE_HTTP_MESSAGE) (type : SXE_HTTP_LINE_ELEMENT_TYPE) : outcome (SXE_RETURN * SXE_HTTP_MESSAGE) :=
  if u32 (buffer_length m - consumed m) <? 2 then mret (SXE_RETURN_WARN_WOULD_BLOCK, m)
  else
    c0 ← rd_buffer (consumed m);
    eol ← (if c0 =? CR then c1 ← rd_buffer (consumed m + 1); mret (c1 =? LF) else mret false);
    if (eol : bool) then
      let m := set_consumed m (u32 (consumed m + 2)) in
      mret (SXE_RETURN_END_OF_FILE, set_element_length (set_next_field m (consumed m)) SXE_HTTP_LINE_PARSED)
    else
      r ← scan_for steps (buffer_length m) (terminator type) (fun c => c =? LF) never (consumed m);
      match r with
      | Scan_bad _ => mret (SXE_RETURN_ERROR_BAD_MESSAGE, m)
      | Scan_end offset =>
          mret (SXE_RETURN_WARN_WOULD_BLOCK, set_consumed (set_element_length m (u32 (offset - consumed m))) offset)
      | Scan_found offset =>
          let m := set_element_length m (u32 (offset - consumed m)) in
          c ← rd_buffer offset;
          if c =? CR then
            let offset := u32 (offset + 1) in
            if buffer_length m <=? offset then
              mret (SXE_RETURN_WARN_WOULD_BLOCK, set_element_length m (u32 (offset - consumed m)))
            else
              c ← rd_buffer offset;
              if negb (c =? LF) then mret (SXE_RETURN_ERROR_BAD_MESSAGE, m)
              else mret (SXE_RETURN_OK, set_next_field m (u32 (offset + 1)))
          else if bool_decide (type = SXE_HTTP_LINE_ELEMENT_TYPE_END_OF_LINE) then mret (SXE_RETURN_WARN_WOULD_BLOCK, m)
          else mret (SXE_RETURN_OK, set_next_field m (u32 (offset + 1)))
      end.

(** lib-sxe-http/sxe-http-message.c:108-203, sxe_http_message_parse_next_line_element. *)
Definition sxe_http_message_parse_next_line_element (m : SXE_HTTP_MESSAGE) (type : SXE_HTTP_LINE_ELEMENT_TYPE)
  : outcome (SXE_RETURN * SXE_HTTP_MESSAGE) :=
  parsed ← (if element_length m =? SXE_HTTP_LINE_PARSED then mret true else line_ends_before (next_field m));
  if (parsed : bool) then mret (SXE_RETURN_END_OF_FILE, set_element_length m SXE_HTTP_LINE_PARSED)
  else
    let m := if negb (next_field m =? 0) || (consumed m =? 0) then
               set_next_field (set_consumed (set_element_length m 0) (next_field m)) 0
             else m in
    if element_length m =? 0 then
      '(result, offset) ← sxe_http_message_skip_whitespace m (consumed m);
      let m := set_consumed m offset in
      if negb (bool_decide (result = SXE_RETURN_OK)) then mret (SXE_RETURN_WARN_WOULD_BLOCK, m)
      else parse_element m type
    else parse_element m type.

(** lib-sxe-http/sxe-http-message.c:420-423, sxe_http_message_parse_next_header. *)
Definition ignore_out (m : SXE_HTTP_MESSAGE) : SXE_RETURN * SXE_HTTP_MESSAGE :=
  (SXE_RETURN_WARN_WOULD_BLOCK, set_consumed (set_buffer_length m (u32 (buffer_length m - ignore_length m))) 0).

(** lib-sxe-http/sxe-http-message.c:257-303, sxe_http_message_parse_next_header. The line
    is being ignored. *)
Fixpoint ignore_loop (fuel : nat) (m : SXE_HTTP_MESSAGE) : outcome (SXE_RETURN * SXE_HTTP_MESSAGE) :=
  match fuel with
  | O => Fault
  | S fuel =>
      r ← scan_for steps (buffer_length m) (fun c => c =? LF) never never (consumed m);
      match r with
      | Scan_bad _ => Fault
      | Scan_end _ => mret (ignore_out (set_ignore_length m (buffer_length m)))
      | Scan_found offset =>
          if buffer_length m <=? u32 (offset + 2) then
            mret (ignore_out (set_ignore_length m (u32 (buffer_length m - 2))))
          else
            c1 ← rd_buffer (offset + 1);
            eoh ← (if c1 =? CR then c2 ← rd_buffer (offset + 2); mret (c2 =? LF) else mret false);
            if (eoh : bool) then
              let m := set_ignore_line m 0 in
              let m := set_ignore_length (set_consumed m (u32 (offset + 3))) (u32 (offset + 3)) in
              mret (SXE_RETURN_END_OF_FILE, set_buffer_length m (u32 (buffer_length m - ignore_length m)))
            else
              let offset := u32 (offset + 1) in
              c ← rd_buffer offset;
              if negb (is_blank c) then
                let m := set_ignore_line (set_ignore_length m offset) 0 in
                mret (ignore_out (set_value_length (set_value_offset (set_name_length m 0) 0) 0))
              else ignore_loop fuel (set_consumed m offset)
      end
  end.

(** lib-sxe-http/sxe-http-message.c:411-413, sxe_http_message_parse_next_header. *)
Fixpoint trim_loop (fuel : nat) (m : SXE_HTTP_MESSAGE) : outcome SXE_HTTP_MESSAGE :=
  match fuel with
  | O => Fault
  | S fuel =>
      if 0 <? value_length m then
        c ← rd_buffer (u32 (value_offset m + value_length m - 1));
        if isspace c then trim_loop fuel (set_value_length m (value_length m - 1)) else mret m
      else mret m
  end.

(** lib-sxe-http/sxe-http-message.c:357-418, sxe_http_message_parse_next_header. The value,
    over its continuation lines. *)
Fixpoint value_loop (fuel : nat) (m : SXE_HTTP_MESSAGE) : outcome (SXE_RETURN * SXE_HTTP_MESSAGE) :=
  match fuel with
  | O => Fault
  | S fuel =>
      r ← scan_for steps (buffer_length m) (fun c => c =? CR) (fun c => c =? LF) never (u32 (value_offset m + value_length m));
      match r with
      | Scan_bad _ => mret (SXE_RETURN_ERROR_BAD_MESSAGE, m)
      | Scan_end offset => mret (SXE_RETURN_WARN_WOULD_BLOCK, set_value_length m (u32 (offset - value_offset m)))
      | Scan_found offset =>
          let m := set_value_length m (u32 (offset - value_offset m)) in
          if buffer_length m <=? u32 (offset + 2) then mret (SXE_RETURN_WARN_WOULD_BLOCK, m)
          else
            let offset := u32 (offset + 1) in
            c ← rd_buffer offset;
            if negb (c =? LF) then mret (SXE_RETURN_ERROR_BAD_MESSAGE, m)
            else
              let offset := u32 (offset + 1) in
              c ← rd_buffer offset;
              if negb (is_blank c) then
                let m := set_next_field (set_value_length m (u32 (offset - 2 - value_offset m))) offset in
                m ← trim_loop steps m;
                mret (SXE_RETURN_OK, m)
              else value_loop fuel (set_value_length m (u32 (offset - value_offset m)))
      end
  end.

(** lib-sxe-http/sxe-http-message.c:337-354, sxe_http_message_parse_next_header. Leading
    blanks of the value; [None] at the end of the data. *)
Fixpoint lead_loop (fuel : nat) (m : SXE_HTTP_MESSAGE) : outcome (bool * SXE_HTTP_MESSAGE) :=
  match fuel with
  | O => Fault
  | S fuel =>
      if buffer_length m <=? value_offset m then Ret (false, m)
      else
        c ← rd_buffer (value_offset m);
        if negb (is_blank c) then Ret (true, m) else lead_loop fuel (set_value_offset m (value_offset m + 1))
  end.

(** The value of a header whose name is known. *)
Definition parse_value (m : SXE_HTTP_MESSAGE) : outcome (SXE_RETURN * SXE_HTTP_MESSAGE) :=
  if value_length m =? 0 then
    '(more, m) ← lead_loop steps m;
    if (more : bool) then value_loop steps m else mret (SXE_RETURN_WARN_WOULD_BLOCK, m)
  else value_loop steps m.

(** lib-sxe-http/sxe-http-message.c:305-335, sxe_http_message_parse_next_header. The name. *)
Definition parse_name (m : SXE_HTTP_MESSAGE) : outcome (SXE_RETURN * SXE_HTTP_MESSAGE) :=
  if value_offset m =? 0 then
    colon ← (if name_length m =? 0 then c ← rd_buffer (consumed m); mret (c =? COLON) else mret false);
    if (colon : bool) then mret (SXE_RETURN_ERROR_BAD_MESSAGE, m)
    else
      r ← scan_for steps (buffer_length m) (fun c => c =? COLON) never (fun c => negb (isgraph c)) (u32 (consumed m + name_length m));
      match r with
      | Scan_bad _ => mret (SXE_RETURN_ERROR_BAD_MESSAGE, m)
      | Scan_end offset => mret (SXE_RETURN_WARN_WOULD_BLOCK, set_name_length m (u32 (offset - consumed m)))
      | Scan_found offset =>
          parse_value (set_value_offset (set_name_length m (u32 (offset - consumed m))) (u32 (offset + 1)))
      end
  else parse_value m.

(** lib-sxe-http/sxe-http-message.c:214-257, sxe_http_message_parse_next_header. *)
Definition sxe_http_message_parse_next_header `{Build} (m : SXE_HTTP_MESSAGE) : outcome (SXE_RETURN * SXE_HTTP_MESSAGE) :=
  m ← (if negb (element_length m =? SXE_HTTP_LINE_PARSED) then
         assert6 (2 <=? next_field m);;
         (if debug then ends ← line_ends_before (next_field m); assert1 ends else mret tt);;
         mret (set_element_length m SXE_HTTP_LINE_PARSED)
       else mret m);
  let m := set_ignore_length m 0 in
  let body m := if negb (ignore_line m =? 0) then ignore_loop steps m else parse_name m in
  if negb (next_field m =? 0) then
    let m := set_next_field (set_value_length (set_value_offset (set_name_length (set_consumed m (next_field m)) 0) 0) 0) 0 in
    if u32 (buffer_length m - consumed m) <? 2 then mret (SXE_RETURN_WARN_WOULD_BLOCK, m)
    else
      c0 ← rd_buffer (consumed m);
      eoh ← (if c0 =? CR then c1 ← rd_buffer (consumed m + 1); mret (c1 =? LF) else mret false);
      if (eoh : bool) then mret (SXE_RETURN_END_OF_FILE, set_consumed m (u32 (consumed m + 2)))
      else body m
  else body m.

(** lib-sxe-http/sxe-http-message.c:440-469, sxe_http_message_consume_parsed_headers. *)
Definition sxe_http_message_consume_parsed_headers (m : SXE_HTTP_MESSAGE) : Z * SXE_HTTP_MESSAGE :=
  let '(consumed, m) :=
    if negb (next_field m =? 0) then
      (next_field m, set_next_field (set_value_length (set_value_offset (set_name_length m 0) 0) 0) 0)
    else
      (consumed m, if negb (value_offset m =? 0) then set_value_offset m (u32 (value_offset m - consumed m)) else m) in
  (consumed, set_buffer_length (set_consumed m 0) (u32 (buffer_length m - consumed))).

(** ** Accessors *)

(** lib-sxe-http/sxe-http.h:87-92, sxe_http_message_get_line_element. An offset in the buffer. *)
Definition sxe_http_message_get_line_element (m : SXE_HTTP_MESSAGE) : outcome Z :=
  assert1 (0 <? element_length m);; mret (consumed m).
(** lib-sxe-http/sxe-http.h:94-98, sxe_http_message_get_line_element_length. *)
Definition sxe_http_message_get_line_element_length (m : SXE_HTTP_MESSAGE) : Z := element_length m.
(** lib-sxe-http/sxe-http.h:100-104, sxe_http_message_get_request_line_length. *)
Definition sxe_http_message_get_request_line_length (m : SXE_HTTP_MESSAGE) : Z := u32 (element_length m + consumed m).
(** lib-sxe-http/sxe-http.h:106-111, sxe_http_message_get_header_name. *)
Definition sxe_http_message_get_header_name (m : SXE_HTTP_MESSAGE) : outcome Z :=
  assert1 (0 <? name_length m);; mret (consumed m).
(** lib-sxe-http/sxe-http.h:113-117, sxe_http_message_get_header_name_length. *)
Definition sxe_http_message_get_header_name_length (m : SXE_HTTP_MESSAGE) : Z := name_length m.
(** lib-sxe-http/sxe-http.h:119-123, sxe_http_message_get_header_value. *)
Definition sxe_http_message_get_header_value (m : SXE_HTTP_MESSAGE) : Z := value_offset m.
(** lib-sxe-http/sxe-http.h:125-128, sxe_http_message_get_header_value_length. *)
Definition sxe_http_message_get_header_value_length (m : SXE_HTTP_MESSAGE) : Z := value_length m.
(** lib-sxe-http/sxe-http.h:130-133, sxe_http_message_get_ignore_length. *)
Definition sxe_http_message_get_ignore_length (m : SXE_HTTP_MESSAGE) : Z := ignore_length m.
(** lib-sxe-http/sxe-http.h:135-138, sxe_http_message_get_buffer_length. *)
Definition sxe_http_message_get_buffer_length (m : SXE_HTTP_MESSAGE) : Z := buffer_length m.
(** lib-sxe-http/sxe-http.h:140-144, sxe_http_message_set_ignore_line. *)
Definition sxe_http_message_set_ignore_line (m : SXE_HTTP_MESSAGE) : SXE_HTTP_MESSAGE :=
  set_ignore_line (set_buffer_length m 0) 1.
(** lib-sxe-http/sxe-http.h:146-149, sxe_http_message_buffer_shift_ignore_length. The buffer
    after memmove. *)
Definition sxe_http_message_buffer_shift_ignore_length (m : SXE_HTTP_MESSAGE) : outcome (list Z) :=
  l ← load (slice buffer (ignore_length m) (buffer_length m)); wr_bytes buffer 0 l.
End Parser.

Arguments steps buffer : simpl never.

(** ** Scans *)

Section Scans.
Variable buffer : list Z.

Lemma rd_buffer_at pre c post : buffer = pre ++ c :: post -> rd_buffer buffer (zlen pre) = Ret c.
Proof using. intros ->. unfold rd_buffer. by rewrite rd_at. Qed.

Lemma rd_buffer_ok i : 0 <= i < zlen buffer -> exists c, rd_buffer buffer i = Ret c /\ rd buffer i = Some c.
Proof using. intros Hi. destruct (rd_lt buffer i Hi) as [c E]. exists c. unfold rd_buffer. by rewrite E. Qed.

Definition passes (stop bad_first bad_last : Z -> bool) (c : Z) : Prop :=
  stop c = false /\ bad_first c = false /\ bad_last c = false.

(** A scan goes over the characters that pass. *)
Lemma scan_skip len stop bad_first bad_last a post : forall pre fuel,
  buffer = pre ++ a ++ post -> Forall (passes stop bad_first bad_last) a -> zlen pre + zlen a <= len ->
  scan_for buffer (length a + fuel) len stop bad_first bad_last (zlen pre) =
  scan_for buffer fuel len stop bad_first bad_last (zlen pre + zlen a).
Proof using.
  induction a as [|c a IH]; intros pre fuel E Hp Hl; simpl; [by rewrite Z.add_0_r|].
  rewrite Forall_cons in Hp. destruct Hp as [(H1 & H2 & H3) Hp]. rewrite zlen_cons in Hl. pose proof (zlen_nonneg a).
  rewrite (rd_buffer_at pre c (a ++ post)) by done. cbn [mbind outcome_bind]. rewrite H1, H2, H3.
  replace (len <=? zlen pre) with false by lia.
  assert (Lp : zlen (pre ++ [c]) = zlen pre + 1) by (rewrite zlen_app; done).
  rewrite <-Lp, IH; [|by rewrite <-(assoc_L (++))|done|lia]. f_equal. rewrite Lp, zlen_cons. lia.
Qed.

Lemma steps_split a post pre : buffer = pre ++ a ++ post -> exists n, steps buffer = (length a + S n)%nat.
Proof using. intros ->. unfold steps. rewrite !length_app. exists (length pre + length post)%nat. lia. Qed.

(** The scan that finds its character. *)
Lemma scan_found len stop bad_first bad_last pre a c post :
  buffer = pre ++ a ++ c :: post -> Forall (passes stop bad_first bad_last) a -> zlen pre + zlen a <= len -> stop c = true ->
  scan_for buffer (steps buffer) len stop bad_first bad_last (zlen pre) = Ret (Scan_found (zlen pre + zlen a)).
Proof using.
  intros E Hp Hl Hc. destruct (steps_split a (c :: post) pre E) as [n ->].
  rewrite (scan_skip _ _ _ _ a (c :: post)) by done. simpl. rewrite <-zlen_app.
  rewrite (rd_buffer_at (pre ++ a) c post) by (by rewrite <-(assoc_L (++))). simpl. by rewrite Hc.
Qed.

(** The scan that meets a bad character inside the data. *)
Lemma scan_bad len stop bad_first bad_last pre a c post :
  buffer = pre ++ a ++ c :: post -> Forall (passes stop bad_first bad_last) a -> zlen pre + zlen a < len ->
  stop c = false -> bad_first c = true \/ bad_last c = true ->
  scan_for buffer (steps buffer) len stop bad_first bad_last (zlen pre) = Ret (Scan_bad (zlen pre + zlen a)).
Proof using.
  intros E Hp Hl Hc Hb. destruct (steps_split a (c :: post) pre E) as [n ->].
  rewrite (scan_skip _ _ _ _ a (c :: post)) by (done || lia). simpl. rewrite <-zlen_app.
  rewrite (rd_buffer_at (pre ++ a) c post) by (by rewrite <-(assoc_L (++))). simpl. rewrite Hc.
  destruct Hb as [-> | ->]; [done|]. destruct (bad_first c); [done|].
  rewrite zlen_app. by replace (len <=? zlen pre + zlen a) with false by lia.
Qed.

(** Every scan that starts in the data ends, and reads at most one byte past them. *)
Lemma scan_total len stop bad_first bad_last : len < zlen buffer -> forall fuel o, 0 <= o <= len -> len - o < Z.of_nat fuel ->
  exists r, scan_for buffer fuel len stop bad_first bad_last o = Ret r /\
    match r with
    | Scan_found i => o <= i <= len /\ (exists c, rd buffer i = Some c /\ stop c = true) /\
                      forall j c, o <= j < i -> rd buffer j = Some c -> passes stop bad_first bad_last c
    | Scan_bad i => o <= i <= len
    | Scan_end i => i = len /\ forall j c, o <= j < len -> rd buffer j = Some c -> passes stop bad_first bad_last c
    end.
Proof using.
  intros Hl. induction fuel as [|fuel IH]; intros o Ho Hf; [lia|]. simpl.
  destruct (rd_buffer_ok o ltac:(lia)) as (c & -> & Ec). simpl. destruct (stop c) eqn:Es.
  { eexists. split; [done|]. split; [lia|]. split; [eauto|]. intros; lia. }
  destruct (bad_first c) eqn:Eb; [eexists; split; [done|simpl; lia]|].
  destruct (Z.leb_spec len o).
  { eexists. split; [done|]. split; [lia|]. intros; lia. }
  destruct (bad_last c) eqn:El; [eexists; split; [done|simpl; lia]|].
  destruct (IH (o + 1) ltac:(lia) ltac:(lia)) as (r & R & Hr). exists r. split; [done|].
  destruct r as [i|i|i]; [|lia|].
  - destruct Hr as (? & ? & Hall). split; [lia|]. split; [done|]. intros j d Hj Ed.
    destruct (Z.eq_dec j o) as [->|]; [|apply (Hall j); [lia|done]]. assert (d = c) as -> by congruence. done.
  - destruct Hr as [-> Hall]. split; [done|]. intros j d Hj Ed. destruct (Z.eq_dec j o) as [->|]; [|apply (Hall j); [lia|done]].
    assert (d = c) as -> by congruence. done.
Qed.

(** More fuel does not change a scan. *)
Lemma scan_fuel len stop bad_first bad_last k : forall fuel o r,
  scan_for buffer fuel len stop bad_first bad_last o = Ret r -> scan_for buffer (fuel + k) len stop bad_first bad_last o = Ret r.
Proof using.
  induction fuel as [|fuel IH]; intros o r; simpl; [done|].
  destruct (rd_buffer buffer o) as [c| |]; simpl; try done.
  destruct (stop c); [done|]. destruct (bad_first c); [done|]. destruct (len <=? o); [done|]. destruct (bad_last c); [done|]. apply IH.
Qed.

(** A scan can start later, after characters that pass. *)
Lemma scan_resume len stop bad_first bad_last o x : len < zlen buffer -> 0 <= o <= x -> x <= len ->
  (forall j, o <= j < x -> exists c, rd buffer j = Some c /\ passes stop bad_first bad_last c) ->
  scan_for buffer (steps buffer) len stop bad_first bad_last o = scan_for buffer (steps buffer) len stop bad_first bad_last x.
Proof using.
  intros Hl Ho Hx Hall.
  assert (G : forall n fuel o, 0 <= o -> o + Z.of_nat n = x ->
    (forall j, o <= j < x -> exists c, rd buffer j = Some c /\ passes stop bad_first bad_last c) ->
    scan_for buffer (n + fuel) len stop bad_first bad_last o = scan_for buffer fuel len stop bad_first bad_last x).
  { clear o Ho Hall. induction n as [|n IH]; intros fuel o H0 En Hall; [simpl; f_equal; lia|]. simpl.
    destruct (Hall o ltac:(lia)) as (c & Ec & P1 & P2 & P3). unfold rd_buffer at 1. rewrite Ec. simpl. rewrite P1, P2, P3.
    replace (len <=? o) with false by lia. apply IH; [lia|lia|]. intros; apply Hall; lia. }
  destruct (scan_total len stop bad_first bad_last Hl (steps buffer - Z.to_nat (x - o)) x ltac:(lia)) as (r & R & _).
  { unfold steps, zlen in *. lia. }
  pose proof (scan_fuel len stop bad_first bad_last (Z.to_nat (x - o)) _ _ _ R) as R2.
  replace (steps buffer - Z.to_nat (x - o) + Z.to_nat (x - o))%nat with (steps buffer) in R2 by (unfold steps, zlen in *; lia).
  rewrite R2. rewrite <-R. rewrite <-(G (Z.to_nat (x - o)) (steps buffer - Z.to_nat (x - o))%nat o); [|lia|lia|done].
  f_equal. unfold steps, zlen in *. lia.
Qed.
End Scans.

(** ** Trimming *)

(** The text without the white space at its end. *)
Fixpoint rtrim (s : list Z) : list Z :=
  match s with
  | [] => []
  | c :: s => match rtrim s with [] => if isspace c then [] else [c] | r => c :: r end
  end.

Lemma rtrim_space s c : isspace c = true -> rtrim (s ++ [c]) = rtrim s.
Proof. intros Hc. induction s as [|d s IH]; simpl; [by rewrite Hc|]. by rewrite IH. Qed.

Lemma rtrim_end s c : isspace c = false -> rtrim (s ++ [c]) = s ++ [c].
Proof. intros Hc. induction s as [|d s IH]; simpl; [by rewrite Hc|]. rewrite IH. by destruct s. Qed.

Lemma rtrim_prefix s : exists t, s = rtrim s ++ t.
Proof.
  induction s as [|c s [t E]]; simpl; [by exists []|]. destruct (rtrim s) as [|d r] eqn:Er.
  - destruct (isspace c); [by exists (c :: s)|]. by exists t; simpl in E |- *; rewrite E at 1.
  - exists t. simpl. by rewrite E at 1.
Qed.

Lemma trim_run buffer pre val post : forall fuel m,
  buffer = pre ++ val ++ post -> zlen buffer < 4294967296 -> value_offset m = zlen pre -> value_length m = zlen val ->
  (length val < fuel)%nat -> trim_loop buffer fuel m = Ret (set_value_length m (zlen (rtrim val))).
Proof.
  revert post. induction val as [|c val IH] using rev_ind; intros post fuel m E Hb Ho Hl Hf; destruct fuel as [|fuel]; try (simpl in Hf; lia).
  - simpl. change (zlen (@nil Z)) with 0 in *. rewrite Hl. simpl. destruct m; simpl in *. by subst.
  - simpl. rewrite zlen_app in Hl. change (zlen [c]) with 1 in Hl. pose proof (zlen_nonneg val). pose proof (zlen_nonneg pre).
    assert (Hz : zlen pre + zlen val + 1 <= zlen buffer).
    { rewrite E, !zlen_app. change (zlen [c]) with 1. pose proof (zlen_nonneg post). lia. }
    replace (0 <? value_length m) with true by lia.
    replace (u32 (value_offset m + value_length m - 1)) with (zlen (pre ++ val)) by (rewrite zlen_app, u32_small; unfold is_u32; lia).
    rewrite (rd_buffer_at buffer (pre ++ val) c post) by (by rewrite E, <-!(assoc_L (++))). simpl.
    rewrite length_app in Hf. simpl in Hf. destruct (isspace c) eqn:Es.
    + rewrite rtrim_space by done. rewrite (IH ([c] ++ post)); [done|by rewrite E, <-!(assoc_L (++))|done|done|simpl; lia|lia].
    + rewrite rtrim_end by done. rewrite zlen_app. change (zlen [c]) with 1. rewrite <-Hl. by destruct m.
Qed.

(** ** The text of a header *)

Definition name_char (c : Z) : Prop := isgraph c = true /\ c <> COLON.
Definition text_char (c : Z) : Prop := c <> CR /\ c <> LF.

(** A value as it stands in the message: lines, each but the first beginning with a blank. *)
Inductive continued : list Z -> Prop :=
| continued_line l : Forall text_char l -> continued l
| continued_fold l b t : Forall text_char l -> is_blank b = true -> continued (b :: t) -> continued (l ++ CR :: LF :: b :: t).

Lemma set_value_length_twice m a b : set_value_length (set_value_length m a) b = set_value_length m b.
Proof. done. Qed.

(** One line of the value, and the character after it. *)
Lemma value_line buffer start pre0 l c post fuel m :
  buffer = start ++ pre0 ++ l ++ CR :: LF :: c :: post -> Forall text_char l -> zlen buffer < 4294967296 ->
  value_offset m = zlen start -> value_length m = zlen pre0 ->
  zlen start + zlen pre0 + zlen l + 3 <= buffer_length m ->
  value_loop buffer (S fuel) m =
    if negb (is_blank c) then
      m' ← trim_loop buffer (steps buffer)
             (set_next_field (set_value_length m (zlen pre0 + zlen l)) (zlen start + zlen pre0 + zlen l + 2));
      mret (SXE_RETURN_OK, m')
    else value_loop buffer fuel (set_value_length m (zlen pre0 + zlen l + 2)).
Proof.
  intros E Hl Hbig Ho Hk Hlen. cbn [value_loop]. rewrite Ho, Hk.
  pose proof (zlen_nonneg start). pose proof (zlen_nonneg pre0). pose proof (zlen_nonneg l). pose proof (zlen_nonneg post).
  assert (Hz : zlen buffer = zlen start + zlen pre0 + zlen l + 3 + zlen post) by (rewrite E, !zlen_app, !zlen_cons; lia).
  rewrite u32_small by (unfold is_u32; lia). rewrite <-zlen_app.
  rewrite (scan_found _ _ _ _ _ (start ++ pre0) l CR (LF :: c :: post)).
  2:{ by rewrite E, <-!(assoc_L (++)). }
  2:{ eapply Forall_impl; [exact Hl|]; intros d [D1 D2]; unfold passes, never; lia. }
  2:{ rewrite zlen_app. lia. }
  2:{ done. }
  cbn [mbind outcome_bind]. rewrite zlen_app. set (off := zlen start + zlen pre0 + zlen l).
  rewrite (u32_small (off + 2)), !(u32_small (off + 1)) by (unfold is_u32; lia).
  simpl buffer_length. replace (buffer_length m <=? off + 2) with false by lia.
  assert (R1 : rd_buffer buffer (off + 1) = Ret LF).
  { replace (off + 1) with (zlen (start ++ pre0 ++ l ++ [CR])) by (rewrite !zlen_app; unfold off; change (zlen [CR]) with 1; lia).
    apply (rd_buffer_at _ _ _ (c :: post)). by rewrite E, <-!(assoc_L (++)). }
  rewrite R1. cbn [mbind outcome_bind]. simpl (negb (LF =? LF)). cbv iota.
  replace (off + 1 + 1) with (off + 2) by lia. rewrite (u32_small (off + 2)) by (unfold is_u32; lia).
  assert (R2 : rd_buffer buffer (off + 2) = Ret c).
  { replace (off + 2) with (zlen (start ++ pre0 ++ l ++ [CR; LF])) by (rewrite !zlen_app; unfold off; change (zlen [CR; LF]) with 2; lia).
    apply (rd_buffer_at _ _ _ post). by rewrite E, <-!(assoc_L (++)). }
  rewrite R2. cbn [mbind outcome_bind]. rewrite set_value_length_twice. simpl (value_offset _). rewrite Ho.
  rewrite !u32_small by (unfold is_u32; lia).
  replace (off + 2 - 2 - zlen start) with (zlen pre0 + zlen l) by lia.
  by replace (off + 2 - zlen start) with (zlen pre0 + zlen l + 2) by lia.
Qed.

(** The whole value. *)
Lemma value_run buffer t : continued t -> forall start pre0 c post fuel m,
  buffer = start ++ (pre0 ++ t) ++ CR :: LF :: c :: post -> is_blank c = false -> zlen buffer < 4294967296 ->
  value_offset m = zlen start -> value_length m = zlen pre0 ->
  zlen start + zlen pre0 + zlen t + 3 <= buffer_length m -> (length t < fuel)%nat ->
  value_loop buffer fuel m =
    Ret (SXE_RETURN_OK, set_value_length (set_next_field m (zlen start + zlen pre0 + zlen t + 2)) (zlen (rtrim (pre0 ++ t)))).
Proof.
  intros Ht. induction Ht as [l Hl|l b t Hl Hb Ht IH]; intros start pre0 c post fuel m E Hc Hbig Ho Hk Hlen Hf.
  all: destruct fuel as [|fuel]; [lia|].
  - rewrite (value_line buffer start pre0 l c post); [|by rewrite E, <-!(assoc_L (++))|done..]. rewrite Hc. simpl negb. cbv iota.
    rewrite (trim_run buffer start (pre0 ++ l) (CR :: LF :: c :: post)); [|done|done|done|simpl; by rewrite zlen_app|].
    + done.
    + unfold steps. rewrite E, !length_app. lia.
  - rewrite zlen_app, !zlen_cons in Hlen. pose proof (zlen_nonneg t).
    rewrite (value_line buffer start pre0 l b (t ++ CR :: LF :: c :: post)); [|by rewrite E, <-!(assoc_L (++))|done..|lia].
    rewrite Hb. simpl negb. cbv iota.
    rewrite (IH start (pre0 ++ l ++ [CR; LF]) c post).
    + simpl. rewrite !zlen_app, !zlen_cons. change (zlen [CR; LF]) with 2.
      replace ((pre0 ++ l ++ [CR; LF]) ++ b :: t) with (pre0 ++ l ++ CR :: LF :: b :: t) by (by rewrite <-!(assoc_L (++))).
      unfold set_value_length, set_next_field. simpl. change (zlen (@nil Z)) with 0.
      match goal with |- Ret (_, mk_message _ _ _ _ _ _ ?a _ _) = Ret (_, mk_message _ _ _ _ _ _ ?b _ _) => by replace a with b by lia end.
    + rewrite E. by rewrite <-!(assoc_L (++)).
    + done.
    + done.
    + done.
    + simpl. rewrite !zlen_app. change (zlen [CR; LF]) with 2. lia.
    + simpl. rewrite !zlen_app, !zlen_cons. change (zlen (@nil Z)) with 0. lia.
    + rewrite length_app in Hf. simpl in Hf |- *. lia.
Qed.

Lemma lead_run buffer bl c post : forall pre fuel m,
  buffer = pre ++ bl ++ c :: post -> Forall (fun c => is_blank c = true) bl -> is_blank c = false ->
  value_offset m = zlen pre -> zlen pre + zlen bl < buffer_length m -> (length bl < fuel)%nat ->
  lead_loop buffer fuel m = Ret (true, set_value_offset m (zlen pre + zlen bl)).
Proof.
  induction bl as [|b bl IH]; intros pre fuel m E Hbl Hc Ho Hlen Hf; destruct fuel as [|fuel]; try (simpl in Hf; lia); simpl; rewrite Ho.
  - change (zlen (@nil Z)) with 0 in *. replace (buffer_length m <=? zlen pre) with false by lia.
    rewrite (rd_buffer_at buffer pre c post E). simpl. rewrite Hc, Z.add_0_r, <-Ho. by destruct m.
  - rewrite Forall_cons in Hbl. destruct Hbl as [Hb Hbl]. rewrite zlen_cons in Hlen |- *. pose proof (zlen_nonneg bl).
    replace (buffer_length m <=? zlen pre) with false by lia.
    rewrite (rd_buffer_at buffer pre b (bl ++ c :: post) E). simpl. rewrite Hb.
    assert (L : zlen (pre ++ [b]) = zlen pre + 1) by (rewrite zlen_app; done).
    rewrite (IH (pre ++ [b])); simpl; [|by rewrite <-(assoc_L (++))|done|done|by rewrite L|rewrite L; lia|simpl in Hf; lia].
    unfold set_value_offset. simpl. do 3 f_equal. rewrite L. lia.
Qed.

(** A header field: its name, the blanks after the colon, and its value. *)
Record field := mk_field { f_name : list Z; f_lead : list Z; f_value : list Z }.

Definition field_ok (f : field) : Prop :=
  f_name f <> [] /\ Forall name_char (f_name f) /\ Forall (fun c => is_blank c = true) (f_lead f) /\
  continued (f_value f) /\ forall c s, f_value f = c :: s -> is_blank c = false.

Definition field_text (f : field) : list Z := f_name f ++ COLON :: f_lead f ++ f_value f ++ [CR; LF].

Lemma field_text_length f : zlen (field_text f) = zlen (f_name f) + zlen (f_lead f) + zlen (f_value f) + 3.
Proof. unfold field_text. rewrite !zlen_app, zlen_cons, !zlen_app. change (zlen [CR; LF]) with 2. lia. Qed.

(** The message after the field [f] at offset [o] was parsed. *)
Definition parsed_field (m : SXE_HTTP_MESSAGE) (o : Z) (f : field) : SXE_HTTP_MESSAGE :=
  mk_message (buffer_length m) o SXE_HTTP_LINE_PARSED (zlen (f_name f)) (o + zlen (f_name f) + 1 + zlen (f_lead f))
    (zlen (rtrim (f_value f))) (o + zlen (field_text f)) (ignore_line m) 0.

(** The name and the value. *)
Lemma name_run buffer pre f c post m :
  buffer = pre ++ field_text f ++ c :: post -> field_ok f -> is_blank c = false -> zlen buffer < 4294967296 ->
  consumed m = zlen pre -> name_length m = 0 -> value_offset m = 0 -> value_length m = 0 ->
  zlen pre + zlen (field_text f) + 1 <= buffer_length m ->
  element_length m = SXE_HTTP_LINE_PARSED -> ignore_length m = 0 ->
  parse_name buffer m = Ret (SXE_RETURN_OK, parsed_field m (zlen pre) f).
Proof.
  intros E (Hne & Hname & Hlead & Hval & Hfirst) Hc Hbig Hcon Hn Hvo Hvl Hlen He Hi. unfold parse_name.
  pose proof (field_text_length f) as Lf. pose proof (zlen_nonneg pre). pose proof (zlen_nonneg (f_name f)).
  pose proof (zlen_nonneg (f_lead f)). pose proof (zlen_nonneg (f_value f)). pose proof (zlen_nonneg post).
  assert (Hz : zlen buffer = zlen pre + zlen (field_text f) + 1 + zlen post) by (rewrite E, !zlen_app, zlen_cons; lia).
  assert (E1 : buffer = pre ++ f_name f ++ COLON :: f_lead f ++ f_value f ++ CR :: LF :: c :: post).
  { rewrite E. unfold field_text. by rewrite <-!(assoc_L (++)), <-!app_comm_cons, <-!(assoc_L (++)). }
  rewrite Hvo, Hn, Hcon. simpl (0 =? 0). cbv iota.
  assert (R0 : exists d, rd_buffer buffer (zlen pre) = Ret d /\ (d =? COLON) = false).
  { destruct (f_name f) as [|d n]; [done|]. rewrite Forall_cons in Hname. destruct Hname as [[_ Hd] _].
    exists d. split; [by apply (rd_buffer_at buffer pre d _ E1)|lia]. }
  destruct R0 as (d & -> & Hd). cbn [mbind outcome_bind mret outcome_ret]. rewrite Hd.
  rewrite Z.add_0_r, u32_small by (unfold is_u32; lia).
  rewrite (scan_found _ _ _ _ _ pre (f_name f) COLON (f_lead f ++ f_value f ++ CR :: LF :: c :: post)); [|done| |lia|done].
  2:{ eapply Forall_impl; [exact Hname|]. intros x [Hg Hx]. unfold passes, never. rewrite Hg. lia. }
  cbn [mbind outcome_bind]. rewrite !u32_small by (unfold is_u32; lia).
  unfold parse_value. simpl value_length. rewrite Hvl. simpl (0 =? 0). cbv iota.
  set (p1 := pre ++ f_name f ++ [COLON]). assert (L1 : zlen p1 = zlen pre + zlen (f_name f) + 1).
  { unfold p1. rewrite !zlen_app. change (zlen [COLON]) with 1. lia. }
  assert (Hnext : exists x t, f_value f ++ CR :: LF :: c :: post = x :: t /\ is_blank x = false).
  { destruct (f_value f) as [|x t]; [by exists CR, (LF :: c :: post)|]. exists x, (t ++ CR :: LF :: c :: post). split; [done|]. by eapply Hfirst. }
  destruct Hnext as (x & t & Ex & Hx). rewrite Ex in E1.
  rewrite (lead_run buffer (f_lead f) x t p1); [|by unfold p1; rewrite E1, <-!(assoc_L (++))|done|done|simpl; lia|simpl; lia|].
  2:{ unfold steps. rewrite E1, !length_app. simpl. rewrite length_app. lia. }
  cbn [mbind outcome_bind]. rewrite <-Ex in E1. rewrite <-zlen_app.
  rewrite (value_run buffer (f_value f) Hval (p1 ++ f_lead f) [] c post).
  - unfold parsed_field. simpl. unfold set_value_length, set_next_field. simpl. rewrite zlen_app.
    change (zlen (@nil Z)) with 0. destruct m; simpl in *. rewrite (zlen_app p1), Lf, He, Hi. do 2 f_equal. f_equal; lia.
  - simpl. unfold p1. rewrite E1. by rewrite <-!(assoc_L (++)).
  - done.
  - done.
  - simpl; rewrite ?zlen_app; lia.
  - simpl. by rewrite Hvl.
  - simpl. change (zlen (@nil Z)) with 0. rewrite zlen_app. lia.
  - unfold steps. rewrite E1, !length_app. simpl. rewrite !length_app. lia.
Qed.

Section Headers.
Context `{Build}.

(** The message stands before a header: the line before it has been parsed. *)
Record before_header (m : SXE_HTTP_MESSAGE) (buffer pre : list Z) : Prop := {
  bh_next : next_field m = zlen pre;
  bh_pos : 2 <= zlen pre;
  bh_ignore : ignore_line m = 0;
  bh_parsed : element_length m = SXE_HTTP_LINE_PARSED \/ exists p, pre = p ++ [CR; LF];
  bh_big : zlen buffer < 4294967296;
  bh_length : buffer_length m <= zlen buffer
}.

Lemma line_ends_crlf buffer p post : buffer = (p ++ [CR; LF]) ++ post -> line_ends_before buffer (zlen (p ++ [CR; LF])) = Ret true.
Proof.
  intros E. unfold line_ends_before. rewrite zlen_app. change (zlen [CR; LF]) with 2. pose proof (zlen_nonneg p).
  replace (2 <=? zlen p + 2) with true by lia. replace (zlen p + 2 - 2) with (zlen p) by lia.
  rewrite (rd_buffer_at buffer p CR (LF :: post)) by (by rewrite E, <-(assoc_L (++))). simpl.
  replace (zlen p + 2 - 1) with (zlen (p ++ [CR])) by (rewrite zlen_app; change (zlen [CR]) with 1; lia).
  by rewrite (rd_buffer_at buffer (p ++ [CR]) LF post) by (by rewrite E, <-!(assoc_L (++))).
Qed.

(** The guard on the line before, in both builds. *)
Lemma header_guard m buffer pre post :
  before_header m buffer pre -> buffer = pre ++ post ->
  (if negb (element_length m =? SXE_HTTP_LINE_PARSED) then
     assert6 (2 <=? next_field m);;
     (if debug then ends ← line_ends_before buffer (next_field m); assert1 ends else mret tt);;
     mret (set_element_length m SXE_HTTP_LINE_PARSED)
   else mret m) = Ret (set_element_length m SXE_HTTP_LINE_PARSED).
Proof.
  intros [Hn Hp _ Hl _ _] E. destruct (Z.eqb_spec (element_length m) SXE_HTTP_LINE_PARSED) as [He|Hne]; simpl negb; cbv iota.
  { unfold mret, outcome_ret, set_element_length. rewrite <-He. by destruct m. }
  destruct Hl as [|[p ->]]; [done|]. unfold assert6. rewrite Hn.
  replace (2 <=? zlen (p ++ [CR; LF])) with true by lia. rewrite (line_ends_crlf buffer p post E).
  by destruct debug.
Qed.

Lemma header_run m buffer pre f c post :
  before_header m buffer pre -> buffer = pre ++ field_text f ++ c :: post -> field_ok f -> is_blank c = false ->
  zlen pre + zlen (field_text f) + 1 <= buffer_length m ->
  sxe_http_message_parse_next_header buffer m = Ret (SXE_RETURN_OK, parsed_field m (zlen pre) f).
Proof.
  intros B E Hf Hc Hlen. unfold sxe_http_message_parse_next_header.
  rewrite (header_guard m buffer pre _ B E). cbn [mbind outcome_bind]. destruct B as [Hn Hp Hi Hl Hbig Hle].
  pose proof (field_text_length f). pose proof (zlen_nonneg (f_name f)). pose proof (zlen_nonneg (f_lead f)). pose proof (zlen_nonneg (f_value f)).
  simpl next_field. simpl ignore_line. rewrite Hn, Hi. replace (zlen pre =? 0) with false by lia. simpl negb. cbv iota.
  simpl buffer_length. simpl consumed. rewrite u32_small by (unfold is_u32; lia).
  replace (buffer_length m - zlen pre <? 2) with false by lia.
  pose proof Hf as (Hne & Hname & _). destruct (f_name f) as [|x n] eqn:En; [done|]. rewrite Forall_cons in Hname. destruct Hname as [[Hg _] _].
  assert (R : rd_buffer buffer (zlen pre) = Ret x).
  { apply (rd_buffer_at buffer pre x (n ++ COLON :: f_lead f ++ f_value f ++ [CR; LF] ++ c :: post)). rewrite E. unfold field_text. rewrite En.
    simpl. by rewrite <-!(assoc_L (++)), <-!app_comm_cons, <-!(assoc_L (++)). }
  rewrite R. cbn [mbind outcome_bind]. assert (Hcr : (x =? CR) = false).
  { unfold isgraph in Hg. unfold CR. lia. }
  rewrite Hcr. cbn [mbind outcome_bind mret outcome_ret].
  rewrite (name_run buffer pre f c post); simpl; try done.
Qed.

Lemma headers_end m buffer pre post :
  before_header m buffer pre -> buffer = pre ++ CR :: LF :: post -> zlen pre + 2 <= buffer_length m ->
  exists m', sxe_http_message_parse_next_header buffer m = Ret (SXE_RETURN_END_OF_FILE, m') /\ consumed m' = zlen pre + 2 /\ next_field m' = 0.
Proof.
  intros B E Hlen. unfold sxe_http_message_parse_next_header.
  rewrite (header_guard m buffer pre _ B E). cbn [mbind outcome_bind]. destruct B as [Hn Hp Hi Hl Hbig Hle].
  simpl next_field. rewrite Hn. replace (zlen pre =? 0) with false by lia. simpl negb. cbv iota.
  simpl buffer_length. simpl consumed. rewrite u32_small by (unfold is_u32; lia).
  replace (buffer_length m - zlen pre <? 2) with false by lia.
  rewrite (rd_buffer_at buffer pre CR (LF :: post) E). cbn [mbind outcome_bind].
  simpl (CR =? CR). cbv iota.
  replace (zlen pre + 1) with (zlen (pre ++ [CR])) by (rewrite zlen_app; done).
  rewrite (rd_buffer_at buffer (pre ++ [CR]) LF post) by (by rewrite E, <-(assoc_L (++))). simpl.
  eexists. split; [done|]. simpl. rewrite u32_small by (unfold is_u32; lia). split; [lia|done].
Qed.
End Headers.

(** ** All the headers of a message *)

(** A client that collects the headers of a complete message. *)
Fixpoint read_headers `{Build} (buffer : list Z) (fuel : nat) (m : SXE_HTTP_MESSAGE)
  : outcome (list (list Z * list Z) * SXE_RETURN * SXE_HTTP_MESSAGE) :=
  match fuel with
  | O => Fault
  | S fuel =>
      '(result, m) ← sxe_http_message_parse_next_header buffer m;
      if bool_decide (result = SXE_RETURN_OK) then
        name ← sxe_http_message_get_header_name m;
        name ← load (slice buffer name (sxe_http_message_get_header_name_length m));
        value ← load (slice buffer (sxe_http_message_get_header_value m) (sxe_http_message_get_header_value_length m));
        '(l, result, m) ← read_headers buffer fuel m;
        mret ((name, value) :: l, result, m)
      else mret ([], result, m)
  end.

Definition headers_text (fs : list field) : list Z := concat (field_text <$> fs).

(** The name and the value that the accessors give. *)
Lemma parsed_accessors m buffer pre f c post :
  buffer = pre ++ field_text f ++ c :: post -> field_ok f ->
  let m' := parsed_field m (zlen pre) f in
  sxe_http_message_get_header_name m' = Ret (zlen pre) /\
  slice buffer (zlen pre) (sxe_http_message_get_header_name_length m') = Some (f_name f) /\
  slice buffer (sxe_http_message_get_header_value m') (sxe_http_message_get_header_value_length m') = Some (rtrim (f_value f)).
Proof.
  intros -> (Hne & _) m'. unfold field_text. split_and!.
  - unfold sxe_http_message_get_header_name. simpl. destruct (f_name f) as [|x n]; [done|].
    rewrite zlen_cons. pose proof (zlen_nonneg n). by replace (0 <? 1 + zlen n) with true by lia.
  - simpl. rewrite <-(assoc_L (++)). apply slice_mid.
  - simpl. destruct (rtrim_prefix (f_value f)) as [t E].
    set (v := rtrim (f_value f)) in *. clearbody v. rewrite E.
    replace (zlen pre + zlen (f_name f) + 1 + zlen (f_lead f)) with (zlen (pre ++ f_name f ++ COLON :: f_lead f))
      by (rewrite !zlen_app, zlen_cons; lia).
    pose proof (slice_mid (pre ++ f_name f ++ COLON :: f_lead f) v (t ++ [CR; LF] ++ c :: post)) as S.
    rewrite <-S. f_equal. by rewrite <-!(assoc_L (++)), <-!app_comm_cons, <-!(assoc_L (++)).
Qed.

(** What follows a field is not a blank: the next name, or the end of the headers. *)
Lemma headers_next fs post : Forall field_ok fs -> exists c s, headers_text fs ++ CR :: post = c :: s /\ is_blank c = false.
Proof.
  intros Hfs. destruct Hfs as [|f fs (Hne & Hname & _) _]; [by exists CR, post|]. unfold headers_text. simpl.
  unfold field_text at 1. destruct (f_name f) as [|x n]; [done|]. rewrite Forall_cons in Hname. destruct Hname as [[Hg _] _].
  simpl. eexists x, _. split; [done|]. unfold isgraph in Hg. unfold is_blank, SPACE, TAB. lia.
Qed.

Lemma read_headers_run `{Build} fs buffer body : Forall field_ok fs -> forall m pre fuel,
  before_header m buffer pre -> buffer = pre ++ headers_text fs ++ CR :: LF :: body ->
  zlen pre + zlen (headers_text fs) + 2 <= buffer_length m -> (length fs < fuel)%nat ->
  exists m', read_headers buffer fuel m = Ret ((fun f => (f_name f, rtrim (f_value f))) <$> fs, SXE_RETURN_END_OF_FILE, m') /\
    consumed m' = zlen pre + zlen (headers_text fs) + 2.
Proof.
  induction 1 as [|f fs Hf Hfs IH]; intros m pre fuel B E Hlen Hfu; destruct fuel as [|fuel]; try (simpl in Hfu; lia).
  - destruct (headers_end m buffer pre body B E) as (m' & R & Hc & _).
    { change (zlen (headers_text [])) with 0 in Hlen. lia. }
    exists m'. cbn [read_headers]. rewrite R. split; [done|]. change (zlen (headers_text [])) with 0. lia.
  - destruct (headers_next fs (LF :: body) Hfs) as (c & s & Es & Hc).
    assert (Ht : headers_text (f :: fs) = field_text f ++ headers_text fs) by done.
    assert (E1 : buffer = pre ++ field_text f ++ c :: s) by (by rewrite E, Ht, <-Es, <-!(assoc_L (++))).
    rewrite Ht, zlen_app in Hlen |- *. pose proof (zlen_nonneg (headers_text fs)).
    pose proof (header_run m buffer pre f c s B E1 Hf Hc ltac:(lia)) as R.
    destruct (parsed_accessors m buffer pre f c s E1 Hf) as (A1 & A2 & A3).
    set (m1 := parsed_field m (zlen pre) f) in *.
    assert (B1 : before_header m1 buffer (pre ++ field_text f)).
    { destruct B as [Hn Hp Hi Hl Hbig Hle]. pose proof (zlen_nonneg (field_text f)).
      split; simpl; try done; rewrite ?zlen_app; lia. }
    destruct (IH m1 (pre ++ field_text f) fuel B1) as (m' & R' & Hc').
    { by rewrite E, Ht, <-!(assoc_L (++)). }
    { rewrite zlen_app. simpl. lia. }
    { simpl in Hfu. lia. }
    exists m'. cbn [read_headers]. rewrite R. cbn [mbind outcome_bind]. simpl (bool_decide _). cbv iota.
    rewrite A1. cbn [mbind outcome_bind load]. rewrite A2. cbn [mbind outcome_bind load]. rewrite A3. cbn [mbind outcome_bind load].
    rewrite R'. split; [done|]. rewrite zlen_app in Hc'. lia.
Qed.

(** C30: print and parse. On a message whose headers are the fields [fs] as text (folded
    lines included), the parser returns exactly the fields in order, each value without
    the blanks around it, then END_OF_FILE with the message consumed up to its body. *)
Theorem headers_roundtrip `{Build} fs buffer m pre body :
  Forall field_ok fs -> before_header m buffer pre -> buffer = pre ++ headers_text fs ++ CR :: LF :: body ->
  zlen pre + zlen (headers_text fs) + 2 <= buffer_length m ->
  exists m', read_headers buffer (S (length fs)) m =
      Ret ((fun f => (f_name f, rtrim (f_value f))) <$> fs, SXE_RETURN_END_OF_FILE, m') /\
    consumed m' = zlen pre + zlen (headers_text fs) + 2.
Proof. intros Hfs B E Hlen. apply (read_headers_run fs buffer body Hfs m pre); [done|done|done|lia]. Qed.

(** ** Termination and bounds on any buffer *)

(** The message describes data inside the buffer, and one byte can be read after them. *)
Record in_buffer (buffer : list Z) (m : SXE_HTTP_MESSAGE) : Prop := {
  inb_length : 0 <= buffer_length m < zlen buffer;
  inb_big : zlen buffer < 4294967290;
  inb_consumed : 0 <= consumed m;
  inb_name : 0 <= name_length m /\ consumed m + name_length m <= buffer_length m;
  inb_value : 0 <= value_offset m /\ 0 <= value_length m /\ value_offset m + value_length m <= buffer_length m;
  inb_order : value_offset m = 0 -> value_length m = 0;
  inb_next : 0 <= next_field m <= buffer_length m
}.

Section Total.
Variable buffer : list Z.

Lemma trim_total fuel : forall m, in_buffer buffer m -> 0 < value_offset m -> value_length m < Z.of_nat fuel ->
  exists k, 0 <= k <= value_length m /\ trim_loop buffer fuel m = Ret (set_value_length m k).
Proof using.
  induction fuel as [|fuel IH]; intros m I Hpos Hf; [destruct I; lia|]. simpl.
  pose proof (inb_value _ _ I) as (V1 & V2 & V3). pose proof (inb_length _ _ I). pose proof (inb_big _ _ I).
  destruct (Z.ltb_spec 0 (value_length m)).
  - rewrite u32_small by (unfold is_u32; lia).
    destruct (rd_buffer_ok buffer (value_offset m + value_length m - 1) ltac:(lia)) as (c & -> & _). simpl.
    destruct (isspace c).
    + destruct (IH (set_value_length m (value_length m - 1))) as (k & Hk & R); [destruct I; split; simpl; try done; lia|done|simpl; lia|].
      exists k. split; [simpl in Hk; lia|]. by rewrite R.
    + exists (value_length m). split; [lia|]. by destruct m.
  - exists (value_length m). split; [lia|]. by destruct m.
Qed.

(** The parts of the message that the value's loops leave alone. *)
Definition same_name (m m' : SXE_HTTP_MESSAGE) : Prop :=
  buffer_length m' = buffer_length m /\ consumed m' = consumed m /\ element_length m' = element_length m /\
  name_length m' = name_length m /\ value_offset m' = value_offset m /\
  ignore_line m' = ignore_line m /\ ignore_length m' = ignore_length m.

Lemma value_total fuel : forall m, in_buffer buffer m -> 0 < value_offset m -> buffer_length m - (value_offset m + value_length m) < Z.of_nat fuel ->
  exists rc m', value_loop buffer fuel m = Ret (rc, m') /\ in_buffer buffer m' /\ same_name m m' /\
    (rc = SXE_RETURN_WARN_WOULD_BLOCK -> value_length m <= value_length m' /\ next_field m' = next_field m).
Proof using.
  induction fuel as [|fuel IH]; intros m I Hpos Hf; [destruct I; lia|]. cbn [value_loop].
  pose proof (inb_value _ _ I) as (V1 & V2 & V3). pose proof (inb_length _ _ I). pose proof (inb_big _ _ I).
  rewrite u32_small by (unfold is_u32; lia).
  destruct (scan_total buffer (buffer_length m) (fun c => c =? CR) (fun c => c =? LF) never ltac:(lia) (steps buffer)
    (value_offset m + value_length m) ltac:(lia)) as (r & -> & Hr).
  { unfold steps, zlen in *. lia. }
  cbn [mbind outcome_bind].
  assert (Hset : forall k n, 0 <= k -> value_offset m + k <= buffer_length m -> 0 <= n <= buffer_length m ->
    in_buffer buffer (set_next_field (set_value_length m k) n)).
  { intros. destruct I; split; simpl; try done; lia. }
  assert (Hset' : forall k, 0 <= k -> value_offset m + k <= buffer_length m -> in_buffer buffer (set_value_length m k)).
  { intros. destruct I; split; simpl; try done; lia. }
  destruct r as [i|i|i]; simpl in Hr.
  - destruct Hr as [Hi _]. rewrite !(u32_small (i - _)) by (unfold is_u32; lia). simpl buffer_length.
    rewrite (u32_small (i + 2)) by (unfold is_u32; lia).
    destruct (Z.leb_spec (buffer_length m) (i + 2)).
    { eexists _, _. split; [done|]. split; [apply Hset'; lia|]. split; [done|simpl; intros _; split; [lia|done]]. }
    rewrite (u32_small (i + 1)) by (unfold is_u32; lia).
    destruct (rd_buffer_ok buffer (i + 1) ltac:(lia)) as (c1 & -> & _). cbn [mbind outcome_bind].
    destruct (negb (c1 =? LF)).
    { eexists _, _. split; [done|]. split; [apply Hset'; lia|]. by split. }
    replace (i + 1 + 1) with (i + 2) by lia. rewrite (u32_small (i + 2)) by (unfold is_u32; lia).
    destruct (rd_buffer_ok buffer (i + 2) ltac:(lia)) as (c2 & -> & _). cbn [mbind outcome_bind].
    simpl value_offset. rewrite !set_value_length_twice.
    rewrite !u32_small by (unfold is_u32; lia). destruct (negb (is_blank c2)).
    + destruct (trim_total (steps buffer) (set_next_field (set_value_length m (i + 2 - 2 - value_offset m)) (i + 2))) as (k & Hk & ->).
      { apply Hset; lia. }
      { done. }
      { unfold steps, zlen in *. simpl. lia. }
      eexists _, _. split; [done|]. simpl in Hk. split; [|by split].
      change (in_buffer buffer (set_next_field (set_value_length m k) (i + 2))). apply Hset; lia.
    + destruct (IH (set_value_length m (i + 2 - value_offset m))) as (rc & m' & R & I' & S & Hle); [apply Hset'; lia|done|simpl; lia|].
      exists rc, m'. split; [done|]. split; [done|]. split; [done|]. simpl in S. intros Hrc. specialize (Hle Hrc). simpl in Hle. split; [lia|tauto].
  - eexists _, _. split; [done|]. split; [done|]. by split.
  - destruct Hr as [-> _]. rewrite u32_small by (unfold is_u32; lia).
    eexists _, _. split; [done|]. split; [apply Hset'; lia|]. split; [done|simpl; intros _; split; [lia|done]].
Qed.

Lemma lead_total fuel : forall m, in_buffer buffer m -> value_length m = 0 -> buffer_length m - value_offset m < Z.of_nat fuel ->
  exists v, value_offset m <= v <= buffer_length m /\
    (forall j, value_offset m <= j < v -> exists c, rd buffer j = Some c /\ is_blank c = true) /\
    ((v = buffer_length m /\ lead_loop buffer fuel m = Ret (false, set_value_offset m v)) \/
     (v < buffer_length m /\ lead_loop buffer fuel m = Ret (true, set_value_offset m v) /\
      exists c, rd buffer v = Some c /\ is_blank c = false)).
Proof using.
  induction fuel as [|fuel IH]; intros m I Hk Hf; [destruct I; lia|]. simpl.
  pose proof (inb_value _ _ I) as (V1 & V2 & V3). pose proof (inb_length _ _ I).
  destruct (Z.leb_spec (buffer_length m) (value_offset m)).
  { exists (value_offset m). split; [lia|]. split; [intros; lia|]. left. split; [lia|]. by destruct m. }
  destruct (rd_buffer_ok buffer (value_offset m) ltac:(lia)) as (c & -> & Ec). simpl. destruct (is_blank c) eqn:Eb; simpl.
  - destruct (IH (set_value_offset m (value_offset m + 1))) as (v & Hv & Hall & R); [destruct I; split; simpl; try done; lia|done|simpl; lia|].
    simpl in Hv, Hall. exists v. split; [lia|]. split.
    + intros j Hj. destruct (Z.eq_dec j (value_offset m)) as [->|]; [by exists c|apply Hall; lia].
    + destruct R as [[Ev R]|(Ev & R & Hc)]; [left|right]; by repeat split.
  - exists (value_offset m). split; [lia|]. split; [intros; lia|]. right. split; [lia|]. split; [by destruct m|by exists c].
Qed.

Lemma lead_fuel k : forall fuel m r, lead_loop buffer fuel m = Ret r -> lead_loop buffer (fuel + k) m = Ret r.
Proof using.
  induction fuel as [|fuel IH]; intros m r; simpl; [done|]. destruct (_ <=? _); [done|].
  destruct (rd_buffer _ _) as [c| |]; simpl; try done. destruct (negb _); [done|]. apply IH.
Qed.

(** Leading blanks can be skipped in steps. *)
Lemma lead_resume m x : in_buffer buffer m -> value_length m = 0 -> value_offset m <= x <= buffer_length m ->
  (forall j, value_offset m <= j < x -> exists c, rd buffer j = Some c /\ is_blank c = true) ->
  lead_loop buffer (S (length buffer)) m = lead_loop buffer (S (length buffer)) (set_value_offset m x).
Proof using.
  intros I Hk Hx Hall. pose proof (inb_value _ _ I). pose proof (inb_length _ _ I).
  assert (G : forall n fuel m, 0 <= value_offset m -> value_offset m + Z.of_nat n = x -> x <= buffer_length m ->
    (forall j, value_offset m <= j < x -> exists c, rd buffer j = Some c /\ is_blank c = true) ->
    lead_loop buffer (n + fuel) m = lead_loop buffer fuel (set_value_offset m x)).
  { clear m I Hk Hx Hall H H0. induction n as [|n IH]; intros fuel m H0 En Hl Hall; simpl.
    - f_equal. destruct m; simpl in *. rewrite Z.add_0_r in En. by subst.
    - replace (buffer_length m <=? value_offset m) with false by lia.
      destruct (Hall (value_offset m) ltac:(lia)) as (c & Ec & Hb). unfold rd_buffer at 1. rewrite Ec. simpl. rewrite Hb. simpl.
      rewrite IH; simpl; [done|lia|lia|done|]. intros j Hj. apply Hall. lia. }
  assert (I' : in_buffer buffer (set_value_offset m x)) by (destruct I; split; simpl; try done; lia).
  set (n := Z.to_nat (x - value_offset m)).
  destruct (lead_total (S (length buffer) - n) _ I' Hk) as (v & _ & _ & Hv); [unfold n, zlen in *; simpl; lia|].
  assert (Hr : exists r, lead_loop buffer (S (length buffer) - n) (set_value_offset m x) = Ret r).
  { destruct Hv as [[_ R]|(_ & R & _)]; by eexists. }
  destruct Hr as [r R]. pose proof (lead_fuel n _ _ _ R) as R2.
  replace (S (length buffer) - n + n)%nat with (S (length buffer)) in R2 by (unfold n, zlen in *; lia).
  rewrite R2. rewrite <-R. rewrite <-(G n (S (length buffer) - n)%nat m); [|lia|unfold n; lia|lia|done].
  f_equal. unfold n, zlen in *. lia.
Qed.

Lemma steps_enough m : in_buffer buffer m -> buffer_length m < Z.of_nat (steps buffer).
Proof using. intros []. unfold steps, zlen in *. lia. Qed.

Lemma parse_value_total m : in_buffer buffer m -> 0 < value_offset m ->
  exists rc m', parse_value buffer m = Ret (rc, m') /\ in_buffer buffer m'.
Proof using.
  intros I Hpos. unfold parse_value. pose proof (inb_value _ _ I) as (V1 & V2 & V3). pose proof (steps_enough m I).
  destruct (Z.eqb_spec (value_length m) 0) as [E|E].
  - destruct (lead_total (steps buffer) m I E ltac:(lia)) as (v & Hv & _ & [[Ev ->]|(Ev & -> & _)]); simpl.
    + eexists _, _. split; [done|]. destruct I; split; simpl; try done; lia.
    + assert (I1 : in_buffer buffer (set_value_offset m v)) by (destruct I; split; simpl; try done; lia).
      destruct (value_total (steps buffer) _ I1) as (rc & m' & R & I' & _); [simpl; lia|simpl; lia|]. by exists rc, m'.
  - destruct (value_total (steps buffer) _ I Hpos ltac:(lia)) as (rc & m' & R & I' & _). by exists rc, m'.
Qed.

(** The byte after the data does not look like the end of a name. *)
Lemma parse_name_total m e : in_buffer buffer m -> rd buffer (buffer_length m) = Some e -> e <> COLON ->
  exists rc m', parse_name buffer m = Ret (rc, m') /\ in_buffer buffer m'.
Proof using.
  intros I He Hne. unfold parse_name. pose proof (inb_name _ _ I). pose proof (inb_consumed _ _ I). pose proof (inb_length _ _ I).
  pose proof (inb_big _ _ I). pose proof (inb_value _ _ I). pose proof (steps_enough m I).
  destruct (Z.eqb_spec (value_offset m) 0) as [Ev|Ev]; [|apply parse_value_total; [done|lia]].
  assert (Hc : exists b : bool, (if name_length m =? 0 then c ← rd_buffer buffer (consumed m); mret (c =? COLON) else mret false) = Ret b).
  { destruct (name_length m =? 0); [|by eexists].
    destruct (rd_buffer_ok buffer (consumed m) ltac:(lia)) as (c & -> & _). by eexists. }
  destruct Hc as [b ->]. cbn [mbind outcome_bind]. destruct b; [by eexists _, _|].
  rewrite u32_small by (unfold is_u32; lia).
  destruct (scan_total buffer (buffer_length m) (fun c => c =? COLON) never (fun c => negb (isgraph c)) ltac:(lia) (steps buffer)
    (consumed m + name_length m) ltac:(lia) ltac:(lia)) as (r & -> & Hr). cbn [mbind outcome_bind].
  pose proof (inb_order _ _ I Ev) as Hk.
  destruct r as [i|i|i]; simpl in Hr.
  - destruct Hr as [Hi [(c & Ec & Hcol) _]]. assert (i <> buffer_length m) by (intros ->; rewrite He in Ec; injection Ec as ->; lia).
    rewrite !u32_small by (unfold is_u32; lia). apply parse_value_total; [|simpl; lia].
    destruct I; split; simpl; try done; lia.
  - by eexists _, _.
  - destruct Hr as [-> _]. rewrite u32_small by (unfold is_u32; lia). eexists _, _. split; [done|].
    destruct I; split; simpl; try done; lia.
Qed.

(** A request for more data changes only the offsets of the name and the value. *)
Definition only_offsets (m m' : SXE_HTTP_MESSAGE) : Prop :=
  buffer_length m' = buffer_length m /\ element_length m' = element_length m /\ next_field m' = next_field m /\
  ignore_line m' = ignore_line m /\ ignore_length m' = ignore_length m.

Lemma value_blocked m m1 : in_buffer buffer m -> 0 < value_offset m ->
  parse_value buffer m = Ret (SXE_RETURN_WARN_WOULD_BLOCK, m1) -> only_offsets m m1.
Proof using.
  intros I Hpos E. unfold parse_value in E. pose proof (inb_value _ _ I). pose proof (steps_enough m I).
  assert (G : forall m0, in_buffer buffer m0 -> 0 < value_offset m0 ->
    value_loop buffer (steps buffer) m0 = Ret (SXE_RETURN_WARN_WOULD_BLOCK, m1) -> only_offsets m0 m1).
  { intros m0 I0 Hpos0 E0. destruct (value_total (steps buffer) m0 I0 Hpos0) as (rc & m' & R & _ & (S1 & _ & S3 & _ & _ & S6 & S7) & Hb).
    { pose proof (steps_enough m0 I0). pose proof (inb_value _ _ I0). lia. }
    rewrite E0 in R. injection R as <- <-. specialize (Hb eq_refl) as [_ Hn]. done. }
  destruct (Z.eqb_spec (value_length m) 0) as [E0|E0]; [|by apply G].
  destruct (lead_total (steps buffer) m I E0 ltac:(lia)) as (v & Hv & _ & [[Ev R]|(Ev & R & _)]); rewrite R in E; cbn [mbind outcome_bind] in E; cbv iota in E.
  - by injection E as <-.
  - apply (G (set_value_offset m v)) in E; [done| |simpl; lia]. destruct I; split; simpl; try done; lia.
Qed.

Lemma parse_name_blocked m m1 e : in_buffer buffer m -> rd buffer (buffer_length m) = Some e -> e <> COLON ->
  parse_name buffer m = Ret (SXE_RETURN_WARN_WOULD_BLOCK, m1) -> only_offsets m m1.
Proof using.
  intros I He Hne E. unfold parse_name in E. pose proof (inb_name _ _ I). pose proof (inb_consumed _ _ I). pose proof (inb_length _ _ I).
  pose proof (inb_big _ _ I). pose proof (inb_value _ _ I). pose proof (steps_enough m I).
  destruct (Z.eqb_spec (value_offset m) 0) as [Ev|Ev]; [|apply (value_blocked m m1); [done|lia|done]].
  match type of E with (?x ≫= _) = _ => destruct x as [[]| |] end; cbn [mbind outcome_bind] in E; try done.
  rewrite u32_small in E by (unfold is_u32; lia).
  destruct (scan_total buffer (buffer_length m) (fun c => c =? COLON) never (fun c => negb (isgraph c)) ltac:(lia) (steps buffer)
    (consumed m + name_length m) ltac:(lia) ltac:(lia)) as (r & R & Hr). rewrite R in E. cbn [mbind outcome_bind] in E.
  destruct r as [i|i|i]; simpl in Hr; [|done|by injection E as <-].
  destruct Hr as [Hi [(c & Ec & Hcol) _]]. assert (i <> buffer_length m) by (intros ->; rewrite He in Ec; injection Ec as ->; lia).
  rewrite !u32_small in E by (unfold is_u32; lia). pose proof (inb_order _ _ I Ev).
  apply (value_blocked (set_value_offset (set_name_length m (i - consumed m)) (i + 1)) m1) in E; [done| |simpl; lia].
  destruct I; split; simpl; try done; lia.
Qed.

(** C37: on any contents of the data, in a buffer of less than 2^32 - 6 bytes that has a byte behind the data which is not a colon (the parser looks at that byte, and takes a colon there for the end of
    a name), with the line before parsed and no line being ignored, the header parser
    returns (no loop runs on, no read leaves the buffer, whose last byte read may be that one behind the data), and the message it leaves
    still describes data inside the buffer. *)
Theorem parse_next_header_total `{Build} m e :
  in_buffer buffer m -> element_length m = SXE_HTTP_LINE_PARSED -> ignore_line m = 0 ->
  rd buffer (buffer_length m) = Some e -> e <> COLON ->
  exists rc m', sxe_http_message_parse_next_header buffer m = Ret (rc, m') /\ in_buffer buffer m'.
Proof using.
  intros I Hp Hi He Hne. unfold sxe_http_message_parse_next_header. rewrite Hp. simpl negb. cbv iota. cbn [mbind outcome_bind mret outcome_ret].
  simpl next_field. simpl ignore_line. rewrite Hi. simpl negb. cbv iota.
  pose proof (inb_next _ _ I). pose proof (inb_length _ _ I). pose proof (inb_big _ _ I).
  destruct (Z.eqb_spec (next_field m) 0) as [En|En]; simpl negb; cbv iota.
  - apply (parse_name_total _ e); [destruct I; by split|done..].
  - set (m1 := set_next_field _ 0). assert (I1 : in_buffer buffer m1) by (destruct I; split; simpl; try done; lia).
    change (buffer_length m1) with (buffer_length m). change (consumed m1) with (next_field m).
    rewrite u32_small by (unfold is_u32; lia). destruct (Z.ltb_spec (buffer_length m - next_field m) 2).
    { eexists _, _. by split. }
    destruct (rd_buffer_ok buffer (next_field m) ltac:(lia)) as (c0 & -> & _). cbn [mbind outcome_bind].
    assert (Hc : exists b : bool, (if c0 =? CR then c1 ← rd_buffer buffer (next_field m + 1); mret (c1 =? LF) else mret false) = Ret b).
    { destruct (c0 =? CR); [|by eexists]. destruct (rd_buffer_ok buffer (next_field m + 1) ltac:(lia)) as (c1 & -> & _). by eexists. }
    destruct Hc as [b ->]. cbn [mbind outcome_bind]. destruct b.
    + eexists _, _. split; [done|]. rewrite u32_small by (unfold is_u32; lia). destruct I; split; simpl; try done; lia.
    + by apply (parse_name_total _ e).
Qed.
End Total.

(** ** Fragments *)

(** More fuel does not change the value's loops. *)
Lemma value_fuel b k : forall fuel m r, value_loop b fuel m = Ret r -> value_loop b (fuel + k) m = Ret r.
Proof.
  induction fuel as [|fuel IH]; intros m r; simpl plus; [done|]. cbn [value_loop].
  destruct (scan_for _ _ _ _ _ _ _) as [[i|i|i]| |]; cbn [mbind outcome_bind]; try done.
  destruct (_ <=? _); [done|]. destruct (rd_buffer _ _) as [c| |]; cbn [mbind outcome_bind]; try done.
  destruct (negb _); [done|]. destruct (rd_buffer _ _) as [c2| |]; cbn [mbind outcome_bind]; try done.
  destruct (negb _); [done|]. apply IH.
Qed.

Lemma value_fuel_le b f1 f2 m r : value_loop b f1 m = Ret r -> (f1 <= f2)%nat -> value_loop b f2 m = Ret r.
Proof. intros R Hf. replace f2 with (f1 + (f2 - f1))%nat by lia. by apply value_fuel. Qed.

(** The same result: on an error, only the code counts. *)
Definition agree (r1 r2 : outcome (SXE_RETURN * SXE_HTTP_MESSAGE)) : Prop :=
  r1 = r2 \/ exists m1 m2, r1 = Ret (SXE_RETURN_ERROR_BAD_MESSAGE, m1) /\ r2 = Ret (SXE_RETURN_ERROR_BAD_MESSAGE, m2).

Section Fragments.
Variables (b1 b2 : list Z) (l1 l2 e1 e2 : Z).
Hypothesis H12 : l1 <= l2.
Hypothesis Hl1 : 0 <= l1 < zlen b1.
Hypothesis Hl2 : l2 < zlen b2.
Hypothesis Hbig : zlen b2 < 4294967290.
Hypothesis Hbig1 : zlen b1 < 4294967290.
Hypothesis Hsame : forall i, 0 <= i < l1 -> rd b1 i = rd b2 i.
Hypothesis He1 : rd b1 l1 = Some e1.
Hypothesis Hn1 : e1 <> COLON /\ e1 <> CR /\ e1 <> LF.
Hypothesis He2 : rd b2 l2 = Some e2.
Hypothesis Hn2 : e2 <> COLON.

Lemma rd_buffer_same i : 0 <= i < l1 -> rd_buffer b1 i = rd_buffer b2 i.
Proof using Hsame. intros Hi. unfold rd_buffer. by rewrite Hsame. Qed.

Lemma in_buffer_later m : in_buffer b1 m -> buffer_length m = l1 -> in_buffer b2 (set_buffer_length m l2).
Proof using H12 Hl2 Hbig Hl1. intros [] E. split; simpl; try done; lia. Qed.

(** The characters that passed before still pass. *)
Lemma passed_later stop bad_first bad_last o x : 0 <= o -> x <= l1 ->
  (forall j c, o <= j < x -> rd b1 j = Some c -> passes stop bad_first bad_last c) ->
  forall j, o <= j < x -> exists c, rd b2 j = Some c /\ passes stop bad_first bad_last c.
Proof using Hsame Hl1.
  intros Ho Hx Hall j Hj. destruct (rd_lt b1 j ltac:(lia)) as [c Ec]. exists c.
  rewrite <-Hsame by lia. split; [done|]. by apply (Hall j).
Qed.

Lemma value_loop_resume f2 m m1 : value_offset m1 = value_offset m -> same_name m m1 ->
  next_field m1 = next_field m -> in_buffer b1 m -> buffer_length m = l1 ->
  value_length m <= value_length m1 -> value_offset m1 + value_length m1 <= l1 ->
  (forall j c, value_offset m + value_length m <= j < value_offset m + value_length m1 -> rd b1 j = Some c ->
     passes (fun c => c =? CR) (fun c => c =? LF) never c) ->
  agree (value_loop b2 (S f2) (set_buffer_length m l2)) (value_loop b2 (S f2) (set_buffer_length m1 l2)).
Proof using H12 Hl2 Hsame Hl1 Hbig Hbig1.
  intros Hv (S1 & S2 & S3 & S4 & S5 & S6 & S7) Hn I Hl Hk Hk1 Hall. cbn [value_loop].
  destruct (inb_value _ _ I) as (V1 & V2 & V3).
  simpl buffer_length. simpl value_offset. simpl value_length. rewrite !u32_small by (unfold is_u32; lia).
  rewrite (scan_resume b2 l2 _ _ _ (value_offset m + value_length m) (value_offset m1 + value_length m1));
    [|lia|lia|lia|].
  2:{ rewrite Hv. apply passed_later; [lia|lia|done]. }
  assert (Es : forall k, set_value_length (set_buffer_length m1 l2) k = set_value_length (set_buffer_length m l2) k).
  { intros k. unfold set_value_length, set_buffer_length. simpl. congruence. }
  rewrite Hv. destruct (scan_for _ _ _ _ _ _ _) as [[i|i|i]| |]; cbn [mbind outcome_bind]; try by left.
  - rewrite Es. by left.
  - right. by eexists _, _.
  - rewrite Es. by left.
Qed.

(** A value that was cut off, and then continued. *)
Lemma value_resume f1 : forall m m1, in_buffer b1 m -> 0 < value_offset m -> buffer_length m = l1 ->
  value_loop b1 f1 m = Ret (SXE_RETURN_WARN_WOULD_BLOCK, m1) ->
  forall f2 R, value_loop b2 f2 (set_buffer_length m1 l2) = Ret R ->
  exists f3, agree (value_loop b2 f3 (set_buffer_length m l2)) (Ret R).
Proof using All.
  induction f1 as [|f1 IH]; intros m m1 I Hpos Hl E1 f2 R E2; [done|]. cbn [value_loop] in E1.
  destruct f2 as [|f2]; [done|].
  destruct (inb_value _ _ I) as (V1 & V2 & V3). rewrite u32_small in E1 by (unfold is_u32; lia).
  destruct (scan_total b1 l1 (fun c => c =? CR) (fun c => c =? LF) never ltac:(lia) (steps b1)
    (value_offset m + value_length m) ltac:(lia)) as (r & Er & Hr); [unfold steps, zlen in *; lia|].
  rewrite Hl, Er in E1. cbn [mbind outcome_bind] in E1. destruct r as [i|i|i]; simpl in Hr; [|done|].
  - destruct Hr as (Hi & (c & Ec & Hc) & Hall).
    assert (i <> l1) by (intros ->; rewrite He1 in Ec; injection Ec as ->; lia).
    rewrite (u32_small (i + 2)) in E1 by (unfold is_u32; lia). rewrite !(u32_small (i - _)) in E1 by (unfold is_u32; lia).
    simpl buffer_length in E1. rewrite Hl in E1. destruct (Z.leb_spec l1 (i + 2)).
    + injection E1 as <-. exists (S f2). rewrite <-E2.
      apply value_loop_resume; simpl; try done; try lia. intros j d Hj. apply Hall. lia.
    + rewrite (u32_small (i + 1)) in E1 by (unfold is_u32; lia).
      replace (i + 1 + 1) with (i + 2) in E1 by lia. rewrite (u32_small (i + 2)) in E1 by (unfold is_u32; lia).
      rewrite !rd_buffer_same in E1 by lia.
      destruct (rd_buffer_ok b2 (i + 1) ltac:(lia)) as (c1 & R1 & _). destruct (rd_buffer_ok b2 (i + 2) ltac:(lia)) as (c2 & R2 & _).
      rewrite R1 in E1. cbn [mbind outcome_bind] in E1. destruct (negb (c1 =? LF)) eqn:Ec1; [done|].
      rewrite R2 in E1. cbn [mbind outcome_bind] in E1. destruct (negb (is_blank c2)) eqn:Ec2.
      { by destruct (trim_loop _ _ _). }
      rewrite set_value_length_twice in E1. simpl value_offset in E1. rewrite u32_small in E1 by (unfold is_u32; lia).
      destruct (IH (set_value_length m (i + 2 - value_offset m)) m1) with (f2 := S f2) (R := R) as [f3 A]; try done.
      { destruct I; split; simpl; try done; lia. }
      exists (S f3). cbn [value_loop]. simpl buffer_length. simpl value_offset. simpl value_length.
      rewrite u32_small by (unfold is_u32; lia).
      rewrite (scan_resume b2 l2 _ _ _ (value_offset m + value_length m) i); [|lia|lia|lia|apply passed_later; [lia|lia|done]].
      rewrite Hsame in Ec by lia. unfold steps. cbn [scan_for]. assert (Rc : rd_buffer b2 i = Ret c) by (unfold rd_buffer; by rewrite Ec). rewrite Rc. cbn [load mbind outcome_bind]. rewrite Hc.
      cbn [mbind outcome_bind]. rewrite (u32_small (i + 2)), (u32_small (i + 1)) by (unfold is_u32; lia).
      simpl buffer_length. replace (l2 <=? i + 2) with false by lia. rewrite R1. cbn [mbind outcome_bind]. rewrite Ec1.
      replace (i + 1 + 1) with (i + 2) by lia. rewrite (u32_small (i + 2)) by (unfold is_u32; lia).
      rewrite R2. cbn [mbind outcome_bind]. rewrite Ec2, set_value_length_twice. simpl value_offset.
      rewrite u32_small by (unfold is_u32; lia). exact A.
  - destruct Hr as [-> Hall]. rewrite u32_small in E1 by (unfold is_u32; lia). injection E1 as <-. exists (S f2). rewrite <-E2.
    apply value_loop_resume; simpl; try done; try lia. intros j d Hj. apply Hall. lia.
Qed.

(** With the fuel that the parser gives. *)
Lemma value_resume_steps m m1 : in_buffer b1 m -> 0 < value_offset m -> buffer_length m = l1 ->
  value_loop b1 (steps b1) m = Ret (SXE_RETURN_WARN_WOULD_BLOCK, m1) ->
  agree (value_loop b2 (steps b2) (set_buffer_length m l2)) (value_loop b2 (steps b2) (set_buffer_length m1 l2)) /\
  in_buffer b1 m1 /\ same_name m m1 /\ value_length m <= value_length m1.
Proof using All.
  intros I Hpos Hl E. pose proof (inb_value _ _ I).
  destruct (value_total b1 (steps b1) m I Hpos) as (rc & m' & R & I' & S & Hle); [pose proof (steps_enough b1 m I); lia|].
  rewrite E in R. injection R as <- <-. specialize (Hle eq_refl) as [Hle _]. split; [|done].
  pose proof (in_buffer_later m I Hl) as J. pose proof S as (S1 & _ & _ & _ & S5 & _).
  pose proof (in_buffer_later m1 I' ltac:(lia)) as J1. pose proof (inb_value _ _ I').
  destruct (value_total b2 (steps b2) _ J Hpos) as (rc & m' & R & _); [pose proof (steps_enough b2 _ J); simpl in *; lia|].
  destruct (value_total b2 (steps b2) _ J1) as (rc1 & m1' & R1 & _); [simpl; lia|pose proof (steps_enough b2 _ J1); simpl in *; lia|].
  destruct (value_resume (steps b1) m m1 I Hpos Hl E (steps b2) _ R1) as [f3 A].
  rewrite R, R1. destruct A as [A|(x & y & A & B)].
  - left. pose proof (value_fuel_le b2 _ (Nat.max f3 (steps b2)) _ _ A ltac:(lia)) as F1.
    pose proof (value_fuel_le b2 _ (Nat.max f3 (steps b2)) _ _ R ltac:(lia)) as F2. congruence.
  - right. pose proof (value_fuel_le b2 _ (Nat.max f3 (steps b2)) _ _ A ltac:(lia)) as F1.
    pose proof (value_fuel_le b2 _ (Nat.max f3 (steps b2)) _ _ R ltac:(lia)) as F2.
    assert (Ef : (rc, m') = (SXE_RETURN_ERROR_BAD_MESSAGE, x)) by congruence. injection Ef as -> ->. injection B as -> ->. by eexists _, _.
Qed.

Lemma value_part_resume m m1 : in_buffer b1 m -> 0 < value_offset m -> buffer_length m = l1 ->
  parse_value b1 m = Ret (SXE_RETURN_WARN_WOULD_BLOCK, m1) ->
  agree (parse_value b2 (set_buffer_length m l2)) (parse_value b2 (set_buffer_length m1 l2)) /\ 0 < value_offset m1.
Proof using All.
  intros I Hpos Hl E. unfold parse_value in E. pose proof (inb_value _ _ I). pose proof (in_buffer_later m I Hl) as J.
  destruct (Z.eqb_spec (value_length m) 0) as [E0|E0].
  - destruct (lead_total b1 (steps b1) m I E0) as (v & Hv & Hall & R); [pose proof (steps_enough b1 m I); lia|].
    assert (Hall2 : forall j, value_offset m <= j < v -> exists c, rd b2 j = Some c /\ is_blank c = true).
    { intros j Hj. rewrite <-Hsame by lia. by apply Hall. }
    assert (L : forall b, (b = parse_value b2 (set_buffer_length m l2)) ->
      b = parse_value b2 (set_value_offset (set_buffer_length m l2) v)).
    { intros b ->. unfold parse_value. simpl value_length. rewrite E0. simpl (0 =? 0). cbv iota. unfold steps.
      rewrite (lead_resume b2 _ v J); [done|done|simpl; lia|done]. }
    rewrite (L _ eq_refl). clear L.
    destruct R as [[Ev R]|(Ev & R & c & Ec & Hc)]; rewrite R in E; cbn [mbind outcome_bind] in E; cbv iota in E.
    + injection E as <-. split; [by left|simpl; lia].
    + set (mv := set_value_offset m v) in *. assert (Iv : in_buffer b1 mv) by (destruct I; split; simpl; try done; lia).
      destruct (value_resume_steps mv m1 Iv ltac:(simpl; lia) Hl E) as (A & I1 & S & Hle).
      destruct S as (S1 & _ & _ & _ & S5 & _). split; [|rewrite S5; simpl; lia].
      assert (P : forall mm, v < buffer_length mm -> value_offset mm = v -> parse_value b2 mm = value_loop b2 (steps b2) mm).
      { intros mm Hb Hm. unfold parse_value. destruct (Z.eqb_spec (value_length mm) 0); [|done].
        assert (Ld : lead_loop b2 (steps b2) mm = Ret (true, mm)); [|by rewrite Ld].
        unfold steps. cbn [lead_loop]. rewrite Hm. replace (buffer_length mm <=? v) with false by lia.
        unfold rd_buffer. rewrite <-Hsame, Ec by lia. cbn [load mbind outcome_bind]. by rewrite Hc. }
      rewrite (P (set_value_offset _ _)), (P (set_buffer_length m1 l2)) by (simpl in *; lia). exact A.
  - destruct (value_resume_steps m m1 I Hpos Hl E) as (A & I1 & S & Hle).
    destruct S as (S1 & _ & _ & _ & S5 & _). split; [|rewrite S5; simpl; lia].
    unfold parse_value. simpl value_length. replace (value_length m =? 0) with false by lia.
    by replace (value_length m1 =? 0) with false by lia.
Qed.

(** The header parser in the middle of a header, or at its start. *)
Lemma parse_name_resume m m1 : in_buffer b1 m -> buffer_length m = l1 ->
  parse_name b1 m = Ret (SXE_RETURN_WARN_WOULD_BLOCK, m1) ->
  agree (parse_name b2 (set_buffer_length m l2)) (parse_name b2 (set_buffer_length m1 l2)).
Proof using All.
  intros I Hl E. unfold parse_name in E. pose proof (inb_name _ _ I). pose proof (inb_consumed _ _ I).
  pose proof (inb_value _ _ I). destruct (Z.eqb_spec (value_offset m) 0) as [E0|E0].
  2:{ destruct (value_part_resume m m1 I ltac:(lia) Hl E) as [A Hp]. unfold parse_name. simpl value_offset.
      replace (value_offset m =? 0) with false by lia. by replace (value_offset m1 =? 0) with false by lia. }
  set (colon b (mm : SXE_HTTP_MESSAGE) := if name_length mm =? 0 then c ← rd_buffer b (consumed mm); mret (c =? COLON) else mret false : outcome bool).
  change (if name_length m =? 0 then c ← rd_buffer b1 (consumed m); mret (c =? COLON) else mret false) with (colon b1 m) in E.
  destruct (colon b1 m) as [[]| |] eqn:Ecol; cbn [mbind outcome_bind] in E; try done.
  rewrite u32_small in E by (unfold is_u32; lia).
  destruct (scan_total b1 l1 (fun c => c =? COLON) never (fun c => negb (isgraph c)) ltac:(lia) (steps b1)
    (consumed m + name_length m) ltac:(lia)) as (r & Er & Hr); [unfold steps, zlen in *; lia|].
  rewrite Hl, Er in E. cbn [mbind outcome_bind] in E.
  assert (Ecol2 : consumed m < l1 \/ 0 < name_length m -> colon b2 (set_buffer_length m l2) = Ret false).
  { intros Hc. unfold colon in *. simpl. destruct (Z.eqb_spec (name_length m) 0); [|done]. rewrite <-rd_buffer_same by lia. done. }
  destruct r as [i|i|i]; simpl in Hr; [|done|].
  - destruct Hr as (Hi & (c & Ec & Hc) & Hall).
    assert (i <> l1) by (intros ->; rewrite He1 in Ec; injection Ec as ->; lia).
    rewrite !u32_small in E by (unfold is_u32; lia).
    set (mv := set_value_offset (set_name_length m (i - consumed m)) (i + 1)) in *.
    assert (Iv : in_buffer b1 mv) by (destruct I; split; simpl; try done; lia).
    destruct (value_part_resume mv m1 Iv ltac:(simpl; lia) Hl E) as [A Hp].
    assert (R1 : parse_name b2 (set_buffer_length m1 l2) = parse_value b2 (set_buffer_length m1 l2)).
    { unfold parse_name. simpl value_offset. by replace (value_offset m1 =? 0) with false by lia. }
    rewrite R1. unfold parse_name. simpl value_offset. rewrite E0. simpl (0 =? 0). cbv iota.
    change (if name_length (set_buffer_length m l2) =? 0 then c ← rd_buffer b2 (consumed (set_buffer_length m l2)); mret (c =? COLON) else mret false)
      with (colon b2 (set_buffer_length m l2)).
    rewrite Ecol2 by lia. cbn [mbind outcome_bind]. simpl buffer_length. simpl consumed. simpl name_length.
    rewrite u32_small by (unfold is_u32; lia).
    rewrite (scan_resume b2 l2 _ _ _ (consumed m + name_length m) i); [|lia|lia|lia|apply passed_later; [lia|lia|done]].
    assert (Sc : scan_for b2 (steps b2) l2 (fun c => c =? COLON) never (fun c => negb (isgraph c)) i = Ret (Scan_found i)).
    { unfold steps. cbn [scan_for]. unfold rd_buffer. rewrite <-Hsame, Ec by lia. cbn [load mbind outcome_bind]. by rewrite Hc. }
    rewrite Sc. cbn [mbind outcome_bind]. rewrite !u32_small by (unfold is_u32; lia). exact A.
  - destruct Hr as [-> Hall]. rewrite u32_small in E by (unfold is_u32; lia). injection E as <-.
    destruct (Z.eq_dec (consumed m + name_length m) l1) as [Eo|Eo].
    { left. replace (set_name_length m (l1 - consumed m)) with m; [done|].
      replace (l1 - consumed m) with (name_length m) by lia. by destruct m. }
    unfold parse_name. simpl value_offset. rewrite E0. simpl (0 =? 0). cbv iota.
    change (if name_length (set_buffer_length m l2) =? 0 then c ← rd_buffer b2 (consumed (set_buffer_length m l2)); mret (c =? COLON) else mret false)
      with (colon b2 (set_buffer_length m l2)).
    rewrite Ecol2 by lia. cbn [mbind outcome_bind]. simpl buffer_length. simpl consumed. simpl name_length.
    replace (l1 - consumed m =? 0) with false by lia. cbn [mbind outcome_bind mret outcome_ret]. cbv iota.
    rewrite !u32_small by (unfold is_u32; lia). replace (consumed m + (l1 - consumed m)) with l1 by lia.
    rewrite (scan_resume b2 l2 _ _ _ (consumed m + name_length m) l1); [|lia|lia|lia|apply passed_later; [lia|lia|done]].
    clear Er. destruct (scan_for _ _ _ _ _ _ _) as [[i|i|i]| |]; cbn [mbind outcome_bind]; try by left.
    right. by eexists _, _.
Qed.
End Fragments.

(** C31: fragments do not change the result. When a header is cut off anywhere after its
    first two bytes and the parser asks for more data, then parsing on once the data
    have grown gives what parsing the grown data at once gives: the same field, the same
    request for more, or the same error. (The byte after the data must not look like a
    colon or a line end: the parser reads it before it tests the length.) *)
Theorem parse_next_header_resumes `{Build} b1 b2 m m1 l2 e1 e2 :
  in_buffer b1 m -> element_length m = SXE_HTTP_LINE_PARSED -> ignore_line m = 0 ->
  (next_field m <> 0 -> next_field m + 2 <= buffer_length m) ->
  buffer_length m <= l2 < zlen b2 -> zlen b2 < 4294967290 ->
  (forall i, 0 <= i < buffer_length m -> rd b1 i = rd b2 i) ->
  rd b1 (buffer_length m) = Some e1 -> e1 <> COLON /\ e1 <> CR /\ e1 <> LF ->
  rd b2 l2 = Some e2 -> e2 <> COLON ->
  sxe_http_message_parse_next_header b1 m = Ret (SXE_RETURN_WARN_WOULD_BLOCK, m1) ->
  agree (sxe_http_message_parse_next_header b2 (set_buffer_length m l2))
    (m ← sxe_http_message_increase_buffer_length m1 l2; sxe_http_message_parse_next_header b2 m).
Proof.
  intros I Hp Hi Hstart Hl2 Hbig2 Hsame He1 Hn1 He2 Hn2 E.
  pose proof (inb_next _ _ I). pose proof (inb_length _ _ I) as L1. pose proof (inb_big _ _ I) as Big1.
  assert (Hresume : forall m0, in_buffer b1 m0 -> buffer_length m0 = buffer_length m ->
    next_field m0 = 0 -> element_length m0 = SXE_HTTP_LINE_PARSED -> ignore_line m0 = 0 -> ignore_length m0 = 0 ->
    parse_name b1 m0 = Ret (SXE_RETURN_WARN_WOULD_BLOCK, m1) ->
    agree (parse_name b2 (set_buffer_length m0 l2))
      (m ← sxe_http_message_increase_buffer_length m1 l2; sxe_http_message_parse_next_header b2 m)).
  { intros m0 I0 E0 N0 P0 G0 J0 R0.
    destruct (parse_name_blocked b1 m0 m1 e1 I0 ltac:(by rewrite E0) ltac:(tauto) R0) as (S1 & S2 & S3 & S4 & S5).
    unfold sxe_http_message_increase_buffer_length. replace (buffer_length m1 <=? l2) with true by lia.
    cbn [assert1 mbind outcome_bind mret outcome_ret]. unfold sxe_http_message_parse_next_header. simpl element_length.
    rewrite S2, P0. simpl negb. cbv iota. cbn [mbind outcome_bind mret outcome_ret]. simpl next_field. simpl ignore_line.
    rewrite S3, N0, S4, G0. simpl negb. cbv iota.
    replace (set_ignore_length (set_buffer_length m1 l2) 0) with (set_buffer_length m1 l2)
      by (destruct m1; simpl in *; unfold set_buffer_length, set_ignore_length; simpl; congruence).
    apply (parse_name_resume b1 b2 (buffer_length m) l2 e1 e2); (done || lia). }
  unfold sxe_http_message_parse_next_header in E. unfold sxe_http_message_parse_next_header at 1. simpl element_length. rewrite Hp in E |- *. simpl negb in E |- *.
  cbv iota in E |- *. cbn [mbind outcome_bind mret outcome_ret] in E |- *. simpl next_field in E |- *. simpl ignore_line in E |- *.
  rewrite Hi in E |- *. simpl negb in E |- *. cbv iota in E |- *.
  destruct (Z.eqb_spec (next_field m) 0) as [En|En]; simpl negb in E |- *; cbv iota in E |- *.
  - apply (Hresume (set_ignore_length m 0)); try done. destruct I; by split.
  - simpl buffer_length in E |- *. simpl consumed in E |- *. rewrite u32_small in E |- * by (unfold is_u32; lia).
    replace (buffer_length m - next_field m <? 2) with false in E by lia.
    replace (l2 - next_field m <? 2) with false by lia.
    rewrite (rd_buffer_same b1 b2 (buffer_length m) Hsame (next_field m)), (rd_buffer_same b1 b2 (buffer_length m) Hsame (next_field m + 1)) in E by lia.
    destruct (rd_buffer_ok b2 (next_field m) ltac:(lia)) as (c0 & R0 & _). rewrite R0 in E |- *. cbn [mbind outcome_bind] in E |- *.
    match type of E with context [if c0 =? CR then ?x else ?y] => destruct (if c0 =? CR then x else y) as [[]| |] end; cbn [mbind outcome_bind] in E |- *; try done.
    match type of E with parse_name _ ?mm = _ => apply (Hresume mm); try done end. destruct I; split; simpl; try done; lia.
Qed.

(** ** Bad headers *)

Inductive bad_header : list Z -> Prop :=
| bad_no_name t : bad_header (COLON :: t)
| bad_name n c t : n <> [] -> Forall name_char n -> c <> COLON -> isgraph c = false -> bad_header (n ++ c :: t)
| bad_line_feed n bl v t : n <> [] -> Forall name_char n -> Forall (fun c => is_blank c = true) bl -> Forall text_char v ->
    (forall c s, v = c :: s -> is_blank c = false) -> bad_header (n ++ COLON :: bl ++ v ++ LF :: t)
| bad_return n bl v c t : n <> [] -> Forall name_char n -> Forall (fun c => is_blank c = true) bl -> Forall text_char v ->
    (forall c s, v = c :: s -> is_blank c = false) -> c <> LF -> bad_header (n ++ COLON :: bl ++ v ++ CR :: c :: t).

(** The parser at the first character of the value. *)
Lemma to_value buffer pre n bl x t m :
  buffer = pre ++ n ++ COLON :: bl ++ x :: t -> n <> [] -> Forall name_char n -> Forall (fun c => is_blank c = true) bl ->
  is_blank x = false -> zlen buffer < 4294967296 -> zlen pre + zlen n + 1 + zlen bl < buffer_length m ->
  consumed m = zlen pre -> name_length m = 0 -> value_offset m = 0 -> value_length m = 0 ->
  parse_name buffer m =
    value_loop buffer (steps buffer) (set_value_offset (set_name_length m (zlen n)) (zlen pre + zlen n + 1 + zlen bl)).
Proof.
  intros E Hne Hname Hbl Hx Hbig Hlen Hcon Hn Hvo Hvl. unfold parse_name. pose proof (zlen_nonneg pre). pose proof (zlen_nonneg n).
  pose proof (zlen_nonneg bl). pose proof (zlen_nonneg t).
  assert (Hz : zlen buffer = zlen pre + zlen n + 1 + zlen bl + 1 + zlen t) by (rewrite E, !zlen_app, zlen_cons, zlen_app, zlen_cons; lia).
  rewrite Hvo, Hn, Hcon. simpl (0 =? 0). cbv iota.
  assert (R0 : exists d, rd_buffer buffer (zlen pre) = Ret d /\ (d =? COLON) = false).
  { destruct n as [|d n]; [done|]. rewrite Forall_cons in Hname. destruct Hname as [[_ Hd] _].
    exists d. split; [by apply (rd_buffer_at buffer pre d _ E)|lia]. }
  destruct R0 as (d & -> & Hd). cbn [mbind outcome_bind mret outcome_ret]. rewrite Hd.
  rewrite Z.add_0_r, u32_small by (unfold is_u32; lia).
  rewrite (scan_found _ _ _ _ _ pre n COLON (bl ++ x :: t)); [|done| |lia|done].
  2:{ eapply Forall_impl; [exact Hname|]. intros y [Hg Hy]. unfold passes, never. rewrite Hg. lia. }
  cbn [mbind outcome_bind]. rewrite !u32_small by (unfold is_u32; lia).
  unfold parse_value. simpl value_length. rewrite Hvl. simpl (0 =? 0). cbv iota.
  set (p1 := pre ++ n ++ [COLON]). assert (L1 : zlen p1 = zlen pre + zlen n + 1).
  { unfold p1. rewrite !zlen_app. change (zlen [COLON]) with 1. lia. }
  rewrite (lead_run buffer bl x t p1); [|by unfold p1; rewrite E, <-!(assoc_L (++))|done|done|simpl; lia|simpl; lia|].
  2:{ unfold steps. rewrite E, !length_app. simpl. rewrite length_app. lia. }
  cbn [mbind outcome_bind]. cbv iota. rewrite L1. f_equal. unfold set_value_offset, set_name_length. simpl. f_equal. lia.
Qed.

Lemma bad_value buffer start v t m : buffer = start ++ v ++ t -> Forall text_char v -> zlen buffer < 4294967290 ->
  value_offset m = zlen start -> value_length m = 0 ->
  (exists s, t = LF :: s /\ zlen start + zlen v < buffer_length m) \/
  (exists c s, t = CR :: c :: s /\ c <> LF /\ zlen start + zlen v + 2 < buffer_length m) ->
  exists m', value_loop buffer (steps buffer) m = Ret (SXE_RETURN_ERROR_BAD_MESSAGE, m').
Proof.
  intros E Hv Hbig Ho Hk Ht. unfold steps at 1. cbn [value_loop]. rewrite Ho, Hk, Z.add_0_r.
  pose proof (zlen_nonneg start). pose proof (zlen_nonneg v). pose proof (zlen_nonneg t).
  assert (Hz : zlen buffer = zlen start + zlen v + zlen t) by (rewrite E, !zlen_app; lia).
  rewrite u32_small by (unfold is_u32; lia).
  assert (Hp : Forall (passes (fun c => c =? CR) (fun c => c =? LF) never) v).
  { eapply Forall_impl; [exact Hv|]. intros d [D1 D2]. unfold passes, never. lia. }
  destruct Ht as [(s & -> & Hl)|(c & s & -> & Hc & Hl)].
  - rewrite (scan_bad _ _ _ _ _ start v LF s); [|done|done|done|done|by left]. by eexists.
  - rewrite (scan_found _ _ _ _ _ start v CR (c :: s)); [|done|done|lia|done]. cbn [mbind outcome_bind].
    rewrite !zlen_cons in Hz. pose proof (zlen_nonneg s).
    rewrite (u32_small (zlen start + zlen v + 2)) by (unfold is_u32; lia). simpl buffer_length.
    replace (buffer_length m <=? zlen start + zlen v + 2) with false by lia.
    rewrite !(u32_small (zlen start + zlen v + 1)) by (unfold is_u32; lia).
    replace (zlen start + zlen v + 1) with (zlen (start ++ v ++ [CR])) by (rewrite !zlen_app; change (zlen [CR]) with 1; lia).
    rewrite (rd_buffer_at buffer _ c s) by (by rewrite E, <-!(assoc_L (++))). cbn [mbind outcome_bind].
    replace (c =? LF) with false by lia. by eexists.
Qed.

(** Header text that is not valid is reported as a bad message: no name, a character
    in the name that is not printable, a new line without a carriage return, or a
    carriage return without a new line in the value. *)
Theorem bad_header_error `{Build} m buffer pre s post :
  before_header m buffer pre -> zlen buffer < 4294967290 -> buffer = pre ++ s ++ post -> bad_header s ->
  zlen pre + zlen s + 1 <= buffer_length m -> 2 <= zlen s ->
  exists m', sxe_http_message_parse_next_header buffer m = Ret (SXE_RETURN_ERROR_BAD_MESSAGE, m').
Proof.
  intros B Hbig E Hs Hlen H2. unfold sxe_http_message_parse_next_header.
  rewrite (header_guard m buffer pre _ B E). cbn [mbind outcome_bind]. destruct B as [Hn Hp Hi Hl _ Hle].
  simpl next_field. simpl ignore_line. rewrite Hn, Hi. replace (zlen pre =? 0) with false by lia. simpl negb. cbv iota.
  simpl buffer_length. simpl consumed. rewrite u32_small by (unfold is_u32; lia).
  replace (buffer_length m - zlen pre <? 2) with false by lia.
  set (m1 := set_next_field _ 0).
  assert (Hfirst : exists x t, s = x :: t /\ (x =? CR) = false).
  { destruct Hs as [t|n c t Hne Hnm|n bl v t Hne Hnm|n bl v c t Hne Hnm]; [by exists COLON, t|..].
    all: destruct n as [|x n]; [done|]; rewrite Forall_cons in Hnm; destruct Hnm as [[Hg _] _].
    all: eexists x, _; split; [done|]; unfold isgraph in Hg; unfold CR; lia. }
  destruct Hfirst as (x & t0 & Es & Hx). assert (Rx : rd_buffer buffer (zlen pre) = Ret x).
  { apply (rd_buffer_at buffer pre x (t0 ++ post)). by rewrite E, Es. }
  rewrite Rx. cbn [mbind outcome_bind]. rewrite Hx. cbn [mbind outcome_bind mret outcome_ret].
  clear Hx. destruct Hs as [t|n c t Hne Hnm Hc Hg|n bl v t Hne Hnm Hbl Hv Hnb|n bl v c t Hne Hnm Hbl Hv Hnb Hc].
  - injection Es as <- <-. unfold parse_name, m1. simpl. rewrite Rx. simpl. by eexists.
  - unfold parse_name. change (value_offset m1) with 0. change (name_length m1) with 0. change (consumed m1) with (zlen pre).
    simpl (0 =? 0). cbv iota. rewrite Rx. cbn [mbind outcome_bind mret outcome_ret].
    assert (Hx : (x =? COLON) = false).
    { destruct n as [|y n]; [done|]. injection Es as -> _. rewrite Forall_cons in Hnm. destruct Hnm as [[_ Hy] _]. lia. }
    rewrite Hx, Z.add_0_r, u32_small by (unfold is_u32; pose proof (zlen_nonneg pre); lia).
    rewrite zlen_app, zlen_cons in Hlen. pose proof (zlen_nonneg t).
    rewrite (scan_bad _ _ _ _ _ pre n c (t ++ post)); [by eexists|by rewrite E, <-!(assoc_L (++))| |simpl; lia|lia|right; by rewrite Hg].
    eapply Forall_impl; [exact Hnm|]. intros y [Hy Hy2]. unfold passes, never. rewrite Hy. lia.
  - rewrite zlen_app, zlen_cons, !zlen_app, zlen_cons in Hlen. pose proof (zlen_nonneg t). pose proof (zlen_nonneg v).
    assert (Hnext : exists y u, v ++ LF :: t ++ post = y :: u /\ is_blank y = false).
    { destruct v as [|y v]; [by eexists _, _|]. eexists y, _. split; [done|]. by eapply Hnb. }
    destruct Hnext as (y & u & Ey & Hy).
    rewrite (to_value buffer pre n bl y u m1); try done; [|by rewrite E, <-Ey, <-!(assoc_L (++)), <-!app_comm_cons, <-!(assoc_L (++))|lia|simpl; lia].
    apply (bad_value buffer (pre ++ n ++ COLON :: bl) v (LF :: t ++ post)); try done.
    + by rewrite E, <-!(assoc_L (++)), <-!app_comm_cons, <-!(assoc_L (++)).
    + simpl. rewrite !zlen_app, zlen_cons. lia.
    + left. eexists. split; [done|]. simpl. rewrite !zlen_app, zlen_cons. lia.
  - rewrite zlen_app, zlen_cons, !zlen_app, !zlen_cons in Hlen. pose proof (zlen_nonneg t). pose proof (zlen_nonneg v).
    assert (Hnext : exists y u, v ++ CR :: c :: t ++ post = y :: u /\ is_blank y = false).
    { destruct v as [|y v]; [by eexists _, _|]. eexists y, _. split; [done|]. by eapply Hnb. }
    destruct Hnext as (y & u & Ey & Hy).
    rewrite (to_value buffer pre n bl y u m1); try done; [|by rewrite E, <-Ey, <-!(assoc_L (++)), <-!app_comm_cons, <-!(assoc_L (++))|lia|simpl; lia].
    apply (bad_value buffer (pre ++ n ++ COLON :: bl) v (CR :: c :: t ++ post)); try done.
    + by rewrite E, <-!(assoc_L (++)), <-!app_comm_cons, <-!(assoc_L (++)).
    + simpl. rewrite !zlen_app, zlen_cons. lia.
    + right. eexists c, _. split; [done|]. split; [done|]. simpl. rewrite !zlen_app, zlen_cons. lia.
Qed.

(** ** The request or response line *)

Definition token_char (c : Z) : Prop := c <> 0 /\ c <> CR /\ c <> LF /\ is_blank c = false.

(** The message stands before an element of the line: at the start of the buffer, or
    after the blank that ended the element before. *)
Record before_element (m : SXE_HTTP_MESSAGE) (buffer pre : list Z) : Prop := {
  be_next : next_field m = zlen pre;
  be_start : next_field m = 0 -> consumed m = 0;
  be_open : element_length m <> SXE_HTTP_LINE_PARSED;
  be_blank : forall p c, pre = p ++ [c] -> c <> LF;
  be_big : zlen buffer < 4294967290;
  be_length : buffer_length m <= zlen buffer
}.

Lemma skip_run buffer bl c post : forall pre len fuel,
  buffer = pre ++ bl ++ c :: post -> Forall (fun c => is_blank c = true) bl -> is_blank c = false ->
  zlen pre + zlen bl < len -> (length bl < fuel)%nat ->
  skip_loop buffer fuel len (zlen pre) = Ret (SXE_RETURN_OK, zlen pre + zlen bl).
Proof.
  induction bl as [|b bl IH]; intros pre len fuel E Hbl Hc Hlen Hf; destruct fuel as [|fuel]; try (simpl in Hf; lia); simpl.
  - change (zlen (@nil Z)) with 0 in *. replace (len <=? zlen pre) with false by lia.
    rewrite (rd_buffer_at buffer pre c post E). simpl. by rewrite Hc, Z.add_0_r.
  - rewrite Forall_cons in Hbl. destruct Hbl as [Hb Hbl]. rewrite zlen_cons in Hlen |- *. pose proof (zlen_nonneg bl).
    replace (len <=? zlen pre) with false by lia.
    rewrite (rd_buffer_at buffer pre b (bl ++ c :: post) E). simpl. rewrite Hb. simpl.
    assert (L : zlen (pre ++ [b]) = zlen pre + 1) by (rewrite zlen_app; done). rewrite <-L.
    rewrite (IH (pre ++ [b])); [|by rewrite <-(assoc_L (++))|done|done|lia|simpl in Hf; lia]. rewrite L. do 2 f_equal. lia.
Qed.

Lemma line_open buffer m pre post : before_element m buffer pre -> buffer = pre ++ post ->
  line_ends_before buffer (next_field m) = Ret false.
Proof.
  intros [Hn _ _ Hb _ _] E. unfold line_ends_before. rewrite Hn. destruct (Z.leb_spec 2 (zlen pre)) as [H2|]; [|done].
  destruct pre as [|c1 pre _] using rev_ind; [done|]. destruct pre as [|c2 pre _] using rev_ind; [done|].
  rewrite !zlen_app in *. change (zlen [c1]) with 1. change (zlen [c2]) with 1.
  replace (zlen pre + 1 + 1 - 2) with (zlen pre) by lia. replace (zlen pre + 1 + 1 - 1) with (zlen (pre ++ [c2])) by (rewrite zlen_app; change (zlen [c2]) with 1; lia).
  rewrite (rd_buffer_at buffer pre c2 ([c1] ++ post)) by (by rewrite E, <-!(assoc_L (++))). cbn [mbind outcome_bind].
  destruct (c2 =? CR); [|done]. rewrite (rd_buffer_at buffer (pre ++ [c2]) c1 post) by (by rewrite E, <-!(assoc_L (++))).
  simpl. specialize (Hb _ _ eq_refl). by replace (c1 =? LF) with false by lia.
Qed.

(** The end of a token: a blank, or the end of the line. *)
Inductive token_end : list Z -> Z -> Prop :=
| end_blank c t : is_blank c = true -> token_end (c :: t) 1
| end_line t : token_end (CR :: LF :: t) 2.

(** The next token of the line is found behind any blanks, with its exact extent, up
    to the blank or the line end that follows it, and the message moves past that. *)
Theorem parse_token_spec buffer m pre bl tok post k :
  before_element m buffer pre -> buffer = pre ++ bl ++ tok ++ post ->
  Forall (fun c => is_blank c = true) bl -> tok <> [] -> Forall token_char tok -> token_end post k ->
  zlen pre + zlen bl + zlen tok + k <= buffer_length m ->
  exists m', sxe_http_message_parse_next_line_element buffer m SXE_HTTP_LINE_ELEMENT_TYPE_TOKEN = Ret (SXE_RETURN_OK, m') /\
    sxe_http_message_get_line_element m' = Ret (zlen pre + zlen bl) /\
    slice buffer (zlen pre + zlen bl) (sxe_http_message_get_line_element_length m') = Some tok /\
    next_field m' = zlen pre + zlen bl + zlen tok + k /\ buffer_length m' = buffer_length m /\ ignore_line m' = ignore_line m.
Proof.
  intros B E Hbl Hne Htok Hk Hlen. unfold sxe_http_message_parse_next_line_element.
  pose proof (line_open buffer m pre _ B E) as Ho. destruct B as [Hn Hst Hop Hb Hbig Hle].
  pose proof (zlen_nonneg pre). pose proof (zlen_nonneg bl). pose proof (zlen_nonneg tok). pose proof (zlen_nonneg post).
  assert (Hz : zlen buffer = zlen pre + zlen bl + zlen tok + zlen post) by (rewrite E, !zlen_app; lia).
  replace (element_length m =? SXE_HTTP_LINE_PARSED) with false by lia. rewrite Ho. cbn [mbind outcome_bind].
  assert (Hreset : negb (next_field m =? 0) || (consumed m =? 0) = true).
  { destruct (Z.eqb_spec (next_field m) 0) as [E0|]; [|done]. by rewrite (Hst E0). }
  rewrite Hreset. simpl element_length. simpl (0 =? 0). cbv iota. simpl consumed. rewrite Hn.
  destruct tok as [|x tok]; [done|]. assert (Hx : token_char x) by (by inversion Htok).
  destruct Hx as (X0 & X1 & X2 & X3). rewrite zlen_cons in *. pose proof (zlen_nonneg tok).
  unfold sxe_http_message_skip_whitespace. simpl buffer_length.
  rewrite (skip_run buffer bl x (tok ++ post) pre); [|by rewrite E|done|done|destruct Hk; lia|].
  2:{ unfold steps. rewrite E, !length_app. lia. }
  cbn [mbind outcome_bind]. simpl (bool_decide _). simpl negb. cbv iota.
  unfold parse_element. simpl buffer_length. simpl consumed. rewrite u32_small by (unfold is_u32; destruct Hk; lia).
  replace (buffer_length m - (zlen pre + zlen bl) <? 2) with false by (destruct Hk; lia).
  set (p1 := pre ++ bl). rewrite <-!zlen_app. fold p1.
  assert (E1 : buffer = p1 ++ (x :: tok) ++ post) by (unfold p1; by rewrite E, <-!(assoc_L (++))).
  rewrite (rd_buffer_at buffer p1 x (tok ++ post)) by done. cbn [mbind outcome_bind].
  replace (x =? CR) with false by lia. cbn [mbind outcome_bind mret outcome_ret].
  assert (Hp : Forall (passes (terminator SXE_HTTP_LINE_ELEMENT_TYPE_TOKEN) (fun c => c =? LF) never) (x :: tok)).
  { eapply Forall_impl; [exact Htok|]. intros y (Y0 & Y1 & Y2 & Y3). unfold passes, terminator, never. rewrite Y3. simpl. lia. }
  assert (Lt : zlen (x :: tok) = 1 + zlen tok) by apply zlen_cons. assert (Lp : zlen p1 = zlen pre + zlen bl) by (unfold p1; apply zlen_app).
  assert (Hslice : slice buffer (zlen p1) (zlen (x :: tok)) = Some (x :: tok)) by (rewrite E1; apply slice_mid).
  destruct Hk as [c t Hc|t].
  - rewrite (scan_found _ _ _ _ _ p1 (x :: tok) c t); [|done|done|lia|].
    2:{ unfold terminator. simpl. rewrite Hc. by rewrite !orb_true_r. }
    cbn [mbind outcome_bind]. rewrite <-zlen_app. rewrite (rd_buffer_at buffer (p1 ++ x :: tok) c t) by (by rewrite E1, <-!(assoc_L (++))).
    cbn [mbind outcome_bind]. rewrite zlen_app, Lt. simpl (bool_decide _).
    replace (c =? CR) with false by (unfold is_blank, SPACE, TAB, CR in *; lia).
    eexists. split; [done|]. simpl. rewrite u32_small by (unfold is_u32; lia).
    rewrite u32_small by (unfold is_u32; rewrite zlen_cons in Hz; pose proof (zlen_nonneg t); lia).
    split_and!; [|by replace (zlen p1 + (1 + zlen tok) - zlen p1) with (zlen (x :: tok)) by lia|lia|done|done].
    unfold sxe_http_message_get_line_element. simpl.
    by replace (0 <? zlen p1 + (1 + zlen tok) - zlen p1) with true by lia.
  - rewrite (scan_found _ _ _ _ _ p1 (x :: tok) CR (LF :: t)); [|done|done|lia|done].
    cbn [mbind outcome_bind]. rewrite <-zlen_app. rewrite (rd_buffer_at buffer (p1 ++ x :: tok) CR (LF :: t)) by (by rewrite E1, <-!(assoc_L (++))).
    cbn [mbind outcome_bind]. rewrite zlen_app, Lt. simpl (CR =? CR). cbv iota. rewrite !zlen_cons in Hz. pose proof (zlen_nonneg t).
    rewrite !(u32_small (zlen p1 + (1 + zlen tok) + 1)) by (unfold is_u32; lia). simpl buffer_length.
    replace (buffer_length m <=? zlen p1 + (1 + zlen tok) + 1) with false by lia.
    replace (zlen p1 + (1 + zlen tok) + 1) with (zlen (p1 ++ (x :: tok) ++ [CR])) by (rewrite !zlen_app, Lt; change (zlen [CR]) with 1; lia).
    rewrite (rd_buffer_at buffer _ LF t) by (by rewrite E1, <-!(assoc_L (++))). cbn [mbind outcome_bind].
    simpl (negb (LF =? LF)). cbv iota. rewrite !zlen_app, Lt. change (zlen [CR]) with 1.
    eexists. split; [done|]. simpl. rewrite !u32_small by (unfold is_u32; lia).
    split_and!; [|by replace (zlen p1 + (1 + zlen tok) - zlen p1) with (zlen (x :: tok)) by lia|lia|done|done].
    unfold sxe_http_message_get_line_element. simpl.
    by replace (0 <? zlen p1 + (1 + zlen tok) - zlen p1) with true by lia.
Qed.

(** ** What modelling showed *)

Definition message0 : SXE_HTTP_MESSAGE := mk_message 0 0 0 0 0 0 0 0 0.

(** "GET /" received as "GE" and then "T /": the first token is found to be "T". *)
Lemma fragmented_token_loses_start :
  let buffer := [71; 69; 84; 32; 47; 0] in
  ('(r1, m) ← sxe_http_message_parse_next_line_element buffer (sxe_http_message_construct message0 2) SXE_HTTP_LINE_ELEMENT_TYPE_TOKEN;
   m ← sxe_http_message_increase_buffer_length m 5;
   '(r2, m) ← sxe_http_message_parse_next_line_element buffer m SXE_HTTP_LINE_ELEMENT_TYPE_TOKEN;
   start ← sxe_http_message_get_line_element m;
   tok ← load (slice buffer start (sxe_http_message_get_line_element_length m));
   mret (r1, r2, tok)) = Ret (SXE_RETURN_WARN_WOULD_BLOCK, SXE_RETURN_OK, [84]).
Proof. vm_compute. reflexivity. Qed.

(** The end of the headers received as a carriage return and then a new line is reported
    as a bad message. *)
Lemma fragmented_end_is_bad :
  let buffer := [CR; LF; CR; LF; 0] in
  ('(r1, m) ← sxe_http_message_parse_next_header (H := true) buffer (mk_message 3 0 SXE_HTTP_LINE_PARSED 0 0 0 2 0 0);
   m ← sxe_http_message_increase_buffer_length m 4;
   '(r2, _) ← sxe_http_message_parse_next_header (H := true) buffer m;
   mret (r1, r2)) = Ret (SXE_RETURN_WARN_WOULD_BLOCK, SXE_RETURN_ERROR_BAD_MESSAGE).
Proof. vm_compute. reflexivity. Qed.

(** Ignoring a line whose only byte received so far is the new line leaves a message of
    two bytes, of which 2^32 - 1 are to be ignored. *)
Lemma ignored_line_underflow :
  ('(_, m) ← sxe_http_message_parse_next_header (H := true) [LF; 0; 0; 0] (mk_message 1 0 SXE_HTTP_LINE_PARSED 0 0 0 0 1 0);
   mret (sxe_http_message_get_ignore_length m, sxe_http_message_get_buffer_length m)) = Ret (4294967295, 2).
Proof. vm_compute. reflexivity. Qed.

(** ** Witnesses *)

(** The headers "A: 1" and "B:x" over two lines, after an empty line. *)
Definition example_fields : list field :=
  [mk_field [65] [32] [49; 32]; mk_field [66] [] ([120] ++ CR :: LF :: 32 :: [121])].
Definition example_buffer : list Z := [CR; LF] ++ headers_text example_fields ++ CR :: LF :: [98; 0].
Definition example_message : SXE_HTTP_MESSAGE := mk_message 22 0 SXE_HTTP_LINE_PARSED 0 0 0 2 0 0.

Lemma example_fields_ok : Forall field_ok example_fields.
Proof.
  constructor; [|constructor; [|constructor]].
  - split; [done|]. split; [repeat constructor; done|]. split; [repeat constructor|]. split; [|by intros c s [= <- _]].
    constructor. repeat constructor; done.
  - split; [done|]. split; [repeat constructor; done|]. split; [constructor|]. split; [|by intros c s [= <- _]].
    apply (continued_fold [120] 32 [121]); [repeat constructor; done|done|]. constructor. repeat constructor; done.
Qed.

Lemma example_before : before_header example_message example_buffer [CR; LF].
Proof. split; try done. by left. Qed.

Lemma headers_roundtrip_witness : exists m',
  read_headers (H := true) example_buffer 3 example_message =
    Ret ([([65], [49]); ([66], [120; CR; LF; 32; 121])], SXE_RETURN_END_OF_FILE, m') /\ consumed m' = 20.
Proof.
  destruct (headers_roundtrip (H := true) example_fields example_buffer example_message [CR; LF] [98; 0]
    example_fields_ok example_before eq_refl) as (m' & R & C); [by vm_compute|].
  exists m'. split; [exact R|exact C].
Defined.

Lemma example_in_buffer len : 2 <= len < 22 -> in_buffer example_buffer (set_buffer_length example_message len).
Proof. intros Hl. assert (zlen example_buffer = 22) as L by reflexivity. split; simpl; try done; rewrite ?L; lia. Qed.

Lemma parse_next_header_total_witness : exists rc m',
  sxe_http_message_parse_next_header (H := true) example_buffer (set_buffer_length example_message 5) = Ret (rc, m').
Proof.
  destruct (parse_next_header_total example_buffer (H := true) (set_buffer_length example_message 5) 49
    (example_in_buffer 5 ltac:(lia)) eq_refl eq_refl eq_refl ltac:(done)) as (rc & m' & R & _). by exists rc, m'.
Defined.

Lemma parse_next_header_resumes_witness : exists m1,
  sxe_http_message_parse_next_header (H := true) example_buffer (set_buffer_length example_message 5) =
    Ret (SXE_RETURN_WARN_WOULD_BLOCK, m1) /\
  agree (sxe_http_message_parse_next_header (H := true) example_buffer (set_buffer_length (set_buffer_length example_message 5) 20))
    (m ← sxe_http_message_increase_buffer_length m1 20; sxe_http_message_parse_next_header (H := true) example_buffer m).
Proof.
  eexists. split; [reflexivity|].
  eapply (parse_next_header_resumes (H := true) example_buffer example_buffer (set_buffer_length example_message 5) _ 20 49 98).
  - apply example_in_buffer. lia.
  - reflexivity.
  - reflexivity.
  - simpl. lia.
  - vm_compute. split; congruence.
  - vm_compute. reflexivity.
  - done.
  - reflexivity.
  - split_and!; done.
  - reflexivity.
  - done.
  - reflexivity.
Defined.

Lemma bad_header_error_witness : exists m',
  sxe_http_message_parse_next_header (H := true) [CR; LF; COLON; 65; 0; 0] (mk_message 5 0 SXE_HTTP_LINE_PARSED 0 0 0 2 0 0) =
    Ret (SXE_RETURN_ERROR_BAD_MESSAGE, m').
Proof.
  refine (bad_header_error (H := true) _ [CR; LF; COLON; 65; 0; 0] [CR; LF] [COLON; 65] [0; 0] _ eq_refl eq_refl (bad_no_name [65]) _ _).
  - split; try done. by left.
  - by vm_compute.
  - by vm_compute.
Defined.

Lemma parse_token_spec_witness : exists m',
  sxe_http_message_parse_next_line_element [71; 69; 84; 32; 47] (sxe_http_message_construct message0 5)
    SXE_HTTP_LINE_ELEMENT_TYPE_TOKEN = Ret (SXE_RETURN_OK, m') /\
  slice [71; 69; 84; 32; 47] 0 (sxe_http_message_get_line_element_length m') = Some [71; 69; 84].
Proof.
  destruct (parse_token_spec [71; 69; 84; 32; 47] (sxe_http_message_construct message0 5) [] [] [71; 69; 84] [32; 47] 1)
    as (m' & R & _ & S & _).
  - split; try done. by intros [|] c.
  - reflexivity.
  - constructor.
  - done.
  - repeat constructor; done.
  - by constructor.
  - by vm_compute.
  - exists m'. split; [exact R|exact S].
Defined.
