(* ===== verification/CString.v ===== *)
(** * CString: the functions of the C library the string code uses

    Strings are byte memories: the bytes from a pointer to the end of its object. A
    function gives no value when it reads past that end. *)

From S2P Require Import Prelude.

(** strcmp: zero at a common NUL, or else the difference of the first bytes that differ
    (the C standard fixes its sign only, and the source uses nothing else). *)
Fixpoint strcmp (s t : list Z) : option Z :=
  match s, t with
  | a :: s, b :: t => if a =? b then (if a =? 0 then Some 0 else strcmp s t) else Some (a - b)
  | _, _ => None
  end.

(** strchr: is [c] one of the characters of [s], the terminating NUL included? *)
Definition strchr (s : list Z) (c : Z) : option bool :=
  (fun t => bool_decide (c ∈ t ++ [0])) <$> cstring s.

(** strcspn: the length of the part of [s] before its NUL or a character of [reject]. *)
Fixpoint strcspn (s reject : list Z) : option Z :=
  match s with
  | [] => None
  | c :: s => stop ← strchr reject c; if (stop : bool) then Some 0 else Z.succ <$> strcspn s reject
  end.

(** vsnprintf into [max] bytes, of a format that expands to [text]: the bytes it stores and
    its value. No text stands for an error, which gives a negative value. *)
Definition vsnprintf (max : Z) (text : option (list Z)) : list Z * Z :=
  match text with
  | Some t => (if max =? 0 then [] else take (Z.to_nat (max - 1)) t ++ [0], zlen t)
  | None => ([], -1)
  end.

(** strftime into [max] bytes, of a format that expands to [text]: the bytes it stores and
    its value. When the text does not fit, the value is 0 and what is stored ([junk], at most
    [max] bytes) is indeterminate. *)
Definition strftime (max : Z) (text junk : list Z) : list Z * Z :=
  if zlen text + 1 <=? max then (text ++ [0], zlen text) else (take (Z.to_nat max) junk, 0).

(** Does the string part of a text end before [c]: a NUL, or a character to reject? *)
Definition stops (reject : list Z) (c : Z) : Prop := c = 0 \/ c ∈ reject.

#[export] Instance stops_dec reject c : Decision (stops reject c).
Proof. unfold stops. apply _. Defined.

(** The characters before the first that stops. *)
Fixpoint span (reject t : list Z) : list Z :=
  match t with
  | [] => []
  | c :: t => if decide (stops reject c) then [] else c :: span reject t
  end.

(** The order of texts: -1, 0 or 1. *)
Fixpoint lex (t s : list Z) : Z :=
  match t, s with
  | [], [] => 0
  | [], _ :: _ => -1
  | _ :: _, [] => 1
  | a :: t, b :: s => if a =? b then lex t s else Z.sgn (a - b)
  end.

Section CStringLemmas.
Implicit Types (s t r : list Z).

Lemma text_no_nul t : Forall (Z.lt 0) t -> no_nul t.
Proof. intros H. eapply Forall_impl; [done|]. simpl. lia. Qed.

Lemma strchr_app r rest c : no_nul r -> strchr (r ++ 0 :: rest) c = Some (bool_decide (stops r c)).
Proof.
  intros Hr. unfold strchr. rewrite (cstring_app r rest Hr). simpl. f_equal. apply bool_decide_ext.
  rewrite elem_of_app, list_elem_of_singleton. unfold stops. tauto.
Qed.

Lemma strcspn_app r rest t rest' :
  no_nul r -> strcspn (t ++ 0 :: rest') (r ++ 0 :: rest) = Some (zlen (span r t)).
Proof.
  intros Hr. induction t as [|c t IH]; cbn [strcspn app]; rewrite (strchr_app r rest _ Hr); cbn [mbind option_bind span].
  - by rewrite bool_decide_true by (by left).
  - case_bool_decide; [by rewrite decide_True|]. rewrite decide_False, IH, zlen_cons by done. simpl. f_equal. lia.
Qed.

Lemma span_app_nul r t rest : span r (t ++ 0 :: rest) = span r t.
Proof. induction t as [|c t IH]; cbn [span app]; [by rewrite decide_True by (by left)|]. by rewrite IH. Qed.

(** strcmp orders strings as [lex] does. *)
Lemma strcmp_lex t u s s' :
  Forall (Z.lt 0) t -> Forall (Z.lt 0) s ->
  exists v, strcmp (t ++ 0 :: u) (s ++ 0 :: s') = Some v /\ Z.sgn v = lex t s.
Proof.
  intros Ht. revert s. induction Ht as [|b t Hb Ht IH]; intros [|c s] Hs; cbn [strcmp app lex].
  - by exists 0.
  - apply Forall_cons in Hs as [Hc _]. rewrite (proj2 (Z.eqb_neq 0 c)) by lia. eexists; split; [done|]. by rewrite Z.sgn_neg by lia.
  - rewrite (proj2 (Z.eqb_neq b 0)) by lia. eexists; split; [done|]. by rewrite Z.sgn_pos by lia.
  - apply Forall_cons in Hs as [Hc Hs]. destruct (Z.eqb_spec b c) as [->|]; [|by eexists].
    rewrite (proj2 (Z.eqb_neq c 0)) by lia. by apply IH.
Qed.

Lemma drop_zlen_app (l k : list Z) : drop (Z.to_nat (zlen l)) (l ++ k) = k.
Proof. unfold zlen. by rewrite Nat2Z.id, drop_app_length. Qed.
Lemma take_zlen_app (l k : list Z) : take (Z.to_nat (zlen l)) (l ++ k) = l.
Proof. unfold zlen. by rewrite Nat2Z.id, take_app_length. Qed.

(** Storing past the end of an object is a fault. *)
Lemma wr_bytes_fault l : forall s i, zlen s < i + zlen l -> i <= zlen s -> wr_bytes s i l = Fault.
Proof.
  induction l as [|b l IH]; intros s i Hl Hi; [change (zlen []) with 0 in Hl; lia|]. cbn [wr_bytes]. rewrite zlen_cons in Hl.
  unfold wr. fold (zlen s). destruct ((0 <=? i) && (i <? zlen s)) eqn:C; [|done]. cbn [mbind outcome_bind].
  apply IH; rewrite zlen_insert; lia.
Qed.
End CStringLemmas.
