(* ===== verification/Buffer.v ===== *)
(** * Buffer: counted strings in fixed memory, and literal strings used as such
    (lib-sxe-buffer)

    An SXE_BUFFER pointer is the address of an object: a buffer structure, or the characters
    of a literal string, which the code tells apart by the first two bytes. The space of a
    buffer is the object that starts at its pointer. *)

From S2P Require Import Prelude CString.

(** lib-sxe-buffer/sxe-buffer.h:36-45, SXE_BUFFER. (The list link is used by clients only.) *)
Record SXE_BUFFER := mk_buffer {
  literal : Z;
  flags : Z;
  size : Z;
  length_ : Z;
  consumed : Z;
  space : Z
}.

Inductive object :=
| Struct (b : SXE_BUFFER)
| Chars (l : list Z).

(** Objects by their address. *)
Abbreviation store := (gmap Z object).

(** lib-sxe-buffer/sxe-buffer.c:34-34, SXE_BUFFER_FLAG_IS_CSTR. *)
Definition SXE_BUFFER_FLAG_IS_CSTR : Z := 1.
(** lib-sxe-buffer/sxe-buffer.c:35-35, SXE_BUFFER_FLAG_OVERFLOW. *)
Definition SXE_BUFFER_FLAG_OVERFLOW : Z := 2.
(** lib-sxe-buffer/sxe-buffer.c:36-36, SXE_BUFFER_FLAG_IS_CONST. *)
Definition SXE_BUFFER_FLAG_IS_CONST : Z := 4.

(** lib-sxe-buffer/sxe-buffer.c:40-40, sxe_buffer_empty. *)
Definition sxe_buffer_empty : object := Chars [0; 0].

(** ** Access to objects *)

(** p->literal and p->flags: of a literal string, its first two bytes. *)
Definition get_literal (o : object) : outcome Z :=
  match o with Struct b => Ret (literal b) | Chars l => load (rd l 0) end.
Definition get_flags (o : object) : outcome Z :=
  match o with Struct b => Ret (flags b) | Chars l => load (rd l 1) end.

(** The remaining fields exist in a structure only. *)
Definition get_struct (o : object) : outcome SXE_BUFFER :=
  match o with Struct b => Ret b | Chars _ => Fault end.

(** (const char * )p, of a structure: an empty string, when its first byte is zero. *)
Definition as_chars (o : object) : outcome (list Z) :=
  match o with Struct b => if literal b =? 0 then Ret [0] else Fault | Chars l => Ret l end.

Definition deref (p : Z) : cmd store object := fun s => lift (load (s !! p)) s.
Definition chars_at (p : Z) : cmd store (list Z) := fun s =>
  match s !! p with Some (Chars l) => Ret (l, s) | _ => Fault end.
Definition set_struct (p : Z) (b : SXE_BUFFER) : cmd store unit := modify <[p := Struct b]>.
Definition set_chars (p : Z) (l : list Z) : cmd store unit := modify <[p := Chars l]>.

(** memcpy (or another library function) stores [l] at offset [i] of the characters [p]. *)
Definition store_at (p i : Z) (l : list Z) : cmd store unit :=
  chars ← chars_at p; chars ← lift (wr_bytes chars i l); set_chars p chars.

(** !p->literal && (p->flags != 0): C reads the flags only when the first test holds. *)
Definition is_counted (o : object) : outcome bool :=
  lit ← get_literal o;
  if lit =? 0 then f ← get_flags o; mret (negb (f =? 0)) else mret false.

(** SXEA1(!(buffer->flags & SXE_BUFFER_FLAG_IS_CONST)). *)
Definition assert_not_const (o : object) : outcome unit :=
  f ← get_flags o; assert1 (Z.land f SXE_BUFFER_FLAG_IS_CONST =? 0).

Definition set_length (b : SXE_BUFFER) (n : Z) : SXE_BUFFER :=
  mk_buffer (literal b) (flags b) (size b) (u16 n) (consumed b) (space b).
Definition set_flags (b : SXE_BUFFER) (f : Z) : SXE_BUFFER :=
  mk_buffer (literal b) f (size b) (length_ b) (consumed b) (space b).
Definition set_consumed (b : SXE_BUFFER) (n : Z) : SXE_BUFFER :=
  mk_buffer (literal b) (flags b) (size b) (length_ b) (u16 n) (space b).
Definition set_overflow (b : SXE_BUFFER) : SXE_BUFFER := set_flags b (Z.lor (flags b) SXE_BUFFER_FLAG_OVERFLOW).

Section Buffer.
Context `{Build}.

(** ** Changing a buffer *)

(** lib-sxe-buffer/sxe-buffer.c:104-119, sxe_buffer_memcpy. [data] is the memory from the
    pointer. *)
Definition sxe_buffer_memcpy (buffer : Z) (data : list Z) (len : Z) : cmd store Z :=
  o ← deref buffer;
  lift (assert_not_const o);;
  b ← lift (get_struct o);
  lift (assert6 (length_ b <=? size b));;
  let over := u32 (size b - length_ b) <? len in
  let b := if over then set_overflow b else b in
  let len := if over then u32 (size b - length_ b) else len in
  l ← lift (load (slice data 0 len));
  store_at (space b) (length_ b) l;;
  set_struct buffer (set_length b (length_ b + len));;
  mret buffer.

(** lib-sxe-buffer/sxe-buffer.c:42-61, sxe_buffer_cat. *)
Definition sxe_buffer_cat (buffer ccat : Z) : cmd store Z :=
  o ← deref buffer;
  lift (assert_not_const o);;
  c ← deref ccat;
  counted ← lift (is_counted c);
  if (counted : bool) then
    cb ← lift (get_struct c);
    ccat_str ← chars_at (space cb);
    sxe_buffer_memcpy buffer ccat_str (length_ cb)
  else
    ccat_str ← lift (as_chars c);
    ccat_len ← lift (load (strlen ccat_str));
    sxe_buffer_memcpy buffer ccat_str (u32 ccat_len).

(** lib-sxe-buffer/sxe-buffer.c:63-70, sxe_buffer_clear. *)
Definition sxe_buffer_clear (buffer : Z) : cmd store unit :=
  o ← deref buffer;
  lift (assert_not_const o);;
  b ← lift (get_struct o);
  set_struct buffer (set_length (set_flags b (Z.land (flags b) (Z.lnot SXE_BUFFER_FLAG_OVERFLOW))) 0);;
  store_at (space b) 0 [0].

(** lib-sxe-buffer/sxe-buffer.c:93-102, sxe_buffer_consume. *)
Definition sxe_buffer_consume (buffer bytes : Z) : cmd store unit :=
  o ← deref buffer;
  counted ← lift (is_counted o);
  lift (assert1 counted);;
  b ← lift (get_struct o);
  lift (assert1 (bytes <=? u32 (length_ b - consumed b)));;
  set_struct buffer (set_consumed b (consumed b + bytes)).

(** lib-sxe-buffer/sxe-buffer.c:121-130, sxe_buffer_ftime. [text] is what the format and the
    time expand to. *)
Definition sxe_buffer_ftime (buffer : Z) (text junk : list Z) : cmd store Z :=
  o ← deref buffer;
  lift (assert_not_const o);;
  b ← lift (get_struct o);
  let (l, ret) := strftime (u64 (size b - length_ b)) text junk in
  store_at (space b) (length_ b) l;;
  set_struct buffer (set_length b (length_ b + ret));;
  mret ret.

(** lib-sxe-buffer/sxe-buffer.c:149-161, sxe_buffer_get_str. *)
Definition sxe_buffer_get_str (buffer : Z) : cmd store Z :=
  o ← deref buffer;
  lift (assert_not_const o);;
  b ← lift (get_struct o);
  let b := if size b <=? length_ b then set_overflow (set_length b (size b - 1)) else b in
  set_struct buffer b;;
  store_at (space b) (length_ b) [0];;
  mret (space b).

(** lib-sxe-buffer/sxe-buffer.c:219-244, sxe_buffer_vprintf. [text] is what the format and
    its arguments expand to. *)
Definition sxe_buffer_vprintf (buffer : Z) (text : option (list Z)) : cmd store Z :=
  o ← deref buffer;
  lift (assert_not_const o);;
  b ← lift (get_struct o);
  let room := u32 (size b - length_ b) in
  let (l, ret) := vsnprintf room text in
  store_at (space b) (length_ b) l;;
  (if ret <? 0 then store_at (space b) (size b - 1) [0] else mret tt);;
  let ret := if ret <? 0 then room else ret in
  if u32 ret <? room then
    set_struct buffer (set_length b (length_ b + ret));; mret ret
  else
    set_struct buffer (set_length (set_overflow b) (size b - 1));; mret ret.

(** lib-sxe-buffer/sxe-buffer.c:206-217, sxe_buffer_printf. *)
Definition sxe_buffer_printf (buffer : Z) (text : option (list Z)) : cmd store Z :=
  o ← deref buffer;
  lift (assert_not_const o);;
  sxe_buffer_vprintf buffer text.

(** lib-sxe-buffer/sxe-buffer.c:179-197, sxe_buffer_construct. Address 0 is NULL. *)
Definition sxe_buffer_construct (buffer space_ length size_ : Z) : cmd store unit :=
  lift (assert1 (size_ <=? 65535));;
  lift (assert1 (length <=? size_));;
  lift (assert1 (negb (buffer =? 0)));;
  lift (assert1 (negb (space_ =? 0)));;
  lift (assert1 (negb (size_ =? 0)));;
  lift (assert1 (length <=? size_));;
  set_struct buffer (mk_buffer 0 SXE_BUFFER_FLAG_IS_CSTR (u16 size_) (u16 length) 0 space_).

(** lib-sxe-buffer/sxe-buffer.c:199-204, sxe_buffer_construct_const. *)
Definition sxe_buffer_construct_const (buffer buf length : Z) : cmd store unit :=
  sxe_buffer_construct buffer buf length length;;
  o ← deref buffer;
  b ← lift (get_struct o);
  set_struct buffer (set_flags b (Z.lor (flags b) SXE_BUFFER_FLAG_IS_CONST)).

(** ** Observing a buffer *)

(** lib-sxe-buffer/sxe-buffer.c:132-140, sxe_buffer_get_data. A pointer is an object and an
    offset. *)
Definition sxe_buffer_get_data (buffer : Z) : cmd store (Z * Z) :=
  o ← deref buffer;
  counted ← lift (is_counted o);
  if (counted : bool) then b ← lift (get_struct o); mret (space b, consumed b)
  else mret (buffer, 0).

(** lib-sxe-buffer/sxe-buffer.c:142-147, sxe_buffer_get_room. *)
Definition sxe_buffer_get_room (buffer : Z) : cmd store Z :=
  o ← deref buffer;
  counted ← lift (is_counted o);
  lift (assert1 counted);;
  b ← lift (get_struct o);
  mret (u32 (size b - length_ b)).

(** lib-sxe-buffer/sxe-buffer.c:163-167, sxe_buffer_is_overflow. *)
Definition sxe_buffer_is_overflow (buffer : Z) : cmd store bool :=
  o ← deref buffer;
  f ← lift (get_flags o);
  mret (negb (Z.land f SXE_BUFFER_FLAG_OVERFLOW =? 0)).

(** lib-sxe-buffer/sxe-buffer.c:169-177, sxe_buffer_length. *)
Definition sxe_buffer_length (buffer : Z) : cmd store Z :=
  o ← deref buffer;
  counted ← lift (is_counted o);
  if (counted : bool) then b ← lift (get_struct o); mret (u32 (length_ b - consumed b))
  else l ← lift (as_chars o); n ← lift (load (strlen l)); mret (u32 n).

(** The characters of one side of a comparison. *)
Definition cmp_chars (p : Z) : cmd store (list Z) :=
  o ← deref p;
  counted ← lift (is_counted o);
  if (counted : bool) then b ← lift (get_struct o); chars_at (space b) else lift (as_chars o).

(** lib-sxe-buffer/sxe-buffer.c:72-91, sxe_buffer_cmp. *)
Definition sxe_buffer_cmp (left right : Z) : cmd store Z :=
  if left =? right then mret 0
  else l ← cmp_chars left; r ← cmp_chars right; lift (load (strcmp l r)).

(** lib-sxe-buffer/sxe-buffer.h:51-51, sxe_buffer_eq. *)
Definition sxe_buffer_eq (left right : Z) : cmd store bool := v ← sxe_buffer_cmp left right; mret (v =? 0).
(** lib-sxe-buffer/sxe-buffer.h:52-52, sxe_buffer_ge. *)
Definition sxe_buffer_ge (left right : Z) : cmd store bool := v ← sxe_buffer_cmp left right; mret (0 <=? v).
(** lib-sxe-buffer/sxe-buffer.h:53-53, sxe_buffer_gt. *)
Definition sxe_buffer_gt (left right : Z) : cmd store bool := v ← sxe_buffer_cmp left right; mret (0 <? v).
(** lib-sxe-buffer/sxe-buffer.h:54-54, sxe_buffer_le. *)
Definition sxe_buffer_le (left right : Z) : cmd store bool := v ← sxe_buffer_cmp left right; mret (v <=? 0).
(** lib-sxe-buffer/sxe-buffer.h:55-55, sxe_buffer_lt. *)
Definition sxe_buffer_lt (left right : Z) : cmd store bool := v ← sxe_buffer_cmp left right; mret (v <? 0).
(** lib-sxe-buffer/sxe-buffer.h:56-56, sxe_buffer_ne. *)
Definition sxe_buffer_ne (left right : Z) : cmd store bool := v ← sxe_buffer_cmp left right; mret (negb (v =? 0)).

(** The loop of sxe_buffer_cspn; the length of the buffer bounds the iterations. *)
Fixpoint cspn_loop (fuel : nat) (chars reject : list Z) (start_at len length : Z) : outcome Z :=
  match fuel with
  | O => Fault
  | S fuel =>
      if u32 (start_at + length) <? len then
        c ← load (rd chars (u32 (start_at + length)));
        stop ← load (strchr reject c);
        if (stop : bool) then mret length else cspn_loop fuel chars reject start_at len (length + 1)
      else mret length
  end.

(** lib-sxe-buffer/sxe-buffer.c:246-262, sxe_buffer_cspn. *)
Definition sxe_buffer_cspn (buffer start_at : Z) (reject : list Z) : cmd store Z :=
  o ← deref buffer;
  counted ← lift (is_counted o);
  if (counted : bool) then
    b ← lift (get_struct o);
    chars ← chars_at (space b);
    lift (cspn_loop (S (Z.to_nat (length_ b))) chars reject start_at (length_ b) 0)
  else
    l ← lift (as_chars o);
    if start_at <=? zlen l then n ← lift (load (strcspn (drop (Z.to_nat start_at) l) reject)); mret (u32 n)
    else lift Fault.

End Buffer.

(** ** Strings: what buffers implement

    A counted string is a text of at most [c_size] characters. It knows whether anything was
    cut off, whether a NUL follows its text in memory, and how much a reader has consumed. *)
Record counted := mk_counted {
  c_text : list Z;
  c_size : Z;
  c_over : bool;
  c_const : bool;
  c_terminated : bool;
  c_consumed : Z;
  c_space : Z
}.

Inductive astring :=
| Literal (t : list Z)
| Counted (c : counted).

Definition text_of (a : astring) : list Z := match a with Literal t => t | Counted c => c_text c end.

(** The text can be read as a C string. *)
Definition readable (a : astring) : bool :=
  match a with Literal _ => true | Counted c => c_terminated c && bool_decide (Forall (Z.lt 0) (c_text c)) end.

(** [c] with another text. The bytes consumed must still be there. *)
Definition with_text (c : counted) (t : list Z) (over terminated : bool) : outcome counted :=
  if c_consumed c <=? zlen t then Ret (mk_counted t (c_size c) over (c_const c) terminated (c_consumed c) (c_space c))
  else Fault.

Definition room (c : counted) : Z := c_size c - zlen (c_text c).

(** The operations of the library. *)
Inductive op :=
| Cat (p q : Z)
| Memcpy (p : Z) (data : list Z) (len : Z)
| Clear (p : Z)
| Consume (p n : Z)
| Ftime (p : Z) (text junk : list Z)
| GetStr (p : Z)
| Printf (p : Z) (text : list Z)
| Length (p : Z)
| Room (p : Z)
| IsOverflow (p : Z)
| Read (p : Z)
| Cmp (p q : Z)
| Cspn (p start : Z) (reject : list Z).

(** What an operation makes of a string that may be changed, and its result. *)
Definition append_spec (c : counted) (l : list Z) : outcome counted :=
  with_text c (c_text c ++ take (Z.to_nat (room c)) l) (c_over c || (room c <? zlen l)) false.

Definition printf_spec (c : counted) (t : list Z) : outcome counted :=
  if zlen t <? room c then with_text c (c_text c ++ t) (c_over c) true
  else with_text c (take (Z.to_nat (c_size c - 1)) (c_text c ++ t)) true (0 <? room c).

Definition ftime_spec (c : counted) (t : list Z) : outcome counted :=
  if zlen t + 1 <=? room c then with_text c (c_text c ++ t) (c_over c) true
  else with_text c (c_text c) (c_over c) false.

Definition get_str_spec (c : counted) : outcome counted :=
  if room c =? 0 then with_text c (take (Z.to_nat (c_size c - 1)) (c_text c)) true true
  else with_text c (c_text c) (c_over c) true.

(** A counted string that is not constant. *)
Definition mutable (m : gmap Z astring) (p : Z) : outcome counted :=
  match m !! p with
  | Some (Counted c) => assert1 (negb (c_const c));; Ret c
  | _ => Fault
  end.

Definition counted_at (m : gmap Z astring) (p : Z) : outcome counted :=
  match m !! p with Some (Counted c) => Ret c | Some (Literal _) => Abort | None => Fault end.

Definition changed (m : gmap Z astring) (p : Z) (c : outcome counted) (v : list Z) : outcome (list Z * gmap Z astring) :=
  c ← c; Ret (v, <[p := Counted c]> m).

(** The specification: what an operation does to the strings, and what it gives. An
    assertion fails when a constant is changed, a literal is measured or consumed, or more is
    consumed than there is; what is not specified is a fault. *)
Definition spec_op (o : op) (m : gmap Z astring) : outcome (list Z * gmap Z astring) :=
  match o with
  | Cat p q => c ← mutable m p; a ← load (m !! q);
      if 4294967296 <=? zlen (text_of a) then Fault else changed m p (append_spec c (text_of a)) [p]
  | Memcpy p data len => c ← mutable m p; l ← load (slice data 0 len); changed m p (append_spec c l) [p]
  | Clear p => c ← mutable m p; changed m p (with_text c [] false true) []
  | Consume p n =>
      c ← counted_at m p;
      assert1 (n <=? zlen (c_text c) - c_consumed c);;
      if n <? 0 then Fault else
      changed m p (Ret (mk_counted (c_text c) (c_size c) (c_over c) (c_const c) (c_terminated c) (c_consumed c + n) (c_space c))) []
  | Ftime p t _ => c ← mutable m p; changed m p (ftime_spec c t) [if zlen t + 1 <=? room c then zlen t else 0]
  | GetStr p => c ← mutable m p; changed m p (get_str_spec c) [c_space c]
  | Printf p t => c ← mutable m p; if 2147483648 <=? zlen t then Fault else changed m p (printf_spec c t) [zlen t]
  | Length p =>
      a ← load (m !! p);
      if 4294967296 <=? zlen (text_of a) then Fault else
      Ret ([zlen (text_of a) - match a with Counted c => c_consumed c | Literal _ => 0 end], m)
  | Room p => c ← counted_at m p; Ret ([room c], m)
  | IsOverflow p => match m !! p with Some (Counted c) => Ret ([Z.b2z (c_over c)], m) | _ => Fault end
  | Read p =>
      a ← load (m !! p);
      if 4294967296 <=? zlen (text_of a) then Fault else
      Ret (match a with Literal t => t | Counted c => drop (Z.to_nat (c_consumed c)) (c_text c) end, m)
  | Cmp p q =>
      if p =? q then Ret ([0], m) else
      a ← load (m !! p); b ← load (m !! q);
      if readable a && readable b then Ret ([lex (text_of a) (text_of b)], m) else Fault
  | Cspn p start reject =>
      a ← load (m !! p);
      if (0 <=? start) && (start <=? zlen (text_of a)) && bool_decide (no_nul reject) && (zlen (text_of a) <? 4294967296) then
        Ret ([zlen (span reject (drop (Z.to_nat start) (text_of a)))], m)
      else Fault
  end.

(** What a client reads through sxe_buffer_get_data and sxe_buffer_length. *)
Definition read_data `{Build} (p : Z) : cmd store (list Z) :=
  d ← sxe_buffer_get_data p;
  n ← sxe_buffer_length p;
  chars ← chars_at d.1;
  lift (load (slice chars d.2 n)).

(** The program's side of an operation. *)
Definition run_op `{Build} (o : op) : cmd store (list Z) :=
  match o with
  | Cat p q => v ← sxe_buffer_cat p q; mret [v]
  | Memcpy p data len => v ← sxe_buffer_memcpy p data len; mret [v]
  | Clear p => sxe_buffer_clear p;; mret []
  | Consume p n => sxe_buffer_consume p n;; mret []
  | Ftime p t junk => v ← sxe_buffer_ftime p t junk; mret [v]
  | GetStr p => v ← sxe_buffer_get_str p; mret [v]
  | Printf p t => v ← sxe_buffer_printf p (Some t); mret [v]
  | Length p => v ← sxe_buffer_length p; mret [v]
  | Room p => v ← sxe_buffer_get_room p; mret [v]
  | IsOverflow p => v ← sxe_buffer_is_overflow p; mret [Z.b2z v]
  | Read p => read_data p
  | Cmp p q => v ← sxe_buffer_cmp p q; mret [Z.sgn v]
  | Cspn p start reject => v ← sxe_buffer_cspn p start (reject ++ [0]); mret [v]
  end.

Fixpoint run_ops {S} (run : op -> cmd S (list Z)) (os : list op) : cmd S (list (list Z)) :=
  match os with
  | [] => mret []
  | o :: os => v ← run o; vs ← run_ops run os; mret (v :: vs)
  end.

(** ** The representation of strings *)

Definition flags_of (c : counted) : Z :=
  Z.lor (Z.lor SXE_BUFFER_FLAG_IS_CSTR (if c_over c then SXE_BUFFER_FLAG_OVERFLOW else 0))
        (if c_const c then SXE_BUFFER_FLAG_IS_CONST else 0).

Definition struct_of (c : counted) : SXE_BUFFER :=
  mk_buffer 0 (flags_of c) (c_size c) (zlen (c_text c)) (c_consumed c) (c_space c).

(** The characters of a counted string: its text, and what follows. *)
Record holds (c : counted) (chars : list Z) : Prop := {
  h_size : 0 < c_size c <= 65535;
  h_text : zlen (c_text c) <= c_size c <= zlen chars;
  h_consumed : 0 <= c_consumed c <= zlen (c_text c);
  h_chars : exists rest, chars = c_text c ++ rest /\ (c_terminated c = true -> exists r, rest = 0 :: r)
}.

Record represents (s : store) (m : gmap Z astring) : Prop := {
  rp_literal p t : m !! p = Some (Literal t) ->
    Forall (Z.lt 0) t /\ exists rest, s !! p = Some (Chars (t ++ 0 :: rest)) /\ (t = [] -> exists r, rest = 0 :: r);
  rp_counted p c : m !! p = Some (Counted c) ->
    s !! p = Some (Struct (struct_of c)) /\ exists chars, s !! c_space c = Some (Chars chars) /\ holds c chars;
  rp_space p c : m !! p = Some (Counted c) -> m !! c_space c = None;
  rp_apart p c p' c' : m !! p = Some (Counted c) -> m !! p' = Some (Counted c') -> c_space c = c_space c' ->
    p = p' \/ (c_const c = true /\ c_const c' = true)
}.

Lemma represents_counted s m p c :
  represents s m -> m !! p = Some (Counted c) -> p <> c_space c.
Proof. intros R E Hp. pose proof (rp_space _ _ R p c E). congruence. Qed.

(** Run a step that only gives a value. *)
Ltac bind_step :=
  cbn [get_struct as_chars load assert1];
  match goal with |- context [(lift (Ret ?a) ≫= ?f) ?s] => rewrite (cmd_bind_ret (lift (Ret a)) f s a s eq_refl) end.

(** A command that gives nothing, at the end of a sequence. *)
Lemma cmd_end {S} (x y : cmd S unit) s : (x;; y;; mret tt) s = (x;; y) s.
Proof. unfold mbind, cmd_bind. destruct (x s) as [[? t]| |]; [|done..]. by destruct (y t) as [[[] ?]| |]. Qed.

(** A store in which only the structure [p] and its space changed. *)
Lemma represents_update s m p c c' s' chars' :
  represents s m -> m !! p = Some (Counted c) -> c_space c' = c_space c -> c_const c' = c_const c ->
  s' !! p = Some (Struct (struct_of c')) -> s' !! c_space c = Some (Chars chars') -> holds c' chars' ->
  (forall q, q <> p -> q <> c_space c -> s' !! q = s !! q) ->
  (c_const c = true -> s' !! c_space c = s !! c_space c) ->
  represents s' (<[p := Counted c']> m).
Proof.
  intros R E Esp Ec Ep Es Hh Hf Hc. pose proof (represents_counted _ _ _ _ R E) as Hne.
  pose proof (rp_space _ _ R p c E) as Hsp. split.
  - intros q t. rewrite lookup_insert_Some. intros [[_ [=]]|[Hq Eq]].
    destruct (rp_literal _ _ R q t Eq) as (Ht & rest & Eq' & Hr). split; [done|]. exists rest.
    rewrite Hf; [done|done|congruence].
  - intros q d. rewrite lookup_insert_Some. intros [[<- [= <-]]|[Hq Eq]]; [rewrite Esp; eauto|].
    destruct (rp_counted _ _ R q d Eq) as (Eq1 & chars & Eq2 & Hd). rewrite Hf by congruence. split; [done|].
    exists chars. split; [|done].
    destruct (decide (c_space d = c_space c)) as [Ed|Ed].
    + destruct (rp_apart _ _ R q d p c Eq E Ed) as [->|[_ Hcc]]; [done|].
      rewrite Ed, Hc by done. congruence.
    + rewrite Hf; [done| |done]. intros Ex. pose proof (rp_space _ _ R q d Eq). congruence.
  - intros q d. rewrite !lookup_insert_Some. intros [[<- [= <-]]|[Hq Eq]].
    + rewrite Esp. by rewrite lookup_insert_ne.
    + pose proof (rp_space _ _ R q d Eq). rewrite lookup_insert_ne; [done|]. congruence.
  - intros q d q' d'. rewrite !lookup_insert_Some.
    intros [[<- [= <-]]|[Hq Eq]] [[<- [= <-]]|[Hq' Eq']]; rewrite ?Esp, ?Ec; intros Ed.
    + by left.
    + by apply (rp_apart _ _ R p c q' d' E Eq').
    + by apply (rp_apart _ _ R q d p c Eq E).
    + by apply (rp_apart _ _ R q d q' d' Eq Eq').
Qed.

(** ** Facts about one buffer *)

Lemma flags_const c : (Z.land (flags_of c) SXE_BUFFER_FLAG_IS_CONST =? 0) = negb (c_const c).
Proof. unfold flags_of. by destruct (c_over c), (c_const c). Qed.
Lemma flags_overflow c : negb (Z.land (flags_of c) SXE_BUFFER_FLAG_OVERFLOW =? 0) = c_over c.
Proof. unfold flags_of. by destruct (c_over c), (c_const c). Qed.
Lemma flags_nonzero c : negb (flags_of c =? 0) = true.
Proof. unfold flags_of. by destruct (c_over c), (c_const c). Qed.

Lemma room_ok c chars : holds c chars -> u32 (c_size c - zlen (c_text c)) = room c /\ 0 <= room c.
Proof. intros [H1 H2 _ _]. unfold room. pose proof (zlen_nonneg (c_text c)). rewrite u32_small; unfold is_u32; lia. Qed.

Lemma room_text c chars l : holds c chars -> zlen (c_text c ++ take (Z.to_nat (room c)) l) <= c_size c.
Proof.
  intros Hh. destruct (room_ok c chars Hh) as [_ Hr]. unfold room in *. rewrite zlen_app. unfold zlen at 2. rewrite length_take. lia.
Qed.

Lemma take_zlen_min {A} n (l : list A) : 0 <= n -> zlen (take (Z.to_nat n) l) = Z.min n (zlen l).
Proof. intros. unfold zlen. rewrite length_take. lia. Qed.

(** What vsnprintf leaves behind the text when it cuts off what it prints. *)
Lemma printf_rest c t rest :
  room c <= zlen t -> 0 <= room c ->
  exists r, c_text c ++ (if room c =? 0 then [] else take (Z.to_nat (room c - 1)) t ++ [0]) ++ rest
    = take (Z.to_nat (c_size c - 1)) (c_text c ++ t) ++ r /\ ((0 <? room c) = true -> exists r', r = 0 :: r').
Proof.
  intros Ht Hr. unfold room in *. destruct (Z.eqb_spec (c_size c - zlen (c_text c)) 0) as [E|E].
  - exists (drop (Z.to_nat (c_size c - 1)) (c_text c) ++ rest). split; [|lia]. unfold zlen in E.
    simpl. rewrite take_app_le by lia. by rewrite (assoc_L (++)), take_drop.
  - exists (0 :: rest). split; [|eauto]. unfold zlen in *. rewrite take_app_ge by lia.
    rewrite <-!(assoc_L (++)). do 3 f_equal. lia.
Qed.

(** Storing in the room behind the text. *)
Lemma store_room c chars l :
  holds c chars -> zlen l <= room c ->
  exists rest, wr_bytes chars (zlen (c_text c)) l = Ret (c_text c ++ l ++ rest) /\
    zlen (c_text c ++ l ++ rest) = zlen chars.
Proof.
  intros [_ Ht _ (rest & -> & _)] Hl. unfold room in Hl. rewrite zlen_app in Ht.
  exists (drop (length l) rest).
  rewrite <-(take_drop (length l) rest) at 1.
  assert (length (take (length l) rest) = length l) as El by (rewrite length_take; unfold zlen in *; lia).
  rewrite wr_bytes_at by done. split; [done|]. autorewrite with zlen. unfold zlen in *. rewrite length_drop. lia.
Qed.

(** The result [c'] of an operation that stores [l] behind the text of [c]: its text is the
    text of [c] and part of [l], or part of the text of [c]. *)
Lemma with_text_ok c t over term c' :
  with_text c t over term = Ret c' ->
  c' = mk_counted t (c_size c) over (c_const c) term (c_consumed c) (c_space c) /\ c_consumed c <= zlen t.
Proof. unfold with_text. destruct (Z.leb_spec (c_consumed c) (zlen t)); [|done]. by intros [= <-]. Qed.

Lemma holds_with_text c chars t over term chars' c' :
  holds c chars -> with_text c t over term = Ret c' -> zlen t <= c_size c -> zlen chars' = zlen chars ->
  (exists rest, chars' = t ++ rest /\ (term = true -> exists r, rest = 0 :: r)) -> holds c' chars'.
Proof.
  intros [H1 H2 H3 _] (-> & Hc)%with_text_ok Ht Hl Hr. split; simpl; try done; lia.
Qed.

(** ** The operations that change a buffer *)

Lemma mutable_ret m p c : mutable m p = Ret c -> m !! p = Some (Counted c) /\ c_const c = false.
Proof. unfold mutable. destruct (m !! p) as [[t|d]|]; try done. simpl. destruct (c_const d) eqn:E; simpl; [done|]. by intros [= <-]. Qed.

Lemma mutable_abort m p : mutable m p = Abort -> exists c, m !! p = Some (Counted c) /\ c_const c = true.
Proof. unfold mutable. destruct (m !! p) as [[t|d]|]; try done. simpl. destruct (c_const d) eqn:E; simpl; [|done]. eauto. Qed.

Lemma assert_mutable c : c_const c = false -> assert_not_const (Struct (struct_of c)) = Ret tt.
Proof. intros E. unfold assert_not_const. simpl. by rewrite flags_const, E. Qed.
Lemma assert_constant c : c_const c = true -> assert_not_const (Struct (struct_of c)) = Abort.
Proof. intros E. unfold assert_not_const. simpl. by rewrite flags_const, E. Qed.

Lemma counted_struct c : is_counted (Struct (struct_of c)) = Ret true.
Proof. unfold is_counted. simpl. by rewrite flags_nonzero. Qed.

Lemma counted_literal t rest :
  Forall (Z.lt 0) t -> (t = [] -> exists r, rest = 0 :: r) -> is_counted (Chars (t ++ 0 :: rest)) = Ret false.
Proof.
  intros Ht Hr. destruct Ht as [|b t Hb Ht].
  - by destruct (Hr eq_refl) as [r ->].
  - unfold is_counted. cbn. destruct b; [lia|done|lia].
Qed.

Section Operations.
Context `{Build}.
Variables (s : store) (m : gmap Z astring).
Hypothesis R : represents s m.

(** The objects of a counted string. *)
Lemma counted_objects p c :
  m !! p = Some (Counted c) ->
  s !! p = Some (Struct (struct_of c)) /\ p <> c_space c /\ c_space c <> p /\
  exists chars, s !! c_space c = Some (Chars chars) /\ holds c chars.
Proof using R.
  intros E. pose proof (represents_counted _ _ _ _ R E). pose proof (rp_counted _ _ R p c E) as [? ?]. auto.
Qed.

Lemma deref_ok p o : s !! p = Some o -> deref p s = Ret (o, s).
Proof. intros E. unfold deref, lift. by rewrite E. Qed.

(** Storing [l] at [i] of an object, then changing a structure; or the other way around. *)
Definition stored (p : Z) (b : SXE_BUFFER) (q : Z) (chars : list Z) : store := <[p := Struct b]> (<[q := Chars chars]> s).

Lemma store_at_ok (t : store) q i l chars chars' :
  t !! q = Some (Chars chars) -> wr_bytes chars i l = Ret chars' -> store_at q i l t = Ret (tt, <[q := Chars chars']> t).
Proof. intros E W. unfold store_at, mbind, cmd_bind, chars_at, lift. rewrite E. cbn. by rewrite W. Qed.

Lemma stored_represents p c c' chars chars' :
  m !! p = Some (Counted c) -> c_const c = false -> c_space c' = c_space c -> c_const c' = c_const c ->
  s !! c_space c = Some (Chars chars) -> holds c' chars' ->
  represents (stored p (struct_of c') (c_space c) chars') (<[p := Counted c']> m).
Proof using R.
  intros E Hm Hs Hc Ec Hh. destruct (counted_objects p c E) as (Ep & Hne & Hne' & _). unfold stored.
  eapply represents_update; [done..| | |done| |].
  - by rewrite lookup_insert_eq.
  - by rewrite lookup_insert_ne, lookup_insert_eq.
  - intros q Hq Hq'. by rewrite !lookup_insert_ne.
  - congruence.
Qed.

Lemma stored_swap p c b chars' :
  m !! p = Some (Counted c) -> <[c_space c := Chars chars']> (<[p := Struct b]> s) = stored p b (c_space c) chars'.
Proof using R. intros E. destruct (counted_objects p c E) as (_ & ? & _). unfold stored. by rewrite insert_insert_ne. Qed.

(** Running the common prologue of an operation. *)
Lemma prologue {A} p c (k : SXE_BUFFER -> cmd store A) :
  m !! p = Some (Counted c) ->
  (o ← deref p; lift (assert_not_const o);; b ← lift (get_struct o); k b) s
  = if c_const c then Abort else k (struct_of c) s.
Proof using R.
  intros E. destruct (counted_objects p c E) as (Ep & _).
  rewrite (cmd_bind_ret _ _ s _ s (deref_ok p _ Ep)). unfold mbind at 1, cmd_bind at 1, lift at 1.
  destruct (c_const c) eqn:Hc; [by rewrite assert_constant|]. by rewrite assert_mutable.
Qed.

(** The end of an operation: [l] is stored at [i], the characters are then the text [t] and
    more, and the structure is that of a string with this text. *)
Lemma finish_at p c c' t over term i l :
  m !! p = Some (Counted c) -> c_const c = false -> with_text c t over term = Ret c' -> zlen t <= c_size c ->
  (forall chars, holds c chars -> exists r, wr_bytes chars i l = Ret (t ++ r) /\ zlen (t ++ r) = zlen chars /\
     (term = true -> exists r', r = 0 :: r')) ->
  exists s',
    (forall B (k : cmd store B), (store_at (c_space c) i l;; set_struct p (struct_of c');; k) s = k s') /\
    (forall B (k : cmd store B), (set_struct p (struct_of c');; store_at (c_space c) i l;; k) s = k s') /\
    represents s' (<[p := Counted c']> m).
Proof using R.
  intros E Hc Ec Ht Hr. destruct (counted_objects p c E) as (Ep & Hne & Hne' & chars & Es & Hh).
  destruct (Hr chars Hh) as (r & W & L & Hn). pose proof (with_text_ok _ _ _ _ _ Ec) as [Ec' _].
  exists (stored p (struct_of c') (c_space c) (t ++ r)). split; [|split].
  - intros B k. by rewrite (cmd_bind_ret _ _ s _ _ (store_at_ok s _ _ _ _ _ Es W)).
  - intros B k. unfold set_struct at 1. rewrite (cmd_bind_ret (modify _) _ s tt _ eq_refl).
    rewrite (cmd_bind_ret _ _ _ _ _ (store_at_ok _ _ _ _ chars _ ltac:(by rewrite lookup_insert_ne) W)).
    by rewrite (stored_swap p c) by done.
  - eapply stored_represents; try done; try by rewrite Ec'.
    eapply holds_with_text; [done..|]. eauto.
Qed.

Lemma finish p c c' t over term l :
  m !! p = Some (Counted c) -> c_const c = false -> with_text c t over term = Ret c' -> zlen l <= room c ->
  zlen t <= c_size c ->
  (forall rest, exists r, c_text c ++ l ++ rest = t ++ r /\ (term = true -> exists r', r = 0 :: r')) ->
  exists s',
    (forall B (k : cmd store B), (store_at (c_space c) (zlen (c_text c)) l;; set_struct p (struct_of c');; k) s = k s') /\
    represents s' (<[p := Counted c']> m).
Proof using R.
  intros E Hc Ec Hl Ht Hr. destruct (finish_at p c c' t over term (zlen (c_text c)) l E Hc Ec Ht) as (s' & ? & _ & ?); [|eauto].
  intros chars Hh. destruct (store_room c chars l Hh Hl) as (rest & W & L).
  destruct (Hr rest) as (r & Er & Hn). rewrite Er in W, L. eauto.
Qed.

(** Storing a NUL in or right behind the text. *)
Lemma store_nul c chars i :
  holds c chars -> 0 <= i <= zlen (c_text c) -> i < c_size c ->
  exists r, wr_bytes chars i [0] = Ret (take (Z.to_nat i) (c_text c) ++ 0 :: r) /\
    zlen (take (Z.to_nat i) (c_text c) ++ 0 :: r) = zlen chars.
Proof.
  intros [_ Ht _ (rest & -> & _)] Hi Hs. rewrite zlen_app in Ht. unfold zlen in *.
  exists (drop (S (Z.to_nat i)) (c_text c ++ rest)).
  rewrite wr_bytes_ok by (unfold zlen; rewrite ?length_app; simpl; lia). unfold splice. cbn [length app].
  rewrite take_app_le by lia. replace (Z.to_nat i + 1)%nat with (S (Z.to_nat i)) by lia. split; [done|].
  autorewrite with zlen. rewrite length_app, length_take. cbn [length]. rewrite length_drop, length_app. lia.
Qed.
End Operations.

(** The structure of a string, by the changes the code makes. *)
Lemma struct_with_text c t term c' chars :
  holds c chars -> zlen t <= c_size c -> with_text c t (c_over c) term = Ret c' ->
  struct_of c' = set_length (struct_of c) (zlen t).
Proof.
  intros [H1 _ _ _] Ht (-> & _)%with_text_ok. unfold struct_of, set_length. cbn. pose proof (zlen_nonneg t).
  by rewrite (Z.mod_small (zlen t) 65536 ltac:(lia) : u16 (zlen t) = zlen t).
Qed.

Lemma struct_with_overflow c t term c' chars :
  holds c chars -> zlen t <= c_size c -> with_text c t true term = Ret c' ->
  struct_of c' = set_length (set_overflow (struct_of c)) (zlen t).
Proof.
  intros [H1 _ _ _] Ht (-> & _)%with_text_ok. unfold struct_of, set_length, set_overflow. cbn. pose proof (zlen_nonneg t).
  rewrite (Z.mod_small (zlen t) 65536 ltac:(lia) : u16 (zlen t) = zlen t). f_equal.
  unfold flags_of. cbn. by destruct (c_over c), (c_const c).
Qed.

Lemma slice_shorter data len l k :
  slice data 0 len = Some l -> 0 <= k <= len -> slice data 0 k = Some (take (Z.to_nat k) l).
Proof.
  intros El Hk. unfold slice in *. destruct (_ && _) eqn:C in El; [|done]. injection El as <-.
  replace (_ && _) with true by lia. rewrite take_take. do 2 f_equal. lia.
Qed.

Section Operations2.
Context `{Build}.
Variables (s : store) (m : gmap Z astring).
Hypothesis R : represents s m.

Lemma memcpy_run p c c' data l len :
  m !! p = Some (Counted c) -> c_const c = false -> slice data 0 len = Some l -> append_spec c l = Ret c' ->
  exists s', sxe_buffer_memcpy p data len s = Ret (p, s') /\ represents s' (<[p := Counted c']> m).
Proof using R.
  intros E Hc El Ec. destruct (counted_objects s m R p c E) as (_ & _ & _ & chars & _ & Hh).
  pose proof (slice_length _ _ _ _ El) as Hlen. destruct (room_ok c chars Hh) as [Hroom Hroom0].
  destruct (finish s m R p c c' _ _ _ (take (Z.to_nat (room c)) l) E Hc Ec) as (s' & Hrun & R').
  { unfold zlen. rewrite length_take. lia. }
  { by eapply room_text. }
  { intros rest. exists rest. split; [by rewrite (assoc_L (++))|done]. }
  exists s'. split; [|done]. unfold sxe_buffer_memcpy. rewrite (prologue s m R p c) by done. rewrite Hc.
  cbn [length_ size space struct_of]. rewrite Hroom. pose proof (room_text c chars l Hh) as Hfit.
  assert (lift (assert6 (zlen (c_text c) <=? c_size c)) s = Ret (tt, s)) as Ha.
  { destruct Hh. rewrite (proj2 (Z.leb_le _ _)) by lia. unfold assert6. by destruct debug. }
  rewrite (cmd_bind_ret _ _ s tt s Ha). unfold append_spec in Ec. rewrite Hlen in Ec.
  assert (zlen (take (Z.to_nat (room c)) l) = Z.min (room c) len) as Htk by (unfold zlen in *; rewrite length_take; lia).
  destruct (Z.ltb_spec (room c) len) as [Ho|Ho]; cbn [length_ size space set_overflow set_flags struct_of] in *.
  - rewrite Hroom, (slice_shorter _ _ _ _ El) by lia. cbn [load]. bind_step.
    rewrite orb_true_r in Ec. rewrite (struct_with_overflow c _ _ c' chars Hh Hfit Ec), zlen_app, Htk, Z.min_l in Hrun by lia.
    by rewrite Hrun.
  - rewrite El. cbn [load]. bind_step.
    rewrite orb_false_r in Ec. rewrite (struct_with_text c _ _ c' chars Hh Hfit Ec), zlen_app, Htk, Z.min_r in Hrun by lia.
    rewrite take_ge in Hrun by (unfold zlen in *; lia). by rewrite Hrun.
Qed.

(** What an operation that changes [p] needs: the outcome of the specification on a string
    that may be changed, or a failed assertion on a constant. *)
Lemma cat_run p q c c' a :
  m !! p = Some (Counted c) -> c_const c = false -> m !! q = Some a -> zlen (text_of a) < 4294967296 ->
  append_spec c (text_of a) = Ret c' ->
  exists s', sxe_buffer_cat p q s = Ret (p, s') /\ represents s' (<[p := Counted c']> m).
Proof using R.
  intros E Hc Eq Ha Ec. destruct (counted_objects s m R p c E) as (Ep & _).
  unfold sxe_buffer_cat. rewrite (cmd_bind_ret _ _ s _ s (deref_ok s p _ Ep)).
  rewrite assert_mutable by done. bind_step.
  destruct a as [t|d]; simpl in Ha, Ec.
  - destruct (rp_literal _ _ R q t Eq) as (Ht & rest & Es & Hr).
    rewrite (cmd_bind_ret _ _ s _ s (deref_ok s q _ Es)), (counted_literal t rest Ht Hr).
    bind_step. cbn [as_chars].
    bind_step. rewrite strlen_app by (by apply text_no_nul).
    bind_step. rewrite u32_small by (unfold is_u32, zlen in *; lia).
    eapply memcpy_run; try done. apply slice_prefix.
  - destruct (counted_objects s m R q d Eq) as (Es & _ & _ & chars & Ech & [_ _ _ (rest & -> & _)]).
    rewrite (cmd_bind_ret _ _ s _ s (deref_ok s q _ Es)), counted_struct.
    bind_step. cbn [get_struct].
    bind_step. cbn [space length_ struct_of].
    unfold mbind at 1, cmd_bind at 1, chars_at. rewrite Ech. eapply memcpy_run; try done. apply slice_prefix.
Qed.

Lemma clear_run p c c' :
  m !! p = Some (Counted c) -> c_const c = false -> with_text c [] false true = Ret c' ->
  exists s', sxe_buffer_clear p s = Ret (tt, s') /\ represents s' (<[p := Counted c']> m).
Proof using R.
  intros E Hc Ec. destruct (counted_objects s m R p c E) as (_ & _ & _ & chars & _ & Hh).
  destruct (finish_at s m R p c c' [] false true 0 [0] E Hc Ec) as (s' & _ & Hrun & R').
  { destruct Hh. change (zlen []) with 0. lia. }
  { intros chars' Hh'. destruct (store_nul c chars' 0 Hh') as (r & W & L); [|destruct Hh'; lia|exists (0 :: r); eauto].
    pose proof (zlen_nonneg (c_text c)). lia. }
  exists s'. split; [|done]. unfold sxe_buffer_clear. rewrite (prologue s m R p c) by done. rewrite Hc.
  apply with_text_ok in Ec as [-> _]. cbn [flags struct_of space].
  replace (set_length _ _) with (struct_of (mk_counted [] (c_size c) false (c_const c) true (c_consumed c) (c_space c))).
  { rewrite <-cmd_end. apply Hrun. }
  unfold set_length, set_flags, struct_of, flags_of. cbn. by destruct (c_over c), (c_const c).
Qed.

Lemma get_str_run p c c' :
  m !! p = Some (Counted c) -> c_const c = false -> get_str_spec c = Ret c' ->
  exists s', sxe_buffer_get_str p s = Ret (c_space c, s') /\ represents s' (<[p := Counted c']> m).
Proof using R.
  intros E Hc Ec. destruct (counted_objects s m R p c E) as (_ & _ & _ & chars & _ & Hh). pose proof Hh as [Hs Ht _ _].
  unfold sxe_buffer_get_str. rewrite (prologue s m R p c) by done. rewrite Hc. cbn [size length_ struct_of].
  unfold get_str_spec in Ec. unfold room in Ec. destruct (Z.leb_spec (c_size c) (zlen (c_text c))) as [Hf|Hf].
  - rewrite (proj2 (Z.eqb_eq _ 0)) in Ec by lia.
    destruct (finish_at s m R p c c' _ _ _ (c_size c - 1) [0] E Hc Ec) as (s' & _ & Hrun & R').
    { unfold zlen. rewrite length_take. unfold zlen in *. lia. }
    { intros chars' Hh'. destruct (store_nul c chars' (c_size c - 1) Hh') as (r & W & L); [lia..|]. exists (0 :: r). eauto. }
    exists s'. split; [|done].
    rewrite (struct_with_overflow c (take (Z.to_nat (c_size c - 1)) (c_text c)) true c' chars Hh) in Hrun; [..|done].
    + rewrite take_zlen_min, Z.min_l in Hrun by lia. cbn [length_ space set_overflow set_flags set_length].
      rewrite (Z.mod_small (c_size c - 1) 65536 ltac:(lia) : u16 (c_size c - 1) = c_size c - 1).
      change (set_overflow (set_length ?b ?n)) with (set_length (set_overflow b) n). by rewrite Hrun.
    + rewrite take_zlen_min by lia. lia.
  - rewrite (proj2 (Z.eqb_neq _ 0)) in Ec by lia. pose proof (zlen_nonneg (c_text c)).
    destruct (finish_at s m R p c c' _ _ _ (zlen (c_text c)) [0] E Hc Ec) as (s' & _ & Hrun & R').
    { lia. }
    { intros chars' Hh'. destruct (store_nul c chars' (zlen (c_text c)) Hh') as (r & W & L); [lia..|].
      rewrite take_zlen in W, L. exists (0 :: r). eauto. }
    exists s'. split; [|done]. rewrite (struct_with_text c (c_text c) true c' chars Hh) in Hrun; [|lia|done].
    replace (set_length _ _) with (struct_of c) in Hrun; [by rewrite Hrun|].
    unfold set_length, struct_of. cbn. by rewrite (Z.mod_small (zlen (c_text c)) 65536 ltac:(lia) : u16 _ = _).
Qed.

Lemma ftime_run p c c' t junk :
  m !! p = Some (Counted c) -> c_const c = false -> ftime_spec c t = Ret c' ->
  exists s', sxe_buffer_ftime p t junk s = Ret (if zlen t + 1 <=? room c then zlen t else 0, s') /\
    represents s' (<[p := Counted c']> m).
Proof using R.
  intros E Hc Ec. destruct (counted_objects s m R p c E) as (_ & _ & _ & chars & _ & Hh).
  destruct (room_ok c chars Hh) as [Hroom Hroom0]. pose proof Hh as [Hsz _ _ _]. pose proof (zlen_nonneg t).
  unfold sxe_buffer_ftime. rewrite (prologue s m R p c) by done. rewrite Hc. cbn [length_ size space struct_of].
  replace (u64 (c_size c - zlen (c_text c))) with (room c)
    by (rewrite u64_small; [done|]; pose proof (zlen_nonneg (c_text c)); unfold is_u64, room in *; lia).
  unfold strftime. unfold ftime_spec in Ec. destruct (Z.leb_spec (zlen t + 1) (room c)) as [Hf|Hf].
  - edestruct (finish s m R p c c' (c_text c ++ t) _ _ (t ++ [0]) E Hc Ec) as (s' & Hrun & R').
    { autorewrite with zlen. change (zlen []) with 0. lia. }
    { rewrite zlen_app. unfold room in Hf. lia. }
    { intros rest. exists (0 :: rest). split; [by rewrite <-!(assoc_L (++))|eauto]. }
    exists s'. split; [|done].
    rewrite (struct_with_text c (c_text c ++ t) true c' chars Hh), zlen_app in Hrun; [by rewrite Hrun| |done].
    rewrite zlen_app. unfold room in Hf. lia.
  - edestruct (finish s m R p c c' (c_text c) _ _ (take (Z.to_nat (room c)) junk) E Hc Ec) as (s' & Hrun & R').
    { unfold zlen. rewrite length_take. lia. }
    { unfold room in Hroom0. lia. }
    { intros rest. by eexists. }
    exists s'. split; [|done].
    rewrite (struct_with_text c (c_text c) false c' chars Hh) in Hrun; [|unfold room in Hroom0; lia|done].
    rewrite Z.add_0_r. by rewrite Hrun.
Qed.

Lemma vprintf_run p c c' t :
  m !! p = Some (Counted c) -> c_const c = false -> zlen t < 2147483648 -> printf_spec c t = Ret c' ->
  exists s', sxe_buffer_vprintf p (Some t) s = Ret (zlen t, s') /\ represents s' (<[p := Counted c']> m).
Proof using R.
  intros E Hc Hl Ec. destruct (counted_objects s m R p c E) as (_ & _ & _ & chars & _ & Hh). pose proof Hh as [Hs Ht _ _].
  destruct (room_ok c chars Hh) as [Hroom Hroom0]. pose proof (zlen_nonneg t). pose proof (zlen_nonneg (c_text c)).
  unfold sxe_buffer_vprintf. rewrite (prologue s m R p c) by done. rewrite Hc. cbn [size length_ space struct_of].
  rewrite Hroom. cbn [vsnprintf]. rewrite (proj2 (Z.ltb_ge (zlen t) 0)) by lia.
  rewrite u32_small by (unfold is_u32; lia). unfold printf_spec in Ec. destruct (Z.ltb_spec (zlen t) (room c)) as [Hf|Hf].
  - rewrite (proj2 (Z.eqb_neq (room c) 0)) by lia. rewrite take_ge by (unfold zlen in *; lia).
    edestruct (finish s m R p c c' (c_text c ++ t) _ _ (t ++ [0]) E Hc Ec) as (s' & Hrun & R').
    { autorewrite with zlen. change (zlen []) with 0. lia. }
    { rewrite zlen_app. unfold room in Hf. lia. }
    { intros rest. exists (0 :: rest). split; [by rewrite <-!(assoc_L (++))|eauto]. }
    exists s'. split; [|done].
    rewrite (struct_with_text c (c_text c ++ t) true c' chars Hh), zlen_app in Hrun; [exact (Hrun Z (fun s => Ret (zlen t, s)))| |done].
    rewrite zlen_app. unfold room in Hf. lia.
  - edestruct (finish s m R p c c' (take (Z.to_nat (c_size c - 1)) (c_text c ++ t)) _ _
      (if room c =? 0 then [] else take (Z.to_nat (room c - 1)) t ++ [0]) E Hc Ec) as (s' & Hrun & R').
    { destruct (room c =? 0) eqn:?; [done|]. rewrite zlen_app, take_zlen_min by lia. change (zlen [0]) with 1. lia. }
    { rewrite take_zlen_min by lia. lia. }
    { intros rest. by apply printf_rest. }
    exists s'. split; [|done].
    rewrite (struct_with_overflow c _ _ c' chars Hh) with (2 := Ec) in Hrun; rewrite take_zlen_min, Z.min_l in *; rewrite ?zlen_app; try (unfold room in *; lia).
    exact (Hrun Z (fun s => Ret (zlen t, s))).
Qed.

Lemma consume_run p c n :
  m !! p = Some (Counted c) -> 0 <= n <= zlen (c_text c) - c_consumed c ->
  exists s', sxe_buffer_consume p n s = Ret (tt, s') /\
    represents s' (<[p := Counted (mk_counted (c_text c) (c_size c) (c_over c) (c_const c) (c_terminated c) (c_consumed c + n) (c_space c))]> m).
Proof using R.
  intros E Hn. destruct (counted_objects s m R p c E) as (Ep & Hne & Hne' & chars & Es & Hh). pose proof Hh as [Hs Ht Hc Hch].
  unfold sxe_buffer_consume. rewrite (cmd_bind_ret _ _ s _ s (deref_ok s p _ Ep)), counted_struct.
  do 3 bind_step. cbn [length_ consumed struct_of].
  rewrite (u32_small (zlen (c_text c) - c_consumed c)) by (unfold is_u32; lia).
  rewrite (proj2 (Z.leb_le n _)) by lia. eexists. split; [done|].
  eapply represents_update; try done.
  - rewrite lookup_insert_eq. do 2 f_equal. unfold set_consumed, struct_of. cbn.
    by rewrite (Z.mod_small (c_consumed c + n) 65536 ltac:(lia) : u16 _ = _).
  - rewrite lookup_insert_ne by done. done.
  - split; simpl; try done; lia.
  - intros q Hq _. by rewrite lookup_insert_ne.
  - intros _. by rewrite lookup_insert_ne.
Qed.

Lemma consume_abort p n : counted_at m p = Abort -> sxe_buffer_consume p n s = Abort.
Proof using R.
  unfold counted_at. destruct (m !! p) as [[t|c]|] eqn:E; try done. intros _.
  destruct (rp_literal _ _ R p t E) as (Ht & rest & Es & Hr). unfold sxe_buffer_consume.
  by rewrite (cmd_bind_ret _ _ s _ s (deref_ok s p _ Es)), (counted_literal t rest Ht Hr).
Qed.

Lemma consume_too_much p c n :
  m !! p = Some (Counted c) -> zlen (c_text c) - c_consumed c < n -> sxe_buffer_consume p n s = Abort.
Proof using R.
  intros E Hn. destruct (counted_objects s m R p c E) as (Ep & _ & _ & chars & _ & [Hs Ht Hc _]).
  unfold sxe_buffer_consume. rewrite (cmd_bind_ret _ _ s _ s (deref_ok s p _ Ep)), counted_struct.
  do 3 bind_step. cbn [length_ consumed struct_of].
  rewrite (u32_small (zlen (c_text c) - c_consumed c)) by (unfold is_u32; lia).
  by rewrite (proj2 (Z.leb_gt n _)) by lia.
Qed.

(** ** The operations that observe a buffer *)

(** Running an operation that first tells a literal from a counted string. *)
Lemma observe {A} p a (k : bool -> object -> cmd store A) :
  m !! p = Some a ->
  exists o, s !! p = Some o /\
    (o ← deref p; counted ← lift (is_counted o); k counted o) s = k (match a with Literal _ => false | Counted _ => true end) o s /\
    match a with
    | Literal t => Forall (Z.lt 0) t /\ exists rest, o = Chars (t ++ 0 :: rest)
    | Counted c => o = Struct (struct_of c) /\ exists chars, s !! c_space c = Some (Chars chars) /\ holds c chars
    end.
Proof using R.
  destruct a as [t|c]; intros E.
  - destruct (rp_literal _ _ R p t E) as (Ht & rest & Es & Hr). eexists; split; [done|]. split; [|eauto].
    by rewrite (cmd_bind_ret _ _ s _ s (deref_ok s p _ Es)), (counted_literal t rest Ht Hr).
  - destruct (rp_counted _ _ R p c E) as (Es & Hch). eexists; split; [done|]. split; [|eauto].
    by rewrite (cmd_bind_ret _ _ s _ s (deref_ok s p _ Es)), counted_struct.
Qed.

Definition consumed_of (a : astring) : Z := match a with Literal _ => 0 | Counted c => c_consumed c end.

Lemma length_run p a :
  m !! p = Some a -> zlen (text_of a) < 4294967296 ->
  sxe_buffer_length p s = Ret (zlen (text_of a) - consumed_of a, s).
Proof using R.
  intros E Ha. unfold sxe_buffer_length.
  destruct (observe p a (fun counted o => if counted then b ← lift (get_struct o); mret (u32 (length_ b - consumed b))
    else l ← lift (as_chars o); n ← lift (load (strlen l)); mret (u32 n)) E) as (o & _ & Hrun & Ho).
  etransitivity; [exact Hrun|]. clear Hrun. destruct a as [t|c]; simpl in Ha |- *.
  - destruct Ho as (Ht & rest & ->). cbn. bind_step.
    rewrite strlen_app by (by apply text_no_nul). cbn [load]. bind_step.
    rewrite u32_small, Z.sub_0_r by (unfold is_u32, zlen in *; lia). done.
  - destruct Ho as (-> & chars & _ & [Hs Ht Hc _]). cbn. unfold mbind, cmd_bind. cbn.
    by rewrite u32_small by (unfold is_u32; lia).
Qed.

Lemma room_run p c : m !! p = Some (Counted c) -> sxe_buffer_get_room p s = Ret (room c, s).
Proof using R.
  intros E. destruct (counted_objects s m R p c E) as (Ep & _ & _ & chars & _ & Hh). unfold sxe_buffer_get_room.
  rewrite (cmd_bind_ret _ _ s _ s (deref_ok s p _ Ep)), counted_struct. unfold mbind, cmd_bind. cbn.
  by rewrite (proj1 (room_ok c chars Hh)).
Qed.

Lemma room_abort p : counted_at m p = Abort -> sxe_buffer_get_room p s = Abort.
Proof using R.
  unfold counted_at. destruct (m !! p) as [[t|c]|] eqn:E; try done. intros _.
  destruct (rp_literal _ _ R p t E) as (Ht & rest & Es & Hr). unfold sxe_buffer_get_room.
  by rewrite (cmd_bind_ret _ _ s _ s (deref_ok s p _ Es)), (counted_literal t rest Ht Hr).
Qed.

Lemma is_overflow_run p c : m !! p = Some (Counted c) -> sxe_buffer_is_overflow p s = Ret (c_over c, s).
Proof using R.
  intros E. destruct (counted_objects s m R p c E) as (Ep & _). unfold sxe_buffer_is_overflow.
  rewrite (cmd_bind_ret _ _ s _ s (deref_ok s p _ Ep)). unfold mbind, cmd_bind. cbn. by rewrite flags_overflow.
Qed.

(** The characters of a string a comparison reads. *)
Lemma cmp_chars_run p a :
  m !! p = Some a -> readable a = true ->
  exists rest, cmp_chars p s = Ret (text_of a ++ 0 :: rest, s) /\ Forall (Z.lt 0) (text_of a).
Proof using R.
  intros E Hr. unfold cmp_chars.
  destruct (observe p a (fun counted o => if counted then b ← lift (get_struct o); chars_at (space b) else lift (as_chars o)) E)
    as (o & _ & Hrun & Ho).
  setoid_rewrite Hrun. clear Hrun. destruct a as [t|c]; simpl.
  - destruct Ho as (Ht & rest & ->). by exists rest.
  - destruct Ho as (-> & chars & Ech & [_ _ _ (rest & -> & Hn)]). cbn in Hr. apply andb_true_iff in Hr as [Hr1 Hr2%bool_decide_eq_true].
    destruct (Hn Hr1) as [r ->]. exists r. split; [|done]. unfold mbind, cmd_bind, chars_at. cbn. by rewrite Ech.
Qed.

Lemma cmp_run p q a b :
  m !! p = Some a -> m !! q = Some b -> p <> q -> readable a = true -> readable b = true ->
  exists v, sxe_buffer_cmp p q s = Ret (v, s) /\ Z.sgn v = lex (text_of a) (text_of b).
Proof using R.
  intros Ea Eb Hpq Ha Hb. destruct (cmp_chars_run p a Ea Ha) as (ra & Ra & Pa). destruct (cmp_chars_run q b Eb Hb) as (rb & Rb & Pb).
  destruct (strcmp_lex (text_of a) ra (text_of b) rb Pa Pb) as (v & Ev & Hv). exists v. split; [|done].
  unfold sxe_buffer_cmp. rewrite (proj2 (Z.eqb_neq p q)) by done.
  rewrite (cmd_bind_ret _ _ s _ s Ra), (cmd_bind_ret _ _ s _ s Rb), Ev. done.
Qed.

Lemma buffer_read_run p a :
  m !! p = Some a -> zlen (text_of a) < 4294967296 ->
  read_data p s = Ret (drop (Z.to_nat (consumed_of a)) (text_of a), s).
Proof using R.
  intros E Ha. unfold read_data, sxe_buffer_get_data.
  destruct (observe p a (fun counted o => if counted then b ← lift (get_struct o); mret (space b, consumed b) else mret (p, 0)) E)
    as (o & Eo & Hrun & Ho).
  assert (exists q chars, sxe_buffer_get_data p s = Ret ((q, consumed_of a), s) /\ s !! q = Some (Chars (text_of a ++ chars))
    /\ 0 <= consumed_of a <= zlen (text_of a)) as (q & chars & Hg & Eq & Hc).
  { unfold sxe_buffer_get_data. setoid_rewrite Hrun. destruct a as [t|c].
    - destruct Ho as (_ & rest & ->). exists p, (0 :: rest). split; [done|]. split; [done|]. simpl. unfold zlen. lia.
    - destruct Ho as (-> & chars & Ech & [Hs Ht Hc (rest & -> & _)]). exists (c_space c), rest. done. }
  rewrite (cmd_bind_ret _ _ s _ s Hg), (cmd_bind_ret _ _ s _ s (length_run p a E Ha)). cbn [fst snd].
  unfold mbind at 1, cmd_bind at 1, chars_at. rewrite Eq. rewrite slice_Some by (rewrite ?zlen_app; pose proof (zlen_nonneg chars); lia).
  unfold lift, load. do 2 f_equal. rewrite drop_app_le by (unfold zlen in *; lia).
  apply take_app_length'. rewrite length_drop. unfold zlen. lia.
Qed.

(** ** Searching *)

Lemma cspn_loop_span reject rest' text rest start fuel n :
  no_nul reject -> 0 <= start -> 0 <= n -> start + n <= zlen text <= 65535 -> zlen text - start - n < Z.of_nat fuel ->
  cspn_loop fuel (text ++ rest) (reject ++ 0 :: rest') start (zlen text) n
  = Ret (n + zlen (span reject (drop (Z.to_nat (start + n)) text))).
Proof.
  intros Hr Hs. revert n. induction fuel as [|fuel IH]; intros n Hn Hl Hf; [lia|]. cbn [cspn_loop].
  rewrite u32_small by (unfold is_u32; lia). destruct (Z.ltb_spec (start + n) (zlen text)) as [Hlt|Hge].
  - destruct (rd_lt text (start + n)) as [c Ec]; [lia|]. rewrite rd_app_l, Ec by lia. cbn [load mbind outcome_bind].
    rewrite strchr_app by done. cbn [load mbind outcome_bind].
    unfold rd in Ec. rewrite (proj2 (Z.leb_le 0 _)) in Ec by lia. rewrite (drop_S text c) by done. cbn [span].
    case_bool_decide; [rewrite decide_True by done; change (zlen []) with 0; by rewrite Z.add_0_r|].
    rewrite decide_False, IH, zlen_cons by (done || lia). f_equal.
    replace (Z.to_nat (start + (n + 1))) with (S (Z.to_nat (start + n))) by lia. lia.
  - rewrite drop_ge by (unfold zlen in *; lia). change (zlen (span reject [])) with 0. by rewrite Z.add_0_r.
Qed.

Lemma span_length r t : zlen (span r t) <= zlen t.
Proof. induction t as [|c t IH]; [done|]. cbn [span]. rewrite zlen_cons. case_decide; [unfold zlen; simpl; lia|]. rewrite zlen_cons. lia. Qed.

Lemma cspn_run p a start reject :
  m !! p = Some a -> 0 <= start <= zlen (text_of a) -> no_nul reject -> zlen (text_of a) < 4294967296 ->
  sxe_buffer_cspn p start (reject ++ [0]) s = Ret (zlen (span reject (drop (Z.to_nat start) (text_of a))), s).
Proof using R.
  intros E Hs Hr Ha. unfold sxe_buffer_cspn.
  destruct (observe p a (fun counted o => if counted then b ← lift (get_struct o); chars ← chars_at (space b);
      lift (cspn_loop (S (Z.to_nat (length_ b))) chars (reject ++ [0]) start (length_ b) 0)
    else l ← lift (as_chars o); if start <=? zlen l then n ← lift (load (strcspn (drop (Z.to_nat start) l) (reject ++ [0]))); mret (u32 n)
      else lift Fault) E) as (o & _ & Hrun & Ho).
  etransitivity; [exact Hrun|]. clear Hrun. destruct a as [t|c]; cbn [text_of] in *.
  - destruct Ho as (Ht & rest & ->). cbn [as_chars]. bind_step.
    rewrite (proj2 (Z.leb_le _ _)) by (rewrite zlen_app, zlen_cons; pose proof (zlen_nonneg rest); lia).
    rewrite drop_app_le, strcspn_app by (done || unfold zlen in *; lia). cbn [load].
    bind_step. pose proof (span_length reject (drop (Z.to_nat start) t)) as Hsp.
    rewrite u32_small; [done|]. unfold is_u32, zlen in *. rewrite length_drop in Hsp. lia.
  - destruct Ho as (-> & chars & Ech & [Hsz Ht Hc (rest & -> & _)]). cbn [get_struct].
    bind_step. cbn [space length_ struct_of].
    unfold mbind, cmd_bind, chars_at. rewrite Ech. rewrite cspn_loop_span by (done || lia). by rewrite Z.add_0_r.
Qed.
End Operations2.

(** ** The operations implement their specification *)

Section Refinement.
Context `{Build}.
Variables (s : store) (m : gmap Z astring).
Hypothesis R : represents s m.

(** What is to be shown of an operation that the program runs as [x]. *)
Definition implements (x : cmd store (list Z)) (spec : outcome (list Z * gmap Z astring)) : Prop :=
  forall v m', spec = Ret (v, m') -> exists s', x s = Ret (v, s') /\ represents s' m'.

Lemma changes {A} (x : cmd store A) (f : A -> list Z) a p oc :
  (forall c', oc = Ret c' -> exists s', x s = Ret (a, s') /\ represents s' (<[p := Counted c']> m)) ->
  implements (w ← x; mret (f w)) (changed m p oc (f a)).
Proof using.
  intros Hx v m'. unfold changed. destruct oc as [c'| |]; [|done..]. intros [= <- <-].
  destruct (Hx c' eq_refl) as (s' & Hrun & R'). exists s'. by rewrite (cmd_bind_ret _ _ s _ _ Hrun).
Qed.

Lemma observes {A} (x : cmd store A) (f : A -> list Z) a l :
  x s = Ret (a, s) -> f a = l -> implements (w ← x; mret (f w)) (Ret (l, m)).
Proof using R. intros Hx <- v m' [= <- <-]. exists s. by rewrite (cmd_bind_ret _ _ s _ _ Hx). Qed.

Lemma implements_nothing x spec : (forall r, spec <> Ret r) -> implements x spec.
Proof using. intros Hn v m' E. by destruct (Hn _ E). Qed.

(** Case split on a step of the specification; steps without a result need no proof. *)
Ltac spec_step :=
  cbn beta iota;
  first [ by apply implements_nothing
        | match goal with
          | |- implements _ (match ?o with Some _ => _ | None => _ end) => destruct o as [[]|] eqn:?
          | |- implements _ (match mutable ?m ?p with Ret _ => _ | Abort => _ | Fault => _ end) =>
              let H1 := fresh in destruct (mutable m p) eqn:H1; [apply mutable_ret in H1 as [? ?]| |]
          | |- implements _ (match load ?o with Ret _ => _ | Abort => _ | Fault => _ end) => destruct o eqn:?; cbn [load]
          | |- implements _ (match counted_at ?m ?p with Ret _ => _ | Abort => _ | Fault => _ end) =>
              unfold counted_at; destruct (m !! p) as [[]|] eqn:?
          | |- implements _ (if ?b then _ else _) => destruct b eqn:?
          | |- implements _ (match assert1 ?b with Ret _ => _ | Abort => _ | Fault => _ end) => destruct b eqn:?; cbn [assert1]
          end ].

Lemma implements_change o :
  match o with Cat _ _ | Memcpy _ _ _ | Clear _ | Ftime _ _ _ | GetStr _ | Printf _ _ | Consume _ _ => True | _ => False end ->
  implements (run_op o) (spec_op o m).
Proof using R.
  destruct o as [p q|p data len|p|p n|p t junk|p|p t|p|p|p|p|p q|p start reject]; intros [];
    unfold spec_op, mbind, outcome_bind; repeat spec_step; cbn [run_op].
  - apply (changes _ (fun w => [w])). intros c' Ec. eapply cat_run; try done. lia.
  - apply (changes _ (fun w => [w])). intros c' Ec. by eapply memcpy_run.
  - apply (changes _ (fun _ => []) tt). intros c' Ec. by eapply clear_run.
  - apply (changes _ (fun _ => []) tt). intros c' [= <-]. eapply consume_run; try done. lia.
  - apply (changes _ (fun w => [w])). intros c' Ec. by eapply ftime_run.
  - apply (changes _ (fun w => [w])). intros c' Ec. by eapply get_str_run.
  - apply (changes _ (fun w => [w])). intros c' Ec.
    edestruct vprintf_run as (s' & Hrun & R'); try done; [lia|]. exists s'. split; [|done].
    unfold sxe_buffer_printf. destruct (counted_objects s m R _ _ H0) as (Es & _).
    rewrite (cmd_bind_ret _ _ s _ s (deref_ok s p _ Es)), assert_mutable by done. by bind_step.
Qed.

Lemma implements_observe o :
  match o with Length _ | Room _ | IsOverflow _ | Read _ | Cmp _ _ | Cspn _ _ _ => True | _ => False end ->
  implements (run_op o) (spec_op o m).
Proof using R.
  destruct o as [p q|p data len|p|p n|p t junk|p|p t|p|p|p|p|p q|p start reject]; intros [];
    unfold spec_op, mbind, outcome_bind; repeat spec_step; cbn [run_op].
  - apply (observes _ (fun w => [w]) (zlen (text_of a) - consumed_of a)); [|by destruct a].
    apply (length_run s m R); [done|lia].
  - eapply (observes _ (fun w => [w])); [apply (room_run s m R p c); done|done].
  - eapply (observes _ (fun w => [Z.b2z w])); [apply (is_overflow_run s m R p c); done|done].
  - intros v m' [= <- <-]. exists s. split; [|done]. rewrite (buffer_read_run s m R p a) by (done || lia). by destruct a.
  - apply (observes _ (fun w => [Z.sgn w]) 0); [|done]. unfold sxe_buffer_cmp. by rewrite Heqb.
  - apply andb_true_iff in Heqb0 as [Ra Rb].
    edestruct (cmp_run s m R p q) as (w & Hrun & Hw); try done; [lia|]. apply (observes _ (fun w => [Z.sgn w]) w); [done|].
    by rewrite Hw.
  - rewrite !andb_true_iff, bool_decide_eq_true in Heqb. destruct Heqb as [[[C1 C2] C3] C4].
    eapply (observes _ (fun w => [w])); [apply (cspn_run s m R p a); try done; lia|done].
Qed.
End Refinement.

(** An assertion that the specification makes fail fails in the program. *)
Lemma aborts `{Build} s m o : represents s m -> spec_op o m = Abort -> run_op o s = Abort.
Proof.
  intros R. assert (Hm : forall p A (k : object -> cmd store A), mutable m p = Abort ->
    (o ← deref p; lift (assert_not_const o);; k o) s = Abort).
  { intros p A k (c & Ec & Hc)%mutable_abort. destruct (counted_objects s m R p c Ec) as (Es & _).
    rewrite (cmd_bind_ret _ _ s _ s (deref_ok s p _ Es)). unfold mbind, cmd_bind, lift. by rewrite assert_constant. }
  assert (Hb : forall A B (x : cmd store A) (k : A -> cmd store B), x s = Abort -> (x ≫= k) s = Abort).
  { intros A B x k Hx. unfold mbind, cmd_bind. by rewrite Hx. }
  destruct o as [p q|p data len|p|p n|p t junk|p|p t|p|p|p|p|p q|p start reject]; unfold spec_op; cbn [run_op].
  1, 2, 3, 5, 6, 7: destruct (mutable m p) as [c| |] eqn:Em; cbn [mbind outcome_bind]; [|intros _; apply Hb, Hm, Em|done].
  - destruct (m !! q) as [a|]; [|done]. cbn. case_if; [done|]. unfold changed, append_spec, with_text. by case_if.
  - destruct (slice data 0 len); [|done]. cbn. unfold changed, append_spec, with_text. by case_if.
  - unfold changed, with_text. by case_if.
  - unfold changed, ftime_spec, with_text. by repeat case_if.
  - unfold changed, get_str_spec, with_text. by repeat case_if.
  - case_if; [done|]. unfold changed, printf_spec, with_text. by repeat case_if.
  - destruct (counted_at m p) as [c| |] eqn:Ec; cbn [mbind outcome_bind]; [|intros _; by eapply Hb, consume_abort|done].
    destruct (Z.leb_spec n (zlen (c_text c) - c_consumed c)); cbn; [by case_if|]. intros _. apply Hb.
    unfold counted_at in Ec. destruct (m !! p) as [[|d]|] eqn:E; try done. injection Ec as ->.
    eapply consume_too_much; [done..|lia].
  - destruct (m !! p); [|done]. cbn. by case_if.
  - destruct (counted_at m p) as [c| |] eqn:Ec; cbn [mbind outcome_bind]; [done|intros _; by eapply Hb, room_abort|done].
  - by destruct (m !! p) as [[|]|].
  - destruct (m !! p); [|done]. cbn. by case_if.
  - case_if; [done|]. destruct (m !! p), (m !! q); try done. cbn. by case_if.
  - destruct (m !! p); [|done]. cbn. by case_if.
Qed.

(** C17: buffers and literals implement bounded strings. Any sequence of appending strings
    (literal or counted, itself included), bytes, formatted text and times, of terminating,
    clearing, consuming, measuring, reading, comparing and searching gives what the
    specification says: text is cut at the size of the buffer and the overflow is
    remembered, constants and the other strings stay as they are, and an assertion fails when the
    specification says so. *)
Theorem buffer_refines_strings `{Build} s m os :
  represents s m ->
  (forall vs m', run_ops spec_op os m = Ret (vs, m') ->
     exists s', run_ops run_op os s = Ret (vs, s') /\ represents s' m') /\
  (run_ops spec_op os m = Abort -> run_ops run_op os s = Abort).
Proof.
  revert s m. induction os as [|o os IH]; intros s m R; cbn [run_ops].
  { split; [intros vs m' [= <- <-]; by exists s|done]. }
  destruct (spec_op o m) as [[v m1]| |] eqn:Eo.
  - assert (exists s1, run_op o s = Ret (v, s1) /\ represents s1 m1) as (s1 & Hrun & R1).
    { destruct o; (by apply (implements_change s m R)) || by apply (implements_observe s m R). }
    destruct (IH s1 m1 R1) as [IHr IHa]. rewrite (cmd_bind_ret _ _ _ _ _ Eo), (cmd_bind_ret _ _ _ _ _ Hrun). split.
    + intros vs m' (ws & m2 & E & [= <- <-])%cmd_bind_inv. destruct (IHr ws m2 E) as (s2 & Hs & R2).
      exists s2. split; [|done]. by rewrite (cmd_bind_ret _ _ _ _ _ Hs).
    + unfold mbind at 1, cmd_bind at 1. destruct (run_ops spec_op os m1) as [[ws m2]| |]; [done| |done].
      intros _. unfold mbind, cmd_bind. by rewrite IHa.
  - unfold mbind, cmd_bind. rewrite Eo, (aborts s m o R Eo). done.
  - unfold mbind, cmd_bind. rewrite Eo. done.
Qed.

(** ** Construction *)

(** [p] and [q] are addresses the strings do not use. *)
Record fresh (m : gmap Z astring) (p q : Z) : Prop := {
  fr_p : m !! p = None;
  fr_q : m !! q = None;
  fr_pq : p <> q;
  fr_space r c : m !! r = Some (Counted c) -> c_space c <> p /\ c_space c <> q
}.

Lemma represents_fresh s m p q c chars :
  represents s m -> fresh m p q -> s !! q = Some (Chars chars) -> c_space c = q -> holds c chars ->
  represents (<[p := Struct (struct_of c)]> s) (<[p := Counted c]> m).
Proof.
  intros R [Fp Fq Fpq Fs] Eq Ec Hh. split.
  - intros r t. rewrite lookup_insert_Some. intros [[_ [=]]|[Hr Er]].
    destruct (rp_literal _ _ R r t Er) as (Ht & rest & E & Hrest). rewrite lookup_insert_ne by done. eauto.
  - intros r d. rewrite lookup_insert_Some. intros [[<- [= <-]]|[Hr Er]].
    + rewrite lookup_insert_eq, lookup_insert_ne by congruence. rewrite Ec. eauto.
    + destruct (Fs r d Er). rewrite !lookup_insert_ne by done. by apply (rp_counted _ _ R).
  - intros r d. rewrite lookup_insert_Some. intros [[<- [= <-]]|[Hr Er]].
    + by rewrite lookup_insert_ne by congruence; rewrite Ec.
    + destruct (Fs r d Er). rewrite lookup_insert_ne by done. by apply (rp_space _ _ R r).
  - intros r d r' d'. rewrite !lookup_insert_Some.
    intros [[<- [= <-]]|[Hr Er]] [[<- [= <-]]|[Hr' Er']] Ed; [by left| | |by apply (rp_apart _ _ R r d r' d')].
    + destruct (Fs r' d' Er'). congruence.
    + destruct (Fs r d Er). congruence.
Qed.

(** The conditions under which a buffer can be constructed. *)
Definition constructible (p q length size : Z) : bool :=
  (size <=? 65535) && (length <=? size) && negb (p =? 0) && negb (q =? 0) && negb (size =? 0).

Lemma buffer_construct_run p q len size s :
  0 <= len ->
  sxe_buffer_construct p q len size s
  = if constructible p q len size then Ret (tt, <[p := Struct (mk_buffer 0 1 (u16 size) (u16 len) 0 q)]> s) else Abort.
Proof.
  intros Hl. unfold sxe_buffer_construct, constructible, mbind, cmd_bind, lift, assert1.
  destruct (size <=? 65535); [|done]. destruct (len <=? size); [|done]. destruct (p =? 0); [done|].
  destruct (q =? 0); [done|]. by destruct (size =? 0).
Qed.

Lemma construct_const_run p q len s :
  0 <= len ->
  sxe_buffer_construct_const p q len s
  = if constructible p q len len then Ret (tt, <[p := Struct (mk_buffer 0 5 (u16 len) (u16 len) 0 q)]> s) else Abort.
Proof.
  intros Hl. unfold sxe_buffer_construct_const. unfold mbind at 1, cmd_bind at 1. rewrite buffer_construct_run by done.
  destruct (constructible p q len len); [|done].
  unfold mbind, cmd_bind, deref, lift, load. rewrite lookup_insert_eq. cbn [get_struct]. unfold set_struct, modify.
  by rewrite insert_insert_eq.
Qed.

(** Constructing a buffer over a space that holds [text] gives a string with that text,
    of the size given, with nothing consumed and no overflow; a constant buffer is full and
    can never change. The buffer is constructed exactly when its space is not NULL or empty,
    the text fits, and the size is a 16 bit number; otherwise an assertion fails. *)
Theorem sxe_buffer_construct_spec s m p q text rest size const :
  represents s m -> fresh m p q -> s !! q = Some (Chars (text ++ rest)) -> size <= zlen text + zlen rest ->
  (const = true -> size = zlen text) ->
  let construct : cmd store unit :=
    if const then sxe_buffer_construct_const p q (zlen text) else sxe_buffer_construct p q (zlen text) size in
  if constructible p q (zlen text) size then
    exists s', construct s = Ret (tt, s') /\
      represents s' (<[p := Counted (mk_counted text size false const false 0 q)]> m)
  else construct s = Abort.
Proof.
  intros R F Eq Hs Hc construct. pose proof (zlen_nonneg text) as Hl. unfold construct.
  destruct (constructible p q (zlen text) size) eqn:C.
  - assert (0 < size <= 65535 /\ zlen text <= size) as [Hsz Ht] by (unfold constructible in C; lia).
    exists (<[p := Struct (struct_of (mk_counted text size false const false 0 q))]> s).
    split; [|apply (represents_fresh s m p q _ _ R F Eq); [done|]; split; simpl; try lia].
    + assert (u16 size = size) as Hu by (apply Z.mod_small; lia).
      assert (u16 (zlen text) = zlen text) as Hu' by (apply Z.mod_small; lia).
      destruct const; [assert (size = zlen text) as -> by auto; rewrite construct_const_run|rewrite buffer_construct_run];
        by rewrite ?C, ?Hu, ?Hu'.
    + rewrite zlen_app. lia.
    + by exists rest.
  - destruct const; [assert (size = zlen text) as -> by auto; rewrite construct_const_run|rewrite buffer_construct_run];
      by rewrite ?C.
Qed.

(** ** A store with two buffers and a literal *)

Definition sample_store : store :=
  <[1 := Struct (mk_buffer 0 1 6 0 0 2)]> (<[2 := Chars [9; 9; 9; 9; 9; 9]]>
  (<[3 := Struct (mk_buffer 0 5 2 2 0 4)]> (<[4 := Chars [104; 105; 0]]>
  (<[5 := Chars [97; 98; 99; 0]]> (<[7 := Chars [1; 2; 3; 4]]> ∅))))).

Definition sample_strings : gmap Z astring :=
  <[1 := Counted (mk_counted [] 6 false false false 0 2)]>
  (<[3 := Counted (mk_counted [104; 105] 2 false true true 0 4)]> (<[5 := Literal [97; 98; 99]]> ∅)).

Lemma sample_represents : represents sample_store sample_strings.
Proof.
  split.
  - intros p t. unfold sample_strings. rewrite !lookup_insert_Some, lookup_empty.
    intros [[_ [=]]|[_ [[_ [=]]|[_ [[<- [= <-]]|[_ [=]]]]]]].
    split; [by repeat constructor|]. exists []. by split.
  - intros p c. unfold sample_strings. rewrite !lookup_insert_Some, lookup_empty.
    intros [[<- [= <-]]|[_ [[<- [= <-]]|[_ [[_ [=]]|[_ [=]]]]]]]; (split; [reflexivity|]); eexists; (split; [reflexivity|]).
    + split; simpl; try (unfold zlen; simpl; lia). by eexists.
    + split; simpl; try (unfold zlen; simpl; lia). eexists. split; [reflexivity|eauto].
  - intros p c. unfold sample_strings. rewrite !lookup_insert_Some, lookup_empty.
    by intros [[<- [= <-]]|[_ [[<- [= <-]]|[_ [[_ [=]]|[_ [=]]]]]]].
  - intros p c p' c'. unfold sample_strings. rewrite !lookup_insert_Some, lookup_empty.
    intros [[<- [= <-]]|[_ [[<- [= <-]]|[_ [[_ [=]]|[_ [=]]]]]]] [[<- [= <-]]|[_ [[<- [= <-]]|[_ [[_ [=]]|[_ [=]]]]]]];
      simpl; auto; lia.
Qed.

(** Appending a literal, a number and a constant cuts the text at six characters; the
    specification decides what the program gives. *)
Definition sample_ops : list op :=
  [Cat 1 5; Printf 1 [55]; Cspn 1 1 [99]; Cat 1 3; IsOverflow 1; Room 1; Consume 1 2; Read 1; GetStr 1; Cat 1 1; Cmp 3 5; Length 1].

Lemma buffer_refines_strings_witness :
  exists vs m', run_ops spec_op sample_ops sample_strings = Ret (vs, m') /\
    vs = [[1]; [1]; [1]; [1]; [0]; [0]; []; [99; 55; 104; 105]; [2]; [1]; [1]; [4]] /\
    exists s', run_ops (run_op (H := true)) sample_ops sample_store = Ret (vs, s') /\ represents s' m'.
Proof.
  eexists _, _. split; [vm_compute; reflexivity|]. split; [reflexivity|].
  apply (buffer_refines_strings (H := true) sample_store sample_strings sample_ops sample_represents).
  vm_compute. reflexivity.
Defined.

Lemma sxe_buffer_construct_spec_witness :
  exists s', sxe_buffer_construct 6 7 2 3 sample_store = Ret (tt, s') /\
    represents s' (<[6 := Counted (mk_counted [1; 2] 3 false false false 0 7)]> sample_strings).
Proof.
  apply (sxe_buffer_construct_spec sample_store sample_strings 6 7 [1; 2] [3; 4] 3 false sample_represents);
    [|reflexivity|unfold zlen; simpl; lia|discriminate].
  split; [reflexivity|reflexivity|lia|].
  intros r c. unfold sample_strings. rewrite !lookup_insert_Some, lookup_empty.
  by intros [[_ [= <-]]|[_ [[_ [= <-]]|[_ [[_ [=]]|[_ [=]]]]]]].
Defined.

(** ** What the code does where the specification says nothing *)

(** sxe_buffer_clear leaves what was consumed: the length of the empty buffer is then huge. *)
Lemma clear_keeps_consumed :
  exists s, (sxe_buffer_cat (H := true) 1 5;; sxe_buffer_consume 1 3;; sxe_buffer_clear 1;; sxe_buffer_length 1) sample_store
    = Ret (4294967293, s).
Proof. eexists. vm_compute. reflexivity. Qed.

(** sxe_buffer_is_overflow takes the second character of a literal for flags. *)
Lemma literal_is_overflow : exists s, sxe_buffer_is_overflow 5 sample_store = Ret (true, s).
Proof. eexists. vm_compute. reflexivity. Qed.

(** sxe_buffer_cmp reads past the text of a buffer that is not terminated: after appending
    "abc", clearing, and appending a constant "hi", what is compared is "hic". *)
Lemma cmp_reads_past_text :
  exists s, (sxe_buffer_cat (H := true) 1 5;; sxe_buffer_get_str 1;; sxe_buffer_clear 1;; sxe_buffer_cat (H := true) 1 3;;
    sxe_buffer_eq 1 3) sample_store = Ret (false, s).
Proof. eexists. vm_compute. reflexivity. Qed.
