(* ===== verification/Numbers.v ===== *)
(** * Numbers: logarithms, masks and alignment (lib-sxe-util/sxe-unsigned.c, sxe-uint64.c) *)

From S2P Require Import Prelude.

(** lib-sxe-util/sxe-unsigned.c:27-32, sxe_log2_table. The logarithms of the bytes, one per nibble. *)
Definition sxe_log2_table : list Z :=
  [572657920; 858993459; 1145324612; 1145324612; 1431655765; 1431655765; 1431655765; 1431655765;
   1717986918; 1717986918; 1717986918; 1717986918; 1717986918; 1717986918; 1717986918; 1717986918;
   2004318071; 2004318071; 2004318071; 2004318071; 2004318071; 2004318071; 2004318071; 2004318071;
   2004318071; 2004318071; 2004318071; 2004318071; 2004318071; 2004318071; 2004318071; 2004318071].

(** lib-sxe-util/sxe-unsigned.c:34-40, sxe_mask_table. *)
Definition sxe_mask_table : list Z :=
  [1; 3; 7; 15; 31; 63; 127; 255;
   511; 1023; 2047; 4095; 8191; 16383; 32767; 65535;
   131071; 262143; 524287; 1048575; 2097151; 4194303; 8388607; 16777215;
   33554431; 67108863; 134217727; 268435455; 536870911; 1073741823; 2147483647; 4294967295].

(** The nibble of the table for a byte. *)
Definition log2_entry (number : Z) : outcome Z :=
  e ← load (rd sxe_log2_table (Z.shiftr number 3));
  mret (Z.land (Z.shiftr e (Z.land number 7 * 4)) 15).

(** lib-sxe-util/sxe-unsigned.c:42-66, sxe_unsigned_log2. *)
Definition sxe_unsigned_log2 (number : Z) : outcome Z :=
  let go shift := e ← log2_entry (Z.shiftr number shift); mret (u32 (e + shift)) in
  if 65535 <? number then
    if 16777215 <? number then go 24 else go 16
  else if 255 <? number then go 8
  else log2_entry number.

(** lib-sxe-util/sxe-unsigned.c:68-72, sxe_unsigned_mask. *)
Definition sxe_unsigned_mask (number : Z) : outcome Z :=
  l ← sxe_unsigned_log2 number; load (rd sxe_mask_table l).

(** __builtin_clzll: the leading zeros of 64 bits; undefined at 0. *)
Definition builtin_clzll (value : Z) : outcome Z := if value =? 0 then Fault else Ret (63 - Z.log2 value).

(** lib-sxe-util/sxe-uint64.c:31-35, sxe_uint64_log2. *)
Definition sxe_uint64_log2 (value : Z) : outcome Z := c ← builtin_clzll value; mret (u32 (63 - c)).

(** lib-sxe-util/sxe-uint64.c:37-46, sxe_uint64_align. A division by zero is a fault. *)
Definition sxe_uint64_align (value multiple : Z) : outcome Z :=
  let aligned mod_ := if mod_ =? 0 then value else u64 (value - mod_ + multiple) in
  if negb (Z.land multiple (u64 (multiple - 1)) =? 0) then
    if multiple =? 0 then Fault else mret (aligned (value mod multiple))
  else mret (aligned (Z.land value (u64 (multiple - 1)))).

(** ** Correctness *)

Definition log2_byte_ok (n : Z) : bool := bool_decide (log2_entry n = Ret (Z.log2 n)).

Lemma log2_entry_ok n : 0 <= n < 256 -> log2_entry n = Ret (Z.log2 n).
Proof.
  intros Hn. assert (forallb log2_byte_ok (seqZ 0 256) = true) as H by (vm_compute; reflexivity).
  rewrite forallb_forall in H. specialize (H n). unfold log2_byte_ok in H. rewrite bool_decide_eq_true in H.
  apply H, list_elem_of_In, elem_of_seqZ. lia.
Qed.

Lemma log2_shift n k : 0 <= k -> 2 ^ k <= n -> Z.log2 (Z.shiftr n k) + k = Z.log2 n.
Proof.
  intros Hk Hn. pose proof (Z.pow_pos_nonneg 2 k ltac:(lia) Hk). rewrite Z.log2_shiftr by lia.
  pose proof (Z.log2_le_mono _ _ Hn) as Hl. rewrite Z.log2_pow2 in Hl by lia. lia.
Qed.

Lemma unsigned_log2_run n : is_u32 n -> sxe_unsigned_log2 n = Ret (Z.log2 n).
Proof.
  unfold is_u32. intros Hn. unfold sxe_unsigned_log2.
  assert (Hgo : forall k, 0 <= k <= 24 -> 2 ^ k <= n < 2 ^ (k + 8) ->
    (e ← log2_entry (Z.shiftr n k); mret (u32 (e + k))) = Ret (Z.log2 n)).
  { intros k Hk Hb. rewrite log2_entry_ok.
    - cbn. rewrite log2_shift by lia. rewrite u32_small; [done|]. unfold is_u32. pose proof (Z.log2_nonneg n).
      pose proof (Z.log2_lt_pow2 n (k + 8) ltac:(lia)). lia.
    - rewrite Z.shiftr_div_pow2 by lia. rewrite Z.pow_add_r in Hb by lia. pose proof (Z.pow_pos_nonneg 2 k).
      split; [apply Z.div_pos; lia|]. apply Z.div_lt_upper_bound; lia. }
  destruct (Z.ltb_spec 65535 n).
  - destruct (Z.ltb_spec 16777215 n); apply Hgo; simpl; lia.
  - destruct (Z.ltb_spec 255 n); [apply Hgo; simpl; lia|]. apply log2_entry_ok. lia.
Qed.

Lemma mask_table_ok l : 0 <= l < 32 -> rd sxe_mask_table l = Some (2 ^ (l + 1) - 1).
Proof.
  intros Hl. assert (forallb (fun l => bool_decide (rd sxe_mask_table l = Some (2 ^ (l + 1) - 1))) (seqZ 0 32) = true) as H
    by (vm_compute; reflexivity).
  rewrite forallb_forall in H. specialize (H l). rewrite bool_decide_eq_true in H.
  apply H, list_elem_of_In, elem_of_seqZ. lia.
Qed.

(** The logarithm of a number is that of its highest bit (0 for 0), by table and by the
    count of leading zeros, and its mask is the smallest run of low bits that covers it. *)
Theorem sxe_log2_mask_spec n :
  is_u32 n -> 0 < n ->
  sxe_unsigned_log2 n = Ret (Z.log2 n) /\ sxe_uint64_log2 n = Ret (Z.log2 n) /\
  exists k, 0 < k <= 32 /\ sxe_unsigned_mask n = Ret (2 ^ k - 1) /\ Z.land n (2 ^ k - 1) = n /\
    forall j, 0 <= j -> Z.land n (2 ^ j - 1) = n -> k <= j.
Proof.
  intros Hn Hp. pose proof (Z.log2_nonneg n) as Hl. pose proof (Z.log2_spec n Hp) as [Hlo Hhi].
  assert (Z.log2 n < 32) as Hl'. { unfold is_u32 in Hn. pose proof (Z.log2_lt_pow2 n 32 ltac:(lia)). simpl in *. lia. }
  split; [by apply unsigned_log2_run|]. split.
  { unfold sxe_uint64_log2, builtin_clzll. rewrite (proj2 (Z.eqb_neq n 0)) by lia. cbn.
    rewrite u32_small; [|unfold is_u32]; [f_equal|]; lia. }
  exists (Z.log2 n + 1). split; [lia|]. unfold sxe_unsigned_mask. rewrite unsigned_log2_run by done. cbn [mbind outcome_bind].
  rewrite mask_table_ok by lia. split; [done|].
  assert (Hones : forall j, 0 <= j -> Z.land n (2 ^ j - 1) = n mod 2 ^ j).
  { intros j Hj. rewrite <-Z.land_ones by done. f_equal. rewrite Z.ones_equiv. lia. }
  split; [rewrite Hones by lia; apply Z.mod_small; lia|].
  intros j Hj. rewrite Hones by done. intros E. pose proof (Z.mod_pos_bound n (2 ^ j) ltac:(apply Z.pow_pos_nonneg; lia)).
  pose proof (proj1 (Z.log2_lt_pow2 n j Hp)). lia.
Qed.

Lemma sxe_log2_mask_spec_witness :
  sxe_unsigned_log2 66051 = Ret 16 /\ sxe_unsigned_mask 66051 = Ret 131071 /\ is_u32 66051 /\
  sxe_unsigned_log2 66051 = Ret (Z.log2 66051).
Proof.
  split; [vm_compute; reflexivity|]. split; [vm_compute; reflexivity|]. split; [unfold is_u32; lia|].
  apply sxe_log2_mask_spec; unfold is_u32; lia.
Defined.

(** A number without common bits with its predecessor is a power of two. *)
Lemma land_pred_pow2 m : 0 < m -> Z.land m (m - 1) = 0 -> m = 2 ^ Z.log2 m.
Proof.
  intros Hm E. pose proof (Z.log2_nonneg m) as Hl. pose proof (Z.log2_spec m Hm) as [Hlo Hhi].
  destruct (Z.eq_dec m (2 ^ Z.log2 m)) as [|Hne]; [done|exfalso].
  assert (Z.log2 (m - 1) = Z.log2 m) as El by (apply Z.log2_unique; lia).
  assert (Z.testbit (Z.land m (m - 1)) (Z.log2 m) = true) as Hb.
  { rewrite Z.land_spec, Z.bit_log2 by lia. rewrite <-El at 1. rewrite Z.bit_log2; [done|].
    pose proof (Z.pow_pos_nonneg 2 (Z.log2 m)). lia. }
  by rewrite E, Z.bits_0 in Hb.
Qed.

Lemma land_pred_mod v m : 0 < m -> Z.land m (m - 1) = 0 -> Z.land v (m - 1) = v mod m.
Proof.
  intros Hm E. rewrite (land_pred_pow2 m Hm E). rewrite <-Z.land_ones by apply Z.log2_nonneg. by rewrite Z.ones_equiv.
Qed.

(** aligning a value gives the least multiple not below it, for any multiple but zero,
    powers of two (by masking) and others (by division), when it fits 64 bits. *)
Theorem sxe_uint64_align_spec value multiple :
  is_u64 value -> 0 < multiple -> value + multiple < 18446744073709551616 ->
  exists r, sxe_uint64_align value multiple = Ret r /\ (multiple | r) /\ value <= r < value + multiple.
Proof.
  unfold is_u64. intros Hv Hm Hs. unfold sxe_uint64_align. rewrite u64_small by (unfold is_u64; lia).
  pose proof (Z.mod_pos_bound value multiple Hm) as Hb. pose proof (Z.div_mod value multiple ltac:(lia)) as Hd.
  assert (Hal : forall r, r = value mod multiple ->
    (multiple | if r =? 0 then value else u64 (value - r + multiple)) /\
    value <= (if r =? 0 then value else u64 (value - r + multiple)) < value + multiple).
  { intros r ->. destruct (Z.eqb_spec (value mod multiple) 0) as [E|E].
    - split; [by apply Z.mod_divide; [lia|]|lia].
    - rewrite u64_small by (unfold is_u64; lia). split; [|lia]. exists (value / multiple + 1). lia. }
  destruct (Z.eqb_spec (Z.land multiple (multiple - 1)) 0) as [E|E]; cbn [negb].
  - eexists. split; [done|]. apply Hal. rewrite land_pred_mod; done || lia.
  - rewrite (proj2 (Z.eqb_neq multiple 0)) by lia. eexists. split; [done|]. by apply Hal.
Qed.

Lemma sxe_uint64_align_spec_witness :
  (exists r, sxe_uint64_align 13 8 = Ret r /\ (8 | r) /\ 13 <= r < 13 + 8) /\ sxe_uint64_align 13 8 = Ret 16 /\
  sxe_uint64_align 13 6 = Ret 18.
Proof. split; [apply sxe_uint64_align_spec; unfold is_u64; lia|]. split; vm_compute; reflexivity. Defined.
