(* ===== verification/StrUtil.v ===== *)
(** * StrUtil: string functions (lib-sxe-util/sxe-str.c, sxe-rot13.c, lib-sxe-log/sxe-strlcpy.c,
    sxe-str-encode.c)

    A string argument is the memory from its pointer to the end of its object, and a pointer
    into it is an offset. *)

From S2P Require Import Prelude CString Hex.

(** ** Searching at most n characters (lib-sxe-util/sxe-str.c) *)

(** A search loop from [i] up to [last]; [test i] tells whether to stop there without a
    result, or with one, or to go on. The end of the object bounds the iterations. *)
Inductive verdict := Stop | Hit | Next.

Fixpoint search_up (fuel : nat) (test : Z -> outcome verdict) (i last : Z) : outcome (option Z) :=
  match fuel with
  | O => Fault
  | S fuel =>
      if i <=? last then
        v ← test i;
        match v with Stop => mret None | Hit => mret (Some i) | Next => search_up fuel test (i + 1) last end
      else mret None
  end.

(** A search loop from [i] down to 0. *)
Fixpoint search_down (fuel : nat) (test : Z -> outcome verdict) (i : Z) : outcome (option Z) :=
  match fuel with
  | O => Fault
  | S fuel =>
      if 0 <=? i then
        v ← test i;
        match v with Stop => mret None | Hit => mret (Some i) | Next => search_down fuel test (i - 1) end
      else mret None
  end.

(** lib-sxe-util/sxe-str.c:25-41, sxe_strnchr. *)
Definition sxe_strnchr (buf : list Z) (c n : Z) : outcome (option Z) :=
  search_up (S (length buf)) (fun i =>
    b ← load (rd buf i);
    mret (if b =? 0 then Stop else if b =? c then Hit else Next)) 0 (u32 (n - 1)).

(** lib-sxe-util/sxe-str.c:43-55, sxe_rstrnchr. *)
Definition sxe_rstrnchr (buf : list Z) (c n : Z) : outcome (option Z) :=
  search_down (S (length buf)) (fun i =>
    b ← load (rd buf i); mret (if b =? c then Hit else Next)) (u32 (n - 1)).

(** The inner loop of sxe_strncspn: is [b] in the string [reject]? *)
Fixpoint in_reject (reject : list Z) (b : Z) : outcome bool :=
  match reject with
  | [] => Fault
  | r :: reject => if r =? 0 then mret false else if b =? r then mret true else in_reject reject b
  end.

(** lib-sxe-util/sxe-str.c:57-72, sxe_strncspn. *)
Definition sxe_strncspn (buf reject : list Z) (n : Z) : outcome (option Z) :=
  search_up (S (length buf)) (fun i =>
    b ← load (rd buf i);
    if b =? 0 then mret Stop
    else r ← in_reject reject b; mret (if (r : bool) then Hit else Next)) 0 (n - 1).

(** memcmp of the strings at [i] and [str], equal or not. *)
Definition memeq (buf : list Z) (i : Z) (str : list Z) (n : Z) : outcome bool :=
  a ← load (slice buf i n); b ← load (slice str 0 n); mret (bool_decide (a = b)).

(** lib-sxe-util/sxe-str.c:74-95, sxe_strnstr. *)
Definition sxe_strnstr (buf str : list Z) (n : Z) : outcome (option Z) :=
  length_ ← load (strlen str);
  let len := u32 length_ in
  if n <? len then mret None
  else
    search_up (S (length buf)) (fun i =>
      b ← load (rd buf i);
      if b =? 0 then mret Stop
      else e ← memeq buf i str len; mret (if (e : bool) then Hit else Next)) 0 (n - len).

(** lib-sxe-util/sxe-str.c:97-110, sxe_rstrnstr. *)
Definition sxe_rstrnstr (haystack needle : list Z) (haystack_len : Z) : outcome (option Z) :=
  length_ ← load (strlen needle);
  let needle_len := u32 length_ in
  search_down (S (length haystack)) (fun i =>
    e ← memeq haystack i needle needle_len; mret (if (e : bool) then Hit else Next)) (haystack_len - needle_len).

(** tolower of an ASCII character. *)
Definition tolower (c : Z) : Z := if (65 <=? c) && (c <=? 90) then c + 32 else c.

(** strncasecmp of the strings at [i] and [str], equal or not. *)
Fixpoint strncaseeq (n : nat) (s t : list Z) : option bool :=
  match n with
  | O => Some true
  | S n =>
      match s, t with
      | a :: s, b :: t => if tolower a =? tolower b then (if a =? 0 then Some true else strncaseeq n s t) else Some false
      | _, _ => None
      end
  end.

(** lib-sxe-util/sxe-str.c:112-133, sxe_strncasestr. *)
Definition sxe_strncasestr (buf str : list Z) (n : Z) : outcome (option Z) :=
  length_ ← load (strlen str);
  let len := u32 length_ in
  if n <? len then mret None
  else
    search_up (S (length buf)) (fun i =>
      b ← load (rd buf i);
      if b =? 0 then mret Stop
      else e ← load (strncaseeq (Z.to_nat len) (drop (Z.to_nat i) buf) str); mret (if (e : bool) then Hit else Next)) 0 (n - len).

(** ** Copying (lib-sxe-log/sxe-strlcpy.c) *)

(** The loops that copy: [n] characters to go at most from [source[i]] to
    [destination[i + at_]]; stops at a NUL, which is copied. *)
Fixpoint copy_loop (n : nat) (destination source : list Z) (at_ i : Z) : outcome (list Z * Z * bool) :=
  match n with
  | O => Ret (destination, i, false)
  | S n =>
      c ← load (rd source i);
      destination ← wr destination (i + at_) c;
      if c =? 0 then Ret (destination, i, true) else copy_loop n destination source at_ (i + 1)
  end.

(** for (; source[i]; i++): the rest of the source. *)
Definition count_rest (source : list Z) (i : Z) : outcome Z :=
  if i <=? zlen source then n ← load (strlen (drop (Z.to_nat i) source)); mret (i + n) else Fault.

(** lib-sxe-log/sxe-strlcpy.c:39-59, sxe_strlcpy. The loop bound is a size_t, at most the
    bytes of the source and one. *)
Definition sxe_strlcpy (destination source : list Z) (size : Z) : outcome (Z * list Z) :=
  '(destination, i, nul) ← copy_loop (Z.to_nat (Z.min size (zlen source + 1))) destination source 0 0;
  if (nul : bool) then mret (i, destination)
  else
    destination ← wr destination (u64 (size - 1)) 0;
    i ← count_rest source i;
    mret (i, destination).

(** The loop over the existing string: its length, at most [size]. *)
Fixpoint existing (n : nat) (destination : list Z) (i : Z) : outcome Z :=
  match n with
  | O => Ret i
  | S n => c ← load (rd destination i); if c =? 0 then Ret i else existing n destination (i + 1)
  end.

(** lib-sxe-log/sxe-strlcpy.c:71-97, sxe_strlcat. *)
Definition sxe_strlcat (destination source : list Z) (size : Z) : outcome (Z * list Z) :=
  len ← existing (Z.to_nat (Z.min size (zlen destination + 1))) destination 0;
  '(destination, i, nul) ← copy_loop (Z.to_nat (Z.min (size - len) (zlen source + 1))) destination source len 0;
  if (nul : bool) then mret (len + i, destination)
  else
    destination ← wr destination (u64 (size - 1)) 0;
    i ← count_rest source i;
    mret (len + i, destination).

(** ** Encoding (lib-sxe-log/sxe-str-encode.c) *)

(** isspace and isprint in the C locale; a char argument that is negative is neither. *)
Definition isspace (c : Z) : bool := (c =? 32) || ((9 <=? c) && (c <=? 13)).
Definition isprint (c : Z) : bool := (32 <=? c) && (c <=? 126).

(** An upper case hexadecimal digit. *)
Definition upper_digit (d : Z) : Z := if d <? 10 then 48 + d else 55 + d.

(** What snprintf(.., 4, "=%02X", c) stores before its NUL: an int argument that is negative
    has eight digits, of which two fit. *)
Definition escape (c : Z) : list Z :=
  if schar c <? 0 then [61; 70; 70] else [61; upper_digit (c / 16); upper_digit (c mod 16)].

(** if (i == size - 1) break. *)
Definition is_last (i size : Z) : bool := i =? u32 (size - 1).

(** The loop of sxe_strn_encode: the buffer, i and j when it ends. *)
Fixpoint encode_loop (n : nat) (buffer : list Z) (size : Z) (string : list Z) (i j : Z) : outcome (list Z * Z * Z) :=
  match n with
  | O => Ret (buffer, i, j)
  | S n =>
      c ← load (rd string j);
      if c =? 0 then Ret (buffer, i, j)
      else if c =? 32 then
        buffer ← wr buffer i 95;
        let i := i + 1 in
        if is_last i size then Ret (buffer, i, j) else encode_loop n buffer size string i (j + 1)
      else if (c =? 95) || (c =? 61) || isspace (schar c) || negb (isprint (schar c)) then
        if size <=? i + 3 then Ret (buffer, i, j)
        else
          buffer ← wr_bytes buffer i (escape c ++ [0]);
          let i := i + 3 in
          if is_last i size then Ret (buffer, i, j) else encode_loop n buffer size string i (j + 1)
      else
        buffer ← wr buffer i c;
        let i := i + 1 in
        if is_last i size then Ret (buffer, i, j) else encode_loop n buffer size string i (j + 1)
  end.

(** lib-sxe-log/sxe-str-encode.c:29-67, sxe_strn_encode. Whether the buffer is returned (or
    NULL), and its contents. *)
Definition sxe_strn_encode (buffer : list Z) (size : Z) (string : list Z) (len : Z) : outcome (bool * list Z) :=
  '(buffer, i, j) ← encode_loop (Z.to_nat len) buffer size string 0 0;
  assert1 (i <? size);;
  buffer ← wr buffer i 0;
  more ← (if j <? len then c ← load (rd string j); mret (negb (c =? 0)) else mret false);
  mret (negb more, buffer).

(** ** Rotation (lib-sxe-util/sxe-rot13.c) *)

(** lib-sxe-util/sxe-rot13.c:27-44, sxe_rot13_char. *)
Definition sxe_rot13_char : list Z :=
  [0; 1; 2; 3; 4; 5; 6; 7; 8; 9; 10; 11; 12; 13; 14; 15;
   16; 17; 18; 19; 20; 21; 22; 23; 24; 25; 26; 27; 28; 29; 30; 31;
   32; 33; 34; 35; 36; 37; 38; 39; 40; 41; 42; 43; 44; 45; 46; 47;
   48; 49; 50; 51; 52; 53; 54; 55; 56; 57; 58; 59; 60; 61; 62; 63;
   64; 78; 79; 80; 81; 82; 83; 84; 85; 86; 87; 88; 89; 90; 65; 66;
   67; 68; 69; 70; 71; 72; 73; 74; 75; 76; 77; 91; 92; 93; 94; 95;
   96; 110; 111; 112; 113; 114; 115; 116; 117; 118; 119; 120; 121; 122; 97; 98;
   99; 100; 101; 102; 103; 104; 105; 106; 107; 108; 109; 123; 124; 125; 126; 127;
   128; 129; 130; 131; 132; 133; 134; 135; 136; 137; 138; 139; 140; 141; 142; 143;
   144; 145; 146; 147; 148; 149; 150; 151; 152; 153; 154; 155; 156; 157; 158; 159;
   160; 161; 162; 163; 164; 165; 166; 167; 168; 169; 170; 171; 172; 173; 174; 175;
   176; 177; 178; 179; 180; 181; 182; 183; 184; 185; 186; 187; 188; 189; 190; 191;
   192; 193; 194; 195; 196; 197; 198; 199; 200; 201; 202; 203; 204; 205; 206; 207;
   208; 209; 210; 211; 212; 213; 214; 215; 216; 217; 218; 219; 220; 221; 222; 223;
   224; 225; 226; 227; 228; 229; 230; 231; 232; 233; 234; 235; 236; 237; 238; 239;
   240; 241; 242; 243; 244; 245; 246; 247; 248; 249; 250; 251; 252; 253; 254; 255].

(** lib-sxe-util/sxe-util.h:52-52, SXE_ROT13_CHAR. *)
Definition SXE_ROT13_CHAR (c : Z) : outcome Z := load (rd sxe_rot13_char (u8 c)).

(** lib-sxe-util/sxe-rot13.c:46-63, sxe_rot13_hex_to_nibble. *)
Definition sxe_rot13_hex_to_nibble : list Z :=
  [255; 255; 255; 255; 255; 255; 255; 255; 255; 255; 255; 255; 255; 255; 255; 255;
   255; 255; 255; 255; 255; 255; 255; 255; 255; 255; 255; 255; 255; 255; 255; 255;
   255; 255; 255; 255; 255; 255; 255; 255; 255; 255; 255; 255; 255; 255; 255; 255;
   0; 1; 2; 3; 4; 5; 6; 7; 8; 9; 255; 255; 255; 255; 255; 255;
   255; 255; 255; 255; 255; 255; 255; 255; 255; 255; 255; 255; 255; 255; 10; 11;
   12; 13; 14; 15; 255; 255; 255; 255; 255; 255; 255; 255; 255; 255; 255; 255;
   255; 255; 255; 255; 255; 255; 255; 255; 255; 255; 255; 255; 255; 255; 10; 11;
   12; 13; 14; 15; 255; 255; 255; 255; 255; 255; 255; 255; 255; 255; 255; 255;
   255; 255; 255; 255; 255; 255; 255; 255; 255; 255; 255; 255; 255; 255; 255; 255;
   255; 255; 255; 255; 255; 255; 255; 255; 255; 255; 255; 255; 255; 255; 255; 255;
   255; 255; 255; 255; 255; 255; 255; 255; 255; 255; 255; 255; 255; 255; 255; 255;
   255; 255; 255; 255; 255; 255; 255; 255; 255; 255; 255; 255; 255; 255; 255; 255;
   255; 255; 255; 255; 255; 255; 255; 255; 255; 255; 255; 255; 255; 255; 255; 255;
   255; 255; 255; 255; 255; 255; 255; 255; 255; 255; 255; 255; 255; 255; 255; 255;
   255; 255; 255; 255; 255; 255; 255; 255; 255; 255; 255; 255; 255; 255; 255; 255;
   255; 255; 255; 255; 255; 255; 255; 255; 255; 255; 255; 255; 255; 255; 255; 255].

Fixpoint rot13_in_place_loop (n : nat) (string : list Z) (i : Z) : outcome (list Z) :=
  match n with
  | O => Ret string
  | S n =>
      c ← load (rd string i);
      if c =? 0 then Ret string
      else r ← SXE_ROT13_CHAR c; string ← wr string i r; rot13_in_place_loop n string (i + 1)
  end.

(** lib-sxe-util/sxe-rot13.c:72-85, sxe_strn_rot13_in_place. *)
Definition sxe_strn_rot13_in_place (string : list Z) (len : Z) : outcome (list Z) :=
  rot13_in_place_loop (Z.to_nat len) string 0.

Fixpoint rot13_loop (n : nat) (buffer string : list Z) (i : Z) : outcome (list Z) :=
  match n with
  | O => Ret buffer
  | S n =>
      c ← load (rd string i);
      if c =? 0 then wr buffer i 0
      else r ← SXE_ROT13_CHAR c; buffer ← wr buffer i r; rot13_loop n buffer string (i + 1)
  end.

(** lib-sxe-util/sxe-rot13.c:87-102, sxe_strn_rot13. *)
Definition sxe_strn_rot13 (buffer string : list Z) (len : Z) : outcome (list Z) :=
  rot13_loop (Z.to_nat len) buffer string 0.

(** The table is indexed with the char, not the unsigned char. *)
Fixpoint rot13_hex_digits (text : list Z) (n : nat) (i result : Z) : outcome (option Z) :=
  match n with
  | O => Ret (Some result)
  | S n =>
      c ← load (rd text i);
      if c =? 0 then Ret (Some result)
      else
        d ← load (rd sxe_rot13_hex_to_nibble (u32 (schar c)));
        if d =? 255 then Ret None
        else rot13_hex_digits text n (u32 (i + 1)) (Z.lor (u32 (Z.shiftl result 4)) d)
  end.

(** lib-sxe-util/sxe-rot13.c:104-125, sxe_rot13_hex_to_unsigned. *)
Definition sxe_rot13_hex_to_unsigned (text : list Z) (text_length : Z) : outcome Z :=
  v ← rot13_hex_digits text (Z.to_nat text_length) 0 0;
  mret (match v with Some result => result | None => SXE_UNSIGNED_MAXIMUM end).

(** ** Copying *)

(** The characters of a string that are copied into [n] bytes: with its NUL if it fits. *)
Definition copied (n : nat) (t : list Z) : list Z := take n (t ++ [0]).

Lemma copy_loop_run n : forall t rest src pre old post i at_,
  no_nul t -> drop (Z.to_nat i) src = t ++ 0 :: rest -> 0 <= i -> i + at_ = zlen pre -> length old = length (copied n t) ->
  copy_loop n (pre ++ old ++ post) src at_ i
  = Ret (pre ++ copied n t ++ post, i + Z.min (Z.of_nat n) (zlen t), bool_decide (zlen t < Z.of_nat n)).
Proof.
  induction n as [|n IH]; intros t rest src pre old post i at_ Ht Hsrc Hi Hat Hold.
  { destruct old; [|done]. cbn [copy_loop]. pose proof (zlen_nonneg t). rewrite bool_decide_false by lia.
    replace (i + Z.min (Z.of_nat 0) (zlen t)) with i by lia. done. }
  assert (exists c t', t ++ 0 :: rest = c :: t') as (c & t' & Ec) by (destruct t; simpl; eauto).
  assert (rd src i = Some c) as Erd.
  { unfold rd. rewrite (proj2 (Z.leb_le 0 i)) by done. rewrite <-(Nat.add_0_r (Z.to_nat i)), <-lookup_drop, Hsrc, Ec. done. }
  cbn [copy_loop]. rewrite Erd. cbn [load mbind outcome_bind].
  destruct old as [|o old]; [destruct t; discriminate|]. cbn [app]. rewrite (wr_at pre) by done. cbn [mbind outcome_bind].
  destruct t as [|b t]; injection Ec as <- <-.
  - rewrite Z.eqb_refl. unfold copied in *. cbn [app take] in *. rewrite take_nil in *. destruct old; [|discriminate].
    change (zlen []) with 0. rewrite bool_decide_true by lia. replace (i + Z.min (Z.of_nat (S n)) 0) with i by lia. done.
  - apply Forall_cons in Ht as [Hb Ht]. rewrite (proj2 (Z.eqb_neq b 0)) by done.
    cbn [copied app take length] in Hold. injection Hold as Hold.
    rewrite (assoc_L (++) pre [b]) || idtac.
    replace (pre ++ b :: old ++ post) with ((pre ++ [b]) ++ old ++ post) by (by rewrite <-(assoc_L (++))).
    rewrite (IH t rest src (pre ++ [b]) old post (i + 1) at_); try done; try lia.
    + cbn [copied app take]. rewrite <-!(assoc_L (++)). cbn [app]. rewrite zlen_cons. do 2 f_equal; [f_equal; lia|].
      apply bool_decide_ext. lia.
    + replace (Z.to_nat (i + 1)) with (S (Z.to_nat i)) by lia. rewrite <-(Nat.add_1_r (Z.to_nat i)), <-drop_drop, Hsrc. done.
    + rewrite zlen_app, zlen_cons. change (zlen []) with 0. lia.
Qed.

Lemma existing_run n : forall d pre rest i,
  no_nul d -> i = zlen pre -> zlen d < Z.of_nat n -> existing n (pre ++ d ++ 0 :: rest) i = Ret (i + zlen d).
Proof.
  induction n as [|n IH]; intros d pre rest i Hd -> Hn; [pose proof (zlen_nonneg d); lia|]. cbn [existing].
  destruct d as [|b d]; cbn [app]; rewrite (rd_at pre) by done; cbn [load mbind outcome_bind].
  - cbn. by rewrite Z.add_0_r.
  - apply Forall_cons in Hd as [Hb Hd]. rewrite (proj2 (Z.eqb_neq b 0)) by done. rewrite zlen_cons in Hn |- *.
    replace (pre ++ b :: d ++ 0 :: rest) with ((pre ++ [b]) ++ d ++ 0 :: rest) by (by rewrite <-(assoc_L (++))).
    rewrite IH; try done; [f_equal; lia|rewrite zlen_app; change (zlen [b]) with 1; lia|lia].
Qed.

Lemma count_rest_run t rest k : no_nul t -> 0 <= k <= zlen t -> count_rest (t ++ 0 :: rest) k = Ret (zlen t).
Proof.
  intros Ht Hk. unfold count_rest. pose proof (zlen_nonneg rest).
  rewrite (proj2 (Z.leb_le _ _)) by (rewrite zlen_app, zlen_cons; lia).
  rewrite drop_app_le, strlen_app by (unfold zlen in *; try apply Forall_drop; lia || done).
  cbn. f_equal. unfold zlen in *. rewrite length_drop. lia.
Qed.

(** A copy of [t] behind [pre], cut so that a NUL fits in [size]. *)
Definition cut_copy (size : Z) (t dest : list Z) : list Z :=
  let k := Z.min (zlen t) (size - 1) in take (Z.to_nat k) t ++ 0 :: drop (S (Z.to_nat k)) dest.

Section CutCopy.
Variables (t rest pre dest : list Z) (m : Z).
Hypotheses (Ht : no_nul t) (Hm : 0 < m <= zlen dest).
Let src := t ++ 0 :: rest.

Lemma copy_fits :
  zlen t < m ->
  copy_loop (Z.to_nat (Z.min m (zlen src + 1))) (pre ++ dest) src (zlen pre) 0 = Ret (pre ++ cut_copy m t dest, zlen t, true).
Proof using Ht Hm.
  intros Hf. destruct Hm as [Hm1 Hm2]. assert (zlen src = zlen t + (1 + zlen rest)) as Es by (unfold src; by rewrite zlen_app, zlen_cons).
  pose proof (zlen_nonneg t). pose proof (zlen_nonneg rest). set (n := Z.to_nat (Z.min m (zlen src + 1))).
  assert (copied n t = t ++ [0]) as Ec by (unfold copied; apply take_ge; unfold n, zlen in *; rewrite length_app; simpl; lia).
  rewrite <-(take_drop (length (copied n t)) dest).
  rewrite (copy_loop_run n t rest src pre _ _ 0 (zlen pre)); try done; [|rewrite Ec, length_take, length_app; unfold zlen in *; simpl; lia].
  rewrite bool_decide_true by (unfold n; lia). rewrite Ec, take_drop. unfold cut_copy. rewrite (Z.min_l (zlen t) (m - 1)) by lia.
  rewrite take_zlen, <-(assoc_L (++)). repeat f_equal; [|unfold n; lia].
  rewrite length_app. unfold zlen. simpl. lia.
Qed.

Lemma copy_cuts :
  m <= zlen t ->
  exists d, copy_loop (Z.to_nat (Z.min m (zlen src + 1))) (pre ++ dest) src (zlen pre) 0 = Ret (d, m, false) /\
    wr d (zlen pre + m - 1) 0 = Ret (pre ++ cut_copy m t dest).
Proof using Ht Hm.
  intros Hf. destruct Hm as [Hm1 Hm2]. assert (zlen src = zlen t + (1 + zlen rest)) as Es by (unfold src; by rewrite zlen_app, zlen_cons).
  pose proof (zlen_nonneg rest). replace (Z.min m (zlen src + 1)) with m by lia.
  assert (copied (Z.to_nat m) t = take (Z.to_nat m) t) as Ec by (unfold copied; apply take_app_le; unfold zlen in *; lia).
  exists (pre ++ take (Z.to_nat m) t ++ drop (Z.to_nat m) dest). split.
  { rewrite <-(take_drop (Z.to_nat m) dest) at 1.
    rewrite (copy_loop_run _ t rest src pre _ _ 0 (zlen pre)); try done; [|rewrite Ec, !length_take; unfold zlen in *; lia].
    rewrite bool_decide_false, Ec by lia. do 2 f_equal. f_equal. lia. }
  assert (exists c, take (Z.to_nat m) t = take (Z.to_nat (m - 1)) t ++ [c]) as [c Ec'].
  { destruct (lookup_lt_is_Some_2 t (Z.to_nat (m - 1))) as [c Hc]; [unfold zlen in *; lia|]. exists c.
    rewrite <-(take_S_r t (Z.to_nat (m - 1)) c Hc). f_equal. lia. }
  rewrite Ec', <-(assoc_L (++)), (assoc_L (++) pre). cbn [app]. rewrite wr_at.
  - unfold cut_copy. rewrite (Z.min_r (zlen t) (m - 1)), <-(assoc_L (++)) by lia. do 4 f_equal. f_equal. lia.
  - rewrite zlen_app. unfold zlen in *. rewrite length_take. lia.
Qed.
End CutCopy.

(** Copying and appending with a limit never store past [size] bytes and always leave
    a NUL; as much of the source as fits is there, and the value is the length the whole
    string would have had. *)
Theorem sxe_strlcpy_strlcat_spec t rest d dest size :
  no_nul t -> no_nul d -> 0 < size < 18446744073709551616 -> size <= zlen dest ->
  sxe_strlcpy dest (t ++ 0 :: rest) size = Ret (zlen t, cut_copy size t dest) /\
  (zlen d < size -> forall junk, dest = d ++ 0 :: junk ->
   sxe_strlcat dest (t ++ 0 :: rest) size
   = Ret (zlen d + zlen t, d ++ cut_copy (size - zlen d) t (0 :: junk))).
Proof.
  intros Ht Hd Hs Hsz. pose proof (zlen_nonneg t). split.
  - unfold sxe_strlcpy. destruct (Z.le_gt_cases size (zlen t)) as [Hc|Hc].
    + destruct (copy_cuts t rest [] dest size Ht ltac:(lia) Hc) as (d1 & E & W). change (zlen []) with 0 in E, W. cbn [app] in E, W.
      rewrite E. cbn [mbind outcome_bind]. rewrite u64_small by (unfold is_u64; lia). rewrite Z.add_0_l in W. rewrite W. cbn [mbind outcome_bind].
      by rewrite count_rest_run by (done || lia).
    + pose proof (copy_fits t rest [] dest size Ht ltac:(lia) ltac:(lia)) as E. change (zlen []) with 0 in E. cbn [app] in E. by rewrite E.
  - intros Hl junk ->. unfold sxe_strlcat. pose proof (zlen_nonneg d). pose proof (zlen_nonneg junk).
    rewrite zlen_app, zlen_cons in Hsz.
    rewrite (existing_run _ d [] junk 0) by (done || rewrite ?zlen_app, ?zlen_cons; lia). cbn [mbind outcome_bind]. rewrite Z.add_0_l.
    assert (0 < size - zlen d <= zlen (0 :: junk)) as Hm by (rewrite zlen_cons; lia).
    destruct (Z.le_gt_cases (size - zlen d) (zlen t)) as [Hc|Hc].
    + destruct (copy_cuts t rest d (0 :: junk) (size - zlen d) Ht Hm Hc) as (d1 & E & W).
      rewrite E. cbn [mbind outcome_bind]. rewrite u64_small by (unfold is_u64; lia).
      replace (size - 1) with (zlen d + (size - zlen d) - 1) by lia. rewrite W. cbn [mbind outcome_bind].
      by rewrite count_rest_run by (done || lia).
    + by rewrite (copy_fits t rest d (0 :: junk) (size - zlen d) Ht Hm ltac:(lia)).
Qed.

Lemma sxe_strlcpy_strlcat_spec_witness :
  sxe_strlcpy [9; 9; 9] [97; 98; 99; 100; 0] 3 = Ret (4, [97; 98; 0]) /\
  sxe_strlcat [97; 0; 9; 9] [98; 99; 100; 0] 3 = Ret (4, [97; 98; 0; 9]).
Proof.
  split.
  - refine (proj1 (sxe_strlcpy_strlcat_spec [97; 98; 99; 100] [] [] [9; 9; 9] 3 _ _ _ _)); by repeat constructor.
  - refine (proj2 (sxe_strlcpy_strlcat_spec [98; 99; 100] [] [97] [97; 0; 9; 9] 3 _ _ _ _) _ [9; 9] eq_refl);
      by repeat constructor.
Defined.

(** ** Searching *)

Section Search.
Variables (s : list Z) (test : Z -> outcome verdict).

(** A search upwards ends at the first position where the test does not say to go on. *)
Lemma search_up_spec (last : Z) (verdict_at : Z -> verdict) :
  (forall i, 0 <= i <= last -> test i = Ret (verdict_at i)) ->
  forall fuel i, 0 <= i <= last + 1 -> last + 1 - i < Z.of_nat fuel ->
  exists r, search_up fuel test i last = Ret r /\
    match r with
    | Some j => i <= j <= last /\ verdict_at j = Hit /\ forall k, i <= k < j -> verdict_at k = Next
    | None => (exists j, i <= j <= last /\ verdict_at j = Stop /\ forall k, i <= k < j -> verdict_at k = Next) \/
              forall k, i <= k <= last -> verdict_at k = Next
    end.
Proof using.
  intros Ht. induction fuel as [|fuel IH]; intros i Hi Hf; [lia|]. cbn [search_up].
  destruct (Z.leb_spec i last) as [Hl|Hl]; [|exists None; split; [done|right; lia]].
  rewrite Ht by lia. cbn [mbind outcome_bind]. destruct (verdict_at i) eqn:Ev.
  - exists None. split; [done|]. left. exists i. repeat split; try lia. done.
  - exists (Some i). split; [done|]. repeat split; try lia. done.
  - destruct (IH (i + 1) ltac:(lia) ltac:(lia)) as (r & Hr & Hspec). exists r. split; [done|].
    assert (Hk : forall j k, (forall k, i + 1 <= k < j -> verdict_at k = Next) -> i <= k < j -> verdict_at k = Next).
    { intros j k H1 H2. destruct (decide (k = i)) as [->|]; [done|]. apply H1. lia. }
    destruct r as [j|].
    + destruct Hspec as (H1 & H2 & H3). repeat split; try lia; eauto.
    + destruct Hspec as [(j & H1 & H2 & H3)|H3]; [left; exists j; repeat split; try lia; eauto|].
      right. intros k H1. destruct (decide (k = i)) as [->|]; [done|]. apply H3. lia.
Qed.
End Search.

(** [t] occurs at [i] of [buf], and no NUL precedes it. *)
Definition occurs (buf t : list Z) (i : Z) : Prop :=
  0 <= i /\ slice buf i (zlen t) = Some t /\ forall j, 0 <= j <= i -> rd buf j <> Some 0.

(** What sxe_strnstr finds at [i]. *)
Definition strnstr_verdict (buf t : list Z) (i : Z) : verdict :=
  if bool_decide (rd buf i = Some 0) then Stop
  else if bool_decide (slice buf i (zlen t) = Some t) then Hit else Next.

Lemma strnstr_test buf t rest i :
  0 <= i < zlen buf -> i + zlen t <= zlen buf ->
  (b ← load (rd buf i); if b =? 0 then mret Stop
   else e ← memeq buf i (t ++ 0 :: rest) (zlen t); mret (if (e : bool) then Hit else Next))
  = Ret (strnstr_verdict buf t i).
Proof.
  intros Hi Hb. destruct (rd_lt buf i Hi) as [b E]. rewrite E. cbn [load mbind outcome_bind]. unfold strnstr_verdict. rewrite E.
  destruct (Z.eqb_spec b 0) as [->|Hne]; [by rewrite bool_decide_true|]. rewrite (bool_decide_false (Some b = Some 0)) by congruence.
  unfold memeq. destruct (slice buf i (zlen t)) as [l|] eqn:El.
  - rewrite slice_prefix. cbn. by destruct (decide (l = t)); subst; rewrite ?bool_decide_true, ?bool_decide_false by congruence.
  - pose proof (zlen_nonneg t). by rewrite slice_Some in El by lia.
Qed.

Lemma occurs_verdict buf t i : occurs buf t i -> strnstr_verdict buf t i = Hit.
Proof.
  intros (H1 & H2 & H3). unfold strnstr_verdict. rewrite bool_decide_false by (apply H3; lia). by rewrite bool_decide_true.
Qed.
Lemma verdict_hit buf t i : strnstr_verdict buf t i = Hit -> slice buf i (zlen t) = Some t /\ rd buf i <> Some 0.
Proof. unfold strnstr_verdict. by repeat case_bool_decide. Qed.
Lemma verdict_next buf t i : strnstr_verdict buf t i = Next -> rd buf i <> Some 0.
Proof. unfold strnstr_verdict. by repeat case_bool_decide. Qed.
Lemma verdict_stop buf t i : strnstr_verdict buf t i = Stop -> rd buf i = Some 0.
Proof. unfold strnstr_verdict. by repeat case_bool_decide. Qed.

(** searching the first [n] characters of a buffer for a string that is not empty finds the first occurrence
    that lies within them and before any NUL, and nothing when there is none; the
    search never reads beyond the [n] characters. *)
Theorem sxe_strnstr_spec buf t rest n :
  no_nul t -> 0 < zlen t < 4294967296 -> 0 <= n <= zlen buf ->
  exists r, sxe_strnstr buf (t ++ 0 :: rest) n = Ret r /\
    match r with
    | Some i => occurs buf t i /\ i + zlen t <= n /\ forall j, j < i -> ~ occurs buf t j
    | None => forall j, j + zlen t <= n -> j < zlen buf -> ~ occurs buf t j
    end.
Proof.
  intros Ht Hl Hn. unfold sxe_strnstr. rewrite strlen_app by done. cbn [load mbind outcome_bind].
  rewrite u32_small by (unfold is_u32; lia).
  destruct (Z.ltb_spec n (zlen t)) as [Hlt|Hge].
  { exists None. split; [done|]. intros j Hj _ (Hj0 & _). lia. }
  destruct (search_up_spec (fun i => b ← load (rd buf i); if b =? 0 then mret Stop
      else e ← memeq buf i (t ++ 0 :: rest) (zlen t); mret (if (e : bool) then Hit else Next))
    (n - zlen t) (strnstr_verdict buf t) ltac:(intros; apply strnstr_test; lia) (S (length buf)) 0)
    as (r & Hr & Hspec); [lia|unfold zlen in *; lia|].
  exists r. split; [exact Hr|].
  assert (Hnext : forall i j, i < n - zlen t + 1 -> (forall k, 0 <= k < i -> strnstr_verdict buf t k = Next) -> j < i -> ~ occurs buf t j).
  { intros i j Hi H1 H2 H3. pose proof H3 as (H4 & _). specialize (H1 j ltac:(lia)). by rewrite (occurs_verdict _ _ _ H3) in H1. }
  destruct r as [i|].
  - destruct Hspec as (H1 & H2 & H3). split; [|split; [lia|]].
    + apply verdict_hit in H2 as [H2 H4]. split; [lia|]. split; [done|]. intros j Hj.
      destruct (decide (j = i)) as [->|]; [done|]. apply (verdict_next buf t), H3. lia.
    + intros j Hj. apply (Hnext i); [lia|done|done].
  - intros j Hj Hjb Ho. pose proof Ho as (Hj0 & _ & Hnul). destruct Hspec as [(i & H1 & H2 & H3)|H3].
    + destruct (Z.lt_ge_cases j i) as [Hji|]; [by destruct (Hnext i j ltac:(lia) H3 Hji Ho)|].
      apply (Hnul i); [lia|]. by eapply verdict_stop.
    + specialize (H3 j ltac:(lia)). by rewrite (occurs_verdict _ _ _ Ho) in H3.
Qed.

Lemma sxe_strnstr_spec_witness :
  (exists r, sxe_strnstr [97; 98; 97; 98; 99; 97] [98; 99; 0] 6 = Ret r /\
    match r with
    | Some i => occurs [97; 98; 97; 98; 99; 97] [98; 99] i /\ i + zlen [98; 99] <= 6 /\
        forall j, j < i -> ~ occurs [97; 98; 97; 98; 99; 97] [98; 99] j
    | None => forall j, j + zlen [98; 99] <= 6 -> j < zlen [97; 98; 97; 98; 99; 97] -> ~ occurs [97; 98; 97; 98; 99; 97] [98; 99] j
    end) /\
  sxe_strnstr [97; 98; 97; 98; 99; 97] [98; 99; 0] 6 = Ret (Some 3) /\
  sxe_strnstr [97; 98; 97; 98; 99; 97] [98; 99; 0] 4 = Ret None.
Proof.
  split; [|split; vm_compute; reflexivity].
  apply (sxe_strnstr_spec [97; 98; 97; 98; 99; 97] [98; 99] [] 6); [by repeat constructor|unfold zlen; simpl; lia..].
Defined.

(** With a count of 0, the last character sxe_strnchr looks at is 4 GB away. *)
Lemma strnchr_of_nothing : sxe_strnchr [97; 98] 98 0 = Ret (Some 1).
Proof. vm_compute. reflexivity. Qed.

(** ** Encoding *)

Definition special (c : Z) : bool := (c =? 95) || (c =? 61) || isspace (schar c) || negb (isprint (schar c)).

(** The encoding of a character, and of a text. *)
Definition enc (c : Z) : list Z := if c =? 32 then [95] else if special c then escape c else [c].
Definition encoded (t : list Z) : list Z := t ≫= enc.

(** The reader of encoded texts. *)
Definition upper_value (c : Z) : Z := if c <? 65 then c - 48 else c - 55.
Fixpoint decode (l : list Z) : option (list Z) :=
  match l with
  | [] => Some []
  | c :: l =>
      if c =? 95 then cons 32 <$> decode l
      else if c =? 61 then
        match l with h :: o :: l => cons (16 * upper_value h + upper_value o) <$> decode l | _ => None end
      else cons c <$> decode l
  end.

Definition ascii (c : Z) : Prop := 0 < c < 128.

Lemma schar_ascii c : ascii c -> schar c = c.
Proof. unfold ascii, schar. intros. by replace (c <? 128) with true by lia. Qed.

Lemma upper_value_digit d : 0 <= d < 16 -> upper_value (upper_digit d) = d.
Proof. intros Hd. unfold upper_value, upper_digit. destruct (Z.ltb_spec d 10); case_if; lia. Qed.

Lemma decode_enc c l : ascii c -> decode (enc c ++ l) = cons c <$> decode l.
Proof.
  intros Hc. unfold enc. destruct (Z.eqb_spec c 32) as [->|H32]; [done|]. destruct (special c) eqn:E.
  - unfold escape. rewrite schar_ascii by done. unfold ascii in Hc. replace (c <? 0) with false by lia. cbn.
    rewrite !upper_value_digit by (Z.to_euclidean_division_equations; lia).
    by rewrite <-(Z.div_mod c 16) by lia.
  - unfold special in E. apply orb_false_iff in E as [[[E1 E2]%orb_false_iff _]%orb_false_iff _]. cbn. by rewrite E1, E2.
Qed.

Lemma decode_encoded t : Forall ascii t -> decode (encoded t) = Some t.
Proof.
  induction 1 as [|c t Hc Ht IH]; [done|]. unfold encoded in *. cbn [mbind list_bind]. rewrite decode_enc by done.
  setoid_rewrite IH. done.
Qed.

Lemma enc_no_nul t : Forall ascii t -> no_nul (encoded t).
Proof.
  induction 1 as [|c t Hc Ht IH]; [constructor|]. unfold encoded. cbn [mbind list_bind]. apply Forall_app. split; [|done].
  unfold enc, escape, ascii in *. destruct (Z.eqb_spec c 32); [by repeat constructor|]. case_if; [|by constructor; [lia|constructor]].
  rewrite schar_ascii by done. replace (c <? 0) with false by lia. unfold upper_digit.
  repeat constructor; try lia; case_if; Z.to_euclidean_division_equations; lia.
Qed.

Lemma enc_length c : 0 < zlen (enc c) <= 3 /\ (c <> 32 -> special c = true -> zlen (enc c) = 3 /\ enc c = escape c).
Proof.
  unfold enc, escape. destruct (Z.eqb_spec c 32); [split; [by change (zlen [95]) with 1|done]|].
  destruct (special c); [|split; [by change (zlen [c]) with 1|done]]. by case_if.
Qed.

(** One character: the loop stops because its escape would not fit, or stores it. *)
Lemma encode_step n pre old size string i j c :
  rd string j = Some c -> c <> 0 -> i = zlen pre -> i < size - 1 -> size < 4294967296 -> size <= zlen (pre ++ old) ->
  encode_loop (S n) (pre ++ old) size string i j = Ret (pre ++ old, i, j) /\ size - 1 <= i + zlen (enc c) \/
  i + zlen (enc c) <= size - 1 /\ exists old', zlen (enc c ++ old') = zlen old /\
    encode_loop (S n) (pre ++ old) size string i j =
      if i + zlen (enc c) =? size - 1 then Ret (pre ++ enc c ++ old', i + zlen (enc c), j)
      else encode_loop n (pre ++ enc c ++ old') size string (i + zlen (enc c)) (j + 1).
Proof.
  intros Er Hc Hi Hl Hs Hz. rewrite zlen_app in Hz. pose proof (zlen_nonneg pre).
  assert (Hlast : forall k, is_last k size = (k =? size - 1)) by (intros k; unfold is_last; by rewrite u32_small by (unfold is_u32; lia)).
  cbn [encode_loop]. rewrite Er. cbn [load mbind outcome_bind]. rewrite (proj2 (Z.eqb_neq c 0)) by done.
  fold (special c). destruct (Z.eqb_spec c 32) as [->|H32]; [|destruct (special c) eqn:Es].
  - right. change (zlen (enc 32)) with 1. split; [lia|]. destruct old as [|o old]; [unfold zlen in *; simpl in *; lia|].
    exists old. split; [done|]. rewrite (wr_at pre) by done. cbn [mbind outcome_bind]. by rewrite Hlast.
  - destruct (proj2 (enc_length c) H32 Es) as [El Ee]. rewrite El. destruct (Z.leb_spec size (i + 3)) as [Hb|Hb]; [left; split; [done|lia]|].
    right. split; [lia|]. rewrite <-Ee.
    assert (length (take 4 old) = 4%nat) as Ht by (rewrite length_take; unfold zlen in *; lia).
    exists (0 :: drop 4 old). split; [rewrite zlen_app, El, zlen_cons; unfold zlen in *; rewrite length_drop; lia|].
    rewrite <-(take_drop 4 old) at 1. rewrite wr_bytes_at; [|done|rewrite length_app; unfold zlen in El; simpl; lia].
    cbn [mbind outcome_bind]. rewrite Hlast. by rewrite <-(assoc_L (++)).
  - right. unfold enc. rewrite (proj2 (Z.eqb_neq c 32)), Es by done. change (zlen [c]) with 1. split; [lia|].
    destruct old as [|o old]; [unfold zlen in *; simpl in *; lia|].
    exists old. split; [done|]. rewrite (wr_at pre) by done. cbn [mbind outcome_bind]. by rewrite Hlast.
Qed.

Lemma encoded_cons c t : encoded (c :: t) = enc c ++ encoded t.
Proof. done. Qed.

(** The loop stores the encoding of the first [k] characters; of all of them exactly when
    one more byte would still fit before the last. *)
Lemma encode_loop_run rest size string : size < 4294967296 ->
  forall t n pre old i j,
  Forall ascii t -> 0 <= j -> drop (Z.to_nat j) string = t ++ 0 :: rest -> (length t <= n)%nat ->
  i = zlen pre -> i < size - 1 -> size <= zlen (pre ++ old) ->
  exists k old' j',
    encode_loop n (pre ++ old) size string i j
      = Ret (pre ++ encoded (take k t) ++ old', i + zlen (encoded (take k t)), j') /\
    zlen (encoded (take k t) ++ old') = zlen old /\ i + zlen (encoded (take k t)) <= size - 1 /\
    if i + zlen (encoded t) <? size - 1 then k = length t /\ j' = j + zlen t else j <= j' < j + zlen t.
Proof.
  intros Hs. induction t as [|c t IH]; intros n pre old i j Ht Hj Hd Hn Hi Hl Hz.
  { exists 0%nat, old, j. change (zlen (encoded [])) with 0. change (zlen []) with 0. rewrite Z.add_0_r, (proj2 (Z.ltb_lt _ _)) by lia.
    split; [|repeat split; lia]. destruct n; [done|]. cbn [encode_loop].
    assert (rd string j = Some 0) as -> by (unfold rd; rewrite (proj2 (Z.leb_le 0 j)), <-(Nat.add_0_r (Z.to_nat j)), <-lookup_drop, Hd by lia; done).
    done. }
  apply Forall_cons in Ht as [Hc Ht]. destruct n as [|n]; [simpl in Hn; lia|].
  assert (rd string j = Some c) as Er by (unfold rd; rewrite (proj2 (Z.leb_le 0 j)), <-(Nat.add_0_r (Z.to_nat j)), <-lookup_drop, Hd by lia; done).
  rewrite encoded_cons, zlen_app, zlen_cons. pose proof (zlen_nonneg (encoded t)). pose proof (zlen_nonneg t). pose proof (enc_length c) as [Hlc _].
  destruct (encode_step n pre old size string i j c Er ltac:(unfold ascii in Hc; lia) Hi Hl Hs Hz)
    as [[E Hb]|[Hb (old1 & Hz1 & E)]].
  { exists 0%nat, old, j. change (zlen (encoded (take 0 (c :: t)))) with 0. rewrite Z.add_0_r, (proj2 (Z.ltb_ge _ _)) by lia.
    repeat split; [exact E|lia..]. }
  destruct (Z.eqb_spec (i + zlen (enc c)) (size - 1)) as [El|El].
  - exists 1%nat, old1, j. rewrite (proj2 (Z.ltb_ge _ _)) by lia. cbn [take]. rewrite take_0, encoded_cons. change (encoded []) with (@nil Z).
    rewrite app_nil_r. repeat split; [exact E|done|lia..].
  - destruct (IH n (pre ++ enc c) old1 (i + zlen (enc c)) (j + 1)) as (k & old' & j' & Er' & Hz' & Hf & Hr); try done; try lia.
    + replace (Z.to_nat (j + 1)) with (S (Z.to_nat j)) by lia. by rewrite <-(Nat.add_1_r (Z.to_nat j)), <-drop_drop, Hd.
    + simpl in Hn. lia.
    + rewrite zlen_app. lia.
    + rewrite !zlen_app in *. lia.
    + exists (S k), old', j'. cbn [take]. rewrite encoded_cons, !zlen_app in *. rewrite E, (assoc_L (++) pre), Er', <-!(assoc_L (++)), !Z.add_assoc.
      repeat split; try lia. replace (i + zlen (enc c) + zlen (encoded t) <? size - 1) with (i + (zlen (enc c) + zlen (encoded t)) <? size - 1) in Hr by (f_equal; lia).
      rewrite Z.add_assoc in Hr. case_if; simpl; lia.
Qed.

(** an ASCII string is encoded into a buffer of at least two bytes without storing
    outside it: what is stored is the NUL terminated encoding of the first characters, from
    which they can be decoded. The buffer is returned, with the whole string in it, exactly
    when its encoding leaves at least one byte unused; otherwise the result is NULL. *)
Theorem sxe_strn_encode_spec t rest buffer size len :
  Forall ascii t -> 2 <= size <= zlen buffer -> size < 4294967296 -> zlen t <= len ->
  exists k buffer', sxe_strn_encode buffer size (t ++ 0 :: rest) len = Ret (zlen (encoded t) <? size - 1, buffer') /\
    zlen buffer' = zlen buffer /\ cstring buffer' = Some (encoded (take k t)) /\
    decode (encoded (take k t)) = Some (take k t) /\ (zlen (encoded t) < size - 1 -> take k t = t).
Proof.
  intros Ht Hsz Hs Hl. pose proof (zlen_nonneg t).
  destruct (encode_loop_run rest size (t ++ 0 :: rest) Hs t (Z.to_nat len) [] buffer 0 0) as (k & old & j & E & Hz & Hf & Hr);
    try done; try (unfold zlen in *; simpl; lia). cbn [app] in E. rewrite Z.add_0_l in *.
  assert (Forall ascii (take k t)) as Htk by (by apply Forall_take). pose proof (zlen_nonneg (encoded (take k t))).
  destruct old as [|o old]; [rewrite app_nil_r in Hz; lia|].
  exists k, (encoded (take k t) ++ 0 :: old). unfold sxe_strn_encode. rewrite E. cbn [mbind outcome_bind].
  rewrite (proj2 (Z.ltb_lt (zlen (encoded (take k t))) size)) by lia. cbn [assert1 mbind outcome_bind]. rewrite wr_at by done. cbn [mbind outcome_bind].
  split; [|split; [by rewrite zlen_app in Hz |- *|split; [by apply cstring_app, enc_no_nul|split; [by apply decode_encoded|]]]].
  - destruct (Z.ltb_spec (zlen (encoded t)) (size - 1)) as [Hfit|Hfit].
    + destruct Hr as [_ ->]. destruct (Z.ltb_spec (0 + zlen t) len); [|done].
      rewrite (rd_at t) by lia. done.
    + destruct (rd_lt t j ltac:(lia)) as [c Ec]. rewrite (proj2 (Z.ltb_lt j len)), rd_app_l, Ec by lia. cbn.
      unfold rd in Ec. destruct (0 <=? j); [|done]. apply list_elem_of_lookup_2 in Ec.
      rewrite Forall_forall in Ht. specialize (Ht c Ec). unfold ascii in Ht. by rewrite (proj2 (Z.eqb_neq c 0)) by lia.
  - intros Hfit. rewrite (proj2 (Z.ltb_lt _ _)) in Hr by lia. destruct Hr as [-> _]. by rewrite take_ge.
Qed.

Lemma sxe_strn_encode_spec_witness :
  exists k buffer', sxe_strn_encode (replicate 9 7) 9 [97; 32; 61; 10; 98; 0] 5
      = Ret (zlen (encoded [97; 32; 61; 10; 98]) <? 9 - 1, buffer') /\
    zlen buffer' = zlen (replicate 9 7) /\ cstring buffer' = Some (encoded (take k [97; 32; 61; 10; 98])) /\
    decode (encoded (take k [97; 32; 61; 10; 98])) = Some (take k [97; 32; 61; 10; 98]) /\
    (zlen (encoded [97; 32; 61; 10; 98]) < 9 - 1 -> take k [97; 32; 61; 10; 98] = [97; 32; 61; 10; 98]).
Proof.
  refine (sxe_strn_encode_spec [97; 32; 61; 10; 98] [] (replicate 9 7) 9 5 _ _ _ _).
  - by repeat constructor.
  - change (zlen (replicate 9 7)) with 9. lia.
  - lia.
  - unfold zlen. simpl. lia.
Defined.

(** A character above 127 is negative as an int: every one of them is encoded as =FF. *)
Lemma encode_high_characters : sxe_strn_encode (replicate 9 7) 9 [233; 0] 1 = Ret (true, [61; 70; 70; 0; 7; 7; 7; 7; 7]).
Proof. vm_compute. reflexivity. Qed.

(** ** Rotation *)

Definition rot13 (c : Z) : Z := default 0 (rd sxe_rot13_char c).

Lemma rot13_char c : is_u8 c -> SXE_ROT13_CHAR c = Ret (rot13 c).
Proof.
  intros Hc. unfold SXE_ROT13_CHAR, rot13. rewrite u8_small by done. destruct (rd_lt sxe_rot13_char c) as [r ->]; [|done].
  unfold is_u8 in Hc. change (zlen sxe_rot13_char) with 256. lia.
Qed.

Lemma rot13_facts c :
  is_u8 c -> is_u8 (rot13 c) /\ rot13 (rot13 c) = c /\ (rot13 c = 0 <-> c = 0) /\ (c < 128 -> rot13 c < 128) /\
    (c < 128 -> rd sxe_rot13_hex_to_nibble (rot13 c) = rd hex_character_to_nibble c).
Proof.
  intros Hc. pose (P := fun c => let r := rot13 c in (0 <=? r) && (r <? 256) && (rot13 r =? c) && eqb (r =? 0) (c =? 0) &&
    ((128 <=? c) || (r <? 128) && bool_decide (rd sxe_rot13_hex_to_nibble r = rd hex_character_to_nibble c))).
  assert (H : P c = true) by (apply all_bytes; [vm_compute; reflexivity|done]). unfold P in H. clear P. cbn zeta in H.
  rewrite !andb_true_iff, orb_true_iff, andb_true_iff, bool_decide_eq_true in H. destruct H as [[[[H1 H2] H3] H4] H5].
  apply eqb_prop in H4. split; [unfold is_u8; lia|]. split; [lia|]. split; [lia|]. split; intros; destruct H5; lia || tauto.
Qed.

Definition char_ok (c : Z) : Prop := 0 < c < 256.

Lemma rot13_run t rest : forall n pre old post i,
  Forall char_ok t -> i = zlen pre -> length old = S (length t) -> (length t < n)%nat ->
  forall src, drop (Z.to_nat i) src = t ++ 0 :: rest ->
  rot13_loop n (pre ++ old ++ post) src i = Ret (pre ++ (rot13 <$> t) ++ 0 :: post).
Proof.
  induction t as [|c t IH]; intros n pre old post i Ht Hi Hold Hn src Hd; (destruct n as [|n]; [simpl in Hn; lia|]); cbn [rot13_loop];
    (destruct old as [|o old]; [discriminate|]); pose proof (zlen_nonneg pre).
  - assert (rd src i = Some 0) as -> by (unfold rd; rewrite (proj2 (Z.leb_le 0 i)), <-(Nat.add_0_r (Z.to_nat i)), <-lookup_drop, Hd by lia; done).
    destruct old; [|discriminate]. cbn [load mbind outcome_bind Z.eqb app]. by rewrite (wr_at pre).
  - assert (rd src i = Some c) as -> by (unfold rd; rewrite (proj2 (Z.leb_le 0 i)), <-(Nat.add_0_r (Z.to_nat i)), <-lookup_drop, Hd by lia; done).
    apply Forall_cons in Ht as [Hc Ht]. unfold char_ok in Hc. cbn [load mbind outcome_bind]. rewrite (proj2 (Z.eqb_neq c 0)) by lia.
    rewrite rot13_char by (unfold is_u8; lia). cbn [mbind outcome_bind app]. rewrite (wr_at pre) by done. cbn [mbind outcome_bind].
    replace (pre ++ rot13 c :: old ++ post) with ((pre ++ [rot13 c]) ++ old ++ post) by (by rewrite <-(assoc_L (++))).
    rewrite (IH n (pre ++ [rot13 c]) old post (i + 1)); try done.
    + by rewrite <-(assoc_L (++)).
    + rewrite zlen_app. change (zlen [rot13 c]) with 1. lia.
    + simpl in Hold. lia.
    + simpl in Hn. lia.
    + replace (Z.to_nat (i + 1)) with (S (Z.to_nat i)) by lia. by rewrite <-(Nat.add_1_r (Z.to_nat i)), <-drop_drop, Hd.
Qed.

Lemma rot13_in_place_run t : forall n pre post i,
  Forall char_ok t -> i = zlen pre -> (length t < n)%nat ->
  rot13_in_place_loop n (pre ++ (rot13 <$> t) ++ 0 :: post) i = Ret (pre ++ t ++ 0 :: post).
Proof.
  induction t as [|c t IH]; intros n pre post i Ht Hi Hn; (destruct n as [|n]; [simpl in Hn; lia|]); cbn [rot13_in_place_loop fmap list_fmap app].
  - by rewrite (rd_at pre) by done.
  - apply Forall_cons in Ht as [Hc Ht]. unfold char_ok in Hc. destruct (rot13_facts c ltac:(unfold is_u8; lia)) as (F1 & F2 & F3 & _).
    rewrite (rd_at pre) by done. cbn [load mbind outcome_bind]. rewrite (proj2 (Z.eqb_neq (rot13 c) 0)) by lia.
    rewrite rot13_char, F2 by done. cbn [mbind outcome_bind]. rewrite (wr_at pre) by done. cbn [mbind outcome_bind].
    replace (pre ++ c :: (rot13 <$> t) ++ 0 :: post) with ((pre ++ [c]) ++ (rot13 <$> t) ++ 0 :: post) by (by rewrite <-(assoc_L (++))).
    setoid_rewrite (IH n (pre ++ [c]) post (i + 1) Ht); [by rewrite <-(assoc_L (++))| |simpl in Hn; lia].
    rewrite zlen_app. change (zlen [c]) with 1. lia.
Qed.

Lemma rot13_hex_run t rest post : forall n pre i v,
  Forall ascii t -> i = zlen pre -> zlen pre + zlen t < 4294967296 ->
  rot13_hex_digits ((rot13 <$> pre) ++ (rot13 <$> t) ++ 0 :: post) n i v = hex_digits (pre ++ t ++ 0 :: rest) n i v.
Proof.
  induction t as [|c t IH]; intros [|n] pre i v Ht Hi Hl; try done; cbn [rot13_hex_digits hex_digits fmap list_fmap app].
  - rewrite (rd_at pre) by done. rewrite (rd_at (rot13 <$> pre)) by (unfold zlen in *; by rewrite length_fmap). done.
  - apply Forall_cons in Ht as [Hc Ht]. unfold ascii in Hc.
    destruct (rot13_facts c ltac:(unfold is_u8; lia)) as (F1 & _ & F3 & F4 & F5). unfold is_u8 in F1.
    specialize (F4 ltac:(lia)). specialize (F5 ltac:(lia)). pose proof (zlen_nonneg pre). pose proof (zlen_nonneg t). rewrite zlen_cons in Hl.
    rewrite (rd_at pre) by done. rewrite (rd_at (rot13 <$> pre)) by (unfold zlen in *; by rewrite length_fmap). cbn [load mbind outcome_bind].
    rewrite (proj2 (Z.eqb_neq c 0)), (proj2 (Z.eqb_neq (rot13 c) 0)) by lia. unfold to_nibble.
    rewrite schar_ascii, (u32_small (rot13 c)), (u8_small c), F5 by (unfold ascii, is_u32, is_u8; lia).
    destruct (rd hex_character_to_nibble c) as [d|]; [|done]. cbn [load mbind outcome_bind]. unfold NA.
    destruct (d =? 255); [done|]. rewrite (u32_small (i + 1)) by (unfold is_u32; lia).
    specialize (IH n (pre ++ [c]) (i + 1) (Z.lor (u32 (Z.shiftl v 4)) d) Ht).
    rewrite fmap_app, <-!(assoc_L (++)) in IH. apply IH; rewrite zlen_app; change (zlen [c]) with 1; lia.
Qed.

(** Rotating a string twice gives it back, in a buffer or in place, and the rotation of
    a hexadecimal text means the same number to the rotated reader as the text to the plain
    one (digits, letters of either case and characters that are not hexadecimal alike). *)
Theorem rot13_spec t rest old post len :
  Forall ascii t -> length old = S (length t) -> zlen t < len -> zlen t < 4294967296 ->
  exists rotated, sxe_strn_rot13 (old ++ post) (t ++ 0 :: rest) len = Ret rotated /\
    sxe_strn_rot13_in_place rotated len = Ret (t ++ 0 :: post) /\
    sxe_rot13_hex_to_unsigned rotated len = sxe_hex_to_unsigned (t ++ 0 :: rest) len.
Proof.
  intros Ht Hold Hl Hs. assert (Forall char_ok t) as Hc by (eapply Forall_impl; [done|]; unfold ascii, char_ok; simpl; lia).
  exists ((rot13 <$> t) ++ 0 :: post). unfold sxe_strn_rot13, sxe_strn_rot13_in_place, sxe_rot13_hex_to_unsigned, sxe_hex_to_unsigned.
  assert (length t < Z.to_nat len)%nat as Hn by (unfold zlen in *; lia). split; [|split].
  - by apply (rot13_run t rest (Z.to_nat len) [] old post 0).
  - by apply (rot13_in_place_run t (Z.to_nat len) [] post 0).
  - pose proof (rot13_hex_run t rest post (Z.to_nat len) [] 0 0 Ht eq_refl Hs) as E. cbn [fmap list_fmap app] in E. by rewrite E.
Qed.

(** "Be" in hexadecimal, rotated: "Or". *)
Lemma rot13_spec_witness :
  exists rotated, sxe_strn_rot13 [9; 9; 9; 8] [66; 101; 0] 3 = Ret rotated /\
    sxe_strn_rot13_in_place rotated 3 = Ret [66; 101; 0; 8] /\
    sxe_rot13_hex_to_unsigned rotated 3 = sxe_hex_to_unsigned [66; 101; 0] 3.
Proof.
  refine (rot13_spec [66; 101] [] [9; 9; 9] [8] 3 _ eq_refl _ _); [by repeat constructor|unfold zlen; simpl; lia|unfold zlen; simpl; lia].
Defined.

(** A character above 127 indexes the table of the rotated reader far out of bounds. *)
Lemma rot13_hex_high_character : sxe_rot13_hex_to_unsigned [233; 0] 1 = Fault.
Proof.
  assert (rd sxe_rot13_hex_to_nibble 4294967273 = None) as E.
  { destruct (rd _ _) as [d|] eqn:E; [|done]. apply rd_Some in E. change (zlen sxe_rot13_hex_to_nibble) with 256 in E. lia. }
  unfold sxe_rot13_hex_to_unsigned. change (Z.to_nat 1) with 1%nat. cbn [rot13_hex_digits].
  change (rd [233; 0] 0) with (Some 233). cbn [load mbind outcome_bind]. change (233 =? 0) with false.
  change (u32 (schar 233)) with 4294967273. by rewrite E.
Qed.
