(* ===== verification/CStr.v ===== *)
(** * CStr: counted C strings, the predecessor of buffers (lib-sxe-cstr)

    As in Buffer, a pointer is the address of a structure or of the characters of a literal.
    The size is a full unsigned here and the length 16 bits, and strings are appended with
    strncat, which looks for the end of the destination itself. *)

From S2P Require Import Prelude CString.

(** lib-sxe-cstr/sxe-cstr.h:34-41, SXE_CSTR. *)
Record SXE_CSTR := mk_cstr {
  cs_literal : Z;
  cs_flags : Z;
  cs_size : Z;
  cs_len : Z;
  cs_buf : Z
}.

Inductive cobject :=
| CStruct (b : SXE_CSTR)
| CChars (l : list Z).

Abbreviation cstore := (gmap Z cobject).

(** lib-sxe-cstr/sxe-cstr.c:32-32, SXE_CSTR_FLAG_IS_CSTR. *)
Definition SXE_CSTR_FLAG_IS_CSTR : Z := 1.
(** lib-sxe-cstr/sxe-cstr.c:33-33, SXE_CSTR_FLAG_OVERFLOW. *)
Definition SXE_CSTR_FLAG_OVERFLOW : Z := 2.
(** lib-sxe-cstr/sxe-cstr.c:34-34, SXE_CSTR_FLAG_IS_CONST. *)
Definition SXE_CSTR_FLAG_IS_CONST : Z := 4.

(** lib-sxe-cstr/sxe-cstr.c:38-38, sxe_cstr_empty. *)
Definition sxe_cstr_empty : cobject := CChars [0; 0].

(** ** Access to objects *)

Definition c_deref (p : Z) : cmd cstore cobject := fun s => lift (load (s !! p)) s.
Definition c_chars_at (p : Z) : cmd cstore (list Z) := fun s =>
  match s !! p with Some (CChars l) => Ret (l, s) | _ => Fault end.
Definition c_set_struct (p : Z) (b : SXE_CSTR) : cmd cstore unit := modify <[p := CStruct b]>.
Definition c_get_literal (o : cobject) : outcome Z :=
  match o with CStruct b => Ret (cs_literal b) | CChars l => load (rd l 0) end.
Definition c_get_flags (o : cobject) : outcome Z :=
  match o with CStruct b => Ret (cs_flags b) | CChars l => load (rd l 1) end.
Definition c_get_struct (o : cobject) : outcome SXE_CSTR :=
  match o with CStruct b => Ret b | CChars _ => Fault end.
Definition c_as_chars (o : cobject) : outcome (list Z) :=
  match o with CStruct b => if cs_literal b =? 0 then Ret [0] else Fault | CChars l => Ret l end.
Definition c_store_at (p i : Z) (l : list Z) : cmd cstore unit :=
  chars ← c_chars_at p; chars ← lift (wr_bytes chars i l); modify <[p := CChars chars]>.

Definition c_is_counted (o : cobject) : outcome bool :=
  lit ← c_get_literal o;
  if lit =? 0 then f ← c_get_flags o; mret (negb (f =? 0)) else mret false.
Definition c_assert_not_const (o : cobject) : outcome unit :=
  f ← c_get_flags o; assert1 (Z.land f SXE_CSTR_FLAG_IS_CONST =? 0).

Definition c_set_len (b : SXE_CSTR) (n : Z) : SXE_CSTR :=
  mk_cstr (cs_literal b) (cs_flags b) (cs_size b) (u16 n) (cs_buf b).
Definition c_set_flags (b : SXE_CSTR) (f : Z) : SXE_CSTR :=
  mk_cstr (cs_literal b) f (cs_size b) (cs_len b) (cs_buf b).
Definition c_set_overflow (b : SXE_CSTR) : SXE_CSTR := c_set_flags b (Z.lor (cs_flags b) SXE_CSTR_FLAG_OVERFLOW).

(** strncat: up to [n] characters of [src] and a NUL are stored at the first NUL of [dst] at
    or after [i]. *)
Definition strncat (dst : list Z) (i : Z) (src : list Z) (n : Z) : outcome (list Z) :=
  if (0 <=? i) && (i <=? zlen dst) then
    end_ ← load (strlen (drop (Z.to_nat i) dst));
    src_end ← load (match cstring src with Some t => Some (take (Z.to_nat n) t) | None => slice src 0 n end);
    wr_bytes dst (i + end_) (src_end ++ [0])
  else Fault.

(** ** Operations *)

(** The source of sxe_cstr_cat: the object its characters are in, the characters, and the
    length. *)
Definition cat_source (ccat : Z) : cmd cstore (Z * list Z * Z) :=
  c ← c_deref ccat;
  counted ← lift (c_is_counted c);
  if (counted : bool) then
    cb ← lift (c_get_struct c);
    ccat_str ← c_chars_at (cs_buf cb);
    mret (cs_buf cb, ccat_str, cs_len cb)
  else
    ccat_str ← lift (c_as_chars c);
    ccat_len ← lift (load (strlen ccat_str));
    mret (ccat, ccat_str, u32 ccat_len).

(** lib-sxe-cstr/sxe-cstr.c:40-68, sxe_cstr_cat. (strncat is undefined when its arguments
    overlap.) *)
Definition sxe_cstr_cat (cstr ccat : Z) : cmd cstore Z :=
  o ← c_deref cstr;
  lift (c_assert_not_const o);;
  src ← cat_source ccat;
  let '(ccat_object, ccat_str, ccat_len) := src in
  b ← lift (c_get_struct o);
  let size := u32 (cs_size b - cs_len b) in
  chars ← c_chars_at (cs_buf b);
  chars ← lift (if ccat_object =? cs_buf b then Fault else strncat chars (cs_len b) ccat_str size);
  modify <[cs_buf b := CChars chars]>;;
  let b := c_set_len b (cs_len b + ccat_len) in
  let b := if cs_size b <? cs_len b then c_set_len (c_set_overflow b) (cs_size b) else b in
  c_set_struct cstr b;;
  mret cstr.

(** lib-sxe-cstr/sxe-cstr.c:70-77, sxe_cstr_clear. *)
Definition sxe_cstr_clear (cstr : Z) : cmd cstore unit :=
  o ← c_deref cstr;
  lift (c_assert_not_const o);;
  b ← lift (c_get_struct o);
  c_set_struct cstr (c_set_len (c_set_flags b (Z.land (cs_flags b) (Z.lnot SXE_CSTR_FLAG_OVERFLOW))) 0);;
  c_store_at (cs_buf b) 0 [0].

Definition c_cmp_chars (p : Z) : cmd cstore (list Z) :=
  o ← c_deref p;
  counted ← lift (c_is_counted o);
  if (counted : bool) then b ← lift (c_get_struct o); c_chars_at (cs_buf b) else lift (c_as_chars o).

(** lib-sxe-cstr/sxe-cstr.c:79-98, sxe_cstr_cmp. *)
Definition sxe_cstr_cmp (left right : Z) : cmd cstore Z :=
  if left =? right then mret 0
  else l ← c_cmp_chars left; r ← c_cmp_chars right; lift (load (strcmp l r)).

(** lib-sxe-cstr/sxe-cstr.c:100-109, sxe_cstr_ftime. *)
Definition sxe_cstr_ftime (cstr : Z) (text junk : list Z) : cmd cstore Z :=
  o ← c_deref cstr;
  lift (c_assert_not_const o);;
  b ← lift (c_get_struct o);
  let (l, ret) := strftime (u32 (cs_size b - cs_len b)) text junk in
  c_store_at (cs_buf b) (cs_len b) l;;
  c_set_struct cstr (c_set_len b (cs_len b + ret));;
  mret ret.

(** lib-sxe-cstr/sxe-cstr.c:111-123, sxe_cstr_get_str. *)
Definition sxe_cstr_get_str (cstr : Z) : cmd cstore Z :=
  o ← c_deref cstr;
  lift (c_assert_not_const o);;
  b ← lift (c_get_struct o);
  let b := if cs_size b <=? cs_len b then c_set_overflow (c_set_len b (cs_size b - 1)) else b in
  c_set_struct cstr b;;
  c_store_at (cs_buf b) (cs_len b) [0];;
  mret (cs_buf b).

(** lib-sxe-cstr/sxe-cstr.c:125-129, sxe_cstr_is_overflow. *)
Definition sxe_cstr_is_overflow (cstr : Z) : cmd cstore bool :=
  o ← c_deref cstr;
  f ← lift (c_get_flags o);
  mret (negb (Z.land f SXE_CSTR_FLAG_OVERFLOW =? 0)).

(** lib-sxe-cstr/sxe-cstr.c:131-139, sxe_cstr_length. *)
Definition sxe_cstr_length (cstr : Z) : cmd cstore Z :=
  o ← c_deref cstr;
  counted ← lift (c_is_counted o);
  if (counted : bool) then b ← lift (c_get_struct o); mret (cs_len b)
  else l ← lift (c_as_chars o); n ← lift (load (strlen l)); mret (u32 n).

(** lib-sxe-cstr/sxe-cstr.c:141-154, sxe_cstr_construct. *)
Definition sxe_cstr_construct (cstr buf len size : Z) : cmd cstore unit :=
  lift (assert1 (negb (cstr =? 0)));;
  lift (assert1 (negb (buf =? 0)));;
  lift (assert1 (negb (size =? 0)));;
  lift (assert1 (len <=? size));;
  c_set_struct cstr (mk_cstr 0 SXE_CSTR_FLAG_IS_CSTR size (u16 len) buf).

(** lib-sxe-cstr/sxe-cstr.c:156-161, sxe_cstr_construct_const. *)
Definition sxe_cstr_construct_const (cstr buf len : Z) : cmd cstore unit :=
  sxe_cstr_construct cstr buf len len;;
  o ← c_deref cstr;
  b ← lift (c_get_struct o);
  c_set_struct cstr (c_set_flags b (Z.lor (cs_flags b) SXE_CSTR_FLAG_IS_CONST)).

(** lib-sxe-cstr/sxe-cstr.c:176-201, sxe_cstr_vprintf. *)
Definition sxe_cstr_vprintf (cstr : Z) (text : option (list Z)) : cmd cstore Z :=
  o ← c_deref cstr;
  lift (c_assert_not_const o);;
  b ← lift (c_get_struct o);
  let size := u32 (cs_size b - cs_len b) in
  let (l, ret) := vsnprintf size text in
  c_store_at (cs_buf b) (cs_len b) l;;
  (if ret <? 0 then c_store_at (cs_buf b) (u32 (cs_size b - 1)) [0] else mret tt);;
  let ret := if ret <? 0 then size else ret in
  if u32 ret <? size then
    c_set_struct cstr (c_set_len b (cs_len b + ret));; mret ret
  else
    c_set_struct cstr (c_set_len (c_set_overflow b) (cs_size b - 1));; mret ret.

(** lib-sxe-cstr/sxe-cstr.c:163-174, sxe_cstr_printf. *)
Definition sxe_cstr_printf (cstr : Z) (text : option (list Z)) : cmd cstore Z :=
  o ← c_deref cstr;
  lift (c_assert_not_const o);;
  sxe_cstr_vprintf cstr text.

Fixpoint cstr_cspn_loop (fuel : nat) (chars reject : list Z) (start_at len length : Z) : outcome Z :=
  match fuel with
  | O => Fault
  | S fuel =>
      if u32 (start_at + length) <? len then
        c ← load (rd chars (u32 (start_at + length)));
        stop ← load (strchr reject c);
        if (stop : bool) then mret length else cstr_cspn_loop fuel chars reject start_at len (length + 1)
      else mret length
  end.

(** lib-sxe-cstr/sxe-cstr.c:203-219, sxe_cstr_cspn. *)
Definition sxe_cstr_cspn (cstr start_at : Z) (reject : list Z) : cmd cstore Z :=
  o ← c_deref cstr;
  counted ← lift (c_is_counted o);
  if (counted : bool) then
    b ← lift (c_get_struct o);
    chars ← c_chars_at (cs_buf b);
    lift (cstr_cspn_loop (S (Z.to_nat (cs_len b))) chars reject start_at (cs_len b) 0)
  else
    l ← lift (c_as_chars o);
    if start_at <=? zlen l then n ← lift (load (strcspn (drop (Z.to_nat start_at) l) reject)); mret (u32 n)
    else lift Fault.

(** lib-sxe-cstr/sxe-cstr.h:47-47, sxe_cstr_eq. *)
Definition sxe_cstr_eq (left right : Z) : cmd cstore bool := v ← sxe_cstr_cmp left right; mret (v =? 0).
(** lib-sxe-cstr/sxe-cstr.h:48-48, sxe_cstr_ge. *)
Definition sxe_cstr_ge (left right : Z) : cmd cstore bool := v ← sxe_cstr_cmp left right; mret (0 <=? v).
(** lib-sxe-cstr/sxe-cstr.h:49-49, sxe_cstr_gt. *)
Definition sxe_cstr_gt (left right : Z) : cmd cstore bool := v ← sxe_cstr_cmp left right; mret (0 <? v).
(** lib-sxe-cstr/sxe-cstr.h:50-50, sxe_cstr_le. *)
Definition sxe_cstr_le (left right : Z) : cmd cstore bool := v ← sxe_cstr_cmp left right; mret (v <=? 0).
(** lib-sxe-cstr/sxe-cstr.h:51-51, sxe_cstr_lt. *)
Definition sxe_cstr_lt (left right : Z) : cmd cstore bool := v ← sxe_cstr_cmp left right; mret (v <? 0).
(** lib-sxe-cstr/sxe-cstr.h:52-52, sxe_cstr_ne. *)
Definition sxe_cstr_ne (left right : Z) : cmd cstore bool := v ← sxe_cstr_cmp left right; mret (negb (v =? 0)).

(** ** Appending *)

(** [q] is a string with the text [t], in the object [a]. *)
Inductive source (s : cstore) (q a : Z) (t : list Z) : Prop :=
| source_literal rest :
    a = q -> s !! q = Some (CChars (t ++ 0 :: rest)) -> (t = [] -> exists r, rest = 0 :: r) -> source s q a t
| source_counted c rest :
    s !! q = Some (CStruct c) -> cs_literal c = 0 -> cs_flags c <> 0 -> cs_len c = zlen t -> cs_buf c = a ->
    s !! a = Some (CChars (t ++ 0 :: rest)) -> source s q a t.

Lemma cat_source_run s q a t :
  source s q a t -> Forall (Z.lt 0) t -> zlen t < 65536 ->
  exists rest, cat_source q s = Ret ((a, t ++ 0 :: rest, zlen t), s).
Proof.
  intros Hs Ht Hl. pose proof (zlen_nonneg t). destruct Hs as [rest -> Eq Hr|c rest Eq El Ef En Ea Ech]; exists rest.
  - assert (c_is_counted (CChars (t ++ 0 :: rest)) = Ret false) as Hc.
    { destruct Ht as [|b t Hb Ht]; [by destruct (Hr eq_refl) as [r ->]|]. unfold c_is_counted. cbn. destruct b; [lia|done|lia]. }
    unfold cat_source, mbind, cmd_bind, c_deref, lift, load. rewrite Eq, Hc. cbn [c_as_chars].
    rewrite strlen_app by (by apply text_no_nul). by rewrite u32_small by (unfold is_u32; lia).
  - unfold cat_source, mbind, cmd_bind, c_deref, lift, load. rewrite Eq. unfold c_is_counted. cbn. rewrite El. cbn.
    rewrite (proj2 (Z.eqb_neq _ 0)) by done. cbn. unfold c_chars_at. by rewrite Ea, Ech, En.
Qed.

Lemma strncat_run text rest t rest' n :
  no_nul t -> 0 <= n -> let k := Z.min n (zlen t) in
  strncat (text ++ 0 :: rest) (zlen text) (t ++ 0 :: rest') n
  = if k <=? zlen rest then Ret (text ++ take (Z.to_nat n) t ++ 0 :: drop (Z.to_nat k) rest) else Fault.
Proof.
  intros Ht Hn k. unfold strncat. pose proof (zlen_nonneg text). pose proof (zlen_nonneg rest).
  rewrite zlen_app, zlen_cons. replace ((0 <=? zlen text) && (zlen text <=? zlen text + (1 + zlen rest))) with true by lia.
  rewrite drop_zlen_app. change (strlen (0 :: rest)) with (Some 0). cbn [load mbind outcome_bind].
  rewrite cstring_app by done. cbn [load mbind outcome_bind]. rewrite Z.add_0_r.
  assert (zlen (take (Z.to_nat n) t ++ [0]) = k + 1) as Hk.
  { rewrite zlen_app. change (zlen [0]) with 1. unfold zlen, k. rewrite length_take. unfold zlen. lia. }
  destruct (Z.leb_spec k (zlen rest)) as [Hf|Hf].
  - rewrite wr_bytes_ok by (rewrite ?Hk, ?zlen_app, ?zlen_cons; lia). f_equal. unfold splice.
    rewrite take_zlen_app. f_equal. rewrite <-(assoc_L (++)). f_equal. cbn [app]. f_equal. rewrite drop_app_ge by (unfold zlen; lia).
    unfold zlen in Hk. match goal with |- drop ?m (0 :: rest) = _ => replace m with (S (Z.to_nat k)); [done|] end.
    pose proof (zlen_nonneg t). unfold k, zlen in *. lia.
  - apply wr_bytes_fault; rewrite ?Hk, ?zlen_app, ?zlen_cons; lia.
Qed.

(** C39: appending a string to a counted string that is not constant and of at most 65535 bytes, which has a NUL at its length (behind other bytes there the code
    appends in the wrong place). The other is a literal, two NULs if it is empty, or a counted string, in memory of its own, without a NUL before its length and with one there, and the two are together
    shorter than 65536. What fits in the room left is copied, and a NUL. The length grows by
    the whole string, or becomes the size, with the overflow remembered, when it does not
    fit. The NUL needs a byte of memory of its own behind the room: when the memory is no
    longer than the size, appending a string that fills the room stores out of bounds. *)
Theorem sxe_cstr_cat_spec s p b text rest q a t :
  s !! p = Some (CStruct b) -> Z.land (cs_flags b) SXE_CSTR_FLAG_IS_CONST = 0 ->
  s !! cs_buf b = Some (CChars (text ++ 0 :: rest)) -> cs_len b = zlen text -> cs_len b <= cs_size b <= 65535 ->
  source s q a t -> Forall (Z.lt 0) t -> a <> cs_buf b -> zlen text + zlen t < 65536 ->
  let room := cs_size b - cs_len b in
  let k := Z.min room (zlen t) in
  sxe_cstr_cat p q s =
    if k <=? zlen rest then
      let chars := text ++ take (Z.to_nat room) t ++ 0 :: drop (Z.to_nat k) rest in
      let b' := if zlen t <=? room then c_set_len b (zlen text + zlen t)
                else c_set_len (c_set_overflow b) (cs_size b) in
      Ret (p, <[p := CStruct b']> (<[cs_buf b := CChars chars]> s))
    else Fault.
Proof.
  intros Ep Hc Eb Hlen Hsz Hs Ht Ha Hl room k. pose proof (zlen_nonneg text). pose proof (zlen_nonneg t).
  destruct (cat_source_run s q a t Hs Ht ltac:(lia)) as [rest' Hsrc].
  unfold sxe_cstr_cat. unfold mbind at 1, cmd_bind at 1, c_deref, lift at 1, load. rewrite Ep.
  unfold mbind at 1, cmd_bind at 1, lift at 1, c_assert_not_const. cbn [c_get_flags mbind outcome_bind]. rewrite Hc. cbn [Z.eqb assert1].
  rewrite (cmd_bind_ret _ _ s _ s Hsrc). unfold mbind, cmd_bind, lift, c_chars_at. cbn [c_get_struct]. rewrite Eb.
  rewrite (proj2 (Z.eqb_neq a _)) by done. rewrite Hlen, u32_small by (unfold is_u32; lia).
  rewrite strncat_run by (by apply text_no_nul || lia). unfold k, room. rewrite Hlen.
  destruct (_ <=? zlen rest); [|done]. unfold c_set_struct, modify, mret, cmd_ret. do 3 f_equal.
  cbn [c_set_len cs_len cs_size]. rewrite (Z.mod_small (zlen text + zlen t) 65536 ltac:(lia) : u16 _ = _).
  by destruct (Z.leb_spec (zlen t) (cs_size b - zlen text));
    [rewrite (proj2 (Z.ltb_ge _ _)) by lia|rewrite (proj2 (Z.ltb_lt _ _)) by lia].
Qed.

(** A buffer of six bytes whose text is "ab", a literal "cde" and a counted string "hijk". *)
Definition sample_cstore : cstore :=
  <[1 := CStruct (mk_cstr 0 1 6 2 2)]> (<[2 := CChars [97; 98; 0; 0; 0; 0]]>
  (<[3 := CChars [99; 100; 101; 0]]> (<[4 := CStruct (mk_cstr 0 1 9 4 5)]>
  (<[5 := CChars [104; 105; 106; 107; 0]]> ∅)))).

Lemma sxe_cstr_cat_spec_witness :
  sxe_cstr_cat 1 3 sample_cstore
    = Ret (1, <[1 := CStruct (mk_cstr 0 1 6 5 2)]> (<[2 := CChars [97; 98; 99; 100; 101; 0]]> sample_cstore)) /\
  sxe_cstr_cat 1 4 sample_cstore = Fault.
Proof.
  split.
  - refine (sxe_cstr_cat_spec sample_cstore 1 (mk_cstr 0 1 6 2 2) [97; 98] [0; 0; 0] 3 3 [99; 100; 101] _ _ _ _ _ _ _ _ _);
      try reflexivity; try done; [|by repeat constructor].
    by apply (source_literal sample_cstore 3 3 [99; 100; 101] []).
  - refine (sxe_cstr_cat_spec sample_cstore 1 (mk_cstr 0 1 6 2 2) [97; 98] [0; 0; 0] 4 5 [104; 105; 106; 107] _ _ _ _ _ _ _ _ _);
      try reflexivity; try done; [|by repeat constructor].
    by apply (source_counted sample_cstore 4 5 [104; 105; 106; 107] (mk_cstr 0 1 9 4 5) []).
Defined.

(** Appending to a counted string that is not terminated stores behind its stale bytes. *)
Lemma cat_behind_stale_bytes :
  exists s, sxe_cstr_cat 1 3 (<[2 := CChars [97; 98; 120; 0; 0; 0; 0]]> sample_cstore) = Ret (1, s) /\
    s !! 2 = Some (CChars [97; 98; 120; 99; 100; 101; 0]).
Proof. eexists. split; vm_compute; reflexivity. Qed.

(** sxe_cstr_construct accepts a length that its field cannot hold. *)
Lemma construct_loses_length :
  exists s, (sxe_cstr_construct 6 2 65536 65536;; sxe_cstr_length 6) sample_cstore = Ret (0, s).
Proof. eexists. vm_compute. reflexivity. Qed.
