(* ===== verification/JitsonSource.v ===== *)
(** * JitsonSource: reading JSON text (lib-sxe-jitson/sxe-jitson-source.c, sxe-unicode.c)

    A source is the memory of the text with the offsets of its next character and of its end;
    a source without an end stops at a NUL. The specification sees the text that is left. *)

From S2P Require Import Prelude.

(** lib-sxe-jitson/sxe-jitson.h:89-94, sxe_jitson_source. *)
Record source := mk_source {
  src_json : list Z;
  src_next : Z;
  src_end : option Z;
  src_flags : Z
}.

(** lib-sxe-jitson/sxe-jitson.h:31-31, SXE_JITSON_FLAG_STRICT. *)
Definition SXE_JITSON_FLAG_STRICT : Z := 0.
(** lib-sxe-jitson/sxe-jitson.h:32-32, SXE_JITSON_FLAG_ALLOW_HEX. *)
Definition SXE_JITSON_FLAG_ALLOW_HEX : Z := 1.
(** lib-sxe-jitson/sxe-jitson.h:33-33, SXE_JITSON_FLAG_ALLOW_CONSTS. *)
Definition SXE_JITSON_FLAG_ALLOW_CONSTS : Z := 2.
(** lib-sxe-jitson/sxe-jitson.h:34-34, SXE_JITSON_FLAG_ALLOW_IDENTS. *)
Definition SXE_JITSON_FLAG_ALLOW_IDENTS : Z := 4.

Definition allows (s : source) (flag : Z) : bool := negb (Z.land (src_flags s) flag =? 0).

(** lib-sxe-jitson/sxe-jitson-source.c:44-51, sxe_jitson_source_from_buffer. *)
Definition sxe_jitson_source_from_buffer (string : list Z) (len flags : Z) : source := mk_source string 0 (Some len) flags.

(** lib-sxe-jitson/sxe-jitson-source.c:63-70, sxe_jitson_source_from_string. *)
Definition sxe_jitson_source_from_string (string : list Z) (flags : Z) : source := mk_source string 0 None flags.

(** lib-sxe-jitson/sxe-jitson.h:273-277, sxe_jitson_source_get_flags. *)
Definition sxe_jitson_source_get_flags (s : source) : Z := src_flags s.
(** lib-sxe-jitson/sxe-jitson.h:279-283, sxe_jitson_source_get_consumed. *)
Definition sxe_jitson_source_get_consumed (s : source) : Z := src_next s.

(** source->next >= source->end *)
Definition at_end (s : source) : bool := match src_end s with Some e => e <=? src_next s | None => false end.
Definition set_next (s : source) (n : Z) : source := mk_source (src_json s) n (src_end s) (src_flags s).
Definition advance (s : source) : source := set_next s (src_next s + 1).

(** lib-sxe-jitson/sxe-jitson-source.c:74-78, sxe_jitson_source_get_char. *)
Definition sxe_jitson_source_get_char (s : source) : outcome (Z * source) :=
  if at_end s then mret (0, s) else c ← load (rd (src_json s) (src_next s)); mret (c, advance s).

(** lib-sxe-jitson/sxe-jitson-source.c:82-87, sxe_jitson_source_push_char. *)
Definition sxe_jitson_source_push_char (s : source) (c : Z) : outcome source :=
  assert1 (0 <? src_next s);;
  let s := set_next s (src_next s - 1) in
  d ← load (rd (src_json s) (src_next s));
  assert1 (d =? c);;
  mret s.

(** lib-sxe-jitson/sxe-jitson-source.c:91-95, source_peek_next. *)
Definition source_peek_next (s : source) : outcome Z :=
  if at_end s then mret 0 else load (rd (src_json s) (src_next s)).

(** while (p(source_peek_next(source))) source->next++; the object bounds the iterations. *)
Fixpoint skip_loop (fuel : nat) (p : Z -> bool) (s : source) : outcome source :=
  match fuel with
  | O => Fault
  | S fuel => c ← source_peek_next s; if p c then skip_loop fuel p (advance s) else mret s
  end.

Definition skip (p : Z -> bool) (s : source) : outcome source := skip_loop (S (length (src_json s))) p s.

(** The character classes of the C locale. *)
Definition isspace (c : Z) : bool := (c =? 32) || ((9 <=? c) && (c <=? 13)).
Definition isdigit (c : Z) : bool := (48 <=? c) && (c <=? 57).
Definition isxdigit (c : Z) : bool := isdigit c || ((65 <=? c) && (c <=? 70)) || ((97 <=? c) && (c <=? 102)).

(** lib-sxe-jitson/sxe-jitson-source.c:99-106, sxe_jitson_source_get_nonspace. *)
Definition sxe_jitson_source_get_nonspace (s : source) : outcome (Z * source) :=
  s ← skip isspace s; sxe_jitson_source_get_char s.

(** lib-sxe-jitson/sxe-jitson-source.c:31-31, identifier_chars. *)
Definition identifier_chars : list Z := [0x03FF400000000000; 0x07FFFFFE87FFFFFE; 0; 0].

Definition is_identifier_char (c : Z) : bool :=
  match identifier_chars !! Z.to_nat (Z.shiftr c 6) with
  | Some w => negb (Z.land w (Z.shiftl 1 (Z.land c 63)) =? 0)
  | None => false
  end.

(** lib-sxe-jitson/sxe-jitson-source.c:118-129, sxe_jitson_source_get_identifier. The
    identifier's offset, if there is one, and its length. *)
Definition sxe_jitson_source_get_identifier (s : source) : outcome (option Z * Z * source) :=
  let identifier := src_next s in
  s ← skip is_identifier_char s;
  let len := src_next s - identifier in
  mret (if len =? 0 then None else Some identifier, len, s).

(** lib-sxe-jitson/sxe-jitson-source.c:140-149, sxe_jitson_parse_identifier. *)
Definition sxe_jitson_parse_identifier (sxe_jitson_flags : Z) (json : list Z) : outcome Z :=
  '(_, len, _) ← sxe_jitson_source_get_identifier (sxe_jitson_source_from_string json sxe_jitson_flags);
  mret len.

(** Digits, of which there must be at least one: whether there are. *)
Definition digits1 (s : source) : outcome (bool * source) :=
  c ← source_peek_next s;
  if isdigit c then s ← skip isdigit s; mret (true, s) else mret (false, s).

(** The fraction, if any: whether there is one, or nothing if it is not valid. *)
Definition get_fraction (s : source) : outcome (option bool * source) :=
  c ← source_peek_next s;
  if c =? 46 then '(ok, s) ← digits1 (advance s); mret (if (ok : bool) then Some true else None, s)
  else mret (Some false, s).

(** The exponent, if any. *)
Definition get_exponent (s : source) : outcome (option bool * source) :=
  c ← source_peek_next s;
  if (c =? 69) || (c =? 101) then
    let s := advance s in
    c ← source_peek_next s;
    let s := if (c =? 45) || (c =? 43) then advance s else s in
    '(ok, s) ← digits1 s; mret (if (ok : bool) then Some true else None, s)
  else mret (Some false, s).

(** lib-sxe-jitson/sxe-jitson-source.c:191-219, sxe_jitson_source_get_number. What follows the
    first digit of a decimal number that starts at [number]. *)
Definition get_decimal (number : Z) (minus : bool) (s : source) : outcome (option (Z * Z * bool) * source) :=
  s ← skip isdigit s;
  '(fraction, s) ← get_fraction s;
  match fraction with
  | None => mret (None, s)
  | Some fraction =>
      '(exponent, s) ← get_exponent s;
      match exponent with
      | None => mret (None, s)
      | Some exponent => mret (Some (number, src_next s - number, negb (minus || fraction || exponent)), s)
      end
  end.

(** lib-sxe-jitson/sxe-jitson-source.c:160-224, sxe_jitson_source_get_number. The offset and
    length of the number, and whether it is an unsigned integer; nothing if it is not valid. *)
Definition sxe_jitson_source_get_number (s : source) : outcome (option (Z * Z * bool) * source) :=
  let number := src_next s in
  c ← source_peek_next s;
  let minus := c =? 45 in
  let s := if minus then advance s else s in
  c ← source_peek_next s;
  if negb (isdigit c) then mret (None, s)
  else
    let s := advance s in
    first ← load (rd (src_json s) number);
    x ← source_peek_next s;
    if allows s SXE_JITSON_FLAG_ALLOW_HEX && (first =? 48) && (x =? 120) then
      s ← skip isxdigit (advance s);
      if src_next s - number <=? 2 then mret (None, s)
      else mret (Some (number, src_next s - number, negb minus), s)
    else get_decimal number minus s.

(** ** Unicode *)

(** lib-sxe-jitson/sxe-unicode.c:36-67, sxe_unicode_to_utf8. The bytes stored; their number
    is the value. *)
Definition sxe_unicode_to_utf8 (unicode : Z) : list Z :=
  if unicode <=? 0x7F then [u8 unicode]
  else if unicode <=? 0x7FF then
    [u8 (Z.lor 0xC0 (Z.shiftr unicode 6)); u8 (Z.lor 0x80 (Z.land unicode 0x3F))]
  else if unicode <=? 0xFFFF then
    [u8 (Z.lor 0xE0 (Z.shiftr unicode 12)); u8 (Z.lor 0x80 (Z.land (Z.shiftr unicode 6) 0x3F));
     u8 (Z.lor 0x80 (Z.land unicode 0x3F))]
  else if unicode <=? 0x10FFFF then
    [u8 (Z.lor 0xF0 (Z.shiftr unicode 18)); u8 (Z.lor 0x80 (Z.land (Z.shiftr unicode 12) 0x3F));
     u8 (Z.lor 0x80 (Z.land (Z.shiftr unicode 6) 0x3F)); u8 (Z.lor 0x80 (Z.land unicode 0x3F))]
  else [].

(** ** The text that is left *)

(** The text [t] is left of the source [s]: up to its end, or up to a NUL. *)
Inductive left (s : source) (t : list Z) : Prop :=
| left_buffer pre rest :
    src_json s = pre ++ t ++ rest -> src_next s = zlen pre -> src_end s = Some (zlen pre + zlen t) -> left s t
| left_string pre rest :
    src_json s = pre ++ t ++ 0 :: rest -> src_next s = zlen pre -> src_end s = None -> left s t.

(** The next character, or NUL. *)
Definition next_char (t : list Z) : Z := match t with [] => 0 | c :: _ => c end.

Lemma left_advance s c t : left s (c :: t) -> left (advance s) t.
Proof.
  intros [pre rest Ej En Ee|pre rest Ej En Ee]; [apply (left_buffer _ _ (pre ++ [c]) rest)|apply (left_string _ _ (pre ++ [c]) rest)]; simpl;
    rewrite ?zlen_app, ?Ej, ?En, ?Ee, <-?(assoc_L (++)); try done; change (zlen [c]) with 1; rewrite ?zlen_cons; f_equal; lia.
Qed.

Lemma left_pos s t : left s t -> 0 <= src_next s /\ src_next s + zlen t <= zlen (src_json s).
Proof.
  intros [pre rest Ej En Ee|pre rest Ej En Ee]; rewrite En, Ej, !zlen_app; pose proof (zlen_nonneg pre); [pose proof (zlen_nonneg rest)|pose proof (zlen_nonneg (0 :: rest))]; lia.
Qed.

Lemma peek_left s t : left s t -> source_peek_next s = Ret (next_char t).
Proof.
  unfold source_peek_next, at_end. intros [pre rest Ej En Ee|pre rest Ej En Ee]; rewrite Ee, Ej, En.
  - destruct t as [|c t]; cbn [app next_char].
    + change (zlen []) with 0. by rewrite Z.add_0_r, Z.leb_refl.
    + rewrite (proj2 (Z.leb_gt _ _)) by (rewrite zlen_cons; pose proof (zlen_nonneg t); lia). by rewrite (rd_at pre).
  - destruct t as [|c t]; cbn [app next_char]; by rewrite (rd_at pre).
Qed.

Lemma get_char_left s c t : left s (c :: t) -> sxe_jitson_source_get_char s = Ret (c, advance s).
Proof.
  unfold sxe_jitson_source_get_char, at_end. intros [pre rest Ej En Ee|pre rest Ej En Ee]; rewrite Ee, Ej, En.
  - rewrite (proj2 (Z.leb_gt _ _)) by (rewrite zlen_cons; pose proof (zlen_nonneg t); lia). cbn [app]. by rewrite (rd_at pre).
  - cbn [app]. by rewrite (rd_at pre).
Qed.

Lemma get_char_end s : left s [] -> exists s', sxe_jitson_source_get_char s = Ret (0, s').
Proof.
  unfold sxe_jitson_source_get_char, at_end. intros [pre rest Ej En Ee|pre rest Ej En Ee]; rewrite Ee, ?Ej, ?En.
  - change (zlen []) with 0. rewrite Z.add_0_r, Z.leb_refl. eauto.
  - cbn [app]. rewrite (rd_at pre) by done. cbn. eauto.
Qed.

(** The character [c] was just read, and [t] is left behind it. *)
Lemma push_char_left s c t : left s (c :: t) -> sxe_jitson_source_push_char (advance s) c = Ret s.
Proof.
  intros Hl. pose proof (left_pos _ _ Hl) as [Hp _]. unfold sxe_jitson_source_push_char. simpl.
  rewrite (proj2 (Z.ltb_lt _ _)) by lia. simpl. replace (src_next s + 1 - 1) with (src_next s) by lia.
  assert (rd (src_json s) (src_next s) = Some c) as -> by (destruct Hl as [pre rest Ej En Ee|pre rest Ej En Ee]; rewrite Ej, En; by apply rd_at).
  simpl. rewrite Z.eqb_refl. by destruct s.
Qed.

(** The longest prefix of characters in a class, and what follows it. *)
Fixpoint take_class (p : Z -> bool) (t : list Z) : list Z :=
  match t with [] => [] | c :: t => if p c then c :: take_class p t else [] end.
Fixpoint drop_class (p : Z -> bool) (t : list Z) : list Z :=
  match t with [] => [] | c :: t' => if p c then drop_class p t' else t end.

Lemma take_drop_class p t : take_class p t ++ drop_class p t = t.
Proof. induction t as [|c t IH]; [done|]. simpl. destruct (p c); [|done]. simpl. by rewrite IH. Qed.

Lemma drop_class_next p t : p 0 = false -> p (next_char (drop_class p t)) = false.
Proof. intros H0. induction t as [|c t IH]; [done|]. simpl. by destruct (p c) eqn:E. Qed.

Lemma class_app p t rest :
  Forall (fun c => p c = true) t -> p (next_char rest) = false -> take_class p (t ++ rest) = t /\ drop_class p (t ++ rest) = rest.
Proof.
  intros Ht Hr. induction Ht as [|c t Hc Ht [IH1 IH2]]; simpl.
  - destruct rest as [|c rest]; [done|]. simpl in *. by rewrite Hr.
  - rewrite Hc. by rewrite IH1, IH2.
Qed.

(** [s] after reading [n] characters. *)
Definition after (s : source) (n : Z) : source := set_next s (src_next s + n).

Lemma after_advance s n : after (advance s) n = after s (1 + n).
Proof. unfold after, advance, set_next. simpl. f_equal. lia. Qed.
Lemma after_after s n m : after (after s n) m = after s (n + m).
Proof. unfold after, set_next. simpl. f_equal. lia. Qed.
Lemma after_0 s : after s 0 = s.
Proof. destruct s. unfold after, set_next. simpl. f_equal. lia. Qed.

Lemma left_after s l t : left s (l ++ t) -> left (after s (zlen l)) t.
Proof.
  revert s. induction l as [|c l IH]; intros s Hl.
  - change (zlen []) with 0. by rewrite after_0.
  - rewrite zlen_cons, <-after_advance. apply IH. by eapply left_advance.
Qed.

Lemma skip_loop_left p : p 0 = false -> forall t fuel s,
  left s t -> (length t < fuel)%nat -> skip_loop fuel p s = Ret (after s (zlen (take_class p t))).
Proof.
  intros H0. induction t as [|c t IH]; intros [|fuel] s Hl Hf; try (simpl in Hf; lia); cbn [skip_loop]; rewrite (peek_left _ _ Hl); cbn [mbind outcome_bind next_char take_class].
  - rewrite H0. change (zlen []) with 0. by rewrite after_0.
  - destruct (p c); [|change (zlen []) with 0; by rewrite after_0].
    rewrite (IH fuel (advance s)); [by rewrite zlen_cons, after_advance|by eapply left_advance|simpl in Hf; lia].
Qed.

Lemma skip_left p s t :
  p 0 = false -> left s t -> skip p s = Ret (after s (zlen (take_class p t))) /\ left (after s (zlen (take_class p t))) (drop_class p t).
Proof.
  intros H0 Hl. split; [|apply left_after; by rewrite take_drop_class].
  apply skip_loop_left; [done|done|]. pose proof (left_pos _ _ Hl). unfold zlen in *. lia.
Qed.

(** ** Numbers *)

(** A number in JSON: a sign, digits, and perhaps a fraction and an exponent. *)
Record number := mk_number {
  n_minus : bool;
  n_digits : list Z;
  n_fraction : option (list Z);
  n_exponent : option (Z * list Z * list Z)
}.

Definition digits_ok (d : list Z) : Prop := d <> [] /\ Forall (fun c => isdigit c = true) d.

Record number_ok (n : number) : Prop := {
  no_digits : digits_ok (n_digits n);
  no_fraction f : n_fraction n = Some f -> digits_ok f;
  no_exponent e sg d : n_exponent n = Some (e, sg, d) ->
    (e = 69 \/ e = 101) /\ (sg = [] \/ sg = [43] \/ sg = [45]) /\ digits_ok d
}.

Definition print_fraction (f : option (list Z)) : list Z := match f with Some d => 46 :: d | None => [] end.
Definition print_exponent (x : option (Z * list Z * list Z)) : list Z :=
  match x with Some (e, sg, d) => e :: sg ++ d | None => [] end.
Definition print_number (n : number) : list Z :=
  (if n_minus n then [45] else []) ++ n_digits n ++ print_fraction (n_fraction n) ++ print_exponent (n_exponent n).

Definition is_e (c : Z) : bool := (c =? 69) || (c =? 101).

(** What follows a number does not continue it. *)
Definition number_ends (n : number) (rest : list Z) : Prop :=
  let c := next_char rest in
  isdigit c = false /\ (n_exponent n = None -> is_e c = false) /\
  (n_exponent n = None -> n_fraction n = None -> c <> 46).

Definition number_is_uint (n : number) : bool :=
  negb (n_minus n) && bool_decide (n_fraction n = None) && bool_decide (n_exponent n = None).

(** The number a text starts with, and what follows it. *)
Definition scan_digits (t : list Z) : option (list Z * list Z) :=
  match take_class isdigit t with [] => None | d => Some (d, drop_class isdigit t) end.
Definition scan_fraction (t : list Z) : option (option (list Z) * list Z) :=
  match t with
  | c :: t' => if c =? 46 then '(d, t) ← scan_digits t'; Some (Some d, t) else Some (None, t)
  | [] => Some (None, [])
  end.
Definition scan_sign (t : list Z) : list Z * list Z :=
  match t with c :: t' => if (c =? 45) || (c =? 43) then ([c], t') else ([], t) | [] => ([], []) end.
Definition scan_exponent (t : list Z) : option (option (Z * list Z * list Z) * list Z) :=
  match t with
  | c :: t' =>
      if is_e c then let (sg, t) := scan_sign t' in '(d, t) ← scan_digits t; Some (Some (c, sg, d), t)
      else Some (None, t)
  | [] => Some (None, [])
  end.
Definition scan_number (t : list Z) : option (number * list Z) :=
  let (minus, t) := match t with c :: t' => if c =? 45 then (true, t') else (false, t) | [] => (false, []) end in
  '(d, t) ← scan_digits t;
  '(f, t) ← scan_fraction t;
  '(x, t) ← scan_exponent t;
  Some (mk_number minus d f x, t).

(** The scanning of each part in the source. *)
Lemma isdigit_0 : isdigit 0 = false.
Proof. done. Qed.

Lemma scan_digits_cons c t :
  scan_digits (c :: t) = if isdigit c then Some (c :: take_class isdigit t, drop_class isdigit t) else None.
Proof. unfold scan_digits. simpl. by destruct (isdigit c). Qed.

Lemma digits1_left s t :
  left s t -> exists s', digits1 s = Ret (bool_decide (is_Some (scan_digits t)), s') /\
    forall d t', scan_digits t = Some (d, t') -> s' = after s (zlen d) /\ left s' t' /\ t = d ++ t'.
Proof.
  intros Hl. unfold digits1. rewrite (peek_left _ _ Hl). cbn [mbind outcome_bind].
  destruct (skip_left isdigit s t isdigit_0 Hl) as [Hs Hl']. destruct t as [|c t]; cbn [next_char].
  - rewrite isdigit_0. exists s. split; [done|]. by intros d t'.
  - rewrite scan_digits_cons. destruct (isdigit c) eqn:Ec.
    + rewrite Hs. cbn [mbind outcome_bind]. cbn [take_class drop_class] in Hl' |- *. rewrite Ec in *. eexists. split; [by rewrite bool_decide_true by eauto|].
      intros d t' [= <- <-]. split; [done|]. split; [done|]. cbn [app]. by rewrite take_drop_class.
    + exists s. split; [by rewrite bool_decide_false by (by intros [? [=]])|]. by intros d t'.
Qed.

Lemma fraction_left s t :
  left s t -> exists s', get_fraction s = Ret ((fun r => bool_decide (is_Some (fst r))) <$> scan_fraction t, s') /\
    forall f t', scan_fraction t = Some (f, t') -> s' = after s (zlen (print_fraction f)) /\ left s' t' /\ t = print_fraction f ++ t'.
Proof.
  intros Hl. unfold get_fraction. rewrite (peek_left _ _ Hl). cbn [mbind outcome_bind].
  assert (Hnone : forall f t', Some (None, t) = Some (f, t') ->
    s = after s (zlen (print_fraction f)) /\ left s t' /\ t = print_fraction f ++ t').
  { intros f t' [= <- <-]. cbn [print_fraction]. change (zlen []) with 0. by rewrite after_0. }
  destruct t as [|c t]; cbn [next_char scan_fraction]; [exists s; by split|].
  destruct (Z.eqb_spec c 46) as [->|]; [|exists s; by split].
  destruct (digits1_left _ _ (left_advance _ _ _ Hl)) as (s' & E & Hd). rewrite E. cbn [mbind outcome_bind].
  destruct (scan_digits t) as [[d t1]|] eqn:Es.
  - rewrite bool_decide_true by eauto. exists s'. split; [done|]. cbn [mbind option_bind].
    destruct (Hd d t1 eq_refl) as (-> & Hl' & ->). intros f t' [= <- <-]. cbn [print_fraction app].
    split_and!; [by rewrite zlen_cons, after_advance|done|done].
  - rewrite bool_decide_false by (by intros [? [=]]). exists s'. split; [done|]. by intros f t'.
Qed.

Lemma sign_left s t :
  left s t -> exists s', (c ← source_peek_next s; mret (if (c =? 45) || (c =? 43) then advance s else s)) = Ret s' /\
    s' = after s (zlen (fst (scan_sign t))) /\ left s' (snd (scan_sign t)) /\ t = fst (scan_sign t) ++ snd (scan_sign t).
Proof.
  intros Hl. rewrite (peek_left _ _ Hl). cbn [mbind outcome_bind]. eexists. split; [reflexivity|].
  assert (s = after s (zlen (@nil Z))) as H0 by (change (zlen []) with 0; by rewrite after_0).
  destruct t as [|c t]; cbn [next_char scan_sign fst snd]; [done|].
  destruct ((c =? 45) || (c =? 43)); cbn [fst snd]; [|done].
  split_and!; [|by eapply left_advance|done]. change (zlen [c]) with (1 + 0). by rewrite <-after_advance, after_0.
Qed.

Lemma exponent_left s t :
  left s t -> exists s', get_exponent s = Ret ((fun r => bool_decide (is_Some (fst r))) <$> scan_exponent t, s') /\
    forall x t', scan_exponent t = Some (x, t') -> s' = after s (zlen (print_exponent x)) /\ left s' t' /\ t = print_exponent x ++ t'.
Proof.
  intros Hl. unfold get_exponent. rewrite (peek_left _ _ Hl). cbn [mbind outcome_bind].
  assert (Hnone : forall x t', Some (None, t) = Some (x, t') ->
    s = after s (zlen (print_exponent x)) /\ left s t' /\ t = print_exponent x ++ t').
  { intros x t' [= <- <-]. cbn [print_exponent]. change (zlen []) with 0. by rewrite after_0. }
  destruct t as [|c t]; cbn [next_char scan_exponent]; [exists s; by split|]. fold (is_e c).
  destruct (is_e c) eqn:Ec; [|exists s; by split].
  destruct (sign_left _ _ (left_advance _ _ _ Hl)) as (s1 & E1 & Hs1 & Hl1 & Et).
  rewrite (peek_left _ _ (left_advance _ _ _ Hl)) in E1 |- *. cbn [mbind outcome_bind] in E1 |- *. injection E1 as ->.
  destruct (scan_sign t) as [sg t1]. cbn [fst snd] in *.
  destruct (digits1_left _ _ Hl1) as (s' & E & Hd). rewrite E. cbn [mbind outcome_bind].
  destruct (scan_digits t1) as [[d t2]|] eqn:Es.
  - rewrite bool_decide_true by eauto. exists s'. split; [done|]. cbn [mbind option_bind].
    destruct (Hd d t2 eq_refl) as (-> & Hl' & ->). intros x t' [= <- <-]. cbn [print_exponent]. split_and!; [|done|].
    + rewrite Hs1, after_advance, after_after, zlen_cons, zlen_app. f_equal. lia.
    + by rewrite Et, <-app_comm_cons, <-(assoc_L (++)).
  - rewrite bool_decide_false by (by intros [? [=]]). exists s'. split; [done|]. by intros x t'.
Qed.

(** The parts behind the sign. *)
Definition scan_unsigned (minus : bool) (t : list Z) : option (number * list Z) :=
  '(d, t) ← scan_digits t; '(f, t) ← scan_fraction t; '(x, t) ← scan_exponent t; Some (mk_number minus d f x, t).

Lemma get_decimal_left (minus : bool) s0 s c t :
  left s (c :: t) -> isdigit c = true -> s = after s0 (if minus then 1 else 0) ->
  exists s', get_decimal (src_next s0) minus (advance s) =
      Ret ((fun r => (src_next s0, zlen (print_number (fst r)), number_is_uint (fst r))) <$> scan_unsigned minus (c :: t), s') /\
    forall n t', scan_unsigned minus (c :: t) = Some (n, t') ->
      s' = after s0 (zlen (print_number n)) /\ left s' t' /\ (if minus then [45] else []) ++ c :: t = print_number n ++ t'.
Proof.
  intros Hl Ec Es0. unfold get_decimal, scan_unsigned. rewrite scan_digits_cons, Ec.
  destruct (skip_left isdigit _ _ isdigit_0 (left_advance _ _ _ Hl)) as [Hs Hl1]. rewrite Hs. cbn [mbind outcome_bind option_bind].
  set (d := take_class isdigit t) in *. destruct (fraction_left _ _ Hl1) as (s2 & E2 & H2). rewrite E2. cbn [mbind outcome_bind].
  destruct (scan_fraction (drop_class isdigit t)) as [[f t2]|] eqn:Ef; [|exists s2; split; [done|by intros ? ?]].
  cbn [fmap option_fmap option_map fst mbind option_bind]. destruct (H2 _ _ eq_refl) as (Es2 & Hl2 & Et2).
  destruct (exponent_left _ _ Hl2) as (s3 & E3 & H3). rewrite E3. cbn [mbind outcome_bind].
  destruct (scan_exponent t2) as [[x t3]|] eqn:Ex; [|exists s3; split; [done|by intros ? ?]].
  cbn [fmap option_fmap option_map fst mbind option_bind]. destruct (H3 _ _ eq_refl) as (Es3 & Hl3 & Et3).
  assert (Hlen : zlen (print_number (mk_number minus (c :: d) f x)) =
    (if minus then 1 else 0) + (1 + zlen d) + zlen (print_fraction f) + zlen (print_exponent x)).
  { unfold print_number. cbn [n_minus n_digits n_fraction n_exponent]. rewrite !zlen_app, zlen_cons. by destruct minus; unfold zlen; simpl length; lia. }
  assert (Es : s3 = after s0 (zlen (print_number (mk_number minus (c :: d) f x)))).
  { rewrite Es3, Es2, Es0, after_advance, !after_after, Hlen. f_equal. lia. }
  exists s3. split.
  - assert (Hd : forall L, src_next (after s0 L) - src_next s0 = L) by (intros; simpl; lia).
    rewrite Es, Hd. unfold number_is_uint. cbn [n_minus n_fraction n_exponent fst fmap option_fmap option_map]. by destruct minus, f, x.
  - intros n t' [= <- <-]. split_and!; [done|done|]. unfold print_number. cbn [n_minus n_digits n_fraction n_exponent].
    rewrite <-!(assoc_L (++)), <-Et3, <-Et2. unfold d. cbn [app]. by rewrite take_drop_class.
Qed.

Lemma allows_strict s flag : src_flags s = SXE_JITSON_FLAG_STRICT -> allows s flag = false.
Proof. unfold allows. by intros ->. Qed.

Lemma rd_left s c t : left s (c :: t) -> rd (src_json s) (src_next s) = Some c.
Proof. intros [pre rest Ej En Ee|pre rest Ej En Ee]; rewrite Ej, En; by apply rd_at. Qed.

(** In strict mode the source finds the number that the reference scanner finds. *)
Lemma get_number_left s t :
  left s t -> src_flags s = SXE_JITSON_FLAG_STRICT ->
  exists s', sxe_jitson_source_get_number s =
      Ret ((fun r => (src_next s, zlen (print_number (fst r)), number_is_uint (fst r))) <$> scan_number t, s') /\
    forall n t', scan_number t = Some (n, t') -> s' = after s (zlen (print_number n)) /\ left s' t' /\ t = print_number n ++ t'.
Proof.
  intros Hl Hf. unfold sxe_jitson_source_get_number, scan_number. rewrite (peek_left _ _ Hl). cbn [mbind outcome_bind].
  destruct t as [|c0 t0]; [cbn [next_char]; change (0 =? 45) with false; cbn iota; rewrite (peek_left _ _ Hl); by exists s|].
  cbn [next_char]. pose proof (rd_left _ _ _ Hl) as Hrd.
  set (minus := c0 =? 45). set (s1 := if minus then advance s else s).
  set (t1 := if minus then t0 else c0 :: t0).
  assert (Hl1 : left s1 t1) by (unfold s1, t1; destruct minus; [by eapply left_advance|done]).
  assert (Hs1 : s1 = after s (if minus then 1 else 0)).
  { unfold s1. destruct minus; [|by rewrite after_0]. done. }
  assert (Ht1 : (if minus then [45] else []) ++ t1 = c0 :: t0) by (unfold t1, minus; by destruct (Z.eqb_spec c0 45) as [->|]).
  replace (if minus then (true, t0) else (false, c0 :: t0)) with (minus, t1) by (unfold t1; by destruct minus).
  fold (scan_unsigned minus t1). rewrite (peek_left _ _ Hl1). cbn [mbind outcome_bind].
  destruct t1 as [|c t]; cbn [next_char]; [by exists s1|].
  destruct (isdigit c) eqn:Ec; cbn [negb]; [|exists s1; unfold scan_unsigned; by rewrite scan_digits_cons, Ec].
  assert (src_json (advance s1) = src_json s) as -> by (unfold s1; by destruct minus). rewrite Hrd. cbn [load mbind outcome_bind].
  rewrite (peek_left _ _ (left_advance _ _ _ Hl1)). cbn [mbind outcome_bind].
  rewrite allows_strict by (rewrite <-Hf; unfold s1; by destruct minus). cbn [andb].
  destruct (get_decimal_left minus s s1 c t Hl1 Ec Hs1) as (s' & E & H). exists s'. split; [done|]. by rewrite Ht1 in H.
Qed.

(** The scanner finds exactly the numbers of the grammar. *)
Record number_prefix (t : list Z) (n : number) (rest : list Z) : Prop := {
  np_text : t = print_number n ++ rest;
  np_ok : number_ok n;
  np_ends : number_ends n rest
}.

Lemma scan_digits_sound t d t' : scan_digits t = Some (d, t') -> t = d ++ t' /\ digits_ok d /\ isdigit (next_char t') = false.
Proof.
  unfold scan_digits. destruct (take_class isdigit t) as [|c l] eqn:E; [done|]. intros [= <- <-]. rewrite <-E, take_drop_class.
  split_and!; [done| |by apply drop_class_next]. split; [by rewrite E|]. clear E c l.
  induction t as [|c t IH]; cbn [take_class]; [constructor|]. destruct (isdigit c) eqn:Ec; [by constructor|constructor].
Qed.

Lemma scan_digits_complete d t' : digits_ok d -> isdigit (next_char t') = false -> scan_digits (d ++ t') = Some (d, t').
Proof.
  intros [Hd Hall] Hn. destruct (class_app isdigit d t' Hall Hn) as [E1 E2]. unfold scan_digits. rewrite E1, E2. by destruct d.
Qed.

Lemma scan_fraction_sound t f t' :
  scan_fraction t = Some (f, t') -> isdigit (next_char t) = false ->
  t = print_fraction f ++ t' /\ (forall d, f = Some d -> digits_ok d) /\ isdigit (next_char t') = false /\ (f = None -> next_char t' <> 46).
Proof.
  destruct t as [|c t]; cbn [scan_fraction]; [intros [= <- <-] _; split_and!; by try (intros _; cbn [next_char]; lia)|].
  destruct (Z.eqb_spec c 46) as [->|Hc]; [|intros [= <- <-] Hn; split_and!; by try (intros _; cbn [next_char])].
  destruct (scan_digits t) as [[d t1]|] eqn:Ed; cbn [mbind option_bind]; [|done]. intros [= <- <-] _.
  apply scan_digits_sound in Ed as (-> & Hd & Hn). split_and!; try done. by intros ? [= <-].
Qed.

Lemma scan_sign_sound t : t = fst (scan_sign t) ++ snd (scan_sign t) /\ (fst (scan_sign t) = [] \/ fst (scan_sign t) = [43] \/ fst (scan_sign t) = [45]).
Proof.
  destruct t as [|c t]; cbn [scan_sign fst snd]; [auto|].
  destruct (Z.eqb_spec c 45) as [->|]; [by auto|]. destruct (Z.eqb_spec c 43) as [->|]; by auto.
Qed.

Lemma scan_exponent_sound t x t' :
  scan_exponent t = Some (x, t') -> isdigit (next_char t) = false ->
  t = print_exponent x ++ t' /\
  (forall e sg d, x = Some (e, sg, d) -> (e = 69 \/ e = 101) /\ (sg = [] \/ sg = [43] \/ sg = [45]) /\ digits_ok d) /\
  isdigit (next_char t') = false /\ (x = None -> t' = t /\ is_e (next_char t') = false).
Proof.
  destruct t as [|c t]; cbn [scan_exponent]; [intros [= <- <-] _; by split_and!|].
  destruct (is_e c) eqn:Ec; [|intros [= <- <-] Hn; by split_and!].
  pose proof (scan_sign_sound t) as [Et Hsg]. destruct (scan_sign t) as [sg t1]. cbn [fst snd] in *.
  destruct (scan_digits t1) as [[d t2]|] eqn:Ed; cbn [mbind option_bind]; [|done]. intros [= <- <-] _.
  apply scan_digits_sound in Ed as (-> & Hd & Hn). split_and!; [|intros ? ? ? [= <- <- <-]|done|done].
  - by rewrite Et; cbn [print_exponent app]; rewrite <-(assoc_L (++)).
  - unfold is_e in Ec. apply orb_true_iff in Ec as [?%Z.eqb_eq|?%Z.eqb_eq]; auto.
Qed.

Lemma scan_exponent_complete x t' :
  (forall e sg d, x = Some (e, sg, d) -> (e = 69 \/ e = 101) /\ (sg = [] \/ sg = [43] \/ sg = [45]) /\ digits_ok d) ->
  isdigit (next_char t') = false -> (x = None -> is_e (next_char t') = false) -> scan_exponent (print_exponent x ++ t') = Some (x, t').
Proof.
  intros Hx Hn He. destruct x as [[[e sg] d]|]; cbn [print_exponent app].
  - destruct (Hx e sg d eq_refl) as (Hee & Hsg & Hd). cbn [scan_exponent].
    assert (is_e e = true) as -> by (destruct Hee as [-> | ->]; done). rewrite <-(assoc_L (++)).
    assert (scan_sign (sg ++ d ++ t') = (sg, d ++ t')) as ->.
    { destruct Hsg as [->|[-> | ->]]; [|done|done]. destruct d as [|c d]; [by destruct Hd|]. cbn [app scan_sign].
      destruct Hd as [_ Hd]. apply Forall_cons in Hd as [Hc _]. unfold isdigit in Hc.
      by replace ((c =? 45) || (c =? 43)) with false by lia. }
    by rewrite scan_digits_complete.
  - destruct t' as [|c t']; [done|]. cbn [scan_exponent]. cbn [next_char] in He. by rewrite He.
Qed.

Lemma scan_fraction_complete f t' :
  (forall d, f = Some d -> digits_ok d) -> isdigit (next_char t') = false -> (f = None -> next_char t' <> 46) ->
  scan_fraction (print_fraction f ++ t') = Some (f, t').
Proof.
  intros Hf Hn Hdot. destruct f as [d|]; cbn [print_fraction app scan_fraction]; [by rewrite Z.eqb_refl, scan_digits_complete by auto|].
  destruct t' as [|c t']; [done|]. cbn [scan_fraction]. destruct (Z.eqb_spec c 46) as [->|]; [by destruct Hdot|done].
Qed.

Lemma digits_ok_next d t : digits_ok d -> isdigit (next_char (d ++ t)) = true.
Proof. intros [Hd Hall]. destruct d as [|c d]; [done|]. by apply Forall_cons in Hall as [? _]. Qed.

Lemma print_fraction_next f t : isdigit (next_char t) = false -> isdigit (next_char (print_fraction f ++ t)) = false.
Proof. by destruct f. Qed.

Lemma print_exponent_next x t :
  (forall e sg d, x = Some (e, sg, d) -> (e = 69 \/ e = 101)) -> isdigit (next_char t) = false ->
  isdigit (next_char (print_exponent x ++ t)) = false /\ (next_char t <> 46 \/ x <> None -> next_char (print_exponent x ++ t) <> 46).
Proof.
  intros Hx Hn. destruct x as [[[e sg] d]|]; cbn [print_exponent app next_char].
  - destruct (Hx e sg d eq_refl) as [-> | ->]; (split; [done|]); intros _; lia.
  - split; [done|]. by intros [?|[]].
Qed.

Lemma scan_unsigned_sound minus t n rest :
  scan_unsigned minus t = Some (n, rest) -> number_prefix ((if minus then [45] else []) ++ t) n rest.
Proof.
  unfold scan_unsigned. destruct (scan_digits t) as [[d t1]|] eqn:Ed; [|done]. cbn [mbind option_bind].
  destruct (scan_fraction t1) as [[f t2]|] eqn:Ef; [|done]. cbn [mbind option_bind].
  destruct (scan_exponent t2) as [[x t3]|] eqn:Ex; [|done]. cbn [mbind option_bind]. intros [= <- <-].
  apply scan_digits_sound in Ed as (-> & Hd & Hn1). destruct (scan_fraction_sound _ _ _ Ef Hn1) as (-> & Hf & Hn2 & Hdot).
  destruct (scan_exponent_sound _ _ _ Ex Hn2) as (Et2 & Hx & Hn3 & He). split.
  - unfold print_number. cbn [n_minus n_digits n_fraction n_exponent]. by rewrite Et2, <-!(assoc_L (++)).
  - split; [done..|]. exact Hx.
  - unfold number_ends. cbn [n_fraction n_exponent]. split_and!; [done|by intros H; apply (He H)|].
    intros H Hf'. destruct (He H) as [-> _]. by apply Hdot.
Qed.

Lemma scan_unsigned_complete n rest :
  number_ok n -> number_ends n rest ->
  scan_unsigned (n_minus n) (n_digits n ++ print_fraction (n_fraction n) ++ print_exponent (n_exponent n) ++ rest) = Some (n, rest).
Proof.
  destruct n as [minus d f x]. intros [Hd Hf Hx] (Hn & He & Hdot). cbn [n_minus n_digits n_fraction n_exponent] in *.
  destruct (print_exponent_next x rest (fun e sg d E => proj1 (Hx e sg d E)) Hn) as [Hn2 Hdot2].
  unfold scan_unsigned. rewrite scan_digits_complete by (done || by apply print_fraction_next). cbn [mbind option_bind].
  rewrite scan_fraction_complete; [|done|done|]. 2: { intros Hf'. apply Hdot2. destruct x; [by right|left; by apply Hdot]. }
  cbn [mbind option_bind]. by rewrite scan_exponent_complete.
Qed.

Lemma scan_number_iff t n rest : scan_number t = Some (n, rest) <-> number_prefix t n rest.
Proof.
  unfold scan_number. split.
  - destruct t as [|c t]; [done|]. destruct (Z.eqb_spec c 45) as [->|Hc]; intros E; apply (scan_unsigned_sound _ _ _ _ E).
  - intros [-> Hok He]. pose proof (scan_unsigned_complete n rest Hok He) as E. pose proof (no_digits _ Hok) as Hd.
    unfold print_number. rewrite <-!(assoc_L (++)). destruct (n_minus n) eqn:Em; cbn [app]; [done|].
    apply (digits_ok_next _ (print_fraction (n_fraction n) ++ print_exponent (n_exponent n) ++ rest)) in Hd.
    destruct (n_digits n ++ _) as [|c t]; [done|]. cbn [next_char] in Hd. destruct (Z.eqb_spec c 45) as [->|]; [done|]. exact E.
Qed.

(** C40: What sxe_jitson_source_get_number finds without extensions, in any source: if the text
    that is left starts with a number (of the JSON grammar, but with leading zeros allowed, which JSON forbids and the code accepts) which what follows does not continue, the
    number's place and length, whether it is an unsigned integer, and the source left behind it;
    in every other text, nothing. A text starts with one such number at most. *)
Theorem sxe_jitson_source_get_number_spec s t :
  left s t -> src_flags s = SXE_JITSON_FLAG_STRICT ->
  exists r s', sxe_jitson_source_get_number s = Ret (r, s') /\
    match r with
    | Some (number, len, is_uint) =>
        exists n rest, number_prefix t n rest /\ (forall n' rest', number_prefix t n' rest' -> n' = n /\ rest' = rest) /\
          number = src_next s /\ len = zlen (print_number n) /\ is_uint = number_is_uint n /\ left s' rest
    | None => forall n rest, ~ number_prefix t n rest
    end.
Proof.
  intros Hl Hf. destruct (get_number_left s t Hl Hf) as (s' & E & H). rewrite E. eexists _, s'. split; [reflexivity|].
  destruct (scan_number t) as [[n rest]|] eqn:Es; cbn [fmap option_fmap option_map fst].
  - destruct (H n rest eq_refl) as (_ & Hl' & _). exists n, rest. split_and!; try done; [by apply scan_number_iff|].
    intros n' rest' Hp%scan_number_iff. rewrite Es in Hp. by injection Hp as <- <-.
  - intros n rest Hp%scan_number_iff. by rewrite Es in Hp.
Qed.

(** -12.5e+3 before a comma. *)
Lemma sxe_jitson_source_get_number_spec_witness : exists s',
  sxe_jitson_source_get_number (sxe_jitson_source_from_string [45; 49; 50; 46; 53; 101; 43; 51; 44; 0] 0) = Ret (Some (0, 8, false), s') /\
  left s' [44].
Proof.
  destruct (sxe_jitson_source_get_number_spec (sxe_jitson_source_from_string [45; 49; 50; 46; 53; 101; 43; 51; 44; 0] 0)
    [45; 49; 50; 46; 53; 101; 43; 51; 44]) as (r & s' & E & H); [by apply (left_string _ _ [] [])|done|].
  vm_compute in E. injection E as <- <-. eexists. split; [reflexivity|].
  by destruct H as (n & rest & _ & _ & _ & _ & _ & _); apply (left_string _ _ [45; 49; 50; 46; 53; 101; 43; 51] []).
Defined.
