(* ===== verification/JitsonToken.v ===== *)
(** * JitsonToken: the memory of jitson tokens (lib-sxe-jitson/sxe-jitson.h)

    A jitson is an array of tokens of 16 bytes: a type word, a length word, and a union of 8
    bytes; the tokens of a string that follow the first hold its further bytes, and a
    collection is followed by its elements. The image of a JSON value is the memory that
    stands for it, with the bytes that the library leaves indeterminate left open. *)

From S2P Require Import Prelude.

(** lib-sxe-jitson/sxe-jitson.h:37-44, SXE_JITSON_TYPE_INVALID. *)
Definition SXE_JITSON_TYPE_INVALID : Z := 0.
Definition SXE_JITSON_TYPE_NULL : Z := 1.
Definition SXE_JITSON_TYPE_BOOL : Z := 2.
Definition SXE_JITSON_TYPE_NUMBER : Z := 3.
Definition SXE_JITSON_TYPE_STRING : Z := 4.
Definition SXE_JITSON_TYPE_ARRAY : Z := 5.
Definition SXE_JITSON_TYPE_OBJECT : Z := 6.
Definition SXE_JITSON_TYPE_REFERENCE : Z := 7.

(** lib-sxe-jitson/sxe-jitson.h:46-53, SXE_JITSON_TYPE_MASK. *)
Definition SXE_JITSON_TYPE_MASK : Z := 0xFFFF.
Definition SXE_JITSON_TYPE_IS_UINT : Z := 0x08000000.
Definition SXE_JITSON_TYPE_IS_KEY : Z := 0x10000000.
Definition SXE_JITSON_TYPE_IS_COPY : Z := 0.
Definition SXE_JITSON_TYPE_IS_REF : Z := 0x20000000.
Definition SXE_JITSON_TYPE_IS_OWN : Z := 0x40000000.
Definition SXE_JITSON_TYPE_INDEXED : Z := 0x40000000.
Definition SXE_JITSON_TYPE_ALLOCED : Z := 0x80000000.

(** lib-sxe-jitson/sxe-jitson.h:55-57, SXE_JITSON_STACK_ERROR. *)
Definition SXE_JITSON_STACK_ERROR : Z := 4294967295.
Definition SXE_JITSON_TOKEN_SIZE : Z := 16.
Definition SXE_JITSON_STRING_SIZE : Z := 8.

(** The values of errno that the library sets. *)
Inductive errno := ENOMEM | EINVAL | EILSEQ | ENODATA | ENAMETOOLONG | ENOKEY | ERANGE | EOVERFLOW.

#[export] Instance errno_eq_dec : EqDecision errno.
Proof. solve_decision. Defined.

(** ** Words in memory *)

(** Byte offset of token [i]. *)
Definition tok (i : Z) : Z := 16 * i.

(** lib-sxe-jitson/sxe-jitson.h:63-87, sxe_jitson. The fields of token [i] of a memory. *)
Definition get_type (m : list Z) (i : Z) : outcome Z := ld32 m (tok i).
Definition set_type (m : list Z) (i v : Z) : outcome (list Z) := wr_bytes m (tok i) (bytes32 v).
Definition get_len (m : list Z) (i : Z) : outcome Z := ld32 m (tok i + 4).
Definition set_len (m : list Z) (i v : Z) : outcome (list Z) := wr_bytes m (tok i + 4) (bytes32 v).
Definition get_integer (m : list Z) (i : Z) : outcome Z :=
  lo ← ld32 m (tok i + 8); hi ← ld32 m (tok i + 12); mret (lo + 4294967296 * hi).
Definition set_integer (m : list Z) (i v : Z) : outcome (list Z) := wr_bytes m (tok i + 8) (bytes64 v).
Definition get_byte (m : list Z) (i k : Z) : outcome Z := load (rd m (tok i + 8 + k)).
Definition set_byte (m : list Z) (i k v : Z) : outcome (list Z) := wr m (tok i + 8 + k) v.
Definition set_bytes (m : list Z) (i k : Z) (l : list Z) : outcome (list Z) := wr_bytes m (tok i + 8 + k) l.
(** partial.no_value, partial.nested and partial.collection. *)
Definition get_no_value (m : list Z) (i : Z) : outcome Z := get_byte m i 0.
Definition set_no_value (m : list Z) (i v : Z) : outcome (list Z) := set_byte m i 0 v.
Definition get_nested (m : list Z) (i : Z) : outcome Z := get_byte m i 1.
Definition set_nested (m : list Z) (i v : Z) : outcome (list Z) := set_byte m i 1 v.
Definition get_collection (m : list Z) (i : Z) : outcome Z := ld32 m (tok i + 12).
Definition set_collection (m : list Z) (i v : Z) : outcome (list Z) := wr_bytes m (tok i + 12) (bytes32 v).

(** ** JSON values *)

(** A number that is not an unsigned integer is given by the bits of its double. *)
Inductive json :=
| JNull
| JBool (b : bool)
| JUint (v : Z)
| JNumber (bits : Z)
| JString (s : list Z)
| JArray (l : list json)
| JObject (l : list (list Z * json)).

(** ** The image of a value *)

(** A byte of memory that is given, or one that is left open. *)
Definition given (l : list Z) : list (option Z) := Some <$> l.
Definition blank (n : Z) : list (option Z) := replicate (Z.to_nat n) None.

(** The tokens of a copied string: its bytes and a NUL. *)
Definition string_tokens (n : Z) : Z := 1 + (n + 8) / 16.
Definition string_image (ty : Z) (s : list Z) : list (option Z) :=
  given (bytes32 ty) ++ given (bytes32 (zlen s)) ++ given (s ++ [0]) ++ blank (16 * string_tokens (zlen s) - 8 - zlen s - 1).

Definition key_type : Z := Z.lor SXE_JITSON_TYPE_STRING SXE_JITSON_TYPE_IS_KEY.

(** A collection's header holds its number of elements and its size in tokens. *)
Definition collection_image (ty n : Z) (elements : list (option Z)) : list (option Z) :=
  given (bytes32 ty) ++ given (bytes32 n) ++ given (bytes64 (1 + zlen elements / 16)) ++ elements.

Fixpoint image (v : json) : list (option Z) :=
  match v with
  | JNull => given (bytes32 SXE_JITSON_TYPE_NULL) ++ blank 12
  | JBool b => given (bytes32 SXE_JITSON_TYPE_BOOL) ++ blank 4 ++ given [Z.b2z b] ++ blank 7
  | JUint u => given (bytes32 (Z.lor SXE_JITSON_TYPE_NUMBER SXE_JITSON_TYPE_IS_UINT)) ++ blank 4 ++ given (bytes64 u)
  | JNumber d => given (bytes32 SXE_JITSON_TYPE_NUMBER) ++ blank 4 ++ given (bytes64 d)
  | JString s => string_image SXE_JITSON_TYPE_STRING s
  | JArray l => collection_image SXE_JITSON_TYPE_ARRAY (zlen l) ((fix images l := match l with [] => [] | v :: l => image v ++ images l end) l)
  | JObject l => collection_image SXE_JITSON_TYPE_OBJECT (zlen l)
      ((fix images l := match l with [] => [] | (k, v) :: l => string_image key_type k ++ image v ++ images l end) l)
  end.

(** The images of the elements of an array and of the members of an object. *)
Fixpoint array_image (l : list json) : list (option Z) :=
  match l with [] => [] | v :: l => image v ++ array_image l end.
Fixpoint object_image (l : list (list Z * json)) : list (option Z) :=
  match l with [] => [] | (k, v) :: l => string_image key_type k ++ image v ++ object_image l end.

(** Size in tokens. *)
Definition size (v : json) : Z := zlen (image v) / 16.

(** The memory [m] has the image [p]. *)
Definition fits (o : option Z) (b : Z) : Prop := match o with Some x => x = b | None => True end.
Abbreviation has_image := (Forall2 fits).

(** ** Lemmas *)

Lemma image_array l : image (JArray l) = collection_image SXE_JITSON_TYPE_ARRAY (zlen l) (array_image l).
Proof. cbn [image]. f_equal. Qed.
Lemma image_object l : image (JObject l) = collection_image SXE_JITSON_TYPE_OBJECT (zlen l) (object_image l).
Proof. cbn [image]. f_equal. Qed.

Lemma array_image_app l k : array_image (l ++ k) = array_image l ++ array_image k.
Proof. induction l as [|v l IH]; [done|]. cbn [array_image app]. by rewrite IH, (assoc_L (++)). Qed.
Lemma object_image_app l k : object_image (l ++ k) = object_image l ++ object_image k.
Proof. induction l as [|[n v] l IH]; [done|]. cbn [object_image app]. by rewrite IH, !(assoc_L (++)). Qed.

(** Induction over the values inside a value. *)
Section JsonInd.
Variable P : json -> Prop.
Hypothesis Hnull : P JNull.
Hypothesis Hbool : forall b, P (JBool b).
Hypothesis Huint : forall v, P (JUint v).
Hypothesis Hnumber : forall d, P (JNumber d).
Hypothesis Hstring : forall s, P (JString s).
Hypothesis Harray : forall l, Forall P l -> P (JArray l).
Hypothesis Hobject : forall l, Forall (fun kv => P (snd kv)) l -> P (JObject l).

Fixpoint json_ind' (v : json) : P v :=
  match v with
  | JNull => Hnull
  | JBool b => Hbool b
  | JUint u => Huint u
  | JNumber d => Hnumber d
  | JString s => Hstring s
  | JArray l => Harray l ((fix go l : Forall P l :=
      match l with [] => Forall_nil_2 _ | v :: l => Forall_cons_2 _ _ _ (json_ind' v) (go l) end) l)
  | JObject l => Hobject l ((fix go l : Forall (fun kv => P (snd kv)) l :=
      match l with [] => Forall_nil_2 _ | (k, v) :: l => Forall_cons_2 (fun kv => P (snd kv)) (k, v) l (json_ind' v) (go l) end) l)
  end.
End JsonInd.

Lemma zlen_given l : zlen (given l) = zlen l.
Proof. unfold given, zlen. by rewrite length_fmap. Qed.
Lemma zlen_blank n : 0 <= n -> zlen (blank n) = n.
Proof. intros. unfold blank. rewrite zlen_replicate. lia. Qed.

Lemma string_image_zlen ty s : zlen (string_image ty s) = 16 * string_tokens (zlen s).
Proof.
  unfold string_image. pose proof (zlen_nonneg s). rewrite !zlen_app, !zlen_given, zlen_app, zlen_blank by (unfold string_tokens; Z.to_euclidean_division_equations; lia).
  change (zlen [0]) with 1. change (zlen (bytes32 ty)) with 4. change (zlen (bytes32 (zlen s))) with 4. lia.
Qed.

Lemma collection_image_zlen ty n e : zlen (collection_image ty n e) = 16 + zlen e.
Proof.
  unfold collection_image. rewrite !zlen_app, !zlen_given. unfold bytes64. rewrite zlen_app. unfold bytes32, zlen. simpl length. lia.
Qed.

(** Every value is a whole number of tokens, at least one. *)
Lemma image_tokens v : exists n, 1 <= n /\ zlen (image v) = 16 * n.
Proof.
  induction v as [|b|u|d|s|l IH|l IH] using json_ind'; try (exists 1; split; [lia|reflexivity]).
  - cbn [image]. exists (string_tokens (zlen s)). rewrite string_image_zlen. split; [|done].
    unfold string_tokens. pose proof (zlen_nonneg s). Z.to_euclidean_division_equations; lia.
  - rewrite image_array, collection_image_zlen.
    assert (exists n, 0 <= n /\ zlen (array_image l) = 16 * n) as (n & Hn & ->); [|exists (1 + n); split; lia].
    induction IH as [|v l (nv & Hv & Ev) _ (n & Hn & E)]; [by exists 0|]. cbn [array_image]. exists (nv + n). rewrite zlen_app. split; lia.
  - rewrite image_object, collection_image_zlen.
    assert (exists n, 0 <= n /\ zlen (object_image l) = 16 * n) as (n & Hn & ->); [|exists (1 + n); split; lia].
    induction IH as [|[k v] l (nv & Hv & Ev) _ (n & Hn & E)]; [by exists 0|]. cbn [object_image snd] in *. exists (string_tokens (zlen k) + nv + n).
    rewrite !zlen_app, string_image_zlen. unfold string_tokens. pose proof (zlen_nonneg k). split; Z.to_euclidean_division_equations; lia.
Qed.

Lemma image_size v : zlen (image v) = 16 * size v /\ 1 <= size v.
Proof. unfold size. destruct (image_tokens v) as (n & Hn & ->). rewrite Z.mul_comm, Z.div_mul by lia. lia. Qed.
