(* ===== verification/JitsonStack.v ===== *)
(** * JitsonStack: building jitsons on a stack (lib-sxe-jitson/sxe-jitson-stack.c)

    A stack is an array of tokens that grows: the parser loads JSON text onto it, and a
    program can build a collection on it value by value. This file has the operations;
    JitsonParse.v and JitsonBuild.v prove what they do. *)

From S2P Require Import Prelude JitsonSource JitsonToken.

(** What the stack is given: the allocator (does an allocation of this many bytes succeed,
    and what is in the bytes it adds?), the strtod of the C library (the bits of the double and the
    characters it consumes), the constants that stand for identifiers (a value's tokens by its name, if
    they were registered), sxe_jitson_clone on the copy of a value's tokens, and
    the type of identifiers, if it was registered. *)
Class Env := {
  can_alloc : Z -> bool;
  fresh_byte : Z -> Z;
  strtod : list Z -> Z * Z;
  jitson_constants : option (list Z -> option (list Z));
  sxe_jitson_clone : list Z -> bool * list Z;
  SXE_JITSON_TYPE_IDENT : option Z
}.

(** lib-sxe-jitson/sxe-jitson.h:96-101, sxe_jitson_stack. The memory of [jitsons], or NULL. *)
Record jstack := mk_jstack { maximum : Z; count : Z; jitsons : option (list Z); open : Z }.

Definition set_count (s : jstack) (n : Z) : jstack := mk_jstack (maximum s) n (jitsons s) (open s).
Definition set_jitsons (s : jstack) (m : option (list Z)) : jstack := mk_jstack (maximum s) (count s) m (open s).
Definition set_open (s : jstack) (n : Z) : jstack := mk_jstack (maximum s) (count s) (jitsons s) n.

(** lib-sxe-jitson/sxe-jitson-stack.c:37-38, JITSON_STACK_MAX_INCR. *)
Definition JITSON_STACK_MAX_INCR : Z := 4096.

(** The value of a call that may fail: true, or false with errno. *)
Abbreviation result := (option errno).
Abbreviation success := (@None errno).

Section Stack.
Context `{Build} `{Env}.

(** sxe_malloc, and sxe_realloc to [n] bytes. *)
Definition fresh_bytes (from n : Z) : list Z := (fun k => fresh_byte (from + Z.of_nat k)) <$> seq 0 (Z.to_nat n).
Definition sxe_realloc (m : list Z) (n : Z) : option (list Z) :=
  if can_alloc n then Some (take (Z.to_nat n) m ++ fresh_bytes (zlen m) (n - zlen m)) else None.

(** lib-sxe-jitson/sxe-jitson-stack.c:74-99, sxe_jitson_stack_new. The object itself is allocated
    as well; [None] is the NULL that a failure gives. *)
Definition sxe_jitson_stack_new (init_size : Z) : option jstack :=
  if can_alloc 32 then
    match sxe_realloc [] (16 * init_size) with Some m => Some (mk_jstack init_size 0 (Some m) 0) | None => None end
  else None.

(** lib-sxe-jitson/sxe-jitson-stack.c:131-136, sxe_jitson_stack_clear. *)
Definition sxe_jitson_stack_clear : cmd jstack unit := modify (fun s => mk_jstack (maximum s) 0 (jitsons s) 0).

(** Reading and changing the tokens. *)
Definition peek {A} (f : list Z -> outcome A) : cmd jstack A := fun s =>
  m ← load (jitsons s); a ← f m; mret (a, s).
Definition poke (f : list Z -> outcome (list Z)) : cmd jstack unit := fun s =>
  m ← load (jitsons s); m ← f m; mret (tt, set_jitsons s (Some m)).

(** lib-sxe-jitson/sxe-jitson-stack.c:108-126, sxe_jitson_stack_get_jitson. An empty stack's array
    is given back to the allocator by the call of realloc, and then used. *)
Definition sxe_jitson_stack_get_jitson : cmd jstack (list Z) := fun s =>
  match jitsons s with
  | None => Abort
  | Some m =>
      assert1 (open s =? 0);;
      ret ← (if count s <? maximum s then
               if count s =? 0 then Fault else mret (default m (sxe_realloc m (16 * count s)))
             else mret m);
      ty ← get_type ret 0;
      ret ← set_type ret 0 (Z.lor ty SXE_JITSON_TYPE_ALLOCED);
      mret (ret, mk_jstack (maximum s) 0 None (open s))
  end.

(** The size that the array grows to, in tokens. *)
Definition new_maximum (expanded maximum : Z) : outcome Z :=
  if expanded <? JITSON_STACK_MAX_INCR then
    if maximum =? 0 then Fault else mret (u32 (((expanded - 1) / maximum + 1) * maximum))
  else mret (u32 (((expanded - 1) / JITSON_STACK_MAX_INCR + 1) * JITSON_STACK_MAX_INCR)).

(** lib-sxe-jitson/sxe-jitson-stack.c:173-205, sxe_jitson_stack_expand. *)
Definition sxe_jitson_stack_expand (more : Z) : cmd jstack Z := fun s =>
  let expanded := u32 (count s + more) in
  if maximum s <? expanded then
    n ← new_maximum expanded (maximum s);
    match sxe_realloc (default [] (jitsons s)) (16 * n) with
    | None => mret (SXE_JITSON_STACK_ERROR, s)
    | Some m => mret (u32 (expanded - more), mk_jstack n expanded (Some m) (open s))
    end
  else
    match jitsons s with
    | Some m => mret (u32 (expanded - more), set_count s expanded)
    | None =>
        match sxe_realloc [] (16 * maximum s) with
        | None => mret (SXE_JITSON_STACK_ERROR, s)
        | Some m => mret (u32 (expanded - more), mk_jstack (maximum s) expanded (Some m) (open s))
        end
    end.

(** ** The parser *)

(** The stack and the source that a call is given. *)
Record parser := mk_parser { p_stack : jstack; p_source : source }.

Definition on_stack {A} (f : cmd jstack A) : cmd parser A := fun p =>
  '(a, s) ← f (p_stack p); mret (a, mk_parser s (p_source p)).
Definition on_source {A} (f : source -> outcome (A * source)) : cmd parser A := fun p =>
  '(a, s) ← f (p_source p); mret (a, mk_parser (p_stack p) s).

Definition get_char : cmd parser Z := on_source sxe_jitson_source_get_char.
Definition get_nonspace : cmd parser Z := on_source sxe_jitson_source_get_nonspace.
Definition push_char (c : Z) : cmd parser unit := on_source (fun s => s ← sxe_jitson_source_push_char s c; mret (tt, s)).

(** ERROR: discard what was added to the stack from [index] on. *)
Definition fail (index : Z) (e : errno) : cmd parser result := on_stack (modify (fun s => set_count s index));; mret (Some e).

(** jitson->string[jitson->len++] = c *)
Definition put_char (index c : Z) : cmd jstack unit :=
  len ← peek (fun m => get_len m index);
  poke (fun m => set_len m index (u32 (len + 1)));;
  poke (fun m => set_byte m index len c).

(** lib-sxe-jitson/sxe-jitson-stack.c:265-303, sxe_jitson_stack_load_string. The digits of an
    escape; no value if one is not a hexadecimal digit. *)
Fixpoint get_unicode (i : nat) (unicode : Z) : cmd parser (option Z) :=
  match i with
  | O => mret (Some unicode)
  | S i =>
      c ← get_char;
      if (48 <=? c) && (c <=? 57) then get_unicode i (u32 (Z.shiftl unicode 4 + c - 48))
      else if (97 <=? c) && (c <=? 102) then get_unicode i (u32 (Z.shiftl unicode 4 + c - 97 + 10))
      else if (65 <=? c) && (c <=? 70) then get_unicode i (u32 (Z.shiftl unicode 4 + c - 65 + 10))
      else mret None
  end.

(** lib-sxe-jitson/sxe-jitson-stack.c:237-262, sxe_jitson_stack_load_string. The character
    that an escape of one letter stands for. *)
Definition escaped (c : Z) : option Z :=
  if (c =? 34) || (c =? 92) || (c =? 47) then Some c
  else if c =? 98 then Some 8
  else if c =? 102 then Some 12
  else if c =? 110 then Some 10
  else if c =? 114 then Some 13
  else if c =? 116 then Some 9
  else None.

(** lib-sxe-jitson/sxe-jitson-stack.c:227-311, sxe_jitson_stack_load_string. The bytes that the
    character [c] of a string, or the escape it starts, stands for; none if it is not valid. *)
Definition get_bytes (c : Z) : cmd parser (option (list Z)) :=
  if c =? 92 then
    c ← get_char;
    match escaped c with
    | Some b => mret (Some [b])
    | None => if c =? 117 then unicode ← get_unicode 4 0; mret (sxe_unicode_to_utf8 <$> unicode) else mret None
    end
  else mret (Some [c]).

(** lib-sxe-jitson/sxe-jitson-stack.c:287-324, sxe_jitson_stack_load_string. Appending the bytes
    of one character: is there memory for them? *)
Definition put_bytes (index : Z) (utf8 : list Z) : cmd jstack bool :=
  put_char index (hd 0 utf8);;
  len ← peek (fun m => get_len m index);
  let edge := len mod SXE_JITSON_TOKEN_SIZE in
  let i := zlen utf8 in
  full ← (if (SXE_JITSON_TOKEN_SIZE / 2 <=? edge) && (edge <? SXE_JITSON_TOKEN_SIZE / 2 + i)
          then n ← sxe_jitson_stack_expand 1; mret (n =? SXE_JITSON_STACK_ERROR) else mret false);
  if (full : bool) then mret false
  else if 1 <? i then
    poke (fun m => set_bytes m index len (tl utf8));;
    poke (fun m => set_len m index (u32 (len + (i - 1))));;
    mret true
  else mret true.

(** lib-sxe-jitson/sxe-jitson-stack.c:226-333, sxe_jitson_stack_load_string. The characters up
    to the closing quote. *)
Fixpoint string_loop (fuel : nat) (index : Z) : cmd parser result :=
  match fuel with
  | O => fun _ => Fault
  | S fuel =>
      c ← get_char;
      if c =? 34 then
        len ← on_stack (peek (fun m => get_len m index));
        on_stack (poke (fun m => set_byte m index len 0));; mret success
      else if c =? 0 then fail index EINVAL
      else
        utf8 ← get_bytes c;
        match utf8 with
        | None => fail index EILSEQ
        | Some utf8 =>
            ok ← on_stack (put_bytes index utf8);
            if (ok : bool) then string_loop fuel index else fail index ENOMEM
        end
  end.

(** The iterations of a loop over the text are bounded by its object. *)
Definition text_fuel : cmd parser nat := gets (fun p => S (length (src_json (p_source p)))).

(** lib-sxe-jitson/sxe-jitson-stack.c:212-334, sxe_jitson_stack_load_string. *)
Definition sxe_jitson_stack_load_string (is_member_name : bool) : cmd parser result :=
  index ← on_stack (sxe_jitson_stack_expand 1);
  if index =? SXE_JITSON_STACK_ERROR then mret (Some ENOMEM)
  else
    on_stack (poke (fun m => set_type m index (Z.lor SXE_JITSON_TYPE_STRING (if is_member_name then SXE_JITSON_TYPE_IS_KEY else 0))));;
    on_stack (poke (fun m => set_len m index 0));;
    fuel ← text_fuel;
    string_loop fuel index.

(** lib-sxe-jitson/sxe-jitson-stack.c:338-345, sxe_jitson_stack_dup_at_index. *)
Definition sxe_jitson_stack_dup_at_index (index : Z) (value : list Z) : cmd jstack bool :=
  let (ret, copy) := sxe_jitson_clone value in
  poke (fun m => wr_bytes m (tok index) copy);;
  ty ← peek (fun m => get_type m index);
  poke (fun m => set_type m index (Z.land ty (Z.lnot SXE_JITSON_TYPE_ALLOCED)));;
  mret ret.

(** lib-sxe-jitson/sxe-jitson-stack.c:349-353, jitson_class. The classes of characters; those special
    to JSON are classes of their own, named for the ones that a value can start with. *)
Inductive class := INV | SYM | QOT | DIG | ALP | QUOTE | MINUS | BRACKET | BRACE | OWN.

(** lib-sxe-jitson/sxe-jitson-stack.c:357-372, jitson_class. *)
Definition jitson_class (c : Z) : class :=
  if c =? 34 then QUOTE
  else if c =? 45 then MINUS
  else if c =? 91 then BRACKET
  else if c =? 123 then BRACE
  else if (c =? 40) || (c =? 41) || (c =? 93) || (c =? 125) then OWN
  else if (c =? 39) || (c =? 96) then QOT
  else if (48 <=? c) && (c <=? 57) then DIG
  else if ((65 <=? c) && (c <=? 90)) || (c =? 95) || ((97 <=? c) && (c <=? 122)) then ALP
  else if (32 <? c) && (c <? 127) then SYM
  else INV.

(** The C library's strtoul on a text that starts with a digit, and how many characters it
    consumes: the value of the digits, or the greatest value if that does not fit. *)
Definition ULONG_MAX : Z := 18446744073709551615.
Definition hex_digit (c : Z) : Z := if c <=? 57 then c - 48 else if c <=? 70 then c - 55 else c - 87.
Definition digits_value (base : Z) (d : list Z) : Z := Z.min ULONG_MAX (fold_left (fun v c => base * v + hex_digit c) d 0).
Definition isodigit (c : Z) : bool := (48 <=? c) && (c <=? 55).

Definition strtoul (text : list Z) (base : Z) : Z * Z :=
  let decimal := take_class isdigit text in
  let octal := take_class isodigit text in
  if base =? 10 then (digits_value 10 decimal, zlen decimal)
  else match text with
       | 48 :: x :: t =>
           let hex := take_class isxdigit t in
           if ((x =? 120) || (x =? 88)) && negb (zlen hex =? 0) then (digits_value 16 hex, 2 + zlen hex)
           else (digits_value 8 octal, zlen octal)
       | 48 :: _ => (digits_value 8 octal, zlen octal)
       | _ => (digits_value 10 decimal, zlen decimal)
       end.

(** The memory from offset [p]. *)
Definition text_from (p : Z) (s : source) : list Z := drop (Z.to_nat p) (src_json s).

(** lib-sxe-jitson/sxe-jitson-stack.c:463-484, sxe_jitson_stack_load_json. *)
Definition load_number (index c : Z) : cmd parser result :=
  push_char c;;
  number ← on_source sxe_jitson_source_get_number;
  match number with
  | None => fail index EINVAL
  | Some (token, len, is_uint) =>
      text ← gets (fun p => text_from token (p_source p));
      if (is_uint : bool) then
        hex ← gets (fun p => allows (p_source p) SXE_JITSON_FLAG_ALLOW_HEX);
        let (value, consumed) := strtoul text (if (hex : bool) then 0 else 10) in
        on_stack (poke (fun m => set_type m index (Z.lor SXE_JITSON_TYPE_NUMBER SXE_JITSON_TYPE_IS_UINT)));;
        on_stack (poke (fun m => set_integer m index value));;
        lift (assert6 (consumed =? len));;
        mret success
      else
        let (bits, consumed) := strtod text in
        on_stack (poke (fun m => set_type m index SXE_JITSON_TYPE_NUMBER));;
        on_stack (poke (fun m => set_integer m index bits));;
        lift (assert6 (consumed =? len));;
        mret success
  end.

(** lib-sxe-jitson/sxe-jitson-ident.c:30-43, sxe_jitson_stack_push_ident_at_index. *)
Definition sxe_jitson_stack_push_ident_at_index (type index : Z) (ident : list Z) : cmd jstack bool :=
  let len := zlen ident in
  full ← (if SXE_JITSON_STRING_SIZE <=? len
          then n ← sxe_jitson_stack_expand ((len + SXE_JITSON_STRING_SIZE) / SXE_JITSON_TOKEN_SIZE); mret (n =? SXE_JITSON_STACK_ERROR)
          else mret false);
  if (full : bool) then mret false
  else
    poke (fun m => set_type m index type);;
    poke (fun m => set_len m index (u32 len));;
    poke (fun m => set_bytes m index 0 ident);;
    poke (fun m => set_byte m index len 0);;
    mret true.

Definition FALSE : list Z := [102; 97; 108; 115; 101].
Definition NULL : list Z := [110; 117; 108; 108].
Definition TRUE : list Z := [116; 114; 117; 101].

(** lib-sxe-jitson/sxe-jitson-stack.c:506-514, sxe_jitson_stack_load_json. The hook for
    identifiers that are not constants. *)
Definition load_ident (index : Z) (ident : list Z) : cmd parser result :=
  idents ← gets (fun p => allows (p_source p) SXE_JITSON_FLAG_ALLOW_IDENTS);
  match SXE_JITSON_TYPE_IDENT, (idents : bool) with
  | Some type, true =>
      ok ← on_stack (sxe_jitson_stack_push_ident_at_index type index ident);
      if (ok : bool) then mret success else fail index ENOMEM
  | _, _ => fail index EINVAL
  end.

(** lib-sxe-jitson/sxe-jitson-stack.c:497-504, sxe_jitson_stack_load_json. *)
Definition load_constant (index : Z) (ident : list Z) : cmd parser result :=
  consts ← gets (fun p => allows (p_source p) SXE_JITSON_FLAG_ALLOW_CONSTS);
  match (if (consts : bool) then get_constant ← jitson_constants; (get_constant : list Z -> option (list Z)) ident else None) with
  | Some value =>
      let size := zlen value / 16 in
      n ← (if 1 <? size then on_stack (sxe_jitson_stack_expand (size - 1)) else mret 0);
      if n =? SXE_JITSON_STACK_ERROR then fail index ENOMEM
      else on_stack (sxe_jitson_stack_dup_at_index index value);; mret success
  | None => load_ident index ident
  end.

(** lib-sxe-jitson/sxe-jitson-stack.c:485-520, sxe_jitson_stack_load_json. *)
Definition load_word (index c : Z) : cmd parser result :=
  push_char c;;
  '(token, len) ← on_source (fun s => '(token, len, s) ← sxe_jitson_source_get_identifier s; mret ((token, len), s));
  ident ← gets (fun p => slice (src_json (p_source p)) (default 0 token) len);
  ident ← lift (load ident);
  if bool_decide (ident = FALSE) then
    on_stack (poke (fun m => set_type m index SXE_JITSON_TYPE_BOOL));; on_stack (poke (fun m => set_byte m index 0 0));; mret success
  else if bool_decide (ident = NULL) then
    on_stack (poke (fun m => set_type m index SXE_JITSON_TYPE_NULL));; mret success
  else if bool_decide (ident = TRUE) then
    on_stack (poke (fun m => set_type m index SXE_JITSON_TYPE_BOOL));; on_stack (poke (fun m => set_byte m index 0 1));; mret success
  else load_constant index ident.

(** stack->jitsons[index].len++ *)
Definition count_element (index : Z) : cmd parser unit :=
  len ← on_stack (peek (fun m => get_len m index));
  on_stack (poke (fun m => set_len m index (u32 (len + 1)))).

(** Store the size of a complete collection. *)
Definition close_loaded (index : Z) : cmd parser result :=
  count ← on_stack (gets count);
  on_stack (poke (fun m => set_integer m index (u32 (count - index))));; mret success.

Section Collections.
Variable load_json : cmd parser result.

(** lib-sxe-jitson/sxe-jitson-stack.c:416-437, sxe_jitson_stack_load_json. The members of an
    object, the first character of the next one being [c]. *)
Fixpoint load_members (fuel : nat) (index c : Z) : cmd parser result :=
  match fuel with
  | O => fun _ => Fault
  | S fuel =>
      if negb (c =? 34) then fail index EINVAL
      else
        r ← sxe_jitson_stack_load_string true;
        match r with
        | Some e => fail index e
        | None =>
            c ← get_nonspace;
            if negb (c =? 58) then fail index EINVAL
            else
              r ← load_json;
              match r with
              | Some e => fail index e
              | None =>
                  count_element index;;
                  c ← get_nonspace;
                  if c =? 44 then
                    c ← get_nonspace;
                    if c =? 0 then fail index EINVAL else load_members fuel index c
                  else if c =? 125 then close_loaded index
                  else fail index EINVAL
              end
        end
  end.

(** lib-sxe-jitson/sxe-jitson-stack.c:448-461, sxe_jitson_stack_load_json. The elements of an
    array. *)
Fixpoint load_elements (fuel : nat) (index : Z) : cmd parser result :=
  match fuel with
  | O => fun _ => Fault
  | S fuel =>
      r ← load_json;
      match r with
      | Some e => fail index e
      | None =>
          count_element index;;
          c ← get_nonspace;
          if c =? 44 then load_elements fuel index
          else if c =? 93 then close_loaded index
          else fail index EINVAL
      end
  end.

(** lib-sxe-jitson/sxe-jitson-stack.c:407-437, sxe_jitson_stack_load_json. *)
Definition load_object (fuel : nat) (index : Z) : cmd parser result :=
  on_stack (poke (fun m => set_type m index SXE_JITSON_TYPE_OBJECT));;
  on_stack (poke (fun m => set_len m index 0));;
  c ← get_nonspace;
  if c =? 125 then on_stack (poke (fun m => set_integer m index 1));; mret success
  else load_members fuel index c.

(** lib-sxe-jitson/sxe-jitson-stack.c:439-461, sxe_jitson_stack_load_json. *)
Definition load_array (fuel : nat) (index : Z) : cmd parser result :=
  on_stack (poke (fun m => set_type m index SXE_JITSON_TYPE_ARRAY));;
  on_stack (poke (fun m => set_len m index 0));;
  c ← get_nonspace;
  if c =? 93 then on_stack (poke (fun m => set_integer m index 1));; mret success
  else push_char c;; load_elements fuel index.
End Collections.

(** lib-sxe-jitson/sxe-jitson-stack.c:383-405, sxe_jitson_stack_load_json. The fuel bounds the
    nesting and the number of elements. *)
Fixpoint sxe_jitson_stack_load_json (fuel : nat) : cmd parser result :=
  match fuel with
  | O => fun _ => Fault
  | S fuel =>
      c ← get_nonspace;
      if c =? 0 then mret (Some ENODATA)
      else
        index ← on_stack (sxe_jitson_stack_expand 1);
        if index =? SXE_JITSON_STACK_ERROR then mret (Some ENOMEM)
        else
          match jitson_class c with
          | QUOTE =>
              on_stack (modify (fun s => set_count s (count s - 1)));; sxe_jitson_stack_load_string false
          | BRACE => load_object (sxe_jitson_stack_load_json fuel) fuel index
          | BRACKET => load_array (sxe_jitson_stack_load_json fuel) fuel index
          | MINUS | DIG => load_number index c
          | ALP => load_word index c
          | _ => fail index EINVAL
          end
  end.

(** lib-sxe-jitson/sxe-jitson-stack.c:548-559, sxe_jitson_stack_parse_json. The offset behind the
    JSON that was parsed, or errno. *)
Definition sxe_jitson_stack_parse_json (sxe_jitson_flags : Z) (json : list Z) : cmd jstack (Z + errno) := fun s =>
  '(r, p) ← sxe_jitson_stack_load_json (S (length json)) (mk_parser s (sxe_jitson_source_from_string json sxe_jitson_flags));
  mret (match r with Some e => inr e | None => inl (sxe_jitson_source_get_consumed (p_source p)) end, p_stack p).
End Stack.
