(* ===== verification/JitsonParse.v ===== *)
(** * JitsonParse: what the parser of JSON text does (lib-sxe-jitson/sxe-jitson-stack.c)

    A reference parser on texts, without memory, that gives a value, and its refinement by
    sxe_jitson_stack_load_json: the memory that is added to the stack is an image of the
    value, and a failure leaves the stack as it was. *)

From S2P Require Import Prelude CString JitsonSource JitsonToken JitsonStack.

(** ** The reference parser *)

(** A value and the text behind it, or an error. [Unclear]: the code does not do what it
    means to, and nothing is said about it. *)
Inductive parsed (A : Type) := Parsed (a : A) (t : list Z) | Invalid (e : errno) | Unclear.
Arguments Parsed {A} _ _.
Arguments Invalid {A} _.
Arguments Unclear {A}.

Definition bind_parsed {A B} (r : parsed A) (f : A -> list Z -> parsed B) : parsed B :=
  match r with Parsed a t => f a t | Invalid e => Invalid e | Unclear => Unclear end.

Definition hex_value (c : Z) : option Z :=
  if (48 <=? c) && (c <=? 57) then Some (c - 48)
  else if (97 <=? c) && (c <=? 102) then Some (c - 87)
  else if (65 <=? c) && (c <=? 70) then Some (c - 55)
  else None.

Fixpoint parse_unicode (i : nat) (v : Z) (t : list Z) : option (Z * list Z) :=
  match i, t with
  | O, _ => Some (v, t)
  | S i, c :: t => d ← hex_value c; parse_unicode i (16 * v + d) t
  | S _, [] => None
  end.

(** The bytes that a character or an escape stands for. *)
Definition parse_bytes (t : list Z) : option (list Z * list Z) :=
  match t with
  | [] => None
  | c :: t =>
      if c =? 92 then
        match t with
        | [] => None
        | e :: t =>
            match escaped e with
            | Some b => Some ([b], t)
            | None => if e =? 117 then '(v, t) ← parse_unicode 4 0 t; Some (sxe_unicode_to_utf8 v, t) else None
            end
        end
      else Some ([c], t)
  end.

(** The code gives a string of [n] bytes that [i] more are appended to another token if and
    only if it needs one. It does unless the bytes of an escape lie around a token's edge. *)
Definition edge_ok (n i : Z) : bool :=
  Bool.eqb ((8 <=? (n + 1) mod 16) && ((n + 1) mod 16 <? 8 + i)) ((n + 8) / 16 <? (n + i + 8) / 16).

Fixpoint parse_string (fuel : nat) (s t : list Z) : parsed (list Z) :=
  match fuel, t with
  | O, _ | _, [] => Invalid EINVAL
  | S fuel, c :: t' =>
      if c =? 34 then Parsed s t'
      else match parse_bytes t with
           | None => Invalid EILSEQ
           | Some (b, t) => if edge_ok (zlen s) (zlen b) then parse_string fuel (s ++ b) t else Unclear
           end
  end.

(** A negative zero before an x: strtod reads a hexadecimal number there. *)
Definition hex_like (n : number) (rest : list Z) : bool :=
  bool_decide (n_digits n = [48]) && bool_decide (n_fraction n = None) && bool_decide (n_exponent n = None) &&
  ((next_char rest =? 120) || (next_char rest =? 88)).

(** The C library's strtod gives the double of a number. *)
Class StrtodLaw `{Env} (double : number -> Z) : Prop :=
  strtod_law : forall n rest, number_ok n -> number_ends n rest -> hex_like n rest = false ->
    strtod (print_number n ++ rest) = (double n, zlen (print_number n)).

Definition trim (t : list Z) : list Z := drop_class isspace t.

Section Reference.
Variable double : number -> Z.

Definition number_value (n : number) : json :=
  if number_is_uint n then JUint (digits_value 10 (n_digits n)) else JNumber (double n).

Definition parse_number (t : list Z) : parsed json :=
  match scan_number t with
  | None => Invalid EINVAL
  | Some (n, t) => if negb (number_is_uint n) && hex_like n t then Unclear else Parsed (number_value n) t
  end.

Definition parse_word (t : list Z) : parsed json :=
  let w := take_class is_identifier_char t in
  let t := drop_class is_identifier_char t in
  if bool_decide (w = FALSE) then Parsed (JBool false) t
  else if bool_decide (w = NULL) then Parsed JNull t
  else if bool_decide (w = TRUE) then Parsed (JBool true) t
  else Invalid EINVAL.

Section Collections.
Variable parse_json : list Z -> parsed json.

Fixpoint parse_elements (fuel : nat) (l : list json) (t : list Z) : parsed json :=
  match fuel with
  | O => Invalid EINVAL
  | S fuel =>
      bind_parsed (parse_json t) (fun v t =>
        match trim t with
        | [] => Invalid EINVAL
        | c :: t =>
            if c =? 44 then parse_elements fuel (l ++ [v]) t
            else if c =? 93 then Parsed (JArray (l ++ [v])) t
            else Invalid EINVAL
        end)
  end.

Fixpoint parse_members (fuel : nat) (l : list (list Z * json)) (t : list Z) : parsed json :=
  match fuel, t with
  | O, _ | _, [] => Invalid EINVAL
  | S fuel, c :: t =>
      if c =? 34 then
        bind_parsed (parse_string (S (length t)) [] t) (fun k t =>
          match trim t with
          | [] => Invalid EINVAL
          | c :: t =>
              if c =? 58 then
                bind_parsed (parse_json t) (fun v t =>
                  match trim t with
                  | [] => Invalid EINVAL
                  | c :: t =>
                      if c =? 44 then parse_members fuel (l ++ [(k, v)]) (trim t)
                      else if c =? 125 then Parsed (JObject (l ++ [(k, v)])) t
                      else Invalid EINVAL
                  end)
              else Invalid EINVAL
          end)
      else Invalid EINVAL
  end.
End Collections.

Fixpoint parse_json (fuel : nat) (t : list Z) : parsed json :=
  match fuel with
  | O => Invalid EINVAL
  | S fuel =>
      match trim t with
      | [] => Invalid ENODATA
      | c :: t =>
          match jitson_class c with
          | QUOTE => bind_parsed (parse_string (S (length t)) [] t) (fun s t => Parsed (JString s) t)
          | BRACE => if next_char (trim t) =? 125 then Parsed (JObject []) (tail (trim t)) else parse_members (parse_json fuel) fuel [] (trim t)
          | BRACKET => if next_char (trim t) =? 93 then Parsed (JArray []) (tail (trim t)) else parse_elements (parse_json fuel) fuel [] (trim t)
          | MINUS | DIG => parse_number (c :: t)
          | ALP => parse_word (c :: t)
          | _ => Invalid EINVAL
          end
      end
  end.

(** Every nesting and every element takes a character, so that this fuel is enough. *)
Definition parse (t : list Z) : parsed json := parse_json (S (length t)) t.
End Reference.

(** ** The memory of a stack *)

#[local] Hint Rewrite zlen_bytes32 zlen_bytes64 : zlen.

(** The greatest number of tokens of a stack: up to here, its growth does not overflow. *)
Definition LIMIT : Z := 4294963200.

(** What the parser leaves as it is: the collection that is open, and where the text ends. *)
Record frame := mk_frame { f_open : Z; f_end : Z }.

(** The tokens that a stack holds have the memory [u], and the open collection is that of [o]. *)
Record holds (o : frame) (s : jstack) (u : list Z) : Prop := {
  h_open : open s = f_open o;
  h_count : zlen u = 16 * count s;
  h_maximum : 0 < maximum s <= LIMIT;
  h_memory : match jitsons s with
             | Some m => zlen m = 16 * maximum s /\ exists junk, m = u ++ junk
             | None => u = []
             end
}.

(** The JSON parser's stack and the text it has left. *)
Record state_at (o : frame) (p : parser) (u t : list Z) : Prop := {
  sa_holds : holds o (p_stack p) u;
  sa_left : left (p_source p) t;
  sa_strict : src_flags (p_source p) = SXE_JITSON_FLAG_STRICT;
  sa_string : src_end (p_source p) = None;
  sa_no_nul : no_nul t;
  sa_room : zlen u + 16 * zlen t <= 16 * LIMIT;
  sa_end : src_next (p_source p) + zlen t = f_end o
}.

Section Memory.
Context `{Env}.

Lemma fresh_bytes_zlen from n : 0 <= n -> zlen (fresh_bytes from n) = n.
Proof. intros. unfold fresh_bytes, zlen. rewrite length_fmap, length_seq. lia. Qed.

Lemma realloc_grow m n r : sxe_realloc m n = Some r -> zlen m <= n -> exists x, r = m ++ x /\ zlen r = n.
Proof.
  unfold sxe_realloc. destruct (can_alloc n); [|done]. intros [= <-] Hn. pose proof (zlen_nonneg m). eexists.
  rewrite take_ge by (unfold zlen in *; lia). split; [done|]. rewrite zlen_app, fresh_bytes_zlen by lia. lia.
Qed.

Lemma new_maximum_bounds expanded mx :
  0 < mx -> mx < expanded <= LIMIT -> exists n, new_maximum expanded mx = Ret n /\ expanded <= n <= LIMIT.
Proof.
  intros Hm He. unfold new_maximum, JITSON_STACK_MAX_INCR, LIMIT in *. destruct (Z.ltb_spec expanded 4096).
  - rewrite (proj2 (Z.eqb_neq mx 0)) by lia. eexists. split; [reflexivity|].
    assert (expanded <= ((expanded - 1) / mx + 1) * mx <= 2 * expanded) as ? by nia || (Z.to_euclidean_division_equations; nia).
    rewrite u32_small by (unfold is_u32; lia). lia.
  - eexists. split; [reflexivity|]. assert (expanded <= ((expanded - 1) / 4096 + 1) * 4096 <= 4294963200) by (Z.to_euclidean_division_equations; lia).
    rewrite u32_small by (unfold is_u32; lia). lia.
Qed.

Definition out_of_memory : Prop := exists n, can_alloc n = false.

(** Expanding a stack adds tokens of any content behind those it holds, or fails. *)
Lemma expand_holds o s u more :
  holds o s u -> 0 <= more -> count s + more <= LIMIT ->
  (exists s' x, sxe_jitson_stack_expand more s = Ret (count s, s') /\ holds o s' (u ++ x) /\ zlen x = 16 * more /\ is_Some (jitsons s')) \/
  (sxe_jitson_stack_expand more s = Ret (SXE_JITSON_STACK_ERROR, s) /\ out_of_memory).
Proof.
  intros [Ho Hc Hm Hmem] Hmore Hlim. pose proof (zlen_nonneg u). assert (LIMIT < 4294967296) by done.
  unfold sxe_jitson_stack_expand. rewrite (u32_small (count s + more)) by (unfold is_u32; lia).
  assert (Hidx : u32 (count s + more - more) = count s) by (rewrite Z.add_simpl_r; apply u32_small; unfold is_u32; lia).
  assert (Hsplit : forall k : list Z, 16 * more <= zlen k -> exists x junk, k = x ++ junk /\ zlen x = 16 * more).
  { intros k Hk. exists (take (Z.to_nat (16 * more)) k), (drop (Z.to_nat (16 * more)) k). rewrite take_drop. split; [done|]. unfold zlen in *. rewrite length_take. lia. }
  assert (Hdone : forall mx k, 0 < mx <= LIMIT -> count s + more <= mx -> zlen (u ++ k) = 16 * mx ->
    exists s' x, Ret (u32 (count s + more - more), mk_jstack mx (count s + more) (Some (u ++ k)) (open s)) = Ret (count s, s') /\
      holds o s' (u ++ x) /\ zlen x = 16 * more /\ is_Some (jitsons s')).
  { intros mx k Hmx Hcm Hz. rewrite zlen_app in Hz. destruct (Hsplit k) as (x & junk & -> & Hx); [lia|].
    rewrite Hidx. exists (mk_jstack mx (count s + more) (Some (u ++ x ++ junk)) (open s)), x. split_and!; [done| |done|by eexists].
    split; cbn; [done|rewrite zlen_app; lia|lia|]. rewrite !zlen_app in *. split; [lia|]. exists junk. by rewrite (assoc_L (++)). }
  destruct (Z.ltb_spec (maximum s) (count s + more)) as [Hlt|Hge].
  - destruct (new_maximum_bounds (count s + more) (maximum s)) as (n & -> & Hn); [lia..|]. cbn [mbind outcome_bind].
    destruct (sxe_realloc _ _) as [r|] eqn:Er.
    2: { right. split; [done|]. unfold sxe_realloc in Er. destruct (can_alloc _) eqn:?; [done|]. by eexists. }
    left. apply realloc_grow in Er as (k & -> & Hz).
    2: { destruct (jitsons s) as [m|]; simpl; [destruct Hmem; lia|unfold zlen; simpl; lia]. }
    destruct (jitsons s) as [m|]; cbn [from_option id] in Hz |- *.
    + destruct Hmem as (Hzm & junk & ->). rewrite <-(assoc_L (++)) in Hz |- *. apply (Hdone n (junk ++ k)); lia.
    + subst u. apply (Hdone n k); lia.
  - destruct (jitsons s) as [m|] eqn:Ej.
    + left. destruct Hmem as (Hzm & junk & ->). unfold set_count. rewrite Ej. apply (Hdone (maximum s) junk); lia.
    + subst u. destruct (sxe_realloc [] _) as [r|] eqn:Er.
      2: { right. split; [done|]. unfold sxe_realloc in Er. destruct (can_alloc _) eqn:?; [done|]. by eexists. }
      left. apply realloc_grow in Er as (k & -> & Hz); [|unfold zlen; simpl; lia]. apply (Hdone (maximum s) k); [lia..|done].
Qed.
End Memory.

(** ** The fields of a token at the end of the memory [u] *)
Section Fields.
Implicit Types (u t l a b s junk : list Z) (i v : Z).

(** Storing [new] over [old]. *)
Lemma wr_bytes_mid pre old new post i : i = zlen pre -> zlen old = zlen new -> wr_bytes (pre ++ old ++ post) i new = Ret (pre ++ new ++ post).
Proof. intros. apply wr_bytes_at; [done|]. unfold zlen in *. lia. Qed.

Lemma set_type_app u a b junk i v : zlen u = 16 * i -> zlen a = 4 -> set_type ((u ++ a ++ b) ++ junk) i v = Ret ((u ++ bytes32 v ++ b) ++ junk).
Proof. intros Hu Ha. unfold set_type. rewrite <-!(assoc_L (++)). apply wr_bytes_mid; [unfold tok; lia|by rewrite zlen_bytes32]. Qed.

Lemma set_len_app u t a b junk i v :
  zlen u = 16 * i -> zlen t = 4 -> zlen a = 4 -> set_len ((u ++ t ++ a ++ b) ++ junk) i v = Ret ((u ++ t ++ bytes32 v ++ b) ++ junk).
Proof.
  intros Hu Ht Ha. unfold set_len. rewrite <-!(assoc_L (++)), !(assoc_L (++) u t).
  apply wr_bytes_mid; [rewrite zlen_app; unfold tok; lia|by rewrite zlen_bytes32].
Qed.

Lemma get_len_app u t b junk i v : zlen u = 16 * i -> zlen t = 4 -> get_len ((u ++ t ++ bytes32 v ++ b) ++ junk) i = Ret (u32 v).
Proof.
  intros Hu Ht. unfold get_len. rewrite <-!(assoc_L (++)), (assoc_L (++) u t). apply ld32_bytes32. rewrite zlen_app. unfold tok. lia.
Qed.

Lemma get_type_app u b junk i v : zlen u = 16 * i -> get_type ((u ++ bytes32 v ++ b) ++ junk) i = Ret (u32 v).
Proof. intros Hu. unfold get_type. rewrite <-!(assoc_L (++)). apply ld32_bytes32. unfold tok. lia. Qed.

Lemma set_integer_app u t l a b junk i v :
  zlen u = 16 * i -> zlen t = 4 -> zlen l = 4 -> zlen a = 8 ->
  set_integer ((u ++ t ++ l ++ a ++ b) ++ junk) i v = Ret ((u ++ t ++ l ++ bytes64 v ++ b) ++ junk).
Proof.
  intros Hu Ht Hl Ha. unfold set_integer. rewrite <-!(assoc_L (++)), !(assoc_L (++) t l), !(assoc_L (++) u (t ++ l)).
  apply wr_bytes_mid; [rewrite !zlen_app; unfold tok; lia|by rewrite zlen_bytes64].
Qed.

Lemma set_bytes_app u t l s old new b junk i k :
  zlen u = 16 * i -> zlen t = 4 -> zlen l = 4 -> k = zlen s -> zlen old = zlen new ->
  set_bytes ((u ++ t ++ l ++ s ++ old ++ b) ++ junk) i k new = Ret ((u ++ t ++ l ++ s ++ new ++ b) ++ junk).
Proof.
  intros Hu Ht Hl -> Ho. unfold set_bytes. rewrite <-!(assoc_L (++)), !(assoc_L (++) l s), !(assoc_L (++) t (l ++ s)), !(assoc_L (++) u (t ++ l ++ s)).
  apply wr_bytes_mid; [rewrite !zlen_app; unfold tok; lia|done].
Qed.

Lemma set_byte_app u t l s c d b junk i k :
  zlen u = 16 * i -> zlen t = 4 -> zlen l = 4 -> k = zlen s ->
  set_byte ((u ++ t ++ l ++ s ++ d :: b) ++ junk) i k c = Ret ((u ++ t ++ l ++ s ++ c :: b) ++ junk).
Proof.
  intros Hu Ht Hl Hk. pose proof (set_bytes_app u t l s [d] [c] b junk i k Hu Ht Hl Hk eq_refl) as E. unfold set_bytes in E. cbn [wr_bytes app] in E.
  unfold set_byte. by destruct (wr _ _ _).
Qed.
End Fields.

Lemma poke_holds o s u u' f :
  holds o s u -> 0 < zlen u -> (forall junk, f (u ++ junk) = Ret (u' ++ junk)) -> zlen u' = zlen u ->
  exists s', poke f s = Ret (tt, s') /\ holds o s' u'.
Proof.
  intros [Ho Hc Hm Hmem] Hu Hf Hz. unfold poke. destruct (jitsons s) as [m|] eqn:Ej; [|subst; by change (zlen []) with 0 in Hu].
  destruct Hmem as (Hzm & junk & ->). cbn [load mbind outcome_bind]. rewrite Hf. cbn [mbind outcome_bind]. eexists. split; [reflexivity|].
  split; cbn; [done|by rewrite Hz|done|]. rewrite !zlen_app in *. split; [lia|]. by exists junk.
Qed.

Lemma peek_holds {A} o s u (f : list Z -> outcome A) a :
  holds o s u -> 0 < zlen u -> (forall junk, f (u ++ junk) = Ret a) -> peek f s = Ret (a, s).
Proof.
  intros [Ho Hc Hm Hmem] Hu Hf. unfold peek. destruct (jitsons s) as [m|]; [|subst; by change (zlen []) with 0 in Hu].
  destruct Hmem as (Hzm & junk & ->). cbn [load mbind outcome_bind]. by rewrite Hf.
Qed.

(** Discarding tokens. *)
Lemma set_count_holds o s u y index : holds o s (u ++ y) -> zlen u = 16 * index -> holds o (set_count s index) u.
Proof.
  intros [Ho Hc Hm Hmem] Hu. split; cbn; [done|done|done|]. destruct (jitsons s) as [m|].
  - destruct Hmem as (Hz & junk & ->). split; [done|]. exists (y ++ junk). by rewrite (assoc_L (++)).
  - by apply app_nil in Hmem as [-> _].
Qed.

(** Running a command on the stack of a parser, and continuing. *)
Lemma on_stack_ret {A B} (f : cmd jstack A) (k : A -> cmd parser B) p a s' :
  f (p_stack p) = Ret (a, s') -> (on_stack f ≫= k) p = k a (mk_parser s' (p_source p)).
Proof. intros E. unfold mbind at 1, cmd_bind at 1, on_stack. by rewrite E. Qed.

Lemma on_source_ret {A B} (f : source -> outcome (A * source)) (k : A -> cmd parser B) p a s' :
  f (p_source p) = Ret (a, s') -> (on_source f ≫= k) p = k a (mk_parser (p_stack p) s').
Proof. intros E. unfold mbind at 1, cmd_bind at 1, on_source. by rewrite E. Qed.

Lemma fail_run o p u y index e :
  holds o (p_stack p) (u ++ y) -> zlen u = 16 * index -> exists p', fail index e p = Ret (Some e, p') /\ holds o (p_stack p') u.
Proof. intros Hh Hu. eexists. split; [reflexivity|]. cbn. by eapply set_count_holds. Qed.

(** ** The source of a parser *)

Definition moved (p : parser) (s : source) : parser := mk_parser (p_stack p) s.

(** A source that is a C string gives a NUL at its end, and takes it back. *)
Lemma get_char_string s t :
  left s t -> src_end s = None -> sxe_jitson_source_get_char s = Ret (next_char t, advance s) /\ sxe_jitson_source_push_char (advance s) (next_char t) = Ret s.
Proof.
  intros Hl He. pose proof (left_pos _ _ Hl) as [Hp _]. destruct Hl as [pre rest Ej En Ee|pre rest Ej En Ee]; [by rewrite He in Ee|].
  assert (Hrd : rd (src_json s) (src_next s) = Some (next_char t)).
  { rewrite Ej, En. destruct t as [|c t]; cbn [app next_char]; by apply rd_at. }
  unfold sxe_jitson_source_get_char, sxe_jitson_source_push_char, at_end. rewrite Ee, Hrd. split; [done|].
  cbn [src_next advance set_next src_json]. rewrite (proj2 (Z.ltb_lt 0 (src_next s + 1))) by lia. cbn [assert1 mbind outcome_bind].
  replace (src_next s + 1 - 1) with (src_next s) by lia. cbn [src_next src_json set_next]. rewrite Hrd. cbn [load mbind outcome_bind].
  rewrite Z.eqb_refl. by destruct s.
Qed.

Lemma state_at_next o p u c t : state_at o p u (c :: t) -> state_at o (moved p (advance (p_source p))) u t.
Proof.
  intros [Hh Hl Hf He Hn Hr Hend]. apply Forall_cons in Hn as [_ Hn]. rewrite zlen_cons in Hr, Hend. split; cbn; try done; [by eapply left_advance|lia|lia].
Qed.

(** Reading the next character. *)
Lemma get_char_at o p u t :
  state_at o p u t -> forall B (k : Z -> cmd parser B), (get_char ≫= k) p = k (next_char t) (moved p (advance (p_source p))).
Proof. intros Hs B k. apply on_source_ret. apply (get_char_string _ t); [apply Hs|apply (sa_string _ _ _ _ Hs)]. Qed.

Lemma push_char_at o p u t :
  state_at o p u t -> forall B (k : cmd parser B), (push_char (next_char t);; k) (moved p (advance (p_source p))) = k p.
Proof.
  intros Hs B k. unfold push_char. rewrite (on_source_ret _ _ _ tt (p_source p)); [by destruct p|]. cbn [p_source moved].
  by rewrite (proj2 (get_char_string _ t (sa_left _ _ _ _ Hs) (sa_string _ _ _ _ Hs))).
Qed.

(** Every suffix of the text may be left. *)
Lemma state_at_after o p u l t : state_at o p u (l ++ t) -> state_at o (moved p (after (p_source p) (zlen l))) u t.
Proof.
  intros [Hh Hl Hf He Hn Hr Hend]. apply Forall_app in Hn as [_ Hn]. rewrite zlen_app in Hr, Hend. pose proof (zlen_nonneg l).
  split; cbn; try done; [by apply left_after|lia|lia].
Qed.

(** Spaces are skipped: the parser is then at the trimmed text. *)
Lemma get_nonspace_at o p u t :
  state_at o p u t -> exists p', state_at o p' u (trim t) /\ p_stack p' = p_stack p /\
    forall B (k : Z -> cmd parser B), (get_nonspace ≫= k) p = k (next_char (trim t)) (moved p' (advance (p_source p'))).
Proof.
  intros Hs. exists (moved p (after (p_source p) (zlen (take_class isspace t)))).
  assert (Hs' : state_at o (moved p (after (p_source p) (zlen (take_class isspace t)))) u (trim t)).
  { apply state_at_after. unfold trim. by rewrite take_drop_class. }
  split_and!; [done|done|]. intros B k. unfold get_nonspace.
  rewrite (on_source_ret _ k p (next_char (trim t)) (advance (after (p_source p) (zlen (take_class isspace t))))); [done|].
  unfold sxe_jitson_source_get_nonspace.
  destruct (skip_left isspace _ t eq_refl (sa_left _ _ _ _ Hs)) as [-> _]. cbn [mbind outcome_bind].
  exact (proj1 (get_char_string _ (trim t) (sa_left _ _ _ _ Hs') (sa_string _ _ _ _ Hs'))).
Qed.

Lemma trim_length t : (length (trim t) <= length t)%nat.
Proof. unfold trim. rewrite <-(take_drop_class isspace t) at 2. rewrite length_app. lia. Qed.

Lemma trim_idem t : trim (trim t) = trim t.
Proof.
  unfold trim. induction t as [|c t IH]; [done|]. cbn [drop_class]. destruct (isspace c) eqn:E; [done|]. cbn [drop_class]. by rewrite E.
Qed.

(** Text left is not NUL. *)
Lemma next_nonzero o p u c t : state_at o p u (c :: t) -> c <> 0.
Proof. intros Hs. pose proof (sa_no_nul _ _ _ _ Hs) as Hn. by apply Forall_cons in Hn as [? _]. Qed.

(** ** Strings *)

Lemma hex_value_bound c d : hex_value c = Some d -> 0 <= d < 16.
Proof. unfold hex_value. repeat case_match; intros [= <-]; lia. Qed.

Lemma state_at_stack o p p' u t : state_at o p u t -> p_stack p' = p_stack p -> holds o (p_stack p') u.
Proof. intros [Hh _ _ _ _ _ _] ->. exact Hh. Qed.

(** The three tests of the code for a digit. *)
Lemma hex_step v c {A} (f : Z -> A) (e : A) :
  0 <= v -> 16 * v + 15 < 4294967296 ->
  (if (48 <=? c) && (c <=? 57) then f (u32 (Z.shiftl v 4 + c - 48))
   else if (97 <=? c) && (c <=? 102) then f (u32 (Z.shiftl v 4 + c - 97 + 10))
   else if (65 <=? c) && (c <=? 70) then f (u32 (Z.shiftl v 4 + c - 65 + 10))
   else e) = match hex_value c with Some d => f (16 * v + d) | None => e end.
Proof.
  intros Hv Hb. rewrite Z.shiftl_mul_pow2 by lia. change (2 ^ 4) with 16. unfold hex_value.
  destruct ((48 <=? c) && (c <=? 57)) eqn:E1; [rewrite u32_small by (unfold is_u32; lia); f_equal; lia|].
  destruct ((97 <=? c) && (c <=? 102)) eqn:E2; [rewrite u32_small by (unfold is_u32; lia); f_equal; lia|].
  destruct ((65 <=? c) && (c <=? 70)) eqn:E3; [rewrite u32_small by (unfold is_u32; lia); f_equal; lia|done].
Qed.

Lemma get_unicode_at o i : forall v p u t,
  state_at o p u t -> 0 <= v < 2 ^ (32 - 4 * Z.of_nat i) -> (i <= 4)%nat ->
  exists p', p_stack p' = p_stack p /\
    (forall B (k : option Z -> cmd parser B), (get_unicode i v ≫= k) p = k (fst <$> parse_unicode i v t) p') /\
    forall v' t', parse_unicode i v t = Some (v', t') -> state_at o p' u t' /\ zlen t' + Z.of_nat i = zlen t /\ 0 <= v'.
Proof.
  induction i as [|i IH]; intros v p u t Hs Hv Hi.
  { exists p. split_and!; [done|done|]. intros v' t' [= <- <-]. split_and!; [exact Hs|apply Z.add_0_r|apply Hv]. }
  replace (32 - 4 * Z.of_nat (S i)) with (28 - 4 * Z.of_nat i) in Hv by lia.
  assert (Hp : 2 ^ (32 - 4 * Z.of_nat i) = 16 * 2 ^ (28 - 4 * Z.of_nat i)) by (replace (32 - 4 * Z.of_nat i) with (4 + (28 - 4 * Z.of_nat i)) by lia; by rewrite Z.pow_add_r by lia).
  assert (2 ^ (32 - 4 * Z.of_nat i) <= 2 ^ 32) by (apply Z.pow_le_mono_r; lia). change (2 ^ 32) with 4294967296 in *.
  assert (Hb : 16 * v + 15 < 4294967296) by (clear IH Hs; revert Hv Hp H; generalize (2 ^ (28 - 4 * Z.of_nat i)) (2 ^ (32 - 4 * Z.of_nat i)); lia).
  set (p1 := moved p (advance (p_source p))).
  assert (Hnone : forall c, hex_value c = None -> next_char t = c -> forall B (k : option Z -> cmd parser B), (get_unicode (S i) v ≫= k) p = k None p1).
  { intros c Hc Ht B k. cbn [get_unicode]. unfold mbind at 1, cmd_bind at 1. rewrite (get_char_at o p u t Hs), Ht.
    rewrite (hex_step v c (fun v => get_unicode i v) (mret None)) by (done || apply Hv). by rewrite Hc. }
  destruct t as [|c t]; [by exists p1; split_and!; [|intros B k; apply (Hnone 0)|]|].
  cbn [parse_unicode]. destruct (hex_value c) as [d|] eqn:Ed; [|by exists p1; split_and!; [|intros B k; by apply (Hnone c)|]].
  pose proof (hex_value_bound c d Ed) as Hd. cbn [mbind option_bind].
  destruct (IH (16 * v + d) p1 u t (state_at_next _ _ _ _ _ Hs) ltac:(lia) ltac:(lia)) as (p' & E & Hrun & Hok).
  exists p'. split_and!; [done| |].
  - intros B k. rewrite <-Hrun. cbn [get_unicode]. unfold mbind at 1, cmd_bind at 1. rewrite (get_char_at o p u (c :: t) Hs). cbn [next_char].
    rewrite (hex_step v c (fun v => get_unicode i v) (mret None)) by (done || apply Hv). by rewrite Ed.
  - intros v' t' E'. destruct (Hok v' t' E') as (Hs' & Hz & Hv'). split_and!; [done|rewrite zlen_cons; lia|done].
Qed.

Lemma utf8_zlen v : 0 <= v < 65536 -> 1 <= zlen (sxe_unicode_to_utf8 v) <= 3.
Proof. intros Hv. unfold sxe_unicode_to_utf8, zlen. repeat case_match; simpl; lia. Qed.

Lemma parse_unicode_bound i : forall v t v' t', 0 <= v -> parse_unicode i v t = Some (v', t') -> 0 <= v' < (v + 1) * 16 ^ Z.of_nat i.
Proof.
  induction i as [|i IH]; intros v t v' t' Hv; cbn [parse_unicode]; [intros [= <- <-]; change (16 ^ Z.of_nat 0) with 1; lia|].
  destruct t as [|c t]; [done|]. destruct (hex_value c) as [d|] eqn:Ed; [|done]. cbn [mbind option_bind]. intros E.
  pose proof (hex_value_bound c d Ed). apply IH in E; [|lia]. rewrite Nat2Z.inj_succ, Z.pow_succ_r by lia.
  pose proof (Z.pow_pos_nonneg 16 (Z.of_nat i) ltac:(lia) ltac:(lia)). nia.
Qed.

(** The character [c] was read, and the rest of what it starts is left. *)
Lemma get_bytes_at o p u c t :
  state_at o p u t -> exists p', p_stack p' = p_stack p /\
    (forall B (k : option (list Z) -> cmd parser B), (get_bytes c ≫= k) p = k (fst <$> parse_bytes (c :: t)) p') /\
    forall b t', parse_bytes (c :: t) = Some (b, t') -> state_at o p' u t' /\ 1 <= zlen b <= 3 /\ zlen b + zlen t' <= 1 + zlen t.
Proof.
  intros Hs. cbn [parse_bytes]. unfold get_bytes.
  destruct (c =? 92) eqn:Ec; [|by exists p; split_and!; [| |intros b t' [= <- <-]; split_and!; [|unfold zlen; simpl; lia..]]].
  set (p1 := moved p (advance (p_source p))).
  assert (Hrun : forall B (k : option (list Z) -> cmd parser B), ((c ← get_char; match escaped c with
      | Some b => mret (Some [b])
      | None => if c =? 117 then unicode ← get_unicode 4 0; mret (sxe_unicode_to_utf8 <$> unicode) else mret None
      end) ≫= k) p =
    (match escaped (next_char t) with
      | Some b => k (Some [b])
      | None => if next_char t =? 117 then unicode ← get_unicode 4 0; k (sxe_unicode_to_utf8 <$> unicode) else k None
      end) p1).
  { intros B k. unfold mbind at 1, cmd_bind at 1. rewrite (get_char_at o p u t Hs). fold p1. destruct (escaped (next_char t)); [done|].
    destruct (next_char t =? 117); [|done]. unfold mbind, cmd_bind. by destruct (get_unicode 4 0 p1) as [[? ?]| |]. }
  destruct t as [|e t]; [exists p1; split_and!; [done|intros B k; by rewrite Hrun|done]|]. cbn [next_char] in Hrun.
  pose proof (state_at_next _ _ _ _ _ Hs) as Hs1. fold p1 in Hs1.
  destruct (escaped e) as [b|]; [exists p1; split_and!; [done|intros B k; by rewrite Hrun|]|].
  { intros b' t' [= <- <-]. split_and!; [done|unfold zlen; simpl; lia..|rewrite zlen_cons; unfold zlen; simpl; lia]. }
  destruct (e =? 117); [|exists p1; split_and!; [done|intros B k; by rewrite Hrun|done]].
  destruct (get_unicode_at o 4 0 p1 u t Hs1 ltac:(done) ltac:(lia)) as (p' & E & Hu & Hok).
  exists p'. split_and!; [done| |].
  - intros B k. rewrite Hrun, Hu. by destruct (parse_unicode 4 0 t) as [[v t']|].
  - intros b t'. destruct (parse_unicode 4 0 t) as [[v t1]|] eqn:Ep; [|done]. cbn [mbind option_bind]. intros [= <- <-].
    destruct (Hok v t1 eq_refl) as (Hs' & Hz & _). apply parse_unicode_bound in Ep; [|lia]. change ((0 + 1) * 16 ^ Z.of_nat 4) with 65536 in Ep.
    pose proof (utf8_zlen v Ep). split_and!; [done|lia..|]. rewrite zlen_cons. lia.
Qed.

Lemma string_tokens_room n : 0 <= n -> 8 + n + 1 <= 16 * string_tokens n.
Proof. unfold string_tokens. intros. Z.to_euclidean_division_equations; lia. Qed.

Lemma app_one (s : list Z) c pad : s ++ c :: pad = (s ++ [c]) ++ pad.
Proof. by rewrite <-(assoc_L (++)). Qed.

(** Appending one character in the memory of a string. *)
Lemma put_char_at o st base ty s c d pad index :
  holds o st (base ++ bytes32 ty ++ bytes32 (zlen s) ++ s ++ d :: pad) -> zlen base = 16 * index -> zlen s < LIMIT ->
  exists st', put_char index c st = Ret (tt, st') /\ holds o st' (base ++ bytes32 ty ++ bytes32 (zlen s + 1) ++ (s ++ [c]) ++ pad).
Proof.
  intros Hh Hb Hs. pose proof (zlen_nonneg base). pose proof (zlen_nonneg s). pose proof (zlen_nonneg pad). assert (LIMIT < 4294967296) by done.
  assert (Hpos : forall n t : list Z, 0 < zlen (base ++ bytes32 ty ++ n ++ t)).
  { intros n t. rewrite !zlen_app, zlen_bytes32. pose proof (zlen_nonneg n). pose proof (zlen_nonneg t). lia. }
  unfold put_char.
  rewrite (cmd_bind_ret _ _ _ (zlen s) st); [|apply (peek_holds o _ _ _ _ Hh (Hpos _ _)); intros junk].
  2: { rewrite get_len_app by (done || apply zlen_bytes32). f_equal. apply u32_small. unfold is_u32. lia. }
  rewrite u32_small by (unfold is_u32; lia).
  destruct (poke_holds o st _ (base ++ bytes32 ty ++ bytes32 (zlen s + 1) ++ s ++ d :: pad) (fun m => set_len m index (zlen s + 1)) Hh (Hpos _ _)) as (st1 & E1 & Hst1).
  { intros junk. by apply set_len_app. }
  { by rewrite !zlen_app, !zlen_bytes32. }
  rewrite (cmd_bind_ret _ _ _ tt st1 E1).
  destruct (poke_holds o st1 _ (base ++ bytes32 ty ++ bytes32 (zlen s + 1) ++ (s ++ [c]) ++ pad) (fun m => set_byte m index (zlen s) c) Hst1 (Hpos _ _)) as (st2 & E2 & Hst2).
  { intros junk. rewrite <-app_one. by apply set_byte_app. }
  { rewrite <-app_one, !zlen_app, !zlen_cons, !zlen_bytes32. lia. }
  exists st2. by split.
Qed.

Lemma edge_ok_tokens n i :
  0 <= n -> 1 <= i <= 3 -> edge_ok n i = true ->
  string_tokens (n + i) = string_tokens n + (if (8 <=? (n + 1) mod 16) && ((n + 1) mod 16 <? 8 + i) then 1 else 0).
Proof.
  intros Hn Hi He%Bool.eqb_prop. rewrite He. unfold string_tokens. destruct (Z.ltb_spec ((n + 8) / 16) ((n + i + 8) / 16)); Z.to_euclidean_division_equations; lia.
Qed.

(** The memory of a string that is being read: its tokens are those of its length. *)
Definition string_memory (base : list Z) (ty : Z) (s pad : list Z) : list Z := base ++ bytes32 ty ++ bytes32 (zlen s) ++ s ++ pad.
Definition pad_ok (s pad : list Z) : Prop := zlen pad = 16 * string_tokens (zlen s) - 8 - zlen s.

(** Copying more bytes behind those of a string. *)
Lemma put_tail_at o st base ty s pad b index :
  holds o st (string_memory base ty s pad) -> zlen base = 16 * index -> zlen b <= zlen pad -> zlen s + zlen b < LIMIT ->
  exists st' pad', (poke (fun m => set_bytes m index (zlen s) b);; poke (fun m => set_len m index (u32 (zlen s + zlen b)));; mret true) st = Ret (true, st') /\
    holds o st' (string_memory base ty (s ++ b) pad') /\ zlen pad' = zlen pad - zlen b.
Proof.
  unfold string_memory. intros Hh Hb Hp Hs. pose proof (zlen_nonneg base). pose proof (zlen_nonneg s). pose proof (zlen_nonneg b). assert (LIMIT < 4294967296) by done.
  assert (Hpos : forall t : list Z, 0 < zlen (base ++ bytes32 ty ++ t)).
  { intros t. rewrite !zlen_app, zlen_bytes32. pose proof (zlen_nonneg t). lia. }
  assert (exists old rest, pad = old ++ rest /\ zlen old = zlen b) as (old & rest & -> & Ho).
  { exists (take (Z.to_nat (zlen b)) pad), (drop (Z.to_nat (zlen b)) pad). rewrite take_drop. split; [done|]. unfold zlen in *. rewrite length_take. lia. }
  destruct (poke_holds o st _ (base ++ bytes32 ty ++ bytes32 (zlen s) ++ s ++ b ++ rest) (fun m => set_bytes m index (zlen s) b) Hh (Hpos _)) as (st1 & E1 & Hst1).
  { intros junk. by apply set_bytes_app. }
  { rewrite !zlen_app, !zlen_bytes32. lia. }
  rewrite (cmd_bind_ret _ _ _ tt st1 E1), u32_small by (unfold is_u32; lia).
  destruct (poke_holds o st1 _ (base ++ bytes32 ty ++ bytes32 (zlen (s ++ b)) ++ (s ++ b) ++ rest) (fun m => set_len m index (zlen s + zlen b)) Hst1 (Hpos _)) as (st2 & E2 & Hst2).
  { intros junk. rewrite <-(assoc_L (++) s), zlen_app. by apply set_len_app. }
  { by rewrite <-(assoc_L (++) s), !zlen_app, !zlen_bytes32. }
  rewrite (cmd_bind_ret _ _ _ tt st2 E2). exists st2, rest. split_and!; [done|done|]. rewrite zlen_app. lia.
Qed.

(** Appending the bytes of one character. *)
Lemma put_bytes_at `{Env} o st base ty s pad b index :
  holds o st (string_memory base ty s pad) -> pad_ok s pad -> zlen base = 16 * index -> 1 <= zlen b <= 3 -> edge_ok (zlen s) (zlen b) = true ->
  index + string_tokens (zlen s) + 1 <= LIMIT -> zlen s + zlen b < LIMIT ->
  exists ok st', put_bytes index b st = Ret (ok, st') /\
    if ok then exists pad', pad_ok (s ++ b) pad' /\ holds o st' (string_memory base ty (s ++ b) pad')
    else out_of_memory /\ exists y, holds o st' (base ++ y).
Proof.
  intros Hh Hp Hb Hlb He Hlim Hsmall. unfold string_memory, pad_ok in *. pose proof (zlen_nonneg base) as Hbase. pose proof (zlen_nonneg s) as Hs0.
  pose proof (string_tokens_room (zlen s) Hs0) as Hroom. pose proof (edge_ok_tokens _ _ Hs0 Hlb He) as Htok.
  assert (LIMIT < 4294967296) by done.
  assert (Hpos : forall t : list Z, 0 < zlen (base ++ bytes32 ty ++ t)).
  { intros t. rewrite !zlen_app, zlen_bytes32. pose proof (zlen_nonneg t). lia. }
  destruct b as [|c b]; [change (zlen []) with 0 in Hlb; lia|]. rewrite zlen_cons in Hlb, He, Htok, Hsmall.
  destruct pad as [|d pad]; [change (zlen []) with 0 in Hp; lia|]. rewrite zlen_cons in Hp.
  destruct (put_char_at o st base ty s c d pad index Hh Hb ltac:(lia)) as (st1 & E1 & Hst1).
  unfold put_bytes. cbn [hd tl]. rewrite (cmd_bind_ret _ _ _ tt st1 E1).
  rewrite (cmd_bind_ret _ _ _ (zlen s + 1) st1).
  2: { apply (peek_holds o _ _ _ _ Hst1 (Hpos _)). intros junk. rewrite get_len_app by (done || apply zlen_bytes32). f_equal. apply u32_small. unfold is_u32. lia. }
  unfold SXE_JITSON_TOKEN_SIZE. change (16 / 2) with 8. rewrite (zlen_cons c b).
  assert (Hc1 : count st1 = index + string_tokens (zlen s)).
  { pose proof (h_count _ _ _ Hst1) as Hc. rewrite !zlen_app, !zlen_bytes32 in Hc. change (zlen [c]) with 1 in Hc. lia. }
  assert (Hfin : forall st2 pad2, holds o st2 (base ++ bytes32 ty ++ bytes32 (zlen s + 1) ++ (s ++ [c]) ++ pad2) ->
    zlen pad2 = 16 * string_tokens (zlen s + (1 + zlen b)) - 8 - (zlen s + 1) ->
    exists ok st', (if 1 <? 1 + zlen b then poke (fun m => set_bytes m index (zlen s + 1) b);; poke (fun m => set_len m index (u32 (zlen s + 1 + (1 + zlen b - 1))));; mret true else mret true) st2 = Ret (ok, st') /\
      if (ok : bool) then exists pad', zlen pad' = 16 * string_tokens (zlen (s ++ c :: b)) - 8 - zlen (s ++ c :: b) /\ holds o st' (base ++ bytes32 ty ++ bytes32 (zlen (s ++ c :: b)) ++ (s ++ c :: b) ++ pad')
      else out_of_memory /\ exists y, holds o st' (base ++ y)).
  { intros st2 pad2 Hst2 Hp2. destruct b as [|c1 b].
    - change (zlen []) with 0 in *. exists true, st2. split; [done|]. exists pad2. rewrite zlen_app. change (zlen [c]) with 1. split; [rewrite Hp2; f_equal; lia|done].
    - rewrite (proj2 (Z.ltb_lt 1 (1 + zlen (c1 :: b)))) by (rewrite zlen_cons; pose proof (zlen_nonneg b); lia).
      assert (Hz1 : zlen (s ++ [c]) = zlen s + 1) by (rewrite zlen_app; done). rewrite <-Hz1 in Hst2.
      pose proof (string_tokens_room (zlen s + (1 + zlen (c1 :: b))) ltac:(pose proof (zlen_nonneg (c1 :: b)); lia)).
      destruct (put_tail_at o st2 base ty (s ++ [c]) pad2 (c1 :: b) index Hst2 Hb ltac:(lia) ltac:(lia)) as (st3 & pad3 & E3 & Hst3 & Hp3).
      rewrite Hz1 in E3. replace (zlen s + 1 + (1 + zlen (c1 :: b) - 1)) with (zlen s + 1 + zlen (c1 :: b)) by lia.
      exists true, st3. split; [done|]. exists pad3. rewrite (app_one s), zlen_app, Hz1.
      split; [rewrite Hp3, Hp2; replace (zlen s + 1 + zlen (c1 :: b)) with (zlen s + (1 + zlen (c1 :: b))) by lia; lia|].
      unfold string_memory in Hst3. by rewrite zlen_app, Hz1 in Hst3. }
  destruct (_ && _).
  - destruct (expand_holds o st1 _ 1 Hst1) as [(st2 & x & E2 & Hst2 & Hx & _)|[E2 Hoom]]; [lia..| |].
    + rewrite (cmd_bind_ret _ _ _ false st2).
      2: { unfold mbind, cmd_bind. rewrite E2. unfold mret, cmd_ret, SXE_JITSON_STACK_ERROR. do 2 f_equal. apply Z.eqb_neq. lia. }
      rewrite <-!(assoc_L (++)) in Hst2. apply (Hfin st2 (pad ++ x)); [by rewrite <-!(assoc_L (++))|]. rewrite zlen_app. lia.
    + rewrite (cmd_bind_ret _ _ _ true st1). 2: { unfold mbind, cmd_bind. by rewrite E2. }
      exists false, st1. split; [done|]. split; [done|]. eexists. exact Hst1.
  - rewrite (cmd_bind_ret _ _ _ false st1) by done. apply (Hfin st1 pad); [done|lia].
Qed.

Lemma given_image l : has_image (given l) l.
Proof. unfold given. induction l as [|b l IH]; [constructor|]. by constructor. Qed.

Lemma blank_image n l : zlen l = n -> has_image (blank n) l.
Proof.
  intros <-. unfold blank, zlen. rewrite Nat2Z.id. induction l as [|b l IH]; [constructor|]. by constructor.
Qed.

Lemma string_has_image ty s pad : pad_ok s (0 :: pad) -> has_image (string_image ty s) (bytes32 ty ++ bytes32 (zlen s) ++ s ++ 0 :: pad).
Proof.
  unfold pad_ok. rewrite zlen_cons. intros Hp. unfold string_image. rewrite (app_one s 0 pad). do 3 (apply Forall2_app; [apply given_image|]).
  apply blank_image. lia.
Qed.

(** What a call that parses does, when it is to add the image of a value [a] behind [base]. *)
Section Loaded.
Context `{Env}.

Definition failed (o : frame) (base : list Z) (e : errno) (out : outcome (result * parser)) : Prop :=
  exists p, out = Ret (Some e, p) /\ holds o (p_stack p) base.
Definition loaded {A} (o : frame) (base : list Z) (image : A -> list (option Z)) (t : list Z) (r : parsed A) (out : outcome (result * parser)) : Prop :=
  match r with
  | Parsed a t' =>
      (exists p x, out = Ret (success, p) /\ has_image (image a) x /\ state_at o p (base ++ x) t' /\ zlen t' <= zlen t) \/
      (failed o base ENOMEM out /\ out_of_memory)
  | Invalid e => failed o base e out \/ (failed o base ENOMEM out /\ out_of_memory)
  | Unclear => True
  end.

Lemma loaded_le {A} o base (image : A -> list (option Z)) t t' r out : loaded o base image t r out -> zlen t <= zlen t' -> loaded o base image t' r out.
Proof.
  destruct r as [a t1|e|]; cbn; [|done..]. intros [(p & x & E & Hi & Hs & Hz)|Hf] Hle; [left|by right].
  exists p, x. split_and!; [done..|lia].
Qed.

Lemma loaded_nomem {A} o base (image : A -> list (option Z)) t r out :
  failed o base ENOMEM out -> out_of_memory -> loaded o base image t r out.
Proof. intros Hf Ho. destruct r; cbn; auto. Qed.

Lemma failed_run o p base y index e :
  holds o (p_stack p) (base ++ y) -> zlen base = 16 * index -> failed o base e (fail index e p).
Proof. intros Hh Hb. apply (fail_run o p base y index e Hh Hb). Qed.

(** The loop over the characters of a string. *)
Lemma string_loop_at o base ty index : zlen base = 16 * index -> forall fuel fuel' s pad t p,
  state_at o p (string_memory base ty s pad) t -> pad_ok s pad -> zlen s + zlen t < LIMIT ->
  (length t < fuel)%nat -> (length t < fuel')%nat ->
  loaded o base (string_image ty) t (parse_string fuel s t) (string_loop fuel' index p).
Proof.
  intros Hb. pose proof (zlen_nonneg base) as Hb0. induction fuel as [|fuel IH]; intros fuel' s pad t p Hs Hp Hlim Hf Hf'; [lia|].
  destruct fuel' as [|fuel']; [lia|]. cbn [string_loop parse_string]. pose proof (zlen_nonneg s) as Hs0.
  pose proof (string_tokens_room (zlen s) Hs0) as Hroom.
  assert (Hz : zlen (string_memory base ty s pad) = zlen base + 16 * string_tokens (zlen s)).
  { unfold string_memory, pad_ok in *. rewrite !zlen_app, !zlen_bytes32. lia. }
  rewrite (get_char_at o p _ t Hs). destruct t as [|c t]; cbn [next_char].
  { change (0 =? 34) with false. change (0 =? 0) with true. cbn iota. left. eapply failed_run; [|done]. exact (sa_holds _ _ _ _ Hs). }
  pose proof (next_nonzero _ _ _ _ _ Hs) as Hc. pose proof (state_at_next _ _ _ _ _ Hs) as Hs1. set (p1 := moved p _) in *.
  destruct (c =? 34) eqn:E34.
  - unfold string_memory in Hs1, Hz. destruct pad as [|d pad]; [unfold pad_ok in Hp; change (zlen []) with 0 in Hp; lia|].
    rewrite (on_stack_ret _ _ p1 (zlen s) (p_stack p1)).
    2: { apply (peek_holds o _ _ _ _ (sa_holds _ _ _ _ Hs1)); [lia|]. intros junk. rewrite get_len_app by (done || apply zlen_bytes32). f_equal. apply u32_small.
         unfold is_u32, LIMIT in *. rewrite zlen_cons in Hlim. pose proof (zlen_nonneg t). lia. }
    destruct (poke_holds o (p_stack p1) _ (base ++ bytes32 ty ++ bytes32 (zlen s) ++ s ++ 0 :: pad) (fun m => set_byte m index (zlen s) 0) (sa_holds _ _ _ _ Hs1)) as (st2 & E2 & Hst2).
    { lia. }
    { intros junk. by apply set_byte_app. }
    { by rewrite !zlen_app, !zlen_cons. }
    rewrite (on_stack_ret _ _ _ tt st2) by done. left. eexists _, _. split; [reflexivity|]. split; [by apply string_has_image|].
    destruct Hs1 as [Hh1 Hl1 Hf1 He1 Hn1 Hr1 Hend]. split; [|rewrite zlen_cons; lia]. split; cbn [p_stack p_source]; try done.
    rewrite !zlen_app, !zlen_cons in *. lia.
  - rewrite (proj2 (Z.eqb_neq c 0)) by done. destruct (get_bytes_at o p1 _ c t Hs1) as (p2 & Ep2 & Hrun & Hok). rewrite Hrun.
    destruct (parse_bytes (c :: t)) as [[b t']|]; cbn [fmap option_fmap option_map fst].
    2: { left. eapply failed_run; [|done]. rewrite Ep2. exact (sa_holds _ _ _ _ Hs1). }
    destruct (Hok b t' eq_refl) as (Hs2 & Hlb & Hzt). destruct (edge_ok (zlen s) (zlen b)) eqn:Ee; [|done]. rewrite zlen_cons in Hlim.
    pose proof (zlen_nonneg t'). pose proof (zlen_nonneg t). pose proof (sa_room _ _ _ _ Hs) as Hr. rewrite Hz, zlen_cons in Hr.
    destruct (put_bytes_at o (p_stack p2) base ty s pad b index (sa_holds _ _ _ _ Hs2) Hp Hb Hlb Ee ltac:(lia) ltac:(lia)) as (ok & st' & E & Hres).
    rewrite (on_stack_ret _ _ p2 ok st' E). destruct ok.
    + destruct Hres as (pad' & Hp' & Hh'). apply (loaded_le o base (string_image ty) t'); [|rewrite zlen_cons; lia].
      apply (IH fuel' (s ++ b) pad'); [|done|rewrite zlen_app; lia|unfold zlen in *; simpl in *; lia..].
      pose proof (edge_ok_tokens _ _ Hs0 Hlb Ee) as Htok. destruct Hs2 as [_ Hl2 Hf2 He2 Hn2 _ Hend]. split; cbn [p_stack p_source]; try done.
      unfold string_memory, pad_ok in *. rewrite zlen_app in Hp'. rewrite !zlen_app, !zlen_bytes32. destruct (_ && _); lia.
    + destruct Hres as (Hoom & y & Hy). apply loaded_nomem; [|done]. eapply failed_run; [exact Hy|done].
Qed.
End Loaded.

(** ** Tokens that are not strings *)

(** The memory of a number of bytes, split. *)
Lemma split_memory (x : list Z) n : 0 <= n <= zlen x -> exists a b, x = a ++ b /\ zlen a = n /\ zlen b = zlen x - n.
Proof.
  intros Hn. exists (take (Z.to_nat n) x), (drop (Z.to_nat n) x). rewrite take_drop. unfold zlen in *. rewrite length_take, length_drop. split_and!; [done|lia..].
Qed.

Section Scalars.
Context (o : frame) (base : list Z) (index : Z) (Hb : zlen base = 16 * index).

Lemma base_pos (x : list Z) : 0 < zlen x -> 0 < zlen (base ++ x).
Proof. rewrite zlen_app. pose proof (zlen_nonneg base). lia. Qed.

Lemma new_type_at st x ty :
  holds o st (base ++ x) -> zlen x = 16 ->
  exists st' y, poke (fun m => set_type m index ty) st = Ret (tt, st') /\ holds o st' (base ++ bytes32 ty ++ y) /\ zlen y = 12.
Proof.
  intros Hh Hx. destruct (split_memory x 4) as (a & y & -> & Ha & Hy); [lia|].
  destruct (poke_holds o st _ (base ++ bytes32 ty ++ y) (fun m => set_type m index ty) Hh) as (st' & E & Hh').
  { apply base_pos. lia. }
  { intros junk. by apply set_type_app. }
  { by rewrite !zlen_app, zlen_bytes32, Ha. }
  exists st', y. split_and!; [done|done|lia].
Qed.

Lemma new_len_at st ty y n :
  holds o st (base ++ bytes32 ty ++ y) -> zlen y = 12 ->
  exists st' z, poke (fun m => set_len m index n) st = Ret (tt, st') /\ holds o st' (base ++ bytes32 ty ++ bytes32 n ++ z) /\ zlen z = 8.
Proof.
  intros Hh Hy. destruct (split_memory y 4) as (a & z & -> & Ha & Hz); [lia|].
  destruct (poke_holds o st _ (base ++ bytes32 ty ++ bytes32 n ++ z) (fun m => set_len m index n) Hh) as (st' & E & Hh').
  { apply base_pos. rewrite zlen_app, zlen_bytes32. pose proof (zlen_nonneg (a ++ z)). lia. }
  { intros junk. by apply set_len_app. }
  { by rewrite !zlen_app, !zlen_bytes32, Ha. }
  exists st', z. split_and!; [done|done|lia].
Qed.

Lemma new_integer_at st ty y v :
  holds o st (base ++ bytes32 ty ++ y) -> zlen y = 12 ->
  exists st' l, poke (fun m => set_integer m index v) st = Ret (tt, st') /\ holds o st' (base ++ bytes32 ty ++ l ++ bytes64 v) /\ zlen l = 4.
Proof.
  intros Hh Hy. destruct (split_memory y 4) as (l & z & -> & Hl & Hz); [lia|].
  destruct (poke_holds o st _ (base ++ bytes32 ty ++ l ++ bytes64 v) (fun m => set_integer m index v) Hh) as (st' & E & Hh').
  { apply base_pos. rewrite zlen_app, zlen_bytes32. pose proof (zlen_nonneg (l ++ z)). lia. }
  { intros junk. pose proof (set_integer_app base (bytes32 ty) l z [] junk index v) as E. rewrite !app_nil_r in E. apply E; [done..|lia]. }
  { rewrite !zlen_app, !zlen_bytes32, zlen_bytes64. lia. }
  exists st', l. by split_and!.
Qed.

Lemma new_byte_at st ty y v :
  holds o st (base ++ bytes32 ty ++ y) -> zlen y = 12 ->
  exists st' l r, poke (fun m => set_byte m index 0 v) st = Ret (tt, st') /\ holds o st' (base ++ bytes32 ty ++ l ++ v :: r) /\ zlen l = 4 /\ zlen r = 7.
Proof.
  intros Hh Hy. destruct (split_memory y 4) as (l & z & -> & Hl & Hz); [lia|]. destruct z as [|d r]; [change (zlen []) with 0 in Hz; lia|].
  rewrite zlen_cons in Hz.
  destruct (poke_holds o st _ (base ++ bytes32 ty ++ l ++ v :: r) (fun m => set_byte m index 0 v) Hh) as (st' & E & Hh').
  { apply base_pos. rewrite zlen_app, zlen_bytes32. pose proof (zlen_nonneg (l ++ d :: r)). lia. }
  { intros junk. pose proof (set_byte_app base (bytes32 ty) l [] v d r junk index 0) as E. cbn [app] in E. by apply E. }
  { by rewrite !zlen_app, !zlen_cons. }
  exists st', l, r. split_and!; [done..|lia].
Qed.

(** Adding one to the length of a collection. *)
Lemma count_element_at p ty n z :
  holds o (p_stack p) (base ++ bytes32 ty ++ bytes32 n ++ z) -> 0 <= n < LIMIT ->
  exists st', holds o st' (base ++ bytes32 ty ++ bytes32 (n + 1) ++ z) /\
    forall B (k : cmd parser B), (count_element index;; k) p = k (mk_parser st' (p_source p)).
Proof.
  intros Hh Hn. assert (LIMIT < 4294967296) by done.
  assert (Hpos : forall m : list Z, 0 < zlen (base ++ bytes32 ty ++ m)) by (intros m; apply base_pos; rewrite zlen_app, zlen_bytes32; pose proof (zlen_nonneg m); lia).
  destruct (poke_holds o (p_stack p) _ (base ++ bytes32 ty ++ bytes32 (n + 1) ++ z) (fun m => set_len m index (n + 1)) Hh) as (st' & E & Hh').
  { apply Hpos. }
  { intros junk. by apply set_len_app. }
  { by rewrite !zlen_app, !zlen_bytes32. }
  exists st'. split; [done|]. intros B k. rewrite (cmd_bind_ret _ _ _ tt (mk_parser st' (p_source p))); [done|]. unfold count_element.
  rewrite (on_stack_ret _ _ p n (p_stack p)).
  - unfold on_stack. cbn [p_stack]. rewrite u32_small by (unfold is_u32; lia). by rewrite E.
  - apply (peek_holds o _ _ _ _ Hh (Hpos _)). intros junk. rewrite get_len_app by done. f_equal. apply u32_small. unfold is_u32. lia.
Qed.

(** Storing the size of a collection of which the elements are [e]. *)
Lemma close_loaded_at p ty n z e :
  holds o (p_stack p) (base ++ bytes32 ty ++ bytes32 n ++ z ++ e) -> zlen z = 8 -> count (p_stack p) <= LIMIT ->
  exists st', holds o st' (base ++ bytes32 ty ++ bytes32 n ++ bytes64 (1 + zlen e / 16) ++ e) /\
    close_loaded index p = Ret (success, mk_parser st' (p_source p)).
Proof.
  intros Hh Hz Hc. assert (LIMIT < 4294967296) by done. pose proof (h_count _ _ _ Hh) as Hcount. rewrite !zlen_app, !zlen_bytes32, Hz, Hb in Hcount.
  pose proof (zlen_nonneg e). pose proof (zlen_nonneg base).
  assert (He : count (p_stack p) - index = 1 + zlen e / 16) by (Z.to_euclidean_division_equations; lia).
  destruct (poke_holds o (p_stack p) _ (base ++ bytes32 ty ++ bytes32 n ++ bytes64 (1 + zlen e / 16) ++ e) (fun m => set_integer m index (1 + zlen e / 16)) Hh) as (st' & E & Hh').
  { apply base_pos. rewrite zlen_app, zlen_bytes32. pose proof (zlen_nonneg (bytes32 n ++ z ++ e)). lia. }
  { intros junk. by apply set_integer_app. }
  { rewrite !zlen_app, !zlen_bytes32, zlen_bytes64. lia. }
  exists st'. split; [done|]. unfold close_loaded. rewrite (on_stack_ret _ _ p (count (p_stack p)) (p_stack p)) by done.
  rewrite He, u32_small by (unfold is_u32; rewrite <-He; pose proof (zlen_nonneg base); Z.to_euclidean_division_equations; lia).
  by rewrite (on_stack_ret _ _ _ tt st') by done.
Qed.
End Scalars.

(** ** The parts of the parser *)
Section Parts.
Context `{Build} `{Env} {double : number -> Z} `{!StrtodLaw double}.

Definition string_type (is_member_name : bool) : Z := if is_member_name then key_type else SXE_JITSON_TYPE_STRING.

Lemma load_string_at o p base t key :
  state_at o p base t -> zlen base + 16 * (zlen t + 1) <= 16 * LIMIT ->
  loaded o base (string_image (string_type key)) t (parse_string (S (length t)) [] t) (sxe_jitson_stack_load_string key p).
Proof.
  intros Hs Hr. pose proof (h_count _ _ _ (sa_holds _ _ _ _ Hs)) as Hb. pose proof (zlen_nonneg t). pose proof (zlen_nonneg base). assert (LIMIT < 4294967296) by done.
  unfold sxe_jitson_stack_load_string. set (index := count (p_stack p)) in *.
  destruct (expand_holds o (p_stack p) base 1 (sa_holds _ _ _ _ Hs)) as [(st1 & x & E1 & Hst1 & Hx & _)|[E1 Hoom]]; [lia..| |].
  2: { rewrite (on_stack_ret _ _ p _ _ E1), Z.eqb_refl. apply loaded_nomem; [|done]. eexists. split; [reflexivity|]. apply (sa_holds _ _ _ _ Hs). }
  rewrite (on_stack_ret _ _ p _ _ E1). fold index. rewrite (proj2 (Z.eqb_neq index SXE_JITSON_STACK_ERROR)) by (unfold SXE_JITSON_STACK_ERROR; lia).
  replace (Z.lor SXE_JITSON_TYPE_STRING (if key then SXE_JITSON_TYPE_IS_KEY else 0)) with (string_type key) by (by destruct key).
  destruct (new_type_at o base index Hb st1 x (string_type key) Hst1 Hx) as (st2 & y & E2 & Hst2 & Hy). rewrite (on_stack_ret _ _ _ tt st2) by done.
  destruct (new_len_at o base index Hb st2 _ y 0 Hst2 Hy) as (st3 & z & E3 & Hst3 & Hz). rewrite (on_stack_ret _ _ _ tt st3) by done.
  cbn [p_source]. unfold text_fuel. unfold mbind at 1, cmd_bind at 1, gets. cbn [p_source].
  destruct Hs as [_ Hl Hf He Hn Hroom Hend]. apply (string_loop_at o base (string_type key) index Hb _ _ [] z).
  - split; cbn [p_stack p_source]; try done. unfold string_memory. cbn [app]. rewrite !zlen_app, !zlen_bytes32. lia.
  - unfold pad_ok. change (zlen (@nil Z)) with 0. change (string_tokens 0) with 1. lia.
  - change (zlen []) with 0. lia.
  - lia.
  - pose proof (left_pos _ _ Hl). unfold zlen in *. lia.
Qed.

(** The character that a value starts with is pushed back. *)
Lemma push_char_back st s c t {B} (k : cmd parser B) :
  left s (c :: t) -> src_end s = None -> (push_char c;; k) (mk_parser st (advance s)) = k (mk_parser st s).
Proof.
  intros Hl He. unfold push_char. rewrite (on_source_ret _ _ _ tt s); [done|]. cbn [p_source].
  pose proof (proj2 (get_char_string s (c :: t) Hl He)) as E. cbn [next_char] in E. by rewrite E.
Qed.

Lemma left_memory s t : left s t -> src_end s = None -> exists junk, text_from (src_next s) s = t ++ 0 :: junk.
Proof.
  intros Hl He. destruct Hl as [pre rest Ej En Ee|pre rest Ej En Ee]; [by rewrite He in Ee|].
  exists rest. unfold text_from. rewrite Ej, En. apply drop_zlen_app.
Qed.

Lemma next_char_nul t junk : next_char (t ++ 0 :: junk) = next_char t.
Proof. by destruct t. Qed.

Lemma number_ends_nul n t junk : number_ends n t -> number_ends n (t ++ 0 :: junk).
Proof. unfold number_ends. by rewrite next_char_nul. Qed.

Lemma print_uint n : number_is_uint n = true -> print_number n = n_digits n.
Proof.
  unfold number_is_uint, print_number. destruct (n_minus n); [done|]. cbn [negb andb]. intros [->%bool_decide_eq_true ->%bool_decide_eq_true]%andb_true_iff.
  cbn [print_fraction print_exponent app]. by rewrite app_nil_r.
Qed.

Lemma strtoul_decimal n t : number_ok n -> number_ends n t -> number_is_uint n = true ->
  strtoul (print_number n ++ t) 10 = (digits_value 10 (n_digits n), zlen (print_number n)).
Proof.
  intros Hok (Hn & _) Hu. rewrite print_uint by done. unfold strtoul. change (10 =? 10) with true. cbn iota.
  by destruct (class_app isdigit (n_digits n) t (proj2 (no_digits _ Hok)) Hn) as [-> _].
Qed.

Lemma print_number_pos n : number_ok n -> 1 <= zlen (print_number n).
Proof.
  intros Hok. destruct (no_digits _ Hok) as [Hd _]. unfold print_number. rewrite !zlen_app.
  destruct (n_digits n) as [|c d]; [done|]. rewrite zlen_cons. pose proof (zlen_nonneg d).
  pose proof (zlen_nonneg (if n_minus n then [45] else [])). pose proof (zlen_nonneg (print_fraction (n_fraction n))). pose proof (zlen_nonneg (print_exponent (n_exponent n))). lia.
Qed.

Lemma assert6_true : assert6 true = Ret tt.
Proof. unfold assert6. by destruct debug. Qed.

Lemma lift_ret {S A B} (m : outcome A) (k : A -> cmd S B) s a : m = Ret a -> (lift m ≫= k) s = k a s.
Proof. by intros ->. Qed.

(** A token of a number that is complete. *)
Lemma number_image ty l v : zlen l = 4 -> has_image (given (bytes32 ty) ++ blank 4 ++ given (bytes64 v)) (bytes32 ty ++ l ++ bytes64 v).
Proof. intros Hl. apply Forall2_app; [apply given_image|]. apply Forall2_app; [by apply blank_image|apply given_image]. Qed.

Lemma load_number_at o st base x index s c t :
  holds o st (base ++ x) -> zlen x = 16 -> zlen base = 16 * index ->
  left s (c :: t) -> src_flags s = SXE_JITSON_FLAG_STRICT -> src_end s = None -> no_nul (c :: t) ->
  zlen base + 16 * zlen (c :: t) <= 16 * LIMIT -> src_next s + zlen (c :: t) = f_end o ->
  loaded o base image (c :: t) (parse_number double (c :: t)) (load_number index c (mk_parser st (advance s))).
Proof.
  intros Hh Hx Hb Hl Hf He Hn Hr Hend. unfold load_number, parse_number. rewrite (push_char_back st s c t) by done.
  destruct (get_number_left s (c :: t) Hl Hf) as (s' & E & Hok). rewrite (on_source_ret sxe_jitson_source_get_number _ (mk_parser st s) _ s' E). cbn [p_stack].
  destruct (scan_number (c :: t)) as [[n t']|] eqn:Es; cbn [fmap option_fmap option_map fst].
  2: { left. by eapply failed_run. }
  destruct (Hok n t' eq_refl) as (-> & Hl' & Et). apply scan_number_iff in Es as [_ Hnok Hends]. pose proof (print_number_pos n Hnok) as Hpos.
  destruct (left_memory s (c :: t) Hl He) as (junk & Hmem). unfold mbind at 1, cmd_bind at 1, gets at 1. cbn [p_source].
  change (text_from (src_next s) (after s (zlen (print_number n)))) with (text_from (src_next s) s). rewrite Hmem, Et, <-(assoc_L (++)).
  rewrite Et in Hr, Hn, Hend. rewrite zlen_app in Hr, Hend. apply Forall_app in Hn as [_ Hn].
  assert (Hfin : forall st' y, holds o st' (base ++ y) -> zlen y = 16 -> state_at o (mk_parser st' (after s (zlen (print_number n)))) (base ++ y) t').
  { intros st' y Hst' Hy. split; cbn [p_stack p_source]; try done; [rewrite zlen_app; lia|cbn; lia]. }
  destruct (number_is_uint n) eqn:Hu; cbn [negb andb].
  - unfold mbind at 1, cmd_bind at 1, gets. cbn [p_source]. rewrite allows_strict by done. rewrite (strtoul_decimal n (t' ++ 0 :: junk)) by (done || by apply number_ends_nul).
    destruct (new_type_at o base index Hb st x (Z.lor SXE_JITSON_TYPE_NUMBER SXE_JITSON_TYPE_IS_UINT) Hh Hx) as (st2 & y & E2 & Hst2 & Hy). rewrite (on_stack_ret _ _ _ tt st2) by done.
    destruct (new_integer_at o base index Hb st2 _ y (digits_value 10 (n_digits n)) Hst2 Hy) as (st3 & l & E3 & Hst3 & Hz). rewrite (on_stack_ret _ _ _ tt st3) by done.
    rewrite Z.eqb_refl, (lift_ret _ _ _ tt assert6_true). left. eexists _, _. split; [reflexivity|]. unfold number_value. rewrite Hu. split; [by apply number_image|].
    split; [|rewrite zlen_app; lia]. apply Hfin; [done|]. rewrite !zlen_app, zlen_bytes32, zlen_bytes64. lia.
  - destruct (hex_like n t') eqn:Hx'; [done|]. rewrite (strtod_law n (t' ++ 0 :: junk)); [|done|by apply number_ends_nul|unfold hex_like; by rewrite next_char_nul].
    destruct (new_type_at o base index Hb st x SXE_JITSON_TYPE_NUMBER Hh Hx) as (st2 & y & E2 & Hst2 & Hy). rewrite (on_stack_ret _ _ _ tt st2) by done.
    destruct (new_integer_at o base index Hb st2 _ y (double n) Hst2 Hy) as (st3 & l & E3 & Hst3 & Hz). rewrite (on_stack_ret _ _ _ tt st3) by done.
    rewrite Z.eqb_refl, (lift_ret _ _ _ tt assert6_true). left. eexists _, _. split; [reflexivity|]. unfold number_value. rewrite Hu. split; [by apply number_image|].
    split; [|rewrite zlen_app; lia]. apply Hfin; [done|]. rewrite !zlen_app, zlen_bytes32, zlen_bytes64. lia.
Qed.

Lemma identifier_left s t :
  left s t ->
  let w := take_class is_identifier_char t in
  exists token, sxe_jitson_source_get_identifier s = Ret (token, zlen w, after s (zlen w)) /\
    slice (src_json s) (default 0 token) (zlen w) = Some w /\ left (after s (zlen w)) (drop_class is_identifier_char t).
Proof.
  intros Hl w. destruct (skip_left is_identifier_char s t eq_refl Hl) as [Hs Hl']. fold w in Hs, Hl'.
  unfold sxe_jitson_source_get_identifier. rewrite Hs. cbn [mbind outcome_bind]. replace (src_next (after s (zlen w)) - src_next s) with (zlen w) by (simpl; lia).
  eexists. split_and!; [reflexivity| |done]. destruct (Z.eqb_spec (zlen w) 0) as [Ew|Ew]; cbn [default from_option id].
  - rewrite Ew. assert (w = []) as -> by (destruct w; [done|rewrite zlen_cons in Ew; pose proof (zlen_nonneg w); lia]).
    by rewrite slice_Some by (pose proof (zlen_nonneg (src_json s)); lia).
  - assert (exists pre post, src_json s = pre ++ w ++ post /\ src_next s = zlen pre) as (pre & post & -> & ->).
    { pose proof (take_drop_class is_identifier_char t) as Et. fold w in Et. destruct Hl as [pre rest Ej En Ee|pre rest Ej En Ee]; rewrite <-Et in Ej; rewrite <-(assoc_L (++)) in Ej; eauto. }
    pose proof (zlen_nonneg pre). pose proof (zlen_nonneg post). rewrite slice_Some by (rewrite ?zlen_app; pose proof (zlen_nonneg w); lia). by rewrite drop_zlen_app, take_zlen_app.
Qed.

(** The images of the words. *)
Lemma null_image y : zlen y = 12 -> has_image (image JNull) (bytes32 SXE_JITSON_TYPE_NULL ++ y).
Proof. intros Hy. apply Forall2_app; [apply given_image|by apply blank_image]. Qed.

Lemma bool_image b l r : zlen l = 4 -> zlen r = 7 -> has_image (image (JBool b)) (bytes32 SXE_JITSON_TYPE_BOOL ++ l ++ Z.b2z b :: r).
Proof.
  intros Hl Hr. apply Forall2_app; [apply given_image|]. apply Forall2_app; [by apply blank_image|].
  constructor; [done|]. by apply blank_image.
Qed.

Lemma load_word_at o st base x index s c t :
  holds o st (base ++ x) -> zlen x = 16 -> zlen base = 16 * index ->
  left s (c :: t) -> src_flags s = SXE_JITSON_FLAG_STRICT -> src_end s = None -> no_nul (c :: t) ->
  zlen base + 16 * zlen (c :: t) <= 16 * LIMIT -> src_next s + zlen (c :: t) = f_end o ->
  loaded o base image (c :: t) (parse_word (c :: t)) (load_word index c (mk_parser st (advance s))).
Proof.
  intros Hh Hx Hb Hl Hf He Hn Hr Hend. unfold load_word, parse_word. rewrite (push_char_back st s c t) by done.
  destruct (identifier_left s (c :: t) Hl) as (token & E & Esl & Hl'). set (w := take_class _ _) in *. set (t' := drop_class _ _) in *.
  pose proof (take_drop_class is_identifier_char (c :: t)) as Et. fold w t' in Et. rewrite <-Et in Hr, Hn, Hend |- *.
  rewrite zlen_app in Hr, Hend. apply Forall_app in Hn as [_ Hn].
  rewrite (on_source_ret _ _ (mk_parser st s) (token, zlen w) (after s (zlen w))) by (cbn [p_source]; by rewrite E).
  unfold mbind at 1, cmd_bind at 1, gets at 1. cbn [p_source p_stack]. change (src_json (after s (zlen w))) with (src_json s). rewrite Esl.
  rewrite (lift_ret _ _ _ w eq_refl).
  assert (Hfin : forall st' y, w <> [] -> holds o st' (base ++ y) -> zlen y = 16 -> state_at o (mk_parser st' (after s (zlen w))) (base ++ y) t' /\ zlen t' <= zlen (w ++ t')).
  { intros st' y Hw Hst' Hy. destruct w as [|c0 w]; [done|]. rewrite zlen_cons in Hr, Hend. pose proof (zlen_nonneg w).
    split; [split; cbn [p_stack p_source]; try done; [rewrite zlen_app; lia|unfold after, set_next; cbn [src_next]; rewrite zlen_cons; lia]|rewrite zlen_app, zlen_cons; lia]. }
  assert (Hbool : forall b, w <> [] -> loaded o base image (w ++ t') (Parsed (JBool b) t')
    ((on_stack (poke (fun m => set_type m index SXE_JITSON_TYPE_BOOL));; on_stack (poke (fun m => set_byte m index 0 (Z.b2z b)));; mret success) (mk_parser st (after s (zlen w))))).
  { intros b Hw. destruct (new_type_at o base index Hb st x SXE_JITSON_TYPE_BOOL Hh Hx) as (st2 & y & E2 & Hst2 & Hy). rewrite (on_stack_ret _ _ _ tt st2) by done.
    destruct (new_byte_at o base index Hb st2 _ y (Z.b2z b) Hst2 Hy) as (st3 & l & r & E3 & Hst3 & Hz & Hzr). rewrite (on_stack_ret _ _ _ tt st3) by done.
    left. eexists _, _. split; [reflexivity|]. split; [by apply bool_image|]. apply Hfin; [done|done|]. rewrite !zlen_app, zlen_cons, zlen_bytes32. lia. }
  destruct (bool_decide_reflect (w = FALSE)) as [Ew|]; [apply (Hbool false); by rewrite Ew|].
  destruct (bool_decide_reflect (w = NULL)) as [Ew|].
  { destruct (new_type_at o base index Hb st x SXE_JITSON_TYPE_NULL Hh Hx) as (st2 & y & E2 & Hst2 & Hy). rewrite (on_stack_ret _ _ _ tt st2) by done.
    left. eexists _, _. split; [reflexivity|]. split; [by apply null_image|]. apply Hfin; [by rewrite Ew|done|]. rewrite !zlen_app, zlen_bytes32. lia. }
  destruct (bool_decide_reflect (w = TRUE)) as [Ew|]; [apply (Hbool true); by rewrite Ew|].
  left. unfold load_constant, load_ident. unfold mbind at 1, cmd_bind at 1, gets at 1. cbn [p_source]. rewrite allows_strict by done.
  unfold mbind at 1, cmd_bind at 1, gets. cbn [p_source]. rewrite allows_strict by done.
  assert (failed o base EINVAL (fail index EINVAL (mk_parser st (after s (zlen w))))) by (by eapply failed_run).
  by destruct SXE_JITSON_TYPE_IDENT.
Qed.

(** A call whose failure discards the collection at [index]. *)
Lemma bind_loaded {A C} o base y index (img : A -> list (option Z)) (img' : C -> list (option Z)) t t0 r (f : A -> list Z -> parsed C)
    (m K : cmd parser result) p :
  zlen base = 16 * index -> loaded o (base ++ y) img t r (m p) ->
  (forall a t' p' x, r = Parsed a t' -> has_image (img a) x -> state_at o p' ((base ++ y) ++ x) t' -> zlen t' <= zlen t ->
    loaded o base img' t0 (f a t') (K p')) ->
  loaded o base img' t0 (bind_parsed r f) ((r ← m; match r with Some e => fail index e | None => K end) p).
Proof.
  intros Hb Hl HK.
  assert (Hfail : forall e, failed o (base ++ y) e (m p) -> failed o base e ((r ← m; match r with Some e => fail index e | None => K end) p)).
  { intros e (p' & E & Hh). rewrite (cmd_bind_ret _ _ _ _ _ E). by eapply failed_run. }
  destruct r as [a t'|e|]; cbn [bind_parsed loaded] in *; [| |done].
  - destruct Hl as [(p' & x & E & Hi & Hs & Hz)|[Hf Ho]]; [|apply loaded_nomem; auto]. rewrite (cmd_bind_ret _ _ _ _ _ E). by eapply HK.
  - destruct Hl as [Hf|[Hf Ho]]; auto.
Qed.

(** The text after spaces: its first character, or nothing. *)
Lemma nonspace_cases o p u t :
  state_at o p u t ->
  exists p', holds o (p_stack p') u /\
    (forall B (k : Z -> cmd parser B), (get_nonspace ≫= k) p = k (next_char (trim t)) p') /\
    forall c t', trim t = c :: t' -> c <> 0 /\ state_at o p' u t' /\ zlen t' + 1 <= zlen t.
Proof.
  intros Hs. destruct (get_nonspace_at o p u t Hs) as (p1 & Hs1 & _ & Hrun). eexists. split_and!; [|exact Hrun|].
  - exact (sa_holds _ _ _ _ Hs1).
  - intros c t' Et. rewrite Et in Hs1. split_and!; [by eapply next_nonzero|by eapply state_at_next|].
    pose proof (trim_length t) as Hl. rewrite Et in Hl. unfold zlen. simpl in Hl. lia.
Qed.

Lemma zlen_image {A} (img : list (option A)) (fit : option A -> A -> Prop) e : Forall2 fit img e -> zlen img = zlen e.
Proof. intros Hle%Forall2_length. unfold zlen. by rewrite Hle. Qed.

Section Collections.
Context (load : cmd parser result) (parse1 : list Z -> parsed json) (N : nat).
Hypothesis load_parses : forall o p base t, state_at o p base t -> (length t < N)%nat -> loaded o base image t (parse1 t) (load p).

(** The memory of a collection that is being read: [n] elements, of which [e] is the memory. *)
Definition partial (base : list Z) (ty n : Z) (z e : list Z) : list Z := base ++ bytes32 ty ++ bytes32 n ++ z ++ e.

Lemma partial_app base ty n z e x : partial base ty n z e ++ x = partial base ty n z (e ++ x).
Proof. unfold partial. by rewrite <-!(assoc_L (++)). Qed.

(** The end of a collection. *)
Lemma close_image o p base ty n z e t t0 index (elements : list (option Z)) {A} (img : A -> list (option Z)) a :
  state_at o p (partial base ty n z e) t -> zlen base = 16 * index -> zlen z = 8 -> has_image elements e -> zlen t <= zlen t0 ->
  img a = collection_image ty n elements ->
  loaded o base img t0 (Parsed a t) (close_loaded index p).
Proof.
  intros Hs Hb Hz He Ht Ha. unfold partial in Hs. pose proof (sa_room _ _ _ _ Hs) as Hr. pose proof (zlen_nonneg t).
  destruct (close_loaded_at o base index Hb p ty n z e (sa_holds _ _ _ _ Hs) Hz) as (st' & Hh & E).
  { pose proof (h_count _ _ _ (sa_holds _ _ _ _ Hs)). lia. }
  left. exists (mk_parser st' (p_source p)), (bytes32 ty ++ bytes32 n ++ bytes64 (1 + zlen e / 16) ++ e). split_and!; [done| | |done].
  - rewrite Ha. unfold collection_image. rewrite (zlen_image _ _ _ He). do 3 (apply Forall2_app; [apply given_image|]). done.
  - destruct Hs as [_ Hl Hf He' Hn _ Hend]. split; cbn [p_stack p_source]; try done. rewrite !zlen_app, !zlen_bytes32 in *. rewrite zlen_bytes64. lia.
Qed.

Lemma counted_at o p base ty n z e t index :
  state_at o p (partial base ty n z e) t -> zlen base = 16 * index -> 0 <= n < LIMIT ->
  exists p', state_at o p' (partial base ty (n + 1) z e) t /\ forall B (k : cmd parser B), (count_element index;; k) p = k p'.
Proof.
  intros Hs Hb Hn. destruct (count_element_at o base index Hb p ty n (z ++ e) (sa_holds _ _ _ _ Hs) Hn) as (st' & Hh & E).
  exists (mk_parser st' (p_source p)). split; [|done]. destruct Hs as [_ Hl Hf He' Hn' Hr Hend]. split; cbn [p_stack p_source]; try done.
  unfold partial in *. rewrite !zlen_app, !zlen_bytes32 in *. lia.
Qed.

Lemma load_elements_at o base index : zlen base = 16 * index -> forall fuel l z e t p,
  state_at o p (partial base SXE_JITSON_TYPE_ARRAY (zlen l) z e) t -> zlen z = 8 -> has_image (array_image l) e ->
  zlen l + zlen t < LIMIT -> (length t < fuel)%nat -> (length t < N)%nat ->
  loaded o base image t (parse_elements parse1 fuel l t) (load_elements load fuel index p).
Proof.
  intros Hb. induction fuel as [|fuel IH]; intros l z e t p Hs Hz He Hlim Hf HN; [lia|]. cbn [load_elements parse_elements].
  apply (bind_loaded o base (bytes32 SXE_JITSON_TYPE_ARRAY ++ bytes32 (zlen l) ++ z ++ e) index image image t); [done|by apply load_parses|].
  intros v t' p' x _ Hx Hs' Ht'. change ((base ++ bytes32 SXE_JITSON_TYPE_ARRAY ++ bytes32 (zlen l) ++ z ++ e)) with (partial base SXE_JITSON_TYPE_ARRAY (zlen l) z e) in Hs'.
  rewrite partial_app in Hs'. pose proof (zlen_nonneg l). pose proof (zlen_nonneg t).
  destruct (counted_at o p' _ _ _ _ _ _ _ Hs' Hb ltac:(lia)) as (p2 & Hs2 & E2). rewrite E2.
  assert (Hl1 : zlen (l ++ [v]) = zlen l + 1) by (by rewrite zlen_app). rewrite <-Hl1 in Hs2.
  assert (He' : has_image (array_image (l ++ [v])) (e ++ x)).
  { rewrite array_image_app. cbn [array_image]. rewrite app_nil_r. by apply Forall2_app. }
  destruct (nonspace_cases o p2 _ t' Hs2) as (p3 & Hh3 & Hrun & Hnext). rewrite Hrun.
  destruct (trim t') as [|c t''] eqn:Et; cbn [next_char].
  { left. by eapply failed_run. }
  destruct (Hnext c t'' eq_refl) as (Hc & Hs3 & Hlen). pose proof (zlen_nonneg t'').
  destruct (c =? 44).
  - apply (loaded_le o base image t''); [|lia]. apply (IH _ z (e ++ x)); [done..|lia|unfold zlen in *; lia|unfold zlen in *; lia].
  - destruct (c =? 93); [|left; by eapply failed_run].
    apply (close_image o p3 base SXE_JITSON_TYPE_ARRAY (zlen (l ++ [v])) z (e ++ x) t'' t index (array_image (l ++ [v]))); [done..|lia|]. apply image_array.
Qed.

Lemma load_members_at o base index : zlen base = 16 * index -> forall fuel l z e t c p,
  state_at o p (partial base SXE_JITSON_TYPE_OBJECT (zlen l) z e) t -> zlen z = 8 -> has_image (object_image l) e ->
  zlen l + zlen t + 1 < LIMIT -> (length t < fuel)%nat -> (length t < N)%nat ->
  zlen (partial base SXE_JITSON_TYPE_OBJECT (zlen l) z e) + 16 * (zlen t + 1) <= 16 * LIMIT ->
  loaded o base image t (parse_members parse1 (S fuel) l (c :: t)) (load_members load (S fuel) index c p).
Proof.
  intros Hb. induction fuel as [|fuel IH]; intros l z e t c p Hs Hz He Hlim Hf HN Hr; [lia|]. cbn [load_members]. cbn [parse_members].
  destruct (c =? 34); cbn [negb]; [|left; eapply failed_run; [exact (sa_holds _ _ _ _ Hs)|done]].
  apply (bind_loaded o base (bytes32 SXE_JITSON_TYPE_OBJECT ++ bytes32 (zlen l) ++ z ++ e) index (string_image key_type) image t); [done| |].
  { by apply (load_string_at o p (partial base SXE_JITSON_TYPE_OBJECT (zlen l) z e) t true). }
  intros k t' p' x _ Hx Hs' Ht'. change ((base ++ bytes32 SXE_JITSON_TYPE_OBJECT ++ bytes32 (zlen l) ++ z ++ e)) with (partial base SXE_JITSON_TYPE_OBJECT (zlen l) z e) in Hs'.
  rewrite partial_app in Hs'. pose proof (zlen_nonneg l). pose proof (zlen_nonneg t).
  destruct (nonspace_cases o p' _ t' Hs') as (p1 & Hh1 & Hrun1 & Hnext1). rewrite Hrun1.
  destruct (trim t') as [|c1 t1] eqn:Et1; cbn [next_char]; [left; by eapply failed_run|].
  destruct (Hnext1 c1 t1 eq_refl) as (Hc1 & Hs1 & Hlen1). destruct (c1 =? 58); cbn [negb]; [|left; by eapply failed_run].
  apply (bind_loaded o base (bytes32 SXE_JITSON_TYPE_OBJECT ++ bytes32 (zlen l) ++ z ++ e ++ x) index image image t1); [done| |].
  { apply (load_parses o p1); [done|unfold zlen in *; lia]. }
  intros v t2 p2 y _ Hy Hs2 Ht2. change ((base ++ bytes32 SXE_JITSON_TYPE_OBJECT ++ bytes32 (zlen l) ++ z ++ e ++ x)) with (partial base SXE_JITSON_TYPE_OBJECT (zlen l) z (e ++ x)) in Hs2.
  rewrite partial_app in Hs2. destruct (counted_at o p2 _ _ _ _ _ _ _ Hs2 Hb ltac:(lia)) as (p3 & Hs3 & E3). rewrite E3.
  assert (Hl1 : zlen (l ++ [(k, v)]) = zlen l + 1) by (by rewrite zlen_app). rewrite <-Hl1 in Hs3.
  assert (He' : has_image (object_image (l ++ [(k, v)])) ((e ++ x) ++ y)).
  { rewrite object_image_app. cbn [object_image]. rewrite app_nil_r, <-(assoc_L (++) e). repeat apply Forall2_app; done. }
  destruct (nonspace_cases o p3 _ t2 Hs3) as (p4 & Hh4 & Hrun4 & Hnext4). rewrite Hrun4.
  destruct (trim t2) as [|c2 t3] eqn:Et2; cbn [next_char]; [left; by eapply failed_run|].
  destruct (Hnext4 c2 t3 eq_refl) as (Hc2 & Hs4 & Hlen4). pose proof (zlen_nonneg t3). destruct (c2 =? 44).
  - destruct (nonspace_cases o p4 _ t3 Hs4) as (p5 & Hh5 & Hrun5 & Hnext5). rewrite Hrun5.
    destruct (trim t3) as [|c3 t4] eqn:Et3; cbn [next_char]; [left; by eapply failed_run|].
    destruct (Hnext5 c3 t4 eq_refl) as (Hc3 & Hs5 & Hlen5). rewrite (proj2 (Z.eqb_neq c3 0)) by done. pose proof (zlen_nonneg t4).
    destruct fuel as [|fuel]; [unfold zlen in *; lia|]. pose proof (sa_room _ _ _ _ Hs4).
    apply (loaded_le o base image t4); [|lia]. apply (IH _ z ((e ++ x) ++ y)); [done..|lia|unfold zlen in *; lia|unfold zlen in *; lia|lia].
  - destruct (c2 =? 125); [|left; by eapply failed_run].
    apply (close_image o p4 base SXE_JITSON_TYPE_OBJECT (zlen (l ++ [(k, v)])) z ((e ++ x) ++ y) t3 t index (object_image (l ++ [(k, v)]))); [done..|lia|]. apply image_object.
Qed.
End Collections.

Lemma loaded_map {A C} o base (img : A -> list (option Z)) (img' : C -> list (option Z)) (f : A -> C) t r out :
  loaded o base img t r out -> (forall a, img' (f a) = img a) -> loaded o base img' t (bind_parsed r (fun a t => Parsed (f a) t)) out.
Proof. intros Hl Hi. destruct r as [a t'|e|]; cbn [loaded bind_parsed] in *; [|done..]. by rewrite Hi. Qed.

(** The header of a collection that is about to be read. *)
Lemma open_loaded_at o base index ty st x s : zlen base = 16 * index -> holds o st (base ++ x) -> zlen x = 16 ->
  exists st' z, holds o st' (partial base ty 0 z []) /\ zlen z = 8 /\
    forall (k : cmd parser result), (on_stack (poke (fun m => set_type m index ty));; on_stack (poke (fun m => set_len m index 0));; k) (mk_parser st s) = k (mk_parser st' s).
Proof.
  intros Hb Hh Hx. destruct (new_type_at o base index Hb st x ty Hh Hx) as (st2 & y & E2 & Hst2 & Hy).
  destruct (new_len_at o base index Hb st2 _ y 0 Hst2 Hy) as (st3 & z & E3 & Hst3 & Hz).
  exists st3, z. unfold partial. rewrite app_nil_r. split_and!; [done|done|]. intros k.
  rewrite (on_stack_ret _ _ (mk_parser st s) tt st2) by done. by rewrite (on_stack_ret _ _ _ tt st3) by done.
Qed.

(** An empty collection. *)
Lemma empty_image o p base ty z t t0 index a :
  state_at o p (partial base ty 0 z []) t -> zlen base = 16 * index -> zlen z = 8 -> zlen t <= zlen t0 -> image a = collection_image ty 0 [] ->
  loaded o base image t0 (Parsed a t) ((on_stack (poke (fun m => set_integer m index 1));; mret success) p).
Proof.
  intros Hs Hb Hz Ht Ha. unfold partial in Hs. rewrite app_nil_r in Hs.
  destruct (poke_holds o (p_stack p) _ (base ++ bytes32 ty ++ bytes32 0 ++ bytes64 1) (fun m => set_integer m index 1) (sa_holds _ _ _ _ Hs)) as (st' & E & Hh).
  { apply (base_pos base index Hb). rewrite !zlen_app, !zlen_bytes32. lia. }
  { intros junk. pose proof (set_integer_app base (bytes32 ty) (bytes32 0) z [] junk index 1) as E. rewrite !app_nil_r in E. by apply E. }
  { by rewrite !zlen_app, !zlen_bytes32, zlen_bytes64, Hz. }
  rewrite (on_stack_ret _ _ _ tt st') by done. left. exists (mk_parser st' (p_source p)), (bytes32 ty ++ bytes32 0 ++ bytes64 1). split_and!; [done| | |done].
  - rewrite Ha. unfold collection_image. rewrite app_nil_r. do 2 (apply Forall2_app; [apply given_image|]). apply given_image.
  - destruct Hs as [_ Hl Hf He' Hn Hr Hend]. split; cbn [p_stack p_source]; try done. rewrite !zlen_app, !zlen_bytes32 in *. rewrite zlen_bytes64. lia.
Qed.

Section Collection.
Context (fuel : nat).
Hypothesis load_parses : forall o p base t, state_at o p base t -> (length t < fuel)%nat -> loaded o base image t (parse_json double fuel t) (sxe_jitson_stack_load_json fuel p).

(** A value that starts behind [c], for which a token was added. *)
Lemma load_object_at o base index st x s t c :
  zlen base = 16 * index -> holds o st (base ++ x) -> zlen x = 16 -> state_at o (mk_parser st s) (base ++ x) t ->
  (length (c :: t) < S fuel)%nat ->
  loaded o base image (c :: t)
    (if next_char (trim t) =? 125 then Parsed (JObject []) (tail (trim t)) else parse_members (parse_json double fuel) fuel [] (trim t))
    (load_object (sxe_jitson_stack_load_json fuel) fuel index (mk_parser st s)).
Proof.
  intros Hb Hh Hx Hs Hf. destruct (open_loaded_at o base index SXE_JITSON_TYPE_OBJECT st x s Hb Hh Hx) as (st' & z & Hh' & Hz & E).
  unfold load_object. rewrite E. pose proof (zlen_nonneg base).
  assert (Hzp : zlen (partial base SXE_JITSON_TYPE_OBJECT 0 z []) = zlen base + 16).
  { unfold partial. rewrite !zlen_app, !zlen_bytes32. change (zlen (@nil Z)) with 0. lia. }
  assert (Hs' : state_at o (mk_parser st' s) (partial base SXE_JITSON_TYPE_OBJECT 0 z []) t).
  { destruct Hs as [_ Hl Hfl He Hn Hr Hend]. split; cbn [p_stack p_source] in *; try done. rewrite Hzp. rewrite zlen_app in Hr. lia. }
  destruct (nonspace_cases o _ _ t Hs') as (p1 & Hh1 & Hrun & Hnext). rewrite Hrun.
  destruct (trim t) as [|c1 t1] eqn:Et; cbn [next_char tail].
  { change (0 =? 125) with false. cbn iota. destruct fuel as [|fuel']; [simpl in Hf; lia|]. left. by eapply failed_run. }
  destruct (Hnext c1 t1 eq_refl) as (Hc1 & Hs1 & Hlen). pose proof (sa_room _ _ _ _ Hs') as Hr. pose proof (zlen_nonneg t1). destruct (c1 =? 125).
  - apply (empty_image o p1 base SXE_JITSON_TYPE_OBJECT z); [done..|rewrite zlen_cons; lia|done].
  - destruct fuel as [|[|fuel']]; [unfold zlen in *; simpl in *; lia..|].
    apply (loaded_le o base image t1); [|rewrite zlen_cons; lia].
    apply (load_members_at _ _ _ load_parses o base index Hb _ [] z []); [done|done|constructor|change (zlen (@nil (list Z * json))) with 0; unfold LIMIT in *; lia|unfold zlen in *; simpl in *; lia..|].
    change (zlen (@nil (list Z * json))) with 0. lia.
Qed.

Lemma load_array_at o base index st x s t c :
  zlen base = 16 * index -> holds o st (base ++ x) -> zlen x = 16 -> state_at o (mk_parser st s) (base ++ x) t ->
  (length (c :: t) < S fuel)%nat ->
  loaded o base image (c :: t)
    (if next_char (trim t) =? 93 then Parsed (JArray []) (tail (trim t)) else parse_elements (parse_json double fuel) fuel [] (trim t))
    (load_array (sxe_jitson_stack_load_json fuel) fuel index (mk_parser st s)).
Proof.
  intros Hb Hh Hx Hs Hf. destruct (open_loaded_at o base index SXE_JITSON_TYPE_ARRAY st x s Hb Hh Hx) as (st' & z & Hh' & Hz & E).
  unfold load_array. rewrite E. pose proof (zlen_nonneg base).
  assert (Hzp : zlen (partial base SXE_JITSON_TYPE_ARRAY 0 z []) = zlen base + 16).
  { unfold partial. rewrite !zlen_app, !zlen_bytes32. change (zlen (@nil Z)) with 0. lia. }
  assert (Hs' : state_at o (mk_parser st' s) (partial base SXE_JITSON_TYPE_ARRAY 0 z []) t).
  { destruct Hs as [_ Hl Hfl He Hn Hr Hend]. split; cbn [p_stack p_source] in *; try done. rewrite Hzp. rewrite zlen_app in Hr. lia. }
  destruct (get_nonspace_at o _ _ t Hs') as (p1 & Hs1 & _ & Hrun). rewrite Hrun. pose proof (trim_length t) as Htl. pose proof (sa_room _ _ _ _ Hs') as Hr.
  destruct (next_char (trim t) =? 93) eqn:E93.
  - destruct (trim t) as [|c1 t1] eqn:Et; [done|]. cbn [tail]. apply (empty_image o _ base SXE_JITSON_TYPE_ARRAY z); [by eapply state_at_next|done..| |done].
    rewrite zlen_cons. unfold zlen in *. simpl in *. lia.
  - rewrite (push_char_at o p1 _ _ Hs1). apply (loaded_le o base image (trim t)); [|rewrite zlen_cons; unfold zlen in *; lia].
    apply (load_elements_at _ _ _ load_parses o base index Hb _ [] z []); [done|done|constructor|change (zlen (@nil json)) with 0|simpl in Hf; lia..].
    pose proof (sa_room _ _ _ _ Hs1). unfold LIMIT in *. lia.
Qed.
End Collection.

(** The parser refines the reference parser. *)
Lemma load_json_at fuel : forall o p base t,
  state_at o p base t -> (length t < fuel)%nat -> loaded o base image t (parse_json double fuel t) (sxe_jitson_stack_load_json fuel p).
Proof.
  induction fuel as [|fuel IH]; intros o p base t Hs Hf; [lia|]. cbn [sxe_jitson_stack_load_json parse_json].
  destruct (get_nonspace_at o p base t Hs) as (p1 & Hs1 & _ & Hrun). rewrite Hrun. clear Hrun. pose proof (trim_length t) as Htl.
  destruct (trim t) as [|c t']; cbn [next_char].
  { change (0 =? 0) with true. cbn iota. left. eexists. split; [reflexivity|]. exact (sa_holds _ _ _ _ Hs1). }
  pose proof (next_nonzero _ _ _ _ _ Hs1) as Hc. rewrite (proj2 (Z.eqb_neq c 0)) by done. pose proof (sa_room _ _ _ _ Hs1) as Hr. rewrite zlen_cons in Hr.
  apply (loaded_le o base image (c :: t')); [|unfold zlen; lia]. pose proof (zlen_nonneg t'). pose proof (zlen_nonneg base). assert (LIMIT < 4294967296) by done.
  pose proof (sa_holds _ _ _ _ Hs1) as Hh. pose proof (h_count _ _ _ Hh) as Hb. set (index := count (p_stack p1)) in *.
  destruct (expand_holds o (p_stack p1) base 1 Hh) as [(st1 & x & E1 & Hst1 & Hx & _)|[E1 Hoom]]; [lia..| |].
  2: { rewrite (on_stack_ret _ _ (moved p1 _) _ _ E1), Z.eqb_refl. apply loaded_nomem; [|done]. eexists. split; [reflexivity|]. done. }
  rewrite (on_stack_ret _ _ (moved p1 _) _ _ E1). fold index. rewrite (proj2 (Z.eqb_neq index SXE_JITSON_STACK_ERROR)) by (unfold SXE_JITSON_STACK_ERROR; lia).
  cbn [p_source moved]. destruct Hs1 as [_ Hl Hfl He Hn _ Hend].
  assert (Hs2 : state_at o (mk_parser st1 (advance (p_source p1))) (base ++ x) t').
  { clear IH. apply Forall_cons in Hn as [_ Hn]. rewrite zlen_cons in Hend. split; cbn [p_stack p_source]; try done; [by eapply left_advance|rewrite zlen_app; lia|cbn; lia]. }
  destruct (jitson_class c); try (left; by eapply failed_run).
  - apply load_number_at with (x := x); try done. rewrite zlen_cons. lia.
  - apply load_word_at with (x := x); try done. rewrite zlen_cons. lia.
  - rewrite (on_stack_ret _ _ _ tt (set_count st1 (count st1 - 1))) by done. cbn [p_source p_stack].
    assert (Hcount : count st1 - 1 = index) by (pose proof (h_count _ _ _ Hst1) as Hc1; rewrite zlen_app in Hc1; lia).
    apply (loaded_le o base image t'); [|rewrite zlen_cons; lia]. apply loaded_map with (img := string_image (string_type false)); [|done].
    apply load_string_at; [|lia]. destruct Hs2 as [_ Hl2 Hfl2 He2 Hn2 _ Hend2]. split; cbn [p_stack p_source] in *; try done; [|lia].
    rewrite Hcount. by eapply set_count_holds.
  - apply load_number_at with (x := x); try done. rewrite zlen_cons. lia.
  - apply load_array_at with (x := x); [done..|simpl in *; lia].
  - apply load_object_at with (x := x); [done..|simpl in *; lia].
Qed.
End Parts.
