(* ===== verification/JitsonGrammar.v ===== *)
(** * JitsonGrammar: the JSON texts, and that the parser accepts these

    The grammar gives the texts of a value; the reference parser of JitsonParse.v accepts
    exactly the texts of the grammar, and so does sxe_jitson_stack_parse_json. *)

From S2P Require Import Prelude CString JitsonSource JitsonToken JitsonStack JitsonParse.

Definition spaces (w : list Z) : Prop := Forall (fun c => isspace c = true) w.

(** The text of a character of a string, and the bytes it stands for. *)
Inductive item_text : list Z -> list Z -> Prop :=
| it_char c : c <> 34 -> c <> 92 -> item_text [c] [c]
| it_escape e b : escaped e = Some b -> item_text [b] [92; e]
| it_unicode d3 d2 d1 d0 v3 v2 v1 v0 :
    hex_value d3 = Some v3 -> hex_value d2 = Some v2 -> hex_value d1 = Some v1 -> hex_value d0 = Some v0 ->
    item_text (sxe_unicode_to_utf8 (4096 * v3 + 256 * v2 + 16 * v1 + v0)) [92; 117; d3; d2; d1; d0].

(** The text behind a string that starts with [s] and is [s'] in the end, up to its closing
    quote. Every escape is clear of the tokens' edges. *)
Inductive string_text (s : list Z) : list Z -> list Z -> Prop :=
| st_end : string_text s s []
| st_item b t s' u : item_text b t -> edge_ok (zlen s) (zlen b) = true -> string_text (s ++ b) s' u -> string_text s s' (t ++ u).

Definition quoted (t : list Z) : list Z := 34 :: t ++ [34].

Section Grammar.
Variable double : number -> Z.

(** The texts of a value, of the elements of an array and of the members of an object. *)
Inductive value_text : json -> list Z -> Prop :=
| vt_null : value_text JNull NULL
| vt_true : value_text (JBool true) TRUE
| vt_false : value_text (JBool false) FALSE
| vt_number n : number_ok n -> value_text (number_value double n) (print_number n)
| vt_string s t : string_text [] s t -> value_text (JString s) (quoted t)
| vt_array_empty w : spaces w -> value_text (JArray []) (91 :: w ++ [93])
| vt_array l t : elements_text l t -> value_text (JArray l) (91 :: t ++ [93])
| vt_object_empty w : spaces w -> value_text (JObject []) (123 :: w ++ [125])
| vt_object l t : members_text l t -> value_text (JObject l) (123 :: t ++ [125])
with elements_text : list json -> list Z -> Prop :=
| et_last w1 v t w2 : spaces w1 -> value_text v t -> spaces w2 -> elements_text [v] (w1 ++ t ++ w2)
| et_more w1 v t w2 l u : spaces w1 -> value_text v t -> spaces w2 -> elements_text l u -> elements_text (v :: l) (w1 ++ t ++ w2 ++ 44 :: u)
with members_text : list (list Z * json) -> list Z -> Prop :=
| mt_last w1 k tk w2 w3 v t w4 : spaces w1 -> string_text [] k tk -> spaces w2 -> spaces w3 -> value_text v t -> spaces w4 ->
    members_text [(k, v)] (w1 ++ quoted tk ++ w2 ++ 58 :: w3 ++ t ++ w4)
| mt_more w1 k tk w2 w3 v t w4 l u : spaces w1 -> string_text [] k tk -> spaces w2 -> spaces w3 -> value_text v t -> spaces w4 -> members_text l u ->
    members_text ((k, v) :: l) (w1 ++ quoted tk ++ w2 ++ 58 :: w3 ++ t ++ w4 ++ 44 :: u).

Scheme value_text_ind' := Minimality for value_text Sort Prop
  with elements_text_ind' := Minimality for elements_text Sort Prop
  with members_text_ind' := Minimality for members_text Sort Prop.
Combined Scheme text_ind from value_text_ind', elements_text_ind', members_text_ind'.

(** ** Every text of the grammar is parsed *)

(** What follows does not continue a number or a word. *)
Definition closed (rest : list Z) : Prop := is_identifier_char (next_char rest) = false.

Lemma trim_spaces w t : spaces w -> isspace (next_char t) = false -> trim (w ++ t) = t.
Proof. intros Hw Ht. apply (class_app isspace w t Hw Ht). Qed.

Lemma trim_app w t : spaces w -> trim (w ++ t) = trim t.
Proof. intros Hw. unfold trim. induction Hw as [|c w Hc Hw IH]; [done|]. cbn [app drop_class]. by rewrite Hc. Qed.

Lemma identifier_range c : (48 <= c <= 57) \/ c = 46 \/ c = 69 \/ c = 101 \/ c = 88 \/ c = 120 -> is_identifier_char c = true.
Proof.
  intros [Hc|[->|[->|[->|[->| ->]]]]]; try reflexivity.
  assert (c = 48 \/ c = 49 \/ c = 50 \/ c = 51 \/ c = 52 \/ c = 53 \/ c = 54 \/ c = 55 \/ c = 56 \/ c = 57) as Hd by lia.
  by repeat destruct Hd as [->|Hd]; [reflexivity..|rewrite Hd].
Qed.

Lemma closed_number n rest : closed rest -> number_ends n rest /\ hex_like n rest = false.
Proof.
  unfold closed, number_ends, hex_like. set (c := next_char rest). intros Hc.
  assert (Hno : forall d, is_identifier_char d = true -> c <> d) by (intros d Hd ->; by rewrite Hc in Hd).
  pose proof (Hno 46 eq_refl). pose proof (Hno 69 eq_refl). pose proof (Hno 101 eq_refl). pose proof (Hno 88 eq_refl). pose proof (Hno 120 eq_refl).
  split_and!.
  - destruct (isdigit c) eqn:Ed; [|done]. unfold isdigit in Ed. rewrite identifier_range in Hc by lia. done.
  - intros _. unfold is_e. lia.
  - done.
  - replace ((c =? 120) || (c =? 88)) with false by lia. apply andb_false_r.
Qed.

(** The characters that a value does not start with. *)
Lemma space_closed w t : spaces w -> closed t -> closed (w ++ t).
Proof.
  intros Hw Ht. destruct Hw as [|c w Hc _]; [done|]. unfold closed. cbn [app next_char].
  assert (c = 32 \/ 9 <= c <= 13) as Hr by (unfold isspace in Hc; lia).
  assert (c = 32 \/ c = 9 \/ c = 10 \/ c = 11 \/ c = 12 \/ c = 13) as Hd by lia. clear Hr Hc. by repeat destruct Hd as [->|Hd]; [reflexivity..|rewrite Hd].
Qed.

Lemma parse_item b t u : item_text b t -> parse_bytes (t ++ u) = Some (b, u).
Proof.
  intros [c H34 H92|e b' He|d3 d2 d1 d0 v3 v2 v1 v0 E3 E2 E1 E0]; cbn [app parse_bytes].
  - by rewrite (proj2 (Z.eqb_neq c 92)).
  - change (92 =? 92) with true. cbn iota. by rewrite He.
  - change (92 =? 92) with true. change (escaped 117) with (@None Z). change (117 =? 117) with true. cbn iota. cbn [parse_unicode].
    rewrite E3, E2, E1, E0. cbn [mbind option_bind]. do 3 f_equal. lia.
Qed.

Lemma item_nonempty b t : item_text b t -> exists c t', t = c :: t' /\ c <> 34.
Proof. intros [c H34 H92|e b' He|d3 d2 d1 d0 v3 v2 v1 v0 E3 E2 E1 E0]; eexists _, _; (split; [reflexivity|done]). Qed.

Lemma parse_string_text s s' t : string_text s s' t -> forall fuel rest, (length (t ++ 34%Z :: rest) <= fuel)%nat ->
  parse_string fuel s (t ++ 34 :: rest) = Parsed s' rest.
Proof.
  intros Ht. induction Ht as [s|s b t s' u Hi He Hu IH]; intros fuel rest Hf.
  - destruct fuel as [|fuel]; [simpl in Hf; lia|]. cbn [app parse_string]. by rewrite Z.eqb_refl.
  - destruct (item_nonempty b t Hi) as (c & t' & -> & Hc). pose proof (parse_item _ _ (u ++ 34 :: rest) Hi) as E.
    destruct fuel as [|fuel]; [simpl in Hf; lia|]. rewrite <-(assoc_L (++)). cbn [app parse_string] in *.
    rewrite (proj2 (Z.eqb_neq c 34)) by done. rewrite E, He. apply IH. simpl in Hf. rewrite !length_app in Hf. rewrite length_app. simpl in Hf |- *. lia.
Qed.

Lemma digit_class c : isdigit c = true -> jitson_class c = DIG /\ isspace c = false /\ c <> 93.
Proof.
  intros Hc. unfold isdigit in Hc. unfold jitson_class, isspace.
  rewrite (proj2 (Z.eqb_neq c 34)), (proj2 (Z.eqb_neq c 45)), (proj2 (Z.eqb_neq c 91)), (proj2 (Z.eqb_neq c 123)) by lia.
  replace ((c =? 40) || (c =? 41) || (c =? 93) || (c =? 125)) with false by lia. replace ((c =? 39) || (c =? 96)) with false by lia.
  unfold isdigit in Hc. rewrite Hc. split_and!; [done|lia..].
Qed.

Lemma number_first n : number_ok n -> exists c t, print_number n = c :: t /\ (jitson_class c = MINUS \/ jitson_class c = DIG) /\ isspace c = false /\ c <> 93.
Proof.
  intros Hok. unfold print_number. destruct (n_minus n); cbn [app].
  - eexists _, _. split_and!; [reflexivity|by left|done|done].
  - destruct (no_digits _ Hok) as [Hd Hall]. destruct (n_digits n) as [|c d]; [done|]. apply Forall_cons in Hall as [Hc _].
    apply digit_class in Hc as (? & ? & ?). eexists _, _. split_and!; [reflexivity|by right|done|done].
Qed.

Lemma value_first v t : value_text v t -> exists c t', t = c :: t' /\ isspace c = false /\ c <> 93.
Proof.
  intros Hv. destruct Hv as [| | |n Hn| | | | |]; try (eexists _, _; split_and!; [reflexivity|done|done]).
  destruct (number_first n Hn) as (c & t' & E & _ & Hs & Hc). eexists _, _. split_and!; [exact E|done|done].
Qed.

Lemma parse_json_trim fuel t : parse_json double fuel (trim t) = parse_json double fuel t.
Proof. destruct fuel; [done|]. cbn [parse_json]. by rewrite trim_idem. Qed.

Lemma parse_elements_trim fuel fuel' l t : parse_elements (parse_json double fuel') fuel l (trim t) = parse_elements (parse_json double fuel') fuel l t.
Proof. destruct fuel; [done|]. cbn [parse_elements]. by rewrite parse_json_trim. Qed.

(** A value behind spaces, by its first character. *)
Lemma parse_json_first fuel w c t : spaces w -> isspace c = false ->
  parse_json double (S fuel) (w ++ c :: t) =
    match jitson_class c with
    | QUOTE => bind_parsed (parse_string (S (length t)) [] t) (fun s t => Parsed (JString s) t)
    | BRACE => if next_char (trim t) =? 125 then Parsed (JObject []) (tail (trim t)) else parse_members (parse_json double fuel) fuel [] (trim t)
    | BRACKET => if next_char (trim t) =? 93 then Parsed (JArray []) (tail (trim t)) else parse_elements (parse_json double fuel) fuel [] (trim t)
    | MINUS | DIG => parse_number double (c :: t)
    | ALP => parse_word (c :: t)
    | _ => Invalid EINVAL
    end.
Proof. intros Hw Hc. cbn [parse_json]. by rewrite trim_spaces. Qed.

Lemma parse_word_text w rest : Forall (fun c => is_identifier_char c = true) w -> closed rest ->
  parse_word (w ++ rest) = if bool_decide (w = FALSE) then Parsed (JBool false) rest else if bool_decide (w = NULL) then Parsed JNull rest
    else if bool_decide (w = TRUE) then Parsed (JBool true) rest else Invalid EINVAL.
Proof. intros Hw Hr. unfold parse_word. by destruct (class_app is_identifier_char w rest Hw Hr) as [-> ->]. Qed.

Lemma parse_number_text n rest : number_ok n -> closed rest -> parse_number double (print_number n ++ rest) = Parsed (number_value double n) rest.
Proof.
  intros Hn Hr. destruct (closed_number n rest Hr) as [He Hx]. unfold parse_number.
  assert (scan_number (print_number n ++ rest) = Some (n, rest)) as -> by (by apply scan_number_iff). by rewrite Hx, andb_false_r.
Qed.

Lemma closed_bracket t : closed (93 :: t). Proof. done. Qed.
Lemma closed_brace t : closed (125 :: t). Proof. done. Qed.
Lemma closed_comma t : closed (44 :: t). Proof. done. Qed.
#[local] Hint Resolve closed_bracket closed_brace closed_comma space_closed : core.

(** The text is parsed to the value, the elements and the members. *)
Definition value_parses (v : json) (t : list Z) : Prop := forall fuel w rest,
  spaces w -> closed rest -> (length (w ++ t ++ rest) < fuel)%nat -> parse_json double fuel (w ++ t ++ rest) = Parsed v rest.
Definition elements_parse (l : list json) (t : list Z) : Prop := forall fuel fuel' acc rest,
  (length (t ++ 93%Z :: rest) < fuel)%nat -> (length (t ++ 93%Z :: rest) < fuel')%nat ->
  parse_elements (parse_json double fuel') fuel acc (t ++ 93 :: rest) = Parsed (JArray (acc ++ l)) rest.
Definition members_parse (l : list (list Z * json)) (t : list Z) : Prop := forall fuel fuel' acc rest,
  (length (t ++ 125%Z :: rest) < fuel)%nat -> (length (t ++ 125%Z :: rest) < fuel')%nat ->
  parse_members (parse_json double fuel') fuel acc (trim (t ++ 125 :: rest)) = Parsed (JObject (acc ++ l)) rest.

Ltac lengths := repeat (rewrite length_app in * || cbn [length] in * ); lia.

(** One element, and what follows it. *)
Lemma parse_element v t w1 w2 c fuel fuel' acc u :
  value_parses v t -> spaces w1 -> spaces w2 -> isspace c = false -> closed (c :: u) ->
  (length (w1 ++ t ++ w2 ++ c :: u) < fuel')%nat ->
  parse_elements (parse_json double fuel') (S fuel) acc (w1 ++ t ++ w2 ++ c :: u) =
    if c =? 44 then parse_elements (parse_json double fuel') fuel (acc ++ [v]) u
    else if c =? 93 then Parsed (JArray (acc ++ [v])) u else Invalid EINVAL.
Proof.
  intros Hv Hw1 Hw2 Hc Hcl Hf. cbn [parse_elements]. rewrite (Hv fuel' w1 (w2 ++ c :: u)) by auto. cbn [bind_parsed]. by rewrite trim_spaces.
Qed.

Lemma elements_parse_last w1 v t w2 : spaces w1 -> value_parses v t -> spaces w2 -> elements_parse [v] (w1 ++ t ++ w2).
Proof.
  intros Hw1 Hv Hw2 fuel fuel' acc rest Hf Hf'. destruct fuel as [|fuel]; [lia|]. rewrite <-!(assoc_L (++)) in *.
  by rewrite (parse_element v t w1 w2 93) by auto.
Qed.

Lemma elements_parse_more w1 v t w2 l u :
  spaces w1 -> value_parses v t -> spaces w2 -> elements_parse l u -> elements_parse (v :: l) (w1 ++ t ++ w2 ++ 44 :: u).
Proof.
  intros Hw1 Hv Hw2 Hl fuel fuel' acc rest Hf Hf'. destruct fuel as [|fuel]; [lia|]. rewrite <-!(assoc_L (++)) in *. rewrite <-app_comm_cons in *.
  rewrite (parse_element v t w1 w2 44) by auto. change (44 =? 44) with true. cbn iota. rewrite Hl; [by rewrite <-(assoc_L (++))|lengths..].
Qed.

(** One member, and what follows it. *)
Lemma parse_member k tk v t w1 w2 w3 w4 c fuel fuel' acc u :
  string_text [] k tk -> value_parses v t -> spaces w1 -> spaces w2 -> spaces w3 -> spaces w4 -> isspace c = false -> closed (c :: u) ->
  (length (w1 ++ quoted tk ++ w2 ++ 58%Z :: w3 ++ t ++ w4 ++ c :: u) < fuel')%nat ->
  parse_members (parse_json double fuel') (S fuel) acc (trim (w1 ++ quoted tk ++ w2 ++ 58 :: w3 ++ t ++ w4 ++ c :: u)) =
    if c =? 44 then parse_members (parse_json double fuel') fuel (acc ++ [(k, v)]) (trim u)
    else if c =? 125 then Parsed (JObject (acc ++ [(k, v)])) u else Invalid EINVAL.
Proof.
  intros Hk Hv Hw1 Hw2 Hw3 Hw4 Hc Hcl Hf. unfold quoted in *. rewrite trim_spaces by done. cbn [app]. cbn [parse_members].
  change (34 =? 34) with true. cbn iota. rewrite <-(assoc_L (++)). cbn [app]. rewrite (parse_string_text [] k tk Hk) by lia. cbn [bind_parsed].
  rewrite trim_spaces by done. change (58 =? 58) with true. cbn iota. rewrite (Hv fuel' w3 (w4 ++ c :: u)); [|done|auto|lengths]. cbn [bind_parsed]. by rewrite trim_spaces.
Qed.

Lemma members_parse_last k tk v t w1 w2 w3 w4 :
  string_text [] k tk -> value_parses v t -> spaces w1 -> spaces w2 -> spaces w3 -> spaces w4 ->
  members_parse [(k, v)] (w1 ++ quoted tk ++ w2 ++ 58 :: w3 ++ t ++ w4).
Proof.
  intros Hk Hv Hw1 Hw2 Hw3 Hw4 fuel fuel' acc rest Hf Hf'. destruct fuel as [|fuel]; [lia|].
  rewrite <-!(assoc_L (++)), <-!app_comm_cons, <-!(assoc_L (++)) in *. by rewrite (parse_member k tk v t w1 w2 w3 w4 125) by auto.
Qed.

Lemma members_parse_more k tk v t w1 w2 w3 w4 l u :
  string_text [] k tk -> value_parses v t -> spaces w1 -> spaces w2 -> spaces w3 -> spaces w4 -> members_parse l u ->
  members_parse ((k, v) :: l) (w1 ++ quoted tk ++ w2 ++ 58 :: w3 ++ t ++ w4 ++ 44 :: u).
Proof.
  intros Hk Hv Hw1 Hw2 Hw3 Hw4 Hl fuel fuel' acc rest Hf Hf'. destruct fuel as [|fuel]; [lia|].
  rewrite <-!(assoc_L (++)), <-!app_comm_cons, <-!(assoc_L (++)), <-!app_comm_cons in *. rewrite (parse_member k tk v t w1 w2 w3 w4 44) by auto.
  change (44 =? 44) with true. cbn iota. rewrite Hl; [by rewrite <-(assoc_L (++))|lengths..].
Qed.

(** The first character of elements and of members. *)
Lemma elements_first l t rest : elements_text l t -> exists c u, trim (t ++ rest) = c :: u /\ c <> 93.
Proof.
  intros [w1 v t1 w2 Hw1 Hv Hw2|w1 v t1 w2 l' u Hw1 Hv Hw2 Hl]; destruct (value_first v t1 Hv) as (c & t' & -> & Hs & Hc);
    rewrite <-!(assoc_L (++)), trim_spaces by done; eexists _, _; (split; [reflexivity|done]).
Qed.

Lemma members_first l t rest : members_text l t -> exists u, trim (t ++ rest) = 34 :: u.
Proof.
  intros [w1 k tk w2 w3 v t1 w4 Hw1 Hk Hw2 Hw3 Hv Hw4|w1 k tk w2 w3 v t1 w4 l' u Hw1 Hk Hw2 Hw3 Hv Hw4 Hl];
    rewrite <-!(assoc_L (++)); unfold quoted; rewrite trim_spaces by done; eexists; reflexivity.
Qed.

Lemma array_parses l t : elements_text l t -> elements_parse l t -> value_parses (JArray l) (91 :: t ++ [93]).
Proof.
  intros Hl Hp fuel w rest Hw Hr Hf. destruct fuel as [|fuel]; [lia|]. cbn [app] in *. rewrite parse_json_first by done. change (jitson_class 91) with BRACKET. cbn iota.
  rewrite <-(assoc_L (++)) in *. cbn [app] in *. destruct (elements_first l t (93 :: rest) Hl) as (c & u & E & Hc). rewrite E. cbn [next_char].
  rewrite (proj2 (Z.eqb_neq c 93)) by done. rewrite <-E, parse_elements_trim. apply (Hp fuel fuel []); lengths.
Qed.

Lemma object_parses l t : members_text l t -> members_parse l t -> value_parses (JObject l) (123 :: t ++ [125]).
Proof.
  intros Hl Hp fuel w rest Hw Hr Hf. destruct fuel as [|fuel]; [lia|]. cbn [app] in *. rewrite parse_json_first by done. change (jitson_class 123) with BRACE. cbn iota.
  rewrite <-(assoc_L (++)) in *. cbn [app] in *. destruct (members_first l t (125 :: rest) Hl) as (u & E). rewrite E. cbn [next_char].
  change (34 =? 125) with false. cbn iota. rewrite <-E. apply (Hp fuel fuel []); lengths.
Qed.

Lemma empty_collection_parses v w (o c : Z) (k : class) :
  jitson_class o = k -> (k = BRACE /\ v = JObject [] /\ c = 125) \/ (k = BRACKET /\ v = JArray [] /\ c = 93) -> isspace o = false -> isspace c = false -> spaces w ->
  value_parses v (o :: w ++ [c]).
Proof.
  intros Ho Hk Hs Hc Hw fuel w0 rest Hw0 Hr Hf. destruct fuel as [|fuel]; [lia|]. cbn [app]. rewrite parse_json_first by done. rewrite Ho.
  rewrite <-(assoc_L (++)). cbn [app]. rewrite trim_spaces by done. cbn [next_char tail].
  destruct Hk as [(-> & -> & ->)|(-> & -> & ->)]; done.
Qed.

(** Every text of the grammar is parsed to its value. *)
Lemma text_parses :
  (forall v t, value_text v t -> value_parses v t) /\
  (forall l t, elements_text l t -> elements_parse l t) /\
  (forall l t, members_text l t -> members_parse l t).
Proof.
  apply text_ind.
  - intros [|fuel] w rest Hw Hr Hf; [lia|]. change (NULL ++ rest) with (110 :: ([117; 108; 108] ++ rest)). rewrite (parse_json_first fuel w 110 ([117; 108; 108] ++ rest)) by done.
    exact (parse_word_text NULL rest ltac:(by repeat constructor) Hr).
  - intros [|fuel] w rest Hw Hr Hf; [lia|]. change (TRUE ++ rest) with (116 :: ([114; 117; 101] ++ rest)). rewrite (parse_json_first fuel w 116 ([114; 117; 101] ++ rest)) by done.
    exact (parse_word_text TRUE rest ltac:(by repeat constructor) Hr).
  - intros [|fuel] w rest Hw Hr Hf; [lia|]. change (FALSE ++ rest) with (102 :: ([97; 108; 115; 101] ++ rest)). rewrite (parse_json_first fuel w 102 ([97; 108; 115; 101] ++ rest)) by done.
    exact (parse_word_text FALSE rest ltac:(by repeat constructor) Hr).
  - intros n Hn [|fuel] w rest Hw Hr Hf; [lia|]. pose proof (parse_number_text n rest Hn Hr) as E.
    destruct (number_first n Hn) as (c & t & Et & Hc & Hs & _). rewrite Et in *. cbn [app] in *. rewrite parse_json_first by done. by destruct Hc as [-> | ->].
  - intros s t Hst [|fuel] w rest Hw Hr Hf; [lia|]. unfold quoted. cbn [app]. rewrite parse_json_first by done. change (jitson_class 34) with QUOTE. cbn iota.
    rewrite <-(assoc_L (++)). cbn [app]. by rewrite (parse_string_text [] s t Hst) by lia.
  - intros w Hw. by eapply (empty_collection_parses _ _ 91 93); [reflexivity|right|..].
  - intros l t Hl. by apply array_parses.
  - intros w Hw. by eapply (empty_collection_parses _ _ 123 125); [reflexivity|left|..].
  - intros l t Hl. by apply object_parses.
  - intros w1 v t w2 Hw1 _ Hv Hw2. by apply elements_parse_last.
  - intros w1 v t w2 l u Hw1 _ Hv Hw2 _ Hl. by apply elements_parse_more.
  - intros. by apply members_parse_last.
  - intros. by apply members_parse_more.
Qed.

(** ** Nothing else is parsed *)

Lemma trim_split t : exists w, t = w ++ trim t /\ spaces w.
Proof.
  exists (take_class isspace t). unfold trim. rewrite take_drop_class. split; [done|].
  induction t as [|c t IH]; cbn [take_class]; [constructor|]. destruct (isspace c) eqn:E; [by constructor|constructor].
Qed.

Lemma class_all p t : Forall (fun c => p c = true) (take_class p t).
Proof. induction t as [|c t IH]; cbn [take_class]; [constructor|]. destruct (p c) eqn:E; [by constructor|constructor]. Qed.

Lemma bind_parsed_inv {A B} (r : parsed A) (f : A -> list Z -> parsed B) b t :
  bind_parsed r f = Parsed b t -> exists a t', r = Parsed a t' /\ f a t' = Parsed b t.
Proof. destruct r; try done. eauto. Qed.

Lemma parse_unicode_inv t v t' : parse_unicode 4 0 t = Some (v, t') -> exists d3 d2 d1 d0 v3 v2 v1 v0, t = d3 :: d2 :: d1 :: d0 :: t' /\
  hex_value d3 = Some v3 /\ hex_value d2 = Some v2 /\ hex_value d1 = Some v1 /\ hex_value d0 = Some v0 /\ v = 4096 * v3 + 256 * v2 + 16 * v1 + v0.
Proof.
  destruct t as [|d3 t]; [done|]. cbn [parse_unicode]. destruct (hex_value d3) as [v3|] eqn:E3; [|done]. cbn [mbind option_bind].
  destruct t as [|d2 t]; [done|]. destruct (hex_value d2) as [v2|] eqn:E2; [|done]. cbn [mbind option_bind].
  destruct t as [|d1 t]; [done|]. destruct (hex_value d1) as [v1|] eqn:E1; [|done]. cbn [mbind option_bind].
  destruct t as [|d0 t]; [done|]. destruct (hex_value d0) as [v0|] eqn:E0; [|done]. cbn [mbind option_bind]. intros [= <- <-].
  exists d3, d2, d1, d0, v3, v2, v1, v0. split_and!; [done..|lia].
Qed.

Lemma parse_bytes_inv c t b t' : c <> 34 -> parse_bytes (c :: t) = Some (b, t') -> exists u, c :: t = u ++ t' /\ item_text b u.
Proof.
  intros Hc. cbn [parse_bytes]. destruct (Z.eqb_spec c 92) as [->|H92]; [|intros [= <- <-]; exists [c]; split; [done|by constructor]].
  destruct t as [|e t]; [done|]. destruct (escaped e) as [b'|] eqn:Ee; [intros [= <- <-]; exists [92; e]; split; [done|by constructor]|].
  destruct (Z.eqb_spec e 117) as [->|]; [|done]. destruct (parse_unicode 4 0 t) as [[v t1]|] eqn:Eu; [|done]. cbn [mbind option_bind]. intros [= <- <-].
  apply parse_unicode_inv in Eu as (d3 & d2 & d1 & d0 & v3 & v2 & v1 & v0 & -> & E3 & E2 & E1 & E0 & ->).
  exists [92; 117; d3; d2; d1; d0]. split; [done|by constructor].
Qed.

Lemma parse_string_inv fuel : forall s t s' rest, parse_string fuel s t = Parsed s' rest -> exists u, t = u ++ 34 :: rest /\ string_text s s' u.
Proof.
  induction fuel as [|fuel IH]; intros s t s' rest; [done|]. destruct t as [|c t]; [done|]. cbn [parse_string].
  destruct (Z.eqb_spec c 34) as [->|Hc]; [intros [= <- <-]; exists []; split; [done|constructor]|].
  destruct (parse_bytes (c :: t)) as [[b t']|] eqn:Eb; [|done]. destruct (edge_ok (zlen s) (zlen b)) eqn:Ee; [|done].
  intros (u & -> & Hu)%IH. apply parse_bytes_inv in Eb as (u0 & -> & Hi); [|done]. exists (u0 ++ u). split; [by rewrite <-(assoc_L (++))|by eapply st_item].
Qed.

Lemma members_spaces w l t : spaces w -> members_text l t -> members_text l (w ++ t).
Proof.
  intros Hw [w1 k tk w2 w3 v t1 w4 Hw1 Hk Hw2 Hw3 Hv Hw4|w1 k tk w2 w3 v t1 w4 l' u Hw1 Hk Hw2 Hw3 Hv Hw4 Hl]; rewrite (assoc_L (++) w);
    constructor; try done; by apply Forall_app.
Qed.

Section Sound.
Context (fuel' : nat).
Hypothesis parse_json_inv : forall t v rest, parse_json double fuel' t = Parsed v rest -> exists w u, t = w ++ u ++ rest /\ spaces w /\ value_text v u.

Lemma parse_elements_inv fuel : forall acc t v rest, parse_elements (parse_json double fuel') fuel acc t = Parsed v rest ->
  exists l u, v = JArray (acc ++ l) /\ t = u ++ 93 :: rest /\ elements_text l u.
Proof.
  induction fuel as [|fuel IH]; intros acc t v rest; [done|]. cbn [parse_elements]. intros (v1 & t1 & (w1 & u1 & -> & Hw1 & Hv1)%parse_json_inv & E)%bind_parsed_inv.
  destruct (trim_split t1) as (w2 & Et1 & Hw2). destruct (trim t1) as [|c t2]; [done|]. subst t1.
  destruct (Z.eqb_spec c 44) as [->|].
  - apply IH in E as (l & u & -> & -> & Hl). exists (v1 :: l), (w1 ++ u1 ++ w2 ++ 44 :: u). split_and!; [by rewrite <-(assoc_L (++))| |by constructor].
    by rewrite <-!(assoc_L (++)), <-app_comm_cons.
  - destruct (Z.eqb_spec c 93) as [->|]; [|done]. injection E as <- <-. exists [v1], (w1 ++ u1 ++ w2). split_and!; [done| |by constructor]. by rewrite <-!(assoc_L (++)).
Qed.

Lemma parse_members_inv fuel : forall acc t v rest, parse_members (parse_json double fuel') fuel acc t = Parsed v rest ->
  exists l u, v = JObject (acc ++ l) /\ t = u ++ 125 :: rest /\ members_text l u.
Proof.
  induction fuel as [|fuel IH]; intros acc t v rest; [done|]. destruct t as [|c t]; [done|]. cbn [parse_members].
  destruct (Z.eqb_spec c 34) as [->|]; [|done]. intros (k & t1 & (tk & -> & Hk)%parse_string_inv & E)%bind_parsed_inv.
  destruct (trim_split t1) as (w2 & Et1 & Hw2). destruct (trim t1) as [|c2 t2]; [done|]. subst t1.
  destruct (Z.eqb_spec c2 58) as [->|]; [|done]. apply bind_parsed_inv in E as (v1 & t3 & (w3 & u3 & -> & Hw3 & Hv1)%parse_json_inv & E).
  destruct (trim_split t3) as (w4 & Et3 & Hw4). destruct (trim t3) as [|c4 t4]; [done|]. subst t3.
  destruct (Z.eqb_spec c4 44) as [->|].
  - apply IH in E as (l & u & -> & Ht4 & Hl). destruct (trim_split t4) as (w5 & Et4 & Hw5). rewrite Et4, Ht4.
    exists ((k, v1) :: l), ([] ++ quoted tk ++ w2 ++ 58 :: w3 ++ u3 ++ w4 ++ 44 :: (w5 ++ u)). split_and!; [by rewrite <-(assoc_L (++))| |].
    + unfold quoted. cbn [app]. by rewrite <-!(assoc_L (++)), <-!app_comm_cons, <-!(assoc_L (++)), <-!app_comm_cons, <-!(assoc_L (++)).
    + apply mt_more; try done; [constructor|]. by apply members_spaces.
  - destruct (Z.eqb_spec c4 125) as [->|]; [|done]. injection E as <- <-. exists [(k, v1)], ([] ++ quoted tk ++ w2 ++ 58 :: w3 ++ u3 ++ w4). split_and!; [done| |].
    + unfold quoted. cbn [app]. by rewrite <-!(assoc_L (++)), <-!app_comm_cons, <-!(assoc_L (++)).
    + apply mt_last; try done. constructor.
Qed.
End Sound.

Lemma parse_word_inv t v rest : parse_word t = Parsed v rest -> exists u, t = u ++ rest /\ value_text v u.
Proof.
  unfold parse_word. pose proof (take_drop_class is_identifier_char t) as E. set (w := take_class _ _) in *.
  destruct (bool_decide_reflect (w = FALSE)) as [Ew|]; [intros [= <- <-]; exists w; split; [done|rewrite Ew; constructor]|].
  destruct (bool_decide_reflect (w = NULL)) as [Ew|]; [intros [= <- <-]; exists w; split; [done|rewrite Ew; constructor]|].
  destruct (bool_decide_reflect (w = TRUE)) as [Ew|]; [intros [= <- <-]; exists w; split; [done|rewrite Ew; constructor]|done].
Qed.

Lemma parse_number_inv t v rest : parse_number double t = Parsed v rest -> exists u, t = u ++ rest /\ value_text v u.
Proof.
  unfold parse_number. destruct (scan_number t) as [[n t']|] eqn:E; [|done]. apply scan_number_iff in E as [-> Hok _].
  destruct (_ && _); [done|]. intros [= <- <-]. exists (print_number n). split; [done|by constructor].
Qed.

Lemma collection_text (o c : Z) t rest : (exists w u, t = w ++ u /\ spaces w /\ u = c :: rest) -> exists w, o :: t = (o :: w ++ [c]) ++ rest /\ spaces w.
Proof. intros (w & u & -> & Hw & ->). exists w. split; [|done]. cbn [app]. by rewrite <-(assoc_L (++)). Qed.

Lemma class_char c : match jitson_class c with QUOTE => c = 34 | BRACKET => c = 91 | BRACE => c = 123 | _ => True end.
Proof.
  unfold jitson_class. destruct (Z.eqb_spec c 34); [done|]. destruct (c =? 45); [done|]. destruct (Z.eqb_spec c 91); [done|].
  destruct (Z.eqb_spec c 123); [done|]. by repeat case_match.
Qed.

(** What is parsed is a text of the grammar. *)
Lemma parse_json_inv fuel : forall t v rest, parse_json double fuel t = Parsed v rest -> exists w u, t = w ++ u ++ rest /\ spaces w /\ value_text v u.
Proof.
  induction fuel as [|fuel IH]; intros t v rest; [done|]. cbn [parse_json]. destruct (trim_split t) as (w & Et & Hw).
  destruct (trim t) as [|c t']; [done|]. subst t.
  assert (Hgo : (exists u, c :: t' = u ++ rest /\ value_text v u) -> exists w0 u, w ++ c :: t' = w0 ++ u ++ rest /\ spaces w0 /\ value_text v u).
  { intros (u & -> & Hu). by exists w, u. }
  intros E. apply Hgo. clear Hgo. destruct (jitson_class c) eqn:Ec; try done; try (by apply parse_number_inv in E); try (by apply parse_word_inv in E).
  - apply bind_parsed_inv in E as (s & t1 & (u & -> & Hu)%parse_string_inv & [= <- <-]). exists (quoted u). unfold quoted.
    pose proof (class_char c) as Hc. rewrite Ec in Hc. subst c.
    split; [cbn [app]; by rewrite <-(assoc_L (++))|by constructor].
  - pose proof (class_char c) as Hc. rewrite Ec in Hc. subst c.
    destruct (trim_split t') as (w1 & Et' & Hw1). destruct (Z.eqb_spec (next_char (trim t')) 93) as [E93|].
    + destruct (trim t') as [|c1 t1]; [done|]. cbn [next_char tail] in *. subst c1. injection E as <- <-.
      destruct (collection_text 91 93 t' t1) as (w2 & E2 & Hw2); [by exists w1, (93 :: t1)|]. rewrite E2. eexists. split; [done|by constructor].
    + rewrite parse_elements_trim in E. apply (parse_elements_inv _ IH) in E as (l & u & -> & -> & Hl). exists (91 :: u ++ [93]).
      split; [cbn [app]; by rewrite <-(assoc_L (++))|by constructor].
  - pose proof (class_char c) as Hc. rewrite Ec in Hc. subst c.
    destruct (trim_split t') as (w1 & Et' & Hw1). destruct (Z.eqb_spec (next_char (trim t')) 125) as [E125|].
    + destruct (trim t') as [|c1 t1]; [done|]. cbn [next_char tail] in *. subst c1. injection E as <- <-.
      destruct (collection_text 123 125 t' t1) as (w2 & E2 & Hw2); [by exists w1, (125 :: t1)|]. rewrite E2. eexists. split; [done|by constructor].
    + apply (parse_members_inv _ IH) in E as (l & u & -> & Eu & Hl). exists (123 :: (w1 ++ u) ++ [125]).
      split; [cbn [app]; rewrite Et', Eu; by rewrite <-!(assoc_L (++))|constructor; by apply members_spaces].
Qed.

(** ** The fuel of the reference parser is enough *)

Lemma bind_parsed_ext {A B} (r : parsed A) (f g : A -> list Z -> parsed B) :
  (forall a t, r = Parsed a t -> f a t = g a t) -> bind_parsed r f = bind_parsed r g.
Proof. destruct r; cbn; auto. Qed.

Lemma trim_cons_length t c t' : trim t = c :: t' -> (length t' < length t)%nat.
Proof. intros E. pose proof (trim_length t) as Hl. rewrite E in Hl. simpl in Hl. lia. Qed.

Lemma parsed_length fuel t v rest : parse_json double fuel t = Parsed v rest -> (length rest <= length t)%nat.
Proof. intros (w & u & -> & _)%parse_json_inv. rewrite !length_app. lia. Qed.

Section Fuel.
Context (n m : nat).
Hypothesis json_fuel : forall t, (length t < n)%nat -> (length t < m)%nat -> parse_json double n t = parse_json double m t.

Lemma elements_fuel f : forall g acc t, (length t < f)%nat -> (length t < g)%nat -> (length t < n)%nat -> (length t < m)%nat ->
  parse_elements (parse_json double n) f acc t = parse_elements (parse_json double m) g acc t.
Proof.
  induction f as [|f IH]; intros [|g] acc t Hf Hg Hn Hm; try lia. cbn [parse_elements]. rewrite <-json_fuel by done.
  apply bind_parsed_ext. intros v t1 E%parsed_length. destruct (trim t1) as [|c t2] eqn:Et; [done|]. apply trim_cons_length in Et.
  destruct (c =? 44); [|done]. apply IH; lia.
Qed.

Lemma members_fuel f : forall g acc t, (length t < f)%nat -> (length t < g)%nat -> (length t < n)%nat -> (length t < m)%nat ->
  parse_members (parse_json double n) f acc t = parse_members (parse_json double m) g acc t.
Proof.
  induction f as [|f IH]; intros [|g] acc t Hf Hg Hn Hm; try lia. destruct t as [|c t]; [done|]. cbn [parse_members]. destruct (c =? 34); [|done].
  apply bind_parsed_ext. intros k t1 (tk & -> & _)%parse_string_inv. destruct (trim t1) as [|c1 t2] eqn:Et1; [done|]. apply trim_cons_length in Et1.
  destruct (c1 =? 58); [|done]. simpl in *. rewrite length_app in *. simpl in *. rewrite <-json_fuel by lia.
  apply bind_parsed_ext. intros v t3 E%parsed_length. destruct (trim t3) as [|c3 t4] eqn:Et3; [done|]. apply trim_cons_length in Et3.
  pose proof (trim_length t4). destruct (c3 =? 44); [|done]. apply IH; lia.
Qed.
End Fuel.

Lemma parse_json_fuel n : forall m t, (length t < n)%nat -> (length t < m)%nat -> parse_json double n t = parse_json double m t.
Proof.
  induction n as [|n IH]; intros [|m] t Hn Hm; try lia. cbn [parse_json]. destruct (trim t) as [|c t'] eqn:Et; [done|]. apply trim_cons_length in Et.
  pose proof (trim_length t'). destruct (jitson_class c); try done.
  - destruct (next_char (trim t') =? 93); [done|]. apply elements_fuel; [intros; by apply IH|lia..].
  - destruct (next_char (trim t') =? 125); [done|]. apply members_fuel; [intros; by apply IH|lia..].
Qed.
End Grammar.

(** ** sxe_jitson_stack_parse_json *)

(** A stack whose tokens have the memory [u], with the open collection [o]. *)
Definition stack_holds (o : Z) (s : jstack) (u : list Z) : Prop := holds (mk_frame o 0) s u.

Lemma holds_frame o o' s u : f_open o = f_open o' -> holds o s u -> holds o' s u.
Proof. intros E [Ho Hc Hm Hmem]. split; [by rewrite <-E|done..]. Qed.

Section Parser.
Context `{Build} `{Env} {double : number -> Z} `{!StrtodLaw double}.

(** The value of a call that fails with [e], and the stack it leaves. *)
Definition parse_fails (o : Z) (base : list Z) (e : errno) (out : outcome ((Z + errno) * jstack)) : Prop :=
  exists s, out = Ret (inr e, s) /\ stack_holds o s base.
Definition parse_gives (o : Z) (base : list Z) (n : Z) (v : json) (out : outcome ((Z + errno) * jstack)) : Prop :=
  exists s x, out = Ret (inl n, s) /\ has_image (image v) x /\ stack_holds o s (base ++ x).

Lemma parse_json_cases o s base text junk :
  stack_holds o s base -> no_nul text -> zlen base + 16 * zlen text <= 16 * LIMIT ->
  let out := sxe_jitson_stack_parse_json SXE_JITSON_FLAG_STRICT (text ++ 0 :: junk) s in
  match parse double text with
  | Parsed v rest => parse_gives o base (zlen text - zlen rest) v out \/ (parse_fails o base ENOMEM out /\ out_of_memory)
  | Invalid e => parse_fails o base e out \/ (parse_fails o base ENOMEM out /\ out_of_memory)
  | Unclear => True
  end.
Proof.
  intros Hh Hn Hr. set (fr := mk_frame o (zlen text)). unfold sxe_jitson_stack_parse_json.
  set (p := mk_parser s (sxe_jitson_source_from_string (text ++ 0 :: junk) SXE_JITSON_FLAG_STRICT)).
  assert (Hs : state_at fr p base text).
  { split; cbn [p_stack p_source p]; try done; [by apply (holds_frame (mk_frame o 0))|by apply (left_string _ _ [] junk)]. }
  set (n := S (length (text ++ 0 :: junk))).
  pose proof (load_json_at n fr p base text Hs ltac:(unfold n; rewrite length_app; simpl; lia)) as Hl.
  assert (Hfail : forall e, failed fr base e (sxe_jitson_stack_load_json n p) -> parse_fails o base e
    ('(r, p) ← sxe_jitson_stack_load_json n p; mret (match r with Some e => inr e | None => inl (sxe_jitson_source_get_consumed (p_source p)) end, p_stack p))).
  { intros e (p' & E & Hp'). rewrite E. eexists. split; [reflexivity|]. by apply (holds_frame fr). }
  assert (parse_json double n text = parse double text) as <- by (apply parse_json_fuel; unfold n; rewrite ?length_app; simpl; lia).
  destruct (parse_json double n text) as [v rest|e|]; cbn [loaded] in Hl; [| |done].
  - destruct Hl as [(p' & x & E & Hx & Hs' & Hz)|[Hf Ho]]; [left|right; auto]. rewrite E. eexists _, x. split; [|split; [done|by apply (holds_frame fr), Hs']].
    cbn [mbind outcome_bind]. do 2 f_equal. f_equal. pose proof (sa_end _ _ _ _ Hs') as Hend. cbn [f_end fr] in Hend. unfold sxe_jitson_source_get_consumed. lia.
  - destruct Hl as [Hf|[Hf Ho]]; auto.
Qed.

(** C18: sxe_jitson_stack_parse_json without extensions, where strtod is as documented, refines the reference parser on a C string. The string is so long at most that a token for each
    of its characters, with those on the stack, makes [LIMIT] tokens, so that sizes do not overflow; and the reference is not [Unclear] on it, which it is in two cases, where the code goes
    wrong: two or three bytes that an escape stands for lie around the edge of a token of their string ([edge_ok]), or a negative zero is followed by an x. Then the code
    returns. Where the reference gives a value, it gives the offset behind the text that was
    read, and the tokens added to the stack are an image of the value; where the reference
    gives an error it fails with that errno, and in either case an allocation that fails makes it fail with
    ENOMEM. A failure leaves the stack with the tokens, and the open collection, that it had. *)
Theorem parse_json_refines o s base text junk :
  stack_holds o s base -> no_nul text -> zlen base + 16 * zlen text <= 16 * LIMIT -> parse double text <> Unclear ->
  let out := sxe_jitson_stack_parse_json SXE_JITSON_FLAG_STRICT (text ++ 0 :: junk) s in
  match parse double text with
  | Parsed v rest => parse_gives o base (zlen text - zlen rest) v out \/ (parse_fails o base ENOMEM out /\ out_of_memory)
  | Invalid e => parse_fails o base e out \/ (parse_fails o base ENOMEM out /\ out_of_memory)
  | Unclear => False
  end.
Proof. intros Hh Hn Hr Hu. pose proof (parse_json_cases o s base text junk Hh Hn Hr) as Hc. by destruct (parse double text). Qed.

(** C19: The texts of the grammar are loaded: JSON texts in which no two or three bytes that an escape stands for lie around the edge of a token of their string (on such an
    escape, as in 123456\u20ac, the code goes wrong). The grammar also has numbers with leading zeros, control characters in strings, and all that isspace takes for a space. For such a text behind any spaces,
    followed by anything that does not continue it, where strtod is as documented and the text is not so long that its tokens would be more than [LIMIT],
    sxe_jitson_stack_parse_json adds an image of the text's value to
    the stack and gives the offset behind it, unless an allocation fails. *)
Theorem json_text_is_loaded o s base w v u rest junk :
  stack_holds o s base -> no_nul (w ++ u ++ rest) -> zlen base + 16 * zlen (w ++ u ++ rest) <= 16 * LIMIT ->
  spaces w -> value_text double v u -> closed rest ->
  let out := sxe_jitson_stack_parse_json SXE_JITSON_FLAG_STRICT ((w ++ u ++ rest) ++ 0 :: junk) s in
  parse_gives o base (zlen (w ++ u)) v out \/ (parse_fails o base ENOMEM out /\ out_of_memory).
Proof.
  intros Hh Hn Hr Hw Hv Hc. pose proof (parse_json_cases o s base _ junk Hh Hn Hr) as Hcases.
  unfold parse in Hcases. rewrite (proj1 (text_parses double) v u Hv) in Hcases by (done || lia).
  replace (zlen (w ++ u ++ rest) - zlen rest) with (zlen (w ++ u)) in Hcases by (rewrite !zlen_app; lia). exact Hcases.
Qed.

(** C20: Only texts of the grammar are loaded, which is that of JSON with leading zeros in numbers, control characters in strings, and all that isspace takes for a space: when
    sxe_jitson_stack_parse_json succeeds with the offset [n] on a C string, of a length as for parsing, on which the reference parser is not [Unclear] (no escape of two or three bytes around the edge of a token, no
    negative zero before an x; there the code may succeed with something else),
    the first [n] characters are spaces and a text of the grammar, and what
    it added to the stack is an image of that text's value. *)
Theorem loaded_is_json_text o s base text junk n s' :
  stack_holds o s base -> no_nul text -> zlen base + 16 * zlen text <= 16 * LIMIT -> parse double text <> Unclear ->
  sxe_jitson_stack_parse_json SXE_JITSON_FLAG_STRICT (text ++ 0 :: junk) s = Ret (inl n, s') ->
  exists w u rest v x, text = w ++ u ++ rest /\ n = zlen (w ++ u) /\ spaces w /\ value_text double v u /\
    has_image (image v) x /\ stack_holds o s' (base ++ x).
Proof.
  intros Hh Hn Hr Hu E. pose proof (parse_json_cases o s base text junk Hh Hn Hr) as Hcases. cbn zeta in Hcases. rewrite E in Hcases.
  assert (Hno : forall e, ~ parse_fails o base e (Ret (inl n, s'))) by (by intros e (s1 & [=] & _)).
  destruct (parse double text) as [v rest|e|] eqn:Ep; [| |done].
  - destruct Hcases as [(s1 & x & [= -> <-] & Hx & Hs)|[Hf _]]; [|by apply Hno in Hf].
    apply parse_json_inv in Ep as (w & u & -> & Hw & Hv). exists w, u, rest, v, x. split_and!; try done; rewrite !zlen_app; lia.
  - destruct Hcases as [Hf|[Hf _]]; by apply Hno in Hf.
Qed.
End Parser.

(** ** Examples *)
Section Examples.

(** Memory is never short, fresh memory is filled with a pattern, and the double of a number is
    the value of its digits. *)
Definition example_double (n : number) : Z := digits_value 10 (n_digits n).
Local Instance example_build : Build := true.
Local Instance example_env : Env := {|
  can_alloc := fun _ => true;
  fresh_byte := fun _ => 170;
  strtod := fun t => match scan_number t with Some (n, _) => (example_double n, zlen (print_number n)) | None => (0, 0) end;
  jitson_constants := None;
  sxe_jitson_clone := fun l => (true, l);
  SXE_JITSON_TYPE_IDENT := None
|}.
Local Instance example_law : StrtodLaw example_double.
Proof.
  intros n rest Hok He _. unfold strtod, example_env. assert (scan_number (print_number n ++ rest) = Some (n, rest)) as -> by (by apply scan_number_iff). done.
Qed.

Definition example_stack : jstack := mk_jstack 1 0 (Some (replicate 16 0)) 0.
Lemma example_holds : stack_holds 0 example_stack [].
Proof. split; [done|done|done|]. split; [done|by eexists]. Qed.

(** [1, "\n", true] and a comma. *)
Definition example_text : list Z := [91; 49; 44; 32; 34; 92; 110; 34; 44; 32; 116; 114; 117; 101; 93].

Lemma parse_json_refines_witness :
  let out := sxe_jitson_stack_parse_json SXE_JITSON_FLAG_STRICT (example_text ++ [44] ++ [0]) example_stack in
  parse_gives 0 [] 15 (JArray [JUint 1; JString [10]; JBool true]) out \/ (parse_fails 0 [] ENOMEM out /\ out_of_memory).
Proof.
  refine (parse_json_refines 0 example_stack [] (example_text ++ [44]) [] example_holds _ _ _); [by repeat constructor|vm_compute; discriminate..].
Defined.

Lemma example_is_text : value_text example_double (JArray [JUint 1; JString [10]; JBool true]) example_text.
Proof.
  apply (vt_array _ _ ([49] ++ 44 :: [32; 34; 92; 110; 34; 44; 32; 116; 114; 117; 101])).
  apply (et_more _ [] _ [49] []); [constructor|apply (vt_number _ (mk_number false [49] None None)); repeat split; done || by repeat constructor|constructor|].
  apply (et_more _ [32] _ [34; 92; 110; 34] []); [by repeat constructor| |constructor|].
  - apply (vt_string _ [10] [92; 110]). apply (st_item [] [10] [92; 110] _ []); [by constructor|done|constructor].
  - apply (et_last _ [32] _ TRUE []); [by repeat constructor|constructor|constructor].
Qed.

Lemma json_text_is_loaded_witness :
  let out := sxe_jitson_stack_parse_json SXE_JITSON_FLAG_STRICT (([32] ++ example_text ++ [44]) ++ [0]) example_stack in
  parse_gives 0 [] 16 (JArray [JUint 1; JString [10]; JBool true]) out \/ (parse_fails 0 [] ENOMEM out /\ out_of_memory).
Proof.
  refine (json_text_is_loaded 0 example_stack [] [32] _ example_text [44] [] example_holds _ _ _ example_is_text _);
    [by repeat constructor|vm_compute; discriminate|by repeat constructor|done].
Defined.

Lemma loaded_is_json_text_witness : exists s',
  sxe_jitson_stack_parse_json SXE_JITSON_FLAG_STRICT (example_text ++ [0]) example_stack = Ret (inl 15, s') /\
  exists w u rest v x, example_text = w ++ u ++ rest /\ 15 = zlen (w ++ u) /\ spaces w /\ value_text example_double v u /\
    has_image (image v) x /\ stack_holds 0 s' ([] ++ x).
Proof.
  eexists. split; [vm_compute; reflexivity|].
  refine (loaded_is_json_text 0 example_stack [] example_text [] 15 _ example_holds _ _ _ _); [by repeat constructor|vm_compute; discriminate..|vm_compute; reflexivity].
Defined.

(** ** What modelling showed *)

(** ["123456\u20ac",1]: the bytes of the escape lie around the end of the string's first token, no
    second token is taken, and the last byte is stored behind the array. *)
Lemma escape_at_edge :
  sxe_jitson_stack_parse_json SXE_JITSON_FLAG_STRICT
    [91; 34; 49; 50; 51; 52; 53; 54; 92; 117; 50; 48; 97; 99; 34; 44; 49; 93; 0] (mk_jstack 2 0 (Some (replicate 32 0)) 0) = Fault.
Proof. vm_compute. reflexivity. Qed.

(** With more memory, the number 1 takes the place of the string's end. *)
Lemma escape_at_edge_overwritten : exists s,
  sxe_jitson_stack_parse_json SXE_JITSON_FLAG_STRICT
    [91; 34; 49; 50; 51; 52; 53; 54; 92; 117; 50; 48; 97; 99; 34; 44; 49; 93; 0] (mk_jstack 4 0 (Some (replicate 64 0)) 0) = Ret (inl 18, s) /\
  count s = 3 /\ (m ← load (jitsons s); get_type m 2) = Ret (Z.lor SXE_JITSON_TYPE_NUMBER SXE_JITSON_TYPE_IS_UINT).
Proof. eexists. split_and!; [vm_compute; reflexivity..]. Qed.

(** An array that ends behind its bracket in a buffer aborts the process. *)
Lemma truncated_array_aborts :
  sxe_jitson_stack_load_json 10 (mk_parser example_stack (sxe_jitson_source_from_buffer [91] 1 SXE_JITSON_FLAG_STRICT)) = Abort.
Proof. vm_compute. reflexivity. Qed.

(** A number at the end of a buffer is read beyond it: the buffer "1" in front of a 2 gives 12. *)
Lemma buffer_number_overread : exists p,
  sxe_jitson_stack_load_json (H := false) 10 (mk_parser example_stack (sxe_jitson_source_from_buffer [49; 50; 0] 1 SXE_JITSON_FLAG_STRICT)) = Ret (success, p) /\
  (m ← load (jitsons (p_stack p)); get_integer m 0) = Ret 12.
Proof. eexists. split; vm_compute; reflexivity. Qed.

(** With hexadecimal numbers allowed, a leading zero makes strtoul stop at the digit 9. *)
Lemma hex_allows_octal :
  sxe_jitson_stack_parse_json SXE_JITSON_FLAG_ALLOW_HEX [48; 57; 0] example_stack = Abort.
Proof. vm_compute. reflexivity. Qed.
End Examples.
