(* ===== verification/JitsonBuild.v ===== *)
(** * JitsonBuild: building jitsons value by value (lib-sxe-jitson/sxe-jitson-stack.c)

    A collection is opened on a stack, values (and, in an object, names in front of them) are
    added to the innermost open collection, and it is closed. The specification is a stack
    of partial collections; a call that is out of order there aborts the process. *)

From S2P Require Import Prelude CString JitsonSource JitsonToken JitsonStack JitsonParse JitsonGrammar.

(** ** Operations *)

(** lib-sxe-jitson/sxe-jitson.c:283-288, sxe_jitson_make_null. *)
Definition sxe_jitson_make_null (index : Z) : cmd jstack unit := poke (fun m => set_type m index SXE_JITSON_TYPE_NULL).

(** lib-sxe-jitson/sxe-jitson.c:290-296, sxe_jitson_make_bool. *)
Definition sxe_jitson_make_bool (index : Z) (boolean : bool) : cmd jstack unit :=
  poke (fun m => set_type m index SXE_JITSON_TYPE_BOOL);; poke (fun m => set_byte m index 0 (Z.b2z boolean)).

(** lib-sxe-jitson/sxe-jitson.c:298-304, sxe_jitson_make_number. *)
Definition sxe_jitson_make_number (index number : Z) : cmd jstack unit :=
  poke (fun m => set_type m index SXE_JITSON_TYPE_NUMBER);; poke (fun m => set_integer m index number).

(** lib-sxe-jitson/sxe-jitson.c:306-312, sxe_jitson_make_uint. *)
Definition sxe_jitson_make_uint (index uint : Z) : cmd jstack unit :=
  poke (fun m => set_type m index (Z.lor SXE_JITSON_TYPE_NUMBER SXE_JITSON_TYPE_IS_UINT));; poke (fun m => set_integer m index uint).

(** A string of the caller: where it is, and the memory from there. *)
Record cstr := mk_cstr { c_address : Z; c_memory : list Z }.

Section Build.
Context `{Build} `{Env}.

(** lib-sxe-jitson/sxe-jitson-stack.c:564-571, sxe_jitson_stack_add_value. The assertions of a call that adds
    a value (sxe_jitson_stack_add_string has the same), and the index of the innermost open collection. *)
Definition check_value : cmd jstack Z :=
  open ← gets open;
  let collection := u32 (open - 1) in
  lift (assert1 (negb (open =? 0)));;
  type ← peek (fun m => get_type m collection);
  no_value ← peek (fun m => get_no_value m collection);
  lift (assert1 ((type =? SXE_JITSON_TYPE_ARRAY) || negb (no_value =? 0)));;
  lift (assert1 ((type =? SXE_JITSON_TYPE_OBJECT) || (type =? SXE_JITSON_TYPE_ARRAY)));;
  mret collection.

(** lib-sxe-jitson/sxe-jitson-stack.c:561-579, sxe_jitson_stack_add_value. *)
Definition sxe_jitson_stack_add_value (size : Z) : cmd jstack Z :=
  collection ← check_value;
  index ← sxe_jitson_stack_expand size;
  if index =? SXE_JITSON_STACK_ERROR then mret SXE_JITSON_STACK_ERROR
  else
    len ← peek (fun m => get_len m collection);
    poke (fun m => set_len m collection (u32 (len + 1)));;
    poke (fun m => set_no_value m collection 0);;
    mret index.

(** lib-sxe-jitson/sxe-jitson-stack.c:588-607, sxe_jitson_stack_open_collection. *)
Definition sxe_jitson_stack_open_collection (type : Z) : cmd jstack result :=
  lift (assert6 ((type =? SXE_JITSON_TYPE_ARRAY) || (type =? SXE_JITSON_TYPE_OBJECT)));;
  open ← gets open;
  index ← (if negb (open =? 0) then sxe_jitson_stack_add_value 1 else sxe_jitson_stack_expand 1);
  if index =? SXE_JITSON_STACK_ERROR then mret (Some ENOMEM)
  else
    poke (fun m => set_type m index type);;
    poke (fun m => set_len m index 0);;
    poke (fun m => set_no_value m index 0);;
    poke (fun m => set_nested m index 0);;
    poke (fun m => set_collection m index open);;
    modify (fun s => set_open s (u32 (index + 1)));;
    mret success.

(** lib-sxe-jitson/sxe-jitson-stack.c:652-664, sxe_jitson_stack_push_string. The bytes of a copied
    string from offset [from] on, of which [len] are left, to further tokens. *)
Fixpoint push_tokens (fuel : nat) (string : list Z) (from len : Z) : cmd jstack result :=
  match fuel with
  | O => fun _ => Fault
  | S fuel =>
      index ← sxe_jitson_stack_expand 1;
      if index =? SXE_JITSON_STACK_ERROR then mret (Some ENOMEM)
      else if len <? SXE_JITSON_TOKEN_SIZE then
        bytes ← lift (load (slice string from (len + 1)));
        poke (fun m => wr_bytes m (tok index) bytes);; mret success
      else
        bytes ← lift (load (slice string from SXE_JITSON_TOKEN_SIZE));
        poke (fun m => wr_bytes m (tok index) bytes);;
        push_tokens fuel string (from + SXE_JITSON_TOKEN_SIZE) (len - SXE_JITSON_TOKEN_SIZE)
  end.

(** lib-sxe-jitson/sxe-jitson-stack.c:620-667, sxe_jitson_stack_push_string. *)
Definition sxe_jitson_stack_push_string (string : cstr) (type : Z) : cmd jstack result :=
  index ← sxe_jitson_stack_expand 1;
  if index =? SXE_JITSON_STACK_ERROR then mret (Some ENOMEM)
  else
    let type := if negb (Z.land type SXE_JITSON_TYPE_IS_OWN =? 0) then Z.lor SXE_JITSON_TYPE_IS_REF type else type in
    poke (fun m => set_type m index (Z.lor SXE_JITSON_TYPE_STRING type));;
    if negb (Z.land type SXE_JITSON_TYPE_IS_REF =? 0) then
      poke (fun m => set_integer m index (c_address string));;
      poke (fun m => set_len m index 0);;
      mret success
    else
      len ← lift (load (strlen (c_memory string)));
      if negb (u32 len =? len) then mret (Some ENAMETOOLONG)
      else
        poke (fun m => set_len m index len);;
        if len <? SXE_JITSON_STRING_SIZE then
          bytes ← lift (load (slice (c_memory string) 0 (len + 1)));
          poke (fun m => set_bytes m index 0 bytes);; mret success
        else
          bytes ← lift (load (slice (c_memory string) 0 SXE_JITSON_STRING_SIZE));
          poke (fun m => set_bytes m index 0 bytes);;
          push_tokens (S (Z.to_nat len)) (c_memory string) SXE_JITSON_STRING_SIZE (len - SXE_JITSON_STRING_SIZE).

(** The flags that a caller may give with a string. *)
Definition string_flags_ok (type : Z) : bool := Z.land type (Z.lnot (Z.lor SXE_JITSON_TYPE_IS_REF SXE_JITSON_TYPE_IS_OWN)) =? 0.

(** lib-sxe-jitson/sxe-jitson-stack.c:678-690, sxe_jitson_stack_add_member_name. *)
Definition sxe_jitson_stack_add_member_name (name : cstr) (type : Z) : cmd jstack result :=
  open ← gets open;
  lift (assert1 (negb (open =? 0)));;
  let object := u32 (open - 1) in
  ty ← peek (fun m => get_type m object);
  lift (assert1 (ty =? SXE_JITSON_TYPE_OBJECT));;
  no_value ← peek (fun m => get_no_value m object);
  lift (assert1 (no_value =? 0));;
  lift (assert1 (string_flags_ok type));;
  poke (fun m => set_no_value m object 1);;
  sxe_jitson_stack_push_string name (Z.lor type SXE_JITSON_TYPE_IS_KEY).

(** lib-sxe-jitson/sxe-jitson-stack.c:701-719, sxe_jitson_stack_add_string. *)
Definition sxe_jitson_stack_add_string (name : cstr) (type : Z) : cmd jstack result :=
  collection ← check_value;
  lift (assert1 (string_flags_ok type));;
  poke (fun m => set_no_value m collection 0);;
  ret ← sxe_jitson_stack_push_string name type;
  match ret with
  | Some e => mret (Some e)
  | None =>
      len ← peek (fun m => get_len m collection);
      poke (fun m => set_len m collection (u32 (len + 1)));; mret success
  end.

(** A value of one token, made by [make]. *)
Definition add_made (make : Z -> cmd jstack unit) : cmd jstack result :=
  index ← sxe_jitson_stack_add_value 1;
  if index =? SXE_JITSON_STACK_ERROR then mret (Some ENOMEM) else make index;; mret success.

(** lib-sxe-jitson/sxe-jitson-stack.c:728-738, sxe_jitson_stack_add_null. *)
Definition sxe_jitson_stack_add_null : cmd jstack result := add_made sxe_jitson_make_null.
(** lib-sxe-jitson/sxe-jitson-stack.c:748-758, sxe_jitson_stack_add_bool. *)
Definition sxe_jitson_stack_add_bool (boolean : bool) : cmd jstack result := add_made (fun i => sxe_jitson_make_bool i boolean).
(** lib-sxe-jitson/sxe-jitson-stack.c:768-778, sxe_jitson_stack_add_number. *)
Definition sxe_jitson_stack_add_number (number : Z) : cmd jstack result := add_made (fun i => sxe_jitson_make_number i number).
(** lib-sxe-jitson/sxe-jitson-stack.c:788-798, sxe_jitson_stack_add_uint. *)
Definition sxe_jitson_stack_add_uint (uint : Z) : cmd jstack result := add_made (fun i => sxe_jitson_make_uint i uint).

(** lib-sxe-jitson/sxe-jitson-stack.c:888-901, sxe_jitson_stack_close_collection. *)
Definition sxe_jitson_stack_close_collection : cmd jstack result :=
  open ← gets open;
  lift (assert1 (negb (open =? 0)));;
  let index := u32 (open - 1) in
  no_value ← peek (fun m => get_no_value m index);
  lift (assert1 (no_value =? 0));;
  nested ← peek (fun m => get_nested m index);
  lift (assert1 (nested =? 0));;
  collection ← peek (fun m => get_collection m index);
  modify (fun s => set_open s collection);;
  count ← gets count;
  poke (fun m => set_integer m index (u32 (count - index)));;
  mret success.

(** [a] && [b], of calls that give success or failure. *)
Definition and_then (a b : cmd jstack result) : cmd jstack result :=
  r ← a; match r with Some e => mret (Some e) | None => b end.

(** lib-sxe-jitson/sxe-jitson.h:120-125, sxe_jitson_stack_add_member_string. *)
Definition sxe_jitson_stack_add_member_string (name value : cstr) (type : Z) : cmd jstack result :=
  and_then (sxe_jitson_stack_add_member_name name SXE_JITSON_TYPE_IS_COPY) (sxe_jitson_stack_add_string value type).
(** lib-sxe-jitson/sxe-jitson.h:127-131, sxe_jitson_stack_add_member_null. *)
Definition sxe_jitson_stack_add_member_null (name : cstr) : cmd jstack result :=
  and_then (sxe_jitson_stack_add_member_name name SXE_JITSON_TYPE_IS_COPY) sxe_jitson_stack_add_null.
(** lib-sxe-jitson/sxe-jitson.h:133-137, sxe_jitson_stack_add_member_bool. *)
Definition sxe_jitson_stack_add_member_bool (name : cstr) (boolean : bool) : cmd jstack result :=
  and_then (sxe_jitson_stack_add_member_name name SXE_JITSON_TYPE_IS_COPY) (sxe_jitson_stack_add_bool boolean).
(** lib-sxe-jitson/sxe-jitson.h:139-143, sxe_jitson_stack_add_member_number. *)
Definition sxe_jitson_stack_add_member_number (name : cstr) (number : Z) : cmd jstack result :=
  and_then (sxe_jitson_stack_add_member_name name SXE_JITSON_TYPE_IS_COPY) (sxe_jitson_stack_add_number number).
(** lib-sxe-jitson/sxe-jitson.h:145-149, sxe_jitson_stack_add_member_uint. *)
Definition sxe_jitson_stack_add_member_uint (name : cstr) (uint : Z) : cmd jstack result :=
  and_then (sxe_jitson_stack_add_member_name name SXE_JITSON_TYPE_IS_COPY) (sxe_jitson_stack_add_uint uint).
End Build.

(** ** The specification *)

(** A collection that is being built: an array with its elements, or an object with its
    members and perhaps the name of the next. *)
Inductive level :=
| LArray (l : list json)
| LObject (l : list (list Z * json)) (name : option (list Z)).

(** The values that are complete, and the open collections, the innermost first. *)
Record builder := mk_builder { b_done : list json; b_open : list level }.

Definition level_add (v : json) (lv : level) : option level :=
  match lv with
  | LArray l => Some (LArray (l ++ [v]))
  | LObject l (Some k) => Some (LObject (l ++ [(k, v)]) None)
  | LObject l None => None
  end.

Definition level_value (lv : level) : option json :=
  match lv with
  | LArray l => Some (JArray l)
  | LObject l None => Some (JObject l)
  | LObject l (Some _) => None
  end.

(** A collection that is opened where no value may be added aborts, as adding one does. *)
Definition accepts (ls : list level) : bool :=
  match ls with [] => true | LObject _ None :: _ => false | _ => true end.

Inductive build_op :=
| BOpenArray | BOpenObject | BClose
| BName (k : list Z)
| BNull | BBool (b : bool) | BUint (u : Z) | BNumber (d : Z) | BString (s : list Z).

Definition op_value (op : build_op) : option json :=
  match op with
  | BNull => Some JNull
  | BBool b => Some (JBool b)
  | BUint u => Some (JUint u)
  | BNumber d => Some (JNumber d)
  | BString s => Some (JString s)
  | _ => None
  end.

(** The effect of a call, or nothing if it is out of order. *)
Definition build_spec (op : build_op) (b : builder) : option builder :=
  let (done, ls) := b in
  match op, ls with
  | BOpenArray, _ => if accepts ls then Some (mk_builder done (LArray [] :: ls)) else None
  | BOpenObject, _ => if accepts ls then Some (mk_builder done (LObject [] None :: ls)) else None
  | BName k, LObject l None :: ls => Some (mk_builder done (LObject l (Some k) :: ls))
  | BName k, _ => None
  | BClose, lv :: ls =>
      v ← level_value lv;
      match ls with
      | [] => Some (mk_builder (done ++ [v]) [])
      | lv :: ls => lv ← level_add v lv; Some (mk_builder done (lv :: ls))
      end
  | BClose, [] => None
  | _, lv :: ls => v ← op_value op; lv ← level_add v lv; Some (mk_builder done (lv :: ls))
  | _, [] => None
  end.

(** The call that an operation stands for; a copied string is given as a C string. *)
Definition copied (s : list Z) : cstr := mk_cstr 0 (s ++ [0]).
Definition build_run `{Build} `{Env} (op : build_op) : cmd jstack result :=
  match op with
  | BOpenArray => sxe_jitson_stack_open_collection SXE_JITSON_TYPE_ARRAY
  | BOpenObject => sxe_jitson_stack_open_collection SXE_JITSON_TYPE_OBJECT
  | BClose => sxe_jitson_stack_close_collection
  | BName k => sxe_jitson_stack_add_member_name (copied k) SXE_JITSON_TYPE_IS_COPY
  | BNull => sxe_jitson_stack_add_null
  | BBool b => sxe_jitson_stack_add_bool b
  | BUint u => sxe_jitson_stack_add_uint u
  | BNumber d => sxe_jitson_stack_add_number d
  | BString s => sxe_jitson_stack_add_string (copied s) SXE_JITSON_TYPE_IS_COPY
  end.

(** The tokens that an operation adds, and the string it is given. *)
Definition op_string (op : build_op) : list Z := match op with BName k => k | BString s => s | _ => [] end.
Definition op_tokens (op : build_op) : Z :=
  match op with BClose => 0 | BName k => string_tokens (zlen k) | BString s => string_tokens (zlen s) | _ => 1 end.

(** A sequence of calls, up to the first that fails. *)
Fixpoint build_all `{Build} `{Env} (ops : list build_op) : cmd jstack result :=
  match ops with [] => mret success | op :: ops => and_then (build_run op) (build_all ops) end.
Fixpoint build_specs (ops : list build_op) (b : builder) : option builder :=
  match ops with [] => Some b | op :: ops => b ← build_spec op b; build_specs ops b end.
Fixpoint ops_tokens (ops : list build_op) : Z := match ops with [] => 0 | op :: ops => op_tokens op + ops_tokens ops end.

(** The calls that build a value. *)
Fixpoint calls (v : json) : list build_op :=
  match v with
  | JNull => [BNull]
  | JBool b => [BBool b]
  | JUint u => [BUint u]
  | JNumber d => [BNumber d]
  | JString s => [BString s]
  | JArray l => BOpenArray :: (fix calls_of l := match l with [] => [] | v :: l => calls v ++ calls_of l end) l ++ [BClose]
  | JObject l => BOpenObject :: (fix calls_of l := match l with [] => [] | (k, v) :: l => BName k :: calls v ++ calls_of l end) l ++ [BClose]
  end.
Fixpoint array_calls (l : list json) : list build_op := match l with [] => [] | v :: l => calls v ++ array_calls l end.
Fixpoint object_calls (l : list (list Z * json)) : list build_op :=
  match l with [] => [] | (k, v) :: l => BName k :: calls v ++ object_calls l end.

Definition is_collection (v : json) : bool := match v with JArray _ | JObject _ => true | _ => false end.

(** A value that is added to a builder: a collection may stand by itself. *)
Definition put (v : json) (b : builder) : option builder :=
  match b_open b with
  | [] => if is_collection v then Some (mk_builder (b_done b ++ [v]) []) else None
  | lv :: ls => lv ← level_add v lv; Some (mk_builder (b_done b) (lv :: ls))
  end.

(** ** The memory of a builder *)

Definition level_type (lv : level) : Z := match lv with LArray _ => SXE_JITSON_TYPE_ARRAY | LObject _ _ => SXE_JITSON_TYPE_OBJECT end.
Definition level_length (lv : level) : Z := match lv with LArray l => zlen l | LObject l _ => zlen l end.
Definition level_image (lv : level) : list (option Z) :=
  match lv with
  | LArray l => array_image l
  | LObject l k => object_image l ++ match k with Some k => string_image key_type k | None => [] end
  end.
Definition has_name (lv : level) : bool := match lv with LObject _ (Some _) => true | _ => false end.

(** The memory of an open collection inside the one at [outer] - 1. A value for it is already
    counted, and its name used, while [child] is true. *)
Definition level_memory (lv : level) (child : bool) (outer : Z) (m : list Z) : Prop :=
  exists b2 b3 e, has_image (level_image lv) e /\
    m = bytes32 (level_type lv) ++ bytes32 (level_length lv + Z.b2z child) ++ (Z.b2z (has_name lv && negb child) :: 0 :: b2 :: b3 :: bytes32 outer) ++ e.

(** May a value be added? *)
Definition ready (lv : level) : bool := match lv with LArray _ => true | LObject _ k => bool_decide (is_Some k) end.

(** [base] is the memory of what is complete, [u] that of the whole stack. *)
Fixpoint levels_hold (base : list Z) (ls : list level) (child : bool) (open : Z) (u : list Z) : Prop :=
  match ls with
  | [] => open = 0 /\ u = base
  | lv :: ls => exists outer u0 m, levels_hold base ls true outer u0 /\ u = u0 ++ m /\ level_memory lv child outer m /\
      zlen u0 = 16 * (open - 1) /\ implb child (ready lv) = true
  end.

(** A stack that builds what [b] specifies. *)
Definition builds (s : jstack) (b : builder) : Prop :=
  exists base u, has_image (array_image (b_done b)) base /\ levels_hold base (b_open b) false (open s) u /\ stack_holds (open s) s u.

(** ** Fields of a collection *)

Section Fields.
Implicit Types (u t l s b junk : list Z) (i : Z).

Lemma get_byte_app u t l s c b junk i k :
  zlen u = 16 * i -> zlen t = 4 -> zlen l = 4 -> k = zlen s -> get_byte ((u ++ t ++ l ++ s ++ c :: b) ++ junk) i k = Ret c.
Proof.
  intros Hu Ht Hl ->. unfold get_byte. rewrite <-!(assoc_L (++)), <-app_comm_cons, !(assoc_L (++) l s), !(assoc_L (++) t (l ++ s)), !(assoc_L (++) u (t ++ l ++ s)).
  rewrite rd_at; [done|]. rewrite !zlen_app. unfold tok. lia.
Qed.

Lemma get_collection_app u t l s v b junk i :
  zlen u = 16 * i -> zlen t = 4 -> zlen l = 4 -> zlen s = 4 -> get_collection ((u ++ t ++ l ++ s ++ bytes32 v ++ b) ++ junk) i = Ret (u32 v).
Proof.
  intros Hu Ht Hl Hs. unfold get_collection. rewrite <-!(assoc_L (++)), !(assoc_L (++) l s), !(assoc_L (++) t (l ++ s)), !(assoc_L (++) u (t ++ l ++ s)).
  apply ld32_bytes32. rewrite !zlen_app. unfold tok. lia.
Qed.

Lemma set_collection_app u t l s a v b junk i :
  zlen u = 16 * i -> zlen t = 4 -> zlen l = 4 -> zlen s = 4 -> zlen a = 4 ->
  set_collection ((u ++ t ++ l ++ s ++ a ++ b) ++ junk) i v = Ret ((u ++ t ++ l ++ s ++ bytes32 v ++ b) ++ junk).
Proof.
  intros Hu Ht Hl Hs Ha. unfold set_collection. rewrite <-!(assoc_L (++)), !(assoc_L (++) l s), !(assoc_L (++) t (l ++ s)), !(assoc_L (++) u (t ++ l ++ s)).
  apply wr_bytes_mid; [rewrite !zlen_app; unfold tok; lia|by rewrite zlen_bytes32].
Qed.
End Fields.

(** The memory of a collection's token, its fields given. *)
Definition header (ty n nv ne b2 b3 outer : Z) (e : list Z) : list Z := bytes32 ty ++ bytes32 n ++ (nv :: ne :: b2 :: b3 :: bytes32 outer) ++ e.

Lemma header_zlen ty n nv ne b2 b3 outer e : zlen (header ty n nv ne b2 b3 outer e) = 16 + zlen e.
Proof. unfold header. rewrite !zlen_app, !zlen_cons, !zlen_bytes32. lia. Qed.

Lemma header_app ty n nv ne b2 b3 outer e x : header ty n nv ne b2 b3 outer e ++ x = header ty n nv ne b2 b3 outer (e ++ x).
Proof. unfold header. by rewrite <-!(assoc_L (++)). Qed.

Section Header.
Context (o : frame) (s : jstack) (u : list Z) (i ty n nv ne b2 b3 outer : Z) (e : list Z).
Hypothesis Hh : holds o s (u ++ header ty n nv ne b2 b3 outer e).
Hypothesis Hu : zlen u = 16 * i.

Lemma header_pos : 0 < zlen (u ++ header ty n nv ne b2 b3 outer e).
Proof. rewrite zlen_app, header_zlen. pose proof (zlen_nonneg u). pose proof (zlen_nonneg e). lia. Qed.

Lemma peek_type : is_u32 ty -> peek (fun m => get_type m i) s = Ret (ty, s).
Proof.
  intros Hty. apply (peek_holds o _ _ _ _ Hh header_pos). intros junk. unfold header. rewrite get_type_app by done. by rewrite u32_small.
Qed.
Lemma peek_len : is_u32 n -> peek (fun m => get_len m i) s = Ret (n, s).
Proof.
  intros Hn. apply (peek_holds o _ _ _ _ Hh header_pos). intros junk. unfold header. rewrite get_len_app by done. by rewrite u32_small.
Qed.
Lemma peek_no_value : peek (fun m => get_no_value m i) s = Ret (nv, s).
Proof.
  apply (peek_holds o _ _ _ _ Hh header_pos). intros junk. unfold header, get_no_value. by apply (get_byte_app u _ _ []).
Qed.
Lemma peek_nested : peek (fun m => get_nested m i) s = Ret (ne, s).
Proof.
  apply (peek_holds o _ _ _ _ Hh header_pos). intros junk. unfold header, get_nested. by apply (get_byte_app u _ _ [nv]).
Qed.
Lemma peek_collection : is_u32 outer -> peek (fun m => get_collection m i) s = Ret (outer, s).
Proof.
  intros Ho. apply (peek_holds o _ _ _ _ Hh header_pos). intros junk. unfold header.
  pose proof (get_collection_app u (bytes32 ty) (bytes32 n) [nv; ne; b2; b3] outer e junk i Hu eq_refl eq_refl eq_refl) as E. rewrite u32_small in E by done. exact E.
Qed.

Lemma poke_len n' : exists s', poke (fun m => set_len m i n') s = Ret (tt, s') /\ holds o s' (u ++ header ty n' nv ne b2 b3 outer e).
Proof.
  apply (poke_holds o s _ _ _ Hh header_pos); [|by rewrite !zlen_app, !header_zlen]. intros junk. unfold header. by apply set_len_app.
Qed.
Lemma poke_no_value v : exists s', poke (fun m => set_no_value m i v) s = Ret (tt, s') /\ holds o s' (u ++ header ty n v ne b2 b3 outer e).
Proof.
  apply (poke_holds o s _ _ _ Hh header_pos); [|by rewrite !zlen_app, !header_zlen]. intros junk. unfold header, set_no_value. by apply (set_byte_app u _ _ []).
Qed.
Lemma poke_nested v : exists s', poke (fun m => set_nested m i v) s = Ret (tt, s') /\ holds o s' (u ++ header ty n nv v b2 b3 outer e).
Proof.
  apply (poke_holds o s _ _ _ Hh header_pos); [|by rewrite !zlen_app, !header_zlen]. intros junk. unfold header, set_nested. by apply (set_byte_app u _ _ [nv]).
Qed.
Lemma poke_collection v : exists s', poke (fun m => set_collection m i v) s = Ret (tt, s') /\ holds o s' (u ++ header ty n nv ne b2 b3 v e).
Proof.
  apply (poke_holds o s _ _ _ Hh header_pos); [|by rewrite !zlen_app, !header_zlen]. intros junk. unfold header.
  by apply (set_collection_app u (bytes32 ty) (bytes32 n) [nv; ne; b2; b3] (bytes32 outer) v e junk i).
Qed.
End Header.

(** Any 16 bytes are such a token. *)
Lemma any_header (x : list Z) : zlen x = 16 -> exists a b nv ne b2 b3 c, x = a ++ b ++ (nv :: ne :: b2 :: b3 :: c) /\ zlen a = 4 /\ zlen b = 4 /\ zlen c = 4.
Proof.
  intros Hx. destruct (split_memory x 4) as (a & y & -> & Ha & Hy); [lia|]. destruct (split_memory y 4) as (b & z & -> & Hb & Hz); [lia|].
  do 4 (destruct z as [|? z]; [unfold zlen in *; simpl in *; lia|]). do 7 eexists. split_and!; [reflexivity|lia|lia|]. rewrite !zlen_cons in Hz. lia.
Qed.

(** ** Levels *)

Lemma level_memory_header lv child outer m :
  level_memory lv child outer m <-> exists b2 b3 e, has_image (level_image lv) e /\
    m = header (level_type lv) (level_length lv + Z.b2z child) (Z.b2z (has_name lv && negb child)) 0 b2 b3 outer e.
Proof. done. Qed.

Lemma level_header lv child outer m : level_memory lv child outer m -> exists b2 b3 e, has_image (level_image lv) e /\
    m = header (level_type lv) (level_length lv + Z.b2z child) (Z.b2z (has_name lv && negb child)) 0 b2 b3 outer e.
Proof. done. Qed.

Lemma array_image_long l : 16 * zlen l <= zlen (array_image l).
Proof.
  induction l as [|v l IH]; cbn [array_image]; [done|]. rewrite zlen_cons, zlen_app. destruct (image_size v) as [-> ?]. lia.
Qed.

Lemma object_image_long l : 16 * zlen l <= zlen (object_image l).
Proof.
  induction l as [|[k v] l IH]; cbn [object_image]; [done|]. rewrite zlen_cons, !zlen_app, string_image_zlen. destruct (image_size v) as [-> ?].
  pose proof (zlen_nonneg k). unfold string_tokens. Z.to_euclidean_division_equations; lia.
Qed.

Lemma level_length_bound lv : 0 <= 16 * level_length lv <= zlen (level_image lv).
Proof.
  destruct lv as [l|l k]; cbn [level_length level_image]; (split; [pose proof (zlen_nonneg l); lia|]); [apply array_image_long|].
  rewrite zlen_app. pose proof (object_image_long l). pose proof (zlen_nonneg (match k with Some k => string_image key_type k | None => [] end)). lia.
Qed.

Lemma level_type_u32 lv : is_u32 (level_type lv).
Proof. by destruct lv. Qed.

Lemma level_memory_zlen lv child outer m : level_memory lv child outer m -> 16 + 16 * level_length lv <= zlen m.
Proof.
  intros (b2 & b3 & e & He & ->)%level_header. rewrite header_zlen, <-(zlen_image _ _ _ He). pose proof (level_length_bound lv). lia.
Qed.

Lemma levels_open base ls child open u : levels_hold base ls child open u -> 0 <= 16 * open <= zlen u /\ zlen base <= zlen u /\ (open = 0 <-> ls = []).
Proof.
  revert child open u. induction ls as [|lv ls IH]; intros child open u; cbn [levels_hold].
  - intros [-> ->]. pose proof (zlen_nonneg base). by split_and!; [lia|lia|lia|].
  - intros (outer & u0 & m & Hl & -> & Hm%level_memory_zlen & Hu & _). apply IH in Hl as (Hl & Hb & _). pose proof (level_length_bound lv).
    rewrite zlen_app. split_and!; [lia..|]. split; [lia|done].
Qed.

Lemma ready_add v lv : ready lv = true -> is_Some (level_add v lv).
Proof. destruct lv as [l|l [k|]]; [eauto..|done]. Qed.
Lemma not_ready_add v lv : ready lv = false -> level_add v lv = None.
Proof. by destruct lv as [l|l [k|]]. Qed.

Lemma ready_test lv child : (level_type lv =? SXE_JITSON_TYPE_ARRAY) || negb (Z.b2z (has_name lv && negb child) =? 0) = match lv with LArray _ => true | _ => has_name lv && negb child end.
Proof. by destruct lv as [l|l [k|]], child. Qed.

Lemma level_type_test lv : (level_type lv =? SXE_JITSON_TYPE_OBJECT) || (level_type lv =? SXE_JITSON_TYPE_ARRAY) = true.
Proof. by destruct lv. Qed.

(** The value that was announced is there. *)
Lemma level_value_added lv lv' v outer m x :
  level_memory lv true outer m -> level_add v lv = Some lv' -> has_image (image v) x -> level_memory lv' false outer (m ++ x).
Proof.
  intros (b2 & b3 & e & He & ->)%level_header Ha Hx. apply level_memory_header. exists b2, b3, (e ++ x). rewrite header_app.
  destruct lv as [l|l [k|]]; cbn [level_add] in Ha; try done; injection Ha as <-; cbn [level_image level_type level_length has_name andb negb] in *; split.
  - rewrite array_image_app. cbn [array_image]. rewrite app_nil_r. by apply Forall2_app.
  - by rewrite zlen_app, Z.add_0_r.
  - rewrite app_nil_r, object_image_app. cbn [object_image]. rewrite app_nil_r, (assoc_L (++)). by apply Forall2_app.
  - by rewrite zlen_app, Z.add_0_r.
Qed.

Section Ops.
Context `{Build} `{Env}.

Lemma lift_assert1 {S A} b (k : unit -> cmd S A) s : (lift (assert1 b) ≫= k) s = if b then k tt s else Abort.
Proof. by destruct b. Qed.

Lemma open_index s : 1 <= open s <= LIMIT -> u32 (open s - 1) = open s - 1.
Proof. intros. apply u32_small. unfold is_u32, LIMIT in *. lia. Qed.

Section Level.
Context (s : jstack) (o : frame) (lv : level) (u m : list Z) (outer : Z).
Hypothesis Hh : holds o s (u ++ m).
Hypothesis Hu : zlen u = 16 * (open s - 1).
Hypothesis Hm : level_memory lv false outer m.
Hypothesis Ho : 1 <= open s <= LIMIT.

Lemma check_value_at : check_value s = if ready lv then Ret (open s - 1, s) else Abort.
Proof.
  apply level_header in Hm as (b2 & b3 & e & He & Em). rewrite Em in Hh.
  unfold check_value. unfold mbind at 1, cmd_bind at 1, gets. rewrite open_index by done. rewrite lift_assert1.
  rewrite (proj2 (Z.eqb_neq (open s) 0)) by lia. cbn [negb].
  rewrite (cmd_bind_ret _ _ _ _ _ (peek_type o s u _ _ _ _ _ _ _ _ _ Hh Hu (level_type_u32 lv))).
  rewrite (cmd_bind_ret _ _ _ _ _ (peek_no_value o s u _ _ _ _ _ _ _ _ _ Hh Hu)). rewrite lift_assert1, ready_test.
  assert (match lv with LArray _ => true | LObject _ _ => has_name lv && negb false end = ready lv) as -> by (by destruct lv as [|? []]).
  destruct (ready lv); [|done]. by rewrite lift_assert1, level_type_test.
Qed.

Lemma add_value_at sz :
  0 <= sz -> count s + sz <= LIMIT ->
  if ready lv then
    (exists s' m' x, sxe_jitson_stack_add_value sz s = Ret (count s, s') /\ level_memory lv true outer m' /\ zlen m' = zlen m /\ zlen x = 16 * sz /\
      holds o s' ((u ++ m') ++ x)) \/
    (sxe_jitson_stack_add_value sz s = Ret (SXE_JITSON_STACK_ERROR, s) /\ out_of_memory)
  else sxe_jitson_stack_add_value sz s = Abort.
Proof.
  intros Hsz Hlim. unfold sxe_jitson_stack_add_value. pose proof check_value_at as Hcv. destruct (ready lv); [|unfold mbind, cmd_bind; by rewrite Hcv].
  rewrite (cmd_bind_ret _ _ _ _ _ Hcv).
  pose proof (level_memory_zlen _ _ _ _ Hm) as Hlen. pose proof (level_length_bound lv) as Hlen0. apply level_header in Hm as (b2 & b3 & e & He & Em). rewrite Em in *.
  assert (HL : LIMIT < 4294967296) by done. pose proof (h_count _ _ _ Hh) as Hc. rewrite zlen_app in Hc. pose proof (zlen_nonneg u).
  assert (Hlu : is_u32 (level_length lv + 1)) by (unfold is_u32, LIMIT in *; lia).
  destruct (expand_holds o s _ sz Hh Hsz Hlim) as [(s1 & x & E1 & Hs1 & Hx & _)|[E1 Hoom]].
  2: { right. by rewrite (cmd_bind_ret _ _ _ _ _ E1), Z.eqb_refl. }
  left. rewrite (cmd_bind_ret _ _ _ _ _ E1). rewrite (proj2 (Z.eqb_neq (count s) SXE_JITSON_STACK_ERROR)) by (unfold SXE_JITSON_STACK_ERROR, LIMIT in *; lia).
  rewrite <-(assoc_L (++)), header_app in Hs1.
  assert (Hl1 : is_u32 (level_length lv + Z.b2z false)) by (rewrite Z.add_0_r; unfold is_u32 in *; lia).
  rewrite (cmd_bind_ret _ _ _ _ _ (peek_len o s1 u _ _ _ _ _ _ _ _ _ Hs1 Hu Hl1)). cbn [Z.b2z]. rewrite Z.add_0_r, (u32_small (level_length lv + 1)) by done.
  destruct (poke_len o s1 u _ _ _ _ _ _ _ _ _ Hs1 Hu (level_length lv + 1)) as (s2 & E2 & Hs2). rewrite (cmd_bind_ret _ _ _ _ _ E2).
  destruct (poke_no_value o s2 u _ _ _ _ _ _ _ _ _ Hs2 Hu 0) as (s3 & E3 & Hs3). rewrite (cmd_bind_ret _ _ _ _ _ E3).
  exists s3, (header (level_type lv) (level_length lv + 1) 0 0 b2 b3 outer e), x. split_and!; [done| | |done|].
  - apply level_memory_header. exists b2, b3, e. split; [done|]. by rewrite andb_false_r.
  - by rewrite !header_zlen.
  - by rewrite <-(assoc_L (++)), header_app.
Qed.
End Level.

(** ** Copied strings *)

Lemma slice_between (pre l post : list Z) i n : i = zlen pre -> n = zlen l -> slice (pre ++ l ++ post) i n = Some l.
Proof. intros -> ->. apply slice_mid. Qed.

(** Storing over the whole or the start of tokens at the end of the memory. *)
Lemma write_end o s u x bytes index :
  holds o s (u ++ x) -> zlen u = 16 * index -> 0 < zlen x -> zlen bytes <= zlen x ->
  exists s' y, poke (fun m => wr_bytes m (tok index) bytes) s = Ret (tt, s') /\ holds o s' (u ++ bytes ++ y) /\ zlen (bytes ++ y) = zlen x.
Proof.
  intros Hh Hu Hx Hb. destruct (split_memory x (zlen bytes)) as (a & y & -> & Ha & Hy); [pose proof (zlen_nonneg bytes); lia|].
  destruct (poke_holds o s _ (u ++ bytes ++ y) (fun m => wr_bytes m (tok index) bytes) Hh) as (s' & E & Hs').
  { rewrite zlen_app. pose proof (zlen_nonneg u). lia. }
  { intros junk. rewrite <-!(assoc_L (++)). apply wr_bytes_mid; [unfold tok; lia|done]. }
  { rewrite !zlen_app. lia. }
  exists s', y. split_and!; [done|done|]. rewrite !zlen_app. lia.
Qed.

Lemma push_tokens_at o fuel : forall s u pre rest,
  holds o s u -> (length rest < fuel)%nat -> count s + zlen rest / 16 + 1 <= LIMIT ->
  (exists s' pad, push_tokens fuel (pre ++ rest ++ [0]) (zlen pre) (zlen rest) s = Ret (success, s') /\ holds o s' (u ++ rest ++ 0 :: pad) /\
    zlen (rest ++ 0 :: pad) = 16 * (zlen rest / 16 + 1)) \/
  (exists s', push_tokens fuel (pre ++ rest ++ [0]) (zlen pre) (zlen rest) s = Ret (Some ENOMEM, s') /\ out_of_memory).
Proof.
  induction fuel as [|fuel IH]; intros s u pre rest Hh Hf Hlim; [lia|]. cbn [push_tokens]. pose proof (zlen_nonneg rest) as Hr0. pose proof (h_count _ _ _ Hh) as Hu. pose proof (zlen_nonneg u).
  assert (HL : LIMIT < 4294967295) by done.
  destruct (expand_holds o s u 1 Hh) as [(s1 & x & E1 & Hs1 & Hx & _)|[E1 Hoom]]; [lia|Z.to_euclidean_division_equations; lia| |].
  2: { right. exists s. rewrite (cmd_bind_ret _ _ _ _ _ E1), Z.eqb_refl. done. }
  assert (Hcs : count s < LIMIT) by (Z.to_euclidean_division_equations; lia).
  rewrite (cmd_bind_ret _ _ _ _ _ E1), (proj2 (Z.eqb_neq (count s) SXE_JITSON_STACK_ERROR)) by (unfold SXE_JITSON_STACK_ERROR; lia).
  unfold SXE_JITSON_TOKEN_SIZE. destruct (Z.ltb_spec (zlen rest) 16) as [Hlt|Hge].
  - assert (slice (pre ++ rest ++ [0]) (zlen pre) (zlen rest + 1) = Some (rest ++ [0])) as ->.
    { pose proof (slice_between pre (rest ++ [0]) [] (zlen pre) (zlen rest + 1) eq_refl) as E. rewrite app_nil_r in E. apply E. by rewrite zlen_app. }
    cbn [load]. rewrite (lift_ret _ _ _ (rest ++ [0]) eq_refl).
    destruct (write_end o s1 u x (rest ++ [0]) (count s) Hs1 Hu ltac:(lia) ltac:(rewrite zlen_app; change (zlen [0]) with 1; lia)) as (s2 & y & E2 & Hs2 & Hy).
    rewrite (cmd_bind_ret _ _ _ _ _ E2). left. exists s2, y. rewrite <-(assoc_L (++)) in Hs2, Hy. split_and!; [done|done|].
    rewrite Z.div_small by lia. change (rest ++ [0] ++ y) with (rest ++ 0 :: y) in Hy. lia.
  - destruct (split_memory rest 16) as (a & b & -> & Ha & Hb); [lia|].
    assert (slice (pre ++ (a ++ b) ++ [0]) (zlen pre) 16 = Some a) as ->.
    { rewrite <-(assoc_L (++) a). by apply slice_between. }
    cbn [load]. rewrite (lift_ret _ _ _ a eq_refl).
    destruct (write_end o s1 u x a (count s) Hs1 Hu ltac:(lia) ltac:(lia)) as (s2 & y & E2 & Hs2 & Hy).
    rewrite (cmd_bind_ret _ _ _ _ _ E2). assert (y = []) as -> by (rewrite zlen_app in Hy; destruct y; [done|rewrite zlen_cons in Hy; pose proof (zlen_nonneg y); lia]).
    rewrite app_nil_r in Hs2. rewrite zlen_app, Ha in *. replace (zlen pre + 16) with (zlen (pre ++ a)) by (rewrite zlen_app; lia).
    replace (16 + zlen b - 16) with (zlen b) by lia. replace (pre ++ (a ++ b) ++ [0]) with ((pre ++ a) ++ b ++ [0]) by (by rewrite <-!(assoc_L (++))).
    assert (Hdiv : (16 + zlen b) / 16 = 1 + zlen b / 16) by (Z.to_euclidean_division_equations; lia).
    destruct (IH s2 (u ++ a) (pre ++ a) b Hs2) as [(s3 & pad & E3 & Hs3 & Hz)|Hoom].
    { rewrite length_app in Hf. unfold zlen in Ha. lia. }
    { pose proof (h_count _ _ _ Hs2) as Hc2. rewrite zlen_app in Hc2. lia. }
    + left. exists s3, pad. rewrite <-!(assoc_L (++)) in *. split_and!; [done|done|]. rewrite (zlen_app a). lia.
    + by right.
Qed.

(** Storing the first bytes of a string in its first token. *)
Lemma first_bytes_at o s u ty n z bytes index :
  holds o s (u ++ bytes32 ty ++ bytes32 n ++ z) -> zlen u = 16 * index -> zlen bytes <= zlen z ->
  exists s' y, poke (fun m => set_bytes m index 0 bytes) s = Ret (tt, s') /\ holds o s' (u ++ bytes32 ty ++ bytes32 n ++ bytes ++ y) /\ zlen y = zlen z - zlen bytes.
Proof.
  intros Hh Hu Hb. destruct (split_memory z (zlen bytes)) as (a & y & -> & Ha & Hy); [pose proof (zlen_nonneg bytes); lia|].
  destruct (poke_holds o s _ (u ++ bytes32 ty ++ bytes32 n ++ bytes ++ y) (fun m => set_bytes m index 0 bytes) Hh) as (s' & E & Hs').
  { rewrite !zlen_app, !zlen_bytes32. pose proof (zlen_nonneg u). pose proof (zlen_nonneg a). pose proof (zlen_nonneg y). lia. }
  { intros junk. by apply (set_bytes_app u (bytes32 ty) (bytes32 n) [] a bytes y junk index 0). }
  { rewrite !zlen_app. lia. }
  by exists s', y.
Qed.

(** A copied string, as a value or as a name. *)
Lemma push_string_at o s u str ty :
  holds o s u -> no_nul str -> ty = 0 \/ ty = SXE_JITSON_TYPE_IS_KEY -> count s + string_tokens (zlen str) <= LIMIT -> zlen str < LIMIT ->
  (exists s' x, sxe_jitson_stack_push_string (copied str) ty s = Ret (success, s') /\ has_image (string_image (Z.lor SXE_JITSON_TYPE_STRING ty) str) x /\ holds o s' (u ++ x)) \/
  (exists s', sxe_jitson_stack_push_string (copied str) ty s = Ret (Some ENOMEM, s') /\ out_of_memory).
Proof.
  intros Hh Hn Hty Hlim Hlen. pose proof (zlen_nonneg str) as H0'. pose proof (h_count _ _ _ Hh) as Hu. assert (HL : LIMIT < 4294967295) by done.
  assert (1 <= string_tokens (zlen str)) by (unfold string_tokens; Z.to_euclidean_division_equations; lia). pose proof (zlen_nonneg u).
  unfold sxe_jitson_stack_push_string, copied. cbn [c_memory c_address].
  destruct (expand_holds o s u 1 Hh) as [(s1 & x & E1 & Hs1 & Hx & _)|[E1 Hoom]]; [lia..| |].
  2: { right. exists s. rewrite (cmd_bind_ret _ _ _ _ _ E1), Z.eqb_refl. done. }
  rewrite (cmd_bind_ret _ _ _ _ _ E1), (proj2 (Z.eqb_neq (count s) SXE_JITSON_STACK_ERROR)) by (unfold SXE_JITSON_STACK_ERROR; lia).
  assert (negb (Z.land ty SXE_JITSON_TYPE_IS_OWN =? 0) = false) as -> by (by destruct Hty as [-> | ->]).
  assert (negb (Z.land ty SXE_JITSON_TYPE_IS_REF =? 0) = false) as -> by (by destruct Hty as [-> | ->]).
  destruct (new_type_at o u (count s) Hu s1 x (Z.lor SXE_JITSON_TYPE_STRING ty) Hs1 Hx) as (s2 & y & E2 & Hs2 & Hy). rewrite (cmd_bind_ret _ _ _ _ _ E2).
  rewrite strlen_app by done. cbn [load]. rewrite (lift_ret _ _ _ (zlen str) eq_refl).
  rewrite u32_small, Z.eqb_refl by (unfold is_u32; lia). cbn [negb].
  destruct (new_len_at o u (count s) Hu s2 _ y (zlen str) Hs2 Hy) as (s3 & z & E3 & Hs3 & Hz). rewrite (cmd_bind_ret _ _ _ _ _ E3).
  unfold SXE_JITSON_STRING_SIZE. destruct (Z.ltb_spec (zlen str) 8) as [Hlt|Hge].
  - assert (slice (str ++ [0]) 0 (zlen str + 1) = Some (str ++ [0])) as ->.
    { pose proof (slice_between [] (str ++ [0]) [] 0 (zlen str + 1) eq_refl) as E. rewrite app_nil_r in E. apply E. by rewrite zlen_app. }
    cbn [load]. rewrite (lift_ret _ _ _ (str ++ [0]) eq_refl).
    destruct (first_bytes_at o s3 u _ _ z (str ++ [0]) (count s) Hs3 Hu) as (s4 & pad & E4 & Hs4 & Hpad); [rewrite zlen_app; change (zlen [0]) with 1; lia|].
    rewrite (cmd_bind_ret _ _ _ _ _ E4). left. rewrite <-(assoc_L (++)) in Hs4. eexists s4, _. split; [done|]. split; [|exact Hs4].
    apply string_has_image. unfold pad_ok. rewrite zlen_cons, Hpad, Hz, zlen_app. change (zlen [0]) with 1.
    assert (string_tokens (zlen str) = 1) as -> by (unfold string_tokens; Z.to_euclidean_division_equations; lia). lia.
  - destruct (split_memory str 8) as (a & b & -> & Ha & Hb); [lia|].
    assert (slice ((a ++ b) ++ [0]) 0 8 = Some a) as -> by (rewrite <-(assoc_L (++)); by apply (slice_between [])).
    cbn [load]. rewrite (lift_ret _ _ _ a eq_refl).
    destruct (first_bytes_at o s3 u _ _ z a (count s) Hs3 Hu) as (s4 & y4 & E4 & Hs4 & Hy4); [lia|].
    assert (y4 = []) as -> by (destruct y4; [done|rewrite zlen_cons in Hy4; pose proof (zlen_nonneg y4); lia]).
    rewrite (cmd_bind_ret _ _ _ _ _ E4). rewrite app_nil_r in Hs4. pose proof (h_count _ _ _ Hs4) as Hc4.
    assert (Hz4 : zlen (u ++ bytes32 (Z.lor SXE_JITSON_TYPE_STRING ty) ++ bytes32 (zlen (a ++ b)) ++ a) = zlen u + 16) by (rewrite !zlen_app, !zlen_bytes32; lia).
    assert (Htok : string_tokens (zlen (a ++ b)) = 2 + zlen b / 16) by (rewrite zlen_app, Ha; unfold string_tokens; Z.to_euclidean_division_equations; lia).
    set (fuel := S (Z.to_nat (zlen (a ++ b)))). assert (Hfuel : (length b < fuel)%nat) by (unfold fuel; rewrite zlen_app; unfold zlen; lia).
    assert (push_tokens fuel ((a ++ b) ++ [0]) 8 (zlen (a ++ b) - 8) = push_tokens fuel (a ++ b ++ [0]) (zlen a) (zlen b)) as ->.
    { rewrite <-(assoc_L (++)). f_equal; lia. }
    destruct (push_tokens_at o fuel s4 _ a b Hs4 Hfuel) as [(s5 & pad & E5 & Hs5 & Hz5)|Hoom]; [lia| |by right].
    left. rewrite <-!(assoc_L (++)) in Hs5. eexists s5, _. split; [exact E5|]. split; [|exact Hs5].
    rewrite (assoc_L (++) a b). apply string_has_image. unfold pad_ok. rewrite zlen_app in Hz5. rewrite Htok, (zlen_app a b). lia.
Qed.

(** ** Values *)

Lemma count_bound o s u : holds o s u -> 0 <= count s <= LIMIT.
Proof.
  intros [_ Hc Hm Hmem]. pose proof (zlen_nonneg u). split; [lia|]. destruct (jitsons s) as [m|]; [|subst u; change (zlen []) with 0 in Hc; lia].
  destruct Hmem as (Hz & junk & ->). rewrite zlen_app in Hz. pose proof (zlen_nonneg junk). lia.
Qed.

(** Making a value in a token at the end of the memory. *)
Definition makes (make : Z -> cmd jstack unit) (v : json) : Prop :=
  forall o s base x index, zlen base = 16 * index -> holds o s (base ++ x) -> zlen x = 16 ->
  exists s' y, make index s = Ret (tt, s') /\ holds o s' (base ++ y) /\ has_image (image v) y.

Lemma make_null_makes : makes sxe_jitson_make_null JNull.
Proof.
  intros o s base x index Hb Hs Hx. destruct (new_type_at o base index Hb s x SXE_JITSON_TYPE_NULL Hs Hx) as (s' & y & E & Hs' & Hy).
  eexists s', _. split; [exact E|]. split; [exact Hs'|]. by apply null_image.
Qed.

Lemma make_bool_makes b : makes (fun i => sxe_jitson_make_bool i b) (JBool b).
Proof.
  intros o s base x index Hb Hs Hx. destruct (new_type_at o base index Hb s x SXE_JITSON_TYPE_BOOL Hs Hx) as (s1 & y & E1 & Hs1 & Hy).
  destruct (new_byte_at o base index Hb s1 _ y (Z.b2z b) Hs1 Hy) as (s2 & l & r & E2 & Hs2 & Hl & Hr).
  unfold sxe_jitson_make_bool. rewrite (cmd_bind_ret _ _ _ _ _ E1). eexists s2, _. split; [exact E2|]. split; [exact Hs2|]. by apply bool_image.
Qed.

Lemma make_integer_makes ty v o s base x index :
  zlen base = 16 * index -> holds o s (base ++ x) -> zlen x = 16 ->
  exists s' y, (poke (fun m => set_type m index ty);; poke (fun m => set_integer m index v)) s = Ret (tt, s') /\ holds o s' (base ++ y) /\
    has_image (given (bytes32 ty) ++ blank 4 ++ given (bytes64 v)) y.
Proof.
  intros Hb Hs Hx. destruct (new_type_at o base index Hb s x ty Hs Hx) as (s1 & y & E1 & Hs1 & Hy).
  destruct (new_integer_at o base index Hb s1 _ y v Hs1 Hy) as (s2 & l & E2 & Hs2 & Hl).
  rewrite (cmd_bind_ret _ _ _ _ _ E1). eexists s2, _. split; [exact E2|]. split; [exact Hs2|]. by apply number_image.
Qed.

Lemma make_uint_makes u : makes (fun i => sxe_jitson_make_uint i u) (JUint u).
Proof. intros o s base x index. apply make_integer_makes. Qed.
Lemma make_number_makes d : makes (fun i => sxe_jitson_make_number i d) (JNumber d).
Proof. intros o s base x index. apply make_integer_makes. Qed.

(** ** The operations on a builder *)

(** How a call of an operation ends. *)
Definition built (b : option builder) (out : outcome (result * jstack)) : Prop :=
  match b with
  | Some b => (exists s, out = Ret (success, s) /\ builds s b) \/ (exists s, out = Ret (Some ENOMEM, s) /\ out_of_memory)
  | None => out = Abort
  end.

(** A builder with a collection open, taken apart. *)
Record opened (s : jstack) (done : list json) (lv : level) (ls : list level) (base u m : list Z) (outer : Z) : Prop := {
  op_base : has_image (array_image done) base;
  op_levels : levels_hold base ls true outer u;
  op_level : level_memory lv false outer m;
  op_index : zlen u = 16 * (open s - 1);
  op_holds : stack_holds (open s) s (u ++ m);
  op_bound : 1 <= open s <= LIMIT
}.

Lemma builds_opened s done lv ls : builds s (mk_builder done (lv :: ls)) -> exists base u m outer, opened s done lv ls base u m outer.
Proof.
  intros (base & u & Hb & Hl & Hs). cbn [b_done b_open levels_hold] in *. destruct Hl as (outer & u0 & m & Hl & -> & Hm & Hu & _).
  exists base, u0, m, outer. split; [done..|]. pose proof (level_memory_zlen _ _ _ _ Hm). pose proof (level_length_bound lv). pose proof (count_bound _ _ _ Hs).
  pose proof (h_count _ _ _ Hs) as Hc. rewrite zlen_app in Hc. pose proof (zlen_nonneg u0). lia.
Qed.

Lemma opened_builds s done lv ls base u m outer : opened s done lv ls base u m outer -> builds s (mk_builder done (lv :: ls)).
Proof.
  intros [Hb Hl Hm Hu Hs _]. exists base, (u ++ m). split_and!; [done| |done]. exists outer, u, m. by split_and!.
Qed.

(** The stack of an open collection, after the memory of the collection has changed. *)
Lemma opened_step s done lv ls base u m outer lv' m' s' :
  opened s done lv ls base u m outer -> level_memory lv' false outer m' -> stack_holds (open s) s' (u ++ m') -> opened s' done lv' ls base u m' outer.
Proof.
  intros [Hb Hl Hm Hu Hs Ho] Hm' Hs'. pose proof (h_open _ _ _ Hs') as Hop. cbn [f_open] in Hop. split; by rewrite ?Hop.
Qed.

Lemma add_made_built make v s done lv ls :
  makes make v -> builds s (mk_builder done (lv :: ls)) -> count s + 1 <= LIMIT ->
  built (lv ← level_add v lv; Some (mk_builder done (lv :: ls))) (add_made make s).
Proof.
  intros Hmake Hb%builds_opened Hlim. destruct Hb as (base & u & m & outer & Hop). pose proof Hop as [_ _ Hm Hu Hs Ho].
  unfold add_made. pose proof (add_value_at s _ lv u m outer Hs Hu Hm Ho 1 ltac:(lia) Hlim) as Hadd. pose proof (count_bound _ _ _ Hs). assert (HL : LIMIT < 4294967295) by done.
  destruct (ready lv) eqn:Er; [|rewrite (not_ready_add _ _ Er); cbn; unfold mbind, cmd_bind; by rewrite Hadd].
  destruct (ready_add v lv Er) as [lv' Elv]. rewrite Elv. cbn.
  destruct Hadd as [(s1 & m' & x & E1 & Hm' & Hz & Hx & Hs1)|[E1 Hoom]].
  2: { right. exists s. rewrite (cmd_bind_ret _ _ _ _ _ E1), Z.eqb_refl. done. }
  left. rewrite (cmd_bind_ret _ _ _ _ _ E1), (proj2 (Z.eqb_neq (count s) SXE_JITSON_STACK_ERROR)) by (unfold SXE_JITSON_STACK_ERROR; lia).
  assert (Hc : zlen (u ++ m') = 16 * count s) by (rewrite <-(h_count _ _ _ Hs), !zlen_app, Hz; done).
  destruct (Hmake _ s1 (u ++ m') x (count s) Hc Hs1 Hx) as (s2 & y & E2 & Hs2 & Hy). rewrite (cmd_bind_ret _ _ _ _ _ E2).
  exists s2. split; [done|]. rewrite <-(assoc_L (++)) in Hs2. eapply opened_builds, opened_step; [exact Hop| |exact Hs2].
  by eapply level_value_added.
Qed.

(** A key of the open object. *)
Lemma add_member_name_built k s done ls :
  builds s (mk_builder done ls) -> no_nul k -> zlen k < LIMIT -> count s + string_tokens (zlen k) <= LIMIT ->
  built (build_spec (BName k) (mk_builder done ls)) (build_run (BName k) s).
Proof.
  intros Hb Hk Hlen Hlim. cbn [build_run]. unfold sxe_jitson_stack_add_member_name. unfold mbind at 1, cmd_bind at 1, gets. rewrite lift_assert1.
  destruct ls as [|lv ls].
  { destruct Hb as (base & u & _ & [-> _] & _). done. }
  apply builds_opened in Hb as (base & u & m & outer & Hop). pose proof Hop as [_ _ Hm Hu Hs Ho].
  rewrite (proj2 (Z.eqb_neq (open s) 0)) by lia. cbn [negb]. rewrite open_index by done.
  apply level_header in Hm as (b2 & b3 & e & He & ->).
  rewrite (cmd_bind_ret _ _ _ _ _ (peek_type _ s u _ _ _ _ _ _ _ _ _ Hs Hu (level_type_u32 lv))), lift_assert1.
  destruct lv as [l|l k']; [done|]. cbn [level_type]. rewrite Z.eqb_refl.
  rewrite (cmd_bind_ret _ _ _ _ _ (peek_no_value _ s u _ _ _ _ _ _ _ _ _ Hs Hu)), lift_assert1. destruct k' as [k'|]; [done|]. cbn [has_name andb Z.b2z Z.eqb].
  rewrite lift_assert1. cbn [string_flags_ok Z.lnot]. replace (string_flags_ok SXE_JITSON_TYPE_IS_COPY) with true by done.
  destruct (poke_no_value _ s u _ _ _ _ _ _ _ _ _ Hs Hu 1) as (s1 & E1 & Hs1). rewrite (cmd_bind_ret _ _ _ _ _ E1).
  assert (Hc1 : count s1 = count s) by (pose proof (h_count _ _ _ Hs); pose proof (h_count _ _ _ Hs1); rewrite zlen_app, header_zlen in *; lia).
  destruct (push_string_at _ s1 _ k SXE_JITSON_TYPE_IS_KEY Hs1 Hk (or_intror eq_refl)) as [(s2 & x & E2 & Hx & Hs2)|(s2 & E2 & Hoom)]; [lia..| |].
  2: { right. by exists s2. }
  left. exists s2. split; [exact E2|]. rewrite <-(assoc_L (++)), header_app in Hs2. eapply opened_builds, opened_step; [exact Hop| |exact Hs2].
  apply level_memory_header. exists b2, b3, (e ++ x). split; [|done]. cbn [level_image] in *. rewrite app_nil_r in He. by apply Forall2_app.
Qed.

Lemma add_string_built str s done lv ls :
  builds s (mk_builder done (lv :: ls)) -> no_nul str -> zlen str < LIMIT -> count s + string_tokens (zlen str) <= LIMIT ->
  built (lv ← level_add (JString str) lv; Some (mk_builder done (lv :: ls))) (build_run (BString str) s).
Proof.
  intros (base & u & m & outer & Hop)%builds_opened Hk Hlen Hlim. pose proof Hop as [_ _ Hm Hu Hs Ho].
  cbn [build_run]. unfold sxe_jitson_stack_add_string. pose proof (check_value_at s _ lv u m outer Hs Hu Hm Ho) as Hcv.
  destruct (ready lv) eqn:Er; [|rewrite (not_ready_add _ _ Er); cbn; unfold mbind, cmd_bind; by rewrite Hcv].
  rewrite (cmd_bind_ret _ _ _ _ _ Hcv), lift_assert1. replace (string_flags_ok SXE_JITSON_TYPE_IS_COPY) with true by done.
  destruct (ready_add (JString str) lv Er) as [lv' Elv]. rewrite Elv. cbn [mbind option_bind built].
  pose proof (level_memory_zlen _ _ _ _ Hm) as Hml. pose proof (level_length_bound lv) as Hl0. pose proof (count_bound _ _ _ Hs). assert (HL : LIMIT < 4294967295) by done.
  pose proof (h_count _ _ _ Hs) as Hc. rewrite zlen_app in Hc. pose proof (zlen_nonneg u).
  assert (is_u32 (level_length lv + 1)) by (unfold is_u32; lia). assert (is_u32 (level_length lv)) by (unfold is_u32; lia).
  apply level_header in Hm as (b2 & b3 & e & He & Em). subst m. cbn [Z.b2z] in Hs. rewrite Z.add_0_r in Hs.
  destruct (poke_no_value _ s u _ _ _ _ _ _ _ _ _ Hs Hu 0) as (s1 & E1 & Hs1). rewrite (cmd_bind_ret _ _ _ _ _ E1).
  assert (Hc1 : count s1 = count s) by (pose proof (h_count _ _ _ Hs1); rewrite zlen_app, header_zlen in *; lia).
  destruct (push_string_at _ s1 _ str 0 Hs1 Hk (or_introl eq_refl)) as [(s2 & x & E2 & Hx & Hs2)|(s2 & E2 & Hoom)]; [lia..| |].
  2: { right. exists s2. change SXE_JITSON_TYPE_IS_COPY with 0. rewrite (cmd_bind_ret _ _ _ _ _ E2). done. }
  left. change SXE_JITSON_TYPE_IS_COPY with 0. rewrite (cmd_bind_ret _ _ _ _ _ E2). rewrite <-(assoc_L (++)), header_app in Hs2.
  rewrite (cmd_bind_ret _ _ _ _ _ (peek_len _ s2 u _ _ _ _ _ _ _ _ _ Hs2 Hu ltac:(done))), (u32_small (level_length lv + 1)) by done.
  destruct (poke_len _ s2 u _ _ _ _ _ _ _ _ _ Hs2 Hu (level_length lv + 1)) as (s3 & E3 & Hs3). rewrite (cmd_bind_ret _ _ _ _ _ E3).
  exists s3. split; [done|]. rewrite <-header_app in Hs3. eapply opened_builds, opened_step; [exact Hop| |exact Hs3].
  eapply level_value_added; [|exact Elv|exact Hx]. apply level_memory_header. exists b2, b3, e. split; [done|]. by rewrite andb_false_r.
Qed.

(** Storing into the end of the memory. *)
Lemma poke_tail o s u a b (f : list Z -> outcome (list Z)) :
  holds o s (u ++ a) -> 0 < zlen a -> zlen b = zlen a -> (forall junk, f ((u ++ a) ++ junk) = Ret ((u ++ b) ++ junk)) ->
  exists s', poke f s = Ret (tt, s') /\ holds o s' (u ++ b).
Proof.
  intros Hs Ha Hb Hf. apply (poke_holds o s _ _ _ Hs); [|done|by rewrite !zlen_app, Hb]. rewrite zlen_app. pose proof (zlen_nonneg u). lia.
Qed.

(** A token of any content becomes the header of a collection without elements. *)
Lemma new_header_at o s u x index ty :
  zlen u = 16 * index -> zlen x = 16 -> holds o s (u ++ x) ->
  exists s' b2 b3, (poke (fun m => set_type m index ty);; poke (fun m => set_len m index 0);; poke (fun m => set_no_value m index 0);;
    poke (fun m => set_nested m index 0);; poke (fun m => set_collection m index (f_open o));; modify (fun s => set_open s (u32 (index + 1)));; mret success) s =
      Ret (success, set_open s' (u32 (index + 1))) /\
    holds o s' (u ++ header ty 0 0 0 b2 b3 (f_open o) []).
Proof.
  intros Hu Hx Hs. destruct (new_type_at o u index Hu s x ty Hs Hx) as (s1 & y & E1 & Hs1 & Hy). rewrite (cmd_bind_ret _ _ _ _ _ E1).
  destruct (new_len_at o u index Hu s1 _ y 0 Hs1 Hy) as (s2 & z & E2 & Hs2 & Hz). rewrite (cmd_bind_ret _ _ _ _ _ E2).
  destruct (split_memory z 4) as (f & c & -> & Hf & Hc); [lia|]. rewrite Hz in Hc.
  destruct f as [|nv [|ne [|b2 [|b3 [|]]]]]; try (unfold zlen in Hf; simpl in Hf; lia). clear Hf. cbn [app] in Hs2.
  destruct (poke_tail o s2 u _ (bytes32 ty ++ bytes32 0 ++ 0 :: ne :: b2 :: b3 :: c) (fun m => set_no_value m index 0) Hs2) as (s3 & E3 & Hs3).
  { rewrite !zlen_app, !zlen_cons, !zlen_bytes32. pose proof (zlen_nonneg c). lia. }
  { by rewrite !zlen_app, !zlen_cons. }
  { intros junk. by apply (set_byte_app u (bytes32 ty) (bytes32 0) []). }
  rewrite (cmd_bind_ret _ _ _ _ _ E3).
  destruct (poke_tail o s3 u _ (bytes32 ty ++ bytes32 0 ++ 0 :: 0 :: b2 :: b3 :: c) (fun m => set_nested m index 0) Hs3) as (s4 & E4 & Hs4).
  { rewrite !zlen_app, !zlen_cons, !zlen_bytes32. pose proof (zlen_nonneg c). lia. }
  { by rewrite !zlen_app, !zlen_cons. }
  { intros junk. by apply (set_byte_app u (bytes32 ty) (bytes32 0) [0]). }
  rewrite (cmd_bind_ret _ _ _ _ _ E4).
  destruct (poke_tail o s4 u _ (header ty 0 0 0 b2 b3 (f_open o) []) (fun m => set_collection m index (f_open o)) Hs4) as (s5 & E5 & Hs5).
  { rewrite !zlen_app, !zlen_cons, !zlen_bytes32. pose proof (zlen_nonneg c). lia. }
  { rewrite header_zlen, !zlen_app, !zlen_cons, !zlen_bytes32, Hc. done. }
  { intros junk. pose proof (set_collection_app u (bytes32 ty) (bytes32 0) [0; 0; b2; b3] c (f_open o) [] junk index Hu eq_refl eq_refl eq_refl ltac:(lia)) as E.
    rewrite app_nil_r in E. exact E. }
  rewrite (cmd_bind_ret _ _ _ _ _ E5). by exists s5, b2, b3.
Qed.

(** The collection that is opened by it, once the stack has been expanded. *)
Lemma header_opens lv0 s s1 done ls base u x :
  (lv0 = LArray [] \/ lv0 = LObject [] None) -> has_image (array_image done) base -> levels_hold base ls true (open s) u ->
  zlen u = 16 * count s -> 0 <= count s < LIMIT -> zlen x = 16 -> stack_holds (open s) s1 (u ++ x) ->
  exists s', (poke (fun m => set_type m (count s) (level_type lv0));; poke (fun m => set_len m (count s) 0);;
      poke (fun m => set_no_value m (count s) 0);; poke (fun m => set_nested m (count s) 0);; poke (fun m => set_collection m (count s) (open s));;
      modify (fun s' => set_open s' (u32 (count s + 1)));; mret success) s1 = Ret (success, s') /\ builds s' (mk_builder done (lv0 :: ls)).
Proof.
  intros Hlv0 Hbase Hl Hu Hc Hx Hs1. assert (HL : LIMIT < 4294967295) by done.
  destruct (new_header_at _ s1 u x (count s) (level_type lv0) Hu Hx Hs1) as (s2 & b2 & b3 & E2 & Hs2). cbn [f_open] in *.
  rewrite E2. eexists. split; [reflexivity|]. eexists base, _. split; [done|]. cbn [b_open open set_open]. rewrite u32_small by (unfold is_u32; lia). split.
  - cbn [levels_hold]. eexists (open s), u, _. split; [exact Hl|]. split; [reflexivity|]. split; [|split; [lia|done]].
    apply level_memory_header. exists b2, b3, []. split; by destruct Hlv0 as [-> | ->].
  - destruct Hs2 as [_ Hc2 Hm2 Hmem2]. by destruct Hlv0 as [-> | ->]; split.
Qed.

(** Opening a collection, in the open one or by itself. *)
Lemma open_collection_built lv0 s done ls :
  (lv0 = LArray [] \/ lv0 = LObject [] None) -> builds s (mk_builder done ls) -> count s + 1 <= LIMIT ->
  built (if accepts ls then Some (mk_builder done (lv0 :: ls)) else None) (sxe_jitson_stack_open_collection (level_type lv0) s).
Proof.
  intros Hlv0 Hb Hlim. unfold sxe_jitson_stack_open_collection.
  assert ((level_type lv0 =? SXE_JITSON_TYPE_ARRAY) || (level_type lv0 =? SXE_JITSON_TYPE_OBJECT) = true) as -> by (by destruct Hlv0 as [-> | ->]).
  rewrite (lift_ret _ _ _ tt) by (unfold assert6; by destruct debug). rewrite (cmd_bind_ret _ _ _ (open s) s) by done. assert (HL : LIMIT < 4294967295) by done.
  destruct ls as [|lv ls].
  - destruct Hb as (base & u & Hbase & [Eo ->] & Hs). cbn [accepts b_done] in *. rewrite Eo in Hs. pose proof (count_bound _ _ _ Hs). pose proof (h_count _ _ _ Hs) as Hu.
    rewrite Eo at 1. cbn [Z.eqb negb].
    destruct (expand_holds _ s base 1 Hs) as [(s1 & x & E1 & Hs1 & Hx & _)|[E1 Hoom]]; [lia..| |]; rewrite (cmd_bind_ret _ _ _ _ _ E1).
    2: { right. by exists s. }
    rewrite (proj2 (Z.eqb_neq (count s) SXE_JITSON_STACK_ERROR)) by (unfold SXE_JITSON_STACK_ERROR; lia). left.
    apply (header_opens lv0 s s1 done [] base base x); rewrite ?Eo; [done..|lia|lia|done].
  - apply builds_opened in Hb as (base & u & m & outer & Hop). pose proof Hop as [Hbase Hl Hm Hu Hs Ho]. pose proof (count_bound _ _ _ Hs).
    rewrite (proj2 (Z.eqb_neq (open s) 0)) by lia. cbn [negb].
    assert (accepts (lv :: ls) = ready lv) as -> by (by destruct lv as [|l []]).
    pose proof (add_value_at s _ lv u m outer Hs Hu Hm Ho 1 ltac:(lia) Hlim) as Hadd. destruct (ready lv) eqn:Er.
    2: { cbn [built]. unfold mbind, cmd_bind. by rewrite Hadd. }
    destruct Hadd as [(s1 & m' & x & E1 & Hm' & Hz & Hx & Hs1)|[E1 Hoom]]; rewrite (cmd_bind_ret _ _ _ _ _ E1).
    2: { right. by exists s. }
    rewrite (proj2 (Z.eqb_neq (count s) SXE_JITSON_STACK_ERROR)) by (unfold SXE_JITSON_STACK_ERROR; lia). left.
    apply (header_opens lv0 s s1 done (lv :: ls) base (u ++ m') x); [done|done| | |lia|lia|done].
    + exists outer, u, m'. split_and!; [done..|]. by rewrite Er.
    + rewrite <-(h_count _ _ _ Hs), !zlen_app, Hz. done.
Qed.

(** A header with its size is that of a complete value. *)
Lemma closed_memory lv v e :
  level_value lv = Some v -> has_image (level_image lv) e ->
  has_image (image v) (bytes32 (level_type lv) ++ bytes32 (level_length lv) ++ bytes64 (1 + zlen e / 16) ++ e).
Proof.
  intros Hv He. destruct lv as [l|l [k|]]; cbn [level_value] in Hv; try done; injection Hv as <-;
    cbn [level_image level_type level_length] in *; rewrite ?app_nil_r in He; rewrite ?image_array, ?image_object; unfold collection_image;
    rewrite <-(zlen_image _ _ _ He); repeat apply Forall2_app; by try apply given_image.
Qed.

(** The stack that the closed collection is left on. *)
Lemma closed_built s done lv ls base u outer v x :
  level_value lv = Some v -> has_image (array_image done) base -> levels_hold base ls true outer u -> stack_holds outer s (u ++ x) -> has_image (image v) x ->
  built (build_spec BClose (mk_builder done (lv :: ls))) (Ret (success, s)).
Proof.
  intros Hv Hbase Hl Hs Hx. cbn [build_spec]. rewrite Hv. cbn [mbind option_bind]. pose proof (h_open _ _ _ Hs) as Hop. cbn [f_open] in Hop.
  destruct ls as [|lv2 ls]; cbn [levels_hold] in Hl.
  - destruct Hl as [-> ->]. left. exists s. split; [done|]. exists (base ++ x), (base ++ x). cbn [b_done b_open]. rewrite Hop. split; [|by split].
    rewrite array_image_app. cbn [array_image]. rewrite app_nil_r. by apply Forall2_app.
  - destruct Hl as (outer2 & u2 & m2 & Hl & -> & Hm2 & Hu2 & Hr). destruct (ready_add v lv2 Hr) as [lv3 E3]. rewrite E3. left. exists s. split; [done|].
    exists base, ((u2 ++ m2) ++ x). cbn [b_done b_open]. rewrite Hop. split_and!; [done| |done]. exists outer2, u2, (m2 ++ x).
    split_and!; [done|by rewrite (assoc_L (++))|by eapply level_value_added|done|done].
Qed.

(** Closing the innermost collection. *)
Lemma close_collection_built s done ls :
  builds s (mk_builder done ls) -> built (build_spec BClose (mk_builder done ls)) (sxe_jitson_stack_close_collection s).
Proof.
  intros Hb. unfold sxe_jitson_stack_close_collection. rewrite (cmd_bind_ret _ _ _ (open s) s) by done. rewrite lift_assert1.
  destruct ls as [|lv ls]; [by destruct Hb as (base & u & _ & [-> _] & _)|].
  apply builds_opened in Hb as (base & u & m & outer & Hop). pose proof Hop as [Hbase Hl Hm Hu Hs Ho].
  rewrite (proj2 (Z.eqb_neq (open s) 0)) by lia. cbn [negb]. rewrite open_index by done.
  pose proof (level_memory_zlen _ _ _ _ Hm) as Hml. pose proof (level_length_bound lv) as Hl0. pose proof (count_bound _ _ _ Hs) as Hcb. assert (HL : LIMIT < 4294967295) by done.
  apply level_header in Hm as (b2 & b3 & e & He & ->).
  rewrite (cmd_bind_ret _ _ _ _ _ (peek_no_value _ s u _ _ _ _ _ _ _ _ _ Hs Hu)), lift_assert1. cbn [build_spec].
  destruct (level_value lv) as [v|] eqn:Ev; [|by destruct lv as [l|l [k|]]].
  assert (has_name lv = false) as -> by (by destruct lv as [l|l [k|]]). cbn [andb Z.b2z Z.eqb].
  rewrite (cmd_bind_ret _ _ _ _ _ (peek_nested _ s u _ _ _ _ _ _ _ _ _ Hs Hu)), lift_assert1. cbn [Z.eqb].
  destruct (levels_open _ _ _ _ _ Hl) as (Hout & _). rewrite (cmd_bind_ret _ _ _ _ _ (peek_collection _ s u _ _ _ _ _ _ _ _ _ Hs Hu ltac:(unfold is_u32; lia))).
  rewrite (cmd_bind_ret _ _ _ tt (set_open s outer)) by done. rewrite (cmd_bind_ret _ _ _ (count s) (set_open s outer)) by done.
  assert (Hs1 : stack_holds outer (set_open s outer) (u ++ header (level_type lv) (level_length lv + 0) 0 0 b2 b3 outer e)).
  { destruct Hs as [_ Hc Hmx Hmem]. assert (has_name lv && negb false = false) as E by (by destruct lv as [l|l [k|]]). rewrite E in *. by split. }
  pose proof (h_count _ _ _ Hs) as Hc. rewrite zlen_app, header_zlen in Hc. pose proof (zlen_nonneg e) as He0. pose proof (zlen_nonneg u).
  assert (Hsize : u32 (count s - (open s - 1)) = 1 + zlen e / 16).
  { rewrite u32_small by (unfold is_u32; lia). Z.to_euclidean_division_equations; lia. }
  rewrite Hsize.
  destruct (poke_tail _ _ u _ (bytes32 (level_type lv) ++ bytes32 (level_length lv) ++ bytes64 (1 + zlen e / 16) ++ e) (fun m => set_integer m (open s - 1) (1 + zlen e / 16)) Hs1)
    as (s2 & E2 & Hs2).
  { rewrite header_zlen. lia. }
  { rewrite header_zlen, !zlen_app, !zlen_bytes32, zlen_bytes64. lia. }
  { intros junk. unfold header. rewrite Z.add_0_r. by apply set_integer_app. }
  rewrite (cmd_bind_ret _ _ _ _ _ E2). pose proof (closed_built s2 done lv ls base u outer v _ Ev Hbase Hl Hs2 (closed_memory _ _ _ Ev He)) as E.
  cbn [build_spec] in E. by rewrite Ev in E.
Qed.

(** ** Sequences of calls *)

(** The tokens of a builder. *)
Fixpoint levels_size (ls : list level) : Z := match ls with [] => 0 | lv :: ls => 16 + zlen (level_image lv) + levels_size ls end.
Definition builder_size (b : builder) : Z := zlen (array_image (b_done b)) + levels_size (b_open b).

Lemma levels_hold_zlen base ls child open u : levels_hold base ls child open u -> zlen u = zlen base + levels_size ls.
Proof.
  revert child open u. induction ls as [|lv ls IH]; intros child open u; cbn [levels_hold levels_size]; [intros [_ ->]; lia|].
  intros (outer & u0 & m & Hl & -> & (b2 & b3 & e & He & ->)%level_header & _). rewrite zlen_app, header_zlen, (IH _ _ _ Hl), (zlen_image _ _ _ He). lia.
Qed.

Lemma builds_count s b : builds s b -> 16 * count s = builder_size b.
Proof.
  intros (base & u & Hb & Hl & Hs). unfold builder_size. rewrite <-(h_count _ _ _ Hs), (levels_hold_zlen _ _ _ _ _ Hl), (zlen_image _ _ _ Hb). done.
Qed.

Lemma level_add_zlen v lv lv' : level_add v lv = Some lv' -> zlen (level_image lv') = zlen (level_image lv) + zlen (image v).
Proof.
  destruct lv as [l|l [k|]]; cbn [level_add]; intros Ha; try done; injection Ha as <-; cbn [level_image].
  - rewrite array_image_app, zlen_app. cbn [array_image]. by rewrite app_nil_r.
  - rewrite app_nil_r, object_image_app, !zlen_app. cbn [object_image]. rewrite app_nil_r, zlen_app. lia.
Qed.

Lemma level_value_zlen lv v : level_value lv = Some v -> zlen (image v) = 16 + zlen (level_image lv).
Proof.
  destruct lv as [l|l [k|]]; cbn [level_value]; intros Hv; try done; injection Hv as <-; cbn [level_image].
  - by rewrite image_array, collection_image_zlen.
  - by rewrite image_object, collection_image_zlen, app_nil_r.
Qed.

Lemma op_value_zlen op v : op_value op = Some v -> zlen (image v) = 16 * op_tokens op.
Proof. destruct op; cbn [op_value]; intros [= <-]; cbn [op_tokens]; [done..|]. apply string_image_zlen. Qed.

(** Every operation adds its tokens. *)
Lemma build_spec_size op b b' : build_spec op b = Some b' -> builder_size b' = builder_size b + 16 * op_tokens op.
Proof.
  destruct b as [done ls]. unfold builder_size.
  assert (Hadd : forall v lv ls, op_value op = Some v -> (lv' ← level_add v lv; Some (mk_builder done (lv' :: ls))) = Some b' ->
    zlen (array_image (b_done b')) + levels_size (b_open b') = zlen (array_image done) + levels_size (lv :: ls) + 16 * op_tokens op).
  { intros v lv ls' Hv. destruct (level_add v lv) as [lv'|] eqn:Ea; [|done]. cbn. intros [= <-]. cbn [b_done b_open levels_size].
    rewrite (level_add_zlen _ _ _ Ea), (op_value_zlen _ _ Hv). lia. }
  destruct op; cbn [build_spec]; try (destruct ls as [|lv ls]; [done|]; exact (Hadd _ lv ls eq_refl)); cbn [op_tokens b_done b_open].
  - destruct (accepts ls); intros [= <-]; cbn [b_done b_open levels_size level_image]. change (zlen (array_image [])) with 0. lia.
  - destruct (accepts ls); intros [= <-]; cbn [b_done b_open levels_size level_image]. change (zlen (object_image [] ++ [])) with 0. lia.
  - destruct ls as [|lv ls]; [done|]. destruct (level_value lv) as [v|] eqn:Ev; [|done]. pose proof (level_value_zlen _ _ Ev) as Hz. cbn [mbind option_bind].
    destruct ls as [|lv2 ls]; [|destruct (level_add v lv2) as [lv3|] eqn:Ea; [|done]; cbn [mbind option_bind]]; intros [= <-]; cbn [b_done b_open levels_size].
    + rewrite array_image_app, zlen_app. cbn [array_image]. rewrite app_nil_r. lia.
    + rewrite (level_add_zlen _ _ _ Ea). lia.
  - destruct ls as [|[l|l [k'|]] ls]; intros [= <-]; cbn [b_done b_open levels_size level_image]. rewrite app_nil_r, zlen_app, string_image_zlen. lia.
Qed.

Lemma check_value_alone s : open s = 0 -> check_value s = Abort.
Proof. intros E. unfold check_value. rewrite (cmd_bind_ret _ _ _ (open s) s) by done. by rewrite lift_assert1, E. Qed.

(** A value of one token, in a collection or by itself. *)
Lemma add_made_any make v s done ls :
  makes make v -> builds s (mk_builder done ls) -> count s + 1 <= LIMIT ->
  built (match ls with [] => None | lv :: ls => lv ← level_add v lv; Some (mk_builder done (lv :: ls)) end) (add_made make s).
Proof.
  intros Hmake Hb Hlim. destruct ls as [|lv ls]; [|by apply add_made_built].
  destruct Hb as (base & u & _ & [E _] & _). cbn [built]. unfold add_made, sxe_jitson_stack_add_value. unfold mbind, cmd_bind. by rewrite check_value_alone.
Qed.

(** Every call of the interface does what the specification says. *)
Lemma build_step s b op :
  builds s b -> no_nul (op_string op) -> zlen (op_string op) < LIMIT -> count s + op_tokens op <= LIMIT ->
  built (build_spec op b) (build_run op s).
Proof.
  intros Hb Hn Hlen Hlim. destruct b as [done ls]. destruct op; cbn [op_string op_tokens] in *.
  - apply (open_collection_built (LArray [])); auto.
  - apply (open_collection_built (LObject [] None)); auto.
  - by apply close_collection_built.
  - by apply add_member_name_built.
  - by apply (add_made_any _ JNull); [apply make_null_makes|..].
  - by apply (add_made_any _ (JBool b)); [apply make_bool_makes|..].
  - by apply (add_made_any _ (JUint u)); [apply make_uint_makes|..].
  - by apply (add_made_any _ (JNumber d)); [apply make_number_makes|..].
  - destruct ls as [|lv ls]; [|by apply add_string_built]. destruct Hb as (base & u & _ & [E _] & _). cbn [built build_spec build_run].
    unfold sxe_jitson_stack_add_string. unfold mbind, cmd_bind. by rewrite check_value_alone.
Qed.

(** What a caller must keep to: C strings, and room on the stack. *)
Definition op_ok (op : build_op) : Prop := no_nul (op_string op) /\ zlen (op_string op) < LIMIT.

Lemma op_tokens_nonneg op : 0 <= op_tokens op.
Proof.
  destruct op as [| | |k| | | | |k]; cbn [op_tokens]; try lia; pose proof (zlen_nonneg k); unfold string_tokens; Z.to_euclidean_division_equations; lia.
Qed.
Lemma ops_tokens_nonneg ops : 0 <= ops_tokens ops.
Proof. induction ops as [|op ops IH]; cbn [ops_tokens]; [lia|]. pose proof (op_tokens_nonneg op). lia. Qed.

Lemma and_then_success (a b : cmd jstack result) s s' : a s = Ret (success, s') -> and_then a b s = b s'.
Proof. intros E. unfold and_then. by rewrite (cmd_bind_ret _ _ _ _ _ E). Qed.

Definition no_memory (out : outcome (result * jstack)) : Prop := exists s, out = Ret (Some ENOMEM, s) /\ out_of_memory.

Lemma build_all_built ops : forall s b,
  builds s b -> Forall op_ok ops -> builder_size b + 16 * ops_tokens ops <= 16 * LIMIT ->
  built (build_specs ops b) (build_all ops s) \/ no_memory (build_all ops s).
Proof.
  induction ops as [|op ops IH]; intros s b Hb Hok Hlim; cbn [build_specs build_all ops_tokens] in *.
  { left. left. by exists s. }
  apply Forall_cons in Hok as [[Hn Hlen] Hok]. pose proof (builds_count _ _ Hb). pose proof (ops_tokens_nonneg ops).
  pose proof (build_step s b op Hb Hn Hlen ltac:(lia)) as Hstep. destruct (build_spec op b) as [b'|] eqn:E; cbn [mbind option_bind built] in *.
  - pose proof (build_spec_size _ _ _ E). destruct Hstep as [(s1 & E1 & Hb1)|(s1 & E1 & Hoom)].
    + rewrite (and_then_success _ _ _ _ E1). apply IH; [done|done|lia].
    + right. exists s1. split; [|done]. unfold and_then. by rewrite (cmd_bind_ret _ _ _ _ _ E1).
  - left. unfold and_then. unfold mbind, cmd_bind. by rewrite Hstep.
Qed.

(** ** The calls for a value *)

Lemma calls_array l : calls (JArray l) = BOpenArray :: array_calls l ++ [BClose].
Proof. done. Qed.
Lemma calls_object l : calls (JObject l) = BOpenObject :: object_calls l ++ [BClose].
Proof. done. Qed.

Definition calls_put (v : json) : Prop := forall b b' ops, put v b = Some b' -> build_specs (calls v ++ ops) b = build_specs ops b'.

Lemma array_calls_put l : Forall calls_put l -> forall done l0 ls ops,
  build_specs (array_calls l ++ ops) (mk_builder done (LArray l0 :: ls)) = build_specs ops (mk_builder done (LArray (l0 ++ l) :: ls)).
Proof.
  induction 1 as [|v l Hv _ IH]; intros done l0 ls ops; cbn [array_calls app]; [by rewrite app_nil_r|].
  rewrite <-(assoc_L (++)), (Hv (mk_builder done (LArray l0 :: ls)) (mk_builder done (LArray (l0 ++ [v]) :: ls)) _ eq_refl), IH, <-(assoc_L (++)). done.
Qed.

Lemma object_calls_put l : Forall (fun kv => calls_put (snd kv)) l -> forall done l0 ls ops,
  build_specs (object_calls l ++ ops) (mk_builder done (LObject l0 None :: ls)) = build_specs ops (mk_builder done (LObject (l0 ++ l) None :: ls)).
Proof.
  induction 1 as [|[k v] l Hv _ IH]; intros done l0 ls ops; cbn [object_calls app snd build_specs build_spec mbind option_bind] in *; [by rewrite app_nil_r|].
  rewrite <-(assoc_L (++)), (Hv (mk_builder done (LObject l0 (Some k) :: ls)) (mk_builder done (LObject (l0 ++ [(k, v)]) None :: ls)) _ eq_refl), IH, <-(assoc_L (++)). done.
Qed.

(** A value that may be added where the builder stands can be begun there. *)
Lemma put_accepts v b b' : put v b = Some b' -> accepts (b_open b) = true.
Proof.
  destruct b as [d [|lv ls]]; [by intros|]. unfold put. cbn [b_open]. by destruct lv as [l|l [k|]].
Qed.

Lemma put_close v lv done ls b' : is_collection v = true -> level_value lv = Some v -> put v (mk_builder done ls) = Some b' ->
  build_spec BClose (mk_builder done (lv :: ls)) = Some b'.
Proof. intros Hc Hv. cbn [build_spec]. rewrite Hv. unfold put. rewrite Hc. by destruct ls. Qed.

Lemma calls_put_all v : calls_put v.
Proof.
  induction v as [|b|u|d|s|l IH|l IH] using json_ind'; intros [done ls] b' ops Hp;
    try (destruct ls as [|lv ls]; [discriminate Hp|]; cbn [calls app build_specs build_spec op_value mbind option_bind]; unfold put in Hp; cbn [b_open b_done] in Hp; by rewrite Hp).
  - pose proof (put_accepts _ _ _ Hp) as Ha. cbn [b_open] in Ha. rewrite calls_array. cbn [app build_specs build_spec]. rewrite Ha. cbn [mbind option_bind].
    rewrite <-(assoc_L (++)), array_calls_put by done. cbn [app build_specs]. by rewrite (put_close (JArray l) (LArray l) done ls b').
  - pose proof (put_accepts _ _ _ Hp) as Ha. cbn [b_open] in Ha. rewrite calls_object. cbn [app build_specs build_spec]. rewrite Ha. cbn [mbind option_bind].
    rewrite <-(assoc_L (++)), object_calls_put by done. cbn [app build_specs]. by rewrite (put_close (JObject l) (LObject l None) done ls b').
Qed.

(** ** Properties *)

(** C21: A sequence of the calls that open, name, add and close, on a stack that builds what [b] specifies,
    refines the specification: where the calls are in order there they all succeed and the stack builds
    what the specification gives, byte for byte; at the first that is out of order the
    process aborts; and if an allocation fails before, the call that needs it gives ENOMEM. *)
Theorem build_refines ops s b :
  builds s b -> Forall op_ok ops -> builder_size b + 16 * ops_tokens ops <= 16 * LIMIT ->
  built (build_specs ops b) (build_all ops s) \/ no_memory (build_all ops s).
Proof. apply build_all_built. Qed.

Context {double : number -> Z} `{!StrtodLaw double}.

(** C22: Building agrees with parsing: where the reference parser finds a text to have a value that is an array or an object, and no string or name of the value has a NUL in it
    (a JSON text may have one, as an escape; the calls take C strings), the calls for that value and the parser on that text, on a stack without open collections,
    both leave the stack with that value's image added to it (or fail with ENOMEM). The tokens of the stack, with one for each character of the text and with those that the calls add, are [LIMIT] at
    most, and strtod is as documented. *)
Theorem built_as_parsed s done base text rest v junk :
  builds s (mk_builder done []) -> stack_holds 0 s base -> no_nul text -> zlen base + 16 * zlen text <= 16 * LIMIT ->
  parse double text = Parsed v rest -> is_collection v = true ->
  Forall op_ok (calls v) -> zlen base + 16 * ops_tokens (calls v) <= 16 * LIMIT ->
  (built (Some (mk_builder (done ++ [v]) [])) (build_all (calls v) s) \/ no_memory (build_all (calls v) s)) /\
  (let out := sxe_jitson_stack_parse_json SXE_JITSON_FLAG_STRICT (text ++ 0 :: junk) s in
   (exists n s', out = Ret (inl n, s') /\ builds s' (mk_builder (done ++ [v]) [])) \/ (parse_fails 0 base ENOMEM out /\ out_of_memory)).
Proof.
  intros Hb Hs Hn Hlim Hp Hc Hok Hroom. split.
  - pose proof (calls_put_all v (mk_builder done []) (mk_builder (done ++ [v]) []) []) as Hcalls. rewrite app_nil_r in Hcalls.
    cbn [build_specs] in Hcalls. rewrite <-Hcalls by (unfold put; cbn [b_open]; by rewrite Hc). apply build_all_built; [done|done|].
    rewrite <-(builds_count _ _ Hb), <-(h_count _ _ _ Hs). done.
  - pose proof (parse_json_cases 0 s base text junk Hs Hn Hlim) as Hcases. rewrite Hp in Hcases. cbn zeta in *.
    destruct Hcases as [(s' & x & E & Hx & Hs')|Hf]; [left|by right]. eexists _, s'. split; [exact E|].
    destruct Hb as (base' & u & Hbase & [_ ->] & Hs2). cbn [b_done] in Hbase.
    assert (base' = base) as ->.
    { destruct Hs as [_ Hz Hm Hmem], Hs2 as [_ Hz2 _ Hmem2]. destruct (jitsons s) as [m|]; [|congruence].
      destruct Hmem as (_ & j & ->), Hmem2 as (_ & j' & Ej). apply app_inj_1 in Ej as [-> _]; [done|]. unfold zlen in *. lia. }
    pose proof (h_open _ _ _ Hs') as Ho. cbn [f_open] in Ho.
    exists (base ++ x), (base ++ x). cbn [b_done b_open]. rewrite Ho. split; [|by split].
    rewrite array_image_app. cbn [array_image]. rewrite app_nil_r. by apply Forall2_app.
Qed.
End Ops.

(** ** Examples *)
Section Examples.
Local Instance build_example_build : Build := true.
Local Instance build_example_env : Env := example_env.
Local Instance build_example_law : StrtodLaw example_double := example_law.

Lemma example_builds : builds example_stack (mk_builder [] []).
Proof. exists [], []. split; [constructor|]. split; [done|apply example_holds]. Qed.

(** {"a": [null, "b"]} *)
Definition example_ops : list build_op := [BOpenObject; BName [97]; BOpenArray; BNull; BString [98]; BClose; BClose].

Lemma build_refines_witness :
  build_specs example_ops (mk_builder [] []) = Some (mk_builder [JObject [([97], JArray [JNull; JString [98]])]] []) /\
  (built (build_specs example_ops (mk_builder [] [])) (build_all example_ops example_stack) \/ no_memory (build_all example_ops example_stack)).
Proof.
  split; [reflexivity|]. refine (build_refines example_ops example_stack (mk_builder [] []) example_builds _ _); [|vm_compute; discriminate].
  repeat (constructor; [split; [by repeat constructor|vm_compute; reflexivity]|]). constructor.
Defined.

Definition example_value : json := JArray [JUint 1; JString [10]; JBool true].

Lemma built_as_parsed_witness :
  (built (Some (mk_builder ([] ++ [example_value]) [])) (build_all (calls example_value) example_stack) \/ no_memory (build_all (calls example_value) example_stack)) /\
  (let out := sxe_jitson_stack_parse_json SXE_JITSON_FLAG_STRICT (example_text ++ 0 :: []) example_stack in
   (exists n s', out = Ret (inl n, s') /\ builds s' (mk_builder ([] ++ [example_value]) [])) \/ (parse_fails 0 [] ENOMEM out /\ out_of_memory)).
Proof.
  refine (built_as_parsed example_stack [] [] example_text [] example_value [] example_builds example_holds _ _ _ _ _ _);
    [by repeat constructor|vm_compute; discriminate|vm_compute; reflexivity|done| |vm_compute; discriminate].
  repeat (constructor; [split; [by repeat constructor|vm_compute; reflexivity]|]). constructor.
Defined.

(** Without the room for a second token, a name that is refused has been announced all the same:
    the object takes a value next, though it holds no name for it. *)
Definition short_env : Env := {|
  can_alloc := fun n => n <=? 32;
  fresh_byte := fun _ => 170;
  strtod := fun _ => (0, 0);
  jitson_constants := None;
  sxe_jitson_clone := fun l => (true, l);
  SXE_JITSON_TYPE_IDENT := None
|}.

Lemma refused_name_is_announced : exists s1 s2,
  build_run (H0 := short_env) BOpenObject example_stack = Ret (success, s1) /\
  build_run (H0 := short_env) (BName [97; 97; 97; 97; 97; 97; 97; 97; 97]) s1 = Ret (Some ENOMEM, s2) /\
  (m ← load (jitsons s2); get_no_value m 0) = Ret 1.
Proof. eexists _, _. split; [vm_compute; reflexivity|]. split; [vm_compute; reflexivity|]. vm_compute. reflexivity. Qed.
End Examples.
