(* ===== verification/Factory.v ===== *)
(** * Factory: text in memory that grows (lib-sxe-jitson/sxe-factory.c)

    A factory holds the bytes that were added to it, with a NUL behind them, in an array that is
    reallocated when it is full. *)

From S2P Require Import Prelude CString JitsonSource JitsonToken JitsonStack JitsonParse.

(** lib-sxe-jitson/sxe-factory.h:29-34, sxe_factory. *)
Record factory := mk_factory { f_len : Z; f_size : Z; f_maxincr : Z; f_data : option (list Z) }.

Section Factory.
Context `{Env}.

(** lib-sxe-jitson/sxe-factory.c:35-42, sxe_factory_alloc_make. *)
Definition sxe_factory_alloc_make (minsize maxincr : Z) : factory :=
  mk_factory 0 (if minsize =? 0 then 8 else minsize) (if maxincr =? 0 then 4096 else maxincr) None.

(** lib-sxe-jitson/sxe-factory.c:61-62, sxe_factory_reserve. *)
Fixpoint grow (fuel : nat) (maxincr needed newsize : Z) : outcome Z :=
  match fuel with
  | O => Fault
  | S fuel =>
      if newsize <? needed then
        grow fuel maxincr needed (if maxincr <=? newsize then u64 (newsize + maxincr) else u64 (Z.shiftl newsize 1))
      else mret newsize
  end.

(** lib-sxe-jitson/sxe-factory.c:52-72, sxe_factory_reserve. The offset of the space, or NULL. *)
Definition sxe_factory_reserve (len : Z) : cmd factory (option Z) := fun f =>
  let needed := u64 (f_len f + len + 1) in
  if (f_size f <? needed) || bool_decide (f_data f = None) then
    newsize ← grow (S (Z.to_nat needed)) (f_maxincr f) needed (f_size f);
    match sxe_realloc (default [] (f_data f)) newsize with
    | None => mret (None, f)
    | Some newdata => mret (Some (f_len f), mk_factory (f_len f) newsize (f_maxincr f) (Some newdata))
    end
  else mret (Some (f_len f), f).

(** Storing in the data. *)
Definition f_store (offset : Z) (bytes : list Z) : cmd factory unit := fun f =>
  d ← load (f_data f); d ← wr_bytes d offset bytes; mret (tt, mk_factory (f_len f) (f_size f) (f_maxincr f) (Some d)).

(** lib-sxe-jitson/sxe-factory.c:80-85, sxe_factory_commit. *)
Definition sxe_factory_commit (len : Z) : cmd factory unit :=
  modify (fun f => mk_factory (u64 (f_len f + len)) (f_size f) (f_maxincr f) (f_data f));;
  n ← gets f_len; f_store n [0].

(** lib-sxe-jitson/sxe-factory.c:96-107, sxe_factory_add. [data] is the memory from the text on; -1 if there is no memory. *)
Definition sxe_factory_add (data : list Z) (len : Z) : cmd factory Z :=
  len ← (if len =? 0 then lift (load (strlen data)) else mret len);
  reservation ← sxe_factory_reserve len;
  match reservation with
  | None => mret (-1)
  | Some offset => bytes ← lift (load (slice data 0 len)); f_store offset bytes;; sxe_factory_commit len;; mret len
  end.

(** lib-sxe-jitson/sxe-factory.c:117-124, sxe_factory_look. The data and its length. *)
Definition sxe_factory_look : cmd factory (option (list Z) * Z) := gets (fun f => (f_data f, f_len f)).

(** lib-sxe-jitson/sxe-factory.c:134-145, sxe_factory_remove. *)
Definition sxe_factory_remove : cmd factory (option (list Z) * Z) := fun f =>
  let data := if f_len f + 1 <? f_size f then sxe_realloc (default [] (f_data f)) (f_len f + 1) else f_data f in
  mret ((data, f_len f), mk_factory 0 (f_size f) (f_maxincr f) None).

(** ** What a factory holds *)

Definition FACTORY_LIMIT : Z := 4611686018427387904.

Record text_of (f : factory) (text : list Z) : Prop := {
  tx_len : f_len f = zlen text;
  tx_size : 0 < f_size f <= 2 * FACTORY_LIMIT;
  tx_maxincr : 0 < f_maxincr f <= FACTORY_LIMIT;
  tx_data : match f_data f with
            | Some d => zlen d = f_size f /\ exists junk, d = text ++ 0 :: junk
            | None => text = []
            end
}.

(** Space for [n] bytes and a NUL behind the text. *)
Definition has_room (f : factory) (text : list Z) (n : Z) : Prop :=
  exists d room, f_data f = Some d /\ d = text ++ room /\ n + 1 <= zlen room /\ zlen d = f_size f /\ f_len f = zlen text /\
    0 < f_size f <= 2 * FACTORY_LIMIT /\ 0 < f_maxincr f <= FACTORY_LIMIT.

Lemma grow_enough maxincr needed : 0 < maxincr <= FACTORY_LIMIT -> needed <= FACTORY_LIMIT -> forall fuel newsize,
  0 < newsize <= 2 * FACTORY_LIMIT -> needed <= newsize + Z.of_nat fuel ->
  exists n, grow (S fuel) maxincr needed newsize = Ret n /\ needed <= n /\ newsize <= n <= 2 * FACTORY_LIMIT.
Proof.
  intros Hm Hn. assert (HL : 2 * FACTORY_LIMIT < 18446744073709551616) by done.
  induction fuel as [|fuel IH]; intros newsize Hs Hf; cbn [grow]; (destruct (Z.ltb_spec newsize needed) as [Hlt|Hge]; [|exists newsize; split; [done|lia]]); [lia|].
  rewrite Z.shiftl_mul_pow2 by done. change (2 ^ 1) with 2.
  assert (exists next, newsize + 1 <= next <= 2 * FACTORY_LIMIT /\ (if maxincr <=? newsize then u64 (newsize + maxincr) else u64 (newsize * 2)) = next) as (next & Hnext & ->).
  { destruct (Z.leb_spec maxincr newsize); eexists; (split; [|by rewrite u64_small by (unfold is_u64; lia)]); lia. }
  destruct (IH next) as (n & E & H1 & H2); [lia|lia|]. cbn [grow] in E. exists n. split; [exact E|lia].
Qed.

Lemma reserve_room f text n : text_of f text -> 0 <= n -> zlen text + n + 1 <= FACTORY_LIMIT ->
  (exists f', sxe_factory_reserve n f = Ret (Some (zlen text), f') /\ has_room f' text n) \/ (sxe_factory_reserve n f = Ret (None, f) /\ out_of_memory).
Proof.
  intros [Hl Hs Hm Hd] Hn Hlim. assert (HL : 2 * FACTORY_LIMIT < 18446744073709551616) by done. pose proof (zlen_nonneg text). unfold sxe_factory_reserve.
  rewrite Hl, u64_small by (unfold is_u64; lia). destruct (_ || _) eqn:C.
  - destruct (grow_enough (f_maxincr f) (zlen text + n + 1) Hm ltac:(lia) (Z.to_nat (zlen text + n + 1)) (f_size f) Hs ltac:(lia)) as (sz & -> & H1 & H2). cbn [mbind outcome_bind].
    destruct (sxe_realloc _ sz) as [d|] eqn:Er.
    2: { right. split; [done|]. unfold sxe_realloc in Er. destruct (can_alloc sz) eqn:?; [done|]. by exists sz. }
    left. apply realloc_grow in Er as (x & -> & Hz). 2: { destruct (f_data f) as [d0|]; cbn [default from_option id]; [destruct Hd; lia|change (zlen (@nil Z)) with 0; lia]. }
    eexists. split; [done|]. destruct (f_data f) as [d0|]; cbn [default from_option id] in *.
    + destruct Hd as (Hzd & junk & ->). eexists _, ((0 :: junk) ++ x). cbn [f_data f_size f_len f_maxincr]. rewrite <-(assoc_L (++)) in Hz |- *. split_and!; try done; rewrite zlen_app in Hz; lia.
    + subst text. eexists _, x. cbn [f_data f_size f_len f_maxincr]. cbn [app] in *. change (zlen (@nil Z)) with 0 in *. split_and!; (done || lia).
  - apply orb_false_iff in C as [C1 C2]. apply bool_decide_eq_false in C2. destruct (f_data f) as [d|] eqn:Ed; [|done]. destruct Hd as (Hzd & junk & ->).
    left. eexists. split; [done|]. exists (text ++ 0 :: junk), (0 :: junk). rewrite Ed. pose proof Hzd as Hzd'. rewrite zlen_app in Hzd'. split_and!; (done || lia).
Qed.

(** Storing in the space, and taking up what is stored. *)
Lemma store_text f text n bytes : has_room f text n -> zlen bytes <= n + 1 ->
  exists f' room, f_store (zlen text) bytes f = Ret (tt, f') /\ has_room f' text n /\ f_data f' = Some (text ++ bytes ++ room).
Proof.
  intros (d & room & Ed & -> & Hr & Hz & Hl & Hs & Hm) Hb. destruct (split_memory room (zlen bytes)) as (a & y & -> & Ha & Hy); [pose proof (zlen_nonneg bytes); lia|].
  exists (mk_factory (f_len f) (f_size f) (f_maxincr f) (Some (text ++ bytes ++ y))), y. unfold f_store. rewrite Ed. cbn [load mbind outcome_bind].
  rewrite wr_bytes_mid by done. split; [done|]. split; [|done]. exists (text ++ bytes ++ y), (bytes ++ y). cbn [f_data f_size f_len f_maxincr].
  rewrite !zlen_app in *. split_and!; try done; lia.
Qed.

Lemma commit_text f text n bytes room : has_room f text n -> f_data f = Some (text ++ bytes ++ room) -> zlen bytes <= n -> zlen text + n + 1 <= FACTORY_LIMIT ->
  exists f', sxe_factory_commit (zlen bytes) f = Ret (tt, f') /\ text_of f' (text ++ bytes).
Proof.
  intros (d & rm & Ed & -> & Hr & Hz & Hl & Hs & Hm) Ed' Hb Hlim. assert (HL : 2 * FACTORY_LIMIT < 18446744073709551616) by done. pose proof (zlen_nonneg text). pose proof (zlen_nonneg bytes).
  rewrite Ed in Ed'. injection Ed' as Ed'. apply app_inv_head in Ed'. subst rm. rewrite zlen_app in Hr.
  destruct room as [|c room]; [change (zlen (@nil Z)) with 0 in Hr; lia|].
  exists (mk_factory (zlen text + zlen bytes) (f_size f) (f_maxincr f) (Some ((text ++ bytes) ++ 0 :: room))). split.
  - set (f1 := mk_factory (zlen text + zlen bytes) (f_size f) (f_maxincr f) (f_data f)). unfold sxe_factory_commit.
    rewrite (cmd_bind_ret _ _ _ tt f1) by (unfold modify, f1; by rewrite Hl, u64_small by (unfold is_u64; lia)).
    rewrite (cmd_bind_ret _ _ _ (zlen text + zlen bytes) f1) by done. unfold f_store. cbn [f1 f_data f_size f_len f_maxincr]. rewrite Ed. cbn [load mbind outcome_bind].
    pose proof (wr_bytes_mid (text ++ bytes) [c] [0] room (zlen text + zlen bytes) ltac:(by rewrite zlen_app) eq_refl) as E. rewrite <-(assoc_L (++) text bytes ([c] ++ room)) in E. cbn [app] in E. by rewrite E.
  - split; cbn [f_data f_size f_len f_maxincr]; [by rewrite zlen_app|done|done|]. split; [|by exists room]. rewrite <-Hz, !zlen_app, !zlen_cons. lia.
Qed.

Lemma add_text f text data len bytes : text_of f text -> slice data 0 len = Some bytes -> 0 < len -> zlen text + len + 1 <= FACTORY_LIMIT ->
  (exists f', sxe_factory_add data len f = Ret (len, f') /\ text_of f' (text ++ bytes)) \/ (sxe_factory_add data len f = Ret (-1, f) /\ out_of_memory).
Proof.
  intros Hf Hs Hl Hlim. unfold sxe_factory_add. rewrite (proj2 (Z.eqb_neq len 0)) by lia. rewrite (cmd_bind_ret _ _ _ len f) by done. pose proof (slice_length _ _ _ _ Hs) as Hz.
  destruct (reserve_room f text len Hf ltac:(lia) ltac:(lia)) as [(f1 & E1 & H1)|[E1 Ho]]; rewrite (cmd_bind_ret _ _ _ _ _ E1); [|by right].
  left. rewrite Hs. rewrite (lift_ret _ _ _ bytes eq_refl). destruct (store_text f1 text len bytes H1 ltac:(lia)) as (f2 & room & E2 & H2 & Ed). rewrite (cmd_bind_ret _ _ _ _ _ E2).
  destruct (commit_text f2 text len bytes room H2 Ed ltac:(lia) ltac:(lia)) as (f3 & E3 & H3). rewrite Hz in E3. rewrite (cmd_bind_ret _ _ _ _ _ E3). by exists f3.
Qed.

(** Adding the strings [l], one call for each: the text that results. Those that do not fit in memory are left out. *)
Fixpoint add_all (l : list (list Z)) : cmd factory (list Z) :=
  match l with
  | [] => mret []
  | t :: l => n ← sxe_factory_add (t ++ [0]) 0; ns ← add_all l; mret (n :: ns)
  end.
Fixpoint added_text (ns : list Z) (l : list (list Z)) : list Z :=
  match ns, l with n :: ns, t :: l => (if n =? -1 then [] else t) ++ added_text ns l | _, _ => [] end.

Lemma make_text minsize maxincr : 0 <= minsize <= FACTORY_LIMIT -> 0 <= maxincr <= FACTORY_LIMIT -> text_of (sxe_factory_alloc_make minsize maxincr) [].
Proof.
  intros Hm Hi. assert (4096 < FACTORY_LIMIT) by done. split; cbn [f_len f_size f_maxincr f_data sxe_factory_alloc_make]; [done|destruct (Z.eqb_spec minsize 0); lia|destruct (Z.eqb_spec maxincr 0); lia|done].
Qed.

Lemma add_string f text t : text_of f text -> no_nul t -> zlen text + zlen t + 1 <= FACTORY_LIMIT ->
  (exists f', sxe_factory_add (t ++ [0]) 0 f = Ret (zlen t, f') /\ text_of f' (text ++ t)) \/ (sxe_factory_add (t ++ [0]) 0 f = Ret (-1, f) /\ out_of_memory).
Proof.
  intros Hf Ht Hlim. pose proof (zlen_nonneg t). assert (Hs : slice (t ++ [0]) 0 (zlen t) = Some t) by apply (slice_mid [] t [0]).
  assert (Eadd : sxe_factory_add (t ++ [0]) 0 f = (reservation ← sxe_factory_reserve (zlen t);
    match reservation with None => mret (-1) | Some offset => bytes ← lift (load (slice (t ++ [0]) 0 (zlen t))); f_store offset bytes;; sxe_factory_commit (zlen t);; mret (zlen t) end) f).
  { unfold sxe_factory_add. cbn [Z.eqb]. rewrite strlen_app by done. by rewrite (cmd_bind_ret _ _ _ (zlen t) f). }
  rewrite Eadd, Hs. destruct (reserve_room f text (zlen t) Hf ltac:(lia) ltac:(lia)) as [(f1 & E1 & H1)|[E1 Ho]]; rewrite (cmd_bind_ret _ _ _ _ _ E1); [|by right].
  left. rewrite (lift_ret _ _ _ t eq_refl). destruct (store_text f1 text (zlen t) t H1 ltac:(lia)) as (f2 & room & E2 & H2 & Ed). rewrite (cmd_bind_ret _ _ _ _ _ E2).
  destruct (commit_text f2 text (zlen t) t room H2 Ed ltac:(lia) ltac:(lia)) as (f3 & E3 & H3). rewrite (cmd_bind_ret _ _ _ _ _ E3). by exists f3.
Qed.

Lemma zlen_neq_error (t : list Z) : (zlen t =? -1) = false.
Proof. pose proof (zlen_nonneg t). lia. Qed.

(** C28: Any sequence of strings can be added to a factory: the text grows by each that fits in memory, one that does not
    is answered with -1 and leaves the text as it is, and the data stay terminated. *)
Theorem factory_text f text l :
  text_of f text -> Forall no_nul l -> zlen text + zlen (concat l) + 1 <= FACTORY_LIMIT ->
  exists ns f', add_all l f = Ret (ns, f') /\ text_of f' (text ++ added_text ns l) /\ Forall2 (fun n t => n = zlen t \/ (n = -1 /\ out_of_memory)) ns l.
Proof.
  intros Hf Hl. revert f text Hf. induction Hl as [|t l Ht _ IH]; intros f text Hf Hlim; cbn [add_all concat].
  { exists [], f. split_and!; [done|by rewrite app_nil_r|constructor]. }
  cbn [concat] in Hlim. rewrite zlen_app in Hlim. pose proof (zlen_nonneg (concat l)). pose proof (zlen_nonneg t).
  destruct (add_string f text t Hf Ht ltac:(lia)) as [(f1 & E1 & Hf1)|[E1 Ho]]; rewrite (cmd_bind_ret _ _ _ _ _ E1).
  - destruct (IH f1 (text ++ t) Hf1 ltac:(rewrite zlen_app; lia)) as (ns & f' & E & Hf' & Hns). exists (zlen t :: ns), f'. rewrite (cmd_bind_ret _ _ _ _ _ E).
    cbn [added_text]. rewrite zlen_neq_error, (assoc_L (++)). split_and!; [done|done|]. constructor; [by left|done].
  - destruct (IH f text Hf ltac:(lia)) as (ns & f' & E & Hf' & Hns). exists (-1 :: ns), f'. rewrite (cmd_bind_ret _ _ _ _ _ E). split_and!; [done|done|]. constructor; [by right|done].
Qed.
End Factory.

(** ** Examples *)
Section Examples.
Local Instance factory_env : Env := {|
  can_alloc := fun _ => true;
  fresh_byte := fun _ => 170;
  strtod := fun _ => (0, 0);
  jitson_constants := None;
  sxe_jitson_clone := fun l => (true, l);
  SXE_JITSON_TYPE_IDENT := None
|}.

Lemma factory_text_witness :
  exists ns f', add_all [[104; 101]; []; [108; 108; 111; 33; 33; 33; 33]] (sxe_factory_alloc_make 0 0) = Ret (ns, f') /\
    text_of f' ([] ++ added_text ns [[104; 101]; []; [108; 108; 111; 33; 33; 33; 33]]) /\
    Forall2 (fun n t => n = zlen t \/ (n = -1 /\ out_of_memory)) ns [[104; 101]; []; [108; 108; 111; 33; 33; 33; 33]].
Proof.
  refine (factory_text (sxe_factory_alloc_make 0 0) [] [[104; 101]; []; [108; 108; 111; 33; 33; 33; 33]] _ _ _); [by apply make_text|by repeat constructor|done].
Defined.

(** To remove the data of a factory that holds none allocates a byte that is not set, where NULL is promised. *)
Lemma remove_of_nothing : exists f, sxe_factory_remove (sxe_factory_alloc_make 0 0) = Ret ((Some [170], 0), f).
Proof. eexists. vm_compute. reflexivity. Qed.
End Examples.
