(* ===== verification/JitsonValue.v ===== *)
(** * JitsonValue: jitsons in the heap, and access to them
    (lib-sxe-jitson/sxe-jitson.c, sxe-jitson-type.c)

    Tokens refer to other memory: strings that are not copied, other jitsons, and the index that a
    collection is given when it is first looked into. The heap is a map from blocks to their
    bytes. The functions that the table of types holds for the types of JSON are
    dispatched on the type; another type is a fault here. *)

From S2P Require Import Prelude CString JitsonSource JitsonToken JitsonStack.

(** ** The heap *)

(** A jitson is a token of a block, a string a byte of a block. *)
Record ptr := mk_ptr { p_block : Z; p_index : Z }.
Record heap := mk_heap { h_blocks : gmap Z (list Z); h_next : Z }.

#[export] Instance ptr_eq_dec : EqDecision ptr.
Proof. solve_decision. Defined.

(** The address of a byte: the heap is up to 2^24 blocks of up to 2^40 bytes; NULL is in none. *)
Definition BLOCK : Z := 1099511627776.
Definition BLOCKS : Z := 16777216.
Definition address (block offset : Z) : Z := BLOCK * block + offset.
Definition block_of (a : Z) : Z := a / BLOCK.
Definition offset_of (a : Z) : Z := a mod BLOCK.
Definition jitson_address (p : ptr) : Z := address (p_block p) (tok (p_index p)).
Definition jitson_at (a : Z) : ptr := mk_ptr (block_of a) (offset_of a / 16).
Definition string_at (a : Z) : ptr := mk_ptr (block_of a) (offset_of a).

Definition ptr_add (p : ptr) (n : Z) : ptr := mk_ptr (p_block p) (p_index p + n).

(** What these functions are given: the hash of a key's bytes, and the arithmetic on doubles, given by their bits. *)
Class Library := {
  sxe_hash_sum : list Z -> Z;
  double_of_uint : Z -> Z;
  uint_of_double : Z -> Z;
  double_eqb : Z -> Z -> bool;
  print_double : Z -> list Z
}.

Section Heap.
Context `{Build} `{Env} `{Library}.

Definition h_load {A} (block : Z) (f : list Z -> outcome A) : cmd heap A := fun h =>
  m ← load (h_blocks h !! block); a ← f m; mret (a, h).
Definition h_store (block : Z) (f : list Z -> outcome (list Z)) : cmd heap unit := fun h =>
  m ← load (h_blocks h !! block); m ← f m; mret (tt, mk_heap (<[block := m]> (h_blocks h)) (h_next h)).

(** The fields of a token. *)
Definition jget {A} (p : ptr) (f : list Z -> Z -> outcome A) : cmd heap A := h_load (p_block p) (fun m => f m (p_index p)).
Definition jset (p : ptr) (f : list Z -> Z -> Z -> outcome (list Z)) (v : Z) : cmd heap unit := h_store (p_block p) (fun m => f m (p_index p) v).

(** sxe_malloc, sxe_calloc and sxe_free; [None] is NULL. *)
Definition h_alloc (bytes : list Z) : cmd heap (option Z) := fun h =>
  if can_alloc (zlen bytes) && (h_next h <? BLOCKS) then mret (Some (h_next h), mk_heap (<[h_next h := bytes]> (h_blocks h)) (h_next h + 1))
  else mret (None, h).
Definition sxe_malloc (n : Z) : cmd heap (option Z) := h_alloc (fresh_bytes 0 n).
Definition sxe_calloc (n : Z) : cmd heap (option Z) := h_alloc (replicate (Z.to_nat n) 0).
Definition sxe_free (a : Z) : cmd heap unit := modify (fun h => mk_heap (if a =? 0 then h_blocks h else delete (block_of a) (h_blocks h)) (h_next h)).

(** The bytes from a byte of a block to the block's end. *)
Definition bytes_at (s : ptr) : cmd heap (list Z) := h_load (p_block s) (fun m =>
  if (0 <=? p_index s) && (p_index s <=? zlen m) then mret (drop (Z.to_nat (p_index s)) m) else Fault).
Definition h_strlen (s : ptr) : cmd heap Z := m ← bytes_at s; lift (load (strlen m)).

Definition has_flag (type flag : Z) : bool := negb (Z.land type flag =? 0).

(** ** Types *)

(** lib-sxe-jitson/sxe-jitson.c:40-44, sxe_jitson_is_reference. *)
Definition sxe_jitson_is_reference (jitson : ptr) : cmd heap bool :=
  type ← jget jitson get_type; mret (Z.land type SXE_JITSON_TYPE_MASK =? SXE_JITSON_TYPE_REFERENCE).

Definition get_jitref (jitson : ptr) : cmd heap ptr := a ← jget jitson get_integer; mret (jitson_at a).
Definition get_reference (jitson : ptr) : cmd heap ptr := a ← jget jitson get_integer; mret (string_at a).

(** lib-sxe-jitson/sxe-jitson.c:79-79, sxe_jitson_get_uint. A reference is followed once. *)
Definition follow (jitson : ptr) : cmd heap ptr :=
  r ← sxe_jitson_is_reference jitson; if (r : bool) then get_jitref jitson else mret jitson.

(** lib-sxe-jitson/sxe-jitson-type.c:84-91, sxe_jitson_get_type. References are not made to references, so
    that one at most is followed; the fuel is for a chain of two. *)
Fixpoint get_type_from (fuel : nat) (jitson : ptr) : cmd heap Z :=
  match fuel with
  | O => lift Fault
  | S fuel =>
      r ← sxe_jitson_is_reference jitson;
      if (r : bool) then to ← get_jitref jitson; get_type_from fuel to
      else type ← jget jitson get_type; mret (Z.land type SXE_JITSON_TYPE_MASK)
  end.
Definition sxe_jitson_get_type : ptr -> cmd heap Z := get_type_from 3.

(** SXEA6 and SXEA1 on the type of a jitson. *)
Definition expect6 (jitson : ptr) (type : Z) : cmd heap unit := fun h =>
  if debug then (t ← sxe_jitson_get_type jitson; lift (assert1 (t =? type))) h else mret (tt, h).
Definition expect1 (jitson : ptr) (type : Z) : cmd heap unit := t ← sxe_jitson_get_type jitson; lift (assert1 (t =? type)).

(** lib-sxe-jitson/sxe-jitson-type.c:207-227, sxe_jitson_string_len. *)
Definition sxe_jitson_string_len (jitson : ptr) : cmd heap Z :=
  type ← jget jitson get_type;
  if has_flag type SXE_JITSON_TYPE_IS_KEY then
    if has_flag type SXE_JITSON_TYPE_IS_REF then s ← get_reference jitson; h_strlen s
    else h_strlen (mk_ptr (p_block jitson) (tok (p_index jitson) + 8))
  else
    len ← jget jitson get_len;
    if (len =? 0) && has_flag type SXE_JITSON_TYPE_IS_REF then
      s ← get_reference jitson;
      n ← h_strlen s;
      (if u32 n =? n then jset jitson set_len n else mret tt);;
      mret n
    else mret len.

(** lib-sxe-jitson/sxe-jitson-type.c:229-236, sxe_jitson_string_size. *)
Definition sxe_jitson_string_size (jitson : ptr) : cmd heap Z :=
  type ← jget jitson get_type;
  if has_flag type SXE_JITSON_TYPE_IS_REF then mret 1
  else len ← sxe_jitson_string_len jitson; mret (u32 (1 + u64 (len + SXE_JITSON_TOKEN_SIZE - SXE_JITSON_STRING_SIZE) / SXE_JITSON_TOKEN_SIZE)).

(** The entry of an index: jitson->index[i]. *)
Definition get_index (jitson : ptr) (i : Z) : cmd heap Z :=
  a ← jget jitson get_integer; h_load (block_of a) (fun m => ld32 m (offset_of a + 4 * i)).
Definition set_index (block i v : Z) : cmd heap unit := h_store block (fun m => wr_bytes m (4 * i) (bytes32 v)).

(** lib-sxe-jitson/sxe-jitson-type.c:300-307, sxe_jitson_size_indexed. *)
Definition sxe_jitson_size_indexed (jitson : ptr) : cmd heap Z :=
  type ← jget jitson get_type;
  if has_flag type SXE_JITSON_TYPE_INDEXED then len ← jget jitson get_len; get_index jitson len
  else n ← jget jitson get_integer; mret (u32 n).

(** lib-sxe-jitson/sxe-jitson-type.c:628-632, sxe_jitson_size. *)
Definition sxe_jitson_size (jitson : ptr) : cmd heap Z :=
  type ← jget jitson get_type;
  let t := Z.land type SXE_JITSON_TYPE_MASK in
  if (t =? SXE_JITSON_TYPE_NULL) || (t =? SXE_JITSON_TYPE_BOOL) || (t =? SXE_JITSON_TYPE_NUMBER) || (t =? SXE_JITSON_TYPE_REFERENCE) then mret 1
  else if t =? SXE_JITSON_TYPE_STRING then sxe_jitson_string_size jitson
  else if (t =? SXE_JITSON_TYPE_ARRAY) || (t =? SXE_JITSON_TYPE_OBJECT) then sxe_jitson_size_indexed jitson
  else lift Fault.

(** lib-sxe-jitson/sxe-jitson-type.c:637-641, sxe_jitson_supports_len. *)
Definition sxe_jitson_supports_len (jitson : ptr) : cmd heap bool :=
  type ← jget jitson get_type;
  let t := Z.land type SXE_JITSON_TYPE_MASK in
  if (t <? SXE_JITSON_TYPE_INVALID) || (SXE_JITSON_TYPE_REFERENCE <? t) then lift Fault
  else mret (SXE_JITSON_TYPE_STRING <=? t).

(** lib-sxe-jitson/sxe-jitson-type.c:317-321, sxe_jitson_type_len. *)
Definition sxe_jitson_type_len (jitson : ptr) : cmd heap Z := jget jitson get_len.

(** The length function of a type that is not a reference: types[t].len(jitson). *)
Definition type_len (t : Z) (jitson : ptr) : cmd heap Z :=
  if t =? SXE_JITSON_TYPE_STRING then sxe_jitson_string_len jitson
  else if (t =? SXE_JITSON_TYPE_ARRAY) || (t =? SXE_JITSON_TYPE_OBJECT) then sxe_jitson_type_len jitson
  else lift Fault.

(** lib-sxe-jitson/sxe-jitson-type.c:539-543, sxe_jitson_reference_len. *)
Definition sxe_jitson_reference_len (jitson : ptr) : cmd heap Z := to ← get_jitref jitson; t ← sxe_jitson_get_type to; type_len t to.

(** lib-sxe-jitson/sxe-jitson-type.c:646-651, sxe_jitson_len. *)
Definition sxe_jitson_len (jitson : ptr) : cmd heap Z :=
  ok ← sxe_jitson_supports_len jitson;
  lift (assert1 ok);;
  type ← jget jitson get_type;
  let t := Z.land type SXE_JITSON_TYPE_MASK in
  if t =? SXE_JITSON_TYPE_REFERENCE then sxe_jitson_reference_len jitson else type_len t jitson.

(** lib-sxe-jitson/sxe-jitson-type.c:114-119, sxe_jitson_null_test. *)
Definition sxe_jitson_null_test (jitson : ptr) : cmd heap bool := mret false.
(** lib-sxe-jitson/sxe-jitson-type.c:136-140, sxe_jitson_bool_test. *)
Definition sxe_jitson_bool_test (jitson : ptr) : cmd heap bool := b ← jget jitson (fun m i => get_byte m i 0); mret (negb (b =? 0)).
(** lib-sxe-jitson/sxe-jitson-type.c:160-164, sxe_jitson_number_test. *)
Definition sxe_jitson_number_test (jitson : ptr) : cmd heap bool := n ← jget jitson get_integer; mret (negb (double_eqb n 0)).
(** lib-sxe-jitson/sxe-jitson-type.c:238-242, sxe_jitson_string_test. *)
Definition sxe_jitson_string_test (jitson : ptr) : cmd heap bool :=
  type ← jget jitson get_type;
  if has_flag type SXE_JITSON_TYPE_IS_REF then
    s ← get_reference jitson; m ← bytes_at s; c ← lift (load (rd m 0)); mret (negb (c =? 0))
  else len ← jget jitson get_len; mret (negb (len =? 0)).
(** lib-sxe-jitson/sxe-jitson-type.c:309-313, sxe_jitson_len_test. *)
Definition sxe_jitson_len_test (jitson : ptr) : cmd heap bool := len ← jget jitson get_len; mret (negb (len =? 0)).

(** The test function of a type that is not a reference: types[t].test(jitson). *)
Definition type_test (t : Z) (jitson : ptr) : cmd heap bool :=
  if t =? SXE_JITSON_TYPE_NULL then sxe_jitson_null_test jitson
  else if t =? SXE_JITSON_TYPE_BOOL then sxe_jitson_bool_test jitson
  else if t =? SXE_JITSON_TYPE_NUMBER then sxe_jitson_number_test jitson
  else if t =? SXE_JITSON_TYPE_STRING then sxe_jitson_string_test jitson
  else if (t =? SXE_JITSON_TYPE_ARRAY) || (t =? SXE_JITSON_TYPE_OBJECT) then sxe_jitson_len_test jitson
  else lift Fault.

(** lib-sxe-jitson/sxe-jitson-type.c:533-537, sxe_jitson_reference_test. *)
Definition sxe_jitson_reference_test (jitson : ptr) : cmd heap bool := to ← get_jitref jitson; t ← sxe_jitson_get_type to; type_test t to.

(** lib-sxe-jitson/sxe-jitson-type.c:619-623, sxe_jitson_test. *)
Definition sxe_jitson_test (jitson : ptr) : cmd heap bool :=
  type ← jget jitson get_type;
  let t := Z.land type SXE_JITSON_TYPE_MASK in
  if t =? SXE_JITSON_TYPE_REFERENCE then sxe_jitson_reference_test jitson else type_test t jitson.

(** ** Access *)

(** A value, or NULL (or what stands for none) with errno. *)
Definition answer (A : Type) : Type := A + errno.

(** lib-sxe-jitson/sxe-jitson.c:76-95, sxe_jitson_get_uint. *)
Definition sxe_jitson_get_uint (jitson : ptr) : cmd heap (answer Z) :=
  jitson ← follow jitson;
  expect6 jitson SXE_JITSON_TYPE_NUMBER;;
  type ← jget jitson get_type;
  n ← jget jitson get_integer;
  if negb (has_flag type SXE_JITSON_TYPE_IS_UINT) then
    if negb (double_eqb (double_of_uint (uint_of_double n)) n) then mret (inr EOVERFLOW) else mret (inl (uint_of_double n))
  else mret (inl n).

(** lib-sxe-jitson/sxe-jitson.c:104-123, sxe_jitson_get_number. *)
Definition sxe_jitson_get_number (jitson : ptr) : cmd heap (answer Z) :=
  jitson ← follow jitson;
  expect6 jitson SXE_JITSON_TYPE_NUMBER;;
  type ← jget jitson get_type;
  n ← jget jitson get_integer;
  if has_flag type SXE_JITSON_TYPE_IS_UINT then
    if negb (uint_of_double (double_of_uint n) =? n) then mret (inr EOVERFLOW) else mret (inl (double_of_uint n))
  else mret (inl n).

(** lib-sxe-jitson/sxe-jitson.c:133-144, sxe_jitson_get_string. The string, and its length if it is asked for. *)
Definition sxe_jitson_get_string (jitson : ptr) (len_out : bool) : cmd heap (ptr * option Z) :=
  jitson ← follow jitson;
  expect6 jitson SXE_JITSON_TYPE_STRING;;
  len ← (if len_out then n ← sxe_jitson_len jitson; mret (Some n) else mret None);
  type ← jget jitson get_type;
  if has_flag type SXE_JITSON_TYPE_IS_REF then s ← get_reference jitson; mret (s, len)
  else mret (mk_ptr (p_block jitson) (tok (p_index jitson) + 8), len).

(** lib-sxe-jitson/sxe-jitson.c:151-158, sxe_jitson_get_bool. *)
Definition sxe_jitson_get_bool (jitson : ptr) : cmd heap bool :=
  jitson ← follow jitson;
  expect6 jitson SXE_JITSON_TYPE_BOOL;;
  b ← jget jitson (fun m i => get_byte m i 0); mret (negb (b =? 0)).

(** sxe_hash_sum(key, length), which takes the length of the string itself if it is given as 0. *)
Definition hash_sum (key : list Z) (len : Z) : outcome Z :=
  k ← load (if u32 len =? 0 then cstring key else slice key 0 (u32 len)); mret (sxe_hash_sum k).

(** lib-sxe-jitson/sxe-jitson.c:203-211, sxe_jitson_object_get_member. Indexing the [n] members from [member] on, of an
    object of [len] members with its index in [block]. *)
Fixpoint index_members (n : nat) (jitson member : ptr) (block len : Z) : cmd heap unit :=
  match n with
  | O => mret tt
  | S n =>
      type ← jget member get_type;
      memlen ← (if has_flag type SXE_JITSON_TYPE_IS_REF then s ← get_reference member; h_strlen s else jget member get_len);
      '(s, _) ← sxe_jitson_get_string member false;
      key ← bytes_at s;
      sum ← lift (hash_sum key memlen);
      let bucket := sum mod len in
      link ← h_load block (fun m => ld32 m (4 * bucket));
      jset member set_len link;;
      set_index block bucket (u32 (p_index member - p_index jitson));;
      size ← sxe_jitson_size member;
      let value := ptr_add member size in
      size ← sxe_jitson_size value;
      index_members n jitson (ptr_add value size) block len
  end.

(** lib-sxe-jitson/sxe-jitson.c:199-201, sxe_jitson_object_get_member. The index of a collection replaces its size, which is kept at the index's end. *)
Definition start_index (jitson : ptr) (block len : Z) : cmd heap unit :=
  size ← jget jitson get_integer;
  set_index block len (u32 size);;
  type ← jget jitson get_type;
  jset jitson set_type (Z.lor type SXE_JITSON_TYPE_INDEXED);;
  jset jitson set_integer (address block 0).

(** lib-sxe-jitson/sxe-jitson.c:217-227, sxe_jitson_object_get_member. Looking for a key in a bucket, from member [i] on. *)
Fixpoint find_member (fuel : nat) (jitson : ptr) (name : list Z) (len i : Z) : cmd heap (answer ptr) :=
  match fuel with
  | O => lift Fault
  | S fuel =>
      if i =? 0 then mret (inr ENOKEY)
      else
        let member := ptr_add jitson i in
        expect6 member SXE_JITSON_TYPE_STRING;;
        '(memname, memlen) ← sxe_jitson_get_string member true;
        found ← (if bool_decide (memlen = Some len) then
                   m ← bytes_at memname;
                   a ← lift (load (slice m 0 len)); b ← lift (load (slice name 0 len)); mret (bool_decide (a = b))
                 else mret false);
        if (found : bool) then size ← sxe_jitson_size member; mret (inl (ptr_add member size))
        else next ← jget member get_len; find_member fuel jitson name len next
  end.

(** lib-sxe-jitson/sxe-jitson.c:187-215, sxe_jitson_object_get_member. Indexing an object of [n] members that is not; false if there is no
    memory. The lock is not contended. *)
Definition ensure_index (jitson : ptr) (n : Z) : cmd heap bool :=
  type ← jget jitson get_type;
  if has_flag type SXE_JITSON_TYPE_INDEXED then mret true
  else
    index ← sxe_calloc (u32 (n + 1) * 4);
    match index with
    | None => mret false
    | Some block => start_index jitson block n;; index_members (Z.to_nat n) jitson (ptr_add jitson 1) block n;; mret true
    end.

(** lib-sxe-jitson/sxe-jitson.c:169-231, sxe_jitson_object_get_member. [name] is the memory from the name on. *)
Definition sxe_jitson_object_get_member (jitson : ptr) (name : list Z) (len : Z) : cmd heap (answer ptr) :=
  jitson ← follow jitson;
  expect1 jitson SXE_JITSON_TYPE_OBJECT;;
  len ← (if len =? 0 then n ← lift (load (strlen name)); mret (u32 n) else mret len);
  n ← jget jitson get_len;
  if n =? 0 then mret (inr ENOKEY)
  else
    ok ← ensure_index jitson n;
    if negb ok then mret (inr ENOMEM)
    else
      sum ← lift (hash_sum name len);
      i ← get_index jitson (sum mod n);
      find_member (S (Z.to_nat n)) jitson name len i.

(** lib-sxe-jitson/sxe-jitson.c:273-274, sxe_jitson_array_get_element. *)
Fixpoint index_elements (n : nat) (jitson element : ptr) (block i : Z) : cmd heap unit :=
  match n with
  | O => mret tt
  | S n =>
      set_index block i (u32 (p_index element - p_index jitson));;
      size ← sxe_jitson_size element;
      index_elements n jitson (ptr_add element size) block (i + 1)
  end.

(** lib-sxe-jitson/sxe-jitson.c:241-281, sxe_jitson_array_get_element. *)
Definition sxe_jitson_array_get_element (jitson : ptr) (idx : Z) : cmd heap (answer ptr) :=
  jitson ← follow jitson;
  expect1 jitson SXE_JITSON_TYPE_ARRAY;;
  n ← jget jitson get_len;
  if n <=? idx then mret (inr ERANGE)
  else
    type ← jget jitson get_type;
    ok ← (if has_flag type SXE_JITSON_TYPE_INDEXED then mret true
          else
            index ← sxe_malloc (u32 (n + 1) * 4);
            match index with
            | None => mret false
            | Some block => start_index jitson block n;; index_elements (Z.to_nat n) jitson (ptr_add jitson 1) block 0;; mret true
            end);
    if negb ok then mret (inr ENOMEM)
    else i ← get_index jitson idx; mret (inl (ptr_add jitson i)).
End Heap.
