(* ===== verification/JitsonAccess.v ===== *)
(** * JitsonAccess: what looking into a jitson does (lib-sxe-jitson/sxe-jitson.c)

    A value is stored in a block when its tokens are there, with each collection either as the parser left it
    or with an index of its own. Looking into it indexes collections, and keeps the value stored. *)

From S2P Require Import Prelude CString JitsonSource JitsonToken JitsonStack JitsonParse JitsonGrammar JitsonBuild JitsonValue.

(** ** Sizes and offsets *)

Definition member_size (kv : list Z * json) : Z := string_tokens (zlen (fst kv)) + size (snd kv).

(** The offsets of the elements of an array, and the members of an object with theirs. *)
Fixpoint array_offsets (off : Z) (l : list json) : list Z :=
  match l with [] => [] | v :: l => off :: array_offsets (off + size v) l end.
Fixpoint placed (off : Z) (l : list (list Z * json)) : list (Z * (list Z * json)) :=
  match l with [] => [] | kv :: l => (off, kv) :: placed (off + member_size kv) l end.

Definition key_lengths (l : list (list Z * json)) : list Z := (fun kv : list Z * json => zlen (fst kv)) <$> l.

(** An array of 32 bit words. *)
Definition words (ws : list Z) : list Z := concat (bytes32 <$> ws).

Section Stored.
Context `{Library}.

(** The bucket of a key in an object of [n] members. *)
Definition bucket (n : Z) (k : list Z) : Z := sxe_hash_sum k mod n.

(** Indexing members from offset [off] on, over the buckets [T]: their links, and the buckets. *)
Fixpoint index_of (n off : Z) (T : list Z) (l : list (list Z * json)) : list Z * list Z :=
  match l with
  | [] => ([], T)
  | kv :: l =>
      let h := Z.to_nat (bucket n (fst kv)) in
      let '(links, T') := index_of n (off + member_size kv) (<[h := off]> T) l in (default 0 (T !! h) :: links, T')
  end.
Definition object_index (l : list (list Z * json)) : list Z * list Z := index_of (zlen l) 1 (replicate (length l) 0) l.

(** ** Stored values *)

(** A jitson that was allocated by itself has a flag for that. *)
Definition alloc_flag (f : Z) : Prop := f = 0 \/ f = SXE_JITSON_TYPE_ALLOCED.

(** The type of a collection, and its word: its size in tokens, or the address of its index in one of the blocks [idx]. *)
Definition collection_word (idx : gmap Z (list Z)) (ty : Z) (table : list Z) (size : Z) (indexed : bool) (type : Z) (w : list Z) : Prop :=
  (exists f, alloc_flag f /\ type = Z.lor (if indexed then Z.lor ty SXE_JITSON_TYPE_INDEXED else ty) f) /\
  if indexed then exists blk, 0 <= blk < BLOCKS /\ idx !! blk = Some (words (table ++ [size])) /\ w = bytes64 (address blk 0)
  else w = bytes64 size.

Definition key_memory (k : list Z) (link : Z) (m : list Z) : Prop :=
  exists pad, pad_ok k (0 :: pad) /\ m = bytes32 key_type ++ bytes32 link ++ k ++ 0 :: pad.

Definition scalar (v : json) : Prop := match v with JArray _ | JObject _ => False | _ => True end.

Inductive stored (idx : gmap Z (list Z)) : json -> list Z -> Prop :=
| sd_scalar v type f r : scalar v -> alloc_flag f -> is_u32 type -> has_image (image v) (bytes32 type ++ r) -> stored idx v (bytes32 (Z.lor type f) ++ r)
| sd_array l (indexed : bool) type w e :
    elements idx l e -> collection_word idx SXE_JITSON_TYPE_ARRAY (array_offsets 1 l) (1 + zlen e / 16) indexed type w ->
    stored idx (JArray l) (bytes32 type ++ bytes32 (zlen l) ++ w ++ e)
| sd_object l (indexed : bool) type w e :
    members idx l (if indexed then fst (object_index l) else key_lengths l) e ->
    collection_word idx SXE_JITSON_TYPE_OBJECT (snd (object_index l)) (1 + zlen e / 16) indexed type w ->
    stored idx (JObject l) (bytes32 type ++ bytes32 (zlen l) ++ w ++ e)
with elements (idx : gmap Z (list Z)) : list json -> list Z -> Prop :=
| es_nil : elements idx [] []
| es_cons v l m e : stored idx v m -> elements idx l e -> elements idx (v :: l) (m ++ e)
with members (idx : gmap Z (list Z)) : list (list Z * json) -> list Z -> list Z -> Prop :=
| ms_nil : members idx [] [] []
| ms_cons k v l x links km m e : no_nul k -> key_memory k x km -> stored idx v m -> members idx l links e ->
    members idx ((k, v) :: l) (x :: links) (km ++ m ++ e).

Scheme stored_ind' := Minimality for stored Sort Prop
  with elements_ind' := Minimality for elements Sort Prop
  with members_ind' := Minimality for members Sort Prop.
Combined Scheme stored_all_ind from stored_ind', elements_ind', members_ind'.

(** Blocks may be added. *)
Lemma collection_word_mono idx idx' ty table size indexed type w : idx ⊆ idx' ->
  collection_word idx ty table size indexed type w -> collection_word idx' ty table size indexed type w.
Proof.
  intros Hs [Hf Hw]. split; [done|]. destruct indexed; [|done]. destruct Hw as (blk & Hb & Hi & Hw). exists blk. split_and!; try done; [lia..|]. by eapply lookup_weaken.
Qed.

Lemma stored_mono_all idx idx' : idx ⊆ idx' ->
  (forall v m, stored idx v m -> stored idx' v m) /\ (forall l e, elements idx l e -> elements idx' l e) /\
  (forall l links e, members idx l links e -> members idx' l links e).
Proof.
  intros Hs. apply stored_all_ind; [by constructor| | |by constructor|by constructor|by constructor|by constructor].
  - intros l indexed type w e _ He Hw. econstructor; [done|by eapply collection_word_mono].
  - intros l indexed type w e _ He Hw. econstructor; [done|by eapply collection_word_mono].
Qed.

(** The size of a collection is that of its elements and one. *)
Definition sizes (l : list json) : Z := fold_right (fun v n => size v + n) 0 l.
Definition member_sizes (l : list (list Z * json)) : Z := fold_right (fun kv n => member_size kv + n) 0 l.

Lemma array_image_zlen l : zlen (array_image l) = 16 * sizes l.
Proof. induction l as [|v l IH]; [done|]. cbn [array_image sizes fold_right]. rewrite zlen_app, IH. destruct (image_size v) as [-> _]. unfold sizes. lia. Qed.
Lemma object_image_zlen l : zlen (object_image l) = 16 * member_sizes l.
Proof.
  induction l as [|[k v] l IH]; [done|]. cbn [object_image member_sizes fold_right]. rewrite !zlen_app, IH, string_image_zlen.
  destruct (image_size v) as [-> _]. unfold member_sizes, member_size. cbn [fst snd]. lia.
Qed.
Lemma size_array l : size (JArray l) = 1 + sizes l.
Proof. unfold size. rewrite image_array, collection_image_zlen, array_image_zlen. Z.to_euclidean_division_equations; lia. Qed.
Lemma size_object l : size (JObject l) = 1 + member_sizes l.
Proof. unfold size. rewrite image_object, collection_image_zlen, object_image_zlen. Z.to_euclidean_division_equations; lia. Qed.

Lemma key_memory_zlen k x m : key_memory k x m -> zlen m = 16 * string_tokens (zlen k).
Proof. intros (pad & Hp & ->). unfold pad_ok in Hp. rewrite !zlen_app, !zlen_bytes32. lia. Qed.

Lemma collection_word_zlen idx ty table size indexed type w : collection_word idx ty table size indexed type w -> zlen w = 8.
Proof. intros [_ Hw]. destruct indexed; [destruct Hw as (blk & _ & _ & ->)|subst w]; done. Qed.

Lemma stored_zlen_all idx :
  (forall v m, stored idx v m -> zlen m = 16 * size v) /\ (forall l e, elements idx l e -> zlen e = 16 * sizes l) /\
  (forall l links e, members idx l links e -> zlen e = 16 * member_sizes l).
Proof.
  apply stored_all_ind; [| | |done| |done|].
  - intros v type f r _ _ _ Hi. apply zlen_image in Hi. rewrite zlen_app, zlen_bytes32 in Hi |- *. rewrite <-Hi. apply image_size.
  - intros l indexed type w e _ IH Hw. rewrite size_array, !zlen_app, !zlen_bytes32, IH, (collection_word_zlen _ _ _ _ _ _ _ Hw). lia.
  - intros l indexed type w e _ IH Hw. rewrite size_object, !zlen_app, !zlen_bytes32, IH, (collection_word_zlen _ _ _ _ _ _ _ Hw). lia.
  - intros v l m e _ IHm _ IHe. rewrite zlen_app, IHm, IHe. cbn [sizes fold_right]. unfold sizes. lia.
  - intros k v l x links km m e _ Hk _ IHm _ IHe. rewrite !zlen_app, IHm, IHe, (key_memory_zlen _ _ _ Hk). cbn [member_sizes fold_right].
    unfold member_sizes, member_size. cbn [fst snd]. lia.
Qed.

Lemma stored_zlen idx v m : stored idx v m -> zlen m = 16 * size v.
Proof. apply (stored_zlen_all idx). Qed.
Lemma stored_mono idx idx' v m : idx ⊆ idx' -> stored idx v m -> stored idx' v m.
Proof. intros Hs. apply (stored_mono_all _ _ Hs). Qed.
Lemma elements_mono idx idx' l e : idx ⊆ idx' -> elements idx l e -> elements idx' l e.
Proof. intros Hs. apply (stored_mono_all _ _ Hs). Qed.
Lemma members_mono idx idx' l links e : idx ⊆ idx' -> members idx l links e -> members idx' l links e.
Proof. intros Hs. apply (stored_mono_all _ _ Hs). Qed.

(** ** What the memory of a value starts with *)

Lemma given_inv l p m : has_image (given l ++ p) m -> exists r, m = l ++ r /\ has_image p r.
Proof.
  revert m. induction l as [|b l IH]; intros m; cbn [given app fmap list_fmap]; [intros Hi; by exists m|].
  intros Hi. apply Forall2_cons_inv_l in Hi as (c & m' & Hc & Hi & ->). cbn [fits] in Hc. subst c. apply IH in Hi as (r & -> & Hr). by exists r.
Qed.

Lemma string_image_inv ty s m : has_image (string_image ty s) m -> exists pad, pad_ok s (0 :: pad) /\ m = bytes32 ty ++ bytes32 (zlen s) ++ s ++ 0 :: pad.
Proof.
  unfold string_image. intros (r & -> & Hr)%given_inv. apply given_inv in Hr as (r2 & -> & Hr). apply given_inv in Hr as (pad & -> & Hr).
  exists pad. rewrite <-(assoc_L (++)). split; [|done]. unfold pad_ok. apply zlen_image in Hr. rewrite zlen_cons, <-Hr, zlen_blank; [lia|].
  pose proof (zlen_nonneg s). unfold string_tokens. Z.to_euclidean_division_equations; lia.
Qed.

Definition type_of (v : json) : Z :=
  match v with
  | JNull => SXE_JITSON_TYPE_NULL
  | JBool _ => SXE_JITSON_TYPE_BOOL
  | JUint _ | JNumber _ => SXE_JITSON_TYPE_NUMBER
  | JString _ => SXE_JITSON_TYPE_STRING
  | JArray _ => SXE_JITSON_TYPE_ARRAY
  | JObject _ => SXE_JITSON_TYPE_OBJECT
  end.

Lemma collection_word_type idx ty table size indexed type w :
  ty = SXE_JITSON_TYPE_ARRAY \/ ty = SXE_JITSON_TYPE_OBJECT -> collection_word idx ty table size indexed type w ->
  is_u32 type /\ Z.land type SXE_JITSON_TYPE_MASK = ty /\ has_flag type SXE_JITSON_TYPE_INDEXED = indexed.
Proof.
  intros Hty [(f & Hf & ->) _]. destruct Hf as [-> | ->], Hty as [-> | ->]; by destruct indexed.
Qed.

Lemma stored_type idx v m : stored idx v m -> exists type x, m = bytes32 type ++ x /\ is_u32 type /\ Z.land type SXE_JITSON_TYPE_MASK = type_of v.
Proof.
  intros Hs. destruct Hs as [v type f r Hv Hf Ht Hi|l indexed type w e _ Hw|l indexed type w e _ Hw].
  - eexists _, _. split; [reflexivity|]. assert (Hty : type = match v with JUint _ => Z.lor SXE_JITSON_TYPE_NUMBER SXE_JITSON_TYPE_IS_UINT | _ => type_of v end).
    { destruct v as [|b|u|d|s|l|l]; try done; cbn [image] in Hi; [..|unfold string_image in Hi]; apply given_inv in Hi as (r' & E & _); by apply bytes32_inj in E as [? _]. }
    subst type. by destruct v, Hf as [-> | ->].
  - apply collection_word_type in Hw as (Ht & Hm & _); [|by left]. eexists _, _. split; [reflexivity|done].
  - apply collection_word_type in Hw as (Ht & Hm & _); [|by right]. eexists _, _. split; [reflexivity|done].
Qed.
End Stored.

(** The comparisons of constants. *)
Ltac decide_types :=
  cbn [type_of];
  repeat match goal with
  | |- context [?a =? ?b] => let r := eval vm_compute in (a =? b) in match r with true => change (a =? b) with true | false => change (a =? b) with false end
  end; cbn [orb].

(** ** Reading the heap *)
Section Heap.
Context `{Build} `{Env} `{Library}.

Lemma h_load_ret {A} (f : list Z -> outcome A) h b m a : h_blocks h !! b = Some m -> f m = Ret a -> h_load b f h = Ret (a, h).
Proof. intros E F. unfold h_load. rewrite E. cbn [load mbind outcome_bind]. by rewrite F. Qed.

Lemma h_store_ret f h b m m' : h_blocks h !! b = Some m -> f m = Ret m' -> h_store b f h = Ret (tt, mk_heap (<[b := m']> (h_blocks h)) (h_next h)).
Proof. intros E F. unfold h_store. rewrite E. cbn [load mbind outcome_bind]. by rewrite F. Qed.

(** The fields of token [i] in a memory whose first [i] tokens are [u]. *)
Lemma get_type_at u ty x i : zlen u = 16 * i -> get_type (u ++ bytes32 ty ++ x) i = Ret (u32 ty).
Proof. intros Hu. pose proof (get_type_app u x [] i ty Hu) as E. by rewrite app_nil_r in E. Qed.
Lemma get_len_at u t n x i : zlen u = 16 * i -> zlen t = 4 -> get_len (u ++ t ++ bytes32 n ++ x) i = Ret (u32 n).
Proof. intros Hu Ht. pose proof (get_len_app u t x [] i n Hu Ht) as E. by rewrite app_nil_r in E. Qed.

Lemma get_integer_at u t l v x i : zlen u = 16 * i -> zlen t = 4 -> zlen l = 4 -> 0 <= v < 18446744073709551616 -> get_integer (u ++ t ++ l ++ bytes64 v ++ x) i = Ret v.
Proof.
  intros Hu Ht Hl Hv. unfold get_integer, bytes64. rewrite <-(assoc_L (++) (bytes32 _) (bytes32 _)).
  rewrite (assoc_L (++) t l), (assoc_L (++) u (t ++ l)). rewrite (ld32_bytes32 (u ++ t ++ l) _ _ (tok i + 8)) by (rewrite !zlen_app; unfold tok; lia).
  cbn [mbind outcome_bind]. rewrite (assoc_L (++) (u ++ t ++ l)). rewrite (ld32_bytes32 ((u ++ t ++ l) ++ bytes32 (u32 v)) _ _ (tok i + 12)) by (rewrite !zlen_app, zlen_bytes32; unfold tok; lia).
  cbn. f_equal. word_lia.
Qed.

(** A token that is not a reference. *)
Section Token.
Context (h : heap) (p : ptr) (type : Z).
Hypothesis Ht : jget p get_type h = Ret (type, h).
Hypothesis Hr : (Z.land type SXE_JITSON_TYPE_MASK =? SXE_JITSON_TYPE_REFERENCE) = false.

Lemma token_is_reference : sxe_jitson_is_reference p h = Ret (false, h).
Proof. unfold sxe_jitson_is_reference. by rewrite (cmd_bind_ret _ _ _ _ _ Ht), Hr. Qed.
Lemma token_follow : follow p h = Ret (p, h).
Proof. unfold follow. by rewrite (cmd_bind_ret _ _ _ _ _ token_is_reference). Qed.
Lemma token_get_type : sxe_jitson_get_type p h = Ret (Z.land type SXE_JITSON_TYPE_MASK, h).
Proof. unfold sxe_jitson_get_type. cbn [get_type_from]. by rewrite (cmd_bind_ret _ _ _ _ _ token_is_reference), (cmd_bind_ret _ _ _ _ _ Ht). Qed.
Lemma token_expect1 ty : Z.land type SXE_JITSON_TYPE_MASK = ty -> expect1 p ty h = Ret (tt, h).
Proof. intros Hv. unfold expect1. by rewrite (cmd_bind_ret _ _ _ _ _ token_get_type), Hv, Z.eqb_refl. Qed.
Lemma token_expect6 ty : Z.land type SXE_JITSON_TYPE_MASK = ty -> expect6 p ty h = Ret (tt, h).
Proof. intros Hv. unfold expect6. destruct debug; [|done]. by apply token_expect1. Qed.
End Token.

(** A value in block [b]: the tokens before it, its memory, and the rest. Indexes are in other blocks. *)
Record lies (h : heap) (b i : Z) (u : list Z) (v : json) (m t : list Z) : Prop := {
  li_block : h_blocks h !! b = Some (u ++ m ++ t);
  li_index : zlen u = 16 * i;
  li_stored : stored (delete b (h_blocks h)) v m
}.

Section Value.
Context (h : heap) (b i : Z) (u : list Z) (v : json) (m t : list Z).
Hypothesis Hl : lies h b i u v m t.

Lemma value_type : exists type, jget (mk_ptr b i) get_type h = Ret (type, h) /\ Z.land type SXE_JITSON_TYPE_MASK = type_of v.
Proof.
  destruct Hl as [Hb Hu Hs]. destruct (stored_type _ _ _ Hs) as (type & x & Hm & Ht & Hty). exists type. split; [|done].
  unfold jget. cbn [p_block p_index]. apply (h_load_ret _ _ _ _ _ Hb). rewrite Hm, <-(assoc_L (++)), get_type_at by done. by rewrite u32_small.
Qed.

Lemma type_not_reference : (type_of v =? SXE_JITSON_TYPE_REFERENCE) = false.
Proof. by destruct v. Qed.

Lemma value_follow : follow (mk_ptr b i) h = Ret (mk_ptr b i, h).
Proof. destruct value_type as (type & E & Ht). apply (token_follow _ _ _ E). by rewrite Ht, type_not_reference. Qed.
Lemma value_expect1 ty : type_of v = ty -> expect1 (mk_ptr b i) ty h = Ret (tt, h).
Proof. intros Hv. destruct value_type as (type & E & Ht). apply (token_expect1 _ _ _ E); by rewrite Ht, ?type_not_reference. Qed.
Lemma value_expect6 ty : type_of v = ty -> expect6 (mk_ptr b i) ty h = Ret (tt, h).
Proof. intros Hv. destruct value_type as (type & E & Ht). apply (token_expect6 _ _ _ E); by rewrite Ht, ?type_not_reference. Qed.
End Value.

Lemma cmd_seq_ret {S A} (a b : cmd S unit) (c : cmd S A) s s' : (a;; b) s = Ret (tt, s') -> (a;; b;; c) s = c s'.
Proof. unfold mbind, cmd_bind. destruct (a s) as [[[] s1]| |]; [|done|done]. intros E. by rewrite E. Qed.

(** ** Indexes *)

Lemma words_zlen ws : zlen (words ws) = 4 * zlen ws.
Proof. induction ws as [|w ws IH]; [done|]. unfold words in *. cbn [fmap list_fmap concat]. rewrite zlen_app, IH, zlen_bytes32, zlen_cons. lia. Qed.
Lemma words_app a b : words (a ++ b) = words a ++ words b.
Proof. unfold words. by rewrite fmap_app, concat_app. Qed.

Lemma words_get pre w post j : j = zlen pre -> ld32 (words (pre ++ w :: post)) (4 * j) = Ret (u32 w).
Proof. intros ->. rewrite words_app. change (words (w :: post)) with (bytes32 w ++ words post). apply ld32_bytes32. by rewrite words_zlen. Qed.

Lemma words_lookup ws j w : 0 <= j -> ws !! Z.to_nat j = Some w -> ld32 (words ws) (4 * j) = Ret (u32 w).
Proof.
  intros Hj Hw. rewrite <-(take_drop_middle _ _ _ Hw). apply words_get. unfold zlen. apply lookup_lt_Some in Hw. rewrite length_take. lia.
Qed.

Lemma words_set ws j v : 0 <= j < zlen ws -> wr_bytes (words ws) (4 * j) (bytes32 v) = Ret (words (<[Z.to_nat j := v]> ws)).
Proof.
  intros Hj. destruct (lookup_lt_is_Some_2 ws (Z.to_nat j)) as [w Hw]; [unfold zlen in Hj; lia|].
  apply lookup_lt_Some in Hw as Hlt. rewrite insert_take_drop by done. rewrite <-(take_drop_middle _ _ _ Hw) at 1. rewrite !words_app.
  change (words (?x :: ?l)) with (bytes32 x ++ words l). apply wr_bytes_mid; [|done]. rewrite words_zlen. unfold zlen. rewrite length_take. lia.
Qed.

Lemma address_block blk : 0 <= blk < BLOCKS -> block_of (address blk 0) = blk /\ offset_of (address blk 0) = 0 /\ 0 <= address blk 0 < 18446744073709551616.
Proof. unfold block_of, offset_of, address, BLOCK, BLOCKS. intros. split_and!; Z.to_euclidean_division_equations; lia. Qed.

(** ** Sizes *)

Lemma bytes_from u s x h b i : h_blocks h !! b = Some (u ++ s ++ x) -> i = zlen u -> bytes_at (mk_ptr b i) h = Ret (s ++ x, h).
Proof.
  intros Hb ->. unfold bytes_at. cbn [p_block p_index]. apply (h_load_ret _ _ _ _ _ Hb). pose proof (zlen_nonneg u). pose proof (zlen_nonneg (s ++ x)).
  rewrite zlen_app. replace ((0 <=? zlen u) && (zlen u <=? zlen u + zlen (s ++ x))) with true by lia. by rewrite drop_zlen_app.
Qed.

(** The entry of an indexed collection. *)
Lemma get_index_at h b i u type n blk e ws j w :
  h_blocks h !! b = Some (u ++ bytes32 type ++ bytes32 n ++ bytes64 (address blk 0) ++ e) -> zlen u = 16 * i -> 0 <= blk < BLOCKS ->
  h_blocks h !! blk = Some (words ws) -> 0 <= j -> ws !! Z.to_nat j = Some w ->
  get_index (mk_ptr b i) j h = Ret (u32 w, h).
Proof.
  intros Hb Hu Hblk Hw Hj Hl. destruct (address_block _ Hblk) as (Ea & Eo & Hr). unfold get_index.
  assert (E : jget (mk_ptr b i) get_integer h = Ret (address blk 0, h)).
  { unfold jget. cbn [p_block p_index]. apply (h_load_ret _ _ _ _ _ Hb). by apply get_integer_at. }
  rewrite (cmd_bind_ret _ _ _ _ _ E), Ea, Eo. apply (h_load_ret _ _ _ _ _ Hw). by apply words_lookup.
Qed.

Lemma word_of_token pre t n x h b i : h_blocks h !! b = Some (pre ++ t ++ bytes32 n ++ x) -> zlen pre = 16 * i -> zlen t = 4 -> is_u32 n ->
  jget (mk_ptr b i) get_len h = Ret (n, h).
Proof. intros Hb Hu Ht Hn. unfold jget. cbn [p_block p_index]. apply (h_load_ret _ _ _ _ _ Hb). rewrite get_len_at by done. by rewrite u32_small. Qed.

Lemma type_of_token u type x h b i : h_blocks h !! b = Some (u ++ bytes32 type ++ x) -> zlen u = 16 * i -> is_u32 type ->
  jget (mk_ptr b i) get_type h = Ret (type, h).
Proof. intros Hb Hu Ht. unfold jget. cbn [p_block p_index]. apply (h_load_ret _ _ _ _ _ Hb). rewrite get_type_at by done. by rewrite u32_small. Qed.

(** A stored collection's size, from its header or from its index. *)
Lemma collection_size h b i u ty n table sz indexed type w e t :
  h_blocks h !! b = Some (u ++ (bytes32 type ++ bytes32 n ++ w ++ e) ++ t) -> zlen u = 16 * i ->
  ty = SXE_JITSON_TYPE_ARRAY \/ ty = SXE_JITSON_TYPE_OBJECT -> is_u32 n -> zlen table = n -> is_u32 sz ->
  collection_word (delete b (h_blocks h)) ty table sz indexed type w ->
  sxe_jitson_size_indexed (mk_ptr b i) h = Ret (sz, h).
Proof.
  intros Hb Hu Hty Hn Htab Hsz Hw. rewrite <-!(assoc_L (++)) in Hb. destruct (collection_word_type _ _ _ _ _ _ _ Hty Hw) as (Ht & _ & Hf).
  unfold sxe_jitson_size_indexed. rewrite (cmd_bind_ret _ _ _ _ _ (type_of_token _ _ _ _ _ _ Hb Hu Ht)), Hf. destruct Hw as [_ Hw]. destruct indexed.
  - destruct Hw as (blk & Hblk & Hi & ->). rewrite (cmd_bind_ret _ _ _ _ _ (word_of_token _ _ _ _ _ _ _ Hb Hu eq_refl Hn)).
    apply lookup_delete_Some in Hi as [_ Hi]. rewrite (get_index_at _ _ _ _ _ _ _ _ _ n sz Hb Hu Hblk Hi); [by rewrite u32_small|unfold is_u32 in Hn; lia|].
    rewrite <-Htab. unfold zlen. rewrite Nat2Z.id. by rewrite lookup_app_r, Nat.sub_diag by lia.
  - subst w. unfold is_u32 in Hsz.
    assert (E : jget (mk_ptr b i) get_integer h = Ret (sz, h)).
    { unfold jget. cbn [p_block p_index]. apply (h_load_ret _ _ _ _ _ Hb). apply get_integer_at; [done..|lia]. }
    rewrite (cmd_bind_ret _ _ _ _ _ E). by rewrite u32_small.
Qed.

Lemma array_offsets_zlen off l : zlen (array_offsets off l) = zlen l.
Proof. revert off. induction l as [|v l IH]; intros off; cbn [array_offsets]; [done|]. by rewrite !zlen_cons, IH. Qed.
Lemma index_of_zlen n off T l : zlen (snd (index_of n off T l)) = zlen T /\ zlen (fst (index_of n off T l)) = zlen l.
Proof.
  revert off T. induction l as [|kv l IH]; intros off T; cbn [index_of]; [done|]. destruct (index_of n _ _ l) as [ls T'] eqn:E.
  specialize (IH (off + member_size kv) (<[Z.to_nat (bucket n (fst kv)) := off]> T)). rewrite E in IH. cbn [fst snd] in *. rewrite !zlen_cons. split; [|lia].
  destruct IH as [-> _]. unfold zlen. by rewrite length_insert.
Qed.
Lemma object_index_zlen l : zlen (snd (object_index l)) = zlen l.
Proof. unfold object_index. rewrite (proj1 (index_of_zlen _ _ _ _)). unfold zlen. by rewrite length_replicate. Qed.

Lemma zlen_sizes l : zlen l <= sizes l.
Proof. induction l as [|v l IH]; [done|]. cbn [sizes fold_right]. rewrite zlen_cons. destruct (image_size v). unfold sizes in IH. lia. Qed.
Lemma string_tokens_pos (k : list Z) : 1 <= string_tokens (zlen k).
Proof. pose proof (zlen_nonneg k). unfold string_tokens. Z.to_euclidean_division_equations; lia. Qed.
Lemma zlen_member_sizes l : zlen l <= member_sizes l.
Proof.
  induction l as [|kv l IH]; [done|]. cbn [member_sizes fold_right]. rewrite zlen_cons. unfold member_size at 1. destruct (image_size (snd kv)).
  pose proof (string_tokens_pos (fst kv)). unfold member_sizes in IH. lia.
Qed.

(** The size of any stored value, up to 4 GB. *)
Definition fits_u32 (v : json) : Prop := is_u32 (16 * size v).

Lemma value_size h b i u v m t : lies h b i u v m t -> fits_u32 v -> sxe_jitson_size (mk_ptr b i) h = Ret (size v, h).
Proof.
  intros Hl Hsz. destruct (value_type _ _ _ _ _ _ _ Hl) as (ty & E & Hty). unfold sxe_jitson_size. rewrite (cmd_bind_ret _ _ _ _ _ E), Hty.
  destruct Hl as [Hb Hu Hs]. pose proof (stored_zlen_all (delete b (h_blocks h))) as (_ & Hze & Hzm).
  destruct Hs as [v type f r Hv Hfl Htu Hi|l indexed type w e He Hw|l indexed type w e He Hw].
  - destruct v as [|bb|uu|d|s|l|l]; try done. cbn [type_of]. cbn [image] in Hi. apply string_image_inv in Hi as (pad & Hp & Ei).
    apply bytes32_inj in Ei as [-> ->]; [|done|done].
    decide_types.
    assert (size (JString s) = string_tokens (zlen s)) as Es by (unfold size; cbn [image]; rewrite string_image_zlen; Z.to_euclidean_division_equations; lia).
    unfold fits_u32 in Hsz. rewrite Es in *. pose proof (zlen_nonneg s). unfold fits_u32, is_u32, string_tokens in Hsz. rewrite <-!(assoc_L (++)) in Hb.
    unfold sxe_jitson_string_size, sxe_jitson_string_len. pose proof (type_of_token _ _ _ _ _ _ Hb Hu ltac:(by destruct Hfl as [-> | ->])) as Et. rewrite (cmd_bind_ret _ _ _ _ _ Et).
    replace (has_flag (Z.lor SXE_JITSON_TYPE_STRING f) SXE_JITSON_TYPE_IS_REF) with false by (by destruct Hfl as [-> | ->]). cbn iota. rewrite (cmd_bind_ret _ _ _ (zlen s) h).
    + unfold mret, cmd_ret. do 2 f_equal. unfold SXE_JITSON_TOKEN_SIZE, SXE_JITSON_STRING_SIZE. rewrite u64_small, u32_small; unfold is_u32, is_u64, string_tokens;
        [f_equal; f_equal; lia| |]; Z.to_euclidean_division_equations; lia.
    + rewrite (cmd_bind_ret _ _ _ _ _ Et). replace (has_flag (Z.lor SXE_JITSON_TYPE_STRING f) SXE_JITSON_TYPE_IS_KEY) with false by (by destruct Hfl as [-> | ->]). cbn iota.
      rewrite (cmd_bind_ret _ _ _ _ _ (word_of_token _ _ _ _ _ _ _ Hb Hu eq_refl ltac:(unfold is_u32; Z.to_euclidean_division_equations; lia))).
      replace (has_flag (Z.lor SXE_JITSON_TYPE_STRING f) SXE_JITSON_TYPE_IS_REF) with false by (by destruct Hfl as [-> | ->]). by rewrite andb_false_r.
  - decide_types. apply Hze in He as Hz. pose proof (zlen_sizes l) as Hn. pose proof (zlen_nonneg l). unfold fits_u32, is_u32 in Hsz. rewrite size_array in *.
    replace (1 + zlen e / 16) with (1 + sizes l) in Hw by (rewrite Hz; Z.to_euclidean_division_equations; lia).
    apply (collection_size h b i u SXE_JITSON_TYPE_ARRAY (zlen l) (array_offsets 1 l) _ indexed type w e t); [done|done|by left|unfold is_u32; lia|by rewrite array_offsets_zlen|unfold is_u32; lia|done].
  - decide_types. apply Hzm in He as Hz. pose proof (zlen_member_sizes l) as Hn. pose proof (zlen_nonneg l). unfold fits_u32, is_u32 in Hsz. rewrite size_object in *.
    replace (1 + zlen e / 16) with (1 + member_sizes l) in Hw by (rewrite Hz; Z.to_euclidean_division_equations; lia).
    apply (collection_size h b i u SXE_JITSON_TYPE_OBJECT (zlen l) (snd (object_index l)) _ indexed type w e t); [done|done|by right|unfold is_u32; lia|by rewrite object_index_zlen|unfold is_u32; lia|done].
Qed.

(** ** Changing the heap *)

(** Blocks are numbered in order. *)
Definition heap_ok (h : heap) : Prop := 1 <= h_next h /\ forall b m, h_blocks h !! b = Some m -> 0 < b < h_next h.

(** Nothing but block [b] changes, and blocks are added. *)
Definition grows (b : Z) (h h' : heap) : Prop := delete b (h_blocks h) ⊆ delete b (h_blocks h') /\ h_next h <= h_next h'.

Definition no_block (h : heap) : Prop := (exists n, can_alloc n = false) \/ BLOCKS <= h_next h.

Lemma grows_refl b h : grows b h h.
Proof. split; [done|lia]. Qed.
Lemma grows_trans b h1 h2 h3 : grows b h1 h2 -> grows b h2 h3 -> grows b h1 h3.
Proof. intros [A B] [C D]. split; [by etrans|lia]. Qed.

Lemma alloc_cases bytes h : heap_ok h ->
  (h_alloc bytes h = Ret (Some (h_next h), mk_heap (<[h_next h := bytes]> (h_blocks h)) (h_next h + 1)) /\ 0 < h_next h < BLOCKS /\ h_blocks h !! h_next h = None) \/
  (h_alloc bytes h = Ret (None, h) /\ no_block h).
Proof.
  intros [Hn Hb]. unfold h_alloc, no_block. destruct (can_alloc (zlen bytes)) eqn:E1; cbn [andb].
  - destruct (Z.ltb_spec (h_next h) BLOCKS); [left|right; split; [done|by right]]. split_and!; [done|lia|done|].
    destruct (h_blocks h !! h_next h) as [m|] eqn:E; [|done]. apply Hb in E. lia.
  - right. split; [done|]. left. by eexists.
Qed.

Lemma set_type_at u a x i v : zlen u = 16 * i -> zlen a = 4 -> set_type (u ++ a ++ x) i v = Ret (u ++ bytes32 v ++ x).
Proof. intros Hu Ha. pose proof (set_type_app u a x [] i v Hu Ha) as E. by rewrite !app_nil_r in E. Qed.
Lemma set_len_at u t a x i v : zlen u = 16 * i -> zlen t = 4 -> zlen a = 4 -> set_len (u ++ t ++ a ++ x) i v = Ret (u ++ t ++ bytes32 v ++ x).
Proof. intros Hu Ht Ha. pose proof (set_len_app u t a x [] i v Hu Ht Ha) as E. by rewrite !app_nil_r in E. Qed.
Lemma set_integer_at u t l a x i v : zlen u = 16 * i -> zlen t = 4 -> zlen l = 4 -> zlen a = 8 -> set_integer (u ++ t ++ l ++ a ++ x) i v = Ret (u ++ t ++ l ++ bytes64 v ++ x).
Proof. intros Hu Ht Hl Ha. pose proof (set_integer_app u t l a x [] i v Hu Ht Hl Ha) as E. by rewrite !app_nil_r in E. Qed.

(** The header of a collection that is given the block [blk] for its index, whose last word takes the size. *)
Lemma start_index_at h b i u ty n sz e t blk table old :
  h_blocks h !! b = Some (u ++ (bytes32 ty ++ bytes32 n ++ bytes64 sz ++ e) ++ t) -> zlen u = 16 * i -> is_u32 ty -> 0 <= n -> is_u32 sz ->
  h_blocks h !! blk = Some (table ++ old) -> zlen table = 4 * n -> zlen old = 4 -> b <> blk ->
  start_index (mk_ptr b i) blk n h = Ret (tt, mk_heap
    (<[b := u ++ (bytes32 (Z.lor ty SXE_JITSON_TYPE_INDEXED) ++ bytes32 n ++ bytes64 (address blk 0) ++ e) ++ t]> (<[blk := table ++ bytes32 sz]> (h_blocks h))) (h_next h)).
Proof.
  intros Hb Hu Hty Hn Hsz Hblk Ht Ho Hne. rewrite <-!(assoc_L (++)) in Hb. unfold start_index. unfold is_u32 in Hsz.
  assert (E1 : jget (mk_ptr b i) get_integer h = Ret (sz, h)).
  { unfold jget. cbn [p_block p_index]. apply (h_load_ret _ _ _ _ _ Hb). apply get_integer_at; [done..|lia]. }
  rewrite (cmd_bind_ret _ _ _ _ _ E1), u32_small by done.
  assert (E2 : set_index blk n sz h = Ret (tt, mk_heap (<[blk := table ++ bytes32 sz]> (h_blocks h)) (h_next h))).
  { apply (h_store_ret _ _ _ _ _ Hblk). pose proof (wr_bytes_mid table old (bytes32 sz) [] (4 * n)) as E. rewrite !app_nil_r in E. by apply E. }
  rewrite (cmd_bind_ret _ _ _ _ _ E2). set (h1 := mk_heap _ _).
  assert (Hb1 : h_blocks h1 !! b = Some (u ++ bytes32 ty ++ bytes32 n ++ bytes64 sz ++ e ++ t)) by (cbn [h1 h_blocks]; by rewrite lookup_insert_ne).
  rewrite (cmd_bind_ret _ _ _ _ _ (type_of_token _ _ _ _ _ _ Hb1 Hu Hty)).
  assert (E3 : jset (mk_ptr b i) set_type (Z.lor ty SXE_JITSON_TYPE_INDEXED) h1 = Ret (tt, mk_heap
     (<[b := u ++ bytes32 (Z.lor ty SXE_JITSON_TYPE_INDEXED) ++ bytes32 n ++ bytes64 sz ++ e ++ t]> (h_blocks h1)) (h_next h1))).
  { apply (h_store_ret _ _ _ _ _ Hb1). by apply set_type_at. }
  rewrite (cmd_bind_ret _ _ _ _ _ E3). unfold jset. cbn [p_block p_index].
  rewrite (h_store_ret _ _ b (u ++ bytes32 (Z.lor ty SXE_JITSON_TYPE_INDEXED) ++ bytes32 n ++ bytes64 sz ++ e ++ t) (u ++ bytes32 (Z.lor ty SXE_JITSON_TYPE_INDEXED) ++ bytes32 n ++ bytes64 (address blk 0) ++ e ++ t)).
  - cbn [h_blocks h_next h1]. rewrite insert_insert_eq. by rewrite <-!(assoc_L (++)).
  - cbn [h_blocks]. by rewrite lookup_insert_eq.
  - by apply set_integer_at.
Qed.

(** ** Arrays *)

Lemma subseteq_other (idx : gmap Z (list Z)) (B : gmap Z (list Z)) b blk x : idx ⊆ delete b B -> idx !! blk = None -> b <> blk -> idx ⊆ delete b (<[blk := x]> B).
Proof. intros Hs Hn Hne. rewrite delete_insert_ne by done. by apply insert_subseteq_r. Qed.

(** The offsets of the elements [l2] that are left are stored behind those that are [done]. *)
Lemma index_elements_at idx b i blk l2 : forall h u2 e2 t done junk last,
  h_blocks h !! b = Some (u2 ++ e2 ++ t) -> h_blocks h !! blk = Some (words done ++ junk ++ last) -> b <> blk ->
  idx ⊆ delete b (h_blocks h) -> idx !! blk = None -> elements idx l2 e2 -> zlen junk = 4 * zlen l2 ->
  (zlen u2) mod 16 = 0 -> 0 <= i -> 16 * i <= zlen u2 -> is_u32 (zlen u2 - 16 * i + 16 * sizes l2) ->
  index_elements (length l2) (mk_ptr b i) (mk_ptr b (zlen u2 / 16)) blk (zlen done) h =
    Ret (tt, mk_heap (<[blk := words (done ++ array_offsets (zlen u2 / 16 - i) l2) ++ last]> (h_blocks h)) (h_next h)).
Proof.
  induction l2 as [|v l2 IH]; intros h u2 e2 t done junk last Hb Hblk Hne Hs Hn He Hj Hu Hi0 Hi Hsz; cbn [length index_elements array_offsets].
  { rewrite app_nil_r. change (zlen (@nil json)) with 0 in Hj. destruct junk; [|rewrite zlen_cons in Hj; pose proof (zlen_nonneg junk); lia]. cbn [app] in Hblk.
    rewrite insert_id by done. by destruct h. }
  inversion He as [|v' l' m e Hm He']; subst. rewrite zlen_cons in Hj. cbn [sizes fold_right] in Hsz. fold (sizes l2) in Hsz.
  destruct (image_size v) as [_ Hv]. pose proof (zlen_sizes l2). pose proof (zlen_nonneg l2). pose proof (zlen_nonneg done). unfold is_u32 in Hsz. pose proof (zlen_nonneg u2).
  destruct (split_memory junk 4) as (a & junk' & -> & Ha & Hj'); [lia|]. cbn [p_index].
  assert (Hoff : u32 (zlen u2 / 16 - i) = zlen u2 / 16 - i) by (apply u32_small; unfold is_u32; Z.to_euclidean_division_equations; lia).
  rewrite Hoff. set (off := zlen u2 / 16 - i) in *.
  assert (E1 : set_index blk (zlen done) off h = Ret (tt, mk_heap (<[blk := words (done ++ [off]) ++ junk' ++ last]> (h_blocks h)) (h_next h))).
  { apply (h_store_ret _ _ _ _ _ Hblk). rewrite words_app, <-!(assoc_L (++)). change (words [off]) with (bytes32 off ++ []). rewrite app_nil_r.
    apply wr_bytes_mid; [by rewrite words_zlen|done]. }
  rewrite (cmd_bind_ret _ _ _ _ _ E1). set (h1 := mk_heap _ _).
  assert (Hb1 : h_blocks h1 !! b = Some (u2 ++ m ++ e ++ t)) by (cbn [h1 h_blocks]; rewrite lookup_insert_ne by done; rewrite Hb; by rewrite <-(assoc_L (++) m)).
  assert (Hs1 : idx ⊆ delete b (h_blocks h1)) by (by apply subseteq_other).
  assert (E2 : sxe_jitson_size (mk_ptr b (zlen u2 / 16)) h1 = Ret (size v, h1)).
  { apply (value_size h1 b _ u2 v m (e ++ t)); [|unfold fits_u32, is_u32; lia]. split; [done|Z.to_euclidean_division_equations; lia|by eapply stored_mono]. }
  rewrite (cmd_bind_ret _ _ _ _ _ E2). unfold ptr_add. cbn [p_block p_index]. pose proof (stored_zlen _ _ _ Hm) as Hzm.
  assert (Hz : zlen (u2 ++ m) / 16 = zlen u2 / 16 + size v) by (rewrite zlen_app, Hzm; Z.to_euclidean_division_equations; lia).
  rewrite <-Hz. replace (zlen done + 1) with (zlen (done ++ [off])) by (by rewrite zlen_app).
  rewrite (IH h1 (u2 ++ m) e t (done ++ [off]) junk' last); try done.
  - cbn [h1 h_blocks h_next]. rewrite insert_insert_eq, <-(assoc_L (++)). cbn [app]. rewrite Hz. replace (zlen u2 / 16 + size v - i) with (off + size v) by (unfold off; lia). done.
  - by rewrite Hb1, <-(assoc_L (++)).
  - cbn [h1 h_blocks]. by rewrite lookup_insert_eq.
  - lia.
  - rewrite zlen_app, Hzm. Z.to_euclidean_division_equations; lia.
  - rewrite zlen_app, Hzm. lia.
  - rewrite zlen_app, Hzm. unfold is_u32. lia.
Qed.

Lemma array_offsets_lookup off l n v : l !! n = Some v -> array_offsets off l !! n = Some (off + sizes (take n l)).
Proof.
  revert off n. induction l as [|w l IH]; intros off [|n] Hn; cbn [lookup list_lookup array_offsets] in *; try done.
  - cbn [take sizes fold_right]. by rewrite Z.add_0_r.
  - rewrite (IH _ _ Hn). cbn [take sizes fold_right]. unfold sizes. f_equal. lia.
Qed.

Lemma elements_split idx l e n v : elements idx l e -> l !! n = Some v ->
  exists e1 me e2, e = e1 ++ me ++ e2 /\ stored idx v me /\ zlen e1 = 16 * sizes (take n l) /\
    forall idx' me', idx ⊆ idx' -> stored idx' v me' -> elements idx' l (e1 ++ me' ++ e2).
Proof.
  intros He. revert n. induction He as [|w l m e Hw He IH]; intros n Hn; [done|]. destruct n as [|n]; cbn [lookup list_lookup] in Hn.
  - injection Hn as ->. exists [], m, e. split_and!; [done|done|done|]. intros idx' me' Hs Hme. cbn [app]. constructor; [done|]. by eapply elements_mono.
  - destruct (IH _ Hn) as (e1 & me & e2 & -> & Hme & Hz & Hr). exists (m ++ e1), me, e2. split_and!.
    + by rewrite <-(assoc_L (++)).
    + done.
    + cbn [take sizes fold_right]. rewrite zlen_app, Hz, (stored_zlen _ _ _ Hw). unfold sizes. lia.
    + intros idx' me' Hs Hm'. rewrite <-(assoc_L (++)). constructor; [by eapply stored_mono|by apply Hr].
Qed.

(** An element lies inside its array, and may be replaced by the same value stored otherwise. *)
Lemma lies_element h b i u l m t n v : lies h b i u (JArray l) m t -> l !! n = Some v ->
  exists pre me post, m = pre ++ me ++ post /\ lies h b (i + (1 + sizes (take n l))) (u ++ pre) v me (post ++ t) /\
    forall h' me', grows b h h' -> lies h' b (i + (1 + sizes (take n l))) (u ++ pre) v me' (post ++ t) -> lies h' b i u (JArray l) (pre ++ me' ++ post) t.
Proof.
  intros [Hb Hu Hs] Hn. inversion Hs as [? ? ? ? Hv|l' indexed type w e He Hw|]; subst; [done|].
  destruct (elements_split _ _ _ _ _ He Hn) as (e1 & me & e2 & -> & Hme & Hz & Hr).
  assert (Hzw := collection_word_zlen _ _ _ _ _ _ _ Hw).
  exists (bytes32 type ++ bytes32 (zlen l) ++ w ++ e1), me, e2. rewrite <-!(assoc_L (++)). split_and!; [done|split|].
  - rewrite Hb. by rewrite <-!(assoc_L (++)).
  - rewrite !zlen_app, !zlen_bytes32, Hzw, Hz, Hu. lia.
  - done.
  - intros h' me' [Hg _] [Hb' _ Hs']. split; [|done|].
    + rewrite Hb'. by rewrite <-!(assoc_L (++)).
    + assert (Hze : zlen (e1 ++ me' ++ e2) = zlen (e1 ++ me ++ e2)) by (rewrite !zlen_app, (stored_zlen _ _ _ Hme), (stored_zlen _ _ _ Hs'); lia).
      rewrite <-!(assoc_L (++)). apply (sd_array _ l indexed type w); [by apply Hr|]. rewrite Hze. by eapply collection_word_mono.
Qed.

(** The heap after block [b] was changed and a block added. *)
Record added (h h' : heap) (b : Z) (M T : list Z) : Prop := {
  ad_block : h_blocks h' !! b = Some M;
  ad_new : h_blocks h' !! h_next h = Some T;
  ad_other : forall c, c <> b -> c <> h_next h -> h_blocks h' !! c = h_blocks h !! c;
  ad_next : h_next h' = h_next h + 1
}.

Lemma added_grows h h' b M T : heap_ok h -> b < h_next h -> 0 < b -> added h h' b M T -> heap_ok h' /\ grows b h h'.
Proof.
  intros [Hpos Hdom] Hb1 Hb0 [Hb Hn Hc Hnext]. split; [split; [lia|]|split; [|lia]].
  - intros c m Hm. destruct (decide (c = b)) as [->|Hcb]; [lia|]. destruct (decide (c = h_next h)) as [->|Hcn]; [lia|].
    rewrite Hc in Hm by done. apply Hdom in Hm. lia.
  - apply map_subseteq_spec. intros c m Hm. apply lookup_delete_Some in Hm as [Hcb Hm]. rewrite lookup_delete_ne by done.
    rewrite Hc; [done|done|]. apply Hdom in Hm. lia.
Qed.

(** Indexing an array that is not. *)
Lemma index_array h b i u l ty w e t : heap_ok h -> lies h b i u (JArray l) (bytes32 ty ++ bytes32 (zlen l) ++ w ++ e) t ->
  collection_word (delete b (h_blocks h)) SXE_JITSON_TYPE_ARRAY (array_offsets 1 l) (1 + zlen e / 16) false ty w -> elements (delete b (h_blocks h)) l e ->
  fits_u32 (JArray l) ->
  forall bytes, zlen bytes = 4 * (zlen l + 1) -> 0 < h_next h < BLOCKS -> h_blocks h !! h_next h = None ->
  exists h' m', (start_index (mk_ptr b i) (h_next h) (zlen l);; index_elements (length l) (mk_ptr b i) (ptr_add (mk_ptr b i) 1) (h_next h) 0)
      (mk_heap (<[h_next h := bytes]> (h_blocks h)) (h_next h + 1)) = Ret (tt, h') /\
    lies h' b i u (JArray l) m' t /\ heap_ok h' /\ grows b h h' /\ h_next h' = h_next h + 1 /\
    exists type w', m' = bytes32 type ++ bytes32 (zlen l) ++ w' ++ e /\
      collection_word (delete b (h_blocks h')) SXE_JITSON_TYPE_ARRAY (array_offsets 1 l) (1 + zlen e / 16) true type w'.
Proof.
  intros Hok [Hb Hu _] [Hflag Ew] He Hsz bytes Hz Hnext Hfresh. subst w. set (blk := h_next h).
  assert (Htu : is_u32 ty) by (destruct Hflag as (f & [-> | ->] & ->); done). set (h1 := mk_heap _ _).
  destruct Hok as [Hpos Hdom]. assert (Hbd := Hdom _ _ Hb). assert (Hne : b <> blk) by (unfold blk; lia).
  pose proof (proj1 (proj2 (stored_zlen_all (delete b (h_blocks h)))) _ _ He) as Hze. pose proof (zlen_sizes l). pose proof (zlen_nonneg l).
  unfold fits_u32, is_u32 in Hsz. rewrite size_array in Hsz. assert (Hsize : 1 + zlen e / 16 = 1 + sizes l) by (rewrite Hze; Z.to_euclidean_division_equations; lia).
  destruct (split_memory bytes (4 * zlen l)) as (table & old & -> & Ht & Ho); [lia|].
  assert (Hb1 : h_blocks h1 !! b = Some (u ++ (bytes32 ty ++ bytes32 (zlen l) ++ bytes64 (1 + zlen e / 16) ++ e) ++ t)) by (cbn [h1 h_blocks]; by rewrite lookup_insert_ne).
  assert (Hk1 : h_blocks h1 !! blk = Some (table ++ old)) by (cbn [h1 h_blocks]; by rewrite lookup_insert_eq).
  pose proof (start_index_at h1 b i u _ _ _ e t blk table old Hb1 Hu Htu ltac:(lia) ltac:(unfold is_u32; lia) Hk1 Ht ltac:(lia) Hne) as E1.
  rewrite (cmd_bind_ret _ _ _ _ _ E1). set (h2 := mk_heap _ _). set (type := Z.lor ty SXE_JITSON_TYPE_INDEXED) in *.
  assert (Htype : exists f, alloc_flag f /\ type = Z.lor (Z.lor SXE_JITSON_TYPE_ARRAY SXE_JITSON_TYPE_INDEXED) f) by (destruct Hflag as (f & Hf & ->); exists f; split; [done|by destruct Hf as [-> | ->]]).
  set (hdr := bytes32 type ++ bytes32 (zlen l) ++ bytes64 (address blk 0)). assert (Hzh : zlen hdr = 16) by (unfold hdr; by rewrite !zlen_app).
  assert (Hblk2 : h_blocks h2 !! blk = Some (words [] ++ table ++ bytes32 (1 + zlen e / 16))) by (cbn [h2 h_blocks]; rewrite lookup_insert_ne by done; by rewrite lookup_insert_eq).
  assert (Hsub : delete b (h_blocks h) ⊆ delete b (h_blocks h2)).
  { cbn [h2 h_blocks]. rewrite delete_insert_eq. cbn [h1 h_blocks]. rewrite insert_insert_eq. apply subseteq_other; [done|by rewrite lookup_delete_ne|done]. }
  assert (Hb2 : h_blocks h2 !! b = Some ((u ++ hdr) ++ e ++ t)) by (cbn [h2 h_blocks]; rewrite lookup_insert_eq; unfold hdr; by rewrite <-!(assoc_L (++))).
  assert (Huz : zlen (u ++ hdr) / 16 = i + 1) by (rewrite zlen_app, Hu, Hzh; Z.to_euclidean_division_equations; lia).
  pose proof (index_elements_at (delete b (h_blocks h)) b i blk l h2 (u ++ hdr) e t [] table (bytes32 (1 + zlen e / 16)) Hb2 Hblk2 Hne Hsub
    ltac:(by rewrite lookup_delete_ne) He Ht ltac:(rewrite zlen_app, Hu, Hzh; Z.to_euclidean_division_equations; lia)
    ltac:(pose proof (zlen_nonneg u); lia) ltac:(rewrite zlen_app, Hu; lia) ltac:(rewrite zlen_app, Hu, Hzh; unfold is_u32; lia)) as E2.
  change (zlen (@nil Z)) with 0 in E2. rewrite Huz in E2. unfold ptr_add. cbn [p_block p_index]. rewrite E2.
  replace (i + 1 - i) with 1 by lia. cbn [app]. set (h3 := mk_heap _ _).
  assert (Ha : added h h3 b (u ++ (hdr ++ e) ++ t) (words (array_offsets 1 l ++ [1 + zlen e / 16]))).
  { split; cbn [h3 h2 h1 h_blocks h_next].
    - rewrite lookup_insert_ne by done. rewrite lookup_insert_eq. unfold hdr. by rewrite <-!(assoc_L (++)).
    - fold blk. rewrite lookup_insert_eq, words_app. done.
    - intros c Hcb Hcn. fold blk in Hcn. by rewrite !lookup_insert_ne by done.
    - done. }
  destruct (added_grows h h3 b _ _ (conj Hpos Hdom) ltac:(unfold blk in *; lia) ltac:(lia) Ha) as [Hok3 Hg3]. destruct Ha as [Ab An _ Anext].
  assert (Hcw : collection_word (delete b (h_blocks h3)) SXE_JITSON_TYPE_ARRAY (array_offsets 1 l) (1 + zlen e / 16) true type (bytes64 (address blk 0))).
  { split; [done|]. exists blk. split_and!; [unfold blk; lia|unfold blk; lia| |done]. by rewrite lookup_delete_ne. }
  assert (Hm : hdr ++ e = bytes32 type ++ bytes32 (zlen l) ++ bytes64 (address blk 0) ++ e) by (unfold hdr; by rewrite <-!(assoc_L (++))).
  exists h3, (hdr ++ e). split; [done|]. split_and!; [split; [done|done|]|done|done|done|by eexists _, _].
  rewrite Hm. apply (sd_array _ l true type); [|done]. eapply elements_mono; [apply Hg3|done].
Qed.

Lemma array_entry h b i u l type w e t idx v :
  h_blocks h !! b = Some (u ++ (bytes32 type ++ bytes32 (zlen l) ++ w ++ e) ++ t) -> zlen u = 16 * i -> fits_u32 (JArray l) -> 0 <= idx ->
  collection_word (delete b (h_blocks h)) SXE_JITSON_TYPE_ARRAY (array_offsets 1 l) (1 + zlen e / 16) true type w -> l !! Z.to_nat idx = Some v ->
  get_index (mk_ptr b i) idx h = Ret (1 + sizes (take (Z.to_nat idx) l), h).
Proof.
  intros Hb Hu Hsz Hidx [_ (blk & Hblk & Hi & ->)] Hv. rewrite <-!(assoc_L (++)) in Hb. apply lookup_delete_Some in Hi as [_ Hi].
  rewrite (get_index_at _ _ _ _ _ _ _ _ _ idx (1 + sizes (take (Z.to_nat idx) l)) Hb Hu Hblk Hi); [|done|].
  - rewrite u32_small; [done|]. unfold fits_u32, is_u32 in Hsz |- *. rewrite size_array in Hsz. rewrite <-(take_drop (Z.to_nat idx) l) in Hsz.
    assert (Happ : forall a c, sizes (a ++ c) = sizes a + sizes c) by (intros a c; induction a as [|x a IH]; [done|]; cbn [app sizes fold_right]; unfold sizes in IH; rewrite IH; unfold sizes; lia).
    rewrite Happ in Hsz. pose proof (zlen_sizes (take (Z.to_nat idx) l)). pose proof (zlen_sizes (drop (Z.to_nat idx) l)).
    pose proof (zlen_nonneg (take (Z.to_nat idx) l)). pose proof (zlen_nonneg (drop (Z.to_nat idx) l)). lia.
  - pose proof (array_offsets_lookup 1 _ _ _ Hv) as Ho. rewrite lookup_app_l; [done|]. by apply lookup_lt_Some in Ho.
Qed.

(** sxe_jitson_array_get_element on an array, indexed or not. *)
Lemma get_element_cases h b i u l m t idx :
  heap_ok h -> lies h b i u (JArray l) m t -> fits_u32 (JArray l) -> is_u32 idx ->
  match l !! Z.to_nat idx with
  | None => sxe_jitson_array_get_element (mk_ptr b i) idx h = Ret (inr ERANGE, h)
  | Some v =>
      (exists h' m', sxe_jitson_array_get_element (mk_ptr b i) idx h = Ret (inl (mk_ptr b (i + (1 + sizes (take (Z.to_nat idx) l)))), h') /\
         lies h' b i u (JArray l) m' t /\ heap_ok h' /\ grows b h h' /\ h_next h' <= h_next h + 1) \/
      (sxe_jitson_array_get_element (mk_ptr b i) idx h = Ret (inr ENOMEM, h) /\ no_block h)
  end.
Proof.
  intros Hok Hl Hsz Hidx. unfold sxe_jitson_array_get_element. rewrite (cmd_bind_ret _ _ _ _ _ (value_follow _ _ _ _ _ _ _ Hl)).
  rewrite (cmd_bind_ret _ _ _ _ _ (value_expect1 _ _ _ _ _ _ _ Hl _ eq_refl)). pose proof Hl as [Hb Hu Hs].
  inversion Hs as [? ? ? ? Hv|l' indexed type w e He Hw|]; subst; [done|]. pose proof (zlen_sizes l). pose proof (zlen_nonneg l).
  pose proof Hsz as Hsz'. unfold fits_u32, is_u32 in Hsz'. rewrite size_array in Hsz'. unfold is_u32 in Hidx.
  destruct (collection_word_type _ _ _ _ _ _ _ (or_introl eq_refl) Hw) as (Hty & _ & Hf).
  rewrite <-!(assoc_L (++)) in Hb. rewrite (cmd_bind_ret _ _ _ _ _ (word_of_token _ _ _ _ _ _ _ Hb Hu eq_refl ltac:(unfold is_u32; lia))).
  destruct (l !! Z.to_nat idx) as [v|] eqn:Ev.
  2: { apply lookup_ge_None in Ev. replace (zlen l <=? idx) with true by (unfold zlen; lia). done. }
  apply lookup_lt_Some in Ev as Hlt. replace (zlen l <=? idx) with false by (unfold zlen; lia).
  rewrite (cmd_bind_ret _ _ _ _ _ (type_of_token _ _ _ _ _ _ Hb Hu Hty)), Hf.
  destruct indexed.
  - left. exists h, (bytes32 type ++ bytes32 (zlen l) ++ w ++ e). rewrite (cmd_bind_ret _ _ _ true h) by done. cbn [negb].
    rewrite (cmd_bind_ret _ _ _ _ _ (array_entry h b i u l type w e t idx v (li_block _ _ _ _ _ _ _ Hl) Hu Hsz (proj1 Hidx) Hw Ev)).
    split; [done|]. split_and!; [done..|apply grows_refl|lia].
  - pose proof Hw as [_ ->]. destruct (alloc_cases (fresh_bytes 0 (u32 (zlen l + 1) * 4)) h Hok) as [(E & Hnext & Hfresh)|[E Hno]].
    2: { right. split; [|done]. rewrite (cmd_bind_ret _ _ _ false h); [done|]. unfold sxe_malloc. by rewrite (cmd_bind_ret _ _ _ _ _ E). }
    left. destruct (index_array h b i u l _ _ e t Hok Hl Hw He Hsz (fresh_bytes 0 (u32 (zlen l + 1) * 4))) as (h' & m' & E2 & Hl' & Hok' & Hg & Hn & type' & w' & -> & Hw'); [|done|done|].
    { rewrite u32_small by (unfold is_u32; lia). rewrite fresh_bytes_zlen by lia. lia. }
    exists h', (bytes32 type' ++ bytes32 (zlen l) ++ w' ++ e). split; [|split_and!; [done..|lia]].
    rewrite (cmd_bind_ret _ _ _ true h').
    + cbn [negb]. by rewrite (cmd_bind_ret _ _ _ _ _ (array_entry h' b i u l type' w' e t idx v (li_block _ _ _ _ _ _ _ Hl') Hu Hsz (proj1 Hidx) Hw' Ev)).
    + unfold sxe_malloc. rewrite (cmd_bind_ret _ _ _ _ _ E). assert (Z.to_nat (zlen l) = length l) as -> by (unfold zlen; lia). by rewrite (cmd_seq_ret _ _ _ _ _ E2).
Qed.

(** ** Keys *)

Section Key.
Context (h : heap) (b i : Z) (u t k km : list Z) (x : Z).
Hypothesis Hb : h_blocks h !! b = Some (u ++ km ++ t).
Hypothesis Hu : zlen u = 16 * i.
Hypothesis Hk : key_memory k x km.
Hypothesis Hn : no_nul k.
Hypothesis Hx : is_u32 x.
Hypothesis Hz : is_u32 (16 * string_tokens (zlen k)).

Lemma key_memory_type : exists r, km = bytes32 key_type ++ bytes32 x ++ r.
Proof. destruct Hk as (pad & _ & ->). by eexists. Qed.

Lemma key_type_at : jget (mk_ptr b i) get_type h = Ret (key_type, h).
Proof. destruct key_memory_type as [r Er]. rewrite Er, <-!(assoc_L (++)) in Hb. by apply (type_of_token _ _ _ _ _ _ Hb Hu). Qed.
Lemma key_link_at : jget (mk_ptr b i) get_len h = Ret (x, h).
Proof. destruct key_memory_type as [r Er]. rewrite Er, <-!(assoc_L (++)) in Hb. by apply (word_of_token _ _ _ _ _ _ _ Hb Hu). Qed.

Lemma key_bytes : exists r, bytes_at (mk_ptr b (tok i + 8)) h = Ret (k ++ 0 :: r, h).
Proof.
  destruct Hk as (pad & _ & Ek). rewrite Ek in Hb. exists (pad ++ t). change (k ++ 0 :: pad ++ t) with (k ++ (0 :: pad) ++ t). rewrite (assoc_L (++) k).
  apply (bytes_from (u ++ bytes32 key_type ++ bytes32 x) (k ++ 0 :: pad) t); [by rewrite Hb, <-!(assoc_L (++))|rewrite !zlen_app, !zlen_bytes32; unfold tok; lia].
Qed.

Lemma key_strlen : h_strlen (mk_ptr b (tok i + 8)) h = Ret (zlen k, h).
Proof. destruct key_bytes as [r E]. unfold h_strlen. rewrite (cmd_bind_ret _ _ _ _ _ E), strlen_app by done. done. Qed.

Lemma key_string_len : sxe_jitson_string_len (mk_ptr b i) h = Ret (zlen k, h).
Proof. unfold sxe_jitson_string_len. rewrite (cmd_bind_ret _ _ _ _ _ key_type_at). exact key_strlen. Qed.

Lemma key_len_small : 0 <= zlen k /\ zlen k + 8 < 4294967296.
Proof. pose proof (zlen_nonneg k). unfold is_u32, string_tokens in Hz. Z.to_euclidean_division_equations; lia. Qed.

Lemma key_size : sxe_jitson_size (mk_ptr b i) h = Ret (string_tokens (zlen k), h).
Proof.
  unfold sxe_jitson_size. rewrite (cmd_bind_ret _ _ _ _ _ key_type_at). change (Z.land key_type SXE_JITSON_TYPE_MASK) with SXE_JITSON_TYPE_STRING. decide_types.
  unfold sxe_jitson_string_size. rewrite (cmd_bind_ret _ _ _ _ _ key_type_at). change (has_flag key_type SXE_JITSON_TYPE_IS_REF) with false. cbn iota.
  rewrite (cmd_bind_ret _ _ _ _ _ key_string_len). unfold mret, cmd_ret. do 2 f_equal. unfold SXE_JITSON_TOKEN_SIZE, SXE_JITSON_STRING_SIZE. pose proof key_len_small.
  rewrite u64_small, u32_small; unfold is_u32, is_u64, string_tokens; [f_equal; f_equal; lia| |]; Z.to_euclidean_division_equations; lia.
Qed.

Lemma key_len : sxe_jitson_len (mk_ptr b i) h = Ret (zlen k, h).
Proof.
  unfold sxe_jitson_len. rewrite (cmd_bind_ret _ _ _ true h).
  - rewrite (cmd_bind_ret _ _ _ tt h) by done. rewrite (cmd_bind_ret _ _ _ _ _ key_type_at). exact key_string_len.
  - unfold sxe_jitson_supports_len. by rewrite (cmd_bind_ret _ _ _ _ _ key_type_at).
Qed.

Lemma key_get_string len_out : sxe_jitson_get_string (mk_ptr b i) len_out h = Ret (mk_ptr b (tok i + 8), if len_out then Some (zlen k) else None, h).
Proof.
  unfold sxe_jitson_get_string. rewrite (cmd_bind_ret _ _ _ _ _ (token_follow _ _ _ key_type_at eq_refl)), (cmd_bind_ret _ _ _ _ _ (token_expect6 _ _ _ key_type_at eq_refl _ eq_refl)).
  rewrite (cmd_bind_ret _ _ _ (if len_out then Some (zlen k) else None) h) by (destruct len_out; [by rewrite (cmd_bind_ret _ _ _ _ _ key_len)|done]).
  by rewrite (cmd_bind_ret _ _ _ _ _ key_type_at).
Qed.

Lemma key_hash r : hash_sum (k ++ 0 :: r) (zlen k) = Ret (sxe_hash_sum k).
Proof.
  pose proof key_len_small. unfold hash_sum. rewrite u32_small by (unfold is_u32; lia). destruct (Z.eqb_spec (zlen k) 0) as [Ez|_].
  - by rewrite cstring_app.
  - pose proof (slice_mid [] k (0 :: r)) as E. cbn [app] in E. change (zlen (@nil Z)) with 0 in E. by rewrite E.
Qed.
End Key.

(** ** Objects *)

(** The heap after the blocks [b] and [blk] were changed. *)
Record changed (h h' : heap) (b blk : Z) (M T : list Z) : Prop := {
  ch_block : h_blocks h' !! b = Some M;
  ch_index : h_blocks h' !! blk = Some T;
  ch_other : forall c, c <> b -> c <> blk -> h_blocks h' !! c = h_blocks h !! c;
  ch_next : h_next h' = h_next h
}.

Lemma key_memory_link k x km y : key_memory k x km -> exists r, km = bytes32 key_type ++ bytes32 x ++ r /\ key_memory k y (bytes32 key_type ++ bytes32 y ++ r).
Proof. intros (pad & Hp & ->). exists (k ++ 0 :: pad). split; [done|]. by exists pad. Qed.

(** One member: its bucket's head becomes its link, and it the bucket's head. *)
Lemma link_member h b i blk j n k x km u t T sz :
  h_blocks h !! b = Some (u ++ km ++ t) -> zlen u = 16 * j -> key_memory k x km -> no_nul k -> is_u32 x -> is_u32 (16 * string_tokens (zlen k)) ->
  x = zlen k -> h_blocks h !! blk = Some (words (T ++ [sz])) -> b <> blk -> 0 < n -> zlen T = n -> Forall is_u32 T -> is_u32 (j - i) ->
  exists h' km', key_memory k (default 0 (T !! Z.to_nat (bucket n k))) km' /\
    changed h h' b blk (u ++ km' ++ t) (words (<[Z.to_nat (bucket n k) := j - i]> T ++ [sz])) /\
    forall c, (type ← jget (mk_ptr b j) get_type;
      memlen ← (if has_flag type SXE_JITSON_TYPE_IS_REF then s ← get_reference (mk_ptr b j); h_strlen s else jget (mk_ptr b j) get_len);
      '(s, _) ← sxe_jitson_get_string (mk_ptr b j) false;
      key ← bytes_at s;
      sum ← lift (hash_sum key memlen);
      link ← h_load blk (fun m => ld32 m (4 * (sum mod n)));
      jset (mk_ptr b j) set_len link;; set_index blk (sum mod n) (u32 (j - i));; c) h = (c : cmd heap unit) h'.
Proof.
  intros Hb Hu Hk Hn Hx Hz Ex Hblk Hne Hn0 HT HTu Hj. pose proof (key_type_at h b j u t k km x Hb Hu Hk) as Et.
  destruct (key_bytes h b j u t k km x Hb Hu Hk) as [r Er]. pose proof (key_hash k Hn Hz r) as Eh. set (B := bucket n k).
  assert (HB : 0 <= B < n) by (unfold B, bucket; apply Z.mod_pos_bound; lia).
  destruct (lookup_lt_is_Some_2 T (Z.to_nat B)) as [y Hy]; [unfold zlen in HT; lia|]. assert (Hyu : is_u32 y) by (by eapply Forall_lookup_1 in HTu).
  destruct (key_memory_link k x km y Hk) as (km2 & Ekm & Hk').
  assert (HyT : (T ++ [sz]) !! Z.to_nat B = Some y) by (by rewrite lookup_app_l by (apply lookup_lt_Some in Hy; lia)).
  assert (El : h_load blk (fun m => ld32 m (4 * B)) h = Ret (y, h)).
  { apply (h_load_ret _ _ _ _ _ Hblk). rewrite (words_lookup _ B y); [by rewrite u32_small|lia|done]. }
  set (h1 := mk_heap (<[b := u ++ (bytes32 key_type ++ bytes32 y ++ km2) ++ t]> (h_blocks h)) (h_next h)).
  assert (E1 : jset (mk_ptr b j) set_len y h = Ret (tt, h1)).
  { unfold jset. cbn [p_block p_index]. apply (h_store_ret _ _ _ _ _ Hb). rewrite Ekm, <-!(assoc_L (++)). by apply set_len_at. }
  set (h2 := mk_heap (<[blk := words (<[Z.to_nat B := j - i]> T ++ [sz])]> (h_blocks h1)) (h_next h1)).
  assert (E2 : set_index blk B (u32 (j - i)) h1 = Ret (tt, h2)).
  { rewrite u32_small by done. apply (h_store_ret _ _ _ (words (T ++ [sz]))); [cbn [h1 h_blocks]; by rewrite lookup_insert_ne|].
    rewrite words_set by (rewrite zlen_app; pose proof (zlen_nonneg [sz]); lia). by rewrite insert_app_l by (apply lookup_lt_Some in Hy; lia). }
  exists h2, (bytes32 key_type ++ bytes32 y ++ km2). rewrite Hy. cbn [default from_option id]. split; [done|]. split.
  - split; cbn [h2 h1 h_blocks h_next]; [|by rewrite lookup_insert_eq| |done].
    + rewrite lookup_insert_ne by done. by rewrite lookup_insert_eq.
    + intros c Hcb Hcn. by rewrite !lookup_insert_ne by done.
  - intros c. rewrite (cmd_bind_ret _ _ _ _ _ Et). change (has_flag key_type SXE_JITSON_TYPE_IS_REF) with false. cbn iota.
    rewrite (cmd_bind_ret _ _ _ _ _ (key_link_at h b j u t k km x Hb Hu Hk Hx)). rewrite (cmd_bind_ret _ _ _ _ _ (key_get_string h b j u t k km x Hb Hu Hk Hn false)).
    rewrite (cmd_bind_ret _ _ _ _ _ Er). rewrite Ex. rewrite (lift_ret _ _ _ _ Eh). fold (bucket n k) B. rewrite (cmd_bind_ret _ _ _ _ _ El).
    by rewrite (cmd_bind_ret _ _ _ _ _ E1), (cmd_bind_ret _ _ _ _ _ E2).
Qed.

Lemma changed_trans h1 h2 h3 b blk M1 T1 M2 T2 : changed h1 h2 b blk M1 T1 -> changed h2 h3 b blk M2 T2 -> changed h1 h3 b blk M2 T2.
Proof. intros [_ _ Ho Hn] [Hb Hi Ho' Hn']. split; [done|done| |congruence]. intros c Hcb Hcn. by rewrite Ho', Ho. Qed.

(** The other blocks that a change leaves as they are. *)
Lemma changed_idx idx h h' b blk M T : changed h h' b blk M T -> idx ⊆ delete b (h_blocks h) -> idx !! blk = None -> idx ⊆ delete b (h_blocks h').
Proof.
  intros [_ _ Ho _] Hs Hn. apply map_subseteq_spec. intros c m Hm. assert (c <> blk) by (intros ->; congruence).
  eapply lookup_weaken in Hm; [|exact Hs]. apply lookup_delete_Some in Hm as [Hcb Hm]. rewrite lookup_delete_ne, Ho by done. done.
Qed.

Lemma index_of_u32 n off T l : Forall is_u32 T -> 0 <= off -> off + member_sizes l < 4294967296 -> Forall is_u32 (snd (index_of n off T l)).
Proof.
  revert off T. induction l as [|kv l IH]; intros off T HT Ho Hs; cbn [index_of]; [done|]. cbn [member_sizes fold_right] in Hs. fold (member_sizes l) in Hs.
  pose proof (zlen_member_sizes l). pose proof (zlen_nonneg l). assert (0 <= member_size kv) by (unfold member_size; destruct (image_size (snd kv)); pose proof (string_tokens_pos (fst kv)); lia).
  specialize (IH (off + member_size kv) (<[Z.to_nat (bucket n (fst kv)) := off]> T)). destruct (index_of n _ _ l) as [ls T']. apply IH; [|lia|lia].
  apply Forall_insert; [done|unfold is_u32; lia].
Qed.

Lemma index_members_at idx b i blk n sz t l2 : forall h u2 e2 T,
  h_blocks h !! b = Some (u2 ++ e2 ++ t) -> h_blocks h !! blk = Some (words (T ++ [sz])) -> b <> blk ->
  idx ⊆ delete b (h_blocks h) -> idx !! blk = None -> members idx l2 (key_lengths l2) e2 -> 0 < n -> zlen T = n -> Forall is_u32 T ->
  (zlen u2) mod 16 = 0 -> 0 <= i -> 16 * i <= zlen u2 -> is_u32 (zlen u2 - 16 * i + 16 * member_sizes l2) ->
  exists h' e2', index_members (length l2) (mk_ptr b i) (mk_ptr b (zlen u2 / 16)) blk n h = Ret (tt, h') /\
    members idx l2 (fst (index_of n (zlen u2 / 16 - i) T l2)) e2' /\
    changed h h' b blk (u2 ++ e2' ++ t) (words (snd (index_of n (zlen u2 / 16 - i) T l2) ++ [sz])).
Proof.
  induction l2 as [|[k v] l2 IH]; intros h u2 e2 T Hb Hblk Hne Hs Hi He Hn HT HTu Hu Hi0 Hiu Hsz; cbn [length index_members index_of].
  { exists h, e2. split; [done|]. split; [inversion He; constructor|]. by split. }
  inversion He as [|k' v' l' x links km m e Hk Hkm Hm He']; subst. cbn [member_sizes fold_right fst snd] in Hsz. fold (member_sizes l2) in Hsz.
  destruct (image_size v) as [_ Hv]. pose proof (string_tokens_pos k) as Hkt. pose proof (zlen_member_sizes l2). pose proof (zlen_nonneg l2). unfold member_size in Hsz. cbn [fst snd] in Hsz. unfold is_u32 in Hsz.
  set (j := zlen u2 / 16) in *. assert (Huj : zlen u2 = 16 * j) by (unfold j; Z.to_euclidean_division_equations; lia).
  pose proof (key_len_small k ltac:(unfold is_u32; lia)) as Hkl. cbn [key_lengths fmap list_fmap fst] in *.
  assert (Hb' : h_blocks h !! b = Some (u2 ++ km ++ m ++ e ++ t)) by (rewrite Hb; by rewrite <-!(assoc_L (++))).
  destruct (link_member h b i blk j (zlen T) k (zlen k) km u2 (m ++ e ++ t) T sz Hb' Huj Hkm Hk ltac:(unfold is_u32; lia) ltac:(unfold is_u32; lia) eq_refl Hblk Hne Hn eq_refl HTu ltac:(unfold is_u32; lia))
    as (h1 & km' & Hkm' & Hch & Hc).
  set (T1 := <[Z.to_nat (bucket (zlen T) k) := j - i]> T) in *. pose proof Hch as [Hb1 Hblk1 _ _].
  assert (Hlink : is_u32 (default 0 (T !! Z.to_nat (bucket (zlen T) k)))) by (destruct (T !! _) eqn:ET; [by eapply Forall_lookup_1 in HTu|done]).
  pose proof (changed_idx idx _ _ _ _ _ _ Hch Hs Hi) as Hs1. pose proof (key_memory_zlen _ _ _ Hkm') as Hzk. pose proof (stored_zlen _ _ _ Hm) as Hzm.
  assert (Hz1 : zlen (u2 ++ km') = 16 * (j + string_tokens (zlen k))) by (rewrite zlen_app, Hzk; lia).
  assert (Hl1 : lies h1 b (j + string_tokens (zlen k)) (u2 ++ km') v m (e ++ t)) by (split; [by rewrite Hb1, <-(assoc_L (++))|done|by eapply stored_mono]).
  assert (Hz2 : zlen (u2 ++ km' ++ m) / 16 = j + string_tokens (zlen k) + size v) by (rewrite !zlen_app, Hzk, Hzm, Huj; Z.to_euclidean_division_equations; lia).
  destruct (IH h1 (u2 ++ km' ++ m) e T1) as (h2 & e' & E2 & Hms & Hch2); try done.
  { by rewrite Hb1, <-!(assoc_L (++)). } { unfold T1, zlen. by rewrite length_insert. } { apply Forall_insert; [done|unfold is_u32; lia]. }
  { rewrite !zlen_app, Hzk, Hzm, Huj. Z.to_euclidean_division_equations; lia. } { rewrite !zlen_app, Hzk, Hzm, Huj. lia. }
  { rewrite !zlen_app, Hzk, Hzm, Huj. unfold is_u32. lia. }
  rewrite Hz2 in *. replace (j + string_tokens (zlen k) + size v - i) with (j - i + member_size (k, v)) in * by (unfold member_size; cbn [fst snd]; lia).
  exists h2, (km' ++ m ++ e'). fold T1. destruct (index_of (zlen T) (j - i + member_size (k, v)) T1 l2) as [ls T'] eqn:EI. cbn [fst snd] in *. split; [|split].
  - refine (eq_trans (Hc _) _). rewrite (cmd_bind_ret _ _ _ _ _ (key_size h1 b j u2 (m ++ e ++ t) k km' _ Hb1 Huj Hkm' Hk ltac:(unfold is_u32; lia))).
    unfold ptr_add. cbn [p_block p_index]. rewrite (cmd_bind_ret _ _ _ _ _ (value_size _ _ _ _ _ _ _ Hl1 ltac:(unfold fits_u32, is_u32; lia))). exact E2.
  - by constructor.
  - rewrite <-!(assoc_L (++)) in Hch2 |- *. by eapply changed_trans.
Qed.

Lemma zero_words n : replicate (4 * n) 0 = words (replicate n 0).
Proof. induction n as [|n IH]; [done|]. replace (4 * S n)%nat with (4 + 4 * n)%nat by lia. rewrite replicate_add, IH. done. Qed.

(** Indexing an object that is not. *)
Lemma index_object h b i u l ty w e t : heap_ok h -> lies h b i u (JObject l) (bytes32 ty ++ bytes32 (zlen l) ++ w ++ e) t ->
  collection_word (delete b (h_blocks h)) SXE_JITSON_TYPE_OBJECT (snd (object_index l)) (1 + zlen e / 16) false ty w ->
  members (delete b (h_blocks h)) l (key_lengths l) e -> fits_u32 (JObject l) -> 0 < zlen l -> 0 < h_next h < BLOCKS -> h_blocks h !! h_next h = None ->
  exists h' type w' e', (start_index (mk_ptr b i) (h_next h) (zlen l);; index_members (length l) (mk_ptr b i) (ptr_add (mk_ptr b i) 1) (h_next h) (zlen l))
      (mk_heap (<[h_next h := replicate (4 * S (length l)) 0]> (h_blocks h)) (h_next h + 1)) = Ret (tt, h') /\
    lies h' b i u (JObject l) (bytes32 type ++ bytes32 (zlen l) ++ w' ++ e') t /\ heap_ok h' /\ grows b h h' /\ h_next h' = h_next h + 1 /\
    members (delete b (h_blocks h')) l (fst (object_index l)) e' /\
    collection_word (delete b (h_blocks h')) SXE_JITSON_TYPE_OBJECT (snd (object_index l)) (1 + zlen e' / 16) true type w'.
Proof.
  intros Hok [Hb Hu _] [Hflag Ew] He Hsz Hl0 Hnext Hfresh. subst w. assert (Htu : is_u32 ty) by (destruct Hflag as (f & [-> | ->] & ->); done). set (blk := h_next h). set (h1 := mk_heap _ _). set (n := zlen l) in *.
  destruct Hok as [Hpos Hdom]. assert (Hbd := Hdom _ _ Hb). assert (Hne : b <> blk) by (unfold blk; lia).
  pose proof (proj2 (proj2 (stored_zlen_all (delete b (h_blocks h)))) _ _ _ He) as Hze. pose proof (zlen_member_sizes l) as Hms. fold n in Hms.
  unfold fits_u32, is_u32 in Hsz. rewrite size_object in Hsz. assert (Hsize : 1 + zlen e / 16 = 1 + member_sizes l) by (rewrite Hze; Z.to_euclidean_division_equations; lia).
  rewrite Hsize in *. set (sz := 1 + member_sizes l) in *. set (T0 := replicate (length l) 0).
  assert (HT0 : zlen T0 = n) by (unfold T0, n, zlen; by rewrite length_replicate).
  assert (Hb1 : h_blocks h1 !! b = Some (u ++ (bytes32 ty ++ bytes32 n ++ bytes64 sz ++ e) ++ t)) by (cbn [h1 h_blocks]; by rewrite lookup_insert_ne).
  assert (Hk1 : h_blocks h1 !! blk = Some (words T0 ++ bytes32 0)).
  { cbn [h1 h_blocks]. rewrite lookup_insert_eq, zero_words. replace (S (length l)) with (length l + 1)%nat by lia. by rewrite replicate_add, words_app. }
  pose proof (start_index_at h1 b i u _ _ _ e t blk (words T0) (bytes32 0) Hb1 Hu Htu ltac:(lia) ltac:(unfold is_u32; lia) Hk1 ltac:(rewrite words_zlen; lia) eq_refl Hne) as E1.
  rewrite (cmd_bind_ret _ _ _ _ _ E1). set (h2 := mk_heap _ _). set (type := Z.lor ty SXE_JITSON_TYPE_INDEXED) in *.
  assert (Htype : exists f, alloc_flag f /\ type = Z.lor (Z.lor SXE_JITSON_TYPE_OBJECT SXE_JITSON_TYPE_INDEXED) f) by (destruct Hflag as (f & Hf & ->); exists f; split; [done|by destruct Hf as [-> | ->]]).
  set (hdr := bytes32 type ++ bytes32 n ++ bytes64 (address blk 0)). assert (Hzh : zlen hdr = 16) by (unfold hdr; by rewrite !zlen_app).
  assert (Hblk2 : h_blocks h2 !! blk = Some (words (T0 ++ [sz]))) by (cbn [h2 h_blocks]; rewrite lookup_insert_ne by done; by rewrite lookup_insert_eq, words_app).
  assert (Hsub : delete b (h_blocks h) ⊆ delete b (h_blocks h2)).
  { cbn [h2 h_blocks]. rewrite delete_insert_eq. cbn [h1 h_blocks]. rewrite insert_insert_eq. apply subseteq_other; [done|by rewrite lookup_delete_ne|done]. }
  assert (Hb2 : h_blocks h2 !! b = Some ((u ++ hdr) ++ e ++ t)) by (cbn [h2 h_blocks]; rewrite lookup_insert_eq; unfold hdr; by rewrite <-!(assoc_L (++))).
  assert (Huz : zlen (u ++ hdr) / 16 = i + 1) by (rewrite zlen_app, Hu, Hzh; Z.to_euclidean_division_equations; lia).
  destruct (index_members_at (delete b (h_blocks h)) b i blk n sz t l h2 (u ++ hdr) e T0 Hb2 Hblk2 Hne Hsub ltac:(by rewrite lookup_delete_ne) He Hl0 HT0)
    as (h3 & e' & E2 & Hme & [Hb3 Hblk3 Ho3 Hn3]).
  { apply Forall_replicate. done. } { rewrite zlen_app, Hu, Hzh. Z.to_euclidean_division_equations; lia. } { pose proof (zlen_nonneg u). lia. }
  { rewrite zlen_app, Hu. lia. } { rewrite zlen_app, Hu, Hzh. unfold is_u32. lia. }
  rewrite Huz in *. replace (i + 1 - i) with 1 in * by lia. fold (object_index l) in *. change (index_of n 1 T0 l) with (object_index l) in *.
  exists h3, type, (bytes64 (address blk 0)), e'. unfold ptr_add. cbn [p_block p_index]. split; [exact E2|].
  assert (Ha : added h h3 b (u ++ (hdr ++ e') ++ t) (words (snd (object_index l) ++ [sz]))).
  { split; [by rewrite Hb3, <-!(assoc_L (++))|done| |by rewrite Hn3]. intros c Hcb Hcn. rewrite Ho3 by done. cbn [h2 h1 h_blocks]. fold blk in Hcn. by rewrite !lookup_insert_ne by done. }
  destruct (added_grows h h3 b _ _ (conj Hpos Hdom) ltac:(unfold blk in *; lia) ltac:(lia) Ha) as [Hok3 Hg3]. destruct Ha as [Ab An _ Anext].
  pose proof (members_mono _ _ _ _ _ (proj1 Hg3) Hme) as Hme3. pose proof (proj2 (proj2 (stored_zlen_all (delete b (h_blocks h3)))) _ _ _ Hme3) as Hze'.
  assert (Hsize' : 1 + zlen e' / 16 = sz) by (rewrite Hze'; unfold sz; Z.to_euclidean_division_equations; lia).
  assert (Hcw : collection_word (delete b (h_blocks h3)) SXE_JITSON_TYPE_OBJECT (snd (object_index l)) (1 + zlen e' / 16) true type (bytes64 (address blk 0))).
  { rewrite Hsize'. split; [done|]. exists blk. split_and!; [unfold blk; lia|unfold blk; lia| |done]. by rewrite lookup_delete_ne. }
  split_and!; [split; [|done|]|done..].
  - rewrite Ab. unfold hdr. by rewrite <-!(assoc_L (++)).
  - by apply (sd_object _ l true type).
Qed.
End Heap.

(** ** The chains of an index *)
Section Chains.
Context `{Library}.

(** The members in a bucket, the last of the object first: the order of its chain. *)
Definition chain (n B : Z) (l : list (list Z * json)) : list (Z * (list Z * json)) :=
  reverse (filter (fun c => bucket n (fst (snd c)) = B) (placed 1 l)).

(** From the offset [s] on, the links [ls] of the members [pl] lead through [C] to an end. *)
Fixpoint walks (pl : list (Z * (list Z * json))) (ls : list Z) (s : Z) (C : list (Z * (list Z * json))) : Prop :=
  match C with
  | [] => s = 0
  | c :: C => s = fst c /\ exists p nx, pl !! p = Some c /\ ls !! p = Some nx /\ walks pl ls nx C
  end.

Lemma walks_app pl ls s C pl' ls' : walks pl ls s C -> walks (pl ++ pl') (ls ++ ls') s C.
Proof.
  revert s. induction C as [|c C IH]; intros s; [done|]. cbn [walks]. intros (-> & p & nx & Hp & Hl & Hw). split; [done|].
  exists p, nx. split_and!; [by apply lookup_app_l_Some|by apply lookup_app_l_Some|by apply IH].
Qed.

Lemma placed_app off l l' : placed off (l ++ l') = placed off l ++ placed (off + member_sizes l) l'.
Proof.
  revert off. induction l as [|kv l IH]; intros off; cbn [app placed member_sizes fold_right]; [by rewrite Z.add_0_r|].
  rewrite IH. fold (member_sizes l). by rewrite Z.add_assoc.
Qed.

Lemma placed_length off l : length (placed off l) = length l.
Proof. revert off. induction l as [|kv l IH]; intros off; cbn [placed length]; [done|]. by rewrite IH. Qed.

Lemma index_of_snoc n off T l kv :
  index_of n off T (l ++ [kv]) =
    (fst (index_of n off T l) ++ [default 0 (snd (index_of n off T l) !! Z.to_nat (bucket n (fst kv)))],
     <[Z.to_nat (bucket n (fst kv)) := off + member_sizes l]> (snd (index_of n off T l))).
Proof.
  revert off T. induction l as [|kw l IH]; intros off T; cbn [app index_of member_sizes fold_right].
  - by rewrite Z.add_0_r.
  - rewrite IH. destruct (index_of n (off + member_size kw) _ l) as [ls T']. cbn [fst snd app]. fold (member_sizes l). by rewrite Z.add_assoc.
Qed.

Lemma index_walks n l B : 0 < n -> 0 <= B < n ->
  exists s, snd (index_of n 1 (replicate (Z.to_nat n) 0) l) !! Z.to_nat B = Some s /\ walks (placed 1 l) (fst (index_of n 1 (replicate (Z.to_nat n) 0) l)) s (chain n B l).
Proof.
  intros Hn HB. set (T0 := replicate _ _). revert B HB. induction l as [|kv l IH] using rev_ind; intros B HB.
  { exists 0. split; [|done]. apply lookup_replicate. split; [done|lia]. }
  rewrite index_of_snoc. cbn [fst snd]. set (h := bucket n (fst kv)). assert (Hh : 0 <= h < n) by (apply Z.mod_pos_bound; lia).
  set (ls := fst (index_of n 1 T0 l)) in *. set (T := snd (index_of n 1 T0 l)) in *. destruct (IH B HB) as (s & Hs & Hw).
  assert (Hlen : length T = Z.to_nat n).
  { pose proof (proj1 (index_of_zlen n 1 T0 l)) as E. assert (HT0 : length T0 = Z.to_nat n) by apply length_replicate. fold T in E. unfold zlen in E. lia. }
  assert (Hll : length ls = length (placed 1 l)).
  { pose proof (proj2 (index_of_zlen n 1 T0 l)) as E. fold ls in E. unfold zlen in E. rewrite placed_length. lia. }
  unfold chain. rewrite placed_app, filter_app, reverse_app. cbn [placed]. destruct (decide (h = B)) as [<-|Hne].
  - rewrite filter_cons_True by done. change (filter _ []) with (@nil (Z * (list Z * json))). cbn [reverse rev_append app].
    exists (1 + member_sizes l). split; [apply list_lookup_insert_eq; lia|]. cbn [walks]. split; [done|]. exists (length (placed 1 l)), s.
    split_and!; [by rewrite lookup_app_r, Nat.sub_diag by lia| |by apply walks_app].
    rewrite lookup_app_r by lia. rewrite Hll, Nat.sub_diag. cbn [lookup list_lookup]. fold h. by rewrite Hs.
  - rewrite filter_cons_False by done. change (filter _ []) with (@nil (Z * (list Z * json))). cbn [reverse rev_append app].
    exists s. rewrite list_lookup_insert_ne by lia. split; [done|by apply walks_app].
Qed.

(** ** The last member of a name *)

Fixpoint last_value (name : list Z) (l : list (list Z * json)) : option json :=
  match l with
  | [] => None
  | (k, v) :: l => match last_value name l with Some w => Some w | None => if decide (k = name) then Some v else None end
  end.

Definition first_named (name : list Z) (C : list (Z * (list Z * json))) : option (Z * (list Z * json)) :=
  head (filter (fun c => fst (snd c) = name) C).

Lemma last_value_placed name l off :
  last_value name l = (fun c => snd (snd c)) <$> first_named name (reverse (placed off l)).
Proof.
  revert off. induction l as [|[k v] l IH]; intros off; [done|]. cbn [last_value placed]. rewrite (IH (off + member_size (k, v))).
  unfold first_named. rewrite reverse_cons, filter_app. destruct (filter _ (reverse _)) as [|c C]; cbn [app head fmap option_fmap option_map]; [|done].
  destruct (decide (k = name)) as [->|Hne]; [by rewrite filter_cons_True|by rewrite filter_cons_False].
Qed.

Lemma filter_reverse' {A} (P : A -> Prop) `{!forall x, Decision (P x)} (l : list A) : filter P (reverse l) = reverse (filter P l).
Proof.
  induction l as [|x l IH]; [done|]. rewrite reverse_cons, filter_app, IH. destruct (decide (P x)).
  - rewrite !filter_cons_True by done. by rewrite reverse_cons.
  - rewrite !filter_cons_False by done. by rewrite app_nil_r.
Qed.

(** The first of a name in its chain is the last of the object. *)
Lemma first_in_chain n name l : first_named name (chain n (bucket n name) l) = first_named name (reverse (placed 1 l)).
Proof.
  unfold first_named, chain. f_equal. rewrite !filter_reverse'. f_equal. rewrite list_filter_filter. apply list_filter_iff. intros c. split; [by intros [? _]|].
  intros <-. done.
Qed.
End Chains.

(** ** Looking up a member *)
Section Members.
Context `{Build} `{Env} `{Library}.

Lemma members_split idx l links e off p o k v x : members idx l links e -> placed off l !! p = Some (o, (k, v)) -> links !! p = Some x ->
  exists e1 km me e2, e = e1 ++ km ++ me ++ e2 /\ zlen e1 = 16 * (o - off) /\ key_memory k x km /\ no_nul k /\ stored idx v me /\
    forall idx' me', idx ⊆ idx' -> stored idx' v me' -> members idx' l links (e1 ++ km ++ me' ++ e2).
Proof.
  intros He. revert off p. induction He as [|k' v' l y links km m e Hk Hkm Hm He IH]; intros off p Hp Hx; [done|]. destruct p as [|p]; cbn [lookup list_lookup placed] in *.
  - injection Hp as <- <- <-. injection Hx as <-. exists [], km, m, e. rewrite Z.sub_diag. split_and!; try done. intros idx' me' Hs Hme. cbn [app].
    constructor; [done..|]. by eapply members_mono.
  - destruct (IH _ _ Hp Hx) as (e1 & km1 & me & e2 & -> & Hz & Hkm1 & Hk1 & Hme & Hr). exists (km ++ m ++ e1), km1, me, e2. split_and!; [|..|done|done|done|].
    + by rewrite <-!(assoc_L (++)).
    + rewrite !zlen_app, Hz, (stored_zlen _ _ _ Hm), (key_memory_zlen _ _ _ Hkm). unfold member_size. cbn [fst snd]. lia.
    + intros idx' me' Hs Hm'. rewrite <-!(assoc_L (++)). constructor; [done|done|by eapply stored_mono|by apply Hr].
Qed.

Lemma placed_bounds off l p o k v : placed off l !! p = Some (o, (k, v)) -> off <= o /\ o + member_size (k, v) <= off + member_sizes l.
Proof.
  revert off p. induction l as [|kv l IH]; intros off p Hp; [done|]. destruct p as [|p]; cbn [lookup list_lookup placed member_sizes fold_right] in *; fold (member_sizes l).
  - injection Hp as <- ->. pose proof (zlen_member_sizes l). pose proof (zlen_nonneg l). lia.
  - apply IH in Hp. unfold member_size at 2. destruct (image_size (snd kv)). pose proof (string_tokens_pos (fst kv)). unfold member_size in *. lia.
Qed.

(** The links of an object are offsets in it. *)
Lemma walks_u32 l links s C : fits_u32 (JObject l) -> walks (placed 1 l) links s C -> is_u32 s.
Proof.
  unfold fits_u32, is_u32. rewrite size_object. destruct C as [|[o [k v]] C]; cbn [walks fst]; [intros _ ->; lia|]. intros Hsz (-> & p & nx & Hp & _).
  apply placed_bounds in Hp as [? ?]. unfold member_size in *. cbn [fst snd] in *. destruct (image_size v). pose proof (string_tokens_pos k). lia.
Qed.

Section Find.
Context (h : heap) (b i : Z) (u hdr e t : list Z) (l : list (list Z * json)) (links : list Z).
Hypothesis Hb : h_blocks h !! b = Some (u ++ (hdr ++ e) ++ t).
Hypothesis Hu : zlen u = 16 * i.
Hypothesis Hhdr : zlen hdr = 16.
Hypothesis He : members (delete b (h_blocks h)) l links e.
Hypothesis Hsz : fits_u32 (JObject l).

Lemma find_member_at name nm C : slice name 0 (zlen nm) = Some nm -> forall s fuel, walks (placed 1 l) links s C -> (length C < fuel)%nat ->
  find_member fuel (mk_ptr b i) name (zlen nm) s h =
    Ret (match first_named nm C with Some (o, (k, v)) => inl (mk_ptr b (i + o + string_tokens (zlen k))) | None => inr ENOKEY end, h).
Proof.
  intros Hname. pose proof Hsz as Hsz'. unfold fits_u32, is_u32 in Hsz. rewrite size_object in Hsz. induction C as [|[o [k v]] C IH]; intros s fuel Hw Hf; (destruct fuel as [|fuel]; [simpl in Hf; lia|]); cbn [find_member walks fst] in *.
  { subst s. done. }
  destruct Hw as (-> & p & nx & Hp & Hl & Hw). pose proof (placed_bounds _ _ _ _ _ _ Hp) as [Ho1 Ho2]. unfold member_size in Ho2. cbn [fst snd] in Ho2. destruct (image_size v) as [_ Hv].
  pose proof (string_tokens_pos k) as Hkt. destruct (members_split _ _ _ _ _ _ _ _ _ _ He Hp Hl) as (e1 & km & me & e2 & Ee & Hz1 & Hkm & Hk & _ & _).
  pose proof (walks_u32 _ _ _ _ Hsz' Hw) as Hnx.
  rewrite (proj2 (Z.eqb_neq o 0)) by lia. unfold ptr_add. cbn [p_block p_index].
  assert (Hb' : h_blocks h !! b = Some ((u ++ hdr ++ e1) ++ km ++ me ++ e2 ++ t)) by (rewrite Hb, Ee; by rewrite <-!(assoc_L (++))).
  assert (Hu' : zlen (u ++ hdr ++ e1) = 16 * (i + o)) by (rewrite !zlen_app, Hu, Hhdr, Hz1; lia).
  rewrite (cmd_bind_ret _ _ _ _ _ (token_expect6 _ _ _ (key_type_at h b (i + o) _ _ k km nx Hb' Hu' Hkm) eq_refl SXE_JITSON_TYPE_STRING eq_refl)).
  rewrite (cmd_bind_ret _ _ _ _ _ (key_get_string h b (i + o) _ _ k km nx Hb' Hu' Hkm Hk true)).
  destruct (key_bytes h b (i + o) _ _ k km nx Hb' Hu' Hkm) as [r Er].
  assert (Efound : (if bool_decide (Some (zlen k) = Some (zlen nm)) then m ← bytes_at (mk_ptr b (tok (i + o) + 8)); a ← lift (load (slice m 0 (zlen nm))); c ← lift (load (slice name 0 (zlen nm)));
     mret (bool_decide (a = c)) else mret false) h = Ret (bool_decide (k = nm), h)).
  { case_bool_decide as Hlen.
    - injection Hlen as Hlen. rewrite (cmd_bind_ret _ _ _ _ _ Er). rewrite <-Hlen. pose proof (slice_mid [] k (0 :: r)) as Es. cbn [app] in Es. change (zlen (@nil Z)) with 0 in Es.
      rewrite Es. rewrite (lift_ret _ _ _ k eq_refl). rewrite Hlen, Hname. by rewrite (lift_ret _ _ _ nm eq_refl).
    - rewrite bool_decide_false; [done|]. intros ->. done. }
  rewrite (cmd_bind_ret _ _ _ _ _ Efound). unfold first_named. clear Efound. destruct (bool_decide_reflect (k = nm)) as [Hkn|Hkn].
  - rewrite filter_cons_True by exact Hkn. cbn [head]. by rewrite (cmd_bind_ret _ _ _ _ _ (key_size h b (i + o) _ _ k km nx Hb' Hu' Hkm Hk ltac:(unfold is_u32; lia))).
  - rewrite filter_cons_False by exact Hkn. rewrite (cmd_bind_ret _ _ _ _ _ (key_link_at h b (i + o) _ _ k km nx Hb' Hu' Hkm Hnx)). apply IH; [done|]. simpl in Hf. lia.
Qed.
End Find.

(** An object that has its index. *)
Record indexed_object (h : heap) (b i : Z) (u : list Z) (l : list (list Z * json)) (type : Z) (w e t : list Z) : Prop := {
  io_lies : lies h b i u (JObject l) (bytes32 type ++ bytes32 (zlen l) ++ w ++ e) t;
  io_members : members (delete b (h_blocks h)) l (fst (object_index l)) e;
  io_word : collection_word (delete b (h_blocks h)) SXE_JITSON_TYPE_OBJECT (snd (object_index l)) (1 + zlen e / 16) true type w
}.

Lemma ensure_index_at h b i u l m t : heap_ok h -> lies h b i u (JObject l) m t -> fits_u32 (JObject l) -> 0 < zlen l ->
  (exists h' type w e, ensure_index (mk_ptr b i) (zlen l) h = Ret (true, h') /\ indexed_object h' b i u l type w e t /\ heap_ok h' /\ grows b h h' /\ h_next h' <= h_next h + 1) \/
  (ensure_index (mk_ptr b i) (zlen l) h = Ret (false, h) /\ no_block h).
Proof.
  intros Hok Hl Hsz Hl0. pose proof Hl as [Hb Hu Hs]. inversion Hs as [? ? ? ? Hv| |l' indexed type w e He Hw]; subst; [done|].
  pose proof (zlen_member_sizes l). pose proof Hsz as Hsz'. unfold fits_u32, is_u32 in Hsz'. rewrite size_object in Hsz'.
  destruct (collection_word_type _ _ _ _ _ _ _ (or_intror eq_refl) Hw) as (Hty & _ & Hf).
  rewrite <-!(assoc_L (++)) in Hb. unfold ensure_index. rewrite (cmd_bind_ret _ _ _ _ _ (type_of_token _ _ _ _ _ _ Hb Hu Hty)), Hf. destruct indexed.
  - left. exists h, type, w, e. split; [done|]. split_and!; [done|done|apply grows_refl|lia].
  - pose proof Hw as [_ ->]. unfold sxe_calloc.
    assert (Z.to_nat (u32 (zlen l + 1) * 4) = (4 * S (length l))%nat) as -> by (rewrite u32_small by (unfold is_u32; lia); unfold zlen; lia).
    destruct (alloc_cases (replicate (4 * S (length l)) 0) h Hok) as [(E & Hnext & Hfresh)|[E Hno]].
    2: { right. split; [|done]. by rewrite (cmd_bind_ret _ _ _ _ _ E). }
    left. destruct (index_object h b i u l _ _ e t Hok Hl Hw He Hsz Hl0 Hnext Hfresh) as (h' & type' & w' & e' & E2 & Hl' & Hok' & Hg & Hn & Hm' & Hw').
    exists h', type', w', e'. split; [|split_and!; [by split|done|done|lia]]. rewrite (cmd_bind_ret _ _ _ _ _ E).
    assert (Z.to_nat (zlen l) = length l) as -> by (unfold zlen; lia). by rewrite (cmd_seq_ret _ _ _ _ _ E2).
Qed.

(** The head of a bucket, and the walk from it. *)
Lemma bucket_at h b i u l type w e t B : indexed_object h b i u l type w e t -> fits_u32 (JObject l) -> 0 <= B < zlen l ->
  exists s, get_index (mk_ptr b i) B h = Ret (s, h) /\ walks (placed 1 l) (fst (object_index l)) s (chain (zlen l) B l).
Proof.
  intros [[Hb Hu _] Hm [_ (blk & Hblk & Hi & ->)]] Hsz HB. rewrite <-!(assoc_L (++)) in Hb. apply lookup_delete_Some in Hi as [_ Hi].
  destruct (index_walks (zlen l) l B) as (s & Hs & Hw); [lia|done|]. assert (Hnat : Z.to_nat (zlen l) = length l) by (unfold zlen; lia). rewrite Hnat in Hs, Hw. fold (object_index l) in Hs, Hw.
  exists s. split; [|done]. unfold fits_u32, is_u32 in Hsz. rewrite size_object in Hsz. pose proof (zlen_member_sizes l).
  assert (is_u32 s).
  { assert (Hall : Forall is_u32 (snd (object_index l))) by (apply index_of_u32; [apply Forall_replicate; done|lia|lia]). by eapply Forall_lookup_1 in Hall. }
  rewrite (get_index_at _ _ _ _ _ _ _ _ _ B s Hb Hu Hblk Hi); [by rewrite u32_small|lia|]. rewrite lookup_app_l; [done|]. by apply lookup_lt_Some in Hs.
Qed.

(** The name that a caller means. *)
Definition means (name : list Z) (len : Z) (nm : list Z) : Prop :=
  is_u32 (zlen nm) /\ ((len = 0 /\ cstring name = Some nm) \/ (len = zlen nm /\ len <> 0 /\ slice name 0 len = Some nm)).

Lemma cstring_slice name nm : cstring name = Some nm -> slice name 0 (zlen nm) = Some nm.
Proof.
  revert nm. induction name as [|c name IH]; intros nm; cbn [cstring]; [done|]. destruct (c =? 0).
  - intros [= <-]. rewrite slice_Some; [done|lia|done|]. change (zlen (@nil Z)) with 0. pose proof (zlen_nonneg (c :: name)). lia.
  - destruct (cstring name) as [s|] eqn:E; [|done]. intros [= <-]. specialize (IH _ eq_refl). apply slice_length in IH as Hz. unfold slice in IH |- *.
    destruct (_ && _) eqn:C in IH; [|done]. injection IH as IH. rewrite !zlen_cons in *. pose proof (zlen_nonneg s).
    replace ((0 <=? 0) && (0 <=? 1 + zlen s) && (0 + (1 + zlen s) <=? 1 + zlen name)) with true by lia.
    replace (Z.to_nat (1 + zlen s)) with (S (Z.to_nat (zlen s))) by lia. change (Z.to_nat 0) with 0%nat in *. rewrite drop_0 in *. cbn [take]. by rewrite IH.
Qed.

Lemma means_found name len nm : means name len nm ->
  (forall h : heap, (if len =? 0 then n ← lift (load (strlen name)); mret (u32 n) else mret len) h = Ret (zlen nm, h)) /\
  slice name 0 (zlen nm) = Some nm /\ hash_sum name (zlen nm) = Ret (sxe_hash_sum nm).
Proof.
  intros [Hz Hcases]. pose proof (zlen_nonneg nm). split_and!.
  - intros h. destruct Hcases as [[-> Hc]|(-> & Hne & _)].
    + unfold strlen. rewrite Hc. cbn [Z.eqb fmap option_fmap option_map load]. rewrite (lift_ret _ _ _ (zlen nm) eq_refl). by rewrite u32_small.
    + by rewrite (proj2 (Z.eqb_neq (zlen nm) 0)).
  - destruct Hcases as [[_ Hc]|(-> & _ & Hs)]; [by apply cstring_slice|done].
  - unfold hash_sum. rewrite u32_small by done. destruct Hcases as [[_ Hc]|(-> & Hne & Hs)].
    + destruct (Z.eqb_spec (zlen nm) 0); [by rewrite Hc|]. by rewrite (cstring_slice _ _ Hc).
    + rewrite (proj2 (Z.eqb_neq (zlen nm) 0)) by done. by rewrite Hs.
Qed.

(** sxe_jitson_object_get_member on an object, indexed or not. *)
Lemma get_member_cases h b i u l m t name len nm :
  heap_ok h -> lies h b i u (JObject l) m t -> fits_u32 (JObject l) -> means name len nm ->
  (exists h' m' r, sxe_jitson_object_get_member (mk_ptr b i) name len h = Ret (r, h') /\
     lies h' b i u (JObject l) m' t /\ heap_ok h' /\ grows b h h' /\ h_next h' <= h_next h + 1 /\
     (0 < zlen l -> exists type w e, indexed_object h' b i u l type w e t) /\
     match last_value nm l with
     | Some v => exists j u' mv t', r = inl (mk_ptr b j) /\ lies h' b j u' v mv t'
     | None => r = inr ENOKEY
     end) \/
  (sxe_jitson_object_get_member (mk_ptr b i) name len h = Ret (inr ENOMEM, h) /\ no_block h).
Proof.
  intros Hok Hl Hsz Hname. destruct (means_found _ _ _ Hname) as (Elen & Hslice & Hhash). unfold sxe_jitson_object_get_member.
  rewrite (cmd_bind_ret _ _ _ _ _ (value_follow _ _ _ _ _ _ _ Hl)), (cmd_bind_ret _ _ _ _ _ (value_expect1 _ _ _ _ _ _ _ Hl _ eq_refl)).
  rewrite (cmd_bind_ret _ _ _ _ _ (Elen h)).
  pose proof (zlen_member_sizes l). pose proof (zlen_nonneg l) as Hl0. pose proof Hsz as Hsz'. unfold fits_u32, is_u32 in Hsz'. rewrite size_object in Hsz'.
  assert (En : jget (mk_ptr b i) get_len h = Ret (zlen l, h)).
  { pose proof Hl as [Hb Hu Hs]. inversion Hs as [? ? ? ? Hv| |l' indexed type w e He Hw]; subst; [done|]. rewrite <-!(assoc_L (++)) in Hb.
    apply (word_of_token _ _ _ _ _ _ _ Hb Hu eq_refl). unfold is_u32. lia. }
  rewrite (cmd_bind_ret _ _ _ _ _ En). destruct (Z.eqb_spec (zlen l) 0) as [E0|Hne].
  { left. exists h, m, (inr ENOKEY). split_and!; [done|done|done|apply grows_refl|lia|lia|]. destruct l; [done|]. rewrite zlen_cons in E0. pose proof (zlen_nonneg l). lia. }
  destruct (ensure_index_at h b i u l m t Hok Hl Hsz ltac:(lia)) as [(h' & type & w & e & E & Hio & Hok' & Hg & Hn)|[E Hno]]; rewrite (cmd_bind_ret _ _ _ _ _ E); cbn [negb].
  2: { right. done. }
  left. rewrite (lift_ret _ _ _ _ Hhash). destruct (bucket_at h' b i u l type w e t (bucket (zlen l) nm) Hio Hsz ltac:(apply Z.mod_pos_bound; lia)) as (s & Es & Hw).
  unfold bucket in Es. rewrite (cmd_bind_ret _ _ _ _ _ Es). pose proof Hio as [Hl' Hm' Hcw]. pose proof Hl' as [Hb' Hu' Hs'].
  assert (Hcl : (length (chain (zlen l) (bucket (zlen l) nm) l) < S (Z.to_nat (zlen l)))%nat).
  { unfold chain. rewrite length_reverse. eapply Nat.le_lt_trans; [apply length_filter|]. rewrite placed_length. unfold zlen. lia. }
  pose proof (collection_word_zlen _ _ _ _ _ _ _ Hcw) as Hzw. assert (Hhdr : zlen (bytes32 type ++ bytes32 (zlen l) ++ w) = 16) by (by rewrite !zlen_app, Hzw).
  assert (Hbe : h_blocks h' !! b = Some (u ++ ((bytes32 type ++ bytes32 (zlen l) ++ w) ++ e) ++ t)) by (rewrite Hb'; by rewrite <-!(assoc_L (++))).
  pose proof (find_member_at h' b i u _ e t l _ Hbe Hu' Hhdr Hm' Hsz name nm _ Hslice s _ Hw Hcl) as Ef. rewrite first_in_chain in Ef. rewrite Ef.
  rewrite (last_value_placed nm l 1). destruct (first_named nm (reverse (placed 1 l))) as [[o [k v]]|] eqn:Ec; cbn [fmap option_fmap option_map snd].
  2: { eexists h', _, _. split; [done|]. split_and!; [done..|by eexists _, _, _|done]. }
  unfold first_named in Ec. apply head_Some_elem_of in Ec. apply list_elem_of_filter in Ec as [_ Ec]. rewrite elem_of_reverse in Ec. apply list_elem_of_lookup in Ec as [p Hp].
  destruct (lookup_lt_is_Some_2 (fst (object_index l)) p) as [x Hx].
  { apply lookup_lt_Some in Hp. rewrite placed_length in Hp. pose proof (proj2 (index_of_zlen (zlen l) 1 (replicate (length l) 0) l)) as Ez. fold (object_index l) in Ez. unfold zlen in Ez. lia. }
  destruct (members_split _ _ _ _ _ _ _ _ _ _ Hm' Hp Hx) as (e1 & km & me & e2 & Ee & Hz1 & Hkm & Hk & Hme & _).
  eexists h', _, _. split; [done|]. split_and!; [done..|by eexists _, _, _|]. exists (i + o + string_tokens (zlen k)), (u ++ (bytes32 type ++ bytes32 (zlen l) ++ w) ++ e1 ++ km), me, (e2 ++ t).
  split; [done|]. split; [|rewrite !zlen_app in *; rewrite (key_memory_zlen _ _ _ Hkm); lia|done]. rewrite Hbe, Ee. by rewrite <-!(assoc_L (++)).
Qed.

(** A member of an indexed object: its name, and its value, which may be replaced by the same value stored otherwise. *)
Lemma indexed_member h b i u l type w e t p o k v x : indexed_object h b i u l type w e t -> placed 1 l !! p = Some (o, (k, v)) -> fst (object_index l) !! p = Some x ->
  exists pre km me post, h_blocks h !! b = Some ((u ++ pre) ++ km ++ me ++ post ++ t) /\ zlen (u ++ pre) = 16 * (i + o) /\ key_memory k x km /\ no_nul k /\
    lies h b (i + o + string_tokens (zlen k)) (u ++ pre ++ km) v me (post ++ t) /\
    forall h' me', grows b h h' -> lies h' b (i + o + string_tokens (zlen k)) (u ++ pre ++ km) v me' (post ++ t) -> exists e', indexed_object h' b i u l type w e' t.
Proof.
  intros [[Hb Hu _] Hm Hw] Hp Hx. destruct (members_split _ _ _ _ _ _ _ _ _ _ Hm Hp Hx) as (e1 & km & me & e2 & -> & Hz & Hkm & Hk & Hme & Hr).
  pose proof (collection_word_zlen _ _ _ _ _ _ _ Hw) as Hzw. set (hdr := bytes32 type ++ bytes32 (zlen l) ++ w). assert (Hh : zlen hdr = 16) by (unfold hdr; by rewrite !zlen_app, Hzw).
  assert (Hb' : h_blocks h !! b = Some ((u ++ hdr ++ e1) ++ km ++ me ++ e2 ++ t)) by (rewrite Hb; unfold hdr; by rewrite <-!(assoc_L (++))).
  exists (hdr ++ e1), km, me, e2. split_and!; [done|rewrite !zlen_app; lia|done|done| |].
  - split; [by rewrite Hb', <-!(assoc_L (++))|rewrite !zlen_app, (key_memory_zlen _ _ _ Hkm); lia|done].
  - intros h' me' [Hg _] [Hb2 _ Hs']. exists (e1 ++ km ++ me' ++ e2). pose proof (Hr _ _ Hg Hs') as Hm'.
    assert (Hze : zlen (e1 ++ km ++ me' ++ e2) = zlen (e1 ++ km ++ me ++ e2)) by (rewrite !zlen_app, (stored_zlen _ _ _ Hme), (stored_zlen _ _ _ Hs'); lia).
    assert (Hw' : collection_word (delete b (h_blocks h')) SXE_JITSON_TYPE_OBJECT (snd (object_index l)) (1 + zlen (e1 ++ km ++ me' ++ e2) / 16) true type w)
      by (rewrite Hze; by eapply collection_word_mono).
    split; [split; [|done|]|done|done].
    + rewrite Hb2. unfold hdr. by rewrite <-!(assoc_L (++)).
    + by apply (sd_object _ l true type).
Qed.

(** ** Scalars *)

(** No name of a member has a NUL in it. *)
Fixpoint keys_ok (v : json) : Prop :=
  match v with
  | JArray l => (fix all l := match l with [] => True | v :: l => keys_ok v /\ all l end) l
  | JObject l => (fix all l := match l with [] => True | (k, v) :: l => no_nul k /\ keys_ok v /\ all l end) l
  | _ => True
  end.

Lemma collection_image_inv ty n img m : has_image (collection_image ty n img) m ->
  exists e, m = bytes32 ty ++ bytes32 n ++ bytes64 (1 + zlen e / 16) ++ e /\ has_image img e.
Proof.
  unfold collection_image. intros (r & -> & Hr)%given_inv. apply given_inv in Hr as (r2 & -> & Hr). apply given_inv in Hr as (e & -> & Hr).
  exists e. by rewrite (zlen_image _ _ _ Hr).
Qed.

Lemma string_key_memory k m : has_image (string_image key_type k) m -> key_memory k (zlen k) m.
Proof. intros (pad & Hp & ->)%string_image_inv. by exists pad. Qed.

(** What the parser and the builder leave is stored. *)
Lemma image_stored idx v : forall m, has_image (image v) m -> keys_ok v -> stored idx v m.
Proof.
  induction v as [|b|u|d|s|l IH|l IH] using json_ind'; intros m Hi Hk;
    try (assert (exists type r, is_u32 type /\ m = bytes32 type ++ r) as (type & r & Ht & ->) by
      (clear Hk; cbn [image] in Hi; try unfold string_image in Hi; apply given_inv in Hi as (r & -> & _); eexists _, _; by split; [|reflexivity]);
      rewrite <-(Z.lor_0_r type); apply (sd_scalar _ _ type 0); [done|by left|done|done]).
  - rewrite image_array in Hi. apply collection_image_inv in Hi as (e & -> & He). apply (sd_array _ _ false); [|split; [exists 0; split; [by left|done]|done]].
    cbn [keys_ok] in Hk. revert e He. induction IH as [|v l Hv _ IHl]; intros e He; cbn [array_image] in He.
    + apply Forall2_nil_inv_l in He as ->. constructor.
    + apply Forall2_app_inv_l in He as (m & e' & Hm & He & ->). destruct Hk as [Hkv Hk]. constructor; [by apply Hv|by apply IHl].
  - rewrite image_object in Hi. apply collection_image_inv in Hi as (e & -> & He). apply (sd_object _ _ false); [|split; [exists 0; split; [by left|done]|done]].
    cbn [keys_ok] in Hk. revert e He. induction IH as [|[k v] l Hv _ IHl]; intros e He; cbn [object_image] in He.
    + apply Forall2_nil_inv_l in He as ->. constructor.
    + apply Forall2_app_inv_l in He as (km & e' & Hkm & He & ->). apply Forall2_app_inv_l in He as (m & e2 & Hm & He & ->).
      destruct Hk as (Hkk & Hkv & Hk). constructor; [done|by apply string_key_memory|by apply Hv|by apply IHl].
Qed.

(** The value that the accessors of a type give. *)
Definition gives (h : heap) (p : ptr) (v : json) : Prop :=
  match v with
  | JNull => sxe_jitson_test p h = Ret (false, h)
  | JBool x => sxe_jitson_get_bool p h = Ret (x, h)
  | JUint x => sxe_jitson_get_uint p h = Ret (inl x, h)
  | JNumber x => sxe_jitson_get_number p h = Ret (inl x, h)
  | JString s => exists c r, sxe_jitson_get_string p true h = Ret (c, Some (zlen s), h) /\ bytes_at c h = Ret (s ++ 0 :: r, h)
  | JArray l => sxe_jitson_len p h = Ret (zlen l, h)
  | JObject l => sxe_jitson_len p h = Ret (zlen l, h)
  end.

Definition word_ok (v : json) : Prop := match v with JUint x | JNumber x => 0 <= x < 18446744073709551616 | _ => True end.

Lemma number_word h b i u ty type f r t l x : h_blocks h !! b = Some (u ++ (bytes32 (Z.lor type f) ++ r) ++ t) -> zlen u = 16 * i -> is_u32 type ->
  has_image (given (bytes32 ty) ++ blank 4 ++ given (bytes64 x)) (bytes32 type ++ r) -> is_u32 ty -> 0 <= x < 18446744073709551616 -> l = Z.lor ty f ->
  type = ty /\ jget (mk_ptr b i) get_integer h = Ret (x, h).
Proof.
  intros Hb Hu Ht (r' & E & Hi)%given_inv Hty Hx ->. apply bytes32_inj in E as [-> ->]; [|done|done]. split; [done|].
  apply Forall2_app_inv_l in Hi as (g & w & Hg & Hw & ->). apply zlen_image in Hg. rewrite zlen_blank in Hg by done.
  rewrite <-(app_nil_r (given _)) in Hw. apply given_inv in Hw as (w' & -> & Hw'). apply Forall2_nil_inv_l in Hw' as ->. rewrite app_nil_r, <-!(assoc_L (++)) in Hb.
  unfold jget. cbn [p_block p_index]. apply (h_load_ret _ _ _ _ _ Hb). apply get_integer_at; [done|by rewrite zlen_bytes32|lia|done].
Qed.

Lemma has_flag_lor a b x : has_flag (Z.lor a b) x = has_flag a x || has_flag b x.
Proof.
  unfold has_flag. rewrite Z.land_lor_distr_l. destruct (Z.eqb_spec (Z.land a x) 0) as [->|Ha]; [by rewrite Z.lor_0_l|]. cbn [negb orb].
  destruct (Z.eqb_spec (Z.lor (Z.land a x) (Z.land b x)) 0) as [E|]; [|done]. by apply Z.lor_eq_0_iff in E as [? _].
Qed.

Lemma string_value h b i u s m t : lies h b i u (JString s) m t -> fits_u32 (JString s) ->
  exists c r, (forall len_out, sxe_jitson_get_string (mk_ptr b i) len_out h = Ret (c, if len_out then Some (zlen s) else None, h)) /\
    bytes_at c h = Ret (s ++ 0 :: r, h) /\ sxe_jitson_len (mk_ptr b i) h = Ret (zlen s, h).
Proof.
  intros Hl Hsz. pose proof (value_follow _ _ _ _ _ _ _ Hl) as Ef. pose proof (value_expect6 _ _ _ _ _ _ _ Hl _ eq_refl) as Ee. pose proof Hl as [Hb Hu Hs].
  inversion Hs as [? type f r Hv Hf Ht Hi| |]; subst. cbn [image] in Hi. apply string_image_inv in Hi as (pad & Hp & E). apply bytes32_inj in E as [-> ->]; [|done|done].
  unfold fits_u32, is_u32, size in Hsz. cbn [image] in Hsz. rewrite string_image_zlen in Hsz. pose proof (zlen_nonneg s). unfold string_tokens in Hsz.
  assert (is_u32 (zlen s)) by (unfold is_u32; Z.to_euclidean_division_equations; lia). rewrite <-!(assoc_L (++)) in Hb.
  assert (Etype : jget (mk_ptr b i) get_type h = Ret (Z.lor SXE_JITSON_TYPE_STRING f, h)) by (apply (type_of_token _ _ _ _ _ _ Hb Hu); by destruct Hf as [-> | ->]).
  assert (Emask : Z.land (Z.lor SXE_JITSON_TYPE_STRING f) SXE_JITSON_TYPE_MASK = SXE_JITSON_TYPE_STRING) by (by destruct Hf as [-> | ->]).
  assert (Eflags : has_flag (Z.lor SXE_JITSON_TYPE_STRING f) SXE_JITSON_TYPE_IS_REF = false /\ has_flag (Z.lor SXE_JITSON_TYPE_STRING f) SXE_JITSON_TYPE_IS_KEY = false) by (by destruct Hf as [-> | ->]).
  destruct Eflags as [Eref Ekey].
  assert (Elen : sxe_jitson_len (mk_ptr b i) h = Ret (zlen s, h)).
  { unfold sxe_jitson_len. rewrite (cmd_bind_ret _ _ _ true h) by (unfold sxe_jitson_supports_len; by rewrite (cmd_bind_ret _ _ _ _ _ Etype), Emask).
    rewrite (cmd_bind_ret _ _ _ tt h) by done. rewrite (cmd_bind_ret _ _ _ _ _ Etype), Emask. decide_types. unfold type_len. decide_types. unfold sxe_jitson_string_len.
    rewrite (cmd_bind_ret _ _ _ _ _ Etype), Ekey. rewrite (cmd_bind_ret _ _ _ _ _ (word_of_token _ _ _ _ _ _ _ Hb Hu eq_refl ltac:(done))). by rewrite Eref, andb_false_r. }
  exists (mk_ptr b (tok i + 8)), (pad ++ t). split_and!; [| |done].
  - intros len_out. unfold sxe_jitson_get_string. rewrite (cmd_bind_ret _ _ _ _ _ Ef), (cmd_bind_ret _ _ _ _ _ Ee).
    rewrite (cmd_bind_ret _ _ _ (if len_out then Some (zlen s) else None) h) by (destruct len_out; [by rewrite (cmd_bind_ret _ _ _ _ _ Elen)|done]).
    by rewrite (cmd_bind_ret _ _ _ _ _ Etype), Eref.
  - assert (Hb' : h_blocks h !! b = Some ((u ++ bytes32 (Z.lor SXE_JITSON_TYPE_STRING f) ++ bytes32 (zlen s)) ++ s ++ 0 :: pad ++ t)) by (rewrite Hb; by rewrite <-!(assoc_L (++))).
    apply (bytes_from _ _ _ _ _ _ Hb'). rewrite !zlen_app, !zlen_bytes32. unfold tok. lia.
Qed.

Lemma collection_len h b i u v m t n : lies h b i u v m t -> (exists l, v = JArray l /\ n = zlen l) \/ (exists l, v = JObject l /\ n = zlen l) -> is_u32 n ->
  sxe_jitson_len (mk_ptr b i) h = Ret (n, h).
Proof.
  intros Hl Hv Hn. destruct (value_type _ _ _ _ _ _ _ Hl) as (type & Et & Emask).
  assert (En : jget (mk_ptr b i) get_len h = Ret (n, h)).
  { destruct Hl as [Hb Hu Hs]. destruct Hv as [(l & -> & ->)|(l & -> & ->)]; inversion Hs as [? ? ? ? Hsc|? ? ? ? ? He Hw|? ? ? ? ? He Hw]; subst; try done; rewrite <-!(assoc_L (++)) in Hb;
      by apply (word_of_token _ _ _ _ _ _ _ Hb Hu eq_refl). }
  unfold sxe_jitson_len. assert (Hty : type_of v = SXE_JITSON_TYPE_ARRAY \/ type_of v = SXE_JITSON_TYPE_OBJECT) by (destruct Hv as [(l & -> & _)|(l & -> & _)]; [by left|by right]).
  rewrite (cmd_bind_ret _ _ _ true h) by (unfold sxe_jitson_supports_len; rewrite (cmd_bind_ret _ _ _ _ _ Et), Emask; by destruct Hty as [-> | ->]).
  rewrite (cmd_bind_ret _ _ _ tt h) by done. rewrite (cmd_bind_ret _ _ _ _ _ Et), Emask. by destruct Hty as [-> | ->].
Qed.

Lemma bool_value h b i u x m t : lies h b i u (JBool x) m t -> sxe_jitson_get_bool (mk_ptr b i) h = Ret (x, h).
Proof.
  intros Hl. unfold sxe_jitson_get_bool. rewrite (cmd_bind_ret _ _ _ _ _ (value_follow _ _ _ _ _ _ _ Hl)), (cmd_bind_ret _ _ _ _ _ (value_expect6 _ _ _ _ _ _ _ Hl _ eq_refl)).
  destruct Hl as [Hb Hu Hs]. inversion Hs as [? type f r Hv Hf Ht Hi| |]; subst. cbn [image] in Hi. apply given_inv in Hi as (r' & E & Hi).
  apply bytes32_inj in E as [-> ->]; [|done|done]. apply Forall2_app_inv_l in Hi as (g & w & Hg & Hw & ->). apply zlen_image in Hg. rewrite zlen_blank in Hg by done.
  apply given_inv in Hw as (w' & -> & _). rewrite <-!(assoc_L (++)) in Hb. cbn [app] in Hb.
  rewrite (cmd_bind_ret _ _ _ (Z.b2z x) h); [by destruct x|]. unfold jget. cbn [p_block p_index]. apply (h_load_ret _ _ _ _ _ Hb).
  pose proof (get_byte_app u (bytes32 (Z.lor SXE_JITSON_TYPE_BOOL f)) g [] (Z.b2z x) (w' ++ t) [] i 0 Hu eq_refl ltac:(lia) eq_refl) as E. rewrite app_nil_r in E. exact E.
Qed.

Lemma number_value_at h b i u v m t x : lies h b i u v m t -> word_ok v -> v = JUint x \/ v = JNumber x ->
  exists type, jget (mk_ptr b i) get_type h = Ret (type, h) /\ has_flag type SXE_JITSON_TYPE_IS_UINT = (match v with JUint _ => true | _ => false end) /\
    jget (mk_ptr b i) get_integer h = Ret (x, h).
Proof.
  intros [Hb Hu Hs] Hx Hv.
  destruct Hs as [v type f r Hsc Hf Ht Hi| |]; [|by destruct Hv|by destruct Hv]. exists (Z.lor type f).
  assert (Hty : type = match v with JUint _ => Z.lor SXE_JITSON_TYPE_NUMBER SXE_JITSON_TYPE_IS_UINT | _ => SXE_JITSON_TYPE_NUMBER end /\ jget (mk_ptr b i) get_integer h = Ret (x, h)).
  { destruct Hv as [-> | ->]; cbn [image word_ok] in *; by eapply number_word. }
  destruct Hty as [-> E]. split_and!; [|by destruct Hv as [-> | ->], Hf as [-> | ->]|done]. rewrite <-!(assoc_L (++)) in Hb.
  apply (type_of_token _ _ _ _ _ _ Hb Hu). by destruct Hv as [-> | ->], Hf as [-> | ->].
Qed.

Lemma value_gives h b i u v m t : lies h b i u v m t -> fits_u32 v -> word_ok v -> gives h (mk_ptr b i) v.
Proof.
  intros Hl Hsz Hw. destruct v as [|x|x|x|s|l|l]; cbn [gives].
  - destruct (value_type _ _ _ _ _ _ _ Hl) as (type & E & Ht). unfold sxe_jitson_test. by rewrite (cmd_bind_ret _ _ _ _ _ E), Ht.
  - by eapply bool_value.
  - destruct (number_value_at _ _ _ _ _ _ _ x Hl Hw (or_introl eq_refl)) as (type & Et & Ef & Ei). unfold sxe_jitson_get_uint.
    rewrite (cmd_bind_ret _ _ _ _ _ (value_follow _ _ _ _ _ _ _ Hl)), (cmd_bind_ret _ _ _ _ _ (value_expect6 _ _ _ _ _ _ _ Hl _ eq_refl)).
    by rewrite (cmd_bind_ret _ _ _ _ _ Et), (cmd_bind_ret _ _ _ _ _ Ei), Ef.
  - destruct (number_value_at _ _ _ _ _ _ _ x Hl Hw (or_intror eq_refl)) as (type & Et & Ef & Ei). unfold sxe_jitson_get_number.
    rewrite (cmd_bind_ret _ _ _ _ _ (value_follow _ _ _ _ _ _ _ Hl)), (cmd_bind_ret _ _ _ _ _ (value_expect6 _ _ _ _ _ _ _ Hl _ eq_refl)).
    by rewrite (cmd_bind_ret _ _ _ _ _ Et), (cmd_bind_ret _ _ _ _ _ Ei), Ef.
  - destruct (string_value _ _ _ _ _ _ _ Hl Hsz) as (c & r & Eg & Eb & _). exists c, r. by rewrite Eg.
  - eapply collection_len; [done|left; by eexists|]. unfold fits_u32, is_u32 in *. rewrite size_array in Hsz. pose proof (zlen_sizes l). pose proof (zlen_nonneg l). lia.
  - eapply collection_len; [done|right; by eexists|]. unfold fits_u32, is_u32 in *. rewrite size_object in Hsz. pose proof (zlen_member_sizes l). pose proof (zlen_nonneg l). lia.
Qed.

(** ** Properties *)

(** C26: sxe_jitson_array_get_element gives a pointer to the element where the array has one, ERANGE where it has none, and
    ENOMEM if there is no memory for the index. The array is still stored, the other blocks are
    as they were, and the element is at the pointer. *)
Theorem array_get_element_spec h b i u l m t idx :
  heap_ok h -> lies h b i u (JArray l) m t -> fits_u32 (JArray l) -> is_u32 idx ->
  match l !! Z.to_nat idx with
  | None => sxe_jitson_array_get_element (mk_ptr b i) idx h = Ret (inr ERANGE, h)
  | Some v =>
      (exists h' m' j u' mv t', sxe_jitson_array_get_element (mk_ptr b i) idx h = Ret (inl (mk_ptr b j), h') /\
         lies h' b i u (JArray l) m' t /\ lies h' b j u' v mv t' /\ heap_ok h' /\ grows b h h') \/
      (sxe_jitson_array_get_element (mk_ptr b i) idx h = Ret (inr ENOMEM, h) /\ no_block h)
  end.
Proof.
  intros Hok Hl Hsz Hidx. pose proof (get_element_cases h b i u l m t idx Hok Hl Hsz Hidx) as Hcases. destruct (l !! Z.to_nat idx) as [v|] eqn:Ev; [|done].
  destruct Hcases as [(h' & m' & E & Hl' & Hok' & Hg & _)|?]; [|by right]. left.
  destruct (lies_element h' b i u l m' t _ v Hl' Ev) as (pre & me & post & _ & He & _). eexists h', m', _, _, me, _. by split_and!.
Qed.

(** C25: sxe_jitson_object_get_member gives a pointer to the value of the last member of the name, ENOKEY if there
    is none, and ENOMEM if there is no memory for the index, whatever the hash function does. The object
    is still stored, and the other blocks are as they were. *)
Theorem object_get_member_spec h b i u l m t name len nm :
  heap_ok h -> lies h b i u (JObject l) m t -> fits_u32 (JObject l) -> means name len nm ->
  (exists h' m' r, sxe_jitson_object_get_member (mk_ptr b i) name len h = Ret (r, h') /\
     lies h' b i u (JObject l) m' t /\ heap_ok h' /\ grows b h h' /\
     match last_value nm l with
     | Some v => exists j u' mv t', r = inl (mk_ptr b j) /\ lies h' b j u' v mv t'
     | None => r = inr ENOKEY
     end) \/
  (sxe_jitson_object_get_member (mk_ptr b i) name len h = Ret (inr ENOMEM, h) /\ no_block h).
Proof.
  intros Hok Hl Hsz Hname. destruct (get_member_cases h b i u l m t name len nm Hok Hl Hsz Hname) as [(h' & m' & r & E & Hl' & Hok' & Hg & _ & _ & Hr)|?]; [|by right].
  left. exists h', m', r. by split_and!.
Qed.

(** C27: On a value that is stored in a block, with or without indexes in it, whose size is less than 4 GB and whose number is of 64 bits, the accessors of its type give what it is: a bool or a number its value, a string its
    bytes, with a NUL behind them, and its length, a collection its number of elements; the test
    of null is false. Where the parser or the builder left the image of a value that has no NUL in the names of its members, the value is stored (with a NUL in a name
    the index of its object goes astray). *)
Theorem stored_value_spec v m :
  (forall h b i u t, lies h b i u v m t -> fits_u32 v -> word_ok v -> gives h (mk_ptr b i) v) /\
  (forall idx, has_image (image v) m -> keys_ok v -> stored idx v m).
Proof. split; [intros h b i u t; apply value_gives|intros idx; apply image_stored]. Qed.
End Members.

(** ** Examples *)
Section Examples.
Local Instance access_build : Build := true.
Local Instance access_env : Env := example_env.

(** All keys have the same hash. *)
Local Instance access_library : Library := {|
  sxe_hash_sum := fun _ => 5;
  double_of_uint := fun x => x;
  uint_of_double := fun x => x;
  double_eqb := Z.eqb;
  print_double := fun _ => [48]
|}.

(** {"a": [true, 7], "b": null, "a": false} *)
Definition example_array : list json := [JBool true; JUint 7].
Definition example_object : list (list Z * json) := [([97], JArray example_array); ([98], JNull); ([97], JBool false)].
Definition token (type len : Z) (word : list Z) : list Z := bytes32 type ++ bytes32 len ++ word.
Definition example_key (c : Z) : list Z := token key_type 1 [c; 0; 0; 0; 0; 0; 0; 0].
Definition example_array_memory : list Z :=
  token SXE_JITSON_TYPE_ARRAY 2 (bytes64 3) ++ token SXE_JITSON_TYPE_BOOL 0 [1; 0; 0; 0; 0; 0; 0; 0] ++ token (Z.lor SXE_JITSON_TYPE_NUMBER SXE_JITSON_TYPE_IS_UINT) 0 (bytes64 7).
Definition example_memory : list Z :=
  token SXE_JITSON_TYPE_OBJECT 3 (bytes64 9) ++ example_key 97 ++ example_array_memory ++
  example_key 98 ++ token SXE_JITSON_TYPE_NULL 0 (bytes64 0) ++ example_key 97 ++ token SXE_JITSON_TYPE_BOOL 0 (bytes64 0).
Definition example_heap : heap := mk_heap {[1 := example_memory]} 2.

Lemma example_image : has_image (image (JObject example_object)) example_memory.
Proof. vm_compute. repeat constructor. Qed.
Lemma example_array_image : has_image (image (JArray example_array)) example_array_memory.
Proof. vm_compute. repeat constructor. Qed.
Lemma example_heap_ok : heap_ok example_heap.
Proof. split; [done|]. intros b m Hb. cbn [h_blocks] in Hb; unfold example_heap in Hb; cbn [h_blocks] in Hb. apply lookup_singleton_Some in Hb as [<- _]. done. Qed.
Lemma example_lies : lies example_heap 1 0 [] (JObject example_object) example_memory [].
Proof. split; [reflexivity|done|]. apply image_stored; [apply example_image|]. repeat split; by repeat constructor. Qed.
Lemma example_array_lies : lies (mk_heap {[1 := example_array_memory]} 2) 1 0 [] (JArray example_array) example_array_memory [].
Proof. split; [reflexivity|done|]. apply image_stored; [apply example_array_image|]. repeat split; by repeat constructor. Qed.

Lemma array_get_element_spec_witness :
  let h := mk_heap {[1 := example_array_memory]} 2 in
  (exists h' m' j u' mv t', sxe_jitson_array_get_element (mk_ptr 1 0) 1 h = Ret (inl (mk_ptr 1 j), h') /\
     lies h' 1 0 [] (JArray example_array) m' [] /\ lies h' 1 j u' (JUint 7) mv t' /\ heap_ok h' /\ grows 1 h h') \/
  (sxe_jitson_array_get_element (mk_ptr 1 0) 1 h = Ret (inr ENOMEM, h) /\ no_block h).
Proof.
  refine (array_get_element_spec (mk_heap {[1 := example_array_memory]} 2) 1 0 [] example_array example_array_memory [] 1 _ example_array_lies _ _); [|done|done].
  split; [done|]. intros b m Hb. cbn [h_blocks] in Hb; unfold example_heap in Hb; cbn [h_blocks] in Hb. apply lookup_singleton_Some in Hb as [<- _]. done.
Defined.

Lemma object_get_member_spec_witness :
  (exists h' m' r, sxe_jitson_object_get_member (mk_ptr 1 0) [97; 0] 0 example_heap = Ret (r, h') /\
     lies h' 1 0 [] (JObject example_object) m' [] /\ heap_ok h' /\ grows 1 example_heap h' /\
     exists j u' mv t', r = inl (mk_ptr 1 j) /\ lies h' 1 j u' (JBool false) mv t') \/
  (sxe_jitson_object_get_member (mk_ptr 1 0) [97; 0] 0 example_heap = Ret (inr ENOMEM, example_heap) /\ no_block example_heap).
Proof.
  refine (object_get_member_spec example_heap 1 0 [] example_object example_memory [] [97; 0] 0 [97] example_heap_ok example_lies _ _); [done|].
  split; [done|]. left. by split.
Defined.

Lemma stored_value_spec_witness :
  gives (mk_heap {[1 := example_array_memory]} 2) (mk_ptr 1 0) (JArray example_array) /\ stored ∅ (JArray example_array) example_array_memory.
Proof.
  destruct (stored_value_spec (JArray example_array) example_array_memory) as [Hg Hs].
  split; [apply (Hg _ 1 0 [] [] example_array_lies)|apply (Hs ∅ example_array_image)]; by repeat split.
Defined.

(** ** What modelling showed *)

(** The flag that says that there is an index is set before the index is filled: a thread that looks without the lock, as
    they do when they see the flag, does not find a member that is there. *)
Lemma index_seen_early : exists h1 h2,
  (index ← sxe_calloc 16; match index with Some blk => start_index (mk_ptr 1 0) blk 3 | None => lift Fault end) example_heap = Ret (tt, h1) /\
  sxe_jitson_object_get_member (mk_ptr 1 0) [98; 0] 0 h1 = Ret (inr ENOKEY, h2).
Proof. eexists _, _. split; [vm_compute; reflexivity|]. vm_compute. reflexivity. Qed.

(** A name with a NUL is taken for the string before it once its object is indexed: the walk over the members goes
    astray, here over bytes that are no jitson. *)
Lemma nul_in_name :
  sxe_jitson_object_get_member (mk_ptr 1 0) [98; 0] 0
    (mk_heap {[1 := token SXE_JITSON_TYPE_OBJECT 2 (bytes64 7) ++
                    (bytes32 key_type ++ bytes32 9 ++ [97; 0; 97; 97; 97; 97; 97; 97; 97; 0; 0; 0; 0; 0; 0; 0; 0; 0; 0; 0; 0; 0; 0; 0]) ++ token SXE_JITSON_TYPE_NULL 0 (bytes64 0) ++
                    example_key 98 ++ token SXE_JITSON_TYPE_NULL 0 (bytes64 0)]} 2) = Fault.
Proof. vm_compute. reflexivity. Qed.
End Examples.
