(* ===== verification/JitsonPrint.v ===== *)
(** * JitsonPrint: the JSON text of a value

    The text that a value is written as, which is a text of the grammar of JitsonGrammar.v: of the same
    value, up to what printing does to doubles, and with the members of each object in the order of
    its index. *)

From S2P Require Import Prelude CString JitsonSource JitsonToken JitsonStack JitsonParse JitsonGrammar JitsonValue JitsonAccess.

(** ** Numbers and characters *)

(** snprintf of a number with PRIu64, and of a byte with %02x. *)
Fixpoint print_digits (fuel : nat) (n : Z) (acc : list Z) : list Z :=
  match fuel with
  | O => acc
  | S fuel => let acc := 48 + n mod 10 :: acc in if n <? 10 then acc else print_digits fuel (n / 10) acc
  end.
Definition print_uint (n : Z) : list Z := print_digits 20 n [].
Definition hex_char (d : Z) : Z := if d <? 10 then 48 + d else 87 + d.
Definition print_escape (c : Z) : list Z := [92; 117; 48; 48; hex_char (c / 16); hex_char (c mod 16)].

(** The characters that are written as an escape. *)
Definition must_escape (c : Z) : bool := (c <=? 31) || (c =? 34) || (c =? 92).
Definition print_char (c : Z) : list Z := if must_escape c then print_escape c else [c].
Definition print_chars (s : list Z) : list Z := concat (print_char <$> s).
Definition print_string (s : list Z) : list Z := quoted (print_chars s).

(** ** Values *)

(** The texts of a list, with commas between them. *)
Definition joined (ts : list (list Z)) : list Z :=
  match ts with [] => [] | t :: ts => t ++ concat (cons 44 <$> ts) end.

(** The texts of a list behind others, or at the start. *)
Definition continued (first : bool) (ts : list (list Z)) : list Z := if first then joined ts else concat (cons 44 <$> ts).

Lemma continued_cons first t ts : continued first (t :: ts) = (if first then [] else [44]) ++ t ++ continued false ts.
Proof. by destruct first. Qed.
Lemma continued_app first ts us : continued first (ts ++ us) = continued first ts ++ continued (first && bool_decide (ts = [])) us.
Proof.
  destruct ts as [|t ts]; [by destruct first|]. rewrite bool_decide_false, andb_false_r by done. cbn [app]. rewrite !continued_cons, <-!(assoc_L (++)). do 2 f_equal.
  unfold continued. by rewrite fmap_app, concat_app.
Qed.

Section Print.
Context `{Library}.

(** The members of an object in the order of its index: by bucket, the last of a bucket first. *)
Definition bucket_of_members {A} (n : Z) (l : list (list Z * A)) (B : Z) : list (list Z * A) := reverse (filter (fun kv => bucket n (fst kv) = B) l).
Definition in_buckets {A} (l : list (list Z * A)) : list (list Z * A) := concat (bucket_of_members (zlen l) l <$> seqZ 0 (zlen l)).

Definition print_member (kt : list Z * list Z) : list Z := print_string (fst kt) ++ 58 :: snd kt.

Fixpoint print (v : json) : list Z :=
  match v with
  | JNull => NULL
  | JBool b => if b then TRUE else FALSE
  | JUint n => print_uint n
  | JNumber d => print_double d
  | JString s => print_string s
  | JArray l => 91 :: joined (map print l) ++ [93]
  | JObject l => 123 :: joined (map print_member (in_buckets (map (fun kv => (fst kv, print (snd kv))) l))) ++ [125]
  end.

(** What can be written as JSON: bytes, 64 bit integers, and doubles of some kind (finite ones). *)
Fixpoint printable (double_ok : Z -> Prop) (v : json) : Prop :=
  match v with
  | JUint n => is_u64 n
  | JNumber d => is_u64 d /\ double_ok d
  | JString s => bytes_ok s
  | JArray l => fold_right (fun v P => printable double_ok v /\ P) True l
  | JObject l => fold_right (fun kv P => bytes_ok (fst kv) /\ printable double_ok (snd kv) /\ P) True l
  | _ => True
  end.

Lemma printable_array double_ok l : printable double_ok (JArray l) -> Forall (printable double_ok) l.
Proof. cbn [printable]. induction l as [|v l IH]; cbn [fold_right]; [constructor|]. intros [Hv Hl]. constructor; auto. Qed.
Lemma printable_object double_ok l : printable double_ok (JObject l) -> Forall (fun kv => bytes_ok (fst kv) /\ printable double_ok (snd kv)) l.
Proof. cbn [printable]. induction l as [|v l IH]; cbn [fold_right]; [constructor|]. intros (Hk & Hv & Hl). constructor; auto. Qed.

(** What is read back, if a double is read back as [reread] says. *)
Fixpoint reread_json (reread : Z -> json) (v : json) : json :=
  match v with
  | JNumber d => reread d
  | JArray l => JArray (map (reread_json reread) l)
  | JObject l => JObject (in_buckets (map (fun kv => (fst kv, reread_json reread (snd kv))) l))
  | _ => v
  end.

(** ** Numbers and strings are texts of the grammar *)

Lemma print_digits_spec fuel : forall n acc, 0 <= n < 10 ^ Z.of_nat fuel ->
  exists d, print_digits fuel n acc = d ++ acc /\ Forall (fun c => isdigit c = true) d /\ zlen d <= Z.of_nat fuel /\ ((0 < fuel)%nat -> d <> []) /\
    fold_left (fun v c => 10 * v + hex_digit c) d 0 = n.
Proof.
  induction fuel as [|fuel IH]; intros n acc Hn; cbn [print_digits].
  { change (10 ^ Z.of_nat 0) with 1 in Hn. exists []. split_and!; [done..|lia|]. cbn. lia. }
  assert (Hd : isdigit (48 + n mod 10) = true /\ hex_digit (48 + n mod 10) = n mod 10).
  { assert (0 <= n mod 10 < 10) by (apply Z.mod_pos_bound; lia). generalize dependent (n mod 10). intros x Hx. unfold isdigit, hex_digit. split; [lia|].
    replace (48 + x <=? 57) with true by lia. lia. }
  destruct Hd as [Hd Hv]. destruct (Z.ltb_spec n 10) as [Hs|Hl].
  - exists [48 + n mod 10]. split_and!; [done|by repeat constructor|unfold zlen; cbn [length]; lia|done|]. cbn [fold_left]. rewrite Hv, Z.mod_small by lia. lia.
  - destruct (IH (n / 10) (48 + n mod 10 :: acc)) as (d & -> & Hall & Hlen & _ & Hval).
    { rewrite Nat2Z.inj_succ, Z.pow_succ_r in Hn by lia. Z.to_euclidean_division_equations; lia. }
    exists (d ++ [48 + n mod 10]). split_and!; [by rewrite <-(assoc_L (++))|by apply Forall_app; split; [|repeat constructor]|rewrite zlen_app; unfold zlen in *; cbn [length]; lia|by destruct d|].
    rewrite fold_left_app, Hval. cbn [fold_left]. rewrite Hv. Z.to_euclidean_division_equations; lia.
Qed.

Lemma print_uint_spec n : is_u64 n -> digits_ok (print_uint n) /\ zlen (print_uint n) <= 20 /\ digits_value 10 (print_uint n) = n.
Proof.
  intros Hn. unfold is_u64 in Hn. destruct (print_digits_spec 20 n []) as (d & E & Hall & Hlen & Hne & Hval); [change (10 ^ Z.of_nat 20) with 100000000000000000000; lia|].
  unfold print_uint. rewrite E, app_nil_r. split_and!; [split; [apply Hne; lia|done]|done|]. unfold digits_value. rewrite Hval. unfold ULONG_MAX. lia.
Qed.

Lemma escape_text c : is_u8 c -> must_escape c = true -> item_text [c] (print_escape c).
Proof.
  intros Hc He. unfold is_u8 in Hc. assert (H0 : hex_value 48 = Some 0) by done.
  assert (Hb : hex_value (hex_char (c / 16)) = Some (c / 16) /\ hex_value (hex_char (c mod 16)) = Some (c mod 16) /\ c < 128).
  { assert (Hcs : c = 34 \/ c = 92 \/ 0 <= c <= 31) by (unfold must_escape in He; lia). destruct Hcs as [->|[->|Hcs]]; [done..|].
    assert (Hall : forallb (fun c => bool_decide (hex_value (hex_char (c / 16)) = Some (c / 16) /\ hex_value (hex_char (c mod 16)) = Some (c mod 16))) (seqZ 0 32) = true) by (vm_compute; reflexivity).
    rewrite forallb_forall in Hall. specialize (Hall c). rewrite <-list_elem_of_In, elem_of_seqZ in Hall. specialize (Hall ltac:(lia)). apply bool_decide_eq_true in Hall as [? ?]. split_and!; [done..|lia]. }
  destruct Hb as (H1 & H2 & H3). pose proof (it_unicode _ _ _ _ _ _ _ _ H0 H0 H1 H2) as Hi.
  replace (4096 * 0 + 256 * 0 + 16 * (c / 16) + c mod 16) with c in Hi by (Z.to_euclidean_division_equations; lia).
  unfold sxe_unicode_to_utf8 in Hi. replace (c <=? 127) with true in Hi by lia. by rewrite u8_small in Hi.
Qed.

Lemma edge_one n : 0 <= n -> edge_ok n 1 = true.
Proof. intros Hn. unfold edge_ok. apply Bool.eqb_true_iff, eq_true_iff_eq. rewrite andb_true_iff, Z.leb_le, !Z.ltb_lt. Z.to_euclidean_division_equations; lia. Qed.

Lemma chars_text s p : bytes_ok s -> string_text p (p ++ s) (print_chars s).
Proof.
  intros Hs. revert p. induction Hs as [|c s Hc Hs IH]; intros p; [rewrite app_nil_r; constructor|].
  unfold print_chars. cbn [fmap list_fmap concat]. fold (print_chars s). apply (st_item _ [c]).
  - unfold print_char. destruct (must_escape c) eqn:E; [by apply escape_text|]. unfold must_escape in E. apply it_char; lia.
  - apply edge_one, zlen_nonneg.
  - specialize (IH (p ++ [c])). by rewrite <-(assoc_L (++)) in IH.
Qed.

Lemma hex_char_pos d : 0 <= d -> 0 < hex_char d.
Proof. unfold hex_char. destruct (d <? 10); lia. Qed.

Lemma print_char_no_nul c : is_u8 c -> no_nul (print_char c).
Proof.
  intros Hc. unfold is_u8 in Hc. unfold print_char. destruct (must_escape c) eqn:E; [|unfold must_escape in E; repeat constructor; lia].
  pose proof (hex_char_pos (c / 16) ltac:(Z.to_euclidean_division_equations; lia)). pose proof (hex_char_pos (c mod 16) ltac:(Z.to_euclidean_division_equations; lia)).
  repeat constructor; lia.
Qed.

Lemma no_nul_app a b : no_nul a -> no_nul b -> no_nul (a ++ b).
Proof. apply Forall_app_2. Qed.
Lemma no_nul_concat l : Forall no_nul l -> no_nul (concat l).
Proof. induction 1; [constructor|by apply no_nul_app]. Qed.

Lemma print_string_no_nul s : bytes_ok s -> no_nul (print_string s).
Proof.
  intros Hs. unfold print_string, quoted. constructor; [done|]. apply no_nul_app; [|by repeat constructor]. apply no_nul_concat, Forall_fmap.
  eapply Forall_impl; [exact Hs|]. intros c. apply print_char_no_nul.
Qed.

(** ** Buckets *)

Lemma filter_fmap {A B} (g : A -> B) (P : B -> Prop) (Q : A -> Prop) `{!forall y, Decision (P y)} `{!forall x, Decision (Q x)} (l : list A) :
  (forall x, P (g x) <-> Q x) -> filter P (g <$> l) = g <$> filter Q l.
Proof.
  intros Heq. induction l as [|x l IH]; [done|]. cbn [fmap list_fmap]. destruct (decide (Q x)) as [HQ|HQ].
  - rewrite (filter_cons_True P) by (by apply Heq). rewrite filter_cons_True by done. cbn [fmap list_fmap]. by f_equal.
  - rewrite (filter_cons_False P) by (by rewrite Heq). by rewrite filter_cons_False.
Qed.

Lemma in_buckets_fmap {A B} (f : A -> B) (l : list (list Z * A)) :
  in_buckets (map (fun kv => (fst kv, f (snd kv))) l) = map (fun kv => (fst kv, f (snd kv))) (in_buckets l).
Proof.
  unfold in_buckets. rewrite concat_map. change (map ?g ?x) with (g <$> x). rewrite <-list_fmap_compose. f_equal. assert (Hz : zlen ((fun kv : list Z * A => (fst kv, f (snd kv))) <$> l) = zlen l) by (unfold zlen; by rewrite length_fmap). rewrite Hz. apply list_fmap_ext. intros _ x _. cbn.
  change (map ?g ?y) with (g <$> y). unfold bucket_of_members. rewrite fmap_reverse. f_equal. by apply filter_fmap.
Qed.

Lemma key_bucket_range (n : Z) k : 0 < n -> 0 <= bucket n k < n.
Proof. apply Z.mod_pos_bound. Qed.

(** Sorting by a key from a list of different keys is a permutation. *)
Lemma by_key_perm {A} (g : A -> Z) (l : list A) ks : NoDup ks -> Forall (fun x => g x ∈ ks) l ->
  concat ((fun B => reverse (filter (fun x => g x = B) l)) <$> ks) ≡ₚ l.
Proof.
  intros Hks Hl. assert (Hgen : concat ((fun B => reverse (filter (fun x => g x = B) l)) <$> ks) ≡ₚ filter (fun x => g x ∈ ks) l).
  - clear Hl. induction Hks as [|B ks HB _ IH]; cbn [fmap list_fmap concat].
    + induction l as [|x l IH]; [done|]. rewrite filter_cons_False; [done|set_solver].
    + rewrite IH, reverse_Permutation. clear IH. induction l as [|x l IH]; [done|]. destruct (decide (g x = B)) as [<-|Hne].
      * rewrite filter_cons_True, (filter_cons_False (fun x => g x ∈ ks)), (filter_cons_True (fun y => g y ∈ g x :: ks)) by set_solver. cbn [app]. by f_equiv.
      * rewrite filter_cons_False by done. destruct (decide (g x ∈ ks)).
        { rewrite filter_cons_True, (filter_cons_True (fun y => g y ∈ B :: ks)) by set_solver. rewrite <-IH. symmetry. apply Permutation_middle. }
        rewrite filter_cons_False, (filter_cons_False (fun y => g y ∈ B :: ks)) by set_solver. done.
  - rewrite Hgen. clear Hgen. induction Hl as [|x l Hx _ IH]; [done|]. rewrite filter_cons_True by done. by f_equiv.
Qed.

Lemma in_buckets_perm {A} (l : list (list Z * A)) : in_buckets l ≡ₚ l.
Proof.
  destruct l as [|kv l]; [done|]. apply (by_key_perm (fun x => bucket (zlen (kv :: l)) (fst x))).
  - apply NoDup_seqZ.
  - apply Forall_forall. intros x _. apply elem_of_seqZ. cbn beta. pose proof (zlen_nonneg l). pose proof (key_bucket_range (zlen (kv :: l)) (fst x) ltac:(rewrite zlen_cons; lia)).
    lia.
Qed.
Lemma Forall_in_buckets {A} (P : list Z * A -> Prop) l : Forall P l -> Forall P (in_buckets l).
Proof. by rewrite in_buckets_perm. Qed.

(** The last member of a name does not depend on the order if there are no two of one name. *)
Lemma last_value_Some name l v : NoDup l.*1 -> last_value name l = Some v <-> (name, v) ∈ l.
Proof.
  revert v. induction l as [|[k w] l IH]; cbn [fmap list_fmap fst last_value]; intros v Hn; [by split; [|intros ?%not_elem_of_nil]|].
  apply NoDup_cons in Hn as [Hk Hn]. rewrite elem_of_cons. destruct (last_value name l) as [w'|] eqn:E.
  - rewrite (IH v Hn). split; [by right|]. intros [[= -> ->]|?]; [|done]. exfalso. apply Hk, list_elem_of_fmap. exists (k, w'). split; [done|]. by apply IH.
  - destruct (decide (k = name)) as [->|Hne].
    + split; [intros [= ->]; by left|]. intros [[= ->]|Hin]; [done|]. by apply (IH v Hn) in Hin.
    + split; [done|]. intros [[= -> ->]|Hin]; [done|]. by apply (IH v Hn) in Hin.
Qed.

Lemma last_value_perm name l l' : NoDup l.*1 -> l ≡ₚ l' -> last_value name l = last_value name l'.
Proof.
  intros Hn Hp. assert (Hn' : NoDup l'.*1) by (by rewrite <-Hp). assert (Heq : forall v, last_value name l = Some v <-> last_value name l' = Some v).
  { intros v. rewrite !last_value_Some by done. by rewrite Hp. }
  destruct (last_value name l) as [v|]; [symmetry; by apply (proj1 (Heq v))|]. destruct (last_value name l') as [v|]; [by apply (proj2 (Heq v))|done].
Qed.

(** What is read back of an object has the members that it had. *)
Lemma reread_lookup reread l l' name : NoDup l.*1 -> reread_json reread (JObject l) = JObject l' -> last_value name l' = reread_json reread <$> last_value name l.
Proof.
  intros Hn [= <-]. rewrite in_buckets_fmap. rewrite <-(last_value_perm name (map (fun kv => (fst kv, reread_json reread (snd kv))) l)).
  - clear Hn. induction l as [|[k v] l IH]; [done|]. cbn [map last_value fst snd]. rewrite IH. destruct (last_value name l); [done|]. by destruct (decide (k = name)).
  - change (map ?g ?x) with (g <$> x). by rewrite <-list_fmap_compose.
  - change (map ?g ?x) with (g <$> x). by rewrite in_buckets_perm.
Qed.

(** ** The text of a value *)

Lemma joined_elements l ts double : l <> [] -> Forall2 (value_text double) l ts -> elements_text double l (joined ts).
Proof.
  intros Hl Hts. destruct Hts as [|v t l ts Hv Hts]; [done|]. clear Hl. cbn [joined]. revert v t Hv. induction Hts as [|w u l ts Hw Hts IH]; intros v t Hv; cbn [fmap list_fmap concat].
  - pose proof (et_last double [] v t []) as E. cbn [app] in E. apply E; (done || constructor).
  - pose proof (et_more double [] v t [] (w :: l) (u ++ concat (cons 44 <$> ts))) as E. cbn [app] in E. apply E; [constructor|done|constructor|by apply IH].
Qed.

Lemma joined_members l kts double : l <> [] ->
  Forall2 (fun kv kt => fst kt = fst kv /\ bytes_ok (fst kv) /\ value_text double (snd kv) (snd kt)) l kts -> members_text double l (joined (map print_member kts)).
Proof.
  intros Hl Hts. destruct Hts as [|[k v] [k' t] l kts (Hk & Hb & Hv) Hts]; [done|]. cbn [fst snd] in *. subst k'. clear Hl. cbn [map joined]. revert k v t Hb Hv.
  induction Hts as [|[k2 w] [k' u] l kts (Hk & Hb2 & Hw) Hts IH]; intros k v t Hb Hv; cbn [map fmap list_fmap concat].
  - pose proof (mt_last double [] k (print_chars k) [] [] v t []) as E. cbn [app] in E. rewrite !app_nil_r in *. unfold print_member. cbn [fst snd]. apply E; try (done || constructor). by apply (chars_text k []).
  - cbn [fst snd] in *. subst k'. pose proof (mt_more double [] k (print_chars k) [] [] v t [] ((k2, w) :: l) (print_member (k2, u) ++ concat (cons 44 <$> map print_member kts))) as E. cbn [app] in E.
    unfold print_member at 1. cbn [fst snd]. rewrite <-(assoc_L (++)). cbn [app]. apply E; try (done || constructor); [by apply (chars_text k [])|]. by apply IH.
Qed.

(** What printf does with a double that [double_ok] says is a number: the text of a number, that fits. *)
Class PrintLaw (double_ok : Z -> Prop) (reread : Z -> number) : Prop :=
  print_law : forall d, double_ok d -> print_double d = print_number (reread d) /\ number_ok (reread d) /\ zlen (print_double d) <= 24.

Lemma digits_no_nul d : digits_ok d -> no_nul d.
Proof. intros [_ Hd]. eapply Forall_impl; [exact Hd|]. intros c Hc ->. done. Qed.

Lemma number_no_nul n : number_ok n -> no_nul (print_number n).
Proof.
  destruct n as [minus d f x]. intros [Hd Hf Hx]. cbn [n_digits n_fraction n_exponent] in *. unfold print_number. cbn [n_minus n_digits n_fraction n_exponent].
  apply no_nul_app; [destruct minus; by repeat constructor|]. apply no_nul_app; [by apply digits_no_nul|]. apply no_nul_app.
  - destruct f as [f|]; [|constructor]. constructor; [done|]. by apply digits_no_nul, Hf.
  - destruct x as [[[e sg] d']|]; [|constructor]. destruct (Hx e sg d' eq_refl) as (He & Hs & Hd'). constructor; [lia|].
    apply no_nul_app; [destruct Hs as [->|[->| ->]]; by repeat constructor|by apply digits_no_nul].
Qed.

Lemma number_not_empty n : number_ok n -> print_number n <> [].
Proof. intros [[Hd _] _ _]. unfold print_number. intros E. apply Hd. by apply app_eq_nil in E as [_ [E _]%app_eq_nil]. Qed.

Lemma joined_no_nul ts : Forall no_nul ts -> no_nul (joined ts).
Proof.
  destruct 1 as [|t ts Ht Hts]; [constructor|]. cbn [joined]. apply no_nul_app; [done|]. apply no_nul_concat, Forall_fmap. eapply Forall_impl; [exact Hts|]. intros u Hu. by constructor.
Qed.

Section Text.
Context {double : number -> Z} {double_ok : Z -> Prop} {reread : Z -> number} `{!PrintLaw double_ok reread}.
Let reread_value (d : Z) : json := number_value double (reread d).
Let good (v : json) (t : list Z) : Prop := value_text double (reread_json reread_value v) t /\ no_nul t.

Lemma print_array_text l : Forall (fun v => good v (print v)) l -> good (JArray l) (print (JArray l)).
Proof.
  intros Hl. split; cbn [reread_json print].
  - destruct (decide (l = [])) as [->|Hne]; [apply (vt_array_empty _ []); constructor|]. apply vt_array, joined_elements; [by destruct l|].
    change (map ?g ?x) with (g <$> x). apply Forall2_fmap, Forall_Forall2_diag. eapply Forall_impl; [exact Hl|]. by intros v [].
  - constructor; [done|]. apply no_nul_app; [|by repeat constructor]. apply joined_no_nul. apply Forall_fmap. eapply Forall_impl; [exact Hl|]. by intros v [].
Qed.

Lemma print_object_text l : Forall (fun kv => bytes_ok (fst kv) /\ good (snd kv) (print (snd kv))) l -> good (JObject l) (print (JObject l)).
Proof.
  intros Hl%Forall_in_buckets. unfold good. cbn [reread_json print]. rewrite !in_buckets_fmap. split.
  - destruct (decide (l = [])) as [->|Hne]; [apply (vt_object_empty _ []); constructor|].
    apply vt_object, joined_members; [intros E%map_eq_nil; apply Hne, Permutation_nil_r; by rewrite <-E, in_buckets_perm|].
    change (map ?g ?x) with (g <$> x). apply Forall2_fmap, Forall_Forall2_diag. eapply Forall_impl; [exact Hl|]. by intros [k v] [? []].
  - constructor; [done|]. apply no_nul_app; [|by repeat constructor]. apply joined_no_nul. rewrite map_map. apply Forall_fmap. eapply Forall_impl; [exact Hl|].
    intros [k v] (Hk & _ & Hv). change (no_nul (print_string k ++ 58 :: print v)). apply no_nul_app; [by apply print_string_no_nul|]. by constructor.
Qed.

(** The text of a value is one of the grammar, of what is read back. *)
Lemma print_text v : printable double_ok v -> good v (print v).
Proof.
  induction v as [|x|x|x|s|l IH|l IH] using json_ind'; intros Hv.
  - split; [constructor|by repeat constructor].
  - split; destruct x; try constructor; by repeat constructor.
  - destruct (print_uint_spec x Hv) as (Hd & _ & Hx). split; [|by apply digits_no_nul]. cbn [reread_json print].
    pose proof (vt_number double (mk_number false (print_uint x) None None)) as E.
    assert (En : print_number (mk_number false (print_uint x) None None) = print_uint x) by (unfold print_number; cbn [n_minus n_digits n_fraction n_exponent print_fraction print_exponent app]; by rewrite app_nil_r).
    assert (Ev : number_value double (mk_number false (print_uint x) None None) = JUint x) by (rewrite <-Hx at 2; done).
    rewrite En, Ev in E. apply E. by split.
  - destruct (print_law x (proj2 Hv)) as (E & Hn & _). split; cbn [reread_json print]; rewrite E; [by constructor|by apply number_no_nul].
  - split; cbn [reread_json print]; [|by apply print_string_no_nul]. constructor. by apply (chars_text s []).
  - apply print_array_text. apply printable_array in Hv. induction IH as [|v l Hv' _ IHl]; [constructor|]. inversion Hv; subst. constructor; auto.
  - apply print_object_text. apply printable_object in Hv. induction IH as [|kv l Hv' _ IHl]; [constructor|]. inversion Hv as [|? ? [] ?]; subst. constructor; auto.
Qed.
End Text.
End Print.
