(* ===== verification/JitsonWrite.v ===== *)
(** * JitsonWrite: writing jitsons as JSON text (lib-sxe-jitson/sxe-jitson-type.c)

    The text goes to a factory. It is the text that JitsonPrint.v says, so that reading it back
    gives the value. *)

From S2P Require Import Prelude CString JitsonSource JitsonToken JitsonStack JitsonParse JitsonGrammar JitsonBuild Factory JitsonValue JitsonAccess JitsonPrint.

(** ** Operations *)

(** The heap that is read, and the factory that is written. *)
Record writer := mk_writer { w_heap : heap; w_factory : factory }.

Section Write.
Context `{Build} `{Env} `{Library}.

Definition on_heap {A} (f : cmd heap A) : cmd writer A := fun w => '(a, h) ← f (w_heap w); mret (a, mk_writer h (w_factory w)).
Definition on_factory {A} (f : cmd factory A) : cmd writer A := fun w => '(a, f) ← f (w_factory w); mret (a, mk_writer (w_heap w) f).

(** The constant strings of the code are added with their lengths, and what the call gives is not used. *)
Definition add (text : list Z) : cmd writer unit := n ← on_factory (sxe_factory_add (text ++ [0]) (zlen text)); mret tt.

(** return sxe_factory_look(factory, NULL): is there data? *)
Definition look : cmd writer bool := '(d, _) ← on_factory sxe_factory_look; mret (negb (bool_decide (d = None))).

(** lib-sxe-jitson/sxe-jitson-type.c:121-127, sxe_jitson_null_build_json. *)
Definition sxe_jitson_null_build_json (jitson : ptr) : cmd writer bool := add NULL;; look.

(** lib-sxe-jitson/sxe-jitson-type.c:142-151, sxe_jitson_bool_build_json. *)
Definition sxe_jitson_bool_build_json (jitson : ptr) : cmd writer bool :=
  b ← on_heap (sxe_jitson_get_bool jitson); (if (b : bool) then add TRUE else add FALSE);; look.

(** lib-sxe-jitson/sxe-jitson-type.c:166-166, NUMBER_MAX_LEN. *)
Definition NUMBER_MAX_LEN : Z := 24.

(** lib-sxe-jitson/sxe-jitson-type.c:168-198, sxe_jitson_number_build_json. *)
Definition sxe_jitson_number_build_json (jitson : ptr) : cmd writer bool :=
  ret ← on_factory (sxe_factory_reserve NUMBER_MAX_LEN);
  match ret with
  | None => mret false
  | Some ret =>
      type ← on_heap (jget jitson get_type);
      n ← on_heap (if has_flag type SXE_JITSON_TYPE_IS_UINT then sxe_jitson_get_uint jitson else sxe_jitson_get_number jitson);
      match n with
      | inr _ => lift Fault
      | inl n =>
          let '(bytes, len) := vsnprintf (NUMBER_MAX_LEN + 1) (Some (if has_flag type SXE_JITSON_TYPE_IS_UINT then print_uint n else print_double n)) in
          on_factory (f_store ret bytes);;
          lift (assert6 (len <=? NUMBER_MAX_LEN));;
          on_factory (sxe_factory_commit len);;
          look
      end
  end.

(** lib-sxe-jitson/sxe-jitson-type.c:269-287, sxe_jitson_string_build_json. The characters from [i] on, of which those
    from [first] on are not written yet; false if there is no memory for an escape. *)
Fixpoint build_chars (n : nat) (string : list Z) (first i len : Z) : cmd writer bool :=
  match n with
  | O => if first <? len then bytes ← lift (load (slice string first (len - first))); on_factory (sxe_factory_add bytes (len - first));; mret true else mret true
  | S n =>
      c ← lift (load (rd string i));
      if must_escape c then
        (if first <? i then bytes ← lift (load (slice string first (i - first))); on_factory (sxe_factory_add bytes (i - first));; mret tt else mret tt);;
        buffer ← on_factory (sxe_factory_reserve 7);
        match buffer with
        | None => mret false
        | Some buffer => on_factory (f_store buffer (print_escape c ++ [0]));; on_factory (sxe_factory_commit 6);; build_chars n string (i + 1) (i + 1) len
        end
      else build_chars n string first (i + 1) len
  end.

(** lib-sxe-jitson/sxe-jitson-type.c:258-291, sxe_jitson_string_build_json. *)
Definition sxe_jitson_string_build_json (jitson : ptr) : cmd writer bool :=
  len ← on_heap (sxe_jitson_len jitson);
  '(p, _) ← on_heap (sxe_jitson_get_string jitson false);
  string ← on_heap (bytes_at p);
  add [34];;
  ok ← build_chars (Z.to_nat (u32 len)) string 0 0 (u32 len);
  if negb ok then mret false else add [34];; look.

Section Recursive.
(** sxe_jitson_build_json, for the values inside. *)
Variable build_json : ptr -> cmd writer bool.

(** lib-sxe-jitson/sxe-jitson-type.c:381-388, sxe_jitson_array_build_json. The [n] elements from [i] on. There is no
    test for the NULL of a failure to allocate an index, which is a fault. *)
Fixpoint build_elements (n : nat) (jitson : ptr) (i : Z) : cmd writer unit :=
  match n with
  | O => mret tt
  | S n =>
      element ← on_heap (sxe_jitson_array_get_element jitson i);
      match element with
      | inr _ => lift Fault
      | inl element => build_json element;; (if (n =? 0)%nat then mret tt else add [44]);; build_elements n jitson (i + 1)
      end
  end.

(** lib-sxe-jitson/sxe-jitson-type.c:374-392, sxe_jitson_array_build_json. *)
Definition sxe_jitson_array_build_json (jitson : ptr) : cmd writer bool :=
  add [91];;
  len ← on_heap (jget jitson get_len);
  build_elements (Z.to_nat len) jitson 0;;
  add [93];;
  look.

(** lib-sxe-jitson/sxe-jitson-type.c:511-519, sxe_jitson_object_build_json. The members of a bucket, from the
    one at [index] on. *)
Fixpoint build_bucket (fuel : nat) (jitson : ptr) (first : bool) (index : Z) : cmd writer bool :=
  match fuel with
  | O => lift Fault
  | S fuel =>
      if index =? 0 then mret first
      else
        let member := ptr_add jitson index in
        (if first then mret tt else add [44]);;
        build_json member;;
        add [58];;
        size ← on_heap (sxe_jitson_size member);
        build_json (ptr_add member size);;
        next ← on_heap (jget member get_len);
        build_bucket fuel jitson false next
  end.

(** lib-sxe-jitson/sxe-jitson-type.c:510-520, sxe_jitson_object_build_json. The [n] buckets from [i] on. *)
Fixpoint build_buckets (n : nat) (jitson : ptr) (len i : Z) (first : bool) : cmd writer bool :=
  match n with
  | O => mret first
  | S n =>
      index ← on_heap (get_index jitson i);
      first ← build_bucket (S (Z.to_nat len)) jitson first index;
      build_buckets n jitson len (i + 1) first
  end.

(** lib-sxe-jitson/sxe-jitson-type.c:494-524, sxe_jitson_object_build_json. *)
Definition sxe_jitson_object_build_json (jitson : ptr) : cmd writer bool :=
  len ← on_heap (jget jitson get_len);
  if len =? 0 then add [123; 125];; look
  else
    type ← on_heap (jget jitson get_type);
    (if has_flag type SXE_JITSON_TYPE_INDEXED then mret tt else r ← on_heap (sxe_jitson_object_get_member jitson [0] 0); mret tt);;
    add [123];;
    first ← build_buckets (Z.to_nat len) jitson len 0 true;
    add [125];;
    look.

(** The function of a type that is not a reference: types[t].build_json(jitson, factory). *)
Definition type_build_json (t : Z) (jitson : ptr) : cmd writer bool :=
  if t =? SXE_JITSON_TYPE_NULL then sxe_jitson_null_build_json jitson
  else if t =? SXE_JITSON_TYPE_BOOL then sxe_jitson_bool_build_json jitson
  else if t =? SXE_JITSON_TYPE_NUMBER then sxe_jitson_number_build_json jitson
  else if t =? SXE_JITSON_TYPE_STRING then sxe_jitson_string_build_json jitson
  else if t =? SXE_JITSON_TYPE_ARRAY then sxe_jitson_array_build_json jitson
  else if t =? SXE_JITSON_TYPE_OBJECT then sxe_jitson_object_build_json jitson
  else lift Fault.

(** lib-sxe-jitson/sxe-jitson-type.c:545-549, sxe_jitson_reference_build_json. *)
Definition sxe_jitson_reference_build_json (jitson : ptr) : cmd writer bool :=
  to ← on_heap (get_jitref jitson); t ← on_heap (sxe_jitson_get_type to); type_build_json t to.
End Recursive.

(** lib-sxe-jitson/sxe-jitson-type.c:671-675, sxe_jitson_build_json. The fuel is for the depth of the value. *)
Fixpoint sxe_jitson_build_json (fuel : nat) (jitson : ptr) : cmd writer bool :=
  match fuel with
  | O => lift Fault
  | S fuel =>
      type ← on_heap (jget jitson get_type);
      let t := Z.land type SXE_JITSON_TYPE_MASK in
      if t =? SXE_JITSON_TYPE_REFERENCE then sxe_jitson_reference_build_json (sxe_jitson_build_json fuel) jitson
      else type_build_json (sxe_jitson_build_json fuel) t jitson
  end.

(** lib-sxe-jitson/sxe-jitson.c:373-384, sxe_jitson_to_json. The text with its NUL and its length, or NULL. A value is less deep than it
    is long in tokens. *)
Definition sxe_jitson_to_json (jitson : ptr) : cmd heap (option (list Z) * Z) := fun h =>
  size ← (m ← load (h_blocks h !! p_block jitson); mret (S (length m)));
  '(ok, w) ← sxe_jitson_build_json size jitson (mk_writer h (sxe_factory_alloc_make 0 0));
  if (ok : bool) then '(r, _) ← sxe_factory_remove (w_factory w); mret (r, w_heap w) else mret ((None, 0), w_heap w).

(** ** Steps *)

Lemma on_heap_ret {A} (g : cmd heap A) w a h : g (w_heap w) = Ret (a, h) -> on_heap g w = Ret (a, mk_writer h (w_factory w)).
Proof. intros E. unfold on_heap. by rewrite E. Qed.
Lemma on_factory_ret {A} (g : cmd factory A) w a f : g (w_factory w) = Ret (a, f) -> on_factory g w = Ret (a, mk_writer (w_heap w) f).
Proof. intros E. unfold on_factory. by rewrite E. Qed.

Hypothesis enough_memory : forall n, can_alloc n = true.

Lemma not_out_of_memory : ~ out_of_memory.
Proof. intros [n Hn]. by rewrite enough_memory in Hn. Qed.

(** Text is added, and there is some. *)
Lemma add_at h f T t : text_of f T -> t <> [] -> zlen T + zlen t + 1 <= FACTORY_LIMIT ->
  exists f', add t (mk_writer h f) = Ret (tt, mk_writer h f') /\ text_of f' (T ++ t).
Proof.
  intros Hf Ht Hlim. pose proof (slice_mid [] t [0]) as Hs. cbn [app] in Hs. change (zlen (@nil Z)) with 0 in Hs. assert (0 < zlen t) by (destruct t; [done|rewrite zlen_cons; pose proof (zlen_nonneg t); lia]).
  destruct (add_text f T (t ++ [0]) (zlen t) t Hf Hs ltac:(lia) Hlim) as [(f' & E & Hf')|[_ Ho]]; [|by apply not_out_of_memory in Ho].
  exists f'. split; [|done]. unfold add. by rewrite (cmd_bind_ret _ _ _ _ _ (on_factory_ret _ (mk_writer h f) _ _ E)).
Qed.

Lemma look_at h f T : text_of f T -> T <> [] -> look (mk_writer h f) = Ret (true, mk_writer h f).
Proof.
  intros Hf HT. unfold look. rewrite (cmd_bind_ret _ _ _ _ _ (on_factory_ret _ (mk_writer h f) (f_data f, f_len f) f eq_refl)). cbn [w_heap].
  destruct Hf as [_ _ _ Hd]. by destruct (f_data f).
Qed.

(** The last addition of a value. *)
Lemma add_look h f T t : text_of f T -> t <> [] -> zlen T + zlen t + 1 <= FACTORY_LIMIT ->
  exists f', (add t;; look) (mk_writer h f) = Ret (true, mk_writer h f') /\ text_of f' (T ++ t).
Proof.
  intros Hf Ht Hlim. destruct (add_at h f T t Hf Ht Hlim) as (f' & E & Hf'). exists f'. split; [|done]. rewrite (cmd_bind_ret _ _ _ _ _ E).
  apply (look_at _ _ _ Hf'). intros [_ ?]%app_eq_nil. done.
Qed.

(** A piece of a string that needs no escapes. *)
Lemma add_piece h f T a p rest n : text_of f T -> n = zlen a + zlen p -> zlen T + zlen p + 1 <= FACTORY_LIMIT ->
  exists f', (if zlen a <? n then bytes ← lift (load (slice (a ++ p ++ rest) (zlen a) (n - zlen a))); on_factory (sxe_factory_add bytes (n - zlen a));; mret tt else mret tt) (mk_writer h f) =
    Ret (tt, mk_writer h f') /\ text_of f' (T ++ p).
Proof.
  intros Hf -> Hlim. replace (zlen a + zlen p - zlen a) with (zlen p) by lia. destruct (Z.ltb_spec (zlen a) (zlen a + zlen p)) as [Hp|Hp].
  - rewrite slice_mid. rewrite (lift_ret _ _ _ p eq_refl). pose proof (slice_mid [] p []) as Hs. cbn [app] in Hs. change (zlen (@nil Z)) with 0 in Hs. rewrite app_nil_r in Hs.
    destruct (add_text f T p (zlen p) p Hf Hs ltac:(lia) Hlim) as [(f' & E & Hf')|[_ Ho]]; [|by apply not_out_of_memory in Ho].
    exists f'. split; [|done]. by rewrite (cmd_bind_ret _ _ _ _ _ (on_factory_ret _ (mk_writer h f) _ _ E)).
  - exists f. destruct p; [by rewrite app_nil_r|]. rewrite zlen_cons in Hp. pose proof (zlen_nonneg p). lia.
Qed.

Lemma print_escape_zlen c : zlen (print_escape c) = 6.
Proof. done. Qed.

Lemma build_chars_at h q : forall f T a p rest, text_of f T -> zlen T + zlen p + zlen (print_chars q) + 9 <= FACTORY_LIMIT ->
  exists f', build_chars (length q) (a ++ p ++ q ++ rest) (zlen a) (zlen a + zlen p) (zlen a + zlen p + zlen q) (mk_writer h f) = Ret (true, mk_writer h f') /\
    text_of f' (T ++ p ++ print_chars q).
Proof.
  induction q as [|c q IH]; intros f T a p rest Hf Hlim; cbn [length build_chars].
  { change (zlen (@nil Z)) with 0. change (print_chars []) with (@nil Z) in *. rewrite Z.add_0_r, app_nil_r. change (zlen (@nil Z)) with 0 in Hlim.
    destruct (add_piece h f T a p rest _ Hf eq_refl ltac:(lia)) as (f' & E & Hf'). exists f'. split; [|done]. destruct (_ <? _); [|by injection E as <-].
    unfold mbind, cmd_bind in E |- *. destruct (lift _ _) as [[bytes w]| |]; [|done|done]. destruct (on_factory _ w) as [[n w']| |]; [|done|done]. by injection E as ->. }
  assert (Hrd : rd (a ++ p ++ (c :: q) ++ rest) (zlen a + zlen p) = Some c) by (rewrite (assoc_L (++)); apply rd_at; by rewrite zlen_app).
  rewrite Hrd. rewrite (lift_ret _ _ _ c eq_refl). unfold print_chars in Hlim |- *. cbn [fmap list_fmap concat] in Hlim |- *. fold (print_chars q) in *.
  unfold print_char at 1. unfold print_char at 1 in Hlim. pose proof (zlen_nonneg p). pose proof (zlen_nonneg (print_chars q)). pose proof (zlen_nonneg q). rewrite zlen_cons. destruct (must_escape c) eqn:Ec.
  - rewrite zlen_app, print_escape_zlen in Hlim.
    destruct (add_piece h f T a p ((c :: q) ++ rest) _ Hf eq_refl ltac:(lia)) as (f1 & E1 & Hf1). rewrite (cmd_bind_ret _ _ _ _ _ E1).
    destruct (reserve_room f1 (T ++ p) 7 Hf1 ltac:(lia) ltac:(rewrite zlen_app; lia)) as [(f2 & E2 & Hf2)|[_ Ho]]; [|by apply not_out_of_memory in Ho].
    rewrite (cmd_bind_ret _ _ _ _ _ (on_factory_ret _ (mk_writer h f1) _ _ E2)). cbn [w_heap].
    destruct (store_text f2 (T ++ p) 7 (print_escape c ++ [0]) Hf2 ltac:(done)) as (f3 & room & E3 & Hf3 & Hd3). rewrite (cmd_bind_ret _ _ _ _ _ (on_factory_ret _ (mk_writer h f2) _ _ E3)). cbn [w_heap].
    rewrite <-(assoc_L (++) (print_escape c)) in Hd3.
    destruct (commit_text f3 (T ++ p) 7 (print_escape c) _ Hf3 Hd3 ltac:(done) ltac:(rewrite zlen_app; lia)) as (f4 & E4 & Hf4). rewrite print_escape_zlen in E4.
    rewrite (cmd_bind_ret _ _ _ _ _ (on_factory_ret _ (mk_writer h f3) _ _ E4)). cbn [w_heap].
    destruct (IH f4 ((T ++ p) ++ print_escape c) (a ++ p ++ [c]) [] rest Hf4) as (f' & E & Hf'); [rewrite !zlen_app, print_escape_zlen; change (zlen (@nil Z)) with 0; lia|].
    exists f'. rewrite <-!(assoc_L (++)) in *. cbn [app] in *. split; [|done]. change (zlen (@nil Z)) with 0 in E. rewrite !zlen_app in E. change (zlen [c]) with 1 in E.
    replace (zlen a + (zlen p + 1) + 0) with (zlen a + zlen p + 1) in E by lia. replace (zlen a + (zlen p + 1)) with (zlen a + zlen p + 1) in E by lia.
    replace (zlen a + zlen p + (1 + zlen q)) with (zlen a + zlen p + 1 + zlen q) by lia. exact E.
  - rewrite zlen_app in Hlim. change (zlen [c]) with 1 in Hlim. destruct (IH f T a (p ++ [c]) rest Hf) as (f' & E & Hf'); [rewrite zlen_app; change (zlen [c]) with 1; lia|].
    exists f'. rewrite <-!(assoc_L (++)) in *. cbn [app] in *. split; [|done]. rewrite zlen_app in E. change (zlen [c]) with 1 in E.
    replace (zlen a + (zlen p + 1)) with (zlen a + zlen p + 1) in E by lia. replace (zlen a + zlen p + (1 + zlen q)) with (zlen a + zlen p + 1 + zlen q) by lia. exact E.
Qed.

(** ** Scalars *)

Lemma string_json_at h p c (s r : list Z) (o : option Z) f T :
  sxe_jitson_len p h = Ret (zlen s, h) -> sxe_jitson_get_string p false h = Ret (c, o, h) -> bytes_at c h = Ret (s ++ 0 :: r, h) -> is_u32 (zlen s) ->
  text_of f T -> zlen T + zlen (print_string s) + 16 <= FACTORY_LIMIT ->
  exists f', sxe_jitson_string_build_json p (mk_writer h f) = Ret (true, mk_writer h f') /\ text_of f' (T ++ print_string s).
Proof.
  intros El Es Eb Hs Hf Hlim. unfold print_string, quoted in Hlim. rewrite zlen_cons, zlen_app in Hlim. change (zlen [34]) with 1 in Hlim.
  pose proof (zlen_nonneg (print_chars s)). unfold sxe_jitson_string_build_json.
  rewrite (cmd_bind_ret _ _ _ _ _ (on_heap_ret _ (mk_writer h f) _ _ El)), (cmd_bind_ret _ _ _ _ _ (on_heap_ret _ (mk_writer h f) _ _ Es)), (cmd_bind_ret _ _ _ _ _ (on_heap_ret _ (mk_writer h f) _ _ Eb)). cbn [w_factory].
  destruct (add_at h f T [34] Hf ltac:(done) ltac:(change (zlen [34]) with 1; lia)) as (f1 & E1 & Hf1). rewrite (cmd_bind_ret _ _ _ _ _ E1). rewrite u32_small by done.
  destruct (build_chars_at h s f1 (T ++ [34]) [] [] (0 :: r) Hf1) as (f2 & E2 & Hf2); [rewrite zlen_app; change (zlen [34]) with 1; change (zlen (@nil Z)) with 0; lia|].
  cbn [app] in E2, Hf2. change (zlen (@nil Z)) with 0 in E2. assert (Z.to_nat (zlen s) = length s) as -> by (unfold zlen; lia). rewrite (cmd_bind_ret _ _ _ _ _ E2). cbn [negb].
  destruct (add_look h f2 _ [34] Hf2 ltac:(done)) as (f3 & E3 & Hf3); [rewrite !zlen_app; change (zlen [34]) with 1; lia|].
  exists f3. rewrite <-!(assoc_L (++)) in Hf3. by split.
Qed.

Lemma number_json_at h b i u v m t f T x text : lies h b i u v m t -> word_ok v ->
  (v = JUint x /\ text = print_uint x) \/ (v = JNumber x /\ text = print_double x) -> text <> [] -> zlen text <= NUMBER_MAX_LEN ->
  text_of f T -> zlen T + 32 <= FACTORY_LIMIT ->
  exists f', sxe_jitson_number_build_json (mk_ptr b i) (mk_writer h f) = Ret (true, mk_writer h f') /\ text_of f' (T ++ text).
Proof.
  intros Hl Hw Hv Hne Hlen Hf Hlim. unfold NUMBER_MAX_LEN in *. unfold sxe_jitson_number_build_json, NUMBER_MAX_LEN.
  destruct (number_value_at _ _ _ _ _ _ _ x Hl Hw ltac:(destruct Hv as [[-> _]|[-> _]]; auto)) as (type & Et & Ef & Ei).
  destruct (reserve_room f T 24 Hf ltac:(lia) ltac:(lia)) as [(f1 & E1 & Hf1)|[_ Ho]]; [|by apply not_out_of_memory in Ho].
  rewrite (cmd_bind_ret _ _ _ _ _ (on_factory_ret _ (mk_writer h f) _ _ E1)). cbn [w_heap].
  rewrite (cmd_bind_ret _ _ _ _ _ (on_heap_ret _ (mk_writer h f1) _ _ Et)). cbn [w_factory].
  assert (En : (if has_flag type SXE_JITSON_TYPE_IS_UINT then sxe_jitson_get_uint (mk_ptr b i) else sxe_jitson_get_number (mk_ptr b i)) h = Ret (inl x, h)).
  { pose proof (value_gives _ _ _ _ _ _ _ Hl ltac:(by destruct Hv as [[-> _]|[-> _]]) Hw) as Hg. rewrite Ef. destruct Hv as [[-> _]|[-> _]]; exact Hg. }
  rewrite (cmd_bind_ret _ _ _ _ _ (on_heap_ret _ (mk_writer h f1) _ _ En)). cbn [w_factory].
  assert ((if has_flag type SXE_JITSON_TYPE_IS_UINT then print_uint x else print_double x) = text) as -> by (rewrite Ef; by destruct Hv as [[-> ->]|[-> ->]]).
  unfold vsnprintf. change (24 + 1 =? 0) with false. cbn iota. change (24 + 1 - 1) with 24. rewrite take_ge by (unfold zlen in Hlen; lia).
  destruct (store_text f1 T 24 (text ++ [0]) Hf1 ltac:(rewrite zlen_app; change (zlen [0]) with 1; lia)) as (f2 & room & E2 & Hf2 & Hd2).
  rewrite (cmd_bind_ret _ _ _ _ _ (on_factory_ret _ (mk_writer h f1) _ _ E2)). cbn [w_heap]. rewrite <-(assoc_L (++) text) in Hd2.
  replace (zlen text <=? 24) with true by lia. rewrite (lift_ret _ _ _ tt assert6_true).
  destruct (commit_text f2 T 24 text _ Hf2 Hd2 ltac:(lia) ltac:(lia)) as (f3 & E3 & Hf3). rewrite (cmd_bind_ret _ _ _ _ _ (on_factory_ret _ (mk_writer h f2) _ _ E3)). cbn [w_heap].
  exists f3. split; [|done]. apply (look_at _ _ _ Hf3). by intros [_ ?]%app_eq_nil.
Qed.

(** ** Values *)

(** Writing a value with [bj]: the text is added, and the value stays where it is. Blocks may be added for indexes. *)
Definition writes (bj : ptr -> cmd writer bool) (v : json) : Prop := forall h b i u m t T f,
  heap_ok h -> lies h b i u v m t -> fits_u32 v -> h_next h + 2 * size v <= BLOCKS -> text_of f T -> zlen T + zlen (print v) + 32 <= FACTORY_LIMIT ->
  exists h' f' m', bj (mk_ptr b i) (mk_writer h f) = Ret (true, mk_writer h' f') /\ lies h' b i u v m' t /\ heap_ok h' /\ grows b h h' /\
    h_next h' <= h_next h + 2 * size v - 1 /\ text_of f' (T ++ print v).

Definition writes_key (bj : ptr -> cmd writer bool) : Prop := forall h b i u k km x t T f,
  h_blocks h !! b = Some (u ++ km ++ t) -> zlen u = 16 * i -> key_memory k x km -> no_nul k -> is_u32 x -> is_u32 (16 * string_tokens (zlen k)) ->
  text_of f T -> zlen T + zlen (print_string k) + 32 <= FACTORY_LIMIT ->
  exists f', bj (mk_ptr b i) (mk_writer h f) = Ret (true, mk_writer h f') /\ text_of f' (T ++ print_string k).

Lemma some_block h : h_next h < BLOCKS -> ~ no_block h.
Proof. intros Hn [[n Hc]|Hc]; [by rewrite enough_memory in Hc|lia]. Qed.

(** *** Arrays *)

Lemma sizes_elem v l : v ∈ l -> size v <= sizes l.
Proof.
  induction l as [|w l IH]; intros Hin; [by apply not_elem_of_nil in Hin|]. cbn [sizes fold_right]. fold (sizes l). pose proof (zlen_sizes l). pose proof (zlen_nonneg l).
  destruct (image_size w). apply elem_of_cons in Hin as [->|Hin]; [lia|]. apply IH in Hin. lia.
Qed.

Lemma build_elements_at bj l2 : Forall (writes bj) l2 -> forall l1 h b i u m t T f,
  heap_ok h -> lies h b i u (JArray (l1 ++ l2)) m t -> fits_u32 (JArray (l1 ++ l2)) -> h_next h + 2 * sizes l2 + 1 <= BLOCKS ->
  text_of f T -> zlen T + zlen (joined (map print l2)) + 32 <= FACTORY_LIMIT ->
  exists h' f' m', build_elements bj (length l2) (mk_ptr b i) (zlen l1) (mk_writer h f) = Ret (tt, mk_writer h' f') /\
    lies h' b i u (JArray (l1 ++ l2)) m' t /\ heap_ok h' /\ grows b h h' /\ h_next h' <= h_next h + 2 * sizes l2 /\ text_of f' (T ++ joined (map print l2)).
Proof.
  induction 1 as [|v l2 Hv Hall IH]; intros l1 h b i u m t T f Hok Hl Hsz Hn Hf Hlim; cbn [length build_elements].
  { exists h, f, m. change (joined (map print [])) with (@nil Z). rewrite app_nil_r in *. split_and!; [done..|apply grows_refl|cbn [sizes fold_right]; lia|by rewrite ?app_nil_r]. }
  cbn [sizes fold_right] in Hn |- *. fold (sizes l2) in *. destruct (image_size v) as [_ Hv1]. pose proof (zlen_sizes l2). pose proof (zlen_nonneg l2). pose proof (zlen_nonneg l1).
  pose proof Hsz as Hsz'. unfold fits_u32, is_u32 in Hsz'. rewrite size_array in Hsz'. pose proof (zlen_sizes (l1 ++ v :: l2)) as Hzl. rewrite zlen_app, zlen_cons in Hzl.
  assert (Hvs : size v <= sizes (l1 ++ v :: l2)) by (apply sizes_elem; set_solver).
  assert (Hlk : (l1 ++ v :: l2) !! Z.to_nat (zlen l1) = Some v) by (unfold zlen; rewrite Nat2Z.id; by apply list_lookup_middle).
  pose proof (get_element_cases h b i u (l1 ++ v :: l2) m t (zlen l1) Hok Hl Hsz ltac:(unfold is_u32; lia)) as Hcases. rewrite Hlk in Hcases.
  destruct Hcases as [(h1 & m1 & E1 & Hl1 & Hok1 & Hg1 & Hn1)|[_ Hno]]; [|by apply some_block in Hno; [|lia]].
  rewrite (cmd_bind_ret _ _ _ _ _ (on_heap_ret _ (mk_writer h f) _ _ E1)). cbn [w_factory].
  destruct (lies_element h1 b i u (l1 ++ v :: l2) m1 t _ v Hl1 Hlk) as (pre & me & post & _ & He & Hback).
  cbn [map joined] in Hlim. rewrite zlen_app in Hlim. change (map print l2) with (print <$> l2) in *. pose proof (zlen_nonneg (concat (cons 44 <$> (print <$> l2)))).
  destruct (Hv h1 b _ _ me _ T f Hok1 He ltac:(unfold fits_u32, is_u32; lia) ltac:(lia) Hf ltac:(lia)) as (h2 & f2 & me2 & E2 & He2 & Hok2 & Hg2 & Hn2 & Hf2).
  rewrite (cmd_bind_ret _ _ _ _ _ E2). pose proof (Hback h2 me2 Hg2 He2) as Hl2. clear Hback.
  change (map print (v :: l2)) with (print v :: (print <$> l2)).
  assert (Hcomma : exists f3, (if (length l2 =? 0)%nat then mret tt else add [44]) (mk_writer h2 f2) = Ret (tt, mk_writer h2 f3) /\ text_of f3 (T ++ print v ++ if (length l2 =? 0)%nat then [] else [44])).
  { destruct (Nat.eqb_spec (length l2) 0) as [E0|Hne]; [exists f2; by rewrite app_nil_r|].
    destruct (add_at h2 f2 (T ++ print v) [44] Hf2 ltac:(done)) as (f3 & E3 & Hf3); [rewrite zlen_app; change (zlen [44]) with 1; lia|]. exists f3. by rewrite (assoc_L (++)). }
  destruct Hcomma as (f3 & E3 & Hf3). rewrite (cmd_bind_ret _ _ _ _ _ E3).
  destruct (IH (l1 ++ [v]) h2 b i u _ t _ f3 Hok2 ltac:(rewrite <-(assoc_L (++)); exact Hl2) ltac:(by rewrite <-(assoc_L (++))) ltac:(lia) Hf3) as (h4 & f4 & m4 & E4 & Hl4 & Hok4 & Hg4 & Hn4 & Hf4).
  { destruct l2 as [|x l2]; cbn [length Nat.eqb].
    - rewrite app_nil_r, zlen_app. change (joined (print <$> [])) with (@nil Z). change (zlen (@nil Z)) with 0.
      lia.
    - rewrite !zlen_app. change (zlen [44]) with 1. cbn [fmap list_fmap concat] in Hlim. rewrite zlen_app, zlen_cons in Hlim.
      change (joined (print <$> (x :: l2))) with (print x ++ concat (cons 44 <$> (print <$> l2))). rewrite zlen_app. lia. }
  rewrite zlen_app in E4. change (zlen [v]) with 1 in E4. rewrite <-(assoc_L (++)) in Hl4. exists h4, f4, m4.
  split_and!; [exact E4|exact Hl4|done|by eapply grows_trans, grows_trans|lia|]. rewrite <-!(assoc_L (++)) in Hf4. destruct l2; exact Hf4.
Qed.

(** *** Objects *)

Definition member_texts (l : list (list Z * json)) : list (list Z) := (fun kv => print_member (fst kv, print (snd kv))) <$> l.

Lemma member_sizes_perm l l' : l ≡ₚ l' -> member_sizes l = member_sizes l'.
Proof. induction 1; cbn [member_sizes fold_right]; [done|unfold member_sizes in *; lia|lia|lia]. Qed.

Lemma member_sizes_app l l' : member_sizes (l ++ l') = member_sizes l + member_sizes l'.
Proof. induction l as [|kv l IH]; [done|]. cbn [app member_sizes fold_right]. unfold member_sizes in *. lia. Qed.

Lemma member_sizes_elem kv l : kv ∈ l -> member_size kv <= member_sizes l.
Proof.
  induction l as [|kw l IH]; intros Hin; [by apply not_elem_of_nil in Hin|]. cbn [member_sizes fold_right]. fold (member_sizes l). pose proof (zlen_member_sizes l). pose proof (zlen_nonneg l).
  assert (0 <= member_size kw) by (unfold member_size; destruct (image_size (snd kw)); pose proof (string_tokens_pos (fst kw)); lia). apply elem_of_cons in Hin as [->|Hin]; [lia|]. apply IH in Hin. lia.
Qed.

Lemma chain_members n B l : snd <$> chain n B l = bucket_of_members n l B.
Proof.
  unfold chain, bucket_of_members. rewrite fmap_reverse. f_equal. etrans; [symmetry; by apply (filter_fmap snd (fun kv => bucket n (fst kv) = B))|]. f_equal.
  generalize 1. induction l as [|kv l IH]; intros off; [done|]. cbn [placed fmap list_fmap snd]. f_equal. apply IH.
Qed.

(** One member: its name, its value, and the next. *)
Lemma build_member_at bj l p o k v nx h b i u type w e t T f (first : bool) fuel :
  writes_key bj -> writes bj v -> indexed_object h b i u l type w e t -> heap_ok h -> fits_u32 (JObject l) ->
  placed 1 l !! p = Some (o, (k, v)) -> fst (object_index l) !! p = Some nx -> is_u32 nx -> h_next h + 2 * size v <= BLOCKS ->
  text_of f T -> zlen T + zlen (print_member (k, print v)) + 33 <= FACTORY_LIMIT ->
  exists h' f' e', build_bucket bj (S fuel) (mk_ptr b i) first o (mk_writer h f) = build_bucket bj fuel (mk_ptr b i) false nx (mk_writer h' f') /\
    indexed_object h' b i u l type w e' t /\ heap_ok h' /\ grows b h h' /\ h_next h' <= h_next h + 2 * size v - 1 /\
    text_of f' (T ++ (if first then [] else [44]) ++ print_member (k, print v)).
Proof.
  intros Hkey Hv Hio Hok Hsz Hp Hx Hnx Hn Hf Hlim. unfold print_member in Hlim. cbn [fst snd] in Hlim. rewrite zlen_app, zlen_cons in Hlim. pose proof (zlen_nonneg (print_string k)). pose proof (zlen_nonneg (print v)).
  destruct (placed_bounds _ _ _ _ _ _ Hp) as [Ho1 Ho2]. unfold fits_u32, is_u32 in Hsz. rewrite size_object in Hsz. unfold member_size in Ho2. cbn [fst snd] in Ho2.
  destruct (image_size v) as [_ Hv1]. pose proof (string_tokens_pos k) as Hk1.
  destruct (indexed_member h b i u l type w e t p o k v nx Hio Hp Hx) as (pre & km & me & post & Hb & Hu & Hkm & Hk & He & Hback).
  cbn [build_bucket]. rewrite (proj2 (Z.eqb_neq o 0)) by lia. unfold ptr_add. cbn [p_block p_index].
  assert (Hcomma : exists f1, (if first then mret tt else add [44]) (mk_writer h f) = Ret (tt, mk_writer h f1) /\ text_of f1 (T ++ if first then [] else [44])).
  { destruct first; [exists f; by rewrite app_nil_r|]. apply (add_at h f T [44] Hf); [done|change (zlen [44]) with 1; lia]. }
  destruct Hcomma as (f1 & E1 & Hf1). rewrite (cmd_bind_ret _ _ _ _ _ E1).
  assert (Hz1 : zlen (T ++ if first then [] else [44]) <= zlen T + 1) by (rewrite zlen_app; destruct first; [change (zlen (@nil Z)) with 0|change (zlen [44]) with 1]; lia).
  destruct (Hkey h b (i + o) _ k km nx _ _ f1 Hb Hu Hkm Hk Hnx ltac:(unfold is_u32; lia) Hf1 ltac:(lia)) as (f2 & E2 & Hf2). rewrite (cmd_bind_ret _ _ _ _ _ E2).
  destruct (add_at h f2 _ [58] Hf2 ltac:(done)) as (f3 & E3 & Hf3); [rewrite zlen_app; change (zlen [58]) with 1; lia|]. rewrite (cmd_bind_ret _ _ _ _ _ E3).
  rewrite (cmd_bind_ret _ _ _ _ _ (on_heap_ret _ (mk_writer h f3) _ _ (key_size h b (i + o) _ _ k km nx Hb Hu Hkm Hk ltac:(unfold is_u32; lia)))). cbn [w_factory].
  destruct (Hv h b _ _ me _ _ f3 Hok He ltac:(unfold fits_u32, is_u32; lia) ltac:(lia) Hf3) as (h4 & f4 & me4 & E4 & He4 & Hok4 & Hg4 & Hn4 & Hf4).
  { rewrite zlen_app, (zlen_app _ (print_string k)). change (zlen [58]) with 1. lia. }
  rewrite (cmd_bind_ret _ _ _ _ _ E4). destruct (Hback h4 me4 Hg4 He4) as (e4 & Hio4).
  assert (Hb4 : h_blocks h4 !! b = Some ((u ++ pre) ++ km ++ me4 ++ post ++ t)) by (rewrite (li_block _ _ _ _ _ _ _ He4); by rewrite <-!(assoc_L (++))).
  rewrite (cmd_bind_ret _ _ _ _ _ (on_heap_ret _ (mk_writer h4 f4) _ _ (key_link_at h4 b (i + o) _ _ k km nx Hb4 Hu Hkm Hnx))). cbn [w_factory].
  exists h4, f4, e4. split_and!; [done..|]. unfold print_member. cbn [fst snd]. by rewrite <-!(assoc_L (++)) in *.
Qed.

Lemma build_bucket_at bj l C : writes_key bj -> Forall (fun c => writes bj (snd (snd c))) C -> forall (first : bool) fuel s h b i u type w e t T f,
  indexed_object h b i u l type w e t -> heap_ok h -> fits_u32 (JObject l) -> walks (placed 1 l) (fst (object_index l)) s C -> (length C < fuel)%nat ->
  h_next h + 2 * member_sizes (snd <$> C) <= BLOCKS -> text_of f T -> zlen T + zlen (continued first (member_texts (snd <$> C))) + 33 <= FACTORY_LIMIT ->
  exists h' f' e', build_bucket bj fuel (mk_ptr b i) first s (mk_writer h f) = Ret (first && bool_decide (C = []), mk_writer h' f') /\
    indexed_object h' b i u l type w e' t /\ heap_ok h' /\ grows b h h' /\ h_next h' <= h_next h + 2 * member_sizes (snd <$> C) /\
    text_of f' (T ++ continued first (member_texts (snd <$> C))).
Proof.
  intros Hkey. induction 1 as [|[o [k v]] C Hv HC IH]; intros first fuel s h b i u type w e t T f Hio Hok Hsz Hw Hfuel Hn Hf Hlim; (destruct fuel as [|fuel]; [simpl in Hfuel; lia|]); cbn [walks fst] in Hw.
  { subst s. exists h, f, e. cbn [build_bucket]. rewrite Z.eqb_refl. rewrite bool_decide_true, andb_true_r by done.
    assert (Hnil : continued first (member_texts []) = []) by (by destruct first). change (snd <$> _) with (@nil (list Z * json)). rewrite Hnil, app_nil_r. split_and!; [done..|apply grows_refl|cbn [member_sizes fold_right]; lia|done]. }
  destruct Hw as (-> & p & nx & Hp & Hx & Hw). pose proof (walks_u32 _ _ _ _ Hsz Hw) as Hnx. cbn [fmap list_fmap snd] in *. unfold member_texts in Hlim |- *. cbn [fmap list_fmap fst snd] in Hlim |- *. fold (member_texts (snd <$> C)) in *.
  rewrite continued_cons in Hlim |- *. rewrite !zlen_app in Hlim. cbn [member_sizes fold_right] in Hn |- *. fold (member_sizes (snd <$> C)) in *. unfold member_size in *. cbn [fst snd] in *.
  destruct (image_size v) as [_ Hv1]. pose proof (string_tokens_pos k). pose proof (zlen_member_sizes (snd <$> C)). pose proof (zlen_nonneg (snd <$> C)). pose proof (zlen_nonneg (continued false (member_texts (snd <$> C)))).
  assert (Hz : 0 <= zlen (if first then [] else [44]) <= 1) by (destruct first; [change (zlen (@nil Z)) with 0|change (zlen [44]) with 1]; lia).
  destruct (build_member_at bj l p o k v nx h b i u type w e t T f first fuel Hkey Hv Hio Hok Hsz Hp Hx Hnx ltac:(lia) Hf ltac:(lia)) as (h1 & f1 & e1 & E1 & Hio1 & Hok1 & Hg1 & Hn1 & Hf1).
  destruct (IH false fuel nx h1 b i u type w e1 t _ f1 Hio1 Hok1 Hsz Hw ltac:(simpl in Hfuel; lia) ltac:(lia) Hf1) as (h2 & f2 & e2 & E2 & Hio2 & Hok2 & Hg2 & Hn2 & Hf2); [rewrite !zlen_app; lia|].
  exists h2, f2, e2. rewrite E1, bool_decide_false, andb_false_r by done. split_and!; [exact E2|done|done|by eapply grows_trans|lia|]. by rewrite <-!(assoc_L (++)) in *.
Qed.

Lemma member_texts_nil l : member_texts l = [] <-> l = [].
Proof. split; [by destruct l|by intros ->]. Qed.

Lemma member_texts_app l l' : member_texts (l ++ l') = member_texts l ++ member_texts l'.
Proof. apply fmap_app. Qed.

Lemma Forall_chain {P : json -> Prop} n B l : Forall (fun kv => P (snd kv)) l -> Forall (fun c => P (snd (snd c))) (chain n B l).
Proof.
  intros Hl. apply (Forall_fmap snd (fun kv : list Z * json => P (snd kv))). rewrite chain_members. unfold bucket_of_members. apply Forall_reverse, list.Forall_forall. intros kv [_ Hin]%list_elem_of_filter. by eapply list.Forall_forall in Hl.
Qed.

Lemma build_buckets_at bj l : writes_key bj -> Forall (fun kv => writes bj (snd kv)) l -> forall n B (first : bool) h b i u type w e t T f,
  let R := concat (bucket_of_members (zlen l) l <$> seqZ B (Z.of_nat n)) in
  indexed_object h b i u l type w e t -> heap_ok h -> fits_u32 (JObject l) -> 0 <= B -> B + Z.of_nat n = zlen l ->
  h_next h + 2 * member_sizes R <= BLOCKS -> text_of f T -> zlen T + zlen (continued first (member_texts R)) + 33 <= FACTORY_LIMIT ->
  exists h' f' e', build_buckets bj n (mk_ptr b i) (zlen l) B first (mk_writer h f) = Ret (first && bool_decide (R = []), mk_writer h' f') /\
    indexed_object h' b i u l type w e' t /\ heap_ok h' /\ grows b h h' /\ h_next h' <= h_next h + 2 * member_sizes R /\ text_of f' (T ++ continued first (member_texts R)).
Proof.
  intros Hkey Hall. induction n as [|n IH]; intros B first h b i u type w e t T f R Hio Hok Hsz HB Hn Hnext Hf Hlim; cbn [build_buckets].
  { assert (HR : R = []) by done. rewrite HR in *. exists h, f, e. rewrite bool_decide_true, andb_true_r by done. assert (Hnil : continued first (member_texts []) = []) by (by destruct first).
    rewrite Hnil, app_nil_r. split_and!; [done..|apply grows_refl|cbn [member_sizes fold_right]; lia|done]. }
  destruct (bucket_at h b i u l type w e t B Hio Hsz ltac:(lia)) as (s & Es & Hw). rewrite (cmd_bind_ret _ _ _ _ _ (on_heap_ret _ (mk_writer h f) _ _ Es)). cbn [w_factory].
  set (C := chain (zlen l) B l) in *. set (R' := concat (bucket_of_members (zlen l) l <$> seqZ (B + 1) (Z.of_nat n))).
  assert (HR : R = (snd <$> C) ++ R').
  { unfold R, C, R'. rewrite chain_members. rewrite seqZ_cons by lia. cbn [fmap list_fmap concat]. do 4 f_equal; lia. }
  rewrite HR in *. rewrite member_sizes_app, member_texts_app, continued_app in *. rewrite zlen_app in Hlim. set (first' := first && bool_decide (member_texts (snd <$> C) = [])) in *.
  assert (Hfirst : first && bool_decide (C = []) = first') by (unfold first'; f_equal; apply bool_decide_ext; rewrite member_texts_nil; by destruct C).
  pose proof (zlen_member_sizes (snd <$> C)). pose proof (zlen_nonneg (snd <$> C)). pose proof (zlen_member_sizes R'). pose proof (zlen_nonneg R').
  pose proof (zlen_nonneg (continued first' (member_texts R'))). pose proof (zlen_nonneg (continued first (member_texts (snd <$> C)))).
  assert (HlenC : (length C < S (Z.to_nat (zlen l)))%nat).
  { unfold C, chain. rewrite length_reverse. eapply Nat.le_lt_trans; [apply length_filter|]. rewrite placed_length. unfold zlen. lia. }
  destruct (build_bucket_at bj l C Hkey (Forall_chain _ _ _ Hall) first _ s h b i u type w e t T f Hio Hok Hsz Hw HlenC ltac:(lia) Hf ltac:(lia)) as (h1 & f1 & e1 & E1 & Hio1 & Hok1 & Hg1 & Hn1 & Hf1).
  rewrite (cmd_bind_ret _ _ _ _ _ E1), Hfirst.
  pose proof (IH (B + 1) first' h1 b i u type w e1 t (T ++ continued first (member_texts (snd <$> C))) f1 Hio1 Hok1 Hsz ltac:(lia) ltac:(lia)) as IH'. fold R' in IH'.
  destruct (IH' ltac:(lia) Hf1 ltac:(rewrite zlen_app; lia)) as (h2 & f2 & e2 & E2 & Hio2 & Hok2 & Hg2 & Hn2 & Hf2).
  exists h2, f2, e2. rewrite E2. split_and!; [|done|done|by eapply grows_trans|lia|by rewrite (assoc_L (++))].
  do 2 f_equal. unfold first'. rewrite <-andb_assoc, <-bool_decide_and. f_equal. apply bool_decide_ext. rewrite member_texts_nil. split; [by intros [-> ->]|apply app_eq_nil].
Qed.

Lemma object_indexed h b i u l m t f : heap_ok h -> lies h b i u (JObject l) m t -> fits_u32 (JObject l) -> 0 < zlen l -> h_next h < BLOCKS ->
  exists flags h' type w e, jget (mk_ptr b i) get_type h = Ret (flags, h) /\
    (if has_flag flags SXE_JITSON_TYPE_INDEXED then mret tt else r ← on_heap (sxe_jitson_object_get_member (mk_ptr b i) [0] 0); mret tt) (mk_writer h f) = Ret (tt, mk_writer h' f) /\
    indexed_object h' b i u l type w e t /\ heap_ok h' /\ grows b h h' /\ h_next h' <= h_next h + 1.
Proof.
  intros Hok Hl Hsz Hl0 Hn. pose proof Hl as [Hb Hu Hs]. inversion Hs as [? ? ? ? Hv| |l' indexed type w e He Hw]; subst; [done|].
  destruct (collection_word_type _ _ _ _ _ _ _ (or_intror eq_refl) Hw) as (Hty & _ & Hf). rewrite <-!(assoc_L (++)) in Hb. exists type. destruct indexed.
  - exists h, type, w, e. rewrite Hf. split_and!; [by apply (type_of_token _ _ _ _ _ _ Hb Hu Hty)|done|by split|done|apply grows_refl|lia].
  - destruct (get_member_cases h b i u l _ t [0] 0 [] Hok Hl Hsz) as [(h1 & m1 & r & E & _ & Hok1 & Hg1 & Hn1 & Hio & _)|[_ Hno]]; [split; [done|by left]| |by apply some_block in Hno].
    destruct (Hio Hl0) as (type1 & w1 & e1 & Hio1). exists h1, type1, w1, e1. rewrite Hf.
    split_and!; [by apply (type_of_token _ _ _ _ _ _ Hb Hu Hty)| |done..]. by rewrite (cmd_bind_ret _ _ _ _ _ (on_heap_ret _ (mk_writer h f) _ _ E)).
Qed.

(** *** All values *)

Section Values.
Context {double_ok : Z -> Prop} {reread : Z -> number} `{!PrintLaw double_ok reread}.

Lemma build_dispatch fuel h b i u v m t f : lies h b i u v m t ->
  sxe_jitson_build_json (S fuel) (mk_ptr b i) (mk_writer h f) = type_build_json (sxe_jitson_build_json fuel) (type_of v) (mk_ptr b i) (mk_writer h f).
Proof.
  intros Hl. destruct (value_type _ _ _ _ _ _ _ Hl) as (type & Et & Emask). cbn [sxe_jitson_build_json].
  rewrite (cmd_bind_ret _ _ _ _ _ (on_heap_ret _ (mk_writer h f) _ _ Et)). cbn [w_factory]. by rewrite Emask, (type_not_reference _ _ _ _ _ _ _ Hl).
Qed.

Lemma build_key fuel : writes_key (sxe_jitson_build_json (S fuel)).
Proof.
  intros h b i u k km x t T f Hb Hu Hkm Hk Hx Hz Hf Hlim. cbn [sxe_jitson_build_json].
  rewrite (cmd_bind_ret _ _ _ _ _ (on_heap_ret _ (mk_writer h f) _ _ (key_type_at h b i u t k km x Hb Hu Hkm))). cbn [w_factory].
  change (Z.land key_type SXE_JITSON_TYPE_MASK) with SXE_JITSON_TYPE_STRING. decide_types. unfold type_build_json. decide_types.
  destruct (key_bytes h b i u t k km x Hb Hu Hkm) as [r Er]. pose proof (key_len_small k Hz).
  apply (string_json_at h _ _ k r None f T (key_len h b i u t k km x Hb Hu Hkm Hk) (key_get_string h b i u t k km x Hb Hu Hkm Hk false) Er); [unfold is_u32; lia|done|lia].
Qed.

(** A value that is written without a change to the heap. *)
Lemma scalar_writes fuel v : (forall h b i u m t T f, lies h b i u v m t -> fits_u32 v -> text_of f T -> zlen T + zlen (print v) + 32 <= FACTORY_LIMIT ->
    exists f', type_build_json (sxe_jitson_build_json fuel) (type_of v) (mk_ptr b i) (mk_writer h f) = Ret (true, mk_writer h f') /\ text_of f' (T ++ print v)) ->
  writes (sxe_jitson_build_json (S fuel)) v.
Proof.
  intros Hv h b i u m t T f Hok Hl Hsz Hn Hf Hlim. destruct (image_size v) as [_ Hv1]. destruct (Hv h b i u m t T f Hl Hsz Hf Hlim) as (f' & E & Hf').
  exists h, f', m. rewrite (build_dispatch _ _ _ _ _ _ _ _ _ Hl). split_and!; [done|done|done|apply grows_refl|lia|done].
Qed.

Lemma array_writes fuel l : Forall (writes (sxe_jitson_build_json fuel)) l -> writes (sxe_jitson_build_json (S fuel)) (JArray l).
Proof.
  intros Hall h b i u m t T f Hok Hl Hsz Hn Hf Hlim. rewrite (build_dispatch _ _ _ _ _ _ _ _ _ Hl). unfold type_build_json. decide_types. unfold sxe_jitson_array_build_json.
  cbn [print] in Hlim |- *. rewrite zlen_cons, zlen_app in Hlim. change (zlen [93]) with 1 in Hlim. pose proof (zlen_nonneg (joined (map print l))). rewrite size_array in *.
  destruct (add_at h f T [91] Hf ltac:(done) ltac:(change (zlen [91]) with 1; lia)) as (f1 & E1 & Hf1). rewrite (cmd_bind_ret _ _ _ _ _ E1).
  pose proof (zlen_sizes l). pose proof (zlen_nonneg l). pose proof Hsz as Hsz'. unfold fits_u32, is_u32 in Hsz'. rewrite size_array in Hsz'.
  assert (En : jget (mk_ptr b i) get_len h = Ret (zlen l, h)).
  { destruct Hl as [Hb Hu Hs]. inversion Hs as [? ? ? ? Hsc|? ? ? ? ? He Hw|]; subst; [done|]. rewrite <-!(assoc_L (++)) in Hb. apply (word_of_token _ _ _ _ _ _ _ Hb Hu eq_refl). unfold is_u32. lia. }
  rewrite (cmd_bind_ret _ _ _ _ _ (on_heap_ret _ (mk_writer h f1) _ _ En)). cbn [w_factory]. assert (Z.to_nat (zlen l) = length l) as -> by (unfold zlen; lia).
  destruct (build_elements_at _ l Hall [] h b i u m t (T ++ [91]) f1 Hok Hl Hsz ltac:(lia) Hf1) as (h2 & f2 & m2 & E2 & Hl2 & Hok2 & Hg2 & Hn2 & Hf2); [rewrite zlen_app; change (zlen [91]) with 1; lia|].
  change (zlen (@nil json)) with 0 in E2. rewrite (cmd_bind_ret _ _ _ _ _ E2).
  destruct (add_look h2 f2 _ [93] Hf2 ltac:(done)) as (f3 & E3 & Hf3); [rewrite !zlen_app; change (zlen [91]) with 1; change (zlen [93]) with 1; lia|].
  exists h2, f3, m2. rewrite <-!(assoc_L (++)) in Hf3. split_and!; [exact E3|exact Hl2|done|done|lia|exact Hf3].
Qed.

Lemma print_object l : print (JObject l) = 123 :: continued true (member_texts (in_buckets l)) ++ [125].
Proof. cbn [print]. rewrite in_buckets_fmap, map_map. done. Qed.

Lemma object_writes fuel l : (l <> [] -> writes_key (sxe_jitson_build_json fuel)) -> Forall (fun kv => writes (sxe_jitson_build_json fuel) (snd kv)) l ->
  writes (sxe_jitson_build_json (S fuel)) (JObject l).
Proof.
  intros Hkey Hall h b i u m t T f Hok Hl Hsz Hn Hf Hlim. rewrite (build_dispatch _ _ _ _ _ _ _ _ _ Hl). unfold type_build_json. decide_types. unfold sxe_jitson_object_build_json.
  rewrite print_object in Hlim |- *. rewrite zlen_cons, zlen_app in Hlim. change (zlen [125]) with 1 in Hlim. pose proof (zlen_nonneg (continued true (member_texts (in_buckets l)))). rewrite size_object in *.
  pose proof (zlen_member_sizes l). pose proof (zlen_nonneg l). pose proof Hsz as Hsz'. unfold fits_u32, is_u32 in Hsz'. rewrite size_object in Hsz'.
  assert (En : jget (mk_ptr b i) get_len h = Ret (zlen l, h)).
  { pose proof Hl as [Hb Hu Hs]. inversion Hs as [? ? ? ? Hsc| |? ? ? ? ? He Hw]; subst; [done|]. rewrite <-!(assoc_L (++)) in Hb. apply (word_of_token _ _ _ _ _ _ _ Hb Hu eq_refl). unfold is_u32. lia. }
  rewrite (cmd_bind_ret _ _ _ _ _ (on_heap_ret _ (mk_writer h f) _ _ En)). cbn [w_factory]. destruct (Z.eqb_spec (zlen l) 0) as [E0|Hne].
  { destruct (add_look h f T [123; 125] Hf ltac:(done) ltac:(change (zlen [123; 125]) with 2; lia)) as (f' & E & Hf'). assert (l = []) as -> by (destruct l; [done|rewrite zlen_cons in E0; pose proof (zlen_nonneg l); lia]).
    exists h, f', m. split_and!; [exact E|done|done|apply grows_refl|lia|exact Hf']. }
  destruct (object_indexed h b i u l m t f Hok Hl Hsz ltac:(lia) ltac:(lia)) as (flags & h1 & type & w & e & Et & E1 & Hio1 & Hok1 & Hg1 & Hn1).
  rewrite (cmd_bind_ret _ _ _ _ _ (on_heap_ret _ (mk_writer h f) _ _ Et)). cbn [w_factory]. rewrite (cmd_bind_ret _ _ _ _ _ E1).
  destruct (add_at h1 f T [123] Hf ltac:(done) ltac:(change (zlen [123]) with 1; lia)) as (f2 & E2 & Hf2). rewrite (cmd_bind_ret _ _ _ _ _ E2).
  assert (Hnat : Z.of_nat (Z.to_nat (zlen l)) = zlen l) by lia. pose proof (member_sizes_perm _ _ (in_buckets_perm l)) as Hms.
  pose proof (build_buckets_at _ l (Hkey ltac:(by intros ->)) Hall (Z.to_nat (zlen l)) 0 true h1 b i u type w e t (T ++ [123]) f2 Hio1 Hok1 Hsz ltac:(lia) ltac:(lia)) as Hloop.
  rewrite Hnat in Hloop. fold (in_buckets l) in Hloop. rewrite Hms in Hloop.
  destruct (Hloop ltac:(lia) Hf2 ltac:(rewrite zlen_app; change (zlen [123]) with 1; lia)) as (h3 & f3 & e3 & E3 & Hio3 & Hok3 & Hg3 & Hn3 & Hf3). rewrite (cmd_bind_ret _ _ _ _ _ E3).
  destruct (add_look h3 f3 _ [125] Hf3 ltac:(done)) as (f4 & E4 & Hf4); [rewrite !zlen_app; change (zlen [123]) with 1; change (zlen [125]) with 1; lia|].
  eexists h3, f4, _. rewrite <-!(assoc_L (++)) in Hf4. split_and!; [exact E4|apply Hio3|done|by eapply grows_trans|lia|exact Hf4].
Qed.

Lemma build_writes v : forall fuel, printable double_ok v -> (Z.to_nat (size v) <= fuel)%nat -> writes (sxe_jitson_build_json fuel) v.
Proof.
  induction v as [|x|x|x|s|l IH|l IH] using json_ind'; intros fuel Hp Hfuel;
    (destruct fuel as [|fuel]; [match type of Hfuel with (Z.to_nat (size ?v) <= _)%nat => destruct (image_size v); lia end|]).
  - apply scalar_writes. intros h b i u m t T f Hl _ Hf Hlim. unfold type_build_json. decide_types. cbn [print] in *. apply add_look; (done || lia).
  - apply scalar_writes. intros h b i u m t T f Hl _ Hf Hlim. unfold type_build_json. decide_types. unfold sxe_jitson_bool_build_json.
    rewrite (cmd_bind_ret _ _ _ _ _ (on_heap_ret _ (mk_writer h f) _ _ (bool_value _ _ _ _ _ _ _ Hl))). cbn [w_factory print] in *. destruct x; apply add_look; (done || lia).
  - apply scalar_writes. intros h b i u m t T f Hl _ Hf Hlim. unfold type_build_json. decide_types. cbn [print] in *. pose proof (zlen_nonneg (print_uint x)). destruct (print_uint_spec x Hp) as ([Hd _] & Hlen & _).
    apply (number_json_at h b i u (JUint x) m t f T x); [done|exact Hp|by left|done|unfold NUMBER_MAX_LEN; lia|done|lia].
  - apply scalar_writes. intros h b i u m t T f Hl _ Hf Hlim. unfold type_build_json. decide_types. destruct Hp as [Hx Hd]. cbn [print] in *. pose proof (zlen_nonneg (print_double x)). destruct (print_law x Hd) as (E & Hn & Hlen).
    apply (number_json_at h b i u (JNumber x) m t f T x); [done|exact Hx|by right|rewrite E; by apply number_not_empty|done|done|lia].
  - apply scalar_writes. intros h b i u m t T f Hl Hsz Hf Hlim. unfold type_build_json. decide_types. destruct (string_value _ _ _ _ _ _ _ Hl Hsz) as (c & r & Eg & Eb & El).
    cbn [print] in *. apply (string_json_at h _ c s r None f T El (Eg false) Eb); [|done|lia].
    unfold fits_u32, is_u32, size in *. cbn [image] in Hsz. rewrite string_image_zlen in Hsz. pose proof (zlen_nonneg s). unfold string_tokens in Hsz. Z.to_euclidean_division_equations; lia.
  - apply array_writes. rewrite size_array in Hfuel. apply printable_array in Hp. rewrite list.Forall_forall in IH, Hp |- *. intros v Hin.
    apply IH; [done|by apply Hp|]. apply sizes_elem in Hin. lia.
  - rewrite size_object in Hfuel. apply printable_object in Hp. rewrite list.Forall_forall in IH, Hp. pose proof (zlen_member_sizes l). pose proof (zlen_nonneg l). apply object_writes.
    + intros Hne. destruct fuel as [|fuel]; [|apply build_key]. destruct l; [done|]. rewrite zlen_cons in *. pose proof (zlen_nonneg l). lia.
    + apply list.Forall_forall. intros kv Hin. apply IH; [done|by apply Hp|]. apply member_sizes_elem in Hin. unfold member_size in Hin. pose proof (string_tokens_pos (fst kv)). lia.
Qed.

Lemma remove_text f T : text_of f T -> T <> [] -> exists f', sxe_factory_remove f = Ret ((Some (T ++ [0]), zlen T), f').
Proof.
  intros [Hl Hs _ Hd] HT. unfold sxe_factory_remove. destruct (f_data f) as [d|]; [|done]. destruct Hd as (Hz & junk & ->). cbn [default from_option id]. eexists.
  unfold mret, outcome_ret. do 3 f_equal; [|exact Hl]. rewrite zlen_app, zlen_cons in Hz. pose proof (zlen_nonneg junk). pose proof (zlen_nonneg T). rewrite Hl. destruct (Z.ltb_spec (zlen T + 1) (f_size f)) as [Hlt|Hge].
  - unfold sxe_realloc. rewrite enough_memory. f_equal. rewrite zlen_app, zlen_cons. unfold fresh_bytes. replace (Z.to_nat (zlen T + 1 - (zlen T + (1 + zlen junk)))) with 0%nat by lia.
    cbn [seq fmap list_fmap]. rewrite app_nil_r. replace (Z.to_nat (zlen T + 1)) with (length T + 1)%nat by (unfold zlen; lia). by rewrite take_app_add.
  - destruct junk; [done|]. rewrite zlen_cons in *. pose proof (zlen_nonneg junk). lia.
Qed.

Lemma print_not_empty v : printable double_ok v -> print v <> [].
Proof.
  destruct v as [|[]|x|x|s|l|l]; cbn [printable]; try done.
  - intros Hx. by destruct (print_uint_spec x Hx) as ([? _] & _).
  - intros [_ Hx]. destruct (print_law x Hx) as (E & Hn & _). cbn [print]. rewrite E. by apply number_not_empty.
Qed.

Lemma to_json_at h b i u v m t :
  heap_ok h -> lies h b i u v m t -> fits_u32 v -> printable double_ok v -> h_next h + 2 * size v <= BLOCKS -> zlen (print v) + 32 <= FACTORY_LIMIT ->
  exists h' m', sxe_jitson_to_json (mk_ptr b i) h = Ret ((Some (print v ++ [0]), zlen (print v)), h') /\ lies h' b i u v m' t /\ heap_ok h' /\ grows b h h'.
Proof.
  intros Hok Hl Hsz Hp Hn Hlim. unfold sxe_jitson_to_json. cbn [p_block]. pose proof Hl as [Hb Hu Hs]. rewrite Hb. cbn [load mbind outcome_bind mret outcome_ret].
  pose proof (stored_zlen _ _ _ Hs) as Hz. assert (Hfuel : (Z.to_nat (size v) <= S (length (u ++ m ++ t)))%nat) by (rewrite !length_app; unfold zlen in Hz; lia).
  destruct (build_writes v _ Hp Hfuel h b i u m t [] (sxe_factory_alloc_make 0 0) Hok Hl Hsz Hn ltac:(by apply make_text)) as (h' & f' & m' & E & Hl' & Hok' & Hg & _ & Hf'); [change (zlen (@nil Z)) with 0; lia|].
  rewrite E. cbn [w_factory w_heap app mbind outcome_bind] in *. destruct (remove_text f' (print v) Hf' (print_not_empty v Hp)) as (f2 & E2). rewrite E2.
  exists h', m'. by split_and!.
Qed.

(** ** Properties *)

(** C24: With memory enough, sxe_jitson_to_json gives the text of a stored value, terminated, and its
    length: every string quoted and escaped, every element and member written once, in the order of
    the array or of the object's index. It adds indexes where there were none, and leaves the value as it is. *)
Theorem to_json_spec h b i u v m t :
  heap_ok h -> lies h b i u v m t -> fits_u32 v -> printable double_ok v -> h_next h + 2 * size v <= BLOCKS -> zlen (print v) + 32 <= FACTORY_LIMIT ->
  exists h' m', sxe_jitson_to_json (mk_ptr b i) h = Ret ((Some (print v ++ [0]), zlen (print v)), h') /\ lies h' b i u v m' t /\ heap_ok h' /\ grows b h h'.
Proof. apply to_json_at. Qed.

(** C23: Writing a value and parsing the text gives the value, when every allocation succeeds (without memory for an index the writer faults). The value is stored in a block, its strings are of bytes, its integers of 64 bits, its doubles ones
    that printf prints as the text of a number ([double_ok]: not NaN and not an infinity), neither its size nor the text overflow 32 bits, and the heap has addresses for the indexes (at most two for each token). The text that sxe_jitson_to_json gives is then one that
    sxe_jitson_stack_parse_json loads up to its end, onto any stack with room for it, as the value written, up to what printf and strtod do to doubles
    and to the order of an object's members. If no two members have the same name, every name has the value it had. *)
Theorem json_roundtrip double `{!StrtodLaw double} h b i u v m t :
  heap_ok h -> lies h b i u v m t -> fits_u32 v -> printable double_ok v -> h_next h + 2 * size v <= BLOCKS -> 16 * zlen (print v) <= 16 * LIMIT ->
  let reread_value d := number_value double (reread d) in
  exists text h' m', sxe_jitson_to_json (mk_ptr b i) h = Ret ((Some (text ++ [0]), zlen text), h') /\ lies h' b i u v m' t /\
    (forall o s base junk, stack_holds o s base -> zlen base + 16 * zlen text <= 16 * LIMIT ->
      parse_gives o base (zlen text) (reread_json reread_value v) (sxe_jitson_stack_parse_json SXE_JITSON_FLAG_STRICT (text ++ 0 :: junk) s)) /\
    (forall l l' name, v = JObject l -> NoDup l.*1 -> reread_json reread_value v = JObject l' -> last_value name l' = reread_json reread_value <$> last_value name l).
Proof.
  intros Hok Hl Hsz Hp Hn Hlim reread_value. assert (HL : LIMIT + 32 <= FACTORY_LIMIT) by (vm_compute; discriminate).
  destruct (to_json_at h b i u v m t Hok Hl Hsz Hp Hn ltac:(lia)) as (h' & m' & E & Hl' & _). exists (print v), h', m'. split_and!; [done|done| |intros l l' name ->; apply reread_lookup].
  intros o s base junk Hs Hbase. destruct (print_text (double := double) v Hp) as [Ht Hnul]. pose proof (parse_json_cases (double := double) o s base (print v) junk Hs Hnul Hbase) as Hcases.
  unfold parse in Hcases. pose proof (proj1 (text_parses double) _ _ Ht) as Hparse. specialize (Hparse (S (length (print v))) [] []). rewrite !app_nil_r in Hparse. cbn [app] in Hparse. rewrite Hparse in Hcases by (done || constructor || lia).
  change (zlen (@nil Z)) with 0 in Hcases. rewrite Z.sub_0_r in Hcases. destruct Hcases as [Hg|[_ Ho]]; [exact Hg|by apply not_out_of_memory in Ho].
Qed.
End Values.
End Write.

(** ** Examples *)
Section Examples.
Local Existing Instances access_build access_env access_library example_law.

Definition example_reread (d : Z) : number := mk_number false [48] None None.
Local Instance example_print : PrintLaw (fun _ => True) example_reread.
Proof. intros d _. split_and!; [done|split; [split; [done|by repeat constructor]|done|done]|done]. Qed.

(** {"k": [true, 7], "a": null} *)
Definition named_object : list (list Z * json) := [([107], JArray example_array); ([97], JNull)].
Definition named_memory : list Z :=
  token SXE_JITSON_TYPE_OBJECT 2 (bytes64 7) ++ example_key 107 ++ example_array_memory ++ example_key 97 ++ token SXE_JITSON_TYPE_NULL 0 (bytes64 0).
Definition named_heap : heap := mk_heap {[1 := named_memory]} 2.

Lemma named_heap_ok : heap_ok named_heap.
Proof. split; [done|]. intros b m Hb. unfold named_heap in Hb. cbn [h_blocks] in Hb. apply lookup_singleton_Some in Hb as [<- _]. done. Qed.
Lemma named_lies : lies named_heap 1 0 [] (JObject named_object) named_memory [].
Proof. split; [reflexivity|done|]. apply image_stored; [vm_compute; repeat constructor|]. repeat split; by repeat constructor. Qed.
Lemma named_printable : printable (fun _ => True) (JObject named_object).
Proof. repeat split; by repeat constructor. Qed.

Lemma to_json_spec_witness : exists h' m',
  sxe_jitson_to_json (mk_ptr 1 0) named_heap = Ret ((Some (print (JObject named_object) ++ [0]), zlen (print (JObject named_object))), h') /\
  lies h' 1 0 [] (JObject named_object) m' [] /\ heap_ok h' /\ grows 1 named_heap h'.
Proof.
  refine (to_json_spec (fun _ => eq_refl) named_heap 1 0 [] (JObject named_object) named_memory [] named_heap_ok named_lies _ named_printable _ _); [done|done|done].
Defined.

(** It is {"a":null,"k":[true,7]}: both keys are in one bucket, and the last one is its first. *)
Lemma named_text : print (JObject named_object) = [123; 34; 97; 34; 58; 110; 117; 108; 108; 44; 34; 107; 34; 58; 91; 116; 114; 117; 101; 44; 55; 93; 125].
Proof. vm_compute. reflexivity. Qed.

Lemma json_roundtrip_witness : exists text h' m',
  sxe_jitson_to_json (mk_ptr 1 0) named_heap = Ret ((Some (text ++ [0]), zlen text), h') /\ lies h' 1 0 [] (JObject named_object) m' [] /\
  (forall o s base junk, stack_holds o s base -> zlen base + 16 * zlen text <= 16 * LIMIT ->
    parse_gives o base (zlen text) (reread_json (fun d => number_value example_double (example_reread d)) (JObject named_object))
      (sxe_jitson_stack_parse_json SXE_JITSON_FLAG_STRICT (text ++ 0 :: junk) s)) /\
  (forall l l' name, JObject named_object = JObject l -> NoDup l.*1 -> reread_json (fun d => number_value example_double (example_reread d)) (JObject named_object) = JObject l' ->
    last_value name l' = reread_json (fun d => number_value example_double (example_reread d)) <$> last_value name l).
Proof.
  refine (json_roundtrip (fun _ => eq_refl) example_double named_heap 1 0 [] (JObject named_object) named_memory [] named_heap_ok named_lies _ named_printable _ _); [done|done|].
  vm_compute. discriminate.
Defined.

(** ** What modelling showed *)

(** Two members of one name change places when they are written, so that the text gives the name another value. *)
Lemma duplicate_changes_value :
  last_value [97] example_object = Some (JBool false) /\
  exists l, reread_json (fun d => number_value example_double (example_reread d)) (JObject example_object) = JObject l /\ last_value [97] l = Some (JArray example_array).
Proof. split; [vm_compute; reflexivity|]. eexists. split; vm_compute; reflexivity. Qed.
End Examples.

Section NoMemory.
Local Existing Instances access_build access_library.
Local Instance little_memory : Env := {|
  can_alloc := fun n => negb (n =? 12); fresh_byte := fun _ => 170; strtod := fun _ => (0, 0); jitson_constants := None;
  sxe_jitson_clone := fun l => (true, l); SXE_JITSON_TYPE_IDENT := None
|}.

(** With no memory for the index of an array, writing the array uses the NULL that it is given. *)
Lemma array_without_memory : sxe_jitson_to_json (mk_ptr 1 0) (mk_heap {[1 := example_array_memory]} 2) = Fault.
Proof. vm_compute. reflexivity. Qed.
End NoMemory.
