(* ===== verification/Objects.v ===== *)
(** * Objects: what the event layer and the server see of pools, lists and buffers

    The clients of lib-sxe-pool, lib-sxe-list and lib-sxe-buffer are modelled over what those components
    promise: a pool is the state machine [Pool.spec_step] ([pool_refines_spec]), a list a deque of the
    objects that it links ([list_refines_deque]), a buffer a counted string [Buffer.spec_op]
    ([buffer_refines_strings]). Each operation here is one step of such a specification on the object
    at an address; where the specification has no step, the code's assertion fails or memory is misused. *)

From S2P Require Import Prelude SxeList Pool Buffer.

(** Pools by their array, lists by their head, buffers and literals by their address; and
    the address at which the next pool is made. *)
Record objects := mk_objects {
  o_pools : gmap Z pool_spec;
  o_lists : gmap Z (list Z);
  o_strings : gmap Z astring;
  o_brk : Z
}.

Definition set_pools (f : gmap Z pool_spec -> gmap Z pool_spec) (o : objects) : objects :=
  mk_objects (f (o_pools o)) (o_lists o) (o_strings o) (o_brk o).
Definition set_lists (f : gmap Z (list Z) -> gmap Z (list Z)) (o : objects) : objects :=
  mk_objects (o_pools o) (f (o_lists o)) (o_strings o) (o_brk o).
Definition set_strings (f : gmap Z astring -> gmap Z astring) (o : objects) : objects :=
  mk_objects (o_pools o) (o_lists o) (f (o_strings o)) (o_brk o).

(** ** Pools *)

(** A step of the pool at [array]: its first result, or the assertion that it fails. Elements
    and states that the pool does not have are outside its memory. *)
Definition pool_call (array : Z) (op : pool_op) : cmd objects Z := fun o =>
  match o_pools o !! array with
  | Some s =>
      if op_ok s op then
        match spec_step s op with
        | Some (r, s') => Ret (hd 0 r, set_pools <[array := s']> o)
        | None => Abort
        end
      else Fault
  | None => Fault
  end.

Definition pool_set_state (array id old new : Z) : cmd objects Z :=
  pool_call array (SetState (Z.to_nat id) (Z.to_nat old) (Z.to_nat new)).
Definition pool_set_oldest (array old new : Z) : cmd objects Z :=
  pool_call array (SetOldest (Z.to_nat old) (Z.to_nat new)).
Definition pool_oldest_index (array state : Z) : cmd objects Z := pool_call array (OldestIndex (Z.to_nat state)).
Definition pool_oldest_time (array state : Z) : cmd objects Z := pool_call array (OldestStamp (Z.to_nat state)).
Definition pool_number_in (array state : Z) : cmd objects Z := pool_call array (NumberIn (Z.to_nat state)).
Definition pool_state_of (array id : Z) : cmd objects Z := pool_call array (StateOf (Z.to_nat id)).

(** A new pool with all of its elements in the first state ([sxe_pool_construct_spec]). [now] is
    the time of the clock, [size] the size of an element. *)
Definition pool_new (number size states : Z) (timed : bool) (now : Z) : cmd objects Z := fun o =>
  let s := mk_spec (new_pool (Z.to_nat number) (Z.to_nat states) timed now) timed now number in
  Ret (o_brk o, mk_objects (<[o_brk o := s]> (o_pools o)) (o_lists o) (o_strings o) (o_brk o + number * size + 1)).

(** ** Lists *)

(** The object is in a list. *)
Definition linked (o : objects) (x : Z) : bool :=
  existsb (fun lxs : Z * list Z => bool_decide (x ∈ lxs.2)) (map_to_list (o_lists o)).

Definition list_at (l : Z) : cmd objects (list Z) := fun o => lift (load (o_lists o !! l)) o.
Definition put_list (l : Z) (xs : list Z) : cmd objects unit := modify (set_lists <[l := xs]>).

Definition list_construct (l : Z) : cmd objects unit := put_list l [].
(** Linking an object that is linked already would corrupt both lists. *)
Definition list_push (l x : Z) : cmd objects unit :=
  xs ← list_at l;
  twice ← gets (fun o => linked o x);
  if (twice : bool) then lift Fault else put_list l (xs ++ [x]).
Definition list_shift (l : Z) : cmd objects Z :=
  xs ← list_at l;
  match xs with [] => mret NULL | x :: xs => put_list l xs;; mret x end.
Definition list_peek_head (l : Z) : cmd objects Z := xs ← list_at l; mret (hd NULL xs).
Definition list_peek_tail (l : Z) : cmd objects Z := xs ← list_at l; mret (List.last xs NULL).
Definition list_remove (l x : Z) : cmd objects unit :=
  xs ← list_at l;
  if bool_decide (x ∈ xs) then put_list l (filter (fun y => y <> x) xs) else lift Fault.
Definition list_is_empty (l : Z) : cmd objects bool := xs ← list_at l; mret (bool_decide (xs = [])).

(** The walker's next place: the first object from the head, else the one behind; the head
    stands for the end. *)
Fixpoint place_after (xs : list Z) (n l : Z) : option Z :=
  match xs with
  | [] => None
  | x :: xs => if x =? n then Some (hd l xs) else place_after xs n l
  end.

Definition walker_find (w : SXE_LIST_WALKER) : Z := if SxeList.w_node w =? w_list w then NULL else SxeList.w_node w.
Definition walker_step (w : SXE_LIST_WALKER) : cmd objects (Z * SXE_LIST_WALKER) :=
  xs ← list_at (w_list w);
  n ← lift (load (if SxeList.w_node w =? w_list w then Some (hd (w_list w) xs)
                  else place_after xs (SxeList.w_node w) (w_list w)));
  let w := mk_walker (w_list w) (SxeList.w_node w) n in
  mret (walker_find w, w).

(** ** Buffers *)

Definition string_op (x : Buffer.op) : cmd objects (list Z) := fun o =>
  match spec_op x (o_strings o) with
  | Ret (v, m) => Ret (v, set_strings (fun _ => m) o)
  | Abort => Abort
  | Fault => Fault
  end.

(** sxe_buffer_construct and sxe_buffer_construct_const over the characters [text] at [space]. *)
Definition string_construct (p space : Z) (text : list Z) (size : Z) (const : bool) : cmd objects unit :=
  lift (assert1 (constructible p space (zlen text) size));;
  modify (set_strings <[p := Counted (mk_counted text size false const false 0 space)]>).

(** sxe_buffer_cat of a literal. *)
Definition string_cat (p : Z) (text : list Z) : cmd objects unit := string_op (Memcpy p text (zlen text));; mret tt.
(** sxe_buffer_memcpy, sxe_buffer_printf and sxe_buffer_consume. *)
Definition string_memcpy (p : Z) (data : list Z) (len : Z) : cmd objects unit := string_op (Memcpy p data len);; mret tt.
Definition string_printf (p : Z) (text : list Z) : cmd objects Z := v ← string_op (Printf p text); mret (hd 0 v).
Definition string_consume (p n : Z) : cmd objects unit := string_op (Consume p n);; mret tt.
(** sxe_buffer_length, sxe_buffer_get_room and sxe_buffer_is_overflow. *)
Definition string_length (p : Z) : cmd objects Z := v ← string_op (Length p); mret (hd 0 v).
Definition string_room (p : Z) : cmd objects Z := v ← string_op (Room p); mret (hd 0 v).
Definition string_is_overflow (p : Z) : cmd objects bool := v ← string_op (IsOverflow p); mret (negb (hd 0 v =? 0)).
(** The characters that sxe_buffer_get_data and sxe_buffer_length give. *)
Definition string_read (p : Z) : cmd objects (list Z) := string_op (Read p).
(** The pointer that sxe_buffer_get_data gives: of the space and an offset; a literal is its own text. *)
Definition string_data (p : Z) : cmd objects Z := fun o =>
  match o_strings o !! p with
  | Some (Literal _) => Ret (p, o)
  | Some (Counted c) => Ret (c_space c + c_consumed c, o)
  | None => Fault
  end.

(** ** The state machine of a pool, for its clients *)

(** Every element is in exactly one queue. *)
Record pool_wf (a : pool_abs) : Prop := {
  pw_nodup : NoDup (concat (queues a));
  pw_all i : i ∈ concat (queues a) <-> (i < length (stamps a))%nat
}.

Definition queue_of (a : pool_abs) (k : nat) : list nat := default [] (queues a !! k).

Lemma queue_of_lookup a k q : queues a !! k = Some q -> queue_of a k = q.
Proof. unfold queue_of. by intros ->. Qed.

Lemma queue_of_elem a i k : i ∈ queue_of a k -> (k < length (queues a))%nat.
Proof. unfold queue_of. destruct (queues a !! k) eqn:E; simpl; [intros _; by eapply lookup_lt_Some|by intros ?%elem_of_nil]. Qed.

Section PoolWf.
Variable a : pool_abs.
Hypothesis W : pool_wf a.

Lemma state_of_iff i k : state_of a i = Some k <-> i ∈ queue_of a k.
Proof using W.
  unfold queue_of, state_of. destruct (list_find _ _) as [[k' q']|] eqn:F; simpl.
  - apply list_find_Some in F as (F & Hi & _). split; [intros [= <-]; by rewrite F|]. intros Hk.
    destruct (queues a !! k) eqn:E; simpl in Hk; [|by apply elem_of_nil in Hk]. f_equal.
    eapply concat_unique; [apply (pw_nodup _ W)|exact F|exact E|done|done].
  - split; [done|]. intros Hi. destruct (queues a !! k) as [q|] eqn:E; simpl in Hi; [|by apply elem_of_nil in Hi].
    apply list_find_None in F. rewrite list.Forall_forall in F. exfalso. eapply F; [|exact Hi]. by eapply list_elem_of_lookup_2.
Qed.

Lemma queue_of_bound i k : i ∈ queue_of a k -> (i < length (stamps a))%nat.
Proof using W.
  intros Hi. apply (pw_all _ W). apply concat_elem. unfold queue_of in Hi. exists k.
  destruct (queues a !! k); [eauto|by apply elem_of_nil in Hi].
Qed.

Lemma queue_of_unique i k k' : i ∈ queue_of a k -> i ∈ queue_of a k' -> k = k'.
Proof using W. intros H1%state_of_iff H2%state_of_iff. congruence. Qed.

Lemma queue_of_nodup k : NoDup (queue_of a k).
Proof using W.
  unfold queue_of. destruct (queues a !! k) eqn:E; simpl; [|constructor]. eapply concat_NoDup_in; [apply W|done].
Qed.

(** Moving an element to another state: the queues and the invariant. *)
Variables (i old new : nat) (t : Z).
Hypotheses (Hi : i ∈ queue_of a old) (Hne : old <> new) (Hnew : (new < length (queues a))%nat).

Lemma moved_queue k :
  queue_of (move i old new t a) k =
  if decide (k = new) then queue_of a new ++ [i]
  else if decide (k = old) then filter (fun j => j <> i) (queue_of a old) else queue_of a k.
Proof using Hne Hnew.
  unfold queue_of, move. simpl. destruct (decide (k = new)) as [->|H1].
  - rewrite list_lookup_alter_eq, list_lookup_alter_ne by done.
    destruct (lookup_lt_is_Some_2 _ _ Hnew) as [q ->]. done.
  - rewrite list_lookup_alter_ne by done. destruct (decide (k = old)) as [->|H2].
    + rewrite list_lookup_alter_eq. by destruct (queues a !! old).
    + by rewrite list_lookup_alter_ne.
Qed.

Lemma moved_in : i ∈ queue_of (move i old new t a) new.
Proof using Hnew.
  unfold queue_of, move. simpl. rewrite list_lookup_alter_eq.
  destruct (lookup_lt_is_Some_2 (alter (filter (fun j => j <> i)) old (queues a)) new) as [q ->]; [by rewrite length_alter|].
  apply elem_of_app. right. apply list_elem_of_here.
Qed.

Lemma move_length : length (queues (move i old new t a)) = length (queues a).
Proof using. unfold move. simpl. by rewrite !length_alter. Qed.

Lemma move_stamps : length (stamps (move i old new t a)) = length (stamps a).
Proof using. unfold move. simpl. by rewrite length_insert. Qed.

Lemma move_concat : concat (queues (move i old new t a)) ≡ₚ concat (queues a).
Proof using W Hi Hnew.
  unfold queue_of in Hi. destruct (queues a !! old) as [q|] eqn:E; simpl in Hi; [|by apply elem_of_nil in Hi].
  apply list_elem_of_split in Hi as (q1 & q2 & ->). unfold move. simpl.
  pose proof (pw_nodup _ W) as ND. pose proof (concat_NoDup_in _ _ _ ND E) as NDq.
  apply NoDup_app in NDq as (N1 & N12 & N2). apply NoDup_cons in N2 as [N2 _].
  assert (Ef : filter (fun j => j <> i) (q1 ++ i :: q2) = q1 ++ q2).
  { rewrite filter_app, filter_cons_False by auto. f_equal; apply filter_all; intros j Hj ->; [|done].
    by apply (N12 i Hj), list_elem_of_here. }
  assert (Ea : alter (filter (fun j => j <> i)) old (queues a) = <[old := q1 ++ q2]> (queues a)).
  { rewrite (alter_insert _ _ _ _ E). by rewrite Ef. }
  rewrite Ea, (concat_remove_perm _ _ _ _ _ E).
  assert ((new < length (<[old := q1 ++ q2]> (queues a)))%nat) as [q' E']%lookup_lt_is_Some_2 by by rewrite length_insert.
  rewrite (alter_insert _ _ _ _ E'). by apply concat_push_perm.
Qed.

Lemma move_wf : pool_wf (move i old new t a).
Proof using W Hi Hnew.
  split; [rewrite move_concat; apply W|]. intros j. rewrite move_stamps, move_concat. apply W.
Qed.
End PoolWf.

(** *** The calls *)

Lemma spec_move_abs i old new s : sp_abs (spec_move i old new s) = move i old new (spec_stamp s) (sp_abs s).
Proof. done. Qed.

Definition with_pool (array : Z) (s : pool_spec) : objects -> objects := set_pools <[array := s]>.

Section PoolCalls.
Variables (o : objects) (array : Z) (s : pool_spec).
Hypotheses (E : o_pools o !! array = Some s) (W : pool_wf (sp_abs s)).
Implicit Types i k old new : nat.

Lemma pool_state_of_ret i k :
  i ∈ queue_of (sp_abs s) k -> pool_state_of array (Z.of_nat i) o = Ret (Z.of_nat k, o).
Proof using E W.
  intros Hi. unfold pool_state_of, pool_call. rewrite E. simpl. rewrite Nat2Z.id.
  rewrite bool_decide_true by by eapply queue_of_bound. rewrite (proj2 (state_of_iff _ W i k)) by done. simpl.
  unfold set_pools. rewrite insert_id by done. by destruct o.
Qed.

Lemma pool_number_in_ret k :
  (k < length (queues (sp_abs s)))%nat ->
  pool_number_in array (Z.of_nat k) o = Ret (zlen (queue_of (sp_abs s) k), o).
Proof using E.
  intros Hk. unfold pool_number_in, pool_call. rewrite E. simpl. rewrite Nat2Z.id, bool_decide_true by done.
  destruct (lookup_lt_is_Some_2 _ _ Hk) as [q Eq]. rewrite Eq. simpl. unfold set_pools. rewrite insert_id by done.
  rewrite (queue_of_lookup _ _ _ Eq). by destruct o.
Qed.

Lemma pool_set_state_ret i old new :
  i ∈ queue_of (sp_abs s) old -> (new < length (queues (sp_abs s)))%nat ->
  pool_set_state array (Z.of_nat i) (Z.of_nat old) (Z.of_nat new) o
  = Ret (SXE_POOL_LOCK_TAKEN, with_pool array (spec_move i old new s) o).
Proof using E W.
  intros Hi Hn. unfold pool_set_state, pool_call. rewrite E. rewrite !Nat2Z.id. cbn [op_ok spec_step].
  rewrite bool_decide_true by (split_and!; [by eapply queue_of_bound|by eapply queue_of_elem|done]).
  by rewrite decide_True by by apply state_of_iff.
Qed.

(** Setting the state of an element that is in another one fails an assertion. *)
Lemma pool_set_state_abort i k old new :
  i ∈ queue_of (sp_abs s) k -> k <> old -> (old < length (queues (sp_abs s)))%nat ->
  (new < length (queues (sp_abs s)))%nat -> pool_set_state array (Z.of_nat i) (Z.of_nat old) (Z.of_nat new) o = Abort.
Proof using E W.
  intros Hi Hk Ho Hn. unfold pool_set_state, pool_call. rewrite E, !Nat2Z.id. cbn [op_ok spec_step].
  rewrite bool_decide_true by (split_and!; [by eapply queue_of_bound|done..]).
  rewrite decide_False; [done|]. apply state_of_iff in Hi; [|done]. congruence.
Qed.

Lemma pool_set_oldest_ret i q old new :
  queue_of (sp_abs s) old = i :: q -> (new < length (queues (sp_abs s)))%nat ->
  pool_set_oldest array (Z.of_nat old) (Z.of_nat new) o = Ret (Z.of_nat i, with_pool array (spec_move i old new s) o).
Proof using E.
  intros Hq Hn. unfold pool_set_oldest, pool_call. rewrite E, !Nat2Z.id. cbn [op_ok spec_step].
  assert (Ho : (old < length (queues (sp_abs s)))%nat) by (apply (queue_of_elem _ i); rewrite Hq; apply list_elem_of_here).
  rewrite bool_decide_true by done. destruct (lookup_lt_is_Some_2 _ _ Ho) as [q' Eq]. rewrite Eq.
  rewrite (queue_of_lookup _ _ _ Eq) in Hq. by subst q'.
Qed.

Lemma pool_set_oldest_none old new :
  queue_of (sp_abs s) old = [] -> (old < length (queues (sp_abs s)))%nat -> (new < length (queues (sp_abs s)))%nat ->
  pool_set_oldest array (Z.of_nat old) (Z.of_nat new) o = Ret (SXE_POOL_NO_INDEX, o).
Proof using E.
  intros Hq Ho Hn. unfold pool_set_oldest, pool_call. rewrite E, !Nat2Z.id. cbn [op_ok spec_step].
  rewrite bool_decide_true by done. destruct (lookup_lt_is_Some_2 _ _ Ho) as [q' Eq]. rewrite Eq.
  rewrite (queue_of_lookup _ _ _ Eq) in Hq. subst q'. simpl. unfold set_pools. rewrite insert_id by done. by destruct o.
Qed.
End PoolCalls.

(** ** Lists, for their clients *)

Lemma list_at_ret o l xs : o_lists o !! l = Some xs -> list_at l o = Ret (xs, o).
Proof. unfold list_at. by intros ->. Qed.

(** No list has the object. *)
Definition unlinked (o : objects) (x : Z) : Prop := forall l xs, o_lists o !! l = Some xs -> x ∉ xs.

Lemma linked_false o x : unlinked o x -> linked o x = false.
Proof.
  intros U. unfold linked. apply not_true_iff_false. intros H. apply existsb_exists in H as ([l xs] & Hin & Hx).
  apply list_elem_of_In, elem_of_map_to_list in Hin. by apply bool_decide_eq_true, (U l xs Hin) in Hx.
Qed.

Lemma list_push_ret o l xs x :
  o_lists o !! l = Some xs -> unlinked o x -> list_push l x o = Ret (tt, set_lists <[l := xs ++ [x]]> o).
Proof.
  intros E U. unfold list_push. rewrite (cmd_bind_ret _ _ _ _ _ (list_at_ret _ _ _ E)).
  unfold gets, mbind, cmd_bind. by rewrite (linked_false _ _ U).
Qed.

Lemma list_shift_ret o l x xs :
  o_lists o !! l = Some (x :: xs) -> list_shift l o = Ret (x, set_lists <[l := xs]> o).
Proof. intros E. unfold list_shift. by rewrite (cmd_bind_ret _ _ _ _ _ (list_at_ret _ _ _ E)). Qed.

(** The walker stands at the first object of [ys], behind [xs]. *)
Lemma walker_step_first o l b xs :
  o_lists o !! l = Some xs -> walker_step (mk_walker l b l) o = Ret (if hd l xs =? l then NULL else hd l xs, mk_walker l l (hd l xs), o).
Proof.
  intros E. unfold walker_step. rewrite (cmd_bind_ret _ _ _ _ _ (list_at_ret _ _ _ E)). cbn [w_list SxeList.w_node].
  by rewrite Z.eqb_refl.
Qed.

Lemma place_after_mid xs n ys l : n ∉ xs -> place_after (xs ++ n :: ys) n l = Some (hd l ys).
Proof.
  induction xs as [|x xs IH]; simpl; intros Hn; [by rewrite Z.eqb_refl|].
  apply not_elem_of_cons in Hn as [Hx Hn]. replace (x =? n) with false by lia. auto.
Qed.

Lemma walker_step_next o l b xs n ys :
  o_lists o !! l = Some (xs ++ n :: ys) -> n ∉ xs -> n <> l ->
  walker_step (mk_walker l b n) o = Ret (if hd l ys =? l then NULL else hd l ys, mk_walker l n (hd l ys), o).
Proof.
  intros E Hn Hl. unfold walker_step. rewrite (cmd_bind_ret _ _ _ _ _ (list_at_ret _ _ _ E)). cbn [w_list SxeList.w_node].
  replace (n =? l) with false by lia. by rewrite place_after_mid.
Qed.
