(* ===== verification/Sxe.v ===== *)
(** * Sxe: connections and their buffers (lib-sxe/sxe.c)

    An SXE is a socket, a libev watcher and an input buffer. This file has the data, the system
    calls, the input path (read events, the buffer, pausing and resuming, deferred events), and the life
    of an SXE (new, close). It models the build without OpenSSL (SXE_DISABLE_OPENSSL).

    - The application is a value of type [A] in the world; its callbacks are addresses, which
      [Callbacks] turns into commands on the whole world. They may call any function here.
    - A system call is recorded with its reply in a trace; the operating system is any function from
      the trace and the next call to its reply ([Kernel]). What it promises is [kernel_ok].
    - libev is third party code: a watcher is started or stopped, and starting one with a negative
      descriptor fails libev's assertion.
    - An SXE pointer is the index of the element of sxe_array that it points to. *)

From S2P Require Import Prelude SxeList Pool Buffer Objects.

(** ** Data *)

(** lib-sxe/sxe.h:33-33, SXE_BUF_SIZE. *)
Definition SXE_BUF_SIZE : Z := 1500.
(** lib-sxe/sxe.h:38-38, SXE_FLAG_IS_STREAM. *)
Definition SXE_FLAG_IS_STREAM : Z := 1.
(** lib-sxe/sxe.h:39-39, SXE_FLAG_IS_ONESHOT. *)
Definition SXE_FLAG_IS_ONESHOT : Z := 2.
(** lib-sxe/sxe.h:41-41, SXE_FLAG_IS_PAUSED. *)
Definition SXE_FLAG_IS_PAUSED : Z := 8.

(** lib-sxe/sxe.h:44-47, SXE_BUF_RESUME. *)
Inductive SXE_BUF_RESUME := SXE_BUF_RESUME_IMMEDIATE | SXE_BUF_RESUME_WHEN_MORE_DATA.
#[export] Instance SXE_BUF_RESUME_eq_dec : EqDecision SXE_BUF_RESUME.
Proof. solve_decision. Defined.

(** lib-sxe/sxe.c:83-88, SXE_STATE. The states of sxe_array's elements. *)
Definition SXE_STATE_FREE : Z := 0.
Definition SXE_STATE_USED : Z := 1.
Definition SXE_STATE_DEFERRED : Z := 2.
Definition SXE_STATE_NUMBER_OF_STATES : Z := 3.

(** lib-sxe-socket/sxe-socket.h:85-85, SXE_SOCKET_INVALID. *)
Definition SXE_SOCKET_INVALID : Z := -1.

Definition EV_READ : Z := 1.
Definition EV_WRITE : Z := 2.

(** The functions that sxe.c gives to a watcher, and to the list of deferred events. *)
Inductive io_callback :=
| sxe_io_cb_read_ptr
| sxe_io_cb_accept_ptr
| sxe_io_cb_connect_ptr
| sxe_io_cb_send_buffers_ptr
| sxe_io_cb_notify_writable_ptr
| sxe_io_cb_sendfile_ptr.
Inductive SXE_DEFERRED_EVENT := deferred_resume_invoke_ptr.
#[export] Instance io_callback_eq_dec : EqDecision io_callback.
Proof. solve_decision. Defined.
#[export] Instance deferred_eq_dec : EqDecision SXE_DEFERRED_EVENT.
Proof. solve_decision. Defined.

(** libev's watchers. *)
Record ev_io := mk_io { io_active : bool; io_cb : io_callback; io_fd : Z; io_events : Z }.
Record ev_async := mk_async { async_active : bool; async_cb : bool; async_sent : bool }.

(** An IPv4 address in network byte order. *)
Record sockaddr_in := mk_addr { sin_family : Z; sin_port : Z; sin_addr : Z }.
Definition AF_UNIX : Z := 1.
Definition AF_INET : Z := 2.
Definition SIZEOF_SOCKADDR_IN : Z := 16.
Inductive address := Inet (a : sockaddr_in) | Unix (path : list Z).

(** lib-sxe/sxe.h:58-90, SXE. The send list and the placeholder buffer are objects at addresses in the
    structure; the members of the OpenSSL build are left out. *)
Record SXE := mk_sxe {
  s_async : ev_async;
  s_io : ev_io;
  s_local_addr : sockaddr_in;
  s_peer_addr : sockaddr_in;
  s_path : option (list Z);
  s_id : Z;
  s_flags : Z;
  s_socket : Z;
  s_socket_as_fd : Z;
  s_last_write : Z;
  s_in_total : Z;
  s_in_consumed : Z;
  s_in_buf : list Z;
  s_in_event_connected : Z;
  s_in_event_read : Z;
  s_in_event_close : Z;
  s_out_event_written : Z;
  s_deferred_event : option SXE_DEFERRED_EVENT;
  s_sendfile_in_fd : Z;
  s_sendfile_bytes : Z;
  s_sendfile_offset : Z;
  s_send_list_walk : SXE_LIST_WALKER;
  s_user_data : Z;
  s_next_socket : Z
}.

Definition set_s_async (v : ev_async) (s : SXE) : SXE := mk_sxe v (s_io s) (s_local_addr s) (s_peer_addr s) (s_path s)
  (s_id s) (s_flags s) (s_socket s) (s_socket_as_fd s) (s_last_write s) (s_in_total s) (s_in_consumed s) (s_in_buf s)
  (s_in_event_connected s) (s_in_event_read s) (s_in_event_close s) (s_out_event_written s) (s_deferred_event s)
  (s_sendfile_in_fd s) (s_sendfile_bytes s) (s_sendfile_offset s) (s_send_list_walk s) (s_user_data s) (s_next_socket
  s).
Definition set_s_io (v : ev_io) (s : SXE) : SXE := mk_sxe (s_async s) v (s_local_addr s) (s_peer_addr s) (s_path s)
  (s_id s) (s_flags s) (s_socket s) (s_socket_as_fd s) (s_last_write s) (s_in_total s) (s_in_consumed s) (s_in_buf s)
  (s_in_event_connected s) (s_in_event_read s) (s_in_event_close s) (s_out_event_written s) (s_deferred_event s)
  (s_sendfile_in_fd s) (s_sendfile_bytes s) (s_sendfile_offset s) (s_send_list_walk s) (s_user_data s) (s_next_socket
  s).
Definition set_s_local_addr (v : sockaddr_in) (s : SXE) : SXE := mk_sxe (s_async s) (s_io s) v (s_peer_addr s) (s_path
  s) (s_id s) (s_flags s) (s_socket s) (s_socket_as_fd s) (s_last_write s) (s_in_total s) (s_in_consumed s) (s_in_buf
  s) (s_in_event_connected s) (s_in_event_read s) (s_in_event_close s) (s_out_event_written s) (s_deferred_event s)
  (s_sendfile_in_fd s) (s_sendfile_bytes s) (s_sendfile_offset s) (s_send_list_walk s) (s_user_data s) (s_next_socket
  s).
Definition set_s_peer_addr (v : sockaddr_in) (s : SXE) : SXE := mk_sxe (s_async s) (s_io s) (s_local_addr s) v (s_path
  s) (s_id s) (s_flags s) (s_socket s) (s_socket_as_fd s) (s_last_write s) (s_in_total s) (s_in_consumed s) (s_in_buf
  s) (s_in_event_connected s) (s_in_event_read s) (s_in_event_close s) (s_out_event_written s) (s_deferred_event s)
  (s_sendfile_in_fd s) (s_sendfile_bytes s) (s_sendfile_offset s) (s_send_list_walk s) (s_user_data s) (s_next_socket
  s).
Definition set_s_path (v : option (list Z)) (s : SXE) : SXE := mk_sxe (s_async s) (s_io s) (s_local_addr s)
  (s_peer_addr s) v (s_id s) (s_flags s) (s_socket s) (s_socket_as_fd s) (s_last_write s) (s_in_total s)
  (s_in_consumed s) (s_in_buf s) (s_in_event_connected s) (s_in_event_read s) (s_in_event_close s)
  (s_out_event_written s) (s_deferred_event s) (s_sendfile_in_fd s) (s_sendfile_bytes s) (s_sendfile_offset s)
  (s_send_list_walk s) (s_user_data s) (s_next_socket s).
Definition set_s_id (v : Z) (s : SXE) : SXE := mk_sxe (s_async s) (s_io s) (s_local_addr s) (s_peer_addr s) (s_path s)
  v (s_flags s) (s_socket s) (s_socket_as_fd s) (s_last_write s) (s_in_total s) (s_in_consumed s) (s_in_buf s)
  (s_in_event_connected s) (s_in_event_read s) (s_in_event_close s) (s_out_event_written s) (s_deferred_event s)
  (s_sendfile_in_fd s) (s_sendfile_bytes s) (s_sendfile_offset s) (s_send_list_walk s) (s_user_data s) (s_next_socket
  s).
Definition set_s_flags (v : Z) (s : SXE) : SXE := mk_sxe (s_async s) (s_io s) (s_local_addr s) (s_peer_addr s) (s_path
  s) (s_id s) v (s_socket s) (s_socket_as_fd s) (s_last_write s) (s_in_total s) (s_in_consumed s) (s_in_buf s)
  (s_in_event_connected s) (s_in_event_read s) (s_in_event_close s) (s_out_event_written s) (s_deferred_event s)
  (s_sendfile_in_fd s) (s_sendfile_bytes s) (s_sendfile_offset s) (s_send_list_walk s) (s_user_data s) (s_next_socket
  s).
Definition set_s_socket (v : Z) (s : SXE) : SXE := mk_sxe (s_async s) (s_io s) (s_local_addr s) (s_peer_addr s)
  (s_path s) (s_id s) (s_flags s) v (s_socket_as_fd s) (s_last_write s) (s_in_total s) (s_in_consumed s) (s_in_buf s)
  (s_in_event_connected s) (s_in_event_read s) (s_in_event_close s) (s_out_event_written s) (s_deferred_event s)
  (s_sendfile_in_fd s) (s_sendfile_bytes s) (s_sendfile_offset s) (s_send_list_walk s) (s_user_data s) (s_next_socket
  s).
Definition set_s_socket_as_fd (v : Z) (s : SXE) : SXE := mk_sxe (s_async s) (s_io s) (s_local_addr s) (s_peer_addr s)
  (s_path s) (s_id s) (s_flags s) (s_socket s) v (s_last_write s) (s_in_total s) (s_in_consumed s) (s_in_buf s)
  (s_in_event_connected s) (s_in_event_read s) (s_in_event_close s) (s_out_event_written s) (s_deferred_event s)
  (s_sendfile_in_fd s) (s_sendfile_bytes s) (s_sendfile_offset s) (s_send_list_walk s) (s_user_data s) (s_next_socket
  s).
Definition set_s_last_write (v : Z) (s : SXE) : SXE := mk_sxe (s_async s) (s_io s) (s_local_addr s) (s_peer_addr s)
  (s_path s) (s_id s) (s_flags s) (s_socket s) (s_socket_as_fd s) v (s_in_total s) (s_in_consumed s) (s_in_buf s)
  (s_in_event_connected s) (s_in_event_read s) (s_in_event_close s) (s_out_event_written s) (s_deferred_event s)
  (s_sendfile_in_fd s) (s_sendfile_bytes s) (s_sendfile_offset s) (s_send_list_walk s) (s_user_data s) (s_next_socket
  s).
Definition set_s_in_total (v : Z) (s : SXE) : SXE := mk_sxe (s_async s) (s_io s) (s_local_addr s) (s_peer_addr s)
  (s_path s) (s_id s) (s_flags s) (s_socket s) (s_socket_as_fd s) (s_last_write s) v (s_in_consumed s) (s_in_buf s)
  (s_in_event_connected s) (s_in_event_read s) (s_in_event_close s) (s_out_event_written s) (s_deferred_event s)
  (s_sendfile_in_fd s) (s_sendfile_bytes s) (s_sendfile_offset s) (s_send_list_walk s) (s_user_data s) (s_next_socket
  s).
Definition set_s_in_consumed (v : Z) (s : SXE) : SXE := mk_sxe (s_async s) (s_io s) (s_local_addr s) (s_peer_addr s)
  (s_path s) (s_id s) (s_flags s) (s_socket s) (s_socket_as_fd s) (s_last_write s) (s_in_total s) v (s_in_buf s)
  (s_in_event_connected s) (s_in_event_read s) (s_in_event_close s) (s_out_event_written s) (s_deferred_event s)
  (s_sendfile_in_fd s) (s_sendfile_bytes s) (s_sendfile_offset s) (s_send_list_walk s) (s_user_data s) (s_next_socket
  s).
Definition set_s_in_buf (v : list Z) (s : SXE) : SXE := mk_sxe (s_async s) (s_io s) (s_local_addr s) (s_peer_addr s)
  (s_path s) (s_id s) (s_flags s) (s_socket s) (s_socket_as_fd s) (s_last_write s) (s_in_total s) (s_in_consumed s) v
  (s_in_event_connected s) (s_in_event_read s) (s_in_event_close s) (s_out_event_written s) (s_deferred_event s)
  (s_sendfile_in_fd s) (s_sendfile_bytes s) (s_sendfile_offset s) (s_send_list_walk s) (s_user_data s) (s_next_socket
  s).
Definition set_s_in_event_connected (v : Z) (s : SXE) : SXE := mk_sxe (s_async s) (s_io s) (s_local_addr s)
  (s_peer_addr s) (s_path s) (s_id s) (s_flags s) (s_socket s) (s_socket_as_fd s) (s_last_write s) (s_in_total s)
  (s_in_consumed s) (s_in_buf s) v (s_in_event_read s) (s_in_event_close s) (s_out_event_written s) (s_deferred_event
  s) (s_sendfile_in_fd s) (s_sendfile_bytes s) (s_sendfile_offset s) (s_send_list_walk s) (s_user_data s)
  (s_next_socket s).
Definition set_s_in_event_read (v : Z) (s : SXE) : SXE := mk_sxe (s_async s) (s_io s) (s_local_addr s) (s_peer_addr s)
  (s_path s) (s_id s) (s_flags s) (s_socket s) (s_socket_as_fd s) (s_last_write s) (s_in_total s) (s_in_consumed s)
  (s_in_buf s) (s_in_event_connected s) v (s_in_event_close s) (s_out_event_written s) (s_deferred_event s)
  (s_sendfile_in_fd s) (s_sendfile_bytes s) (s_sendfile_offset s) (s_send_list_walk s) (s_user_data s) (s_next_socket
  s).
Definition set_s_in_event_close (v : Z) (s : SXE) : SXE := mk_sxe (s_async s) (s_io s) (s_local_addr s) (s_peer_addr
  s) (s_path s) (s_id s) (s_flags s) (s_socket s) (s_socket_as_fd s) (s_last_write s) (s_in_total s) (s_in_consumed s)
  (s_in_buf s) (s_in_event_connected s) (s_in_event_read s) v (s_out_event_written s) (s_deferred_event s)
  (s_sendfile_in_fd s) (s_sendfile_bytes s) (s_sendfile_offset s) (s_send_list_walk s) (s_user_data s) (s_next_socket
  s).
Definition set_s_out_event_written (v : Z) (s : SXE) : SXE := mk_sxe (s_async s) (s_io s) (s_local_addr s)
  (s_peer_addr s) (s_path s) (s_id s) (s_flags s) (s_socket s) (s_socket_as_fd s) (s_last_write s) (s_in_total s)
  (s_in_consumed s) (s_in_buf s) (s_in_event_connected s) (s_in_event_read s) (s_in_event_close s) v (s_deferred_event
  s) (s_sendfile_in_fd s) (s_sendfile_bytes s) (s_sendfile_offset s) (s_send_list_walk s) (s_user_data s)
  (s_next_socket s).
Definition set_s_deferred_event (v : option SXE_DEFERRED_EVENT) (s : SXE) : SXE := mk_sxe (s_async s) (s_io s)
  (s_local_addr s) (s_peer_addr s) (s_path s) (s_id s) (s_flags s) (s_socket s) (s_socket_as_fd s) (s_last_write s)
  (s_in_total s) (s_in_consumed s) (s_in_buf s) (s_in_event_connected s) (s_in_event_read s) (s_in_event_close s)
  (s_out_event_written s) v (s_sendfile_in_fd s) (s_sendfile_bytes s) (s_sendfile_offset s) (s_send_list_walk s)
  (s_user_data s) (s_next_socket s).
Definition set_s_sendfile_in_fd (v : Z) (s : SXE) : SXE := mk_sxe (s_async s) (s_io s) (s_local_addr s) (s_peer_addr
  s) (s_path s) (s_id s) (s_flags s) (s_socket s) (s_socket_as_fd s) (s_last_write s) (s_in_total s) (s_in_consumed s)
  (s_in_buf s) (s_in_event_connected s) (s_in_event_read s) (s_in_event_close s) (s_out_event_written s)
  (s_deferred_event s) v (s_sendfile_bytes s) (s_sendfile_offset s) (s_send_list_walk s) (s_user_data s)
  (s_next_socket s).
Definition set_s_sendfile_bytes (v : Z) (s : SXE) : SXE := mk_sxe (s_async s) (s_io s) (s_local_addr s) (s_peer_addr
  s) (s_path s) (s_id s) (s_flags s) (s_socket s) (s_socket_as_fd s) (s_last_write s) (s_in_total s) (s_in_consumed s)
  (s_in_buf s) (s_in_event_connected s) (s_in_event_read s) (s_in_event_close s) (s_out_event_written s)
  (s_deferred_event s) (s_sendfile_in_fd s) v (s_sendfile_offset s) (s_send_list_walk s) (s_user_data s)
  (s_next_socket s).
Definition set_s_sendfile_offset (v : Z) (s : SXE) : SXE := mk_sxe (s_async s) (s_io s) (s_local_addr s) (s_peer_addr
  s) (s_path s) (s_id s) (s_flags s) (s_socket s) (s_socket_as_fd s) (s_last_write s) (s_in_total s) (s_in_consumed s)
  (s_in_buf s) (s_in_event_connected s) (s_in_event_read s) (s_in_event_close s) (s_out_event_written s)
  (s_deferred_event s) (s_sendfile_in_fd s) (s_sendfile_bytes s) v (s_send_list_walk s) (s_user_data s) (s_next_socket
  s).
Definition set_s_send_list_walk (v : SXE_LIST_WALKER) (s : SXE) : SXE := mk_sxe (s_async s) (s_io s) (s_local_addr s)
  (s_peer_addr s) (s_path s) (s_id s) (s_flags s) (s_socket s) (s_socket_as_fd s) (s_last_write s) (s_in_total s)
  (s_in_consumed s) (s_in_buf s) (s_in_event_connected s) (s_in_event_read s) (s_in_event_close s)
  (s_out_event_written s) (s_deferred_event s) (s_sendfile_in_fd s) (s_sendfile_bytes s) (s_sendfile_offset s) v
  (s_user_data s) (s_next_socket s).
Definition set_s_user_data (v : Z) (s : SXE) : SXE := mk_sxe (s_async s) (s_io s) (s_local_addr s) (s_peer_addr s)
  (s_path s) (s_id s) (s_flags s) (s_socket s) (s_socket_as_fd s) (s_last_write s) (s_in_total s) (s_in_consumed s)
  (s_in_buf s) (s_in_event_connected s) (s_in_event_read s) (s_in_event_close s) (s_out_event_written s)
  (s_deferred_event s) (s_sendfile_in_fd s) (s_sendfile_bytes s) (s_sendfile_offset s) (s_send_list_walk s) v
  (s_next_socket s).
Definition set_s_next_socket (v : Z) (s : SXE) : SXE := mk_sxe (s_async s) (s_io s) (s_local_addr s) (s_peer_addr s)
  (s_path s) (s_id s) (s_flags s) (s_socket s) (s_socket_as_fd s) (s_last_write s) (s_in_total s) (s_in_consumed s)
  (s_in_buf s) (s_in_event_connected s) (s_in_event_read s) (s_in_event_close s) (s_out_event_written s)
  (s_deferred_event s) (s_sendfile_in_fd s) (s_sendfile_bytes s) (s_sendfile_offset s) (s_send_list_walk s)
  (s_user_data s) v.

(** ** System calls *)

Definition EWOULDBLOCK : Z := 11.
Definition EADDRINUSE : Z := 98.
Definition ECONNRESET : Z := 104.
Definition ENOTCONN : Z := 107.
Definition ECONNREFUSED : Z := 111.
Definition EINPROGRESS : Z := 115.

Inductive sockopt := SO_REUSEADDR | SO_LINGER | TCP_NODELAY | SO_RCVBUF | SO_PEERCRED.

Inductive syscall :=
| Sys_socket (unix stream : bool)
| Sys_socketpair
| Sys_close (fd : Z)
| Sys_unlink (path : list Z)
| Sys_getfl (fd : Z)
| Sys_setfl (fd fl : Z)
| Sys_setsockopt (fd : Z) (opt : sockopt) (v : Z)
| Sys_getsockopt (fd : Z) (opt : sockopt)
| Sys_so_error (fd : Z)
| Sys_bind (fd : Z) (a : address)
| Sys_listen (fd backlog : Z)
| Sys_accept (fd : Z)
| Sys_connect (fd : Z) (a : address)
| Sys_getsockname (fd : Z)
| Sys_getpeername (fd : Z)
| Sys_siocinq (fd : Z)
| Sys_recv (fd room : Z)
| Sys_recvfrom (fd room : Z)
| Sys_recvmsg (fd room : Z)
| Sys_send (fd : Z) (data : list Z)
| Sys_sendto (fd : Z) (data : list Z) (a : sockaddr_in)
| Sys_sendmsg (fd : Z) (data : list Z) (passed : Z)
| Sys_sendfile (out_fd in_fd offset count : Z)
| Sys_lseek (fd : Z).

(** The control message that recvmsg delivers. *)
Inductive control := No_control | Bad_control | Passed_fd (fd : Z).

(** A reply: the result, errno, and what the call stores through its pointers. *)
Record reply := mk_reply {
  r_ret : Z;
  r_errno : Z;
  r_data : list Z;
  r_value : Z;
  r_addr : sockaddr_in;
  r_addr_size : Z;
  r_control : control
}.
Record event := mk_event { e_call : syscall; e_reply : reply }.

Class Kernel := kernel_reply : list event -> syscall -> reply.

(** ** The world *)

(** lib-sxe/sxe.c:101-110, sxe_array. The static variables of sxe.c, and the clock. *)
Record globals := mk_globals {
  g_extra_size : Z;
  g_array_total : Z;
  g_array : Z;
  g_stat_total_accept : Z;
  g_stat_total_read : Z;
  g_inited : bool;
  g_listen_backlog : Z;
  g_main_loop : bool;
  g_now : Z
}.

Definition set_g_extra_size (v : Z) (g : globals) : globals := mk_globals v (g_array_total g) (g_array g)
  (g_stat_total_accept g) (g_stat_total_read g) (g_inited g) (g_listen_backlog g) (g_main_loop g) (g_now g).
Definition set_g_array_total (v : Z) (g : globals) : globals := mk_globals (g_extra_size g) v (g_array g)
  (g_stat_total_accept g) (g_stat_total_read g) (g_inited g) (g_listen_backlog g) (g_main_loop g) (g_now g).
Definition set_g_array (v : Z) (g : globals) : globals := mk_globals (g_extra_size g) (g_array_total g) v
  (g_stat_total_accept g) (g_stat_total_read g) (g_inited g) (g_listen_backlog g) (g_main_loop g) (g_now g).
Definition set_g_stat_total_accept (v : Z) (g : globals) : globals := mk_globals (g_extra_size g) (g_array_total g)
  (g_array g) v (g_stat_total_read g) (g_inited g) (g_listen_backlog g) (g_main_loop g) (g_now g).
Definition set_g_stat_total_read (v : Z) (g : globals) : globals := mk_globals (g_extra_size g) (g_array_total g)
  (g_array g) (g_stat_total_accept g) v (g_inited g) (g_listen_backlog g) (g_main_loop g) (g_now g).
Definition set_g_inited (v : bool) (g : globals) : globals := mk_globals (g_extra_size g) (g_array_total g) (g_array
  g) (g_stat_total_accept g) (g_stat_total_read g) v (g_listen_backlog g) (g_main_loop g) (g_now g).
Definition set_g_listen_backlog (v : Z) (g : globals) : globals := mk_globals (g_extra_size g) (g_array_total g)
  (g_array g) (g_stat_total_accept g) (g_stat_total_read g) (g_inited g) v (g_main_loop g) (g_now g).
Definition set_g_main_loop (v : bool) (g : globals) : globals := mk_globals (g_extra_size g) (g_array_total g)
  (g_array g) (g_stat_total_accept g) (g_stat_total_read g) (g_inited g) (g_listen_backlog g) v (g_now g).

Record world (A : Type) := mk_world {
  w_objs : objects;
  w_sxes : gmap Z SXE;
  w_offsets : gmap Z Z;
  w_trace : list event;
  w_globals : globals;
  w_app : A
}.
Arguments mk_world {A}. Arguments w_objs {A}. Arguments w_sxes {A}. Arguments w_offsets {A}.
Arguments w_trace {A}. Arguments w_globals {A}. Arguments w_app {A}.

Section World.
Context {A : Type}.
Implicit Types w : world A.

Definition with_objs (o : objects) w : world A := mk_world o (w_sxes w) (w_offsets w) (w_trace w) (w_globals w) (w_app w).
Definition with_sxes (f : gmap Z SXE -> gmap Z SXE) w : world A :=
  mk_world (w_objs w) (f (w_sxes w)) (w_offsets w) (w_trace w) (w_globals w) (w_app w).
Definition with_offsets (f : gmap Z Z -> gmap Z Z) w : world A :=
  mk_world (w_objs w) (w_sxes w) (f (w_offsets w)) (w_trace w) (w_globals w) (w_app w).
Definition with_trace (t : list event) w : world A :=
  mk_world (w_objs w) (w_sxes w) (w_offsets w) t (w_globals w) (w_app w).
Definition with_globals (f : globals -> globals) w : world A :=
  mk_world (w_objs w) (w_sxes w) (w_offsets w) (w_trace w) (f (w_globals w)) (w_app w).
Definition with_app (a : A) w : world A :=
  mk_world (w_objs w) (w_sxes w) (w_offsets w) (w_trace w) (w_globals w) a.

Definition on_objs {R} (c : cmd objects R) : cmd (world A) R := fun w =>
  match c (w_objs w) with
  | Ret (r, o) => Ret (r, with_objs o w)
  | Abort => Abort
  | Fault => Fault
  end.

Definition rd_sxe (this : Z) : cmd (world A) SXE := fun w => lift (load (w_sxes w !! this)) w.
Definition upd_sxe (this : Z) (f : SXE -> SXE) : cmd (world A) unit := fun w =>
  match w_sxes w !! this with Some s => Ret (tt, with_sxes <[this := f s]> w) | None => Fault end.
Definition global {R} (f : globals -> R) : cmd (world A) R := gets (fun w => f (w_globals w)).
Definition upd_global (f : globals -> globals) : cmd (world A) unit := modify (with_globals f).

(** A system call: the kernel's reply, and both in the trace. *)
Definition sys `{Kernel} (c : syscall) : cmd (world A) reply := fun w =>
  let r := kernel_reply (w_trace w) c in
  Ret (r, with_trace (w_trace w ++ [mk_event c r]) w).
End World.

(** What a function pointer given to the library does. *)
Class Callbacks (A : Type) := {
  call_connected : Z -> Z -> cmd (world A) unit;
  call_read : Z -> Z -> Z -> cmd (world A) unit;
  call_close : Z -> Z -> cmd (world A) unit;
  call_written : Z -> Z -> SXE_RETURN -> cmd (world A) unit
}.

(** sizeof(SXE), and where the send list and the placeholder buffer are in it. *)
Class Layout := {
  SIZEOF_SXE : Z;
  OFFSETOF_send_list : Z;
  OFFSETOF_send_buffer : Z
}.

Section Sxe.
Context {A : Type} `{Build, Kernel, Layout}.
Abbreviation M := (cmd (world A)).

(** SXEV6I: the call is made in every build, its condition checked in a debug build. *)
Definition verify6 (b : bool) : M unit := lift (assert6 b).
(** Calling a NULL pointer. *)
Definition through (ptr : Z) (call : M unit) : M unit := if ptr =? NULL then lift Fault else call.

Definition sxe_address (array this : Z) : Z := array + SIZEOF_SXE * this.
Definition SEND_LIST (this : Z) : M Z := a ← global g_array; mret (sxe_address a this + OFFSETOF_send_list).
Definition SEND_BUFFER (this : Z) : M Z := a ← global g_array; mret (sxe_address a this + OFFSETOF_send_buffer).

(** lib-sxe/sxe.h:94-94, SXE_BUF. An offset in the buffer. *)
Definition SXE_BUF (s : SXE) : Z := s_in_consumed s.
(** lib-sxe/sxe.h:95-95, SXE_BUF_USED. *)
Definition SXE_BUF_USED (s : SXE) : Z := u32 (s_in_total s - s_in_consumed s).
Definition has_flag (s : SXE) (flag : Z) : bool := negb (Z.land (s_flags s) flag =? 0).

(** ** libev *)

Definition ev_is_active (s : SXE) : bool := io_active (s_io s).
Definition ev_io_stop (this : Z) : M unit :=
  upd_sxe this (fun s => set_s_io (mk_io false (io_cb (s_io s)) (io_fd (s_io s)) (io_events (s_io s))) s).
(** Initialising a watcher that is started would lose it. *)
Definition ev_io_init (this : Z) (cb : io_callback) (fd events : Z) : M unit :=
  s ← rd_sxe this;
  if ev_is_active s then lift Fault else upd_sxe this (set_s_io (mk_io false cb fd events)).
Definition ev_io_start (this : Z) : M unit :=
  s ← rd_sxe this;
  let io := s_io s in
  if io_active io then mret tt
  else
    lift (assert1 (0 <=? io_fd io));;
    upd_sxe this (set_s_io (mk_io true (io_cb io) (io_fd io) (io_events io))).
Definition ev_async_init (this : Z) (cb : bool) : M unit := upd_sxe this (set_s_async (mk_async false cb false)).
Definition ev_async_stop (this : Z) : M unit :=
  upd_sxe this (fun s => set_s_async (mk_async false (async_cb (s_async s)) false) s).

(** ** Deferred events *)

(** lib-sxe/sxe.c:112-112, sxe_is_free. *)
Definition sxe_is_free (this : Z) : M bool :=
  array ← global g_array;
  s ← rd_sxe this;
  state ← on_objs (pool_state_of array (s_id s));
  mret (state =? SXE_STATE_FREE).

(** lib-sxe/sxe.c:116-120, sxe_get_deferred_count. *)
Definition sxe_get_deferred_count : M Z := array ← global g_array; on_objs (pool_number_in array SXE_STATE_DEFERRED).

(** lib-sxe/sxe.c:146-166, deferred_generic_setup. *)
Definition deferred_generic_setup (this : Z) (event : SXE_DEFERRED_EVENT) : M unit :=
  array ← global g_array;
  s ← rd_sxe this;
  state ← on_objs (pool_state_of array (s_id s));
  if state =? SXE_STATE_DEFERRED then mret tt
  else
    lift (assert1 (bool_decide (s_deferred_event s = None)));;
    on_objs (pool_set_state array (s_id s) SXE_STATE_USED SXE_STATE_DEFERRED);;
    upd_sxe this (set_s_deferred_event (Some event)).

(** lib-sxe/sxe.c:177-181, deferred_resume_setup. *)
Definition deferred_resume_setup (this : Z) : M unit := deferred_generic_setup this deferred_resume_invoke_ptr.

(** ** Watching *)

(** lib-sxe/sxe.c:375-385, sxe_private_set_watch_events. *)
Definition sxe_private_set_watch_events (this : Z) (func : io_callback) (events : Z) (stop : bool) : M unit :=
  (if stop then ev_io_stop this else mret tt);;
  s ← rd_sxe this;
  ev_io_init this func (s_socket_as_fd s) events;;
  ev_io_start this.

(** lib-sxe/sxe.c:387-398, stop_reading_buffer_full. *)
Definition stop_reading_buffer_full (this : Z) : M unit := ev_io_stop this.
(** lib-sxe/sxe.c:400-411, restart_reading_buffer_drained. *)
Definition restart_reading_buffer_drained (this : Z) : M unit := ev_io_start this.

(** lib-sxe/sxe.c:1827-1833, sxe_watch_read. *)
Definition sxe_watch_read (this : Z) : M unit := sxe_private_set_watch_events this sxe_io_cb_read_ptr EV_READ true.
(** lib-sxe/sxe.c:1835-1841, sxe_watch_write. *)
Definition sxe_watch_write (this : Z) : M unit := sxe_private_set_watch_events this sxe_io_cb_send_buffers_ptr EV_WRITE true.

(** ** The input buffer *)

(** lib-sxe/sxe.h:115-115, sxe_pause. *)
Definition sxe_pause (this : Z) : M unit := upd_sxe this (fun s => set_s_flags (Z.lor (s_flags s) SXE_FLAG_IS_PAUSED) s).

(** lib-sxe/sxe.c:843-858, sxe_buf_clear. *)
Definition sxe_buf_clear (this : Z) : M unit :=
  upd_sxe this (fun s => set_s_in_total 0 (set_s_in_consumed 0 s));;
  s ← rd_sxe this;
  if negb (s_socket_as_fd s =? -1) && negb (ev_is_active s) then restart_reading_buffer_drained this else mret tt.

(** lib-sxe/sxe.c:868-883, sxe_buf_consume. *)
Definition sxe_buf_consume (this bytes : Z) : M unit :=
  s ← rd_sxe this;
  lift (assert6 (bytes <=? SXE_BUF_SIZE));;
  lift (assert6 (bytes <=? SXE_BUF_USED s));;
  upd_sxe this (set_s_in_consumed (u32 (s_in_consumed s + bytes)));;
  sxe_pause this;;
  s ← rd_sxe this;
  if s_in_consumed s =? s_in_total s then sxe_buf_clear this else mret tt.

(** memmove of the unconsumed bytes to the start of the buffer. *)
Definition shuffled (s : SXE) : outcome SXE :=
  l ← load (slice (s_in_buf s) (SXE_BUF s) (SXE_BUF_USED s));
  b ← wr_bytes (s_in_buf s) 0 l;
  mret (set_s_in_consumed 0 (set_s_in_total (u32 (s_in_total s - s_in_consumed s)) (set_s_in_buf b s))).
Definition shuffle (this : Z) : M unit := s ← rd_sxe this; s ← lift (shuffled s); upd_sxe this (fun _ => s).

(** lib-sxe/sxe.c:895-921, sxe_buf_resume. *)
Definition sxe_buf_resume (this : Z) (invoke_callback : SXE_BUF_RESUME) : M unit :=
  upd_sxe this (fun s => set_s_flags (Z.ldiff (s_flags s) SXE_FLAG_IS_PAUSED) s);;
  s ← rd_sxe this;
  (if negb (s_in_consumed s =? 0) && (s_in_total s =? SXE_BUF_SIZE) then shuffle this;; ev_io_start this else mret tt);;
  s ← rd_sxe this;
  if bool_decide (invoke_callback = SXE_BUF_RESUME_IMMEDIATE) && negb (SXE_BUF_USED s =? 0) then deferred_resume_setup this
  else mret tt.

(** ** Closing *)

(** lib-sxe/sxe.c:1870-1934, sxe_close. On UNIX, CLOSESOCKET is close: the descriptor of a socket is closed twice. *)
Definition sxe_close (this : Z) : M SXE_RETURN :=
  array ← global g_array;
  s ← rd_sxe this;
  state ← on_objs (pool_state_of array (s_id s));
  lift (assert6 (negb (array =? NULL)));;
  total ← global g_array_total;
  lift (assert6 ((0 <=? this) && (this <=? total - 1)));;
  if state =? SXE_STATE_FREE then mret SXE_RETURN_WARN_ALREADY_CLOSED
  else
    lift (assert1 ((state =? SXE_STATE_DEFERRED) || (state =? SXE_STATE_USED)));;
    (if negb (s_socket s =? SXE_SOCKET_INVALID) then
       ev_io_stop this;;
       ev_async_stop this;;
       (if 0 <=? s_socket_as_fd s then sys (Sys_close (s_socket_as_fd s));; upd_sxe this (set_s_socket_as_fd (-1)) else mret tt);;
       sys (Sys_close (s_socket s));;
       upd_sxe this (set_s_socket SXE_SOCKET_INVALID)
     else mret tt);;
    upd_sxe this (fun s =>
      set_s_in_consumed 0 (set_s_in_total 0 (set_s_out_event_written NULL (set_s_in_event_read NULL (set_s_in_event_connected NULL s)))));;
    on_objs (pool_set_state array (s_id s) state SXE_STATE_FREE);;
    mret SXE_RETURN_OK.

(** ** New SXEs *)

(** lib-sxe/sxe.c:413-453, sxe_new_internal. *)
Definition sxe_new_internal (local_addr : sockaddr_in) (in_event_connected in_event_read in_event_close : Z)
  (is_stream : bool) (path : option (list Z)) : M (option Z) :=
  array ← global g_array;
  id ← on_objs (pool_set_oldest array SXE_STATE_FREE SXE_STATE_USED);
  if id =? SXE_POOL_NO_INDEX then mret None
  else
    upd_sxe id (fun s =>
      set_s_local_addr local_addr (set_s_in_consumed 0 (set_s_in_total 0 (set_s_next_socket SXE_SOCKET_INVALID
      (set_s_socket SXE_SOCKET_INVALID (set_s_socket_as_fd (-1) (set_s_deferred_event None
      (set_s_in_event_close in_event_close (set_s_in_event_read in_event_read (set_s_in_event_connected in_event_connected
      (set_s_flags (if is_stream then SXE_FLAG_IS_STREAM else 0) (set_s_path path (set_s_id id s)))))))))))));;
    mret (Some id).

(** ** The callbacks of the loop *)
Context `{!Callbacks A}.

(** lib-sxe/sxe.c:168-175, deferred_resume_invoke. *)
Definition deferred_resume_invoke (this : Z) : M unit :=
  s ← rd_sxe this; through (s_in_event_read s) (call_read (s_in_event_read s) this (SXE_BUF_USED s)).

Definition deferred_event_call (event : SXE_DEFERRED_EVENT) : Z -> M unit :=
  match event with deferred_resume_invoke_ptr => deferred_resume_invoke end.

(** lib-sxe/sxe.c:131-141, deferred_generic_invoke. The loop; each turn has taken an element from the deferred. *)
Fixpoint deferred_loop (array : Z) (counter : nat) : M unit :=
  id ← on_objs (pool_set_oldest array SXE_STATE_DEFERRED SXE_STATE_USED);
  if id =? SXE_POOL_NO_INDEX then mret tt
  else
    match counter with
    | O => mret tt
    | S counter =>
        s ← rd_sxe id;
        match s_deferred_event s with
        | None => lift Abort
        | Some event =>
            upd_sxe id (set_s_deferred_event None);;
            deferred_event_call event id;;
            deferred_loop array counter
        end
    end.

(** lib-sxe/sxe.c:122-144, deferred_generic_invoke. *)
Definition deferred_generic_invoke : M unit := array ← global g_array; deferred_loop array 64.

(** lib-sxe/sxe.c:627-665, sxe_private_handle_read_data. The last argument is what reads_remaining points
    to, if it is not NULL; so is the result. *)
Definition sxe_private_handle_read_data (this length : Z) (reads_remaining : option Z) : M (option Z) :=
  upd_sxe this (fun s => set_s_in_total (u32 (s_in_total s + length)) s);;
  upd_global (fun g => set_g_stat_total_read (u32 (g_stat_total_read g + 1)) g);;
  s ← rd_sxe this;
  remaining ← (if negb (has_flag s SXE_FLAG_IS_PAUSED) then
                 through (s_in_event_read s) (call_read (s_in_event_read s) this length);;
                 mret (Z.pred <$> reads_remaining)
               else mret reads_remaining);
  s ← rd_sxe this;
  (if s_in_total s =? SXE_BUF_SIZE then
     if negb (s_in_consumed s =? 0) then shuffle this else stop_reading_buffer_full this
   else mret tt);;
  mret remaining.

(** lib-sxe/sxe.c:667-667, SXE_IO_CB_READ_MAXIMUM. *)
Definition SXE_IO_CB_READ_MAXIMUM : Z := 64.

(** The bytes that a call received, behind those in the buffer. *)
Definition store_input (this : Z) (r : reply) : M unit :=
  if r_ret r <=? 0 then mret tt
  else
    s ← rd_sxe this;
    b ← lift (if bool_decide (zlen (r_data r) = r_ret r) then wr_bytes (s_in_buf s) (s_in_total s) (r_data r) else Fault);
    upd_sxe this (set_s_in_buf b).

Definition room_left (s : SXE) : Z := SXE_BUF_SIZE - s_in_total s.

(** lib-sxe/sxe.c:699-763, sxe_io_cb_read. Reading from a pipe, over which a socket may be passed. *)
Definition read_pipe (this : Z) : M reply :=
  s ← rd_sxe this;
  r ← sys (Sys_recvmsg (s_socket s) (room_left s));
  store_input this r;;
  (if 0 <? r_ret r then
     (match r_control r with
      | Passed_fd fd => upd_sxe this (set_s_next_socket fd)
      | _ => mret tt
      end);;
     s ← rd_sxe this;
     if 0 <=? s_next_socket s then
       p ← sys (Sys_getpeername (s_next_socket s));
       (if 0 <=? r_ret p then
          upd_sxe this (set_s_peer_addr (r_addr p));;
          verify6 ((sin_family (r_addr p) =? AF_UNIX) || (r_addr_size p =? SIZEOF_SOCKADDR_IN))
        else mret tt);;
       q ← sys (Sys_siocinq (s_socket s));
       if r_ret q <? 0 then mret tt
       else if r_value q =? 0 then
         sys (Sys_close (s_socket s));;
         upd_sxe this (fun s =>
           set_s_flags (Z.lor (s_flags s) SXE_FLAG_IS_STREAM) (set_s_path None (set_s_next_socket (-1)
           (set_s_socket_as_fd (s_next_socket s) (set_s_socket (s_next_socket s) s)))));;
         ev_async_init this false;;
         sxe_watch_read this
       else mret tt
     else mret tt
   else mret tt);;
  mret r.

(** lib-sxe/sxe.c:699-787, sxe_io_cb_read. One call to receive: its length, and the error when it failed. *)
Definition read_once (this : Z) : M (Z * Z) :=
  s ← rd_sxe this;
  if bool_decide (s_path s <> None) then r ← read_pipe this; mret (r_ret r, r_errno r)
  else if has_flag s SXE_FLAG_IS_STREAM then
    r ← sys (Sys_recv (s_socket s) (room_left s));
    store_input this r;;
    mret (r_ret r, r_errno r)
  else
    r ← sys (Sys_recvfrom (s_socket s) (room_left s));
    store_input this r;;
    (if 0 <=? r_ret r then
       upd_sxe this (set_s_peer_addr (r_addr r));; verify6 (r_addr_size r =? SIZEOF_SOCKADDR_IN)
     else mret tt);;
    mret (r_ret r, r_errno r).

(** lib-sxe/sxe.c:823-835, sxe_io_cb_read. The end of a connection. *)
Definition read_closed (this : Z) : M unit :=
  s ← rd_sxe this;
  if has_flag s SXE_FLAG_IS_STREAM then
    sxe_close this;;
    s ← rd_sxe this;
    if negb (s_in_event_close s =? NULL) then call_close (s_in_event_close s) this else mret tt
  else mret tt.

(** lib-sxe/sxe.c:698-836, sxe_io_cb_read. The label SXE_TRY_AND_READ_AGAIN. *)
Fixpoint read_again (fuel : nat) (this reads_remaining : Z) : M unit :=
  match fuel with
  | O => lift Fault
  | S fuel =>
      '(length, error) ← read_once this;
      if 0 <? length then
        remaining ← sxe_private_handle_read_data this length (Some reads_remaining);
        s ← rd_sxe this;
        let remaining := default 0 remaining in
        if negb (has_flag s SXE_FLAG_IS_STREAM) && negb (remaining =? 0) then read_again fuel this remaining else mret tt
      else if (length <? 0) && (error =? EWOULDBLOCK) then mret tt
      else read_closed this
  end.

(** Every turn of the loop either delivers an event, at most 64 times, or fills the buffer. *)
Definition READ_FUEL : nat := Z.to_nat (SXE_BUF_SIZE + SXE_IO_CB_READ_MAXIMUM + 1).

(** lib-sxe/sxe.c:669-698, sxe_io_cb_read. *)
Definition sxe_io_cb_read (this revents : Z) : M unit :=
  s ← rd_sxe this;
  if s_socket s =? SXE_SOCKET_INVALID then mret tt
  else if revents =? EV_READ then read_again READ_FUEL this SXE_IO_CB_READ_MAXIMUM
  else mret tt.
End Sxe.

(** ** Running commands on one SXE *)

Section Running.
Context {A : Type} `{Build}.
Implicit Types w : world A.

Definition put (this : Z) (s : SXE) (w : world A) : world A := with_sxes <[this := s]> w.

Lemma rd_sxe_ret w this s : w_sxes w !! this = Some s -> rd_sxe this w = Ret (s, w).
Proof. unfold rd_sxe. by intros ->. Qed.

Lemma upd_sxe_ret w this s f : w_sxes w !! this = Some s -> upd_sxe this f w = Ret (tt, put this (f s) w).
Proof. unfold upd_sxe. by intros ->. Qed.

Lemma put_at w this s : w_sxes (put this s w) !! this = Some s.
Proof. apply lookup_insert_eq. Qed.

Lemma put_put w this s s' : put this s' (put this s w) = put this s' w.
Proof. unfold put, with_sxes. simpl. by rewrite insert_insert_eq. Qed.

Lemma put_same w this s : w_sxes w !! this = Some s -> put this s w = w.
Proof. intros E. unfold put, with_sxes. rewrite insert_id by done. by destruct w. Qed.

Lemma on_objs_ret {R} (c : cmd objects R) w r o : c (w_objs w) = Ret (r, o) -> on_objs c w = Ret (r, with_objs o w).
Proof. unfold on_objs. by intros ->. Qed.

Lemma with_objs_same w : with_objs (w_objs w) w = w.
Proof. by destruct w. Qed.

Lemma lift_assert6 b w : b = true -> lift (assert6 b) w = Ret (tt, w).
Proof. intros ->. unfold assert6. by destruct debug. Qed.

Lemma assert1_ret b w : b = true -> lift (assert1 b) w = Ret (tt, w).
Proof. by intros ->. Qed.

Lemma global_ret {R} (f : globals -> R) w : global f w = Ret (f (w_globals w), w).
Proof. done. Qed.

Lemma sys_ret `{Kernel} c w :
  sys c w = Ret (kernel_reply (w_trace w) c, with_trace (w_trace w ++ [mk_event c (kernel_reply (w_trace w) c)]) w).
Proof. done. Qed.
End Running.

(** Step over a command whose run is known; over an access to an SXE that is known. *)
Ltac step_at := first
  [ erewrite cmd_bind_ret by (apply rd_sxe_ret; first [eassumption | apply put_at])
  | erewrite cmd_bind_ret by (apply upd_sxe_ret; first [eassumption | apply put_at]) ];
  cbv beta; rewrite ?put_put.

Section Watchers.
Context {A : Type} `{Build}.
Implicit Types w : world A.

(** The watcher started; and set to another function and event, for the SXE's socket. *)
Definition started (s : SXE) : SXE := set_s_io (mk_io true (io_cb (s_io s)) (io_fd (s_io s)) (io_events (s_io s))) s.
Definition watched (func : io_callback) (events : Z) (s : SXE) : SXE := set_s_io (mk_io true func (s_socket_as_fd s) events) s.

Lemma ev_io_start_ret w this s :
  w_sxes w !! this = Some s -> 0 <= io_fd (s_io s) -> ev_io_start this w = Ret (tt, put this (started s) w).
Proof.
  intros E Hf. unfold ev_io_start. step_at. cbv zeta. destruct (io_active (s_io s)) eqn:Ha.
  - rewrite put_same; [done|]. rewrite E. f_equal. destruct s as [? []]. unfold started. simpl in *. by subst.
  - erewrite cmd_bind_ret by (apply assert1_ret; lia). by rewrite (upd_sxe_ret _ _ _ _ E).
Qed.

Lemma set_watch_ret w this s func events :
  w_sxes w !! this = Some s -> 0 <= s_socket_as_fd s ->
  sxe_private_set_watch_events this func events true w = Ret (tt, put this (watched func events s) w).
Proof.
  intros E Hf. unfold sxe_private_set_watch_events, ev_io_stop. step_at. step_at. unfold ev_io_init.
  erewrite cmd_bind_ret; [|erewrite cmd_bind_ret by (apply rd_sxe_ret, put_at);
    cbn [ev_is_active s_io set_s_io io_active]; apply upd_sxe_ret, put_at].
  rewrite put_put. erewrite ev_io_start_ret; [|apply put_at|done]. by rewrite put_put.
Qed.
End Watchers.
