(* ===== verification/SxeStream.v ===== *)
(** * SxeStream: the input buffer is a queue of bytes

    A connection's read callback takes bytes from the buffer, clears it, pauses and resumes reading, in any
    order; so does the application between events. This file shows that what the application has taken and
    what is unread are together what the socket delivered, in order, whatever the buffer is moved
    about, stopped and restarted ([input_stream]). *)

From S2P Require Import Prelude SxeList Pool Buffer Objects Sxe.

(** ** The kernel's side *)

(** What receiving promises: no more than there is room for, and the bytes are there. *)
Class RecvLaw (K : Kernel) := {
  recv_room h fd room : 0 < room -> r_ret (kernel_reply h (Sys_recv fd room)) <= room;
  recv_data h fd room : 0 < r_ret (kernel_reply h (Sys_recv fd room)) ->
    zlen (r_data (kernel_reply h (Sys_recv fd room))) = r_ret (kernel_reply h (Sys_recv fd room))
}.

(** The bytes that the socket delivered, by the trace. *)
Definition received_by (fd : Z) (e : event) : list Z :=
  match e_call e with
  | Sys_recv fd' _ => if (fd' =? fd) && (0 <? r_ret (e_reply e)) then r_data (e_reply e) else []
  | _ => []
  end.
Definition received (fd : Z) (t : list event) : list Z := concat (received_by fd <$> t).

Lemma received_app fd t u : received fd (t ++ u) = received fd t ++ received fd u.
Proof. unfold received. by rewrite fmap_app, concat_app. Qed.

(** ** The application's side *)

(** What it does with its input: take some bytes, throw all away, pause, resume. *)
Inductive input_op := Take (n : Z) | Discard | Pause | Resume (r : SXE_BUF_RESUME).

(** The application remembers the bytes it took or threw away, in order. Its callback does the operations that
    are next in its script. *)
Record reader := mk_reader { r_script : list (list input_op); r_log : list Z }.

Section Reader.
Context `{Build, Kernel, Layout}.
Abbreviation M := (cmd (world reader)).

(** The bytes at SXE_BUF, as many as SXE_BUF_USED says. *)
Definition unread (s : SXE) : list Z :=
  take (Z.to_nat (s_in_total s - s_in_consumed s)) (drop (Z.to_nat (s_in_consumed s)) (s_in_buf s)).

Definition log (l : list Z) : M unit :=
  modify (fun w => with_app (mk_reader (r_script (w_app w)) (r_log (w_app w) ++ l)) w).

Definition run_input (this : Z) (op : input_op) : M unit :=
  match op with
  | Take n =>
      s ← rd_sxe this;
      if (0 <=? n) && (n <=? SXE_BUF_USED s) then
        l ← lift (load (slice (s_in_buf s) (SXE_BUF s) n)); log l;; sxe_buf_consume this n
      else mret tt
  | Discard => s ← rd_sxe this; log (unread s);; sxe_buf_clear this
  | Pause => sxe_pause this
  | Resume r => sxe_buf_resume this r
  end.

Fixpoint run_inputs (this : Z) (ops : list input_op) : M unit :=
  match ops with [] => mret tt | op :: ops => run_input this op;; run_inputs this ops end.

Definition read_script (this : Z) : M unit :=
  a ← gets w_app;
  match r_script a with
  | [] => mret tt
  | ops :: script => modify (fun w => with_app (mk_reader script (r_log (w_app w))) w);; run_inputs this ops
  end.

#[local] Instance reader_callbacks : Callbacks reader := {
  call_connected _ _ := mret tt;
  call_read _ this _ := read_script this;
  call_close _ _ := mret tt;
  call_written _ _ _ := mret tt
}.

(** What happens to a connection: its socket is readable, the loop runs the deferred events, the
    application acts of itself. In the first two, the callback finds the script given. *)
Inductive input_event := Readable (script : list (list input_op)) | Deferred (script : list (list input_op)) | Act (ops : list input_op).

Definition set_script (script : list (list input_op)) : M unit :=
  modify (fun w => with_app (mk_reader script (r_log (w_app w))) w).

(** libev calls the callback of a watcher that is started. *)
Definition run_event (this : Z) (e : input_event) : M unit :=
  match e with
  | Readable script =>
      s ← rd_sxe this;
      if io_active (s_io s) && bool_decide (io_cb (s_io s) = sxe_io_cb_read_ptr) then
        set_script script;; sxe_io_cb_read this EV_READ
      else mret tt
  | Deferred script => set_script script;; deferred_generic_invoke
  | Act ops => run_inputs this ops
  end.

Fixpoint run_events (this : Z) (es : list input_event) : M unit :=
  match es with [] => mret tt | e :: es => run_event this e;; run_events this es end.

(** The loop runs at most 64 deferred events at a time; the one behind them is lost ([deferred_loses_65th]). *)
Definition event_ok (e : input_event) : Prop :=
  match e with Deferred script => (length script <= 63)%nat | _ => True end.

(** ** The invariant *)

(** The pool has the element, and it is deferred when it has a deferred event; no other is. *)
Record registered (w : world reader) (i : nat) (d : option SXE_DEFERRED_EVENT) (free : bool) : Prop := {
  rg_pool : exists p, o_pools (w_objs w) !! g_array (w_globals w) = Some p /\ pool_wf (sp_abs p) /\
    length (queues (sp_abs p)) = 3%nat /\
    i ∈ queue_of (sp_abs p) (if free then 0 else if decide (d = None) then 1 else 2) /\
    queue_of (sp_abs p) 2 = (if free then [] else if decide (d = None) then [] else [i]);
  rg_array : g_array (w_globals w) <> NULL;
  rg_total : Z.of_nat i < g_array_total (w_globals w) <= SXE_POOL_NO_INDEX
}.

(** The buffer's offsets, and its watcher: stopped only when it is full. While the socket is being read ([mid]),
    it may be full and not yet stopped. *)
Record buffered (mid : bool) (s : SXE) : Prop := {
  bf_size : zlen (s_in_buf s) = SXE_BUF_SIZE;
  bf_consumed : 0 <= s_in_consumed s <= s_in_total s;
  bf_total : s_in_total s <= SXE_BUF_SIZE;
  bf_empty : s_in_consumed s = s_in_total s -> s_in_total s = 0;
  bf_watch : if mid then ev_is_active s = true else (ev_is_active s = true <-> s_in_total s < SXE_BUF_SIZE)
}.

(** A connection: a stream that is open and watched for input. *)
Record stream_of (fd : Z) (s : SXE) : Prop := {
  sf_fd : 0 <= fd;
  sf_socket : s_socket s = fd;
  sf_as_fd : s_socket_as_fd s = fd;
  sf_stream : has_flag s SXE_FLAG_IS_STREAM = true;
  sf_path : s_path s = None;
  sf_read : s_in_event_read s <> NULL;
  sf_io : io_cb (s_io s) = sxe_io_cb_read_ptr /\ io_fd (s_io s) = fd
}.

Record open (mid : bool) (w : world reader) (i : nat) (fd : Z) (s : SXE) : Prop := {
  op_at : w_sxes w !! Z.of_nat i = Some s;
  op_id : s_id s = Z.of_nat i;
  op_stream : stream_of fd s;
  op_buffer : buffered mid s;
  op_registered : registered w i (s_deferred_event s) false
}.

(** Closed: nothing is left to read, and nothing will come. *)
Record closed (w : world reader) (i : nat) (s : SXE) : Prop := {
  cl_at : w_sxes w !! Z.of_nat i = Some s;
  cl_id : s_id s = Z.of_nat i;
  cl_socket : s_socket s = SXE_SOCKET_INVALID;
  cl_fd : s_socket_as_fd s = -1;
  cl_buffer : s_in_total s = 0 /\ s_in_consumed s = 0 /\ zlen (s_in_buf s) = SXE_BUF_SIZE;
  cl_watch : ev_is_active s = false;
  cl_registered : registered w i (s_deferred_event s) true
}.

(** ** A connection *)
Implicit Types w : world reader.

Section Connection.
Context (i : nat) (fd : Z).
Abbreviation this := (Z.of_nat i).

Lemma buffered_used mid s : buffered mid s -> SXE_BUF_USED s = s_in_total s - s_in_consumed s.
Proof using. intros [? ? ? ? _]. unfold SXE_BUF_USED. apply u32_small. unfold is_u32, SXE_BUF_SIZE in *. lia. Qed.

(** Another value of the SXE that is still the connection. *)
Lemma open_put mid mid' w s s' :
  open mid w i fd s -> s_id s' = s_id s -> stream_of fd s' -> buffered mid' s' -> s_deferred_event s' = s_deferred_event s ->
  open mid' (put this s' w) i fd s'.
Proof using.
  intros [E I S B [R1 R2 R3]] Ei S' B' Ed. split; [apply put_at|congruence|done|done|]. rewrite Ed. by split.
Qed.

Lemma ev_io_start_run w s :
  w_sxes w !! this = Some s -> stream_of fd s -> ev_io_start this w = Ret (tt, put this (started s) w).
Proof using. intros E [? ? ? ? ? ? [_ Hf]]. apply ev_io_start_ret; [done|by rewrite Hf]. Qed.

Lemma started_stream s : stream_of fd s -> stream_of fd (started s).
Proof using. intros [? ? ? ? ? ? []]. by split. Qed.

Lemma started_id s : ev_is_active s = true -> started s = s.
Proof using. unfold ev_is_active, started. destruct s as [? []]. simpl. by intros ->. Qed.

Lemma flag_set_stream s f :
  Z.land f SXE_FLAG_IS_STREAM = 0 ->
  has_flag (set_s_flags (Z.lor (s_flags s) f) s) SXE_FLAG_IS_STREAM = has_flag s SXE_FLAG_IS_STREAM.
Proof using. intros Hf. unfold has_flag. simpl. by rewrite Z.land_lor_distr_l, Hf, Z.lor_0_r. Qed.

Lemma flag_clear_stream s f :
  Z.land SXE_FLAG_IS_STREAM f = 0 ->
  has_flag (set_s_flags (Z.ldiff (s_flags s) f) s) SXE_FLAG_IS_STREAM = has_flag s SXE_FLAG_IS_STREAM.
Proof using.
  intros Hf. unfold has_flag. simpl. do 2 f_equal. apply Z.bits_inj'. intros n Hn.
  apply (f_equal (fun z => Z.testbit z n)) in Hf. rewrite Z.land_spec, Z.bits_0 in Hf.
  rewrite !Z.land_spec, Z.ldiff_spec. destruct (Z.testbit (s_flags s) n), (Z.testbit SXE_FLAG_IS_STREAM n), (Z.testbit f n); done.
Qed.

(** *** The operations *)

Lemma pause_run mid w s :
  open mid w i fd s ->
  let s' := set_s_flags (Z.lor (s_flags s) SXE_FLAG_IS_PAUSED) s in
  sxe_pause this w = Ret (tt, put this s' w) /\ open mid (put this s' w) i fd s'.
Proof using.
  intros O. pose proof O as [E I S B R]. split; [by unfold sxe_pause; rewrite (upd_sxe_ret _ _ _ _ E)|].
  apply (open_put mid mid w s); try done.
  - destruct S. split; try done. by rewrite flag_set_stream.
  - destruct B. by split.
Qed.

(** The buffer emptied, and the watcher started if it was stopped. *)
Definition cleared (s : SXE) : SXE := started (set_s_in_total 0 (set_s_in_consumed 0 s)).

Lemma clear_ret w s :
  w_sxes w !! this = Some s -> stream_of fd s -> sxe_buf_clear this w = Ret (tt, put this (cleared s) w).
Proof using.
  intros E S. unfold sxe_buf_clear. step_at. set (s1 := set_s_in_total 0 (set_s_in_consumed 0 s)).
  assert (S1 : stream_of fd s1) by (by destruct S). step_at.
  rewrite (sf_as_fd _ _ S1). pose proof (sf_fd _ _ S1). replace (fd =? -1) with false by lia. simpl.
  destruct (ev_is_active s1) eqn:Ha; simpl.
  - unfold cleared. by rewrite started_id by done.
  - unfold restart_reading_buffer_drained. rewrite (ev_io_start_run _ s1); [|apply put_at|done]. by rewrite put_put.
Qed.

Lemma cleared_stream s : stream_of fd s -> stream_of fd (cleared s).
Proof using. intros S. apply started_stream. by destruct S. Qed.

Lemma cleared_buffered mid s : zlen (s_in_buf s) = SXE_BUF_SIZE -> buffered mid (cleared s).
Proof using. intros Hb. split; simpl; try done. destruct mid; done. Qed.

(** Taking bytes: the buffer is paused, and emptied with the last one. *)
Lemma consume_run_open mid w s n :
  open mid w i fd s -> 0 <= n <= SXE_BUF_USED s ->
  exists s', sxe_buf_consume this n w = Ret (tt, put this s' w) /\ open mid (put this s' w) i fd s' /\ unread s = take (Z.to_nat n) (unread s) ++ unread s'.
Proof using.
  intros O Hn. pose proof O as [E I S B R]. rewrite (buffered_used _ _ B) in Hn. pose proof B as [B1 B2 B3 B4 B5].
  unfold sxe_buf_consume. step_at.
  rewrite (buffered_used _ _ B).
  step_by (lift_assert6 (n <=? SXE_BUF_SIZE) w ltac:(lia)). step_by (lift_assert6 (n <=? s_in_total s - s_in_consumed s) w ltac:(lia)).
  step_at. rewrite (u32_small (s_in_consumed s + n)) by (unfold is_u32, SXE_BUF_SIZE in *; lia).
  unfold sxe_pause. step_at. set (s1 := set_s_flags _ _). step_at. cbn [s1 s_in_consumed s_in_total set_s_flags set_s_in_consumed].
  destruct (Z.eqb_spec (s_in_consumed s + n) (s_in_total s)) as [Hall|Hsome].
  - assert (S1 : stream_of fd s1) by (destruct S; split; try done; unfold s1; by rewrite flag_set_stream).
    exists (cleared s1). split; [rewrite (clear_ret _ s1 (put_at _ _ _) S1); by rewrite put_put|]. split.
    + apply (open_put mid mid w s); [done|done|by apply cleared_stream|by apply cleared_buffered|done].
    + unfold unread at 3. simpl. rewrite app_nil_r, take_ge; [done|]. unfold unread. rewrite length_take. lia.
  - exists s1. split; [done|]. split.
    + apply (open_put mid mid w s); [done|done| | |done].
      * destruct S. split; try done. unfold s1. by rewrite flag_set_stream.
      * split; simpl; try done; try lia.
    + unfold unread. simpl. rewrite take_take.
      rewrite (min_l (Z.to_nat n)) by lia.
      replace (Z.to_nat (s_in_consumed s + n)) with (Z.to_nat (s_in_consumed s) + Z.to_nat n)%nat by lia.
      rewrite <-drop_drop. set (b := drop (Z.to_nat (s_in_consumed s)) (s_in_buf s)).
      replace (Z.to_nat (s_in_total s - s_in_consumed s)) with (Z.to_nat n + Z.to_nat (s_in_total s - (s_in_consumed s + n)))%nat by lia.
      by rewrite <-take_take_drop.
Qed.

(** Moving the unread bytes to the start. *)
Definition moved (s : SXE) : SXE :=
  set_s_in_consumed 0 (set_s_in_total (s_in_total s - s_in_consumed s)
    (set_s_in_buf (splice (s_in_buf s) 0 (unread s)) s)).

Lemma unread_length mid s : buffered mid s -> zlen (unread s) = s_in_total s - s_in_consumed s.
Proof using. intros [B1 B2 B3 _ _]. unfold unread, zlen in *. rewrite length_take, length_drop. lia. Qed.

Lemma unread_slice mid s n :
  buffered mid s -> 0 <= n <= s_in_total s - s_in_consumed s ->
  slice (s_in_buf s) (SXE_BUF s) n = Some (take (Z.to_nat n) (unread s)).
Proof using.
  intros [B1 B2 B3 _ _] Hn. unfold SXE_BUF. rewrite slice_Some by lia. unfold unread. rewrite take_take. do 2 f_equal. lia.
Qed.

Lemma shuffle_run mid w s :
  w_sxes w !! this = Some s -> buffered mid s -> shuffle this w = Ret (tt, put this (moved s) w) /\ unread (moved s) = unread s.
Proof using.
  intros E B. pose proof B as [B1 B2 B3 B4 _]. pose proof (unread_length _ _ B) as Hl. split.
  - unfold shuffle. step_at. unfold shuffled. rewrite (buffered_used _ _ B).
    rewrite (unread_slice _ _ _ B) by lia. rewrite take_ge by (unfold zlen in *; lia). cbn [load mbind outcome_bind].
    rewrite wr_bytes_ok by lia. rewrite u32_small by (unfold is_u32, SXE_BUF_SIZE in *; lia). simpl.
    unfold mbind, cmd_bind, lift. simpl. by rewrite (upd_sxe_ret _ _ _ _ E).
  - unfold unread at 1. simpl. unfold splice. simpl. rewrite drop_0, take_app_le by (unfold zlen in *; lia).
    apply take_ge. unfold zlen in *. lia.
Qed.

Lemma moved_stream s : stream_of fd s -> stream_of fd (moved s).
Proof using. intros S. by destruct S. Qed.

(** A full buffer of which something was taken has room after it was moved, and its watcher may be started. *)
Lemma moved_buffered mid mid' s :
  buffered mid s -> s_in_consumed s <> 0 -> buffered mid' (started (moved s)).
Proof using.
  intros [B1 B2 B3 B4 _] Hc. split; simpl; try lia.
  - unfold zlen, splice. rewrite <-B1. unfold zlen. f_equal. simpl. rewrite length_app, length_drop.
    unfold unread. rewrite length_take, length_drop. unfold zlen in B1. lia.
  - unfold ev_is_active. simpl. destruct mid'; [done|]. split; [|done]. lia.
Qed.

(** Deferring the connection's read event. *)
Lemma deferred_setup_run mid w s :
  open mid w i fd s ->
  exists w', deferred_resume_setup this w = Ret (tt, w') /\
    open mid w' i fd (set_s_deferred_event (Some deferred_resume_invoke_ptr) s) /\
    w_trace w' = w_trace w /\ w_app w' = w_app w /\ w_globals w' = w_globals w.
Proof using.
  intros [E I S B [(p & Ep & Wp & Lp & Qi & Q2) Ra Rt]]. unfold deferred_resume_setup, deferred_generic_setup.
  step_by (global_ret g_array w). step_at. rewrite I.
  destruct (s_deferred_event s) as [[]|] eqn:Ed; simpl in Qi, Q2.
  - erewrite cmd_bind_ret by (apply on_objs_ret; apply (pool_state_of_ret _ _ _ Ep Wp i 2 Qi)).
    rewrite with_objs_same. simpl. exists w. split; [done|]. split; [|done].
    replace (set_s_deferred_event (Some deferred_resume_invoke_ptr) s) with s by (destruct s; cbn in Ed; by subst).
    split; try done. split; [|done..]. exists p. by rewrite Ed.
  - erewrite cmd_bind_ret by (apply on_objs_ret; apply (pool_state_of_ret _ _ _ Ep Wp i 1 Qi)).
    rewrite with_objs_same. change (Z.of_nat 1 =? SXE_STATE_DEFERRED) with false. cbv iota.
    erewrite cmd_bind_ret by (apply assert1_ret; by rewrite bool_decide_true).
    erewrite cmd_bind_ret by (apply on_objs_ret; apply (pool_set_state_ret _ _ _ Ep Wp i 1 2 Qi); lia).
    assert (E' : w_sxes (with_objs (with_pool (g_array (w_globals w)) (spec_move i 1 2 p) (w_objs w)) w) !! this = Some s) by done.
    rewrite (upd_sxe_ret _ _ _ _ E'). eexists. split; [done|]. split; [|done].
    split; [apply put_at|done|by destruct S|by destruct B|]. split; [|done..].
    eexists. split; [apply lookup_insert_eq|]. rewrite spec_move_abs. split; [apply move_wf; [done|done|lia]|].
    rewrite move_length. simpl. rewrite moved_queue by (done || lia). simpl. rewrite Q2. split; [done|].
    split; [apply list_elem_of_here|done].
Qed.

(** What an operation of the application keeps: the bytes taken and unread together, and the trace. *)
Definition taken w s : list Z := r_log (w_app w) ++ unread s.
Definition kept w s w' s' : Prop :=
  taken w' s' = taken w s /\ w_trace w' = w_trace w /\ r_script (w_app w') = r_script (w_app w) /\
  w_globals w' = w_globals w.

Lemma reader_kept_trans w1 s1 w2 s2 w3 s3 : kept w1 s1 w2 s2 -> kept w2 s2 w3 s3 -> kept w1 s1 w3 s3.
Proof using. unfold kept. intuition congruence. Qed.

Lemma open_app mid w s a : open mid w i fd s -> open mid (with_app a w) i fd s.
Proof using. by intros [? ? ? ? []]. Qed.

Lemma resume_flags_run mid w s :
  open mid w i fd s ->
  let s' := set_s_flags (Z.ldiff (s_flags s) SXE_FLAG_IS_PAUSED) s in
  open mid (put this s' w) i fd s' /\ unread s' = unread s.
Proof using.
  intros O. pose proof O as [E I S B R]. split; [|done]. apply (open_put mid mid w s); [done|done| |by destruct B|done].
  destruct S. split; try done. by rewrite flag_clear_stream.
Qed.

(** The part of sxe_buf_resume that makes room. *)
Lemma resume_room_run mid w s :
  open mid w i fd s ->
  exists s', (if negb (s_in_consumed s =? 0) && (s_in_total s =? SXE_BUF_SIZE) then shuffle this;; ev_io_start this else mret tt) w
      = Ret (tt, put this s' w) /\
    open mid (put this s' w) i fd s' /\ unread s' = unread s.
Proof using.
  intros O. pose proof O as [E I S B R].
  destruct (negb (s_in_consumed s =? 0) && (s_in_total s =? SXE_BUF_SIZE)) eqn:C.
  - destruct (shuffle_run mid w s E B) as [Sh U]. step_by Sh.
    rewrite (ev_io_start_run _ (moved s)); [|apply put_at|by apply moved_stream]. rewrite put_put.
    exists (started (moved s)). split; [done|]. split; [|done].
    apply (open_put mid mid w s); [done|done|by apply started_stream, moved_stream| |done].
    apply (moved_buffered mid); [done|lia].
  - exists s. rewrite put_same by done. done.
Qed.

Lemma resume_run mid w s r :
  open mid w i fd s ->
  exists w' s', sxe_buf_resume this r w = Ret (tt, w') /\ open mid w' i fd s' /\ kept w s w' s'.
Proof using.
  intros O. pose proof O as [E _ _ _ _]. unfold sxe_buf_resume. step_at. set (s1 := set_s_flags _ s).
  destruct (resume_flags_run mid w s O) as [O1 U1]. fold s1 in O1, U1. step_at.
  destruct (resume_room_run mid _ s1 O1) as (s2 & R2 & O2 & U2). step_by R2. rewrite put_put in *. step_at.
  destruct (bool_decide (r = SXE_BUF_RESUME_IMMEDIATE) && negb (SXE_BUF_USED s2 =? 0)) eqn:C.
  - destruct (deferred_setup_run mid _ s2 O2) as (w3 & R3 & O3 & T3 & A3 & G3). rewrite R3. eexists _, _. split; [done|]. split; [done|].
    unfold kept, taken. rewrite T3, A3, G3. change (unread (set_s_deferred_event _ s2)) with (unread s2). by rewrite U2, U1.
  - eexists _, _. split; [done|]. split; [done|]. unfold kept, taken. by rewrite U2, U1.
Qed.

Lemma app_op_run mid w s op :
  open mid w i fd s ->
  exists w' s', run_input this op w = Ret (tt, w') /\ open mid w' i fd s' /\ kept w s w' s'.
Proof using.
  intros O. pose proof O as [E I S B R]. destruct op as [n| | |r]; cbn [run_input].
  - step_at. destruct ((0 <=? n) && (n <=? SXE_BUF_USED s)) eqn:C; [|exists w, s; done].
    rewrite (buffered_used _ _ B) in C.
    rewrite (unread_slice mid) by (done || lia). unfold log, modify, lift. cbn [load]. unfold mbind at 1 2, cmd_bind at 1 2.
    set (l := take (Z.to_nat n) (unread s)).
    set (w1 := with_app _ w). assert (O1 : open mid w1 i fd s) by by apply open_app.
    destruct (consume_run_open mid w1 s n O1) as (s' & R' & O' & U'); [rewrite (buffered_used _ _ B); lia|].
    eexists _, s'. split; [exact R'|]. split; [done|]. unfold kept, taken. simpl. rewrite <-(assoc_L (++)). unfold l. by rewrite <-U'.
  - step_at. unfold log, modify. unfold mbind at 1, cmd_bind at 1. set (w1 := with_app _ w).
    assert (O1 : open mid w1 i fd s) by by apply open_app. rewrite (clear_ret w1 s) by done.
    eexists _, (cleared s). split; [done|]. split.
    + apply (open_put mid mid w1 s); [done|done|by apply cleared_stream|apply cleared_buffered; by destruct B|done].
    + unfold kept, taken. simpl. by rewrite app_nil_r.
  - destruct (pause_run mid w s O) as [-> O']. eexists _, _. split; [done|]. by split.
  - by apply resume_run.
Qed.

Lemma ops_run mid ops : forall w s, open mid w i fd s ->
  exists w' s', run_inputs this ops w = Ret (tt, w') /\ open mid w' i fd s' /\ kept w s w' s'.
Proof using.
  induction ops as [|op ops IH]; intros w s O; cbn [run_inputs]; [by exists w, s|].
  destruct (app_op_run mid w s op O) as (w1 & s1 & R1 & O1 & K1). step_by R1.
  destruct (IH w1 s1 O1) as (w2 & s2 & R2 & O2 & K2). rewrite R2. exists w2, s2. split; [done|]. split; [done|].
  by eapply reader_kept_trans.
Qed.

(** The callback: like the operations, but for the script. *)
Lemma script_run mid w s :
  open mid w i fd s ->
  exists w' s', read_script this w = Ret (tt, w') /\ open mid w' i fd s' /\ taken w' s' = taken w s /\
    w_trace w' = w_trace w /\ r_script (w_app w') = tail (r_script (w_app w)) /\ w_globals w' = w_globals w.
Proof using.
  intros O. unfold read_script. unfold gets. unfold mbind at 1, cmd_bind at 1.
  destruct (r_script (w_app w)) as [|ops script] eqn:Es; [exists w, s; by rewrite Es|].
  unfold modify. unfold mbind at 1, cmd_bind at 1. set (w1 := with_app _ w).
  destruct (ops_run mid ops w1 s) as (w' & s' & R & O' & K1 & K2 & K3 & K4); [by apply open_app|].
  exists w', s'. split; [done|]. split; [done|]. split; [done|]. by rewrite K2, K3, K4.
Qed.

(** *** Reading *)

(** The SXE when the bytes [l] have come. *)
Definition arrived (s : SXE) (l : list Z) : SXE :=
  set_s_in_total (s_in_total s + zlen l) (set_s_in_buf (splice (s_in_buf s) (s_in_total s) l) s).

Lemma arrived_unread mid s l :
  buffered mid s -> zlen l <= room_left s -> unread (arrived s l) = unread s ++ l.
Proof using.
  intros B Hl. pose proof (unread_length _ _ B) as Hu. destruct B as [B1 B2 B3 _ _]. unfold room_left in Hl. pose proof (zlen_nonneg l).
  unfold unread at 1. simpl. unfold splice.
  assert (Ex : drop (Z.to_nat (s_in_consumed s)) (take (Z.to_nat (s_in_total s)) (s_in_buf s)) = unread s).
  { unfold unread. rewrite take_drop_commute. do 2 f_equal. lia. }
  rewrite drop_app_le by (rewrite length_take; unfold zlen in B1; lia). rewrite Ex, (assoc_L (++)).
  rewrite take_app_le by (rewrite length_app; unfold zlen in *; lia).
  apply take_ge. rewrite length_app. unfold zlen in *. lia.
Qed.

Lemma arrived_buffered s l :
  buffered false s -> ev_is_active s = true -> 0 < zlen l <= room_left s -> buffered true (arrived s l).
Proof using.
  intros [B1 B2 B3 B4 B5] Ha Hl. unfold room_left in Hl. split; simpl; try lia; [|done].
  unfold zlen at 1. rewrite splice_length by lia. done.
Qed.

Lemma arrived_stream s l : stream_of fd s -> stream_of fd (arrived s l).
Proof using. intros S. by destruct S. Qed.

(** The end of the handling of new data: what a full buffer needs. *)
Lemma handled_run w s :
  open true w i fd s ->
  exists s', (if s_in_total s =? SXE_BUF_SIZE then
     if negb (s_in_consumed s =? 0) then shuffle this else stop_reading_buffer_full this else mret tt) w = Ret (tt, put this s' w) /\
    open false (put this s' w) i fd s' /\ unread s' = unread s.
Proof using.
  intros O. pose proof O as [E I S B R]. pose proof B as [B1 B2 B3 B4 B5].
  destruct (Z.eqb_spec (s_in_total s) SXE_BUF_SIZE) as [Hf|Hf]; [destruct (Z.eqb_spec (s_in_consumed s) 0) as [Hc|Hc]|]; cbn [negb].
  - unfold stop_reading_buffer_full, ev_io_stop. rewrite (upd_sxe_ret _ _ _ _ E). eexists. split; [done|]. split; [|done].
    apply (open_put true false w s); [done|done| | |done].
    + destruct S as [? ? ? ? ? ? []]. by split.
    + split; simpl; try done. unfold ev_is_active. simpl. split; [done|lia].
  - destruct (shuffle_run true w s E B) as [Sh U]. rewrite Sh. eexists. split; [done|]. split; [|done].
    apply (open_put true false w s); [done|done|by apply moved_stream| |done].
    rewrite <-(started_id (moved s)) by done. by apply (moved_buffered true).
  - exists s. rewrite put_same by done. split; [done|]. split; [|done]. split; try done. split; try done. split; [lia|done].
Qed.

#[local] Existing Instance reader_callbacks.

Lemma handle_read_run w s l remaining :
  open false w i fd s -> ev_is_active s = true -> 0 < zlen l <= room_left s ->
  exists w' s' remaining',
    sxe_private_handle_read_data this (zlen l) remaining (put this (set_s_in_buf (splice (s_in_buf s) (s_in_total s) l) s) w)
      = Ret (remaining', w') /\
    open false w' i fd s' /\ taken w' s' = taken w s ++ l /\ w_trace w' = w_trace w.
Proof using.
  intros O Ha Hl. pose proof O as [E I S B R]. pose proof (bf_consumed _ _ B). pose proof (bf_total _ _ B).
  unfold sxe_private_handle_read_data. step_at.
  assert (Ea : set_s_in_total (u32 (s_in_total (set_s_in_buf (splice (s_in_buf s) (s_in_total s) l) s) + zlen l))
     (set_s_in_buf (splice (s_in_buf s) (s_in_total s) l) s) = arrived s l).
  { simpl. unfold arrived. rewrite u32_small; [done|]. unfold is_u32, room_left, SXE_BUF_SIZE in *. lia. }
  rewrite Ea. clear Ea. unfold upd_global, modify. unfold mbind at 1, cmd_bind at 1. set (w1 := with_globals _ _).
  assert (O1 : open true w1 i fd (arrived s l)).
  { assert (O1 : open true (put this (arrived s l) w) i fd (arrived s l)).
    { apply (open_put false true w s); [done|done|by apply arrived_stream|by apply arrived_buffered|done]. }
    destruct O1 as [? ? ? ? []]. split; try done. }
  assert (K1 : taken w1 (arrived s l) = taken w s ++ l).
  { unfold taken. rewrite (arrived_unread false) by (done || lia). simpl. by rewrite (assoc_L (++)). }
  assert (T1 : w_trace w1 = w_trace w) by done. clearbody w1. set (s1 := arrived s l) in *.
  pose proof (op_at _ _ _ _ _ O1) as E1. step_at.
  assert (exists w2 s2 rem2, (if negb (has_flag s1 SXE_FLAG_IS_PAUSED)
      then through (s_in_event_read s1) (call_read (s_in_event_read s1) this (zlen l));; mret (Z.pred <$> remaining)
      else mret remaining) w1 = Ret (rem2, w2) /\ open true w2 i fd s2 /\ taken w2 s2 = taken w s ++ l /\ w_trace w2 = w_trace w)
    as (w2 & s2 & rem2 & R2 & O2 & K2 & T2).
  { destruct (negb (has_flag s1 SXE_FLAG_IS_PAUSED)); [|by exists w1, s1, remaining].
    unfold through. rewrite (proj2 (Z.eqb_neq _ _)) by apply (sf_read _ _ (op_stream _ _ _ _ _ O1)). cbn [call_read reader_callbacks].
    destruct (script_run true w1 s1 O1) as (w2 & s2 & R2 & O2 & K2 & T2 & _). step_by R2. exists w2, s2, (Z.pred <$> remaining).
    split; [done|]. split; [done|]. by rewrite K2, T2. }
  step_by R2. pose proof (op_at _ _ _ _ _ O2) as E2. step_at.
  destruct (handled_run w2 s2 O2) as (s3 & R3 & O3 & U3). step_by R3. exists (put this s3 w2), s3, rem2.
  split; [done|]. split; [done|]. unfold taken in *. by rewrite U3.
Qed.

(** What one event leaves: the connection, with the bytes that the socket delivered behind those before; or
    the connection closed, with nothing delivered out of order. *)
Definition after (w : world reader) (s : SXE) (w' : world reader) : Prop :=
  exists t, w_trace w' = w_trace w ++ t /\
    ((exists s', open false w' i fd s' /\ taken w' s' = taken w s ++ received fd t) \/
     (exists s', closed w' i s') /\ exists lost, r_log (w_app w') ++ lost = taken w s ++ received fd t).

(** The SXE that sxe_close leaves. *)
Definition shut (s : SXE) : SXE :=
  set_s_in_consumed 0 (set_s_in_total 0 (set_s_out_event_written NULL (set_s_in_event_read NULL (set_s_in_event_connected NULL
    (set_s_socket SXE_SOCKET_INVALID (set_s_socket_as_fd (-1) (set_s_async (mk_async false (async_cb (s_async s)) false)
      (set_s_io (mk_io false (io_cb (s_io s)) (io_fd (s_io s)) (io_events (s_io s))) s)))))))).

Lemma close_handles_run w s :
  w_sxes w !! this = Some s -> stream_of fd s ->
  exists t s', (ev_io_stop this;; ev_async_stop this;;
       (if 0 <=? s_socket_as_fd s then sys (Sys_close (s_socket_as_fd s));; upd_sxe this (set_s_socket_as_fd (-1)) else mret tt);;
       sys (Sys_close (s_socket s));; upd_sxe this (set_s_socket SXE_SOCKET_INVALID)) w
    = Ret (tt, put this s' (with_trace (w_trace w ++ t) w)) /\ received fd t = [] /\
    set_s_in_consumed 0 (set_s_in_total 0 (set_s_out_event_written NULL (set_s_in_event_read NULL (set_s_in_event_connected NULL s'))))
    = shut s.
Proof using.
  intros E [Hf Hs Ha _ _ _ _]. unfold ev_io_stop, ev_async_stop. step_at. step_at. rewrite Ha, Hs.
  replace (0 <=? fd) with true by lia.
  unfold mbind at 1, cmd_bind at 1. unfold mbind at 1, cmd_bind at 1. rewrite sys_ret. cbv beta iota.
  erewrite upd_sxe_ret by apply put_at. unfold mbind at 1, cmd_bind at 1. rewrite sys_ret. cbv beta iota.
  erewrite upd_sxe_ret by apply put_at. eexists [_; _], _. split.
  - do 2 f_equal. unfold put, with_sxes, with_trace. cbn. rewrite !insert_insert_eq, <-(assoc_L (++)). reflexivity.
  - done.
Qed.

Lemma shut_closed w s t :
  open false w i fd s -> forall p, o_pools (w_objs w) !! g_array (w_globals w) = Some p -> pool_wf (sp_abs p) ->
  length (queues (sp_abs p)) = 3%nat -> forall k, i ∈ queue_of (sp_abs p) k -> k <> 0%nat ->
  queue_of (sp_abs p) 2 = (if decide (k = 2%nat) then [i] else []) ->
  closed (put this (shut s) (with_objs (with_pool (g_array (w_globals w)) (spec_move i k 0 p) (w_objs w)) (with_trace t w))) i (shut s).
Proof using.
  intros [E I S B [_ Ra Rt]] p Ep Wp Lp k Hk Hk0 Q2. split; try done.
  - apply put_at.
  - destruct B. simpl. done.
  - split; [|done..]. exists (spec_move i k 0 p). split; [apply lookup_insert_eq|]. rewrite spec_move_abs.
    split; [apply move_wf; [done|done|lia]|]. rewrite move_length. split; [done|]. rewrite !moved_queue by (done || lia). simpl.
    split; [set_solver|]. destruct (decide (2%nat = k)) as [<-|Hne]; simpl; rewrite Q2.
    + rewrite decide_True by done. by rewrite filter_cons_False by auto.
    + by rewrite decide_False by auto.
Qed.

Lemma close_run w s :
  open false w i fd s ->
  exists w', sxe_close this w = Ret (SXE_RETURN_OK, w') /\ closed w' i (shut s) /\ w_app w' = w_app w /\
    exists t, w_trace w' = w_trace w ++ t /\ received fd t = [].
Proof using.
  intros O. pose proof O as [E I S B [(p & Ep & Wp & Lp & Qi & Q2) Ra Rt]]. unfold sxe_close.
  step_by (global_ret g_array w). step_at. rewrite I.
  simpl in Qi, Q2. set (k := if decide (s_deferred_event s = None) then 1%nat else 2%nat) in *.
  assert (Hk : k <> 0%nat /\ (Z.of_nat k =? SXE_STATE_FREE) = false /\
    (Z.of_nat k =? SXE_STATE_DEFERRED) || (Z.of_nat k =? SXE_STATE_USED) = true /\
    queue_of (sp_abs p) 2 = (if decide (k = 2%nat) then [i] else [])).
  { rewrite Q2. unfold k. destruct (decide (s_deferred_event s = None)); by by split_and!. }
  destruct Hk as (Hk & K1 & K2 & K3). clearbody k.
  erewrite cmd_bind_ret by (apply on_objs_ret; apply (pool_state_of_ret _ _ _ Ep Wp i k Qi)). rewrite with_objs_same.
  erewrite cmd_bind_ret by (apply lift_assert6; by rewrite (proj2 (Z.eqb_neq _ _))).
  step_by (global_ret g_array_total w). erewrite cmd_bind_ret by (apply lift_assert6; lia). rewrite K1.
  erewrite cmd_bind_ret by (apply assert1_ret; done).
  replace (negb (s_socket s =? SXE_SOCKET_INVALID)) with true
    by (rewrite (sf_socket _ _ S); pose proof (sf_fd _ _ S); unfold SXE_SOCKET_INVALID; lia).
  destruct (close_handles_run w s E S) as (t & s' & R & Rt' & Es). step_by R. step_at. rewrite Es.
  erewrite cmd_bind_ret by (apply on_objs_ret; apply (pool_set_state_ret _ _ _ Ep Wp i k 0 Qi); lia).
  eexists. split; [done|]. split; [|split; [done|by exists t]].
  by apply (shut_closed w s (w_trace w ++ t) O p).
Qed.

(** *** Deferred events *)

Lemma deferred_none counter w :
  registered w i None false \/ (exists d, registered w i d true) ->
  deferred_loop (g_array (w_globals w)) counter w = Ret (tt, w).
Proof using.
  intros C.
  assert (exists p, o_pools (w_objs w) !! g_array (w_globals w) = Some p /\ length (queues (sp_abs p)) = 3%nat /\
    queue_of (sp_abs p) 2 = []) as (p & Ep & Lp & Q2).
  { destruct C as [[(p & ? & _ & ? & _ & ?) _ _]|[d [(p & ? & _ & ? & _ & ?) _ _]]]; by exists p. }
  destruct counter; cbn [deferred_loop];
    erewrite cmd_bind_ret by (apply on_objs_ret; apply (pool_set_oldest_none _ _ _ Ep 2 1 Q2); lia);
    rewrite with_objs_same; by rewrite Z.eqb_refl.
Qed.

Lemma deferred_run counter : forall w s,
  open false w i fd s -> (length (r_script (w_app w)) < counter)%nat ->
  exists w' s', deferred_loop (g_array (w_globals w)) counter w = Ret (tt, w') /\ open false w' i fd s' /\
    taken w' s' = taken w s /\ w_trace w' = w_trace w.
Proof using.
  induction counter as [|counter IH]; intros w s O Hc; [lia|]. pose proof O as [E I S B R].
  destruct (s_deferred_event s) as [[]|] eqn:Ed; [|exists w, s; rewrite deferred_none by auto; done].
  destruct R as [(p & Ep & Wp & Lp & Qi & Q2) Ra Rt]. simpl in Qi, Q2. cbn [deferred_loop].
  erewrite cmd_bind_ret by (apply on_objs_ret; apply (pool_set_oldest_ret _ _ _ Ep i [] 2 1 Q2); lia).
  rewrite (proj2 (Z.eqb_neq _ SXE_POOL_NO_INDEX)) by lia.
  set (w1 := with_objs _ w). assert (E1 : w_sxes w1 !! this = Some s) by done. step_at. rewrite Ed. step_at.
  set (s1 := set_s_deferred_event None s). set (w2 := put this s1 w1).
  assert (O2 : open false w2 i fd s1).
  { split; [apply put_at|done|by destruct S|by destruct B|]. split; [|done..]. exists (spec_move i 2 1 p).
    split; [apply lookup_insert_eq|]. rewrite spec_move_abs. split; [apply move_wf; [done|done|lia]|].
    rewrite move_length. split; [done|]. simpl. rewrite !moved_queue by (done || lia). simpl. split; [set_solver|].
    rewrite Q2. by rewrite filter_cons_False by auto. }
  assert (K2 : taken w2 s1 = taken w s /\ w_trace w2 = w_trace w /\ w_app w2 = w_app w /\ w_globals w2 = w_globals w) by done.
  clearbody w2. destruct K2 as (K2 & T2 & A2 & G2). pose proof (op_at _ _ _ _ _ O2) as E2.
  assert (Hcall : deferred_event_call deferred_resume_invoke_ptr this w2 = read_script this w2).
  { unfold deferred_event_call, deferred_resume_invoke. step_at. unfold through.
    by rewrite (proj2 (Z.eqb_neq _ _)) by apply (sf_read _ _ (op_stream _ _ _ _ _ O2)). }
  destruct (r_script (w_app w)) as [|ops script] eqn:Es.
  - assert (Hr : read_script this w2 = Ret (tt, w2)).
    { unfold read_script, gets. unfold mbind, cmd_bind. by rewrite A2, Es. }
    rewrite Hr in Hcall. step_by Hcall. exists w2, s1.
    rewrite <-G2, deferred_none by (left; apply (op_registered _ _ _ _ _ O2)). by rewrite K2.
  - destruct (script_run false w2 s1 O2) as (w3 & s3 & R3 & O3 & K3 & T3 & Sc3 & G3). rewrite R3 in Hcall. step_by Hcall.
    rewrite <-G2, <-G3. destruct (IH w3 s3 O3) as (w4 & s4 & R4 & O4 & K4 & T4).
    { rewrite Sc3, A2, Es. simpl in *. lia. }
    exists w4, s4. split; [done|]. split; [done|]. by rewrite K4, K3, K2, T4, T3, T2.
Qed.

(** *** Events *)

Lemma closed_op w s op :
  closed w i s -> exists w' s', run_input this op w = Ret (tt, w') /\ closed w' i s' /\
    r_log (w_app w') = r_log (w_app w) /\ w_trace w' = w_trace w.
Proof using.
  intros [E I Sk Sf (B1 & B2 & B3) Wa R].
  assert (P : forall f, let s' := f s in s_id s' = s_id s -> s_socket s' = s_socket s -> s_socket_as_fd s' = s_socket_as_fd s ->
    s_in_total s' = 0 -> s_in_consumed s' = 0 -> s_in_buf s' = s_in_buf s -> ev_is_active s' = ev_is_active s ->
    closed (put this s' w) i s').
  { intros f s' ? ? ? ? ? Hb ?. split; try congruence; [apply put_at|by rewrite Hb|]. destruct R. by split. }
  assert (U : SXE_BUF_USED s = 0) by (unfold SXE_BUF_USED; by rewrite B1, B2).
  assert (Un : unread s = []) by (unfold unread; by rewrite B1, B2).
  destruct op as [n| | |r]; cbn [run_input].
  - step_at. rewrite U. destruct ((0 <=? n) && (n <=? 0)) eqn:C; [|exists w, s; done].
    assert (n = 0) as -> by lia. unfold SXE_BUF. rewrite B2, slice_Some by (rewrite ?B3; unfold SXE_BUF_SIZE; lia). simpl (load _). cbv beta.
    unfold log, modify, lift. unfold mbind at 1 2, cmd_bind at 1 2. set (w1 := with_app _ w). assert (E1 : w_sxes w1 !! this = Some s) by done.
    unfold sxe_buf_consume. step_at. erewrite cmd_bind_ret by (by apply lift_assert6).
    erewrite cmd_bind_ret by (apply lift_assert6; by rewrite U). step_at. unfold sxe_pause. step_at. step_at.
    cbn [s_in_consumed s_in_total set_s_flags set_s_in_consumed]. rewrite B1, B2. change (u32 (0 + 0) =? 0) with true. cbv iota.
    unfold sxe_buf_clear. step_at. step_at. cbn [s_socket_as_fd set_s_flags set_s_in_consumed set_s_in_total]. rewrite Sf.
    eexists _, (set_s_in_total 0 (set_s_in_consumed 0 (set_s_flags (Z.lor (s_flags s) SXE_FLAG_IS_PAUSED)
      (set_s_in_consumed (u32 (0 + 0)) s)))).
    split; [reflexivity|]. split; [|split; [simpl; by rewrite app_nil_r|done]].
    split; simpl; try done; [apply put_at|]. destruct R. by split.
  - step_at. unfold log, modify. unfold mbind at 1, cmd_bind at 1. set (w1 := with_app _ w). assert (E1 : w_sxes w1 !! this = Some s) by done.
    unfold sxe_buf_clear. step_at. step_at. cbn [s_socket_as_fd set_s_in_consumed set_s_in_total]. rewrite Sf.
    eexists _, (set_s_in_total 0 (set_s_in_consumed 0 s)).
    split; [reflexivity|]. split; [|split; [simpl; by rewrite Un, app_nil_r|done]].
    split; simpl; try done; [apply put_at|]. destruct R. by split.
  - unfold sxe_pause. rewrite (upd_sxe_ret _ _ _ _ E). eexists _, _. split; [done|]. split; [|done].
    by apply (P (fun s => set_s_flags (Z.lor (s_flags s) SXE_FLAG_IS_PAUSED) s)).
  - unfold sxe_buf_resume. step_at. step_at. cbn [s_in_consumed set_s_flags]. rewrite B2. cbn [negb andb Z.eqb].
    erewrite cmd_bind_ret by reflexivity. step_at.
    change (SXE_BUF_USED (set_s_flags _ s)) with (SXE_BUF_USED s). rewrite U. simpl. rewrite andb_false_r.
    eexists _, _. split; [done|]. split; [|done]. by apply (P (fun s => set_s_flags (Z.ldiff (s_flags s) SXE_FLAG_IS_PAUSED) s)).
Qed.
Context `{!RecvLaw H0}.

Lemma after_trace w0 w s t w' :
  w_app w = w_app w0 -> w_trace w = w_trace w0 ++ t -> received fd t = [] -> after w s w' -> after w0 s w'.
Proof using.
  intros Ha Ht Hr (u & Tu & C). exists (t ++ u). rewrite Tu, Ht, (assoc_L (++)). split; [done|].
  rewrite received_app, Hr. unfold taken in *. by rewrite Ha in C.
Qed.

(** A failed read: the connection is not ready, or it is closed. *)
Lemma read_closed_run w s :
  open false w i fd s -> exists w', read_closed this w = Ret (tt, w') /\ after w s w'.
Proof using.
  intros O. pose proof O as [E I S B R]. unfold read_closed. step_at. rewrite (sf_stream _ _ S).
  destruct (close_run w s O) as (w' & C & Cl & Ca & t & Ct & Cr). step_by C. pose proof (cl_at _ _ _ Cl) as E'. step_at.
  exists w'. split; [by destruct (negb _)|]. exists t. split; [done|]. right. split; [by eexists|].
  exists (unread s). rewrite Ca, Cr. unfold taken. by rewrite app_nil_r.
Qed.

Lemma open_trace mid w s t : open mid w i fd s -> open mid (with_trace t w) i fd s.
Proof using. by intros [? ? ? ? []]. Qed.

Lemma readable_run w s :
  open false w i fd s -> ev_is_active s = true ->
  exists w', sxe_io_cb_read this EV_READ w = Ret (tt, w') /\ after w s w'.
Proof using RecvLaw0.
  intros O Ha. pose proof O as [E I S B R]. unfold sxe_io_cb_read. step_at.
  replace (s_socket s =? SXE_SOCKET_INVALID) with false
    by (rewrite (sf_socket _ _ S); pose proof (sf_fd _ _ S); unfold SXE_SOCKET_INVALID; lia).
  rewrite Z.eqb_refl. destruct READ_FUEL as [|fuel] eqn:Ef; [by vm_compute in Ef|]. clear Ef. cbn [read_again].
  assert (Hroom : 0 < room_left s) by (unfold room_left; pose proof (proj1 (bf_watch _ _ B) Ha); lia).
  set (c := Sys_recv fd (room_left s)). set (r := kernel_reply (w_trace w) c).
  set (w1 := with_trace (w_trace w ++ [mk_event c r]) w).
  assert (O1 : open false w1 i fd s) by by apply open_trace.
  assert (Hrec : received fd [mk_event c r] = if 0 <? r_ret r then r_data r else []).
  { unfold received. simpl. rewrite app_nil_r. unfold received_by. simpl. by rewrite Z.eqb_refl. }
  assert (Rd : read_once this w = (store_input this r;; mret (r_ret r, r_errno r)) w1).
  { unfold read_once. step_at. rewrite bool_decide_false by (rewrite (sf_path _ _ S); by intros H2). rewrite (sf_stream _ _ S).
    step_by (sys_ret (Sys_recv (s_socket s) (room_left s)) w). by rewrite (sf_socket _ _ S). }
  unfold store_input in Rd. pose proof (op_at _ _ _ _ _ O1) as E1.
  destruct (Z.leb_spec (r_ret r) 0) as [Hz|Hp].
  - rewrite (proj2 (Z.ltb_ge 0 (r_ret r))) in Hrec by lia.
    step_by Rd. rewrite (proj2 (Z.ltb_ge 0 (r_ret r))) by lia.
    destruct ((r_ret r <? 0) && (r_errno r =? EWOULDBLOCK)).
    + exists w1. split; [done|]. exists [mk_event c r]. split; [done|]. left. exists s. split; [done|]. rewrite Hrec. by rewrite app_nil_r.
    + destruct (read_closed_run w1 s O1) as (w' & R' & A'). exists w'. split; [done|].
      by apply (after_trace w w1 s [mk_event c r]).
  - pose proof (recv_room (w_trace w) fd (room_left s) Hroom) as Hle. pose proof (recv_data (w_trace w) fd (room_left s) Hp) as Hd.
    fold c in Hle, Hd. change (kernel_reply (w_trace w) c) with r in Hle, Hd. rewrite (proj2 (Z.ltb_lt 0 (r_ret r)) Hp) in Hrec.
    pose proof (bf_size _ _ B). pose proof (bf_consumed _ _ B). unfold room_left in Hle.
    assert (Rd' : read_once this w
      = Ret (r_ret r, r_errno r, put this (set_s_in_buf (splice (s_in_buf s) (s_in_total s) (r_data r)) s) w1)).
    { rewrite Rd. unfold mbind, cmd_bind, lift. rewrite (rd_sxe_ret _ _ _ E1), bool_decide_true by done.
      rewrite wr_bytes_ok by lia. by rewrite (upd_sxe_ret _ _ _ _ E1). }
    step_by Rd'. rewrite (proj2 (Z.ltb_lt 0 (r_ret r)) Hp). rewrite <-Hd.
    destruct (handle_read_run w1 s (r_data r) (Some SXE_IO_CB_READ_MAXIMUM) O1 Ha) as (w2 & s2 & rem & R2 & O2 & K2 & T2).
    { unfold room_left. lia. }
    step_by R2. pose proof (op_at _ _ _ _ _ O2) as E2. step_at. rewrite (sf_stream _ _ (op_stream _ _ _ _ _ O2)). simpl.
    exists w2. split; [done|]. exists [mk_event c r]. split; [by rewrite T2|]. left. exists s2. split; [done|]. by rewrite K2, Hrec.
Qed.


Lemma closed_ops ops : forall w s, closed w i s ->
  exists w' s', run_inputs this ops w = Ret (tt, w') /\ closed w' i s' /\ r_log (w_app w') = r_log (w_app w) /\ w_trace w' = w_trace w.
Proof using.
  induction ops as [|op ops IH]; intros w s C; cbn [run_inputs]; [by exists w, s|].
  destruct (closed_op w s op C) as (w1 & s1 & R1 & C1 & K1 & T1). step_by R1.
  destruct (IH w1 s1 C1) as (w2 & s2 & R2 & C2 & K2 & T2). rewrite R2. exists w2, s2. split; [done|]. split; [done|].
  by rewrite K2, T2.
Qed.

Lemma closed_event w s e :
  closed w i s -> exists w' s', run_event this e w = Ret (tt, w') /\ closed w' i s' /\
    r_log (w_app w') = r_log (w_app w) /\ w_trace w' = w_trace w.
Proof using.
  intros C. pose proof C as [E I Sk Sf B Wa R]. destruct e as [script|script|ops]; cbn [run_event].
  - step_at. unfold ev_is_active in Wa. rewrite Wa. by exists w, s.
  - unfold set_script, modify. unfold mbind at 1, cmd_bind at 1. set (w1 := with_app _ w).
    assert (C1 : closed w1 i s) by (split; try done; by destruct R). unfold deferred_generic_invoke.
    step_by (global_ret g_array w1). rewrite deferred_none by (right; eexists; apply (cl_registered _ _ _ C1)).
    by exists w1, s.
  - by apply (closed_ops ops w s).
Qed.

Lemma event_run w s e :
  open false w i fd s -> event_ok e -> exists w', run_event this e w = Ret (tt, w') /\ after w s w'.
Proof using RecvLaw0.
  intros O He. pose proof O as [E I S B R].
  assert (Q : forall w' s', open false w' i fd s' -> taken w' s' = taken w s -> w_trace w' = w_trace w -> after w s w').
  { intros w' s' O' K T. exists []. split; [by rewrite app_nil_r|]. left. exists s'. split; [done|]. by rewrite app_nil_r. }
  destruct e as [script|script|ops]; cbn [run_event].
  - step_at. destruct (io_active (s_io s) && _) eqn:C; [|exists w; split; [done|by apply (Q w s)]].
    apply andb_true_iff in C as [Ha _]. unfold set_script, modify. unfold mbind at 1, cmd_bind at 1. set (w1 := with_app _ w).
    destruct (readable_run w1 s) as (w' & R' & t & Tt & Ct); [by apply open_app|done|].
    exists w'. split; [done|]. by exists t.
  - unfold set_script, modify. unfold mbind at 1, cmd_bind at 1. set (w1 := with_app _ w).
    unfold deferred_generic_invoke. step_by (global_ret g_array w1).
    destruct (deferred_run 64 w1 s) as (w' & s' & R' & O' & K' & T'); [by apply open_app|simpl in *; lia|].
    exists w'. split; [done|]. by apply (Q w' s').
  - destruct (ops_run false ops w s O) as (w' & s' & R' & O' & K' & T' & _). exists w'. split; [done|]. by apply (Q w' s').
Qed.

Lemma closed_events es : forall w s, closed w i s ->
  exists w' s', run_events this es w = Ret (tt, w') /\ closed w' i s' /\ r_log (w_app w') = r_log (w_app w) /\ w_trace w' = w_trace w.
Proof using.
  induction es as [|e es IH]; intros w s C; cbn [run_events]; [by exists w, s|].
  destruct (closed_event w s e C) as (w1 & s1 & R1 & C1 & K1 & T1). step_by R1.
  destruct (IH w1 s1 C1) as (w2 & s2 & R2 & C2 & K2 & T2). rewrite R2. exists w2, s2. split; [done|]. split; [done|].
  by rewrite K2, T2.
Qed.

Lemma events_run es : Forall event_ok es -> forall w s, open false w i fd s ->
  exists w', run_events this es w = Ret (tt, w') /\ after w s w'.
Proof using RecvLaw0.
  induction 1 as [|e es He Hes IH]; intros w s O; cbn [run_events].
  - exists w. split; [done|]. exists []. split; [by rewrite app_nil_r|]. left. exists s. split; [done|]. by rewrite app_nil_r.
  - destruct (event_run w s e O He) as (w1 & R1 & t1 & T1 & [(s1 & O1 & K1)|[[s1 C1] (lost & L1)]]); step_by R1.
    + destruct (IH w1 s1 O1) as (w2 & R2 & t2 & T2 & D2). exists w2. split; [done|]. exists (t1 ++ t2).
      split; [by rewrite T2, T1, (assoc_L (++))|]. by rewrite received_app, (assoc_L (++)), <-K1.
    + destruct (closed_events es w1 s1 C1) as (w2 & s2 & R2 & C2 & K2 & T2). exists w2. split; [done|]. exists t1.
      split; [by rewrite T2|]. right. split; [by exists s2|]. exists lost. by rewrite K2.
Qed.

(** C3: the input buffer is a queue of bytes. However reads, deferred events and the application's operations
    follow each other (in the read callback or outside it: taking some of the bytes, throwing them away, pausing,
    resuming at once or with the next data), whatever the kernel delivers and when, as long as one turn of the event loop runs the read callback from deferred events at most 63 times in a row
    (the loop runs 64 deferred events, and loses the one behind them), every call returns
    normally, and while the connection is open the bytes that the application took and those that
    are unread are together the bytes that the socket delivered, in order: no byte is lost, repeated or moved.
    Reading is stopped exactly while the buffer is full. When the connection closes, what the application took is the
    beginning of what was delivered. *)
Theorem input_stream es w s :
  open false w i fd s -> Forall event_ok es ->
  exists w' t, run_events this es w = Ret (tt, w') /\ w_trace w' = w_trace w ++ t /\
    ((exists s', open false w' i fd s' /\ r_log (w_app w') ++ unread s' = r_log (w_app w) ++ unread s ++ received fd t) \/
     (exists s', closed w' i s') /\
       exists lost, r_log (w_app w') ++ lost = r_log (w_app w) ++ unread s ++ received fd t).
Proof using RecvLaw0.
  intros O He. destruct (events_run es He w s O) as (w' & R & t & T & D). exists w', t. split; [done|]. split; [done|].
  unfold taken in D. by rewrite <-(assoc_L (++)) in D.
Qed.
End Connection.
End Reader.

(** ** A connection *)

Module Example.

#[export] Instance build : Build := true.
#[export] Instance layout : Layout := {| SIZEOF_SXE := 2000; OFFSETOF_send_list := 1800; OFFSETOF_send_buffer := 1900 |}.

Definition no_addr : sockaddr_in := mk_addr 0 0 0.
Definition failed (error : Z) : reply := mk_reply (-1) error [] 0 no_addr 0 No_control.

(** The socket delivers a few bytes at a time, as many as there is room for. *)
Definition deliver (l : list Z) (room : Z) : reply :=
  let l := take (Z.to_nat room) l in mk_reply (zlen l) 0 l 0 no_addr 0 No_control.
Definition kernel : Kernel := fun t c =>
  match c with
  | Sys_recv _ room => match length t with 0%nat => deliver [1; 2; 3] room | 1%nat => deliver [4; 5] room | _ => failed EWOULDBLOCK end
  | _ => failed 0
  end.
#[export] Existing Instance kernel.

#[export] Instance kernel_recv : RecvLaw kernel.
Proof.
  assert (D : forall l room, 0 < room -> r_ret (deliver l room) <= room).
  { intros l room Hr. unfold deliver, zlen. simpl. rewrite length_take. lia. }
  split.
  - intros h fd room Hr. cbn [kernel_reply kernel]. destruct (length h) as [|[|n]]; [by apply D..|]. simpl. lia.
  - intros h fd room. cbn [kernel_reply kernel]. by destruct (length h) as [|[|n]].
Qed.

Definition sxe (deferred : bool) (total : Z) : SXE :=
  mk_sxe (mk_async false false false) (mk_io true sxe_io_cb_read_ptr 7 EV_READ) no_addr no_addr None 0 SXE_FLAG_IS_STREAM 7 7 0
    total 0 (replicate 1500 9) 0 100 0 0 (if deferred then Some deferred_resume_invoke_ptr else None) 0 0 0 (mk_walker 0 0 0) 0 (-1).

Definition connected (deferred : bool) (total : Z) : world reader :=
  mk_world (mk_objects {[4096 := mk_spec (mk_abs (if deferred then [[1]; []; [0]] else [[1]; [0]; []])%nat [0; 0]) true 0 2]} ∅ ∅ 9000)
    {[0 := sxe deferred total]} ∅ [] (mk_globals 0 2 4096 0 0 true 128 true 0) (mk_reader [] []).

Lemma connected_open deferred total : 0 <= total < 1500 -> open false (connected deferred total) 0 7 (sxe deferred total).
Proof.
  intros Ht. split; [done|done|by split| |].
  { split; unfold SXE_BUF_SIZE; cbn; try done; lia. }
  split; [|done..]. eexists. split; [apply lookup_singleton_eq|]. split; [|by destruct deferred; split_and!; try constructor].
  split; [by destruct deferred; apply (bool_decide_eq_true_1 _); vm_compute|].
  intros j. destruct deferred; simpl; set_unfold; split; lia.
Qed.

(** The callback takes a byte and resumes at once; the event deferred takes another two. *)
Definition events : list input_event :=
  [Readable [[Take 1; Resume SXE_BUF_RESUME_IMMEDIATE]]; Deferred [[Take 2]]; Act [Resume SXE_BUF_RESUME_WHEN_MORE_DATA];
   Readable [[Take 1; Pause]]; Readable []].

Lemma events_log : exists w t, run_events 0 events (connected false 0) = Ret (tt, w) /\ w_trace w = t /\
  r_log (w_app w) = [1; 2; 3; 4] /\ option_map unread (w_sxes w !! 0) = Some [5].
Proof. eexists _, _. vm_compute. auto. Qed.

Lemma input_stream_witness : exists w' t, run_events 0 events (connected false 0) = Ret (tt, w') /\ w_trace w' = [] ++ t /\
  ((exists s', open false w' 0 7 s' /\ r_log (w_app w') ++ unread s' = [] ++ unread (sxe false 0) ++ received 7 t) \/
   (exists s', closed w' 0 s') /\ exists lost, r_log (w_app w') ++ lost = [] ++ unread (sxe false 0) ++ received 7 t).
Proof.
  apply (input_stream 0 7 events (connected false 0) (sxe false 0)).
  - apply connected_open. lia.
  - repeat constructor; simpl; lia.
Defined.

(** The 65th event that is deferred in a row is taken from the list and lost. Resuming the connection after
    that fails an assertion. *)
Definition resuming (n : nat) : list (list input_op) := replicate n [Resume SXE_BUF_RESUME_IMMEDIATE].

Lemma deferred_loses_65th :
  match run_event 0 (Deferred (resuming 64)) (connected true 10) with
  | Ret (_, w) => r_script (w_app w) = [] /\ option_map s_deferred_event (w_sxes w !! 0) = Some (Some deferred_resume_invoke_ptr) /\
      (exists q, option_map (fun p => queue_of (sp_abs p) 2) (o_pools (w_objs w) !! 4096) = Some q /\ q = []) /\
      run_input 0 (Resume SXE_BUF_RESUME_IMMEDIATE) w = Abort
  | _ => False
  end.
Proof. vm_compute. split_and!; try done. by eexists. Qed.
End Example.
