(* ===== verification/SxeSend.v ===== *)
(** * SxeSend: writing, and sending lists of buffers and files (lib-sxe/sxe.c)

    sxe_send_buffers writes a list of buffers as far as the socket takes them, and goes on when it is writable, until all are sent
    or an error occurs; then it calls back. [send_buffers_spec] says what a call has sent, [send_completes] that
    the sending ends when the socket goes on taking bytes. *)

From S2P Require Import Prelude SxeList Pool Buffer Objects Sxe.

(** The conversion to int. *)
Definition to_int (n : Z) : Z := if u32 n <? 2147483648 then u32 n else u32 n - 4294967296.

Section Send.
Context {A : Type} `{Build, Kernel, Layout}.
Abbreviation M := (cmd (world A)).

(** lib-sxe/sxe.c:1518-1574, sxe_write. *)
Definition sxe_write (this : Z) (data : list Z) : M SXE_RETURN :=
  let size := zlen data in
  s ← rd_sxe this;
  lift (assert6 (has_flag s SXE_FLAG_IS_STREAM));;
  if s_socket s =? SXE_SOCKET_INVALID then mret SXE_RETURN_ERROR_NO_CONNECTION
  else
    r ← sys (Sys_send (s_socket s) data);
    if negb (r_ret r =? to_int size) then
      if 0 <=? r_ret r then upd_sxe this (set_s_last_write (r_ret r));; mret SXE_RETURN_WARN_WOULD_BLOCK
      else
        upd_sxe this (set_s_last_write 0);;
        let e := r_errno r in
        if (e =? ECONNRESET) || (e =? ECONNREFUSED) || (e =? ENOTCONN) then mret SXE_RETURN_ERROR_NO_CONNECTION
        else if e =? EWOULDBLOCK then mret SXE_RETURN_WARN_WOULD_BLOCK
        else mret SXE_RETURN_ERROR_INTERNAL
    else upd_sxe this (set_s_last_write (to_int size));; mret SXE_RETURN_OK.

(** Advancing the walker that is in the SXE. *)
Definition step_send_list (this : Z) : M Z :=
  s ← rd_sxe this;
  '(buffer, walk) ← on_objs (walker_step (s_send_list_walk s));
  upd_sxe this (set_s_send_list_walk walk);;
  mret buffer.

(** lib-sxe/sxe.c:1587-1606, sxe_send_buffers_again. Each turn ends the loop or advances the walker. *)
Fixpoint send_loop (fuel : nat) (this buffer : Z) (result : SXE_RETURN) : M SXE_RETURN :=
  if buffer =? NULL then mret result
  else
    match fuel with
    | O => lift Fault
    | S fuel =>
        data ← on_objs (string_read buffer);
        result ← sxe_write this data;
        if bool_decide (result <> SXE_RETURN_OK) && bool_decide (result <> SXE_RETURN_WARN_WOULD_BLOCK) then mret result
        else
          s ← rd_sxe this;
          on_objs (string_consume buffer (s_last_write s));;
          n ← on_objs (string_length buffer);
          buffer ← (if n =? 0 then step_send_list this else mret buffer);
          if bool_decide (result = SXE_RETURN_WARN_WOULD_BLOCK) then sxe_watch_write this;; mret SXE_RETURN_IN_PROGRESS
          else send_loop fuel this buffer result
    end.

(** lib-sxe/sxe.c:1578-1610, sxe_send_buffers_again. *)
Definition sxe_send_buffers_again (this : Z) : M SXE_RETURN :=
  s ← rd_sxe this;
  buffers ← on_objs (list_at (w_list (s_send_list_walk s)));
  send_loop (S (length buffers)) this (walker_find (s_send_list_walk s)) SXE_RETURN_OK.

(** lib-sxe/sxe.c:1636-1665, sxe_send_buffers. *)
Definition sxe_send_buffers (this buffers on_complete : Z) : M SXE_RETURN :=
  lift (assert1 (negb (buffers =? NULL)));;
  lift (assert1 (negb (on_complete =? NULL)));;
  upd_sxe this (set_s_send_list_walk (mk_walker buffers buffers buffers));;
  step_send_list this;;
  upd_sxe this (set_s_out_event_written on_complete);;
  sxe_send_buffers_again this.

(** lib-sxe/sxe.c:1669-1685, sxe_send. [data] points to the bytes. *)
Definition sxe_send (this data : Z) (bytes : list Z) (on_complete : Z) : M SXE_RETURN :=
  send_list ← SEND_LIST this;
  send_buffer ← SEND_BUFFER this;
  lift (assert1 (negb (zlen bytes =? 0)));;
  lift (assert1 (negb (on_complete =? NULL)));;
  p ← on_objs (string_data send_buffer);
  lift (assert1 (negb (p =? NULL)));;
  on_objs (list_construct send_list);;
  on_objs (string_construct send_buffer data bytes (zlen bytes) true);;
  on_objs (list_push send_list send_buffer);;
  sxe_send_buffers this send_list on_complete.

(** lib-sxe/sxe.c:1708-1715, sxe_notify_writable. *)
Definition sxe_notify_writable (this writable_cb : Z) : M unit :=
  upd_sxe this (set_s_out_event_written writable_cb);;
  sxe_private_set_watch_events this sxe_io_cb_notify_writable_ptr EV_WRITE true.

(** lib-sxe/sxe.c:1429-1483, sxe_write_pipe. *)
Definition sxe_write_pipe (this : Z) (data : list Z) (fd_to_send : Z) : M SXE_RETURN :=
  s ← rd_sxe this;
  lift (assert6 (bool_decide (s_path s <> None)));;
  lift (assert6 (negb (zlen data =? 0)));;
  r ← sys (Sys_sendmsg (s_socket s) data fd_to_send);
  mret (if r_ret r <? 0 then SXE_RETURN_ERROR_INTERNAL else SXE_RETURN_OK).

(** lib-sxe/sxe.c:1486-1514, sxe_write_to. *)
Definition sxe_write_to (this : Z) (data : list Z) (dest_addr : sockaddr_in) : M SXE_RETURN :=
  s ← rd_sxe this;
  lift (assert6 (negb (has_flag s SXE_FLAG_IS_STREAM)));;
  r ← sys (Sys_sendto (s_socket s) data dest_addr);
  mret (if negb (r_ret r =? to_int (zlen data)) then SXE_RETURN_ERROR_INTERNAL else SXE_RETURN_OK).

Context `{!Callbacks A}.

(** lib-sxe/sxe.c:1612-1634, sxe_io_cb_send_buffers. *)
Definition sxe_io_cb_send_buffers (this : Z) : M unit :=
  result ← sxe_send_buffers_again this;
  if bool_decide (result <> SXE_RETURN_IN_PROGRESS) then
    sxe_watch_read this;;
    s ← rd_sxe this;
    through (s_out_event_written s) (call_written (s_out_event_written s) this result)
  else mret tt.

(** lib-sxe/sxe.c:1687-1706, sxe_io_cb_notify_writable. *)
Definition sxe_io_cb_notify_writable (this : Z) : M unit :=
  sxe_watch_read this;;
  s ← rd_sxe this;
  let cb := s_out_event_written s in
  if negb (cb =? NULL) then upd_sxe this (set_s_out_event_written NULL);; call_written cb this SXE_RETURN_OK else mret tt.

(** lib-sxe/sxe.c:1816-1823, sxe_sendfile. The label SXE_CLEANUP_OUT. *)
Definition sendfile_cleanup (this : Z) (result : SXE_RETURN) : M SXE_RETURN :=
  upd_sxe this (fun s => set_s_out_event_written NULL (set_s_sendfile_bytes 0 (set_s_sendfile_in_fd (-1) s)));;
  mret result.

(** lib-sxe/sxe.c:1782-1784, sxe_sendfile. Calling back, if there is a callback. *)
Definition sendfile_written (this : Z) (result : SXE_RETURN) : M unit :=
  s ← rd_sxe this;
  if negb (s_out_event_written s =? NULL) then call_written (s_out_event_written s) this result else mret tt.

(** lib-sxe/sxe.c:1730-1824, sxe_sendfile. Linux's sendfile moves the offset that it is given. *)
Definition sxe_sendfile (this in_fd offset total_bytes on_complete : Z) : M SXE_RETURN :=
  lift (assert1 (negb (on_complete =? NULL)));;
  lift (assert1 (negb (offset =? NULL)));;
  lift (assert1 (negb (total_bytes =? 0)));;
  upd_sxe this (fun s => set_s_out_event_written on_complete (set_s_sendfile_offset offset (set_s_sendfile_in_fd in_fd s)));;
  s ← rd_sxe this;
  at_ ← gets (fun w => w_offsets w !! offset);
  at_ ← lift (load at_);
  r ← sys (Sys_sendfile (s_socket s) in_fd at_ total_bytes);
  let sent := r_ret r in
  (if 0 <? sent then modify (with_offsets <[offset := at_ + sent]>) else mret tt);;
  if sent <? 0 then
    sendfile_written this SXE_RETURN_ERROR_WRITE_FAILED;;
    sendfile_cleanup this SXE_RETURN_ERROR_WRITE_FAILED
  else if (0 <? sent) && (u32 sent <? total_bytes) then
    upd_sxe this (set_s_sendfile_bytes (u32 (total_bytes - sent)));;
    sxe_private_set_watch_events this sxe_io_cb_sendfile_ptr EV_WRITE true;;
    mret SXE_RETURN_IN_PROGRESS
  else
    let result := if sent =? 0 then SXE_RETURN_END_OF_FILE else SXE_RETURN_OK in
    sendfile_written this result;;
    sxe_watch_read this;;
    sendfile_cleanup this result.

(** lib-sxe/sxe.c:1718-1728, sxe_io_cb_sendfile. *)
Definition sxe_io_cb_sendfile (this : Z) : M unit :=
  s ← rd_sxe this;
  sxe_sendfile this (s_sendfile_in_fd s) (s_sendfile_offset s) (s_sendfile_bytes s) (s_out_event_written s);;
  mret tt.
End Send.

(** ** What is sent *)

(** Sending promises to take no more than it is given. *)
Class SendLaw (K : Kernel) := {
  send_bound h fd data : r_ret (kernel_reply h (Sys_send fd data)) <= zlen data
}.

(** A socket that goes on taking bytes: at least one of those that it is given. *)
Class SendProgress (K : Kernel) := {
  send_progress h fd data :
    0 <= r_ret (kernel_reply h (Sys_send fd data)) /\ (data <> [] -> 0 < r_ret (kernel_reply h (Sys_send fd data)))
}.

(** The bytes that the socket took, by the trace. *)
Definition delivered_by (fd : Z) (e : event) : list Z :=
  match e_call e with
  | Sys_send fd' data => if fd' =? fd then take (Z.to_nat (r_ret (e_reply e))) data else []
  | _ => []
  end.
Definition delivered (fd : Z) (t : list event) : list Z := concat (delivered_by fd <$> t).

Lemma delivered_app fd t u : delivered fd (t ++ u) = delivered fd t ++ delivered fd u.
Proof. unfold delivered. by rewrite fmap_app, concat_app. Qed.

(** What is left of a buffer, and of a list of them. *)
Definition rest (c : counted) : list Z := drop (Z.to_nat (c_consumed c)) (c_text c).
Definition sendable (c : counted) : Prop := 0 <= c_consumed c <= zlen (c_text c) /\ zlen (c_text c) < 65536.
Definition rest_at (m : gmap Z astring) (y : Z) : list Z := match m !! y with Some (Counted c) => rest c | _ => [] end.
Definition unsent (m : gmap Z astring) (ys : list Z) : list Z := concat (rest_at m <$> ys).
Definition sendable_at (m : gmap Z astring) (y : Z) : Prop := exists c, m !! y = Some (Counted c) /\ sendable c.

Lemma unsent_cons m y ys : unsent m (y :: ys) = rest_at m y ++ unsent m ys.
Proof. done. Qed.

Lemma unsent_insert m y a ys : y ∉ ys -> unsent (<[y := a]> m) ys = unsent m ys.
Proof.
  intros Hy. unfold unsent. f_equal. apply list_fmap_ext. intros k z Hz. unfold rest_at.
  rewrite lookup_insert_ne; [done|]. intros ->. by apply Hy, list_elem_of_lookup_2 with k.
Qed.

(** *** Buffers *)
Lemma set_strings_same o : set_strings (fun _ => o_strings o) o = o.
Proof. by destruct o. Qed.

Section Buffers.
Variables (o : objects) (y : Z) (c : counted).
Hypotheses (E : o_strings o !! y = Some (Counted c)) (G : sendable c).

Lemma rest_length : zlen (rest c) = zlen (c_text c) - c_consumed c.
Proof using G. destruct G as [G1 G2]. unfold rest, zlen in *. rewrite length_drop. lia. Qed.

Lemma string_read_ret : string_read y o = Ret (rest c, o).
Proof using E G.
  destruct G as [G1 G2]. unfold string_read, string_op. cbn [spec_op]. rewrite E. cbn [load mbind outcome_bind text_of].
  rewrite (proj2 (Z.leb_gt _ _)) by lia. by rewrite set_strings_same.
Qed.

Lemma string_length_ret : string_length y o = Ret (zlen (rest c), o).
Proof using E G.
  destruct G as [G1 G2]. unfold string_length, string_op. unfold mbind, cmd_bind. cbn [spec_op]. rewrite E.
  cbn [load mbind outcome_bind text_of]. rewrite (proj2 (Z.leb_gt _ _)) by lia. rewrite set_strings_same. cbn [hd]. by rewrite rest_length.
Qed.

Definition consume (n : Z) : counted :=
  mk_counted (c_text c) (c_size c) (c_over c) (c_const c) (c_terminated c) (c_consumed c + n) (c_space c).

Lemma string_consume_ret n :
  0 <= n <= zlen (rest c) -> string_consume y n o = Ret (tt, set_strings <[y := Counted (consume n)]> o).
Proof using E G.
  intros Hn. destruct G as [G1 G2]. pose proof rest_length as Hr.
  unfold string_consume, string_op. unfold mbind, cmd_bind. cbn [spec_op]. unfold counted_at. rewrite E.
  cbn [load mbind outcome_bind]. replace (n <=? zlen (c_text c) - c_consumed c) with true by lia. cbn [assert1 mbind outcome_bind].
  rewrite (proj2 (Z.ltb_ge _ _)) by lia. done.
Qed.

Lemma consume_rest n : 0 <= n -> rest (consume n) = drop (Z.to_nat n) (rest c).
Proof using G. intros Hn. destruct G as [G1 _]. unfold rest. simpl. rewrite drop_drop. f_equal. lia. Qed.

Lemma consume_sendable n : 0 <= n <= zlen (rest c) -> sendable (consume n).
Proof using G.
  intros Hn. rewrite rest_length in Hn. destruct G as [G1 G2]. split; simpl; [lia|done].
Qed.
End Buffers.

Section Sending.
Context {A : Type} `{Build, Kernel, Layout}.
Context (this fd : Z).
Implicit Types w : world A.

(** The SXE sends the list [l], of which it has sent the buffers [xs], and [ys] are left. *)
Record sending w (s : SXE) (l : Z) (xs ys : list Z) : Prop := {
  sd_at : w_sxes w !! this = Some s;
  sd_stream : has_flag s SXE_FLAG_IS_STREAM = true;
  sd_socket : s_socket s = fd /\ s_socket_as_fd s = fd /\ 0 <= fd;
  sd_list : o_lists (w_objs w) !! l = Some (xs ++ ys);
  sd_walk : w_list (s_send_list_walk s) = l /\ SxeList.w_node (s_send_list_walk s) = hd l ys;
  sd_nodup : NoDup (l :: xs ++ ys) /\ NULL ∉ xs ++ ys;
  sd_buffers : Forall (sendable_at (o_strings (w_objs w))) ys
}.

(** What sxe_write makes of a reply: its result and last_write. *)
Definition write_result (r : reply) (size : Z) : SXE_RETURN * Z :=
  if r_ret r =? size then (SXE_RETURN_OK, size)
  else if 0 <=? r_ret r then (SXE_RETURN_WARN_WOULD_BLOCK, r_ret r)
  else if (r_errno r =? ECONNRESET) || (r_errno r =? ECONNREFUSED) || (r_errno r =? ENOTCONN) then (SXE_RETURN_ERROR_NO_CONNECTION, 0)
  else if r_errno r =? EWOULDBLOCK then (SXE_RETURN_WARN_WOULD_BLOCK, 0)
  else (SXE_RETURN_ERROR_INTERNAL, 0).

Definition send_call w (data : list Z) : event := mk_event (Sys_send fd data) (kernel_reply (w_trace w) (Sys_send fd data)).

Lemma socket_write_run w s data :
  w_sxes w !! this = Some s -> has_flag s SXE_FLAG_IS_STREAM = true -> s_socket s = fd -> 0 <= fd -> zlen data < 65536 ->
  let (result, n) := write_result (e_reply (send_call w data)) (zlen data) in
  sxe_write this data w = Ret (result, put this (set_s_last_write n s) (with_trace (w_trace w ++ [send_call w data]) w)).
Proof using.
  intros E Hs Hk Hf Hl. unfold sxe_write. step_at. rewrite Hs. step_by (lift_assert6 true w eq_refl).
  rewrite Hk, (proj2 (Z.eqb_neq fd SXE_SOCKET_INVALID)) by (unfold SXE_SOCKET_INVALID; lia).
  step_by (sys_ret (Sys_send fd data) w). fold (send_call w data). set (r := kernel_reply _ _). change (e_reply (send_call w data)) with r.
  set (w1 := with_trace _ w). assert (E1 : w_sxes w1 !! this = Some s) by done.
  assert (Hi : to_int (zlen data) = zlen data).
  { unfold to_int. pose proof (zlen_nonneg data). rewrite u32_small by (unfold is_u32; lia). by replace (zlen data <? 2147483648) with true by lia. }
  rewrite Hi. unfold write_result. destruct (r_ret r =? zlen data); simpl; [by step_at|].
  destruct (0 <=? r_ret r); [by step_at|]. step_at.
  destruct (_ || _); [done|]. by destruct (r_errno r =? EWOULDBLOCK).
Qed.

Lemma step_list_run w s l xs y ys :
  sending w s l xs (y :: ys) ->
  let walk := mk_walker l y (hd l ys) in
  step_send_list this w = Ret (match ys with [] => NULL | z :: _ => z end, put this (set_s_send_list_walk walk s) w).
Proof using.
  intros [E _ _ El [Wl Wn] [Nd Nn] _] walk. unfold step_send_list. step_at.
  destruct (s_send_list_walk s) as [wl wb wn]. cbn in Wl, Wn. subst wl wn.
  apply NoDup_cons in Nd as [Nl Nd]. apply NoDup_app in Nd as (_ & Nxs & _).
  assert (y ∉ xs) by (intros Hy; apply (Nxs y Hy), list_elem_of_here). assert (y <> l) by set_solver.
  erewrite cmd_bind_ret by (apply on_objs_ret, (walker_step_next _ l wb xs y ys El); done). rewrite with_objs_same.
  step_at. unfold walk. destruct ys as [|z ys]; simpl; [by rewrite Z.eqb_refl|].
  rewrite (proj2 (Z.eqb_neq z l)) by set_solver. done.
Qed.

(** *** One turn of the loop *)

(** What sending leaves alone: the application, the pools, the lists, and the SXE's input. *)
Definition bystanders w (s : SXE) := (w_app w, w_globals w, o_pools (w_objs w), o_lists (w_objs w), (s_user_data s, s_in_buf s, s_in_total s, s_in_consumed s)).

(** From one state of the sending to another, with the calls [t]. *)
Record progress w s l xs ys w' s' xs' ys' (t : list event) : Prop := {
  pg_sending : sending w' s' l xs' ys';
  pg_list : xs' ++ ys' = xs ++ ys;
  pg_trace : w_trace w' = w_trace w ++ t;
  pg_bytes : delivered fd t ++ unsent (o_strings (w_objs w')) ys' = unsent (o_strings (w_objs w)) ys;
  pg_written : s_out_event_written s' = s_out_event_written s;
  pg_rest : bystanders w' s' = bystanders w s
}.

Lemma progress_trans w1 s1 l xs1 ys1 w2 s2 xs2 ys2 t1 w3 s3 xs3 ys3 t2 :
  progress w1 s1 l xs1 ys1 w2 s2 xs2 ys2 t1 -> progress w2 s2 l xs2 ys2 w3 s3 xs3 ys3 t2 ->
  progress w1 s1 l xs1 ys1 w3 s3 xs3 ys3 (t1 ++ t2).
Proof using.
  intros [S1 L1 T1 B1 W1 K1] [S2 L2 T2 B2 W2 K2]. split; try done; try congruence.
  - by rewrite T2, T1, (assoc_L (++)).
  - by rewrite delivered_app, <-B1, <-(assoc_L (++)), B2.
Qed.

Lemma delivered_call w data : delivered fd [send_call w data] = take (Z.to_nat (r_ret (e_reply (send_call w data)))) data.
Proof using. unfold delivered, delivered_by. simpl. by rewrite Z.eqb_refl, app_nil_r. Qed.

Lemma write_result_bounds r size result n (data : list Z) :
  r_ret r <= size -> size = zlen data -> write_result r size = (result, n) ->
  0 <= n <= size /\ take (Z.to_nat (r_ret r)) data = take (Z.to_nat n) data.
Proof using.
  intros Hle -> E. pose proof (zlen_nonneg data). unfold write_result in E. destruct (Z.eqb_spec (r_ret r) (zlen data)) as [Er|Hne].
  - injection E as _ <-. by rewrite Er.
  - destruct (Z.leb_spec 0 (r_ret r)) as [Hp|Hn]; [injection E as _ <-; split; [lia|done]|].
    replace (Z.to_nat (r_ret r)) with 0%nat by lia.
    destruct (_ || _); [injection E as _ <-; split; [lia|done]|]. destruct (_ =? _); injection E as _ <-; (split; [lia|done]).
Qed.

(** The buffer after [n] bytes of it were written. *)
Definition wrote w (s : SXE) (y : Z) (c : counted) (n : Z) (data : list Z) : world A :=
  with_objs (set_strings <[y := Counted (consume c n)]> (w_objs w))
    (put this (set_s_last_write n s) (with_trace (w_trace w ++ [send_call w data]) w)).

(** The walker passes a buffer of which nothing is left. *)
Lemma stepped_progress w s l xs y ys walk :
  sending w s l xs (y :: ys) -> rest_at (o_strings (w_objs w)) y = [] -> walk = mk_walker l y (hd l ys) ->
  progress w s l xs (y :: ys) (put this (set_s_send_list_walk walk s) w) (set_s_send_list_walk walk s) (xs ++ [y]) ys [].
Proof using.
  intros [E St Sk El Wk Nd Bs] Er ->. split; simpl; try done.
  - split; simpl; try done; [apply put_at|..]; rewrite <-?(assoc_L (++)); try done. by apply Forall_cons in Bs as [_ Bs].
  - by rewrite <-(assoc_L (++)).
  - by rewrite app_nil_r.
  - by rewrite unsent_cons, Er.
Qed.

(** The watcher waits for the socket to be writable. *)
Lemma watched_progress w s l xs ys func events :
  sending w s l xs ys ->
  sxe_private_set_watch_events this func events true w = Ret (tt, put this (watched func events s) w) /\
  progress w s l xs ys (put this (watched func events s) w) (watched func events s) xs ys [].
Proof using.
  intros [E St (Sk & Sf & Hf) El Wk Nd Bs]. split; [apply set_watch_ret; [done|lia]|].
  split; simpl; try done; [|by rewrite app_nil_r]. split; simpl; try done. apply put_at.
Qed.

Definition first_of (ys : list Z) : Z := match ys with [] => NULL | y :: _ => y end.

Lemma sending_first w s l xs y ys : sending w s l xs (y :: ys) -> y <> NULL.
Proof using. intros [_ _ _ _ _ [_ Nn] _] ->. apply Nn. set_solver. Qed.

(** The part of a turn up to the consuming: what it runs to. *)
Lemma turn_start {R} w s l xs y ys c result n (k : SXE_RETURN -> cmd (world A) R) :
  sending w s l xs (y :: ys) -> o_strings (w_objs w) !! y = Some (Counted c) -> sendable c ->
  write_result (e_reply (send_call w (rest c))) (zlen (rest c)) = (result, n) ->
  (data ← on_objs (string_read y); result ← sxe_write this data; k result) w
  = k result (put this (set_s_last_write n s) (with_trace (w_trace w ++ [send_call w (rest c)]) w)).
Proof using.
  intros [E St (Sk & Sf & Hf) _ _ _ _] Ey G Ew.
  erewrite cmd_bind_ret by (by eapply on_objs_ret, string_read_ret). rewrite with_objs_same.
  assert (Hl : zlen (rest c) < 65536) by (destruct G; rewrite rest_length by done; lia).
  pose proof (socket_write_run w s (rest c) E St Sk Hf Hl) as R'. rewrite Ew in R'. by step_by R'.
Qed.

(** The part behind it, when the buffer was written as far as possible. *)
Lemma turn_end {R} w s y c n data (k : Z -> cmd (world A) R) :
  o_strings (w_objs w) !! y = Some (Counted c) -> sendable c -> 0 <= n <= zlen (rest c) ->
  (s ← rd_sxe this; on_objs (string_consume y (s_last_write s));; m ← on_objs (string_length y); k m)
    (put this (set_s_last_write n s) (with_trace (w_trace w ++ [send_call w data]) w))
  = k (zlen (rest (consume c n))) (wrote w s y c n data).
Proof using.
  intros Ey G Hn. step_at. cbn [s_last_write set_s_last_write].
  erewrite cmd_bind_ret by (by eapply on_objs_ret, string_consume_ret).
  fold (wrote w s y c n data).
  erewrite cmd_bind_ret; [|apply on_objs_ret, (string_length_ret _ y (consume c n)); [apply lookup_insert_eq|by apply consume_sendable]].
  by rewrite with_objs_same.
Qed.
Context `{!SendLaw H0}.

Lemma wrote_progress w s l xs y ys c result n :
  sending w s l xs (y :: ys) -> o_strings (w_objs w) !! y = Some (Counted c) -> sendable c ->
  write_result (e_reply (send_call w (rest c))) (zlen (rest c)) = (result, n) ->
  progress w s l xs (y :: ys) (wrote w s y c n (rest c)) (set_s_last_write n s) xs (y :: ys) [send_call w (rest c)] /\
  0 <= n <= zlen (rest c).
Proof using SendLaw0.
  intros [E St Sk El Wk [Nd Nn] Bs] Ey G R.
  destruct (write_result_bounds (e_reply (send_call w (rest c))) _ _ _ (rest c) (send_bound _ _ _) eq_refl R) as [Hn Ht]. split; [|done].
  assert (Hy : y ∉ ys) by (apply NoDup_cons in Nd as [_ Nd]; apply NoDup_app in Nd as (_ & _ & Nd); by apply NoDup_cons in Nd as [? _]).
  split; simpl; try done.
  - split; simpl; try done; [apply put_at|]. apply Forall_cons. apply Forall_cons in Bs as [_ Bs]. split.
    + exists (consume c n). split; [apply lookup_insert_eq|by apply consume_sendable].
    + eapply Forall_impl; [exact Bs|]. intros z (d & Ez & Gd). destruct (decide (y = z)) as [<-|Hz].
      * exists (consume c n). split; [apply lookup_insert_eq|by apply consume_sendable].
      * exists d. by rewrite lookup_insert_ne.
  - rewrite delivered_call, Ht, !unsent_cons, unsent_insert by done. unfold rest_at. rewrite lookup_insert_eq, Ey.
    rewrite consume_rest by (done || lia). by rewrite (assoc_L (++)), take_drop.
Qed.


(** *** The loop *)

Definition waiting : ev_io := mk_io true sxe_io_cb_send_buffers_ptr fd EV_WRITE.

(** What a result says: everything is sent; or the watcher waits until the socket is writable; or
    an error that ends the sending. *)
Definition sent_result (s s' : SXE) (ys' : list Z) (result : SXE_RETURN) : Prop :=
  match result with
  | SXE_RETURN_OK => ys' = [] /\ s_io s' = s_io s
  | SXE_RETURN_IN_PROGRESS => s_io s' = waiting
  | SXE_RETURN_ERROR_NO_CONNECTION | SXE_RETURN_ERROR_INTERNAL => s_io s' = s_io s
  | _ => False
  end.

(** With a socket that goes on taking bytes there is no error, and waiting means that some were sent. *)
Definition advances (t : list event) (result : SXE_RETURN) : Prop :=
  result = SXE_RETURN_OK \/ (result = SXE_RETURN_IN_PROGRESS /\ delivered fd t <> []).

Definition loop_outcome w s l xs ys result w' : Prop :=
  exists s' xs' ys' t, progress w s l xs ys w' s' xs' ys' t /\ sent_result s s' ys' result /\
    (SendProgress H0 -> advances t result).

(** A turn that writes all of a buffer goes on with the next. *)
Lemma turn_ok w s l xs y ys c n fuel :
  sending w s l xs (y :: ys) -> o_strings (w_objs w) !! y = Some (Counted c) -> sendable c ->
  write_result (e_reply (send_call w (rest c))) (zlen (rest c)) = (SXE_RETURN_OK, n) ->
  exists w' s', send_loop (S fuel) this y SXE_RETURN_OK w = send_loop fuel this (first_of ys) SXE_RETURN_OK w' /\
    progress w s l xs (y :: ys) w' s' (xs ++ [y]) ys [send_call w (rest c)] /\ s_io s' = s_io s.
Proof using SendLaw0.
  intros S0 Ey G R. destruct (wrote_progress w s l xs y ys c _ n S0 Ey G R) as [P Hn].
  assert (n = zlen (rest c)) as ->.
  { unfold write_result in R. destruct (_ =? zlen (rest c)); [by injection R as <-|]. destruct (0 <=? _); [done|].
    destruct (_ || _); [done|]. by destruct (_ =? EWOULDBLOCK). }
  set (w1 := wrote _ _ _ _ _ _) in *. set (s1 := set_s_last_write _ _) in *.
  pose proof (pg_sending _ _ _ _ _ _ _ _ _ _ P) as S1.
  assert (Hz : rest (consume c (zlen (rest c))) = []) by (rewrite consume_rest by (done || lia); apply drop_ge; unfold zlen; lia).
  assert (Er : rest_at (o_strings (w_objs w1)) y = []) by (unfold rest_at; unfold w1 at 1, wrote; simpl; by rewrite lookup_insert_eq).
  pose proof (stepped_progress w1 s1 l xs y ys _ S1 Er eq_refl) as P2. pose proof (step_list_run w1 s1 l xs y ys S1) as R2.
  eexists _, _. split; [|split; [exact (progress_trans _ _ _ _ _ _ _ _ _ _ _ _ _ _ _ P P2)|done]].
  cbn [send_loop]. rewrite (proj2 (Z.eqb_neq _ _)) by exact (sending_first _ _ _ _ _ _ S0).
  rewrite (turn_start w s l xs y ys c _ _ _ S0 Ey G R). cbn [bool_decide negb andb].
  change (bool_decide (SXE_RETURN_OK <> SXE_RETURN_OK)) with false. cbn [andb].
  rewrite (turn_end w s y c (zlen (rest c)) (rest c) _ Ey G Hn). fold w1. rewrite Hz. change (zlen [] =? 0) with true. cbv iota.
  cbv zeta in R2. step_by R2. done.
Qed.

(** A turn that writes a part waits. *)
Lemma turn_block w s l xs y ys c n fuel :
  sending w s l xs (y :: ys) -> o_strings (w_objs w) !! y = Some (Counted c) -> sendable c ->
  write_result (e_reply (send_call w (rest c))) (zlen (rest c)) = (SXE_RETURN_WARN_WOULD_BLOCK, n) ->
  exists w' s' xs' ys', send_loop (S fuel) this y SXE_RETURN_OK w = Ret (SXE_RETURN_IN_PROGRESS, w') /\
    progress w s l xs (y :: ys) w' s' xs' ys' [send_call w (rest c)] /\ s_io s' = waiting.
Proof using SendLaw0.
  intros S0 Ey G R. destruct (wrote_progress w s l xs y ys c _ n S0 Ey G R) as [P Hn].
  set (w1 := wrote _ _ _ _ _ _) in *. set (s1 := set_s_last_write _ _) in *.
  pose proof (pg_sending _ _ _ _ _ _ _ _ _ _ P) as S1.
  cbn [send_loop]. rewrite (proj2 (Z.eqb_neq _ _)) by exact (sending_first _ _ _ _ _ _ S0).
  rewrite (turn_start w s l xs y ys c _ _ _ S0 Ey G R).
  change (bool_decide (SXE_RETURN_WARN_WOULD_BLOCK <> SXE_RETURN_OK) && bool_decide (SXE_RETURN_WARN_WOULD_BLOCK <> SXE_RETURN_WARN_WOULD_BLOCK)) with false.
  cbv iota. rewrite (turn_end w s y c n (rest c) _ Ey G Hn). fold w1. rewrite bool_decide_true by done.
  assert (exists b w2 s2 xs2 ys2, (if zlen (rest (consume c n)) =? 0 then step_send_list this else mret y) w1 = Ret (b, w2) /\
    progress w1 s1 l xs (y :: ys) w2 s2 xs2 ys2 [] /\ s_socket_as_fd s2 = s_socket_as_fd s1) as (b & w2 & s2 & xs2 & ys2 & R2 & P2 & F2).
  { destruct (Z.eqb_spec (zlen (rest (consume c n))) 0) as [Hz|Hz].
    - assert (Er : rest_at (o_strings (w_objs w1)) y = []).
      { unfold rest_at. unfold w1 at 1, wrote. simpl. rewrite lookup_insert_eq. destruct (rest (consume c n)); [done|].
        rewrite zlen_cons in Hz. pose proof (zlen_nonneg l0). lia. }
      pose proof (step_list_run w1 s1 l xs y ys S1) as R2. cbv zeta in R2. rewrite R2.
      eexists _, _, _, _, _. split; [done|]. split; [exact (stepped_progress w1 s1 l xs y ys _ S1 Er eq_refl)|done].
    - eexists _, w1, s1, xs, (y :: ys). split; [done|]. split; [|done]. split; try done; by rewrite ?app_nil_r. }
  step_by R2. pose proof (pg_sending _ _ _ _ _ _ _ _ _ _ P2) as S2.
  destruct (watched_progress w2 s2 l xs2 ys2 sxe_io_cb_send_buffers_ptr EV_WRITE S2) as [R3 P3].
  unfold sxe_watch_write. step_by R3. eexists _, _, _, _. split; [done|]. split.
  - pose proof (progress_trans _ _ _ _ _ _ _ _ _ _ _ _ _ _ _ P (progress_trans _ _ _ _ _ _ _ _ _ _ _ _ _ _ _ P2 P3)) as P4. exact P4.
  - unfold waiting, watched. simpl. by destruct (sd_socket _ _ _ _ _ S2) as (_ & -> & _).
Qed.

(** An error ends the loop. *)
Lemma turn_error w s l xs y ys c result n fuel :
  sending w s l xs (y :: ys) -> o_strings (w_objs w) !! y = Some (Counted c) -> sendable c ->
  write_result (e_reply (send_call w (rest c))) (zlen (rest c)) = (result, n) ->
  result <> SXE_RETURN_OK -> result <> SXE_RETURN_WARN_WOULD_BLOCK ->
  exists w' s', send_loop (S fuel) this y SXE_RETURN_OK w = Ret (result, w') /\
    progress w s l xs (y :: ys) w' s' xs (y :: ys) [send_call w (rest c)] /\ s_io s' = s_io s /\
    (result = SXE_RETURN_ERROR_NO_CONNECTION \/ result = SXE_RETURN_ERROR_INTERNAL) /\ r_ret (e_reply (send_call w (rest c))) < 0.
Proof using.
  intros S0 Ey G R N1 N2. cbn [send_loop]. rewrite (proj2 (Z.eqb_neq _ _)) by exact (sending_first _ _ _ _ _ _ S0).
  rewrite (turn_start w s l xs y ys c _ _ _ S0 Ey G R). rewrite !bool_decide_true by done. cbn [andb].
  assert (Hr : r_ret (e_reply (send_call w (rest c))) < 0 /\
    (result = SXE_RETURN_ERROR_NO_CONNECTION \/ result = SXE_RETURN_ERROR_INTERNAL)).
  { unfold write_result in R. destruct (_ =? zlen _); [congruence|]. destruct (Z.leb_spec 0 (r_ret (e_reply (send_call w (rest c)))));
      [congruence|]. split; [done|]. destruct (_ || _); [injection R as <- _; auto|]. destruct (_ =? EWOULDBLOCK); [congruence|injection R as <- _; auto]. }
  destruct Hr as [Hneg Hr]. eexists _, (set_s_last_write n s). split; [done|]. split; [|done].
  destruct S0 as [E St Sk El Wk Nd Bs]. split; simpl; try done; [split; simpl; try done; apply put_at|].
  rewrite delivered_call. replace (Z.to_nat _) with 0%nat by lia. done.
Qed.

Lemma block_advances w c n :
  write_result (e_reply (send_call w (rest c))) (zlen (rest c)) = (SXE_RETURN_WARN_WOULD_BLOCK, n) ->
  SendProgress H0 -> delivered fd [send_call w (rest c)] <> [].
Proof using SendLaw0.
  intros R P. destruct (send_progress (w_trace w) fd (rest c)) as [P1 P2]. pose proof (send_bound (w_trace w) fd (rest c)) as B.
  rewrite delivered_call. change (e_reply (send_call w (rest c))) with (kernel_reply (w_trace w) (Sys_send fd (rest c))) in *.
  set (r := kernel_reply _ _) in *. unfold write_result in R.
  destruct (Z.eqb_spec (r_ret r) (zlen (rest c))) as [Hz|Hz]; [done|].
  destruct (rest c) as [|b data] eqn:Ed; [change (zlen []) with 0 in *; lia|]. specialize (P2 ltac:(done)).
  destruct (Z.to_nat (r_ret r)) eqn:En; [lia|done].
Qed.

Lemma send_loop_run ys : forall w s l xs fuel, sending w s l xs ys -> (length ys < fuel)%nat ->
  exists result w', send_loop fuel this (first_of ys) SXE_RETURN_OK w = Ret (result, w') /\ loop_outcome w s l xs ys result w'.
Proof using SendLaw0.
  induction ys as [|y ys IH]; intros w s l xs fuel S0 Hf; (destruct fuel as [|fuel]; [simpl in Hf; lia|]).
  - exists SXE_RETURN_OK, w. split; [done|]. exists s, xs, [], []. split; [|by repeat split; left].
    split; try done; by rewrite ?app_nil_r.
  - pose proof (sd_buffers _ _ _ _ _ S0) as Bs. apply Forall_cons in Bs as [(c & Ey & G) _]. cbn [first_of].
    destruct (write_result (e_reply (send_call w (rest c))) (zlen (rest c))) as [result n] eqn:R.
    destruct (decide (result = SXE_RETURN_OK)) as [->|N1].
    + destruct (turn_ok w s l xs y ys c n fuel S0 Ey G R) as (w1 & s1 & -> & P1 & I1). simpl in Hf.
      destruct (IH w1 s1 l (xs ++ [y]) fuel (pg_sending _ _ _ _ _ _ _ _ _ _ P1) ltac:(lia))
        as (res & w2 & -> & s2 & xs2 & ys2 & t2 & P2 & O2 & A2).
      exists res, w2. split; [done|]. exists s2, xs2, ys2, ([send_call w (rest c)] ++ t2). split; [by eapply progress_trans|].
      split; [by destruct res; simpl in *; rewrite ?I1 in O2|]. intros Pr. destruct (A2 Pr) as [->|[-> Hd]]; [by left|right].
      split; [done|]. rewrite delivered_app. by intros [_ ?]%app_eq_nil.
    + destruct (decide (result = SXE_RETURN_WARN_WOULD_BLOCK)) as [->|N2].
      * destruct (turn_block w s l xs y ys c n fuel S0 Ey G R) as (w1 & s1 & xs1 & ys1 & -> & P1 & I1).
        eexists _, w1. split; [done|]. eexists s1, xs1, ys1, _. split; [exact P1|]. split; [done|]. intros Pr. right.
        split; [done|]. by apply (block_advances w c n).
      * destruct (turn_error w s l xs y ys c result n fuel S0 Ey G R N1 N2) as (w1 & s1 & -> & P1 & I1 & Hr & Hneg).
        exists result, w1. split; [done|]. exists s1, xs, (y :: ys), [send_call w (rest c)]. split; [done|].
        split; [by destruct Hr as [-> | ->]|]. intros Pr. destruct (send_progress (w_trace w) fd (rest c)) as [P2 _].
        simpl in Hneg. lia.
Qed.

Lemma send_again_run w s l xs ys :
  sending w s l xs ys ->
  exists result w', sxe_send_buffers_again this w = Ret (result, w') /\ loop_outcome w s l xs ys result w'.
Proof using SendLaw0.
  intros S0. pose proof S0 as [E _ _ El [Wl Wn] [Nd Nn] _]. unfold sxe_send_buffers_again. step_at. rewrite Wl.
  erewrite cmd_bind_ret by (by eapply on_objs_ret, list_at_ret). rewrite with_objs_same.
  assert (walker_find (s_send_list_walk s) = first_of ys) as ->.
  { unfold walker_find. rewrite Wl, Wn. destruct ys as [|y ys]; simpl; [by rewrite Z.eqb_refl|].
    rewrite (proj2 (Z.eqb_neq y l)); [done|]. apply NoDup_cons in Nd as [Nl _]. set_solver. }
  apply send_loop_run; [done|]. rewrite length_app. lia.
Qed.

(** The state in which sxe_send_buffers starts to write. *)
Lemma send_start_run w s l ys f :
  w_sxes w !! this = Some s -> has_flag s SXE_FLAG_IS_STREAM = true -> s_socket s = fd -> s_socket_as_fd s = fd -> 0 <= fd ->
  o_lists (w_objs w) !! l = Some ys -> NoDup (l :: ys) -> NULL ∉ l :: ys -> f <> NULL ->
  Forall (sendable_at (o_strings (w_objs w))) ys ->
  let s1 := set_s_out_event_written f (set_s_send_list_walk (mk_walker l l (hd l ys)) s) in
  sxe_send_buffers this l f w = sxe_send_buffers_again this (put this s1 w) /\ sending (put this s1 w) s1 l [] ys.
Proof using.
  intros E St Sk Sf Hf El Nd Nn Hf0 Bs s1. apply not_elem_of_cons in Nn as [Nl Nn]. split.
  - unfold sxe_send_buffers. erewrite cmd_bind_ret by (apply assert1_ret; by rewrite (proj2 (Z.eqb_neq _ _))).
    erewrite cmd_bind_ret by (apply assert1_ret; by rewrite (proj2 (Z.eqb_neq _ _))). step_at.
    erewrite cmd_bind_ret.
    2: { unfold step_send_list. step_at. cbn [s_send_list_walk set_s_send_list_walk].
         erewrite cmd_bind_ret by (eapply on_objs_ret, walker_step_first; exact El). rewrite with_objs_same. step_at. reflexivity. }
    by step_at.
  - split; simpl; try done. apply put_at.
Qed.

(** C8: sending a list of buffers. Whatever the kernel takes of each write, a call sends the buffers' bytes in order,
    without a gap, and consumes exactly what was sent: what the socket took and what is left in the
    buffers are together what there was to send. The result says what is next: OK, all is sent; IN_PROGRESS, the watcher waits
    until the socket is writable, and the list and its walker are where the sending goes on; otherwise the error
    that ended it, with the watcher as it was. *)
Theorem send_buffers_spec w s l ys f :
  w_sxes w !! this = Some s -> has_flag s SXE_FLAG_IS_STREAM = true -> s_socket s = fd -> s_socket_as_fd s = fd -> 0 <= fd ->
  o_lists (w_objs w) !! l = Some ys -> NoDup (l :: ys) -> NULL ∉ l :: ys -> f <> NULL ->
  Forall (sendable_at (o_strings (w_objs w))) ys ->
  exists result w' s' xs' ys' t, sxe_send_buffers this l f w = Ret (result, w') /\
    w_trace w' = w_trace w ++ t /\ ys = xs' ++ ys' /\
    delivered fd t ++ unsent (o_strings (w_objs w')) ys' = unsent (o_strings (w_objs w)) ys /\
    sending w' s' l xs' ys' /\ s_out_event_written s' = f /\ w_app w' = w_app w /\
    match result with
    | SXE_RETURN_OK => ys' = [] /\ s_io s' = s_io s
    | SXE_RETURN_IN_PROGRESS => s_io s' = waiting
    | SXE_RETURN_ERROR_NO_CONNECTION | SXE_RETURN_ERROR_INTERNAL => s_io s' = s_io s
    | _ => False
    end.
Proof using SendLaw0.
  intros E St Sk Sf Hf El Nd Nn Hf0 Bs.
  destruct (send_start_run w s l ys f E St Sk Sf Hf El Nd Nn Hf0 Bs) as [-> S1].
  destruct (send_again_run _ _ l [] ys S1) as (result & w' & R & s' & xs' & ys' & t & [P1 P2 P3 P4 P5 P6] & O & _).
  apply (f_equal (fun b => b.1.1.1.1)) in P6. exists result, w', s', xs', ys', t. by split_and!.
Qed.

(** *** The loop's write events *)
Context `{!Callbacks A}.

Fixpoint writable (n : nat) : cmd (world A) unit :=
  match n with O => mret tt | S n => sxe_io_cb_send_buffers this;; writable n end.

Lemma writable_S n w w1 r : sxe_io_cb_send_buffers this w = Ret (tt, w1) -> writable n w1 = r -> writable (S n) w = r.
Proof using. intros R <-. cbn [writable]. by step_by R. Qed.

(** What there is to send shrinks with each event, until the callback is called. *)
Lemma writable_run k : SendProgress H0 -> forall w s l xs ys,
  sending w s l xs ys -> s_out_event_written s <> NULL -> (length (unsent (o_strings (w_objs w)) ys) <= k)%nat ->
  exists n w1 w2 s2 t, (n <= k)%nat /\ writable n w = Ret (tt, w1) /\
    sxe_io_cb_send_buffers this w1 = call_written (s_out_event_written s) this SXE_RETURN_OK w2 /\
    w_sxes w2 !! this = Some s2 /\ s_io s2 = mk_io true sxe_io_cb_read_ptr fd EV_READ /\
    w_trace w2 = w_trace w ++ t /\ delivered fd t = unsent (o_strings (w_objs w)) ys /\ bystanders w2 s2 = bystanders w s.
Proof using SendLaw0.
  intros Pr. induction k as [|k IH]; intros w s l xs ys S0 Hf Hk;
    destruct (send_again_run w s l xs ys S0) as (result & w' & R & s' & xs' & ys' & t & P & O & Ad);
    destruct (Ad Pr) as [->|[-> Hd]].
  1, 3: destruct O as [-> _]; pose proof P as [P1 P2 P3 P4 P5 P6];
    pose proof (sd_socket _ _ _ _ _ P1) as (Sk & Sf & Hfd);
    exists 0%nat, w, (put this (watched sxe_io_cb_read_ptr EV_READ s') w'), (watched sxe_io_cb_read_ptr EV_READ s'), t;
    (split; [lia|]); (split; [done|]); (split; [|split; [apply put_at|split; [by unfold watched; rewrite Sf|
      split; [done|split; [by rewrite <-P4; unfold unsent; simpl; rewrite app_nil_r|done]]]]]);
    unfold sxe_io_cb_send_buffers; step_by R; rewrite bool_decide_true by done;
    unfold sxe_watch_read; rewrite (cmd_bind_ret _ _ _ _ _ (set_watch_ret _ _ _ _ _ (sd_at _ _ _ _ _ P1) ltac:(lia)));
    step_at; cbn [s_out_event_written watched set_s_io]; rewrite P5; unfold through; by rewrite (proj2 (Z.eqb_neq _ _)).
  all: assert (Hshort : (length (unsent (o_strings (w_objs w')) ys') < length (unsent (o_strings (w_objs w)) ys))%nat)
    by (rewrite <-(pg_bytes _ _ _ _ _ _ _ _ _ _ P), length_app; destruct (delivered fd t); [done|simpl; lia]).
  - lia.
  - assert (R1 : sxe_io_cb_send_buffers this w = Ret (tt, w')) by (unfold sxe_io_cb_send_buffers; by step_by R).
    pose proof P as [P1 P2 P3 P4 P5 P6].
    destruct (IH w' s' l xs' ys' P1) as (n & w1 & w2 & s2 & t2 & Hn & W1 & W2 & E2 & I2 & T2 & D2 & K2); [congruence|lia|].
    exists (S n), w1, w2, s2, (t ++ t2). split; [lia|]. split; [by eapply writable_S|]. split; [by rewrite W2, P5|].
    split; [done|]. split; [done|]. split; [by rewrite T2, P3, (assoc_L (++))|].
    by rewrite delivered_app, D2, K2.
Qed.

(** C10: a sending ends. When the socket goes on taking at least one byte of each write, after as many write events as there are
    bytes left, or fewer, the callback given is called, once and with OK, when every byte has been
    sent in order and the connection is watched for input again. *)
Theorem send_completes w s l xs ys :
  SendProgress H0 -> sending w s l xs ys -> s_out_event_written s <> NULL ->
  exists n w1 w2 s2 t, (n <= length (unsent (o_strings (w_objs w)) ys))%nat /\ writable n w = Ret (tt, w1) /\
    sxe_io_cb_send_buffers this w1 = call_written (s_out_event_written s) this SXE_RETURN_OK w2 /\
    w_sxes w2 !! this = Some s2 /\ s_io s2 = mk_io true sxe_io_cb_read_ptr fd EV_READ /\
    w_trace w2 = w_trace w ++ t /\ delivered fd t = unsent (o_strings (w_objs w)) ys.
Proof using SendLaw0.
  intros Pr S0 Hf. destruct (writable_run _ Pr w s l xs ys S0 Hf (le_n _)) as (n & w1 & w2 & s2 & t & R).
  exists n, w1, w2, s2, t. by destruct_and! R; split_and!.
Qed.
End Sending.

(** ** A connection that sends *)

Module SendExample.

#[export] Instance build : Build := true.
#[export] Instance layout : Layout := {| SIZEOF_SXE := 2000; OFFSETOF_send_list := 1800; OFFSETOF_send_buffer := 1900 |}.

Definition no_addr : sockaddr_in := mk_addr 0 0 0.
Definition gives (n : Z) : reply := mk_reply n 0 [] 0 no_addr 0 No_control.

(** The socket takes two bytes at most of each write; sendfile sends what it is asked for. *)
Definition kernel : Kernel := fun t c =>
  match c with
  | Sys_send _ data => gives (Z.min 2 (zlen data))
  | Sys_sendfile _ _ _ count => gives count
  | _ => gives 0
  end.
#[export] Existing Instance kernel.

#[export] Instance kernel_send : SendLaw kernel.
Proof. constructor. intros h fd data. simpl. lia. Qed.
#[export] Instance kernel_progress : SendProgress kernel.
Proof.
  constructor. intros h fd data. simpl. pose proof (zlen_nonneg data). split; [lia|]. intros Hd. destruct data; [done|].
  rewrite zlen_cons. pose proof (zlen_nonneg data). lia.
Qed.

Definition sxe (io : ev_io) (flags total : Z) : SXE :=
  mk_sxe (mk_async false false false) io no_addr no_addr None 0 flags 7 7 0
    total 0 (replicate 1500 9) 0 100 0 0 None 0 0 0 (mk_walker 0 0 0) 0 (-1).
Definition reading : ev_io := mk_io true sxe_io_cb_read_ptr 7 EV_READ.

Definition buffer (text : list Z) : astring := Counted (mk_counted text (zlen text) false false true 0 50).

(** The callbacks close the SXE. *)
#[export] Instance closing : Callbacks unit := {
  call_connected _ _ := mret tt;
  call_read _ _ _ := mret tt;
  call_close _ _ := mret tt;
  call_written _ this _ := sxe_close this;; mret tt
}.

Definition connected (s : SXE) : world unit :=
  mk_world (mk_objects {[4096 := mk_spec (mk_abs [[1]; [0]; []]%nat [0; 0]) true 0 2]}
      {[500 := [600; 700]]} (<[600 := buffer [1; 2; 3]]> (<[700 := buffer [4]]> (<[5996 := Literal []]> ∅))) 9000)
    {[0 := s]} {[800 := 0]} [] (mk_globals 0 2 4096 0 0 true 128 true 0) tt.

Definition idle : SXE := sxe reading SXE_FLAG_IS_STREAM 0.

Lemma send_buffers_spec_witness : exists result w' s' xs' ys' t, sxe_send_buffers 0 500 300 (connected idle) = Ret (result, w') /\
    w_trace w' = [] ++ t /\ [600; 700] = xs' ++ ys' /\
    delivered 7 t ++ unsent (o_strings (w_objs w')) ys' = [1; 2; 3; 4] /\
    sending 0 7 w' s' 500 xs' ys' /\ s_out_event_written s' = 300 /\ w_app w' = tt /\
    match result with
    | SXE_RETURN_OK => ys' = [] /\ s_io s' = reading
    | SXE_RETURN_IN_PROGRESS => s_io s' = waiting 7
    | SXE_RETURN_ERROR_NO_CONNECTION | SXE_RETURN_ERROR_INTERNAL => s_io s' = reading
    | _ => False
    end.
Proof.
  refine (send_buffers_spec 0 7 (connected idle) idle 500 [600; 700] 300 _ _ _ _ _ _ _ _ _ _); try done.
  - apply (bool_decide_eq_true_1 _). vm_compute. done.
  - apply (bool_decide_eq_true_1 _). vm_compute. done.
  - repeat constructor; (eexists; split; [reflexivity|]); split; simpl; unfold zlen; simpl; lia.
Defined.

(** The second byte pair waits for a write event. *)
Definition half_sent : world unit := match sxe_send_buffers 0 500 300 (connected idle) with Ret (_, w) => w | _ => connected idle end.
Definition half_sxe : SXE := default idle (w_sxes half_sent !! 0).

Lemma half_sending : sending 0 7 half_sent half_sxe 500 [] [600; 700].
Proof.
  split.
  1-5: vm_compute; done.
  - split; apply (bool_decide_eq_true_1 _); vm_compute; done.
  - repeat constructor; (eexists; split; [vm_compute; reflexivity|]); split; simpl; unfold zlen; simpl; lia.
Qed.

Lemma send_completes_witness : exists n w1 w2 s2 t, (n <= 2)%nat /\ writable 0 n half_sent = Ret (tt, w1) /\
    sxe_io_cb_send_buffers 0 w1 = call_written 300 0 SXE_RETURN_OK w2 /\
    w_sxes w2 !! 0 = Some s2 /\ s_io s2 = mk_io true sxe_io_cb_read_ptr 7 EV_READ /\
    w_trace w2 = w_trace half_sent ++ t /\ delivered 7 t = [3; 4].
Proof.
  refine (send_completes 0 7 half_sent half_sxe 500 [] [600; 700] kernel_progress half_sending _).
  vm_compute. done.
Defined.

(** ** What goes wrong *)

(** When a sending completes, the connection is watched for input even if its buffer is full and it is paused: the next read has room
    for nothing, and its 0 bytes are taken for the end of the connection. *)
Definition full : SXE := sxe (mk_io false sxe_io_cb_read_ptr 7 EV_READ) (SXE_FLAG_IS_STREAM + SXE_FLAG_IS_PAUSED) 1500.

#[local] Instance quiet : Callbacks unit := {
  call_connected _ _ := mret tt;
  call_read _ _ _ := mret tt;
  call_close _ _ := mret tt;
  call_written _ _ _ := mret tt
}.

Lemma full_buffer_closes :
  match (sxe_send_buffers 0 500 300;; sxe_io_cb_send_buffers 0 (Callbacks0 := quiet);;
         sxe_io_cb_read 0 EV_READ (Callbacks0 := quiet)) (connected full) with
  | Ret (_, w) => match w_sxes w !! 0 with Some s => s_socket s = SXE_SOCKET_INVALID /\ s_in_total s = 0 | None => False end
  | _ => False
  end.
Proof. vm_compute. done. Qed.

(** A callback that closes the SXE when a file was sent: sxe_sendfile then watches the closed socket, which fails libev's assertion. *)
Lemma close_after_sendfile : sxe_sendfile 0 9 800 100 300 (Callbacks0 := closing) (connected idle) = Abort.
Proof. vm_compute. done. Qed.

(** The check for a sxe_send that is in progress never fails: a second one replaces the first, whose last bytes are lost. *)
Lemma second_send_replaces :
  match (sxe_send 0 60 [1; 2; 3] 300;; sxe_send 0 70 [8; 9] 300) (connected idle) with
  | Ret (r, w) => r = SXE_RETURN_OK /\ delivered 7 (w_trace w) = [1; 2; 8; 9]
  | _ => False
  end.
Proof. vm_compute. done. Qed.
End SendExample.
