(* ===== verification/SxeConnect.v ===== *)
(** * SxeConnect: starting, listening, accepting and connecting (lib-sxe/sxe.c)

    The initialisation of the library, the making of SXEs, and the calls and callbacks that give an SXE its socket. *)

From S2P Require Import Prelude SxeList Pool Buffer Objects Sxe SxeSend.

(** The byte order of the network, on a little endian machine. *)
Definition htons (n : Z) : Z := u16 n mod 256 * 256 + u16 n / 256.
Definition zero_addr : sockaddr_in := mk_addr 0 0 0.
(** "INADDR_ANY" *)
Definition INADDR_ANY_text : list Z := [73; 78; 65; 68; 68; 82; 95; 65; 78; 89].
Definition INADDR_ANY : Z := 0.
Definition PIPE_PATH_MAX : Z := 108.

Section Connect.
Context {A : Type} `{Build, Kernel, Layout}.
Abbreviation M := (cmd (world A)).
(** The library function inet_addr, and what fresh memory holds. *)
Context (inet_addr : list Z -> Z) (raw : Z -> SXE).

(** ** The library *)

(** lib-sxe/sxe.c:207-232, sxe_is_valid. [this] is an address. *)
Definition sxe_is_valid (this : Z) : M bool :=
  g ← gets w_globals;
  let stride := SIZEOF_SXE + g_extra_size g in
  mret (negb ((this <? g_array g) || (g_array g + (g_array_total g - 1) * stride <? this))
        && ((this - g_array g) mod stride =? 0)).

(** lib-sxe/sxe.c:240-244, sxe_diag_get_free_count. *)
Definition sxe_diag_get_free_count : M Z := array ← global g_array; on_objs (pool_number_in array SXE_STATE_FREE).
(** lib-sxe/sxe.c:252-256, sxe_diag_get_used_count. *)
Definition sxe_diag_get_used_count : M Z := array ← global g_array; on_objs (pool_number_in array SXE_STATE_USED).

(** lib-sxe/sxe.c:261-276, sxe_register. *)
Definition sxe_register (number_of_connections extra_size : Z) : M unit :=
  upd_global (fun g => set_g_array_total (u32 (g_array_total g + number_of_connections)) g);;
  inited ← global g_inited;
  lift (assert1 (negb inited));;
  upd_global (fun g => if g_extra_size g <? extra_size then set_g_extra_size extra_size g else g).

(** lib-sxe/sxe.c:307-347, sxe_init. The elements of the new pool hold what was in the memory; none is watched. *)
Definition sxe_init : M SXE_RETURN :=
  inited ← global g_inited;
  lift (assert1 (negb inited));;
  total ← global g_array_total;
  lift (assert1 (0 <? total));;
  extra ← global g_extra_size;
  now ← global g_now;
  array ← on_objs (pool_new total (SIZEOF_SXE + extra) SXE_STATE_NUMBER_OF_STATES true now);
  modify (with_sxes (fun _ => list_to_map ((fun n => (Z.of_nat n, raw (Z.of_nat n))) <$> seq 0 (Z.to_nat total))));;
  upd_global (fun g => set_g_inited true (set_g_main_loop true (set_g_array array g)));;
  mret SXE_RETURN_OK.

(** lib-sxe/sxe.c:349-373, sxe_fini. *)
Definition sxe_fini : M SXE_RETURN :=
  array ← global g_array;
  if array =? NULL then mret SXE_RETURN_ERROR_INTERNAL
  else
    on_objs (modify (set_pools (delete array)));;
    modify (with_sxes (fun _ => ∅));;
    upd_global (fun g => set_g_inited false (set_g_stat_total_read 0 (set_g_stat_total_accept 0
      (set_g_array NULL (set_g_array_total 0 (set_g_extra_size 0 g))))));;
    mret SXE_RETURN_OK.

(** lib-sxe/sxe.c:1234-1241, sxe_set_listen_backlog. *)
Definition sxe_set_listen_backlog (listen_backlog : Z) : M unit := upd_global (set_g_listen_backlog listen_backlog).

(** ** New SXEs *)

(** lib-sxe/sxe.c:455-503, sxe_new. *)
Definition sxe_new (local_ip : list Z) (local_port in_event_connected in_event_read in_event_close : Z)
  (is_stream : bool) (path : option (list Z)) : M (option Z) :=
  local_addr ←
    match path with
    | Some p => lift (assert1 (zlen p <? PIPE_PATH_MAX));; mret zero_addr
    | None =>
        mret (mk_addr AF_INET (htons local_port) (if bool_decide (local_ip = INADDR_ANY_text) then INADDR_ANY else inet_addr local_ip))
    end;
  sxe_new_internal local_addr in_event_connected in_event_read in_event_close is_stream path.

(** lib-sxe/sxe.c:507-515, sxe_new_pipe. *)
Definition sxe_new_pipe (path : list Z) (in_event_connected in_event_read in_event_close : Z) : M (option Z) :=
  sxe_new [] 0 in_event_connected in_event_read in_event_close true (Some path).
(** lib-sxe/sxe.c:518-527, sxe_new_tcp. *)
Definition sxe_new_tcp (local_ip : list Z) (local_port in_event_connected in_event_read in_event_close : Z) : M (option Z) :=
  sxe_new local_ip local_port in_event_connected in_event_read in_event_close true None.
(** lib-sxe/sxe.c:529-536, sxe_new_udp. *)
Definition sxe_new_udp (local_ip : list Z) (local_port in_event_read : Z) : M (option Z) :=
  sxe_new local_ip local_port NULL in_event_read NULL false None.

(** ** Sockets *)

Definition O_NONBLOCK : Z := 2048.
(** lib-sxe-socket/sxe-socket.c:47-63, sxe_socket_set_nonblock. *)
Definition sxe_socket_set_nonblock (sock : Z) (flag : bool) : M Z :=
  f ← sys (Sys_getfl sock);
  if r_ret f <? 0 then mret (-1)
  else
    r ← sys (Sys_setfl sock (if flag then Z.lor (r_ret f) O_NONBLOCK else Z.ldiff (r_ret f) O_NONBLOCK));
    mret (if r_ret r <? 0 then -1 else 0).

Definition SXE_UDP_SO_RCVBUF_SIZE : Z := 32 * 1024 * 1024.
Definition set_option (sock : Z) (opt : sockopt) (v : Z) : M unit := r ← sys (Sys_setsockopt sock opt v); verify6 (0 <=? r_ret r).

(** lib-sxe/sxe.c:544-625, sxe_set_socket_options. *)
Definition sxe_set_socket_options (this sock : Z) : M unit :=
  s ← rd_sxe this;
  r ← sxe_socket_set_nonblock sock true;
  verify6 (0 <=? r);;
  if bool_decide (s_path s <> None) then mret tt
  else if has_flag s SXE_FLAG_IS_STREAM then
    set_option sock SO_REUSEADDR 1;;
    set_option sock SO_LINGER 0;;
    set_option sock TCP_NODELAY 1
  else
    set_option sock SO_RCVBUF SXE_UDP_SO_RCVBUF_SIZE;;
    r ← sys (Sys_getsockopt sock SO_RCVBUF);
    verify6 (0 <=? r_ret r).

(** lib-sxe/sxe.c:1113-1132, sxe_get_local_addr. *)
Definition sxe_get_local_addr (this : Z) : M sockaddr_in :=
  s ← rd_sxe this;
  lift (assert1 (bool_decide (s_path s = None)));;
  (if negb (sin_port (s_local_addr s) =? 0) then mret tt
   else
     r ← sys (Sys_getsockname (s_socket s));
     if r_ret r <? 0 then mret tt else upd_sxe this (set_s_local_addr (r_addr r)));;
  s ← rd_sxe this;
  mret (s_local_addr s).

(** lib-sxe/sxe.c:1175-1210, sxe_listen_plus. Binding a new socket; the result when it fails. *)
Definition bind_listener (this socket_listen : Z) : M (option SXE_RETURN) :=
  s ← rd_sxe this;
  address ←
    match s_path s with
    | Some path => sys (Sys_unlink path);; mret (Unix path)
    | None => mret (Inet (s_local_addr s))
    end;
  sxe_set_socket_options this socket_listen;;
  b ← sys (Sys_bind socket_listen address);
  if r_ret b <? 0 then
    mret (Some (if r_errno b =? EADDRINUSE then SXE_RETURN_ERROR_ADDRESS_IN_USE else SXE_RETURN_ERROR_INTERNAL))
  else if has_flag s SXE_FLAG_IS_STREAM then
    backlog ← global g_listen_backlog;
    l ← sys (Sys_listen socket_listen backlog);
    mret (if r_ret l <? 0 then Some SXE_RETURN_ERROR_INTERNAL else None)
  else mret None.

(** lib-sxe/sxe.c:1143-1232, sxe_listen_plus. *)
Definition sxe_listen_plus (this flags : Z) : M SXE_RETURN :=
  free ← sxe_is_free this;
  lift (assert1 (negb free));;
  lift (assert1 (Z.ldiff flags SXE_FLAG_IS_ONESHOT =? 0));;
  s ← rd_sxe this;
  if negb (s_socket s =? SXE_SOCKET_INVALID) then mret SXE_RETURN_ERROR_INTERNAL
  else
    r ← sys (Sys_socket (bool_decide (s_path s <> None)) (has_flag s SXE_FLAG_IS_STREAM));
    let socket_listen := r_ret r in
    if socket_listen =? SXE_SOCKET_INVALID then mret SXE_RETURN_ERROR_INTERNAL
    else
      failed ← bind_listener this socket_listen;
      match failed with
      | Some result => sys (Sys_close socket_listen);; mret result
      | None =>
          upd_sxe this (fun s => set_s_socket_as_fd socket_listen (set_s_socket socket_listen (set_s_flags (Z.lor (s_flags s) flags) s)));;
          ev_async_init this false;;
          sxe_private_set_watch_events this (if has_flag s SXE_FLAG_IS_STREAM then sxe_io_cb_accept_ptr else sxe_io_cb_read_ptr) EV_READ false;;
          mret SXE_RETURN_OK
      end.

(** lib-sxe/sxe.h:113-113, sxe_listen. *)
Definition sxe_listen (this : Z) : M SXE_RETURN := sxe_listen_plus this 0.
(** lib-sxe/sxe.h:114-114, sxe_listen_oneshot. *)
Definition sxe_listen_oneshot (this : Z) : M SXE_RETURN := sxe_listen_plus this SXE_FLAG_IS_ONESHOT.

(** lib-sxe/sxe.c:1269-1277, sxe_construct_address. *)
Definition sxe_construct_address (ip : list Z) (port : Z) : sockaddr_in := mk_addr AF_INET (htons port) (inet_addr ip).

(** lib-sxe/sxe.c:1349-1371, sxe_connect. The local address, unless any will do; the result when it cannot be had. *)
Definition bind_local (this that_socket : Z) : M (option SXE_RETURN) :=
  s ← rd_sxe this;
  if (sin_port (s_local_addr s) =? 0) && (sin_addr (s_local_addr s) =? INADDR_ANY) then mret None
  else
    b ← sys (Sys_bind that_socket (Inet (s_local_addr s)));
    mret (if r_ret b =? -1
          then Some (if r_errno b =? EADDRINUSE then SXE_RETURN_ERROR_ADDRESS_IN_USE else SXE_RETURN_ERROR_INTERNAL)
          else None).

(** lib-sxe/sxe.c:1293-1425, sxe_connect. On the errors behind the call of socket, the socket is not closed. *)
Definition sxe_connect (this : Z) (peer_ip : list Z) (peer_port : Z) : M SXE_RETURN :=
  free ← sxe_is_free this;
  lift (assert1 (negb free));;
  s ← rd_sxe this;
  if negb (s_socket s =? SXE_SOCKET_INVALID) then mret SXE_RETURN_ERROR_ALREADY_CONNECTED
  else
    r ← sys (Sys_socket (bool_decide (s_path s <> None)) true);
    let that_socket := r_ret r in
    if that_socket =? SXE_SOCKET_INVALID then mret SXE_RETURN_ERROR_INTERNAL
    else
      failed ← match s_path s with
               | Some _ => mret None
               | None =>
                   failed ← bind_local this that_socket;
                   match failed with
                   | None => upd_sxe this (set_s_peer_addr (sxe_construct_address peer_ip peer_port))
                   | Some _ => mret tt
                   end;;
                   mret failed
               end;
      match failed with
      | Some result => mret result
      | None =>
          s ← rd_sxe this;
          sxe_set_socket_options this that_socket;;
          ev_async_init this false;;
          ev_io_init this sxe_io_cb_connect_ptr that_socket EV_WRITE;;
          ev_io_start this;;
          c ← sys (Sys_connect that_socket (match s_path s with Some p => Unix p | None => Inet (s_peer_addr s) end));
          if (r_ret c =? -1) && negb (r_errno c =? EINPROGRESS) && negb (r_errno c =? EWOULDBLOCK) then
            ev_io_stop this;; mret SXE_RETURN_ERROR_INTERNAL
          else
            upd_sxe this (fun s => set_s_socket_as_fd that_socket (set_s_socket that_socket s));;
            (if debug && bool_decide (s_path s <> None) then sys (Sys_getsockname that_socket);; mret tt else mret tt);;
            mret SXE_RETURN_OK
      end.

(** lib-sxe/sxe.c:1245-1256, sxe_connect_pipe. *)
Definition sxe_connect_pipe (this : Z) : M SXE_RETURN := sxe_connect this [] 0.

(** ** The callbacks of the loop *)
Context `{!Callbacks A}.

Definition connected_event (this : Z) : M unit :=
  s ← rd_sxe this;
  if negb (s_in_event_connected s =? NULL) then call_connected (s_in_event_connected s) this else mret tt.

(** lib-sxe/sxe.c:1047-1102, sxe_io_cb_connect. *)
Definition sxe_io_cb_connect (this : Z) : M unit :=
  s ← rd_sxe this;
  r ← sys (Sys_so_error (s_socket s));
  if (r_ret r =? -1) || negb (r_value r =? 0) then
    s ← rd_sxe this;
    (if negb (s_in_event_close s =? NULL) then call_close (s_in_event_close s) this else mret tt);;
    sxe_close this;;
    mret tt
  else
    sxe_watch_read this;;
    connected_event this.

(** lib-sxe/sxe.c:991-1010, sxe_io_cb_accept. The SXE of the accepted connection, or none when all are in use. *)
Definition accept_sxe (this that_socket : Z) : M (option Z) :=
  s ← rd_sxe this;
  sxe_set_socket_options this that_socket;;
  if has_flag s SXE_FLAG_IS_ONESHOT then
    ev_io_stop this;;
    sys (Sys_close (s_socket_as_fd s));;
    upd_sxe this (set_s_socket_as_fd (-1));;
    sys (Sys_close (s_socket s));;
    mret (Some this)
  else
    sxe_new_internal (s_local_addr s) (s_in_event_connected s) (s_in_event_read s) (s_in_event_close s)
      (has_flag s SXE_FLAG_IS_STREAM) (s_path s).

(** lib-sxe/sxe.c:940-1041, sxe_io_cb_accept. The loop. *)
Fixpoint accept_loop (fuel : nat) (this : Z) : M unit :=
  match fuel with
  | O => lift Fault
  | S fuel =>
      s ← rd_sxe this;
      r ← sys (Sys_accept (s_socket s));
      let that_socket := r_ret r in
      if that_socket =? SXE_SOCKET_INVALID then mret tt
      else
        (if debug && bool_decide (s_path s <> None) then
           c ← sys (Sys_getsockopt that_socket SO_PEERCRED); verify6 (0 <=? r_ret c)
         else mret tt);;
        that ← accept_sxe this that_socket;
        match that with
        | None => sys (Sys_close that_socket);; mret tt
        | Some that =>
            s ← rd_sxe this;
            upd_sxe that (fun t =>
              set_s_peer_addr (r_addr r) (set_s_user_data (s_user_data s) (set_s_socket_as_fd that_socket (set_s_socket that_socket t))));;
            ev_async_init that false;;
            sxe_private_set_watch_events that sxe_io_cb_read_ptr EV_READ false;;
            upd_global (fun g => set_g_stat_total_accept (u32 (g_stat_total_accept g + 1)) g);;
            connected_event that;;
            s ← rd_sxe this;
            if bool_decide (s_path s = None) && negb (this =? that) then accept_loop fuel this else mret tt
        end
  end.

(** lib-sxe/sxe.c:923-1045, sxe_io_cb_accept. [waiting] is more than the number of connections that the kernel has. *)
Definition sxe_io_cb_accept (waiting : nat) (this revents : Z) : M unit :=
  verify6 (revents =? EV_READ);; accept_loop waiting this.

(** lib-sxe/sxe.c:1937-1955, sxe_socketpair_connected_cb. *)
Definition sxe_socketpair_connected_cb (this : Z) : M unit :=
  ev_async_stop this;;
  connected_event this;;
  ev_io_start this.

(** lib-sxe/sxe.c:1957-2010, sxe_new_socketpair. The SXE, and the other end. *)
Definition sxe_new_socketpair (in_event_connected in_event_read in_event_close : Z) : M (option (Z * Z)) :=
  r ← sys Sys_socketpair;
  lift (assert1 (0 <=? r_ret r));;
  let '(pair0, pair1) := (r_ret r, r_value r) in
  keeper ← sxe_new_internal zero_addr in_event_connected in_event_read in_event_close true None;
  match keeper with
  | None => sys (Sys_close pair0);; sys (Sys_close pair1);; mret None
  | Some keeper =>
      upd_sxe keeper (fun s => set_s_socket_as_fd pair0 (set_s_socket pair0 s));;
      sxe_socket_set_nonblock pair0 true;;
      ev_async_init keeper true;;
      ev_io_init keeper sxe_io_cb_read_ptr pair0 EV_READ;;
      upd_sxe keeper (set_s_async (mk_async true true true));;
      mret (Some (keeper, pair1))
  end.

(** ** The loop *)

(** What libev calls for a watcher that is started and whose event [revents] has come. *)
Definition io_event (waiting : nat) (this revents : Z) : M unit :=
  s ← rd_sxe this;
  if ev_is_active s then
    match io_cb (s_io s) with
    | sxe_io_cb_read_ptr => sxe_io_cb_read this revents
    | sxe_io_cb_accept_ptr => sxe_io_cb_accept waiting this revents
    | sxe_io_cb_connect_ptr => sxe_io_cb_connect this
    | sxe_io_cb_send_buffers_ptr => sxe_io_cb_send_buffers this
    | sxe_io_cb_notify_writable_ptr => sxe_io_cb_notify_writable this
    | sxe_io_cb_sendfile_ptr => sxe_io_cb_sendfile this
    end
  else mret tt.
End Connect.
