(* ===== verification/SxeLife.v ===== *)
(** * SxeLife: the life of an SXE (lib-sxe/sxe.c)

    Making SXEs and closing them, against the abstract allocator that the two calls implement: slots that are
    given out the longest free first, and given back once. And what connecting does on its error paths. *)

From S2P Require Import Prelude SxeList Pool Buffer Objects Sxe SxeSend SxeConnect.

(** ** The abstract allocator *)

(** What an SXE is made for. *)
Record endpoint := mk_endpoint {
  x_ip : list Z;
  x_port : Z;
  x_connected : Z;
  x_read : Z;
  x_close : Z;
  x_stream : bool;
  x_path : option (list Z)
}.

Inductive life_op := New (x : endpoint) | Close (i : nat).
Inductive life_result := Opened (this : option Z) | Closed (result : SXE_RETURN).

(** The free slots, the longest free first; those that have been given out before; and what each open one is for. *)
Record slots := mk_slots { free : list nat; known : gset nat; opened : gmap nat endpoint }.

Definition life_spec (sl : slots) (op : life_op) : life_result * slots :=
  match op with
  | New x =>
      match free sl with
      | [] => (Opened None, sl)
      | i :: q => (Opened (Some (Z.of_nat i)), mk_slots q ({[i]} ∪ known sl) (<[i := x]> (opened sl)))
      end
  | Close i =>
      match opened sl !! i with
      | Some _ => (Closed SXE_RETURN_OK, mk_slots (free sl ++ [i]) (known sl) (delete i (opened sl)))
      | None => (Closed SXE_RETURN_WARN_ALREADY_CLOSED, sl)
      end
  end.

Fixpoint life_specs (sl : slots) (ops : list life_op) : list life_result * slots :=
  match ops with
  | [] => ([], sl)
  | op :: ops => let '(r, sl) := life_spec sl op in let '(rs, sl) := life_specs sl ops in (r :: rs, sl)
  end.

(** Only SXEs that were made are closed, and a path fits an address. *)
Fixpoint life_ok (sl : slots) (ops : list life_op) : Prop :=
  match ops with
  | [] => True
  | op :: ops =>
      match op with
      | New x => match x_path x with Some p => zlen p < PIPE_PATH_MAX | None => True end
      | Close i => i ∈ known sl
      end /\ life_ok ((life_spec sl op).2) ops
  end.

Section Life.
Context {A : Type} `{Build, Kernel, Layout}.
Context (inet_addr : list Z -> Z).
Implicit Types w : world A.

Definition run_life_op (op : life_op) : cmd (world A) life_result :=
  match op with
  | New x => r ← sxe_new inet_addr (x_ip x) (x_port x) (x_connected x) (x_read x) (x_close x) (x_stream x) (x_path x); mret (Opened r)
  | Close i => r ← sxe_close (Z.of_nat i); mret (Closed r)
  end.
Fixpoint run_life (ops : list life_op) : cmd (world A) (list life_result) :=
  match ops with [] => mret [] | op :: ops => r ← run_life_op op; rs ← run_life ops; mret (r :: rs) end.

(** The address of a local endpoint. *)
Definition local_of (x : endpoint) : sockaddr_in :=
  match x_path x with
  | Some _ => zero_addr
  | None => mk_addr AF_INET (htons (x_port x)) (if bool_decide (x_ip x = INADDR_ANY_text) then INADDR_ANY else inet_addr (x_ip x))
  end.

(** An SXE that is open for [x]. *)
Record made_for (x : endpoint) (s : SXE) : Prop := {
  mf_local : s_local_addr s = local_of x;
  mf_path : s_path s = x_path x;
  mf_close : s_in_event_close s = x_close x;
  mf_connected : s_in_event_connected s = x_connected x;
  mf_read : s_in_event_read s = x_read x;
  mf_stream : has_flag s SXE_FLAG_IS_STREAM = x_stream x
}.

(** The pool's queue of free elements is the allocator's, and every other element is open. *)
Record life w (sl : slots) : Prop := {
  lf_pool : exists p, o_pools (w_objs w) !! g_array (w_globals w) = Some p /\ pool_wf (sp_abs p) /\
    length (queues (sp_abs p)) = 3%nat /\ queue_of (sp_abs p) 0 = free sl /\
    Z.of_nat (length (stamps (sp_abs p))) = g_array_total (w_globals w);
  lf_array : g_array (w_globals w) <> NULL;
  lf_total : g_array_total (w_globals w) <= SXE_POOL_NO_INDEX;
  lf_at i : Z.of_nat i < g_array_total (w_globals w) -> exists s, w_sxes w !! Z.of_nat i = Some s /\
    ((i ∈ known sl) -> s_id s = Z.of_nat i) /\
    match opened sl !! i with
    | Some x => (i ∉ free sl) /\ (i ∈ known sl) /\ made_for x s
    | None => (i ∈ free sl) /\ (i ∈ known sl -> s_socket s = SXE_SOCKET_INVALID)
    end;
  lf_known i : (i ∈ known sl) -> Z.of_nat i < g_array_total (w_globals w)
}.

(** ** Making *)

Definition local_run (x : endpoint) : cmd (world A) sockaddr_in :=
  match x_path x with
  | Some p => lift (assert1 (zlen p <? PIPE_PATH_MAX));; mret zero_addr
  | None => mret (mk_addr AF_INET (htons (x_port x)) (if bool_decide (x_ip x = INADDR_ANY_text) then INADDR_ANY else inet_addr (x_ip x)))
  end.

Lemma local_ret x w : match x_path x with Some p => zlen p < PIPE_PATH_MAX | None => True end -> local_run x w = Ret (local_of x, w).
Proof.
  unfold local_run, local_of. destruct (x_path x) as [p|]; intros Hp; [|done].
  by erewrite cmd_bind_ret by (apply assert1_ret; lia).
Qed.

(** The SXE that sxe_new_internal makes of what is in the memory. *)
Definition fresh (x : endpoint) (i : nat) (s : SXE) : SXE :=
  set_s_local_addr (local_of x) (set_s_in_consumed 0 (set_s_in_total 0 (set_s_next_socket SXE_SOCKET_INVALID
    (set_s_socket SXE_SOCKET_INVALID (set_s_socket_as_fd (-1) (set_s_deferred_event None
    (set_s_in_event_close (x_close x) (set_s_in_event_read (x_read x) (set_s_in_event_connected (x_connected x)
    (set_s_flags (if x_stream x then SXE_FLAG_IS_STREAM else 0) (set_s_path (x_path x) (set_s_id (Z.of_nat i) s)))))))))))).

Lemma fresh_made x i s : made_for x (fresh x i s).
Proof. split; try done. unfold fresh, has_flag. simpl. by destruct (x_stream x). Qed.

Lemma new_none w sl x :
  life w sl -> free sl = [] -> match x_path x with Some p => zlen p < PIPE_PATH_MAX | None => True end ->
  run_life_op (New x) w = Ret (Opened None, w).
Proof.
  intros L Hf Hp. destruct (lf_pool _ _ L) as (p & Ep & Wp & Lp & Q & _). unfold run_life_op, sxe_new.
  fold (local_run x). rewrite (cmd_bind_ret _ _ w None w); [done|]. step_by (local_ret x w Hp).
  unfold sxe_new_internal. step_by (global_ret g_array w).
  erewrite cmd_bind_ret by (apply on_objs_ret; apply (pool_set_oldest_none _ _ _ Ep 0 1); [by rewrite Q|lia..]).
  by rewrite with_objs_same.
Qed.

Lemma new_some w sl x i q s :
  life w sl -> free sl = i :: q -> match x_path x with Some p => zlen p < PIPE_PATH_MAX | None => True end ->
  w_sxes w !! Z.of_nat i = Some s -> Z.of_nat i < SXE_POOL_NO_INDEX ->
  exists p, o_pools (w_objs w) !! g_array (w_globals w) = Some p /\
  run_life_op (New x) w = Ret (Opened (Some (Z.of_nat i)),
    put (Z.of_nat i) (fresh x i s) (with_objs (with_pool (g_array (w_globals w)) (spec_move i 0 1 p) (w_objs w)) w)).
Proof.
  intros L Hf Hp E Hn. destruct (lf_pool _ _ L) as (p & Ep & Wp & Lp & Q & _). exists p. split; [done|].
  unfold run_life_op, sxe_new. fold (local_run x). unfold mbind at 1, cmd_bind at 1. step_by (local_ret x w Hp).
  unfold sxe_new_internal. step_by (global_ret g_array w).
  erewrite cmd_bind_ret by (apply on_objs_ret; apply (pool_set_oldest_ret _ _ _ Ep i q 0 1); [by rewrite Q|lia]).
  rewrite (proj2 (Z.eqb_neq _ SXE_POOL_NO_INDEX)) by lia.
  erewrite cmd_bind_ret by (apply upd_sxe_ret; exact E). done.
Qed.

Lemma life_new w sl x i q s p :
  life w sl -> free sl = i :: q -> w_sxes w !! Z.of_nat i = Some s ->
  o_pools (w_objs w) !! g_array (w_globals w) = Some p ->
  life (put (Z.of_nat i) (fresh x i s) (with_objs (with_pool (g_array (w_globals w)) (spec_move i 0 1 p) (w_objs w)) w))
    (life_spec sl (New x)).2.
Proof.
  intros L Hf E Ep. pose proof L as [(p' & Ep' & Wp & Lp & Q & St) La Lt At Kn]. assert (p' = p) as -> by congruence.
  assert (Hi : i ∈ queue_of (sp_abs p) 0) by (rewrite Q, Hf; apply list_elem_of_here).
  pose proof (queue_of_bound _ Wp _ _ Hi) as Hb. pose proof (queue_of_nodup _ Wp 0) as ND. rewrite Q, Hf in ND.
  apply NoDup_cons in ND as [Hq ND]. cbn [life_spec]. rewrite Hf. cbn [snd].
  split; cbn [with_objs put with_sxes w_globals w_objs free known opened]; try done.
  - exists (spec_move i 0 1 p). split; [apply lookup_insert_eq|]. rewrite spec_move_abs.
    split; [apply move_wf; [done|done|lia]|]. rewrite move_length, move_stamps. split; [done|]. split; [|done].
    rewrite moved_queue by (done || lia). simpl. rewrite Q, Hf, filter_cons_False by auto.
    apply filter_all. intros j Hj ->. done.
  - intros j Hj. simpl. destruct (decide (j = i)) as [->|Hne].
    + exists (fresh x i s). rewrite !lookup_insert_eq. split; [done|]. split; [done|]. split; [done|].
      split; [set_solver|apply fresh_made].
    + rewrite !lookup_insert_ne by lia. destruct (At j Hj) as (t & Et & Kt & Ot). exists t. split; [done|].
      split; [set_solver|]. rewrite Hf in Ot. destruct (opened sl !! j); set_solver.
  - intros j [->%elem_of_singleton|Hj]%elem_of_union; [lia|auto].
Qed.

Lemma new_run w sl x :
  life w sl -> match x_path x with Some p => zlen p < PIPE_PATH_MAX | None => True end ->
  exists w', run_life_op (New x) w = Ret ((life_spec sl (New x)).1, w') /\ life w' (life_spec sl (New x)).2 /\ w_trace w' = w_trace w.
Proof.
  intros L Hp. destruct (free sl) as [|i q] eqn:Hf.
  - exists w. rewrite (new_none w sl x L Hf Hp). cbn [life_spec]. by rewrite Hf.
  - pose proof L as [(p & Ep & Wp & _ & Q & St) _ Lt At _].
    assert (Hb : Z.of_nat i < g_array_total (w_globals w)).
    { rewrite <-St. apply inj_lt, (queue_of_bound _ Wp i 0). rewrite Q, Hf. apply list_elem_of_here. }
    destruct (At i Hb) as (s & E & _). destruct (new_some w sl x i q s L Hf Hp E) as (p' & Ep' & R); [lia|].
    eexists. rewrite R. split; [cbn [life_spec]; by rewrite Hf|]. split; [|done]. by eapply life_new.
Qed.

(** ** Closing *)

(** The SXE that sxe_close leaves. *)
Definition shut (s : SXE) : SXE :=
  let s := if s_socket s =? SXE_SOCKET_INVALID then s else
    set_s_socket SXE_SOCKET_INVALID ((if 0 <=? s_socket_as_fd s then set_s_socket_as_fd (-1) else (fun s => s))
      (set_s_async (mk_async false (async_cb (s_async s)) false)
        (set_s_io (mk_io false (io_cb (s_io s)) (io_fd (s_io s)) (io_events (s_io s))) s))) in
  set_s_in_consumed 0 (set_s_in_total 0 (set_s_out_event_written NULL (set_s_in_event_read NULL (set_s_in_event_connected NULL s)))).

(** Both fields that hold the descriptor are closed. *)
Definition close_calls (s : SXE) : list Z :=
  if s_socket s =? SXE_SOCKET_INVALID then []
  else (if 0 <=? s_socket_as_fd s then [s_socket_as_fd s] else []) ++ [s_socket s].
Definition is_close (fd : Z) (e : event) : Prop := e_call e = Sys_close fd.

Definition close_sockets (this : Z) (s : SXE) : cmd (world A) unit :=
  if negb (s_socket s =? SXE_SOCKET_INVALID) then
    ev_io_stop this;;
    ev_async_stop this;;
    (if 0 <=? s_socket_as_fd s then sys (Sys_close (s_socket_as_fd s));; upd_sxe this (set_s_socket_as_fd (-1)) else mret tt);;
    sys (Sys_close (s_socket s));;
    upd_sxe this (set_s_socket SXE_SOCKET_INVALID)
  else mret tt.

Lemma close_sockets_run w this s :
  w_sxes w !! this = Some s ->
  exists t s', close_sockets this s w = Ret (tt, put this s' (with_trace (w_trace w ++ t) w)) /\ Forall2 is_close (close_calls s) t /\
    set_s_in_consumed 0 (set_s_in_total 0 (set_s_out_event_written NULL (set_s_in_event_read NULL (set_s_in_event_connected NULL s')))) = shut s.
Proof.
  intros E. unfold close_sockets, close_calls, shut. destruct (s_socket s =? SXE_SOCKET_INVALID) eqn:Es; cbn [negb].
  - exists [], s. rewrite app_nil_r. split; [|by split; [constructor|]]. do 2 f_equal.
    rewrite put_same by done. by destruct w.
  - unfold ev_io_stop, ev_async_stop. step_at. step_at. destruct (0 <=? s_socket_as_fd s).
    + unfold mbind at 1, cmd_bind at 1. unfold mbind at 1, cmd_bind at 1. rewrite sys_ret. cbv beta iota.
      erewrite upd_sxe_ret by apply put_at. unfold mbind at 1, cmd_bind at 1. rewrite sys_ret. cbv beta iota.
      erewrite upd_sxe_ret by apply put_at. eexists [_; _], _. split_and!.
      * do 2 f_equal. unfold put, with_sxes, with_trace. cbn. rewrite !insert_insert_eq, <-(assoc_L (++)). reflexivity.
      * by repeat constructor.
      * done.
    + unfold mbind at 1, cmd_bind at 1. cbn [mret cmd_ret]. unfold mbind at 1, cmd_bind at 1. rewrite sys_ret. cbv beta iota.
      erewrite upd_sxe_ret by apply put_at. eexists [_], _. split_and!.
      * do 2 f_equal. unfold put, with_sxes, with_trace. cbn. rewrite !insert_insert_eq. reflexivity.
      * by repeat constructor.
      * done.
Qed.

(** A connection that is not free is in use or deferred. *)
Lemma opened_state w sl i p :
  life w sl -> o_pools (w_objs w) !! g_array (w_globals w) = Some p -> Z.of_nat i < g_array_total (w_globals w) -> i ∉ free sl ->
  exists k, i ∈ queue_of (sp_abs p) k /\ (Z.of_nat k =? SXE_STATE_FREE) = false /\
    (Z.of_nat k =? SXE_STATE_DEFERRED) || (Z.of_nat k =? SXE_STATE_USED) = true.
Proof.
  intros [(p' & Ep' & Wp & Lp & Q & St) _ _ _ _] Ep Hi Hf. assert (p' = p) as -> by congruence.
  assert (Hc : i ∈ concat (queues (sp_abs p))) by (apply (pw_all _ Wp); lia).
  apply concat_elem in Hc as (k & q & Eq & Hq). exists k.
  assert (Hk : i ∈ queue_of (sp_abs p) k) by by rewrite (queue_of_lookup _ _ _ Eq).
  split; [done|]. pose proof (queue_of_elem _ _ _ Hk) as Hb. rewrite Lp in Hb.
  destruct k as [|[|[|k]]]; [|done|done|lia]. by rewrite Q in Hk.
Qed.

Lemma close_opened w sl i x s p :
  life w sl -> opened sl !! i = Some x -> Z.of_nat i < g_array_total (w_globals w) ->
  w_sxes w !! Z.of_nat i = Some s -> s_id s = Z.of_nat i -> i ∉ free sl ->
  o_pools (w_objs w) !! g_array (w_globals w) = Some p ->
  exists k t, i ∈ queue_of (sp_abs p) k /\ k <> 0%nat /\ Forall2 is_close (close_calls s) t /\
    sxe_close (Z.of_nat i) w = Ret (SXE_RETURN_OK,
      with_objs (with_pool (g_array (w_globals w)) (spec_move i k 0 p) (w_objs w)) (put (Z.of_nat i) (shut s) (with_trace (w_trace w ++ t) w))).
Proof.
  intros L Ho Hi E I Hf Ep. destruct (opened_state w sl i p L Ep Hi Hf) as (k & Qk & K1 & K2).
  pose proof L as [(p' & Ep' & Wp & Lp & Q & St) Ra Lt At Kn]. assert (p' = p) as -> by congruence.
  assert (K0 : k <> 0%nat) by by destruct k. destruct (close_sockets_run w (Z.of_nat i) s E) as (t & s' & R & Ft & Es).
  exists k, t. split; [done|]. split; [done|]. split; [done|]. unfold sxe_close. fold (close_sockets (Z.of_nat i) s).
  step_by (global_ret g_array w). step_at. rewrite I.
  erewrite cmd_bind_ret by (apply on_objs_ret; apply (pool_state_of_ret _ _ _ Ep Wp i k Qk)). rewrite with_objs_same.
  erewrite cmd_bind_ret by (apply lift_assert6; by rewrite (proj2 (Z.eqb_neq _ _))).
  step_by (global_ret g_array_total w). erewrite cmd_bind_ret by (apply lift_assert6; lia). rewrite K1.
  erewrite cmd_bind_ret by (apply assert1_ret; done). step_by R. step_at. rewrite Es.
  by erewrite cmd_bind_ret by (apply on_objs_ret; apply (pool_set_state_ret _ _ _ Ep Wp i k 0 Qk); lia).
Qed.

Lemma close_again w sl i s :
  life w sl -> Z.of_nat i < g_array_total (w_globals w) -> w_sxes w !! Z.of_nat i = Some s -> s_id s = Z.of_nat i -> i ∈ free sl ->
  sxe_close (Z.of_nat i) w = Ret (SXE_RETURN_WARN_ALREADY_CLOSED, w).
Proof.
  intros [(p & Ep & Wp & Lp & Q & St) Ra Lt At Kn] Hi E I Hf. unfold sxe_close.
  step_by (global_ret g_array w). step_at. rewrite I.
  erewrite cmd_bind_ret by (apply on_objs_ret; apply (pool_state_of_ret _ _ _ Ep Wp i 0); by rewrite Q). rewrite with_objs_same.
  erewrite cmd_bind_ret by (apply lift_assert6; by rewrite (proj2 (Z.eqb_neq _ _))).
  step_by (global_ret g_array_total w). by erewrite cmd_bind_ret by (apply lift_assert6; lia).
Qed.

Lemma life_close w sl i x s p k t :
  life w sl -> opened sl !! i = Some x -> w_sxes w !! Z.of_nat i = Some s -> s_id s = Z.of_nat i -> i ∉ free sl ->
  o_pools (w_objs w) !! g_array (w_globals w) = Some p -> i ∈ queue_of (sp_abs p) k -> k <> 0%nat ->
  life (with_objs (with_pool (g_array (w_globals w)) (spec_move i k 0 p) (w_objs w)) (put (Z.of_nat i) (shut s) (with_trace t w)))
    (life_spec sl (Close i)).2.
Proof.
  intros L Ho E I Hf Ep Qk K0. pose proof L as [(p' & Ep' & Wp & Lp & Q & St) La Lt At Kn]. assert (p' = p) as -> by congruence.
  cbn [life_spec]. rewrite Ho. cbn [snd].
  split; cbn [with_objs put with_sxes with_trace w_globals w_objs w_sxes free known opened]; try done.
  - exists (spec_move i k 0 p). split; [apply lookup_insert_eq|]. rewrite spec_move_abs.
    split; [apply move_wf; [done|done|lia]|]. rewrite move_length, move_stamps. split; [done|]. split; [|done].
    rewrite moved_queue by (done || lia). simpl. by rewrite Q.
  - intros j Hj. destruct (At j Hj) as (u & Eu & Ku & Ou). destruct (decide (j = i)) as [->|Hne].
    + exists (shut s). rewrite lookup_insert_eq, lookup_delete_eq.
      assert (Hs : s_id (shut s) = Z.of_nat i /\ s_socket (shut s) = SXE_SOCKET_INVALID).
      { unfold shut. destruct (s_socket s =? SXE_SOCKET_INVALID) eqn:Es; [simpl; split; [done|lia]|].
        by destruct (0 <=? s_socket_as_fd s). }
      destruct Hs. split; [done|]. split; [done|]. split; [set_solver|done].
    + exists u. rewrite lookup_insert_ne, lookup_delete_ne by lia. split; [done|]. split; [done|].
      destruct (opened sl !! j); set_solver.
Qed.

Lemma close_life_run w sl i :
  life w sl -> i ∈ known sl ->
  exists w' t, run_life_op (Close i) w = Ret ((life_spec sl (Close i)).1, w') /\ life w' (life_spec sl (Close i)).2 /\
    w_trace w' = w_trace w ++ t /\ Forall (fun e => exists fd, is_close fd e) t.
Proof.
  intros L Hk. pose proof L as [(p & Ep & _) _ _ At Kn]. pose proof (Kn i Hk) as Hi.
  destruct (At i Hi) as (s & E & Ks & Os). unfold run_life_op. destruct (opened sl !! i) as [x|] eqn:Ho.
  - destruct Os as (Hf & _ & _). destruct (close_opened w sl i x s p L Ho Hi E (Ks Hk) Hf Ep) as (k & t & Qk & K0 & Ft & R).
    eexists _, t. step_by R. cbn [life_spec]. rewrite Ho. split; [done|]. split; [|split; [done|]].
    + pose proof (life_close w sl i x s p k (w_trace w ++ t) L Ho E (Ks Hk) Hf Ep Qk K0) as Lc.
      cbn [life_spec] in Lc. by rewrite Ho in Lc.
    + clear -Ft. induction Ft; constructor; eauto.
  - destruct Os as (Hf & _). exists w, []. step_by (close_again w sl i s L Hi E (Ks Hk) Hf). cbn [life_spec]. rewrite Ho.
    rewrite app_nil_r. by split_and!.
Qed.

(** C9: sxe_new and sxe_close implement an allocator. However they follow each other (an SXE may be closed twice, deferred
    when it is closed, or connected), no assertion fails; every call returns what the allocator returns: the SXE that has been
    free the longest, or none exactly when all are in use, and the warning for an SXE that is closed already, which changes nothing;
    afterwards the pool and the SXEs represent the allocator's state: each one that is open has the addresses, the path
    and the callbacks that it was made with, and a closed one has no socket. The only system calls are those
    that close descriptors. *)
Theorem sxe_lifecycle ops : forall w sl,
  life w sl -> life_ok sl ops ->
  exists w' t, run_life ops w = Ret ((life_specs sl ops).1, w') /\ life w' (life_specs sl ops).2 /\
    w_trace w' = w_trace w ++ t /\ Forall (fun e => exists fd, is_close fd e) t.
Proof.
  induction ops as [|op ops IH]; intros w sl L Hok; [exists w, []; rewrite app_nil_r; by split_and!|].
  destruct Hok as [Hop Hok].
  assert (exists w1 t1, run_life_op op w = Ret ((life_spec sl op).1, w1) /\ life w1 (life_spec sl op).2 /\
    w_trace w1 = w_trace w ++ t1 /\ Forall (fun e => exists fd, is_close fd e) t1) as (w1 & t1 & R1 & L1 & T1 & F1).
  { destruct op as [x|i]; [|by apply close_life_run]. destruct (new_run w sl x L Hop) as (w1 & R1 & L1 & T1).
    exists w1, []. rewrite app_nil_r. by split_and!. }
  destruct (IH w1 _ L1 Hok) as (w2 & t2 & R2 & L2 & T2 & F2). exists w2, (t1 ++ t2).
  cbn [run_life life_specs]. step_by R1. destruct (life_spec sl op) as [r sl1]. cbn [fst snd] in *.
  step_by R2. destruct (life_specs sl1 ops) as [rs sl2]. split; [done|]. split; [done|].
  split; [by rewrite T2, T1, (assoc_L (++))|by apply Forall_app].
Qed.
End Life.

(** ** Two SXEs *)

Module LifeExample.

#[export] Instance build : Build := true.
#[export] Instance layout : Layout := {| SIZEOF_SXE := 2000; OFFSETOF_send_list := 1800; OFFSETOF_send_buffer := 1900 |}.

Definition gives (n errno value : Z) : reply := mk_reply n errno [] value zero_addr 0 No_control.

(** Sockets are 5; every connection is refused, at once or, for the pending one, when it is asked for. *)
Definition kernel : Kernel := fun t c =>
  match c with
  | Sys_socket _ _ => gives 5 0 0
  | Sys_connect _ _ => gives (-1) ECONNREFUSED 0
  | Sys_so_error _ => gives 0 0 ECONNREFUSED
  | _ => gives 0 0 0
  end.
#[export] Existing Instance kernel.

Definition addr (ip : list Z) : Z := 16777343.

Definition sxe (id fd : Z) (path : option (list Z)) : SXE :=
  mk_sxe (mk_async false false false) (mk_io true sxe_io_cb_connect_ptr fd EV_WRITE) zero_addr zero_addr path id SXE_FLAG_IS_STREAM fd fd 0
    0 0 (replicate 1500 9) 0 100 200 0 None 0 0 0 (mk_walker 0 0 0) 0 (-1).

(** The first SXE is in use and the second one free. *)
Definition two (total extra : Z) (s : SXE) : world unit :=
  mk_world (mk_objects {[4096 := mk_spec (mk_abs [if (total =? 1)%Z then [] else [1]; [0]; []]%nat (replicate (Z.to_nat total) 0)) true 0 2]} ∅ ∅ 9000)
    (<[0 := s]> {[1 := sxe 77 33 None]}) ∅ [] (mk_globals extra total 4096 0 0 true 128 true 0) tt.

Definition peer : endpoint := mk_endpoint INADDR_ANY_text 80 0 100 200 true None.
Definition held : slots := mk_slots [1%nat] {[0%nat]} {[0%nat := mk_endpoint INADDR_ANY_text 0 0 100 200 true (Some [47])]}.
Definition script : list life_op := [New peer; New peer; Close 0; Close 0; New peer; Close 1].

Lemma two_life : life addr (two 2 0 (sxe 0 7 (Some [47]))) held.
Proof.
  split; try done.
  - eexists. split; [reflexivity|]. split; [|done]. split; [apply (bool_decide_eq_true_1 _); vm_compute; done|].
    intros i. simpl. rewrite !elem_of_cons, elem_of_nil. lia.
  - intros i Hi. cbn in Hi. destruct i as [|[|i]]; [| |lia]; eexists; (split; [reflexivity|]).
    + split; [done|]. split; [set_solver|]. split; [set_solver|done].
    + split; [set_solver|]. split; [set_solver|]. set_solver.
  - intros i Hi. cbn in *. apply elem_of_singleton in Hi. lia.
Qed.

Lemma sxe_lifecycle_witness : exists w' t,
  run_life addr script (two 2 0 (sxe 0 7 (Some [47])))
  = Ret ([Opened (Some 1); Opened None; Closed SXE_RETURN_OK; Closed SXE_RETURN_WARN_ALREADY_CLOSED; Opened (Some 0); Closed SXE_RETURN_OK], w') /\
  life addr w' (life_specs held script).2 /\ w_trace w' = [] ++ t /\ Forall (fun e => exists fd, is_close fd e) t.
Proof. apply (sxe_lifecycle addr script (two 2 0 (sxe 0 7 (Some [47]))) held); [exact two_life|]. simpl. set_solver. Defined.

(** ** What goes wrong *)

(** sxe_close closes the descriptor of a socket twice: the second time, it may belong to someone else. *)
Lemma closes_twice :
  match sxe_close 0 (two 2 0 (sxe 0 7 None)) with
  | Ret (_, w) => e_call <$> w_trace w = [Sys_close 7; Sys_close 7]
  | _ => False
  end.
Proof. vm_compute. done. Qed.

(** A connection that is refused at once: the socket is not closed, and the SXE does not have it. *)
Definition unconnected : SXE := set_s_socket_as_fd (-1) (set_s_socket SXE_SOCKET_INVALID (set_s_io (mk_io false sxe_io_cb_read_ptr (-1) 0) (sxe 0 7 None))).
Lemma connect_leaks_socket :
  match sxe_connect addr 0 [49] 80 (two 2 0 unconnected) with
  | Ret (result, w) =>
      result = SXE_RETURN_ERROR_INTERNAL /\ option_map s_socket (w_sxes w !! 0) = Some SXE_SOCKET_INVALID /\
      In (Sys_socket false true) (e_call <$> w_trace w) /\ ~ In (Sys_close 5) (e_call <$> w_trace w)
  | _ => False
  end.
Proof. vm_compute. split_and!; [done|done|tauto|]. intros Hc. decompose [or] Hc; congruence. Qed.

(** With extra space behind each SXE, the second element of the array is not a valid SXE. *)
Lemma second_is_invalid : sxe_is_valid (A := unit) (4096 + SIZEOF_SXE) (two 2 8 (sxe 0 7 None)) = Ret (false, two 2 8 (sxe 0 7 None)).
Proof. vm_compute. done. Qed.

(** A refused connection is closed behind the close callback: when the callback closes it and makes a new SXE, it is that one that is closed. *)
#[local] Instance reconnecting : Callbacks unit := {
  call_connected _ _ := mret tt;
  call_read _ _ _ := mret tt;
  call_close _ this := sxe_close this;; sxe_new_tcp addr INADDR_ANY_text 0 0 100 200;; mret tt;
  call_written _ _ _ := mret tt
}.
Lemma refused_closes_new :
  match reconnecting.(call_close) 200 0 (two 1 0 (sxe 0 7 None)), sxe_io_cb_connect 0 (two 1 0 (sxe 0 7 None)) with
  | Ret (_, w), Ret (_, w') =>
      option_map (fun p => queue_of (sp_abs p) 1) (o_pools (w_objs w) !! 4096) = Some [0%nat] /\
      option_map (fun p => queue_of (sp_abs p) 1) (o_pools (w_objs w') !! 4096) = Some []
  | _, _ => False
  end.
Proof. vm_compute. done. Qed.
End LifeExample.
