(* ===== verification/Httpd.v ===== *)
(** * Httpd: the HTTP server (lib-sxe-httpd/sxe-httpd.c)

    Requests are elements of a pool whose states are those of the protocol; the buffers of the responses are elements of another one.
    The server's functions are the callbacks of the event layer (Sxe.v), which in turn call the application's handlers. *)

From S2P Require Import Prelude StrUtil SxeList Pool Buffer HttpMessage Objects Sxe SxeSend SxeConnect.
From S2P Require JitsonPrint.

(** ** Data *)

(** lib-sxe-http/sxe-http.h:38-45, SXE_HTTP_METHOD. *)
Inductive SXE_HTTP_METHOD :=
| SXE_HTTP_METHOD_INVALID
| SXE_HTTP_METHOD_GET
| SXE_HTTP_METHOD_HEAD
| SXE_HTTP_METHOD_PUT
| SXE_HTTP_METHOD_POST
| SXE_HTTP_METHOD_DELETE.
#[export] Instance method_eq_dec : EqDecision SXE_HTTP_METHOD.
Proof. solve_decision. Defined.

(** lib-sxe-http/sxe-http.h:47-51, SXE_HTTP_VERSION. *)
Inductive SXE_HTTP_VERSION := SXE_HTTP_VERSION_UNKNOWN | SXE_HTTP_VERSION_1_0 | SXE_HTTP_VERSION_1_1.
#[export] Instance version_eq_dec : EqDecision SXE_HTTP_VERSION.
Proof. solve_decision. Defined.

(** lib-sxe-httpd/sxe-httpd.h:36-45, SXE_HTTPD_CONN_STATE. *)
Definition SXE_HTTPD_CONN_FREE : Z := 0.
Definition SXE_HTTPD_CONN_BAD : Z := 1.
Definition SXE_HTTPD_CONN_IDLE : Z := 2.
Definition SXE_HTTPD_CONN_REQ_LINE : Z := 3.
Definition SXE_HTTPD_CONN_REQ_HEADERS : Z := 4.
Definition SXE_HTTPD_CONN_REQ_BODY : Z := 5.
Definition SXE_HTTPD_CONN_REQ_RESPONSE : Z := 6.
Definition SXE_HTTPD_CONN_NUMBER_OF_STATES : Z := 7.

(** lib-sxe-httpd/sxe-httpd.c:39-43, SXE_HTTPD_BUFFER_STATE. *)
Definition SXE_HTTPD_BUFFER_FREE : Z := 0.
Definition SXE_HTTPD_BUFFER_USED : Z := 1.
Definition SXE_HTTPD_BUFFER_NUMBER_OF_STATES : Z := 2.

(** String literals, with their NUL. *)
Definition HTTPD_CONTENT_LENGTH : list Z := [67; 111; 110; 116; 101; 110; 116; 45; 76; 101; 110; 103; 116; 104; 0].
Definition HTTPD_CONNECTION_CLOSE_HEADER : list Z := [67; 111; 110; 110; 101; 99; 116; 105; 111; 110; 0].
Definition HTTPD_CONNECTION_CLOSE_VALUE : list Z := [99; 108; 111; 115; 101; 0].
Definition CRLF : list Z := [CR; LF].

(** lib-sxe-httpd/sxe-httpd.h:71-95, SXE_HTTPD_REQUEST. The pointer to the SXE
    is its index, if it has one; the pointer of the message is an offset in that SXE's buffer. The list and the offset of the file are objects at
    addresses in the request. *)
Record SXE_HTTPD_REQUEST := mk_request {
  q_server : Z;
  q_sxe : option Z;
  q_user_data : Z;
  q_method : SXE_HTTP_METHOD;
  q_version : SXE_HTTP_VERSION;
  q_message : SXE_HTTP_MESSAGE;
  q_message_start : Z;
  q_in_content_length : Z;
  q_in_content_seen : Z;
  q_paused : bool;
  q_out_started : bool;
  q_out_eoh : bool;
  q_on_sent_handler : Z;
  q_on_sent_userdata : Z;
  q_sendfile_fd : Z;
  q_sendfile_length : Z
}.

Definition set_q_server (v : Z) (q : SXE_HTTPD_REQUEST) : SXE_HTTPD_REQUEST := mk_request v (q_sxe q) (q_user_data q)
  (q_method q) (q_version q) (q_message q) (q_message_start q) (q_in_content_length q) (q_in_content_seen q) (q_paused
  q) (q_out_started q) (q_out_eoh q) (q_on_sent_handler q) (q_on_sent_userdata q) (q_sendfile_fd q) (q_sendfile_length
  q).
Definition set_q_sxe (v : option Z) (q : SXE_HTTPD_REQUEST) : SXE_HTTPD_REQUEST := mk_request (q_server q) v
  (q_user_data q) (q_method q) (q_version q) (q_message q) (q_message_start q) (q_in_content_length q)
  (q_in_content_seen q) (q_paused q) (q_out_started q) (q_out_eoh q) (q_on_sent_handler q) (q_on_sent_userdata q)
  (q_sendfile_fd q) (q_sendfile_length q).
Definition set_q_user_data (v : Z) (q : SXE_HTTPD_REQUEST) : SXE_HTTPD_REQUEST := mk_request (q_server q) (q_sxe q) v
  (q_method q) (q_version q) (q_message q) (q_message_start q) (q_in_content_length q) (q_in_content_seen q) (q_paused
  q) (q_out_started q) (q_out_eoh q) (q_on_sent_handler q) (q_on_sent_userdata q) (q_sendfile_fd q) (q_sendfile_length
  q).
Definition set_q_method (v : SXE_HTTP_METHOD) (q : SXE_HTTPD_REQUEST) : SXE_HTTPD_REQUEST := mk_request (q_server q)
  (q_sxe q) (q_user_data q) v (q_version q) (q_message q) (q_message_start q) (q_in_content_length q)
  (q_in_content_seen q) (q_paused q) (q_out_started q) (q_out_eoh q) (q_on_sent_handler q) (q_on_sent_userdata q)
  (q_sendfile_fd q) (q_sendfile_length q).
Definition set_q_version (v : SXE_HTTP_VERSION) (q : SXE_HTTPD_REQUEST) : SXE_HTTPD_REQUEST := mk_request (q_server q)
  (q_sxe q) (q_user_data q) (q_method q) v (q_message q) (q_message_start q) (q_in_content_length q) (q_in_content_seen
  q) (q_paused q) (q_out_started q) (q_out_eoh q) (q_on_sent_handler q) (q_on_sent_userdata q) (q_sendfile_fd q)
  (q_sendfile_length q).
Definition set_q_message (v : SXE_HTTP_MESSAGE) (q : SXE_HTTPD_REQUEST) : SXE_HTTPD_REQUEST := mk_request (q_server q)
  (q_sxe q) (q_user_data q) (q_method q) (q_version q) v (q_message_start q) (q_in_content_length q) (q_in_content_seen
  q) (q_paused q) (q_out_started q) (q_out_eoh q) (q_on_sent_handler q) (q_on_sent_userdata q) (q_sendfile_fd q)
  (q_sendfile_length q).
Definition set_q_message_start (v : Z) (q : SXE_HTTPD_REQUEST) : SXE_HTTPD_REQUEST := mk_request (q_server q) (q_sxe q)
  (q_user_data q) (q_method q) (q_version q) (q_message q) v (q_in_content_length q) (q_in_content_seen q) (q_paused q)
  (q_out_started q) (q_out_eoh q) (q_on_sent_handler q) (q_on_sent_userdata q) (q_sendfile_fd q) (q_sendfile_length q).
Definition set_q_in_content_length (v : Z) (q : SXE_HTTPD_REQUEST) : SXE_HTTPD_REQUEST := mk_request (q_server q)
  (q_sxe q) (q_user_data q) (q_method q) (q_version q) (q_message q) (q_message_start q) v (q_in_content_seen q)
  (q_paused q) (q_out_started q) (q_out_eoh q) (q_on_sent_handler q) (q_on_sent_userdata q) (q_sendfile_fd q)
  (q_sendfile_length q).
Definition set_q_in_content_seen (v : Z) (q : SXE_HTTPD_REQUEST) : SXE_HTTPD_REQUEST := mk_request (q_server q) (q_sxe
  q) (q_user_data q) (q_method q) (q_version q) (q_message q) (q_message_start q) (q_in_content_length q) v (q_paused
  q) (q_out_started q) (q_out_eoh q) (q_on_sent_handler q) (q_on_sent_userdata q) (q_sendfile_fd q) (q_sendfile_length
  q).
Definition set_q_paused (v : bool) (q : SXE_HTTPD_REQUEST) : SXE_HTTPD_REQUEST := mk_request (q_server q) (q_sxe q)
  (q_user_data q) (q_method q) (q_version q) (q_message q) (q_message_start q) (q_in_content_length q)
  (q_in_content_seen q) v (q_out_started q) (q_out_eoh q) (q_on_sent_handler q) (q_on_sent_userdata q) (q_sendfile_fd
  q) (q_sendfile_length q).
Definition set_q_out_started (v : bool) (q : SXE_HTTPD_REQUEST) : SXE_HTTPD_REQUEST := mk_request (q_server q) (q_sxe
  q) (q_user_data q) (q_method q) (q_version q) (q_message q) (q_message_start q) (q_in_content_length q)
  (q_in_content_seen q) (q_paused q) v (q_out_eoh q) (q_on_sent_handler q) (q_on_sent_userdata q) (q_sendfile_fd q)
  (q_sendfile_length q).
Definition set_q_out_eoh (v : bool) (q : SXE_HTTPD_REQUEST) : SXE_HTTPD_REQUEST := mk_request (q_server q) (q_sxe q)
  (q_user_data q) (q_method q) (q_version q) (q_message q) (q_message_start q) (q_in_content_length q)
  (q_in_content_seen q) (q_paused q) (q_out_started q) v (q_on_sent_handler q) (q_on_sent_userdata q) (q_sendfile_fd q)
  (q_sendfile_length q).
Definition set_q_on_sent_handler (v : Z) (q : SXE_HTTPD_REQUEST) : SXE_HTTPD_REQUEST := mk_request (q_server q) (q_sxe
  q) (q_user_data q) (q_method q) (q_version q) (q_message q) (q_message_start q) (q_in_content_length q)
  (q_in_content_seen q) (q_paused q) (q_out_started q) (q_out_eoh q) v (q_on_sent_userdata q) (q_sendfile_fd q)
  (q_sendfile_length q).
Definition set_q_on_sent_userdata (v : Z) (q : SXE_HTTPD_REQUEST) : SXE_HTTPD_REQUEST := mk_request (q_server q) (q_sxe
  q) (q_user_data q) (q_method q) (q_version q) (q_message q) (q_message_start q) (q_in_content_length q)
  (q_in_content_seen q) (q_paused q) (q_out_started q) (q_out_eoh q) (q_on_sent_handler q) v (q_sendfile_fd q)
  (q_sendfile_length q).
Definition set_q_sendfile_fd (v : Z) (q : SXE_HTTPD_REQUEST) : SXE_HTTPD_REQUEST := mk_request (q_server q) (q_sxe q)
  (q_user_data q) (q_method q) (q_version q) (q_message q) (q_message_start q) (q_in_content_length q)
  (q_in_content_seen q) (q_paused q) (q_out_started q) (q_out_eoh q) (q_on_sent_handler q) (q_on_sent_userdata q) v
  (q_sendfile_length q).
Definition set_q_sendfile_length (v : Z) (q : SXE_HTTPD_REQUEST) : SXE_HTTPD_REQUEST := mk_request (q_server q) (q_sxe
  q) (q_user_data q) (q_method q) (q_version q) (q_message q) (q_message_start q) (q_in_content_length q)
  (q_in_content_seen q) (q_paused q) (q_out_started q) (q_out_eoh q) (q_on_sent_handler q) (q_on_sent_userdata q)
  (q_sendfile_fd q) v.

(** lib-sxe-httpd/sxe-httpd.h:99-113, SXE_HTTPD. *)
Record SXE_HTTPD := mk_httpd {
  d_requests : Z;
  d_max_connections : Z;
  d_buffers : Z;
  d_buffer_size : Z;
  d_buffer_count : Z;
  d_user_data : Z;
  d_on_connect : Z;
  d_on_request : Z;
  d_on_header : Z;
  d_on_eoh : Z;
  d_on_body : Z;
  d_on_respond : Z;
  d_on_close : Z
}.

Definition set_d_requests (v : Z) (d : SXE_HTTPD) : SXE_HTTPD := mk_httpd v (d_max_connections d) (d_buffers d)
  (d_buffer_size d) (d_buffer_count d) (d_user_data d) (d_on_connect d) (d_on_request d) (d_on_header d) (d_on_eoh d)
  (d_on_body d) (d_on_respond d) (d_on_close d).
Definition set_d_max_connections (v : Z) (d : SXE_HTTPD) : SXE_HTTPD := mk_httpd (d_requests d) v (d_buffers d)
  (d_buffer_size d) (d_buffer_count d) (d_user_data d) (d_on_connect d) (d_on_request d) (d_on_header d) (d_on_eoh d)
  (d_on_body d) (d_on_respond d) (d_on_close d).
Definition set_d_buffers (v : Z) (d : SXE_HTTPD) : SXE_HTTPD := mk_httpd (d_requests d) (d_max_connections d) v
  (d_buffer_size d) (d_buffer_count d) (d_user_data d) (d_on_connect d) (d_on_request d) (d_on_header d) (d_on_eoh d)
  (d_on_body d) (d_on_respond d) (d_on_close d).
Definition set_d_buffer_size (v : Z) (d : SXE_HTTPD) : SXE_HTTPD := mk_httpd (d_requests d) (d_max_connections d)
  (d_buffers d) v (d_buffer_count d) (d_user_data d) (d_on_connect d) (d_on_request d) (d_on_header d) (d_on_eoh d)
  (d_on_body d) (d_on_respond d) (d_on_close d).
Definition set_d_buffer_count (v : Z) (d : SXE_HTTPD) : SXE_HTTPD := mk_httpd (d_requests d) (d_max_connections d)
  (d_buffers d) (d_buffer_size d) v (d_user_data d) (d_on_connect d) (d_on_request d) (d_on_header d) (d_on_eoh d)
  (d_on_body d) (d_on_respond d) (d_on_close d).
Definition set_d_user_data (v : Z) (d : SXE_HTTPD) : SXE_HTTPD := mk_httpd (d_requests d) (d_max_connections d)
  (d_buffers d) (d_buffer_size d) (d_buffer_count d) v (d_on_connect d) (d_on_request d) (d_on_header d) (d_on_eoh d)
  (d_on_body d) (d_on_respond d) (d_on_close d).
Definition set_d_on_connect (v : Z) (d : SXE_HTTPD) : SXE_HTTPD := mk_httpd (d_requests d) (d_max_connections d)
  (d_buffers d) (d_buffer_size d) (d_buffer_count d) (d_user_data d) v (d_on_request d) (d_on_header d) (d_on_eoh d)
  (d_on_body d) (d_on_respond d) (d_on_close d).
Definition set_d_on_request (v : Z) (d : SXE_HTTPD) : SXE_HTTPD := mk_httpd (d_requests d) (d_max_connections d)
  (d_buffers d) (d_buffer_size d) (d_buffer_count d) (d_user_data d) (d_on_connect d) v (d_on_header d) (d_on_eoh d)
  (d_on_body d) (d_on_respond d) (d_on_close d).
Definition set_d_on_header (v : Z) (d : SXE_HTTPD) : SXE_HTTPD := mk_httpd (d_requests d) (d_max_connections d)
  (d_buffers d) (d_buffer_size d) (d_buffer_count d) (d_user_data d) (d_on_connect d) (d_on_request d) v (d_on_eoh d)
  (d_on_body d) (d_on_respond d) (d_on_close d).
Definition set_d_on_eoh (v : Z) (d : SXE_HTTPD) : SXE_HTTPD := mk_httpd (d_requests d) (d_max_connections d) (d_buffers
  d) (d_buffer_size d) (d_buffer_count d) (d_user_data d) (d_on_connect d) (d_on_request d) (d_on_header d) v
  (d_on_body d) (d_on_respond d) (d_on_close d).
Definition set_d_on_body (v : Z) (d : SXE_HTTPD) : SXE_HTTPD := mk_httpd (d_requests d) (d_max_connections d)
  (d_buffers d) (d_buffer_size d) (d_buffer_count d) (d_user_data d) (d_on_connect d) (d_on_request d) (d_on_header d)
  (d_on_eoh d) v (d_on_respond d) (d_on_close d).
Definition set_d_on_respond (v : Z) (d : SXE_HTTPD) : SXE_HTTPD := mk_httpd (d_requests d) (d_max_connections d)
  (d_buffers d) (d_buffer_size d) (d_buffer_count d) (d_user_data d) (d_on_connect d) (d_on_request d) (d_on_header d)
  (d_on_eoh d) (d_on_body d) v (d_on_close d).
Definition set_d_on_close (v : Z) (d : SXE_HTTPD) : SXE_HTTPD := mk_httpd (d_requests d) (d_max_connections d)
  (d_buffers d) (d_buffer_size d) (d_buffer_count d) (d_user_data d) (d_on_connect d) (d_on_request d) (d_on_header d)
  (d_on_eoh d) (d_on_body d) (d_on_respond d) v.

(** The servers and the requests, by their addresses, and the application's state. *)
Record httpd (B : Type) := mk_state {
  h_servers : gmap Z SXE_HTTPD;
  h_requests : gmap Z SXE_HTTPD_REQUEST;
  h_app : B
}.
Arguments mk_state {B}. Arguments h_servers {B}. Arguments h_requests {B}. Arguments h_app {B}.

(** The application's handlers, by their pointers. A string that a handler is given as a pointer and a
    length is the bytes. *)
Class Handlers (B : Type) := {
  app_connect : Z -> Z -> cmd (world (httpd B)) unit;
  app_request : Z -> Z -> list Z -> list Z -> list Z -> cmd (world (httpd B)) unit;
  app_header : Z -> Z -> list Z -> list Z -> cmd (world (httpd B)) unit;
  app_eoh : Z -> Z -> cmd (world (httpd B)) unit;
  app_body : Z -> Z -> list Z -> cmd (world (httpd B)) unit;
  app_respond : Z -> Z -> cmd (world (httpd B)) unit;
  app_close : Z -> Z -> cmd (world (httpd B)) unit;
  app_sent : Z -> Z -> SXE_RETURN -> Z -> cmd (world (httpd B)) unit
}.

(** sizeof(SXE_HTTPD_REQUEST) and sizeof(SXE_BUFFER), and where the list and the offset are in a request. Behind the input buffer
    of an SXE come the bytes of its other members: the header parser reads the first of them when the buffer is full. *)
Class HttpdLayout := {
  SIZEOF_REQUEST : Z;
  OFFSETOF_out_buffer_list : Z;
  OFFSETOF_sendfile_offset : Z;
  SIZEOF_SXE_BUFFER : Z;
  behind_in_buf : SXE -> list Z
}.

(** The addresses of the static functions that are given to the event layer, and of the default handlers. *)
Definition sxe_httpd_event_connect_ptr : Z := 201.
Definition sxe_httpd_event_read_ptr : Z := 202.
Definition sxe_httpd_event_close_ptr : Z := 203.
Definition sxe_httpd_event_sendfile_done_ptr : Z := 204.
Definition sxe_httpd_event_sendfile_ready_ptr : Z := 205.
Definition sxe_httpd_event_response_sent_ptr : Z := 206.
Definition sxe_httpd_event_response_done_ptr : Z := 207.
Definition sxe_httpd_default_connect_handler_ptr : Z := 211.
Definition sxe_httpd_default_request_handler_ptr : Z := 212.
Definition sxe_httpd_default_header_handler_ptr : Z := 213.
Definition sxe_httpd_default_eoh_handler_ptr : Z := 214.
Definition sxe_httpd_default_body_handler_ptr : Z := 215.
Definition sxe_httpd_default_respond_handler_ptr : Z := 216.
Definition sxe_httpd_default_close_handler_ptr : Z := 217.

(** The addresses of the lists that are local variables. *)
Definition keep_ptr : Z := -1.
Definition buffer_list_ptr : Z := -2.

(** ** printf *)

(** "%.*s": at most so many characters of a string. A negative precision, as a size above INT_MAX is read, is none. *)
Definition precision (n : Z) (s : list Z) : option (list Z) :=
  if 2147483648 <=? n then cstring s
  else match cstring (take (Z.to_nat n) s) with Some t => Some t | None => slice s 0 n end.

(** "%d" *)
Definition print_int (n : Z) : list Z := if n <? 0 then 45 :: JitsonPrint.print_uint (- n) else JitsonPrint.print_uint n.

Section Httpd.
Context {B : Type} `{Build, Kernel, Layout, HttpdLayout, !Handlers B}.
Abbreviation A := (httpd B).
Abbreviation M := (cmd (world A)).

(** ** Memory *)

Definition rd_httpd (self : Z) : M SXE_HTTPD := fun w => lift (load (h_servers (w_app w) !! self)) w.
Definition upd_httpd (self : Z) (f : SXE_HTTPD -> SXE_HTTPD) : M unit := fun w =>
  match h_servers (w_app w) !! self with
  | Some d => Ret (tt, with_app (mk_state (<[self := f d]> (h_servers (w_app w))) (h_requests (w_app w)) (h_app (w_app w))) w)
  | None => Fault
  end.
Definition rd_request (request : Z) : M SXE_HTTPD_REQUEST := fun w => lift (load (h_requests (w_app w) !! request)) w.
Definition upd_request (request : Z) (f : SXE_HTTPD_REQUEST -> SXE_HTTPD_REQUEST) : M unit := fun w =>
  match h_requests (w_app w) !! request with
  | Some q => Ret (tt, with_app (mk_state (h_servers (w_app w)) (<[request := f q]> (h_requests (w_app w))) (h_app (w_app w))) w)
  | None => Fault
  end.

(** request->sxe, where the code uses it. *)
Definition request_sxe (request : Z) : M Z := q ← rd_request request; lift (load (q_sxe q)).

Definition out_buffer_list (request : Z) : Z := request + OFFSETOF_out_buffer_list.
Definition sendfile_offset (request : Z) : Z := request + OFFSETOF_sendfile_offset.

(** lib-sxe-httpd/sxe-httpd.c:33-33, SXE_HTTPD_REQUEST_INDEX. *)
Definition SXE_HTTPD_REQUEST_INDEX (base_ptr object_ptr : Z) : Z := u32 (u64 (object_ptr - base_ptr) / SIZEOF_REQUEST).
Definition request_at (base_ptr id : Z) : Z := base_ptr + SIZEOF_REQUEST * id.

(** lib-sxe-httpd/sxe-httpd.c:35-35, SXE_HTTPD_BUFFER_SIZE. *)
Definition SXE_HTTPD_BUFFER_SIZE (s : SXE_HTTPD) : Z := SIZEOF_SXE_BUFFER + d_buffer_size s.
(** lib-sxe-httpd/sxe-httpd.c:36-36, SXE_HTTPD_BUFFER. *)
Definition SXE_HTTPD_BUFFER (s : SXE_HTTPD) (idx : Z) : Z := d_buffers s + idx * SXE_HTTPD_BUFFER_SIZE s.
(** lib-sxe-httpd/sxe-httpd.c:37-37, SXE_HTTPD_BUFFER_INDEX. As an unsigned. *)
Definition SXE_HTTPD_BUFFER_INDEX (s : SXE_HTTPD) (b : Z) : Z := u32 (u64 (b - d_buffers s) / SXE_HTTPD_BUFFER_SIZE s).

(** ** Buffers *)

(** lib-sxe-httpd/sxe-httpd.c:45-65, sxe_httpd_get_buffer. *)
Definition sxe_httpd_get_buffer (self : Z) : M Z :=
  d ← rd_httpd self;
  id ← on_objs (pool_set_oldest (d_buffers d) SXE_HTTPD_BUFFER_FREE SXE_HTTPD_BUFFER_USED);
  if id =? SXE_POOL_NO_INDEX then mret NULL
  else
    let buffer := SXE_HTTPD_BUFFER d id in
    on_objs (string_construct buffer (buffer + SIZEOF_SXE_BUFFER) [] (d_buffer_size d) false);;
    mret buffer.

(** lib-sxe-httpd/sxe-httpd.c:75-86, sxe_httpd_give_buffers. The first loop. *)
Fixpoint give_loop (fuel : nat) (self buffers : Z) : M unit :=
  match fuel with
  | O => lift Fault
  | S fuel =>
      empty ← on_objs (list_is_empty buffers);
      if (empty : bool) then mret tt
      else
        buffer ← on_objs (list_shift buffers);
        d ← rd_httpd self;
        let id := SXE_HTTPD_BUFFER_INDEX d buffer in
        lift (assert1 (negb (buffer =? NULL)));;
        (if id <? d_buffer_count d then
           on_objs (pool_set_state (d_buffers d) id SXE_HTTPD_BUFFER_USED SXE_HTTPD_BUFFER_FREE);; mret tt
         else on_objs (list_push keep_ptr buffer));;
        give_loop fuel self buffers
  end.

(** lib-sxe-httpd/sxe-httpd.c:88-90, sxe_httpd_give_buffers. Moving the objects of a list to the end of another. *)
Fixpoint move_loop (fuel : nat) (from to : Z) : M unit :=
  match fuel with
  | O => lift Fault
  | S fuel =>
      empty ← on_objs (list_is_empty from);
      if (empty : bool) then mret tt
      else x ← on_objs (list_shift from); on_objs (list_push to x);; move_loop fuel from to
  end.

(** The number of objects in a list bounds the loops that empty it. *)
Definition list_fuel (l : Z) : M nat := xs ← on_objs (list_at l); mret (S (length xs)).

(** lib-sxe-httpd/sxe-httpd.c:67-93, sxe_httpd_give_buffers. *)
Definition sxe_httpd_give_buffers (self buffers : Z) : M unit :=
  on_objs (list_construct keep_ptr);;
  fuel ← list_fuel buffers;
  give_loop fuel self buffers;;
  fuel ← list_fuel keep_ptr;
  move_loop fuel keep_ptr buffers.

(** ** Responses *)

(** Formatting into a buffer that must not overflow. *)
Definition printf_fits (buffer : Z) (text : list Z) : M unit :=
  on_objs (string_printf buffer text);;
  over ← on_objs (string_is_overflow buffer);
  lift (assert1 (negb over)).

(** lib-sxe-httpd/sxe-httpd.c:831-831, sxe_httpd_response_start. The format. *)
Definition status_line (code : Z) (status : list Z) : list Z := [72; 84; 84; 80; 47; 49; 46; 49; 32] ++ print_int code ++ [SPACE] ++ status ++ CRLF.
(** lib-sxe-httpd/sxe-httpd.c:864-864, sxe_httpd_response_header. The format. *)
Definition header_line (header value : list Z) : list Z := header ++ [COLON; SPACE] ++ value ++ CRLF.

(** lib-sxe-httpd/sxe-httpd.c:817-841, sxe_httpd_response_start. *)
Definition sxe_httpd_response_start (request code : Z) (status : list Z) : M SXE_RETURN :=
  q ← rd_request request;
  buffer ← sxe_httpd_get_buffer (q_server q);
  (if debug then over ← on_objs (string_is_overflow buffer); lift (assert1 (negb over)) else mret tt);;
  if negb (buffer =? NULL) then
    status ← lift (load (cstring status));
    printf_fits buffer (status_line code status);;
    on_objs (list_push (out_buffer_list request) buffer);;
    upd_request request (set_q_out_started true);;
    mret SXE_RETURN_OK
  else mret SXE_RETURN_NO_UNUSED_ELEMENTS.

(** The tail of the queue, when it is one of the server's own buffers and not a constant; else NULL. *)
Definition own_tail (request : Z) : M Z :=
  buffer ← on_objs (list_peek_tail (out_buffer_list request));
  if negb (buffer =? NULL) then
    data ← on_objs (string_data buffer);
    mret (if data =? buffer + SIZEOF_SXE_BUFFER then buffer else NULL)
  else mret NULL.

(** lib-sxe-httpd/sxe-httpd.c:872-880, sxe_httpd_response_header. Writing the header into a buffer of its own. *)
Definition header_in_new (request self : Z) (header value : list Z) (value_length : Z) : M SXE_RETURN :=
  buffer ← sxe_httpd_get_buffer self;
  if negb (buffer =? NULL) then
    value ← lift (load (precision value_length value));
    printf_fits buffer (header_line header value);;
    on_objs (list_push (out_buffer_list request) buffer);;
    mret SXE_RETURN_OK
  else mret SXE_RETURN_NO_UNUSED_ELEMENTS.

(** lib-sxe-httpd/sxe-httpd.c:843-885, sxe_httpd_response_header. *)
Definition sxe_httpd_response_header (request : Z) (header value : list Z) (length : Z) : M SXE_RETURN :=
  q ← rd_request request;
  header ← lift (load (cstring header));
  let header_length := u32 (zlen header) in
  value_length ← (if negb (length =? 0) then mret length else n ← lift (load (strlen value)); mret (u32 n));
  lift (assert6 (negb (q_out_eoh q)));;
  lift (assert6 (q_out_started q));;
  buffer ← own_tail request;
  fits ← (if negb (buffer =? NULL) then
            room ← on_objs (string_room buffer);
            mret (header_length + 2 + value_length + 2 + 1 <? room)
          else mret false);
  if (fits : bool) then
    value ← lift (load (precision value_length value));
    printf_fits buffer (header_line header value);;
    mret SXE_RETURN_OK
  else
    header_in_new request (q_server q) header value value_length.

(** lib-sxe-httpd/sxe-httpd.c:888-901, sxe_httpd_response_content_length. *)
Definition sxe_httpd_response_content_length (request length : Z) : M SXE_RETURN :=
  sxe_httpd_response_header request HTTPD_CONTENT_LENGTH (print_int (to_int length) ++ [0]) 0.

(** lib-sxe-httpd/sxe-httpd.c:923-934, sxe_httpd_response_eoh. Writing the marker into a buffer of its own. *)
Definition eoh_in_new (request self : Z) : M SXE_RETURN :=
  buffer ← sxe_httpd_get_buffer self;
  if buffer =? NULL then mret SXE_RETURN_NO_UNUSED_ELEMENTS
  else
    on_objs (string_cat buffer CRLF);;
    on_objs (list_push (out_buffer_list request) buffer);;
    upd_request request (set_q_out_eoh true);;
    mret SXE_RETURN_OK.

(** lib-sxe-httpd/sxe-httpd.c:903-939, sxe_httpd_response_eoh. *)
Definition sxe_httpd_response_eoh (request : Z) : M SXE_RETURN :=
  q ← rd_request request;
  buffer ← own_tail request;
  fits ← (if negb (buffer =? NULL) then room ← on_objs (string_room buffer); mret (2 <=? room) else mret false);
  if (fits : bool) then
    on_objs (string_cat buffer CRLF);;
    upd_request request (set_q_out_eoh true);;
    mret SXE_RETURN_OK
  else
    eoh_in_new request (q_server q).

(** lib-sxe-httpd/sxe-httpd.c:961-967, sxe_httpd_copy_data_to_buffer_list. Taking the buffers; whether there were enough. *)
Fixpoint grab_loop (fuel : nat) (self buffer_list length used : Z) : M bool :=
  match fuel with
  | O => lift Fault
  | S fuel =>
      if used <? length then
        buffer ← sxe_httpd_get_buffer self;
        if buffer =? NULL then mret false
        else
          on_objs (list_push buffer_list buffer);;
          d ← rd_httpd self;
          grab_loop fuel self buffer_list length (u32 (used + d_buffer_size d))
      else mret true
  end.

(** lib-sxe-httpd/sxe-httpd.c:974-984, sxe_httpd_copy_data_to_buffer_list. Filling them. *)
Fixpoint copy_loop (fuel : nat) (self : Z) (walker : SXE_LIST_WALKER) (chunk : list Z) (length used : Z) : M unit :=
  match fuel with
  | O => lift Fault
  | S fuel =>
      '(buffer, walker) ← on_objs (walker_step walker);
      if buffer =? NULL then mret tt
      else
        d ← rd_httpd self;
        let bytes := Z.min (d_buffer_size d) (u32 (length - used)) in
        on_objs (string_memcpy buffer (drop (Z.to_nat used) chunk) bytes);;
        copy_loop fuel self walker chunk length (u32 (used + bytes))
  end.

(** lib-sxe-httpd/sxe-httpd.c:941-989, sxe_httpd_copy_data_to_buffer_list. *)
Definition sxe_httpd_copy_data_to_buffer_list (request buffer_list : Z) (chunk : list Z) (length : Z) : M SXE_RETURN :=
  q ← rd_request request;
  let self := q_server q in
  length ← (if length =? 0 then n ← lift (load (strlen chunk)); mret (u32 n) else mret length);
  d ← rd_httpd self;
  enough ← grab_loop (S (Z.to_nat length)) self buffer_list length 0;
  if (enough : bool) then
    fuel ← list_fuel buffer_list;
    copy_loop fuel self (mk_walker buffer_list buffer_list buffer_list) chunk length 0;;
    mret SXE_RETURN_OK
  else mret SXE_RETURN_NO_UNUSED_ELEMENTS.

(** lib-sxe-httpd/sxe-httpd.c:1012-1046, sxe_httpd_response_copy_body_data. *)
Definition sxe_httpd_response_copy_body_data (request : Z) (chunk : list Z) (length : Z) : M SXE_RETURN :=
  q ← rd_request request;
  lift (assert6 (q_out_started q));;
  on_objs (list_construct buffer_list_ptr);;
  result ← sxe_httpd_copy_data_to_buffer_list request buffer_list_ptr chunk length;
  result ←
    (if bool_decide (result = SXE_RETURN_OK) then
       result ← (if negb (q_out_eoh q) then sxe_httpd_response_eoh request else mret SXE_RETURN_OK);
       if bool_decide (result = SXE_RETURN_OK) then
         fuel ← list_fuel buffer_list_ptr;
         move_loop fuel buffer_list_ptr (out_buffer_list request);;
         mret SXE_RETURN_OK
       else mret result
     else mret result);
  sxe_httpd_give_buffers (q_server q) buffer_list_ptr;;
  mret result.

(** lib-sxe-httpd/sxe-httpd.c:1048-1079, sxe_httpd_response_add_body_data. [chunk] points to [data]. *)
Definition sxe_httpd_response_add_body_data (request chunk : Z) (data : list Z) (length : Z) : M SXE_RETURN :=
  q ← rd_request request;
  lift (assert6 (q_out_started q));;
  result ← (if negb (q_out_eoh q) then sxe_httpd_response_eoh request else mret SXE_RETURN_OK);
  if bool_decide (result = SXE_RETURN_OK) then
    buffer ← sxe_httpd_get_buffer (q_server q);
    if buffer =? NULL then
      mret (if negb (q_out_eoh q) then SXE_RETURN_OK else SXE_RETURN_NO_UNUSED_ELEMENTS)
    else
      text ← lift (load (slice data 0 length));
      on_objs (string_construct buffer chunk text length true);;
      on_objs (list_push (out_buffer_list request) buffer);;
      mret (if negb (q_out_eoh q) then SXE_RETURN_OK else SXE_RETURN_NO_UNUSED_ELEMENTS)
  else mret result.

(** lib-sxe-httpd/sxe-httpd.c:1100-1131, sxe_httpd_response_copy_raw_data. *)
Fixpoint shift_loop (fuel : nat) (from to : Z) : M unit :=
  match fuel with
  | O => lift Fault
  | S fuel =>
      buffer ← on_objs (list_shift from);
      if buffer =? NULL then mret tt else on_objs (list_push to buffer);; shift_loop fuel from to
  end.

(** lib-sxe-httpd/sxe-httpd.c:1100-1131, sxe_httpd_response_copy_raw_data. *)
Definition sxe_httpd_response_copy_raw_data (request : Z) (chunk : list Z) (length : Z) : M SXE_RETURN :=
  q ← rd_request request;
  on_objs (list_construct buffer_list_ptr);;
  result ← sxe_httpd_copy_data_to_buffer_list request buffer_list_ptr chunk length;
  (if bool_decide (result = SXE_RETURN_OK) then
     fuel ← list_fuel buffer_list_ptr;
     shift_loop fuel buffer_list_ptr (out_buffer_list request);;
     upd_request request (set_q_out_eoh true)
   else mret tt);;
  sxe_httpd_give_buffers (q_server q) buffer_list_ptr;;
  mret result.

(** lib-sxe-httpd/sxe-httpd.c:1149-1172, sxe_httpd_response_add_body_buffer. *)
Definition sxe_httpd_response_add_body_buffer (request buffer : Z) : M SXE_RETURN :=
  q ← rd_request request;
  lift (assert6 (q_out_started q));;
  result ← (if negb (q_out_eoh q) then sxe_httpd_response_eoh request else mret SXE_RETURN_OK);
  if bool_decide (result = SXE_RETURN_OK) then
    on_objs (list_push (out_buffer_list request) buffer);;
    mret SXE_RETURN_OK
  else mret SXE_RETURN_NO_UNUSED_ELEMENTS.

(** lib-sxe-httpd/sxe-httpd.c:1188-1204, sxe_httpd_response_add_raw_buffer. *)
Definition sxe_httpd_response_add_raw_buffer (request buffer : Z) : M SXE_RETURN :=
  upd_request request (set_q_out_eoh true);;
  on_objs (list_push (out_buffer_list request) buffer);;
  mret SXE_RETURN_OK.

(** ** Closing *)

(** lib-sxe-httpd/sxe-httpd.c:255-275, sxe_httpd_clear_request. *)
Definition sxe_httpd_clear_request (request : Z) : M unit :=
  upd_request request (fun q =>
    set_q_paused false (set_q_out_eoh false (set_q_out_started false (set_q_in_content_seen 0 (set_q_in_content_length 0 q)))));;
  on_objs (list_construct (out_buffer_list request)).

(** lib-sxe-httpd/sxe-httpd.c:282-302, sxe_httpd_close. *)
Definition sxe_httpd_close (request : Z) : M unit :=
  q ← rd_request request;
  d ← rd_httpd (q_server q);
  let request_id := SXE_HTTPD_REQUEST_INDEX (d_requests d) request in
  sxe_httpd_clear_request request;;
  (match q_sxe q with Some this => sxe_close this;; mret tt | None => mret tt end);;
  state ← on_objs (pool_state_of (d_requests d) request_id);
  on_objs (pool_set_state (d_requests d) request_id state SXE_HTTPD_CONN_FREE);;
  mret tt.

(** lib-sxe-httpd/sxe-httpd.c:173-181, sxe_httpd_default_close_handler. *)
Definition sxe_httpd_default_close_handler (request : Z) : M unit := mret tt.

Definition call_on_close (ptr request : Z) : M unit :=
  if ptr =? sxe_httpd_default_close_handler_ptr then sxe_httpd_default_close_handler request else app_close ptr request.

(** ** Sending *)

(** request->on_sent_handler, when there is one. *)
Definition sent_handler (request : Z) (final_result : SXE_RETURN) : M unit :=
  q ← rd_request request;
  if negb (q_on_sent_handler q =? NULL) then app_sent (q_on_sent_handler q) request final_result (q_on_sent_userdata q) else mret tt.

(** lib-sxe-httpd/sxe-httpd.c:1302-1308, sxe_httpd_event_response_sent. Empty buffers leave the head of the list. *)
Fixpoint trim_sent (fuel : nat) (l : Z) : M unit :=
  match fuel with
  | O => lift Fault
  | S fuel =>
      buffer ← on_objs (list_peek_head l);
      if buffer =? NULL then mret tt
      else
        n ← on_objs (string_length buffer);
        if negb (n =? 0) then mret tt else on_objs (list_remove l buffer);; trim_sent fuel l
  end.

Definition user_request (this : Z) : M Z := s ← rd_sxe this; mret (s_user_data s).

(** lib-sxe-httpd/sxe-httpd.c:1207-1230, sxe_httpd_event_sendfile_done. *)
Definition sxe_httpd_event_sendfile_done (this : Z) (final_result : SXE_RETURN) : M unit :=
  request ← user_request this;
  sent_handler request final_result;;
  fuel ← list_fuel (out_buffer_list request);
  trim_sent fuel (out_buffer_list request).

(** The one function that sxe_sendfile calls back from here. *)
#[local] Instance sendfile_callbacks : Callbacks A := {
  call_connected _ _ := lift Fault;
  call_read _ _ _ := lift Fault;
  call_close _ _ := lift Fault;
  call_written ptr this result :=
    if ptr =? sxe_httpd_event_sendfile_done_ptr then sxe_httpd_event_sendfile_done this result else lift Fault
}.

(** lib-sxe-httpd/sxe-httpd.c:1232-1251, sxe_httpd_event_sendfile_ready. *)
Definition sxe_httpd_event_sendfile_ready (this : Z) (final_result : SXE_RETURN) : M unit :=
  request ← user_request this;
  q ← rd_request request;
  let self := q_server q in
  sxe_httpd_give_buffers self (out_buffer_list request);;
  if bool_decide (final_result = SXE_RETURN_OK) then
    q ← rd_request request;
    sxe_sendfile this (q_sendfile_fd q) (sendfile_offset request) (q_sendfile_length q) sxe_httpd_event_sendfile_done_ptr;;
    mret tt
  else
    d ← rd_httpd self;
    call_on_close (d_on_close d) request;;
    sxe_httpd_close request.

(** lib-sxe-httpd/sxe-httpd.c:1253-1283, sxe_httpd_response_sendfile. *)
Definition sxe_httpd_response_sendfile (request fd length handler user_data : Z) : M SXE_RETURN :=
  q ← rd_request request;
  this ← request_sxe request;
  lift (assert6 (q_out_started q));;
  upd_request request (fun q =>
    set_q_sendfile_length length (set_q_sendfile_fd fd (set_q_on_sent_userdata user_data (set_q_on_sent_handler handler q))));;
  r ← sys (Sys_lseek fd);
  modify (with_offsets <[sendfile_offset request := r_ret r]>);;
  ready ← (if negb (q_out_eoh q) then sxe_httpd_response_eoh request else mret SXE_RETURN_OK);
  if bool_decide (ready = SXE_RETURN_OK) then
    result ← sxe_send_buffers this (out_buffer_list request) sxe_httpd_event_sendfile_ready_ptr;
    (if bool_decide (result = SXE_RETURN_OK) then sxe_httpd_event_sendfile_ready this result else mret tt);;
    mret result
  else mret SXE_RETURN_NO_UNUSED_ELEMENTS.

(** lib-sxe-httpd/sxe-httpd.c:1286-1311, sxe_httpd_event_response_sent. *)
Definition sxe_httpd_event_response_sent (this : Z) (final_result : SXE_RETURN) : M unit :=
  request ← user_request this;
  q ← rd_request request;
  sxe_httpd_give_buffers (q_server q) (out_buffer_list request);;
  sent_handler request final_result;;
  fuel ← list_fuel (out_buffer_list request);
  trim_sent fuel (out_buffer_list request).

(** lib-sxe-httpd/sxe-httpd.c:1313-1332, sxe_httpd_response_send. *)
Definition sxe_httpd_response_send (request on_complete user_data : Z) : M SXE_RETURN :=
  this ← request_sxe request;
  upd_request request (fun q => set_q_on_sent_userdata user_data (set_q_on_sent_handler on_complete q));;
  result ← sxe_send_buffers this (out_buffer_list request) sxe_httpd_event_response_sent_ptr;
  (if negb (bool_decide (result = SXE_RETURN_IN_PROGRESS)) then sxe_httpd_event_response_sent this result else mret tt);;
  mret result.

(** lib-sxe-httpd/sxe-httpd.c:1334-1359, sxe_httpd_event_response_done. *)
Definition sxe_httpd_event_response_done (this : Z) (final_result : SXE_RETURN) : M unit :=
  request ← user_request this;
  q ← rd_request request;
  d ← rd_httpd (q_server q);
  let request_pool := d_requests d in
  let request_id := SXE_HTTPD_REQUEST_INDEX request_pool request in
  sxe_httpd_give_buffers (q_server q) (out_buffer_list request);;
  sent_handler request final_result;;
  sxe_httpd_clear_request request;;
  state ← on_objs (pool_state_of request_pool request_id);
  if negb (state =? SXE_HTTPD_CONN_FREE) then
    on_objs (pool_set_state request_pool request_id state SXE_HTTPD_CONN_IDLE);;
    sxe_buf_resume this SXE_BUF_RESUME_IMMEDIATE
  else mret tt.

(** lib-sxe-httpd/sxe-httpd.c:1368-1394, sxe_httpd_response_end. *)
Definition sxe_httpd_response_end (request on_complete user_data : Z) : M SXE_RETURN :=
  q ← rd_request request;
  this ← request_sxe request;
  upd_request request (fun q => set_q_on_sent_userdata user_data (set_q_on_sent_handler on_complete q));;
  ready ← (if negb (q_out_eoh q) then sxe_httpd_response_eoh request else mret SXE_RETURN_OK);
  if bool_decide (ready = SXE_RETURN_OK) then
    result ← sxe_send_buffers this (out_buffer_list request) sxe_httpd_event_response_done_ptr;
    (if negb (bool_decide (result = SXE_RETURN_IN_PROGRESS)) then sxe_httpd_event_response_done this result else mret tt);;
    mret result
  else mret SXE_RETURN_NO_UNUSED_ELEMENTS.

(** lib-sxe-httpd/sxe-httpd.c:330-333, sxe_httpd_response_simple. The arguments before the NULL: names and values in turn. *)
Fixpoint simple_headers (request : Z) (headers : list (list Z)) : M unit :=
  match headers with
  | [] => mret tt
  | [_] => lift Abort
  | name :: value :: headers => sxe_httpd_response_header request name value 0;; simple_headers request headers
  end.

(** lib-sxe-httpd/sxe-httpd.c:315-347, sxe_httpd_response_simple. *)
Definition sxe_httpd_response_simple (request on_complete user_data code : Z) (status : list Z) (body : option (list Z))
  (headers : list (list Z)) : M unit :=
  sxe_httpd_response_start request code status;;
  simple_headers request headers;;
  (match body with
   | Some body =>
       n ← lift (load (strlen body));
       let length := u32 n in
       sxe_httpd_response_content_length request length;;
       sxe_httpd_response_copy_body_data request body length
   | None => sxe_httpd_response_content_length request 0
   end);;
  sxe_httpd_response_end request on_complete user_data;;
  mret tt.

(** ** Handlers *)

(** lib-sxe-httpd/sxe-httpd.c:95-103, sxe_httpd_default_connect_handler. *)
Definition sxe_httpd_default_connect_handler (request : Z) : M unit := mret tt.
(** lib-sxe-httpd/sxe-httpd.c:105-121, sxe_httpd_default_request_handler. *)
Definition sxe_httpd_default_request_handler (request : Z) (method url version : list Z) : M unit := mret tt.
(** lib-sxe-httpd/sxe-httpd.c:123-137, sxe_httpd_default_header_handler. *)
Definition sxe_httpd_default_header_handler (request : Z) (key value : list Z) : M unit := mret tt.
(** lib-sxe-httpd/sxe-httpd.c:139-147, sxe_httpd_default_eoh_handler. *)
Definition sxe_httpd_default_eoh_handler (request : Z) : M unit := mret tt.
(** lib-sxe-httpd/sxe-httpd.c:149-159, sxe_httpd_default_body_handler. *)
Definition sxe_httpd_default_body_handler (request : Z) (chunk : list Z) : M unit := mret tt.
(** lib-sxe-httpd/sxe-httpd.c:161-171, sxe_httpd_default_respond_handler. *)
Definition sxe_httpd_default_respond_handler (request : Z) : M unit :=
  sxe_httpd_response_simple request NULL NULL 404 [78; 111; 116; 32; 70; 111; 117; 110; 100; 0] None [HTTPD_CONNECTION_CLOSE_HEADER; HTTPD_CONNECTION_CLOSE_VALUE].

Definition call_on_connect (ptr request : Z) : M unit :=
  if ptr =? sxe_httpd_default_connect_handler_ptr then sxe_httpd_default_connect_handler request else app_connect ptr request.
Definition call_on_request (ptr request : Z) (method url version : list Z) : M unit :=
  if ptr =? sxe_httpd_default_request_handler_ptr then sxe_httpd_default_request_handler request method url version
  else app_request ptr request method url version.
Definition call_on_header (ptr request : Z) (key value : list Z) : M unit :=
  if ptr =? sxe_httpd_default_header_handler_ptr then sxe_httpd_default_header_handler request key value else app_header ptr request key value.
Definition call_on_eoh (ptr request : Z) : M unit :=
  if ptr =? sxe_httpd_default_eoh_handler_ptr then sxe_httpd_default_eoh_handler request else app_eoh ptr request.
Definition call_on_body (ptr request : Z) (chunk : list Z) : M unit :=
  if ptr =? sxe_httpd_default_body_handler_ptr then sxe_httpd_default_body_handler request chunk else app_body ptr request chunk.
Definition call_on_respond (ptr request : Z) : M unit :=
  if ptr =? sxe_httpd_default_respond_handler_ptr then sxe_httpd_default_respond_handler request else app_respond ptr request.

(** lib-sxe-httpd/sxe-httpd.c:183-189, sxe_httpd_set_connect_handler. *)
Definition sxe_httpd_set_connect_handler (self new_handler : Z) : M Z :=
  d ← rd_httpd self;
  upd_httpd self (set_d_on_connect (if negb (new_handler =? NULL) then new_handler else sxe_httpd_default_connect_handler_ptr));;
  mret (d_on_connect d).
(** lib-sxe-httpd/sxe-httpd.c:191-197, sxe_httpd_set_request_handler. *)
Definition sxe_httpd_set_request_handler (self new_handler : Z) : M Z :=
  d ← rd_httpd self;
  upd_httpd self (set_d_on_request (if negb (new_handler =? NULL) then new_handler else sxe_httpd_default_request_handler_ptr));;
  mret (d_on_request d).
(** lib-sxe-httpd/sxe-httpd.c:199-205, sxe_httpd_set_header_handler. *)
Definition sxe_httpd_set_header_handler (self new_handler : Z) : M Z :=
  d ← rd_httpd self;
  upd_httpd self (set_d_on_header (if negb (new_handler =? NULL) then new_handler else sxe_httpd_default_header_handler_ptr));;
  mret (d_on_header d).
(** lib-sxe-httpd/sxe-httpd.c:207-213, sxe_httpd_set_eoh_handler. *)
Definition sxe_httpd_set_eoh_handler (self new_handler : Z) : M Z :=
  d ← rd_httpd self;
  upd_httpd self (set_d_on_eoh (if negb (new_handler =? NULL) then new_handler else sxe_httpd_default_eoh_handler_ptr));;
  mret (d_on_eoh d).
(** lib-sxe-httpd/sxe-httpd.c:215-221, sxe_httpd_set_body_handler. *)
Definition sxe_httpd_set_body_handler (self new_handler : Z) : M Z :=
  d ← rd_httpd self;
  upd_httpd self (set_d_on_body (if negb (new_handler =? NULL) then new_handler else sxe_httpd_default_body_handler_ptr));;
  mret (d_on_body d).
(** lib-sxe-httpd/sxe-httpd.c:223-229, sxe_httpd_set_respond_handler. *)
Definition sxe_httpd_set_respond_handler (self new_handler : Z) : M Z :=
  d ← rd_httpd self;
  upd_httpd self (set_d_on_respond (if negb (new_handler =? NULL) then new_handler else sxe_httpd_default_respond_handler_ptr));;
  mret (d_on_respond d).
(** lib-sxe-httpd/sxe-httpd.c:231-237, sxe_httpd_set_close_handler. *)
Definition sxe_httpd_set_close_handler (self new_handler : Z) : M Z :=
  d ← rd_httpd self;
  upd_httpd self (set_d_on_close (if negb (new_handler =? NULL) then new_handler else sxe_httpd_default_close_handler_ptr));;
  mret (d_on_close d).

(** ** Connections *)

(** lib-sxe-httpd/sxe-httpd.c:366-372, sxe_httpd_reap_oldest_connection. The loop over the states: the oldest time and its state. *)
Fixpoint oldest_loop (states : list Z) (requests oldest_time oldest_state : Z) : M Z :=
  match states with
  | [] => mret oldest_state
  | element_state :: states =>
      element_time ← on_objs (pool_oldest_time requests element_state);
      if (oldest_time =? 0) || (negb (element_time =? 0) && (element_time <? oldest_time))
      then oldest_loop states requests element_time element_state
      else oldest_loop states requests oldest_time oldest_state
  end.

(** lib-sxe-httpd/sxe-httpd.c:349-383, sxe_httpd_reap_oldest_connection. *)
Definition sxe_httpd_reap_oldest_connection (self : Z) : M unit :=
  d ← rd_httpd self;
  bad_id ← on_objs (pool_oldest_index (d_requests d) SXE_HTTPD_CONN_BAD);
  oldest_id ←
    (if bad_id =? SXE_POOL_NO_INDEX then
       oldest_state ← oldest_loop [SXE_HTTPD_CONN_IDLE; SXE_HTTPD_CONN_REQ_LINE; SXE_HTTPD_CONN_REQ_HEADERS; SXE_HTTPD_CONN_REQ_BODY;
                                   SXE_HTTPD_CONN_REQ_RESPONSE] (d_requests d) 0 SXE_HTTPD_CONN_IDLE;
       on_objs (pool_oldest_index (d_requests d) oldest_state)
     else mret bad_id);
  lift (assert1 (negb (oldest_id =? SXE_POOL_NO_INDEX)));;
  call_on_close (d_on_close d) (request_at (d_requests d) oldest_id);;
  sxe_httpd_close (request_at (d_requests d) oldest_id).

(** A request of zero bytes. *)
Definition zero_request : SXE_HTTPD_REQUEST :=
  mk_request NULL None NULL SXE_HTTP_METHOD_INVALID SXE_HTTP_VERSION_UNKNOWN (mk_message 0 0 0 0 0 0 0 0 0) 0 0 0 false false false NULL NULL 0 0.

(** lib-sxe-httpd/sxe-httpd.c:385-414, sxe_httpd_event_connect. *)
Definition sxe_httpd_event_connect (this : Z) : M unit :=
  s ← rd_sxe this;
  let self := s_user_data s in
  d ← rd_httpd self;
  id ← on_objs (pool_set_oldest (d_requests d) SXE_HTTPD_CONN_FREE SXE_HTTPD_CONN_IDLE);
  lift (assert1 (negb (id =? SXE_POOL_NO_INDEX)));;
  let request := request_at (d_requests d) id in
  upd_request request (fun _ => zero_request);;
  modify (with_offsets <[sendfile_offset request := 0]>);;
  upd_sxe this (set_s_user_data request);;
  upd_request request (fun q => set_q_server self (set_q_sxe (Some this) q));;
  on_objs (list_construct (out_buffer_list request));;
  call_on_connect (d_on_connect d) request;;
  n ← on_objs (pool_number_in (d_requests d) SXE_HTTPD_CONN_FREE);
  if n =? 0 then sxe_httpd_reap_oldest_connection self else mret tt.

(** lib-sxe-httpd/sxe-httpd.c:416-432, sxe_httpd_event_close. *)
Definition sxe_httpd_event_close (this : Z) : M unit :=
  request ← user_request this;
  q ← rd_request request;
  d ← rd_httpd (q_server q);
  upd_request request (set_q_sxe None);;
  call_on_close (d_on_close d) request;;
  sxe_httpd_close request.

(** ** Requests *)

(** lib-sxe-httpd/sxe-httpd.c:434-445, methods. *)
Definition methods : list (list Z * SXE_HTTP_METHOD) :=
  [([71; 69; 84], SXE_HTTP_METHOD_GET); ([80; 85; 84], SXE_HTTP_METHOD_PUT); ([72; 69; 65; 68], SXE_HTTP_METHOD_HEAD);
   ([80; 79; 83; 84], SXE_HTTP_METHOD_POST); ([68; 69; 76; 69; 84; 69], SXE_HTTP_METHOD_DELETE)].
(** lib-sxe-httpd/sxe-httpd.c:466-474, versions. *)
Definition versions : list (list Z * SXE_HTTP_VERSION) :=
  [([72; 84; 84; 80; 47; 49; 46; 48], SXE_HTTP_VERSION_1_0); ([72; 84; 84; 80; 47; 49; 46; 49], SXE_HTTP_VERSION_1_1)].

(** The first entry whose name the string is. *)
Fixpoint find_name {X} (table : list (list Z * X)) (none : X) (s : list Z) : X :=
  match table with
  | [] => none
  | (name, x) :: table => if bool_decide (s = name) then x else find_name table none s
  end.
(** lib-sxe-httpd/sxe-httpd.c:447-464, sxe_httpd_parse_method. *)
Definition sxe_httpd_parse_method (method : list Z) : SXE_HTTP_METHOD := find_name methods SXE_HTTP_METHOD_INVALID method.
(** lib-sxe-httpd/sxe-httpd.c:476-493, sxe_httpd_parse_version. *)
Definition sxe_httpd_parse_version (version : list Z) : SXE_HTTP_VERSION := find_name versions SXE_HTTP_VERSION_UNKNOWN version.

(** The bytes that the message's pointer points to: of the SXE's buffer. *)
Definition message_buffer (request : Z) : M (list Z) :=
  q ← rd_request request;
  this ← request_sxe request;
  s ← rd_sxe this;
  mret (drop (Z.to_nat (q_message_start q)) (s_in_buf s ++ behind_in_buf s)).

(** An operation on the message. *)
Definition on_message {R} (request : Z) (op : list Z -> SXE_HTTP_MESSAGE -> outcome (R * SXE_HTTP_MESSAGE)) : M R :=
  buffer ← message_buffer request;
  q ← rd_request request;
  '(r, m) ← lift (op buffer (q_message q));
  upd_request request (set_q_message m);;
  mret r.

(** Part of the message's buffer. *)
Definition message_text (request offset length : Z) : M (list Z) :=
  buffer ← message_buffer request; lift (load (slice buffer offset length)).

(** The next token of the request line; or what the parser returned. *)
Definition next_token (request : Z) : M (SXE_RETURN + Z * Z) :=
  result ← on_message request (fun b m => sxe_http_message_parse_next_line_element b m SXE_HTTP_LINE_ELEMENT_TYPE_TOKEN);
  if negb (bool_decide (result = SXE_RETURN_OK)) then mret (inl result)
  else
    q ← rd_request request;
    string ← lift (sxe_http_message_get_line_element (q_message q));
    mret (inr (string, sxe_http_message_get_line_element_length (q_message q))).

(** lib-sxe-httpd/sxe-httpd.c:496-567, sxe_httpd_parse_request_line. *)
Definition sxe_httpd_parse_request_line (request : Z) : M SXE_RETURN :=
  q ← rd_request request;
  let server := q_server q in
  x ← next_token request;
  match x with
  | inl result => mret result
  | inr (method_string, method_length) =>
      method ← message_text request method_string method_length;
      upd_request request (set_q_method (sxe_httpd_parse_method method));;
      if bool_decide (sxe_httpd_parse_method method = SXE_HTTP_METHOD_INVALID) then mret SXE_RETURN_ERROR_BAD_MESSAGE
      else
        x ← next_token request;
        match x with
        | inl result => mret result
        | inr (url_string, url_length) =>
            x ← next_token request;
            match x with
            | inl result => mret result
            | inr (version_string, version_length) =>
                version ← message_text request version_string version_length;
                upd_request request (set_q_version (sxe_httpd_parse_version version));;
                if bool_decide (sxe_httpd_parse_version version = SXE_HTTP_VERSION_UNKNOWN) then mret SXE_RETURN_ERROR_BAD_MESSAGE
                else
                  result ← on_message request (fun b m =>
                    sxe_http_message_parse_next_line_element b m SXE_HTTP_LINE_ELEMENT_TYPE_END_OF_LINE);
                  if negb (bool_decide (result = SXE_RETURN_OK)) && negb (bool_decide (result = SXE_RETURN_END_OF_FILE)) then mret result
                  else
                    d ← rd_httpd server;
                    method ← message_text request method_string method_length;
                    url ← message_text request url_string url_length;
                    version ← message_text request version_string version_length;
                    call_on_request (d_on_request d) request method url version;;
                    mret SXE_RETURN_OK
            end
        end
  end.

(** lib-sxe-httpd/sxe-httpd.c:569-580, sxe_httpd_pause. *)
Definition sxe_httpd_pause (request : Z) : M unit :=
  this ← request_sxe request; upd_request request (set_q_paused true);; sxe_pause this.
(** lib-sxe-httpd/sxe-httpd.c:582-593, sxe_httpd_resume. *)
Definition sxe_httpd_resume (request : Z) : M unit :=
  this ← request_sxe request; upd_request request (set_q_paused false);; sxe_buf_resume this SXE_BUF_RESUME_IMMEDIATE.

(** How a part of sxe_httpd_event_read is left: SXE_EARLY_OUT with the value of consumed, or SXE_ERROR_OUT with the response. *)
Inductive leave := Early_out (consumed : Z) | Error_out (code : Z) (reason : list Z).
Definition bad_request : leave := Error_out 400 [66; 97; 100; 32; 114; 101; 113; 117; 101; 115; 116; 0].

Definition message_length (request this : Z) : M unit :=
  s ← rd_sxe this;
  on_message request (fun _ m => m ← sxe_http_message_increase_buffer_length m (SXE_BUF_USED s); mret (tt, m)).

(** lib-sxe-httpd/sxe-httpd.c:645-672, sxe_httpd_event_read. The request line. *)
Definition read_line (this request request_pool request_id : Z) : M (option leave) :=
  message_length request this;;
  s ← rd_sxe this;
  let start := drop (Z.to_nat (SXE_BUF s)) (s_in_buf s) in
  let length := SXE_BUF_USED s in
  end_ ← lift (sxe_strncspn start [LF; 0] length);
  match end_ with
  | None =>
      if length =? SXE_BUF_SIZE then mret (Some (Error_out 414 [82; 101; 113; 117; 101; 115; 116; 45; 85; 82; 73; 32; 116; 111; 111; 32; 108; 97; 114; 103; 101; 0]))
      else mret (Some (Early_out 0))
  | Some n =>
      c ← lift (load (rd (s_in_buf s) (SXE_BUF s + n - 1)));
      if negb (c =? CR) then mret (Some bad_request)
      else
        result ← sxe_httpd_parse_request_line request;
        if negb (bool_decide (result = SXE_RETURN_OK)) then mret (Some bad_request)
        else
          on_objs (pool_set_state request_pool request_id SXE_HTTPD_CONN_REQ_LINE SXE_HTTPD_CONN_REQ_HEADERS);;
          mret None
  end.

(** isdigit of a char. *)
Definition isdigit (c : Z) : bool := (48 <=? c) && (c <=? 57).

(** lib-sxe-httpd/sxe-httpd.c:735-743, sxe_httpd_event_read. The digits of a content length. *)
Fixpoint content_digits (request : Z) (value : list Z) : M bool :=
  match value with
  | [] => mret true
  | c :: value =>
      if negb (isdigit c) then mret false
      else
        upd_request request (fun q => set_q_in_content_length (u32 (q_in_content_length q * 10 + c - 48)) q);;
        content_digits request value
  end.

(** lib-sxe-httpd/sxe-httpd.c:717-749, sxe_httpd_event_read. A header that was parsed. *)
Definition read_header (request server : Z) : M (option leave) :=
  q ← rd_request request;
  let m := q_message q in
  key_ ← lift (sxe_http_message_get_header_name m);
  let key_length := sxe_http_message_get_header_name_length m in
  let value_ := sxe_http_message_get_header_value m in
  let value_length := sxe_http_message_get_header_value_length m in
  key ← message_text request key_ key_length;
  value ← message_text request value_ value_length;
  is_length ← (if key_length =? 14 then lift (load (strncaseeq (Z.to_nat key_length) key HTTPD_CONTENT_LENGTH)) else mret false);
  good ←
    (if (is_length : bool) then
       if value_length =? 0 then mret false
       else upd_request request (set_q_in_content_length 0);; content_digits request value
     else mret true);
  if (good : bool) then
    d ← rd_httpd server;
    call_on_header (d_on_header d) request key value;;
    mret None
  else mret (Some bad_request).

(** lib-sxe-httpd/sxe-httpd.c:679-750, sxe_httpd_event_read. The loop over the headers. *)
Fixpoint headers_loop (fuel : nat) (this request server : Z) : M (option leave) :=
  match fuel with
  | O => lift Fault
  | S fuel =>
      result ← on_message request (fun b m => sxe_http_message_parse_next_header b m);
      if bool_decide (result = SXE_RETURN_END_OF_FILE) then mret None
      else if bool_decide (result = SXE_RETURN_ERROR_BAD_MESSAGE) then mret (Some bad_request)
      else
        q ← rd_request request;
        let consumed := sxe_http_message_get_ignore_length (q_message q) in
        if negb (consumed =? 0) then
          sxe_buf_consume this consumed;;
          q ← rd_request request;
          (if negb (sxe_http_message_get_buffer_length (q_message q) =? 0) then
             s ← rd_sxe this;
             moved ← lift (sxe_http_message_buffer_shift_ignore_length (drop (Z.to_nat (q_message_start q)) (s_in_buf s)) (q_message q));
             upd_sxe this (fun s => set_s_in_buf (take (Z.to_nat (q_message_start q)) (s_in_buf s) ++ moved) s)
           else mret tt);;
          mret (Some (Early_out consumed))
        else if bool_decide (result = SXE_RETURN_WARN_WOULD_BLOCK) then
          s ← rd_sxe this;
          if SXE_BUF_USED s =? SXE_BUF_SIZE then
            consumed ← on_message request (fun _ m => Ret (sxe_http_message_consume_parsed_headers m));
            if consumed =? 0 then
              sxe_buf_clear this;;
              on_message request (fun _ m => Ret (tt, sxe_http_message_set_ignore_line m));;
              mret (Some (Early_out 0))
            else sxe_buf_consume this consumed;; mret (Some (Early_out consumed))
          else mret (Some (Early_out 0))
        else
          lift (assert1 (bool_decide (result = SXE_RETURN_OK)));;
          x ← read_header request server;
          match x with Some e => mret (Some e) | None => headers_loop fuel this request server end
  end.

(** Every header takes bytes of the buffer. *)
Definition HEADERS_FUEL : nat := Z.to_nat (SXE_BUF_SIZE + 1).

(** lib-sxe-httpd/sxe-httpd.c:674-761, sxe_httpd_event_read. The headers; the bytes consumed when they are complete. *)
Definition read_headers (this request server request_pool request_id : Z) : M (leave + Z) :=
  message_length request this;;
  x ← headers_loop HEADERS_FUEL this request server;
  match x with
  | Some e => mret (inl e)
  | None =>
      consumed ← on_message request (fun _ m => Ret (sxe_http_message_consume_parsed_headers m));
      sxe_buf_consume this consumed;;
      d ← rd_httpd server;
      call_on_eoh (d_on_eoh d) request;;
      upd_request request (set_q_in_content_seen 0);;
      on_objs (pool_set_state request_pool request_id SXE_HTTPD_CONN_REQ_HEADERS SXE_HTTPD_CONN_REQ_BODY);;
      mret (inr consumed)
  end.

(** lib-sxe-httpd/sxe-httpd.c:763-786, sxe_httpd_event_read. The body. *)
Definition read_body (this request server request_pool request_id consumed : Z) : M leave :=
  q ← rd_request request;
  s ← rd_sxe this;
  consumed ←
    (if negb (q_in_content_length q =? 0) && negb (SXE_BUF_USED s =? 0) then
       let chunk := SXE_BUF s in
       let data_len := Z.min (SXE_BUF_USED s) (u32 (q_in_content_length q - q_in_content_seen q)) in
       sxe_buf_consume this data_len;;
       upd_request request (fun q => set_q_in_content_seen (u32 (q_in_content_seen q + data_len)) q);;
       d ← rd_httpd server;
       s ← rd_sxe this;
       data ← lift (load (slice (s_in_buf s) chunk data_len));
       call_on_body (d_on_body d) request data;;
       mret (u32 (consumed + data_len))
     else mret consumed);
  q ← rd_request request;
  (if q_in_content_length q <=? q_in_content_seen q then
     on_objs (pool_set_state request_pool request_id SXE_HTTPD_CONN_REQ_BODY SXE_HTTPD_CONN_REQ_RESPONSE);;
     d ← rd_httpd server;
     call_on_respond (d_on_respond d) request
   else mret tt);;
  mret (Early_out consumed).

(** lib-sxe-httpd/sxe-httpd.c:636-798, sxe_httpd_event_read. The switch over the states. *)
Definition read_in_state (this request server request_pool request_id state : Z) : M leave :=
  let headers :=
    x ← read_headers this request server request_pool request_id;
    match x with inl e => mret e | inr consumed => read_body this request server request_pool request_id consumed end in
  let line :=
    x ← read_line this request request_pool request_id;
    match x with Some e => mret e | None => headers end in
  if state =? SXE_HTTPD_CONN_IDLE then
    s ← rd_sxe this;
    upd_request request (fun q => set_q_message_start (SXE_BUF s) (set_q_message (sxe_http_message_construct (q_message q) (SXE_BUF_USED s)) q));;
    on_objs (pool_set_state request_pool request_id SXE_HTTPD_CONN_IDLE SXE_HTTPD_CONN_REQ_LINE);;
    line
  else if state =? SXE_HTTPD_CONN_REQ_LINE then line
  else if state =? SXE_HTTPD_CONN_REQ_HEADERS then headers
  else if state =? SXE_HTTPD_CONN_REQ_BODY then read_body this request server request_pool request_id 0
  else mret (Early_out 0).

(** lib-sxe-httpd/sxe-httpd.c:800-806, sxe_httpd_event_read. SXE_ERROR_OUT; the value of consumed. *)
Definition left_with (this request request_pool request_id : Z) (e : leave) : M Z :=
  match e with
  | Early_out consumed => mret consumed
  | Error_out code reason =>
      sxe_buf_clear this;;
      sxe_httpd_response_simple request NULL NULL code reason None [HTTPD_CONNECTION_CLOSE_HEADER; HTTPD_CONNECTION_CLOSE_VALUE];;
      on_objs (pool_set_state request_pool request_id SXE_HTTPD_CONN_IDLE SXE_HTTPD_CONN_BAD);;
      mret 0
  end.

(** lib-sxe-httpd/sxe-httpd.c:595-815, sxe_httpd_event_read. *)
Definition sxe_httpd_event_read (this additional_length : Z) : M unit :=
  request ← user_request this;
  q ← rd_request request;
  let server := q_server q in
  d ← rd_httpd server;
  let request_pool := d_requests d in
  let request_id := SXE_HTTPD_REQUEST_INDEX request_pool request in
  consumed ←
    (if q_paused q then mret 0
     else
       state ← on_objs (pool_state_of request_pool request_id);
       e ← read_in_state this request server request_pool request_id state;
       left_with this request request_pool request_id e);
  state ← on_objs (pool_state_of request_pool request_id);
  q ← rd_request request;
  if (0 <? consumed) && negb (q_paused q) && negb (state =? SXE_HTTPD_CONN_FREE)
  then sxe_buf_resume this SXE_BUF_RESUME_IMMEDIATE else mret tt.

(** ** The server *)

(** What the event layer calls. *)
#[local] Instance httpd_callbacks : Callbacks A := {
  call_connected ptr this := if ptr =? sxe_httpd_event_connect_ptr then sxe_httpd_event_connect this else lift Fault;
  call_read ptr this length := if ptr =? sxe_httpd_event_read_ptr then sxe_httpd_event_read this length else lift Fault;
  call_close ptr this := if ptr =? sxe_httpd_event_close_ptr then sxe_httpd_event_close this else lift Fault;
  call_written ptr this result :=
    if ptr =? sxe_httpd_event_response_done_ptr then sxe_httpd_event_response_done this result
    else if ptr =? sxe_httpd_event_response_sent_ptr then sxe_httpd_event_response_sent this result
    else if ptr =? sxe_httpd_event_sendfile_ready_ptr then sxe_httpd_event_sendfile_ready this result
    else if ptr =? sxe_httpd_event_sendfile_done_ptr then sxe_httpd_event_sendfile_done this result
    else lift Fault
}.

Context (inet_addr : list Z -> Z) (raw : Z -> SXE_HTTPD_REQUEST).

Definition listen_on (self : Z) (new : M (option Z)) : M (option Z) :=
  this ← new;
  match this with
  | None => mret None
  | Some this =>
      upd_sxe this (set_s_user_data self);;
      result ← sxe_listen this;
      if negb (bool_decide (result = SXE_RETURN_OK)) then sxe_close this;; mret None else mret (Some this)
  end.
(** lib-sxe-httpd/sxe-httpd.c:1405-1428, sxe_httpd_listen. *)
Definition sxe_httpd_listen (self : Z) (address : list Z) (port : Z) : M (option Z) :=
  listen_on self (sxe_new_tcp inet_addr address port sxe_httpd_event_connect_ptr sxe_httpd_event_read_ptr sxe_httpd_event_close_ptr).
(** lib-sxe-httpd/sxe-httpd.c:1440-1463, sxe_httpd_listen_pipe. *)
Definition sxe_httpd_listen_pipe (self : Z) (path : list Z) : M (option Z) :=
  listen_on self (sxe_new_pipe inet_addr path sxe_httpd_event_connect_ptr sxe_httpd_event_read_ptr sxe_httpd_event_close_ptr).

(** lib-sxe-httpd/sxe-httpd.c:1479-1483, sxe_httpd_diag_get_free_connections. *)
Definition sxe_httpd_diag_get_free_connections (self : Z) : M Z :=
  d ← rd_httpd self; on_objs (pool_number_in (d_requests d) SXE_HTTPD_CONN_FREE).
(** lib-sxe-httpd/sxe-httpd.c:1485-1489, sxe_httpd_diag_get_free_buffers. *)
Definition sxe_httpd_diag_get_free_buffers (self : Z) : M Z :=
  d ← rd_httpd self; on_objs (pool_number_in (d_buffers d) SXE_HTTPD_BUFFER_FREE).

(** lib-sxe-httpd/sxe-httpd.c:1502-1528, sxe_httpd_construct. The requests hold what was in the memory. *)
Definition sxe_httpd_construct (self connections buffer_count buffer_size options : Z) : M unit :=
  lift (assert1 (2 <=? connections));;
  lift (assert1 (10 <=? buffer_count));;
  lift (assert1 (512 <=? buffer_size));;
  lift (assert1 (options =? 0));;
  now ← global g_now;
  requests ← on_objs (pool_new connections SIZEOF_REQUEST SXE_HTTPD_CONN_NUMBER_OF_STATES true now);
  modify (fun w => with_app (mk_state (h_servers (w_app w))
    (list_to_map ((fun n => (request_at requests (Z.of_nat n), raw (Z.of_nat n))) <$> seq 0 (Z.to_nat connections)) ∪ h_requests (w_app w))
    (h_app (w_app w))) w);;
  buffers ← on_objs (pool_new buffer_count (SIZEOF_SXE_BUFFER + buffer_size) SXE_HTTPD_BUFFER_NUMBER_OF_STATES false now);
  upd_httpd self (fun d =>
    mk_httpd requests connections buffers buffer_size buffer_count (d_user_data d)
      sxe_httpd_default_connect_handler_ptr sxe_httpd_default_request_handler_ptr sxe_httpd_default_header_handler_ptr
      sxe_httpd_default_eoh_handler_ptr sxe_httpd_default_body_handler_ptr sxe_httpd_default_respond_handler_ptr
      sxe_httpd_default_close_handler_ptr).
End Httpd.
