(* ===== verification/HttpdResponse.v ===== *)
(** * HttpdResponse: what a response is made of (lib-sxe-httpd/sxe-httpd.c)

    The queue of a request's response holds buffers of the server's pool. Building a response puts exactly its text into them, in
    order, wherever the buffers end; buffers are neither lost nor given back twice; and the end of the response
    sends the text and frees the buffers. *)

From S2P Require Import Prelude SxeList Pool Buffer HttpMessage Objects Sxe SxeSend SxeConnect Httpd.
From S2P Require JitsonSource JitsonPrint.

Section Response.
Context {B : Type} `{Build, Kernel, Layout, HttpdLayout, !Handlers B}.
Context (self request : Z) (d : SXE_HTTPD).
Implicit Types (w : world (httpd B)) (q : SXE_HTTPD_REQUEST) (o : objects).

Abbreviation OUT := (out_buffer_list request).
Definition buffer_at (i : nat) : Z := SXE_HTTPD_BUFFER d (Z.of_nat i).

(** The server's buffers are somewhere in the address space, and no list is at the address of a local variable. *)
Record placed : Prop := {
  pl_struct : 0 < SIZEOF_SXE_BUFFER;
  pl_size : 512 <= d_buffer_size d <= 65535;
  pl_start : 0 < d_buffers d;
  pl_count : 0 <= d_buffer_count d < SXE_POOL_NO_INDEX;
  pl_end : d_buffers d + d_buffer_count d * SXE_HTTPD_BUFFER_SIZE d < 18446744073709551616;
  pl_lists : OUT <> keep_ptr /\ OUT <> buffer_list_ptr
}.
Hypothesis P : placed.

Lemma buffer_index i : Z.of_nat i < d_buffer_count d -> SXE_HTTPD_BUFFER_INDEX d (buffer_at i) = Z.of_nat i.
Proof using P.
  intros Hi. unfold SXE_HTTPD_BUFFER_INDEX, buffer_at, SXE_HTTPD_BUFFER. destruct P as [Hs Hz Ht Hc He _].
  unfold SXE_HTTPD_BUFFER_SIZE in *. change SXE_POOL_NO_INDEX with 4294967295 in Hc. set (k := SIZEOF_SXE_BUFFER + d_buffer_size d) in *.
  assert (0 < k) by lia. assert (Z.of_nat i * k + k <= d_buffer_count d * k) by (rewrite <-Z.mul_succ_l; apply Z.mul_le_mono_nonneg_r; lia).
  replace (d_buffers d + Z.of_nat i * k - d_buffers d) with (Z.of_nat i * k) by lia.
  rewrite u64_small by (unfold is_u64; lia).
  rewrite Z.div_mul by lia. apply u32_small. unfold is_u32. lia.
Qed.

Lemma buffer_at_pos i : 0 < buffer_at i.
Proof using P. unfold buffer_at, SXE_HTTPD_BUFFER, SXE_HTTPD_BUFFER_SIZE. destruct P. nia. Qed.

Lemma buffer_at_inj i j : buffer_at i = buffer_at j -> i = j.
Proof using P. unfold buffer_at, SXE_HTTPD_BUFFER, SXE_HTTPD_BUFFER_SIZE. destruct P. intros. nia. Qed.
#[local] Instance buffer_at_injective : Inj (=) (=) buffer_at := buffer_at_inj.

(** The pool of buffers, by its queues. *)
Record buffers o (free used : list nat) : Prop := {
  bu_pool : exists p, o_pools o !! d_buffers d = Some p /\ pool_wf (sp_abs p) /\ length (queues (sp_abs p)) = 2%nat /\
    queue_of (sp_abs p) 0 = free /\ queue_of (sp_abs p) 1 ≡ₚ used /\ Z.of_nat (length (stamps (sp_abs p))) = d_buffer_count d
}.

Lemma buffers_bound o free used i : buffers o free used -> i ∈ free \/ i ∈ used -> Z.of_nat i < d_buffer_count d.
Proof using.
  intros [(p & _ & W & _ & <- & Q1 & <-)] Hi. apply inj_lt. destruct Hi as [Hi|Hi]; [|rewrite <-Q1 in Hi]; by eapply queue_of_bound.
Qed.

Lemma buffers_disjoint o free used i : buffers o free used -> i ∈ free -> i ∈ used -> False.
Proof using. intros [(p & _ & W & _ & <- & Q1 & _)] Hf Hu. rewrite <-Q1 in Hu. by pose proof (queue_of_unique _ W _ _ _ Hf Hu). Qed.

Lemma buffers_nodup o free used : buffers o free used -> NoDup free /\ NoDup used.
Proof using. intros [(p & _ & W & _ & <- & Q1 & _)]. rewrite <-Q1. split; by apply queue_of_nodup. Qed.

(** ** Taking and giving a buffer *)

Definition empty_buffer (x : Z) : counted := mk_counted [] (d_buffer_size d) false false false 0 (x + SIZEOF_SXE_BUFFER).

Lemma get_none w used :
  h_servers (w_app w) !! self = Some d -> buffers (w_objs w) [] used -> sxe_httpd_get_buffer self w = Ret (NULL, w).
Proof using.
  intros S [(p & Ep & W & L & Q0 & _)]. unfold sxe_httpd_get_buffer, rd_httpd. rewrite (cmd_bind_ret _ _ w d w) by by rewrite S.
  erewrite cmd_bind_ret by (apply on_objs_ret; apply (pool_set_oldest_none _ _ _ Ep 0 1 Q0); lia).
  by rewrite with_objs_same.
Qed.

Lemma get_some w i free used :
  h_servers (w_app w) !! self = Some d -> buffers (w_objs w) (i :: free) used ->
  exists o, sxe_httpd_get_buffer self w =
      Ret (buffer_at i, with_objs (set_strings <[buffer_at i := Counted (empty_buffer (buffer_at i))]> o) w) /\
    buffers o free (used ++ [i]) /\ o_lists o = o_lists (w_objs w) /\ o_strings o = o_strings (w_objs w) /\
    delete (d_buffers d) (o_pools o) = delete (d_buffers d) (o_pools (w_objs w)).
Proof using P.
  intros S Bf. pose proof (buffers_bound _ _ _ i Bf ltac:(set_solver)) as Hb. pose proof (buffers_nodup _ _ _ Bf) as [Nf _].
  apply NoDup_cons in Nf as [Ni Nf]. destruct Bf as [(p & Ep & W & L & Q0 & Q1 & St)].
  unfold sxe_httpd_get_buffer, rd_httpd. rewrite (cmd_bind_ret _ _ w d w) by by rewrite S.
  erewrite cmd_bind_ret by (apply on_objs_ret; apply (pool_set_oldest_ret _ _ _ Ep i free 0 1 Q0); lia).
  rewrite (proj2 (Z.eqb_neq _ SXE_POOL_NO_INDEX)) by (pose proof (pl_count P); lia). cbv zeta. fold (buffer_at i).
  set (o := with_pool _ _ _). exists o. pose proof (buffer_at_pos i). split; [|split; [|split; [done|split; [done|]]]].
  - rewrite (cmd_bind_ret _ _ _ tt (with_objs (set_strings <[buffer_at i := Counted (empty_buffer (buffer_at i))]> o) w)); [done|].
    etransitivity; [apply (on_objs_ret _ (with_objs o w) tt (set_strings <[buffer_at i := Counted (empty_buffer (buffer_at i))]> o))|done].
    unfold string_construct, constructible. destruct P as [Hs Hz Ht Hc He _].
    rewrite (cmd_bind_ret _ _ _ tt o); [done|]. unfold lift.
    replace (d_buffer_size d <=? 65535) with true by lia. change (zlen []) with 0. replace (0 <=? d_buffer_size d) with true by lia.
    rewrite !(proj2 (Z.eqb_neq _ _)) by lia. done.
  - constructor. exists (spec_move i 0 1 p). split; [apply lookup_insert_eq|]. rewrite spec_move_abs.
    assert (Hi : i ∈ queue_of (sp_abs p) 0) by (rewrite Q0; apply list_elem_of_here).
    split; [apply move_wf; [done|done|lia]|]. rewrite move_length, move_stamps. split; [done|].
    rewrite !moved_queue by (done || lia). simpl. rewrite Q0, Q1. split; [|by split].
    rewrite filter_cons_False by auto. apply filter_all. intros j Hj ->. done.
  - simpl. by rewrite delete_insert_eq.
Qed.

Lemma give_one w i free used :
  buffers (w_objs w) free (i :: used) ->
  exists o, on_objs (pool_set_state (d_buffers d) (Z.of_nat i) SXE_HTTPD_BUFFER_USED SXE_HTTPD_BUFFER_FREE) w
      = Ret (SXE_POOL_LOCK_TAKEN, with_objs o w) /\
    buffers o (free ++ [i]) used /\ o_lists o = o_lists (w_objs w) /\ o_strings o = o_strings (w_objs w) /\
    delete (d_buffers d) (o_pools o) = delete (d_buffers d) (o_pools (w_objs w)).
Proof using.
  intros Bf. pose proof (buffers_nodup _ _ _ Bf) as [_ Nu]. destruct Bf as [(p & Ep & W & L & Q0 & Q1 & St)].
  assert (Hi : i ∈ queue_of (sp_abs p) 1) by (rewrite Q1; apply list_elem_of_here).
  eexists. split; [apply on_objs_ret; apply (pool_set_state_ret _ _ _ Ep W i 1 0 Hi); lia|].
  split; [|split; [done|split; [done|simpl; by rewrite delete_insert_eq]]].
  constructor. exists (spec_move i 1 0 p). split; [apply lookup_insert_eq|]. rewrite spec_move_abs.
  split; [apply move_wf; [done|done|lia]|]. rewrite move_length, move_stamps. split; [done|].
  rewrite !moved_queue by (done || lia). simpl. rewrite Q0. split; [done|]. split; [|done].
  apply NoDup_cons in Nu as [Nu _]. rewrite Q1, filter_cons_False by auto. rewrite filter_all; [done|]. by intros j Hj ->.
Qed.

(** Giving back a list of the server's buffers: they are free, and the list is empty. Nothing else changes. *)
Lemma give_loop_run ids : forall w l free used fuel,
  h_servers (w_app w) !! self = Some d -> o_lists (w_objs w) !! l = Some (buffer_at <$> ids) ->
  buffers (w_objs w) free (ids ++ used) -> (length ids < fuel)%nat ->
  exists o, give_loop fuel self l w = Ret (tt, with_objs o w) /\ buffers o (free ++ ids) used /\
    o_lists o = <[l := []]> (o_lists (w_objs w)) /\ o_strings o = o_strings (w_objs w) /\
    delete (d_buffers d) (o_pools o) = delete (d_buffers d) (o_pools (w_objs w)).
Proof using P.
  induction ids as [|i ids IH]; intros w l free used fuel S El Bf Hf; (destruct fuel as [|fuel]; [simpl in Hf; lia|]); cbn [give_loop].
  - unfold list_is_empty. erewrite cmd_bind_ret
      by (apply on_objs_ret; rewrite (cmd_bind_ret _ _ _ _ _ (list_at_ret _ _ _ El)); done).
    rewrite with_objs_same. exists (w_objs w). rewrite with_objs_same. simpl. rewrite app_nil_r, insert_id by done. by split_and!.
  - unfold list_is_empty. erewrite cmd_bind_ret
      by (apply on_objs_ret; rewrite (cmd_bind_ret _ _ _ _ _ (list_at_ret _ _ _ El)); done).
    rewrite with_objs_same. cbn [fmap list_fmap bool_decide decide].
    assert (bool_decide (buffer_at i :: (buffer_at <$> ids) = []) = false) as -> by done. cbv iota.
    erewrite cmd_bind_ret by (apply on_objs_ret, list_shift_ret; exact El).
    set (w1 := with_objs _ w). unfold rd_httpd. rewrite (cmd_bind_ret _ _ w1 d w1) by (subst w1; simpl; by rewrite S).
    pose proof (buffers_bound _ _ _ i Bf ltac:(set_solver)) as Hb. cbv zeta. rewrite buffer_index by done.
    pose proof (buffer_at_pos i). rewrite (proj2 (Z.eqb_neq (buffer_at i) NULL)) by (unfold NULL; lia).
    erewrite cmd_bind_ret by (apply assert1_ret; done).
    replace (Z.of_nat i <? d_buffer_count d) with true by lia.
    assert (Bf1 : buffers (w_objs w1) free (i :: ids ++ used)) by (destruct Bf as [Bf]; by constructor).
    destruct (give_one w1 i free (ids ++ used) Bf1) as (o & R & Bo & Lo & So & Po).
    rewrite (cmd_bind_ret _ _ w1 tt (with_objs o w1)) by by step_by R.
    destruct (IH (with_objs o w1) l (free ++ [i]) used fuel) as (o' & R' & B' & L' & S' & P');
      [done|cbn [with_objs w_objs]; rewrite Lo; apply lookup_insert_eq|done|simpl in Hf; lia|].
    exists o'. rewrite R'. split; [done|]. split; [by rewrite <-(assoc_L (++)) in B'|].
    cbn [with_objs w_objs] in L', S', P'. split; [|split; [by rewrite S', So|by rewrite P', Po]].
    rewrite L', Lo. simpl. by rewrite insert_insert_eq.
Qed.

(** ** A response that is being built *)

(** The text of a buffer, of which nothing was sent: the buffer's own, or a constant. *)
Definition text_in (c : counted) (x : Z) (t : list Z) : Prop :=
  c_text c = t /\ c_consumed c = 0 /\ c_over c = false /\ zlen t <= c_size c <= 65535 /\
  if c_const c then c_space c <> x + SIZEOF_SXE_BUFFER
  else c_space c = x + SIZEOF_SXE_BUFFER /\ c_size c = d_buffer_size d.
Definition holds o (i : nat) (t : list Z) : Prop :=
  exists c, o_strings o !! buffer_at i = Some (Counted c) /\ text_in c (buffer_at i) t.

(** The request's queue is the buffers [ids], which hold the texts [ts]; the list that is a local variable has the buffers [js] with
    [us]; [used] are the buffers of other requests. No buffer is in two lists. *)
Record serving o (free used ids : list nat) (ts : list (list Z)) (js : list nat) (us : list (list Z)) : Prop := {
  sv_buffers : buffers o free (ids ++ js ++ used);
  sv_out : o_lists o !! OUT = Some (buffer_at <$> ids);
  sv_local : default [] (o_lists o !! buffer_list_ptr) = buffer_at <$> js;
  sv_linked l xs i : o_lists o !! l = Some xs -> buffer_at i ∈ xs -> i ∈ free ++ ids ++ js ->
    (l = OUT /\ i ∈ ids) \/ (l = buffer_list_ptr /\ i ∈ js);
  sv_texts : Forall2 (holds o) ids ts;
  sv_more : Forall2 (holds o) js us
}.

(** The world with other objects and another request. *)
Definition stand o q w : world (httpd B) :=
  mk_world o (w_sxes w) (w_offsets w) (w_trace w) (w_globals w)
    (mk_state (h_servers (w_app w)) (<[request := q]> (h_requests (w_app w))) (h_app (w_app w))).

Lemma stand_objs o q w : h_requests (w_app w) !! request = Some q -> with_objs o w = stand o q w.
Proof using. intros E. unfold stand, with_objs. rewrite insert_id by done. by destruct w as [? ? ? ? ? []]. Qed.

Lemma serving_at o free used ids ts js us i :
  serving o free used ids ts js us -> i ∈ free ++ ids ++ js -> Z.of_nat i < d_buffer_count d.
Proof using P. intros [Bf _ _ _ _ _] Hi. apply (buffers_bound _ _ _ i Bf). set_solver. Qed.

Lemma holds_strings o o' i t : o_strings o' = o_strings o -> holds o i t -> holds o' i t.
Proof using. intros E (c & Ec & Hc). exists c. by rewrite E. Qed.

Lemma holds_other o o' i j a t : o_strings o' = <[buffer_at j := a]> (o_strings o) -> i <> j -> holds o i t -> holds o' i t.
Proof using P.
  intros E Hij (c & Ec & Hc). exists c. split; [|done]. rewrite E, lookup_insert_ne; [done|]. by intros ->%buffer_at_inj.
Qed.

Lemma texts_strings o o' ids ts : o_strings o' = o_strings o -> Forall2 (holds o) ids ts -> Forall2 (holds o') ids ts.
Proof using. intros E F. eapply Forall2_impl; [exact F|]. intros i t. by apply holds_strings. Qed.

Lemma texts_other o o' ids ts j a :
  o_strings o' = <[buffer_at j := a]> (o_strings o) -> j ∉ ids -> Forall2 (holds o) ids ts -> Forall2 (holds o') ids ts.
Proof using P.
  intros E Hj F. induction F as [|i t ids ts Hi F IH]; constructor.
  - eapply holds_other; [exact E| |done]. intros ->. apply Hj, list_elem_of_here.
  - apply IH. intros Hc. by apply Hj, list_elem_of_further.
Qed.

(** The other pools stay as they are, and no list goes away. *)
Definition frame o o' : Prop :=
  delete (d_buffers d) (o_pools o') = delete (d_buffers d) (o_pools o) /\
  forall l, is_Some (o_lists o !! l) -> is_Some (o_lists o' !! l).
#[local] Instance frame_preorder : PreOrder frame.
Proof using.
  split; [done|]. intros o1 o2 o3 [P1 L1] [P2 L2]. split; [by rewrite P2|auto].
Qed.
Lemma frame_lists o l xs : frame o (set_lists <[l := xs]> o).
Proof using. split; [done|]. intros k Hk. simpl. rewrite lookup_insert_is_Some'. auto. Qed.

Lemma give_buffer_run w l ids free used :
  h_servers (w_app w) !! self = Some d -> l <> keep_ptr -> o_lists (w_objs w) !! l = Some (buffer_at <$> ids) ->
  buffers (w_objs w) free (ids ++ used) ->
  exists o, sxe_httpd_give_buffers self l w = Ret (tt, with_objs o w) /\ buffers o (free ++ ids) used /\
    o_lists o = <[l := []]> (<[keep_ptr := []]> (o_lists (w_objs w))) /\ o_strings o = o_strings (w_objs w) /\ frame (w_objs w) o.
Proof using P.
  intros S Hl El Bf. unfold sxe_httpd_give_buffers, list_construct, put_list.
  erewrite cmd_bind_ret by (apply on_objs_ret; reflexivity).
  set (w1 := with_objs _ w). assert (El1 : o_lists (w_objs w1) !! l = Some (buffer_at <$> ids)) by (simpl; by rewrite lookup_insert_ne).
  assert (Fu : forall w2 k xs, o_lists (w_objs w2) !! k = Some xs -> list_fuel (B := B) k w2 = Ret (Datatypes.S (length xs), w2)).
  { intros w2 k xs E2. unfold list_fuel. erewrite cmd_bind_ret by (apply on_objs_ret, list_at_ret; exact E2). by rewrite with_objs_same. }
  rewrite (cmd_bind_ret _ _ _ _ _ (Fu _ _ _ El1)).
  destruct (give_loop_run ids w1 l free used (Datatypes.S (length (buffer_at <$> ids)))) as (o & R & Bo & Lo & So & Po);
    [done|done|by destruct Bf as [Bf]; constructor|rewrite length_fmap; lia|].
  step_by R. cbn [with_objs w_objs] in *.
  assert (Ek : o_lists (w_objs (with_objs o w1)) !! keep_ptr = Some []) by (cbn; rewrite Lo, lookup_insert_ne by done; apply lookup_insert_eq).
  rewrite (cmd_bind_ret _ _ _ _ _ (Fu _ _ _ Ek)). cbn [length move_loop]. unfold list_is_empty.
  erewrite cmd_bind_ret by (apply on_objs_ret; rewrite (cmd_bind_ret _ _ _ _ _ (list_at_ret _ _ _ Ek)); reflexivity).
  rewrite with_objs_same. rewrite bool_decide_true by done. exists o. split; [done|]. split; [exact Bo|]. split; [exact Lo|]. split; [exact So|].
  split; [exact Po|]. intros k Hk. rewrite Lo. simpl. rewrite !lookup_insert_is_Some'. auto.
Qed.

(** What the server knows of the request's queue, whatever its buffers hold. *)
Record owning o (free used ids : list nat) : Prop := {
  ow_buffers : buffers o free (ids ++ used);
  ow_out : o_lists o !! OUT = Some (buffer_at <$> ids);
  ow_local : default [] (o_lists o !! buffer_list_ptr) = [];
  ow_linked l xs i : o_lists o !! l = Some xs -> buffer_at i ∈ xs -> i ∈ free ++ ids -> l = OUT /\ i ∈ ids
}.

Lemma serving_owning o free used ids ts : serving o free used ids ts [] [] -> owning o free used ids.
Proof using P.
  intros [Bf Eo El Lk _ _]. split; try done. intros l xs i E Hx Hi.
  destruct (Lk l xs i E Hx) as [?|[_ ?]]; [by rewrite app_nil_r|done|set_solver].
Qed.

Lemma owning_serving o free used : owning o free used [] -> serving o free used [] [] [] [].
Proof using P.
  intros [Bf Eo El Lk]. split; try done. intros l xs i E Hx Hi. left. by apply (Lk l xs i).
Qed.

Lemma owning_same o o' free used ids :
  o_pools o' = o_pools o -> o_lists o' = o_lists o -> owning o free used ids -> owning o' free used ids.
Proof using.
  intros E1 E2 [[(p & Ep & Wp)] Eo El Lk]. split; rewrite ?E2; try done. split. exists p. by rewrite E1.
Qed.

(** Giving back the queue, and the list that is a local variable. *)
Lemma give_out_run w free used ids :
  h_servers (w_app w) !! self = Some d -> owning (w_objs w) free used ids ->
  exists o, sxe_httpd_give_buffers self OUT w = Ret (tt, with_objs o w) /\ serving o (free ++ ids) used [] [] [] [] /\ frame (w_objs w) o.
Proof using P.
  intros S [Bf Eo El Lk]. destruct (pl_lists P) as [P1 P2].
  destruct (give_buffer_run w OUT ids free used S P1 Eo Bf) as (o & R & Bo & Lo & So & Po). exists o. split; [done|]. split; [|done].
  apply owning_serving. split; [done| | |].
  - rewrite Lo. apply lookup_insert_eq.
  - rewrite Lo. by rewrite !lookup_insert_ne by done.
  - intros l xs i El' Hx Hi. rewrite Lo in El'. destruct (decide (l = OUT)) as [->|N1].
    { rewrite lookup_insert_eq in El'. injection El' as <-. by apply elem_of_nil in Hx. }
    rewrite lookup_insert_ne in El' by done. destruct (decide (l = keep_ptr)) as [->|N2].
    { rewrite lookup_insert_eq in El'. injection El' as <-. by apply elem_of_nil in Hx. }
    rewrite lookup_insert_ne in El' by done. by destruct (Lk l xs i El' Hx ltac:(set_solver)) as [? _].
Qed.

Lemma give_local_run w free used ids ts js us :
  h_servers (w_app w) !! self = Some d -> o_lists (w_objs w) !! buffer_list_ptr = Some (buffer_at <$> js) ->
  serving (w_objs w) free used ids ts js us ->
  exists o, sxe_httpd_give_buffers self buffer_list_ptr w = Ret (tt, with_objs o w) /\ serving o (free ++ js) used ids ts [] [] /\
    frame (w_objs w) o /\ o_lists o !! buffer_list_ptr = Some [].
Proof using P.
  intros S Ej V. destruct V as [Bf Eo El Lk Tx Mo]. destruct (pl_lists P) as [P1 P2].
  assert (Bf' : buffers (w_objs w) free (js ++ ids ++ used)).
  { destruct Bf as [(p & Ep & W & L & Q0 & Q1 & St)]. constructor. exists p. split_and!; try done. rewrite Q1. solve_Permutation. }
  destruct (give_buffer_run w buffer_list_ptr js free (ids ++ used) S ltac:(done) Ej Bf') as (o & R & Bo & Lo & So & Po).
  exists o. split; [done|]. split; [|split; [done|rewrite Lo; apply lookup_insert_eq]].
  split; [done| | | | |].
  - rewrite Lo. by rewrite !lookup_insert_ne by done.
  - rewrite Lo. by rewrite lookup_insert_eq.
  - intros l xs i El' Hx Hi. rewrite Lo in El'. destruct (decide (l = buffer_list_ptr)) as [->|N1].
    { rewrite lookup_insert_eq in El'. injection El' as <-. by apply elem_of_nil in Hx. }
    rewrite lookup_insert_ne in El' by done. destruct (decide (l = keep_ptr)) as [->|N2].
    { rewrite lookup_insert_eq in El'. injection El' as <-. by apply elem_of_nil in Hx. }
    rewrite lookup_insert_ne in El' by done. destruct (Lk l xs i El' Hx ltac:(set_solver)) as [[-> Hi']|[? _]]; [by left|done].
  - by apply (texts_strings (w_objs w)).
  - constructor.
Qed.

(** *** Strings *)

Definition grown (c : counted) (l : list Z) (terminated : bool) : counted :=
  mk_counted (c_text c ++ l) (c_size c) (c_over c) (c_const c) terminated (c_consumed c) (c_space c).

Section Strings.
Variables (o : objects) (x : Z) (c : counted) (t : list Z).
Hypotheses (E : o_strings o !! x = Some (Counted c)) (T : text_in c x t).

Lemma room_is : room c = c_size c - zlen t /\ 0 <= room c <= 65535.
Proof using T. destruct T as (<- & _ & _ & Hs & _). unfold room. pose proof (zlen_nonneg (c_text c)). lia. Qed.

Lemma string_room_ret : string_room x o = Ret (room c, o).
Proof using E.
  unfold string_room, string_op, mbind, cmd_bind. cbn [spec_op]. unfold counted_at. rewrite E. cbn [mbind outcome_bind].
  by rewrite set_strings_same.
Qed.

Lemma string_over_ret : string_is_overflow x o = Ret (false, o).
Proof using E T.
  unfold string_is_overflow, string_op, mbind, cmd_bind. cbn [spec_op]. rewrite E. destruct T as (_ & _ & -> & _).
  cbn. by rewrite set_strings_same.
Qed.

Lemma string_data_ret : string_data x o = Ret (c_space c, o).
Proof using E T. unfold string_data. rewrite E. destruct T as (_ & -> & _). by rewrite Z.add_0_r. Qed.

Hypothesis C : c_const c = false.

Lemma with_text_ret l b : with_text c (c_text c ++ l) (c_over c) b = Ret (grown c l b).
Proof using T. unfold with_text, grown. destruct T as (_ & -> & _). by rewrite (proj2 (Z.leb_le _ _)) by apply zlen_nonneg. Qed.

Lemma printf_ret l : zlen l < room c -> string_printf x l o = Ret (zlen l, set_strings <[x := Counted (grown c l true)]> o).
Proof using E T C.
  intros Hl. pose proof room_is as [_ Hr]. unfold string_printf, string_op, mbind, cmd_bind. cbn [spec_op]. unfold mutable. rewrite E, C. cbn [mbind outcome_bind assert1 negb].
  rewrite (proj2 (Z.leb_gt _ _)) by lia. unfold changed, printf_spec. replace (zlen l <? room c) with true by lia. by rewrite with_text_ret.
Qed.

Lemma string_memcpy_run data l : slice data 0 (zlen l) = Some l -> zlen l <= room c ->
  string_memcpy x data (zlen l) o = Ret (tt, set_strings <[x := Counted (grown c l false)]> o).
Proof using E T C.
  intros Hd Hl. unfold string_memcpy, string_op, mbind, cmd_bind. cbn [spec_op]. unfold mutable. rewrite E, C. cbn [mbind outcome_bind assert1 negb load].
  rewrite Hd. cbn [load mbind outcome_bind]. unfold changed, append_spec.
  rewrite firstn_all2 by (unfold zlen in Hl; lia). replace (room c <? zlen l) with false by lia. rewrite orb_false_r.
  by rewrite with_text_ret.
Qed.

Lemma cat_ret l : zlen l <= room c -> string_cat x l o = Ret (tt, set_strings <[x := Counted (grown c l false)]> o).
Proof using E T C.
  intros Hl. pose proof (string_memcpy_run l l) as R. unfold string_memcpy in R. unfold string_cat. apply R; [|done].
  rewrite <-(app_nil_r l) at 1. apply slice_prefix.
Qed.

Lemma grown_text l b : zlen l <= room c -> text_in (grown c l b) x (t ++ l).
Proof using T C.
  intros Hl. pose proof room_is as [Hr _]. destruct T as (Et & Ec & Eo & Es & Ek). rewrite C in Ek. unfold text_in. simpl. rewrite C, zlen_app, Et.
  pose proof (zlen_nonneg l). split_and!; try done; lia.
Qed.
End Strings.

Lemma empty_text x : text_in (empty_buffer x) x [].
Proof using P. destruct P. unfold text_in. simpl. split_and!; try done; unfold zlen; simpl; lia. Qed.

(** *** Steps between states *)

(** A free buffer is filled and put at the end of the queue. *)
Lemma serving_push o o1 o2 i free used ids ts js us c t :
  serving o (i :: free) used ids ts js us -> buffers o1 free ((ids ++ js ++ used) ++ [i]) -> o_pools o2 = o_pools o1 ->
  o_lists o2 = <[OUT := buffer_at <$> (ids ++ [i])]> (o_lists o) -> o_strings o2 = <[buffer_at i := Counted c]> (o_strings o) ->
  text_in c (buffer_at i) t -> serving o2 free used (ids ++ [i]) (ts ++ [t]) js us.
Proof using P.
  intros [Bf Eo El Lk Tx Mo] Bo Po Lo So T. destruct (pl_lists P) as [P1 P2].
  pose proof (buffers_nodup _ _ _ Bf) as [Nf Nu]. apply NoDup_cons in Nf as [Nf _].
  assert (Ni : i ∉ ids ++ js ++ used) by (intros Hc; by apply (buffers_disjoint _ _ _ i Bf (list_elem_of_here _ _))).
  split.
  - destruct Bo as [(p & Ep & W & L & Q0 & Q1 & St)]. constructor. exists p. rewrite Po. split_and!; try done.
    rewrite Q1. solve_Permutation.
  - rewrite Lo. apply lookup_insert_eq.
  - rewrite Lo. by rewrite lookup_insert_ne.
  - intros l xs j El' Hx Hj. rewrite Lo in El'. destruct (decide (l = OUT)) as [->|Hl].
    + left. split; [done|]. rewrite lookup_insert_eq in El'. injection El' as <-.
      apply list_elem_of_fmap in Hx as (k & Ek & Hk). by apply buffer_at_inj in Ek as ->.
    + rewrite lookup_insert_ne in El' by done. destruct (Lk l xs j El' Hx ltac:(set_solver)) as [[? _]|]; [done|by right].
  - apply Forall2_app; [|constructor; [|constructor]].
    + eapply texts_other; [exact So| |done]. set_solver.
    + exists c. rewrite So, lookup_insert_eq. done.
  - eapply texts_other; [exact So| |done]. set_solver.
Qed.

(** The buffer at the end of the queue gets more text. *)
Lemma serving_grow o o' i free used ids ts js us c t l b :
  serving o free used (ids ++ [i]) (ts ++ [t]) js us -> length ids = length ts ->
  o_strings o !! buffer_at i = Some (Counted c) -> text_in c (buffer_at i) t -> c_const c = false -> zlen l <= room c ->
  o' = set_strings <[buffer_at i := Counted (grown c l b)]> o -> serving o' free used (ids ++ [i]) (ts ++ [t ++ l]) js us.
Proof using P.
  intros [Bf Eo El Lk Tx Mo] Len Ec T C Hl ->. pose proof (buffers_nodup _ _ _ Bf) as [_ Nu].
  apply NoDup_app in Nu as (N1 & N12 & _). apply NoDup_app in N1 as (_ & N1 & _).
  split; try done.
  - by destruct Bf as [Bf]; constructor.
  - apply Forall2_app_inv in Tx as [Tx _]; [|done]. apply Forall2_app; [|constructor; [|constructor]].
    + eapply texts_other; [reflexivity| |exact Tx]. intros Hi. apply (N1 i Hi), list_elem_of_here.
    + exists (grown c l b). split; [apply lookup_insert_eq|by apply grown_text].
  - eapply texts_other; [reflexivity| |exact Mo]. intros Hi. apply (N12 i); set_solver.
Qed.

(** ** The operations *)

Lemma rd_server w : h_servers (w_app w) !! self = Some d -> rd_httpd self w = Ret (d, w).
Proof using. intros E. unfold rd_httpd. by rewrite E. Qed.
Lemma rd_req w r q : h_requests (w_app w) !! r = Some q -> rd_request r w = Ret (q, w).
Proof using. intros E. unfold rd_request. by rewrite E. Qed.
Lemma upd_req w q f : h_requests (w_app w) !! request = Some q -> upd_request request f w = Ret (tt, stand (w_objs w) (f q) w).
Proof using. intros E. unfold upd_request. rewrite E. by destruct w as [? ? ? ? ? []]. Qed.

Lemma texts_length o free used ids ts js us : serving o free used ids ts js us -> length ids = length ts.
Proof using. intros [_ _ _ _ Tx _]. by apply Forall2_length in Tx. Qed.

(** The tail of the queue, if it can take more text. *)
Lemma own_tail_run w free used ids ts js us :
  serving (w_objs w) free used ids ts js us ->
  (exists ids' i ts' t c, ids = ids' ++ [i] /\ ts = ts' ++ [t] /\ length ids' = length ts' /\
     o_strings (w_objs w) !! buffer_at i = Some (Counted c) /\ text_in c (buffer_at i) t /\ c_const c = false /\
     own_tail request w = Ret (buffer_at i, w)) \/
  own_tail request w = Ret (NULL, w).
Proof using P.
  intros V. pose proof (texts_length _ _ _ _ _ _ _ V) as Len. destruct V as [_ Eo _ _ Tx _]. unfold own_tail, list_peek_tail.
  erewrite cmd_bind_ret by (apply on_objs_ret; rewrite (cmd_bind_ret _ _ _ _ _ (list_at_ret _ _ _ Eo)); reflexivity).
  rewrite with_objs_same. destruct ids as [|i ids _] using rev_ind; [by right|].
  destruct ts as [|t ts _] using rev_ind; [rewrite length_app in Len; simpl in Len; lia|].
  rewrite !length_app in Len. simpl in Len. apply Forall2_app_inv in Tx as [_ Tx]; [|lia].
  inversion Tx as [|? ? ? ? (c & Ec & T) _]; subst. pose proof (buffer_at_pos i).
  rewrite fmap_app. simpl. rewrite last_last, (proj2 (Z.eqb_neq (buffer_at i) NULL)) by (unfold NULL; lia). cbn [negb].
  erewrite cmd_bind_ret by (apply on_objs_ret; apply (string_data_ret _ _ _ _ Ec T)). rewrite with_objs_same.
  pose proof T as (_ & _ & _ & _ & K). destruct (c_const c) eqn:C.
  - right. by rewrite (proj2 (Z.eqb_neq _ _)).
  - left. destruct K as [-> _]. rewrite Z.eqb_refl. exists ids, i, ts, t, c. split_and!; try done. lia.
Qed.

(** A new buffer with a text is put at the end of the queue. *)
Lemma push_new w o o1 i free used ids ts js us l b :
  serving o (i :: free) used ids ts js us -> buffers o1 free ((ids ++ js ++ used) ++ [i]) ->
  o_lists o1 = o_lists o -> o_strings o1 = o_strings o -> delete (d_buffers d) (o_pools o1) = delete (d_buffers d) (o_pools o) ->
  w_objs w = set_strings <[buffer_at i := Counted (grown (empty_buffer (buffer_at i)) l b)]> o1 -> zlen l <= d_buffer_size d ->
  exists o', on_objs (list_push OUT (buffer_at i)) w = Ret (tt, with_objs o' w) /\
    serving o' free used (ids ++ [i]) (ts ++ [l]) js us /\ frame o o'.
Proof using P.
  intros V Bo Lo So Po Ew Hl. pose proof V as [Bf Eo El Lk Tx Mo].
  pose proof (buffers_nodup _ _ _ Bf) as [Nf _]. apply NoDup_cons in Nf as [Nf _].
  assert (Ni : i ∉ ids ++ js ++ used) by (intros Hc; by apply (buffers_disjoint _ _ _ i Bf (list_elem_of_here _ _))).
  eexists. split; [apply on_objs_ret, list_push_ret|split].
  - rewrite Ew. simpl. by rewrite Lo.
  - intros k xs Ek Hx. rewrite Ew in Ek. simpl in Ek. rewrite Lo in Ek.
    destruct (Lk k xs i Ek Hx) as [[_ Hi]|[_ Hi]]; set_solver.
  - eapply (serving_push o o1 _ i free used ids ts js us (grown (empty_buffer (buffer_at i)) l b) l V Bo); rewrite ?Ew; simpl; try done.
    + by rewrite fmap_app, Lo.
    + by rewrite So.
    + apply (grown_text _ _ [] (empty_text _)); [done|]. unfold room. simpl. change (zlen []) with 0. lia.
  - rewrite Ew. split; [exact Po|]. intros k Hk. simpl. rewrite lookup_insert_is_Some', Lo. auto.
Qed.

(** An operation appended a text to the response, and maybe changed the request by [f]. No buffer is lost; at most [cost] were taken. *)
Definition appended w q free used ids ts js us (text : list Z) (cost : nat) (f : SXE_HTTPD_REQUEST -> SXE_HTTPD_REQUEST)
  (result : SXE_RETURN) (m : cmd (world (httpd B)) SXE_RETURN) : Prop :=
  exists o free' ids' ts', m w = Ret (result, stand o (f q) w) /\ serving o free' used ids' ts' js us /\
    concat ts' = concat ts ++ text /\ free' ++ ids' ≡ₚ free ++ ids /\ (length free <= length free' + cost)%nat /\ frame (w_objs w) o.

Lemma printf_fits_run w x c t l :
  o_strings (w_objs w) !! x = Some (Counted c) -> text_in c x t -> c_const c = false -> zlen l < room c ->
  printf_fits x l w = Ret (tt, with_objs (set_strings <[x := Counted (grown c l true)]> (w_objs w)) w).
Proof using.
  intros E T C Hl. unfold printf_fits. erewrite cmd_bind_ret by (apply on_objs_ret; apply (printf_ret _ _ _ _ E T C _ Hl)).
  set (o := set_strings _ _). assert (Eo : o_strings o !! x = Some (Counted (grown c l true))) by apply lookup_insert_eq.
  assert (To : text_in (grown c l true) x (t ++ l)) by (apply grown_text; [done|done|lia]).
  erewrite cmd_bind_ret by (apply on_objs_ret; apply (string_over_ret _ _ _ _ Eo To)). done.
Qed.

(** A free buffer is taken and a text is printed into it. *)
Lemma new_printf w i free used ids ts js us :
  h_servers (w_app w) !! self = Some d -> serving (w_objs w) (i :: free) used ids ts js us ->
  exists o1, sxe_httpd_get_buffer self w = Ret (buffer_at i, with_objs o1 w) /\
    o_strings o1 !! buffer_at i = Some (Counted (empty_buffer (buffer_at i))) /\
    forall l, zlen l < d_buffer_size d -> exists o2 o3,
      printf_fits (buffer_at i) l (with_objs o1 w) = Ret (tt, with_objs o2 w) /\
      on_objs (list_push OUT (buffer_at i)) (with_objs o2 w) = Ret (tt, with_objs o3 w) /\
      serving o3 free used (ids ++ [i]) (ts ++ [l]) js us /\ frame (w_objs w) o3.
Proof using P.
  intros S V. destruct (get_some w i free _ S (sv_buffers _ _ _ _ _ _ _ V)) as (o & R & Bo & Lo & So & Po).
  eexists. split; [exact R|]. split; [apply lookup_insert_eq|]. intros l Hl.
  set (w1 := with_objs _ w). pose proof (empty_text (buffer_at i)) as T.
  assert (Hr : room (empty_buffer (buffer_at i)) = d_buffer_size d) by (unfold room; simpl; change (zlen []) with 0; lia).
  eexists. pose proof (printf_fits_run w1 _ _ [] l (lookup_insert_eq _ _ _) T eq_refl ltac:(lia)) as R2.
  set (w2 := with_objs (set_strings _ (w_objs w1)) w1) in R2.
  destruct (push_new w2 (w_objs w) o i free used ids ts js us l true V Bo Lo So Po) as (o3 & R3 & V3 & F3); [|lia|].
  { subst w2 w1. simpl. unfold set_strings. simpl. by rewrite insert_insert_eq. }
  exists o3. split; [exact R2|]. split; [exact R3|done].
Qed.

Lemma perm_push (free ids : list nat) i : free ++ ids ++ [i] ≡ₚ (i :: free) ++ ids.
Proof using. solve_Permutation. Qed.

Lemma start_run w q i free used ids ts code status s :
  h_servers (w_app w) !! self = Some d -> h_requests (w_app w) !! request = Some q -> q_server q = self ->
  serving (w_objs w) (i :: free) used ids ts [] [] ->
  cstring status = Some s -> zlen (status_line code s) < d_buffer_size d ->
  appended w q (i :: free) used ids ts [] [] (status_line code s) 1 (set_q_out_started true) SXE_RETURN_OK
    (sxe_httpd_response_start request code status).
Proof using P.
  intros S Q Qs V Hs Hl. unfold appended, sxe_httpd_response_start. step_by (rd_req w request q Q). rewrite Qs.
  destruct (new_printf w i free used ids ts [] [] S V) as (o1 & R1 & E1 & K). step_by R1.
  destruct (K _ Hl) as (o2 & o3 & R2 & R3 & V3 & F3).
  rewrite (cmd_bind_ret _ _ (with_objs o1 w) tt (with_objs o1 w)).
  2: { destruct debug; [|done]. erewrite cmd_bind_ret by (apply on_objs_ret; apply (string_over_ret _ _ _ _ E1 (empty_text _))). done. }
  pose proof (buffer_at_pos i). rewrite (proj2 (Z.eqb_neq (buffer_at i) NULL)) by (unfold NULL; lia). cbn [negb].
  rewrite Hs. step_by (eq_refl : lift (load (Some s)) (with_objs o1 w) = Ret (s, with_objs o1 w)).
  step_by R2. step_by R3. step_by (upd_req (with_objs o3 w) q (set_q_out_started true) Q).
  exists o3, free, (ids ++ [i]), (ts ++ [status_line code s]). split; [done|]. split; [done|].
  rewrite concat_app. simpl. rewrite app_nil_r. split; [done|]. split; [apply perm_push|]. split; [lia|done].
Qed.

(** The text of a value: of a given length, or up to its NUL. *)
Definition value_text (value : list Z) (length : Z) : option (list Z) :=
  if length =? 0 then cstring value else precision length value.

Lemma value_text_ok value length v :
  value_text value length = Some v -> 0 <= length < 2147483648 -> zlen v < 65536 ->
  exists n, (if negb (length =? 0) then mret length else n ← lift (load (strlen value)); mret (u32 n) : cmd (world (httpd B)) Z) =
    mret n /\ precision n value = Some v /\ zlen v <= n < 2147483648.
Proof using.
  unfold value_text. intros E Hl Hv. destruct (length =? 0) eqn:L0; cbn [negb].
  - unfold strlen. rewrite E. cbn [fmap option_fmap option_map load]. exists (zlen v). pose proof (zlen_nonneg v).
    split; [unfold mbind, cmd_bind, lift, mret, cmd_ret; rewrite u32_small by (unfold is_u32; lia); done|].
    split; [|lia]. unfold precision. rewrite (proj2 (Z.leb_gt _ _)) by lia.
    destruct (cstring_inv _ _ E) as (t & -> & N). rewrite take_app_le by (unfold zlen; lia). rewrite firstn_all2 by (unfold zlen; lia).
    destruct (cstring v) as [v'|] eqn:Ev; [|apply slice_prefix]. destruct (cstring_inv _ _ Ev) as (t' & -> & _).
    exfalso. unfold no_nul in N. apply Forall_app in N as [_ N]. by apply Forall_cons in N as [N _].
  - exists length. split; [done|]. split; [done|]. split; [|lia]. unfold precision in E.
    rewrite (proj2 (Z.leb_gt _ _)) in E by lia. destruct (cstring (take (Z.to_nat length) value)) as [v'|] eqn:Ev.
    + injection E as ->. destruct (cstring_inv _ _ Ev) as (t & Et & _). apply (f_equal List.length) in Et.
      rewrite length_take, length_app in Et. simpl in Et. unfold zlen. lia.
    + by rewrite (slice_length _ _ _ _ E).
Qed.

Lemma header_line_length h v : zlen (header_line h v) = zlen h + zlen v + 4.
Proof using. unfold header_line. rewrite !zlen_app. change (zlen [COLON; SPACE]) with 2. change (zlen CRLF) with 2. lia. Qed.

Lemma id_stand w q o : h_requests (w_app w) !! request = Some q -> stand o q w = with_objs o w.
Proof using. intros E. by rewrite <-stand_objs. Qed.

(** No buffer is left: the queue is as it was. *)
Definition refused w (free : list nat) (m : cmd (world (httpd B)) SXE_RETURN) : Prop :=
  free = [] /\ m w = Ret (SXE_RETURN_NO_UNUSED_ELEMENTS, w).

Lemma header_new_run w q free used ids ts h value n v :
  h_servers (w_app w) !! self = Some d -> h_requests (w_app w) !! request = Some q ->
  serving (w_objs w) free used ids ts [] [] -> precision n value = Some v -> zlen (header_line h v) < d_buffer_size d ->
  appended w q free used ids ts [] [] (header_line h v) 1 Datatypes.id SXE_RETURN_OK (header_in_new request self h value n) \/
  refused w free (header_in_new request self h value n).
Proof using P.
  intros S Q V Pn Hl. unfold appended, refused, header_in_new. destruct free as [|i free].
  - right. split; [done|]. by step_by (get_none w _ S (sv_buffers _ _ _ _ _ _ _ V)).
  - left. destruct (new_printf w i free used ids ts [] [] S V) as (o1 & R1 & E1 & K). step_by R1.
    destruct (K _ Hl) as (o2 & o3 & R2 & R3 & V3 & F3).
    pose proof (buffer_at_pos i). rewrite (proj2 (Z.eqb_neq (buffer_at i) NULL)) by (unfold NULL; lia). cbn [negb].
    rewrite Pn. step_by (eq_refl : lift (load (Some v)) (with_objs o1 w) = Ret (v, with_objs o1 w)). step_by R2. step_by R3.
    exists o3, free, (ids ++ [i]), (ts ++ [header_line h v]). split; [by rewrite id_stand|]. split; [done|].
    rewrite concat_app. simpl. rewrite app_nil_r. split; [done|]. split; [apply perm_push|]. split; [lia|done].
Qed.

Lemma response_header_run w q free used ids ts header h value length v :
  h_servers (w_app w) !! self = Some d -> h_requests (w_app w) !! request = Some q -> q_server q = self ->
  serving (w_objs w) free used ids ts [] [] -> q_out_started q = true -> q_out_eoh q = false ->
  cstring header = Some h -> value_text value length = Some v -> 0 <= length < 2147483648 ->
  zlen (header_line h v) < d_buffer_size d ->
  appended w q free used ids ts [] [] (header_line h v) 1 Datatypes.id SXE_RETURN_OK (sxe_httpd_response_header request header value length) \/
  refused w free (sxe_httpd_response_header request header value length).
Proof using P.
  intros S Q Qs V Os Oe Hh Hv Hn Hl. pose proof (header_line_length h v) as HL. pose proof (pl_size P) as Sz.
  pose proof (zlen_nonneg h). pose proof (zlen_nonneg v).
  destruct (value_text_ok value length v Hv Hn ltac:(lia)) as (n & En & Pn & Bn).
  pose proof (header_new_run w q free used ids ts h value n v S Q V Pn Hl) as New. unfold appended, refused, sxe_httpd_response_header in *.
  step_by (rd_req w request q Q). rewrite Hh. step_by (eq_refl : lift (load (Some h)) w = Ret (h, w)). cbv zeta.
  rewrite En. step_by (eq_refl : (mret n : cmd (world (httpd B)) Z) w = Ret (n, w)). rewrite Os, Oe.
  do 2 (erewrite cmd_bind_ret by (apply lift_assert6; done)). rewrite (u32_small (zlen h)) by (unfold is_u32; lia).
  rewrite Qs.
  destruct (own_tail_run w _ _ _ _ _ _ V) as [(ids' & i & ts' & t & c & -> & -> & Len & Ec & T & C & R)|R]; step_by R.
  2: { by step_by (eq_refl : (mret false : cmd (world (httpd B)) bool) w = Ret (false, w)). }
  pose proof (buffer_at_pos i). rewrite (proj2 (Z.eqb_neq (buffer_at i) NULL)) by (unfold NULL; lia). cbn [negb].
  rewrite (cmd_bind_ret _ _ w (zlen h + 2 + n + 2 + 1 <? room c) w).
  2: { erewrite cmd_bind_ret by (apply on_objs_ret, (string_room_ret _ _ _ Ec)). by rewrite with_objs_same. }
  destruct (zlen h + 2 + n + 2 + 1 <? room c) eqn:Fit; [|exact New]. left.
  rewrite Pn. step_by (eq_refl : lift (load (Some v)) w = Ret (v, w)).
  step_by (printf_fits_run w _ _ _ (header_line h v) Ec T C ltac:(lia)).
  exists (set_strings <[buffer_at i := Counted (grown c (header_line h v) true)]> (w_objs w)), free, (ids' ++ [i]), (ts' ++ [t ++ header_line h v]).
  split; [by rewrite id_stand|]. split; [by apply (serving_grow _ _ i _ _ _ _ _ _ c t (header_line h v) true V Len Ec T C ltac:(lia))|].
  rewrite !concat_app. simpl. rewrite !app_nil_r, (assoc_L (++)). split; [done|]. split; [done|]. split; [lia|done].
Qed.

Lemma print_int_text n : - 2147483648 <= n < 2147483648 -> no_nul (print_int n) /\ zlen (print_int n) <= 21.
Proof using.
  intros Hn. unfold print_int. destruct (n <? 0) eqn:N.
  - destruct (JitsonPrint.print_uint_spec (- n)) as (D & L & _); [unfold is_u64; lia|].
    split; [|rewrite zlen_cons; lia]. constructor; [lia|by apply JitsonPrint.digits_no_nul].
  - destruct (JitsonPrint.print_uint_spec n) as (D & L & _); [unfold is_u64; lia|]. split; [by apply JitsonPrint.digits_no_nul|lia].
Qed.

Definition content_length_line (length : Z) : list Z := header_line (take 14 HTTPD_CONTENT_LENGTH) (print_int (to_int length)).

Lemma content_length_run w q free used ids ts length :
  h_servers (w_app w) !! self = Some d -> h_requests (w_app w) !! request = Some q -> q_server q = self ->
  serving (w_objs w) free used ids ts [] [] -> q_out_started q = true -> q_out_eoh q = false ->
  appended w q free used ids ts [] [] (content_length_line length) 1 Datatypes.id SXE_RETURN_OK (sxe_httpd_response_content_length request length) \/
  refused w free (sxe_httpd_response_content_length request length).
Proof using P.
  intros S Q Qs V Os Oe. destruct (print_int_text (to_int length)) as [Nn Nl].
  { unfold to_int. pose proof (u32_range length) as Hr. unfold is_u32 in Hr. destruct (u32 length <? 2147483648) eqn:?; lia. }
  apply (response_header_run w q); try done.
  - unfold value_text. simpl. by apply (cstring_app _ []).
  - pose proof (header_line_length (take 14 HTTPD_CONTENT_LENGTH) (print_int (to_int length))) as HL. unfold content_length_line.
    change (zlen (take 14 HTTPD_CONTENT_LENGTH)) with 14 in HL. pose proof (pl_size P). unfold header_line in *. lia.
Qed.

Lemma eoh_new_run w q free used ids ts js us :
  h_servers (w_app w) !! self = Some d -> h_requests (w_app w) !! request = Some q -> serving (w_objs w) free used ids ts js us ->
  appended w q free used ids ts js us CRLF 1 (set_q_out_eoh true) SXE_RETURN_OK (eoh_in_new request self) \/
  refused w free (eoh_in_new request self).
Proof using P.
  intros S Q V. pose proof (pl_size P) as Sz. assert (L2 : zlen CRLF = 2) by done. unfold appended, refused, eoh_in_new.
  destruct free as [|i free].
  - right. split; [done|]. by step_by (get_none w _ S (sv_buffers _ _ _ _ _ _ _ V)).
  - left. destruct (get_some w i free _ S (sv_buffers _ _ _ _ _ _ _ V)) as (o & R & Bo & Lo & So & Po). step_by R.
    pose proof (buffer_at_pos i). rewrite (proj2 (Z.eqb_neq (buffer_at i) NULL)) by (unfold NULL; lia).
    set (o1 := set_strings _ o). assert (E1 : o_strings o1 !! buffer_at i = Some (Counted (empty_buffer (buffer_at i)))) by apply lookup_insert_eq.
    assert (Hr : room (empty_buffer (buffer_at i)) = d_buffer_size d) by (unfold room; simpl; change (zlen []) with 0; lia).
    erewrite cmd_bind_ret by (apply on_objs_ret; apply (cat_ret _ _ _ _ E1 (empty_text _) eq_refl CRLF); lia).
    set (w2 := with_objs _ (with_objs o1 w)).
    destruct (push_new w2 (w_objs w) o i free used ids ts js us CRLF false V Bo Lo So Po) as (o3 & R3 & V3 & F3);
      [subst w2 o1; simpl; unfold set_strings; simpl; by rewrite insert_insert_eq|lia|].
    step_by R3. step_by (upd_req (with_objs o3 w2) q (set_q_out_eoh true) Q).
    exists o3, free, (ids ++ [i]), (ts ++ [CRLF]). split; [done|]. split; [done|].
    rewrite concat_app. split; [done|]. split; [apply perm_push|]. split; [simpl; lia|done].
Qed.

Lemma eoh_run w q free used ids ts js us :
  h_servers (w_app w) !! self = Some d -> h_requests (w_app w) !! request = Some q -> q_server q = self ->
  serving (w_objs w) free used ids ts js us ->
  appended w q free used ids ts js us CRLF 1 (set_q_out_eoh true) SXE_RETURN_OK (sxe_httpd_response_eoh request) \/
  refused w free (sxe_httpd_response_eoh request).
Proof using P.
  intros S Q Qs V. pose proof (eoh_new_run w q free used ids ts js us S Q V) as New. assert (L2 : zlen CRLF = 2) by done.
  unfold appended, refused, sxe_httpd_response_eoh in *. step_by (rd_req w request q Q). rewrite Qs.
  destruct (own_tail_run w _ _ _ _ _ _ V) as [(ids' & i & ts' & t & c & -> & -> & Len & Ec & T & C & R)|R]; step_by R.
  2: { step_by (eq_refl : (mret false : cmd (world (httpd B)) bool) w = Ret (false, w)). exact New. }
  pose proof (buffer_at_pos i). rewrite (proj2 (Z.eqb_neq (buffer_at i) NULL)) by (unfold NULL; lia). cbn [negb].
  rewrite (cmd_bind_ret _ _ w (2 <=? room c) w).
  2: { erewrite cmd_bind_ret by (apply on_objs_ret, (string_room_ret _ _ _ Ec)). by rewrite with_objs_same. }
  destruct (2 <=? room c) eqn:Fit; [|exact New]. left. assert (Lr : zlen CRLF <= room c) by lia.
  erewrite cmd_bind_ret by (apply on_objs_ret; apply (cat_ret _ _ _ _ Ec T C CRLF Lr)).
  set (o := set_strings _ _). step_by (upd_req (with_objs o w) q (set_q_out_eoh true) Q).
  exists o, free, (ids' ++ [i]), (ts' ++ [t ++ CRLF]). split; [done|].
  split; [by apply (serving_grow _ _ i _ _ _ _ _ _ c t CRLF false V Len Ec T C Lr)|].
  rewrite !concat_app. simpl. rewrite !app_nil_r, (assoc_L (++)). split; [done|]. split; [done|]. split; [lia|done].
Qed.

(** ** Copying data *)

(** The buffers that were just taken. *)
Definition blank o (j : nat) : Prop := o_strings o !! buffer_at j = Some (Counted (empty_buffer (buffer_at j))).

(** A free buffer is put at the end of the list that is a local variable. *)
Lemma serving_take o o1 o2 i free used ids ts js us c t :
  serving o (i :: free) used ids ts js us -> buffers o1 free ((ids ++ js ++ used) ++ [i]) -> o_pools o2 = o_pools o1 ->
  o_lists o2 = <[buffer_list_ptr := buffer_at <$> (js ++ [i])]> (o_lists o) -> o_strings o2 = <[buffer_at i := Counted c]> (o_strings o) ->
  text_in c (buffer_at i) t -> serving o2 free used ids ts (js ++ [i]) (us ++ [t]).
Proof using P.
  intros [Bf Eo El Lk Tx Mo] Bo Po Lo So T. destruct (pl_lists P) as [P1 P2].
  assert (Ni : i ∉ ids ++ js ++ used) by (intros Hc; by apply (buffers_disjoint _ _ _ i Bf (list_elem_of_here _ _))).
  split.
  - destruct Bo as [(p & Ep & W & L & Q0 & Q1 & St)]. constructor. exists p. rewrite Po. split_and!; try done.
    rewrite Q1. solve_Permutation.
  - rewrite Lo. by rewrite lookup_insert_ne.
  - rewrite Lo. by rewrite lookup_insert_eq.
  - intros l xs j El' Hx Hj. rewrite Lo in El'. destruct (decide (l = buffer_list_ptr)) as [->|Hl].
    + right. split; [done|]. rewrite lookup_insert_eq in El'. injection El' as <-.
      apply list_elem_of_fmap in Hx as (k & Ek & Hk). by apply buffer_at_inj in Ek as ->.
    + rewrite lookup_insert_ne in El' by done. destruct (Lk l xs j El' Hx ltac:(set_solver)) as [|[? _]]; [by left|done].
  - eapply texts_other; [exact So| |done]. set_solver.
  - apply Forall2_app; [|constructor; [|constructor]].
    + eapply texts_other; [exact So| |done]. set_solver.
    + exists c. rewrite So, lookup_insert_eq. done.
Qed.

(** Taking the buffers for what is left of [length] bytes, of which [u] have theirs: either enough were free, or all were taken. *)
Lemma grab_run fuel : forall w free used ids ts js us length u,
  h_servers (w_app w) !! self = Some d -> serving (w_objs w) free used ids ts js us ->
  o_lists (w_objs w) !! buffer_list_ptr = Some (buffer_at <$> js) -> 0 <= u -> u < length + d_buffer_size d -> length < 2147483648 ->
  (Z.to_nat (length - u) < fuel)%nat ->
  exists o new free' enough, grab_loop fuel self buffer_list_ptr length u w = Ret (enough, with_objs o w) /\ free = new ++ free' /\
    serving o free' used ids ts (js ++ new) (us ++ (const [] <$> new)) /\ Forall (blank o) new /\
    (forall j, j ∉ new -> o_strings o !! buffer_at j = o_strings (w_objs w) !! buffer_at j) /\
    o_lists o !! buffer_list_ptr = Some (buffer_at <$> (js ++ new)) /\ frame (w_objs w) o /\
    let k := u + Z.of_nat (List.length new) * d_buffer_size d in
    if (enough : bool) then length <= k /\ k < length + d_buffer_size d else free' = [] /\ k < length.
Proof using P.
  induction fuel as [|fuel IH]; intros w free used ids ts js us length u S V El Hu Hl Hmax Hf; [lia|]. cbn [grab_loop].
  pose proof (pl_size P) as Sz.
  destruct (u <? length) eqn:Lt.
  2: { exists (w_objs w), [], free, true. rewrite with_objs_same. cbn [fmap list_fmap List.length]. rewrite !app_nil_r. split_and!; try done; lia. }
  destruct free as [|i free].
  { exists (w_objs w), [], [], false. step_by (get_none w _ S (sv_buffers _ _ _ _ _ _ _ V)).
    rewrite with_objs_same. cbn [fmap list_fmap List.length]. rewrite !app_nil_r. split_and!; try done; lia. }
  pose proof (sv_buffers _ _ _ _ _ _ _ V) as Bf.
  destruct (get_some w i free _ S Bf) as (o & R & Bo & Lo & So & Po). step_by R.
  pose proof (buffer_at_pos i). rewrite (proj2 (Z.eqb_neq (buffer_at i) NULL)) by (unfold NULL; lia).
  set (o1 := set_strings _ o). pose proof (buffers_nodup _ _ _ Bf) as [Nf _]. apply NoDup_cons in Nf as [Nf _].
  assert (Ni : i ∉ ids ++ js ++ used) by (intros Hc; by apply (buffers_disjoint _ _ _ i Bf (list_elem_of_here _ _))).
  assert (U : unlinked o1 (buffer_at i)).
  { intros k xs Ek Hx. simpl in Ek. rewrite Lo in Ek. destruct (sv_linked _ _ _ _ _ _ _ V k xs i Ek Hx) as [[_ ?]|[_ ?]]; set_solver. }
  assert (El1 : o_lists o1 !! buffer_list_ptr = Some (buffer_at <$> js)) by (simpl; by rewrite Lo).
  erewrite cmd_bind_ret by (apply on_objs_ret; apply (list_push_ret _ _ _ _ El1 U)).
  set (o2 := set_lists _ o1). change (with_objs o2 (with_objs o1 w)) with (with_objs o2 w).
  step_by (rd_server (with_objs o2 w) S). rewrite u32_small by (unfold is_u32; lia).
  assert (V2 : serving o2 free used ids ts (js ++ [i]) (us ++ [[]])).
  { apply (serving_take (w_objs w) o o2 i free used ids ts js us (empty_buffer (buffer_at i)) [] V Bo); [done| | |by apply empty_text].
    - simpl. by rewrite Lo, fmap_app.
    - simpl. by rewrite So. }
  destruct (IH (with_objs o2 w) free used ids ts (js ++ [i]) (us ++ [[]]) length (u + d_buffer_size d))
    as (o' & new & free' & enough & R' & -> & V' & Bl & Other & El' & F' & K); try done; try lia.
  { cbn [with_objs w_objs o2 o_lists set_lists]. rewrite lookup_insert_eq, fmap_app. done. }
  exists o', (i :: new), free', enough. cbn [with_objs w_objs] in *. rewrite <-(assoc_L (++) js), <-(assoc_L (++) us) in V'. rewrite <-(assoc_L (++) js) in El'.
  split; [exact R'|]. split; [done|]. split; [exact V'|]. split; [|split; [|split; [exact El'|split]]].
  - constructor; [|done]. unfold blank. rewrite Other by set_solver. simpl. apply lookup_insert_eq.
  - intros j Hj. rewrite Other by set_solver. simpl. rewrite lookup_insert_ne, So; [done|]. intros Hc%buffer_at_inj. set_solver.
  - etransitivity; [|exact F']. split; [exact Po|]. intros k Hk. simpl. rewrite lookup_insert_is_Some', Lo. auto.
  - cbv zeta in *. destruct enough; cbn [List.length]; [lia|]. destruct K. split; [done|lia].
Qed.

(** The walker has passed the first of the list's buffers. *)
Definition passed (js : list nat) (wk : SXE_LIST_WALKER) : Prop :=
  w_list wk = buffer_list_ptr /\
  match last js with None => SxeList.w_node wk = buffer_list_ptr | Some j => SxeList.w_node wk = buffer_at j end.

Lemma step_walk o js1 js2 wk :
  o_lists o !! buffer_list_ptr = Some (buffer_at <$> (js1 ++ js2)) -> NoDup (js1 ++ js2) -> passed js1 wk ->
  exists wk', walker_step wk o = Ret (match js2 with [] => NULL | j :: _ => buffer_at j end, wk', o) /\
    match js2 with [] => True | j :: _ => passed (js1 ++ [j]) wk' end.
Proof using P.
  intros El Nd [Wl Wn]. destruct wk as [wl wb wn]. cbn in Wl, Wn. subst wl.
  assert (Hd : forall js : list nat, (if hd buffer_list_ptr (buffer_at <$> js) =? buffer_list_ptr then NULL else hd buffer_list_ptr (buffer_at <$> js))
    = match js with [] => NULL | j :: _ => buffer_at j end).
  { intros [|j js]; [done|]. cbn [fmap list_fmap hd]. pose proof (buffer_at_pos j). by rewrite (proj2 (Z.eqb_neq _ _)) by (unfold buffer_list_ptr; lia). }
  destruct js1 as [|j0 js1 _] using rev_ind; cbn [last] in Wn.
  - subst wn. pose proof (walker_step_first o buffer_list_ptr wb _ El) as R. rewrite Hd in R. eexists. split; [exact R|].
    destruct js2; [done|]. by split.
  - rewrite last_snoc in Wn. subst wn. rewrite <-(assoc_L (++)), fmap_app in El. apply NoDup_app in Nd as (N1 & N12 & _).
    apply NoDup_app in N1 as (_ & N1 & _). pose proof (buffer_at_pos j0).
    pose proof (walker_step_next o buffer_list_ptr wb (fmap (M:=list) buffer_at js1) (buffer_at j0) (fmap (M:=list) buffer_at js2) El) as R.
    rewrite Hd in R. eexists. split; [apply R|].
    + intros (k & Ek & Hk)%list_elem_of_fmap. apply buffer_at_inj in Ek as ->. apply (N1 k Hk), list_elem_of_here.
    + unfold buffer_list_ptr. lia.
    + destruct js2 as [|j2 js2]; [done|]. split; [done|]. by rewrite last_snoc.
Qed.

Lemma serving_fill o o' j free used ids ts js1 js2 us1 us2 l b :
  serving o free used ids ts (js1 ++ j :: js2) (us1 ++ [] :: us2) -> length js1 = length us1 -> blank o j ->
  zlen l <= d_buffer_size d -> o' = set_strings <[buffer_at j := Counted (grown (empty_buffer (buffer_at j)) l b)]> o ->
  serving o' free used ids ts (js1 ++ j :: js2) (us1 ++ l :: us2).
Proof using P.
  intros [Bf Eo El Lk Tx Mo] Len Bj Hl ->. pose proof (buffers_nodup _ _ _ Bf) as [_ Nu].
  apply NoDup_app in Nu as (_ & N1 & N2). apply NoDup_app in N2 as (N2 & _ & _).
  apply NoDup_app in N2 as (_ & N2 & N3). apply NoDup_cons in N3 as [N3 _].
  split; try done.
  - by destruct Bf as [Bf]; constructor.
  - eapply texts_other; [reflexivity| |exact Tx]. intros Hi. apply (N1 j Hi). set_solver.
  - apply Forall2_app_inv in Mo as [M1 M2]; [|done]. inversion M2 as [|? ? ? ? _ M3]; subst.
    apply Forall2_app; [|constructor].
    + eapply texts_other; [reflexivity| |exact M1]. intros Hi. apply (N2 j Hi), list_elem_of_here.
    + exists (grown (empty_buffer (buffer_at j)) l b). split; [apply lookup_insert_eq|].
      apply (grown_text _ _ [] (empty_text _)); [done|]. unfold room. simpl. change (zlen []) with 0. lia.
    + eapply texts_other; [reflexivity|exact N3|exact M3].
Qed.

Lemma copy_run js2 : forall w free used ids ts js1 us1 wk chunk length u fuel,
  h_servers (w_app w) !! self = Some d -> serving (w_objs w) free used ids ts (js1 ++ js2) (us1 ++ (const [] <$> js2)) ->
  List.length js1 = List.length us1 -> Forall (blank (w_objs w)) js2 ->
  o_lists (w_objs w) !! buffer_list_ptr = Some (buffer_at <$> (js1 ++ js2)) -> passed js1 wk ->
  0 <= u <= length -> length <= zlen chunk -> length < 2147483648 -> length <= u + Z.of_nat (List.length js2) * d_buffer_size d ->
  (List.length js2 < fuel)%nat ->
  exists o us2, copy_loop fuel self wk chunk length u w = Ret (tt, with_objs o w) /\
    serving o free used ids ts (js1 ++ js2) (us1 ++ us2) /\ concat us2 = drop (Z.to_nat u) (take (Z.to_nat length) chunk) /\
    frame (w_objs w) o /\ o_lists o !! buffer_list_ptr = Some (buffer_at <$> (js1 ++ js2)).
Proof using P.
  induction js2 as [|j js2 IH]; intros w free used ids ts js1 us1 wk chunk length u fuel S V Len Bl El Wk Hu Hc Hmax Hk Hf;
    (destruct fuel as [|fuel]; [simpl in Hf; lia|]); cbn [copy_loop]; pose proof (pl_size P) as Sz.
  - destruct (step_walk (w_objs w) js1 [] wk El) as (wk' & R & _); [|done|].
    { pose proof (buffers_nodup _ _ _ (sv_buffers _ _ _ _ _ _ _ V)) as [_ Nu]. apply NoDup_app in Nu as (_ & _ & Nu).
      by apply NoDup_app in Nu as (Nu & _ & _). }
    erewrite cmd_bind_ret by (apply on_objs_ret; exact R). cbn. rewrite with_objs_same.
    exists (w_objs w), []. rewrite with_objs_same. split; [done|]. cbn in V. split; [exact V|]. split; [|by split].
    rewrite drop_ge; [done|]. rewrite length_take. cbn [List.length] in Hk. lia.
  - pose proof (buffers_nodup _ _ _ (sv_buffers _ _ _ _ _ _ _ V)) as [_ Nu]. apply NoDup_app in Nu as (_ & _ & Nu).
    apply NoDup_app in Nu as (Nu & _ & _).
    destruct (step_walk (w_objs w) js1 (j :: js2) wk El Nu Wk) as (wk' & R & Wk').
    erewrite cmd_bind_ret by (apply on_objs_ret; exact R). rewrite with_objs_same. cbv beta iota.
    pose proof (buffer_at_pos j). rewrite (proj2 (Z.eqb_neq (buffer_at j) NULL)) by (unfold NULL; lia).
    step_by (rd_server w S). cbv zeta. rewrite (u32_small (length - u)) by (unfold is_u32; lia).
    set (n := Z.min (d_buffer_size d) (length - u)). assert (Hn : 0 <= n <= length - u /\ n <= d_buffer_size d) by lia.
    apply Forall_cons in Bl as [Bj Bl]. set (l := take (Z.to_nat n) (drop (Z.to_nat u) chunk)).
    assert (Ln : zlen l = n) by (unfold l, zlen in *; rewrite length_take, length_drop; lia).
    assert (Hr : room (empty_buffer (buffer_at j)) = d_buffer_size d) by (unfold room; simpl; change (zlen []) with 0; lia).
    assert (Sl : slice (drop (Z.to_nat u) chunk) 0 (zlen l) = Some l).
    { rewrite <-(take_drop (Z.to_nat n) (drop (Z.to_nat u) chunk)) at 1. fold l. apply slice_prefix. }
    pose proof (string_memcpy_run _ _ _ _ Bj (empty_text _) eq_refl _ l Sl ltac:(lia)) as Rm. rewrite Ln in Rm.
    erewrite cmd_bind_ret by (apply on_objs_ret; exact Rm). set (o1 := set_strings _ (w_objs w)).
    rewrite (u32_small (u + n)) by (unfold is_u32; lia).
    assert (V1 : serving o1 free used ids ts ((js1 ++ [j]) ++ js2) ((us1 ++ [l]) ++ (const [] <$> js2))).
    { rewrite <-!(assoc_L (++)). apply (serving_fill (w_objs w) o1 j _ _ _ _ _ _ _ _ l false V Len Bj); [lia|done]. }
    assert (Bl1 : Forall (blank o1) js2).
    { apply list.Forall_forall. intros k Hk'. pose proof (proj1 (list.Forall_forall _ _) Bl k Hk') as Bk. unfold blank, o1. cbn.
      rewrite lookup_insert_ne; [exact Bk|]. intros E%buffer_at_inj. subst k.
      apply NoDup_app in Nu as (_ & _ & Nu). by apply NoDup_cons in Nu as [Nu _]. }
    destruct (IH (with_objs o1 w) free used ids ts (js1 ++ [j]) (us1 ++ [l]) wk' chunk length (u + n) fuel)
      as (o & us2 & Ro & Vo & Co & Fo & Lo); try done; try lia.
    { by rewrite !length_app, Len. }
    { cbn. by rewrite <-(assoc_L (++)). }
    { cbn [List.length] in Hk. lia. }
    { cbn [List.length] in Hf. lia. }
    exists o, (l :: us2). split; [exact Ro|]. rewrite <-!(assoc_L (++)) in Vo. rewrite <-(assoc_L (++)) in Lo.
    split; [exact Vo|]. split; [|split; [exact Fo|exact Lo]]. cbn [concat]. rewrite Co. unfold l.
    rewrite Z2Nat.inj_add, <-drop_drop by lia. rewrite <-(take_drop (Z.to_nat n) (drop (Z.to_nat u) (take (Z.to_nat length) chunk))) at 2.
    f_equal. rewrite skipn_firstn_comm, take_take. f_equal. lia.
Qed.

Lemma list_fuel_run w l xs : o_lists (w_objs w) !! l = Some xs -> list_fuel (B := B) l w = Ret (S (length xs), w).
Proof using. intros E. unfold list_fuel. erewrite cmd_bind_ret by (apply on_objs_ret, list_at_ret; exact E). by rewrite with_objs_same. Qed.

Lemma is_empty_run w l xs :
  o_lists (w_objs w) !! l = Some xs -> on_objs (list_is_empty l) w = Ret (bool_decide (xs = []), w).
Proof using.
  intros E. rewrite (on_objs_ret (list_is_empty l) w (bool_decide (xs = [])) (w_objs w)); [by rewrite with_objs_same|].
  unfold list_is_empty. by rewrite (cmd_bind_ret _ _ _ _ _ (list_at_ret _ _ _ E)).
Qed.

(** The first buffer of the list that is a local variable moves to the end of the queue. *)
Lemma move_one o j free used ids ts js us u :
  serving o free used ids ts (j :: js) (u :: us) -> o_lists o !! buffer_list_ptr = Some (buffer_at <$> (j :: js)) ->
  let o1 := set_lists <[buffer_list_ptr := buffer_at <$> js]> o in
  let o2 := set_lists <[OUT := (buffer_at <$> ids) ++ [buffer_at j]]> o1 in
  list_push OUT (buffer_at j) o1 = Ret (tt, o2) /\ serving o2 free used (ids ++ [j]) (ts ++ [u]) js us /\
  o_lists o2 !! buffer_list_ptr = Some (buffer_at <$> js).
Proof using P.
  intros [Bf Eo El Lk Tx Mo] Ej o1 o2. destruct (pl_lists P) as [P1 P2].
  pose proof (buffers_nodup _ _ _ Bf) as [_ Nu]. apply NoDup_app in Nu as (_ & N1 & N2).
  cbn [app] in N2. apply NoDup_cons in N2 as [N2 _].
  assert (Nf : j ∉ free) by (intros Hc; apply (buffers_disjoint _ _ _ j Bf Hc); set_solver).
  inversion Mo as [|? ? ? ? Hj Mo']; subst. split; [|split].
  - apply list_push_ret; [simpl; by rewrite lookup_insert_ne|]. intros k xs Ek Hx. simpl in Ek.
    destruct (decide (k = buffer_list_ptr)) as [->|Hk].
    + rewrite lookup_insert_eq in Ek. injection Ek as <-. apply list_elem_of_fmap in Hx as (i & Ei & Hi).
      apply buffer_at_inj in Ei as <-. set_solver.
    + rewrite lookup_insert_ne in Ek by done. destruct (Lk k xs j Ek Hx ltac:(set_solver)) as [[_ Hi]|[? _]]; [|done].
      apply (N1 j Hi). set_solver.
  - split; simpl.
    + destruct Bf as [(p & Ep & W & L & Q0 & Q1 & St)]. constructor. exists p. split_and!; try done. rewrite Q1. solve_Permutation.
    + rewrite lookup_insert_eq. by rewrite fmap_app.
    + rewrite lookup_insert_ne, lookup_insert_eq by done. done.
    + intros k xs i Ek Hx Hi. destruct (decide (k = OUT)) as [->|Hk].
      * left. split; [done|]. rewrite lookup_insert_eq in Ek. injection Ek as <-.
        apply elem_of_app in Hx as [Hx|Hx%list_elem_of_singleton]; [|apply buffer_at_inj in Hx as ->; set_solver].
        apply list_elem_of_fmap in Hx as (k & Ek & Hk). apply buffer_at_inj in Ek as ->. set_solver.
      * rewrite lookup_insert_ne in Ek by done. destruct (decide (k = buffer_list_ptr)) as [->|Hk'].
        { right. split; [done|]. rewrite lookup_insert_eq in Ek. injection Ek as <-.
          apply list_elem_of_fmap in Hx as (i' & Ei & Hi'). by apply buffer_at_inj in Ei as ->. }
        rewrite lookup_insert_ne in Ek by done. destruct (Lk k xs i Ek Hx ltac:(set_solver)) as [[? _]|[? _]]; done.
    + apply Forall2_app; [exact Tx|]. constructor; [exact Hj|constructor].
    + exact Mo'.
  - simpl. rewrite lookup_insert_ne, lookup_insert_eq by done. done.
Qed.

Lemma move_run js : forall w free used ids ts us fuel,
  serving (w_objs w) free used ids ts js us -> o_lists (w_objs w) !! buffer_list_ptr = Some (buffer_at <$> js) ->
  (length js < fuel)%nat ->
  exists o, move_loop fuel buffer_list_ptr OUT w = Ret (tt, with_objs o w) /\ serving o free used (ids ++ js) (ts ++ us) [] [] /\
    frame (w_objs w) o /\ o_lists o !! buffer_list_ptr = Some [].
Proof using P.
  induction js as [|j js IH]; intros w free used ids ts us fuel V El Hf; (destruct fuel as [|fuel]; [simpl in Hf; lia|]);
    cbn [move_loop]; step_by (is_empty_run w buffer_list_ptr _ El).
  - exists (w_objs w). rewrite bool_decide_true, with_objs_same by done. pose proof (sv_more _ _ _ _ _ _ _ V) as M.
    inversion M; subst. rewrite !app_nil_r. by split_and!.
  - rewrite bool_decide_false by done. pose proof (sv_more _ _ _ _ _ _ _ V) as M. inversion M as [|? u ? us' Hj M']; subst.
    destruct (move_one _ j free used ids ts js us' u V El) as (R & V' & El').
    erewrite cmd_bind_ret by (apply on_objs_ret, list_shift_ret; exact El).
    set (w1 := with_objs _ w). match type of V' with serving ?o _ _ _ _ _ _ => set (o2 := o) in * end.
    rewrite (cmd_bind_ret _ _ w1 tt (with_objs o2 w)); [|etransitivity; [apply (on_objs_ret _ w1 tt o2); exact R|done]].
    destruct (IH (with_objs o2 w) free used (ids ++ [j]) (ts ++ [u]) us' fuel V' El') as (o & Ro & Vo & Fo & Lo); [simpl in Hf; lia|].
    exists o. rewrite <-!(assoc_L (++)) in Vo. split; [exact Ro|]. split; [exact Vo|]. split; [|exact Lo].
    etransitivity; [|exact Fo]. transitivity (set_lists <[buffer_list_ptr := buffer_at <$> js]> (w_objs w)); apply frame_lists.
Qed.

Lemma shift_run js : forall w free used ids ts us fuel,
  serving (w_objs w) free used ids ts js us -> o_lists (w_objs w) !! buffer_list_ptr = Some (buffer_at <$> js) ->
  (length js < fuel)%nat ->
  exists o, shift_loop fuel buffer_list_ptr OUT w = Ret (tt, with_objs o w) /\ serving o free used (ids ++ js) (ts ++ us) [] [] /\
    frame (w_objs w) o /\ o_lists o !! buffer_list_ptr = Some [].
Proof using P.
  induction js as [|j js IH]; intros w free used ids ts us fuel V El Hf; (destruct fuel as [|fuel]; [simpl in Hf; lia|]); cbn [shift_loop].
  - erewrite cmd_bind_ret by (apply on_objs_ret; unfold list_shift; rewrite (cmd_bind_ret _ _ _ _ _ (list_at_ret _ _ _ El)); reflexivity).
    rewrite with_objs_same, Z.eqb_refl. exists (w_objs w). rewrite with_objs_same. pose proof (sv_more _ _ _ _ _ _ _ V) as M.
    inversion M; subst. rewrite !app_nil_r. by split_and!.
  - pose proof (sv_more _ _ _ _ _ _ _ V) as M. inversion M as [|? u ? us' Hj M']; subst.
    destruct (move_one _ j free used ids ts js us' u V El) as (R & V' & El').
    erewrite cmd_bind_ret by (apply on_objs_ret, list_shift_ret; exact El).
    pose proof (buffer_at_pos j). rewrite (proj2 (Z.eqb_neq (buffer_at j) NULL)) by (unfold NULL; lia).
    set (w1 := with_objs _ w). match type of V' with serving ?o _ _ _ _ _ _ => set (o2 := o) in * end.
    rewrite (cmd_bind_ret _ _ w1 tt (with_objs o2 w)); [|etransitivity; [apply (on_objs_ret _ w1 tt o2); exact R|done]].
    destruct (IH (with_objs o2 w) free used (ids ++ [j]) (ts ++ [u]) us' fuel V' El') as (o & Ro & Vo & Fo & Lo); [simpl in Hf; lia|].
    exists o. rewrite <-!(assoc_L (++)) in Vo. split; [exact Ro|]. split; [exact Vo|]. split; [|exact Lo].
    etransitivity; [|exact Fo]. transitivity (set_lists <[buffer_list_ptr := buffer_at <$> js]> (w_objs w)); apply frame_lists.
Qed.

(** The bytes of a chunk: of a given length, or up to its NUL. *)
Definition chunk_text (chunk : list Z) (length : Z) : option (list Z) :=
  if length =? 0 then cstring chunk else slice chunk 0 length.

Lemma chunk_text_ok chunk length data :
  chunk_text chunk length = Some data -> zlen data < 2147483648 ->
  (if length =? 0 then n ← lift (load (strlen chunk)); mret (u32 n) else mret length : cmd (world (httpd B)) Z) = mret (zlen data) /\
  take (Z.to_nat (zlen data)) chunk = data /\ zlen data <= zlen chunk.
Proof using.
  unfold chunk_text. intros E Hl. pose proof (zlen_nonneg data). destruct (length =? 0) eqn:L0.
  - unfold strlen. rewrite E. cbn [fmap option_fmap option_map load]. destruct (cstring_inv _ _ E) as (t & -> & _).
    split; [unfold mbind, cmd_bind, lift, mret, cmd_ret; rewrite u32_small by (unfold is_u32; lia); done|].
    rewrite take_app_le, take_zlen by (unfold zlen; lia). split; [done|]. rewrite zlen_app. pose proof (zlen_nonneg (0 :: t)). lia.
  - pose proof (slice_length _ _ _ _ E) as Ln. split; [by rewrite Ln|]. rewrite Ln.
    unfold slice in E. destruct ((0 <=? 0) && (0 <=? length) && (0 + length <=? zlen chunk)) eqn:G; [|done]. injection E as <-.
    split; [done|lia].
Qed.

Lemma serving_construct o free used ids ts :
  serving o free used ids ts [] [] -> serving (set_lists <[buffer_list_ptr := []]> o) free used ids ts [] [].
Proof using P.
  intros [Bf Eo El Lk Tx Mo]. destruct (pl_lists P) as [P1 P2]. split; try done; simpl.
  - by destruct Bf as [Bf]; constructor.
  - by rewrite lookup_insert_ne.
  - by rewrite lookup_insert_eq.
  - intros k xs i Ek Hx Hi. destruct (decide (k = buffer_list_ptr)) as [->|Hk].
    + rewrite lookup_insert_eq in Ek. injection Ek as <-. by apply elem_of_nil in Hx.
    + rewrite lookup_insert_ne in Ek by done. by apply (Lk k xs).
Qed.

(** The data are in new buffers, or every free buffer was taken and there were not enough. *)
Lemma copy_data_run w q free used ids ts chunk length data :
  h_servers (w_app w) !! self = Some d -> h_requests (w_app w) !! request = Some q -> q_server q = self ->
  serving (w_objs w) free used ids ts [] [] -> o_lists (w_objs w) !! buffer_list_ptr = Some [] ->
  chunk_text chunk length = Some data -> zlen data < 2147483648 ->
  exists o new free' us result,
    sxe_httpd_copy_data_to_buffer_list request buffer_list_ptr chunk length w = Ret (result, with_objs o w) /\
    free = new ++ free' /\ serving o free' used ids ts new us /\ o_lists o !! buffer_list_ptr = Some (buffer_at <$> new) /\
    frame (w_objs w) o /\
    let k := Z.of_nat (List.length new) * d_buffer_size d in
    (result = SXE_RETURN_OK /\ concat us = data /\ zlen data <= k < zlen data + d_buffer_size d) \/
    (result = SXE_RETURN_NO_UNUSED_ELEMENTS /\ free' = [] /\ k < zlen data).
Proof using P.
  intros S Q Qs V El Hc Hmax. destruct (chunk_text_ok chunk length data Hc Hmax) as (En & Et & Hle). pose proof (zlen_nonneg data).
  unfold sxe_httpd_copy_data_to_buffer_list. step_by (rd_req w request q Q). cbv zeta. rewrite Qs, En. pose proof (pl_size P).
  step_by (eq_refl : (mret (zlen data) : cmd (world (httpd B)) Z) w = Ret (zlen data, w)). step_by (rd_server w S).
  destruct (grab_run (Datatypes.S (Z.to_nat (zlen data))) w free used ids ts [] [] (zlen data) 0 S V El)
    as (o & new & free' & enough & R & Ef & V' & Bl & _ & El' & F & K); [lia..|]. step_by R. cbn [app] in *. cbv zeta in K.
  rewrite Z.add_0_l in K. destruct enough.
  - cbn [with_objs w_objs] in *. step_by (list_fuel_run (with_objs o w) _ _ El').
    destruct (copy_run new (with_objs o w) free' used ids ts [] [] (mk_walker buffer_list_ptr buffer_list_ptr buffer_list_ptr) chunk (zlen data) 0
      (Datatypes.S (List.length (buffer_at <$> new)))) as (o' & us & Rc & Vc & Cc & Fc & Lc); try done; try lia.
    { rewrite length_fmap. lia. }
    step_by Rc. cbn [app] in *. exists o', new, free', us, SXE_RETURN_OK. split; [done|]. split; [done|]. split; [exact Vc|].
    split; [exact Lc|]. split; [etransitivity; [exact F|exact Fc]|]. left. split; [done|]. rewrite Cc, Et. by split.
  - destruct K as [-> K]. eexists o, new, [], _, SXE_RETURN_NO_UNUSED_ELEMENTS. split; [done|]. split; [done|]. split; [exact V'|].
    split; [exact El'|]. split; [done|]. by right.
Qed.

(** An operation changed nothing that can be seen but the order of the free buffers. *)
Definition unchanged w q (free used ids : list nat) (ts : list (list Z)) (result : SXE_RETURN) (m : cmd (world (httpd B)) SXE_RETURN) : Prop :=
  exists o free', m w = Ret (result, stand o q w) /\ free' ≡ₚ free /\ serving o free' used ids ts [] [] /\ frame (w_objs w) o.

(** The buffers that so many bytes need. *)
Definition pieces (n : Z) : nat := Z.to_nat ((n + d_buffer_size d - 1) / d_buffer_size d).

Lemma pieces_spec n k : 0 <= n -> n <= Z.of_nat k * d_buffer_size d < n + d_buffer_size d -> k = pieces n.
Proof using P.
  intros Hn Hk. pose proof (pl_size P). unfold pieces.
  rewrite <-(Z.div_unique_pos _ (d_buffer_size d) (Z.of_nat k) (n + d_buffer_size d - 1 - Z.of_nat k * d_buffer_size d)) by lia. lia.
Qed.

Lemma pieces_more n k : 0 <= n -> Z.of_nat k * d_buffer_size d < n -> (k < pieces n)%nat.
Proof using P.
  intros Hn Hk. pose proof (pl_size P). unfold pieces. apply Nat2Z.inj_lt. rewrite Z2Nat.id by (apply Z.div_pos; lia).
  apply Z.lt_le_trans with (Z.of_nat k + 1); [lia|]. apply Z.div_le_lower_bound; lia.
Qed.

Lemma stand_stand o o' q q' w : stand o' q' (stand o q w) = stand o' q' w.
Proof using. unfold stand. simpl. by rewrite insert_insert_eq. Qed.
Lemma stand_server o q w : h_servers (w_app (stand o q w)) = h_servers (w_app w).
Proof using. done. Qed.
Lemma stand_request o q w : h_requests (w_app (stand o q w)) !! request = Some q.
Proof using. apply lookup_insert_eq. Qed.

(** Queueing data from new buffers: all of it, or nothing. *)
Lemma copied_back w q free used ids ts new free' us o :
  h_servers (w_app w) !! self = Some d -> h_requests (w_app w) !! request = Some q ->
  serving o free' used ids ts new us -> o_lists o !! buffer_list_ptr = Some (buffer_at <$> new) -> free = new ++ free' ->
  frame (w_objs w) o ->
  exists o', sxe_httpd_give_buffers self buffer_list_ptr (with_objs o w) = Ret (tt, stand o' q w) /\
    serving o' (free' ++ new) used ids ts [] [] /\ free' ++ new ≡ₚ free /\ frame (w_objs w) o'.
Proof using P.
  intros S Q V El -> F. destruct (give_local_run (with_objs o w) free' used ids ts new us S El V) as (o' & R & V' & F' & _).
  exists o'. rewrite R. split; [by rewrite <-(stand_objs o' q)|]. split; [done|]. split; [solve_Permutation|].
  etransitivity; [exact F|exact F'].
Qed.

(** The end of the headers is queued, unless it was. *)
Lemma eoh_unless_run w q free used ids ts js us :
  h_servers (w_app w) !! self = Some d -> h_requests (w_app w) !! request = Some q -> q_server q = self ->
  serving (w_objs w) free used ids ts js us ->
  let m := if negb (q_out_eoh q) then sxe_httpd_response_eoh request else mret SXE_RETURN_OK in
  appended w q free used ids ts js us (if q_out_eoh q then [] else CRLF) (if q_out_eoh q then 0 else 1) (set_q_out_eoh true) SXE_RETURN_OK m \/
  q_out_eoh q = false /\ refused w free m.
Proof using P.
  intros S Q Qs V. destruct (q_out_eoh q) eqn:Oe; cbn [negb].
  - left. assert (set_q_out_eoh true q = q) as Eq by (destruct q; simpl in *; by subst).
    exists (w_objs w), free, ids, ts. rewrite Eq, <-stand_objs, with_objs_same by done. rewrite app_nil_r. split_and!; try done. lia.
  - destruct (eoh_run w q free used ids ts js us S Q Qs V); auto.
Qed.

Lemma copy_body_run w q free used ids ts chunk length data :
  h_servers (w_app w) !! self = Some d -> h_requests (w_app w) !! request = Some q -> q_server q = self ->
  serving (w_objs w) free used ids ts [] [] -> q_out_started q = true ->
  chunk_text chunk length = Some data -> zlen data < 2147483648 ->
  let cost := (pieces (zlen data) + if q_out_eoh q then 0 else 1)%nat in
  appended w q free used ids ts [] [] ((if q_out_eoh q then [] else CRLF) ++ data) cost (set_q_out_eoh true) SXE_RETURN_OK
    (sxe_httpd_response_copy_body_data request chunk length) \/
  (List.length free < cost)%nat /\
  unchanged w q free used ids ts SXE_RETURN_NO_UNUSED_ELEMENTS (sxe_httpd_response_copy_body_data request chunk length).
Proof using P.
  intros S Q Qs V Os Hc Hmax cost. pose proof (zlen_nonneg data). unfold unchanged, sxe_httpd_response_copy_body_data.
  unfold appended at 1. step_by (rd_req w request q Q). rewrite Os. erewrite cmd_bind_ret by (apply lift_assert6; done).
  unfold list_construct, put_list. erewrite cmd_bind_ret by (apply on_objs_ret; reflexivity). rewrite Qs.
  set (w1 := with_objs _ w). pose proof (serving_construct _ _ _ _ _ V) as V1.
  destruct (copy_data_run w1 q free used ids ts chunk length data S Q Qs V1 (lookup_insert_eq _ _ _) Hc Hmax)
    as (o & new & free' & us & result & R & Ef & V2 & El & F & K). step_by R. change (with_objs o w1) with (with_objs o w).
  assert (F1 : frame (w_objs w) o) by (etransitivity; [apply frame_lists|exact F]).
  destruct K as [(-> & Cu & K)|(-> & -> & K)].
  2: { right. assert (Lf : List.length free = List.length new) by (rewrite Ef, length_app; simpl; lia).
    split; [rewrite Lf; pose proof (pieces_more _ _ (zlen_nonneg data) K); unfold cost; lia|]. rewrite bool_decide_false by done.
    step_by (eq_refl : (mret SXE_RETURN_NO_UNUSED_ELEMENTS : cmd (world (httpd B)) SXE_RETURN) (with_objs o w) = Ret (SXE_RETURN_NO_UNUSED_ELEMENTS, with_objs o w)).
    destruct (copied_back w q free used ids ts new [] us o S Q V2 El Ef F1) as (o' & R' & V' & Pf & F'). step_by R'. by exists o', ([] ++ new). }
  apply pieces_spec in K; [|done]. rewrite bool_decide_true by done.
  destruct (eoh_unless_run (with_objs o w) q free' used ids ts new us S Q Qs V2) as [E|(Oe & -> & E)].
  - left. destruct E as (o1 & free1 & ids1 & ts1 & E & V3 & C3 & P3 & L3 & F3). unfold mbind at 1, cmd_bind at 1. step_by E. rewrite bool_decide_true by done.
    change (stand o1 (set_q_out_eoh true q) (with_objs o w)) with (stand o1 (set_q_out_eoh true q) w).
    assert (El3 : o_lists o1 !! buffer_list_ptr = Some (buffer_at <$> new)).
    { destruct (proj2 F3 buffer_list_ptr (mk_is_Some _ _ El)) as [xs Ex]. pose proof (sv_local _ _ _ _ _ _ _ V3) as Lx. rewrite Ex in Lx. simpl in Lx. by subst xs. }
    set (w3 := stand o1 _ w). step_by (list_fuel_run w3 _ _ El3).
    destruct (move_run new w3 free1 used ids1 ts1 us (Datatypes.S (List.length (buffer_at <$> new))) V3 El3) as (o4 & R4 & V4 & F4 & El4);
      [rewrite length_fmap; lia|]. step_by R4.
    destruct (give_local_run (with_objs o4 w3) free1 used (ids1 ++ new) (ts1 ++ us) [] [] S El4 V4) as (o5 & R5 & V5 & F5 & _).
    unfold mret at 1, cmd_ret at 1. cbv beta iota. step_by R5. exists o5, free1, (ids1 ++ new), (ts1 ++ us). rewrite app_nil_r in V5. split; [done|]. split; [exact V5|].
    rewrite !concat_app, C3, Cu, (assoc_L (++)). split; [done|]. split; [|split].
    + rewrite Ef. rewrite (assoc_L (++)), P3. solve_Permutation.
    + rewrite Ef, length_app, K. unfold cost. lia.
    + etransitivity; [exact F1|]. etransitivity; [exact F3|]. etransitivity; [exact F4|exact F5].
  - right. split; [rewrite Ef, length_app, K; unfold cost; rewrite Oe; simpl; lia|]. unfold mbind at 1, cmd_bind at 1. step_by E. rewrite bool_decide_false by done.
    unfold mret at 1, cmd_ret at 1. cbv beta iota.
    destruct (copied_back w q free used ids ts new [] us o S Q V2 El Ef F1) as (o' & R' & V' & Pf & F'). step_by R'. by exists o', ([] ++ new).
Qed.

Lemma copy_raw_run w q free used ids ts chunk length data :
  h_servers (w_app w) !! self = Some d -> h_requests (w_app w) !! request = Some q -> q_server q = self ->
  serving (w_objs w) free used ids ts [] [] -> chunk_text chunk length = Some data -> zlen data < 2147483648 ->
  appended w q free used ids ts [] [] data (pieces (zlen data)) (set_q_out_eoh true) SXE_RETURN_OK
    (sxe_httpd_response_copy_raw_data request chunk length) \/
  (List.length free < pieces (zlen data))%nat /\
  unchanged w q free used ids ts SXE_RETURN_NO_UNUSED_ELEMENTS (sxe_httpd_response_copy_raw_data request chunk length).
Proof using P.
  intros S Q Qs V Hc Hmax. pose proof (zlen_nonneg data). unfold unchanged, sxe_httpd_response_copy_raw_data.
  unfold appended at 1. step_by (rd_req w request q Q).
  unfold list_construct, put_list. erewrite cmd_bind_ret by (apply on_objs_ret; reflexivity). rewrite Qs.
  set (w1 := with_objs _ w). pose proof (serving_construct _ _ _ _ _ V) as V1.
  destruct (copy_data_run w1 q free used ids ts chunk length data S Q Qs V1 (lookup_insert_eq _ _ _) Hc Hmax)
    as (o & new & free' & us & result & R & Ef & V2 & El & F & K). step_by R. change (with_objs o w1) with (with_objs o w).
  assert (F1 : frame (w_objs w) o) by (etransitivity; [apply frame_lists|exact F]).
  destruct K as [(-> & Cu & K)|(-> & -> & K)].
  2: { right. assert (Lf : List.length free = List.length new) by (rewrite Ef, length_app; simpl; lia).
    split; [rewrite Lf; by apply pieces_more|]. rewrite bool_decide_false by done.
    step_by (eq_refl : (mret tt : cmd (world (httpd B)) unit) (with_objs o w) = Ret (tt, with_objs o w)).
    destruct (copied_back w q free used ids ts new [] us o S Q V2 El Ef F1) as (o' & R' & V' & Pf & F'). step_by R'. by exists o', ([] ++ new). }
  apply pieces_spec in K; [|done]. rewrite bool_decide_true by done. left. unfold mbind at 1, cmd_bind at 1.
  step_by (list_fuel_run (with_objs o w) _ _ El).
  destruct (shift_run new (with_objs o w) free' used ids ts us (Datatypes.S (List.length (buffer_at <$> new))) V2 El) as (o4 & R4 & V4 & F4 & El4);
    [rewrite length_fmap; lia|]. step_by R4. rewrite (upd_req (with_objs o4 (with_objs o w)) q (set_q_out_eoh true) Q). cbv beta iota.
  set (w4 := stand _ _ _).
  destruct (give_local_run w4 free' used (ids ++ new) (ts ++ us) [] [] S El4 V4) as (o5 & R5 & V5 & F5 & _).
  step_by R5. exists o5, free', (ids ++ new), (ts ++ us). rewrite app_nil_r in V5. split; [done|]. split; [exact V5|].
  rewrite concat_app, Cu. split; [done|]. split; [rewrite Ef; solve_Permutation|]. split; [rewrite Ef, length_app, K; lia|].
  etransitivity; [exact F1|]. etransitivity; [exact F4|exact F5].
Qed.

(** ** Building a response *)

Inductive response_op :=
| Start (code : Z) (status : list Z)
| Header (header value : list Z) (length : Z)
| Content_length (length : Z)
| Copy_body (chunk : list Z) (length : Z)
| Copy_raw (chunk : list Z) (length : Z).

Definition run_response_op (op : response_op) : cmd (world (httpd B)) SXE_RETURN :=
  match op with
  | Start code status => sxe_httpd_response_start request code status
  | Header header value length => sxe_httpd_response_header request header value length
  | Content_length length => sxe_httpd_response_content_length request length
  | Copy_body chunk length => sxe_httpd_response_copy_body_data request chunk length
  | Copy_raw chunk length => sxe_httpd_response_copy_raw_data request chunk length
  end.
Fixpoint run_response (ops : list response_op) : cmd (world (httpd B)) (list SXE_RETURN) :=
  match ops with [] => mret [] | op :: ops => r ← run_response_op op; rs ← run_response ops; mret (r :: rs) end.

(** What a call adds to the text, given whether the headers have ended; and whether they have afterwards. *)
Definition op_text (eoh : bool) (op : response_op) : option (list Z) :=
  match op with
  | Start code status => status_line code <$> cstring status
  | Header header value length => h ← cstring header; v ← value_text value length; Some (header_line h v)
  | Content_length length => Some (content_length_line length)
  | Copy_body chunk length => (fun data => (if eoh then [] else CRLF) ++ data) <$> chunk_text chunk length
  | Copy_raw chunk length => chunk_text chunk length
  end.
Definition op_flags (op : response_op) (q : SXE_HTTPD_REQUEST) : SXE_HTTPD_REQUEST :=
  match op with
  | Start _ _ => set_q_out_started true q
  | Header _ _ _ | Content_length _ => q
  | Copy_body _ _ | Copy_raw _ _ => set_q_out_eoh true q
  end.

(** The calls follow the protocol: a response is started before anything is added to it, headers come before the end
    of the headers, and a line fits a buffer. *)
Definition op_fits (q : SXE_HTTPD_REQUEST) (op : response_op) : Prop :=
  match op with
  | Start code status => exists s, cstring status = Some s /\ zlen (status_line code s) < d_buffer_size d
  | Header header value length => q_out_started q = true /\ q_out_eoh q = false /\ 0 <= length < 2147483648 /\
      exists h v, cstring header = Some h /\ value_text value length = Some v /\ zlen (header_line h v) < d_buffer_size d
  | Content_length _ => q_out_started q = true /\ q_out_eoh q = false
  | Copy_body chunk length => q_out_started q = true /\ exists data, chunk_text chunk length = Some data /\ zlen data < 2147483648
  | Copy_raw chunk length => exists data, chunk_text chunk length = Some data /\ zlen data < 2147483648
  end.

(** The buffers that a call may need. *)
Definition op_cost (eoh : bool) (op : response_op) : nat :=
  match op with
  | Start _ _ | Header _ _ _ | Content_length _ => 1
  | Copy_body chunk length => pieces (zlen (default [] (chunk_text chunk length))) + if eoh then 0 else 1
  | Copy_raw chunk length => pieces (zlen (default [] (chunk_text chunk length)))
  end.

Lemma response_op_run op w q free used ids ts :
  h_servers (w_app w) !! self = Some d -> h_requests (w_app w) !! request = Some q -> q_server q = self ->
  serving (w_objs w) free used ids ts [] [] -> op_fits q op -> (op_cost (q_out_eoh q) op <= length free)%nat ->
  exists text, op_text (q_out_eoh q) op = Some text /\
    appended w q free used ids ts [] [] text (op_cost (q_out_eoh q) op) (op_flags op) SXE_RETURN_OK (run_response_op op).
Proof using P.
  intros S Q Qs V Fit Cost. destruct op as [code status|header value length|length|chunk length|chunk length];
    cbn [op_text op_fits op_cost op_flags run_response_op] in *.
  - destruct Fit as (s & Es & Ls). rewrite Es. eexists. split; [done|]. destruct free as [|i free]; [simpl in Cost; lia|].
    by apply start_run.
  - destruct Fit as (Os & Oe & Hl & h & v & Eh & Ev & Ll). rewrite Eh. cbn [mbind option_bind]. rewrite Ev. eexists. split; [done|].
    destruct (response_header_run w q free used ids ts header h value length v S Q Qs V Os Oe Eh Ev Hl Ll) as [A|[-> _]]; [exact A|simpl in Cost; lia].
  - destruct Fit as (Os & Oe). eexists. split; [done|].
    destruct (content_length_run w q free used ids ts length S Q Qs V Os Oe) as [A|[-> _]]; [exact A|simpl in Cost; lia].
  - destruct Fit as (Os & data & Ed & Ld). rewrite Ed in *. cbn [fmap option_fmap option_map default] in *. eexists. split; [done|].
    destruct (copy_body_run w q free used ids ts chunk length data S Q Qs V Os Ed Ld) as [A|[A _]]; [exact A|cbn in *; lia].
  - destruct Fit as (data & Ed & Ld). rewrite Ed in *. cbn [default] in *. eexists. split; [done|].
    destruct (copy_raw_run w q free used ids ts chunk length data S Q Qs V Ed Ld) as [A|[A _]]; [exact A|cbn in *; lia].
Qed.

(** What calls that follow each other add to the text, what they make of the request, and what they may need. *)
Fixpoint response_text (q : SXE_HTTPD_REQUEST) (ops : list response_op) : option (list Z) :=
  match ops with
  | [] => Some []
  | op :: ops => t ← op_text (q_out_eoh q) op; ts ← response_text (op_flags op q) ops; Some (t ++ ts)
  end.
Definition response_flags (ops : list response_op) (q : SXE_HTTPD_REQUEST) : SXE_HTTPD_REQUEST := foldl (flip op_flags) q ops.
Fixpoint response_fits (q : SXE_HTTPD_REQUEST) (ops : list response_op) : Prop :=
  match ops with [] => True | op :: ops => op_fits q op /\ response_fits (op_flags op q) ops end.
Fixpoint response_cost (q : SXE_HTTPD_REQUEST) (ops : list response_op) : nat :=
  match ops with [] => 0 | op :: ops => op_cost (q_out_eoh q) op + response_cost (op_flags op q) ops end.

Lemma op_flags_server op q : q_server (op_flags op q) = q_server q.
Proof using. by destruct op. Qed.

Lemma response_run ops : forall w q free used ids ts,
  h_servers (w_app w) !! self = Some d -> h_requests (w_app w) !! request = Some q -> q_server q = self ->
  serving (w_objs w) free used ids ts [] [] -> response_fits q ops -> (response_cost q ops <= length free)%nat ->
  exists text o free' ids' ts', response_text q ops = Some text /\
    run_response ops w = Ret (replicate (length ops) SXE_RETURN_OK, stand o (response_flags ops q) w) /\
    serving o free' used ids' ts' [] [] /\ concat ts' = concat ts ++ text /\ free' ++ ids' ≡ₚ free ++ ids /\ frame (w_objs w) o.
Proof using P.
  induction ops as [|op ops IH]; intros w q free used ids ts S Q Qs V Fit Cost; cbn [response_text run_response length replicate].
  - exists [], (w_objs w), free, ids, ts. rewrite app_nil_r, <-stand_objs, with_objs_same by done. by split_and!.
  - destruct Fit as [Fit Fits]. cbn [response_cost] in Cost.
    destruct (response_op_run op w q free used ids ts S Q Qs V Fit ltac:(lia)) as (text & -> & o & free1 & ids1 & ts1 & R & V1 & C1 & P1 & L1 & F1).
    step_by R. destruct (IH (stand o (op_flags op q) w) (op_flags op q) free1 used ids1 ts1) as
      (text2 & o2 & free2 & ids2 & ts2 & -> & R2 & V2 & C2 & P2 & F2); try done.
    { apply stand_request. } { by rewrite op_flags_server. } { lia. }
    cbn [mbind option_bind]. exists (text ++ text2), o2, free2, ids2, ts2. split; [done|]. step_by R2. rewrite stand_stand.
    split; [done|]. split; [exact V2|]. split; [by rewrite C2, C1, (assoc_L (++))|]. split; [by rewrite P2|].
    etransitivity; [exact F1|exact F2].
Qed.

(** C13: building a response. While the free buffers are enough, calls that follow the protocol (the response is started first,
    headers come before the end of the headers, a line fits a buffer) all succeed, and the texts in the request's queue are together
    what they were and behind it, in order, exactly the text of each call: the status line, each header line,
    the blank line once, and the data, wherever the buffers end. Every buffer of the server stays either free or in a queue. *)
Theorem response_built ops w q free used ids ts :
  h_servers (w_app w) !! self = Some d -> h_requests (w_app w) !! request = Some q -> q_server q = self ->
  serving (w_objs w) free used ids ts [] [] -> response_fits q ops -> (response_cost q ops <= length free)%nat ->
  exists text o free' ids' ts', response_text q ops = Some text /\
    run_response ops w = Ret (replicate (length ops) SXE_RETURN_OK, stand o (response_flags ops q) w) /\
    serving o free' used ids' ts' [] [] /\ concat ts' = concat ts ++ text /\ free' ++ ids' ≡ₚ free ++ ids /\ frame (w_objs w) o.
Proof using P. apply response_run. Qed.

(** C16: copying the body is all or nothing. Whether there are enough buffers or not, the call returns; when it succeeds, the end of the
    headers, if it was not queued yet, and all of the data are at the end of the queue; when it runs out of
    buffers, which it only does if the data and the blank line need more than there are, it says so, and the queue, its text
    and the request are as they were: the buffers that it had taken are free again. *)
Theorem copy_all_or_nothing w q free used ids ts chunk length data :
  h_servers (w_app w) !! self = Some d -> h_requests (w_app w) !! request = Some q -> q_server q = self ->
  serving (w_objs w) free used ids ts [] [] -> q_out_started q = true ->
  chunk_text chunk length = Some data -> zlen data < 2147483648 ->
  exists result o q' free' ids' ts',
    sxe_httpd_response_copy_body_data request chunk length w = Ret (result, stand o q' w) /\
    serving o free' used ids' ts' [] [] /\ free' ++ ids' ≡ₚ free ++ ids /\ frame (w_objs w) o /\
    ((result = SXE_RETURN_OK /\ q' = set_q_out_eoh true q /\ concat ts' = concat ts ++ (if q_out_eoh q then [] else CRLF) ++ data) \/
     (result = SXE_RETURN_NO_UNUSED_ELEMENTS /\ q' = q /\ ids' = ids /\ ts' = ts /\
      (List.length free < pieces (zlen data) + if q_out_eoh q then 0 else 1)%nat)).
Proof using P.
  intros S Q Qs V Os Hc Hmax.
  destruct (copy_body_run w q free used ids ts chunk length data S Q Qs V Os Hc Hmax)
    as [(o & free' & ids' & ts' & R & V' & C & Pm & _ & F)|(Less & o & free' & R & Pm & V' & F)].
  - exists SXE_RETURN_OK, o, (set_q_out_eoh true q), free', ids', ts'. do 4 (split; [done|]). by left.
  - exists SXE_RETURN_NO_UNUSED_ELEMENTS, o, q, free', ids, ts. split; [done|]. split; [done|]. split; [by rewrite Pm|].
    split; [done|]. by right.
Qed.
End Response.
