(* ===== verification/HttpdSend.v ===== *)
(** * HttpdSend: a response is sent (lib-sxe-httpd/sxe-httpd.c)

    The end of a response hands its queue to the event layer, which sends it; when all is sent, or sending fails, the server frees the
    buffers, tells the application, and waits for the next request on the connection. *)

From S2P Require Import Prelude SxeList Pool Buffer HttpMessage Objects Sxe SxeSend SxeConnect Httpd HttpdResponse.

Section Sent.
Context {B : Type} `{Build, Kernel, Layout, HttpdLayout, !Handlers B}.
Context (self request this fd : Z) (i : nat) (d : SXE_HTTPD).
Implicit Types (w : world (httpd B)) (q : SXE_HTTPD_REQUEST) (s : SXE) (o : objects) (k : nat).

Abbreviation OUT := (out_buffer_list request).

(** Where the request is: it is element [i] of the server's pool, and its list is not inside a buffer. *)
Record seated : Prop := {
  se_buffers : placed request d;
  se_struct : 0 < SIZEOF_REQUEST;
  se_at : request = request_at (d_requests d) (Z.of_nat i);
  se_bound : Z.of_nat i < SXE_POOL_NO_INDEX /\ SIZEOF_REQUEST * Z.of_nat i < 18446744073709551616;
  se_pools : d_requests d <> d_buffers d;
  se_list : OUT <> NULL /\ forall j, OUT <> buffer_at d j
}.
Hypothesis P : seated.

Lemma request_index : SXE_HTTPD_REQUEST_INDEX (d_requests d) request = Z.of_nat i.
Proof using P.
  destruct P as [_ Hs -> [Hi Hb] _ _]. change SXE_POOL_NO_INDEX with 4294967295 in Hi. unfold SXE_HTTPD_REQUEST_INDEX, request_at.
  replace (d_requests d + SIZEOF_REQUEST * Z.of_nat i - d_requests d) with (Z.of_nat i * SIZEOF_REQUEST) by lia.
  rewrite u64_small by (unfold is_u64; lia). rewrite Z.div_mul by lia. apply u32_small. unfold is_u32. lia.
Qed.

(** The state of the connection. *)
Record in_state o k : Prop := {
  is_pool : exists p, o_pools o !! d_requests d = Some p /\ pool_wf (sp_abs p) /\ length (queues (sp_abs p)) = 7%nat /\
    i ∈ queue_of (sp_abs p) k
}.

Lemma in_state_frame o o' k : frame d o o' -> in_state o k -> in_state o' k.
Proof using P.
  intros [E _] [(p & Ep & Wp)]. constructor. exists p. split; [|done]. pose proof (se_pools P).
  rewrite <-(lookup_delete_ne _ (d_buffers d)), E, lookup_delete_ne by done. done.
Qed.

(** ** The end of a response *)

(** The handler that the application gave for the end changes the application's state only. *)
Context (on_complete user_data : Z) (told : SXE_RETURN -> B -> B).
Definition with_state (a : B) w : world (httpd B) := with_app (mk_state (h_servers (w_app w)) (h_requests (w_app w)) a) w.
Hypothesis Told : forall result w, app_sent on_complete request result user_data w = Ret (tt, with_state (told result (h_app (w_app w))) w).
Definition after_sent (result : SXE_RETURN) (a : B) : B := if on_complete =? NULL then a else told result a.

Definition cleared_request q : SXE_HTTPD_REQUEST :=
  set_q_paused false (set_q_out_eoh false (set_q_out_started false (set_q_in_content_seen 0 (set_q_in_content_length 0 q)))).
Definition with_handler q : SXE_HTTPD_REQUEST := set_q_on_sent_userdata user_data (set_q_on_sent_handler on_complete q).

(** A request on a connection that the server knows. *)
Record attached w q s : Prop := {
  at_server : h_servers (w_app w) !! self = Some d;
  at_request : h_requests (w_app w) !! request = Some q;
  at_self : q_server q = self;
  at_this : w_sxes w !! this = Some s;
  at_user : s_user_data s = request
}.

(** The response is over: from [w0] to [w]. *)
Record finished (result : SXE_RETURN) w0 q (free used : list nat) w : Prop := {
  fi_servers : h_servers (w_app w) = h_servers (w_app w0);
  fi_requests : h_requests (w_app w) = <[request := cleared_request (with_handler q)]> (h_requests (w_app w0));
  fi_app : h_app (w_app w) = after_sent result (h_app (w_app w0));
  fi_objects : exists free', serving request d (w_objs w) free' used [] [] [] [] /\ free' ≡ₚ free;
  fi_state : in_state (w_objs w) 2
}.

Lemma sent_handler_run w q result :
  h_requests (w_app w) !! request = Some q -> q_on_sent_handler q = on_complete -> q_on_sent_userdata q = user_data ->
  sent_handler request result w = Ret (tt, with_state (after_sent result (h_app (w_app w))) w).
Proof using Told.
  intros Q Hh Hu. unfold sent_handler, after_sent. step_by (rd_req w request q Q). rewrite Hh, Hu.
  destruct (on_complete =? NULL); cbn [negb]; [|by rewrite Told]. destruct w as [? ? ? ? ? []]. done.
Qed.

Lemma same_handler q : q_on_sent_handler q = on_complete -> q_on_sent_userdata q = user_data -> with_handler q = q.
Proof using. intros E1 E2. unfold with_handler. rewrite <-E1, <-E2. by destruct q. Qed.

(** Another queue of the pool of requests does not matter to the buffers. *)
Lemma serving_requests o p free used ids ts :
  serving request d o free used ids ts [] [] -> serving request d (with_pool (d_requests d) p o) free used ids ts [] [].
Proof using P.
  intros [[(r & Er & Wr)] Eo El Lk Tx Mo]. split; try done. constructor. exists r. split; [|done].
  simpl. rewrite lookup_insert_ne; [done|apply (se_pools P)].
Qed.

Lemma clear_request_run w q free used :
  h_requests (w_app w) !! request = Some q -> serving request d (w_objs w) free used [] [] [] [] ->
  sxe_httpd_clear_request request w = Ret (tt, stand request (w_objs w) (cleared_request q) w).
Proof using.
  intros Q [_ Eo _ _ _ _]. unfold sxe_httpd_clear_request. step_by (upd_req request w q cleared_request Q).
  unfold list_construct, put_list. rewrite (on_objs_ret _ _ tt (set_lists <[OUT := []]> (w_objs w))) by done.
  do 2 f_equal. unfold stand, with_objs. simpl. f_equal. unfold set_lists. rewrite insert_id by done. by destruct (w_objs w).
Qed.

Lemma done_run w q s k free used ids result :
  attached w q s -> q_on_sent_handler q = on_complete -> q_on_sent_userdata q = user_data ->
  owning request d (w_objs w) free used ids -> in_state (w_objs w) k -> k <> 0%nat ->
  exists w', sxe_httpd_event_response_done this result w = sxe_buf_resume this SXE_BUF_RESUME_IMMEDIATE w' /\
    w_sxes w' = w_sxes w /\ w_trace w' = w_trace w /\ w_globals w' = w_globals w /\ finished result w q (free ++ ids) used w'.
Proof using P Told.
  intros [S Q Qs T U] Hh Hu Ow St Hk. pose proof (se_buffers P) as Pb.
  unfold sxe_httpd_event_response_done, user_request. unfold mbind at 1, cmd_bind at 1. step_by (rd_sxe_ret w this s T). rewrite U.
  unfold mret at 1, cmd_ret at 1. cbv beta iota. step_by (rd_req w request q Q). rewrite Qs. step_by (rd_server self d w S). cbv zeta.
  rewrite request_index. destruct (give_out_run self request d Pb w free used ids S Ow) as (o & R & V & F). step_by R.
  step_by (sent_handler_run (with_objs o w) q result Q Hh Hu). set (w2 := with_state _ _).
  step_by (clear_request_run w2 q (free ++ ids) used Q V). set (w3 := stand _ _ _ _).
  destruct (in_state_frame (w_objs w) o k F St) as [(p & Ep & Wp & Lp & Ip)]. assert (Ep3 : o_pools (w_objs w3) !! d_requests d = Some p) by done.
  erewrite cmd_bind_ret by (apply on_objs_ret; apply (pool_state_of_ret _ _ _ Ep3 Wp i k Ip)). rewrite with_objs_same.
  replace (Z.of_nat k =? SXE_HTTPD_CONN_FREE) with false by (unfold SXE_HTTPD_CONN_FREE; lia). cbn [negb].
  erewrite cmd_bind_ret by (apply on_objs_ret; apply (pool_set_state_ret _ _ _ Ep3 Wp i k 2 Ip); lia).
  eexists. split; [done|]. do 3 (split; [done|]). split; simpl.
  - done.
  - by rewrite (same_handler q).
  - done.
  - eexists. split; [by apply serving_requests|done].
  - constructor. eexists. split; [apply lookup_insert_eq|]. rewrite spec_move_abs. split; [apply move_wf; [done|done|lia]|].
    rewrite move_length. split; [done|]. apply moved_in. lia.
Qed.

(** *** Sending the queue *)

Lemma queue_sendable o ids ts :
  Forall2 (holds d o) ids ts ->
  Forall (sendable_at (o_strings o)) (buffer_at d <$> ids) /\ unsent (o_strings o) (buffer_at d <$> ids) = concat ts.
Proof using.
  induction 1 as [|j t ids ts (c & Ec & T1 & T2 & _ & T3 & _) _ [IH1 IH2]]; [done|]. cbn [fmap list_fmap concat]. split.
  - constructor; [|done]. exists c. split; [done|]. pose proof (zlen_nonneg t). unfold sendable. rewrite T1, T2. lia.
  - rewrite unsent_cons, IH2. f_equal. unfold rest_at, rest. by rewrite Ec, T2, T1.
Qed.

Lemma queue_nodup o free used ids ts : serving request d o free used ids ts [] [] -> NoDup (OUT :: (buffer_at d <$> ids)) /\ NULL ∉ OUT :: (buffer_at d <$> ids).
Proof using P.
  intros V. pose proof (se_buffers P) as Pb. destruct (se_list P) as [L1 L2].
  pose proof (buffers_nodup _ _ _ _ (sv_buffers _ _ _ _ _ _ _ _ _ V)) as [_ Nu]. apply NoDup_app in Nu as [Nu _]. split.
  - constructor; [intros (j & Ej & _)%list_elem_of_fmap; by apply (L2 j)|].
    apply NoDup_fmap_2_strong; [|done]. intros x y _ _. by apply (buffer_at_inj request d Pb).
  - apply not_elem_of_cons. split; [done|]. intros (j & Ej & _)%list_elem_of_fmap. pose proof (buffer_at_pos request d Pb j).
    unfold NULL in Ej. lia.
Qed.

Context `{!SendLaw H0}.

(** The SXE of the connection can send. *)
Record sender s : Prop := {
  sr_stream : has_flag s SXE_FLAG_IS_STREAM = true;
  sr_socket : s_socket s = fd /\ s_socket_as_fd s = fd /\ 0 <= fd
}.

Definition sent_text q (ts : list (list Z)) : list Z := concat ts ++ if q_out_eoh q then [] else CRLF.

Definition set_ready q : SXE_HTTPD_REQUEST := set_q_out_eoh true (with_handler q).

(** What the end of a response does until its queue is with the event layer. *)
Lemma end_start w q s free used ids ts :
  attached w q s -> q_sxe q = Some this -> sender s -> serving request d (w_objs w) free used ids ts [] [] ->
  (q_out_eoh q = false /\ free = [] /\
     sxe_httpd_response_end request on_complete user_data w = Ret (SXE_RETURN_NO_UNUSED_ELEMENTS, stand request (w_objs w) (with_handler q) w)) \/
  exists o free' ids' ts' s1 result w1,
    serving request d o free' used ids' ts' [] [] /\ concat ts' = sent_text q ts /\ free' ++ ids' ≡ₚ free ++ ids /\ frame d (w_objs w) o /\
    loop_outcome this fd (put this s1 (stand request o (set_ready q) w)) s1 OUT [] (buffer_at d <$> ids') result w1 /\
    s_out_event_written s1 = sxe_httpd_event_response_done_ptr /\ s_user_data s1 = request /\
    sxe_httpd_response_end request on_complete user_data w =
      ((if negb (bool_decide (result = SXE_RETURN_IN_PROGRESS)) then sxe_httpd_event_response_done this result else mret tt);; mret result) w1.
Proof using P SendLaw0.
  intros [S Q Qs T U] Qx [St (Sk & Sf & Hfd)] V. pose proof (se_buffers P) as Pb. set (w1 := stand request (w_objs w) (with_handler q) w).
  assert (Q1 : h_requests (w_app w1) !! request = Some (with_handler q)) by apply stand_request.
  unfold sxe_httpd_response_end. step_by (rd_req w request q Q).
  assert (Rx : request_sxe request w = Ret (this, w)) by (unfold request_sxe; step_by (rd_req w request q Q); by rewrite Qx).
  step_by Rx. step_by (upd_req request w q with_handler Q). fold w1.
  destruct (eoh_unless_run self request d Pb w1 (with_handler q) free used ids ts [] [] S Q1 Qs V) as [A|[Oe [-> R]]].
  2: { left. split; [done|]. split; [done|]. by step_by R. }
  right. destruct A as (o & free' & ids' & ts' & R & V' & C & Pm & _ & F). step_by R. rewrite bool_decide_true by done.
  unfold w1. rewrite stand_stand. set (w2 := stand _ _ _ _).
  destruct (queue_sendable o ids' ts' (sv_texts _ _ _ _ _ _ _ _ _ V')) as [Sd Us]. destruct (queue_nodup _ _ _ _ _ V') as [Nd Nn].
  destruct (send_start_run this fd w2 s OUT (buffer_at d <$> ids') sxe_httpd_event_response_done_ptr T St Sk Sf Hfd (sv_out _ _ _ _ _ _ _ _ _ V') Nd Nn
    ltac:(done) Sd) as [R2 S2].
  set (s1 := set_s_out_event_written _ _) in *. destruct (send_again_run this fd _ _ _ _ _ S2) as (result & w3 & R3 & O).
  exists o, free', ids', ts', s1, result, w3. split; [done|]. split; [done|]. split; [done|]. split; [done|]. split; [exact O|].
  split; [done|]. split; [done|]. rewrite R3 in R2. by step_by R2.
Qed.

(** The queue is over: the world that the event layer left. *)
Lemma end_done w q s k free used free' ids ids' ts' o s1 result w1 s' :
  attached w q s -> in_state (w_objs w) k -> k <> 0%nat -> free' ++ ids' ≡ₚ free ++ ids -> frame d (w_objs w) o ->
  serving request d o free' used ids' ts' [] [] -> s_user_data s1 = request ->
  w_sxes w1 !! this = Some s' -> bystanders w1 s' = bystanders (put this s1 (stand request o (set_ready q) w)) s1 ->
  exists w', sxe_httpd_event_response_done this result w1 = sxe_buf_resume this SXE_BUF_RESUME_IMMEDIATE w' /\
    w_sxes w' = w_sxes w1 /\ w_trace w' = w_trace w1 /\ finished result w q (free ++ ids) used w'.
Proof using P Told.
  intros [S Q Qs T U] St Hk Pm F V U1 T1 By. pose proof (se_buffers P) as Pb. unfold bystanders in By. injection By as Ea _ Ep El Eu _ _ _.
  assert (A1 : attached w1 (set_ready q) s').
  { split; rewrite ?Ea; try done; [exact (stand_request request o (set_ready q) w)|congruence]. }
  assert (Ow : owning request d (w_objs w1) free' used ids').
  { apply (owning_same request d o (w_objs w1)); [done|done|]. by apply (serving_owning request d Pb) with ts'. }
  assert (St1 : in_state (w_objs w1) k).
  { destruct (in_state_frame (w_objs w) o k F St) as [(p & E & Wp)]. constructor. exists p. by rewrite Ep. }
  destruct (done_run w1 (set_ready q) s' k free' used ids' result A1 eq_refl eq_refl Ow St1 Hk) as (w' & R & Es & Et & _ & Fi).
  exists w'. split; [done|]. split; [done|]. split; [done|]. destruct Fi as [F1 F2 F3 (free2 & V2 & Pm2) F5]. split; try done.
  - by rewrite F1, Ea.
  - rewrite F2, Ea. simpl. by rewrite insert_insert_eq.
  - by rewrite F3, Ea.
  - exists free2. split; [done|]. by rewrite Pm2.
Qed.

(** C14: the end of a response. The blank line is queued if it was not, and the queue is sent; every case returns. When all is sent (OK)
    the socket took exactly the response's text, in order; when the socket takes no more for now (IN_PROGRESS) what it took
    and what is unsent are together that text, and the rest goes on when it is writable; when there is an error it took
    the text's beginning. When the sending is over, with or without an error, every buffer of the queue is free again, the application was
    told the result once, the request is cleared, the connection waits for a request, and reading is resumed. When no buffer is left for
    the blank line, nothing is sent, and the queue stays as it is. *)
Theorem response_end_spec w q s k free used ids ts :
  attached w q s -> q_sxe q = Some this -> sender s -> serving request d (w_objs w) free used ids ts [] [] ->
  in_state (w_objs w) k -> k <> 0%nat ->
  exists result w1 t lost, w_trace w1 = w_trace w ++ t /\ delivered fd t ++ lost = sent_text q ts /\
    let finish := sxe_httpd_response_end request on_complete user_data w = (sxe_buf_resume this SXE_BUF_RESUME_IMMEDIATE;; mret result) w1 /\
      finished result w q (free ++ ids) used w1 in
    match result with
    | SXE_RETURN_OK => finish /\ lost = []
    | SXE_RETURN_ERROR_NO_CONNECTION | SXE_RETURN_ERROR_INTERNAL => finish
    | SXE_RETURN_IN_PROGRESS => sxe_httpd_response_end request on_complete user_data w = Ret (result, w1) /\
        exists s' xs' ys', sending this fd w1 s' OUT xs' ys' /\ lost = unsent (o_strings (w_objs w1)) ys' /\
          s_io s' = waiting fd /\ s_out_event_written s' = sxe_httpd_event_response_done_ptr
    | SXE_RETURN_NO_UNUSED_ELEMENTS => sxe_httpd_response_end request on_complete user_data w = Ret (result, w1) /\
        w1 = stand request (w_objs w) (with_handler q) w /\ free = [] /\ q_out_eoh q = false
    | _ => False
    end.
Proof using P Told SendLaw0.
  intros A Qx Sr V St Hk.
  destruct (end_start w q s free used ids ts A Qx Sr V) as [(Oe & -> & R)|
    (o & free' & ids' & ts' & s1 & result & w1 & V' & C & Pm & F & (s' & xs' & ys' & t & Pg & O & _) & Wr & U1 & R)].
  { exists SXE_RETURN_NO_UNUSED_ELEMENTS, (stand request (w_objs w) (with_handler q) w), [], (sent_text q ts). rewrite app_nil_r. by split_and!. }
  pose proof Pg as [P1 P2 P3 P4 P5 P6]. destruct (queue_sendable o ids' ts' (sv_texts _ _ _ _ _ _ _ _ _ V')) as [_ Us].
  assert (Dt : delivered fd t ++ unsent (o_strings (w_objs w1)) ys' = sent_text q ts) by (rewrite P4; cbn; by rewrite Us).
  destruct (end_done w q s k free used free' ids ids' ts' o s1 result w1 s' A St Hk Pm F V' U1 (sd_at _ _ _ _ _ _ _ P1) P6)
    as (w2 & R2 & _ & T2 & Fi).
  assert (Fin : result <> SXE_RETURN_IN_PROGRESS ->
    sxe_httpd_response_end request on_complete user_data w = (sxe_buf_resume this SXE_BUF_RESUME_IMMEDIATE;; mret result) w2).
  { intros N. rewrite R, bool_decide_false by done. cbn [negb]. unfold mbind, cmd_bind. by rewrite R2. }
  destruct (decide (result = SXE_RETURN_IN_PROGRESS)) as [->|N].
  - exists SXE_RETURN_IN_PROGRESS, w1, t, (unsent (o_strings (w_objs w1)) ys'). split; [done|]. split; [done|].
    split; [by rewrite R|]. exists s', xs', ys'. split; [done|]. split; [done|]. split; [done|]. congruence.
  - exists result, w2, t, (unsent (o_strings (w_objs w1)) ys'). split; [by rewrite T2|]. split; [done|]. specialize (Fin N).
    destruct result; try done; [destruct O as [-> _]; by split_and!|by split..].
Qed.

(** The end of a response, and the loop's write events while it is being sent. *)
Definition end_and_send (n : nat) : cmd (world (httpd B)) unit :=
  result ← sxe_httpd_response_end request on_complete user_data;
  if bool_decide (result = SXE_RETURN_IN_PROGRESS) then
    writable (Callbacks0 := httpd_callbacks) this n;; sxe_io_cb_send_buffers (Callbacks0 := httpd_callbacks) this
  else mret tt.

(** C15: a response reaches its client. When the socket goes on taking at least one byte of each write, then after as many write events as
    the text has bytes, or fewer, the socket has taken exactly the text of the response, in order: the
    buffers are free, the application was told OK once, and the connection waits for the next request, with reading resumed. *)
Theorem response_delivered w q s k free used ids ts :
  SendProgress H0 -> attached w q s -> q_sxe q = Some this -> sender s -> serving request d (w_objs w) free used ids ts [] [] ->
  in_state (w_objs w) k -> k <> 0%nat -> (q_out_eoh q = true \/ free <> []) ->
  exists n w1 t, (n <= length (sent_text q ts))%nat /\
    end_and_send n w = sxe_buf_resume this SXE_BUF_RESUME_IMMEDIATE w1 /\
    w_trace w1 = w_trace w ++ t /\ delivered fd t = sent_text q ts /\ finished SXE_RETURN_OK w q (free ++ ids) used w1.
Proof using P Told SendLaw0.
  intros Pr A Qx Sr V St Hk Eoh. unfold end_and_send.
  destruct (end_start w q s free used ids ts A Qx Sr V) as [(Oe & -> & R)|
    (o & free' & ids' & ts' & s1 & result & w1 & V' & C & Pm & F & (s' & xs' & ys' & t & Pg & O & Ad) & Wr & U1 & R)].
  { by destruct Eoh; [congruence|]. }
  pose proof Pg as [P1 P2 P3 P4 P5 P6]. destruct (queue_sendable o ids' ts' (sv_texts _ _ _ _ _ _ _ _ _ V')) as [_ Us].
  assert (Dt : delivered fd t ++ unsent (o_strings (w_objs w1)) ys' = sent_text q ts) by (rewrite P4; cbn; by rewrite Us).
  destruct (Ad Pr) as [->|[-> _]].
  - destruct (end_done w q s k free used free' ids ids' ts' o s1 SXE_RETURN_OK w1 s' A St Hk Pm F V' U1 (sd_at _ _ _ _ _ _ _ P1) P6)
      as (w2 & R2 & _ & T2 & Fi). destruct O as [-> _]. exists 0%nat, w2, t. split; [lia|]. split; [|split; [by rewrite T2|split; [|done]]].
    + unfold mbind, cmd_bind. rewrite R, bool_decide_false by done. cbn [negb]. unfold mbind, cmd_bind. rewrite R2.
      by destruct (sxe_buf_resume this SXE_BUF_RESUME_IMMEDIATE w2) as [[[] ?]| |].
    + by rewrite <-Dt, app_nil_r.
  - assert (Wn : s_out_event_written s' = sxe_httpd_event_response_done_ptr) by congruence.
    destruct (writable_run this fd (Callbacks0 := httpd_callbacks) _ Pr w1 s' OUT xs' ys' P1 ltac:(by rewrite Wn) (le_n _))
      as (n & w2 & w3 & s3 & t3 & Hn & W2 & W3 & E3 & _ & T3 & D3 & B3).
    destruct (end_done w q s k free used free' ids ids' ts' o s1 SXE_RETURN_OK w3 s3 A St Hk Pm F V' U1 E3 (eq_trans B3 P6))
      as (w4 & R4 & _ & T4 & Fi).
    exists n, w4, (t ++ t3). split; [rewrite <-Dt, length_app; lia|].
    split; [|split; [by rewrite T4, T3, P3, (assoc_L (++))|split; [by rewrite delivered_app, D3|done]]].
    unfold mbind at 1, cmd_bind at 1. rewrite R. rewrite (bool_decide_true (SXE_RETURN_IN_PROGRESS = SXE_RETURN_IN_PROGRESS)) by done.
    cbn [negb]. step_by (eq_refl : (mret tt : cmd (world (httpd B)) unit) w1 = Ret (tt, w1)). unfold mret at 1, cmd_ret at 1. cbv beta iota.
    rewrite (bool_decide_true (SXE_RETURN_IN_PROGRESS = SXE_RETURN_IN_PROGRESS)) by done. step_by W2. by rewrite W3, Wn.
Qed.
End Sent.
