(* ===== verification/HttpdRequest.v ===== *)
(** * HttpdRequest: a request is read (lib-sxe-httpd/sxe-httpd.c)

    When a connection has data, the server parses the request line, the headers and the body, and calls the application's handlers as
    it goes. For a request that is well formed these calls are those that its text prescribes. *)

From S2P Require Import Prelude StrUtil SxeList Pool Buffer HttpMessage Objects Sxe SxeSend SxeConnect Httpd HttpdResponse HttpdSend.

(** ** The text of a request *)

Record http_request := mk_http { r_method : list Z; r_url : list Z; r_version : list Z; r_fields : list field }.

Definition line_text (r : http_request) : list Z := r_method r ++ SPACE :: r_url r ++ SPACE :: r_version r ++ CRLF.
Definition head_text (r : http_request) : list Z := line_text r ++ headers_text (r_fields r) ++ CRLF.

(** A header that gives the length of the body, and the lengths that a list of headers gives: the last one counts. *)
Definition is_length (f : field) : bool := (zlen (f_name f) =? 14) && default false (strncaseeq 14 (f_name f) HTTPD_CONTENT_LENGTH).
Definition digits_value (v : list Z) : Z := foldl (fun n c => u32 (n * 10 + c - 48)) 0 v.
Definition length_after (n : Z) (f : field) : Z := if is_length f then digits_value (rtrim (f_value f)) else n.
Definition content_length (fs : list field) : Z := foldl length_after 0 fs.
Definition length_ok (f : field) : Prop :=
  is_length f = true -> rtrim (f_value f) <> [] /\ Forall (fun c => isdigit c = true) (rtrim (f_value f)).

Record request_ok (r : http_request) : Prop := {
  ro_method : sxe_httpd_parse_method (r_method r) <> SXE_HTTP_METHOD_INVALID;
  ro_version : sxe_httpd_parse_version (r_version r) <> SXE_HTTP_VERSION_UNKNOWN;
  ro_url : r_url r <> [] /\ Forall token_char (r_url r);
  ro_fields : Forall field_ok (r_fields r) /\ Forall length_ok (r_fields r)
}.

(** The names of the methods and versions are tokens. *)
Lemma find_name_in {X} (table : list (list Z * X)) none s : find_name table none s <> none -> exists x, (s, x) ∈ table.
Proof.
  induction table as [|[name x] table IH]; simpl; [done|]. destruct (decide (s = name)) as [->|N].
  - intros _. exists x. apply list_elem_of_here.
  - rewrite bool_decide_false by done. intros (y & Hy)%IH. exists y. by apply list_elem_of_further.
Qed.

Lemma table_tokens {X} (table : list (list Z * X)) s x :
  Forall (fun e => e.1 <> [] /\ Forall token_char e.1) table -> (s, x) ∈ table -> s <> [] /\ Forall token_char s.
Proof. intros F Hin. by apply (proj1 (list.Forall_forall _ _) F (s, x)). Qed.

Lemma method_token s : sxe_httpd_parse_method s <> SXE_HTTP_METHOD_INVALID -> s <> [] /\ Forall token_char s.
Proof.
  intros (x & Hx)%find_name_in. apply (table_tokens methods s x); [|done].
  unfold methods. repeat (constructor; [split; [done|repeat (constructor; [done|]); constructor]|]). constructor.
Qed.
Lemma version_token s : sxe_httpd_parse_version s <> SXE_HTTP_VERSION_UNKNOWN -> s <> [] /\ Forall token_char s.
Proof.
  intros (x & Hx)%find_name_in. apply (table_tokens versions s x); [|done].
  unfold versions. repeat (constructor; [split; [done|repeat (constructor; [done|]); constructor]|]). constructor.
Qed.

Lemma strncaseeq_some n : forall s t, (n <= length s)%nat -> (n <= length t)%nat -> is_Some (strncaseeq n s t).
Proof.
  induction n as [|n IH]; intros [|a s] [|b t] Hs Ht; simpl in *; try lia; [done..|].
  destruct (tolower a =? tolower b); [|done]. destruct (a =? 0); [done|]. apply IH; lia.
Qed.

(** The first line feed of a line. *)
Definition line_test (buf : list Z) (i : Z) : outcome verdict :=
  b ← load (rd buf i); if b =? 0 then mret Stop else r ← in_reject [LF; 0] b; mret (if (r : bool) then Hit else Next).

Lemma line_end_at l post n : forall pre fuel,
  Forall (fun c => c <> 0 /\ c <> LF) l -> zlen pre + zlen l <= n -> (length l < fuel)%nat ->
  search_up fuel (line_test (pre ++ l ++ LF :: post)) (zlen pre) n = Ret (Some (zlen pre + zlen l)).
Proof.
  induction l as [|c l IH]; intros pre fuel Hl Hn Hf; (destruct fuel as [|fuel]; [simpl in Hf; lia|]); cbn [search_up app].
  - change (zlen []) with 0 in *. replace (zlen pre <=? n) with true by lia.
    assert (line_test (pre ++ LF :: post) (zlen pre) = Ret Hit) as -> by (unfold line_test; by rewrite rd_at). cbn. by rewrite Z.add_0_r.
  - rewrite zlen_cons in *. pose proof (zlen_nonneg l). replace (zlen pre <=? n) with true by lia. apply Forall_cons in Hl as [[C1 C2] Hl].
    assert (line_test (pre ++ c :: l ++ LF :: post) (zlen pre) = Ret Next) as ->.
    { unfold line_test. rewrite rd_at by done. cbn. by rewrite (proj2 (Z.eqb_neq c 0)), (proj2 (Z.eqb_neq c LF)) by done. }
    assert (L : zlen (pre ++ [c]) = zlen pre + 1) by (rewrite zlen_app; done).
    pose proof (IH (pre ++ [c]) fuel Hl ltac:(lia) ltac:(simpl in Hf; lia)) as E. rewrite <-(assoc_L (++)) in E. cbn [app] in E.
    rewrite L in E. cbn [mbind outcome_bind]. rewrite E. do 2 f_equal. lia.
Qed.

Lemma line_end l post n :
  Forall (fun c => c <> 0 /\ c <> LF) l -> zlen l < n -> sxe_strncspn (l ++ LF :: post) [LF; 0] n = Ret (Some (zlen l)).
Proof.
  intros Hl Hn. unfold sxe_strncspn. pose proof (line_end_at l post (n - 1) [] (Datatypes.S (length (l ++ LF :: post))) Hl) as E.
  cbn [app] in E. etransitivity; [apply E|done]; [change (zlen []) with 0; lia|rewrite length_app; lia].
Qed.

(** ** The server's view *)

(** What the server calls, with what. *)
Inductive call :=
| Called_request (method url version : list Z)
| Called_header (key value : list Z)
| Called_eoh
| Called_body (chunk : list Z).

Section Request.
Context {B : Type} `{Build, Kernel, Layout, HttpdLayout, !Handlers B}.
Context (self request this : Z) (i : nat) (d : SXE_HTTPD).
Implicit Types (w : world (httpd B)) (q : SXE_HTTPD_REQUEST) (s : SXE) (o : objects) (k : nat) (m : SXE_HTTP_MESSAGE).

Hypothesis P : seated request i d.

(** The application's handlers note what they are called with. *)
Context (note : call -> B -> B).
Record noting : Prop := {
  no_request method url version w :
    call_on_request (d_on_request d) request method url version w = Ret (tt, with_state (note (Called_request method url version) (h_app (w_app w))) w);
  no_header key value w :
    call_on_header (d_on_header d) request key value w = Ret (tt, with_state (note (Called_header key value) (h_app (w_app w))) w);
  no_eoh w : call_on_eoh (d_on_eoh d) request w = Ret (tt, with_state (note Called_eoh (h_app (w_app w))) w);
  no_body chunk w : call_on_body (d_on_body d) request chunk w = Ret (tt, with_state (note (Called_body chunk) (h_app (w_app w))) w)
}.
Hypothesis N : noting.

(** The world [w0] with other objects, another connection, request and state of the application. *)
Context (w0 : world (httpd B)).
Hypothesis Server : h_servers (w_app w0) !! self = Some d.
Definition serve o s q (a : B) : world (httpd B) :=
  mk_world o (<[this := s]> (w_sxes w0)) (w_offsets w0) (w_trace w0) (w_globals w0)
    (mk_state (h_servers (w_app w0)) (<[request := q]> (h_requests (w_app w0))) a).

Lemma serve_request o s q a : rd_request request (serve o s q a) = Ret (q, serve o s q a).
Proof using. apply rd_req. apply lookup_insert_eq. Qed.
Lemma serve_server o s q a : rd_httpd self (serve o s q a) = Ret (d, serve o s q a).
Proof using Server. by apply rd_server. Qed.
Lemma serve_sxe o s q a : rd_sxe this (serve o s q a) = Ret (s, serve o s q a).
Proof using. apply rd_sxe_ret, lookup_insert_eq. Qed.
Lemma serve_put o s s' q a : put this s' (serve o s q a) = serve o s' q a.
Proof using. unfold put, with_sxes, serve. simpl. by rewrite insert_insert_eq. Qed.
Lemma serve_update o s q a f : upd_request request f (serve o s q a) = Ret (tt, serve o s (f q) a).
Proof using.
  rewrite (upd_req request (serve o s q a) q) by apply lookup_insert_eq. unfold stand, serve. simpl. by rewrite insert_insert_eq.
Qed.
Lemma serve_this o s q a : q_sxe q = Some this -> request_sxe request (serve o s q a) = Ret (this, serve o s q a).
Proof using. intros Q. unfold request_sxe. step_by (serve_request o s q a). by rewrite Q. Qed.

(** The message's memory. *)
Lemma serve_buffer o s q a : q_sxe q = Some this ->
  message_buffer request (serve o s q a) = Ret (drop (Z.to_nat (q_message_start q)) (s_in_buf s ++ behind_in_buf s), serve o s q a).
Proof using.
  intros Q. unfold message_buffer. step_by (serve_request o s q a). step_by (serve_this o s q a Q). by step_by (serve_sxe o s q a).
Qed.

Lemma serve_message {R} o s q a buffer (op : list Z -> SXE_HTTP_MESSAGE -> outcome (R * SXE_HTTP_MESSAGE)) r m :
  q_sxe q = Some this -> drop (Z.to_nat (q_message_start q)) (s_in_buf s ++ behind_in_buf s) = buffer ->
  op buffer (q_message q) = Ret (r, m) -> on_message request op (serve o s q a) = Ret (r, serve o s (set_q_message m q) a).
Proof using.
  intros Q <- E. unfold on_message. step_by (serve_buffer o s q a Q). step_by (serve_request o s q a). rewrite E.
  step_by (eq_refl : lift (Ret (r, m)) (serve o s q a) = Ret ((r, m), serve o s q a)). by step_by (serve_update o s q a (set_q_message m)).
Qed.

Lemma serve_text o s q a buffer offset length l :
  q_sxe q = Some this -> drop (Z.to_nat (q_message_start q)) (s_in_buf s ++ behind_in_buf s) = buffer ->
  slice buffer offset length = Some l -> message_text request offset length (serve o s q a) = Ret (l, serve o s q a).
Proof using. intros Q <- E. unfold message_text. step_by (serve_buffer o s q a Q). by rewrite E. Qed.

(** The state of the connection moves on. *)
Definition same_but_state o o' : Prop :=
  o_lists o' = o_lists o /\ o_strings o' = o_strings o /\ delete (d_requests d) (o_pools o') = delete (d_requests d) (o_pools o).
#[local] Instance same_preorder : PreOrder same_but_state.
Proof using. split; [done|]. intros o1 o2 o3 (A1 & A2 & A3) (B1 & B2 & B3). unfold same_but_state. split_and!; congruence. Qed.

Lemma serve_move o s q a k k' : in_state i d o k -> (k' < 7)%nat ->
  exists o', on_objs (pool_set_state (d_requests d) (Z.of_nat i) (Z.of_nat k) (Z.of_nat k')) (serve o s q a)
      = Ret (SXE_POOL_LOCK_TAKEN, serve o' s q a) /\ in_state i d o' k' /\ same_but_state o o'.
Proof using.
  intros [(p & Ep & Wp & Lp & Ip)] Hk. exists (with_pool (d_requests d) (spec_move i k k' p) o). split; [|split].
  - etransitivity; [apply on_objs_ret, (pool_set_state_ret _ _ _ Ep Wp i k k' Ip); lia|done].
  - constructor. eexists. split; [apply lookup_insert_eq|]. rewrite spec_move_abs. split; [apply move_wf; [done|done|lia]|].
    rewrite move_length. split; [done|]. apply moved_in. lia.
  - split; [done|]. split; [done|]. simpl. by rewrite delete_insert_eq.
Qed.

Lemma serve_state o s q a k : in_state i d o k ->
  on_objs (pool_state_of (d_requests d) (Z.of_nat i)) (serve o s q a) = Ret (Z.of_nat k, serve o s q a).
Proof using.
  intros [(p & Ep & Wp & Lp & Ip)]. etransitivity; [apply on_objs_ret, (pool_state_of_ret _ _ _ Ep Wp i k Ip)|done].
Qed.

(** *** The input *)

(** The unread bytes of the connection are [t]. *)
Record input s (t : list Z) : Prop := {
  in_size : zlen (s_in_buf s) = SXE_BUF_SIZE;
  in_offsets : 0 <= s_in_consumed s /\ s_in_consumed s + zlen t = s_in_total s /\ s_in_total s <= SXE_BUF_SIZE;
  in_bytes : exists post, drop (Z.to_nat (s_in_consumed s)) (s_in_buf s) = t ++ post;
  in_watch : 0 <= io_fd (s_io s)
}.

Lemma input_used s t : input s t -> SXE_BUF_USED s = zlen t.
Proof using.
  intros [_ (O1 & O2 & O3) _ _]. pose proof (zlen_nonneg t). unfold SXE_BUF_USED. unfold SXE_BUF_SIZE in *.
  rewrite u32_small; [lia|]. unfold is_u32. lia.
Qed.

Lemma serve_clear o s q a : zlen (s_in_buf s) = SXE_BUF_SIZE -> 0 <= io_fd (s_io s) ->
  exists s', sxe_buf_clear this (serve o s q a) = Ret (tt, serve o s' q a) /\ input s' [] /\
    s_in_buf s' = s_in_buf s /\ s_user_data s' = s_user_data s.
Proof using.
  intros Sz Wt. unfold sxe_buf_clear.
  rewrite (cmd_bind_ret _ _ _ _ _ (upd_sxe_ret (serve o s q a) this s _ (lookup_insert_eq _ _ _))), serve_put.
  set (s1 := set_s_in_total _ _). step_by (serve_sxe o s1 q a).
  assert (I1 : input s1 []) by (split; simpl; [done|change (zlen []) with 0; unfold SXE_BUF_SIZE; lia|by eexists|done]).
  destruct (negb (s_socket_as_fd s1 =? -1) && negb (ev_is_active s1)).
  - unfold restart_reading_buffer_drained. rewrite (ev_io_start_ret (serve o s1 q a) this s1 (lookup_insert_eq _ _ _) Wt), serve_put.
    exists (started s1). split; [done|]. split; [|done]. destruct I1. by split.
  - exists s1. by split_and!.
Qed.

Lemma serve_consume o s q a t1 t2 :
  input s (t1 ++ t2) ->
  exists s', sxe_buf_consume this (zlen t1) (serve o s q a) = Ret (tt, serve o s' q a) /\ input s' t2 /\
    s_in_buf s' = s_in_buf s /\ s_user_data s' = s_user_data s.
Proof using.
  intros I. pose proof (input_used _ _ I) as Us. destruct I as [Sz (O1 & O2 & O3) (post & Eb) Wt]. rewrite zlen_app in *.
  pose proof (zlen_nonneg t1). pose proof (zlen_nonneg t2). unfold sxe_buf_consume. step_by (serve_sxe o s q a). rewrite Us.
  step_by (lift_assert6 (zlen t1 <=? SXE_BUF_SIZE) (serve o s q a) ltac:(lia)).
  step_by (lift_assert6 (zlen t1 <=? zlen t1 + zlen t2) (serve o s q a) ltac:(lia)).
  rewrite (cmd_bind_ret _ _ _ _ _ (upd_sxe_ret (serve o s q a) this s _ (lookup_insert_eq _ _ _))), serve_put.
  unfold sxe_pause. rewrite (cmd_bind_ret _ _ _ _ _ (upd_sxe_ret (serve o _ q a) this _ _ (lookup_insert_eq _ _ _))), serve_put.
  step_by (serve_sxe o (set_s_flags (Z.lor (s_flags (set_s_in_consumed (u32 (s_in_consumed s + zlen t1)) s)) SXE_FLAG_IS_PAUSED)
    (set_s_in_consumed (u32 (s_in_consumed s + zlen t1)) s)) q a).
  cbn [s_in_consumed s_in_total set_s_flags set_s_in_consumed]. rewrite u32_small by (unfold is_u32, SXE_BUF_SIZE in *; lia).
  set (s1 := set_s_flags _ _). destruct (Z.eqb_spec (s_in_consumed s + zlen t1) (s_in_total s)) as [Ha|Ha].
  - assert (t2 = []) as -> by (destruct t2; [done|rewrite zlen_cons in *; pose proof (zlen_nonneg t2); lia]).
    destruct (serve_clear o s1 q a) as (s' & R & I' & Eb' & Eu); [done..|]. exists s'. by split_and!.
  - exists s1. split; [done|]. split; [|done]. split; simpl; try done; [lia|]. exists post.
    rewrite Z2Nat.inj_add, <-drop_drop, Eb, <-(assoc_L (++)) by lia. unfold zlen. by rewrite Nat2Z.id, drop_app_length.
Qed.

(** *** The request line *)

(** While the head of a request is parsed: the message is the unread bytes, and its memory goes on behind them. *)
Record parsing q s (t buffer : list Z) : Prop := {
  ps_sxe : q_sxe q = Some this;
  ps_server : q_server q = self;
  ps_start : q_message_start q = s_in_consumed s;
  ps_input : input s t;
  ps_buffer : drop (Z.to_nat (q_message_start q)) (s_in_buf s ++ behind_in_buf s) = buffer;
  ps_text : exists post, buffer = t ++ post;
  ps_big : zlen buffer < 4294967290
}.

Lemma parsing_same q q' s t buffer :
  parsing q s t buffer -> q_sxe q' = q_sxe q -> q_server q' = q_server q -> q_message_start q' = q_message_start q -> parsing q' s t buffer.
Proof using. intros [? ? ? ? ? ? ?] E1 E2 E3. split; rewrite ?E1, ?E2, ?E3; done. Qed.

Lemma token_run o s q a t buffer pre tok post (e : Z) :
  parsing q s t buffer -> before_element (q_message q) buffer pre -> buffer = pre ++ tok ++ post -> tok <> [] -> Forall token_char tok ->
  token_end post e -> zlen pre + zlen tok + e <= buffer_length (q_message q) ->
  exists m, next_token request (serve o s q a) = Ret (inr (zlen pre, zlen tok), serve o s (set_q_message m q) a) /\
    next_field m = zlen pre + zlen tok + e /\ buffer_length m = buffer_length (q_message q) /\ ignore_line m = ignore_line (q_message q) /\
    element_length m = zlen tok.
Proof using.
  intros Ps Be E Hne Ht Hk Hl.
  destruct (parse_token_spec buffer (q_message q) pre [] tok post e Be E (Forall_nil_2 _) Hne Ht Hk ltac:(change (zlen []) with 0; lia))
    as (m & R & G & Sl & Nf & Bl & Ig).
  change (zlen []) with 0 in *. rewrite Z.add_0_r in *. pose proof (slice_length _ _ _ _ Sl) as Ln. unfold sxe_http_message_get_line_element_length in *.
  exists m. split; [|by split_and!]. unfold next_token.
  rewrite (cmd_bind_ret _ _ _ _ _ (serve_message o s q a buffer _ SXE_RETURN_OK m (ps_sxe _ _ _ _ Ps) (ps_buffer _ _ _ _ Ps) R)).
  rewrite bool_decide_true by done. cbn [negb]. step_by (serve_request o s (set_q_message m q) a). cbn [q_message set_q_message]. rewrite G.
  step_by (eq_refl : lift (Ret (zlen pre)) (serve o s (set_q_message m q) a) = Ret (zlen pre, serve o s (set_q_message m q) a)).
  unfold sxe_http_message_get_line_element_length. by rewrite Ln.
Qed.

Lemma after_token buffer m pre tok post :
  next_field m = zlen pre + zlen tok + 1 -> element_length m = zlen tok -> buffer = pre ++ tok ++ SPACE :: post ->
  zlen buffer < 4294967290 -> buffer_length m <= zlen buffer -> before_element m buffer (pre ++ tok ++ [SPACE]).
Proof using.
  intros Nf El E Hb Hl. pose proof (zlen_nonneg pre). pose proof (zlen_nonneg tok). pose proof (zlen_nonneg post).
  assert (zlen buffer = zlen pre + zlen tok + 1 + zlen post) by (rewrite E, !zlen_app, zlen_cons; lia). split; try done.
  - rewrite Nf, !zlen_app. change (zlen [SPACE]) with 1. lia.
  - lia.
  - rewrite El. unfold SXE_HTTP_LINE_PARSED, SXE_UNSIGNED_MAXIMUM. lia.
  - intros p c Ep. rewrite (assoc_L (++)) in Ep. apply app_inj_tail in Ep as [_ <-]. done.
Qed.

(** The end of the line is found again. *)
Lemma line_over buffer m p post :
  next_field m = zlen (p ++ CRLF) -> buffer = (p ++ CRLF) ++ post -> element_length m <> SXE_HTTP_LINE_PARSED ->
  sxe_http_message_parse_next_line_element buffer m SXE_HTTP_LINE_ELEMENT_TYPE_END_OF_LINE
  = Ret (SXE_RETURN_END_OF_FILE, set_element_length m SXE_HTTP_LINE_PARSED).
Proof using.
  intros Nf E El. unfold CRLF in *. unfold sxe_http_message_parse_next_line_element. rewrite (proj2 (Z.eqb_neq (element_length m) SXE_HTTP_LINE_PARSED) El). rewrite Nf.
  by rewrite (line_ends_crlf buffer p post E).
Qed.

(** A message that was just constructed for [t]. *)
Record fresh m (t : list Z) : Prop := {
  fr_next : next_field m = 0;
  fr_consumed : consumed m = 0;
  fr_element : element_length m = 0;
  fr_ignore : ignore_line m = 0;
  fr_length : buffer_length m = zlen t
}.

Lemma fresh_element m t buffer : fresh m t -> zlen buffer < 4294967290 -> zlen t <= zlen buffer -> before_element m buffer [].
Proof using.
  intros [F1 F2 F3 F4 F5] Hb Hl. split; rewrite ?F1, ?F2, ?F3, ?F5; try done. intros [|? []] c E; done.
Qed.

(** What the request line makes of the request. *)
Definition lined (r : http_request) q : SXE_HTTPD_REQUEST :=
  set_q_version (sxe_httpd_parse_version (r_version r)) (set_q_method (sxe_httpd_parse_method (r_method r)) q).

(** What sxe_httpd_parse_request_line does when it has the version. *)
Lemma line_rest o s q a t buffer me url ve us vs p rest :
  parsing q s t buffer -> slice buffer 0 (zlen me) = Some me -> slice buffer us (zlen url) = Some url -> slice buffer vs (zlen ve) = Some ve ->
  next_field (q_message q) = zlen (p ++ CRLF) -> buffer = (p ++ CRLF) ++ rest -> element_length (q_message q) <> SXE_HTTP_LINE_PARSED ->
  sxe_httpd_parse_version ve <> SXE_HTTP_VERSION_UNKNOWN ->
  (version ← message_text request vs (zlen ve);
   upd_request request (set_q_version (sxe_httpd_parse_version version));;
   if bool_decide (sxe_httpd_parse_version version = SXE_HTTP_VERSION_UNKNOWN) then mret SXE_RETURN_ERROR_BAD_MESSAGE
   else
     result ← on_message request (fun b m => sxe_http_message_parse_next_line_element b m SXE_HTTP_LINE_ELEMENT_TYPE_END_OF_LINE);
     if negb (bool_decide (result = SXE_RETURN_OK)) && negb (bool_decide (result = SXE_RETURN_END_OF_FILE)) then mret result
     else
       d ← rd_httpd self;
       method ← message_text request 0 (zlen me);
       url ← message_text request us (zlen url);
       version ← message_text request vs (zlen ve);
       call_on_request (d_on_request d) request method url version;;
       mret SXE_RETURN_OK) (serve o s q a)
  = Ret (SXE_RETURN_OK, serve o s (set_q_message (set_element_length (q_message q) SXE_HTTP_LINE_PARSED) (set_q_version (sxe_httpd_parse_version ve) q))
      (note (Called_request me url ve) a)).
Proof using N Server.
  intros Ps S1 S2 S3 Nf E El Ov. step_by (serve_text o s q a buffer _ _ ve (ps_sxe _ _ _ _ Ps) (ps_buffer _ _ _ _ Ps) S3).
  step_by (serve_update o s q a (set_q_version (sxe_httpd_parse_version ve))).
  rewrite (bool_decide_false (sxe_httpd_parse_version ve = SXE_HTTP_VERSION_UNKNOWN)) by done. set (q1 := set_q_version _ q).
  pose proof (parsing_same q q1 s t buffer Ps eq_refl eq_refl eq_refl) as P1.
  step_by (serve_message o s q1 a buffer (fun b m => sxe_http_message_parse_next_line_element b m SXE_HTTP_LINE_ELEMENT_TYPE_END_OF_LINE) _ _
    (ps_sxe _ _ _ _ P1) (ps_buffer _ _ _ _ P1) (line_over buffer (q_message q1) p rest Nf E El)).
  set (q2 := set_q_message _ q1). pose proof (parsing_same q q2 s t buffer Ps eq_refl eq_refl eq_refl) as P2.
  change (negb (bool_decide (SXE_RETURN_END_OF_FILE = SXE_RETURN_OK)) && negb (bool_decide (SXE_RETURN_END_OF_FILE = SXE_RETURN_END_OF_FILE))) with false.
  cbv iota. step_by (serve_server o s q2 a).
  step_by (serve_text o s q2 a buffer _ _ me (ps_sxe _ _ _ _ P2) (ps_buffer _ _ _ _ P2) S1).
  step_by (serve_text o s q2 a buffer _ _ url (ps_sxe _ _ _ _ P2) (ps_buffer _ _ _ _ P2) S2).
  step_by (serve_text o s q2 a buffer _ _ ve (ps_sxe _ _ _ _ P2) (ps_buffer _ _ _ _ P2) S3).
  by step_by (no_request N me url ve (serve o s q2 a)).
Qed.

Lemma parse_line_run o s q a t buffer r rest :
  parsing q s t buffer -> fresh (q_message q) t -> request_ok r -> t = line_text r ++ rest ->
  exists m, sxe_httpd_parse_request_line request (serve o s q a)
      = Ret (SXE_RETURN_OK, serve o s (set_q_message m (lined r q)) (note (Called_request (r_method r) (r_url r) (r_version r)) a)) /\
    before_header m buffer (line_text r) /\ buffer_length m = zlen t.
Proof using N Server.
  intros Ps Fr [Om Ov [Ou1 Ou2] _] Et. destruct (method_token _ Om) as [M1 M2]. destruct (version_token _ Ov) as [V1 V2].
  destruct (ps_text _ _ _ _ Ps) as [post Eb]. pose proof (ps_big _ _ _ _ Ps) as Big.
  pose proof (fr_length _ _ Fr) as F5.
  assert (Hle : zlen t <= zlen buffer) by (rewrite Eb, zlen_app; pose proof (zlen_nonneg post); lia).
  destruct r as [me url ve fs]. unfold line_text, lined in *. cbn [r_method r_url r_version] in *.
  set (rest2 := rest ++ post). assert (Ebb : buffer = me ++ SPACE :: url ++ SPACE :: ve ++ CRLF ++ rest2).
  { rewrite Eb, Et. unfold rest2. by rewrite <-!(assoc_L (++)), <-!app_comm_cons, <-!(assoc_L (++)), <-!app_comm_cons, <-!(assoc_L (++)). }
  assert (Lt : zlen t = zlen me + zlen url + zlen ve + 4 + zlen rest).
  { rewrite Et, !zlen_app, zlen_cons, !zlen_app, zlen_cons, !zlen_app. change (zlen CRLF) with 2. lia. }
  pose proof (zlen_nonneg me). pose proof (zlen_nonneg url). pose proof (zlen_nonneg ve). pose proof (zlen_nonneg rest).
  unfold sxe_httpd_parse_request_line. step_by (serve_request o s q a). cbv zeta. rewrite (ps_server _ _ _ _ Ps).
  destruct (token_run o s q a t buffer [] me (SPACE :: url ++ SPACE :: ve ++ CRLF ++ rest2) 1 Ps) as (m1 & R1 & N1 & L1 & I1 & E1);
    [by eapply fresh_element|done|done|done|by constructor|change (zlen []) with 0; lia|].
  step_by R1. change (zlen []) with 0 in *.
  pose proof (parsing_same q (set_q_message m1 q) s t buffer Ps eq_refl eq_refl eq_refl) as P1.
  assert (T1 : slice buffer 0 (zlen me) = Some me) by (rewrite Ebb; apply slice_prefix).
  step_by (serve_text o s (set_q_message m1 q) a buffer _ _ me (ps_sxe _ _ _ _ P1) (ps_buffer _ _ _ _ P1) T1).
  step_by (serve_update o s (set_q_message m1 q) a (set_q_method (sxe_httpd_parse_method me))).
  rewrite (bool_decide_false (sxe_httpd_parse_method me = SXE_HTTP_METHOD_INVALID)) by done. set (q1 := set_q_method _ _).
  pose proof (parsing_same q q1 s t buffer Ps eq_refl eq_refl eq_refl) as Pq.
  destruct (token_run o s q1 a t buffer (me ++ [SPACE]) url (SPACE :: ve ++ CRLF ++ rest2) 1 Pq) as (m2 & R2 & N2 & L2 & I2 & E2);
    [apply (after_token buffer m1 [] me (url ++ SPACE :: ve ++ CRLF ++ rest2)); try done; simpl; lia|
     by rewrite Ebb, <-(assoc_L (++))|done|done|by constructor|rewrite zlen_app; change (zlen [SPACE]) with 1; simpl; lia|].
  rewrite zlen_app in R2, N2. change (zlen [SPACE]) with 1 in R2, N2. step_by R2. set (q2 := set_q_message m2 q1).
  pose proof (parsing_same q q2 s t buffer Ps eq_refl eq_refl eq_refl) as Pq2.
  destruct (token_run o s q2 a t buffer ((me ++ [SPACE]) ++ url ++ [SPACE]) ve (CRLF ++ rest2) 2 Pq2) as (m3 & R3 & N3 & L3 & I3 & E3);
    [apply (after_token buffer m2 (me ++ [SPACE]) url (ve ++ CRLF ++ rest2)); try done; simpl in *;
       [by rewrite zlen_app|by rewrite Ebb, <-(assoc_L (++))|lia]|
     by rewrite Ebb, <-!(assoc_L (++))|done|done|constructor|rewrite !zlen_app; change (zlen [SPACE]) with 1; simpl in *; lia|].
  rewrite !zlen_app in R3, N3. change (zlen [SPACE]) with 1 in R3, N3. step_by R3. set (q3 := set_q_message m3 q2).
  pose proof (parsing_same q q3 s t buffer Ps eq_refl eq_refl eq_refl) as Pq3. set (line := me ++ SPACE :: url ++ SPACE :: ve).
  assert (El : buffer = (line ++ CRLF) ++ rest2).
  { rewrite Ebb. unfold line. by rewrite <-!(assoc_L (++)), <-!app_comm_cons, <-!(assoc_L (++)), <-!app_comm_cons. }
  assert (Ll : zlen (line ++ CRLF) = zlen me + zlen url + zlen ve + 4).
  { unfold line. rewrite !zlen_app, zlen_cons, zlen_app, zlen_cons. change (zlen CRLF) with 2. lia. }
  assert (T2 : slice buffer (zlen me + 1) (zlen url) = Some url).
  { pose proof (slice_mid (me ++ [SPACE]) url (SPACE :: ve ++ CRLF ++ rest2)) as T. rewrite zlen_app, <-(assoc_L (++)) in T. by rewrite Ebb. }
  assert (T3 : slice buffer (zlen me + 1 + (zlen url + 1)) (zlen ve) = Some ve).
  { pose proof (slice_mid ((me ++ [SPACE]) ++ url ++ [SPACE]) ve (CRLF ++ rest2)) as T. rewrite !zlen_app, <-!(assoc_L (++)) in T. by rewrite Ebb. }
  exists (set_element_length m3 SXE_HTTP_LINE_PARSED). split; [|split].
  - rewrite (line_rest o s q3 a t buffer me url ve _ _ line rest2 Pq3 T1 T2 T3); [by destruct q| |exact El| |done]; simpl.
    + rewrite Ll, N3. lia.
    + rewrite E3. unfold SXE_HTTP_LINE_PARSED, SXE_UNSIGNED_MAXIMUM. lia.
  - assert (Lt2 : me ++ SPACE :: url ++ SPACE :: ve ++ CRLF = line ++ CRLF).
    { unfold line. by rewrite <-!(assoc_L (++)), <-!app_comm_cons, <-!(assoc_L (++)), <-!app_comm_cons. }
    rewrite Lt2. split; simpl in *; [lia|lia| |by left|lia|lia]. rewrite I3, I2, I1. apply Fr.
  - simpl in *. lia.
Qed.

Lemma same_message q m : q_message q = m -> set_q_message m q = q.
Proof using. intros <-. by destruct q. Qed.

Lemma message_length_run o s q a t buffer :
  parsing q s t buffer -> buffer_length (q_message q) = zlen t -> message_length request this (serve o s q a) = Ret (tt, serve o s q a).
Proof using.
  intros Ps Bl. unfold message_length. step_by (serve_sxe o s q a). rewrite (input_used _ _ (ps_input _ _ _ _ Ps)).
  rewrite (serve_message o s q a buffer _ tt (q_message q) (ps_sxe _ _ _ _ Ps) (ps_buffer _ _ _ _ Ps)); [by rewrite same_message|].
  unfold sxe_http_message_increase_buffer_length. rewrite Bl, Z.leb_refl. cbn. rewrite <-Bl. by destruct (q_message q).
Qed.

(** The line without its line feed. *)
Definition line_start (r : http_request) : list Z := r_method r ++ SPACE :: r_url r ++ SPACE :: r_version r.

Lemma line_starts r : line_text r = line_start r ++ CRLF.
Proof using. unfold line_text, line_start. by rewrite <-!(assoc_L (++)), <-!app_comm_cons, <-!(assoc_L (++)), <-!app_comm_cons. Qed.

Lemma line_start_chars r : request_ok r -> Forall (fun c => c <> 0 /\ c <> LF) (line_start r ++ [CR]).
Proof using.
  intros [Om Ov [_ Ou] _]. destruct (method_token _ Om) as [_ M2]. destruct (version_token _ Ov) as [_ V2].
  assert (K : forall l, Forall token_char l -> Forall (fun c => c <> 0 /\ c <> LF) l) by (intros l F; eapply Forall_impl; [exact F|]; intros c (? & ? & ? & ?); done).
  unfold line_start. apply Forall_app. split; [|by constructor].
  apply Forall_app. split; [by apply K|]. constructor; [done|]. apply Forall_app. split; [by apply K|]. constructor; [done|by apply K].
Qed.

Lemma read_line_run o s q a t buffer r rest :
  parsing q s t buffer -> fresh (q_message q) t -> request_ok r -> t = line_text r ++ rest -> in_state i d o 3 ->
  exists o' m, read_line this request (d_requests d) (Z.of_nat i) (serve o s q a)
      = Ret (None, serve o' s (set_q_message m (lined r q)) (note (Called_request (r_method r) (r_url r) (r_version r)) a)) /\
    before_header m buffer (line_text r) /\ buffer_length m = zlen t /\ in_state i d o' 4 /\ same_but_state o o'.
Proof using N Server.
  intros Ps Fr Ok Et St. pose proof (ps_input _ _ _ _ Ps) as I. destruct (parse_line_run o s q a t buffer r rest Ps Fr Ok Et) as (m & R & Bh & Bl).
  unfold read_line. step_by (message_length_run o s q a t buffer Ps (fr_length _ _ Fr)). step_by (serve_sxe o s q a). cbv zeta.
  rewrite (input_used _ _ I). destruct I as [Sz (O1 & O2 & O3) (post & Ed) _]. set (l := line_start r ++ [CR]).
  assert (Es : t ++ post = l ++ LF :: rest ++ post).
  { rewrite Et, line_starts. unfold l, CRLF. by rewrite <-!(assoc_L (++)). }
  assert (Ll : zlen l < zlen t).
  { rewrite Et, line_starts. unfold l, CRLF. rewrite !zlen_app. change (zlen [CR]) with 1. change (zlen [CR; LF]) with 2. pose proof (zlen_nonneg rest). lia. }
  unfold SXE_BUF. rewrite Ed, Es, (line_end l (rest ++ post) (zlen t) (line_start_chars r Ok) Ll).
  step_by (eq_refl : lift (Ret (Some (zlen l))) (serve o s q a) = Ret (Some (zlen l), serve o s q a)).
  assert (Rc : rd (s_in_buf s) (s_in_consumed s + zlen l - 1) = Some CR).
  { rewrite <-(take_drop (Z.to_nat (s_in_consumed s)) (s_in_buf s)), Ed, Es. unfold l. rewrite <-(assoc_L (++)), (assoc_L (++)).
    apply rd_at. rewrite !zlen_app. change (zlen [CR]) with 1. pose proof (zlen_nonneg t). unfold zlen at 2. rewrite length_take. unfold zlen in *. lia. }
  rewrite Rc. step_by (eq_refl : lift (load (Some CR)) (serve o s q a) = Ret (CR, serve o s q a)). change (negb (CR =? CR)) with false. cbv iota.
  step_by R. rewrite bool_decide_true by done. cbn [negb].
  destruct (serve_move o s (set_q_message m (lined r q)) (note (Called_request (r_method r) (r_url r) (r_version r)) a) 3 4 St) as (o' & R' & St' & F); [lia|].
  exists o', m. split; [by step_by R'|]. by split_and!.
Qed.

(** *** The headers *)

Lemma content_digits_run o s a v : forall q,
  Forall (fun c => isdigit c = true) v ->
  content_digits request v (serve o s q a)
  = Ret (true, serve o s (set_q_in_content_length (foldl (fun n c => u32 (n * 10 + c - 48)) (q_in_content_length q) v) q) a).
Proof using.
  induction v as [|c v IH]; intros q Hv; cbn [content_digits foldl]; [by destruct q|]. apply Forall_cons in Hv as [Hc Hv].
  rewrite Hc. cbn [negb]. step_by (serve_update o s q a (fun q => set_q_in_content_length (u32 (q_in_content_length q * 10 + c - 48)) q)).
  rewrite IH by done. by destruct q.
Qed.

Definition headed (f : field) q : SXE_HTTPD_REQUEST := set_q_in_content_length (length_after (q_in_content_length q) f) q.

Lemma read_header_run o s q a t buffer m pre f c post :
  parsing q s t buffer -> q_message q = parsed_field m (zlen pre) f -> buffer = pre ++ field_text f ++ c :: post -> field_ok f -> length_ok f ->
  read_header request self (serve o s q a) = Ret (None, serve o s (headed f q) (note (Called_header (f_name f) (rtrim (f_value f))) a)).
Proof using N Server.
  intros Ps Em E Fo Lo. destruct (parsed_accessors m buffer pre f c post E Fo) as (A1 & A2 & A3). cbv zeta in *. rewrite <-Em in A1, A2, A3.
  assert (A4 : sxe_http_message_get_header_name_length (q_message q) = zlen (f_name f)) by by rewrite Em.
  assert (A5 : sxe_http_message_get_header_value_length (q_message q) = zlen (rtrim (f_value f))) by by rewrite Em.
  unfold read_header. step_by (serve_request o s q a). cbv zeta. rewrite A1.
  step_by (eq_refl : lift (Ret (zlen pre)) (serve o s q a) = Ret (zlen pre, serve o s q a)).
  step_by (serve_text o s q a buffer _ _ _ (ps_sxe _ _ _ _ Ps) (ps_buffer _ _ _ _ Ps) A2).
  step_by (serve_text o s q a buffer _ _ _ (ps_sxe _ _ _ _ Ps) (ps_buffer _ _ _ _ Ps) A3).
  rewrite A4, A5. rewrite (cmd_bind_ret _ _ _ (is_length f) (serve o s q a)).
  2: { unfold is_length. destruct (Z.eqb_spec (zlen (f_name f)) 14) as [L|]; [|done]. rewrite L. change (Z.to_nat 14) with 14%nat.
       destruct (strncaseeq_some 14 (f_name f) HTTPD_CONTENT_LENGTH) as [b ->]; [unfold zlen in L; lia|simpl; lia|done]. }
  rewrite (cmd_bind_ret _ _ _ true (serve o s (headed f q) a)).
  - step_by (serve_server o s (headed f q) a). by step_by (no_header N (f_name f) (rtrim (f_value f)) (serve o s (headed f q) a)).
  - unfold headed, length_after. destruct (is_length f) eqn:Il; [|by destruct q]. destruct (Lo Il) as [Ne Dg].
    rewrite (proj2 (Z.eqb_neq (zlen (rtrim (f_value f))) 0)).
    2: { destruct (rtrim (f_value f)) as [|x v]; [done|]. rewrite zlen_cons. pose proof (zlen_nonneg v). lia. }
    step_by (serve_update o s q a (set_q_in_content_length 0)). rewrite content_digits_run by done. by destruct q.
Qed.

Definition note_header (a : B) (f : field) : B := note (Called_header (f_name f) (rtrim (f_value f))) a.

Lemma headers_loop_run o s t buffer body fs : Forall field_ok fs -> Forall length_ok fs -> forall pre q a fuel,
  parsing q s t buffer -> before_header (q_message q) buffer pre -> buffer = pre ++ headers_text fs ++ CR :: LF :: body ->
  zlen pre + zlen (headers_text fs) + 2 <= buffer_length (q_message q) -> (length fs < fuel)%nat ->
  exists m, headers_loop fuel this request self (serve o s q a)
      = Ret (None, serve o s (set_q_message m (set_q_in_content_length (foldl length_after (q_in_content_length q) fs) q)) (foldl note_header a fs)) /\
    consumed m = zlen pre + zlen (headers_text fs) + 2 /\ next_field m = 0.
Proof using N Server.
  induction 1 as [|f fs Hf Hfs IH]; intros Lo pre q a fuel Ps Bh E Hl Hu; (destruct fuel as [|fuel]; [simpl in Hu; lia|]); cbn [headers_loop].
  - change (headers_text []) with (@nil Z) in *. change (zlen []) with 0 in *.
    destruct (headers_end (q_message q) buffer pre body Bh E) as (m & R & Cm & Nm); [lia|].
    step_by (serve_message o s q a buffer (fun b m => sxe_http_message_parse_next_header b m) _ _ (ps_sxe _ _ _ _ Ps) (ps_buffer _ _ _ _ Ps) R).
    rewrite bool_decide_true by done. exists m. split; [by destruct q|]. split; [lia|done].
  - apply Forall_cons in Lo as [Lf Lo]. destruct (headers_next fs (LF :: body) Hfs) as (c & r & Er & Hc).
    assert (Ht : headers_text (f :: fs) = field_text f ++ headers_text fs) by done.
    assert (E1 : buffer = pre ++ field_text f ++ c :: r) by (by rewrite E, Ht, <-Er, <-!(assoc_L (++))).
    rewrite Ht, zlen_app in Hl |- *. pose proof (zlen_nonneg (headers_text fs)). pose proof (zlen_nonneg (field_text f)).
    pose proof (header_run (q_message q) buffer pre f c r Bh E1 Hf Hc ltac:(lia)) as R. set (m1 := parsed_field (q_message q) (zlen pre) f) in *.
    step_by (serve_message o s q a buffer (fun b m => sxe_http_message_parse_next_header b m) _ _ (ps_sxe _ _ _ _ Ps) (ps_buffer _ _ _ _ Ps) R).
    rewrite (bool_decide_false (SXE_RETURN_OK = SXE_RETURN_END_OF_FILE)), (bool_decide_false (SXE_RETURN_OK = SXE_RETURN_ERROR_BAD_MESSAGE)) by done.
    set (q1 := set_q_message m1 q). pose proof (parsing_same q q1 s t buffer Ps eq_refl eq_refl eq_refl) as P1.
    step_by (serve_request o s q1 a). change (sxe_http_message_get_ignore_length (q_message q1)) with 0. change (negb (0 =? 0)) with false. cbv iota.
    rewrite (bool_decide_false (SXE_RETURN_OK = SXE_RETURN_WARN_WOULD_BLOCK)) by done.
    step_by (assert1_ret (bool_decide (SXE_RETURN_OK = SXE_RETURN_OK)) (serve o s q1 a) (bool_decide_true _ eq_refl)).
    step_by (read_header_run o s q1 a t buffer (q_message q) pre f c r P1 eq_refl E1 Hf Lf).
    assert (B1 : before_header m1 buffer (pre ++ field_text f)).
    { destruct Bh as [Hn Hp Hi Hl' Hbig Hle]. split; simpl; try done; rewrite ?zlen_app; lia. }
    destruct (IH Lo (pre ++ field_text f) (headed f q1) (note_header a f) fuel) as (m & R2 & C2 & N2);
      [by apply (parsing_same q1)|exact B1|by rewrite E, Ht, <-!(assoc_L (++))|rewrite zlen_app; simpl; lia|simpl in Hu; lia|].
    exists m. split; [|split; [rewrite C2, zlen_app; lia|done]]. unfold note_header in R2 at 1. rewrite R2. cbn [foldl]. by destruct q.
Qed.

Lemma headers_count fs : Forall field_ok fs -> Z.of_nat (length fs) <= zlen (headers_text fs).
Proof using.
  induction 1 as [|f fs _ _ IH]; [done|]. change (headers_text (f :: fs)) with (field_text f ++ headers_text fs).
  rewrite zlen_app, field_text_length. pose proof (zlen_nonneg (f_name f)). pose proof (zlen_nonneg (f_lead f)).
  pose proof (zlen_nonneg (f_value f)). simpl. lia.
Qed.

(** The request behind its head. *)
Definition bodied (r : http_request) m q : SXE_HTTPD_REQUEST :=
  set_q_in_content_seen 0 (set_q_message m (set_q_in_content_length (foldl length_after (q_in_content_length q) (r_fields r)) q)).

Lemma read_headers_run_all o s q a t buffer r rest :
  parsing q s t buffer -> before_header (q_message q) buffer (line_text r) -> buffer_length (q_message q) = zlen t -> request_ok r ->
  t = head_text r ++ rest -> in_state i d o 4 ->
  exists o' s' m, Httpd.read_headers this request self (d_requests d) (Z.of_nat i) (serve o s q a)
      = Ret (inr (zlen (head_text r)), serve o' s' (bodied r m q) (note Called_eoh (foldl note_header a (r_fields r)))) /\
    input s' rest /\ s_user_data s' = s_user_data s /\ in_state i d o' 5 /\ same_but_state o o'.
Proof using N Server.
  intros Ps Bh Bl [_ _ _ [Of Ol]] Et St. destruct (ps_text _ _ _ _ Ps) as [post Eb]. pose proof (ps_input _ _ _ _ Ps) as I.
  assert (E : buffer = line_text r ++ headers_text (r_fields r) ++ CR :: LF :: rest ++ post).
  { rewrite Eb, Et. unfold head_text, CRLF. by rewrite <-!(assoc_L (++)). }
  assert (Lh : zlen (head_text r) = zlen (line_text r) + zlen (headers_text (r_fields r)) + 2).
  { unfold head_text. rewrite !zlen_app. change (zlen CRLF) with 2. lia. }
  assert (Lt : zlen t = zlen (head_text r) + zlen rest) by by rewrite Et, zlen_app.
  pose proof (zlen_nonneg rest). pose proof (zlen_nonneg (line_text r)). pose proof (headers_count _ Of) as Hc.
  unfold Httpd.read_headers. step_by (message_length_run o s q a t buffer Ps Bl).
  destruct (headers_loop_run o s t buffer (rest ++ post) (r_fields r) Of Ol (line_text r) q a HEADERS_FUEL Ps Bh E) as (m & R & Cm & Nm); [lia| |].
  { destruct I as [_ (O1 & O2 & O3) _ _]. unfold HEADERS_FUEL. unfold SXE_BUF_SIZE in *. lia. }
  step_by R. set (q1 := set_q_message m _). set (a1 := foldl note_header a _). pose proof (parsing_same q q1 s t buffer Ps eq_refl eq_refl eq_refl) as P1.
  assert (Rc : exists m', sxe_http_message_consume_parsed_headers m = (zlen (head_text r), m')).
  { unfold sxe_http_message_consume_parsed_headers. rewrite Nm. cbn [Z.eqb negb]. eexists. rewrite Cm, Lh. reflexivity. }
  destruct Rc as (m' & Rc).
  step_by (serve_message o s q1 a1 buffer (fun _ m => Ret (sxe_http_message_consume_parsed_headers m)) _ m' (ps_sxe _ _ _ _ P1) (ps_buffer _ _ _ _ P1)
    (f_equal Ret Rc)). set (q2 := set_q_message m' q1).
  destruct (serve_consume o s q2 a1 (head_text r) rest) as (s' & R2 & I2 & _ & U2); [by rewrite <-Et|]. step_by R2.
  step_by (serve_server o s' q2 a1). step_by (no_eoh N (serve o s' q2 a1)). set (a2 := note Called_eoh _).
  change (with_state a2 (serve o s' q2 a1)) with (serve o s' q2 a2). step_by (serve_update o s' q2 a2 (set_q_in_content_seen 0)).
  destruct (serve_move o s' (set_q_in_content_seen 0 q2) a2 4 5 St) as (o' & R3 & St' & F); [lia|].
  exists o', s', m'. split; [|by split_and!]. step_by R3. unfold bodied. by destruct q.
Qed.

(** *** The body *)

Lemma input_slice s t1 t2 : input s (t1 ++ t2) -> slice (s_in_buf s) (SXE_BUF s) (zlen t1) = Some t1.
Proof using.
  intros [Sz (O1 & O2 & O3) (post & Ed) _]. rewrite zlen_app in *. pose proof (zlen_nonneg t1). pose proof (zlen_nonneg t2).
  unfold SXE_BUF. rewrite slice_Some by lia. rewrite Ed, <-(assoc_L (++)). f_equal. unfold zlen. by rewrite Nat2Z.id, take_app_length.
Qed.

(** A piece of the body: what is unread, up to the end of the body. *)
Definition piece_length q (t : list Z) : Z := Z.min (zlen t) (q_in_content_length q - q_in_content_seen q).
Definition piece q (t : list Z) : list Z := take (Z.to_nat (piece_length q t)) t.
Definition has_piece q (t : list Z) : bool := negb (q_in_content_length q =? 0) && negb (zlen t =? 0).
Definition note_piece q (t : list Z) (a : B) : B := if has_piece q t then note (Called_body (piece q t)) a else a.
Definition pieced q (t : list Z) : SXE_HTTPD_REQUEST := set_q_in_content_seen (q_in_content_seen q + piece_length q t) q.
Definition complete q : bool := q_in_content_length q <=? q_in_content_seen q.

(** Without a piece nothing is unread or wanted. *)
Lemma no_piece q t : has_piece q t = false -> 0 <= q_in_content_seen q <= q_in_content_length q -> piece_length q t = 0.
Proof using. unfold has_piece, piece_length. intros E Hs. pose proof (zlen_nonneg t). lia. Qed.

Lemma pieced_none q t : has_piece q t = false -> 0 <= q_in_content_seen q <= q_in_content_length q -> pieced q t = q.
Proof using. intros E Hs. unfold pieced. rewrite (no_piece q t E Hs), Z.add_0_r. by destruct q. Qed.

(** The piece is taken. *)
Lemma take_piece_run o s q a t cons :
  input s t -> 0 <= q_in_content_seen q <= q_in_content_length q -> is_u32 (q_in_content_length q) -> 0 <= cons -> cons + zlen t < 4294967296 ->
  exists s', (if negb (q_in_content_length q =? 0) && negb (SXE_BUF_USED s =? 0) then
       let chunk := SXE_BUF s in
       let data_len := Z.min (SXE_BUF_USED s) (u32 (q_in_content_length q - q_in_content_seen q)) in
       sxe_buf_consume this data_len;;
       upd_request request (fun q => set_q_in_content_seen (u32 (q_in_content_seen q + data_len)) q);;
       d ← rd_httpd self;
       s ← rd_sxe this;
       data ← lift (load (slice (s_in_buf s) chunk data_len));
       call_on_body (d_on_body d) request data;;
       mret (u32 (cons + data_len))
     else mret cons) (serve o s q a) = Ret (cons + piece_length q t, serve o s' (pieced q t) (note_piece q t a)) /\
    input s' (drop (Z.to_nat (piece_length q t)) t) /\ s_user_data s' = s_user_data s.
Proof using N Server.
  intros I Hs Hl Hc1 Hc2. pose proof (zlen_nonneg t). pose proof (input_used _ _ I) as Us. rewrite Us. fold (has_piece q t). unfold note_piece.
  destruct (has_piece q t) eqn:Hp.
  2: { exists s. rewrite (pieced_none q t Hp Hs), (no_piece q t Hp Hs), Z.add_0_r. by split_and!. }
  cbv zeta. unfold is_u32 in Hl. rewrite (u32_small (q_in_content_length q - q_in_content_seen q)) by (unfold is_u32; lia).
  fold (piece_length q t). assert (Hn : 0 <= piece_length q t <= zlen t) by (unfold piece_length; lia).
  assert (Ln : zlen (piece q t) = piece_length q t) by (unfold piece, zlen in *; rewrite length_take; lia).
  assert (Et : t = piece q t ++ drop (Z.to_nat (piece_length q t)) t) by (unfold piece; by rewrite take_drop).
  assert (I' : input s (piece q t ++ drop (Z.to_nat (piece_length q t)) t)) by by rewrite <-Et.
  destruct (serve_consume o s q a _ _ I') as (s' & R & I2 & Eb & U2). pose proof (input_slice _ _ _ I') as Sl. rewrite Ln in R, Sl.
  exists s'. split; [|done]. step_by R.
  step_by (serve_update o s' q a (fun x => set_q_in_content_seen (u32 (q_in_content_seen x + piece_length q t)) x)).
  assert (set_q_in_content_seen (u32 (q_in_content_seen q + piece_length q t)) q = pieced q t) as ->.
  { unfold pieced. rewrite u32_small; [done|]. unfold is_u32, piece_length in *. lia. }
  step_by (serve_server o s' (pieced q t) a). step_by (serve_sxe o s' (pieced q t) a). rewrite Eb, Sl.
  step_by (eq_refl : lift (load (Some (piece q t))) (serve o s' (pieced q t) a) = Ret (piece q t, serve o s' (pieced q t) a)).
  step_by (no_body N (piece q t) (serve o s' (pieced q t) a)). rewrite u32_small by (unfold is_u32; lia). done.
Qed.

Lemma read_body_run o s q a t cons :
  input s t -> 0 <= q_in_content_seen q <= q_in_content_length q -> is_u32 (q_in_content_length q) -> 0 <= cons -> cons + zlen t < 4294967296 ->
  in_state i d o 5 ->
  exists o' s', read_body this request self (d_requests d) (Z.of_nat i) cons (serve o s q a)
      = ((if complete (pieced q t) then call_on_respond (d_on_respond d) request else mret tt);; mret (Early_out (cons + piece_length q t)))
          (serve o' s' (pieced q t) (note_piece q t a)) /\
    input s' (drop (Z.to_nat (piece_length q t)) t) /\ s_user_data s' = s_user_data s /\
    in_state i d o' (if complete (pieced q t) then 6 else 5) /\ same_but_state o o'.
Proof using N Server.
  intros I Hs Hl Hc1 Hc2 St. destruct (take_piece_run o s q a t cons I Hs Hl Hc1 Hc2) as (s' & R & I' & U).
  unfold read_body. step_by (serve_request o s q a). step_by (serve_sxe o s q a). step_by R. set (q' := pieced q t). set (a' := note_piece q t a).
  step_by (serve_request o s' q' a'). fold (complete q'). destruct (complete q').
  - destruct (serve_move o s' q' a' 5 6 St) as (o' & R' & St' & F); [lia|]. exists o', s'. split; [|by split_and!].
    unfold mbind at 1, cmd_bind at 1. step_by R'. step_by (serve_server o' s' q' a'). done.
  - exists o, s'. by split_and!.
Qed.

(** ** A read event *)

(** What sxe_httpd_event_read does at its end, and what it does before that when the request is complete. *)
Definition finish_read (consumed : Z) : cmd (world (httpd B)) unit :=
  state ← on_objs (pool_state_of (d_requests d) (Z.of_nat i));
  q ← rd_request request;
  if (0 <? consumed) && negb (q_paused q) && negb (state =? SXE_HTTPD_CONN_FREE) then sxe_buf_resume this SXE_BUF_RESUME_IMMEDIATE else mret tt.
Definition respond_and_finish (full : bool) (consumed : Z) : cmd (world (httpd B)) unit :=
  (if full then call_on_respond (d_on_respond d) request else mret tt);; finish_read consumed.

Lemma event_read_run o s q a k n (full : bool) consumed w :
  s_user_data s = request -> q_server q = self -> q_paused q = false -> in_state i d o k ->
  read_in_state this request self (d_requests d) (Z.of_nat i) (Z.of_nat k) (serve o s q a)
    = ((if full then call_on_respond (d_on_respond d) request else mret tt);; mret (Early_out consumed)) w ->
  sxe_httpd_event_read this n (serve o s q a) = respond_and_finish full consumed w.
Proof using P Server.
  intros U Qs Qp St R. unfold sxe_httpd_event_read, user_request. unfold mbind at 1, cmd_bind at 1. step_by (serve_sxe o s q a). rewrite U.
  unfold mret at 1, cmd_ret at 1. cbv beta iota. step_by (serve_request o s q a). cbv zeta. rewrite Qs. step_by (serve_server o s q a).
  rewrite (request_index request i d P), Qp. unfold mbind at 1, cmd_bind at 1. step_by (serve_state o s q a k St).
  unfold mbind at 1, cmd_bind at 1. rewrite R. unfold respond_and_finish.
  set (c := (if full then call_on_respond (d_on_respond d) request else mret tt) : cmd (world (httpd B)) unit).
  unfold mbind, cmd_bind. by destruct (c w) as [[[] w']| |].
Qed.

Lemma serve_self s q : w_sxes w0 !! this = Some s -> h_requests (w_app w0) !! request = Some q -> serve (w_objs w0) s q (h_app (w_app w0)) = w0.
Proof using Server. intros E1 E2. unfold serve. rewrite !insert_id by done. by destruct w0 as [? ? ? ? ? []]. Qed.

Lemma digits_u32 v : is_u32 (digits_value v).
Proof using.
  unfold digits_value. induction v as [|c v _] using rev_ind; [done|]. rewrite foldl_app. cbn [foldl]. apply u32_range.
Qed.
Lemma content_length_u32 fs : is_u32 (content_length fs).
Proof using.
  unfold content_length. induction fs as [|f fs IH] using rev_ind; [done|]. rewrite foldl_app. cbn [foldl]. unfold length_after at 1.
  destruct (is_length f); [apply digits_u32|done].
Qed.

(** The calls that a request's text prescribes, when [rest] follows its head. *)
Definition head_calls (r : http_request) : list call :=
  Called_request (r_method r) (r_url r) (r_version r) :: ((fun f => Called_header (f_name f) (rtrim (f_value f))) <$> r_fields r) ++ [Called_eoh].
Definition body_calls (n : Z) (rest : list Z) : list call :=
  if negb (n =? 0) && negb (zlen rest =? 0) then [Called_body (take (Z.to_nat n) rest)] else [].
Definition notes (a : B) (calls : list call) : B := foldl (flip note) a calls.

Lemma notes_head r a : notes a (head_calls r) = note Called_eoh (foldl note_header (note (Called_request (r_method r) (r_url r) (r_version r)) a) (r_fields r)).
Proof using. unfold notes, head_calls. cbn [foldl flip]. rewrite foldl_app, foldl_fmap. done. Qed.

Lemma notes_piece q t a : q_in_content_seen q = 0 -> note_piece q t a = notes a (body_calls (q_in_content_length q) t).
Proof using.
  intros Es. unfold note_piece, has_piece, body_calls. destruct (_ && _); [|done]. unfold notes, piece, piece_length. cbn [foldl flip].
  rewrite Es, Z.sub_0_r. do 2 f_equal. destruct (Z.min_spec (zlen t) (q_in_content_length q)) as [[? ->]|[? ->]]; [|done].
  unfold zlen in *. rewrite !take_ge by lia. done.
Qed.

(** What the server knows of a connection that has input. *)
Record readable s q (t : list Z) : Prop := {
  rb_sxe : w_sxes w0 !! this = Some s;
  rb_request : h_requests (w_app w0) !! request = Some q;
  rb_user : s_user_data s = request;
  rb_this : q_sxe q = Some this;
  rb_server : q_server q = self;
  rb_paused : q_paused q = false;
  rb_input : input s t;
  rb_size : zlen (s_in_buf s ++ behind_in_buf s) < 4294967290
}.

(** The message that is constructed for the input. *)
Definition constructed q s : SXE_HTTPD_REQUEST :=
  set_q_message_start (SXE_BUF s) (set_q_message (sxe_http_message_construct (q_message q) (SXE_BUF_USED s)) q).

Lemma constructed_parsing s q t : readable s q t ->
  exists buffer, parsing (constructed q s) s t buffer /\ fresh (q_message (constructed q s)) t.
Proof using.
  intros [_ _ _ Qx Qs _ I Sz]. pose proof (input_used _ _ I) as Us. pose proof I as [Zb (O1 & O2 & O3) (post & Ed) _].
  exists (drop (Z.to_nat (s_in_consumed s)) (s_in_buf s ++ behind_in_buf s)). split; [split; try done|split; try done; simpl; by rewrite Us].
  - exists (post ++ behind_in_buf s). pose proof (zlen_nonneg t).
    rewrite drop_app_le by (unfold zlen in *; lia). by rewrite Ed, <-(assoc_L (++)).
  - unfold zlen in *. rewrite length_drop. lia.
Qed.

Lemma split_head r rest : head_text r ++ rest = line_text r ++ headers_text (r_fields r) ++ CRLF ++ rest.
Proof using. unfold head_text. by rewrite <-!(assoc_L (++)). Qed.

(** From the idle state to the body, when the whole head is there. *)
Lemma read_head_run s q r rest :
  readable s q (head_text r ++ rest) -> in_state i d (w_objs w0) 2 -> request_ok r ->
  exists o' s' m, let q' := bodied r m (lined r (constructed q s)) in
    read_in_state this request self (d_requests d) (Z.of_nat i) (Z.of_nat 2) (serve (w_objs w0) s q (h_app (w_app w0)))
      = read_body this request self (d_requests d) (Z.of_nat i) (zlen (head_text r)) (serve o' s' q' (notes (h_app (w_app w0)) (head_calls r))) /\
    input s' rest /\ s_user_data s' = request /\ in_state i d o' 5 /\ same_but_state (w_objs w0) o'.
Proof using N Server.
  intros Rb St Ok. pose proof Rb as [E1 E2 U _ _ _ I _]. destruct (constructed_parsing s q _ Rb) as (buffer & Ps & Fr).
  set (a := h_app (w_app w0)). set (o := w_objs w0) in *. set (q1 := constructed q s) in *.
  unfold read_in_state. change (Z.of_nat 2 =? SXE_HTTPD_CONN_IDLE) with true. cbv iota. step_by (serve_sxe o s q a).
  step_by (serve_update o s q a (fun q => set_q_message_start (SXE_BUF s) (set_q_message (sxe_http_message_construct (q_message q) (SXE_BUF_USED s)) q))).
  fold (constructed q s). fold q1. destruct (serve_move o s q1 a 2 3 St) as (o1 & R1 & St1 & F1); [lia|]. step_by R1.
  destruct (read_line_run o1 s q1 a _ buffer r _ Ps Fr Ok (split_head r rest) St1) as (o2 & m2 & R2 & Bh & Bl & St2 & F2). step_by R2.
  set (q2 := set_q_message m2 (lined r q1)). set (a2 := note _ a).
  pose proof (parsing_same q1 q2 s _ buffer Ps eq_refl eq_refl eq_refl) as P2.
  destruct (read_headers_run_all o2 s q2 a2 _ buffer r rest P2 Bh Bl Ok eq_refl St2) as (o3 & s3 & m3 & R3 & I3 & U3 & St3 & F3). step_by R3.
  exists o3, s3, m3. split; [|split; [done|split; [congruence|split; [done|by rewrite F1, F2, F3]]]].
  rewrite notes_head. assert (bodied r m3 q2 = bodied r m3 (lined r q1)) as -> by (unfold bodied, q2; by destruct q). done.
Qed.

(** The body's first piece, from what the request says. *)
Lemma first_piece q rest cl :
  q_in_content_seen q = 0 -> q_in_content_length q = cl -> 0 <= cl ->
  piece_length q rest = zlen (take (Z.to_nat cl) rest) /\ drop (Z.to_nat (piece_length q rest)) rest = drop (Z.to_nat cl) rest /\
  complete (pieced q rest) = (cl <=? zlen rest).
Proof using.
  intros Es El Hc. pose proof (zlen_nonneg rest). unfold complete, pieced, piece_length. cbn [q_in_content_length q_in_content_seen set_q_in_content_seen].
  rewrite Es, El, Z.sub_0_r, Z.add_0_l. split; [unfold zlen; rewrite length_take; lia|]. split; [|lia].
  destruct (Z.min_spec (zlen rest) cl) as [[? ->]|[? ->]]; [|done]. unfold zlen in *. rewrite !drop_ge by lia. done.
Qed.

(** C11: a request is dispatched. When an idle connection has a whole well-formed head in its buffer (a method and a version that are known,
    a URL, any number of headers), the server calls the application's handlers exactly as the text says: the request with its
    method, URL and version, each header in order with its name and its value without the blanks around it, the end of the
    headers, and, when a Content-Length announces a body and there is some of it, the first piece of the body, up to its end. The last
    Content-Length counts, modulo 2^32. The head and the piece leave the buffer, and no more; when the body is complete, the respond handler is called, and
    the connection waits for a response; otherwise it waits for the rest of the body. *)
Theorem request_dispatch s q r rest n :
  readable s q (head_text r ++ rest) -> q_in_content_length q = 0 -> in_state i d (w_objs w0) 2 -> request_ok r ->
  let cl := content_length (r_fields r) in
  let body := take (Z.to_nat cl) rest in
  let full := cl <=? zlen rest in
  exists o' s' q',
    sxe_httpd_event_read this n w0
      = respond_and_finish full (zlen (head_text r) + zlen body) (serve o' s' q' (notes (h_app (w_app w0)) (head_calls r ++ body_calls cl rest))) /\
    q_method q' = sxe_httpd_parse_method (r_method r) /\ q_version q' = sxe_httpd_parse_version (r_version r) /\
    q_in_content_length q' = cl /\ q_in_content_seen q' = zlen body /\
    input s' (drop (Z.to_nat cl) rest) /\ in_state i d o' (if full then 6 else 5) /\ same_but_state (w_objs w0) o'.
Proof using P N Server.
  intros Rb Cl0 St Ok cl body full. pose proof Rb as [E1 E2 U Qx Qs Qp I Sz].
  destruct (read_head_run s q r rest Rb St Ok) as (o1 & s1 & m & R & I1 & U1 & St1 & F1). cbv zeta in R. set (q1 := bodied _ _ _) in *.
  assert (Hcl : q_in_content_length q1 = cl) by (unfold cl, content_length; by rewrite <-Cl0).
  pose proof (content_length_u32 (r_fields r)) as Hu. fold cl in Hu. unfold is_u32 in Hu.
  destruct (first_piece q1 rest cl eq_refl Hcl ltac:(lia)) as (Pl & Pd & Pc).
  pose proof (zlen_nonneg (head_text r)). pose proof (zlen_nonneg rest). destruct I as [_ (O1 & O2 & O3) _ _]. rewrite zlen_app in O2.
  destruct (read_body_run o1 s1 q1 (notes (h_app (w_app w0)) (head_calls r)) rest (zlen (head_text r)) I1) as (o2 & s2 & R2 & I2 & U2 & St2 & F2);
    [rewrite Hcl; simpl; lia|by rewrite Hcl|lia|unfold SXE_BUF_SIZE in *; lia|done|].
  rewrite Pl, Pc, (notes_piece q1 rest _ eq_refl), Hcl in *. exists o2, s2, (pieced q1 rest).
  split; [|split; [done|split; [done|split; [done|split; [simpl; by rewrite Pl|split; [by rewrite <-Pd|split; [done|by rewrite F1, F2]]]]]]].
  rewrite <-(serve_self s q E1 E2). unfold notes. rewrite foldl_app. fold (notes (h_app (w_app w0)) (head_calls r)).
  apply (event_read_run (w_objs w0) s q _ 2 n full); [done..|]. by rewrite R, R2.
Qed.

(** C12: the rest of a body. When a connection that is in the middle of a body has input, the body handler is called once with the
    unread bytes, but no byte behind the end of the body, and just these leave the buffer; the bytes seen
    are counted, and when they are as many as were announced, the respond handler is called and the connection waits for a response. *)
Theorem body_dispatch s q t n :
  readable s q t -> 0 <= q_in_content_seen q < q_in_content_length q -> is_u32 (q_in_content_length q) -> in_state i d (w_objs w0) 5 -> t <> [] ->
  let missing := q_in_content_length q - q_in_content_seen q in
  let chunk := take (Z.to_nat missing) t in
  let full := missing <=? zlen t in
  exists o' s',
    sxe_httpd_event_read this n w0 = respond_and_finish full (zlen chunk)
      (serve o' s' (set_q_in_content_seen (q_in_content_seen q + zlen chunk) q) (note (Called_body chunk) (h_app (w_app w0)))) /\
    input s' (drop (Z.to_nat missing) t) /\ in_state i d o' (if full then 6 else 5) /\ same_but_state (w_objs w0) o'.
Proof using P N Server.
  intros Rb Hs Hu St Ht missing chunk full. pose proof Rb as [E1 E2 U Qx Qs Qp I Sz]. pose proof (zlen_nonneg t). unfold is_u32 in Hu.
  assert (Hz : zlen t <> 0) by (destruct t as [|c t]; [done|rewrite zlen_cons; pose proof (zlen_nonneg t); lia]).
  assert (Pl : piece_length q t = zlen chunk) by (unfold piece_length, chunk, missing, zlen; rewrite length_take; lia).
  assert (Pt : piece q t = chunk /\ drop (Z.to_nat (piece_length q t)) t = drop (Z.to_nat missing) t).
  { unfold piece, piece_length, chunk. fold missing. destruct (Z.min_spec (zlen t) missing) as [[? ->]|[? ->]]; [|done].
    unfold zlen in *. rewrite !take_ge, !drop_ge by lia. done. }
  assert (Hp : has_piece q t = true) by (unfold has_piece; lia).
  assert (Pc : complete (pieced q t) = full) by (unfold complete, pieced, full, missing, piece_length; simpl; lia).
  destruct Pt as [Pt Pd]. pose proof I as [_ (O1 & O2 & O3) _ _].
  destruct (read_body_run (w_objs w0) s q (h_app (w_app w0)) t 0 I) as (o' & s' & R & I' & _ & St' & F); [lia|done|lia|unfold SXE_BUF_SIZE in *; lia|done|].
  rewrite Pd in I'. unfold note_piece in R. rewrite Pc in R, St'. rewrite Hp, Pl, Pt, Z.add_0_l in R. unfold pieced in R. rewrite Pl in R.
  exists o', s'. split; [|by split_and!].
  etransitivity; [apply (f_equal (sxe_httpd_event_read this n)); symmetry; exact (serve_self s q E1 E2)|].
  by apply (event_read_run (w_objs w0) s q _ 5 n full).
Qed.
End Request.
