(* ===== verification/HttpdExample.v ===== *)
(** * HttpdExample: a server, and what it does on concrete requests (lib-sxe-httpd/sxe-httpd.c)

    The theorems on responses at a concrete connection, and requests on which the server does not do what it means to. *)

From S2P Require Import Prelude StrUtil SxeList Pool Buffer HttpMessage Objects Sxe SxeSend SxeConnect Httpd HttpdResponse HttpdSend HttpdRequest.

Module ResponseExample.

#[export] Instance build : Build := true.
#[export] Instance layout : Layout := {| SIZEOF_SXE := 2000; OFFSETOF_send_list := 1800; OFFSETOF_send_buffer := 1900 |}.
#[export] Instance httpd_layout : HttpdLayout :=
  {| SIZEOF_REQUEST := 200; OFFSETOF_out_buffer_list := 100; OFFSETOF_sendfile_offset := 150; SIZEOF_SXE_BUFFER := 40; behind_in_buf _ := [] |}.

(** The socket takes eight bytes at most of each write. *)
Definition gives (n : Z) : reply := mk_reply n 0 [] 0 zero_addr 0 No_control.
Definition kernel : Kernel := fun t c => match c with Sys_send _ data => gives (Z.min 8 (zlen data)) | _ => gives 0 end.
#[export] Existing Instance kernel.
#[export] Instance kernel_send : SendLaw kernel.
Proof. constructor. intros h fd data. simpl. lia. Qed.
#[export] Instance kernel_progress : SendProgress kernel.
Proof.
  constructor. intros h fd data. simpl. pose proof (zlen_nonneg data). split; [lia|]. intros Hd. destruct data; [done|].
  rewrite zlen_cons. pose proof (zlen_nonneg data). lia.
Qed.

(** The application notes the results that it is told. *)
#[export] Instance handlers : Handlers (list SXE_RETURN) := {
  app_connect _ _ := mret tt;
  app_request _ _ _ _ _ := mret tt;
  app_header _ _ _ _ := mret tt;
  app_eoh _ _ := mret tt;
  app_body _ _ _ := mret tt;
  app_respond _ _ := mret tt;
  app_close _ _ := mret tt;
  app_sent _ _ result _ := fun w => Ret (tt, with_app (mk_state (h_servers (w_app w)) (h_requests (w_app w)) (h_app (w_app w) ++ [result])) w)
}.

(** The server's requests are at 1000 and its buffers at 5000. *)
Definition server : SXE_HTTPD := mk_httpd 1000 2 5000 512 6 0 0 0 0 0 0 0 0.
Definition request (started eoh : bool) : SXE_HTTPD_REQUEST :=
  mk_request 500 (Some 1) 0 SXE_HTTP_METHOD_GET SXE_HTTP_VERSION_1_1 (q_message zero_request) 0 0 0 false started eoh 0 0 0 0.
Definition connection : SXE :=
  mk_sxe (mk_async false false false) (mk_io true sxe_io_cb_read_ptr 7 EV_READ) zero_addr zero_addr None 0 SXE_FLAG_IS_STREAM 7 7 0
    0 0 (replicate 1500 9) 0 0 0 0 None 0 0 0 (mk_walker 0 0 0) 1000 (-1).
Definition piece (x : Z) (text : list Z) : astring := Counted (mk_counted text 512 false false true 0 (x + 40)).

(** The queue has the first buffer, with a text, or none. *)
Definition queued (q : SXE_HTTPD_REQUEST) (text : option (list Z)) : world (httpd (list SXE_RETURN)) :=
  let full := bool_decide (text <> None) in
  mk_world
    (mk_objects
      (<[5000 := mk_spec (mk_abs [if full then seq 1 5 else seq 0 6; if full then [0] else []]%nat (replicate 6 0)) true 0 6]>
         {[1000 := mk_spec (mk_abs [[1]; []; []; []; []; []; [0]]%nat [0; 0]) true 0 2]})
      {[1100 := if full then [5000] else []]} (match text with Some t => {[5000 := piece 5000 t]} | None => ∅ end) 9000)
    {[1 := connection]} ∅ [] (mk_globals 0 2 4096 0 0 true 128 true 0) (mk_state {[500 := server]} {[1000 := q]} []).

Lemma here : placed 1000 server.
Proof. split; simpl; try lia; try done. Qed.

Lemma queued_serving q : serving 1000 server (w_objs (queued q None)) (seq 0 6) [] [] [] [] [].
Proof.
  split; try done.
  - constructor. eexists. split; [reflexivity|]. split; [|by split_and!].
    split; [apply (bool_decide_eq_true_1 _); vm_compute; done|]. intros i. simpl. rewrite !elem_of_cons, elem_of_nil. lia.
  - intros l xs i E Hx _. exfalso. simpl in E. apply lookup_singleton_Some in E as [_ <-]. by apply elem_of_nil in Hx.
Qed.

(** A response whose text is in four buffers. *)
Definition OK : list Z := [79; 75; 0].
Definition X : list Z := [88; 0].
Definition ops : list response_op :=
  [Start 200 OK; Header X (replicate 480 65 ++ [0]) 0; Content_length 600; Copy_body (replicate 600 66) 600].

Lemma ops_fit : response_fits server (request false false) ops.
Proof.
  split; [|split; [|split; [|split; [|done]]]].
  - eexists. split; [reflexivity|]. apply Z.ltb_lt. vm_compute. done.
  - split; [done|]. split; [done|]. split; [lia|]. do 2 eexists. split; [reflexivity|]. split; [vm_compute; reflexivity|].
    apply Z.ltb_lt. vm_compute. done.
  - done.
  - split; [done|]. eexists. split; [vm_compute; reflexivity|]. apply Z.ltb_lt. vm_compute. done.
Qed.

Lemma response_built_witness : exists text o free' ids' ts',
  response_text (request false false) ops = Some text /\
  run_response 1000 ops (queued (request false false) None)
    = Ret (replicate 4 SXE_RETURN_OK, stand 1000 o (response_flags ops (request false false)) (queued (request false false) None)) /\
  serving 1000 server o free' [] ids' ts' [] [] /\ concat ts' = concat [] ++ text /\ free' ++ ids' ≡ₚ seq 0 6 ++ [] /\
  frame server (w_objs (queued (request false false) None)) o.
Proof.
  refine (response_built 500 1000 server here ops (queued (request false false) None) (request false false) (seq 0 6) [] [] [] _ _ _ _ _ _);
    first [done|apply queued_serving|apply ops_fit|vm_compute; lia].
Defined.

(** Six buffers are not enough for 3000 bytes behind the blank line. *)
Lemma copy_all_or_nothing_witness : exists result o q' free' ids' ts',
  sxe_httpd_response_copy_body_data 1000 (replicate 3000 66) 3000 (queued (request true false) None)
    = Ret (result, stand 1000 o q' (queued (request true false) None)) /\
  serving 1000 server o free' [] ids' ts' [] [] /\ free' ++ ids' ≡ₚ seq 0 6 ++ [] /\
  frame server (w_objs (queued (request true false) None)) o /\
  ((result = SXE_RETURN_OK /\ q' = set_q_out_eoh true (request true false) /\ concat ts' = concat [] ++ CRLF ++ replicate 3000 66) \/
   (result = SXE_RETURN_NO_UNUSED_ELEMENTS /\ q' = request true false /\ ids' = [] /\ ts' = [] /\
    (List.length (seq 0 6) < pieces server (zlen (replicate 3000 66)) + 1)%nat)).
Proof.
  refine (copy_all_or_nothing 500 1000 server here (queued (request true false) None) (request true false) (seq 0 6) [] [] []
    (replicate 3000 66) 3000 (replicate 3000 66) _ _ _ _ _ _ _);
    first [done|apply queued_serving|apply Z.ltb_lt; vm_compute; done].
Defined.

(** ** Sending it *)

Lemma answering_seat : seated 1000 0 server.
Proof.
  split; try exact here; simpl; try lia; try done. split; [done|]. intros j.
  unfold out_buffer_list, buffer_at, SXE_HTTPD_BUFFER, SXE_HTTPD_BUFFER_SIZE. simpl. lia.
Qed.

Definition told (result : SXE_RETURN) (a : list SXE_RETURN) : list SXE_RETURN := a ++ [result].
Lemma is_told result w : app_sent 300 1000 result 0 w = Ret (tt, with_state (told result (h_app (w_app w))) w).
Proof. done. Qed.

Definition ready : world (httpd (list SXE_RETURN)) := queued (request true false) (Some (replicate 20 66)).

Lemma ready_serving : serving 1000 server (w_objs ready) (seq 1 5) [] [0%nat] [replicate 20 66] [] [].
Proof.
  split; try done.
  - constructor. eexists. split; [reflexivity|]. split; [|by split_and!].
    split; [apply (bool_decide_eq_true_1 _); vm_compute; done|]. intros i. simpl. rewrite !elem_of_cons, elem_of_nil. lia.
  - intros l xs i E Hx _. left. simpl in E. apply lookup_singleton_Some in E as [<- <-]. split; [done|].
    apply list_elem_of_singleton in Hx. unfold buffer_at, SXE_HTTPD_BUFFER, SXE_HTTPD_BUFFER_SIZE in Hx. simpl in Hx. assert (i = 0%nat) as -> by lia. set_solver.
  - constructor; [|constructor]. eexists. split; [reflexivity|]. split_and!; try done; unfold zlen; simpl; lia.
Qed.

Lemma ready_attached : attached 500 1000 1 server ready (request true false) connection.
Proof. by split. Qed.
Lemma ready_sender : sender 7 connection.
Proof. by split. Qed.
Lemma ready_state : in_state 0 server (w_objs ready) 6.
Proof.
  constructor. eexists. split; [reflexivity|]. split; [|split; [done|apply list_elem_of_here]].
  split; [apply (bool_decide_eq_true_1 _); vm_compute; done|]. intros i. simpl. rewrite !elem_of_cons, elem_of_nil. lia.
Qed.

Lemma response_end_spec_witness : exists result w1 t lost,
  w_trace w1 = [] ++ t /\ delivered 7 t ++ lost = replicate 20 66 ++ CRLF /\
  let finish := sxe_httpd_response_end 1000 300 0 ready = (sxe_buf_resume 1 SXE_BUF_RESUME_IMMEDIATE;; mret result) w1 /\
    finished 1000 0 server 300 0 told result ready (request true false) (seq 1 5 ++ [0%nat]) [] w1 in
  match result with
  | SXE_RETURN_OK => finish /\ lost = []
  | SXE_RETURN_ERROR_NO_CONNECTION | SXE_RETURN_ERROR_INTERNAL => finish
  | SXE_RETURN_IN_PROGRESS => sxe_httpd_response_end 1000 300 0 ready = Ret (result, w1) /\
      exists s' xs' ys', sending 1 7 w1 s' (out_buffer_list 1000) xs' ys' /\ lost = unsent (o_strings (w_objs w1)) ys' /\
        s_io s' = waiting 7 /\ s_out_event_written s' = sxe_httpd_event_response_done_ptr
  | SXE_RETURN_NO_UNUSED_ELEMENTS => sxe_httpd_response_end 1000 300 0 ready = Ret (result, w1) /\
      w1 = stand 1000 (w_objs ready) (with_handler 300 0 (request true false)) ready /\ seq 1 5 = [] /\ false = false
  | _ => False
  end.
Proof.
  refine (response_end_spec 500 1000 1 7 0 server answering_seat 300 0 told is_told ready (request true false) connection 6 (seq 1 5) [] [0%nat]
    [replicate 20 66] _ _ _ _ _ _); first [done|apply ready_attached|apply ready_sender|apply ready_serving|apply ready_state].
Defined.

Lemma response_delivered_witness : exists n w1 t, (n <= 22)%nat /\
  end_and_send 1000 1 300 0 n ready = sxe_buf_resume 1 SXE_BUF_RESUME_IMMEDIATE w1 /\ w_trace w1 = [] ++ t /\
  delivered 7 t = replicate 20 66 ++ CRLF /\
  finished 1000 0 server 300 0 told SXE_RETURN_OK ready (request true false) (seq 1 5 ++ [0%nat]) [] w1.
Proof.
  refine (response_delivered 500 1000 1 7 0 server answering_seat 300 0 told is_told ready (request true false) connection 6 (seq 1 5) [] [0%nat]
    [replicate 20 66] _ _ _ _ _ _ _ _); first [exact kernel_progress|done|apply ready_attached|apply ready_sender|apply ready_serving|apply ready_state|by right].
Defined.

(** What the calls do: the text, and the write events that it takes. *)
Lemma delivered_example :
  match end_and_send 1000 1 300 0 1 ready with
  | Ret (_, w) => delivered 7 (w_trace w) = replicate 20 66 ++ CRLF /\ h_app (w_app w) = [SXE_RETURN_OK]
  | _ => False
  end.
Proof. vm_compute. done. Qed.
(** The data are queued, and the result says that they are not. *)
Lemma added_data_is_refused :
  match sxe_httpd_response_add_body_data 1000 77 [1; 2; 3] 3 (queued (request true true) None) with
  | Ret (result, w) => result = SXE_RETURN_NO_UNUSED_ELEMENTS /\ option_map (@length Z) (o_lists (w_objs w) !! 1100) = Some 1%nat
  | _ => False
  end.
Proof. vm_compute. done. Qed.
End ResponseExample.

(** ** Reading a request *)

Module RequestExample.

#[export] Instance build : Build := true.
#[export] Instance layout : Layout := {| SIZEOF_SXE := 2000; OFFSETOF_send_list := 1800; OFFSETOF_send_buffer := 1900 |}.
#[export] Instance httpd_layout : HttpdLayout :=
  {| SIZEOF_REQUEST := 200; OFFSETOF_out_buffer_list := 100; OFFSETOF_sendfile_offset := 150; SIZEOF_SXE_BUFFER := 40; behind_in_buf _ := [] |}.
#[export] Instance kernel : Kernel := fun t c => mk_reply 0 0 [] 0 zero_addr 0 No_control.

(** The application writes down what it is called with. *)
Definition wrote_down (c : call) (a : list call) : list call := a ++ [c].
Definition write_down (c : call) : cmd (world (httpd (list call))) unit := fun w => Ret (tt, with_state (wrote_down c (h_app (w_app w))) w).
#[export] Instance handlers : Handlers (list call) := {
  app_connect _ _ := mret tt;
  app_request _ _ method url version := write_down (Called_request method url version);
  app_header _ _ key value := write_down (Called_header key value);
  app_eoh _ _ := write_down Called_eoh;
  app_body _ _ chunk := write_down (Called_body chunk);
  app_respond _ _ := mret tt;
  app_close _ _ := mret tt;
  app_sent _ _ _ _ := mret tt
}.

Definition server : SXE_HTTPD := mk_httpd 1000 2 5000 512 6 0 1 2 3 4 5 6 7.
Lemma writes : noting 1000 server wrote_down.
Proof. split; done. Qed.
Lemma request_seat : seated 1000 0 server.
Proof.
  split; try (split; simpl; try lia; done); simpl; try lia; try done. split; [done|]. intros j.
  unfold out_buffer_list, buffer_at, SXE_HTTPD_BUFFER, SXE_HTTPD_BUFFER_SIZE. simpl. lia.
Qed.

(** PUT /a HTTP/1.1, with a Content-Length of 5, and another header without a value. *)
Definition put : http_request :=
  mk_http [80; 85; 84] [47; 97] [72; 84; 84; 80; 47; 49; 46; 49] [mk_field (take 14 HTTPD_CONTENT_LENGTH) [32] [53]; mk_field [88] [] []].
Lemma put_ok : request_ok put.
Proof.
  split.
  - vm_compute. congruence.
  - vm_compute. congruence.
  - split; [done|]. repeat (constructor; [done|]). constructor.
  - split; (constructor; [|constructor; [|constructor]]).
    + split; [done|]. split; [repeat (constructor; [done|]); constructor|]. split; [by repeat constructor|]. split; [|by intros c s [= <- _]].
      constructor. by repeat constructor.
    + split; [done|]. split; [repeat (constructor; [done|]); constructor|]. split; [constructor|]. split; [|done]. constructor. constructor.
    + intros _. vm_compute. split; [congruence|]. by repeat constructor.
    + by intros E.
Qed.

Definition connection (text : list Z) : SXE :=
  mk_sxe (mk_async false false false) (mk_io true sxe_io_cb_read_ptr 7 EV_READ) zero_addr zero_addr None 0 SXE_FLAG_IS_STREAM 7 7 0
    (zlen text) 0 (text ++ replicate (1500 - length text) 9) 0 0 0 0 None 0 0 0 (mk_walker 0 0 0) 1000 (-1).
Definition request (content seen : Z) : SXE_HTTPD_REQUEST :=
  mk_request 500 (Some 1) 0 SXE_HTTP_METHOD_GET SXE_HTTP_VERSION_1_1 (q_message zero_request) 0 content seen false false false 0 0 0 0.
Definition connected (k : nat) (q : SXE_HTTPD_REQUEST) (text : list Z) : world (httpd (list call)) :=
  mk_world
    (mk_objects {[1000 := mk_spec (mk_abs (<[k := [0%nat]]> (<[0%nat := [1%nat]]> (replicate 7 []))) [0; 0]) true 0 2]} ∅ ∅ 9000)
    {[1 := connection text]} ∅ [] (mk_globals 0 2 4096 0 0 true 128 true 0) (mk_state {[500 := server]} {[1000 := q]} []).

Definition body : list Z := [104; 101; 108; 108; 111; 33; 33].
Definition all : list Z := head_text put ++ body.

Lemma connected_readable k content seen text :
  zlen text <= 1500 -> readable 500 1000 1 (connected k (request content seen) text) (connection text) (request content seen) text.
Proof.
  intros Ht. pose proof (zlen_nonneg text).
  assert (Sz : zlen (s_in_buf (connection text)) = 1500) by (simpl; unfold zlen in *; rewrite length_app, length_replicate; lia).
  split; try done.
  - split; [done|simpl; unfold SXE_BUF_SIZE; lia|by eexists|simpl; lia].
  - simpl in *. rewrite app_nil_r. lia.
Qed.

Lemma connected_state k q text : (0 < k < 7)%nat -> in_state 0 server (w_objs (connected k q text)) k.
Proof.
  intros Hk. constructor. eexists. split; [reflexivity|]. cbn [sp_abs queues]. split; [|split; [by rewrite !length_insert|]].
  - destruct k as [|k]; [lia|].
    do 6 (destruct k as [|k]; [split; [apply (bool_decide_eq_true_1 _); vm_compute; done|intros i; simpl; rewrite !elem_of_cons, elem_of_nil; lia]|]).
    lia.
  - unfold queue_of. cbn [sp_abs queues]. rewrite list_lookup_insert_eq by (rewrite length_insert, length_replicate; lia). apply list_elem_of_here.
Qed.

Lemma request_dispatch_witness : exists o' s' q',
  sxe_httpd_event_read 1 (zlen all) (connected 2 (request 0 0) all)
    = respond_and_finish 1000 1 0 server true (zlen (head_text put) + 5)
        (serve 1000 1 (connected 2 (request 0 0) all) o' s' q'
          (notes wrote_down [] [Called_request [80; 85; 84] [47; 97] [72; 84; 84; 80; 47; 49; 46; 49];
             Called_header (take 14 HTTPD_CONTENT_LENGTH) [53]; Called_header [88] []; Called_eoh; Called_body [104; 101; 108; 108; 111]])) /\
  q_method q' = SXE_HTTP_METHOD_PUT /\ q_version q' = SXE_HTTP_VERSION_1_1 /\ q_in_content_length q' = 5 /\ q_in_content_seen q' = 5 /\
  input s' [33; 33] /\ in_state 0 server o' 6 /\ same_but_state server (w_objs (connected 2 (request 0 0) all)) o'.
Proof.
  refine (request_dispatch 500 1000 1 0 server request_seat wrote_down writes (connected 2 (request 0 0) all) eq_refl (connection all) (request 0 0) put body
    (zlen all) _ eq_refl _ put_ok).
  - apply connected_readable. apply Z.leb_le. vm_compute. done.
  - apply connected_state. lia.
Defined.

(** Two bytes of the five were there before. *)
Lemma body_dispatch_witness : exists o' s',
  sxe_httpd_event_read 1 7 (connected 5 (request 5 2) body)
    = respond_and_finish 1000 1 0 server true 3
        (serve 1000 1 (connected 5 (request 5 2) body) o' s' (set_q_in_content_seen 5 (request 5 2)) [Called_body [104; 101; 108]]) /\
  input s' [108; 111; 33; 33] /\ in_state 0 server o' 6 /\ same_but_state server (w_objs (connected 5 (request 5 2) body)) o'.
Proof.
  refine (body_dispatch 500 1000 1 0 server request_seat wrote_down writes (connected 5 (request 5 2) body) eq_refl (connection body) (request 5 2) body 7
    _ _ _ _ _).
  - apply connected_readable. apply Z.leb_le. vm_compute. done.
  - simpl. lia.
  - by vm_compute.
  - apply connected_state. lia.
  - done.
Defined.
End RequestExample.

(** ** What goes wrong *)

Module ServerExample.

#[export] Instance build : Build := true.
#[export] Instance layout : Layout := {| SIZEOF_SXE := 2000; OFFSETOF_send_list := 1800; OFFSETOF_send_buffer := 1900 |}.
(** Behind the input buffer is a byte 0. *)
#[export] Instance httpd_layout : HttpdLayout :=
  {| SIZEOF_REQUEST := 200; OFFSETOF_out_buffer_list := 100; OFFSETOF_sendfile_offset := 150; SIZEOF_SXE_BUFFER := 40; behind_in_buf _ := [0] |}.

(** Text, with CR LF for a newline. *)
Definition text (s : string) : list Z :=
  List.concat (List.map (fun c => if Z.of_nat (Ascii.nat_of_ascii c) =? 10 then [13; 10] else [Z.of_nat (Ascii.nat_of_ascii c)]) (String.list_ascii_of_string s)).

(** A socket accepts one connection, which receives a list of pieces; sending is possible or not. *)
Definition gives (n errno : Z) (l : list Z) : reply := mk_reply n errno l 0 zero_addr 0 No_control.
Definition is_recv (e : event) : bool := match e_call e with Sys_recv _ _ => true | _ => false end.
Definition is_accept (e : event) : bool := match e_call e with Sys_accept _ => true | _ => false end.
Definition kernel (pieces : list (list Z)) (sends : bool) : Kernel := fun t c =>
  match c with
  | Sys_socket _ _ => gives 5 0 []
  | Sys_accept _ => if existsb is_accept t then gives (-1) EWOULDBLOCK [] else gives 6 0 []
  | Sys_recv _ room =>
      match nth_error pieces (length (List.filter is_recv t)) with
      | Some l => let l := take (Z.to_nat room) l in gives (zlen l) 0 l
      | None => gives (-1) EWOULDBLOCK []
      end
  | Sys_send _ l => if sends then gives (zlen l) 0 [] else gives (-1) EWOULDBLOCK []
  | _ => gives 0 0 []
  end.

Definition write_down (c : call) : cmd (world (httpd (list call))) unit := fun w => Ret (tt, with_state (h_app (w_app w) ++ [c]) w).
#[export] Instance handlers : Handlers (list call) := {
  app_connect _ _ := mret tt;
  app_request _ _ method url version := write_down (Called_request method url version);
  app_header _ _ key value := write_down (Called_header key value);
  app_eoh _ _ := write_down Called_eoh;
  app_body _ _ chunk := write_down (Called_body chunk);
  app_respond _ _ := mret tt;
  app_close _ _ := mret tt;
  app_sent _ _ _ _ := mret tt
}.

Definition raw (i : Z) : SXE :=
  mk_sxe (mk_async false false false) (mk_io false sxe_io_cb_read_ptr 0 0) zero_addr zero_addr None 0 0 0 0 0
    0 0 (replicate 1500 9) 0 0 0 0 None 0 0 0 (mk_walker 0 0 0) 0 (-1).
Definition nothing : world (httpd (list call)) :=
  mk_world (mk_objects ∅ ∅ ∅ 10000) ∅ ∅ [] (mk_globals 0 0 0 0 0 false 128 false 7) (mk_state {[500 := mk_httpd 0 0 0 0 0 0 0 0 0 0 0 0 0]} ∅ []).

Section Server.
Context (pieces : list (list Z)) (sends : bool).
#[local] Instance sys : Kernel := kernel pieces sends.
Abbreviation M := (cmd (world (httpd (list call)))).

(** A server that listens and has accepted a connection, which is SXE 1; and turns of the loop: the connection is readable, then the deferred events. *)
Definition start : M unit :=
  sxe_register 3 0;; sxe_init raw;; sxe_httpd_construct (fun _ => zero_request) 500 3 10 512 0;;
  sxe_httpd_set_request_handler 500 1;; sxe_httpd_set_header_handler 500 1;; sxe_httpd_set_eoh_handler 500 1;; sxe_httpd_set_body_handler 500 1;;
  sxe_httpd_listen (fun _ => 0) 500 INADDR_ANY_text 80;;
  io_event (Callbacks0 := httpd_callbacks) 100 2 EV_READ.
Definition turn : M unit :=
  io_event (Callbacks0 := httpd_callbacks) 100 1 EV_READ;; deferred_generic_invoke (Callbacks0 := httpd_callbacks).
Fixpoint turns (n : nat) : M unit := match n with O => mret tt | S n => turn;; turns n end.
Definition run (n : nat) : outcome (unit * world (httpd (list call))) := (start;; turns n) nothing.
(** The request of the connection is closed. *)
Definition drop_connection : M unit := s ← rd_sxe 1; sxe_httpd_close (s_user_data s).
End Server.

(** What was sent: the starts of the responses. *)
Definition answers (r : outcome (unit * world (httpd (list call)))) : outcome (list (list Z)) :=
  match r with
  | Ret (_, w) => Ret (List.concat (List.map (fun e => match e_call e with Sys_send _ l => [take 12 l] | _ => [] end) (w_trace w)))
  | Abort => Abort
  | Fault => Fault
  end.
Definition not_found : list Z := text "HTTP/1.1 404".
Definition bad_request_answer : list Z := text "HTTP/1.1 400".
Definition last_calls (n : nat) (r : outcome (unit * world (httpd (list call)))) : list call :=
  match r with Ret (_, w) => drop (length (h_app (w_app w)) - n) (h_app (w_app w)) | _ => [] end.

Definition get : string := "GET / HTTP/1.1

".

Lemma answers_get : answers (run [text get] true 2) = Ret [not_found].
Proof. vm_compute. done. Qed.

(** After a bad request, the state is set to BAD from IDLE, where the error response leaves it: unless it is still being sent. A client that
    does not read its answer aborts the server. *)
Lemma bad_request_aborts :
  answers (run [text "GARBAGE
"] true 1) = Ret [bad_request_answer] /\ run [text "GARBAGE
"] false 1 = Abort.
Proof. vm_compute. done. Qed.

(** A header that is too long is ignored; then what the message and the buffer know of each other is lost: if the end of the line comes with
    the next header, the request is understood, and if that header comes a moment later, it is bad. *)
Definition long_header : list (list Z) :=
  [text "GET / HTTP/1.1
A: 1
"; text "X: " ++ replicate 1475 88; replicate 1500 88; replicate 1500 88].
Lemma ignored_header_depends_on_pieces :
  answers (run (long_header ++ [text "abc
Foo: bar

"]) true 6) = Ret [not_found] /\
  answers (run (long_header ++ [text "abc
"; text "Foo: bar

"]) true 6) = Ret [bad_request_answer].
Proof. vm_compute. done. Qed.

(** A second request that begins behind the first and then fills the buffer: the bytes are moved to its start, but the
    message's pointer is not. *)
Lemma pipelined_request_is_bad :
  answers (run [text get; text "GET /"; replicate 1477 97; text " HTTP/1.1

"] true 4) = Ret [not_found; not_found] /\
  answers (run [text get ++ text "GET /"; replicate 1477 97; text " HTTP/1.1

"] true 4) = Ret [not_found; bad_request_answer].
Proof. vm_compute. done. Qed.

(** A content length of 2^32 + 2 is taken for 2. *)
Lemma content_length_wraps :
  let r := run [text "PUT / HTTP/1.1
Content-Length: 4294967298

abc"] true 1 in
  answers r = Ret [not_found] /\ last_calls 1 r = [Called_body [97; 98]].
Proof. vm_compute. done. Qed.

(** When a request is closed while its response is being sent, the buffers are not given back: the list is emptied, and they
    stay in use. *)
Lemma close_leaks_buffers :
  match (start [text get] false;; turns [text get] false 1;; drop_connection [text get] false) nothing with
  | Ret (_, w) =>
      option_map (fun d => option_map (fun p => queue_of (sp_abs p) 1) (o_pools (w_objs w) !! d_buffers d)) (h_servers (w_app w) !! 500) = Some (Some [9%nat]) /\
      Forall (fun e => e.2 = []) (map_to_list (o_lists (w_objs w)))
  | _ => False
  end.
Proof. vm_compute. split; [done|]. repeat constructor. Qed.

(** A request that starts with a line feed: the byte in front of the buffer is read. *)
Lemma line_feed_reads_before_buffer : run [[10]] true 1 = Fault.
Proof. vm_compute. done. Qed.
End ServerExample.
