(* ===== verification/Cdb.v ===== *)
(** * Cdb: the key value store of lib-sxe-cdb/sxe-cdb.c

    An instance has three memories that grow with mremap: [kvdata], in which every key and value lies once, behind a header of 1, 3,
    5 or 8 bytes; [sheets], the hash table, 4096 rows of 16 cells in each sheet; and [counts],
    the nodes of the lists of counters. The hash of a key chooses one of 8192 sheet indexes, which name the sheet, and two
    rows. A full sheet is split in two, by giving every other index that names it to a new sheet.
    An ensemble is an array of instances, each with its lock. What the code keeps per thread (the prepared key, a copy of an entry, the
    position of a walk) is the record [TLS].

    Anonymous mappings are zero where nothing was written. Sheets and counts are maps from the cells and
    nodes that were written; an access outside of what is mapped is a fault. *)

From S2P Require Import Prelude Spinlock.

(** ** Constants *)

(** lib-sxe-cdb/sxe-cdb-private.h:26-49, SXE_CDB_KERNEL_PAGE_BYTES. *)
Definition SXE_CDB_KERNEL_PAGE_BYTES : Z := 4096.
Definition SXE_CDB_CACHE_LINE_BYTES : Z := 64.
Definition SXE_CDB_CACHE_LINE_FACTOR : Z := 2.
Definition SXE_CDB_KEYS_PER_ROW : Z := SXE_CDB_CACHE_LINE_BYTES / SXE_CDB_CACHE_LINE_FACTOR / 2.
Definition SXE_CDB_KEYS_PER_ROW_BITS : Z := 4.

(** lib-sxe-cdb/sxe-cdb-private.h:51-57, SXE_CDB_ROW_BYTES. *)
Definition SXE_CDB_ROW_BYTES : Z := SXE_CDB_KEYS_PER_ROW * (2 + 2 + 4).
Definition SXE_CDB_SHEET_BYTES : Z := 2 ^ 19.
Definition SXE_CDB_ROWS_PER_SHEET : Z := SXE_CDB_SHEET_BYTES / SXE_CDB_ROW_BYTES.
Definition SXE_CDB_ROWS_PER_SHEET_BITS : Z := 12.
Definition SXE_CDB_KEYS_PER_SHEET : Z := SXE_CDB_ROWS_PER_SHEET * SXE_CDB_KEYS_PER_ROW.
Definition SXE_CDB_SHEETS_MAX : Z := 2 ^ 30 / 8 / SXE_CDB_KEYS_PER_SHEET * 4.
Definition SXE_CDB_COUNTS_LISTS_MAX : Z := 256.

(** lib-sxe-cdb/sxe-cdb-private.h:74-94, KEY_HEADER_LEN_1_KEY_LEN_MAX. The greatest number of so many bits. *)
Definition len_max (bits : Z) : Z := u32 ((2 ^ (bits - 2) - 1) * 4 + 3).
Definition KEY_HEADER_LEN_1_KEY_LEN_MAX : Z := len_max 3.
Definition KEY_HEADER_LEN_3_KEY_LEN_MAX : Z := len_max 7.
Definition KEY_HEADER_LEN_5_KEY_LEN_MAX : Z := len_max 16.
Definition KEY_HEADER_LEN_8_KEY_LEN_MAX : Z := len_max 24.
Definition KEY_HEADER_LEN_1_VAL_LEN_MAX : Z := len_max 4.
Definition KEY_HEADER_LEN_3_VAL_LEN_MAX : Z := len_max 16.
Definition KEY_HEADER_LEN_5_VAL_LEN_MAX : Z := len_max 16.
Definition KEY_HEADER_LEN_8_VAL_LEN_MAX : Z := len_max 32.

(** lib-sxe-cdb/sxe-cdb.h:167-169, SXE_CDB_UID_NONE. *)
Definition SXE_CDB_COUNT_NONE : Z := 0.
Definition SXE_CDB_HKV_POS_NONE : Z := 0.
Definition SXE_CDB_UID_NONE : Z := 18446744073709551615.

(** ** Data *)

(** lib-sxe-cdb/sxe-cdb-private.h:32-47, SXE_CDB_ROW. One of the 16 cells of a row. *)
Record SXE_CDB_CELL := mk_cell { hash_lo : Z; hash_hi : Z; hkv_pos : Z }.
Definition zero_cell : SXE_CDB_CELL := mk_cell 0 0 0.

(** lib-sxe-cdb/sxe-cdb-private.h:136-141, SXE_CDB_COUNT. *)
Record SXE_CDB_COUNT := mk_count { count : Z; next : Z; last : Z; hkv1 : Z }.
Definition zero_count : SXE_CDB_COUNT := mk_count 0 0 0 0.
Definition SXE_CDB_COUNT_BYTES : Z := 18.

(** lib-sxe-cdb/sxe-cdb-private.h:143-150, SXE_CDB_HKV_LIST. The value of a key that is a counter: three words. *)
Definition SXE_CDB_HKV_LIST_BYTES : Z := 12.

(** A pointer to the bytes of a key or a value: into the instance's memory, or into the thread's copy. *)
Inductive hkv_base := In_kvdata | In_tls.

(** lib-sxe-cdb/sxe-cdb.h:151-157, SXE_CDB_HKV_PART. *)
Record SXE_CDB_HKV_PART := mk_part { hkv_len : Z; key_base : hkv_base; key_at : Z; key_len : Z; val_at : Z; val_len : Z }.

(** lib-sxe-cdb/sxe-cdb-private.h:164-188, SXE_CDB_INSTANCE. [sheets_mapped] is the size of the mapping. *)
Record SXE_CDB_INSTANCE := mk_instance {
  counts : option (gmap Z SXE_CDB_COUNT);
  sheets : gmap (Z * Z * Z) SXE_CDB_CELL;
  sheets_mapped : Z;
  kvdata : list Z;
  kvdata_size : Z;
  kvdata_used : Z;
  kvdata_maximum : Z;
  sheets_size : Z;
  sheets_cells_size : Z;
  sheets_cells_used : Z;
  sheets_split : Z;
  sheets_split_keys : Z;
  keylen_misses : Z;
  memcmp_misses : Z;
  keys_at_start : Z;
  counts_pages : Z;
  counts_size : Z;
  counts_next_free : Z;
  counts_free : Z;
  counts_used : Z;
  counts_hi : list Z;
  counts_lo : list Z;
  sheets_index : list Z
}.

Definition set_counts (v : option (gmap Z SXE_CDB_COUNT)) (c : SXE_CDB_INSTANCE) : SXE_CDB_INSTANCE :=
  mk_instance v (sheets c) (sheets_mapped c) (kvdata c) (kvdata_size c) (kvdata_used c) (kvdata_maximum c) (sheets_size c) (sheets_cells_size c)
    (sheets_cells_used c) (sheets_split c) (sheets_split_keys c) (keylen_misses c) (memcmp_misses c) (keys_at_start c) (counts_pages c) (counts_size c)
    (counts_next_free c) (counts_free c) (counts_used c) (counts_hi c) (counts_lo c) (sheets_index c).
Definition set_sheets (v : gmap (Z * Z * Z) SXE_CDB_CELL) (c : SXE_CDB_INSTANCE) : SXE_CDB_INSTANCE :=
  mk_instance (counts c) v (sheets_mapped c) (kvdata c) (kvdata_size c) (kvdata_used c) (kvdata_maximum c) (sheets_size c) (sheets_cells_size c)
    (sheets_cells_used c) (sheets_split c) (sheets_split_keys c) (keylen_misses c) (memcmp_misses c) (keys_at_start c) (counts_pages c) (counts_size c)
    (counts_next_free c) (counts_free c) (counts_used c) (counts_hi c) (counts_lo c) (sheets_index c).
Definition set_sheets_mapped (v : Z) (c : SXE_CDB_INSTANCE) : SXE_CDB_INSTANCE :=
  mk_instance (counts c) (sheets c) v (kvdata c) (kvdata_size c) (kvdata_used c) (kvdata_maximum c) (sheets_size c) (sheets_cells_size c)
    (sheets_cells_used c) (sheets_split c) (sheets_split_keys c) (keylen_misses c) (memcmp_misses c) (keys_at_start c) (counts_pages c) (counts_size c)
    (counts_next_free c) (counts_free c) (counts_used c) (counts_hi c) (counts_lo c) (sheets_index c).
Definition set_kvdata (v : list Z) (c : SXE_CDB_INSTANCE) : SXE_CDB_INSTANCE :=
  mk_instance (counts c) (sheets c) (sheets_mapped c) v (kvdata_size c) (kvdata_used c) (kvdata_maximum c) (sheets_size c) (sheets_cells_size c)
    (sheets_cells_used c) (sheets_split c) (sheets_split_keys c) (keylen_misses c) (memcmp_misses c) (keys_at_start c) (counts_pages c) (counts_size c)
    (counts_next_free c) (counts_free c) (counts_used c) (counts_hi c) (counts_lo c) (sheets_index c).
Definition set_kvdata_size (v : Z) (c : SXE_CDB_INSTANCE) : SXE_CDB_INSTANCE :=
  mk_instance (counts c) (sheets c) (sheets_mapped c) (kvdata c) v (kvdata_used c) (kvdata_maximum c) (sheets_size c) (sheets_cells_size c)
    (sheets_cells_used c) (sheets_split c) (sheets_split_keys c) (keylen_misses c) (memcmp_misses c) (keys_at_start c) (counts_pages c) (counts_size c)
    (counts_next_free c) (counts_free c) (counts_used c) (counts_hi c) (counts_lo c) (sheets_index c).
Definition set_kvdata_used (v : Z) (c : SXE_CDB_INSTANCE) : SXE_CDB_INSTANCE :=
  mk_instance (counts c) (sheets c) (sheets_mapped c) (kvdata c) (kvdata_size c) v (kvdata_maximum c) (sheets_size c) (sheets_cells_size c)
    (sheets_cells_used c) (sheets_split c) (sheets_split_keys c) (keylen_misses c) (memcmp_misses c) (keys_at_start c) (counts_pages c) (counts_size c)
    (counts_next_free c) (counts_free c) (counts_used c) (counts_hi c) (counts_lo c) (sheets_index c).
Definition set_kvdata_maximum (v : Z) (c : SXE_CDB_INSTANCE) : SXE_CDB_INSTANCE :=
  mk_instance (counts c) (sheets c) (sheets_mapped c) (kvdata c) (kvdata_size c) (kvdata_used c) v (sheets_size c) (sheets_cells_size c)
    (sheets_cells_used c) (sheets_split c) (sheets_split_keys c) (keylen_misses c) (memcmp_misses c) (keys_at_start c) (counts_pages c) (counts_size c)
    (counts_next_free c) (counts_free c) (counts_used c) (counts_hi c) (counts_lo c) (sheets_index c).
Definition set_sheets_size (v : Z) (c : SXE_CDB_INSTANCE) : SXE_CDB_INSTANCE :=
  mk_instance (counts c) (sheets c) (sheets_mapped c) (kvdata c) (kvdata_size c) (kvdata_used c) (kvdata_maximum c) v (sheets_cells_size c)
    (sheets_cells_used c) (sheets_split c) (sheets_split_keys c) (keylen_misses c) (memcmp_misses c) (keys_at_start c) (counts_pages c) (counts_size c)
    (counts_next_free c) (counts_free c) (counts_used c) (counts_hi c) (counts_lo c) (sheets_index c).
Definition set_sheets_cells_size (v : Z) (c : SXE_CDB_INSTANCE) : SXE_CDB_INSTANCE :=
  mk_instance (counts c) (sheets c) (sheets_mapped c) (kvdata c) (kvdata_size c) (kvdata_used c) (kvdata_maximum c) (sheets_size c) v
    (sheets_cells_used c) (sheets_split c) (sheets_split_keys c) (keylen_misses c) (memcmp_misses c) (keys_at_start c) (counts_pages c) (counts_size c)
    (counts_next_free c) (counts_free c) (counts_used c) (counts_hi c) (counts_lo c) (sheets_index c).
Definition set_sheets_cells_used (v : Z) (c : SXE_CDB_INSTANCE) : SXE_CDB_INSTANCE :=
  mk_instance (counts c) (sheets c) (sheets_mapped c) (kvdata c) (kvdata_size c) (kvdata_used c) (kvdata_maximum c) (sheets_size c) (sheets_cells_size
    c) v (sheets_split c) (sheets_split_keys c) (keylen_misses c) (memcmp_misses c) (keys_at_start c) (counts_pages c) (counts_size c)
    (counts_next_free c) (counts_free c) (counts_used c) (counts_hi c) (counts_lo c) (sheets_index c).
Definition set_sheets_split (v : Z) (c : SXE_CDB_INSTANCE) : SXE_CDB_INSTANCE :=
  mk_instance (counts c) (sheets c) (sheets_mapped c) (kvdata c) (kvdata_size c) (kvdata_used c) (kvdata_maximum c) (sheets_size c) (sheets_cells_size
    c) (sheets_cells_used c) v (sheets_split_keys c) (keylen_misses c) (memcmp_misses c) (keys_at_start c) (counts_pages c) (counts_size c)
    (counts_next_free c) (counts_free c) (counts_used c) (counts_hi c) (counts_lo c) (sheets_index c).
Definition set_sheets_split_keys (v : Z) (c : SXE_CDB_INSTANCE) : SXE_CDB_INSTANCE :=
  mk_instance (counts c) (sheets c) (sheets_mapped c) (kvdata c) (kvdata_size c) (kvdata_used c) (kvdata_maximum c) (sheets_size c) (sheets_cells_size
    c) (sheets_cells_used c) (sheets_split c) v (keylen_misses c) (memcmp_misses c) (keys_at_start c) (counts_pages c) (counts_size c)
    (counts_next_free c) (counts_free c) (counts_used c) (counts_hi c) (counts_lo c) (sheets_index c).
Definition set_keylen_misses (v : Z) (c : SXE_CDB_INSTANCE) : SXE_CDB_INSTANCE :=
  mk_instance (counts c) (sheets c) (sheets_mapped c) (kvdata c) (kvdata_size c) (kvdata_used c) (kvdata_maximum c) (sheets_size c) (sheets_cells_size
    c) (sheets_cells_used c) (sheets_split c) (sheets_split_keys c) v (memcmp_misses c) (keys_at_start c) (counts_pages c) (counts_size c)
    (counts_next_free c) (counts_free c) (counts_used c) (counts_hi c) (counts_lo c) (sheets_index c).
Definition set_memcmp_misses (v : Z) (c : SXE_CDB_INSTANCE) : SXE_CDB_INSTANCE :=
  mk_instance (counts c) (sheets c) (sheets_mapped c) (kvdata c) (kvdata_size c) (kvdata_used c) (kvdata_maximum c) (sheets_size c) (sheets_cells_size
    c) (sheets_cells_used c) (sheets_split c) (sheets_split_keys c) (keylen_misses c) v (keys_at_start c) (counts_pages c) (counts_size c)
    (counts_next_free c) (counts_free c) (counts_used c) (counts_hi c) (counts_lo c) (sheets_index c).
Definition set_keys_at_start (v : Z) (c : SXE_CDB_INSTANCE) : SXE_CDB_INSTANCE :=
  mk_instance (counts c) (sheets c) (sheets_mapped c) (kvdata c) (kvdata_size c) (kvdata_used c) (kvdata_maximum c) (sheets_size c) (sheets_cells_size
    c) (sheets_cells_used c) (sheets_split c) (sheets_split_keys c) (keylen_misses c) (memcmp_misses c) v (counts_pages c) (counts_size c)
    (counts_next_free c) (counts_free c) (counts_used c) (counts_hi c) (counts_lo c) (sheets_index c).
Definition set_counts_pages (v : Z) (c : SXE_CDB_INSTANCE) : SXE_CDB_INSTANCE :=
  mk_instance (counts c) (sheets c) (sheets_mapped c) (kvdata c) (kvdata_size c) (kvdata_used c) (kvdata_maximum c) (sheets_size c) (sheets_cells_size
    c) (sheets_cells_used c) (sheets_split c) (sheets_split_keys c) (keylen_misses c) (memcmp_misses c) (keys_at_start c) v (counts_size c)
    (counts_next_free c) (counts_free c) (counts_used c) (counts_hi c) (counts_lo c) (sheets_index c).
Definition set_counts_size (v : Z) (c : SXE_CDB_INSTANCE) : SXE_CDB_INSTANCE :=
  mk_instance (counts c) (sheets c) (sheets_mapped c) (kvdata c) (kvdata_size c) (kvdata_used c) (kvdata_maximum c) (sheets_size c) (sheets_cells_size
    c) (sheets_cells_used c) (sheets_split c) (sheets_split_keys c) (keylen_misses c) (memcmp_misses c) (keys_at_start c) (counts_pages c) v
    (counts_next_free c) (counts_free c) (counts_used c) (counts_hi c) (counts_lo c) (sheets_index c).
Definition set_counts_next_free (v : Z) (c : SXE_CDB_INSTANCE) : SXE_CDB_INSTANCE :=
  mk_instance (counts c) (sheets c) (sheets_mapped c) (kvdata c) (kvdata_size c) (kvdata_used c) (kvdata_maximum c) (sheets_size c) (sheets_cells_size
    c) (sheets_cells_used c) (sheets_split c) (sheets_split_keys c) (keylen_misses c) (memcmp_misses c) (keys_at_start c) (counts_pages c) (counts_size
    c) v (counts_free c) (counts_used c) (counts_hi c) (counts_lo c) (sheets_index c).
Definition set_counts_free (v : Z) (c : SXE_CDB_INSTANCE) : SXE_CDB_INSTANCE :=
  mk_instance (counts c) (sheets c) (sheets_mapped c) (kvdata c) (kvdata_size c) (kvdata_used c) (kvdata_maximum c) (sheets_size c) (sheets_cells_size
    c) (sheets_cells_used c) (sheets_split c) (sheets_split_keys c) (keylen_misses c) (memcmp_misses c) (keys_at_start c) (counts_pages c) (counts_size
    c) (counts_next_free c) v (counts_used c) (counts_hi c) (counts_lo c) (sheets_index c).
Definition set_counts_used (v : Z) (c : SXE_CDB_INSTANCE) : SXE_CDB_INSTANCE :=
  mk_instance (counts c) (sheets c) (sheets_mapped c) (kvdata c) (kvdata_size c) (kvdata_used c) (kvdata_maximum c) (sheets_size c) (sheets_cells_size
    c) (sheets_cells_used c) (sheets_split c) (sheets_split_keys c) (keylen_misses c) (memcmp_misses c) (keys_at_start c) (counts_pages c) (counts_size
    c) (counts_next_free c) (counts_free c) v (counts_hi c) (counts_lo c) (sheets_index c).
Definition set_counts_hi (v : list Z) (c : SXE_CDB_INSTANCE) : SXE_CDB_INSTANCE :=
  mk_instance (counts c) (sheets c) (sheets_mapped c) (kvdata c) (kvdata_size c) (kvdata_used c) (kvdata_maximum c) (sheets_size c) (sheets_cells_size
    c) (sheets_cells_used c) (sheets_split c) (sheets_split_keys c) (keylen_misses c) (memcmp_misses c) (keys_at_start c) (counts_pages c) (counts_size
    c) (counts_next_free c) (counts_free c) (counts_used c) v (counts_lo c) (sheets_index c).
Definition set_counts_lo (v : list Z) (c : SXE_CDB_INSTANCE) : SXE_CDB_INSTANCE :=
  mk_instance (counts c) (sheets c) (sheets_mapped c) (kvdata c) (kvdata_size c) (kvdata_used c) (kvdata_maximum c) (sheets_size c) (sheets_cells_size
    c) (sheets_cells_used c) (sheets_split c) (sheets_split_keys c) (keylen_misses c) (memcmp_misses c) (keys_at_start c) (counts_pages c) (counts_size
    c) (counts_next_free c) (counts_free c) (counts_used c) (counts_hi c) v (sheets_index c).
Definition set_sheets_index (v : list Z) (c : SXE_CDB_INSTANCE) : SXE_CDB_INSTANCE :=
  mk_instance (counts c) (sheets c) (sheets_mapped c) (kvdata c) (kvdata_size c) (kvdata_used c) (kvdata_maximum c) (sheets_size c) (sheets_cells_size
    c) (sheets_cells_used c) (sheets_split c) (sheets_split_keys c) (keylen_misses c) (memcmp_misses c) (keys_at_start c) (counts_pages c) (counts_size
    c) (counts_next_free c) (counts_free c) (counts_used c) (counts_hi c) (counts_lo c) v.

(** lib-sxe-cdb/sxe-cdb.c:34-44, sxe_cdb_tls_hkv. What the code keeps for each thread. *)
Record TLS := mk_tls {
  t_hkv_len_max : Z;
  t_hkv : option (list Z);
  t_part : SXE_CDB_HKV_PART;
  t_walk_cnt_pos : Z;
  t_walk_hkv_pos : Z;
  t_walk_count : Z;
  t_hash : list Z;
  t_key : option (list Z);
  t_key_len : Z
}.

Definition set_t_hkv_len_max (v : Z) (t : TLS) : TLS :=
  mk_tls v (t_hkv t) (t_part t) (t_walk_cnt_pos t) (t_walk_hkv_pos t) (t_walk_count t) (t_hash t) (t_key t) (t_key_len t).
Definition set_t_hkv (v : option (list Z)) (t : TLS) : TLS :=
  mk_tls (t_hkv_len_max t) v (t_part t) (t_walk_cnt_pos t) (t_walk_hkv_pos t) (t_walk_count t) (t_hash t) (t_key t) (t_key_len t).
Definition set_t_part (v : SXE_CDB_HKV_PART) (t : TLS) : TLS :=
  mk_tls (t_hkv_len_max t) (t_hkv t) v (t_walk_cnt_pos t) (t_walk_hkv_pos t) (t_walk_count t) (t_hash t) (t_key t) (t_key_len t).
Definition set_t_walk_cnt_pos (v : Z) (t : TLS) : TLS :=
  mk_tls (t_hkv_len_max t) (t_hkv t) (t_part t) v (t_walk_hkv_pos t) (t_walk_count t) (t_hash t) (t_key t) (t_key_len t).
Definition set_t_walk_hkv_pos (v : Z) (t : TLS) : TLS :=
  mk_tls (t_hkv_len_max t) (t_hkv t) (t_part t) (t_walk_cnt_pos t) v (t_walk_count t) (t_hash t) (t_key t) (t_key_len t).
Definition set_t_walk_count (v : Z) (t : TLS) : TLS :=
  mk_tls (t_hkv_len_max t) (t_hkv t) (t_part t) (t_walk_cnt_pos t) (t_walk_hkv_pos t) v (t_hash t) (t_key t) (t_key_len t).
Definition set_t_hash (v : list Z) (t : TLS) : TLS :=
  mk_tls (t_hkv_len_max t) (t_hkv t) (t_part t) (t_walk_cnt_pos t) (t_walk_hkv_pos t) (t_walk_count t) v (t_key t) (t_key_len t).
Definition set_t_key (v : option (list Z)) (t : TLS) : TLS :=
  mk_tls (t_hkv_len_max t) (t_hkv t) (t_part t) (t_walk_cnt_pos t) (t_walk_hkv_pos t) (t_walk_count t) (t_hash t) v (t_key_len t).
Definition set_t_key_len (v : Z) (t : TLS) : TLS :=
  mk_tls (t_hkv_len_max t) (t_hkv t) (t_part t) (t_walk_cnt_pos t) (t_walk_hkv_pos t) (t_walk_count t) (t_hash t) (t_key t) v.

(** What the operating system and the C library give: whether memory of some size can be mapped, for an instance as
    it stands, unmapped, or allocated, the size of a page; and the hash function, which is third party, of the bytes of a key: 8 words. *)
Class CdbSystem := {
  map_ok : SXE_CDB_INSTANCE -> Z -> bool;
  unmap_ok : SXE_CDB_INSTANCE -> Z -> bool;
  malloc_ok : Z -> bool;
  realloc_ok : Z -> bool;
  getpagesize : Z;
  MurmurHash3_xnn_128 : list Z -> list Z
}.

(** An instance, and the thread that uses it. *)
Record cdb := mk_cdb { inst : SXE_CDB_INSTANCE; tls : TLS }.

Definition rd_inst : cmd cdb SXE_CDB_INSTANCE := gets inst.
Definition upd_inst (f : SXE_CDB_INSTANCE -> SXE_CDB_INSTANCE) : cmd cdb unit := modify (fun s => mk_cdb (f (inst s)) (tls s)).
Definition rd_tls : cmd cdb TLS := gets tls.
Definition upd_tls (f : TLS -> TLS) : cmd cdb unit := modify (fun s => mk_cdb (inst s) (f (tls s))).

(** ** Headers *)

(** lib-sxe-cdb/sxe-cdb.c:348-354, sxe_cdb_instance_put_val. The header that a key and a value of these lengths have. *)
Definition header_len (key_len val_len : Z) : option Z :=
  if key_len =? 0 then None
  else if (key_len <=? KEY_HEADER_LEN_1_KEY_LEN_MAX) && (val_len <=? KEY_HEADER_LEN_1_VAL_LEN_MAX) then Some 1
  else if (key_len <=? KEY_HEADER_LEN_3_KEY_LEN_MAX) && (val_len <=? KEY_HEADER_LEN_3_VAL_LEN_MAX) then Some 3
  else if (key_len <=? KEY_HEADER_LEN_5_KEY_LEN_MAX) && (val_len <=? KEY_HEADER_LEN_5_VAL_LEN_MAX) then Some 5
  else if (key_len <=? KEY_HEADER_LEN_8_KEY_LEN_MAX) && (val_len <=? KEY_HEADER_LEN_8_VAL_LEN_MAX) then Some 8
  else None.

(** The low bytes of a number, as the host stores it. *)
Fixpoint low_bytes (n : nat) (v : Z) : list Z :=
  match n with O => [] | S n => u8 v :: low_bytes n (v / 256) end.
Fixpoint of_bytes (l : list Z) : Z :=
  match l with [] => 0 | b :: l => b + 256 * of_bytes l end.

(** lib-sxe-cdb/sxe-cdb-private.h:96-124, SXE_CDB_HKV. The first byte has the flag, 3 bits and 4 bits, which are lengths or tell the
    header's kind; lengths that do not fit are in the bytes behind. *)
Definition first_byte (flag xxx yyy : Z) : Z := Z.land flag 1 + 2 * Z.land xxx 7 + 16 * Z.land yyy 15.
Definition header_bytes (header_len key_len val_len : Z) : list Z :=
  if header_len =? 1 then [first_byte 0 key_len val_len]
  else if header_len =? 3 then [Z.land 1 1 + 2 * Z.land key_len 127] ++ low_bytes 2 val_len
  else if header_len =? 5 then [first_byte 0 0 0] ++ low_bytes 2 key_len ++ low_bytes 2 val_len
  else [first_byte 0 0 1] ++ low_bytes 3 key_len ++ low_bytes 4 val_len.

(** A number of [n] bytes at [i]. *)
Definition ld_bytes (m : list Z) (i n : Z) : outcome Z := l ← load (slice m i n); mret (of_bytes l).

(** lib-sxe-cdb/sxe-cdb.c:432-441, sxe_cdb_h_len. The tests on the first byte. *)
Definition h_len_of (b : Z) : Z :=
  let flag := Z.land b 1 in
  let xxx := Z.land (Z.shiftr b 1) 7 in
  let yyy := Z.shiftr b 4 in
  if (flag =? 0) && (xxx =? 0) && (yyy =? 1) then 8
  else if (flag =? 0) && (xxx =? 0) && (yyy =? 0) then 5
  else if (flag =? 0) && negb (xxx =? 0) then 1
  else 3.
Definition sxe_cdb_h_len (m : list Z) (hkv : Z) : outcome Z := b ← load (rd m hkv); mret (h_len_of b).

(** lib-sxe-cdb/sxe-cdb.c:421-430, sxe_cdb_hkv_unpack. *)
Definition sxe_cdb_hkv_unpack (base : hkv_base) (m : list Z) (hkv : Z) : outcome SXE_CDB_HKV_PART :=
  b ← load (rd m hkv);
  let h := h_len_of b in
  lens ← (if h =? 8 then k ← ld_bytes m (hkv + 1) 3; v ← ld_bytes m (hkv + 4) 4; mret (k, v)
          else if h =? 5 then k ← ld_bytes m (hkv + 1) 2; v ← ld_bytes m (hkv + 3) 2; mret (k, v)
          else if h =? 1 then mret (Z.land (Z.shiftr b 1) 7, Z.shiftr b 4)
          else v ← ld_bytes m (hkv + 1) 2; mret (Z.shiftr b 1, v));
  let '(k, v) := lens in
  mret (mk_part (u32 (h + k + v)) base (hkv + h) k (hkv + h + k) v).

(** ** Instances *)

Section Instance.
Context `{Build, CdbSystem}.
Abbreviation M := (cmd cdb).

Definition assert_1 (b : bool) : M unit := lift (assert1 b).
Definition assert_6 (b : bool) : M unit := lift (assert6 b).

(** Access to a cell, which must be in what is mapped. *)
Definition cell_mapped (c : SXE_CDB_INSTANCE) (sheet row cell : Z) : bool :=
  (0 <=? sheet) && (SXE_CDB_SHEET_BYTES * (sheet + 1) <=? sheets_mapped c) && (0 <=? row) && (row <? SXE_CDB_ROWS_PER_SHEET) && (0 <=? cell) && (cell <? SXE_CDB_KEYS_PER_ROW).
Definition cell_at (c : SXE_CDB_INSTANCE) (sheet row cell : Z) : SXE_CDB_CELL := default zero_cell (sheets c !! (sheet, row, cell)).
Definition rd_cell (sheet row cell : Z) : M SXE_CDB_CELL :=
  c ← rd_inst; if cell_mapped c sheet row cell then mret (cell_at c sheet row cell) else lift Fault.
Definition wr_cell (sheet row cell : Z) (v : SXE_CDB_CELL) : M unit :=
  c ← rd_inst; if cell_mapped c sheet row cell then upd_inst (set_sheets (<[(sheet, row, cell) := v]> (sheets c))) else lift Fault.

Definition hash_word (i : nat) : M Z := t ← rd_tls; lift (load (t_hash t !! i)).
Definition wr_hash_word (i : nat) (v : Z) : M unit := upd_tls (fun t => set_t_hash (<[i := v]> (t_hash t)) t).
Definition sheet_index_at (i : Z) : M Z := c ← rd_inst; lift (load (rd (sheets_index c) i)).

(** lib-sxe-cdb/sxe-cdb.c:48-55, sxe_cdb_finalize_thread. *)
Definition sxe_cdb_finalize_thread : M unit :=
  t ← rd_tls;
  match t_hkv t with
  | Some _ => upd_tls (set_t_hkv None)
  | None => mret tt
  end.

(** lib-sxe-cdb/sxe-cdb.c:57-74, sxe_cdb_copy_hkv_to_tls. The bytes that realloc adds are all overwritten. *)
Definition sxe_cdb_copy_hkv_to_tls (hkv_pos : Z) : M bool :=
  c ← rd_inst;
  part ← lift (sxe_cdb_hkv_unpack In_kvdata (kvdata c) hkv_pos);
  upd_tls (set_t_part part);;
  t ← rd_tls;
  (if t_hkv_len_max t <? hkv_len part then
     let old := default [] (t_hkv t) in
     let new := if realloc_ok (hkv_len part) then Some (old ++ replicate (Z.to_nat (hkv_len part) - length old) 0) else None in
     upd_tls (set_t_hkv new);;
     upd_tls (set_t_hkv_len_max (match new with Some _ => hkv_len part | None => 0 end));;
     assert_1 (bool_decide (is_Some new))
   else mret tt);;
  t ← rd_tls;
  (if hkv_len part <=? t_hkv_len_max t then
     bytes ← lift (load (slice (kvdata c) hkv_pos (hkv_len part)));
     buffer ← lift (load (t_hkv t));
     buffer ← lift (wr_bytes buffer 0 bytes);
     upd_tls (set_t_hkv (Some buffer));;
     upd_tls (set_t_part (mk_part (hkv_len part) In_tls (hkv_len part - key_len part - val_len part) (key_len part)
                                  (hkv_len part - val_len part) (val_len part)))
   else mret tt);;
  t ← rd_tls;
  mret (bool_decide (is_Some (t_hkv t))).

(** lib-sxe-cdb/sxe-cdb.c:76-82, sxe_cdb_copy_tls_to_hkv. *)
Definition sxe_cdb_copy_tls_to_hkv (hkv_pos : Z) : M unit :=
  c ← rd_inst;
  t ← rd_tls;
  buffer ← lift (load (t_hkv t));
  bytes ← lift (load (slice buffer 0 (hkv_len (t_part t))));
  m ← lift (wr_bytes (kvdata c) hkv_pos bytes);
  upd_inst (set_kvdata m).

(** lib-sxe-cdb/sxe-cdb.c:84-102, sxe_cdb_prepare. *)
Definition distinct_rows : M unit :=
  h1 ← hash_word 1; h2 ← hash_word 2;
  if h1 =? h2 then
    h3 ← hash_word 3; wr_hash_word 1 h3;;
    (if h3 =? h2 then h4 ← hash_word 4; wr_hash_word 1 h4 else mret tt);;
    h1 ← hash_word 1;
    (if h1 =? h2 then wr_hash_word 1 (u16 (h2 + 1)) else mret tt)
  else mret tt.
Definition sxe_cdb_prepare (key : option (list Z)) (key_len : Z) : M unit :=
  (match key with
   | Some k => bytes ← lift (load (slice k 0 key_len)); upd_tls (set_t_hash (MurmurHash3_xnn_128 bytes));; distinct_rows
   | None => mret tt
   end);;
  upd_tls (set_t_key key);;
  upd_tls (set_t_key_len key_len).

(** lib-sxe-cdb/sxe-cdb.c:109-119, sxe_cdb_instance_new_init. The loop over the sheet indexes. *)
Fixpoint deal_indexes (n : nat) (sheet_index sheet_index_max : Z) : list Z :=
  match n with
  | O => []
  | S n =>
      let following := sheet_index + 1 in
      u16 sheet_index :: deal_indexes n (if following >=? sheet_index_max then 0 else following) sheet_index_max
  end.

(** lib-sxe-cdb/sxe-cdb.c:112-142, sxe_cdb_instance_new_init. The fields of a new instance, before memory is mapped for it. *)
Definition sheets_at_start (keys_at_start : Z) : Z :=
  let sheet_index_max := u32 (keys_at_start / SXE_CDB_KEYS_PER_SHEET * 2) in
  if sheet_index_max =? 0 then 1 else sheet_index_max.
Definition blank_instance (keys_at_start kvdata_maximum : Z) : SXE_CDB_INSTANCE :=
  let none := replicate (Z.to_nat SXE_CDB_COUNTS_LISTS_MAX) SXE_CDB_COUNT_NONE in
  mk_instance None ∅ 0 [] SXE_CDB_KERNEL_PAGE_BYTES 1 kvdata_maximum (sheets_at_start keys_at_start) SXE_CDB_KEYS_PER_SHEET 0 0 0 0 0 keys_at_start
              0 0 1 0 0 none none (deal_indexes (Z.to_nat SXE_CDB_SHEETS_MAX) 0 (u32 (keys_at_start / SXE_CDB_KEYS_PER_SHEET * 2))).

(** lib-sxe-cdb/sxe-cdb.c:104-150, sxe_cdb_instance_new_init. *)
Definition sxe_cdb_instance_new_init (keys_at_start kvdata_maximum : Z) : outcome SXE_CDB_INSTANCE :=
  let c := blank_instance keys_at_start kvdata_maximum in
  let bytes := u32 (SXE_CDB_SHEET_BYTES * sheets_size c) in
  assert1 (map_ok c bytes);;
  assert1 (map_ok c SXE_CDB_KERNEL_PAGE_BYTES);;
  mret (set_kvdata (replicate (Z.to_nat SXE_CDB_KERNEL_PAGE_BYTES) 0) (set_sheets_mapped bytes c)).

(** lib-sxe-cdb/sxe-cdb.c:152-203, sxe_cdb_instance_new. *)
Definition SIZEOF_SXE_CDB_INSTANCE : Z := 3 * 8 + 7 * 4 + 3 * 8 + 6 * 4 + 2 * 4 * SXE_CDB_COUNTS_LISTS_MAX + 2 * SXE_CDB_SHEETS_MAX.
Definition sxe_cdb_instance_new (keys_at_start kvdata_maximum : Z) : outcome SXE_CDB_INSTANCE :=
  assert1 (malloc_ok SIZEOF_SXE_CDB_INSTANCE);;
  assert6 (getpagesize =? SXE_CDB_KERNEL_PAGE_BYTES);;
  assert6 ((SXE_CDB_KEYS_PER_ROW =? 2 ^ SXE_CDB_KEYS_PER_ROW_BITS) && (SXE_CDB_ROWS_PER_SHEET =? 2 ^ SXE_CDB_ROWS_PER_SHEET_BITS) &&
           (16 =? SXE_CDB_ROWS_PER_SHEET_BITS + SXE_CDB_KEYS_PER_ROW_BITS));;
  assert6 ((7 =? KEY_HEADER_LEN_1_KEY_LEN_MAX) && (127 =? KEY_HEADER_LEN_3_KEY_LEN_MAX) && (65535 =? KEY_HEADER_LEN_5_KEY_LEN_MAX) &&
           (16777215 =? KEY_HEADER_LEN_8_KEY_LEN_MAX));;
  assert6 ((15 =? KEY_HEADER_LEN_1_VAL_LEN_MAX) && (65535 =? KEY_HEADER_LEN_3_VAL_LEN_MAX) && (65535 =? KEY_HEADER_LEN_5_VAL_LEN_MAX) &&
           (4294967295 =? KEY_HEADER_LEN_8_VAL_LEN_MAX));;
  sxe_cdb_instance_new_init keys_at_start kvdata_maximum.

(** lib-sxe-cdb/sxe-cdb.c:205-212, sxe_cdb_instance_destroy_mmaps. *)
Definition sxe_cdb_instance_destroy_mmaps (c : SXE_CDB_INSTANCE) : outcome unit :=
  assert1 (unmap_ok c (u32 (SXE_CDB_SHEET_BYTES * sheets_size c)));;
  assert1 (unmap_ok c (kvdata_size c));;
  match counts c with
  | Some _ => assert1 (unmap_ok c (u32 (SXE_CDB_KERNEL_PAGE_BYTES * counts_pages c)))
  | None => mret tt
  end.

(** lib-sxe-cdb/sxe-cdb.c:214-220, sxe_cdb_instance_destroy. *)
Definition sxe_cdb_instance_destroy (c : SXE_CDB_INSTANCE) : outcome unit := sxe_cdb_instance_destroy_mmaps c.

(** lib-sxe-cdb/sxe-cdb.c:222-229, sxe_cdb_instance_reboot. *)
Definition sxe_cdb_instance_reboot (c : SXE_CDB_INSTANCE) : outcome SXE_CDB_INSTANCE :=
  sxe_cdb_instance_destroy_mmaps c;;
  sxe_cdb_instance_new_init (keys_at_start c) (kvdata_maximum c).

(** Loops over the cells of a sheet: rows, and the cells of each. *)
Fixpoint for_cells (n : nat) (row cell : Z) (body : Z -> Z -> M unit) : M unit :=
  match n with O => mret tt | S n => body row cell;; for_cells n row (cell + 1) body end.
Fixpoint for_rows (n : nat) (row : Z) (body : Z -> Z -> M unit) : M unit :=
  match n with O => mret tt | S n => for_cells (Z.to_nat SXE_CDB_KEYS_PER_ROW) row 0 body;; for_rows n (row + 1) body end.

(** lib-sxe-cdb/sxe-cdb.c:231-261, sxe_cdb_instance_debug_validate. Every used cell is in the sheet that its hash says. *)
Definition validate_cell (sheet row cell : Z) : M unit :=
  v ← rd_cell sheet row cell;
  if hkv_pos v =? 0 then mret tt
  else
    mysheet ← sheet_index_at (hash_hi v mod SXE_CDB_SHEETS_MAX);
    assert_1 (mysheet =? sheet).
Fixpoint validate_sheets (n : nat) (sheet : Z) : M unit :=
  match n with
  | O => mret tt
  | S n => for_rows (Z.to_nat SXE_CDB_ROWS_PER_SHEET) 0 (validate_cell sheet);; validate_sheets n (sheet + 1)
  end.
Definition sxe_cdb_instance_debug_validate : M unit := c ← rd_inst; validate_sheets (Z.to_nat (sheets_size c)) 0.

(** lib-sxe-cdb/sxe-cdb.c:283-295, sxe_cdb_instance_split_sheet. Every other index of the sheet goes to the new one. The result has
    the number of toggles. *)
Fixpoint split_indexes (this_sheet that_sheet : Z) (toggle : bool) (toggles : Z) (l : list Z) : outcome (list Z * Z) :=
  match l with
  | [] => mret ([], toggles)
  | i :: l =>
      assert6 (i <=? that_sheet);;
      if this_sheet =? i then
        r ← split_indexes this_sheet that_sheet (negb toggle) (toggles + 1) l;
        mret ((if toggle then that_sheet else this_sheet) :: fst r, snd r)
      else
        r ← split_indexes this_sheet that_sheet toggle toggles l;
        mret (i :: fst r, snd r)
  end.

(** lib-sxe-cdb/sxe-cdb.c:302-327, sxe_cdb_instance_split_sheet. A cell that goes to the new sheet. *)
Definition split_cell (this_sheet that_sheet row cell : Z) : M unit :=
  v ← rd_cell this_sheet row cell;
  if hkv_pos v =? 0 then mret tt
  else
    upd_inst (fun c => set_sheets_split_keys (u64 (sheets_split_keys c + 1)) c);;
    mysheet ← sheet_index_at (hash_hi v mod SXE_CDB_SHEETS_MAX);
    assert_6 ((mysheet =? this_sheet) || (mysheet =? that_sheet));;
    if mysheet =? that_sheet then
      wr_cell that_sheet row cell v;;
      wr_cell this_sheet row cell (mk_cell (hash_lo v) (hash_hi v) 0)
    else mret tt.

(** lib-sxe-cdb/sxe-cdb.c:264-333, sxe_cdb_instance_split_sheet. *)
Definition sxe_cdb_instance_split_sheet (sheet : Z) : M unit :=
  c ← rd_inst;
  let that_sheet := u16 (sheets_size c) in
  let bytes := u32 (SXE_CDB_SHEET_BYTES * (1 + sheets_size c)) in
  upd_inst (set_sheets_size (u32 (sheets_size c + 1)));;
  upd_inst (set_sheets_cells_size (u32 (sheets_cells_size c + SXE_CDB_KEYS_PER_SHEET)));;
  assert_1 (map_ok c bytes);;
  upd_inst (set_sheets_mapped bytes);;
  r ← lift (split_indexes sheet that_sheet false 0 (sheets_index c));
  upd_inst (set_sheets_index (fst r));;
  assert_6 (1 <? snd r);;
  for_rows (Z.to_nat SXE_CDB_ROWS_PER_SHEET) 0 (split_cell sheet that_sheet);;
  upd_inst (fun c => set_sheets_split (u32 (sheets_split c + 1)) c).

(** lib-sxe-cdb/sxe-cdb-private.h:126-134, SXE_CDB_UID_INTERNAL. *)
Definition uid_pack (instance sheets_index_index row cell : Z) : Z :=
  Z.land instance 255 + 2 ^ 8 * Z.land sheets_index_index 65535 + 2 ^ 24 * Z.land row 4095 + 2 ^ 36 * Z.land cell 15.
Definition uid_instance (uid : Z) : Z := Z.land uid 255.
Definition uid_sheets_index_index (uid : Z) : Z := Z.land (Z.shiftr uid 8) 65535.
Definition uid_row (uid : Z) : Z := Z.land (Z.shiftr uid 24) 4095.
Definition uid_cell (uid : Z) : Z := Z.land (Z.shiftr uid 36) 15.

(** lib-sxe-cdb/sxe-cdb.c:364-371, sxe_cdb_instance_put_val. The first free cell of each of the two rows, and how many are used. *)
Definition free_cell (used_and_cell : Z * Z) (cell : Z) (v : SXE_CDB_CELL) : Z * Z :=
  let '(used, first) := used_and_cell in
  if hkv_pos v =? 0 then (used, if SXE_CDB_KEYS_PER_ROW =? first then cell else first) else (used + 1, first).
Fixpoint row_scan (n : nat) (cell sheet row_1 row_2 : Z) (s1 s2 : Z * Z) : M ((Z * Z) * (Z * Z)) :=
  match n with
  | O => mret (s1, s2)
  | S n =>
      v1 ← rd_cell sheet row_1 cell;
      v2 ← rd_cell sheet row_2 cell;
      row_scan n (cell + 1) sheet row_1 row_2 (free_cell s1 cell v1) (free_cell s2 cell v2)
  end.

(** What the loop at the label SXE_CDB_ADD_RETRY_ROW_SCAN finds: a free cell, or none and no sheet to split. *)
Inductive row_scanned := Free_cell (sheet_index sheet row cell : Z) | No_more_sheets.

(** lib-sxe-cdb/sxe-cdb.c:356-381, sxe_cdb_instance_put_val. *)
Fixpoint find_free_cell (fuel : nat) : M row_scanned :=
  match fuel with
  | O => lift Fault
  | S fuel =>
      h0 ← hash_word 0;
      let sheet_index := h0 mod SXE_CDB_SHEETS_MAX in
      sheet ← sheet_index_at sheet_index;
      c ← rd_inst;
      assert_6 (sheet <? sheets_size c);;
      h1 ← hash_word 1; h2 ← hash_word 2;
      let row_1 := Z.land h1 (SXE_CDB_ROWS_PER_SHEET - 1) in
      let row_2 := Z.land h2 (SXE_CDB_ROWS_PER_SHEET - 1) in
      scan ← row_scan (Z.to_nat SXE_CDB_KEYS_PER_ROW) 0 sheet row_1 row_2 (0, SXE_CDB_KEYS_PER_ROW) (0, SXE_CDB_KEYS_PER_ROW);
      let '((used_1, cell_1), (used_2, cell_2)) := scan in
      if (SXE_CDB_KEYS_PER_ROW =? used_1) && (SXE_CDB_KEYS_PER_ROW =? used_2) then
        if sheets_size c >=? SXE_CDB_SHEETS_MAX then mret No_more_sheets
        else sxe_cdb_instance_split_sheet sheet;; find_free_cell fuel
      else
        if used_1 <? used_2 then mret (Free_cell sheet_index sheet row_1 cell_1) else mret (Free_cell sheet_index sheet row_2 cell_2)
  end.

(** The bytes of the prepared key. *)
Definition key_bytes : M (list Z) := t ← rd_tls; key ← lift (load (t_key t)); lift (load (slice key 0 (t_key_len t))).

(** lib-sxe-cdb/sxe-cdb.c:383-393, sxe_cdb_instance_put_val. Room for the new entry in [kvdata]; false if that would be more than
    4 GB. *)
Definition grow_kvdata (key_bytes_want : Z) : M bool :=
  c ← rd_inst;
  if u32 (kvdata_size c - kvdata_used c) <? key_bytes_want then
    let want := u32 ((key_bytes_want + (SXE_CDB_KERNEL_PAGE_BYTES - 1)) / SXE_CDB_KERNEL_PAGE_BYTES * SXE_CDB_KERNEL_PAGE_BYTES + SXE_CDB_KERNEL_PAGE_BYTES) in
    let size := u32 (kvdata_size c + want) in
    if size <? kvdata_size c then mret false
    else
      upd_inst (set_kvdata_size size);;
      assert_1 (map_ok c size);;
      upd_inst (set_kvdata (kvdata c ++ replicate (Z.to_nat want) 0));;
      mret true
  else mret true.

(** lib-sxe-cdb/sxe-cdb.c:335-419, sxe_cdb_instance_put_val. The value is the first [val_len] bytes of [val]. *)
Definition PUT_FUEL : nat := S (Z.to_nat SXE_CDB_SHEETS_MAX).
Definition sxe_cdb_instance_put_val (val : list Z) (val_len : Z) : M Z :=
  c ← rd_inst;
  if (0 <? kvdata_maximum c) && (kvdata_maximum c <? kvdata_size c) then mret SXE_CDB_UID_NONE
  else
    t ← rd_tls;
    match header_len (t_key_len t) val_len with
    | None => mret SXE_CDB_UID_NONE
    | Some h =>
        scanned ← find_free_cell PUT_FUEL;
        match scanned with
        | No_more_sheets => mret SXE_CDB_UID_NONE
        | Free_cell sheet_index sheet row cell =>
            c ← rd_inst;
            let k := kvdata_used c in
            let key_bytes_want := u32 (h + t_key_len t + val_len) in
            room ← grow_kvdata key_bytes_want;
            if (room : bool) then
              h0 ← hash_word 0; h1 ← hash_word 1;
              wr_cell sheet row cell (mk_cell h1 h0 k);;
              key ← key_bytes;
              value ← lift (load (slice val 0 val_len));
              c ← rd_inst;
              m ← lift (wr_bytes (kvdata c) k (header_bytes h (t_key_len t) val_len ++ key ++ value));
              upd_inst (set_kvdata m);;
              upd_inst (fun c => set_kvdata_used (u32 (kvdata_used c + key_bytes_want)) c);;
              upd_inst (fun c => set_sheets_cells_used (u32 (sheets_cells_used c + 1)) c);;
              mret (uid_pack 0 sheet_index row cell)
            else mret SXE_CDB_UID_NONE
        end
    end.

(** lib-sxe-cdb/sxe-cdb.c:443-461, SXE_CDB_GET_HKV_IN_CELL_IN. The cell's entry, if it has the prepared key. *)
Definition try_cell (sheet row cell : Z) : M (option Z) :=
  h0 ← hash_word 0; h1 ← hash_word 1;
  v ← rd_cell sheet row cell;
  if (h1 =? hash_lo v) && (h0 =? hash_hi v) && negb (hkv_pos v =? 0) then
    c ← rd_inst;
    part ← lift (sxe_cdb_hkv_unpack In_kvdata (kvdata c) (hkv_pos v));
    upd_tls (set_t_part part);;
    t ← rd_tls;
    if t_key_len t =? key_len part then
      stored ← lift (load (slice (kvdata c) (key_at part) (key_len part)));
      key ← key_bytes;
      if bool_decide (stored = key) then mret (Some (hkv_pos v))
      else upd_inst (fun c => set_memcmp_misses (u64 (memcmp_misses c + 1)) c);; mret None
    else upd_inst (fun c => set_keylen_misses (u64 (keylen_misses c + 1)) c);; mret None
  else mret None.

(** lib-sxe-cdb/sxe-cdb.c:463-482, SXE_CDB_GET_UID_IN_CELL_IN. The loop over the cells of the two rows: the row, the
    cell and the position of the first entry with the prepared key. *)
Fixpoint find_cell (n : nat) (cell sheet row_1 row_2 : Z) : M (option (Z * Z * Z)) :=
  match n with
  | O => mret None
  | S n =>
      r1 ← try_cell sheet row_1 cell;
      match r1 with
      | Some pos => mret (Some (row_1, cell, pos))
      | None =>
          r2 ← try_cell sheet row_2 cell;
          match r2 with
          | Some pos => mret (Some (row_2, cell, pos))
          | None => find_cell n (cell + 1) sheet row_1 row_2
          end
      end
  end.

Definition reset_part : M unit :=
  if debug then upd_tls (fun t => let p := t_part t in set_t_part (mk_part (hkv_len p) (key_base p) (key_at p) 0 (val_at p) 0) t) else mret tt.

(** lib-sxe-cdb/sxe-cdb.c:487-513, sxe_cdb_instance_get_hkv_raw. The position of the entry. *)
Definition sxe_cdb_instance_get_hkv_raw : M (option Z) :=
  h0 ← hash_word 0;
  sheet ← sheet_index_at (h0 mod SXE_CDB_SHEETS_MAX);
  c ← rd_inst;
  assert_6 (sheet <? sheets_size c);;
  h1 ← hash_word 1; h2 ← hash_word 2;
  reset_part;;
  r ← find_cell (Z.to_nat SXE_CDB_KEYS_PER_ROW) 0 sheet (Z.land h1 (SXE_CDB_ROWS_PER_SHEET - 1)) (Z.land h2 (SXE_CDB_ROWS_PER_SHEET - 1));
  mret (match r with Some (_, _, pos) => Some pos | None => None end).

(** lib-sxe-cdb/sxe-cdb.c:515-545, sxe_cdb_instance_get_uid. *)
Definition sxe_cdb_instance_get_uid : M Z :=
  h0 ← hash_word 0;
  let sheet_index := h0 mod SXE_CDB_SHEETS_MAX in
  sheet ← sheet_index_at sheet_index;
  c ← rd_inst;
  assert_6 (sheet <? sheets_size c);;
  h1 ← hash_word 1; h2 ← hash_word 2;
  reset_part;;
  r ← find_cell (Z.to_nat SXE_CDB_KEYS_PER_ROW) 0 sheet (Z.land h1 (SXE_CDB_ROWS_PER_SHEET - 1)) (Z.land h2 (SXE_CDB_ROWS_PER_SHEET - 1));
  mret (match r with Some (row, cell, _) => uid_pack 0 sheet_index row cell | None => SXE_CDB_UID_NONE end).

(** The cell that a uid names, with the assertions on its parts. *)
Definition uid_position (uid : Z) : M Z :=
  assert_1 (uid_cell uid <? SXE_CDB_KEYS_PER_ROW);;
  assert_1 (uid_row uid <? SXE_CDB_ROWS_PER_SHEET);;
  assert_1 (uid_sheets_index_index uid <? SXE_CDB_SHEETS_MAX);;
  sheet ← sheet_index_at (uid_sheets_index_index uid);
  c ← rd_inst;
  assert_1 (sheet <? sheets_size c);;
  v ← rd_cell sheet (uid_row uid) (uid_cell uid);
  mret (hkv_pos v).

(** lib-sxe-cdb/sxe-cdb.c:547-564, sxe_cdb_instance_get_uid_hkv_raw. *)
Definition sxe_cdb_instance_get_uid_hkv_raw (uid : Z) : M (option Z) :=
  pos ← uid_position uid;
  if pos =? 0 then mret None
  else
    c ← rd_inst;
    part ← lift (sxe_cdb_hkv_unpack In_kvdata (kvdata c) pos);
    upd_tls (set_t_part part);;
    mret (Some pos).

(** lib-sxe-cdb/sxe-cdb.c:566-582, sxe_cdb_instance_get_uid_hkv. *)
Definition sxe_cdb_instance_get_uid_hkv (uid : Z) : M bool :=
  pos ← uid_position uid;
  if pos =? 0 then mret false else sxe_cdb_copy_hkv_to_tls pos.

(** lib-sxe-cdb/sxe-cdb.c:584-598, sxe_cdb_instance_set_uid_hkv. *)
Definition sxe_cdb_instance_set_uid_hkv (uid : Z) : M unit :=
  pos ← uid_position uid;
  if pos =? 0 then mret tt else sxe_cdb_copy_tls_to_hkv pos.
End Instance.
