(* ===== verification/CdbStore.v ===== *)
(** * CdbStore: what an instance of the key value store holds

    [store c log] says that the instance [c] holds the entries [log], in the order in which they were put: their bytes lie one
    behind the other in [kvdata], and every used cell of the sheets is the cell of just one of them. An entry's uid (sheet index,
    row and cell) stays the same when sheets are split. *)

From S2P Require Import Prelude Spinlock Cdb.
#[local] Hint Rewrite zlen_bytes32 : zlen.

(** ** Headers *)

Lemma land_mod x n : 0 <= n -> Z.land x (2 ^ n - 1) = x mod 2 ^ n.
Proof. intros. rewrite <-Z.land_ones, Z.ones_equiv by done. f_equal. Qed.

Lemma of_low_bytes n v : of_bytes (low_bytes n v) = v mod 256 ^ Z.of_nat n.
Proof.
  revert v. induction n as [|n IH]; intros v; [by rewrite Z.mod_1_r|]. cbn [low_bytes of_bytes]. rewrite IH.
  rewrite Nat2Z.inj_succ, Z.pow_succ_r by lia. unfold u8. rewrite (Z.rem_mul_r v 256) by lia. done.
Qed.
Lemma length_low_bytes n v : length (low_bytes n v) = n.
Proof. revert v. induction n; intros; simpl; auto. Qed.
Lemma zlen_low_bytes n v : zlen (low_bytes n v) = Z.of_nat n.
Proof. unfold zlen. by rewrite length_low_bytes. Qed.
#[local] Hint Rewrite zlen_low_bytes : zlen.

Lemma ld_low_bytes pre n v post i : i = zlen pre -> ld_bytes (pre ++ low_bytes n v ++ post) i (Z.of_nat n) = Ret (v mod 256 ^ Z.of_nat n).
Proof.
  intros ->. unfold ld_bytes. pose proof (slice_mid pre (low_bytes n v) post) as E. rewrite zlen_low_bytes in E. rewrite E. cbn.
  by rewrite of_low_bytes.
Qed.

(** The lengths that each header holds. *)
Definition fits_header (h k v : Z) : Prop :=
  0 < k /\ 0 <= v /\
  ((h = 1 /\ k < 8 /\ v < 16) \/ (h = 3 /\ k < 128 /\ v < 65536) \/ (h = 5 /\ k < 65536 /\ v < 65536) \/ (h = 8 /\ k < 16777216 /\ v < 4294967296)).

Lemma header_len_fits k v h : 0 <= k -> 0 <= v -> header_len k v = Some h -> fits_header h k v.
Proof.
  intros Hk Hv. unfold header_len, fits_header.
  change KEY_HEADER_LEN_1_KEY_LEN_MAX with 7. change KEY_HEADER_LEN_3_KEY_LEN_MAX with 127.
  change KEY_HEADER_LEN_5_KEY_LEN_MAX with 65535. change KEY_HEADER_LEN_8_KEY_LEN_MAX with 16777215.
  change KEY_HEADER_LEN_1_VAL_LEN_MAX with 15. change KEY_HEADER_LEN_3_VAL_LEN_MAX with 65535.
  change KEY_HEADER_LEN_5_VAL_LEN_MAX with 65535. change KEY_HEADER_LEN_8_VAL_LEN_MAX with 4294967295.
  repeat case_if; intros [= <-]; lia.
Qed.

Lemma zlen_header h k v : fits_header h k v -> zlen (header_bytes h k v) = h.
Proof. intros (_ & _ & F). unfold header_bytes. by destruct F as [[-> _]|[[-> _]|[[-> _]|[-> _]]]]. Qed.

Lemma first_byte_parts flag xxx yyy : 0 <= flag < 2 -> 0 <= xxx < 8 -> 0 <= yyy < 16 ->
  let b := first_byte flag xxx yyy in Z.land b 1 = flag /\ Z.land (Z.shiftr b 1) 7 = xxx /\ Z.shiftr b 4 = yyy.
Proof.
  intros Hf Hx Hy. unfold first_byte. rewrite !(land_mod _ 1), !(land_mod _ 3), (land_mod _ 4) by lia. rewrite !Z.shiftr_div_pow2 by lia.
  eval_pow2. Z.to_euclidean_division_equations. lia.
Qed.

(** Whatever the header, the lengths that were packed are unpacked, and the key and the value are found behind it. *)
Lemma unpack_header base pre h k v post : fits_header h k v ->
  sxe_cdb_hkv_unpack base (pre ++ header_bytes h k v ++ post) (zlen pre)
    = Ret (mk_part (u32 (h + k + v)) base (zlen pre + h) k (zlen pre + h + k) v).
Proof.
  intros (Hk & Hv & F). unfold sxe_cdb_hkv_unpack, header_bytes. destruct F as [(-> & Hk1 & Hv1)|[(-> & Hk1 & Hv1)|[(-> & Hk1 & Hv1)|(-> & Hk1 & Hv1)]]].
  - cbn [Z.eqb Pos.eqb app]. rewrite rd_at by done. cbn [load mbind outcome_bind].
    destruct (first_byte_parts 0 k v) as (E1 & E2 & E3); [lia..|]. unfold h_len_of. cbv zeta in *. rewrite E1, E2, E3.
    destruct (Z.eqb_spec k 0); [lia|]. done.
  - cbn [Z.eqb Pos.eqb app]. rewrite rd_at by done. cbn [load mbind outcome_bind].
    replace (Z.land k 127) with k by (symmetry; etransitivity; [apply (land_mod k 7); lia|apply Z.mod_small; lia]). change (Z.land 1 1) with 1.
    set (b := 1 + 2 * k). assert (E1 : Z.land b 1 = 1) by (etransitivity; [apply (land_mod b 1); lia|]; subst b; eval_pow2; Z.to_euclidean_division_equations; lia).
    assert (E2 : Z.shiftr b 1 = k) by (rewrite Z.shiftr_div_pow2 by lia; subst b; eval_pow2; Z.to_euclidean_division_equations; lia).
    unfold h_len_of. cbv zeta. rewrite E1. cbn [Z.eqb Pos.eqb andb]. rewrite E2.
    change (pre ++ b :: low_bytes 2 v ++ post) with (pre ++ [b] ++ low_bytes 2 v ++ post). rewrite (assoc_L (++) pre).
    rewrite (ld_low_bytes (pre ++ [b]) 2) by (rewrite zlen_app; done). cbn [mbind outcome_bind]. change (256 ^ Z.of_nat 2) with 65536. by rewrite Z.mod_small by lia.
  - cbn [Z.eqb Pos.eqb]. change (first_byte 0 0 0) with 0. rewrite <-!(assoc_L (++)). cbn [app]. rewrite rd_at by done. cbn [load mbind outcome_bind].
    change (h_len_of 0) with 5. cbn [Z.eqb Pos.eqb].
    change (pre ++ 0 :: low_bytes 2 k ++ low_bytes 2 v ++ post) with (pre ++ [0] ++ low_bytes 2 k ++ low_bytes 2 v ++ post). rewrite (assoc_L (++) pre).
    rewrite (ld_low_bytes (pre ++ [0]) 2 k _ (zlen pre + 1)) by (rewrite zlen_app; done). cbn [mbind outcome_bind]. rewrite (assoc_L (++) _ (low_bytes 2 k)).
    rewrite (ld_low_bytes (_ ++ low_bytes 2 k) 2) by (rewrite !zlen_app, zlen_low_bytes; change (zlen [0]) with 1; lia).
    change (256 ^ Z.of_nat 2) with 65536. cbn. by rewrite !Z.mod_small by lia.
  - cbn [Z.eqb Pos.eqb]. change (first_byte 0 0 1) with 16. rewrite <-!(assoc_L (++)). cbn [app]. rewrite rd_at by done. cbn [load mbind outcome_bind].
    change (h_len_of 16) with 8. cbn [Z.eqb Pos.eqb].
    change (pre ++ 16 :: low_bytes 3 k ++ low_bytes 4 v ++ post) with (pre ++ [16] ++ low_bytes 3 k ++ low_bytes 4 v ++ post). rewrite (assoc_L (++) pre).
    rewrite (ld_low_bytes (pre ++ [16]) 3 k _ (zlen pre + 1)) by (rewrite zlen_app; done). cbn [mbind outcome_bind]. rewrite (assoc_L (++) _ (low_bytes 3 k)).
    rewrite (ld_low_bytes (_ ++ low_bytes 3 k) 4) by (rewrite !zlen_app, zlen_low_bytes; change (zlen [16]) with 1; lia).
    change (256 ^ Z.of_nat 3) with 16777216. change (256 ^ Z.of_nat 4) with 4294967296. cbn. by rewrite !Z.mod_small by lia.
Qed.

(** ** Entries *)

(** The hash has 8 words, as it is documented. *)
Class HashWords `{CdbSystem} := { hash_words : forall k, length (MurmurHash3_xnn_128 k) = 8%nat }.

Record entry := mk_entry { e_index : Z; e_row : Z; e_cell : Z; e_key : list Z; e_val : list Z }.

Definition uid_of (e : entry) : Z := uid_pack 0 (e_index e) (e_row e) (e_cell e).

Definition key_header (key val : list Z) : Z := default 8 (header_len (zlen key) (zlen val)).
Definition image (e : entry) : list Z :=
  header_bytes (key_header (e_key e) (e_val e)) (zlen (e_key e)) (zlen (e_val e)) ++ e_key e ++ e_val e.
Definition log_bytes (log : list entry) : list Z := concat (image <$> log).
Definition position (log : list entry) (i : nat) : Z := 1 + zlen (log_bytes (take i log)).

Lemma log_bytes_app a b : log_bytes (a ++ b) = log_bytes a ++ log_bytes b.
Proof. unfold log_bytes. by rewrite fmap_app, concat_app. Qed.
Lemma log_bytes_cons e l : log_bytes (e :: l) = image e ++ log_bytes l.
Proof. done. Qed.

Lemma take_S_eq (log : list entry) i e : log !! i = Some e -> log = take i log ++ e :: drop (S i) log.
Proof. intros E. by rewrite <-(take_drop_middle log i e) at 1. Qed.

Section Store.
Context `{Build, CdbSystem}.

(** The hash of a key, after its second and third words were made distinct. *)
Definition distinct (w : list Z) : list Z :=
  if nth 1 w 0 =? nth 2 w 0 then
    let w1 := <[1%nat := nth 3 w 0]> w in
    let w2 := if nth 3 w 0 =? nth 2 w 0 then <[1%nat := nth 4 w 0]> w1 else w1 in
    if nth 1 w2 0 =? nth 2 w 0 then <[1%nat := u16 (nth 2 w 0 + 1)]> w2 else w2
  else w.
Definition hash_of (key : list Z) : list Z := distinct (MurmurHash3_xnn_128 key).
Definition word (i : nat) (key : list Z) : Z := nth i (hash_of key) 0.
Definition index_of (key : list Z) : Z := word 0 key mod SXE_CDB_SHEETS_MAX.
Definition row_1 (key : list Z) : Z := Z.land (word 1 key) (SXE_CDB_ROWS_PER_SHEET - 1).
Definition row_2 (key : list Z) : Z := Z.land (word 2 key) (SXE_CDB_ROWS_PER_SHEET - 1).

(** The sheet that a sheet index names. *)
Definition sheet_of (c : SXE_CDB_INSTANCE) (i : Z) : Z := nth (Z.to_nat i) (sheets_index c) 0.

(** What an entry is: its key and value have a header, and its cell is in a row of its key. *)
Record entry_ok (e : entry) : Prop := {
  eo_fits : fits_header (key_header (e_key e) (e_val e)) (zlen (e_key e)) (zlen (e_val e));
  eo_index : e_index e = index_of (e_key e);
  eo_row : e_row e = row_1 (e_key e) \/ e_row e = row_2 (e_key e);
  eo_cell : 0 <= e_cell e < SXE_CDB_KEYS_PER_ROW
}.

Definition cell_of (log : list entry) (i : nat) (e : entry) : SXE_CDB_CELL :=
  mk_cell (word 1 (e_key e)) (word 0 (e_key e)) (position log i).

(** The instance [c] holds the entries [log]. *)
Record store (c : SXE_CDB_INSTANCE) (log : list entry) : Prop := {
  st_indexes : zlen (sheets_index c) = SXE_CDB_SHEETS_MAX;
  st_index : Forall (fun s => 0 <= s < sheets_size c) (sheets_index c);
  st_sheets : 1 <= sheets_size c < SXE_CDB_SHEETS_MAX;
  st_mapped : sheets_mapped c = SXE_CDB_SHEET_BYTES * sheets_size c;
  st_fresh : forall s row cell, sheets_size c <= s -> cell_at c s row cell = zero_cell;
  st_bytes : exists b rest, kvdata c = [b] ++ log_bytes log ++ rest;
  st_size : zlen (kvdata c) = kvdata_size c;
  st_u32 : kvdata_size c < 4294967296;
  st_used : kvdata_used c = 1 + zlen (log_bytes log);
  st_entries : Forall entry_ok log;
  st_cells : forall i e, log !! i = Some e -> cell_at c (sheet_of c (e_index e)) (e_row e) (e_cell e) = cell_of log i e;
  st_all : forall s row cell, hkv_pos (cell_at c s row cell) <> 0 ->
    exists i e, log !! i = Some e /\ s = sheet_of c (e_index e) /\ row = e_row e /\ cell = e_cell e
}.

(** ** What a store implies *)

Lemma rows_per_sheet : SXE_CDB_ROWS_PER_SHEET = 4096.
Proof. done. Qed.
Lemma keys_per_row : SXE_CDB_KEYS_PER_ROW = 16.
Proof. done. Qed.
Lemma sheets_max : SXE_CDB_SHEETS_MAX = 8192.
Proof. done. Qed.

Lemma row_range w : 0 <= Z.land w (SXE_CDB_ROWS_PER_SHEET - 1) < SXE_CDB_ROWS_PER_SHEET.
Proof. rewrite rows_per_sheet. change (4096 - 1) with (2 ^ 12 - 1). rewrite land_mod by lia. apply Z.mod_pos_bound. lia. Qed.
Lemma entry_row e : entry_ok e -> 0 <= e_row e < SXE_CDB_ROWS_PER_SHEET.
Proof. intros [_ _ [-> | ->] _]; apply row_range. Qed.
Lemma index_range key : 0 <= index_of key < SXE_CDB_SHEETS_MAX.
Proof. unfold index_of. rewrite sheets_max. apply Z.mod_pos_bound. lia. Qed.

Lemma sheet_range c log i : store c log -> 0 <= i < SXE_CDB_SHEETS_MAX -> 0 <= sheet_of c i < sheets_size c.
Proof.
  intros St Hi. unfold sheet_of. pose proof (st_indexes _ _ St) as Hl. unfold zlen in Hl.
  destruct (nth_lookup_or_length (sheets_index c) (Z.to_nat i) 0) as [E|E]; [|lia].
  by apply (proj1 (Forall_lookup _ _) (st_index _ _ St) _ _ E).
Qed.
Lemma rd_index c log i : store c log -> 0 <= i < SXE_CDB_SHEETS_MAX -> rd (sheets_index c) i = Some (sheet_of c i).
Proof.
  intros St Hi. pose proof (st_indexes _ _ St) as Hl. unfold zlen in Hl.
  destruct (nth_lookup_or_length (sheets_index c) (Z.to_nat i) 0) as [E|E]; [|lia].
  rewrite <-(Z2Nat.id i) at 1 by lia. by rewrite rd_nat.
Qed.

Lemma cell_is_mapped c log s row cell : store c log -> 0 <= s < sheets_size c -> 0 <= row < SXE_CDB_ROWS_PER_SHEET -> 0 <= cell < SXE_CDB_KEYS_PER_ROW ->
  cell_mapped c s row cell = true.
Proof. intros St Hs Hr Hc. unfold cell_mapped. rewrite (st_mapped _ _ St). change SXE_CDB_SHEET_BYTES with 524288. lia. Qed.

Lemma entry_at log i e : log !! i = Some e -> log_bytes log = log_bytes (take i log) ++ image e ++ log_bytes (drop (S i) log).
Proof. intros E. rewrite (take_S_eq log i e E) at 1. by rewrite log_bytes_app, log_bytes_cons. Qed.

(** The entry's bytes in the memory. *)
Lemma entry_bytes c log i e : store c log -> log !! i = Some e ->
  exists pre post, kvdata c = pre ++ image e ++ post /\ zlen pre = position log i /\ zlen post = kvdata_size c - position log i - zlen (image e).
Proof.
  intros St E. destruct (st_bytes _ _ St) as (b & rest & Hb). pose proof (st_size _ _ St) as Hz. rewrite Hb, (entry_at _ _ _ E) in *.
  exists ([b] ++ log_bytes (take i log)), (log_bytes (drop (S i) log) ++ rest). split; [by rewrite <-!(assoc_L (++))|].
  unfold position. rewrite !zlen_app in *. change (zlen [b]) with 1 in *. lia.
Qed.

Lemma image_nonempty e : entry_ok e -> 0 < zlen (image e).
Proof.
  intros Eo. unfold image. rewrite !zlen_app. pose proof (eo_fits _ Eo) as [Hk _].
  pose proof (zlen_nonneg (header_bytes (key_header (e_key e) (e_val e)) (zlen (e_key e)) (zlen (e_val e)))). pose proof (zlen_nonneg (e_val e)). lia.
Qed.
Lemma zlen_entry e : entry_ok e -> zlen (image e) = key_header (e_key e) (e_val e) + zlen (e_key e) + zlen (e_val e).
Proof. intros Eo. unfold image. rewrite !zlen_app, (zlen_header _ _ _ (eo_fits _ Eo)). lia. Qed.

Lemma position_step log i e : log !! i = Some e -> position log (S i) = position log i + zlen (image e).
Proof. intros E. unfold position. rewrite (take_S_r _ _ _ E), log_bytes_app, zlen_app. unfold log_bytes at 2. cbn. rewrite app_nil_r. lia. Qed.
Lemma position_mono log i j : (i <= j)%nat -> position log i <= position log j.
Proof.
  intros Hij. unfold position. replace (take i log) with (take i (take j log)) by (rewrite take_take; f_equal; lia).
  rewrite <-(take_drop i (take j log)) at 2. rewrite log_bytes_app, zlen_app. pose proof (zlen_nonneg (log_bytes (drop i (take j log)))). lia.
Qed.
Lemma position_pos log i : 0 < position log i.
Proof. unfold position. pose proof (zlen_nonneg (log_bytes (take i log))). lia. Qed.
Lemma position_inj c log i j ei ej : store c log -> log !! i = Some ei -> log !! j = Some ej -> position log i = position log j -> i = j.
Proof.
  intros St Ei Ej E. pose proof (proj1 (Forall_lookup _ _) (st_entries _ _ St)) as Ok.
  destruct (Nat.lt_trichotomy i j) as [Hl|[->|Hl]]; [|done|].
  - pose proof (position_mono log (S i) j ltac:(lia)). rewrite (position_step _ _ _ Ei) in *. pose proof (image_nonempty _ (Ok _ _ Ei)). lia.
  - pose proof (position_mono log (S j) i ltac:(lia)). rewrite (position_step _ _ _ Ej) in *. pose proof (image_nonempty _ (Ok _ _ Ej)). lia.
Qed.

(** No two entries share a cell, so that a uid is that of one entry. *)
Lemma uid_parts i row cell : 0 <= i < SXE_CDB_SHEETS_MAX -> 0 <= row < SXE_CDB_ROWS_PER_SHEET -> 0 <= cell < SXE_CDB_KEYS_PER_ROW ->
  let u := uid_pack 0 i row cell in
  uid_instance u = 0 /\ uid_sheets_index_index u = i /\ uid_row u = row /\ uid_cell u = cell /\ 0 <= u < 2 ^ 40.
Proof.
  rewrite sheets_max, rows_per_sheet, keys_per_row. intros Hi Hr Hc.
  unfold uid_pack, uid_instance, uid_sheets_index_index, uid_row, uid_cell. change (Z.land 0 255) with 0.
  change 65535 with (2 ^ 16 - 1). change 4095 with (2 ^ 12 - 1). change 15 with (2 ^ 4 - 1). change 255 with (2 ^ 8 - 1).
  rewrite !land_mod, !Z.shiftr_div_pow2 by lia. cbv zeta. eval_pow2. rewrite (Z.mod_small i), (Z.mod_small row), (Z.mod_small cell) by lia.
  change (2 ^ 40) with 1099511627776. Z.to_euclidean_division_equations. lia.
Qed.

Lemma uid_of_parts e : entry_ok e ->
  uid_instance (uid_of e) = 0 /\ uid_sheets_index_index (uid_of e) = e_index e /\ uid_row (uid_of e) = e_row e /\ uid_cell (uid_of e) = e_cell e /\ 0 <= uid_of e < 2 ^ 40.
Proof. intros Eo. apply uid_parts; [rewrite (eo_index _ Eo); apply index_range|by apply entry_row|apply (eo_cell _ Eo)]. Qed.

Lemma uid_unique c log i j ei ej : store c log -> log !! i = Some ei -> log !! j = Some ej -> uid_of ei = uid_of ej -> i = j.
Proof.
  intros St Ei Ej Eu. pose proof (proj1 (Forall_lookup _ _) (st_entries _ _ St)) as Ok.
  destruct (uid_of_parts _ (Ok _ _ Ei)) as (_ & A1 & A2 & A3 & _), (uid_of_parts _ (Ok _ _ Ej)) as (_ & B1 & B2 & B3 & _).
  rewrite Eu in *. pose proof (st_cells _ _ St _ _ Ei) as Ci. pose proof (st_cells _ _ St _ _ Ej) as Cj.
  rewrite <-A1, <-A2, <-A3, B1, B2, B3, Cj in Ci. injection Ci as _ _ E. symmetry. by apply (position_inj c log j i ej ei).
Qed.

(** ** Looking for a key *)

Abbreviation M := (cmd cdb).

Lemma rd_inst_ret c t : rd_inst (mk_cdb c t) = Ret (c, mk_cdb c t).
Proof. done. Qed.
Lemma rd_tls_ret c t : rd_tls (mk_cdb c t) = Ret (t, mk_cdb c t).
Proof. done. Qed.
Lemma upd_inst_ret f c t : upd_inst f (mk_cdb c t) = Ret (tt, mk_cdb (f c) t).
Proof. done. Qed.
Lemma upd_tls_ret f c t : upd_tls f (mk_cdb c t) = Ret (tt, mk_cdb c (f t)).
Proof. done. Qed.
Lemma cdb_lift_ret {A} (o : outcome A) a c t : o = Ret a -> lift o (mk_cdb c t) = Ret (a, mk_cdb c t).
Proof. by intros ->. Qed.
Lemma assert_6_true b c t : b = true -> assert_6 b (mk_cdb c t) = Ret (tt, mk_cdb c t).
Proof. intros ->. unfold assert_6, assert6. by destruct debug. Qed.

(** The thread has prepared the key. *)
Definition prepared (t : TLS) (key : list Z) : Prop :=
  exists k, t_key t = Some k /\ slice k 0 (t_key_len t) = Some key /\ t_hash t = hash_of key.

(** Instances that differ in their statistics, and threads that differ in the entry that was unpacked last. *)
Definition same (c c' : SXE_CDB_INSTANCE) : Prop := exists a b, c' = set_keylen_misses a (set_memcmp_misses b c).
Definition same_tls (t t' : TLS) : Prop := exists p, t' = set_t_part p t.

Lemma same_refl c : same c c.
Proof. exists (keylen_misses c), (memcmp_misses c). by destruct c. Qed.
Lemma same_trans a b c : same a b -> same b c -> same a c.
Proof. intros (x & y & ->) (z & w & ->). exists z, w. by destruct a. Qed.
Lemma same_tls_refl t : same_tls t t.
Proof. exists (t_part t). by destruct t. Qed.
Lemma same_tls_trans a b c : same_tls a b -> same_tls b c -> same_tls a c.
Proof. intros (p & ->) (q & ->). exists q. by destruct a. Qed.
Lemma same_tls_part p t : same_tls t (set_t_part p t).
Proof. by exists p. Qed.
#[local] Hint Resolve same_refl same_tls_refl same_tls_part : core.

Lemma store_same c c' log : same c c' -> store c log -> store c' log.
Proof. intros (a & b & ->) []. by split. Qed.
Lemma prepared_same t t' key : same_tls t t' -> prepared t key -> prepared t' key.
Proof. intros (p & ->) (k & E). by exists k. Qed.

Lemma prepared_len t key : prepared t key -> t_key_len t = zlen key.
Proof. intros (k & _ & E & _). symmetry. by apply slice_length in E. Qed.
Lemma key_bytes_ret c t key : prepared t key -> key_bytes (mk_cdb c t) = Ret (key, mk_cdb c t).
Proof. intros (k & E1 & E2 & _). unfold key_bytes. step_by (rd_tls_ret c t). rewrite E1. step_by (cdb_lift_ret (load (Some k)) k c t eq_refl). by rewrite E2. Qed.

Section Hashed.
Context `{!HashWords}.

Lemma length_hash_of key : length (hash_of key) = 8%nat.
Proof. unfold hash_of, distinct. repeat case_match; rewrite ?length_insert; apply hash_words. Qed.

Lemma hash_word_at c t i : (i < length (t_hash t))%nat -> hash_word i (mk_cdb c t) = Ret (nth i (t_hash t) 0, mk_cdb c t).
Proof.
  intros Hi. unfold hash_word. step_by (rd_tls_ret c t). destruct (nth_lookup_or_length (t_hash t) i 0) as [L|L]; [by rewrite L|lia].
Qed.
Lemma wr_hash_word_ret c t i v : wr_hash_word i v (mk_cdb c t) = Ret (tt, mk_cdb c (set_t_hash (<[i := v]> (t_hash t)) t)).
Proof. done. Qed.
Lemma hash_word_ret c t key i : prepared t key -> (i < 8)%nat -> hash_word i (mk_cdb c t) = Ret (word i key, mk_cdb c t).
Proof. intros (k & _ & _ & E) Hi. rewrite hash_word_at by (by rewrite E, length_hash_of). by rewrite E. Qed.

(** Preparing a key. *)
Definition prepare_tls (k : list Z) (n : Z) (key : list Z) (t : TLS) : TLS := set_t_key_len n (set_t_key (Some k) (set_t_hash (hash_of key) t)).
Lemma prepared_prepare k n key t : slice k 0 n = Some key -> prepared (prepare_tls k n key t) key.
Proof. intros E. by exists k. Qed.

Lemma distinct_rows_ret c t : length (t_hash t) = 8%nat -> distinct_rows (mk_cdb c t) = Ret (tt, mk_cdb c (set_t_hash (distinct (t_hash t)) t)).
Proof.
  intros L. unfold distinct_rows, distinct. set (w := t_hash t) in *.
  assert (Id : forall u, set_t_hash w u = u \/ t_hash u <> w) by (intros u; destruct (decide (t_hash u = w)) as [<-|]; [left; by destruct u|by right]).
  step_by (hash_word_at c t 1 ltac:(fold w; lia)). step_by (hash_word_at c t 2 ltac:(fold w; lia)). fold w.
  destruct (nth 1 w 0 =? nth 2 w 0); [|by destruct (Id t) as [-> |]].
  step_by (hash_word_at c t 3 ltac:(fold w; lia)). fold w. step_by (wr_hash_word_ret c t 1 (nth 3 w 0)). fold w. set (w1 := <[1%nat := nth 3 w 0]> w).
  assert (L1 : length w1 = 8%nat) by (by unfold w1; rewrite length_insert).
  set (more := if nth 3 w 0 =? nth 2 w 0 then _ else _). set (w2 := if nth 3 w 0 =? nth 2 w 0 then _ else w1).
  assert (E : more (mk_cdb c (set_t_hash w1 t)) = Ret (tt, mk_cdb c (set_t_hash w2 t))).
  { unfold more, w2. destruct (nth 3 w 0 =? nth 2 w 0); [|done]. step_by (hash_word_at c (set_t_hash w1 t) 4 ltac:(cbn; lia)).
    rewrite wr_hash_word_ret. cbn. unfold w1.
    by rewrite !list_insert_insert_eq, !nth_lookup, list_lookup_insert_ne by lia. }
  step_by E. assert (L2 : length w2 = 8%nat) by (unfold w2; case_if; rewrite ?length_insert; done).
  step_by (hash_word_at c (set_t_hash w2 t) 1 ltac:(cbn; lia)). cbn [t_hash set_t_hash]. destruct (nth 1 w2 0 =? nth 2 w 0); [|done].
  rewrite wr_hash_word_ret. done.
Qed.

Lemma prepare_run c t k n key : slice k 0 n = Some key ->
  sxe_cdb_prepare (Some k) n (mk_cdb c t) = Ret (tt, mk_cdb c (prepare_tls k n key t)).
Proof.
  intros E. unfold sxe_cdb_prepare.
  assert (R : (bytes ← lift (load (slice k 0 n)); upd_tls (set_t_hash (MurmurHash3_xnn_128 bytes));; distinct_rows) (mk_cdb c t)
    = Ret (tt, mk_cdb c (set_t_hash (hash_of key) t))).
  { rewrite E. step_by (cdb_lift_ret (load (Some key)) key c t eq_refl). step_by (upd_tls_ret (set_t_hash (MurmurHash3_xnn_128 key)) c t).
    rewrite distinct_rows_ret by apply hash_words. done. }
  step_by R. done.
Qed.

Section Holding.
Context (log : list entry).

(** What unpacking entry [i] at its position finds. *)
Definition part_at (i : nat) (e : entry) : SXE_CDB_HKV_PART :=
  let h := key_header (e_key e) (e_val e) in
  mk_part (u32 (zlen (image e))) In_kvdata (position log i + h) (zlen (e_key e)) (position log i + h + zlen (e_key e)) (zlen (e_val e)).

Lemma store_ok c i e : store c log -> log !! i = Some e -> entry_ok e.
Proof. intros St. by apply (proj1 (Forall_lookup _ _) (st_entries _ _ St)). Qed.

Lemma unpack_entry c i e : store c log -> log !! i = Some e ->
  sxe_cdb_hkv_unpack In_kvdata (kvdata c) (position log i) = Ret (part_at i e).
Proof.
  intros St E. pose proof (store_ok _ _ _ St E) as Eo. destruct (entry_bytes c log i e St E) as (pre & post & -> & Hp & _). unfold image at 1. rewrite <-Hp.
  rewrite <-!(assoc_L (++)), unpack_header by apply (eo_fits _ Eo). by rewrite Hp; unfold part_at; rewrite (zlen_entry _ Eo).
Qed.

(** The entry's key and value in the memory. *)
Lemma entry_slices c i e : store c log -> log !! i = Some e ->
  slice (kvdata c) (key_at (part_at i e)) (zlen (e_key e)) = Some (e_key e) /\
  slice (kvdata c) (val_at (part_at i e)) (zlen (e_val e)) = Some (e_val e) /\
  slice (kvdata c) (position log i) (zlen (image e)) = Some (image e).
Proof.
  intros St E. pose proof (store_ok _ _ _ St E) as Eo. destruct (entry_bytes c log i e St E) as (pre & post & -> & Hp & _).
  pose proof (zlen_header _ _ _ (eo_fits _ Eo)) as Hh. cbn [key_at val_at part_at]. rewrite <-Hp.
  unfold image. set (hdr := header_bytes _ _ _) in *. rewrite <-!(assoc_L (++)), <-Hh.
  split; [|split].
  - rewrite (assoc_L (++) pre), <-zlen_app. apply slice_mid.
  - rewrite (assoc_L (++) pre), (assoc_L (++) _ (e_key e)), <-!zlen_app. apply slice_mid.
  - rewrite (assoc_L (++) hdr), (assoc_L (++) (hdr ++ _)), <-(assoc_L (++) hdr). apply slice_mid.
Qed.

Context (key : list Z).

Lemma sheet_index_ret c t i : store c log -> 0 <= i < SXE_CDB_SHEETS_MAX -> sheet_index_at i (mk_cdb c t) = Ret (sheet_of c i, mk_cdb c t).
Proof. intros St Hi. unfold sheet_index_at. step_by (rd_inst_ret c t). by rewrite (rd_index _ _ _ St Hi). Qed.

Lemma rd_cell_ret c t s row cell : store c log -> 0 <= s < sheets_size c -> 0 <= row < SXE_CDB_ROWS_PER_SHEET -> 0 <= cell < SXE_CDB_KEYS_PER_ROW ->
  rd_cell s row cell (mk_cdb c t) = Ret (cell_at c s row cell, mk_cdb c t).
Proof. intros St Hs Hr Hc. unfold rd_cell. step_by (rd_inst_ret c t). by rewrite (cell_is_mapped _ _ _ _ _ St Hs Hr Hc). Qed.

(** An entry with the key, in this cell. *)
Definition found_at (c : SXE_CDB_INSTANCE) (s row cell : Z) (i : nat) (e : entry) : Prop :=
  log !! i = Some e /\ e_key e = key /\ s = sheet_of c (e_index e) /\ row = e_row e /\ cell = e_cell e.

(** One cell: it is the right one just if its entry has the key. *)
Lemma try_cell_run c t s row cell : store c log -> prepared t key -> 0 <= s < sheets_size c -> 0 <= row < SXE_CDB_ROWS_PER_SHEET ->
  0 <= cell < SXE_CDB_KEYS_PER_ROW ->
  exists r c' t', try_cell s row cell (mk_cdb c t) = Ret (r, mk_cdb c' t') /\ same c c' /\ same_tls t t' /\
    match r with
    | Some pos => exists i e, found_at c s row cell i e /\ pos = position log i /\ t_part t' = part_at i e
    | None => forall i e, ~ found_at c s row cell i e
    end.
Proof.
  intros St P Hs Hr Hc. unfold try_cell. step_by (hash_word_ret c t key 0 P ltac:(lia)). step_by (hash_word_ret c t key 1 P ltac:(lia)).
  step_by (rd_cell_ret c t s row cell St Hs Hr Hc). set (v := cell_at c s row cell) in *.
  destruct ((word 1 key =? hash_lo v) && (word 0 key =? hash_hi v) && negb (hkv_pos v =? 0)) eqn:Hv.
  2: { exists None, c, t. split; [done|]. do 2 (split; [auto|]). intros i e (E & Ek & -> & -> & ->).
       unfold v in Hv. rewrite (st_cells _ _ St _ _ E) in Hv. unfold cell_of in Hv. rewrite Ek in Hv. cbn in Hv. pose proof (position_pos log i). lia. }
  destruct (st_all _ _ St s row cell) as (i & e & E & Es & Er & Ec); [fold v; lia|].
  assert (Hp : hkv_pos v = position log i) by (unfold v; by rewrite Es, Er, Ec, (st_cells _ _ St _ _ E)).
  step_by (rd_inst_ret c t). rewrite Hp. step_by (cdb_lift_ret _ _ c t (unpack_entry c i e St E)).
  step_by (upd_tls_ret (set_t_part (part_at i e)) c t). set (t' := set_t_part _ t).
  assert (P' : prepared t' key) by (apply (prepared_same t t' key (same_tls_part _ _) P)). step_by (rd_tls_ret c t'). rewrite (prepared_len _ _ P').
  assert (Only : e_key e <> key -> forall j f, ~ found_at c s row cell j f).
  { intros Hk j f (F & Fk & Fs & Fr & Fc). apply Hk. assert (i = j) as <-; [|congruence].
    apply (position_inj c log i j e f St E F). rewrite <-Hp. unfold v. by rewrite Fs, Fr, Fc, (st_cells _ _ St _ _ F). }
  cbn [key_len part_at]. destruct (Z.eqb_spec (zlen key) (zlen (e_key e))) as [El|El].
  2: { step_by (upd_inst_ret (fun c => set_keylen_misses (u64 (keylen_misses c + 1)) c) c t').
       eexists None, _, t'. split; [done|]. split; [exists (u64 (keylen_misses c + 1)), (memcmp_misses c); by destruct c|]. split; [apply same_tls_part|].
       apply Only. congruence. }
  destruct (entry_slices c i e St E) as (Sk & _). cbn [key_at part_at] in Sk.
  step_by (cdb_lift_ret _ _ c t' (eq_trans (f_equal load Sk) eq_refl)). step_by (key_bytes_ret c t' key P').
  case_bool_decide as Ek.
  - exists (Some (position log i)), c, t'. split; [done|]. split; [auto|]. split; [apply same_tls_part|]. by exists i, e.
  - step_by (upd_inst_ret (fun c => set_memcmp_misses (u64 (memcmp_misses c + 1)) c) c t').
    eexists None, _, t'. split; [done|]. split; [exists (keylen_misses c), (u64 (memcmp_misses c + 1)); by destruct c|]. split; [apply same_tls_part|].
    by apply Only.
Qed.

Lemma sheet_of_same c c' i : same c c' -> sheet_of c' i = sheet_of c i.
Proof. by intros (a & b & ->). Qed.
Lemma sheets_size_same c c' : same c c' -> sheets_size c' = sheets_size c.
Proof. by intros (a & b & ->). Qed.
Lemma found_at_same c c' s row cell i e : same c c' -> found_at c' s row cell i e -> found_at c s row cell i e.
Proof. intros Sm (A & B & C & D). rewrite (sheet_of_same _ _ _ Sm) in C. done. Qed.

(** The cells of the two rows, from some cell on. *)
Lemma find_cell_run s r1 r2 : 0 <= r1 < SXE_CDB_ROWS_PER_SHEET -> 0 <= r2 < SXE_CDB_ROWS_PER_SHEET ->
  forall n cell c t, store c log -> prepared t key -> 0 <= s < sheets_size c -> 0 <= cell -> cell + Z.of_nat n = SXE_CDB_KEYS_PER_ROW ->
  exists r c' t', find_cell n cell s r1 r2 (mk_cdb c t) = Ret (r, mk_cdb c' t') /\ same c c' /\ same_tls t t' /\
    match r with
    | Some (row, k, pos) => exists i e, found_at c s row k i e /\ pos = position log i /\ t_part t' = part_at i e
    | None => forall row k i e, (row = r1 \/ row = r2) -> cell <= k < SXE_CDB_KEYS_PER_ROW -> ~ found_at c s row k i e
    end.
Proof.
  intros H1r H2r n. induction n as [|n IH]; intros cell c t St P Hs Hc Hn; cbn [find_cell].
  { exists None, c, t. do 3 (split; [auto|]). intros. lia. }
  destruct (try_cell_run c t s r1 cell St P Hs H1r ltac:(lia)) as (x1 & c1 & t1 & R1 & S1 & T1 & X1). step_by R1.
  destruct x1 as [pos|]; [destruct X1 as (i & e & F & X1); exists (Some (r1, cell, pos)), c1, t1; do 3 (split; [done|]); by exists i, e|].
  pose proof (store_same _ _ _ S1 St) as St1. pose proof (prepared_same _ _ _ T1 P) as P1.
  assert (Hs1 : 0 <= s < sheets_size c1) by (by rewrite (sheets_size_same _ _ S1)).
  destruct (try_cell_run c1 t1 s r2 cell St1 P1 Hs1 H2r ltac:(lia)) as (x2 & c2 & t2 & R2 & S2 & T2 & X2). step_by R2.
  pose proof (same_trans _ _ _ S1 S2) as S12. pose proof (same_tls_trans _ _ _ T1 T2) as T12.
  destruct x2 as [pos|].
  { destruct X2 as (i & e & F & X2). exists (Some (r2, cell, pos)), c2, t2. do 3 (split; [done|]). exists i, e. split; [|done]. by apply (found_at_same c c1). }
  destruct (IH (cell + 1) c2 t2) as (x3 & c3 & t3 & R3 & S3 & T3 & X3); [by apply (store_same c)|by apply (prepared_same t)|by rewrite (sheets_size_same _ _ S12)|lia|lia|].
  exists x3, c3, t3. split; [done|]. split; [by apply (same_trans _ c2)|]. split; [by apply (same_tls_trans _ t2)|].
  assert (Back : forall d row k i e, same c d -> found_at c s row k i e -> found_at d s row k i e).
  { intros d row k i e Sd (A & B & C & D). split; [done|]. split; [done|]. by rewrite (sheet_of_same _ _ _ Sd). }
  destruct x3 as [[[row k] pos]|].
  - destruct X3 as (i & e & F & X3). exists i, e. split; [by apply (found_at_same c c2)|done].
  - intros row k i e Hrow Hk F. destruct (decide (k = cell)) as [->|Hne].
    + destruct Hrow as [-> | ->]; [by apply (X1 i e)|]. apply (X2 i e), (Back c1); done.
    + apply (X3 row k i e); [done|lia|]. by apply Back.
Qed.

(** What looking for the key finds: one of its entries, if there is one. *)
Definition finds (r : option (nat * entry)) : Prop :=
  match r with
  | Some (i, e) => log !! i = Some e /\ e_key e = key
  | None => forall i e, log !! i = Some e -> e_key e <> key
  end.

Lemma reset_part_ret c t : exists t', reset_part (mk_cdb c t) = Ret (tt, mk_cdb c t') /\ same_tls t t'.
Proof. unfold reset_part. destruct debug; [|by exists t; auto]. eexists. split; [done|]. by eexists. Qed.

Lemma find_key_run c t : store c log -> prepared t key ->
  exists t1 r c' t', reset_part (mk_cdb c t) = Ret (tt, mk_cdb c t1) /\
    find_cell (Z.to_nat SXE_CDB_KEYS_PER_ROW) 0 (sheet_of c (index_of key)) (row_1 key) (row_2 key) (mk_cdb c t1)
      = Ret ((fun ie => (e_row (snd ie), e_cell (snd ie), position log (fst ie))) <$> r, mk_cdb c' t') /\
    same c c' /\ same_tls t t' /\ finds r /\ (forall i e, r = Some (i, e) -> t_part t' = part_at i e).
Proof.
  intros St P. destruct (reset_part_ret c t) as (t1 & R1 & T1). pose proof (prepared_same _ _ _ T1 P) as P1.
  pose proof (sheet_range c log (index_of key) St (index_range key)) as Hs.
  destruct (find_cell_run (sheet_of c (index_of key)) (row_1 key) (row_2 key) (row_range _) (row_range _)
    (Z.to_nat SXE_CDB_KEYS_PER_ROW) 0 c t1 St P1 Hs ltac:(lia) ltac:(done)) as (r & c' & t' & R & Sm & T & X).
  destruct r as [[[row k] pos]|].
  - destruct X as (i & e & (E & Ek & _ & -> & ->) & -> & Hp). exists t1, (Some (i, e)), c', t'. split; [done|]. split; [done|]. split; [done|].
    split; [by apply (same_tls_trans _ t1)|]. split; [done|]. by intros ? ? [= <- <-].
  - exists t1, None, c', t'. split; [done|]. split; [done|]. split; [done|]. split; [by apply (same_tls_trans _ t1)|]. split; [|done].
    intros i e E Ek. pose proof (store_ok _ _ _ St E) as Eo. apply (X (e_row e) (e_cell e) i e).
    + rewrite <-Ek. apply (eo_row _ Eo).
    + apply (eo_cell _ Eo).
    + do 2 (split; [done|]). split; [|done]. by rewrite (eo_index _ Eo), Ek.
Qed.

(** Getting the uid, or the entry, of the prepared key. *)
Lemma get_uid_run c t : store c log -> prepared t key ->
  exists r c' t', sxe_cdb_instance_get_uid (mk_cdb c t) = Ret (match r with Some (_, e) => uid_of e | None => SXE_CDB_UID_NONE end, mk_cdb c' t') /\
    same c c' /\ same_tls t t' /\ finds r.
Proof.
  intros St P. destruct (find_key_run c t St P) as (t1 & r & c' & t' & R1 & R & Sm & T & F & _). exists r, c', t'. split; [|done].
  pose proof (sheet_range c log (index_of key) St (index_range key)) as Hs.
  unfold sxe_cdb_instance_get_uid. step_by (hash_word_ret c t key 0 P ltac:(lia)).
  step_by (sheet_index_ret c t (index_of key) St (index_range key)). step_by (rd_inst_ret c t). step_by (assert_6_true (sheet_of c (index_of key) <? sheets_size c) c t ltac:(lia)).
  step_by (hash_word_ret c t key 1 P ltac:(lia)). step_by (hash_word_ret c t key 2 P ltac:(lia)). step_by R1. step_by R.
  destruct r as [[i e]|]; [|done]. destruct F as [E Ek]. cbn. unfold uid_of. by rewrite (eo_index _ (store_ok _ _ _ St E)), Ek.
Qed.

Lemma get_hkv_raw_run c t : store c log -> prepared t key ->
  exists r c' t', sxe_cdb_instance_get_hkv_raw (mk_cdb c t) = Ret ((fun ie => position log (fst ie)) <$> r, mk_cdb c' t') /\
    same c c' /\ same_tls t t' /\ finds r /\ (forall i e, r = Some (i, e) -> t_part t' = part_at i e).
Proof.
  intros St P. destruct (find_key_run c t St P) as (t1 & r & c' & t' & R1 & R & Sm & T & F & Hp). exists r, c', t'. split; [|done].
  pose proof (sheet_range c log (index_of key) St (index_range key)) as Hs.
  unfold sxe_cdb_instance_get_hkv_raw. step_by (hash_word_ret c t key 0 P ltac:(lia)).
  step_by (sheet_index_ret c t (index_of key) St (index_range key)). step_by (rd_inst_ret c t). step_by (assert_6_true (sheet_of c (index_of key) <? sheets_size c) c t ltac:(lia)).
  step_by (hash_word_ret c t key 1 P ltac:(lia)). step_by (hash_word_ret c t key 2 P ltac:(lia)). step_by R1. step_by R.
  by destruct r as [[i e]|].
Qed.
End Holding.
End Hashed.

(** ** Entries by their uid *)

Lemma zlen_log_bytes log : zlen (log_bytes log) = foldr Z.add 0 ((fun e => zlen (image e)) <$> log).
Proof. induction log as [|e log IH]; [done|]. rewrite log_bytes_cons, zlen_app, IH. done. Qed.

Lemma position_replace log i e e' j : log !! i = Some e -> zlen (image e') = zlen (image e) -> position (<[i := e']> log) j = position log j.
Proof.
  intros E Hz. unfold position. rewrite !zlen_log_bytes. do 2 f_equal. rewrite !fmap_take, list_fmap_insert. f_equal.
  apply list_insert_id. by rewrite list_lookup_fmap, E; cbn; rewrite Hz.
Qed.

(** An entry whose value is replaced by one of the same length. *)
Definition with_val (v : list Z) (e : entry) : entry := mk_entry (e_index e) (e_row e) (e_cell e) (e_key e) v.

Lemma with_val_ok e v : zlen v = zlen (e_val e) -> entry_ok e -> entry_ok (with_val v e).
Proof. intros Hz [A B C D]. split; try done. unfold key_header in *. cbn. by rewrite Hz. Qed.
Lemma zlen_with_val e v : zlen v = zlen (e_val e) -> zlen (image (with_val v e)) = zlen (image e).
Proof. intros Hz. unfold image, key_header. cbn. rewrite Hz, !zlen_app, Hz. done. Qed.

Lemma store_replace c log i e : store c log -> log !! i = Some e ->
  exists pre post, kvdata c = pre ++ image e ++ post /\ zlen pre = position log i /\
    forall v, zlen v = zlen (e_val e) -> store (set_kvdata (pre ++ image (with_val v e) ++ post) c) (<[i := with_val v e]> log).
Proof.
  intros St E. destruct (st_bytes _ _ St) as (b & rest & Hb). pose proof (lookup_lt_Some _ _ _ E) as Hi.
  exists ([b] ++ log_bytes (take i log)), (log_bytes (drop (S i) log) ++ rest).
  split; [by rewrite Hb, (entry_at _ _ _ E), <-!(assoc_L (++))|]. split; [unfold position; rewrite zlen_app; done|].
  intros v Hz. pose proof (zlen_with_val e v Hz) as Hi'. destruct St as [A1 A2 A3 A4 A5 A6 A7 A8 A9 A10 A11 A12].
  set (log' := <[i := with_val v e]> log) in *.
  assert (Hl : log_bytes log' = log_bytes (take i log) ++ image (with_val v e) ++ log_bytes (drop (S i) log)).
  { unfold log'. rewrite insert_take_drop by done. by rewrite log_bytes_app, log_bytes_cons. }
  assert (Hpos : forall j, position log' j = position log j) by (intros j; by apply (position_replace log i e)).
  assert (Hin : forall j f, log' !! j = Some f -> exists g, log !! j = Some g /\ e_index f = e_index g /\ e_row f = e_row g /\ e_cell f = e_cell g /\ e_key f = e_key g).
  { intros j f Hf. unfold log' in Hf. destruct (decide (i = j)) as [<-|Hne].
    - rewrite list_lookup_insert_eq in Hf by done. injection Hf as <-. by exists e.
    - rewrite list_lookup_insert_ne in Hf by done. by exists f. }
  split; try done; cbn [kvdata set_kvdata].
  - exists b, rest. by rewrite Hl, <-!(assoc_L (++)).
  - cbn [kvdata_size set_kvdata]. rewrite <-A7, Hb, (entry_at _ _ _ E). rewrite !zlen_app in *. lia.
  - cbn [kvdata_used set_kvdata]. rewrite A9, Hl, (entry_at _ _ _ E), !zlen_app. lia.
  - unfold log'. apply Forall_insert; [done|]. apply with_val_ok; [done|]. by apply (proj1 (Forall_lookup _ _) A10 i).
  - intros j f Hf. destruct (Hin j f Hf) as (g & Hg & -> & -> & -> & Hk). etransitivity; [apply (A11 j g Hg)|]. unfold cell_of. by rewrite Hpos, Hk.
  - intros s row cell Hc. destruct (A12 s row cell Hc) as (j & g & Hg & -> & -> & ->). destruct (decide (i = j)) as [<-|Hne].
    + rewrite E in Hg. injection Hg as <-. exists i, (with_val v e). split; [|done]. unfold log'. by rewrite list_lookup_insert_eq.
    + exists j, g. split; [|done]. unfold log'. by rewrite list_lookup_insert_ne.
Qed.

Lemma uid_position_run c t log i e : store c log -> log !! i = Some e -> uid_position (uid_of e) (mk_cdb c t) = Ret (position log i, mk_cdb c t).
Proof.
  intros St E. pose proof (store_ok _ _ _ _ St E) as Eo. destruct (uid_of_parts e Eo) as (_ & U1 & U2 & U3 & _).
  pose proof (entry_row e Eo) as Hr. pose proof (eo_cell _ Eo) as Hc. pose proof (index_range (e_key e)) as Hi. rewrite <-(eo_index _ Eo) in Hi.
  pose proof (sheet_range c log (e_index e) St Hi) as Hs.
  assert (A1 : forall b, b = true -> assert_1 b (mk_cdb c t) = Ret (tt, mk_cdb c t)) by (by intros b ->).
  unfold uid_position. rewrite U1, U2, U3.
  step_by (A1 (e_cell e <? SXE_CDB_KEYS_PER_ROW) ltac:(lia)). step_by (A1 (e_row e <? SXE_CDB_ROWS_PER_SHEET) ltac:(lia)).
  step_by (A1 (e_index e <? SXE_CDB_SHEETS_MAX) ltac:(lia)). step_by (sheet_index_ret log c t (e_index e) St Hi). step_by (rd_inst_ret c t).
  step_by (A1 (sheet_of c (e_index e) <? sheets_size c) ltac:(lia)). step_by (rd_cell_ret log c t _ _ _ St Hs Hr Hc). by rewrite (st_cells _ _ St _ _ E).
Qed.

(** The thread's buffer is as long as the code thinks. *)
Definition tls_ok (t : TLS) : Prop := t_hkv_len_max t = zlen (default [] (t_hkv t)) /\ (t_hkv t = None -> t_hkv_len_max t = 0).

(** The thread has a copy of an entry. *)
Definition has_copy (t : TLS) (e : entry) : Prop :=
  (exists rest, t_hkv t = Some (image e ++ rest)) /\
  t_part t = mk_part (zlen (image e)) In_tls (key_header (e_key e) (e_val e)) (zlen (e_key e)) (key_header (e_key e) (e_val e) + zlen (e_key e)) (zlen (e_val e)).

Lemma image_u32 c log i e : store c log -> log !! i = Some e -> 0 < zlen (image e) < 4294967296.
Proof.
  intros St E. split; [apply image_nonempty; by apply (store_ok log c i)|]. destruct (entry_bytes c log i e St E) as (pre & post & _ & _ & Hz).
  pose proof (zlen_nonneg post). pose proof (position_pos log i). pose proof (st_u32 _ _ St). lia.
Qed.

Lemma copy_hkv_run c t log i e : store c log -> log !! i = Some e -> tls_ok t ->
  (zlen (image e) <= t_hkv_len_max t \/ realloc_ok (zlen (image e)) = true) ->
  exists t', sxe_cdb_copy_hkv_to_tls (position log i) (mk_cdb c t) = Ret (true, mk_cdb c t') /\ tls_ok t' /\ has_copy t' e /\
    t_key t' = t_key t /\ t_key_len t' = t_key_len t /\ t_hash t' = t_hash t.
Proof.
  intros St E Tk Hr. pose proof (image_u32 _ _ _ _ St E) as Hz. pose proof (store_ok _ _ _ _ St E) as Eo.
  unfold sxe_cdb_copy_hkv_to_tls. step_by (rd_inst_ret c t). step_by (cdb_lift_ret _ _ c t (unpack_entry log c i e St E)).
  step_by (upd_tls_ret (set_t_part (part_at log i e)) c t). set (t1 := set_t_part _ t). step_by (rd_tls_ret c t1).
  assert (Hl : hkv_len (part_at log i e) = zlen (image e)) by (cbn; apply u32_small; unfold is_u32; lia). rewrite Hl.
  set (grow := if t_hkv_len_max t1 <? _ then _ else _).
  assert (G : exists t2 buffer, grow (mk_cdb c t1) = Ret (tt, mk_cdb c t2) /\ t_hkv t2 = Some buffer /\ t_hkv_len_max t2 = zlen buffer /\ zlen (image e) <= zlen buffer /\
    t_key t2 = t_key t /\ t_key_len t2 = t_key_len t /\ t_hash t2 = t_hash t).
  { unfold grow. destruct Tk as [T1 T2]. destruct (Z.ltb_spec (t_hkv_len_max t1) (zlen (image e))) as [Hlt|Hge]; cbn [t_hkv_len_max t1 set_t_part] in *.
    - assert (Hok : realloc_ok (zlen (image e)) = true) by (destruct Hr; [lia|done]). rewrite Hok. set (buffer := default [] (t_hkv t1) ++ replicate _ 0).
      step_by (upd_tls_ret (set_t_hkv (Some buffer)) c t1). step_by (upd_tls_ret (set_t_hkv_len_max (zlen (image e))) c (set_t_hkv (Some buffer) t1)).
      eexists _, buffer. split; [done|]. split; [done|]. assert (Hbz : zlen buffer = zlen (image e)); [|rewrite Hbz; split; [done|split; [lia|done]]].
      unfold buffer. rewrite zlen_app, zlen_replicate. unfold zlen in *. change (t_hkv t1) with (t_hkv t). lia.
    - destruct (t_hkv t) as [buffer|] eqn:Eb; [|specialize (T2 eq_refl); lia]. exists t1, buffer. cbn in *. do 2 (split; [done|]). split; [done|split; [lia|done]]. }
  destruct G as (t2 & buffer & G & B1 & B2 & B3 & K1 & K2 & K3). step_by G.
  step_by (rd_tls_ret c t2). rewrite B2. destruct (Z.leb_spec (zlen (image e)) (zlen buffer)) as [_|]; [|lia].
  destruct (entry_slices log c i e St E) as (_ & _ & Si). rewrite Si, B1.
  set (buffer' := splice buffer 0 (image e)). assert (Hb : buffer' = image e ++ drop (length (image e)) buffer) by done.
  set (part' := mk_part _ In_tls _ _ _ _). set (copy := (bytes ← lift (load (Some (image e))); _) : M unit).
  assert (C : copy (mk_cdb c t2) = Ret (tt, mk_cdb c (set_t_part part' (set_t_hkv (Some buffer') t2)))).
  { unfold copy. step_by (cdb_lift_ret (load (Some (image e))) (image e) c t2 eq_refl). step_by (cdb_lift_ret (load (Some buffer)) buffer c t2 eq_refl).
    step_by (cdb_lift_ret (wr_bytes buffer 0 (image e)) buffer' c t2 (wr_bytes_ok buffer 0 (image e) ltac:(lia) ltac:(lia))). done. }
  step_by C. eexists. split; [done|]. split; [|split; [|done]].
  - split; [|done]. cbn. rewrite B2. unfold buffer', zlen. rewrite splice_length; [done|lia|lia].
  - split; [by exists (drop (length (image e)) buffer); cbn; rewrite Hb|]. cbn. unfold part'. cbn [key_len val_len part_at]. rewrite (zlen_entry _ Eo).
    f_equal; lia.
Qed.

(** Without memory for the copy, the process is aborted. *)
Lemma copy_hkv_refused c t log i e : store c log -> log !! i = Some e -> t_hkv_len_max t < zlen (image e) -> realloc_ok (zlen (image e)) = false ->
  sxe_cdb_copy_hkv_to_tls (position log i) (mk_cdb c t) = Abort.
Proof.
  intros St E Hl Hr. pose proof (image_u32 _ _ _ _ St E) as Hz.
  unfold sxe_cdb_copy_hkv_to_tls. step_by (rd_inst_ret c t). step_by (cdb_lift_ret _ _ c t (unpack_entry log c i e St E)).
  step_by (upd_tls_ret (set_t_part (part_at log i e)) c t). set (t1 := set_t_part _ t). step_by (rd_tls_ret c t1).
  assert (Hlen : hkv_len (part_at log i e) = zlen (image e)) by (cbn; apply u32_small; unfold is_u32; lia). rewrite Hlen.
  destruct (Z.ltb_spec (t_hkv_len_max t1) (zlen (image e))) as [_|Hge]; [|cbn in Hge; lia]. by rewrite Hr.
Qed.
Lemma get_uid_hkv_refused c t log i e : store c log -> log !! i = Some e -> t_hkv_len_max t < zlen (image e) -> realloc_ok (zlen (image e)) = false ->
  sxe_cdb_instance_get_uid_hkv (uid_of e) (mk_cdb c t) = Abort.
Proof.
  intros St E Hl Hr. unfold sxe_cdb_instance_get_uid_hkv. step_by (uid_position_run c t log i e St E). pose proof (position_pos log i).
  destruct (Z.eqb_spec (position log i) 0); [lia|]. by apply (copy_hkv_refused c t log i e).
Qed.

(** Getting the copy of an entry by its uid; and storing it back after the value was changed. *)
Lemma get_uid_hkv_run c t log i e : store c log -> log !! i = Some e -> tls_ok t ->
  (zlen (image e) <= t_hkv_len_max t \/ realloc_ok (zlen (image e)) = true) ->
  exists t', sxe_cdb_instance_get_uid_hkv (uid_of e) (mk_cdb c t) = Ret (true, mk_cdb c t') /\ tls_ok t' /\ has_copy t' e /\
    t_key t' = t_key t /\ t_key_len t' = t_key_len t /\ t_hash t' = t_hash t.
Proof.
  intros St E Tk Hr. destruct (copy_hkv_run c t log i e St E Tk Hr) as (t' & R & X). exists t'. split; [|done].
  unfold sxe_cdb_instance_get_uid_hkv. step_by (uid_position_run c t log i e St E). pose proof (position_pos log i). by destruct (Z.eqb_spec (position log i) 0); [lia|].
Qed.

Lemma set_uid_hkv_run c t log i e v : store c log -> log !! i = Some e -> zlen v = zlen (e_val e) -> has_copy t (with_val v e) ->
  exists c', sxe_cdb_instance_set_uid_hkv (uid_of e) (mk_cdb c t) = Ret (tt, mk_cdb c' t) /\ store c' (<[i := with_val v e]> log).
Proof.
  intros St E Hz ((rest & B) & Hp). destruct (store_replace c log i e St E) as (pre & post & Hk & Hpre & St'). specialize (St' v Hz).
  eexists. split; [|apply St'].
  unfold sxe_cdb_instance_set_uid_hkv. step_by (uid_position_run c t log i e St E). pose proof (position_pos log i). destruct (Z.eqb_spec (position log i) 0); [lia|].
  unfold sxe_cdb_copy_tls_to_hkv. step_by (rd_inst_ret c t). step_by (rd_tls_ret c t). rewrite B, Hp. cbn [hkv_len].
  step_by (cdb_lift_ret (load (Some (image (with_val v e) ++ rest))) _ c t eq_refl). rewrite slice_prefix.
  step_by (cdb_lift_ret (load (Some (image (with_val v e)))) _ c t eq_refl). rewrite Hk, <-Hpre.
  pose proof (zlen_with_val e v Hz) as Hzi. unfold zlen in Hzi.
  step_by (cdb_lift_ret (wr_bytes (pre ++ image e ++ post) (zlen pre) (image (with_val v e))) (pre ++ image (with_val v e) ++ post) c t
    ltac:(apply wr_bytes_at; [done|lia])). done.
Qed.
End Store.
