(* ===== verification/CdbPut.v ===== *)
(** * CdbPut: splitting sheets, and putting entries into an instance

    Splitting a sheet moves cells and keeps the entries. Putting a key finds a free cell in one of its rows, splitting as
    often as that takes, and puts the entry behind the others. *)

From S2P Require Import Prelude Spinlock Cdb CdbStore.

Section Put.
Context `{Build, CdbSystem}.
Implicit Types (c : SXE_CDB_INSTANCE) (t : TLS) (log : list entry).

(** ** Loops over the cells of a sheet *)

Lemma for_cells_inv (I : Z -> Z -> cdb -> Prop) body row :
  (forall cell s, 0 <= cell < SXE_CDB_KEYS_PER_ROW -> I row cell s -> exists s', body row cell s = Ret (tt, s') /\ I row (cell + 1) s') ->
  forall n cell s, 0 <= cell -> cell + Z.of_nat n = SXE_CDB_KEYS_PER_ROW -> I row cell s ->
    exists s', for_cells n row cell body s = Ret (tt, s') /\ I row SXE_CDB_KEYS_PER_ROW s'.
Proof.
  intros Hb n. induction n as [|n IH]; intros cell s Hc Hn Hi; cbn [for_cells].
  - exists s. split; [done|]. by replace SXE_CDB_KEYS_PER_ROW with cell by lia.
  - destruct (Hb cell s) as (s1 & R & Hi1); [lia|done|]. step_by R. apply IH; [lia|lia|done].
Qed.

Lemma for_rows_inv (I : Z -> Z -> cdb -> Prop) body :
  (forall row cell s, 0 <= row < SXE_CDB_ROWS_PER_SHEET -> 0 <= cell < SXE_CDB_KEYS_PER_ROW -> I row cell s ->
    exists s', body row cell s = Ret (tt, s') /\ I row (cell + 1) s') ->
  (forall row s, I row SXE_CDB_KEYS_PER_ROW s -> I (row + 1) 0 s) ->
  forall n row s, 0 <= row -> row + Z.of_nat n = SXE_CDB_ROWS_PER_SHEET -> I row 0 s ->
    exists s', for_rows n row body s = Ret (tt, s') /\ I SXE_CDB_ROWS_PER_SHEET 0 s'.
Proof.
  intros Hb Hnext n. induction n as [|n IH]; intros row s Hr Hn Hi; cbn [for_rows].
  - exists s. split; [done|]. by replace SXE_CDB_ROWS_PER_SHEET with row by lia.
  - destruct (for_cells_inv I body row (fun cell s Hc => Hb row cell s ltac:(lia) Hc) (Z.to_nat SXE_CDB_KEYS_PER_ROW) 0 s ltac:(lia) ltac:(done) Hi) as (s1 & R & Hi1).
    step_by R. apply IH; [lia|lia|by apply Hnext].
Qed.

(** ** Splitting the indexes *)

(** How many sheet indexes name a sheet. *)
Definition named (sheet : Z) (l : list Z) : Z := zlen (filter (fun i => i = sheet) l).

Lemma split_indexes_run this that l : Forall (fun i => i <= that) l -> forall toggle n,
  exists l', split_indexes this that toggle n l = Ret (l', n + named this l) /\
    Forall2 (fun i i' => i' = i \/ (i = this /\ i' = that)) l l'.
Proof.
  unfold named. induction 1 as [|i l Hi _ IH]; intros toggle n; cbn [split_indexes].
  { exists []. split; [|done]. cbn. by rewrite Z.add_0_r. }
  assert (E6 : assert6 (i <=? that) = Ret tt) by (replace (i <=? that) with true by lia; unfold assert6; by destruct debug). rewrite E6. cbn [mbind outcome_bind].
  rewrite filter_cons. destruct (Z.eqb_spec this i) as [<-|Hne].
  - destruct (IH (negb toggle) (n + 1)) as (l' & -> & F). cbn. eexists. split; [f_equal; f_equal; rewrite decide_True by done; rewrite zlen_cons; lia|].
    constructor; [|done]. destruct toggle; auto.
  - destruct (IH toggle n) as (l' & -> & F). cbn. eexists. split; [rewrite decide_False by done; done|]. constructor; auto.
Qed.

Lemma split_sheet_of c l this that : Forall2 (fun i i' => i' = i \/ (i = this /\ i' = that)) (sheets_index c) l ->
  forall i, nth (Z.to_nat i) l 0 = sheet_of c i \/ (sheet_of c i = this /\ nth (Z.to_nat i) l 0 = that) .
Proof.
  intros F i. unfold sheet_of. destruct (decide (Z.to_nat i < length l)%nat) as [Hi|Hi].
  - destruct (nth_lookup_or_length l (Z.to_nat i) 0) as [E|E]; [|lia].
    destruct (Forall2_lookup_r _ _ _ _ _ F E) as (x & Ex & R). rewrite (nth_lookup (sheets_index c)), Ex. cbn. destruct R; auto.
  - left. rewrite !nth_overflow; [done| |lia]. rewrite (Forall2_length _ _ _ F). lia.
Qed.

(** ** Splitting a sheet *)

Lemma cell_at_insert c s row k v s' row' k' :
  cell_at (set_sheets (<[(s, row, k) := v]> (sheets c)) c) s' row' k' =
  if decide (s = s' /\ row = row' /\ k = k') then v else cell_at c s' row' k'.
Proof.
  unfold cell_at. cbn. case_decide as Hd.
  - destruct Hd as (-> & -> & ->). by rewrite lookup_insert_eq.
  - rewrite lookup_insert_ne; [done|]. intros [= -> -> ->]. by apply Hd.
Qed.

Section Split.
(** The instance when the indexes were split, before the cells are. *)
Context (c0 : SXE_CDB_INSTANCE) (this that : Z).
Hypothesis Ne : this <> that.
Hypothesis Len : zlen (sheets_index c0) = SXE_CDB_SHEETS_MAX.
Hypothesis Mapped : forall s row k, s = this \/ s = that -> 0 <= row < SXE_CDB_ROWS_PER_SHEET -> 0 <= k < SXE_CDB_KEYS_PER_ROW -> cell_mapped c0 s row k = true.
Hypothesis Either : forall row k, hkv_pos (cell_at c0 this row k) <> 0 ->
  let s := sheet_of c0 (hash_hi (cell_at c0 this row k) mod SXE_CDB_SHEETS_MAX) in s = this \/ s = that.
Hypothesis Range : forall row k, hkv_pos (cell_at c0 this row k) <> 0 -> 0 <= row < SXE_CDB_ROWS_PER_SHEET /\ 0 <= k < SXE_CDB_KEYS_PER_ROW.

(** The cells that go to the new sheet. *)
Definition goes (row k : Z) : Prop :=
  let v := cell_at c0 this row k in hkv_pos v <> 0 /\ sheet_of c0 (hash_hi v mod SXE_CDB_SHEETS_MAX) = that.
#[local] Instance goes_dec row k : Decision (goes row k).
Proof. unfold goes. apply _. Qed.

(** The cell [(s, row, k)] when it was moved. *)
Definition moved (s row k : Z) : SXE_CDB_CELL :=
  let v := cell_at c0 this row k in
  if decide (goes row k) then
    if decide (s = that) then v else if decide (s = this) then mk_cell (hash_lo v) (hash_hi v) 0 else cell_at c0 s row k
  else cell_at c0 s row k.

(** The cells before [(row, k)] were moved. *)
Definition split_upto (t : TLS) (row k : Z) (st : cdb) : Prop :=
  exists m n, st = mk_cdb (set_sheets m (set_sheets_split_keys n c0)) t /\
    forall s r j, cell_at (inst st) s r j = if decide (r < row \/ (r = row /\ j < k)) then moved s r j else cell_at c0 s r j.

Lemma moved_stays s row k : hkv_pos (cell_at c0 this row k) = 0 \/ ~ goes row k -> moved s row k = cell_at c0 s row k.
Proof. intros Hs. unfold moved. rewrite decide_False; [done|]. intros [G1 G2]. destruct Hs as [Hs|Hs]; [done|]. by apply Hs. Qed.

Lemma split_cell_step t row k st : 0 <= row < SXE_CDB_ROWS_PER_SHEET -> 0 <= k < SXE_CDB_KEYS_PER_ROW -> split_upto t row k st ->
  exists st', split_cell this that row k st = Ret (tt, st') /\ split_upto t row (k + 1) st'.
Proof.
  intros Hr Hk (m & n & -> & Hm). cbn [inst] in Hm. set (c := set_sheets m _) in *.
  assert (Hv : cell_at c this row k = cell_at c0 this row k) by (rewrite Hm, decide_False by lia; done).
  assert (Step : forall c', (forall s r j, cell_at c' s r j = if decide (r = row /\ j = k) then moved s r j else cell_at c s r j) ->
    forall s r j, cell_at c' s r j = if decide (r < row \/ (r = row /\ j < k + 1)) then moved s r j else cell_at c0 s r j).
  { intros c' Hc' s r j. rewrite Hc', Hm. repeat case_decide; try lia; try done. }
  assert (Cm : forall c s, (s = this \/ s = that) -> sheets_mapped c = sheets_mapped c0 -> cell_mapped c s row k = true).
  { intros d s Hs Hd. rewrite <-(Mapped s row k Hs Hr Hk). unfold cell_mapped. by rewrite Hd. }
  unfold split_cell.
  assert (Rd : rd_cell this row k (mk_cdb c t) = Ret (cell_at c0 this row k, mk_cdb c t)).
  { unfold rd_cell. step_by (rd_inst_ret c t). rewrite Cm by auto. by rewrite Hv. }
  step_by Rd. set (v := cell_at c0 this row k) in *. destruct (Z.eqb_spec (hkv_pos v) 0) as [Hz|Hz].
  { exists (mk_cdb c t). split; [done|]. exists m, n. split; [done|]. apply Step. intros s r j. case_decide as Hd; [|done]. destruct Hd as [-> ->].
    rewrite moved_stays by auto. rewrite Hm, decide_False by lia. done. }
  step_by (upd_inst_ret (fun c => set_sheets_split_keys (u64 (sheets_split_keys c + 1)) c) c t). set (c1 := set_sheets_split_keys _ c).
  pose proof (Z.mod_pos_bound (hash_hi v) SXE_CDB_SHEETS_MAX ltac:(done)) as Hx. set (x := hash_hi v mod SXE_CDB_SHEETS_MAX) in *.
  assert (Rx : sheet_index_at x (mk_cdb c1 t) = Ret (sheet_of c0 x, mk_cdb c1 t)).
  { unfold sheet_index_at. step_by (rd_inst_ret c1 t). change (sheets_index c1) with (sheets_index c0). unfold zlen in Len.
    destruct (nth_lookup_or_length (sheets_index c0) (Z.to_nat x) 0) as [E|E]; [|lia]. rewrite <-(Z2Nat.id x), rd_nat, E by lia. unfold sheet_of. by rewrite Z2Nat.id by lia. }
  step_by Rx. pose proof (Either row k Hz) as Hor. cbv zeta in Hor. fold v x in Hor.
  step_by (assert_6_true ((sheet_of c0 x =? this) || (sheet_of c0 x =? that)) c1 t ltac:(lia)).
  destruct (Z.eqb_spec (sheet_of c0 x) that) as [Ht|Ht].
  - assert (G : goes row k) by done.
    set (c2 := set_sheets (<[(that, row, k) := v]> (sheets c1)) c1). set (c3 := set_sheets (<[(this, row, k) := mk_cell (hash_lo v) (hash_hi v) 0]> (sheets c2)) c2).
    assert (W1 : wr_cell that row k v (mk_cdb c1 t) = Ret (tt, mk_cdb c2 t)).
    { unfold wr_cell. step_by (rd_inst_ret c1 t). by rewrite Cm by auto. }
    assert (W2 : wr_cell this row k (mk_cell (hash_lo v) (hash_hi v) 0) (mk_cdb c2 t) = Ret (tt, mk_cdb c3 t)).
    { unfold wr_cell. step_by (rd_inst_ret c2 t). by rewrite Cm by auto. }
    step_by W1. rewrite W2. eexists. split; [done|]. eexists _, _. split; [reflexivity|]. apply Step. intros s r j. cbn [inst].
    change (cell_at c3 s r j = if decide (r = row /\ j = k) then moved s r j else cell_at c s r j).
    unfold c3. rewrite cell_at_insert. unfold c2. rewrite cell_at_insert. change (cell_at c1 s r j) with (cell_at c s r j).
    destruct (decide (r = row /\ j = k)) as [[-> ->]|Hd]; [|rewrite !decide_False by (intros (_ & E1 & E2); by apply Hd); done].
    unfold moved. rewrite (decide_True _ _ G). fold v. repeat case_decide; try tauto; try lia. subst. rewrite Hm, decide_False by lia. done.
  - exists (mk_cdb c1 t). split; [done|]. eexists m, _. split; [reflexivity|]. apply Step. intros s r j. cbn [inst].
    change (cell_at c s r j = if decide (r = row /\ j = k) then moved s r j else cell_at c s r j).
    case_decide as Hd; [|done]. destruct Hd as [-> ->]. rewrite moved_stays by (right; intros [_ G]; by fold v x in G). rewrite Hm, decide_False by lia. done.
Qed.

Lemma split_cells_run t : exists m n, for_rows (Z.to_nat SXE_CDB_ROWS_PER_SHEET) 0 (split_cell this that) (mk_cdb c0 t)
    = Ret (tt, mk_cdb (set_sheets m (set_sheets_split_keys n c0)) t) /\
  forall s r j, cell_at (set_sheets m (set_sheets_split_keys n c0)) s r j = moved s r j.
Proof.
  assert (Out : forall s r j, ~ (0 <= r < SXE_CDB_ROWS_PER_SHEET /\ 0 <= j < SXE_CDB_KEYS_PER_ROW) -> moved s r j = cell_at c0 s r j).
  { intros s r j Ho. apply moved_stays. left. destruct (decide (hkv_pos (cell_at c0 this r j) = 0)) as [|Hc]; [done|]. by apply Range in Hc. }
  destruct (for_rows_inv (split_upto t) (split_cell this that)) with (n := Z.to_nat SXE_CDB_ROWS_PER_SHEET) (row := 0) (s := mk_cdb c0 t)
    as (st & R & m & n & -> & Hm); [| |lia|done| |].
  - intros row k st Hr Hk Hi. by apply split_cell_step.
  - intros row st (m & n & -> & Hm). exists m, n. split; [done|]. intros s r j. rewrite Hm. pose proof keys_per_row.
    repeat case_decide; try done; try lia. rewrite Out by lia. done.
  - exists (sheets c0), (sheets_split_keys c0). split; [by destruct c0|]. intros s r j. cbn [inst]. case_decide as Hd; [|done].
    rewrite Out by lia. done.
  - exists m, n. split; [done|]. intros s r j. cbn [inst] in Hm. rewrite Hm. case_decide as Hd; [done|]. rewrite Out by lia. done.
Qed.
End Split.

(** What holds of the memory of keys and values, which splitting leaves as it is. *)
Definition same_kvdata c c' : Prop :=
  kvdata c' = kvdata c /\ kvdata_size c' = kvdata_size c /\ kvdata_used c' = kvdata_used c /\ kvdata_maximum c' = kvdata_maximum c.

Lemma same_kvdata_trans a b c : same_kvdata a b -> same_kvdata b c -> same_kvdata a c.
Proof. intros (A & B & C & D) (E & F & G & I). unfold same_kvdata. rewrite E, F, G, I. done. Qed.

(** The system does not give the memory for one more sheet; or, in a debug build, a single index names the full sheet. *)
Definition cannot_split c (sheet : Z) : Prop :=
  map_ok c (u32 (SXE_CDB_SHEET_BYTES * (1 + sheets_size c))) = false \/ (debug = true /\ named sheet (sheets_index c) <= 1).

Class MapLaw := { map_zero : forall c, map_ok c 0 = false }.
Context `{!MapLaw}.

(** The instance after the indexes of sheet [this] were split; its cells are not moved yet. *)
Definition split_opened (l : list Z) c : SXE_CDB_INSTANCE :=
  set_sheets_index l (set_sheets_mapped (SXE_CDB_SHEET_BYTES * (1 + sheets_size c))
    (set_sheets_cells_size (u32 (sheets_cells_size c + SXE_CDB_KEYS_PER_SHEET)) (set_sheets_size (sheets_size c + 1) c))).

Lemma in_range c log s row k : store c log -> hkv_pos (cell_at c s row k) <> 0 -> 0 <= row < SXE_CDB_ROWS_PER_SHEET /\ 0 <= k < SXE_CDB_KEYS_PER_ROW.
Proof.
  intros St Hc. destruct (st_all _ _ St _ _ _ Hc) as (i & e & E & _ & -> & ->). pose proof (store_ok _ _ _ _ St E) as Eo.
  split; [by apply entry_row|apply (eo_cell _ Eo)].
Qed.

Section Split_store.
Context (c : SXE_CDB_INSTANCE) (log : list entry) (this : Z) (l : list Z).
Hypothesis St : store c log.
Hypothesis This : 0 <= this < sheets_size c.
Hypothesis Room : sheets_size c + 1 < SXE_CDB_SHEETS_MAX.
Hypothesis Indexes : Forall2 (fun i i' => i' = i \/ (i = this /\ i' = sheets_size c)) (sheets_index c) l.

Lemma opened_sheet_of i : sheet_of (split_opened l c) i = sheet_of c i \/ (sheet_of c i = this /\ sheet_of (split_opened l c) i = sheets_size c).
Proof. exact (split_sheet_of c l this (sheets_size c) Indexes i). Qed.

(** The sheet of a used cell is the one that its hash says. *)
Lemma used_cell s row k : hkv_pos (cell_at c s row k) <> 0 ->
  exists i e, log !! i = Some e /\ s = sheet_of c (e_index e) /\ row = e_row e /\ k = e_cell e /\
    cell_at c s row k = cell_of log i e /\ hash_hi (cell_at c s row k) mod SXE_CDB_SHEETS_MAX = e_index e.
Proof.
  intros Hc. destruct (st_all _ _ St _ _ _ Hc) as (i & e & E & -> & -> & ->). pose proof (store_ok _ _ _ _ St E) as Eo.
  exists i, e. do 4 (split; [done|]). rewrite (st_cells _ _ St _ _ E). split; [done|]. symmetry. apply (eo_index _ Eo).
Qed.

(** Whatever was moved, the instance holds the same entries. *)
Lemma split_store m n : (forall s r j, cell_at (set_sheets m (set_sheets_split_keys n (split_opened l c))) s r j = moved (split_opened l c) this (sheets_size c) s r j) ->
  store (set_sheets m (set_sheets_split_keys n (split_opened l c))) log.
Proof.
  intros Hm. set (c0 := split_opened l c) in *. pose proof (Forall2_length _ _ _ Indexes) as Hl.
  assert (So : forall i, sheet_of (set_sheets m (set_sheets_split_keys n c0)) i = sheet_of c0 i) by done.
  set (c' := set_sheets m _) in *. destruct St as [A1 A2 A3 A4 A5 A6 A7 A8 A9 A10 A11 A12].
  split; try done.
  - cbn [sheets_index c' set_sheets set_sheets_split_keys c0 split_opened set_sheets_index]. unfold zlen in *. lia.
  - change (Forall (fun s => 0 <= s < sheets_size c + 1) l). apply Forall_lookup. intros i x Hx. destruct (Forall2_lookup_r _ _ _ _ _ Indexes Hx) as (y & Hy & Hxy).
    pose proof (proj1 (Forall_lookup _ _) A2 _ _ Hy). cbn beta in *. destruct Hxy as [-> |[-> ->]]; lia.
  - change (1 <= sheets_size c + 1 < SXE_CDB_SHEETS_MAX). lia.
  - change (SXE_CDB_SHEET_BYTES * (1 + sheets_size c) = SXE_CDB_SHEET_BYTES * (sheets_size c + 1)). lia.
  - intros s row k Hs. change (sheets_size c + 1 <= s) in Hs. rewrite Hm. unfold moved. change (cell_at c0) with (cell_at c). rewrite !(A5 s) by lia.
    repeat case_decide; try lia; done.
  - intros i e E. pose proof (A11 i e E) as Ce. pose proof (position_pos log i) as Hp. rewrite So.
    assert (Hx : hkv_pos (cell_of log i e) <> 0) by (cbn; lia). rewrite Hm. unfold moved.
    destruct (opened_sheet_of (e_index e)) as [Eq|[Et Eq]]; fold c0 in Eq; rewrite Eq.
    + change (cell_at c0) with (cell_at c). case_decide as Hg; [|done]. destruct Hg as [G1 G2]. destruct (decide (sheet_of c (e_index e) = this)) as [Ht|Ht].
      * exfalso. change (cell_at c0) with (cell_at c) in G2. rewrite <-Ht, Ce in G2. cbn [cell_of hash_hi] in G2. pose proof (store_ok _ _ _ _ St E) as Eo. change (sheet_of c0 (index_of (e_key e)) = sheets_size c) in G2.
        rewrite <-(eo_index _ Eo), Eq in G2. rewrite G2 in Ht. lia.
      * pose proof (store_ok _ _ _ _ St E) as Eo. pose proof (sheet_range c log (e_index e) St) as Hr.
        specialize (Hr ltac:(rewrite (eo_index _ Eo); apply index_range)). case_decide; [lia|done].
    + rewrite Et in Ce. change (cell_at c0) with (cell_at c). rewrite decide_True by (split; change (cell_at c0) with (cell_at c); rewrite Ce; [done|]; cbn [cell_of hash_hi];
        pose proof (store_ok _ _ _ _ St E) as Eo; change (sheet_of c0 (index_of (e_key e)) = sheets_size c); by rewrite <-(eo_index _ Eo)).
      by rewrite decide_True.
  - intros s row k Hc. rewrite Hm in Hc. unfold moved in Hc. change (cell_at c0) with (cell_at c) in Hc. case_decide as Hg.
    + destruct Hg as [G1 G2]. change (cell_at c0) with (cell_at c) in *. destruct (used_cell _ _ _ G1) as (i & e & E & Ht & -> & -> & Ce & Hi). rewrite Hi in G2.
      destruct (decide (s = sheets_size c)) as [->|]; [by exists i, e|]. destruct (decide (s = this)) as [->|Hs]; [done|].
      destruct (used_cell _ _ _ Hc) as (j & f & F & Hs' & Hr & Hk & _ & _). exists j, f. split; [done|]. split; [|done]. rewrite So.
      destruct (opened_sheet_of (e_index f)) as [Eq|[Et Eq]]; fold c0 in Eq; rewrite Eq; congruence.
    + destruct (used_cell _ _ _ Hc) as (j & f & F & Hs' & Hr & Hk & Cf & Hi). exists j, f. split; [done|]. split; [|done]. rewrite So.
      destruct (opened_sheet_of (e_index f)) as [Eq|[Et Eq]]; fold c0 in Eq; [by rewrite Eq|]. exfalso. apply Hg. split; change (cell_at c0) with (cell_at c).
      * by rewrite <-Et, <-Hs'.
      * rewrite <-Et, <-Hs', Hi. done.
Qed.
End Split_store.

(** The counts of what was done do not matter. *)
Lemma store_split_count c log n : store c log -> store (set_sheets_split n c) log.
Proof. by intros [B1 B2 B3 B4 B5 B6 B7 B8 B9 B10 B11 B12]. Qed.
Lemma store_cells_used c log n : store c log -> store (set_sheets_cells_used n c) log.
Proof. by intros [B1 B2 B3 B4 B5 B6 B7 B8 B9 B10 B11 B12]. Qed.

(** Splitting a sheet keeps the entries; it is refused when there is no more memory, or nothing to split. *)
Lemma split_run c t log sheet : store c log -> 0 <= sheet < sheets_size c ->
  match sxe_cdb_instance_split_sheet sheet (mk_cdb c t) with
  | Ret (_, st) => exists c', st = mk_cdb c' t /\ store c' log /\ same_kvdata c c' /\ sheets_size c' = sheets_size c + 1
  | Abort => cannot_split c sheet
  | Fault => False
  end.
Proof.
  intros St Hs. pose proof (st_sheets _ _ St) as Hsz. rewrite sheets_max in Hsz.
  unfold sxe_cdb_instance_split_sheet. step_by (rd_inst_ret c t). set (bytes := u32 _).
  assert (Hu : u16 (sheets_size c) = sheets_size c) by (unfold u16; apply Z.mod_small; lia). rewrite Hu.
  rewrite (u32_small (sheets_size c + 1)) by (unfold is_u32; lia).
  step_by (upd_inst_ret (set_sheets_size (sheets_size c + 1)) c t). step_by (upd_inst_ret (set_sheets_cells_size (u32 (sheets_cells_size c + SXE_CDB_KEYS_PER_SHEET))) (set_sheets_size (sheets_size c + 1) c) t).
  set (c1 := set_sheets_cells_size _ _). destruct (map_ok c bytes) eqn:Em; [|by left].
  assert (Hroom : sheets_size c + 1 < SXE_CDB_SHEETS_MAX).
  { rewrite sheets_max. destruct (decide (sheets_size c = 8191)) as [Hf|]; [|lia]. exfalso. unfold bytes in Em. rewrite Hf in Em.
    change (u32 (SXE_CDB_SHEET_BYTES * (1 + 8191))) with 0 in Em. by rewrite map_zero in Em. }
  assert (Hb : bytes = SXE_CDB_SHEET_BYTES * (1 + sheets_size c)).
  { unfold bytes. apply u32_small. unfold is_u32. rewrite sheets_max in Hroom. change SXE_CDB_SHEET_BYTES with 524288. lia. }
  assert (A1 : assert_1 true (mk_cdb c1 t) = Ret (tt, mk_cdb c1 t)) by done. step_by A1.
  step_by (upd_inst_ret (set_sheets_mapped bytes) c1 t). set (c2 := set_sheets_mapped bytes c1).
  destruct (split_indexes_run sheet (sheets_size c) (sheets_index c)) with (toggle := false) (n := 0) as (l & R & F).
  { eapply Forall_impl; [apply (st_index _ _ St)|]. cbn. intros. lia. }
  step_by (cdb_lift_ret (split_indexes sheet (sheets_size c) false 0 (sheets_index c)) _ c2 t R). cbn [fst snd].
  step_by (upd_inst_ret (set_sheets_index l) c2 t).
  assert (Hc : set_sheets_index l c2 = split_opened l c) by (unfold c2, c1, split_opened; by rewrite Hb). rewrite Hc.
  destruct (decide (debug = true /\ named sheet (sheets_index c) <= 1)) as [Hd|Hd].
  { replace (1 <? 0 + named sheet (sheets_index c)) with false by lia. destruct Hd as [Hd1 Hd2]. unfold assert_6, assert6. rewrite Hd1. right. by split. }
  assert (A6 : assert_6 (1 <? 0 + named sheet (sheets_index c)) (mk_cdb (split_opened l c) t) = Ret (tt, mk_cdb (split_opened l c) t)).
  { destruct (decide (named sheet (sheets_index c) <= 1)) as [Hn|Hn]; [|apply assert_6_true; lia]. unfold assert_6, assert6. destruct debug; [tauto|done]. }
  step_by A6. pose proof (opened_sheet_of c sheet l F) as Os.
  destruct (split_cells_run (split_opened l c) sheet (sheets_size c)) with (t := t) as (m & n & Rc & Hm); [lia| | | | |].
  - change (zlen l = SXE_CDB_SHEETS_MAX). rewrite <-(st_indexes _ _ St). unfold zlen. by rewrite (Forall2_length _ _ _ F).
  - intros s row k Ho Hr Hk. unfold cell_mapped. change (sheets_mapped (split_opened l c)) with (SXE_CDB_SHEET_BYTES * (1 + sheets_size c)).
    change SXE_CDB_SHEET_BYTES with 524288. lia.
  - intros row k Hc' s. change (cell_at (split_opened l c) sheet row k) with (cell_at c sheet row k) in *.
    destruct (used_cell c log St _ _ _ Hc') as (i & e & E & Ht & _ & _ & _ & Hi). unfold s. rewrite Hi. destruct (Os (e_index e)) as [-> |[_ ->]]; auto.
  - intros row k Hc'. by apply (in_range c log sheet row k St).
  - step_by Rc. eexists. split; [reflexivity|]. split; [|done]. apply store_split_count. exact (split_store c log sheet l St Hs Hroom F m n Hm).
Qed.

(** ** A free cell *)

(** What the scan of a row found, when it has seen the cells below [k]: how many are used, and the first free one. *)
Definition scanned c (s row k : Z) (r : Z * Z) : Prop :=
  let '(used, first) := r in
  (used = k /\ first = SXE_CDB_KEYS_PER_ROW /\ forall j, 0 <= j < k -> hkv_pos (cell_at c s row j) <> 0) \/
  (0 <= used < k /\ 0 <= first < k /\ hkv_pos (cell_at c s row first) = 0).

Lemma free_cell_step c s row k r : 0 <= k < SXE_CDB_KEYS_PER_ROW -> scanned c s row k r -> scanned c s row (k + 1) (free_cell r k (cell_at c s row k)).
Proof.
  destruct r as [used first]. intros Hk. unfold free_cell. destruct (Z.eqb_spec (hkv_pos (cell_at c s row k)) 0) as [Hz|Hz].
  - intros [(-> & -> & Hj)|(Hu & Hf & Hc)]; right.
    + rewrite Z.eqb_refl. split; [lia|]. split; [lia|done].
    + destruct (Z.eqb_spec SXE_CDB_KEYS_PER_ROW first); [lia|]. split; [lia|]. split; [lia|done].
  - intros [(-> & -> & Hj)|(Hu & Hf & Hc)]; [left|right].
    + do 2 (split; [done|]). intros j Hjk. destruct (decide (j = k)) as [->|]; [done|]. apply Hj. lia.
    + split; [lia|]. split; [lia|done].
Qed.

Lemma row_scan_run c t log s r1 r2 : store c log -> 0 <= s < sheets_size c -> 0 <= r1 < SXE_CDB_ROWS_PER_SHEET -> 0 <= r2 < SXE_CDB_ROWS_PER_SHEET ->
  forall n k x1 x2, 0 <= k -> k + Z.of_nat n = SXE_CDB_KEYS_PER_ROW -> scanned c s r1 k x1 -> scanned c s r2 k x2 ->
  exists y1 y2, row_scan n k s r1 r2 x1 x2 (mk_cdb c t) = Ret ((y1, y2), mk_cdb c t) /\
    scanned c s r1 SXE_CDB_KEYS_PER_ROW y1 /\ scanned c s r2 SXE_CDB_KEYS_PER_ROW y2.
Proof.
  intros St Hs H1r H2r n. induction n as [|n IH]; intros k x1 x2 Hk Hn S1 S2; cbn [row_scan].
  - replace SXE_CDB_KEYS_PER_ROW with k by lia. by exists x1, x2.
  - step_by (rd_cell_ret log c t s r1 k St Hs H1r ltac:(lia)). step_by (rd_cell_ret log c t s r2 k St Hs H2r ltac:(lia)).
    apply IH; [lia|lia| |]; (apply free_cell_step; [lia|done]).
Qed.

Section Hashed.
Context `{!HashWords}.
Context (key : list Z).

(** Both rows of the key are full. *)
Definition crowded c : Prop :=
  forall row k, (row = row_1 key \/ row = row_2 key) -> 0 <= k < SXE_CDB_KEYS_PER_ROW -> hkv_pos (cell_at c (sheet_of c (index_of key)) row k) <> 0.

(** A cell for the key. *)
Record free_for (c : SXE_CDB_INSTANCE) (si s row k : Z) : Prop := {
  ff_index : si = index_of key;
  ff_sheet : s = sheet_of c si;
  ff_row : row = row_1 key \/ row = row_2 key;
  ff_cell : 0 <= k < SXE_CDB_KEYS_PER_ROW;
  ff_free : hkv_pos (cell_at c s row k) = 0
}.

(** The instances that splitting the full sheet of the key, again and again, makes of one. *)
Inductive splits t : SXE_CDB_INSTANCE -> SXE_CDB_INSTANCE -> Prop :=
| splits_none c : splits t c c
| splits_more c c1 c2 : crowded c -> sxe_cdb_instance_split_sheet (sheet_of c (index_of key)) (mk_cdb c t) = Ret (tt, mk_cdb c1 t) ->
    splits t c1 c2 -> splits t c c2.

(** Splitting went on until a sheet could not be split, and the key has no free cell in it. *)
Definition stuck t c log : Prop :=
  exists c1, splits t c c1 /\ store c1 log /\ crowded c1 /\ cannot_split c1 (sheet_of c1 (index_of key)).

Lemma find_free_cell_run log t : prepared t key -> forall fuel c, store c log -> SXE_CDB_SHEETS_MAX - sheets_size c < Z.of_nat fuel ->
  match find_free_cell fuel (mk_cdb c t) with
  | Ret (Free_cell si s row k, st) => exists c', st = mk_cdb c' t /\ store c' log /\ same_kvdata c c' /\ free_for c' si s row k /\ splits t c c'
  | Ret (No_more_sheets, _) => False
  | Abort => stuck t c log
  | Fault => False
  end.
Proof.
  intros P fuel. induction fuel as [|fuel IH]; intros c St Hf; [pose proof (st_sheets _ _ St); lia|]. cbn [find_free_cell].
  pose proof (sheet_range c log (index_of key) St (index_range key)) as Hs.
  step_by (hash_word_ret c t key 0 P ltac:(lia)). step_by (sheet_index_ret log c t (index_of key) St (index_range key)). step_by (rd_inst_ret c t).
  step_by (assert_6_true (sheet_of c (index_of key) <? sheets_size c) c t (proj2 (Z.ltb_lt _ _) (proj2 Hs))).
  step_by (hash_word_ret c t key 1 P ltac:(lia)). step_by (hash_word_ret c t key 2 P ltac:(lia)).
  change (Z.land (word 1 key) (SXE_CDB_ROWS_PER_SHEET - 1)) with (row_1 key). change (Z.land (word 2 key) (SXE_CDB_ROWS_PER_SHEET - 1)) with (row_2 key).
  change (word 0 key mod SXE_CDB_SHEETS_MAX) with (index_of key). set (s := sheet_of c (index_of key)) in *.
  destruct (row_scan_run c t log s (row_1 key) (row_2 key) St Hs (row_range _) (row_range _) (Z.to_nat SXE_CDB_KEYS_PER_ROW) 0
    (0, SXE_CDB_KEYS_PER_ROW) (0, SXE_CDB_KEYS_PER_ROW)) as ([u1 f1] & [u2 f2] & R & X1 & X2); [lia|done|left; split_and!; [done|done|lia]|left; split_and!; [done|done|lia]|].
  step_by R. destruct ((SXE_CDB_KEYS_PER_ROW =? u1) && (SXE_CDB_KEYS_PER_ROW =? u2)) eqn:Hfull.
  - assert (Hc : crowded c).
    { intros row k Hrow Hk. destruct X1 as [(_ & _ & X1)|(X1 & _)]; [|lia]. destruct X2 as [(_ & _ & X2)|(X2 & _)]; [|lia].
      fold s. destruct Hrow as [-> | ->]; auto. }
    pose proof (st_sheets _ _ St) as Hsz. destruct (Z.geb_spec (sheets_size c) SXE_CDB_SHEETS_MAX); [lia|].
    pose proof (split_run c t log s St Hs) as Hsp. destruct (sxe_cdb_instance_split_sheet s (mk_cdb c t)) as [[[] st]| |] eqn:Es; [| |done].
    + destruct Hsp as (c1 & -> & St1 & Kv & Hz). step_by Es. specialize (IH c1 St1 ltac:(lia)).
      destruct (find_free_cell fuel (mk_cdb c1 t)) as [[[si sh row k|] st]| |]; try done.
      * destruct IH as (c2 & -> & St2 & Kv2 & F & Sp). exists c2. do 2 (split; [done|]). split; [by apply (same_kvdata_trans _ c1)|]. split; [done|by apply (splits_more t c c1)].
      * destruct IH as (c2 & Sp & X). exists c2. split; [by apply (splits_more t c c1)|done].
    + unfold mbind at 1, cmd_bind at 1. rewrite Es. exists c. split; [apply splits_none|done].
  - assert (Go : forall u f row, (row = row_1 key \/ row = row_2 key) -> u < SXE_CDB_KEYS_PER_ROW -> scanned c s row SXE_CDB_KEYS_PER_ROW (u, f) ->
      exists c', mk_cdb c t = mk_cdb c' t /\ store c' log /\ same_kvdata c c' /\ free_for c' (index_of key) s row f /\ splits t c c').
    { intros u f row Hrow Hu Hx. exists c. do 2 (split; [done|]). split; [done|]. split; [|apply splits_none]. destruct Hx as [(-> & _)|(_ & Hx1 & Hx2)]; [lia|]. by split. }
    assert (B : forall row u f, scanned c s row SXE_CDB_KEYS_PER_ROW (u, f) -> u <= SXE_CDB_KEYS_PER_ROW) by (intros row u f [(-> & _)|(Hu & _)]; lia).
    pose proof (B _ _ _ X1). pose proof (B _ _ _ X2).
    destruct (Z.ltb_spec u1 u2); [apply (Go u1)|apply (Go u2)]; [auto|lia|done|auto|lia|done].
Qed.

(** ** Putting *)

(** The entry that is put in the cell. *)
Definition put_entry (row k : Z) (val : list Z) : entry := mk_entry (index_of key) row k key val.

(** The instance with the new entry behind the others. *)
Lemma store_put c log si s row k val h : store c log -> free_for c si s row k ->
  header_len (zlen key) (zlen val) = Some h ->
  forall m, kvdata_used c + zlen (image (put_entry row k val)) <= kvdata_size c ->
  wr_bytes (kvdata c) (kvdata_used c) (image (put_entry row k val)) = Ret m ->
  store (set_kvdata_used (kvdata_used c + zlen (image (put_entry row k val)))
    (set_kvdata m (set_sheets (<[(s, row, k) := mk_cell (word 1 key) (word 0 key) (kvdata_used c)]> (sheets c)) c)))
    (log ++ [put_entry row k val]).
Proof.
  intros St F Hh m Hroom Hm. set (e := put_entry row k val) in *. set (v := mk_cell _ _ _) in *. set (c' := set_kvdata_used _ _).
  assert (Eo : entry_ok e).
  { split; [|done|apply (ff_row _ _ _ _ _ F)|apply (ff_cell _ _ _ _ _ F)]. cbn. unfold key_header. rewrite Hh. cbn.
    apply header_len_fits; [apply zlen_nonneg..|done]. }
  assert (Hpos : position (log ++ [e]) (length log) = kvdata_used c).
  { unfold position. rewrite take_app_length. by rewrite (st_used _ _ St). }
  assert (Old : forall j f, log !! j = Some f -> position (log ++ [e]) j = position log j).
  { intros j f Hj. unfold position. rewrite take_app_le; [done|]. apply lookup_lt_Some in Hj. lia. }
  assert (Cell : forall s' r' j, cell_at c' s' r' j = if decide (s = s' /\ row = r' /\ k = j) then v else cell_at c s' r' j).
  { intros s' r' j. unfold c'. rewrite <-cell_at_insert. done. }
  assert (Free : forall j f, log !! j = Some f -> ~ (s = sheet_of c (e_index f) /\ row = e_row f /\ k = e_cell f)).
  { intros j f Hj (E1 & E2 & E3). pose proof (ff_free _ _ _ _ _ F) as Hfree. rewrite E1, E2, E3, (st_cells _ _ St _ _ Hj) in Hfree. cbn in Hfree. pose proof (position_pos log j). lia. }
  pose proof (ff_sheet _ _ _ _ _ F) as Hs. pose proof (ff_index _ _ _ _ _ F) as Hi.
  assert (Hin : 0 <= s < sheets_size c) by (rewrite Hs, Hi; apply (sheet_range c log); [done|apply index_range]).
  assert (Hused : 0 <= kvdata_used c) by (rewrite (st_used _ _ St); pose proof (zlen_nonneg (log_bytes log)); lia).
  assert (Hsplit : exists b rest old, kvdata c = ([b] ++ log_bytes log) ++ old ++ rest /\ length old = length (image e)).
  { destruct (st_bytes _ _ St) as (b & rest & Hb). exists b, (drop (length (image e)) rest), (take (length (image e)) rest). split; [by rewrite take_drop, Hb|].
    pose proof (st_size _ _ St) as Hz. rewrite Hb, !zlen_app, (st_used _ _ St) in *. change (zlen [b]) with 1 in Hz. unfold zlen in *. rewrite length_take. lia. }
  destruct Hsplit as (b & rest & old & Hb & Hold).
  assert (Hm' : m = ([b] ++ log_bytes log) ++ image e ++ rest).
  { rewrite Hb, wr_bytes_at in Hm; [by injection Hm|by rewrite (st_used _ _ St), zlen_app|done]. }
  destruct St as [A1 A2 A3 A4 A5 A6 A7 A8 A9 A10 A11 A12]. split; try done.
  - intros s' r' j Hs'. rewrite Cell, decide_False; [by apply A5|]. change (sheets_size c <= s') in Hs'. lia.
  - exists b, rest. change (kvdata c') with m. rewrite Hm', log_bytes_app. unfold log_bytes at 3. cbn [fmap list_fmap concat]. by rewrite app_nil_r, <-!(assoc_L (++)).
  - change (kvdata c') with m. change (kvdata_size c') with (kvdata_size c). rewrite <-A7, Hm', Hb. unfold zlen. rewrite !length_app. lia.
  - change (kvdata_used c + zlen (image e) = 1 + zlen (log_bytes (log ++ [e]))). rewrite log_bytes_app, zlen_app, A9. unfold log_bytes at 3. cbn [fmap list_fmap concat].
    rewrite app_nil_r. lia.
  - apply Forall_app. split; [done|]. by constructor.
  - intros j f Hj. change (sheet_of c' (e_index f)) with (sheet_of c (e_index f)). rewrite Cell. apply lookup_app_Some in Hj as [Hj|[Hge Hj]].
    + rewrite decide_False by (by apply (Free j)). rewrite (A11 _ _ Hj). unfold cell_of. by rewrite (Old j f).
    + apply list_lookup_singleton_Some in Hj as [Hj <-]. assert (j = length log) as -> by lia. rewrite decide_True by (split; [by rewrite Hs, Hi|done]).
      unfold cell_of. by rewrite Hpos.
  - intros s' r' j Hc. rewrite Cell in Hc. case_decide as Hd.
    + destruct Hd as (<- & <- & <-). exists (length log), e. split; [by rewrite list_lookup_middle|]. split; [by rewrite Hs, Hi|done].
    + destruct (A12 _ _ _ Hc) as (i & f & Hf & E). exists i, f. split; [by apply lookup_app_l_Some|done].
Qed.

(** The size that the memory of keys and values must have for so many more bytes. *)
Definition size_wanted c (want : Z) : Z :=
  if kvdata_size c - kvdata_used c <? want then kvdata_size c + (want + 4095) / 4096 * 4096 + 4096 else kvdata_size c.

(** The memory of keys and values has room for so many more bytes, or it would be 4 GB or more, or the system does not give it. *)
Lemma grow_kvdata_run log t c want : store c log -> 0 <= want -> want + 8191 < 4294967296 ->
  match grow_kvdata want (mk_cdb c t) with
  | Ret (true, st) => exists m, let c' := set_kvdata m (set_kvdata_size (size_wanted c want) c) in
      st = mk_cdb c' t /\ store c' log /\ kvdata_used c + want <= size_wanted c want < 4294967296
  | Ret (false, st) => st = mk_cdb c t /\ 4294967296 <= size_wanted c want
  | Abort => kvdata_size c < size_wanted c want < 4294967296 /\ map_ok c (size_wanted c want) = false
  | Fault => False
  end.
Proof.
  intros St Hw Hmax. pose proof (st_u32 _ _ St) as Hu. pose proof (st_used _ _ St) as Hused. pose proof (zlen_nonneg (log_bytes log)).
  destruct (st_bytes _ _ St) as (b & rest & Hb). pose proof (st_size _ _ St) as Hz.
  assert (Hle : kvdata_used c <= kvdata_size c) by (rewrite Hused, <-Hz, Hb, !zlen_app; change (zlen [b]) with 1; pose proof (zlen_nonneg rest); lia).
  unfold grow_kvdata, size_wanted. step_by (rd_inst_ret c t). rewrite (u32_small (kvdata_size c - kvdata_used c)) by (unfold is_u32; lia).
  destruct (Z.ltb_spec (kvdata_size c - kvdata_used c) want) as [Hlt|Hge].
  2: { exists (kvdata c). split; [by destruct c|]. split; [by destruct c|lia]. }
  change SXE_CDB_KERNEL_PAGE_BYTES with 4096. change (4096 - 1) with 4095.
  assert (Hwv : want <= (want + 4095) / 4096 * 4096 + 4096 <= want + 8191) by (Z.to_euclidean_division_equations; lia).
  rewrite (u32_small ((want + 4095) / 4096 * 4096 + 4096)) by (unfold is_u32; lia).
  rewrite <-(Z.add_assoc (kvdata_size c)). set (w := (want + 4095) / 4096 * 4096 + 4096) in *. clearbody w.
  destruct (Z.ltb_spec (u32 (kvdata_size c + w)) (kvdata_size c)) as [Hwrap|Hno].
  { split; [done|]. destruct (decide (kvdata_size c + w < 4294967296)) as [Hd|]; [|lia]. rewrite u32_small in Hwrap by (unfold is_u32; lia). lia. }
  assert (Hsum : kvdata_size c + w < 4294967296) by (unfold u32 in Hno; Z.to_euclidean_division_equations; lia).
  rewrite u32_small by (unfold is_u32; lia). step_by (upd_inst_ret (set_kvdata_size (kvdata_size c + w)) c t).
  destruct (map_ok c (kvdata_size c + w)) eqn:Em; [|split; [lia|done]].
  eexists _. split; [reflexivity|]. split; [|lia].
  destruct St as [A1 A2 A3 A4 A5 A6 A7 A8 A9 A10 A11 A12]. split; try done.
  - exists b, (rest ++ replicate (Z.to_nat w) 0). cbn [kvdata set_kvdata]. by rewrite Hb, <-!(assoc_L (++)).
  - cbn [kvdata kvdata_size set_kvdata set_kvdata_size]. rewrite zlen_app, zlen_replicate, A7. lia.
Qed.

(** What is refused before anything is done: the caller's limit is exceeded, or no header holds the lengths. *)
Definition not_put c (val : list Z) : Prop :=
  0 < kvdata_maximum c < kvdata_size c \/ header_len (zlen key) (zlen val) = None.
#[export] Instance not_put_dec c val : Decision (not_put c val).
Proof. unfold not_put. destruct (header_len _ _); apply _. Defined.

(** The size of the memory for keys and values, with the entry. *)
Definition size_with c (val : list Z) : Z := size_wanted c (zlen (image (put_entry 0 0 val))).

(** Why putting aborts: the key's sheet is full and cannot be split any more, or the system does not give the memory for the entry. *)
Definition put_refused t c log (val : list Z) : Prop :=
  stuck t c log \/
  (exists c1, splits t c c1 /\ store c1 log /\ kvdata_size c < size_with c val < 4294967296 /\ map_ok c1 (size_with c val) = false).

Lemma put_val_refused c t val n v : prepared t key -> slice val 0 n = Some v -> not_put c v ->
  sxe_cdb_instance_put_val val n (mk_cdb c t) = Ret (SXE_CDB_UID_NONE, mk_cdb c t).
Proof.
  intros P Hv Hn. pose proof (slice_length _ _ _ _ Hv) as Hl. subst n. unfold sxe_cdb_instance_put_val. step_by (rd_inst_ret c t).
  destruct ((0 <? kvdata_maximum c) && (kvdata_maximum c <? kvdata_size c)) eqn:Hlim; [done|]. destruct Hn as [Hn|Hn]; [lia|].
  step_by (rd_tls_ret c t). by rewrite (prepared_len _ _ P), Hn.
Qed.

Lemma put_val_run c t log val n v : store c log -> prepared t key -> slice val 0 n = Some v -> zlen key + zlen v + 8200 <= 4294967296 -> ~ not_put c v ->
  match sxe_cdb_instance_put_val val n (mk_cdb c t) with
  | Ret (uid, st) => exists c1 c', st = mk_cdb c' t /\ splits t c c1 /\ store c1 log /\
      ((uid = SXE_CDB_UID_NONE /\ c' = c1 /\ 4294967296 <= size_with c v) \/
       (exists row k, uid = uid_of (put_entry row k v) /\ hkv_pos (cell_at c1 (sheet_of c1 (index_of key)) row k) = 0 /\
          size_with c v < 4294967296 /\ kvdata_size c' = size_with c v /\ store c' (log ++ [put_entry row k v])))
  | Abort => put_refused t c log v
  | Fault => False
  end.
Proof.
  intros St P Hv Hmax Hnp. pose proof (slice_length _ _ _ _ Hv) as Hn. subst n. pose proof (zlen_nonneg key). pose proof (zlen_nonneg v).
  unfold sxe_cdb_instance_put_val. step_by (rd_inst_ret c t).
  destruct ((0 <? kvdata_maximum c) && (kvdata_maximum c <? kvdata_size c)) eqn:Hlim; [destruct Hnp; left; lia|].
  step_by (rd_tls_ret c t). rewrite (prepared_len _ _ P). destruct (header_len (zlen key) (zlen v)) as [h|] eqn:Hh; [|destruct Hnp; by right].
  pose proof (header_len_fits _ _ _ (zlen_nonneg key) (zlen_nonneg v) Hh) as Hfit.
  assert (Hf : SXE_CDB_SHEETS_MAX - sheets_size c < Z.of_nat PUT_FUEL) by (pose proof (st_sheets _ _ St); change (Z.of_nat PUT_FUEL) with 8193; rewrite sheets_max in *; lia).
  pose proof (find_free_cell_run log t P PUT_FUEL c St Hf) as Hfind.
  destruct (find_free_cell PUT_FUEL (mk_cdb c t)) as [[[si s row k|] st]| |] eqn:Er; [|done| |done].
  2: { unfold mbind at 1, cmd_bind at 1. rewrite Er. by left. }
  destruct Hfind as (c1 & -> & St1 & Kv & F & Sp). step_by Er. step_by (rd_inst_ret c1 t).
  set (e := put_entry row k v). assert (Hzi : zlen (image e) = h + zlen key + zlen v).
  { unfold image. cbn. unfold key_header. rewrite Hh. cbn. rewrite !zlen_app, zlen_header by done. lia. }
  assert (Hh8 : 0 < h <= 8) by (destruct Hfit as (_ & _ & Hfit); lia).
  rewrite u32_small by (unfold is_u32; lia). rewrite <-Hzi.
  pose proof (grow_kvdata_run log t c1 (zlen (image e)) St1 ltac:(lia) ltac:(lia)) as Hg.
  assert (Hsw : size_wanted c1 (zlen (image e)) = size_with c v).
  { unfold size_with, size_wanted. destruct Kv as (_ & <- & <- & _). done. }
  rewrite Hsw in Hg. destruct (grow_kvdata (zlen (image e)) (mk_cdb c1 t)) as [[[] st]| |] eqn:Eg; [| | |done].
  3: { unfold mbind at 1, cmd_bind at 1. rewrite Eg. right. exists c1. destruct Kv as (_ & <- & _). done. }
  2: { step_by Eg. destruct Hg as [-> Hg]. exists c1, c1. do 3 (split; [done|]). by left. }
  destruct Hg as (m & -> & St2 & Hroom & Hlim4). step_by Eg. set (c2 := set_kvdata m _) in *.
  step_by (hash_word_ret c2 t key 0 P ltac:(lia)). step_by (hash_word_ret c2 t key 1 P ltac:(lia)).
  assert (F2 : free_for c2 si s row k) by (destruct F; by split).
  assert (Hs : 0 <= s < sheets_size c2).
  { rewrite (ff_sheet _ _ _ _ _ F2), (ff_index _ _ _ _ _ F2). apply (sheet_range c2 log); [done|apply index_range]. }
  assert (Hrow : 0 <= row < SXE_CDB_ROWS_PER_SHEET) by (destruct (ff_row _ _ _ _ _ F2) as [-> | ->]; apply row_range).
  set (cell := mk_cell _ _ _). set (c3 := set_sheets (<[(s, row, k) := cell]> (sheets c2)) c2).
  assert (W : wr_cell s row k cell (mk_cdb c2 t) = Ret (tt, mk_cdb c3 t)).
  { unfold wr_cell. step_by (rd_inst_ret c2 t). by rewrite (cell_is_mapped c2 log s row k St2 Hs Hrow (ff_cell _ _ _ _ _ F2)). }
  step_by W. step_by (key_bytes_ret c3 t key P). rewrite Hv. step_by (cdb_lift_ret (load (Some v)) v c3 t eq_refl). step_by (rd_inst_ret c3 t).
  assert (Hi : header_bytes h (zlen key) (zlen v) ++ key ++ v = image e) by (unfold image; cbn; unfold key_header; by rewrite Hh). rewrite Hi.
  assert (Hw : exists m', wr_bytes (kvdata c2) (kvdata_used c2) (image e) = Ret m').
  { exists (splice (kvdata c2) (kvdata_used c2) (image e)). apply wr_bytes_ok.
    - change (kvdata_used c2) with (kvdata_used c1). rewrite (st_used _ _ St1). pose proof (zlen_nonneg (log_bytes log)). lia.
    - rewrite (st_size _ _ St2). done. }
  destruct Hw as (m' & Hw). change (kvdata c3) with (kvdata c2). change (kvdata_used c1) with (kvdata_used c2) in *.
  step_by (cdb_lift_ret (wr_bytes (kvdata c2) (kvdata_used c2) (image e)) m' c3 t Hw). step_by (upd_inst_ret (set_kvdata m') c3 t).
  pose proof (store_put c2 log si s row k v h St2 F2 Hh m' Hroom Hw) as St3. fold e in St3. fold cell in St3. fold c3 in St3.
  pose proof (st_used _ _ St2). pose proof (zlen_nonneg (log_bytes log)).
  set (c4 := set_kvdata m' c3) in *. step_by (upd_inst_ret (fun c => set_kvdata_used (u32 (kvdata_used c + zlen (image e))) c) c4 t).
  change (kvdata_used c4) with (kvdata_used c2). rewrite (u32_small (kvdata_used c2 + zlen (image e))) by (unfold is_u32; lia).
  set (c5 := set_kvdata_used _ c4) in *. step_by (upd_inst_ret (fun c => set_sheets_cells_used (u32 (sheets_cells_used c + 1)) c) c5 t).
  exists c1. eexists. split; [reflexivity|]. do 2 (split; [done|]). right. exists row, k. fold e. split; [unfold uid_of; cbn; by rewrite (ff_index _ _ _ _ _ F)|].
  split; [rewrite <-(ff_index _ _ _ _ _ F), <-(ff_sheet _ _ _ _ _ F); apply (ff_free _ _ _ _ _ F)|]. do 2 (split; [done|]).
  by apply store_cells_used.
Qed.
End Hashed.
End Put.
