(* ===== verification/CdbRefine.v ===== *)
(** * CdbRefine: an instance of the key value store as a map from uids to keys and values

    The abstract store is a finite map from uids to pairs of a key and a value. Putting adds a pair under a new uid, looking up a key gives the
    uid of one of its pairs, and a uid gives its pair for ever, whatever is put behind it and however often sheets are split. *)

From S2P Require Import Prelude Spinlock Cdb CdbStore CdbPut.

(** ** Making an instance *)

Lemma length_deal n i m : length (deal_indexes n i m) = n.
Proof. revert i. induction n as [|n IH]; intros i; [done|]. cbn [deal_indexes length]. by rewrite IH. Qed.

Lemma deal_range n m : 0 <= m < 65536 -> forall i, 0 <= i < Z.max 1 m -> Forall (fun s => 0 <= s < Z.max 1 m) (deal_indexes n i m).
Proof.
  intros Hm. induction n as [|n IH]; intros i Hi; [by constructor|]. cbn [deal_indexes]. constructor.
  - unfold u16. rewrite Z.mod_small by lia. lia.
  - apply IH. destruct (Z.geb_spec (i + 1) m); lia.
Qed.

Section Refine.
Context `{Build, CdbSystem, !MapLaw, !HashWords}.
Implicit Types (c : SXE_CDB_INSTANCE) (t : TLS) (log : list entry).

(** The system refuses what a new instance needs: its memory, pages of the right size in a debug build, or the mappings for its sheets and its keys and values. *)
Definition new_refused (keys maximum : Z) : Prop :=
  malloc_ok SIZEOF_SXE_CDB_INSTANCE = false \/ (debug = true /\ getpagesize <> SXE_CDB_KERNEL_PAGE_BYTES) \/
  map_ok (blank_instance keys maximum) (SXE_CDB_SHEET_BYTES * sheets_at_start keys) = false \/
  map_ok (blank_instance keys maximum) SXE_CDB_KERNEL_PAGE_BYTES = false.

Lemma sheets_at_start_range keys : 0 <= keys < 2 ^ 28 ->
  0 <= keys / SXE_CDB_KEYS_PER_SHEET * 2 < 8192 /\ u32 (keys / SXE_CDB_KEYS_PER_SHEET * 2) = keys / SXE_CDB_KEYS_PER_SHEET * 2 /\
  sheets_at_start keys = Z.max 1 (keys / SXE_CDB_KEYS_PER_SHEET * 2).
Proof.
  intros Hk. change (2 ^ 28) with 268435456 in Hk. unfold sheets_at_start. change SXE_CDB_KEYS_PER_SHEET with 65536.
  assert (Hm : 0 <= keys / 65536 * 2 < 8192) by (Z.to_euclidean_division_equations; lia).
  rewrite (u32_small (keys / 65536 * 2)) by (unfold is_u32; lia). split; [done|]. split; [done|]. destruct (Z.eqb_spec (keys / 65536 * 2) 0); lia.
Qed.

Lemma instance_new_run keys maximum : 0 <= keys < 2 ^ 28 ->
  match sxe_cdb_instance_new keys maximum with
  | Ret c => store c [] /\ kvdata_maximum c = maximum
  | Abort => new_refused keys maximum
  | Fault => False
  end.
Proof.
  intros Hk. destruct (sheets_at_start_range keys Hk) as (Hm & Hu & Hsize). unfold sxe_cdb_instance_new. destruct (malloc_ok _) eqn:Em; [|by left]. cbn [assert1 mbind outcome_bind].
  destruct (decide (debug = true /\ getpagesize <> SXE_CDB_KERNEL_PAGE_BYTES)) as [Hp|Hp].
  { destruct Hp as [Hp1 Hp2]. assert (E0 : assert6 (getpagesize =? SXE_CDB_KERNEL_PAGE_BYTES) = Abort).
    { destruct (Z.eqb_spec getpagesize SXE_CDB_KERNEL_PAGE_BYTES); [done|]. unfold assert6. by rewrite Hp1. }
    rewrite E0. right; left. by split. }
  assert (E : forall b, b = true -> assert6 b = Ret tt) by (intros b ->; unfold assert6; by destruct debug).
  assert (E1 : assert6 (getpagesize =? SXE_CDB_KERNEL_PAGE_BYTES) = Ret tt).
  { destruct (Z.eqb_spec getpagesize SXE_CDB_KERNEL_PAGE_BYTES); [by apply E|]. unfold assert6. destruct debug; [tauto|done]. }
  rewrite E1. cbn [mbind outcome_bind]. rewrite !E by done. cbn [mbind outcome_bind]. unfold sxe_cdb_instance_new_init.
  set (c := blank_instance keys maximum). change (sheets_size c) with (sheets_at_start keys). change (kvdata_maximum c) with maximum.
  rewrite (u32_small (SXE_CDB_SHEET_BYTES * _)) by (unfold is_u32; change SXE_CDB_SHEET_BYTES with 524288; lia).
  destruct (map_ok c (SXE_CDB_SHEET_BYTES * sheets_at_start keys)) eqn:M1; [|by right; right; left].
  destruct (map_ok c SXE_CDB_KERNEL_PAGE_BYTES) eqn:M2; [|by right; right; right].
  cbn [assert1 mbind outcome_bind]. split; [|done]. split; try done.
  - change (Forall (fun s => 0 <= s < sheets_at_start keys) (deal_indexes (Z.to_nat SXE_CDB_SHEETS_MAX) 0 (u32 (keys / SXE_CDB_KEYS_PER_SHEET * 2)))). rewrite Hsize, Hu. apply deal_range; lia.
  - change (1 <= sheets_at_start keys < SXE_CDB_SHEETS_MAX). rewrite Hsize. change SXE_CDB_SHEETS_MAX with 8192. lia.
  - exists 0, (replicate (Z.to_nat SXE_CDB_KERNEL_PAGE_BYTES - 1) 0). done.
Qed.

(** ** The operations of a client *)

Inductive cdb_op :=
| Put (key val : list Z)
| Find (key : list Z)
| Fetch (uid : Z)
| Update (uid : Z) (val : list Z).

Inductive cdb_result := R_uid (uid : Z) | R_pair (kv : option (list Z * list Z)) | R_done.

(** The pair in the thread's copy, through the pointers that the code gives; and a new value stored there. *)
Definition copied_pair : cmd cdb (list Z * list Z) :=
  t ← rd_tls;
  buffer ← lift (load (t_hkv t));
  key ← lift (load (slice buffer (key_at (t_part t)) (key_len (t_part t))));
  val ← lift (load (slice buffer (val_at (t_part t)) (val_len (t_part t))));
  mret (key, val).
Definition poke_value (val : list Z) : cmd cdb unit :=
  t ← rd_tls;
  buffer ← lift (load (t_hkv t));
  buffer ← lift (wr_bytes buffer (val_at (t_part t)) val);
  upd_tls (set_t_hkv (Some buffer)).

Definition run_op (op : cdb_op) : cmd cdb cdb_result :=
  match op with
  | Put key val => sxe_cdb_prepare (Some key) (zlen key);; uid ← sxe_cdb_instance_put_val val (zlen val); mret (R_uid uid)
  | Find key => sxe_cdb_prepare (Some key) (zlen key);; uid ← sxe_cdb_instance_get_uid; mret (R_uid uid)
  | Fetch uid =>
      found ← sxe_cdb_instance_get_uid_hkv uid;
      if (found : bool) then kv ← copied_pair; mret (R_pair (Some kv)) else mret (R_pair None)
  | Update uid val =>
      found ← sxe_cdb_instance_get_uid_hkv uid;
      if (found : bool) then poke_value val;; sxe_cdb_instance_set_uid_hkv uid;; mret R_done else mret R_done
  end.

(** A client calls one operation after the other, and chooses by the answers. *)
Inductive client :=
| Stop
| Do (op : cdb_op) (go : cdb_result -> client).

Fixpoint run_client (p : client) : cmd cdb (list cdb_result) :=
  match p with
  | Stop => mret []
  | Do op go => r ← run_op op; rs ← run_client (go r); mret (r :: rs)
  end.

(** ** The abstract store *)

Abbreviation pairs := (gmap Z (list Z * list Z)).

(** What an operation may answer, and the store after it. *)
Inductive spec_op (m : pairs) : cdb_op -> cdb_result -> pairs -> Prop :=
| spec_put key val uid : m !! uid = None -> uid <> SXE_CDB_UID_NONE -> spec_op m (Put key val) (R_uid uid) (<[uid := (key, val)]> m)
| spec_put_fails key val : spec_op m (Put key val) (R_uid SXE_CDB_UID_NONE) m
| spec_find key uid val : m !! uid = Some (key, val) -> spec_op m (Find key) (R_uid uid) m
| spec_find_none key : (forall uid val, m !! uid <> Some (key, val)) -> spec_op m (Find key) (R_uid SXE_CDB_UID_NONE) m
| spec_fetch uid kv : m !! uid = Some kv -> spec_op m (Fetch uid) (R_pair (Some kv)) m
| spec_update uid key val val' : m !! uid = Some (key, val) -> spec_op m (Update uid val') R_done (<[uid := (key, val')]> m).

Inductive spec_client : pairs -> client -> list cdb_result -> pairs -> Prop :=
| spec_stop m : spec_client m Stop [] m
| spec_do m op go r m1 rs m2 : spec_op m op r m1 -> spec_client m1 (go r) rs m2 -> spec_client m (Do op go) (r :: rs) m2.

(** What is asked of an operation: lengths that do not overflow 32 bits, uids that were given, and values of the same length. *)
Definition op_ok (m : pairs) (op : cdb_op) : Prop :=
  match op with
  | Put key val => zlen key + zlen val + 8200 <= 4294967296
  | Find _ => True
  | Fetch uid => is_Some (m !! uid)
  | Update uid val => exists key old, m !! uid = Some (key, old) /\ zlen val = zlen old
  end.
(** A client that asks for what it may, whatever the map answers. *)
Fixpoint client_ok (m : pairs) (p : client) : Prop :=
  match p with
  | Stop => True
  | Do op go => op_ok m op /\ forall r m', spec_op m op r m' -> client_ok m' (go r)
  end.

(** The map that a log stands for. *)
Definition abstract (log : list entry) : pairs := list_to_map ((fun e => (uid_of e, (e_key e, e_val e))) <$> log).

Definition represents (s : cdb) (m : pairs) : Prop := exists log, store (inst s) log /\ tls_ok (tls s) /\ m = abstract log.

(** Why an operation aborts in a state: the key that is put is refused, or there is no memory for the copy of the pair. *)
Definition copy_refused (s : cdb) log (uid : Z) : Prop :=
  exists e, e ∈ log /\ uid_of e = uid /\ t_hkv_len_max (tls s) < zlen (image e) /\ realloc_ok (zlen (image e)) = false.
Definition op_refused (op : cdb_op) (s : cdb) : Prop :=
  exists log, store (inst s) log /\
  match op with
  | Put key val => ~ not_put key (inst s) val /\ put_refused key (prepare_tls key (zlen key) key (tls s)) (inst s) log val
  | Find _ => False
  | Fetch uid | Update uid _ => copy_refused s log uid
  end.
(** A client's run gets to a state where its next operation is refused. *)
Fixpoint client_refused (p : client) (s : cdb) : Prop :=
  match p with
  | Stop => False
  | Do op go => op_refused op s \/ exists r s1, run_op op s = Ret (r, s1) /\ client_refused (go r) s1
  end.

Lemma uids_NoDup c log : store c log -> NoDup (uid_of <$> log).
Proof.
  intros St. apply NoDup_alt. intros i j u Hi Hj. rewrite list_lookup_fmap in Hi, Hj.
  destruct (log !! i) as [ei|] eqn:Ei; [|done]. destruct (log !! j) as [ej|] eqn:Ej; [|done]. injection Hi as Hi. injection Hj as Hj.
  apply (uid_unique c log i j ei ej); [done..|congruence].
Qed.

Lemma abstract_keys log : ((fun e => (uid_of e, (e_key e, e_val e))) <$> log).*1 = uid_of <$> log.
Proof. by rewrite <-list_fmap_compose. Qed.

Lemma abstract_lookup c log u kv : store c log ->
  abstract log !! u = Some kv <-> exists i e, log !! i = Some e /\ uid_of e = u /\ (e_key e, e_val e) = kv.
Proof.
  intros St. unfold abstract. rewrite <-elem_of_list_to_map by (rewrite abstract_keys; by apply (uids_NoDup c)).
  rewrite list_elem_of_fmap. split.
  - intros (e & [= -> ->] & He). apply list_elem_of_lookup in He as [i He]. by exists i, e.
  - intros (i & e & He & <- & <-). exists e. split; [done|]. by apply (list_elem_of_lookup_2 _ i).
Qed.

Lemma abstract_none c log u : store c log -> (forall i e, log !! i = Some e -> uid_of e <> u) -> abstract log !! u = None.
Proof.
  intros St Hn. destruct (abstract log !! u) as [kv|] eqn:E; [|done]. apply (abstract_lookup c log u kv St) in E as (i & e & He & Hu & _). by apply Hn in He.
Qed.

(** Putting an entry, and replacing a value, in the map. *)
Lemma abstract_put c log e : store c (log ++ [e]) -> abstract (log ++ [e]) = <[uid_of e := (e_key e, e_val e)]> (abstract log) /\ abstract log !! uid_of e = None.
Proof.
  intros St. pose proof (uids_NoDup _ _ St) as Nd. rewrite fmap_app in Nd. apply NoDup_app in Nd as (_ & Nd & _).
  assert (Hn : uid_of e ∉ uid_of <$> log) by (intros Hin; apply (Nd _ Hin); by apply list_elem_of_singleton).
  assert (Hl : abstract log !! uid_of e = None) by (apply not_elem_of_list_to_map_1; by rewrite abstract_keys).
  split; [|done]. unfold abstract. rewrite fmap_app, list_to_map_app. cbn [fmap list_fmap list_to_map foldr fst snd].
  symmetry. rewrite insert_empty. by apply insert_union_singleton_r.
Qed.

Lemma abstract_replace c log i e v : store c log -> log !! i = Some e -> abstract (<[i := with_val v e]> log) = <[uid_of e := (e_key e, v)]> (abstract log).
Proof.
  intros St E. pose proof (uids_NoDup _ _ St) as Nd. rewrite insert_take_drop by (by apply lookup_lt_Some in E).
  rewrite (take_S_eq log i e E) in Nd. rewrite (take_S_eq log i e E) at 3. set (a := take i log) in *. set (b := drop (S i) log) in *.
  rewrite fmap_app, fmap_cons in Nd. apply NoDup_app in Nd as (_ & Nd & _).
  assert (Ha : abstract a !! uid_of e = None).
  { apply not_elem_of_list_to_map_1. rewrite abstract_keys. intros Hin. apply (Nd _ Hin). by left. }
  unfold abstract in *. rewrite !fmap_app, !fmap_cons, !list_to_map_app, !list_to_map_cons. cbn [fst snd].
  rewrite insert_union_r by done. by rewrite insert_insert_eq.
Qed.

(** ** Each operation *)

Lemma slice_all (l : list Z) : slice l 0 (zlen l) = Some l.
Proof. rewrite <-(app_nil_r l) at 1. apply slice_prefix. Qed.

Lemma tls_prepared t k n key : tls_ok t -> tls_ok (prepare_tls k n key t).
Proof. done. Qed.

Lemma put_op c t log key val : store c log -> tls_ok t -> op_ok (abstract log) (Put key val) ->
  match run_op (Put key val) (mk_cdb c t) with
  | Ret (r, s') => exists m', spec_op (abstract log) (Put key val) r m' /\ represents s' m'
  | Abort => op_refused (Put key val) (mk_cdb c t)
  | Fault => False
  end.
Proof.
  intros St Tk Ok. cbn [run_op op_ok] in *. pose proof (slice_all key) as Hk. step_by (prepare_run c t key (zlen key) key Hk). set (t1 := prepare_tls _ _ _ _).
  destruct (decide (not_put key c val)) as [Hno|Hno].
  { step_by (put_val_refused key c t1 val (zlen val) val (prepared_prepare key (zlen key) key t Hk) (slice_all val) Hno). exists (abstract log). split; [constructor|]. by exists log. }
  pose proof (put_val_run key c t1 log val (zlen val) val St (prepared_prepare key (zlen key) key t Hk) (slice_all val) Ok Hno) as Hp.
  destruct (sxe_cdb_instance_put_val val (zlen val) (mk_cdb c t1)) as [[uid st]| |] eqn:Er; [| |done].
  - step_by Er. destruct Hp as (c1 & c' & -> & _ & St1 & [(-> & -> & _)|(row & k & -> & _ & _ & _ & St')]).
    + exists (abstract log). split; [constructor|]. by exists log.
    + destruct (abstract_put _ _ _ St') as [Ha Hn]. exists (abstract (log ++ [put_entry key row k val])). split; [|by exists (log ++ [put_entry key row k val])].
      rewrite Ha. constructor; [done|].
      pose proof (uid_of_parts (put_entry key row k val) ltac:(apply (store_ok _ _ (length log) _ St'); by apply list_lookup_middle)) as (_ & _ & _ & _ & Hu).
      change (2 ^ 40) with 1099511627776 in Hu. unfold SXE_CDB_UID_NONE. lia.
  - unfold mbind at 1, cmd_bind at 1. rewrite Er. by exists log.
Qed.

Lemma find_op c t log key : store c log -> tls_ok t ->
  exists r s', run_op (Find key) (mk_cdb c t) = Ret (r, s') /\ spec_op (abstract log) (Find key) r (abstract log) /\ represents s' (abstract log).
Proof.
  intros St Tk. cbn [run_op]. pose proof (slice_all key) as Hk. step_by (prepare_run c t key (zlen key) key Hk). set (t1 := prepare_tls _ _ _ _).
  destruct (get_uid_run log key c t1 St (prepared_prepare key (zlen key) key t Hk)) as (r & c' & t' & R & Sm & Ts & F). step_by R.
  assert (Rep : represents (mk_cdb c' t') (abstract log)).
  { exists log. split; [by apply (store_same c)|]. split; [|done]. by destruct Ts as (p & ->). }
  eexists _, _. split; [done|]. split; [|done]. destruct r as [[i e]|]; cbn [finds] in F.
  - destruct F as [E Ek]. apply spec_find with (e_val e). apply (abstract_lookup c log _ _ St). exists i, e. by rewrite Ek.
  - apply spec_find_none. intros uid val Hl. apply (abstract_lookup c log _ _ St) in Hl as (i & e & E & _ & [= Ek _]). by apply (F i e).
Qed.

(** The pair in a copy. *)
Lemma copied_pair_ret c t e : entry_ok e -> has_copy t e -> copied_pair (mk_cdb c t) = Ret ((e_key e, e_val e), mk_cdb c t).
Proof.
  intros Eo ((rest & B) & Hp). unfold copied_pair. step_by (rd_tls_ret c t). rewrite B, Hp. cbn [key_at val_at key_len val_len].
  step_by (cdb_lift_ret (load (Some (image e ++ rest))) _ c t eq_refl). pose proof (zlen_header _ _ _ (eo_fits _ Eo)) as Hh.
  unfold image. set (hdr := header_bytes _ _ _) in *. rewrite <-!(assoc_L (++)), <-Hh.
  rewrite slice_mid. step_by (cdb_lift_ret (load (Some (e_key e))) _ c t eq_refl). rewrite (assoc_L (++) hdr), <-zlen_app, slice_mid. done.
Qed.

Lemma poke_value_ret c t e v : entry_ok e -> zlen v = zlen (e_val e) -> has_copy t e -> tls_ok t ->
  exists t', poke_value v (mk_cdb c t) = Ret (tt, mk_cdb c t') /\ has_copy t' (with_val v e) /\ tls_ok t'.
Proof.
  intros Eo Hz ((rest & B) & Hp) Tk. unfold poke_value. step_by (rd_tls_ret c t). rewrite B, Hp. cbn [val_at].
  step_by (cdb_lift_ret (load (Some (image e ++ rest))) _ c t eq_refl). pose proof (zlen_header _ _ _ (eo_fits _ Eo)) as Hh.
  unfold image. set (hdr := header_bytes _ _ _) in *.
  assert (W : wr_bytes ((hdr ++ e_key e ++ e_val e) ++ rest) (key_header (e_key e) (e_val e) + zlen (e_key e)) v = Ret ((hdr ++ e_key e) ++ v ++ rest)).
  { replace ((hdr ++ e_key e ++ e_val e) ++ rest) with ((hdr ++ e_key e) ++ e_val e ++ rest) by (by rewrite <-!(assoc_L (++))). apply wr_bytes_at; [rewrite zlen_app; lia|]. unfold zlen in Hz. lia. }
  step_by (cdb_lift_ret (wr_bytes ((hdr ++ e_key e ++ e_val e) ++ rest) (key_header (e_key e) (e_val e) + zlen (e_key e)) v) _ c t W).
  eexists. split; [done|]. split.
  - split.
    + exists rest. cbn [t_hkv set_t_hkv]. f_equal. unfold image, key_header. cbn [with_val e_key e_val]. rewrite Hz.
      change (header_bytes (default 8 (header_len (zlen (e_key e)) (zlen (e_val e)))) (zlen (e_key e)) (zlen (e_val e))) with hdr. by rewrite <-!(assoc_L (++)).
    + cbn [t_part set_t_hkv tls]. rewrite Hp, zlen_with_val by done. unfold key_header. cbn [with_val e_key e_val]. by rewrite Hz.
  - destruct Tk as [T1 T2]. split; [|done]. cbn [t_hkv_len_max t_hkv set_t_hkv tls default]. rewrite T1, B. cbn [default]. unfold image. fold hdr.
    unfold id. rewrite !zlen_app. lia.
Qed.

Lemma fetched c t log i e : store c log -> log !! i = Some e -> tls_ok t ->
  match sxe_cdb_instance_get_uid_hkv (uid_of e) (mk_cdb c t) with
  | Ret (found, s') => found = true /\ exists t', s' = mk_cdb c t' /\ tls_ok t' /\ has_copy t' e
  | Abort => copy_refused (mk_cdb c t) log (uid_of e)
  | Fault => False
  end.
Proof.
  intros St E Tk. destruct (decide (zlen (image e) <= t_hkv_len_max t \/ realloc_ok (zlen (image e)) = true)) as [Hr|Hr].
  { destruct (get_uid_hkv_run c t log i e St E Tk Hr) as (t' & -> & Tk' & Hc & _). split; [done|]. by exists t'. }
  rewrite (get_uid_hkv_refused c t log i e St E); [|lia|destruct (realloc_ok (zlen (image e))); tauto].
  exists e. split; [by apply (list_elem_of_lookup_2 _ i)|]. split; [done|]. cbn [tls]. split; [lia|]. destruct (realloc_ok (zlen (image e))); tauto.
Qed.

Lemma fetch_op c t log uid : store c log -> tls_ok t -> op_ok (abstract log) (Fetch uid) ->
  match run_op (Fetch uid) (mk_cdb c t) with
  | Ret (r, s') => exists m', spec_op (abstract log) (Fetch uid) r m' /\ represents s' m'
  | Abort => op_refused (Fetch uid) (mk_cdb c t)
  | Fault => False
  end.
Proof.
  intros St Tk [kv Hkv]. pose proof Hkv as Hin. apply (abstract_lookup c log uid kv St) in Hin as (i & e & E & <- & <-).
  cbn [run_op]. pose proof (fetched c t log i e St E Tk) as Hf. pose proof (store_ok _ _ _ _ St E) as Eo.
  destruct (sxe_cdb_instance_get_uid_hkv (uid_of e) (mk_cdb c t)) as [[found st]| |] eqn:Er; [| |destruct Hf].
  - step_by Er. destruct Hf as (-> & t' & -> & Tk' & Hc). step_by (copied_pair_ret c t' e Eo Hc). exists (abstract log). split; [by constructor|]. by exists log.
  - unfold mbind at 1, cmd_bind at 1. rewrite Er. by exists log.
Qed.

Lemma update_op c t log uid val : store c log -> tls_ok t -> op_ok (abstract log) (Update uid val) ->
  match run_op (Update uid val) (mk_cdb c t) with
  | Ret (r, s') => exists m', spec_op (abstract log) (Update uid val) r m' /\ represents s' m'
  | Abort => op_refused (Update uid val) (mk_cdb c t)
  | Fault => False
  end.
Proof.
  intros St Tk (key & old & Hkv & Hz). pose proof Hkv as Hin. apply (abstract_lookup c log uid _ St) in Hin as (i & e & E & <- & [= Ek Ev]). subst key old.
  cbn [run_op]. pose proof (fetched c t log i e St E Tk) as Hf. pose proof (store_ok _ _ _ _ St E) as Eo.
  destruct (sxe_cdb_instance_get_uid_hkv (uid_of e) (mk_cdb c t)) as [[found st]| |] eqn:Er; [| |destruct Hf].
  - step_by Er. destruct Hf as (-> & t' & -> & Tk' & Hc). destruct (poke_value_ret c t' e val Eo Hz Hc Tk') as (t2 & Rp & Hc2 & Tk2). step_by Rp.
    destruct (set_uid_hkv_run c t2 log i e val St E Hz Hc2) as (c' & Rs & St'). step_by Rs.
    eexists. split; [by econstructor|]. exists (<[i := with_val val e]> log). split; [done|]. split; [done|]. symmetry. by apply (abstract_replace c).
  - unfold mbind at 1, cmd_bind at 1. rewrite Er. by exists log.
Qed.

(** One operation does what the abstract store may do. *)
Lemma op_refines op s m : represents s m -> op_ok m op ->
  match run_op op s with
  | Ret (r, s') => exists m', spec_op m op r m' /\ represents s' m'
  | Abort => op_refused op s
  | Fault => False
  end.
Proof.
  destruct s as [c t]. intros (log & St & Tk & ->) Ok. cbn in St, Tk. destruct op as [key val|key|uid|uid val].
  - by apply put_op.
  - destruct (find_op c t log key St Tk) as (r & s' & -> & Sp & R). by exists (abstract log).
  - by apply fetch_op.
  - by apply update_op.
Qed.

(** C4: an instance of the key value store is a map from uids to pairs of a key and a value. A client puts pairs, looks up keys, fetches by uid and replaces values in
    place, one call after the other, and may make what it likes of the answers; it asks only for uids that it was given, replaces a value by one of the same length, and a
    key and a value together leave 8200 bytes below 4 GB. On a new instance for fewer than 2^28 keys every call answers as the map does: putting gives a new uid, or
    says that it cannot, looking up a key gives the uid of a pair with that key if there is one, and a uid gives its pair, also after the
    sheet of its cell was split and the memory moved. No call reads or writes outside of the memory. An abort has one of these reasons: the system refuses
    the memory of the new instance; or the run has come to a call that puts a key, and the instance, with its sheets split as often as could be, has only full
    rows for it and its sheet cannot be split (the system refuses the memory, or no index is left in a debug build), or the system refuses the memory for
    the entry; or to a call that copies a pair, and realloc refuses a buffer of its length. *)
Theorem cdb_refines_map keys maximum p t : 0 <= keys < 2 ^ 28 -> tls_ok t -> client_ok ∅ p ->
  match sxe_cdb_instance_new keys maximum with
  | Ret c =>
      match run_client p (mk_cdb c t) with
      | Ret (rs, s') => exists m, spec_client ∅ p rs m /\ represents s' m
      | Abort => client_refused p (mk_cdb c t)
      | Fault => False
      end
  | Abort => new_refused keys maximum
  | Fault => False
  end.
Proof.
  intros Hk Tk Ok. pose proof (instance_new_run keys maximum Hk) as Hn. destruct (sxe_cdb_instance_new keys maximum) as [c| |]; [|done..].
  destruct Hn as [St _]. assert (R : represents (mk_cdb c t) ∅) by (by exists []). revert R Ok. generalize (mk_cdb c t) as s. generalize (∅ : pairs) as m.
  induction p as [|op go IH]; intros m s R Ok; cbn [run_client client_refused]; [by exists m; split; [constructor|]|]. destruct Ok as [Ok1 Ok2].
  pose proof (op_refines op s m R Ok1) as Hop. destruct (run_op op s) as [[r s1]| |] eqn:E1; [| |done].
  2: { unfold mbind at 1, cmd_bind at 1. rewrite E1. by left. }
  step_by E1. destruct Hop as (m1 & Sp & R1). specialize (IH r m1 s1 R1 (Ok2 r m1 Sp)). destruct (run_client (go r) s1) as [[rs s2]| |] eqn:E2; [| |done].
  2: { unfold mbind at 1, cmd_bind at 1. rewrite E2. right. by exists r, s1. }
  step_by E2. destruct IH as (m2 & Sp2 & R2). exists m2. split; [by econstructor|done].
Qed.

(** C5: putting a prepared key. If the memory of keys and values is already beyond the caller's limit, or no header holds the lengths (an empty key, or one of
    2^24 bytes or more), the call returns no uid and changes nothing. Otherwise, for a key and a value that together leave 8200 bytes below 4 GB, it splits the sheet of the
    key until one of its two rows has a free cell, which ends. If the memory would then be 4 GB or more it returns no uid, and the instance is as it was
    but for the splits, which keep the entries; otherwise the pair is behind the other entries, in a cell that was free, in memory that has grown to what it needs, under a uid that is new. It aborts
    only when, in the instance with its sheets so split, both rows are full and the sheet cannot be split any more, or the system refuses
    the memory that the entry needs. *)
Theorem put_val_spec key c t log val n v : store c log -> prepared t key -> slice val 0 n = Some v ->
  (not_put key c v -> sxe_cdb_instance_put_val val n (mk_cdb c t) = Ret (SXE_CDB_UID_NONE, mk_cdb c t)) /\
  (~ not_put key c v -> zlen key + zlen v + 8200 <= 4294967296 ->
   match sxe_cdb_instance_put_val val n (mk_cdb c t) with
   | Ret (uid, s') => exists c1 c', s' = mk_cdb c' t /\ splits key t c c1 /\ store c1 log /\
       ((uid = SXE_CDB_UID_NONE /\ c' = c1 /\ 4294967296 <= size_with key c v) \/
        (exists e, e_key e = key /\ e_val e = v /\ uid = uid_of e /\ (uid ∉ (uid_of <$> log)) /\
           hkv_pos (cell_at c1 (sheet_of c1 (e_index e)) (e_row e) (e_cell e)) = 0 /\
           size_with key c v < 4294967296 /\ kvdata_size c' = size_with key c v /\ store c' (log ++ [e])))
   | Abort => put_refused key t c log v
   | Fault => False
   end).
Proof.
  intros St P Hv. split; [by apply put_val_refused|]. intros Hno Hm. pose proof (put_val_run key c t log val n v St P Hv Hm Hno) as Hp.
  destruct (sxe_cdb_instance_put_val val n (mk_cdb c t)) as [[uid s']| |]; [|done..]. destruct Hp as (c1 & c' & -> & Sp & St1 & [Hn|(row & k & -> & Hf & Hs & Hk & St')]);
    exists c1, c'; (do 3 (split; [done|])); [by left|].
  right. exists (put_entry key row k v). do 3 (split; [done|]). split; [|done]. pose proof (uids_NoDup _ _ St') as Nd. rewrite fmap_app in Nd.
  apply NoDup_app in Nd as (_ & Nd & _). intros Hin. apply (Nd _ Hin). by apply list_elem_of_singleton.
Qed.
End Refine.
