(* ===== verification/CdbExample.v ===== *)
(** * CdbExample: the key value store on concrete keys and values

    The theorems about the key value store at a concrete system, client and key. *)

From S2P Require Import Prelude Spinlock Cdb CdbStore CdbPut CdbRefine.

Module CdbExample.

#[export] Instance build : Build := true.

(** A system that always has memory, and a hash that adds the bytes of the key. *)
Definition hash (key : list Z) : list Z := let n := foldr Z.add 0 key in [n mod 65536; (n + 1) mod 65536; (n + 2) mod 65536; 3; 4; 5; 6; 7].
#[export] Instance system : CdbSystem :=
  {| map_ok _ n := 0 <? n; unmap_ok _ _ := true; malloc_ok _ := true; realloc_ok _ := true; getpagesize := 4096; MurmurHash3_xnn_128 := hash |}.
#[export] Instance system_maps : MapLaw.
Proof. done. Qed.
#[export] Instance system_hashes : HashWords.
Proof. done. Qed.

Definition no_part : SXE_CDB_HKV_PART := mk_part 0 In_tls 0 0 0 0.
Definition fresh_tls : TLS := mk_tls 0 None no_part 0 0 0 [] None 0.

(** A client that puts a pair, and if it was put fetches it, replaces its value, fetches it again, and looks up a key. *)
Definition after_put (r : cdb_result) : client :=
  match r with
  | R_uid uid =>
      if uid =? SXE_CDB_UID_NONE then Stop
      else Do (Fetch uid) (fun _ => Do (Update uid [30; 40]) (fun _ => Do (Fetch uid) (fun _ => Do (Find [7]) (fun _ => Stop))))
  | _ => Stop
  end.
Definition client1 : client := Do (Put [1; 2; 3] [10; 20]) after_put.

Lemma client1_ok : client_ok ∅ client1.
Proof.
  split; [by cbn|]. intros r m' S. inversion S; subst; [|by cbn].
  cbn [after_put]. destruct (Z.eqb_spec uid SXE_CDB_UID_NONE); [done|].
  split; [cbn; rewrite lookup_insert_eq; by eexists|]. intros r2 m2 S2. inversion S2; subst.
  split; [cbn; rewrite lookup_insert_eq; by exists [1; 2; 3], [10; 20]|]. intros r3 m3 S3. inversion S3; subst.
  split; [cbn; rewrite lookup_insert_eq; by eexists|]. intros r4 m4 S4. by split.
Qed.

Definition results (p : client) : option (list cdb_result) :=
  match sxe_cdb_instance_new 100 0 with
  | Ret c => match run_client p (mk_cdb c fresh_tls) with Ret (rs, _) => Some rs | _ => None end
  | _ => None
  end.

(** The client runs on the new instance to its end, and is answered as by the map. *)
Lemma cdb_refines_map_witness : exists rs m, results client1 = Some rs /\ spec_client ∅ client1 rs m.
Proof.
  assert (Hr : match results client1 with Some _ => True | None => False end) by (vm_compute; exact I). revert Hr. unfold results.
  pose proof (cdb_refines_map 100 0 client1 fresh_tls ltac:(by split) ltac:(by split) client1_ok) as Hc. destruct (sxe_cdb_instance_new 100 0) as [c| |]; [|done..].
  destruct (run_client client1 (mk_cdb c fresh_tls)) as [[rs s']| |]; [|done..]. destruct Hc as (m & Sp & _). by exists rs, m.
Defined.

Example client1_results : exists uid, uid <> SXE_CDB_UID_NONE /\
  results client1 = Some [R_uid uid; R_pair (Some ([1; 2; 3], [10; 20])); R_done; R_pair (Some ([1; 2; 3], [30; 40])); R_uid SXE_CDB_UID_NONE].
Proof. eexists. split; [|vm_compute; reflexivity]. done. Qed.

(** A thread that was finalized forgets its copy, but not how long it was: its next copy is written through a null pointer. *)
Definition after_finalize : cmd cdb cdb_result :=
  r ← run_op (Put [1; 2; 3] [10; 20]);
  match r with
  | R_uid uid => run_op (Fetch uid);; sxe_cdb_finalize_thread;; run_op (Fetch uid)
  | _ => mret r
  end.
Example finalized_thread_faults : match sxe_cdb_instance_new 100 0 with Ret c => after_finalize (mk_cdb c fresh_tls) | _ => Abort end = Fault.
Proof. by vm_compute. Qed.

(** The new instance, and a thread that has prepared a key. *)
Definition instance1 : SXE_CDB_INSTANCE :=
  match sxe_cdb_instance_new 100 0 with Ret c => c | _ => mk_instance None ∅ 0 [] 0 0 0 0 0 0 0 0 0 0 0 0 0 0 0 0 [] [] [] end.
Definition tls1 : TLS := prepare_tls [1; 2; 3; 4] 3 [1; 2; 3] fresh_tls.

Lemma instance1_store : store instance1 [].
Proof.
  pose proof (instance_new_run 100 0 ltac:(by split)) as Hn. unfold instance1. destruct (sxe_cdb_instance_new 100 0) eqn:E; [by destruct Hn| |done].
  exfalso. assert (Er : match sxe_cdb_instance_new 100 0 with Ret _ => true | _ => false end = true) by (vm_compute; reflexivity). by rewrite E in Er.
Qed.

(** The key has a header, there is no limit, and the call neither aborts nor refuses the key: the pair is the only entry. *)
Lemma put_val_spec_witness : exists uid c', sxe_cdb_instance_put_val [10; 20; 30] 2 (mk_cdb instance1 tls1) = Ret (uid, mk_cdb c' tls1) /\
  exists e, e_key e = [1; 2; 3] /\ e_val e = [10; 20] /\ uid = uid_of e /\ store c' ([] ++ [e]).
Proof.
  assert (Hr : match sxe_cdb_instance_put_val [10; 20; 30] 2 (mk_cdb instance1 tls1) with Ret (uid, _) => uid <> SXE_CDB_UID_NONE | _ => False end) by (vm_compute; discriminate).
  destruct (put_val_spec [1; 2; 3] instance1 tls1 [] [10; 20; 30] 2 [10; 20] instance1_store ltac:(by apply prepared_prepare) eq_refl) as [_ Hp].
  specialize (Hp ltac:(apply (bool_decide_unpack (~ _)); vm_compute; exact I) ltac:(vm_compute; discriminate)).
  destruct (sxe_cdb_instance_put_val [10; 20; 30] 2 (mk_cdb instance1 tls1)) as [[uid s']| |]; [|done..].
  destruct Hp as (c1 & c' & -> & _ & _ & [(-> & _)|(e & Ek & Ev & Eu & _ & _ & _ & _ & St)]); [done|]. exists uid, c'. split; [done|]. by exists e.
Defined.
End CdbExample.
