(* ===== verification/CdbCount.v ===== *)
(** * CdbCount: the counters of an instance of the key value store (lib-sxe-cdb/sxe-cdb.c)

    A counter is a key whose value is three words: the node of its count, and the positions of the next and the last key
    with the same count. The nodes lie in [counts]; those of one of the 256 lists are linked by ascending
    count, those that are free in a list of their own. Incrementing moves a key to the node with the next count,
    and a walk visits the keys by their count. *)

From S2P Require Import Prelude Spinlock Cdb.

Section Counters.
Context `{Build, CdbSystem}.
Abbreviation M := (cmd cdb).

(** ** Nodes *)

(** Access to a node, which must be in what is mapped. *)
Definition node_mapped (c : SXE_CDB_INSTANCE) (i : Z) : bool :=
  bool_decide (is_Some (counts c)) && (0 <=? i) && (SXE_CDB_COUNT_BYTES * (i + 1) <=? u32 (SXE_CDB_KERNEL_PAGE_BYTES * counts_pages c)).
Definition count_at (c : SXE_CDB_INSTANCE) (i : Z) : SXE_CDB_COUNT := default zero_count (default ∅ (counts c) !! i).
Definition rd_count (i : Z) : M SXE_CDB_COUNT := c ← rd_inst; if node_mapped c i then mret (count_at c i) else lift Fault.
Definition upd_count (i : Z) (f : SXE_CDB_COUNT -> SXE_CDB_COUNT) : M unit :=
  c ← rd_inst;
  if node_mapped c i then upd_inst (set_counts (Some (<[i := f (count_at c i)]> (default ∅ (counts c))))) else lift Fault.

(** The fields; a count has 48 bits. *)
Definition set_count (v : Z) (n : SXE_CDB_COUNT) : SXE_CDB_COUNT := mk_count (v mod 2 ^ 48) (next n) (last n) (hkv1 n).
Definition set_next (v : Z) (n : SXE_CDB_COUNT) : SXE_CDB_COUNT := mk_count (count n) v (last n) (hkv1 n).
Definition set_last (v : Z) (n : SXE_CDB_COUNT) : SXE_CDB_COUNT := mk_count (count n) (next n) v (hkv1 n).
Definition set_hkv1 (v : Z) (n : SXE_CDB_COUNT) : SXE_CDB_COUNT := mk_count (count n) (next n) (last n) v.

Definition rd_lo (l : Z) : M Z := c ← rd_inst; lift (load (rd (counts_lo c) l)).
Definition rd_hi (l : Z) : M Z := c ← rd_inst; lift (load (rd (counts_hi c) l)).
Definition wr_lo (l v : Z) : M unit := c ← rd_inst; lo ← lift (wr (counts_lo c) l v); upd_inst (set_counts_lo lo).
Definition wr_hi (l v : Z) : M unit := c ← rd_inst; hi ← lift (wr (counts_hi c) l v); upd_inst (set_counts_hi hi).

(** lib-sxe-cdb/sxe-cdb.c:600-614, sxe_cdb_instance_free_count_push. *)
Fixpoint free_count_push_loop (fuel : nat) (from_c this_c : Z) : M unit :=
  match fuel with
  | O => lift Fault
  | S fuel =>
      if this_c >=? from_c then
        c ← rd_inst;
        let next_c := counts_next_free c in
        upd_inst (set_counts_next_free this_c);;
        upd_count this_c (set_next next_c);;
        upd_inst (fun c => set_counts_free (u32 (counts_free c + 1)) c);;
        free_count_push_loop fuel from_c (u32 (this_c - 1))
      else mret tt
  end.
Definition sxe_cdb_instance_free_count_push (from_c to___c : Z) : M unit := free_count_push_loop (S (S (Z.to_nat to___c))) from_c to___c.

(** lib-sxe-cdb/sxe-cdb.c:621-633, sxe_cdb_instance_free_count_pop. One more page of nodes. Node 0 is never used. *)
Definition grow_counts : M unit :=
  upd_inst (fun c => set_counts_pages (u32 (counts_pages c + 1)) c);;
  c ← rd_inst;
  let bytes := u32 (SXE_CDB_KERNEL_PAGE_BYTES * counts_pages c) in
  assert_1 (map_ok c bytes);;
  upd_inst (set_counts (Some (default ∅ (counts c))));;
  upd_inst (fun c => set_counts_size (u32 (counts_size c + (if 1 =? counts_pages c then 1 else 0))) c);;
  c ← rd_inst;
  let counts_size_new := u32 (bytes / SXE_CDB_COUNT_BYTES - counts_size c) in
  sxe_cdb_instance_free_count_push (counts_size c) (u32 (counts_size c + counts_size_new - 1));;
  upd_inst (fun c => set_counts_size (u32 (counts_size c + counts_size_new)) c).

(** lib-sxe-cdb/sxe-cdb.c:616-643, sxe_cdb_instance_free_count_pop. *)
Definition sxe_cdb_instance_free_count_pop : M Z :=
  c ← rd_inst;
  (if 0 =? counts_free c then grow_counts else mret tt);;
  c ← rd_inst;
  let next_c := counts_next_free c in
  assert_6 (negb (SXE_CDB_COUNT_NONE =? next_c));;
  n ← rd_count next_c;
  upd_inst (set_counts_next_free (next n));;
  upd_inst (fun c => set_counts_free (u32 (counts_free c - 1)) c);;
  upd_inst (fun c => set_counts_used (u32 (counts_used c + 1)) c);;
  mret next_c.

(** ** Values that are counters *)

(** lib-sxe-cdb/sxe-cdb-private.h:143-147, SXE_CDB_HKV_LIST. The fields' offsets in the value. *)
Definition COUNT_TO_USE : Z := 0.
Definition NEXT_HKV_POS : Z := 4.
Definition LAST_HKV_POS : Z := 8.

(** A field of the value at [val] in [kvdata]. *)
Definition rd_val (val field : Z) : M Z := c ← rd_inst; lift (ld32 (kvdata c) (val + field)).
Definition wr_val (val field v : Z) : M unit :=
  c ← rd_inst; m ← lift (wr_bytes (kvdata c) (val + field) (bytes32 v)); upd_inst (set_kvdata m).

(** Where the value of the entry at a position is. *)
Definition val_ptr (hkv_pos : Z) : M Z := c ← rd_inst; part ← lift (sxe_cdb_hkv_unpack In_kvdata (kvdata c) hkv_pos); mret (val_at part).

(** ** Incrementing *)

(** lib-sxe-cdb/sxe-cdb.c:679-692, sxe_cdb_instance_inc. The first count of the list. *)
Definition add_first_count (counts_list this_hkv_pos this_val_ptr : Z) : M Z :=
  let count_new := 1 in
  this_c ← sxe_cdb_instance_free_count_pop;
  wr_val this_val_ptr COUNT_TO_USE this_c;;
  wr_val this_val_ptr NEXT_HKV_POS SXE_CDB_HKV_POS_NONE;;
  wr_val this_val_ptr LAST_HKV_POS SXE_CDB_HKV_POS_NONE;;
  upd_count this_c (set_count count_new);;
  upd_count this_c (set_next SXE_CDB_COUNT_NONE);;
  upd_count this_c (set_last SXE_CDB_COUNT_NONE);;
  upd_count this_c (set_hkv1 this_hkv_pos);;
  wr_lo counts_list this_c;;
  wr_hi counts_list this_c;;
  mret count_new.

(** lib-sxe-cdb/sxe-cdb.c:693-707, sxe_cdb_instance_inc. A count of 1 below the others. *)
Definition add_lowest_count (counts_list this_hkv_pos this_val_ptr this_c : Z) : M Z :=
  let count_new := 1 in
  let next_c := this_c in
  this_c ← sxe_cdb_instance_free_count_pop;
  wr_val this_val_ptr COUNT_TO_USE this_c;;
  wr_val this_val_ptr NEXT_HKV_POS SXE_CDB_HKV_POS_NONE;;
  wr_val this_val_ptr LAST_HKV_POS SXE_CDB_HKV_POS_NONE;;
  upd_count this_c (set_count count_new);;
  lo ← rd_lo counts_list;
  upd_count this_c (set_next lo);;
  upd_count this_c (set_last SXE_CDB_COUNT_NONE);;
  upd_count this_c (set_hkv1 this_hkv_pos);;
  wr_lo counts_list this_c;;
  upd_count next_c (set_last this_c);;
  mret count_new.

(** lib-sxe-cdb/sxe-cdb.c:708-723, sxe_cdb_instance_inc. One more key with the count 1. *)
Definition add_to_lowest (this_hkv_pos this_val_ptr this_c : Z) : M Z :=
  n ← rd_count this_c;
  assert_6 (1 =? count n);;
  let count_new := 1 in
  let last_hkv_pos := hkv1 n in
  assert_6 (negb (SXE_CDB_HKV_POS_NONE =? last_hkv_pos));;
  last_val_ptr ← val_ptr last_hkv_pos;
  (if debug then l ← rd_val last_val_ptr LAST_HKV_POS; assert_6 (SXE_CDB_HKV_POS_NONE =? l) else mret tt);;
  wr_val last_val_ptr LAST_HKV_POS this_hkv_pos;;
  wr_val this_val_ptr COUNT_TO_USE this_c;;
  wr_val this_val_ptr NEXT_HKV_POS last_hkv_pos;;
  wr_val this_val_ptr LAST_HKV_POS SXE_CDB_HKV_POS_NONE;;
  upd_count this_c (set_hkv1 this_hkv_pos);;
  mret count_new.

(** lib-sxe-cdb/sxe-cdb.c:667-725, sxe_cdb_instance_inc. The key is new. [val_dummy] is a local array that is not initialized. *)
Definition inc_new (val_dummy : list Z) (counts_list : Z) : M Z :=
  uid ← sxe_cdb_instance_put_val val_dummy SXE_CDB_HKV_LIST_BYTES;
  if uid =? SXE_CDB_UID_NONE then mret 0
  else
    this_hkv ← sxe_cdb_instance_get_hkv_raw;
    assert_6 (bool_decide (is_Some this_hkv));;
    this_hkv_pos ← lift (load this_hkv);
    this_val_ptr ← val_ptr this_hkv_pos;
    this_c ← rd_lo counts_list;
    if SXE_CDB_COUNT_NONE =? this_c then add_first_count counts_list this_hkv_pos this_val_ptr
    else
      n ← rd_count this_c;
      if 1 <? count n then add_lowest_count counts_list this_hkv_pos this_val_ptr this_c
      else add_to_lowest this_hkv_pos this_val_ptr this_c.

(** lib-sxe-cdb/sxe-cdb.c:764-774, sxe_cdb_instance_inc. The key leaves the keys with its count. *)
Definition remove_from_chain (this_hkv_pos next_hkv_pos last_hkv_pos : Z) : M unit :=
  (if negb (next_hkv_pos =? SXE_CDB_HKV_POS_NONE) then
     next_val_ptr ← val_ptr next_hkv_pos;
     (if debug then l ← rd_val next_val_ptr LAST_HKV_POS; assert_6 (l =? this_hkv_pos) else mret tt);;
     wr_val next_val_ptr LAST_HKV_POS last_hkv_pos
   else mret tt);;
  (if negb (last_hkv_pos =? SXE_CDB_HKV_POS_NONE) then
     last_val_ptr ← val_ptr last_hkv_pos;
     (if debug then n ← rd_val last_val_ptr NEXT_HKV_POS; assert_6 (n =? this_hkv_pos) else mret tt);;
     wr_val last_val_ptr NEXT_HKV_POS next_hkv_pos
   else mret tt).

(** lib-sxe-cdb/sxe-cdb.c:780-791, sxe_cdb_instance_inc. No key has the count any more. *)
Definition remove_count (counts_list this_c next_c last_c : Z) : M unit :=
  sxe_cdb_instance_free_count_push this_c this_c;;
  upd_inst (fun c => set_counts_used (u32 (counts_used c - 1)) c);;
  (if negb (next_c =? SXE_CDB_COUNT_NONE) then upd_count next_c (set_last last_c)
   else
     hi ← rd_hi counts_list;
     wr_hi counts_list (if hi =? this_c then last_c else hi);;
     assert_1 false);;
  (if negb (last_c =? SXE_CDB_COUNT_NONE) then upd_count last_c (set_next next_c)
   else
     lo ← rd_lo counts_list;
     wr_lo counts_list (if lo =? this_c then next_c else lo)).

(** lib-sxe-cdb/sxe-cdb.c:795-807, sxe_cdb_instance_inc. There is no higher count. *)
Definition add_highest_count (counts_list this_hkv_pos this_val_ptr this_c count_new : Z) : M unit :=
  next_c ← sxe_cdb_instance_free_count_pop;
  wr_val this_val_ptr COUNT_TO_USE next_c;;
  wr_val this_val_ptr NEXT_HKV_POS SXE_CDB_HKV_POS_NONE;;
  wr_val this_val_ptr LAST_HKV_POS SXE_CDB_HKV_POS_NONE;;
  wr_hi counts_list next_c;;
  upd_count next_c (set_count count_new);;
  upd_count next_c (set_next SXE_CDB_COUNT_NONE);;
  upd_count next_c (set_last this_c);;
  upd_count next_c (set_hkv1 this_hkv_pos);;
  upd_count this_c (set_next next_c).

(** lib-sxe-cdb/sxe-cdb.c:809-821, sxe_cdb_instance_inc. The next higher count is the right one. *)
Definition add_to_count (this_hkv_pos this_val_ptr next_c : Z) : M unit :=
  wr_val this_val_ptr COUNT_TO_USE next_c;;
  n ← rd_count next_c;
  wr_val this_val_ptr NEXT_HKV_POS (hkv1 n);;
  wr_val this_val_ptr LAST_HKV_POS SXE_CDB_HKV_POS_NONE;;
  let next_hkv_pos := hkv1 n in
  next_val_ptr ← val_ptr next_hkv_pos;
  (if debug then l ← rd_val next_val_ptr LAST_HKV_POS; assert_6 (l =? SXE_CDB_HKV_POS_NONE) else mret tt);;
  wr_val next_val_ptr LAST_HKV_POS this_hkv_pos;;
  upd_count next_c (set_hkv1 this_hkv_pos).

(** lib-sxe-cdb/sxe-cdb.c:822-835, sxe_cdb_instance_inc. The next higher count is too high. *)
Definition insert_count (this_hkv_pos this_val_ptr this_c next_c count_new : Z) : M unit :=
  let nex2_c := next_c in
  next_c ← sxe_cdb_instance_free_count_pop;
  wr_val this_val_ptr COUNT_TO_USE next_c;;
  wr_val this_val_ptr NEXT_HKV_POS SXE_CDB_HKV_POS_NONE;;
  wr_val this_val_ptr LAST_HKV_POS SXE_CDB_HKV_POS_NONE;;
  upd_count next_c (set_count count_new);;
  n ← rd_count this_c;
  upd_count next_c (set_next (next n));;
  upd_count next_c (set_last this_c);;
  upd_count next_c (set_hkv1 this_hkv_pos);;
  upd_count this_c (set_next next_c);;
  upd_count nex2_c (set_last next_c).

(** lib-sxe-cdb/sxe-cdb.c:743-838, sxe_cdb_instance_inc. The key is a counter. *)
Definition inc_counter (counts_list this_hkv_pos this_val_ptr this_c : Z) : M Z :=
  n ← rd_count this_c;
  let next_c := next n in
  let count_new := u64 (count n + 1) in
  next_hkv_pos ← rd_val this_val_ptr NEXT_HKV_POS;
  alone ← (if (hkv1 n =? this_hkv_pos) && (next_hkv_pos =? SXE_CDB_HKV_POS_NONE) then
             if next_c =? SXE_CDB_COUNT_NONE then mret true else m ← rd_count next_c; mret (count m >? count_new)
           else mret false);
  if (alone : bool) then upd_count this_c (fun n => set_count (count n + 1) n);; mret count_new
  else
    next_hkv_pos ← rd_val this_val_ptr NEXT_HKV_POS;
    last_hkv_pos ← rd_val this_val_ptr LAST_HKV_POS;
    n ← rd_count this_c;
    let last_c := last n in
    remove_from_chain this_hkv_pos next_hkv_pos last_hkv_pos;;
    (if hkv1 n =? this_hkv_pos then upd_count this_c (set_hkv1 next_hkv_pos) else mret tt);;
    n ← rd_count this_c;
    (if SXE_CDB_HKV_POS_NONE =? hkv1 n then remove_count counts_list this_c next_c last_c else mret tt);;
    (if SXE_CDB_COUNT_NONE =? next_c then add_highest_count counts_list this_hkv_pos this_val_ptr this_c count_new
     else
       m ← rd_count next_c;
       if count m =? count_new then add_to_count this_hkv_pos this_val_ptr next_c
       else insert_count this_hkv_pos this_val_ptr this_c next_c count_new);;
    mret count_new.

(** lib-sxe-cdb/sxe-cdb.c:726-741, sxe_cdb_instance_inc. The key was put before: it must be a counter. *)
Definition inc_put (counts_list this_hkv_pos : Z) : M Z :=
  this_val_ptr ← val_ptr this_hkv_pos;
  t ← rd_tls;
  if negb (SXE_CDB_HKV_LIST_BYTES =? val_len (t_part t)) then mret 0
  else
    this_c ← rd_val this_val_ptr COUNT_TO_USE;
    assert_6 (negb (SXE_CDB_COUNT_NONE =? this_c));;
    c ← rd_inst;
    if this_c >=? counts_size c then mret 0 else inc_counter counts_list this_hkv_pos this_val_ptr this_c.

(** lib-sxe-cdb/sxe-cdb.c:651-667, sxe_cdb_instance_inc. The new count of the prepared key, or 0. *)
Definition sxe_cdb_instance_inc (val_dummy : list Z) (counts_list : Z) : M Z :=
  assert_6 (counts_list <? SXE_CDB_COUNTS_LISTS_MAX);;
  this_hkv ← sxe_cdb_instance_get_hkv_raw;
  match this_hkv with
  | None => inc_new val_dummy counts_list
  | Some this_hkv_pos => inc_put counts_list this_hkv_pos
  end.

(** ** Walking *)

(** lib-sxe-cdb/sxe-cdb.c:846-894, sxe_cdb_instance_walk_pos_is_bad. *)
Definition sxe_cdb_instance_walk_pos_is_bad (cnt_pos hkv_pos : Z) : M bool :=
  if negb (SXE_CDB_COUNT_NONE =? cnt_pos) && negb (SXE_CDB_HKV_POS_NONE =? hkv_pos) then
    c ← rd_inst;
    if cnt_pos >? counts_size c then mret true
    else if u32 (hkv_pos + 1) >? kvdata_used c then mret true
    else
      h_len ← lift (sxe_cdb_h_len (kvdata c) hkv_pos);
      if u32 (hkv_pos + h_len) >? kvdata_used c then mret true
      else
        part ← lift (sxe_cdb_hkv_unpack In_kvdata (kvdata c) hkv_pos);
        upd_tls (set_t_part part);;
        if u32 (hkv_pos + hkv_len part) >? kvdata_used c then mret true
        else if val_len part =? SXE_CDB_HKV_LIST_BYTES then
          count_to_use ← rd_val (val_at part) COUNT_TO_USE;
          mret (negb (count_to_use =? cnt_pos))
        else mret false
  else mret false.

(** lib-sxe-cdb/sxe-cdb.c:947-951, sxe_cdb_instance_walk. The thread notes where the walk goes on. *)
Definition walk_at (cnt_pos hkv_pos : Z) (tls_hkv : bool) : M bool :=
  upd_tls (set_t_walk_cnt_pos cnt_pos);;
  upd_tls (set_t_walk_hkv_pos hkv_pos);;
  mret tls_hkv.

(** The first key with a count. *)
Definition first_hkv (cnt_pos : Z) : M Z :=
  if SXE_CDB_COUNT_NONE =? cnt_pos then mret SXE_CDB_HKV_POS_NONE else n ← rd_count cnt_pos; mret (hkv1 n).

(** lib-sxe-cdb/sxe-cdb.c:941-945, sxe_cdb_instance_walk. When no key is left with this count, the walk goes on with the next one. *)
Definition walk_on (direction cnt_pos hkv_pos : Z) (tls_hkv : bool) : M bool :=
  if SXE_CDB_HKV_POS_NONE =? hkv_pos then
    n ← rd_count cnt_pos;
    let cnt_pos := if negb (direction =? 0) then last n else next n in
    hkv_pos ← first_hkv cnt_pos;
    walk_at cnt_pos hkv_pos tls_hkv
  else walk_at cnt_pos hkv_pos tls_hkv.

(** lib-sxe-cdb/sxe-cdb.c:896-952, sxe_cdb_instance_walk. Whether the thread has a copy of a key. *)
Definition sxe_cdb_instance_walk (direction cnt_pos hkv_pos counts_list : Z) : M bool :=
  start ← (if SXE_CDB_COUNT_NONE =? cnt_pos then
             if counts_list >=? SXE_CDB_COUNTS_LISTS_MAX then mret None
             else
               cnt_pos ← (if negb (direction =? 0) then rd_hi counts_list else rd_lo counts_list);
               hkv_pos ← first_hkv cnt_pos;
               mret (Some (cnt_pos, hkv_pos))
           else mret (Some (cnt_pos, hkv_pos)));
  match start with
  | None => walk_at SXE_CDB_COUNT_NONE SXE_CDB_HKV_POS_NONE false
  | Some (cnt_pos, hkv_pos) =>
      if SXE_CDB_COUNT_NONE =? cnt_pos then walk_at cnt_pos hkv_pos false
      else if SXE_CDB_HKV_POS_NONE =? hkv_pos then walk_on direction cnt_pos hkv_pos false
      else
        bad ← sxe_cdb_instance_walk_pos_is_bad cnt_pos hkv_pos;
        if (bad : bool) then walk_at SXE_CDB_COUNT_NONE SXE_CDB_HKV_POS_NONE false
        else
          t ← rd_tls;
          hkv_pos_new ← rd_val (val_at (t_part t)) NEXT_HKV_POS;
          bad ← sxe_cdb_instance_walk_pos_is_bad cnt_pos hkv_pos_new;
          if (bad : bool) then walk_at SXE_CDB_COUNT_NONE SXE_CDB_HKV_POS_NONE false
          else
            tls_hkv ← sxe_cdb_copy_hkv_to_tls hkv_pos;
            n ← rd_count cnt_pos;
            upd_tls (set_t_walk_count (count n));;
            walk_on direction cnt_pos hkv_pos_new tls_hkv
  end.
End Counters.
