(* ===== verification/CdbChain.v ===== *)
(** * CdbChain: lists that are linked in both directions through a memory, and the counters as lists of lists

    The nodes of counts are such a list, and so are the keys with the same count. [chain] says so for any relation that tells the two
    links of an element; an empty link is 0. The groups of a list of counters are the abstract view of it. *)

From S2P Require Import Prelude Spinlock Cdb CdbStore CdbPut CdbCount.

(** ** Chains *)

Section Chain.
Context {A : Type} (name : A -> Z).
Implicit Types (R : A -> Z -> Z -> Prop) (xs ys : list A).

Definition first xs (d : Z) : Z := match xs with [] => d | x :: _ => name x end.
Fixpoint final xs (d : Z) : Z := match xs with [] => d | x :: xs => final xs (name x) end.

(** [R x n l]: the links of [x] are [n] and [l]. *)
Fixpoint chain R (before : Z) xs (behind : Z) : Prop :=
  match xs with
  | [] => True
  | x :: xs => R x (first xs behind) before /\ chain R (name x) xs behind
  end.

Lemma first_app xs ys d : first (xs ++ ys) d = first xs (first ys d).
Proof. by destruct xs. Qed.
Lemma final_app xs ys d : final (xs ++ ys) d = final ys (final xs d).
Proof. revert d. induction xs as [|x xs IH]; intros d; [done|]. apply IH. Qed.

Lemma chain_app R p xs ys n : chain R p (xs ++ ys) n <-> chain R p xs (first ys n) /\ chain R (final xs p) ys n.
Proof. revert p. induction xs as [|x xs IH]; intros p; cbn; [tauto|]. rewrite IH, first_app. tauto. Qed.

(** A chain that was cut at an element. *)
Lemma chain_mid R p xs x ys n : chain R p (xs ++ x :: ys) n <-> chain R p xs (name x) /\ R x (first ys n) (final xs p) /\ chain R (name x) ys n.
Proof. rewrite chain_app. done. Qed.

Lemma chain_impl R R' p xs n : (forall x a b, x ∈ xs -> R x a b -> R' x a b) -> chain R p xs n -> chain R' p xs n.
Proof.
  revert p. induction xs as [|x xs IH]; intros p Hi; [done|]. intros [Hx Hxs]. split; [apply Hi; [left|done]|].
  apply IH; [|done]. intros y a b Hy. apply Hi. by right.
Qed.

(** The last element gets another link to what is behind; the first one to what is before. *)
Lemma chain_relink_end R R' p xs n n' : NoDup (name <$> xs) ->
  (forall x a b, x ∈ xs -> R x a b -> R' x (if decide (name x = final xs 0) then n' else a) b) -> chain R p xs n -> chain R' p xs n'.
Proof.
  intros Nd Hr. destruct xs as [|z xs] using rev_ind; [done|]. clear IHxs. rewrite final_app in Hr. cbn [final] in Hr.
  rewrite !chain_app. cbn. intros (Hc & Hz & _). split_and!; [| |done].
  - apply (chain_impl R); [|done]. intros x a b Hx Hab. specialize (Hr x a b ltac:(set_solver) Hab). rewrite decide_False in Hr; [done|].
    intros E. rewrite fmap_app in Nd. apply NoDup_app in Nd as (_ & Nd & _). apply (Nd (name x)); [by apply list_elem_of_fmap_2|]. rewrite E. cbn. left.
  - specialize (Hr z n (final xs p) ltac:(set_solver) Hz). by rewrite decide_True in Hr.
Qed.
Lemma chain_relink_start R R' p p' xs n : NoDup (name <$> xs) ->
  (forall x a b, x ∈ xs -> R x a b -> R' x a (if decide (name x = first xs 0) then p' else b)) -> chain R p xs n -> chain R' p' xs n.
Proof.
  intros Nd Hr. destruct xs as [|z xs]; [done|]. cbn in *. intros (Hz & Hc). apply NoDup_cons in Nd as [Hn _]. split.
  - specialize (Hr z _ _ ltac:(left) Hz). by rewrite decide_True in Hr.
  - apply (chain_impl R); [|done]. intros x a b Hx Hab. specialize (Hr x a b ltac:(by right) Hab). rewrite decide_False in Hr; [done|].
    intros E. apply Hn. rewrite <-E. by apply list_elem_of_fmap_2.
Qed.

(** An element is put between others, or taken from between them. *)
Lemma chain_insert R R' p xs n ys q : NoDup (name <$> xs) -> NoDup (name <$> ys) ->
  (forall x a b, x ∈ xs -> R x a b -> R' x (if decide (name x = final xs 0) then name n else a) b) ->
  (forall x a b, x ∈ ys -> R x a b -> R' x a (if decide (name x = first ys 0) then name n else b)) ->
  R' n (first ys q) (final xs p) -> chain R p (xs ++ ys) q -> chain R' p (xs ++ n :: ys) q.
Proof.
  intros Nx Ny Hx Hy Hn [Cx Cy]%chain_app. apply chain_mid. split; [by apply (chain_relink_end R _ _ _ _ _ Nx Hx Cx)|]. split; [done|].
  by apply (chain_relink_start R _ _ _ _ _ Ny Hy Cy).
Qed.
Lemma chain_remove R R' p xs n ys q : NoDup (name <$> xs) -> NoDup (name <$> ys) ->
  (forall x a b, x ∈ xs -> R x a b -> R' x (if decide (name x = final xs 0) then first ys q else a) b) ->
  (forall x a b, x ∈ ys -> R x a b -> R' x a (if decide (name x = first ys 0) then final xs p else b)) ->
  chain R p (xs ++ n :: ys) q -> chain R' p (xs ++ ys) q.
Proof.
  intros Nx Ny Hx Hy (Cx & _ & Cy)%chain_mid. apply chain_app. split; [by apply (chain_relink_end R _ _ _ _ _ Nx Hx Cx)|].
  by apply (chain_relink_start R _ _ _ _ _ Ny Hy Cy).
Qed.

(** The chain is a matter of the names of its elements. *)
Lemma first_name name' xs d : (forall x, x ∈ xs -> name x = name' x) -> first xs d = match xs with [] => d | x :: _ => name' x end.
Proof. destruct xs as [|x xs]; intros Hn; [done|]. apply Hn. left. Qed.

Lemma chain_first_mem xs d : xs <> [] -> exists x, x ∈ xs /\ first xs d = name x.
Proof. destruct xs as [|x xs]; [done|]. exists x. split; [left|done]. Qed.
Lemma chain_final_mem xs d : xs <> [] -> exists x, x ∈ xs /\ final xs d = name x.
Proof.
  destruct xs as [|z xs] using rev_ind; [done|]. intros _. exists z. split; [set_solver|]. by rewrite final_app.
Qed.
Lemma final_indep xs d d' : xs <> [] -> final xs d = final xs d'.
Proof. by destruct xs. Qed.
End Chain.

(** ** Groups: the keys with one count *)

Record group := mk_group { g_node : Z; g_count : Z; g_keys : list nat }.

Definition nodes (gs : list group) : list Z := g_node <$> gs.
Definition keys_in (gs : list group) : list nat := concat (g_keys <$> gs).
(** The keys with their counts, by ascending count. *)
Definition counts_of (gs : list group) : list (nat * Z) := concat ((fun g => (fun i => (i, g_count g)) <$> g_keys g) <$> gs).

Lemma nodes_app a b : nodes (a ++ b) = nodes a ++ nodes b.
Proof. apply fmap_app. Qed.
Lemma keys_in_app a b : keys_in (a ++ b) = keys_in a ++ keys_in b.
Proof. unfold keys_in. by rewrite fmap_app, concat_app. Qed.
Lemma keys_in_cons g gs : keys_in (g :: gs) = g_keys g ++ keys_in gs.
Proof. done. Qed.
Lemma counts_of_app a b : counts_of (a ++ b) = counts_of a ++ counts_of b.
Proof. unfold counts_of. by rewrite fmap_app, concat_app. Qed.
Lemma counts_of_cons g gs : counts_of (g :: gs) = ((fun i => (i, g_count g)) <$> g_keys g) ++ counts_of gs.
Proof. done. Qed.
Lemma counts_of_keys gs : (counts_of gs).*1 = keys_in gs.
Proof.
  induction gs as [|g gs IH]; [done|]. rewrite counts_of_cons, keys_in_cons, fmap_app, IH. f_equal. rewrite <-list_fmap_compose. apply list_fmap_id.
Qed.

(** The lowest count of a list is above another one. *)
Definition above (m : Z) (gs : list group) : Prop := match gs with [] => True | g :: _ => m < g_count g end.

(** What incrementing key [i] does to the groups, with the node [n] for a new group. *)
Inductive inc_groups (i : nat) (n : Z) : list group -> list group -> Z -> Prop :=
| inc_first gs : above 1 gs -> inc_groups i n gs (mk_group n 1 [i] :: gs) 1
| inc_lowest n1 ks gs : inc_groups i n (mk_group n1 1 ks :: gs) (mk_group n1 1 (i :: ks) :: gs) 1
| inc_alone pre n1 m post : above (m + 1) post -> inc_groups i n (pre ++ mk_group n1 m [i] :: post) (pre ++ mk_group n1 (m + 1) [i] :: post) (m + 1)
| inc_join pre n1 n2 m ks post :
    inc_groups i n (pre ++ mk_group n1 m [i] :: mk_group n2 (m + 1) ks :: post) (pre ++ mk_group n2 (m + 1) (i :: ks) :: post) (m + 1)
| inc_move pre n1 n2 m a b ks post : a ++ b <> [] ->
    inc_groups i n (pre ++ mk_group n1 m (a ++ i :: b) :: mk_group n2 (m + 1) ks :: post)
                 (pre ++ mk_group n1 m (a ++ b) :: mk_group n2 (m + 1) (i :: ks) :: post) (m + 1)
| inc_insert pre n1 m a b post : a ++ b <> [] -> above (m + 1) post ->
    inc_groups i n (pre ++ mk_group n1 m (a ++ i :: b) :: post) (pre ++ mk_group n1 m (a ++ b) :: mk_group n (m + 1) [i] :: post) (m + 1).

(** The key's count goes up by one, or it is new with the count 1; the other keys keep theirs. *)
Definition count_before (i : nat) (m : Z) : list (nat * Z) := if decide (m = 1) then [] else [(i, m - 1)].

Lemma inc_groups_counts i n gs gs' m : Forall (fun g => 0 < g_count g) gs -> inc_groups i n gs gs' m ->
  0 < m /\ exists rest, counts_of gs ≡ₚ count_before i m ++ rest /\ counts_of gs' ≡ₚ (i, m) :: rest.
Proof.
  intros Hp Hi. unfold count_before.
  assert (Pos : forall pre n1 m ks post, gs = pre ++ mk_group n1 m ks :: post -> 0 < m).
  { intros pre n1 m1 ks post ->. by apply Forall_app in Hp as [_ [Hp _]%Forall_cons]. }
  destruct Hi as [gs Ha|n1 ks gs|pre n1 m post Ha|pre n1 n2 m ks post|pre n1 n2 m a b ks post Hab|pre n1 m a b post Hab Ha];
    try (specialize (Pos _ _ _ _ _ eq_refl); rewrite decide_False by lia; replace (m + 1 - 1) with m by lia); (split; [lia|]).
  1, 2: rewrite decide_True by done; eexists; split; [exact (reflexivity _)|by rewrite !counts_of_cons].
  all: rewrite !counts_of_app, !counts_of_cons; cbn [g_keys g_count]; rewrite ?fmap_app, ?fmap_cons.
  - exists (counts_of pre ++ counts_of post). cbn [fmap list_fmap app]. split; by rewrite <-Permutation_middle.
  - exists (counts_of pre ++ ((fun i => (i, m + 1)) <$> ks) ++ counts_of post). cbn [fmap list_fmap app]. split; by rewrite <-Permutation_middle.
  - exists (counts_of pre ++ ((fun i => (i, m)) <$> a ++ b) ++ ((fun i => (i, m + 1)) <$> ks) ++ counts_of post). rewrite fmap_app. split; solve_Permutation.
  - exists (counts_of pre ++ ((fun i => (i, m)) <$> a ++ b) ++ counts_of post). rewrite fmap_app. cbn [fmap list_fmap app]. split; solve_Permutation.
Qed.
