(* ===== verification/CdbView.v ===== *)
(** * CdbView: what counting reads and writes, as steps of an abstract view of an instance

    A view has the nodes of counts as a function, the entries as a list, the ends of the lists of counters, and
    which nodes are used and which are free. [rep c V] says that the instance [c] has the view [V]; each access to memory in
    CdbCount.v is a step from view to view. *)

From stdpp Require Import functions.
From S2P Require Import Prelude Spinlock Cdb CdbStore CdbPut CdbCount CdbChain.

(** ** Values of counters *)

Definition list_val (a b d : Z) : list Z := bytes32 a ++ bytes32 b ++ bytes32 d.
Lemma zlen_list_val a b d : zlen (list_val a b d) = SXE_CDB_HKV_LIST_BYTES.
Proof. unfold list_val. by rewrite !zlen_app, !zlen_bytes32. Qed.

(** The entry [i] of a log gets another value. *)
Definition set_val (i : nat) (v : list Z) (log : list entry) : list entry := alter (with_val v) i log.

Lemma set_val_same i v log : set_val i v log !! i = with_val v <$> log !! i.
Proof. apply list_lookup_alter_eq. Qed.
Lemma set_val_other i j v log : i <> j -> set_val i v log !! j = log !! j.
Proof. apply list_lookup_alter_ne. Qed.
Lemma set_val_insert i v log e : log !! i = Some e -> set_val i v log = <[i := with_val v e]> log.
Proof.
  intros E. apply list_eq. intros j. destruct (decide (i = j)) as [<-|Hne].
  - rewrite set_val_same, list_lookup_insert_eq by (by apply lookup_lt_Some in E). by rewrite E.
  - by rewrite set_val_other, list_lookup_insert_ne.
Qed.
Lemma set_val_length i v log : length (set_val i v log) = length log.
Proof. apply length_alter. Qed.

Lemma position_set_val i v log e j : log !! i = Some e -> zlen v = zlen (e_val e) -> position (set_val i v log) j = position log j.
Proof. intros E Hv. rewrite (set_val_insert _ _ _ _ E). apply (position_replace log i e); [done|]. by apply zlen_with_val. Qed.

Section View.
Context `{Build, CdbSystem}.
Implicit Types (c : SXE_CDB_INSTANCE) (t : TLS) (log : list entry).

(** ** Parts of an instance that counting leaves alone *)

Definition same_memory c c' : Prop :=
  sheets c' = sheets c /\ sheets_mapped c' = sheets_mapped c /\ kvdata c' = kvdata c /\ kvdata_size c' = kvdata_size c /\
  kvdata_used c' = kvdata_used c /\ sheets_size c' = sheets_size c /\ sheets_index c' = sheets_index c.

Lemma same_memory_trans a b c : same_memory a b -> same_memory b c -> same_memory a c.
Proof. unfold same_memory. intros (A1 & A2 & A3 & A4 & A5 & A6 & A7) (-> & -> & -> & -> & -> & -> & ->). done. Qed.
Lemma store_frame c c' log : same_memory c c' -> store c log -> store c' log.
Proof.
  intros (E1 & E2 & E3 & E4 & E5 & E6 & E7) [A1 A2 A3 A4 A5 A6 A7 A8 A9 A10 A11 A12].
  assert (Ec : forall s r k, cell_at c' s r k = cell_at c s r k) by (intros; unfold cell_at; by rewrite E1).
  assert (Es : forall i, sheet_of c' i = sheet_of c i) by (intros; unfold sheet_of; by rewrite E7).
  split; rewrite ?E2, ?E3, ?E4, ?E5, ?E6, ?E7; try done.
  - intros. rewrite Ec. by apply A5.
  - intros. rewrite Es, Ec. by apply A11.
  - intros s row k. rewrite Ec. intros Hc. destruct (A12 s row k Hc) as (i & e & X). exists i, e. by rewrite Es.
Qed.

Definition counts_frame c c' : Prop :=
  same_memory c c' /\ counts_lo c' = counts_lo c /\ counts_hi c' = counts_hi c /\ counts_pages c' = counts_pages c /\ counts_size c' = counts_size c.
Lemma counts_frame_trans a b c : counts_frame a b -> counts_frame b c -> counts_frame a c.
Proof.
  intros (M1 & A1 & A2 & A3 & A4) (M2 & B1 & B2 & B3 & B4). split; [by apply (same_memory_trans _ b)|]. by rewrite B1, B2, B3, B4.
Qed.

(** ** Nodes *)

Definition put_count (n : Z) (v : SXE_CDB_COUNT) c : SXE_CDB_INSTANCE := set_counts (Some (<[n := v]> (default ∅ (counts c)))) c.

Lemma count_at_put n v c m : count_at (put_count n v c) m = if decide (m = n) then v else count_at c m.
Proof. unfold count_at, put_count. cbn. case_decide as E; [subst; by rewrite lookup_insert_eq|]. by rewrite lookup_insert_ne. Qed.

Lemma rd_count_ret c t n : node_mapped c n = true -> rd_count n (mk_cdb c t) = Ret (count_at c n, mk_cdb c t).
Proof. intros E. unfold rd_count. step_by (rd_inst_ret c t). by rewrite E. Qed.
Lemma upd_count_ret c t n f : node_mapped c n = true -> upd_count n f (mk_cdb c t) = Ret (tt, mk_cdb (put_count n (f (count_at c n)) c) t).
Proof. intros E. unfold upd_count. step_by (rd_inst_ret c t). by rewrite E. Qed.

(** The free nodes, from the head on; what is behind the last one does not matter. *)
Fixpoint free_chain (cn : Z -> SXE_CDB_COUNT) (h : Z) (l : list Z) : Prop :=
  match l with [] => True | x :: l => h = x /\ free_chain cn (next (cn x)) l end.
Lemma free_chain_ext cn cn' h l : (forall x, x ∈ l -> cn' x = cn x) -> free_chain cn h l -> free_chain cn' h l.
Proof.
  revert h. induction l as [|x l IH]; intros h He; [done|]. cbn. intros [-> Hl]. split; [done|]. rewrite He by set_solver. apply IH; [set_solver|done].
Qed.

Definition free_ok c (free : list Z) : Prop := free_chain (count_at c) (counts_next_free c) free /\ counts_free c = zlen free.

(** The nodes that are used and free; those that are mapped are below [counts_size], and node 0 is neither. *)
Record alloc c (used free : list Z) : Prop := {
  al_nodup : NoDup (used ++ free);
  al_range : Forall (fun n => 0 < n < counts_size c) (used ++ free);
  al_free : free_ok c free;
  al_pages : 0 <= counts_pages c < 1048576;
  al_size : counts_size c = SXE_CDB_KERNEL_PAGE_BYTES * counts_pages c / SXE_CDB_COUNT_BYTES;
  al_counts : 0 < counts_pages c -> is_Some (counts c);
  al_all : forall n, 0 < n < counts_size c -> n ∈ used ++ free
}.

Lemma below_mapped c used free n : alloc c used free -> 0 <= n < counts_size c -> node_mapped c n = true.
Proof.
  intros Al Hn. pose proof (al_pages _ _ _ Al) as Hp. pose proof (al_size _ _ _ Al) as Hs. unfold node_mapped.
  change SXE_CDB_KERNEL_PAGE_BYTES with 4096 in *. change SXE_CDB_COUNT_BYTES with 18 in *. rewrite u32_small by (unfold is_u32; lia).
  assert (Hpp : 0 < counts_pages c) by (destruct (decide (counts_pages c = 0)) as [E|]; [rewrite E in Hs; change (4096 * 0 / 18) with 0 in Hs; lia|lia]).
  rewrite (bool_decide_eq_true_2 _ (al_counts _ _ _ Al Hpp)). Z.to_euclidean_division_equations. lia.
Qed.
Lemma size_u32 c used free : alloc c used free -> 0 <= counts_size c < 268435456.
Proof.
  intros Al. pose proof (al_pages _ _ _ Al). rewrite (al_size _ _ _ Al). change SXE_CDB_KERNEL_PAGE_BYTES with 4096. change SXE_CDB_COUNT_BYTES with 18.
  Z.to_euclidean_division_equations. lia.
Qed.
Lemma used_mapped c used free n : alloc c used free -> n ∈ used -> node_mapped c n = true.
Proof.
  intros Al Hn. apply (below_mapped c used free); [done|]. pose proof (al_range _ _ _ Al) as Hr. rewrite Forall_forall in Hr. specialize (Hr n). set_solver by lia.
Qed.

(** One node that is not free goes to the head of the free list. *)
Definition pushed (n : Z) c : SXE_CDB_INSTANCE :=
  set_counts_free (u32 (counts_free c + 1)) (put_count n (set_next (counts_next_free c) (count_at c n)) (set_counts_next_free n c)).

Lemma push_step c t n fuel from : node_mapped c n = true -> from <= n ->
  free_count_push_loop (S fuel) from n (mk_cdb c t) = free_count_push_loop fuel from (u32 (n - 1)) (mk_cdb (pushed n c) t).
Proof.
  intros Hn Hf. cbn [free_count_push_loop]. destruct (Z.geb_spec n from); [|lia]. step_by (rd_inst_ret c t).
  step_by (upd_inst_ret (set_counts_next_free n) c t). set (c1 := set_counts_next_free n c).
  step_by (upd_count_ret c1 t n (set_next (counts_next_free c)) Hn). done.
Qed.

Lemma pushed_frame n c : counts_frame c (pushed n c).
Proof. done. Qed.
Lemma pushed_other n c m : m <> n -> count_at (pushed n c) m = count_at c m.
Proof. intros Hm. change (count_at (put_count n (set_next (counts_next_free c) (count_at c n)) c) m = count_at c m). by rewrite count_at_put, decide_False. Qed.
Lemma pushed_same n c : next (count_at (pushed n c) n) = counts_next_free c.
Proof. change (next (count_at (put_count n (set_next (counts_next_free c) (count_at c n)) c) n) = counts_next_free c). by rewrite count_at_put, decide_True. Qed.
Lemma pushed_mapped n c m : is_Some (counts c) -> node_mapped (pushed n c) m = node_mapped c m.
Proof. intros Hs. unfold node_mapped. change (counts_pages (pushed n c)) with (counts_pages c). rewrite (bool_decide_eq_true_2 _ Hs). by rewrite bool_decide_eq_true_2. Qed.
Lemma pushed_free n c free : free_ok c free -> n ∉ free -> zlen free + 1 < 4294967296 -> free_ok (pushed n c) (n :: free).
Proof.
  intros [Hf Hc] Hn Hz. split.
  - split; [done|]. rewrite pushed_same. apply (free_chain_ext (count_at c)); [|done]. intros x Hx. apply pushed_other. set_solver.
  - rewrite zlen_cons. change (u32 (counts_free c + 1) = 1 + zlen free). rewrite Hc, u32_small; [lia|]. unfold is_u32. pose proof (zlen_nonneg free). lia.
Qed.

(** The nodes from [from] to [this], put in front of the free ones. *)
Lemma push_nodes_run t from : 1 <= from -> forall k fuel c free, (k < fuel)%nat -> from + Z.of_nat k < 4294967296 -> is_Some (counts c) ->
  (forall n, from <= n < from + Z.of_nat k -> node_mapped c n = true) -> free_ok c free -> (forall n, from <= n < from + Z.of_nat k -> n ∉ free) ->
  zlen free + Z.of_nat k < 4294967296 ->
  exists c', free_count_push_loop fuel from (from + Z.of_nat k - 1) (mk_cdb c t) = Ret (tt, mk_cdb c' t) /\ counts_frame c c' /\
    is_Some (counts c') /\ free_ok c' (seqZ from (Z.of_nat k) ++ free) /\ (forall m, ~ from <= m < from + Z.of_nat k -> count_at c' m = count_at c m).
Proof.
  intros Hfrom k. induction k as [|k IH]; intros fuel c free Hfuel Hu Hs Hm Hf Hn Hz; (destruct fuel as [|fuel]; [lia|]).
  - exists c. cbn [free_count_push_loop]. destruct (Z.geb_spec (from + Z.of_nat 0 - 1) from); [lia|]. done.
  - set (n := from + Z.of_nat k). replace (from + Z.of_nat (S k) - 1) with n by lia. rewrite push_step by (first [apply Hm; lia|lia]).
    rewrite u32_small by (unfold is_u32; lia).
    destruct (IH fuel (pushed n c) (n :: free)) as (c' & R & F & S' & Fo & O); [lia|lia|done| | | | |].
    + intros m Hr. rewrite pushed_mapped by done. apply Hm. lia.
    + apply pushed_free; [done|apply Hn; lia|lia].
    + intros m Hr. apply not_elem_of_cons. split; [lia|]. apply Hn. lia.
    + rewrite zlen_cons. lia.
    + exists c'. split; [done|]. split; [by apply (counts_frame_trans _ (pushed n c))|]. split; [done|]. split.
      * replace (Z.of_nat (S k)) with (Z.of_nat k + 1) by lia. rewrite seqZ_app by lia. rewrite (seqZ_cons (from + Z.of_nat k)) by lia. rewrite <-(assoc_L (++)). done.
      * intros m Hr. rewrite O by lia. apply pushed_other. lia.
Qed.

(** Giving one node back. *)
Lemma push_one_run c t used free n : alloc c (n :: used) free ->
  exists c', sxe_cdb_instance_free_count_push n n (mk_cdb c t) = Ret (tt, mk_cdb c' t) /\ counts_frame c c' /\ alloc c' used (n :: free) /\
    forall m, m <> n -> count_at c' m = count_at c m.
Proof.
  intros Al. pose proof (al_range _ _ _ Al) as Hr. pose proof (size_u32 _ _ _ Al) as Hsz. cbn in Hr. apply Forall_cons in Hr as [Hn Hr].
  pose proof (al_nodup _ _ _ Al) as Nd. cbn in Nd. apply NoDup_cons in Nd as [Hnot Nd].
  assert (Hpg : 0 < counts_pages c).
  { pose proof (al_pages _ _ _ Al). destruct (decide (counts_pages c = 0)) as [E|]; [|lia]. pose proof (al_size _ _ _ Al) as Hs. rewrite E in Hs. change (SXE_CDB_KERNEL_PAGE_BYTES * 0 / SXE_CDB_COUNT_BYTES) with 0 in Hs. lia. }
  pose proof (al_counts _ _ _ Al Hpg) as Hs.
  assert (Hlen : zlen free + 1 < 4294967296).
  { pose proof (al_nodup _ _ _ Al) as Nd'. assert (Hsub : n :: used ++ free ⊆ seqZ 0 (counts_size c)).
    { intros x Hx. apply elem_of_seqZ. pose proof (al_range _ _ _ Al) as Hr'. rewrite Forall_forall in Hr'. specialize (Hr' x Hx). lia. }
    pose proof (NoDup_submseteq _ _ Nd' Hsub) as Hl%submseteq_length. rewrite length_seqZ in Hl. cbn in Hl. rewrite length_app in Hl. unfold zlen. lia. }
  destruct (push_nodes_run t n ltac:(lia) 1 (S (S (Z.to_nat n))) c free) as (c' & R & F & S' & Fo & O); [lia|lia|done| |apply Al| |lia|].
  - intros m Hm. apply (below_mapped c (n :: used) free); [done|lia].
  - intros m Hm. assert (m = n) as -> by lia. set_solver.
  - exists c'. replace (n + Z.of_nat 1 - 1) with n in R by lia. split; [done|]. split; [done|]. split.
    + destruct F as (Fm & _ & _ & Fp & Fs). split.
      * rewrite <-Permutation_middle. exact (al_nodup _ _ _ Al).
      * rewrite Fs, <-Permutation_middle. by constructor.
      * done.
      * rewrite Fp. apply Al.
      * rewrite Fs, Fp. apply Al.
      * done.
      * rewrite Fs. intros m Hm. rewrite <-Permutation_middle. exact (al_all _ _ _ Al m Hm).
    + intros m Hm. apply O. lia.
Qed.

(** Why no node is taken: all nodes of the pages that are mapped are used, and the system does not map one more page of them. *)
Definition no_map (used : list Z) : Prop :=
  exists c, alloc c used [] /\ map_ok (set_counts_pages (counts_pages c + 1) c) (u32 (SXE_CDB_KERNEL_PAGE_BYTES * (counts_pages c + 1))) = false.
Context `{!MapLaw}.

(** The nodes of a new page are free. *)
Lemma grow_counts_run c t used : alloc c used [] ->
  match grow_counts (mk_cdb c t) with
  | Ret (_, st) => exists c' free, st = mk_cdb c' t /\ same_memory c c' /\ counts_lo c' = counts_lo c /\ counts_hi c' = counts_hi c /\
      alloc c' used free /\ free <> [] /\ forall m, m ∈ used -> count_at c' m = count_at c m
  | Abort => no_map used
  | Fault => False
  end.
Proof.
  intros Al. pose proof (al_pages _ _ _ Al) as Hp. pose proof (al_size _ _ _ Al) as Hs. pose proof (size_u32 _ _ _ Al) as Hsz. unfold grow_counts.
  change SXE_CDB_KERNEL_PAGE_BYTES with 4096 in *. change SXE_CDB_COUNT_BYTES with 18 in *.
  step_by (upd_inst_ret (fun c => set_counts_pages (u32 (counts_pages c + 1)) c) c t). cbn beta. rewrite (u32_small (counts_pages c + 1)) by (unfold is_u32; lia).
  set (p := counts_pages c + 1) in *. set (c1 := set_counts_pages p c). step_by (rd_inst_ret c1 t). change (counts_pages c1) with p.
  destruct (map_ok c1 (u32 (4096 * p))) eqn:Em; [|by exists c].
  assert (Hp2 : p < 1048576).
  { destruct (decide (p = 1048576)) as [E|]; [|lia]. rewrite E in Em. change (u32 (4096 * 1048576)) with 0 in Em. by rewrite map_zero in Em. }
  rewrite (u32_small (4096 * p)) by (unfold is_u32; lia). assert (A1 : assert_1 true (mk_cdb c1 t) = Ret (tt, mk_cdb c1 t)) by done. step_by A1.
  step_by (upd_inst_ret (set_counts (Some (default ∅ (counts c1)))) c1 t). set (c2 := set_counts _ c1).
  step_by (upd_inst_ret (fun c => set_counts_size (u32 (counts_size c + (if 1 =? counts_pages c then 1 else 0))) c) c2 t). cbn beta.
  change (counts_pages c2) with p. change (counts_size c2) with (counts_size c). set (from := u32 (counts_size c + _)).
  set (top := 4096 * p / 18). assert (Htop : top < 268435456 /\ from + 226 <= top /\ 1 <= from /\ counts_size c <= from /\ (counts_size c < from -> used = []) /\ (counts_size c < from -> from = 1)).
  { unfold from, top. destruct (Z.eqb_spec 1 p) as [E1|E1].
    - replace (counts_pages c) with 0 in Hs by lia. change (4096 * 0 / 18) with 0 in Hs. rewrite Hs, <-E1. change (u32 (0 + 1)) with 1. change (4096 * 1 / 18) with 227.
      split_and!; [lia..| |done]. intros _. pose proof (al_range _ _ _ Al) as Hr. rewrite Hs in Hr. destruct used as [|x used]; [done|]. apply Forall_cons in Hr as [Hx _]. lia.
    - rewrite u32_small by (unfold is_u32; lia). rewrite Hs. split_and!; [Z.to_euclidean_division_equations; lia..|lia|lia]. }
  destruct Htop as (T1 & T2 & T3 & T4 & T5 & T6). clearbody from. set (c3 := set_counts_size from c2). step_by (rd_inst_ret c3 t). change (counts_size c3) with from.
  fold top. rewrite (u32_small (top - from)) by (unfold is_u32; lia). replace (from + (top - from) - 1) with (top - 1) by lia. rewrite (u32_small (top - 1)) by (unfold is_u32; lia).
  destruct (push_nodes_run t from T3 (Z.to_nat (top - from)) (S (S (Z.to_nat (top - 1)))) c3 []) as (c4 & R & F & S4 & Fo & O); [lia|lia|done| | |set_solver|change (zlen (@nil Z)) with 0; lia|].
  - intros n Hn. unfold node_mapped. change (counts_pages c3) with p. rewrite bool_decide_eq_true_2 by done. change SXE_CDB_KERNEL_PAGE_BYTES with 4096. change SXE_CDB_COUNT_BYTES with 18.
    rewrite (u32_small (4096 * p)) by (unfold is_u32; lia). unfold top in *. Z.to_euclidean_division_equations. lia.
  - destruct (al_free _ _ _ Al) as [_ Hc]. by split.
  - replace (from + Z.of_nat (Z.to_nat (top - from)) - 1) with (top - 1) in R by lia. unfold sxe_cdb_instance_free_count_push. step_by R.
    rewrite (upd_inst_ret (fun c => set_counts_size (u32 (counts_size c + (top - from))) c) c4 t). destruct F as (Fm & Fl & Fh & Fp & Fs).
    rewrite Fs. change (counts_size c3) with from. replace (from + (top - from)) with top by lia. rewrite u32_small by (unfold is_u32; lia).
    rewrite Z2Nat.id, app_nil_r in Fo by lia. eexists _, (seqZ from (top - from)). split; [reflexivity|]. split; [exact Fm|]. split; [exact Fl|]. split; [exact Fh|]. split; [|split].
    + split.
      * apply NoDup_app. pose proof (al_nodup _ _ _ Al) as Nd. rewrite app_nil_r in Nd. split; [done|]. split; [|apply NoDup_seqZ].
        intros x Hx Hy. apply elem_of_seqZ in Hy. pose proof (al_range _ _ _ Al) as Hr. rewrite app_nil_r, Forall_forall in Hr. specialize (Hr x Hx). lia.
      * change (Forall (fun n => 0 < n < top) (used ++ seqZ from (top - from))). apply Forall_app. split.
        -- pose proof (al_range _ _ _ Al) as Hr. rewrite app_nil_r in Hr. eapply Forall_impl; [exact Hr|]. cbn. intros x Hx. destruct (decide (counts_size c < from)) as [Hlt|]; [|lia]. lia.
        -- apply Forall_forall. intros x Hx. apply elem_of_seqZ in Hx. lia.
      * exact Fo.
      * change (0 <= counts_pages c4 < 1048576). rewrite Fp. change (counts_pages c3) with p. lia.
      * change (top = 4096 * counts_pages c4 / 18). rewrite Fp. done.
      * done.
      * change (forall n, 0 < n < top -> n ∈ used ++ seqZ from (top - from)). intros n Hn. apply elem_of_app. destruct (decide (from <= n)) as [Hge|Hlt]; [right; apply elem_of_seqZ; lia|left].
        destruct (decide (counts_size c < from)) as [Hs1|]; [specialize (T6 Hs1); lia|].
        pose proof (al_all _ _ _ Al n) as Ha. rewrite app_nil_r in Ha. apply Ha. lia.
    + rewrite seqZ_cons by lia. done.
    + intros m Hm. change (count_at c4 m = count_at c3 m). apply O. pose proof (al_range _ _ _ Al) as Hr. rewrite app_nil_r, Forall_forall in Hr. specialize (Hr m Hm).
      destruct (decide (counts_size c < from)) as [Hlt|]; [|lia]. rewrite (T5 Hlt) in Hm. set_solver.
Qed.

Lemma pop_run c t used free : alloc c used free ->
  match sxe_cdb_instance_free_count_pop (mk_cdb c t) with
  | Ret (n, st) => exists c' free', st = mk_cdb c' t /\ same_memory c c' /\ counts_lo c' = counts_lo c /\ counts_hi c' = counts_hi c /\
      alloc c' (n :: used) free' /\ forall m, m ∈ used -> count_at c' m = count_at c m
  | Abort => no_map used
  | Fault => False
  end.
Proof.
  intros Al.
  unfold sxe_cdb_instance_free_count_pop. step_by (rd_inst_ret c t). match goal with |- context [(_ ≫= ?k) (mk_cdb c t)] => set (rest := k) end.
  assert (Take : forall c1 free1, alloc c1 used free1 -> free1 <> [] -> same_memory c c1 -> counts_lo c1 = counts_lo c -> counts_hi c1 = counts_hi c ->
    (forall m, m ∈ used -> count_at c1 m = count_at c m) ->
    exists n c' free', rest tt (mk_cdb c1 t) = Ret (n, mk_cdb c' t) /\
      same_memory c c' /\ counts_lo c' = counts_lo c /\ counts_hi c' = counts_hi c /\ alloc c' (n :: used) free' /\ forall m, m ∈ used -> count_at c' m = count_at c m).
  { intros c1 [|n free1] Al1 Hne Hm1 Hl1 Hh1 Ho1; [done|]. unfold rest. step_by (rd_inst_ret c1 t). destruct (al_free _ _ _ Al1) as [[Hn Hf] Hc]. cbv zeta. rewrite Hn.
    pose proof (al_range _ _ _ Al1) as Hr. rewrite <-Permutation_middle in Hr. pose proof Hr as [Hn1 _]%Forall_cons.
    pose proof (al_nodup _ _ _ Al1) as Nd. rewrite <-Permutation_middle in Nd.
    step_by (assert_6_true (negb (SXE_CDB_COUNT_NONE =? n)) c1 t ltac:(change SXE_CDB_COUNT_NONE with 0; lia)).
    step_by (rd_count_ret c1 t n ltac:(by apply (below_mapped c1 used (n :: free1)); [|lia])).
    step_by (upd_inst_ret (set_counts_next_free (next (count_at c1 n))) c1 t). set (c2 := set_counts_next_free _ c1).
    step_by (upd_inst_ret (fun c => set_counts_free (u32 (counts_free c - 1)) c) c2 t). cbn beta. change (counts_free c2) with (counts_free c1). rewrite Hc, zlen_cons.
    replace (1 + zlen free1 - 1) with (zlen free1) by lia. set (c3 := set_counts_free _ c2).
    step_by (upd_inst_ret (fun c => set_counts_used (u32 (counts_used c + 1)) c) c3 t). eexists n, _, free1. split; [reflexivity|]. split; [exact Hm1|]. split; [exact Hl1|]. split; [exact Hh1|].
    split; [|exact Ho1]. split.
    - exact Nd.
    - exact Hr.
    - split; [exact Hf|]. change (u32 (zlen free1) = zlen free1). apply u32_small. unfold is_u32. pose proof (zlen_nonneg free1).
      assert (Hsub : n :: used ++ free1 ⊆ seqZ 0 (counts_size c1)).
      { intros x Hx. apply elem_of_seqZ. rewrite Forall_forall in Hr. specialize (Hr x Hx). lia. }
      pose proof (NoDup_submseteq _ _ Nd Hsub) as Hl%submseteq_length. rewrite length_seqZ in Hl. cbn in Hl. rewrite length_app in Hl. pose proof (size_u32 _ _ _ Al1). unfold zlen in *. lia.
    - apply Al1.
    - apply (al_size _ _ _ Al1).
    - apply (al_counts _ _ _ Al1).
    - intros m Hm. pose proof (al_all _ _ _ Al1 m Hm) as Ha. rewrite <-Permutation_middle in Ha. exact Ha. }
  destruct (al_free _ _ _ Al) as [_ Hc]. rewrite Hc.
  destruct (Z.eqb_spec 0 (zlen free)) as [E|E].
  - assert (free = []) as -> by (destruct free; [done|]; rewrite zlen_cons in E; pose proof (zlen_nonneg free); lia).
    pose proof (grow_counts_run c t used Al) as Hg. destruct (grow_counts (mk_cdb c t)) as [[[] st]| |] eqn:Eg; [| |done].
    + destruct Hg as (c1 & free1 & -> & Hm1 & Hl1 & Hh1 & Al1 & Hne & Ho1). step_by Eg.
      destruct (Take c1 free1 Al1 Hne Hm1 Hl1 Hh1 Ho1) as (n & c' & free' & -> & X). by exists c', free'.
    + unfold mbind at 1, cmd_bind at 1. rewrite Eg. done.
  - assert (Hne : free <> []) by (intros ->; by apply E).
    destruct (Take c free Al Hne) as (n & c' & free' & R & X); [done..|]. assert (Rt : (mret tt : cmd cdb unit) (mk_cdb c t) = Ret (tt, mk_cdb c t)) by done.
    step_by Rt. rewrite R. by exists c', free'.
Qed.

(** ** Views *)

Record view := mk_view { v_cn : Z -> SXE_CDB_COUNT; v_log : list entry; v_lo : list Z; v_hi : list Z; v_used : list Z; v_free : list Z }.

Record rep c (V : view) : Prop := {
  rp_store : store c (v_log V);
  rp_alloc : alloc c (v_used V) (v_free V);
  rp_nodes : forall n, n ∈ v_used V -> count_at c n = v_cn V n;
  rp_lo : counts_lo c = v_lo V;
  rp_hi : counts_hi c = v_hi V
}.

(** Steps of the view. *)
Definition with_node (n : Z) (x : SXE_CDB_COUNT) (V : view) : view := mk_view (<[n := x]> (v_cn V)) (v_log V) (v_lo V) (v_hi V) (v_used V) (v_free V).
Definition with_value (i : nat) (x : list Z) (V : view) : view := mk_view (v_cn V) (set_val i x (v_log V)) (v_lo V) (v_hi V) (v_used V) (v_free V).
Definition with_lo (l n : Z) (V : view) : view := mk_view (v_cn V) (v_log V) (<[Z.to_nat l := n]> (v_lo V)) (v_hi V) (v_used V) (v_free V).
Definition with_hi (l n : Z) (V : view) : view := mk_view (v_cn V) (v_log V) (v_lo V) (<[Z.to_nat l := n]> (v_hi V)) (v_used V) (v_free V).
Definition with_nodes (used free : list Z) (V : view) : view := mk_view (v_cn V) (v_log V) (v_lo V) (v_hi V) used free.

Lemma rep_count c t V n : rep c V -> n ∈ v_used V -> rd_count n (mk_cdb c t) = Ret (v_cn V n, mk_cdb c t).
Proof. intros R Hn. rewrite rd_count_ret by (apply (used_mapped c (v_used V) (v_free V)); [apply R|done]). by rewrite (rp_nodes _ _ R _ Hn). Qed.

Lemma rep_put c V n x : rep c V -> n ∈ v_used V -> rep (put_count n x c) (with_node n x V).
Proof.
  intros R Hn. split.
  - apply (store_frame c); [done|]. apply R.
  - cbn [v_used v_free with_node]. destruct (rp_alloc _ _ R) as [A1 A2 [A3 A3'] A4 A5 A6 A7]. split; try done. split; [|done].
    apply (free_chain_ext (count_at c)); [|done]. intros m Hm. rewrite count_at_put, decide_False; [done|]. intros ->. apply NoDup_app in A1 as (_ & A1 & _). by apply (A1 n).
  - cbn [v_used v_cn with_node]. intros m Hm. rewrite count_at_put. case_decide as E; [subst; by rewrite fn_lookup_insert|]. rewrite fn_lookup_insert_ne by done. by apply R.
  - apply R.
  - apply R.
Qed.
Lemma rep_upd_count c t V n f : rep c V -> n ∈ v_used V ->
  exists c', upd_count n f (mk_cdb c t) = Ret (tt, mk_cdb c' t) /\ rep c' (with_node n (f (v_cn V n)) V).
Proof.
  intros R Hn. rewrite upd_count_ret by (apply (used_mapped c (v_used V) (v_free V)); [apply R|done]). rewrite (rp_nodes _ _ R _ Hn).
  eexists. split; [done|]. by apply rep_put.
Qed.

Lemma rd_lo_ret c t V l : rep c V -> 0 <= l < zlen (v_lo V) -> rd_lo l (mk_cdb c t) = Ret (v_lo V !!! Z.to_nat l, mk_cdb c t).
Proof.
  intros R Hl. unfold rd_lo. step_by (rd_inst_ret c t). rewrite (rp_lo _ _ R). unfold zlen in Hl. rewrite <-(Z2Nat.id l) at 1 by lia. rewrite rd_nat.
  rewrite (list_lookup_lookup_total_lt (v_lo V)) by lia. done.
Qed.
Lemma rd_hi_ret c t V l : rep c V -> 0 <= l < zlen (v_hi V) -> rd_hi l (mk_cdb c t) = Ret (v_hi V !!! Z.to_nat l, mk_cdb c t).
Proof.
  intros R Hl. unfold rd_hi. step_by (rd_inst_ret c t). rewrite (rp_hi _ _ R). unfold zlen in Hl. rewrite <-(Z2Nat.id l) at 1 by lia. rewrite rd_nat.
  rewrite (list_lookup_lookup_total_lt (v_hi V)) by lia. done.
Qed.
Lemma rep_set_lo c V lo : rep c V -> rep (set_counts_lo lo c) (mk_view (v_cn V) (v_log V) lo (v_hi V) (v_used V) (v_free V)).
Proof. intros [R1 [A1 A2 A3 A4 A5 A6] R3 R4 R5]. split; try done. by apply (store_frame c). Qed.
Lemma rep_set_hi c V hi : rep c V -> rep (set_counts_hi hi c) (mk_view (v_cn V) (v_log V) (v_lo V) hi (v_used V) (v_free V)).
Proof. intros [R1 [A1 A2 A3 A4 A5 A6] R3 R4 R5]. split; try done. by apply (store_frame c). Qed.
Lemma wr_lo_rep c t V l n : rep c V -> 0 <= l < zlen (v_lo V) -> exists c', wr_lo l n (mk_cdb c t) = Ret (tt, mk_cdb c' t) /\ rep c' (with_lo l n V).
Proof.
  intros R Hl. unfold wr_lo. step_by (rd_inst_ret c t). rewrite (rp_lo _ _ R). assert (W : wr (v_lo V) l n = Ret (<[Z.to_nat l := n]> (v_lo V))).
  { unfold wr. unfold zlen in Hl. by replace ((0 <=? l) && (l <? Z.of_nat (length (v_lo V)))) with true by lia. }
  step_by (cdb_lift_ret (wr (v_lo V) l n) _ c t W). eexists. split; [reflexivity|]. by apply rep_set_lo.
Qed.
Lemma wr_hi_rep c t V l n : rep c V -> 0 <= l < zlen (v_hi V) -> exists c', wr_hi l n (mk_cdb c t) = Ret (tt, mk_cdb c' t) /\ rep c' (with_hi l n V).
Proof.
  intros R Hl. unfold wr_hi. step_by (rd_inst_ret c t). rewrite (rp_hi _ _ R). assert (W : wr (v_hi V) l n = Ret (<[Z.to_nat l := n]> (v_hi V))).
  { unfold wr. unfold zlen in Hl. by replace ((0 <=? l) && (l <? Z.of_nat (length (v_hi V)))) with true by lia. }
  step_by (cdb_lift_ret (wr (v_hi V) l n) _ c t W). eexists. split; [reflexivity|]. by apply rep_set_hi.
Qed.

(** Where the value of entry [i] is. *)
Definition val_pos log (i : nat) (e : entry) : Z := position log i + key_header (e_key e) (e_val e) + zlen (e_key e).

Lemma val_ptr_rep c t V i e : rep c V -> v_log V !! i = Some e -> val_ptr (position (v_log V) i) (mk_cdb c t) = Ret (val_pos (v_log V) i e, mk_cdb c t).
Proof. intros R E. unfold val_ptr. step_by (rd_inst_ret c t). rewrite (unpack_entry (v_log V) c i e (rp_store _ _ R) E). done. Qed.

(** The memory around one word of a value; and what it is when another word is stored. *)
Lemma value_word c log i e x w y : store c log -> log !! i = Some e -> e_val e = x ++ w ++ y -> length w = 4%nat ->
  exists pre post, kvdata c = pre ++ w ++ post /\ zlen pre = val_pos log i e + zlen x /\
    forall v, store (set_kvdata (pre ++ bytes32 v ++ post) c) (set_val i (x ++ bytes32 v ++ y) log).
Proof.
  intros St E Ev Hw. destruct (store_replace c log i e St E) as (pre & post & Hk & Hpre & Hr). pose proof (store_ok log c i e St E) as Eo.
  pose proof (zlen_header _ _ _ (eo_fits _ Eo)) as Hh. assert (Hz : forall v, zlen (x ++ bytes32 v ++ y) = zlen (e_val e)).
  { intros v. rewrite Ev, !zlen_app, zlen_bytes32. unfold zlen. lia. }
  assert (Im : forall v, pre ++ image (with_val (x ++ bytes32 v ++ y) e) ++ post
    = (pre ++ header_bytes (key_header (e_key e) (e_val e)) (zlen (e_key e)) (zlen (e_val e)) ++ e_key e ++ x) ++ bytes32 v ++ y ++ post).
  { intros v. unfold image, key_header. cbn [with_val e_key e_val]. rewrite Hz, <-!(assoc_L (++)). done. }
  assert (Ie : image e = header_bytes (key_header (e_key e) (e_val e)) (zlen (e_key e)) (zlen (e_val e)) ++ e_key e ++ x ++ w ++ y) by (unfold image; by rewrite <-Ev).
  set (hdr := header_bytes _ _ _) in *. clearbody hdr. exists (pre ++ hdr ++ e_key e ++ x), (y ++ post). split; [|split].
  - by rewrite Hk, Ie, <-!(assoc_L (++)).
  - rewrite !zlen_app, Hh, Hpre. unfold val_pos. lia.
  - intros v. rewrite <-Im, (set_val_insert _ _ _ _ E). by apply Hr.
Qed.

Lemma rd_val_rep c t V i e x v y : rep c V -> v_log V !! i = Some e -> e_val e = x ++ bytes32 v ++ y -> is_u32 v ->
  rd_val (val_pos (v_log V) i e) (zlen x) (mk_cdb c t) = Ret (v, mk_cdb c t).
Proof.
  intros R E Ev Hv. unfold rd_val. step_by (rd_inst_ret c t). destruct (value_word c (v_log V) i e x (bytes32 v) y (rp_store _ _ R) E Ev eq_refl) as (pre & post & -> & Hp & _).
  rewrite (ld32_bytes32 pre) by done. by rewrite u32_small.
Qed.

Lemma rep_kvdata c V m log : rep c V -> store (set_kvdata m c) log -> rep (set_kvdata m c) (mk_view (v_cn V) log (v_lo V) (v_hi V) (v_used V) (v_free V)).
Proof. intros [R1 [A1 A2 A3 A4 A5 A6 A7] R3 R4 R5] St. split; [exact St|exact (Build_alloc (set_kvdata m c) _ _ A1 A2 A3 A4 A5 A6 A7)|exact R3|exact R4|exact R5]. Qed.

Lemma wr_val_rep c t V i e x w y v p f : rep c V -> v_log V !! i = Some e -> e_val e = x ++ w ++ y -> length w = 4%nat ->
  p = val_pos (v_log V) i e -> f = zlen x ->
  exists c', wr_val p f v (mk_cdb c t) = Ret (tt, mk_cdb c' t) /\ rep c' (with_value i (x ++ bytes32 v ++ y) V).
Proof.
  intros R E Ev Hw -> ->. unfold wr_val. step_by (rd_inst_ret c t).
  destruct (value_word c (v_log V) i e x w y (rp_store _ _ R) E Ev Hw) as (pre & post & Hk & Hp & St).
  assert (W : wr_bytes (kvdata c) (val_pos (v_log V) i e + zlen x) (bytes32 v) = Ret (pre ++ bytes32 v ++ post)) by (rewrite Hk; by apply wr_bytes_at).
  step_by (cdb_lift_ret _ _ c t W). eexists. split; [reflexivity|]. apply rep_kvdata; [done|apply St].
Qed.

Lemma pop_rep c t V : rep c V ->
  match sxe_cdb_instance_free_count_pop (mk_cdb c t) with
  | Ret (n, st) => exists c' free' x, st = mk_cdb c' t /\ (n ∉ v_used V) /\ 0 < n < 268435456 /\ rep c' (with_node n x (with_nodes (n :: v_used V) free' V))
  | Abort => no_map (v_used V)
  | Fault => False
  end.
Proof.
  intros R. pose proof (pop_run c t _ _ (rp_alloc _ _ R)) as Hp. destruct (sxe_cdb_instance_free_count_pop (mk_cdb c t)) as [[n st]| |]; [|done..].
  destruct Hp as (c' & free' & -> & Hm & Hl & Hh & Al & O). exists c', free', (count_at c' n). split; [done|].
  pose proof (al_nodup _ _ _ Al) as Nd. cbn in Nd. apply NoDup_cons in Nd as [Hn _]. pose proof (al_range _ _ _ Al) as Hr. cbn in Hr. apply Forall_cons in Hr as [Hr _].
  pose proof (size_u32 _ _ _ Al). split; [set_solver|]. split; [lia|]. split; cbn.
  - apply (store_frame c); [done|apply R].
  - done.
  - intros m Hm'. destruct (decide (m = n)) as [->|Hne]; [by rewrite fn_lookup_insert|]. rewrite fn_lookup_insert_ne by done.
    apply elem_of_cons in Hm' as [->|Hm']; [done|]. rewrite O by done. by apply R.
  - rewrite Hl. apply R.
  - rewrite Hh. apply R.
Qed.

Lemma push_rep c t V used n : rep c V -> v_used V ≡ₚ n :: used ->
  exists c', sxe_cdb_instance_free_count_push n n (mk_cdb c t) = Ret (tt, mk_cdb c' t) /\ rep c' (with_nodes used (n :: v_free V) V).
Proof.
  intros R Hu. assert (Al : alloc c (n :: used) (v_free V)).
  { destruct (rp_alloc _ _ R) as [A1 A2 A3 A4 A5 A6 A7]. split; try done; [by rewrite <-Hu..|]. intros m Hm. change (m ∈ (n :: used) ++ v_free V). rewrite <-Hu. by apply A7. }
  destruct (push_one_run c t used (v_free V) n Al) as (c' & Rn & (Fm & Fl & Fh & _) & Al' & O). exists c'. split; [done|]. split; cbn.
  - apply (store_frame c); [done|apply R].
  - done.
  - intros m Hm. rewrite O; [apply R; rewrite Hu; by right|]. intros ->. pose proof (al_nodup _ _ _ Al) as Nd. cbn in Nd. apply NoDup_cons in Nd as [Nd _]. set_solver.
  - rewrite Fl. apply R.
  - rewrite Fh. apply R.
Qed.
End View.
