(* ===== verification/CdbGroups.v ===== *)
(** * CdbGroups: the lists of counters in a view, and what each way through sxe_cdb_instance_inc does to one

    [counted] says that a view has a list of groups, from its lowest count to its highest. A group gets or loses a key, a new
    group is put between others, a group goes: for each there is a lemma on views, and one for the code that does it. *)

From stdpp Require Import functions sorting.
From S2P Require Import Prelude Spinlock Cdb CdbStore CdbPut CdbCount CdbChain CdbView.

(** ** A list of counters in a view *)

Definition node_link (cn : Z -> SXE_CDB_COUNT) (n nx ls : Z) : Prop := next (cn n) = nx /\ last (cn n) = ls.
Definition key_link (log : list entry) (node : Z) (i : nat) (nx ls : Z) : Prop :=
  e_val <$> log !! i = Some (list_val node nx ls) /\ is_u32 node /\ is_u32 nx /\ is_u32 ls.

Record group_ok (pos : nat -> Z) (cn : Z -> SXE_CDB_COUNT) (log : list entry) (g : group) : Prop := {
  go_count : count (cn (g_node g)) = g_count g;
  go_first : hkv1 (cn (g_node g)) = first pos (g_keys g) 0;
  go_keys : g_keys g <> [];
  go_chain : chain pos (key_link log (g_node g)) 0 (g_keys g) 0
}.

Record counted (pos : nat -> Z) (cn : Z -> SXE_CDB_COUNT) (log : list entry) (gs : list group) (lo hi : Z) : Prop := {
  cd_chain : chain id (node_link cn) 0 (nodes gs) 0;
  cd_lo : lo = first id (nodes gs) 0;
  cd_hi : hi = final id (nodes gs) 0;
  cd_groups : Forall (group_ok pos cn log) gs;
  cd_sorted : StronglySorted Z.lt (g_count <$> gs);
  cd_bounds : Forall (fun g => 0 < g_count g < 2 ^ 48) gs
}.

(** A list depends on its own nodes and keys only. *)
Lemma key_of_group g gs i : g ∈ gs -> i ∈ g_keys g -> i ∈ keys_in gs.
Proof. intros Hg Hi. apply list_elem_of_In, in_concat. exists (g_keys g). split; apply list_elem_of_In; [by apply list_elem_of_fmap_2|done]. Qed.
(** The links of the nodes do not matter for the groups. *)
Lemma groups_frame pos cn cn' log log' gs : (forall n, n ∈ nodes gs -> count (cn' n) = count (cn n) /\ hkv1 (cn' n) = hkv1 (cn n)) ->
  (forall i, i ∈ keys_in gs -> log' !! i = log !! i) -> Forall (group_ok pos cn log) gs -> Forall (group_ok pos cn' log') gs.
Proof.
  intros En El F. rewrite Forall_forall in *. intros g Hg. destruct (F g Hg) as [A B C D]. destruct (En (g_node g)) as [E1 E2]; [by apply list_elem_of_fmap_2|].
  split; rewrite ?E1, ?E2; try done. apply (chain_impl pos (key_link log (g_node g))); [|done].
  intros i a b Hi. unfold key_link. rewrite El; [done|]. by apply (key_of_group g).
Qed.
Lemma counted_frame pos cn cn' log log' gs lo hi : (forall n, n ∈ nodes gs -> cn' n = cn n) -> (forall i, i ∈ keys_in gs -> log' !! i = log !! i) ->
  counted pos cn log gs lo hi -> counted pos cn' log' gs lo hi.
Proof.
  intros En El [A B C D E F]. split; try done; [|apply (groups_frame pos cn cn' log log'); [|done..]; intros n Hn; by rewrite En].
  apply (chain_impl id (node_link cn)); [|done]. intros n a b Hn. unfold node_link. by rewrite En.
Qed.

(** The counts of the groups around one of them. *)
Lemma sorted_mid a (g : group) b : StronglySorted Z.lt (g_count <$> a ++ g :: b) ->
  StronglySorted Z.lt (g_count <$> a) /\ StronglySorted Z.lt (g_count <$> b) /\
  (forall x, x ∈ a -> g_count x < g_count g) /\ (forall x, x ∈ b -> g_count g < g_count x) /\ (forall x y, x ∈ a -> y ∈ b -> g_count x < g_count y).
Proof.
  rewrite fmap_app, fmap_cons. intros S. apply StronglySorted_app in S as (Hab & Sa & Sb). apply StronglySorted_inv in Sb as [Sb Hb].
  rewrite Forall_forall in Hb. split; [done|]. split; [done|]. split_and!.
  - intros x Hx. apply Hab; [by apply list_elem_of_fmap_2|left].
  - intros x Hx. apply Hb. by apply list_elem_of_fmap_2.
  - intros x y Hx Hy. apply Hab; [by apply list_elem_of_fmap_2|right; by apply list_elem_of_fmap_2].
Qed.
Lemma sorted_join a (g : group) b : StronglySorted Z.lt (g_count <$> a) -> StronglySorted Z.lt (g_count <$> b) ->
  (forall x, x ∈ a -> g_count x < g_count g) -> (forall x, x ∈ b -> g_count g < g_count x) ->
  StronglySorted Z.lt (g_count <$> a ++ g :: b).
Proof.
  intros Sa Sb Ha Hb. rewrite fmap_app, fmap_cons. apply StronglySorted_app. split_and!; [|done|].
  - intros x y (gx & -> & Hx)%list_elem_of_fmap Hy. apply elem_of_cons in Hy as [->|Hy]; [by apply Ha|].
    apply list_elem_of_fmap in Hy as (gy & -> & Hy). specialize (Ha gx Hx). specialize (Hb gy Hy). lia.
  - constructor; [done|]. apply Forall_forall. intros x (gx & -> & Hx)%list_elem_of_fmap. by apply Hb.
Qed.

(** One group changes its count or its keys. *)
Lemma counted_replace pos cn cn' log log' pre g g' post lo hi : counted pos cn log (pre ++ g :: post) lo hi -> NoDup (nodes (pre ++ g :: post)) ->
  g_node g' = g_node g -> (forall n, n ∈ nodes (pre ++ post) -> cn' n = cn n) ->
  next (cn' (g_node g)) = next (cn (g_node g)) -> last (cn' (g_node g)) = last (cn (g_node g)) ->
  (forall i, i ∈ keys_in (pre ++ post) -> log' !! i = log !! i) -> group_ok pos cn' log' g' -> 0 < g_count g' < 2 ^ 48 ->
  (forall x, x ∈ pre -> g_count x < g_count g') -> (forall x, x ∈ post -> g_count g' < g_count x) ->
  counted pos cn' log' (pre ++ g' :: post) lo hi.
Proof.
  intros [C1 C2 C3 C4 C5 C6] Nd En Ecn Enx Els El Gok Gb Lo Hi.
  assert (Ns : nodes (pre ++ g' :: post) = nodes (pre ++ g :: post)) by (unfold nodes; by rewrite !fmap_app, !fmap_cons, En).
  apply Forall_app in C4 as [F1 [_ F2]%Forall_cons]. apply Forall_app in C6 as [B1 [_ B2]%Forall_cons]. destruct (sorted_mid _ _ _ C5) as (S1 & S2 & _).
  split; rewrite ?Ns; try done.
  - apply (chain_impl id (node_link cn)); [|done]. intros n a b Hn [<- <-]. rewrite nodes_app in Hn. cbn in Hn.
    destruct (decide (n = g_node g)) as [->|Hne]; [done|]. unfold node_link. rewrite Ecn; [done|]. rewrite nodes_app. set_solver.
  - rewrite nodes_app in Ecn. rewrite keys_in_app in El. apply Forall_app. split; [|constructor; [done|]]; (apply (groups_frame pos cn cn' log log'); [intros n Hn; rewrite Ecn; [done|set_solver]|set_solver|done]).
  - by apply sorted_join.
  - apply Forall_app. split; [done|]. by constructor.
Qed.

(** A new group comes between others. *)
Lemma counted_insert pos cn cn' log log' pre n m i post lo hi : counted pos cn log (pre ++ post) lo hi -> NoDup (nodes (pre ++ post)) ->
  cn' n = mk_count m (first id (nodes post) 0) (final id (nodes pre) 0) (pos i) ->
  (forall x, x ∈ nodes pre -> cn' x = if decide (x = final id (nodes pre) 0) then set_next n (cn x) else cn x) ->
  (forall x, x ∈ nodes post -> cn' x = if decide (x = first id (nodes post) 0) then set_last n (cn x) else cn x) ->
  (forall j, j ∈ keys_in (pre ++ post) -> log' !! j = log !! j) -> key_link log' n i 0 0 -> 0 < m < 2 ^ 48 ->
  (forall x, x ∈ pre -> g_count x < m) -> (forall x, x ∈ post -> m < g_count x) ->
  counted pos cn' log' (pre ++ mk_group n m [i] :: post) (first id (nodes pre) n) (final id (nodes post) n).
Proof.
  intros [C1 C2 C3 C4 C5 C6] Nd En Ex Ey El L Gb Lo Hi. rewrite nodes_app in *. rewrite keys_in_app in El. apply NoDup_app in Nd as (Nx & _ & Ny).
  apply Forall_app in C4 as [F1 F2]. apply Forall_app in C6 as [B1 B2]. rewrite fmap_app in C5. apply StronglySorted_app in C5 as (_ & S1 & S2).
  split.
  - rewrite nodes_app. change (nodes (mk_group n m [i] :: post)) with (n :: nodes post). apply (chain_insert id (node_link cn)); [by rewrite list_fmap_id|by rewrite list_fmap_id| | | |done].
    + intros x a b Hx [<- <-]. unfold node_link. rewrite (Ex x Hx). change (id x) with x. by case_decide.
    + intros x a b Hx [<- <-]. unfold node_link. rewrite (Ey x Hx). change (id x) with x. by case_decide.
    + unfold node_link. by rewrite En.
  - by rewrite nodes_app, first_app.
  - by rewrite nodes_app, final_app.
  - apply Forall_app. split; [|constructor]; [|split; cbn; [by rewrite En|by rewrite En|done|by split]|].
    + apply (groups_frame pos cn cn' log log'); [|set_solver|done]. intros x Hx. rewrite (Ex x Hx). by case_decide.
    + apply (groups_frame pos cn cn' log log'); [|set_solver|done]. intros x Hx. rewrite (Ey x Hx). by case_decide.
  - by apply sorted_join.
  - apply Forall_app. split; [done|]. by constructor.
Qed.

(** A group goes. *)
Lemma counted_remove pos cn cn' log log' pre g post lo hi : counted pos cn log (pre ++ g :: post) lo hi -> NoDup (nodes (pre ++ g :: post)) ->
  (forall x, x ∈ nodes pre -> cn' x = if decide (x = final id (nodes pre) 0) then set_next (first id (nodes post) 0) (cn x) else cn x) ->
  (forall x, x ∈ nodes post -> cn' x = if decide (x = first id (nodes post) 0) then set_last (final id (nodes pre) 0) (cn x) else cn x) ->
  (forall j, j ∈ keys_in (pre ++ post) -> log' !! j = log !! j) ->
  counted pos cn' log' (pre ++ post) (first id (nodes (pre ++ post)) 0) (final id (nodes (pre ++ post)) 0).
Proof.
  intros [C1 C2 C3 C4 C5 C6] Nd Ex Ey El. rewrite (nodes_app pre (g :: post)) in *. change (nodes (g :: post)) with (g_node g :: nodes post) in *. rewrite keys_in_app in El. apply NoDup_app in Nd as (Nx & Nxy & [_ Ny]%NoDup_cons).
  apply Forall_app in C4 as [F1 [_ F2]%Forall_cons]. apply Forall_app in C6 as [B1 [_ B2]%Forall_cons]. destruct (sorted_mid _ _ _ C5) as (S1 & S2 & _ & _ & S3).
  split; try done.
  - rewrite nodes_app. apply (chain_remove id (node_link cn) _ _ _ (g_node g)); [by rewrite list_fmap_id|by rewrite list_fmap_id| | |done].
    + intros x a b Hx [<- <-]. unfold node_link. rewrite (Ex x Hx). change (id x) with x. by case_decide.
    + intros x a b Hx [<- <-]. unfold node_link. rewrite (Ey x Hx). change (id x) with x. by case_decide.
  - apply Forall_app. split; (apply (groups_frame pos cn cn' log log'); [|set_solver|done]); intros x Hx; [rewrite (Ex x Hx)|rewrite (Ey x Hx)]; by case_decide.
  - rewrite fmap_app. apply StronglySorted_app. split_and!; [|done..]. intros x y (gx & -> & Hx)%list_elem_of_fmap (gy & -> & Hy)%list_elem_of_fmap. by apply S3.
  - apply Forall_app. done.
Qed.

(** ** The values of keys *)

(** Where the value of entry [i] is. *)
Definition vpos (log : list entry) (i : nat) : Z := match log !! i with Some e => val_pos log i e | None => 0 end.

(** Logs that differ in values of the same lengths only. *)
Definition same_shape (log log' : list entry) : Prop :=
  (forall i, position log' i = position log i) /\ (forall i, vpos log' i = vpos log i) /\ (forall i, e_key <$> log' !! i = e_key <$> log !! i).

Lemma same_shape_refl log : same_shape log log.
Proof. done. Qed.
Lemma same_shape_trans a b c : same_shape a b -> same_shape b c -> same_shape a c.
Proof. intros (A1 & A2 & A3) (B1 & B2 & B3). split_and!; intros i; [by rewrite B1|by rewrite B2|by rewrite B3]. Qed.
#[local] Hint Resolve same_shape_refl : core.

Lemma shape_set_val log i e v : log !! i = Some e -> zlen v = zlen (e_val e) -> same_shape log (set_val i v log).
Proof.
  intros E Hz. assert (Hp : forall j, position (set_val i v log) j = position log j) by (intros j; by apply (position_set_val i v log e)).
  split_and!; [done| |]; intros j.
  - unfold vpos. destruct (decide (i = j)) as [<-|Hne]; [|rewrite set_val_other by done; destruct (log !! j); [unfold val_pos; by rewrite Hp|done]].
    rewrite set_val_same, E. cbn. unfold val_pos, key_header. cbn [with_val e_key e_val]. by rewrite Hp, Hz.
  - destruct (decide (i = j)) as [<-|Hne]; [|by rewrite set_val_other]. by rewrite set_val_same, E.
Qed.
Lemma shape_list_val log i a b d a' b' d' : e_val <$> log !! i = Some (list_val a b d) -> same_shape log (set_val i (list_val a' b' d') log).
Proof. intros E. destruct (log !! i) as [e|] eqn:El; [|done]. injection E as E. apply (shape_set_val _ _ e); [done|]. by rewrite E, !zlen_list_val. Qed.
Lemma val_set_same log i v : is_Some (log !! i) -> e_val <$> set_val i v log !! i = Some v.
Proof. intros [e E]. by rewrite set_val_same, E. Qed.
Lemma set_val_twice i x y log : set_val i x (set_val i y log) = set_val i x log.
Proof.
  apply list_eq. intros j. destruct (decide (i = j)) as [<-|Hne]; [|by rewrite !set_val_other]. rewrite !set_val_same. by destruct (log !! i).
Qed.
Lemma with_value_twice i x y V : with_value i x (with_value i y V) = with_value i x V.
Proof. unfold with_value. cbn [v_log v_cn v_lo v_hi v_used v_free]. by rewrite set_val_twice. Qed.

Lemma key_link_some log n i a b : key_link log n i a b -> exists e, log !! i = Some e /\ e_val e = list_val n a b.
Proof. intros [E _]. destruct (log !! i) as [e|]; [|done]. injection E as E. by exists e. Qed.

Section Inc.
Context `{Build, CdbSystem}.
Implicit Types (c : SXE_CDB_INSTANCE) (t : TLS) (log : list entry) (V : view).

Lemma position_u32 c log i e : store c log -> log !! i = Some e -> is_u32 (position log i) /\ 0 < position log i.
Proof.
  intros St E. destruct (entry_bytes c log i e St E) as (pre & post & _ & _ & Hz). pose proof (zlen_nonneg post). pose proof (position_pos log i).
  pose proof (st_u32 _ _ St). pose proof (image_u32 _ _ _ _ St E). unfold is_u32. lia.
Qed.

Lemma val_ptr_at c t V i : rep c V -> is_Some (v_log V !! i) -> val_ptr (position (v_log V) i) (mk_cdb c t) = Ret (vpos (v_log V) i, mk_cdb c t).
Proof. intros R [e E]. rewrite (val_ptr_rep c t V i e R E). unfold vpos. by rewrite E. Qed.

(** Reading and writing the words of a value. *)
Lemma rd_fields c t V i n a b : rep c V -> key_link (v_log V) n i a b ->
  rd_val (vpos (v_log V) i) COUNT_TO_USE (mk_cdb c t) = Ret (n, mk_cdb c t) /\
  rd_val (vpos (v_log V) i) NEXT_HKV_POS (mk_cdb c t) = Ret (a, mk_cdb c t) /\
  rd_val (vpos (v_log V) i) LAST_HKV_POS (mk_cdb c t) = Ret (b, mk_cdb c t).
Proof.
  intros R L. pose proof L as (_ & Un & Ua & Ub). destruct (key_link_some _ _ _ _ _ L) as (e & E & Ev). unfold vpos. rewrite E. unfold list_val in Ev. split_and!.
  - exact (rd_val_rep c t V i e [] n (bytes32 a ++ bytes32 b) R E Ev Un).
  - exact (rd_val_rep c t V i e (bytes32 n) a (bytes32 b) R E Ev Ua).
  - refine (rd_val_rep c t V i e (bytes32 n ++ bytes32 a) b [] R E _ Ub). by rewrite app_nil_r, <-(assoc_L (++)).
Qed.

Lemma wr_word c t V i e x w y v f : rep c V -> v_log V !! i = Some e -> e_val e = x ++ w ++ y -> length w = 4%nat -> f = zlen x ->
  exists c', wr_val (vpos (v_log V) i) f v (mk_cdb c t) = Ret (tt, mk_cdb c' t) /\ rep c' (with_value i (x ++ bytes32 v ++ y) V).
Proof. intros R E Ev Hw Hf. apply (wr_val_rep c t V i e x w y v (vpos (v_log V) i) f R E Ev Hw); [|done]. unfold vpos. by rewrite E. Qed.

Lemma wr_fields c t V i n a b v : rep c V -> e_val <$> v_log V !! i = Some (list_val n a b) ->
  (exists c', wr_val (vpos (v_log V) i) COUNT_TO_USE v (mk_cdb c t) = Ret (tt, mk_cdb c' t) /\ rep c' (with_value i (list_val v a b) V)) /\
  (exists c', wr_val (vpos (v_log V) i) NEXT_HKV_POS v (mk_cdb c t) = Ret (tt, mk_cdb c' t) /\ rep c' (with_value i (list_val n v b) V)) /\
  (exists c', wr_val (vpos (v_log V) i) LAST_HKV_POS v (mk_cdb c t) = Ret (tt, mk_cdb c' t) /\ rep c' (with_value i (list_val n a v) V)).
Proof.
  intros R Ev. destruct (v_log V !! i) as [e|] eqn:E; [|done]. injection Ev as Ev. unfold list_val in Ev. split_and!.
  - exact (wr_word c t V i e [] (bytes32 n) (bytes32 a ++ bytes32 b) v _ R E Ev eq_refl eq_refl).
  - exact (wr_word c t V i e (bytes32 n) (bytes32 a) (bytes32 b) v _ R E Ev eq_refl eq_refl).
  - destruct (wr_word c t V i e (bytes32 n ++ bytes32 a) (bytes32 b) [] v LAST_HKV_POS R E) as (c' & W & R'); [by rewrite app_nil_r, <-(assoc_L (++))|done|done|].
    exists c'. split; [done|]. by rewrite app_nil_r, <-(assoc_L (++)) in R'.
Qed.

(** The three words of a new value. *)
Lemma wr_list c t V i e n a b : rep c V -> v_log V !! i = Some e -> zlen (e_val e) = SXE_CDB_HKV_LIST_BYTES ->
  exists c1 c2 c', wr_val (vpos (v_log V) i) COUNT_TO_USE n (mk_cdb c t) = Ret (tt, mk_cdb c1 t) /\
    wr_val (vpos (v_log V) i) NEXT_HKV_POS a (mk_cdb c1 t) = Ret (tt, mk_cdb c2 t) /\
    wr_val (vpos (v_log V) i) LAST_HKV_POS b (mk_cdb c2 t) = Ret (tt, mk_cdb c' t) /\ rep c' (with_value i (list_val n a b) V).
Proof.
  intros R E Hz. change SXE_CDB_HKV_LIST_BYTES with 12 in Hz. unfold zlen in Hz.
  set (w0 := take 4 (e_val e)). set (w1 := take 4 (drop 4 (e_val e))). set (w2 := drop 8 (e_val e)).
  assert (Ev : e_val e = w0 ++ w1 ++ w2) by (unfold w0, w1, w2; change 8%nat with (4 + 4)%nat; rewrite <-drop_drop, !take_drop; done).
  assert (L0 : length w0 = 4%nat) by (unfold w0; rewrite length_take; lia). assert (L1 : length w1 = 4%nat) by (unfold w1; rewrite length_take, length_drop; lia).
  assert (L2 : length w2 = 4%nat) by (unfold w2; rewrite length_drop; lia).
  destruct (wr_word c t V i e [] w0 (w1 ++ w2) n COUNT_TO_USE R E Ev L0 eq_refl) as (c1 & W1 & R1). exists c1.
  assert (Sh : forall v, zlen v = 12 -> same_shape (v_log V) (set_val i v (v_log V))) by (intros v Hv; apply (shape_set_val _ _ e); [done|unfold zlen in *; lia]).
  assert (E1 : v_log (with_value i ([] ++ bytes32 n ++ w1 ++ w2) V) !! i = Some (with_val ([] ++ bytes32 n ++ w1 ++ w2) e)) by (cbn [with_value v_log]; by rewrite set_val_same, E).
  destruct (wr_word c1 t _ i _ (bytes32 n) w1 w2 a NEXT_HKV_POS R1 E1 eq_refl L1 eq_refl) as (c2 & W2 & R2). rewrite with_value_twice in R2. exists c2.
  assert (E2 : v_log (with_value i (bytes32 n ++ bytes32 a ++ w2) V) !! i = Some (with_val (bytes32 n ++ bytes32 a ++ w2) e)) by (cbn [with_value v_log]; by rewrite set_val_same, E).
  destruct (wr_word c2 t _ i _ (bytes32 n ++ bytes32 a) w2 [] b LAST_HKV_POS R2 E2) as (c3 & W3 & R3); [cbn [with_val e_val]; by rewrite app_nil_r, <-(assoc_L (++))|done|done|].
  rewrite with_value_twice, app_nil_r, <-(assoc_L (++)) in R3. exists c3. split; [done|]. cbn [with_value v_log] in W2, W3.
  destruct (Sh ([] ++ bytes32 n ++ w1 ++ w2)) as (_ & P1 & _); [unfold zlen; rewrite !length_app, L1, L2; done|].
  destruct (Sh (bytes32 n ++ bytes32 a ++ w2)) as (_ & P2 & _); [unfold zlen; rewrite !length_app, L2; done|]. rewrite P1 in W2. rewrite P2 in W3. done.
Qed.

(** ** Steps of a view whose entries have given places *)

Section Shaped.
Context (pos vp : nat -> Z) (key_of : nat -> option (list Z)).

Definition shaped log : Prop := (forall i, position log i = pos i) /\ (forall i, vpos log i = vp i) /\ (forall i, e_key <$> log !! i = key_of i).
Definition reps c V : Prop := rep c V /\ shaped (v_log V).

Lemma shaped_same log log' : same_shape log log' -> shaped log -> shaped log'.
Proof. intros (A1 & A2 & A3) (B1 & B2 & B3). split_and!; intros i; [by rewrite A1|by rewrite A2|by rewrite A3]. Qed.

Lemma pos_u32 c V i : reps c V -> is_Some (v_log V !! i) -> is_u32 (pos i) /\ 0 < pos i.
Proof. intros [R [Sp _]] [e E]. rewrite <-Sp. by apply (position_u32 c (v_log V) i e); [apply R|]. Qed.
Lemma pos_inj c V i j : reps c V -> is_Some (v_log V !! i) -> is_Some (v_log V !! j) -> pos i = pos j -> i = j.
Proof. intros [R [Sp _]] [e E] [f F]. rewrite <-!Sp. by apply (position_inj c (v_log V) i j e f); [apply R| |]. Qed.
Lemma pos_NoDup c V ks : reps c V -> NoDup ks -> (forall i, i ∈ ks -> is_Some (v_log V !! i)) -> NoDup (pos <$> ks).
Proof. intros R Nd Hk. apply NoDup_fmap_2_strong; [|done]. intros i j Hi Hj E. by apply (pos_inj c V i j R (Hk i Hi) (Hk j Hj)). Qed.

Lemma ptr_step c t V i : reps c V -> is_Some (v_log V !! i) -> val_ptr (pos i) (mk_cdb c t) = Ret (vp i, mk_cdb c t).
Proof. intros [R (Sp & Sv & _)] Hi. rewrite <-Sp, <-Sv. by apply val_ptr_at. Qed.
Lemma rd_step c t V n i a b : reps c V -> key_link (v_log V) n i a b ->
  rd_val (vp i) COUNT_TO_USE (mk_cdb c t) = Ret (n, mk_cdb c t) /\ rd_val (vp i) NEXT_HKV_POS (mk_cdb c t) = Ret (a, mk_cdb c t) /\
  rd_val (vp i) LAST_HKV_POS (mk_cdb c t) = Ret (b, mk_cdb c t).
Proof. intros [R (_ & Sv & _)] L. rewrite <-Sv. by apply rd_fields. Qed.

Lemma reps_value c V i n a b n' a' b' : shaped (v_log V) -> e_val <$> v_log V !! i = Some (list_val n a b) ->
  rep c (with_value i (list_val n' a' b') V) -> reps c (with_value i (list_val n' a' b') V).
Proof. intros Sh E R. split; [done|]. apply (shaped_same (v_log V)); [|done]. by apply (shape_list_val _ _ n a b). Qed.
Lemma wr_step c t V n i a b v : reps c V -> key_link (v_log V) n i a b ->
  (exists c', wr_val (vp i) COUNT_TO_USE v (mk_cdb c t) = Ret (tt, mk_cdb c' t) /\ reps c' (with_value i (list_val v a b) V)) /\
  (exists c', wr_val (vp i) NEXT_HKV_POS v (mk_cdb c t) = Ret (tt, mk_cdb c' t) /\ reps c' (with_value i (list_val n v b) V)) /\
  (exists c', wr_val (vp i) LAST_HKV_POS v (mk_cdb c t) = Ret (tt, mk_cdb c' t) /\ reps c' (with_value i (list_val n a v) V)).
Proof.
  intros [R Sh] [E _]. pose proof Sh as (_ & Sv & _). rewrite <-Sv. destruct (wr_fields c t V i n a b v R E) as ((c1 & W1 & R1) & (c2 & W2 & R2) & (c3 & W3 & R3)).
  split_and!; [exists c1|exists c2|exists c3]; (split; [done|]); by apply (reps_value _ V i n a b).
Qed.
Lemma wr_list_step c t V i e n a b : reps c V -> v_log V !! i = Some e -> zlen (e_val e) = SXE_CDB_HKV_LIST_BYTES ->
  exists c1 c2 c', wr_val (vp i) COUNT_TO_USE n (mk_cdb c t) = Ret (tt, mk_cdb c1 t) /\
    wr_val (vp i) NEXT_HKV_POS a (mk_cdb c1 t) = Ret (tt, mk_cdb c2 t) /\
    wr_val (vp i) LAST_HKV_POS b (mk_cdb c2 t) = Ret (tt, mk_cdb c' t) /\ reps c' (with_value i (list_val n a b) V).
Proof.
  intros [R Sh] E Hz. pose proof Sh as (_ & Sv & _). rewrite <-Sv. destruct (wr_list c t V i e n a b R E Hz) as (c1 & c2 & c' & W1 & W2 & W3 & R').
  exists c1, c2, c'. do 3 (split; [done|]). split; [done|]. apply (shaped_same (v_log V)); [|done]. apply (shape_set_val _ _ e); [done|]. by rewrite zlen_list_val.
Qed.
Lemma node_step c t V n f : reps c V -> n ∈ v_used V ->
  exists c', upd_count n f (mk_cdb c t) = Ret (tt, mk_cdb c' t) /\ reps c' (with_node n (f (v_cn V n)) V).
Proof. intros [R Sh] Hn. destruct (rep_upd_count c t V n f R Hn) as (c' & W & R'). exists c'. done. Qed.
Lemma read_step c t V n : reps c V -> n ∈ v_used V -> rd_count n (mk_cdb c t) = Ret (v_cn V n, mk_cdb c t).
Proof. intros [R _]. by apply rep_count. Qed.
Lemma lo_step c t V l n : reps c V -> 0 <= l < zlen (v_lo V) -> exists c', wr_lo l n (mk_cdb c t) = Ret (tt, mk_cdb c' t) /\ reps c' (with_lo l n V).
Proof. intros [R Sh] Hl. destruct (wr_lo_rep c t V l n R Hl) as (c' & W & R'). exists c'. done. Qed.
Lemma hi_step c t V l n : reps c V -> 0 <= l < zlen (v_hi V) -> exists c', wr_hi l n (mk_cdb c t) = Ret (tt, mk_cdb c' t) /\ reps c' (with_hi l n V).
Proof. intros [R Sh] Hl. destruct (wr_hi_rep c t V l n R Hl) as (c' & W & R'). exists c'. done. Qed.

(** ** Keys leave and enter a chain *)

Definition with_log (log : list entry) V : view := mk_view (v_cn V) log (v_lo V) (v_hi V) (v_used V) (v_free V).

Lemma chain_keys log n p ks q i : chain pos (key_link log n) p ks q -> i ∈ ks -> is_Some (log !! i).
Proof.
  intros C Hi. apply list_elem_of_split in Hi as (a & b & ->). apply chain_mid in C as (_ & L & _). apply key_link_some in L as (e & E & _). by exists e.
Qed.
Lemma chain_NoDup c V n p ks q : reps c V -> NoDup ks -> chain pos (key_link (v_log V) n) p ks q -> NoDup (pos <$> ks).
Proof. intros R Nd C. apply (pos_NoDup c V); [done..|]. intros i Hi. by apply (chain_keys _ n p ks q). Qed.

(** A key whose value is stored again, with other links, in a log; the others' links are the same. *)
Lemma key_link_set log n i a b n' a' b' : key_link log n i a b -> is_u32 n' -> is_u32 a' -> is_u32 b' -> key_link (set_val i (list_val n' a' b') log) n' i a' b'.
Proof. intros L Hn Ha Hb. destruct (key_link_some _ _ _ _ _ L) as (e & E & _). split; [|done]. by apply val_set_same. Qed.
Lemma key_link_other log n i j v a b : i <> j -> key_link (set_val i v log) n j a b <-> key_link log n j a b.
Proof. intros Hne. unfold key_link. by rewrite set_val_other. Qed.
Lemma key_link_inj log n i a b a' b' : key_link log n i a b -> key_link log n i a' b' -> a = a' /\ b = b'.
Proof.
  intros [E1 (_ & A1 & B1)] [E2 (Hn & A2 & B2)]. rewrite E1 in E2. apply (inj Some) in E2 as E. unfold list_val in E.
  apply bytes32_inj in E as [_ E]; [|done..]. apply bytes32_inj in E as [-> E]; [|done..].
  apply (f_equal (fun l => l ++ [])) in E. by apply bytes32_inj in E as [-> _].
Qed.

Lemma relink_first_run c t V n p p' b q : reps c V -> NoDup b -> is_u32 p' -> chain pos (key_link (v_log V) n) p b q ->
  exists c' log', (let next_hkv_pos := first pos b 0 in
      if negb (next_hkv_pos =? SXE_CDB_HKV_POS_NONE) then
        next_val_ptr ← val_ptr next_hkv_pos;
        (if debug then l ← rd_val next_val_ptr LAST_HKV_POS; assert_6 (l =? p) else mret tt);;
        wr_val next_val_ptr LAST_HKV_POS p'
      else mret tt) (mk_cdb c t) = Ret (tt, mk_cdb c' t) /\ reps c' (with_log log' V) /\
    chain pos (key_link log' n) p' b q /\ forall j, j ∉ b -> log' !! j = v_log V !! j.
Proof.
  intros R Nd Hp C. destruct b as [|j b]; cbn [first].
  { exists c, (v_log V). split; [done|]. by destruct V. }
  pose proof C as [L _]. pose proof (chain_keys _ _ _ _ _ j C ltac:(left)) as Hj.
  destruct (pos_u32 c V j R Hj) as [_ Hpos]. destruct (Z.eqb_spec (pos j) SXE_CDB_HKV_POS_NONE) as [Hz|_]; [change SXE_CDB_HKV_POS_NONE with 0 in Hz; lia|].
  cbn [negb]. step_by (ptr_step c t V j R Hj). destruct (rd_step c t V n j _ _ R L) as (_ & _ & Rl).
  assert (Dbg : (if debug then l ← rd_val (vp j) LAST_HKV_POS; assert_6 (l =? p) else mret tt) (mk_cdb c t) = Ret (tt, mk_cdb c t)).
  { destruct debug; [|done]. step_by Rl. apply assert_6_true. apply Z.eqb_refl. }
  step_by Dbg. destruct (wr_step c t V n j _ _ p' R L) as (_ & _ & c' & W & R'). eexists c', _. split; [exact W|]. split; [exact R'|]. split.
  - apply (chain_relink_start pos (key_link (v_log V) n) _ p); [by apply (chain_NoDup c V n p _ q)| |done].
    intros x a d Hx Hl. cbn [first]. case_decide as Ep; [|apply key_link_other; [by intros ->|done]].
    assert (x = j) as -> by (apply (pos_inj c V x j R); [by apply (chain_keys _ n p (j :: b) q)|done|done]).
    destruct (key_link_inj _ _ _ _ _ _ _ Hl L) as [-> _]. apply (key_link_set _ n j _ _ _ _ _ L); [apply L|apply L|done].
  - intros i Hi. apply set_val_other. intros ->. apply Hi. left.
Qed.

Lemma relink_last_run c t V n p a q q' : reps c V -> NoDup a -> is_u32 q' -> chain pos (key_link (v_log V) n) p a q ->
  exists c' log', (let last_hkv_pos := final pos a 0 in
      if negb (last_hkv_pos =? SXE_CDB_HKV_POS_NONE) then
        last_val_ptr ← val_ptr last_hkv_pos;
        (if debug then n ← rd_val last_val_ptr NEXT_HKV_POS; assert_6 (n =? q) else mret tt);;
        wr_val last_val_ptr NEXT_HKV_POS q'
      else mret tt) (mk_cdb c t) = Ret (tt, mk_cdb c' t) /\ reps c' (with_log log' V) /\
    chain pos (key_link log' n) p a q' /\ forall j, j ∉ a -> log' !! j = v_log V !! j.
Proof.
  intros R Nd Hp C. destruct a as [|j a _] using rev_ind.
  { exists c, (v_log V). split; [done|]. by destruct V. }
  rewrite final_app. cbn [final]. pose proof C as C'. apply chain_mid in C' as (_ & L & _). cbn [first] in L.
  pose proof (chain_keys _ _ _ _ _ j C ltac:(set_solver)) as Hj.
  destruct (pos_u32 c V j R Hj) as [_ Hpos]. destruct (Z.eqb_spec (pos j) SXE_CDB_HKV_POS_NONE) as [Hz|_]; [change SXE_CDB_HKV_POS_NONE with 0 in Hz; lia|].
  cbn [negb]. step_by (ptr_step c t V j R Hj). destruct (rd_step c t V n j _ _ R L) as (_ & Rl & _).
  assert (Dbg : (if debug then n ← rd_val (vp j) NEXT_HKV_POS; assert_6 (n =? q) else mret tt) (mk_cdb c t) = Ret (tt, mk_cdb c t)).
  { destruct debug; [|done]. step_by Rl. apply assert_6_true. apply Z.eqb_refl. }
  step_by Dbg. destruct (wr_step c t V n j _ _ q' R L) as (_ & (c' & W & R') & _). eexists c', _. split; [exact W|]. split; [exact R'|]. split.
  - apply (chain_relink_end pos (key_link (v_log V) n) _ p _ q); [by apply (chain_NoDup c V n p _ q)| |done].
    intros x x1 x2 Hx Hl. rewrite final_app. cbn [final]. case_decide as Ep; [|apply key_link_other; [by intros ->|done]].
    assert (x = j) as -> by (apply (pos_inj c V x j R); [by apply (chain_keys _ n p (a ++ [j]) q)|done|done]).
    destruct (key_link_inj _ _ _ _ _ _ _ Hl L) as [_ ->]. apply (key_link_set _ n j _ _ _ _ _ L); [apply L|done|apply L].
  - intros i Hi. apply set_val_other. intros ->. apply Hi. set_solver.
Qed.

(** The key [i] leaves the keys with its count. *)
Lemma remove_key_run c t V n a i b : reps c V -> NoDup (a ++ i :: b) -> chain pos (key_link (v_log V) n) 0 (a ++ i :: b) 0 ->
  exists c' log', remove_from_chain (pos i) (first pos b 0) (final pos a 0) (mk_cdb c t) = Ret (tt, mk_cdb c' t) /\ reps c' (with_log log' V) /\
    chain pos (key_link log' n) 0 (a ++ b) 0 /\ (forall j, j ∉ a ++ b -> log' !! j = v_log V !! j).
Proof.
  intros R Nd C. apply chain_mid in C as (Ca & L & Cb). apply NoDup_app in Nd as (Na & Nab & [Nib Nb]%NoDup_cons).
  destruct (relink_first_run c t V n (pos i) (final pos a 0) b 0 R Nb ltac:(apply L) Cb) as (c1 & log1 & R1 & Rp1 & Cb1 & O1).
  assert (Ca1 : chain pos (key_link log1 n) 0 a (pos i)).
  { apply (chain_impl pos (key_link (v_log V) n)); [|done]. intros x x1 x2 Hx. unfold key_link. rewrite O1; [done|]. specialize (Nab x Hx). set_solver. }
  destruct (relink_last_run c1 t (with_log log1 V) n 0 a (pos i) (first pos b 0) Rp1 Na ltac:(apply L) Ca1) as (c2 & log2 & R2 & Rp2 & Ca2 & O2).
  cbn [v_log with_log] in O2. exists c2, log2. split; [|split; [exact Rp2|split]].
  - unfold remove_from_chain. step_by R1. exact R2.
  - apply chain_app. split; [done|]. apply (chain_impl pos (key_link log1 n)); [|done]. intros x x1 x2 Hx. unfold key_link. rewrite O2; [done|].
    intros Hx'. specialize (Nab x Hx'). set_solver.
  - intros j Hj. rewrite O2 by set_solver. apply O1. set_solver.
Qed.

(** The key [i] becomes the first of the keys with a count, when the first key before and [i] were stored. *)
Lemma push_chain log n i j ks x : i <> j -> is_u32 n -> is_u32 (pos i) -> is_u32 (pos j) -> NoDup (pos <$> j :: ks) -> is_Some (log !! i) ->
  i ∉ ks -> chain pos (key_link log n) 0 (j :: ks) 0 ->
  x = list_val n (first pos ks 0) (pos i) ->
  chain pos (key_link (set_val j x (set_val i (list_val n (pos j) 0) log)) n) 0 (i :: j :: ks) 0.
Proof.
  intros Hne Un Ui Uj Nd Hi Hnot [L C] ->. cbn in Nd. apply NoDup_cons in Nd as [Nj Nd]. split; [|split].
  - apply key_link_other; [done|]. split; [by apply val_set_same|]. by split_and!.
  - split; [|by split_and!; [done|apply L|done]]. apply val_set_same. rewrite set_val_other by done. destruct (key_link_some _ _ _ _ _ L) as (e & E & _). by exists e.
  - apply (chain_impl pos (key_link log n)); [|done]. intros y a b Hy. rewrite !key_link_other; [done| |].
    + intros ->. done.
    + intros ->. apply Nj. by apply list_elem_of_fmap_2.
Qed.

(** ** The ways through sxe_cdb_instance_inc *)

(** One list of a view: its groups [gs], and the nodes [Rn] of the others. *)
Record focus (l : Z) V (gs : list group) (Rn : list Z) : Prop := {
  fc_counted : counted pos (v_cn V) (v_log V) gs (v_lo V !!! Z.to_nat l) (v_hi V !!! Z.to_nat l);
  fc_used : v_used V ≡ₚ nodes gs ++ Rn;
  fc_keys : NoDup (keys_in gs);
  fc_lo : 0 <= l < zlen (v_lo V);
  fc_hi : 0 <= l < zlen (v_hi V)
}.

(** The list becomes [gs'], and nothing else changes but the values of the entries [ks]. *)
Record steps_to (l : Z) V V' (gs' : list group) (Rn : list Z) (ks : list nat) : Prop := {
  sp_counted : counted pos (v_cn V') (v_log V') gs' (v_lo V' !!! Z.to_nat l) (v_hi V' !!! Z.to_nat l);
  sp_lo : length (v_lo V') = length (v_lo V) /\ forall k, k <> Z.to_nat l -> v_lo V' !!! k = v_lo V !!! k;
  sp_hi : length (v_hi V') = length (v_hi V) /\ forall k, k <> Z.to_nat l -> v_hi V' !!! k = v_hi V !!! k;
  sp_cn : forall n, n ∈ Rn -> v_cn V' n = v_cn V n;
  sp_log : forall j, j ∉ ks -> v_log V' !! j = v_log V !! j;
  sp_used : v_used V' ≡ₚ nodes gs' ++ Rn
}.

Lemma focus_NoDup c l V gs Rn : reps c V -> focus l V gs Rn -> NoDup (nodes gs ++ Rn) /\ Forall (fun n => 0 < n < 268435456) (nodes gs ++ Rn).
Proof.
  intros [R _] F. pose proof (rp_alloc _ _ R) as Al. pose proof (al_nodup _ _ _ Al) as Nd. pose proof (al_range _ _ _ Al) as Rg. pose proof (size_u32 _ _ _ Al).
  rewrite (fc_used _ _ _ _ F) in Nd, Rg. apply NoDup_app in Nd as [Nd _]. apply Forall_app in Rg as [Rg _]. split; [done|]. eapply Forall_impl; [exact Rg|]. cbn. lia.
Qed.
Lemma in_used l V gs Rn n : focus l V gs Rn -> n ∈ nodes gs -> n ∈ v_used V.
Proof. intros F Hn. rewrite (fc_used _ _ _ _ F). set_solver. Qed.

Context `{!MapLaw}.
Lemma pop_step c t V : reps c V ->
  match sxe_cdb_instance_free_count_pop (mk_cdb c t) with
  | Ret (n, st) => exists c' free' x, st = mk_cdb c' t /\ (n ∉ v_used V) /\ 0 < n < 268435456 /\ reps c' (with_node n x (with_nodes (n :: v_used V) free' V))
  | Abort => no_map (v_used V)
  | Fault => False
  end.
Proof.
  intros [R Sh]. pose proof (pop_rep c t V R) as Hp. destruct (sxe_cdb_instance_free_count_pop (mk_cdb c t)) as [[n st]| |]; [|done..].
  destruct Hp as (c' & free' & x & -> & Hn & Hr & R'). by exists c', free', x.
Qed.

Lemma lo_at l V gs Rn v : focus l V gs Rn -> <[Z.to_nat l := v]> (v_lo V) !!! Z.to_nat l = v.
Proof. intros F. pose proof (fc_lo _ _ _ _ F) as Hl. unfold zlen in Hl. apply list_lookup_total_insert_eq. lia. Qed.
Lemma hi_at l V gs Rn v : focus l V gs Rn -> <[Z.to_nat l := v]> (v_hi V) !!! Z.to_nat l = v.
Proof. intros F. pose proof (fc_hi _ _ _ _ F) as Hl. unfold zlen in Hl. apply list_lookup_total_insert_eq. lia. Qed.

(** A new value for a key that no list has yet. *)
Lemma new_key_link c V i e n a b : reps c V -> v_log V !! i = Some e -> is_u32 n -> is_u32 a -> is_u32 b -> key_link (set_val i (list_val n a b) (v_log V)) n i a b.
Proof. intros R E Hn Ha Hb. split; [|done]. apply val_set_same. by exists e. Qed.

(** A new node is taken for the key [i], whose words are stored. *)
Record new_node (i : nat) V (n : Z) V' : Prop := {
  nn_fresh : n ∉ v_used V;
  nn_range : 0 < n < 268435456;
  nn_used : v_used V' = n :: v_used V;
  nn_log : v_log V' = set_val i (list_val n 0 0) (v_log V);
  nn_lo : v_lo V' = v_lo V;
  nn_hi : v_hi V' = v_hi V;
  nn_cn : forall m, m <> n -> v_cn V' m = v_cn V m
}.
Lemma new_node_run c t V i e : reps c V -> v_log V !! i = Some e -> zlen (e_val e) = SXE_CDB_HKV_LIST_BYTES ->
  match sxe_cdb_instance_free_count_pop (mk_cdb c t) with
  | Ret (n, st) => exists c0 c1 c2 c3 V3, st = mk_cdb c0 t /\
      wr_val (vp i) COUNT_TO_USE n (mk_cdb c0 t) = Ret (tt, mk_cdb c1 t) /\
      wr_val (vp i) NEXT_HKV_POS SXE_CDB_HKV_POS_NONE (mk_cdb c1 t) = Ret (tt, mk_cdb c2 t) /\
      wr_val (vp i) LAST_HKV_POS SXE_CDB_HKV_POS_NONE (mk_cdb c2 t) = Ret (tt, mk_cdb c3 t) /\ reps c3 V3 /\ new_node i V n V3
  | Abort => no_map (v_used V)
  | Fault => False
  end.
Proof.
  intros R E Hz. pose proof (pop_step c t V R) as Hp. destruct (sxe_cdb_instance_free_count_pop (mk_cdb c t)) as [[n st]| |]; [|done..].
  destruct Hp as (c0 & free' & x & -> & Hn & Hr & R0). set (V0 := with_node n x _) in *.
  destruct (wr_list_step c0 t V0 i e n 0 0 R0 E Hz) as (c1 & c2 & c3 & W1 & W2 & W3 & R3).
  exists c0, c1, c2, c3, (with_value i (list_val n 0 0) V0). do 4 (split; [done|]). split; [exact R3|]. split; try done.
  intros m Hm. cbn. by rewrite fn_lookup_insert_ne.
Qed.

(** Lists of nodes: the cell of [n] is as given, those of the others are as they were but for links. *)
Ltac at_node n := cbn [v_cn with_hi with_lo with_node]; rewrite ?(fn_lookup_insert _ n); unfold set_hkv1, set_last, set_next, set_count; cbn [count next last hkv1].
Ltac begin_new_node c t V i e R E Hz Ep Fr Rn n cn Vn :=
  pose proof (new_node_run c t V i e R E Hz) as Hp; destruct (sxe_cdb_instance_free_count_pop (mk_cdb c t)) as [[n st]| |] eqn:Ep;
  [destruct Hp as (c0 & c1 & c2 & cn & Vn & -> & W1 & W2 & W3 & Rn & Fr); step_by Ep; step_by W1; step_by W2; step_by W3
  |unfold mbind at 1, cmd_bind at 1; rewrite Ep; exact Hp|done].

Lemma add_first_run c t l V Rn i e : reps c V -> focus l V [] Rn -> v_log V !! i = Some e -> zlen (e_val e) = SXE_CDB_HKV_LIST_BYTES ->
  match add_first_count l (pos i) (vp i) (mk_cdb c t) with
  | Ret (m, st) => exists c' V' n, st = mk_cdb c' t /\ m = 1 /\ reps c' V' /\ steps_to l V V' [mk_group n 1 [i]] Rn [i]
  | Abort => no_map (v_used V)
  | Fault => False
  end.
Proof.
  intros R F E Hz. unfold add_first_count. begin_new_node c t V i e R E Hz Ep Fr R3 n c3 V3. destruct Fr as [Hn Hr Nu Nl Nlo Nhi Nc].
  assert (Un : n ∈ v_used V3) by (rewrite Nu; left).
  destruct (node_step c3 t V3 n (set_count 1) R3 Un) as (c4 & W4 & R4). step_by W4. set (V4 := with_node n _ V3) in *.
  destruct (node_step c4 t V4 n (set_next SXE_CDB_COUNT_NONE) R4 Un) as (c5 & W5 & R5). step_by W5. set (V5 := with_node n _ V4) in *.
  destruct (node_step c5 t V5 n (set_last SXE_CDB_COUNT_NONE) R5 Un) as (c6 & W6 & R6). step_by W6. set (V6 := with_node n _ V5) in *.
  destruct (node_step c6 t V6 n (set_hkv1 (pos i)) R6 Un) as (c7 & W7 & R7). step_by W7. set (V7 := with_node n _ V6) in *.
  destruct (lo_step c7 t V7 l n R7) as (c8 & W8 & R8); [change (v_lo V7) with (v_lo V3); rewrite Nlo; apply F|]. step_by W8. set (V8 := with_lo l n V7) in *.
  destruct (hi_step c8 t V8 l n R8) as (c9 & W9 & R9); [change (v_hi V8) with (v_hi V3); rewrite Nhi; apply F|]. step_by W9. set (V9 := with_hi l n V8) in *.
  exists c9, V9, n. do 2 (split; [done|]). split; [done|].
  assert (Cn : v_cn V9 n = mk_count 1 0 0 (pos i)) by (unfold V9, V8, V7, V6, V5, V4; by at_node n).
  assert (Co : forall m, m <> n -> v_cn V9 m = v_cn V m).
  { intros m Hm. rewrite <-(Nc m Hm). cbn [v_cn V9 V8 V7 V6 V5 V4 with_hi with_lo with_node]. by rewrite !fn_lookup_insert_ne. }
  split; change (v_lo V9) with (<[Z.to_nat l := n]> (v_lo V3)); change (v_hi V9) with (<[Z.to_nat l := n]> (v_hi V3)); change (v_log V9) with (v_log V3);
    change (v_used V9) with (v_used V3); rewrite ?Nlo, ?Nhi, ?Nu, ?Nl.
  - rewrite (lo_at l V [] Rn n F), (hi_at l V [] Rn n F).
    apply (counted_insert pos (v_cn V) _ (v_log V) _ [] n 1 i [] _ _ (fc_counted _ _ _ _ F)); [constructor|exact Cn|set_solver..| |lia|set_solver|set_solver].
    apply (new_key_link c V i e); [done..| | |]; unfold is_u32; lia.
  - split; [apply length_insert|]. intros k Hk. by apply list_lookup_total_insert_ne.
  - split; [apply length_insert|]. intros k Hk. by apply list_lookup_total_insert_ne.
  - intros m Hm. apply Co. intros ->. apply Hn. rewrite (fc_used _ _ _ _ F). set_solver.
  - intros j Hj. apply set_val_other. set_solver.
  - by rewrite (fc_used _ _ _ _ F).
Qed.

Lemma first_node_not_none l V g gs Rn c : reps c V -> focus l V (g :: gs) Rn -> 0 < g_node g < 268435456.
Proof. intros R F. destruct (focus_NoDup c l V _ Rn R F) as [_ Hr]. cbn in Hr. by apply Forall_cons in Hr as [Hr _]. Qed.

Lemma add_lowest_run c t l V g gs Rn i e : reps c V -> focus l V (g :: gs) Rn -> above 1 (g :: gs) -> i ∉ keys_in (g :: gs) ->
  v_log V !! i = Some e -> zlen (e_val e) = SXE_CDB_HKV_LIST_BYTES ->
  match add_lowest_count l (pos i) (vp i) (g_node g) (mk_cdb c t) with
  | Ret (m, st) => exists c' V' n, st = mk_cdb c' t /\ m = 1 /\ reps c' V' /\ steps_to l V V' (mk_group n 1 [i] :: g :: gs) Rn [i]
  | Abort => no_map (v_used V)
  | Fault => False
  end.
Proof.
  intros R F Ab Hk E Hz. destruct (focus_NoDup c l V _ Rn R F) as [Nd Rg]. pose proof (fc_counted _ _ _ _ F) as Ct. pose proof (cd_lo _ _ _ _ _ _ Ct) as Elo. cbn in Elo. unfold id in Elo.
  unfold add_lowest_count. begin_new_node c t V i e R E Hz Ep Fr R3 n c3 V3. destruct Fr as [Hn Hr Nu Nl Nlo Nhi Nc].
  assert (Un : n ∈ v_used V3) by (rewrite Nu; left). assert (Ug : g_node g ∈ v_used V3) by (rewrite Nu; right; apply (in_used l V (g :: gs) Rn); [done|left]).
  assert (Hng : n <> g_node g) by (intros ->; apply Hn, (in_used l V (g :: gs) Rn); [done|left]).
  destruct (node_step c3 t V3 n (set_count 1) R3 Un) as (c4 & W4 & R4). step_by W4. set (V4 := with_node n _ V3) in *.
  step_by (rd_lo_ret c4 t V4 l (proj1 R4) ltac:(change (v_lo V4) with (v_lo V3); rewrite Nlo; apply F)). change (v_lo V4) with (v_lo V3). rewrite Nlo, Elo.
  destruct (node_step c4 t V4 n (set_next (g_node g)) R4 Un) as (c5 & W5 & R5). step_by W5. set (V5 := with_node n _ V4) in *.
  destruct (node_step c5 t V5 n (set_last SXE_CDB_COUNT_NONE) R5 Un) as (c6 & W6 & R6). step_by W6. set (V6 := with_node n _ V5) in *.
  destruct (node_step c6 t V6 n (set_hkv1 (pos i)) R6 Un) as (c7 & W7 & R7). step_by W7. set (V7 := with_node n _ V6) in *.
  destruct (lo_step c7 t V7 l n R7) as (c8 & W8 & R8); [change (v_lo V7) with (v_lo V3); rewrite Nlo; apply F|]. step_by W8. set (V8 := with_lo l n V7) in *.
  destruct (node_step c8 t V8 (g_node g) (set_last n) R8 Ug) as (c9 & W9 & R9). step_by W9. set (V9 := with_node (g_node g) _ V8) in *.
  exists c9, V9, n. do 2 (split; [done|]). split; [done|].
  assert (Cn : v_cn V9 n = mk_count 1 (g_node g) 0 (pos i)).
  { unfold V9. cbn [v_cn with_node]. rewrite fn_lookup_insert_ne by done. unfold V8, V7, V6, V5, V4. by at_node n. }
  assert (C8 : forall m, m <> n -> v_cn V8 m = v_cn V m).
  { intros m Hm. rewrite <-(Nc m Hm). cbn [v_cn V8 V7 V6 V5 V4 with_hi with_lo with_node]. by rewrite !fn_lookup_insert_ne. }
  assert (Co : forall m, m <> n -> v_cn V9 m = if decide (m = g_node g) then set_last n (v_cn V m) else v_cn V m).
  { intros m Hm. unfold V9. cbn [v_cn with_node]. case_decide as Em; [subst; rewrite fn_lookup_insert; by rewrite C8|]. rewrite fn_lookup_insert_ne by done. by apply C8. }
  split; change (v_lo V9) with (<[Z.to_nat l := n]> (v_lo V3)); change (v_hi V9) with (v_hi V3); change (v_log V9) with (v_log V3);
    change (v_used V9) with (v_used V3); rewrite ?Nlo, ?Nhi, ?Nu, ?Nl.
  - rewrite (lo_at l V (g :: gs) Rn n F), (cd_hi _ _ _ _ _ _ Ct). cbn [nodes fmap list_fmap final].
    apply (counted_insert pos (v_cn V) _ (v_log V) _ [] n 1 i (g :: gs) _ _ Ct); [by apply NoDup_app in Nd as [Nd _]|exact Cn|set_solver| | | |lia|set_solver|].
    + intros x Hx. cbn [nodes fmap list_fmap first]. unfold id. apply Co. intros ->. apply Hn. by apply (in_used l V (g :: gs) Rn).
    + intros j Hj. apply set_val_other. intros ->. done.
    + apply (new_key_link c V i e); [done..| | |]; unfold is_u32; lia.
    + intros x Hx. cbn in Ab. pose proof (cd_sorted _ _ _ _ _ _ Ct) as So. apply (sorted_mid [] g gs) in So as (_ & _ & _ & So & _). apply elem_of_cons in Hx as [->|Hx]; [done|].
      specialize (So x Hx). lia.
  - split; [apply length_insert|]. intros k Hk'. by apply list_lookup_total_insert_ne.
  - done.
  - intros m Hm. rewrite Co by (intros ->; apply Hn; rewrite (fc_used _ _ _ _ F); set_solver). rewrite decide_False; [done|]. intros ->.
    apply NoDup_app in Nd as (_ & Nd & _). apply (Nd (g_node g)); [left|done].
  - intros j Hj. apply set_val_other. set_solver.
  - rewrite (fc_used _ _ _ _ F). done.
Qed.

(** The key [i] becomes the first key of a group. *)
Lemma counted_push c V cn' log' pre n m j ks post lo hi i : reps c V -> counted pos (v_cn V) (v_log V) (pre ++ mk_group n m (j :: ks) :: post) lo hi ->
  NoDup (nodes (pre ++ mk_group n m (j :: ks) :: post)) -> NoDup (keys_in (pre ++ mk_group n m (j :: ks) :: post)) -> is_u32 n ->
  i ∉ keys_in (pre ++ mk_group n m (j :: ks) :: post) -> is_Some (v_log V !! i) ->
  cn' n = set_hkv1 (pos i) (v_cn V n) -> (forall x, x <> n -> cn' x = v_cn V x) ->
  (forall x, log' !! x = set_val j (list_val n (first pos ks 0) (pos i)) (set_val i (list_val n (pos j) 0) (v_log V)) !! x) ->
  counted pos cn' log' (pre ++ mk_group n m (i :: j :: ks) :: post) lo hi.
Proof.
  intros R C Nd Nk Un Hi Si Cn Co El. pose proof (cd_groups _ _ _ _ _ _ C) as G. apply Forall_app in G as [_ [G _]%Forall_cons]. destruct G as [G1 G2 G3 G4]. cbn [g_node g_count g_keys] in *.
  destruct (sorted_mid _ _ _ (cd_sorted _ _ _ _ _ _ C)) as (_ & _ & Slo & Shi & _). pose proof (cd_bounds _ _ _ _ _ _ C) as B. apply Forall_app in B as [_ [B _]%Forall_cons].
  rewrite nodes_app in Nd. rewrite keys_in_app, keys_in_cons in Nk, Hi. cbn [g_keys] in Nk, Hi.
  assert (Hij : i <> j) by (intros ->; apply Hi; set_solver). assert (Nj : NoDup (j :: ks)) by (apply NoDup_app in Nk as (_ & _ & Nk); by apply NoDup_app in Nk as [Nk _]).
  apply (counted_replace pos (v_cn V) cn' (v_log V) log' pre (mk_group n m (j :: ks)) _ post lo hi C); try done; try (cbn [g_node]; by rewrite Cn).
  - by rewrite nodes_app.
  - intros x Hx. apply Co. intros ->. apply NoDup_app in Nd as (_ & N1 & [N2 _]%NoDup_cons). rewrite nodes_app in Hx. apply elem_of_app in Hx as [Hx|Hx]; [|done]. apply (N1 n Hx). left.
  - intros x Hx. rewrite keys_in_app in Hx. rewrite El, !set_val_other; [done| |].
    + intros ->. apply Hi. set_solver.
    + intros ->. apply NoDup_app in Nk as (_ & N1 & N2). apply elem_of_app in Hx as [Hx|Hx]; [apply (N1 x Hx); set_solver|]. apply NoDup_app in N2 as (_ & N2 & _). apply (N2 x); [left|done].
  - split; cbn [g_node g_count g_keys]; [by rewrite Cn|by rewrite Cn|done|].
    apply (chain_impl pos (key_link (set_val j (list_val n (first pos ks 0) (pos i)) (set_val i (list_val n (pos j) 0) (v_log V))) n)); [intros x a b _; unfold key_link; by rewrite El|].
    pose proof (chain_keys _ _ _ _ _ j G4 ltac:(left)) as Sj. destruct (pos_u32 c V i R Si) as [Ui _]. destruct (pos_u32 c V j R Sj) as [Uj _].
    apply push_chain; try done; [by apply (chain_NoDup c V n 0 (j :: ks) 0)|]. intros Hx. apply Hi. set_solver.
Qed.

Lemma set_val_comm i j x y log : i <> j -> set_val i x (set_val j y log) = set_val j y (set_val i x log).
Proof.
  intros Hne. apply list_eq. intros k. destruct (decide (k = i)) as [->|]; [|destruct (decide (k = j)) as [->|]].
  - by rewrite set_val_same, !(set_val_other j i), set_val_same by done.
  - by rewrite set_val_other, !set_val_same, set_val_other by done.
  - by rewrite !set_val_other by done.
Qed.

Lemma add_to_lowest_run c t l V n j ks gs Rn i e : reps c V -> focus l V (mk_group n 1 (j :: ks) :: gs) Rn -> i ∉ keys_in (mk_group n 1 (j :: ks) :: gs) ->
  v_log V !! i = Some e -> zlen (e_val e) = SXE_CDB_HKV_LIST_BYTES ->
  exists c' V', add_to_lowest (pos i) (vp i) n (mk_cdb c t) = Ret (1, mk_cdb c' t) /\ reps c' V' /\
    steps_to l V V' (mk_group n 1 (i :: j :: ks) :: gs) Rn (i :: keys_in (mk_group n 1 (j :: ks) :: gs)).
Proof.
  intros R F Hk E Hz. destruct (focus_NoDup c l V _ Rn R F) as [Nd Rg]. pose proof (fc_counted _ _ _ _ F) as Ct. pose proof (first_node_not_none l V _ gs Rn c R F) as Hn. cbn in Hn.
  pose proof (cd_groups _ _ _ _ _ _ Ct) as G. apply Forall_cons in G as [G _]. destruct G as [G1 G2 G3 G4]. cbn [g_node g_count g_keys first] in *.
  assert (Ug : n ∈ v_used V) by (apply (in_used l V _ Rn n F); left). assert (Hij : i <> j) by (intros ->; apply Hk; rewrite keys_in_cons; cbn; set_solver).
  pose proof G4 as [L _]. pose proof (chain_keys _ _ _ _ _ j G4 ltac:(left)) as Sj. destruct (pos_u32 c V j R Sj) as [_ Pj].
  unfold add_to_lowest. step_by (read_step c t V n R Ug). rewrite G1, G2. step_by (assert_6_true (1 =? 1) c t eq_refl). cbv zeta.
  step_by (assert_6_true (negb (SXE_CDB_HKV_POS_NONE =? pos j)) c t ltac:(change SXE_CDB_HKV_POS_NONE with 0; lia)). step_by (ptr_step c t V j R Sj).
  destruct (rd_step c t V n j _ _ R L) as (_ & _ & Rl).
  assert (Dbg : (if debug then l ← rd_val (vp j) LAST_HKV_POS; assert_6 (SXE_CDB_HKV_POS_NONE =? l) else mret tt) (mk_cdb c t) = Ret (tt, mk_cdb c t)).
  { destruct debug; [|done]. step_by Rl. by apply assert_6_true. }
  step_by Dbg. destruct (wr_step c t V n j _ _ (pos i) R L) as (_ & _ & c1 & W1 & R1). step_by W1. set (V1 := with_value j _ V) in *.
  assert (E1 : v_log V1 !! i = Some e) by (cbn [v_log V1 with_value]; by rewrite set_val_other).
  destruct (wr_list_step c1 t V1 i e n (pos j) 0 R1 E1 Hz) as (c2 & c3 & c4 & W2 & W3 & W4 & R4). step_by W2. step_by W3. step_by W4. set (V4 := with_value i _ V1) in *.
  destruct (node_step c4 t V4 n (set_hkv1 (pos i)) R4 Ug) as (c5 & W5 & R5). step_by W5. set (V5 := with_node n _ V4) in *.
  exists c5, V5. split; [done|]. split; [done|]. split; try done.
  - apply (counted_push c V (v_cn V5) (v_log V5) [] n 1 j ks gs _ _ i R Ct); [by apply NoDup_app in Nd as [Nd _]|apply F|unfold is_u32; lia|done|by exists e| | |].
    + cbn [v_cn V5 with_node]. by rewrite fn_lookup_insert.
    + intros x Hx. cbn [v_cn V5 with_node]. by rewrite fn_lookup_insert_ne.
    + intros x. cbn [v_log V5 V4 V1 with_node with_value]. by rewrite set_val_comm.
  - intros x Hx. cbn [v_cn V5 with_node]. rewrite fn_lookup_insert_ne; [done|]. intros <-. apply NoDup_app in Nd as (_ & Nd & _). apply (Nd n); [left|done].
  - intros x Hx. rewrite keys_in_cons in Hx. cbn [v_log V5 V4 V1 with_node with_value]. rewrite !set_val_other; [done| |]; intros ->; apply Hx; cbn; set_solver.
  - apply F.
Qed.

(** An existing key, that is in no group any more, becomes the first key of one. *)
Lemma add_to_count_run c t V pre n m j ks post i n0 a0 b0 lo hi : reps c V ->
  counted pos (v_cn V) (v_log V) (pre ++ mk_group n m (j :: ks) :: post) lo hi ->
  NoDup (nodes (pre ++ mk_group n m (j :: ks) :: post)) -> NoDup (keys_in (pre ++ mk_group n m (j :: ks) :: post)) -> is_u32 n -> n ∈ v_used V ->
  i ∉ keys_in (pre ++ mk_group n m (j :: ks) :: post) -> key_link (v_log V) n0 i a0 b0 ->
  exists c' V', add_to_count (pos i) (vp i) n (mk_cdb c t) = Ret (tt, mk_cdb c' t) /\ reps c' V' /\
    counted pos (v_cn V') (v_log V') (pre ++ mk_group n m (i :: j :: ks) :: post) lo hi /\
    v_lo V' = v_lo V /\ v_hi V' = v_hi V /\ v_used V' = v_used V /\ (forall x, x <> n -> v_cn V' x = v_cn V x) /\
    (forall x, x <> i -> x <> j -> v_log V' !! x = v_log V !! x).
Proof.
  intros R Ct Nd Nk Un Ug Hi Li. pose proof (cd_groups _ _ _ _ _ _ Ct) as G. apply Forall_app in G as [_ [G _]%Forall_cons]. destruct G as [G1 G2 G3 G4]. cbn [g_node g_count g_keys first] in *.
  assert (Hij : i <> j) by (intros ->; apply Hi; rewrite keys_in_app, keys_in_cons; cbn; set_solver).
  pose proof G4 as [L _]. pose proof (chain_keys _ _ _ _ _ j G4 ltac:(left)) as Sj. destruct (key_link_some _ _ _ _ _ Li) as (e & E & Ev).
  destruct (pos_u32 c V i R ltac:(by exists e)) as [Ui _]. destruct (pos_u32 c V j R Sj) as [Uj _]. pose proof Li as (_ & Ua & Ub & Ud).
  unfold add_to_count.
  destruct (wr_step c t V n0 i a0 b0 n R Li) as ((c1 & W1 & R1) & _ & _). step_by W1. set (V1 := with_value i _ V) in *.
  step_by (read_step c1 t V1 n R1 Ug). change (v_cn V1) with (v_cn V). rewrite G2. cbv zeta.
  assert (L1 : key_link (v_log V1) n i a0 b0) by (apply (key_link_set _ _ _ _ _ _ _ _ Li); done).
  destruct (wr_step c1 t V1 n i a0 b0 (pos j) R1 L1) as (_ & (c2 & W2 & R2) & _). step_by W2. unfold V1 in R2. rewrite with_value_twice in R2. set (V2 := with_value i (list_val n (pos j) b0) V) in *.
  assert (L2 : key_link (v_log V2) n i (pos j) b0) by (apply (key_link_set _ _ _ _ _ _ _ _ Li); done).
  destruct (wr_step c2 t V2 n i (pos j) b0 0 R2 L2) as (_ & _ & (c3 & W3 & R3)). step_by W3. unfold V2 in R3. rewrite with_value_twice in R3. set (V3 := with_value i (list_val n (pos j) 0) V) in *.
  assert (Sj3 : is_Some (v_log V3 !! j)) by (cbn [v_log V3 with_value]; by rewrite set_val_other). step_by (ptr_step c3 t V3 j R3 Sj3).
  assert (L3 : key_link (v_log V3) n j (first pos ks 0) 0) by (by apply key_link_other). destruct (rd_step c3 t V3 n j _ _ R3 L3) as (_ & _ & Rl).
  assert (Dbg : (if debug then l ← rd_val (vp j) LAST_HKV_POS; assert_6 (l =? SXE_CDB_HKV_POS_NONE) else mret tt) (mk_cdb c3 t) = Ret (tt, mk_cdb c3 t)).
  { destruct debug; [|done]. step_by Rl. by apply assert_6_true. }
  step_by Dbg. destruct (wr_step c3 t V3 n j _ _ (pos i) R3 L3) as (_ & _ & c4 & W4 & R4). step_by W4. set (V4 := with_value j _ V3) in *.
  destruct (node_step c4 t V4 n (set_hkv1 (pos i)) R4 Ug) as (c5 & W5 & R5). rewrite W5. set (V5 := with_node n _ V4) in *.
  exists c5, V5. split; [done|]. split; [done|]. split_and!; try done.
  - apply (counted_push c V (v_cn V5) (v_log V5) pre n m j ks post _ _ i R Ct Nd Nk Un Hi); [by exists e| | |].
    + cbn [v_cn V5 with_node]. by rewrite fn_lookup_insert.
    + intros x Hx. cbn [v_cn V5 with_node]. by rewrite fn_lookup_insert_ne.
    + done.
  - intros x Hx. cbn [v_cn V5 with_node]. by rewrite fn_lookup_insert_ne.
  - intros x Hx Hx'. cbn [v_log V5 V4 V3 with_node with_value]. by rewrite !set_val_other.
Qed.

(** What a view is after a group for [i] was inserted between [pre] and [post]. *)
Record inserted V V' (pre post : list group) (i : nat) (n m : Z) : Prop := {
  is_counted : counted pos (v_cn V') (v_log V') (pre ++ mk_group n m [i] :: post) (first id (nodes pre) n) (final id (nodes post) n);
  is_fresh : n ∉ v_used V;
  is_used : v_used V' = n :: v_used V;
  is_lo : v_lo V' = v_lo V;
  is_cn : forall x, x <> n -> x ∉ nodes (pre ++ post) -> v_cn V' x = v_cn V x;
  is_log : forall x, x <> i -> v_log V' !! x = v_log V !! x
}.

Lemma add_highest_run c t l V pre i n0 a0 b0 m lo hi : reps c V -> counted pos (v_cn V) (v_log V) pre lo hi -> NoDup (nodes pre) ->
  (forall n, n ∈ nodes pre -> n ∈ v_used V) -> pre <> [] -> 0 <= l < zlen (v_hi V) -> i ∉ keys_in pre -> key_link (v_log V) n0 i a0 b0 ->
  0 < m < 2 ^ 48 -> (forall x, x ∈ pre -> g_count x < m) ->
  match add_highest_count l (pos i) (vp i) (final id (nodes pre) 0) m (mk_cdb c t) with
  | Ret (_, st) => exists c' V' n, st = mk_cdb c' t /\ reps c' V' /\ inserted V V' pre [] i n m /\ v_hi V' = <[Z.to_nat l := n]> (v_hi V)
  | Abort => no_map (v_used V)
  | Fault => False
  end.
Proof.
  intros R Ct Nd Us Ne Hl Hk Li Hm Lo. destruct (key_link_some _ _ _ _ _ Li) as (e & E & Ev). set (this := final id (nodes pre) 0).
  assert (Ht : this ∈ nodes pre).
  { unfold this. destruct (chain_final_mem id (nodes pre) 0) as (x & Hx & ->); [by destruct pre|done]. }
  unfold add_highest_count. assert (Hz : zlen (e_val e) = SXE_CDB_HKV_LIST_BYTES) by (by rewrite Ev, zlen_list_val).
  begin_new_node c t V i e R E Hz Ep Fr R3 n c3 V3. destruct Fr as [Hn Hr Nu Nl Nlo Nhi Nc].
  assert (Un : n ∈ v_used V3) by (rewrite Nu; left). assert (Ut : this ∈ v_used V3) by (rewrite Nu; right; by apply Us). assert (Hnt : n <> this) by (intros ->; by apply Hn, Us).
  destruct (hi_step c3 t V3 l n R3) as (c4 & W4 & R4); [by rewrite Nhi|]. step_by W4. set (V4 := with_hi l n V3) in *.
  destruct (node_step c4 t V4 n (set_count m) R4 Un) as (c5 & W5 & R5). step_by W5. set (V5 := with_node n _ V4) in *.
  destruct (node_step c5 t V5 n (set_next SXE_CDB_COUNT_NONE) R5 Un) as (c6 & W6 & R6). step_by W6. set (V6 := with_node n _ V5) in *.
  destruct (node_step c6 t V6 n (set_last this) R6 Un) as (c7 & W7 & R7). step_by W7. set (V7 := with_node n _ V6) in *.
  destruct (node_step c7 t V7 n (set_hkv1 (pos i)) R7 Un) as (c8 & W8 & R8). step_by W8. set (V8 := with_node n _ V7) in *.
  destruct (node_step c8 t V8 this (set_next n) R8 Ut) as (c9 & W9 & R9). rewrite W9. set (V9 := with_node this _ V8) in *.
  exists c9, V9, n. split; [done|]. split; [done|]. split; [|change (v_hi V9) with (<[Z.to_nat l := n]> (v_hi V3)); by rewrite Nhi].
  assert (Cn : v_cn V9 n = mk_count m 0 this (pos i)).
  { unfold V9. cbn [v_cn with_node]. rewrite fn_lookup_insert_ne by done. unfold V8, V7, V6, V5, V4. at_node n. rewrite Z.mod_small by lia. done. }
  assert (C8 : forall x, x <> n -> v_cn V8 x = v_cn V x).
  { intros x Hx. rewrite <-(Nc x Hx). cbn [v_cn V8 V7 V6 V5 V4 with_hi with_lo with_node]. by rewrite !fn_lookup_insert_ne. }
  assert (Co : forall x, x <> n -> v_cn V9 x = if decide (x = this) then set_next n (v_cn V x) else v_cn V x).
  { intros x Hx. unfold V9. cbn [v_cn with_node]. case_decide as Em; [rewrite Em, fn_lookup_insert; by rewrite C8|]. rewrite fn_lookup_insert_ne by done. by apply C8. }
  split; change (v_log V9) with (v_log V3); change (v_used V9) with (v_used V3); change (v_lo V9) with (v_lo V3); try done.
  - pose proof (counted_insert pos (v_cn V) (v_cn V9) (v_log V) (v_log V3) pre n m i [] lo hi) as CI. rewrite app_nil_r in CI.
    apply CI; clear CI; [done|done|exact Cn| |by intros x ?%elem_of_nil| | |done|done|by intros x ?%elem_of_nil].
    + intros x Hx. apply Co. intros ->. by apply Hn, Us.
    + intros j Hj. rewrite Nl. apply set_val_other. by intros ->.
    + rewrite Nl. apply (new_key_link c V i e); [done..| | |]; unfold is_u32; lia.
  - intros x Hx Hx'. rewrite app_nil_r in Hx'. rewrite Co, decide_False; [done| |done]. by intros ->.
  - intros x Hx. rewrite Nl. apply set_val_other. done.
Qed.

Lemma insert_run c t V pre g post i n0 a0 b0 m lo hi : reps c V -> counted pos (v_cn V) (v_log V) (pre ++ g :: post) lo hi -> NoDup (nodes (pre ++ g :: post)) ->
  (forall n, n ∈ nodes (pre ++ g :: post) -> n ∈ v_used V) -> pre <> [] -> i ∉ keys_in (pre ++ g :: post) -> key_link (v_log V) n0 i a0 b0 ->
  0 < m < 2 ^ 48 -> (forall x, x ∈ pre -> g_count x < m) -> (forall x, x ∈ g :: post -> m < g_count x) ->
  match insert_count (pos i) (vp i) (final id (nodes pre) 0) (g_node g) m (mk_cdb c t) with
  | Ret (_, st) => exists c' V' n, st = mk_cdb c' t /\ reps c' V' /\ inserted V V' pre (g :: post) i n m /\ v_hi V' = v_hi V
  | Abort => no_map (v_used V)
  | Fault => False
  end.
Proof.
  intros R Ct Nd Us Ne Hk Li Hm Lo Hi. destruct (key_link_some _ _ _ _ _ Li) as (e & E & Ev). set (this := final id (nodes pre) 0).
  assert (Ht : this ∈ nodes pre).
  { unfold this. destruct (chain_final_mem id (nodes pre) 0) as (x & Hx & ->); [by destruct pre|done]. }
  pose proof Nd as Nd'. rewrite nodes_app in Nd'. apply NoDup_app in Nd' as (_ & Ndis & _).
  assert (Hgt : g_node g <> this) by (intros Eg; apply (Ndis this Ht); rewrite <-Eg; left).
  assert (Ug : g_node g ∈ v_used V) by (apply Us; rewrite nodes_app; set_solver).
  assert (Utv : this ∈ v_used V) by (apply Us; rewrite nodes_app; set_solver).
  assert (Nx : next (v_cn V this) = g_node g).
  { pose proof (cd_chain _ _ _ _ _ _ Ct) as Cc. rewrite nodes_app in Cc. apply chain_app in Cc as [Cc _]. cbn [first nodes fmap list_fmap] in Cc. unfold this.
    destruct (nodes pre) as [|z zs _] eqn:En using rev_ind; [set_solver|]. rewrite final_app. cbn [final]. unfold id at 1. apply chain_app in Cc as (_ & [Cz _] & _). exact Cz. }
  unfold insert_count. cbv zeta. assert (Hz : zlen (e_val e) = SXE_CDB_HKV_LIST_BYTES) by (by rewrite Ev, zlen_list_val).
  begin_new_node c t V i e R E Hz Ep Fr R3 n c3 V3. destruct Fr as [Hn Hr Nu Nl Nlo Nhi Nc].
  assert (Un : n ∈ v_used V3) by (rewrite Nu; left). assert (Ut : this ∈ v_used V3) by (rewrite Nu; by right). assert (Hnt : n <> this) by (by intros ->).
  assert (Ug3 : g_node g ∈ v_used V3) by (rewrite Nu; by right). assert (Hng : n <> g_node g) by (by intros ->).
  destruct (node_step c3 t V3 n (set_count m) R3 Un) as (c4 & W4 & R4). step_by W4. set (V4 := with_node n _ V3) in *.
  step_by (read_step c4 t V4 this R4 Ut). assert (N4 : next (v_cn V4 this) = g_node g) by (unfold V4; cbn [v_cn with_node]; by rewrite fn_lookup_insert_ne, Nc). rewrite N4.
  destruct (node_step c4 t V4 n (set_next (g_node g)) R4 Un) as (c5 & W5 & R5). step_by W5. set (V5 := with_node n _ V4) in *.
  destruct (node_step c5 t V5 n (set_last this) R5 Un) as (c6 & W6 & R6). step_by W6. set (V6 := with_node n _ V5) in *.
  destruct (node_step c6 t V6 n (set_hkv1 (pos i)) R6 Un) as (c7 & W7 & R7). step_by W7. set (V7 := with_node n _ V6) in *.
  destruct (node_step c7 t V7 this (set_next n) R7 Ut) as (c8 & W8 & R8). step_by W8. set (V8 := with_node this _ V7) in *.
  destruct (node_step c8 t V8 (g_node g) (set_last n) R8 Ug3) as (c9 & W9 & R9). rewrite W9. set (V9 := with_node (g_node g) _ V8) in *.
  exists c9, V9, n. split; [done|]. split; [done|]. split; [|done].
  assert (Cn : v_cn V9 n = mk_count m (g_node g) this (pos i)).
  { unfold V9, V8. cbn [v_cn with_node]. rewrite !fn_lookup_insert_ne by done. unfold V7, V6, V5, V4. at_node n. rewrite Z.mod_small by lia. done. }
  assert (C7 : forall x, x <> n -> v_cn V7 x = v_cn V x).
  { intros x Hx. rewrite <-(Nc x Hx). cbn [v_cn V7 V6 V5 V4 with_node]. by rewrite !fn_lookup_insert_ne. }
  assert (Ct9 : v_cn V9 this = set_next n (v_cn V this)).
  { unfold V9, V8. cbn [v_cn with_node]. rewrite fn_lookup_insert_ne, fn_lookup_insert by done. by rewrite C7. }
  assert (Cg9 : v_cn V9 (g_node g) = set_last n (v_cn V (g_node g))).
  { unfold V9, V8. cbn [v_cn with_node]. rewrite fn_lookup_insert, fn_lookup_insert_ne by done. by rewrite C7. }
  assert (Co : forall x, x <> n -> x <> this -> x <> g_node g -> v_cn V9 x = v_cn V x).
  { intros x Hx1 Hx2 Hx3. unfold V9, V8. cbn [v_cn with_node]. rewrite !fn_lookup_insert_ne by done. by apply C7. }
  assert (Nn : forall x, x ∈ nodes (pre ++ g :: post) -> x <> n) by (intros x Hx ->; by apply Hn, Us). rewrite nodes_app in Nn.
  split; change (v_log V9) with (v_log V3); change (v_used V9) with (v_used V3); change (v_lo V9) with (v_lo V3); try done.
  - apply (counted_insert pos (v_cn V) _ (v_log V) _ pre n m i (g :: post) lo hi); try done.
    + intros x Hx. fold this. case_decide as Ex; [by rewrite Ex|]. apply Co; [apply Nn; set_solver|done|]. intros ->. apply (Ndis (g_node g) Hx). left.
    + intros x Hx. change (first id (nodes (g :: post)) 0) with (g_node g). case_decide as Ex; [by rewrite Ex|]. apply Co; [apply Nn; set_solver| |done]. intros ->. by apply (Ndis this Ht).
    + intros j Hj. rewrite Nl. apply set_val_other. by intros ->.
    + rewrite Nl. apply (new_key_link c V i e); [done..| | |]; unfold is_u32; lia.
  - intros x Hx Hx'. rewrite nodes_app in Hx'. apply Co; [done| |]; intros ->; apply Hx'; set_solver.
  - intros x Hx. rewrite Nl. apply set_val_other. done.
Qed.
End Shaped.
End Inc.
