(* ===== verification/CdbLeave.v ===== *)
(** * CdbLeave: a key leaves the keys with its count (lib-sxe-cdb/sxe-cdb.c, sxe_cdb_instance_inc)

    A list of groups is cut at the group of the key and at the key. The key goes up with its node when it is alone and no count is in its way;
    else it leaves the chain of its keys, and the node goes too when no key is left. *)

From stdpp Require Import functions sorting.
From S2P Require Import Prelude Spinlock Cdb CdbStore CdbPut CdbCount CdbChain CdbView CdbGroups.

Section Inc.
Context `{Build, CdbSystem, !MapLaw}.
Implicit Types (c : SXE_CDB_INSTANCE) (t : TLS) (log : list entry) (V : view).

Section Shaped.
Context (pos vp : nat -> Z) (key_of : nat -> option (list Z)).
Abbreviation reps := (reps pos vp key_of).
Abbreviation focus := (focus pos).
Abbreviation steps_to := (steps_to pos).

(** The group of the key, in the middle of its list. *)
Context (l : Z) (Rn : list Z) (pre post : list group) (n1 m : Z) (a b : list nat) (i : nat).
Abbreviation g1 := (mk_group n1 m (a ++ i :: b)).
Abbreviation gs := (pre ++ g1 :: post).

Record in_middle V : Prop := {
  im_focus : focus l V gs Rn;
  im_count : m + 1 < 2 ^ 48
}.

(** What is known of the group's node and of the key. *)
Record middle V : Prop := {
  mi_chain : chain pos (key_link (v_log V) n1) 0 (a ++ i :: b) 0;
  mi_link : key_link (v_log V) n1 i (first pos b 0) (final pos a 0);
  mi_node : v_cn V n1 = mk_count m (first id (nodes post) 0) (final id (nodes pre) 0) (first pos (a ++ i :: b) 0);
  mi_used : n1 ∈ v_used V;
  mi_nodes : NoDup (nodes gs);
  mi_range : forall n, n ∈ nodes gs -> 0 < n < 268435456;
  mi_keys : NoDup (keys_in gs);
  mi_ab : NoDup (a ++ i :: b);
  mi_pos : forall j, j ∈ a ++ i :: b -> 0 < pos j;
  mi_low : forall x, x ∈ pre -> g_count x < m;
  mi_high : forall x, x ∈ post -> m < g_count x;
  mi_m : 0 < m
}.

Lemma middle_of c V : reps c V -> in_middle V -> middle V.
Proof.
  intros R [F Hm]. destruct (focus_NoDup pos vp key_of c l V gs Rn R F) as [Nd Rg]. pose proof (fc_counted _ _ _ _ _ F) as Ct.
  pose proof (cd_groups _ _ _ _ _ _ Ct) as G. apply Forall_app in G as [_ [G _]%Forall_cons]. destruct G as [G1 G2 G3 G4]. cbn [g_node g_count g_keys] in *.
  destruct (sorted_mid _ _ _ (cd_sorted _ _ _ _ _ _ Ct)) as (_ & _ & Slo & Shi & _). pose proof (cd_bounds _ _ _ _ _ _ Ct) as B. apply Forall_app in B as [_ [B _]%Forall_cons]. cbn in B.
  pose proof (cd_chain _ _ _ _ _ _ Ct) as Cn. rewrite nodes_app in Cn. change (nodes (g1 :: post)) with (n1 :: nodes post) in Cn. apply chain_mid in Cn as (_ & [Cx Cl] & _).
  pose proof (fc_keys _ _ _ _ _ F) as Nk. pose proof Nk as Nk'. rewrite keys_in_app, keys_in_cons in Nk'. apply NoDup_app in Nk' as (_ & _ & Nk'). apply NoDup_app in Nk' as (Nab & _). cbn in Nab.
  apply NoDup_app in Nd as (Nd & _). split; try done.
  - by apply chain_mid in G4 as (_ & L & _).
  - rewrite <-G1, <-Cx, <-Cl, <-G2. by destruct (v_cn V n1).
  - apply (in_used pos l V gs Rn n1 F). rewrite nodes_app. set_solver.
  - intros n Hn. rewrite Forall_forall in Rg. apply Rg. set_solver.
  - intros j Hj. apply (pos_u32 pos vp key_of c V j R). by apply (chain_keys pos (v_log V) n1 0 (a ++ i :: b) 0).
  - lia.
Qed.

(** When the key is the only one with its count. *)
Lemma alone_cases c V : reps c V -> in_middle V ->
  ((first pos (a ++ i :: b) 0 =? pos i) && (first pos b 0 =? SXE_CDB_HKV_POS_NONE) = bool_decide (a ++ b = [])) /\
  (first pos (a ++ b) 0 = if first pos (a ++ i :: b) 0 =? pos i then first pos b 0 else first pos (a ++ i :: b) 0) /\
  (SXE_CDB_HKV_POS_NONE =? first pos (a ++ b) 0) = bool_decide (a ++ b = []).
Proof.
  intros R I. destruct (middle_of c V R I). change SXE_CDB_HKV_POS_NONE with 0.
  destruct a as [|x a']; cbn [app first] in *.
  - rewrite Z.eqb_refl. cbn [andb]. destruct b as [|y b']; cbn [first]; [done|]. pose proof (mi_pos0 y ltac:(set_solver)).
    split_and!; [destruct (Z.eqb_spec (pos y) 0); [lia|done]|done|destruct (Z.eqb_spec 0 (pos y)); [lia|done]].
  - assert (Hne : pos x <> pos i).
    { intros E. apply (pos_inj pos vp key_of c V x i R) in E; [|apply (chain_keys pos (v_log V) n1 0 _ 0 _ mi_chain0); set_solver..].
      subst x. apply NoDup_cons in mi_ab0 as [Hn _]. set_solver. }
    destruct (Z.eqb_spec (pos x) (pos i)); [done|]. pose proof (mi_pos0 x ltac:(set_solver)).
    split_and!; [done|done|destruct (Z.eqb_spec 0 (pos x)); [lia|done]].
Qed.

(** The key goes up with its node. *)
Lemma inc_alone_run c t V : reps c V -> in_middle V -> a ++ b = [] -> above (m + 1) post ->
  exists c' V', upd_count n1 (fun n => set_count (count n + 1) n) (mk_cdb c t) = Ret (tt, mk_cdb c' t) /\ reps c' V' /\
    steps_to l V V' (pre ++ mk_group n1 (m + 1) [i] :: post) Rn (i :: keys_in gs).
Proof.
  intros R I Hab Ha. pose proof (middle_of c V R I) as M. destruct M, I as [F Hm]. apply app_eq_nil in Hab as [Ea Eb].
  destruct (node_step pos vp key_of c t V n1 (fun n => set_count (count n + 1) n) R mi_used0) as (c' & W & R'). set (V' := with_node n1 _ V) in *. exists c', V'. split; [exact W|]. split; [exact R'|].
  assert (Cn : v_cn V' n1 = mk_count (m + 1) (first id (nodes post) 0) (final id (nodes pre) 0) (first pos (a ++ i :: b) 0)).
  { unfold V'. cbn [v_cn with_node]. rewrite fn_lookup_insert, mi_node0. unfold set_count. cbn [count next last hkv1]. rewrite Z.mod_small by lia. done. }
  assert (Co : forall x, x <> n1 -> v_cn V' x = v_cn V x) by (intros x Hx; unfold V'; cbn [v_cn with_node]; by rewrite fn_lookup_insert_ne).
  split; try done.
  - apply (counted_replace pos (v_cn V) _ (v_log V) _ pre g1 (mk_group n1 (m + 1) [i]) post _ _ (fc_counted _ _ _ _ _ F) mi_nodes0 eq_refl).
    + intros x Hx. apply Co. intros ->. rewrite nodes_app in Hx. rewrite (nodes_app pre) in mi_nodes0. apply NoDup_app in mi_nodes0 as (_ & N1 & [N2 _]%NoDup_cons).
      apply elem_of_app in Hx as [Hx|Hx]; [|done]. apply (N1 n1 Hx). left.
    + cbn [g_node]. by rewrite Cn, mi_node0.
    + cbn [g_node]. by rewrite Cn, mi_node0.
    + done.
    + split; cbn [g_node g_count g_keys]; [by rewrite Cn|by rewrite Cn, Ea|done|]. rewrite Ea, Eb in mi_chain0. exact mi_chain0.
    + cbn. lia.
    + intros x Hx. specialize (mi_low0 x Hx). cbn. lia.
    + intros x Hx. cbn. pose proof (cd_sorted _ _ _ _ _ _ (fc_counted _ _ _ _ _ F)) as So. destruct (sorted_mid _ _ _ So) as (_ & Sp & _).
      destruct post as [|g2 post']; [by apply elem_of_nil in Hx|]. cbn in Ha. cbn in Sp. apply StronglySorted_inv in Sp as [_ Sp]. apply elem_of_cons in Hx as [->|Hx]; [done|].
      rewrite Forall_forall in Sp. specialize (Sp (g_count x) ltac:(by apply list_elem_of_fmap_2)). lia.
  - intros x Hx. apply Co. intros ->. destruct (focus_NoDup pos vp key_of c l V gs Rn R F) as [Nd _]. apply NoDup_app in Nd as (_ & Nd & _). apply (Nd n1); [rewrite nodes_app; set_solver|done].
  - change (v_used V') with (v_used V). rewrite (fc_used _ _ _ _ _ F). unfold nodes. by rewrite !fmap_app, !fmap_cons.
Qed.

(** A view in which the key has left the keys with its count. *)
Record unlinked V V' : Prop := {
  ul_node : v_cn V' n1 = mk_count m (first id (nodes post) 0) (final id (nodes pre) 0) (first pos (a ++ b) 0);
  ul_cn : forall x, x <> n1 -> v_cn V' x = v_cn V x;
  ul_lo : v_lo V' = v_lo V;
  ul_hi : v_hi V' = v_hi V;
  ul_used : v_used V' = v_used V;
  ul_chain : chain pos (key_link (v_log V') n1) 0 (a ++ b) 0;
  ul_log : forall j, j ∉ a ++ b -> v_log V' !! j = v_log V !! j
}.

Lemma unlink_run c t V : reps c V -> in_middle V ->
  exists c1 c' V', remove_from_chain (pos i) (first pos b 0) (final pos a 0) (mk_cdb c t) = Ret (tt, mk_cdb c1 t) /\
    (if first pos (a ++ i :: b) 0 =? pos i then upd_count n1 (set_hkv1 (first pos b 0)) else mret tt) (mk_cdb c1 t) = Ret (tt, mk_cdb c' t) /\
    reps c' V' /\ unlinked V V'.
Proof.
  intros R I. pose proof (middle_of c V R I) as M. destruct M. destruct (alone_cases c V R I) as (_ & Ef & _).
  destruct (remove_key_run pos vp key_of c t V n1 a i b R mi_ab0 mi_chain0) as (c1 & log1 & R1 & Rp1 & C1 & O1). set (V1 := with_log log1 V) in *.
  destruct (first pos (a ++ i :: b) 0 =? pos i) eqn:Eh.
  - destruct (node_step pos vp key_of c1 t V1 n1 (set_hkv1 (first pos b 0)) Rp1 mi_used0) as (c2 & W2 & R2). exists c1, c2, (with_node n1 (set_hkv1 (first pos b 0) (v_cn V1 n1)) V1).
    do 3 (split; [done|]). split; try done; cbn [v_cn with_node].
    + rewrite fn_lookup_insert. change (v_cn V1 n1) with (v_cn V n1). rewrite mi_node0, Ef. done.
    + intros x Hx. by rewrite fn_lookup_insert_ne.
  - exists c1, c1, V1. do 3 (split; [done|]). split; try done. change (v_cn V1 n1) with (v_cn V n1). by rewrite mi_node0, Ef.
Qed.

Lemma middle_away V x : middle V -> x ∈ nodes (pre ++ post) -> x <> n1.
Proof.
  intros M Hx ->. pose proof (mi_nodes V M) as Nd. rewrite nodes_app in Nd, Hx. apply NoDup_app in Nd as (_ & N1 & [N2 _]%NoDup_cons).
  apply elem_of_app in Hx as [Hx|Hx]; [|done]. apply (N1 n1 Hx). left.
Qed.
Lemma middle_keys V j : middle V -> j ∈ keys_in (pre ++ post) -> j ∉ a ++ i :: b.
Proof.
  intros M Hj Hj'. pose proof (mi_keys V M) as Nk. rewrite keys_in_app, keys_in_cons in Nk. rewrite keys_in_app in Hj. apply NoDup_app in Nk as (_ & N1 & N2). apply NoDup_app in N2 as (_ & N2 & _).
  apply elem_of_app in Hj as [Hj|Hj]; [apply (N1 j Hj); apply elem_of_app; by left|by apply (N2 j)].
Qed.

(** Some keys are left with the count. *)
Lemma unlinked_counted c V V' : reps c V -> in_middle V -> unlinked V V' -> a ++ b <> [] ->
  counted pos (v_cn V') (v_log V') (pre ++ mk_group n1 m (a ++ b) :: post) (v_lo V !!! Z.to_nat l) (v_hi V !!! Z.to_nat l).
Proof.
  intros R I U Hab. pose proof (middle_of c V R I) as M. pose proof M as M'. destruct M', I as [F Hm], U.
  apply (counted_replace pos (v_cn V) _ (v_log V) _ pre g1 (mk_group n1 m (a ++ b)) post _ _ (fc_counted _ _ _ _ _ F) mi_nodes0 eq_refl).
  - intros x Hx. apply ul_cn0. by apply (middle_away V).
  - cbn [g_node]. by rewrite ul_node0, mi_node0.
  - cbn [g_node]. by rewrite ul_node0, mi_node0.
  - intros j Hj. apply ul_log0. pose proof (middle_keys V j M Hj). set_solver.
  - split; cbn [g_node g_count g_keys]; [by rewrite ul_node0|by rewrite ul_node0|done|done].
  - cbn. lia.
  - done.
  - done.
Qed.

(** The node goes, when no key is left with the count: the next count is the key's new one. *)
Lemma remove_count_run c t V V1 g2 post' : reps c V -> in_middle V -> unlinked V V1 -> a ++ b = [] -> post = g2 :: post' -> forall c1, reps c1 V1 ->
  exists c' V', remove_count l n1 (g_node g2) (final id (nodes pre) 0) (mk_cdb c1 t) = Ret (tt, mk_cdb c' t) /\ reps c' V' /\
    counted pos (v_cn V') (v_log V') (pre ++ post) (v_lo V' !!! Z.to_nat l) (v_hi V' !!! Z.to_nat l) /\
    (length (v_lo V') = length (v_lo V) /\ forall k, k <> Z.to_nat l -> v_lo V' !!! k = v_lo V !!! k) /\ v_hi V' = v_hi V /\
    v_used V' ≡ₚ nodes (pre ++ post) ++ Rn /\ (forall x, x ∈ Rn -> v_cn V' x = v_cn V x) /\ v_log V' = v_log V1.
Proof.
  intros R I U Hab Ep c1 R1. pose proof (middle_of c V R I) as M. pose proof M as M'. destruct M', I as [F Hm]. pose proof U as U'. destruct U'.
  pose proof (fc_counted _ _ _ _ _ F) as Ct. destruct (focus_NoDup pos vp key_of c l V gs Rn R F) as [NdR _].
  assert (Hu : v_used V1 ≡ₚ n1 :: nodes (pre ++ post) ++ Rn).
  { rewrite ul_used0, (fc_used _ _ _ _ _ F). unfold nodes. rewrite !fmap_app, fmap_cons. cbn [g_node]. solve_Permutation. }
  destruct R1 as [R1 Sh1]. destruct (push_rep c1 t V1 (nodes (pre ++ post) ++ Rn) n1 R1 Hu) as (c2 & W2 & R2). unfold remove_count. step_by W2.
  set (V2 := with_nodes _ _ V1) in *. step_by (upd_inst_ret (fun c => set_counts_used (u32 (counts_used c - 1)) c) c2 t). cbn beta. set (c3 := set_counts_used _ c2).
  assert (R3 : reps c3 V2).
  { split; [|exact Sh1]. destruct R2 as [B1 [A1 A2 A3 A4 A5 A6 A7] B3 B4 B5]. split; [by apply (store_frame c2)|exact (Build_alloc c3 _ _ A1 A2 A3 A4 A5 A6 A7)|exact B3|exact B4|exact B5]. }
  assert (H2 : g_node g2 ∈ nodes post) by (rewrite Ep; left). assert (Hr2 : 0 < g_node g2) by (apply mi_range0; rewrite nodes_app; set_solver).
  assert (U2 : g_node g2 ∈ v_used V2) by (cbn [v_used V2 with_nodes]; rewrite nodes_app; set_solver).
  destruct (Z.eqb_spec (g_node g2) SXE_CDB_COUNT_NONE) as [Hz|_]; [change SXE_CDB_COUNT_NONE with 0 in Hz; lia|]. cbn [negb].
  destruct (node_step pos vp key_of c3 t V2 (g_node g2) (set_last (final id (nodes pre) 0)) R3 U2) as (c4 & W4 & R4). step_by W4. set (V4 := with_node (g_node g2) _ V2) in *.
  assert (Base : forall x, x ∈ nodes (pre ++ post) -> v_cn V1 x = v_cn V x) by (intros x Hx; apply ul_cn0; by apply (middle_away V)).
  assert (C4 : forall x, x ∈ nodes (pre ++ post) -> v_cn V4 x = if decide (x = g_node g2) then set_last (final id (nodes pre) 0) (v_cn V x) else v_cn V x).
  { intros x Hx. unfold V4. cbn [v_cn with_node]. case_decide as Ex; [rewrite Ex, fn_lookup_insert; cbn [v_cn V2 with_nodes]; by rewrite Base by (by rewrite <-Ex)|].
    rewrite fn_lookup_insert_ne by done. by apply Base. }
  assert (Nd : NoDup (nodes pre) /\ (forall x, x ∈ nodes pre -> x ∉ nodes post)).
  { rewrite (nodes_app pre) in mi_nodes0. apply NoDup_app in mi_nodes0 as (N1 & N2 & _). split; [done|]. intros x Hx Hx'. apply (N2 x Hx). by right. }
  assert (Log : forall j, j ∈ keys_in (pre ++ post) -> v_log V1 !! j = v_log V !! j).
  { intros j Hj. apply ul_log0. pose proof (middle_keys V j M Hj). set_solver. }
  assert (Hhi : v_hi V !!! Z.to_nat l = final id (nodes (pre ++ post)) 0).
  { rewrite (cd_hi _ _ _ _ _ _ Ct), !nodes_app, !final_app. rewrite Ep. done. }
  assert (Rest : forall x, x ∈ Rn -> v_cn V4 x = v_cn V x).
  { intros x Hx. unfold V4. cbn [v_cn with_node]. apply NoDup_app in NdR as (_ & NdR & _). rewrite fn_lookup_insert_ne.
    - cbn [v_cn V2 with_nodes]. apply ul_cn0. intros ->. apply (NdR n1); [rewrite nodes_app; set_solver|done].
    - intros <-. apply (NdR (g_node g2)); [rewrite nodes_app; set_solver|done]. }
  set (last_c := final id (nodes pre) 0) in *. destruct (decide (pre = [])) as [Epre|Epre].
  - assert (El : last_c = 0) by (unfold last_c; by rewrite Epre). rewrite El.
    assert (Elo : v_lo V !!! Z.to_nat l = n1) by (by rewrite (cd_lo _ _ _ _ _ _ Ct), Epre). change (negb (0 =? SXE_CDB_COUNT_NONE)) with false. cbv iota.
    step_by (rd_lo_ret c4 t V4 l (proj1 R4) ltac:(change (v_lo V4) with (v_lo V1); rewrite ul_lo0; apply F)). change (v_lo V4) with (v_lo V1). rewrite ul_lo0, Elo, Z.eqb_refl.
    destruct (lo_step pos vp key_of c4 t V4 l (g_node g2) R4) as (c5 & W5 & R5); [change (v_lo V4) with (v_lo V1); rewrite ul_lo0; apply F|]. rewrite W5.
    exists c5, (with_lo l (g_node g2) V4). split; [done|]. split; [done|]. cbn [v_cn v_lo v_hi v_log v_used with_lo]. change (v_lo V4) with (v_lo V1). change (v_hi V4) with (v_hi V1). rewrite ul_lo0, ul_hi0.
    split_and!; try done.
    + rewrite (lo_at pos l V gs Rn (g_node g2) F), Hhi. replace (g_node g2) with (first id (nodes (pre ++ post)) 0) by (by rewrite Epre, Ep).
      apply (counted_remove pos (v_cn V) _ (v_log V) _ pre g1 post _ _ Ct mi_nodes0); [intros x Hx; rewrite Epre in Hx; by apply elem_of_nil in Hx| |exact Log].
      intros x Hx. rewrite (C4 x) by (rewrite nodes_app; set_solver). rewrite Ep. done.
    + apply length_insert.
    + intros k Hk. by apply list_lookup_total_insert_ne.
  - assert (Hlc : last_c ∈ nodes pre).
    { unfold last_c. destruct (chain_final_mem id (nodes pre) 0) as (x & Hx & ->); [by destruct pre|exact Hx]. }
    assert (Hlr : 0 < last_c) by (apply mi_range0; rewrite nodes_app; set_solver). destruct (Z.eqb_spec last_c SXE_CDB_COUNT_NONE) as [Hz|_]; [change SXE_CDB_COUNT_NONE with 0 in Hz; lia|]. cbn [negb].
    assert (Ul : last_c ∈ v_used V4) by (cbn [v_used V4 V2 with_node with_nodes]; rewrite nodes_app; set_solver).
    destruct (node_step pos vp key_of c4 t V4 last_c (set_next (g_node g2)) R4 Ul) as (c5 & W5 & R5). rewrite W5. set (V5 := with_node last_c _ V4) in *.
    assert (Hl2 : last_c <> g_node g2) by (intros E; apply (proj2 Nd last_c Hlc); by rewrite E).
    assert (C5 : forall x, x <> last_c -> v_cn V5 x = v_cn V4 x) by (intros x Hx; unfold V5; cbn [v_cn with_node]; by rewrite fn_lookup_insert_ne).
    assert (C5l : v_cn V5 last_c = set_next (g_node g2) (v_cn V last_c)).
    { unfold V5. cbn [v_cn with_node]. rewrite fn_lookup_insert, (C4 last_c) by (rewrite nodes_app; set_solver). by rewrite decide_False. }
    exists c5, V5. split; [done|]. split; [done|]. change (v_lo V5) with (v_lo V1). change (v_hi V5) with (v_hi V1). change (v_log V5) with (v_log V1). rewrite ul_lo0, ul_hi0.
    split_and!; try done.
    + rewrite Hhi. assert (Hlo : v_lo V !!! Z.to_nat l = first id (nodes (pre ++ post)) 0).
      { rewrite (cd_lo _ _ _ _ _ _ Ct), !nodes_app, !first_app. by destruct pre. }
      rewrite Hlo. apply (counted_remove pos (v_cn V) _ (v_log V) _ pre g1 post _ _ Ct mi_nodes0); [| |exact Log].
      * intros x Hx. fold last_c. case_decide as Ex; [rewrite Ex, C5l, Ep; done|]. rewrite C5, (C4 x) by (rewrite ?nodes_app; set_solver). rewrite decide_False; [done|].
        intros E. apply (proj2 Nd x Hx). by rewrite E.
      * intros x Hx. rewrite C5 by (intros E; apply (proj2 Nd last_c Hlc); by rewrite <-E). rewrite (C4 x) by (rewrite nodes_app; set_solver). rewrite Ep. done.
    + intros x Hx. rewrite C5; [by apply Rest|]. intros ->. apply NoDup_app in NdR as (_ & NdR & _). apply (NdR last_c); [rewrite nodes_app; set_solver|done].
Qed.

End Shaped.
End Inc.

#[global] Arguments mi_chain {pos pre post n1 m a b i V} _.
#[global] Arguments mi_link {pos pre post n1 m a b i V} _.
#[global] Arguments mi_node {pos pre post n1 m a b i V} _.
#[global] Arguments mi_used {pos pre post n1 m a b i V} _.
#[global] Arguments mi_nodes {pos pre post n1 m a b i V} _.
#[global] Arguments mi_range {pos pre post n1 m a b i V} _.
#[global] Arguments mi_keys {pos pre post n1 m a b i V} _.
#[global] Arguments mi_ab {pos pre post n1 m a b i V} _.
#[global] Arguments mi_pos {pos pre post n1 m a b i V} _.
#[global] Arguments mi_low {pos pre post n1 m a b i V} _.
#[global] Arguments mi_high {pos pre post n1 m a b i V} _.
#[global] Arguments mi_m {pos pre post n1 m a b i V} _.
#[global] Arguments ul_node {pos pre post n1 m a b V V'} _.
#[global] Arguments ul_cn {pos pre post n1 m a b V V'} _.
#[global] Arguments ul_lo {pos pre post n1 m a b V V'} _.
#[global] Arguments ul_hi {pos pre post n1 m a b V V'} _.
#[global] Arguments ul_used {pos pre post n1 m a b V V'} _.
#[global] Arguments ul_chain {pos pre post n1 m a b V V'} _.
#[global] Arguments ul_log {pos pre post n1 m a b V V'} _.
#[global] Arguments middle_away {pos pre post n1 m a b i V} x _ _.
#[global] Arguments middle_keys {pos pre post n1 m a b i V} j _ _.
