(* ===== verification/CdbInc.v ===== *)
(** * CdbInc: incrementing a counter of the key value store (lib-sxe-cdb/sxe-cdb.c, sxe_cdb_instance_inc)

    The code changes one list of counters as [inc_groups] says, and leaves the other lists and the other
    entries as they were. *)

From stdpp Require Import functions sorting.
From S2P Require Import Prelude Spinlock Cdb CdbStore CdbPut CdbCount CdbChain CdbView CdbGroups CdbLeave.

Section Inc.
Context `{Build, CdbSystem, !MapLaw}.
Implicit Types (c : SXE_CDB_INSTANCE) (t : TLS) (log : list entry) (V : view).

Section Shaped.
Context (pos vp : nat -> Z) (key_of : nat -> option (list Z)).
Abbreviation reps := (reps pos vp key_of).
Abbreviation focus := (focus pos).
Abbreviation steps_to := (steps_to pos).

Section Middle.
Context (l : Z) (Rn : list Z) (pre post : list group) (n1 m : Z) (a b : list nat) (i : nat).
Abbreviation g1 := (mk_group n1 m (a ++ i :: b)).
Abbreviation gs := (pre ++ g1 :: post).
Abbreviation in_middle := (in_middle pos l Rn pre post n1 m a b i).
Abbreviation middle := (middle pos pre post n1 m a b i).
Abbreviation unlinked := (unlinked pos pre post n1 m a b).
Abbreviation middle_of := (middle_of pos vp key_of l Rn pre post n1 m a b i).

(** The next count, when it is the key's new one. *)
Lemma next_group V : middle V -> above (m + 1) post \/ exists n2 ks post', post = mk_group n2 (m + 1) ks :: post'.
Proof.
  intros M. pose proof (mi_high M) as Hm. clear M. revert Hm. generalize post as p. intros [|[n2 m2 ks] p] Hm; [by left|]. specialize (Hm (mk_group n2 m2 ks) ltac:(left)). cbn in Hm.
  destruct (decide (m2 = m + 1)) as [->|]; [right; by exists n2, ks, p|left; cbn; lia].
Qed.

Lemma nonempty_keys V n2 m2 ks post' : in_middle V -> post = mk_group n2 m2 ks :: post' -> exists j ks', ks = j :: ks'.
Proof.
  intros [F _] Ep. pose proof (cd_groups _ _ _ _ _ _ (fc_counted _ _ _ _ _ F)) as G. rewrite Ep in G. apply Forall_app in G as [_ [_ [G _]%Forall_cons]%Forall_cons].
  pose proof (go_keys _ _ _ _ G) as Hne. cbn in Hne. destruct ks as [|j ks']; [done|]. by exists j, ks'.
Qed.

(** From a view in which the key is in no group to one where it is in the group behind. *)
Lemma join_run c t V V2 c2 pre' n2 j ks post' lo : reps c V -> in_middle V -> reps c2 V2 -> post = mk_group n2 (m + 1) (j :: ks) :: post' ->
  counted pos (v_cn V2) (v_log V2) (pre' ++ post) lo (v_hi V2 !!! Z.to_nat l) -> lo = v_lo V2 !!! Z.to_nat l ->
  (length (v_lo V2) = length (v_lo V) /\ forall k, k <> Z.to_nat l -> v_lo V2 !!! k = v_lo V !!! k) -> v_hi V2 = v_hi V ->
  v_used V2 ≡ₚ nodes (pre' ++ post) ++ Rn -> NoDup (nodes (pre' ++ post)) -> NoDup (keys_in (pre' ++ post)) -> i ∉ keys_in (pre' ++ post) ->
  (forall x, x ∈ Rn -> v_cn V2 x = v_cn V x) -> (forall x, x ∉ a ++ b -> v_log V2 !! x = v_log V !! x) ->
  exists c' V', add_to_count (pos i) (vp i) n2 (mk_cdb c2 t) = Ret (tt, mk_cdb c' t) /\ reps c' V' /\
    steps_to l V V' (pre' ++ mk_group n2 (m + 1) (i :: j :: ks) :: post') Rn (i :: keys_in gs).
Proof.
  intros R I R2 Ep Ct -> Hlo Hhi Hu Nd Nk Hi Hc Hl. pose proof (middle_of c V R I) as M. rewrite Ep in Ct, Hu, Nd, Nk, Hi.
  assert (Hn2 : n2 ∈ nodes (pre' ++ mk_group n2 (m + 1) (j :: ks) :: post')) by (rewrite nodes_app; set_solver).
  assert (Hr2 : 0 < n2 < 268435456) by (apply (mi_range M); rewrite nodes_app, Ep; set_solver).
  assert (L2 : key_link (v_log V2) n1 i (first pos b 0) (final pos a 0)).
  { unfold key_link. rewrite Hl; [apply (mi_link M)|]. pose proof (mi_ab M) as Nab. apply NoDup_app in Nab as (_ & N1 & [N2 _]%NoDup_cons).
    intros Hx. apply elem_of_app in Hx as [Hx|Hx]; [|done]. apply (N1 i Hx). left. }
  destruct (add_to_count_run pos vp key_of c2 t V2 pre' n2 (m + 1) j ks post' i n1 (first pos b 0) (final pos a 0) _ _ R2 Ct Nd Nk) as (c' & V' & W & R' & Ct' & Elo & Ehi & Eu & Ec & El); [unfold is_u32; lia| |done|exact L2|].
  { rewrite Hu. set_solver. }
  exists c', V'. split; [exact W|]. split; [exact R'|]. split.
  - by rewrite Elo, Ehi.
  - by rewrite Elo.
  - by rewrite Ehi, Hhi.
  - intros x Hx. rewrite Ec; [by apply Hc|]. intros ->. destruct I as [F _]. destruct (focus_NoDup pos vp key_of c l V gs Rn R F) as [NdR _]. apply NoDup_app in NdR as (_ & NdR & _).
    apply (NdR n2); [rewrite nodes_app, Ep; set_solver|done].
  - intros x Hx. assert (Hj : j ∈ keys_in gs) by (rewrite keys_in_app, keys_in_cons, Ep, keys_in_cons; cbn [g_keys]; set_solver).
    apply not_elem_of_cons in Hx as [Hxi Hx]. rewrite El by (done || by intros ->). apply Hl.
    intros Hab. apply Hx. rewrite keys_in_app, keys_in_cons. cbn [g_keys]. set_solver.
  - rewrite Eu, Hu. unfold nodes. by rewrite !fmap_app, !fmap_cons.
Qed.

(** The last step only returns. *)
Lemma then_ret {A} (x : cmd cdb unit) (v : A) st : (x ;; mret v) st = match x st with Ret (_, st') => Ret (v, st') | Fault => Fault | Abort => Abort end.
Proof. unfold mbind, cmd_bind. by destruct (x st) as [[[] ?]| |]. Qed.

(** Incrementing a counter. *)
Lemma inc_counter_run c t V : reps c V -> in_middle V ->
  match inc_counter l (pos i) (vp i) n1 (mk_cdb c t) with
  | Ret (m', st) => exists c' V' n gs', st = mk_cdb c' t /\ m' = m + 1 /\ reps c' V' /\ steps_to l V V' gs' Rn (i :: keys_in gs) /\ inc_groups i n gs gs' (m + 1)
  | Abort => no_map (v_used V)
  | Fault => False
  end.
Proof.
  intros R I. pose proof (middle_of c V R I) as M. pose proof I as [F Hm]. pose proof (fc_counted _ _ _ _ _ F) as Ct. destruct (alone_cases pos vp key_of l Rn pre post n1 m a b i c V R I) as (Ea & Ef & Ez).
  unfold inc_counter. step_by (read_step pos vp key_of c t V n1 R (mi_used M)). rewrite (mi_node M). cbn [next count hkv1].
  rewrite (u64_small (m + 1)) by (unfold is_u64; pose proof (mi_m M); lia). cbv zeta.
  destruct (rd_step pos vp key_of c t V n1 i _ _ R (mi_link M)) as (_ & Rn1 & Rl1). step_by Rn1. rewrite Ea.
  assert (Pos2 : forall g2 p, post = g2 :: p -> 0 < g_node g2) by (intros g2 p Ep; apply (mi_range M); rewrite nodes_app, Ep; set_solver).
  assert (Nxt : forall p, (forall g2 q, p = g2 :: q -> 0 < g_node g2) -> (first id (nodes p) 0 =? SXE_CDB_COUNT_NONE) = bool_decide (p = [])).
  { intros [|g2 p] Hp; [done|]. specialize (Hp g2 p eq_refl). cbn. unfold id. change SXE_CDB_COUNT_NONE with 0. destruct (Z.eqb_spec (g_node g2) 0); [lia|done]. }
  assert (Rd2 : forall g2 post', post = g2 :: post' -> rd_count (first id (nodes post) 0) (mk_cdb c t) = Ret (v_cn V (g_node g2), mk_cdb c t) /\ count (v_cn V (g_node g2)) = g_count g2).
  { intros g2 post' Ep. rewrite Ep. cbn [first nodes fmap list_fmap]. unfold id. split.
    - apply (read_step pos vp key_of c t V _ R). apply (in_used pos l V gs Rn _ F). rewrite nodes_app, Ep. set_solver.
    - pose proof (cd_groups _ _ _ _ _ _ Ct) as G. rewrite Ep in G. apply Forall_app in G as [_ [_ [G _]%Forall_cons]%Forall_cons]. apply (go_count _ _ _ _ G). }
  set (alone := bool_decide (a ++ b = []) && match post with [] => true | g2 :: _ => g_count g2 >? m + 1 end).
  assert (Al : (if bool_decide (a ++ b = []) then if first id (nodes post) 0 =? SXE_CDB_COUNT_NONE then mret true else m0 ← rd_count (first id (nodes post) 0); mret (count m0 >? m + 1) else mret false) (mk_cdb c t)
    = Ret (alone, mk_cdb c t)).
  { unfold alone. destruct (bool_decide (a ++ b = [])); [|done]. rewrite (Nxt _ Pos2). revert Rd2. generalize post as p. intros [|g2 p] Rd2; [done|]. rewrite bool_decide_eq_false_2 by done.
    destruct (Rd2 g2 p eq_refl) as [E1 E2]. step_by E1. by rewrite E2. }
  step_by Al. clear Al. destruct alone eqn:Eal.
  { unfold alone in Eal. apply andb_true_iff in Eal as [Hab%bool_decide_eq_true Hab2].
    assert (Ha : above (m + 1) post) by (revert Hab2; generalize post as p; intros [|g2 p]; [done|cbn; lia]).
    destruct (inc_alone_run pos vp key_of l Rn pre post n1 m a b i c t V R I Hab Ha) as (c' & V' & W & R' & S'). step_by W. exists c', V', 0, (pre ++ mk_group n1 (m + 1) [i] :: post). split; [done|]. split; [done|]. split; [done|]. split; [done|].
    apply app_eq_nil in Hab as [E1 E2]. rewrite E1, E2. by apply inc_alone. }
  step_by Rn1. step_by Rl1. step_by (read_step pos vp key_of c t V n1 R (mi_used M)). rewrite (mi_node M). cbn [last hkv1]. cbv zeta.
  destruct (unlink_run pos vp key_of l Rn pre post n1 m a b i c t V R I) as (c1 & c2 & V2 & W1 & W2 & R2 & U). step_by W1. step_by W2.
  assert (U2 : n1 ∈ v_used V2) by (rewrite (ul_used U); apply (mi_used M)). step_by (read_step pos vp key_of c2 t V2 n1 R2 U2). rewrite (ul_node U). cbn [hkv1]. rewrite Ez.
  assert (NkM : NoDup (keys_in pre ++ (a ++ i :: b) ++ keys_in post)) by (pose proof (mi_keys M) as Nk; by rewrite keys_in_app, keys_in_cons in Nk).
  pose proof (mi_nodes M) as NdM.
  destruct (decide (a ++ b = [])) as [Hab|Hab].
  - (* the count goes: the next one is the right one *)
    rewrite bool_decide_eq_true_2 by done. unfold alone in Eal. rewrite bool_decide_eq_true_2 in Eal by done. cbn [andb] in Eal.
    destruct (next_group V M) as [Ha|(n2 & ks0 & post' & Ep)]; [destruct post; [done|cbn in Ha; lia]|]. destruct (nonempty_keys V n2 _ ks0 post' I Ep) as (j & ks & ->).
    destruct (remove_count_run pos vp key_of l Rn pre post n1 m a b i c t V V2 _ post' R I U Hab Ep c2 R2) as (c3 & V3 & W3 & R3 & Ct3 & Hlo & Hhi & Hu & Hc & Hl). cbn [g_node] in W3.
    assert (Ef2 : first id (nodes post) 0 = n2) by (by rewrite Ep). rewrite Ef2 in *. step_by W3. rewrite then_ret.
    assert (Hn2 : 0 < n2) by (apply (mi_range M); rewrite nodes_app, Ep; set_solver). destruct (Z.eqb_spec SXE_CDB_COUNT_NONE n2) as [Hz|_]; [change SXE_CDB_COUNT_NONE with 0 in Hz; lia|].
    assert (U3 : n2 ∈ v_used V3) by (rewrite Hu, nodes_app, Ep; set_solver). step_by (read_step pos vp key_of c3 t V3 n2 R3 U3).
    pose proof (cd_groups _ _ _ _ _ _ Ct3) as G3. rewrite Ep in G3. apply Forall_app in G3 as [_ [G3 _]%Forall_cons]. pose proof (go_count _ _ _ _ G3) as Ec3. cbn in Ec3. rewrite Ec3, Z.eqb_refl.
    destruct (join_run c t V V3 c3 pre n2 j ks post' _ R I R3 Ep Ct3 eq_refl Hlo Hhi Hu) as (c4 & V4 & W4 & R4 & S4); [| | |exact Hc| |].
    + rewrite nodes_app in *. apply NoDup_app in NdM as (N1 & N2 & [_ N3]%NoDup_cons). apply NoDup_app. split; [done|]. split; [|done]. intros x Hx Hx'. apply (N2 x Hx). by right.
    + rewrite keys_in_app. apply NoDup_app in NkM as (N1 & N2 & N3). apply NoDup_app in N3 as (_ & _ & N3). apply NoDup_app. split; [done|]. split; [|done]. intros x Hx Hx'. apply (N2 x Hx). set_solver.
    + intros Hx. apply (middle_keys i M Hx). set_solver.
    + intros x Hx. rewrite Hl. by apply (ul_log U).
    + rewrite W4. exists c4, V4, 0, (pre ++ mk_group n2 (m + 1) (i :: j :: ks) :: post'). split; [done|]. split; [done|]. split; [done|]. split; [done|].
      apply app_eq_nil in Hab as [E1 E2]. rewrite E1, E2, Ep. apply inc_join.
  - (* the count stays *)
    rewrite bool_decide_eq_false_2 by done. assert (Rt : (mret tt : cmd cdb unit) (mk_cdb c2 t) = Ret (tt, mk_cdb c2 t)) by done. step_by Rt. clear Rt.
    pose proof (unlinked_counted pos vp key_of l Rn pre post n1 m a b i c V V2 R I U Hab) as Ct2. set (g1' := mk_group n1 m (a ++ b)) in *. set (pre' := pre ++ [g1']).
    assert (Epp : pre ++ g1' :: post = pre' ++ post) by (unfold pre'; by rewrite <-(assoc_L (++))). rewrite Epp in Ct2.
    assert (Nds : nodes (pre' ++ post) = nodes gs) by (unfold pre', nodes; by rewrite !fmap_app, !fmap_cons, <-(assoc_L (++))).
    assert (Hfin : final id (nodes pre') 0 = n1) by (unfold pre'; by rewrite nodes_app, final_app).
    assert (L2 : key_link (v_log V2) n1 i (first pos b 0) (final pos a 0)).
    { unfold key_link. rewrite (ul_log U); [apply (mi_link M)|]. pose proof (mi_ab M) as Nab. apply NoDup_app in Nab as (_ & N1 & [N2 _]%NoDup_cons).
      intros Hx. apply elem_of_app in Hx as [Hx|Hx]; [|done]. apply (N1 i Hx). left. }
    assert (Kin : forall x, x ∈ keys_in (pre' ++ post) <-> x ∈ keys_in pre \/ x ∈ a ++ b \/ x ∈ keys_in post).
    { intros x. unfold pre'. rewrite !keys_in_app, keys_in_cons. cbn [g_keys g1']. change (keys_in []) with (@nil nat). set_solver. }
    assert (Hik : i ∉ keys_in (pre' ++ post)).
    { rewrite Kin. pose proof (mi_ab M) as Nab. apply NoDup_app in Nab as (_ & N1 & [N2 _]%NoDup_cons). intros [Hx|[Hx|Hx]].
      - apply (middle_keys i M); [rewrite keys_in_app|]; set_solver.
      - apply elem_of_app in Hx as [Hx|Hx]; [|done]. apply (N1 i Hx). left.
      - apply (middle_keys i M); [rewrite keys_in_app|]; set_solver. }
    assert (Hlow : forall x, x ∈ pre' -> g_count x < m + 1).
    { intros x Hx. apply elem_of_app in Hx as [Hx|Hx]; [pose proof (mi_low M x Hx); lia|]. apply list_elem_of_singleton in Hx as ->. cbn. lia. }
    assert (NdR : forall x, x ∈ nodes gs -> x ∉ Rn) by (destruct (focus_NoDup pos vp key_of c l V gs Rn R F) as [NdR _]; by apply NoDup_app in NdR as (_ & NdR & _)).
    assert (Hus : forall n, n ∈ nodes (pre' ++ post) -> n ∈ v_used V2) by (intros n Hn; rewrite (ul_used U), (fc_used _ _ _ _ _ F), <-Nds; set_solver).
    assert (Hpne : pre' <> []) by (unfold pre'; by destruct pre).
    assert (Fin : forall V3 n, inserted pos V2 V3 pre' post i n (m + 1) -> v_hi V3 !!! Z.to_nat l = final id (nodes post) n ->
      (length (v_hi V3) = length (v_hi V) /\ forall k, k <> Z.to_nat l -> v_hi V3 !!! k = v_hi V !!! k) ->
      steps_to l V V3 (pre' ++ mk_group n (m + 1) [i] :: post) Rn (i :: keys_in gs)).
    { intros V3 n [I1 I2 I3 I4 I5 I6] Ehf Hh. split.
      - rewrite Ehf, I4, (ul_lo U), (cd_lo _ _ _ _ _ _ Ct2), nodes_app, first_app. unfold pre' in I1 |- *. rewrite nodes_app, first_app in I1 |- *. exact I1.
      - by rewrite I4, (ul_lo U).
      - exact Hh.
      - intros x Hx. rewrite I5; [apply (ul_cn U)| |]; intros Hx'; [|subst x; apply I2; rewrite (ul_used U), (fc_used _ _ _ _ _ F); set_solver|]; apply (NdR x); try done; [subst x; rewrite nodes_app; set_solver|by rewrite <-Nds].
      - intros j [Hji Hj]%not_elem_of_cons. rewrite I6 by done. apply (ul_log U). intros Hab'. apply Hj. rewrite keys_in_app, keys_in_cons. cbn [g_keys]. set_solver.
      - rewrite I3, (ul_used U), (fc_used _ _ _ _ _ F), <-Nds, !nodes_app. change (nodes (mk_group n (m + 1) [i] :: post)) with (n :: nodes post). solve_Permutation. }
    assert (Hcount : forall g2 p, post = g2 :: p -> rd_count (first id (nodes post) 0) (mk_cdb c2 t) = Ret (v_cn V2 (g_node g2), mk_cdb c2 t) /\ count (v_cn V2 (g_node g2)) = g_count g2).
    { intros g2 p Ep. rewrite Ep. cbn [first nodes fmap list_fmap]. unfold id. split.
      - apply (read_step pos vp key_of c2 t V2 _ R2), Hus. rewrite nodes_app, Ep. set_solver.
      - pose proof (cd_groups _ _ _ _ _ _ Ct2) as G. rewrite Ep in G. apply Forall_app in G as [_ [G _]%Forall_cons]. apply (go_count _ _ _ _ G). }
    assert (Hm1 : 0 < m + 1 < 2 ^ 48) by (pose proof (mi_m M); lia).
    assert (Ndp : NoDup (nodes (pre' ++ post))) by (by rewrite Nds).
    assert (Egs : forall n, pre' ++ mk_group n (m + 1) [i] :: post = pre ++ g1' :: mk_group n (m + 1) [i] :: post) by (intros n; unfold pre'; by rewrite <-(assoc_L (++))).
    rewrite then_ret, Z.eqb_sym, (Nxt _ Pos2). destruct (next_group V M) as [Ha|(n2 & ks0 & post' & Ep)]; [destruct (decide (post = [])) as [Ep|Ep]|].
    + rewrite bool_decide_eq_true_2 by done. rewrite Ep, app_nil_r in Ct2, Ndp, Hus, Hik.
      pose proof (add_highest_run pos vp key_of c2 t l V2 pre' i n1 _ _ (m + 1) _ _ R2 Ct2 Ndp Hus Hpne ltac:(rewrite (ul_hi U); apply F) Hik L2 Hm1 Hlow) as Hh. rewrite Hfin in Hh.
      destruct (add_highest_count l (pos i) (vp i) n1 (m + 1) (mk_cdb c2 t)) as [[[] st]| |]; [|by rewrite (ul_used U) in Hh|done]. destruct Hh as (c' & V' & n & -> & R' & Ins & Hhi).
      exists c', V', n, (pre' ++ mk_group n (m + 1) [i] :: post). split; [done|]. split; [done|]. split; [done|]. split; [|rewrite Egs; by apply inc_insert].
      apply Fin; [by rewrite Ep| |].
      * rewrite Hhi, (ul_hi U), (hi_at pos l V gs Rn n F), Ep. done.
      * rewrite Hhi, (ul_hi U). split; [apply length_insert|]. intros k Hk. by apply list_lookup_total_insert_ne.
    + rewrite bool_decide_eq_false_2 by done. assert (exists g2 p, post = g2 :: p) as (g2 & p & Epp2) by (revert Ep; generalize post as q; intros [|g2 p] Hq; [done|by exists g2, p]).
      destruct (Hcount g2 p Epp2) as [E1 E2]. step_by E1. rewrite E2. rewrite Epp2 in Ha. cbn in Ha. destruct (Z.eqb_spec (g_count g2) (m + 1)); [lia|].
      assert (Hhigh : forall x, x ∈ g2 :: p -> m + 1 < g_count x).
      { pose proof (cd_sorted _ _ _ _ _ _ Ct2) as So. rewrite Epp2 in So. destruct (sorted_mid _ _ _ So) as (_ & _ & _ & So2 & _). intros x Hx. apply elem_of_cons in Hx as [->|Hx]; [done|]. specialize (So2 x Hx). lia. }
      rewrite Epp2 in Ct2, Ndp, Hus, Hik.
      pose proof (insert_run pos vp key_of c2 t V2 pre' g2 p i n1 _ _ (m + 1) _ _ R2 Ct2 Ndp Hus Hpne Hik L2 Hm1 Hlow Hhigh) as Hh. rewrite Hfin in Hh.
      assert (Ef2 : first id (nodes post) 0 = g_node g2) by (by rewrite Epp2). rewrite Ef2.
      destruct (insert_count (pos i) (vp i) n1 (g_node g2) (m + 1) (mk_cdb c2 t)) as [[[] st]| |]; [|by rewrite (ul_used U) in Hh|done]. destruct Hh as (c' & V' & n2 & -> & R' & Ins & Hhi).
      exists c', V', n2, (pre' ++ mk_group n2 (m + 1) [i] :: post). split; [done|]. split; [done|]. split; [done|]. split; [|rewrite Egs; apply inc_insert; [done|by rewrite Epp2]].
      apply Fin; [by rewrite Epp2| |by rewrite Hhi, (ul_hi U)].
      rewrite Hhi, (ul_hi U), (cd_hi _ _ _ _ _ _ Ct), nodes_app. change (nodes (g1 :: post)) with (n1 :: nodes post). rewrite final_app, Epp2. done.
    + destruct (nonempty_keys V n2 _ ks0 post' I Ep) as (j & ks & ->). rewrite bool_decide_eq_false_2 by (by rewrite Ep). destruct (Hcount _ _ Ep) as [E1 E2]. step_by E1. rewrite E2. cbn [g_count]. rewrite Z.eqb_refl.
      assert (Ef2 : first id (nodes post) 0 = n2) by (by rewrite Ep). rewrite Ef2.
      destruct (join_run c t V V2 c2 pre' n2 j ks post' (v_lo V !!! Z.to_nat l) R I R2 Ep) as (c4 & V4 & W4 & R4 & S4).
      * by rewrite (ul_hi U).
      * by rewrite (ul_lo U).
      * by rewrite (ul_lo U).
      * apply (ul_hi U).
      * by rewrite (ul_used U), (fc_used _ _ _ _ _ F), Nds.
      * done.
      * assert (P : keys_in pre ++ (a ++ i :: b) ++ keys_in post ≡ₚ i :: keys_in (pre' ++ post)) by (unfold pre'; rewrite !keys_in_app, keys_in_cons; cbn [g_keys g1']; change (keys_in []) with (@nil nat); solve_Permutation).
        rewrite P in NkM. by apply NoDup_cons in NkM as [_ NkM].
      * done.
      * intros x Hx. apply (ul_cn U). intros ->. apply (NdR n1); [rewrite nodes_app; set_solver|done].
      * apply (ul_log U).
      * rewrite W4. exists c4, V4, 0, (pre' ++ mk_group n2 (m + 1) (i :: j :: ks) :: post'). split; [done|]. split; [done|]. split; [done|]. split; [done|].
        replace (pre' ++ mk_group n2 (m + 1) (i :: j :: ks) :: post') with (pre ++ g1' :: mk_group n2 (m + 1) (i :: j :: ks) :: post') by (unfold pre'; by rewrite <-(assoc_L (++))).
        rewrite Ep. by apply inc_move.
Qed.
End Middle.
End Shaped.
End Inc.
