(* ===== verification/CdbKeep.v ===== *)
(** * CdbKeep: putting a pair leaves the counters of an instance alone

    [keeps f x]: the command [x] changes no part of the instance that [f] reads. It is closed under what commands
    are made of, and so holds of sxe_cdb_instance_put_val and of looking up a key, for the memory of counts. *)

From S2P Require Import Prelude Spinlock Cdb CdbCount.

Section Keeps.
Context `{Build, CdbSystem} {P : Type} (f : SXE_CDB_INSTANCE -> P).

Definition keeps {A} (x : cmd cdb A) : Prop :=
  forall s, match x s with Ret (_, s') => f (inst s') = f (inst s) | _ => True end.

Lemma keeps_ret {A} (a : A) : keeps (mret a).
Proof. done. Qed.
Lemma keeps_bind {A B} (x : cmd cdb A) (k : A -> cmd cdb B) : keeps x -> (forall a, keeps (k a)) -> keeps (x ≫= k).
Proof.
  intros Hx Hk s. specialize (Hx s). unfold mbind, cmd_bind. destruct (x s) as [[a s1]| |]; [|done..].
  specialize (Hk a s1). destruct (k a s1) as [[b s2]| |]; [|done..]. congruence.
Qed.
Lemma keeps_lift {A} (o : outcome A) : keeps (lift o).
Proof. intros s. unfold lift. by destruct o. Qed.
Lemma keeps_rd_inst : keeps rd_inst.
Proof. done. Qed.
Lemma keeps_rd_tls : keeps rd_tls.
Proof. done. Qed.
Lemma keeps_upd_tls g : keeps (upd_tls g).
Proof. done. Qed.
Lemma keeps_upd_inst g : (forall c, f (g c) = f c) -> keeps (upd_inst g).
Proof. intros Hg s. apply Hg. Qed.
Lemma keeps_for_cells body n row cell : (forall r j, keeps (body r j)) -> keeps (for_cells n row cell body).
Proof. intros Hb. revert cell. induction n as [|n IH]; intros cell; cbn; [apply keeps_ret|]. apply keeps_bind; [apply Hb|done]. Qed.
Lemma keeps_for_rows body n row : (forall r j, keeps (body r j)) -> keeps (for_rows n row body).
Proof. intros Hb. revert row. induction n as [|n IH]; intros row; cbn; [apply keeps_ret|]. apply keeps_bind; [by apply keeps_for_cells|done]. Qed.
End Keeps.

(** One step for each form of command; what is left is a command that is named in the database. *)
Create HintDb keeps.
Ltac keeps_step := lazymatch goal with
  | |- keeps _ (mret _) => apply keeps_ret
  | |- keeps _ (lift _) => apply keeps_lift
  | |- keeps _ rd_inst => apply keeps_rd_inst
  | |- keeps _ rd_tls => apply keeps_rd_tls
  | |- keeps _ (upd_tls _) => apply keeps_upd_tls
  | |- keeps _ (upd_inst _) => apply keeps_upd_inst; intros ?; reflexivity
  | |- keeps _ (_ ≫= _) => apply keeps_bind; [|intros ?]
  | |- keeps _ (for_rows _ _ _) => apply keeps_for_rows; intros ? ?
  | |- keeps _ (if _ then _ else _) => case_match
  | |- keeps _ (match _ with _ => _ end) => case_match
  | |- keeps _ _ => solve [auto 1 with keeps nocore]
  end.
Ltac solve_keeps := unfold assert_1, assert_6; cbv zeta; repeat (keeps_step; cbv zeta).

Section Put.
Context `{Build, CdbSystem}.

(** What counting is made of. *)
Definition counts_part (c : SXE_CDB_INSTANCE) : option (gmap Z SXE_CDB_COUNT) * (Z * Z * Z * Z) * (list Z * list Z) :=
  (counts c, (counts_pages c, counts_size c, counts_next_free c, counts_free c), (counts_lo c, counts_hi c)).
Abbreviation keeps_counts := (keeps counts_part).

Lemma keeps_rd_cell s r k : keeps_counts (rd_cell s r k).
Proof. unfold rd_cell. solve_keeps. Qed.
Lemma keeps_wr_cell s r k v : keeps_counts (wr_cell s r k v).
Proof. unfold wr_cell. solve_keeps. Qed.
Lemma keeps_index i : keeps_counts (sheet_index_at i).
Proof. unfold sheet_index_at. solve_keeps. Qed.
Lemma keeps_hash_word i : keeps_counts (hash_word i).
Proof. unfold hash_word. solve_keeps. Qed.
#[local] Hint Resolve keeps_rd_cell keeps_wr_cell keeps_index keeps_hash_word : keeps.

Lemma keeps_split_sheet sheet : keeps_counts (sxe_cdb_instance_split_sheet sheet).
Proof. unfold sxe_cdb_instance_split_sheet, split_cell. solve_keeps. Qed.
#[local] Hint Resolve keeps_split_sheet : keeps.

Lemma keeps_row_scan n : forall cell s r1 r2 x y, keeps_counts (row_scan n cell s r1 r2 x y).
Proof. induction n as [|n IH]; intros; cbn [row_scan]; [apply keeps_ret|]. do 2 (apply keeps_bind; [apply keeps_rd_cell|intros ?]). apply IH. Qed.
#[local] Hint Resolve keeps_row_scan : keeps.

Lemma keeps_find_free_cell n : keeps_counts (find_free_cell n).
Proof. induction n as [|n IH]; cbn [find_free_cell]; [apply keeps_lift|]. solve_keeps. Qed.
#[local] Hint Resolve keeps_find_free_cell : keeps.

Lemma keeps_key_bytes : keeps_counts key_bytes.
Proof. unfold key_bytes. solve_keeps. Qed.
Lemma keeps_grow_kvdata n : keeps_counts (grow_kvdata n).
Proof. unfold grow_kvdata. solve_keeps. Qed.
#[local] Hint Resolve keeps_key_bytes keeps_grow_kvdata : keeps.

(** Putting a pair. *)
Lemma keeps_put_val val n : keeps_counts (sxe_cdb_instance_put_val val n).
Proof. unfold sxe_cdb_instance_put_val. solve_keeps. Qed.
End Put.
