(* ===== verification/CdbCounters.v ===== *)
(** * CdbCounters: the 256 lists of counters of an instance as one map from keys to their list and count

    [counting] is the invariant of an instance that is used for counters; the map is made from the groups of all lists.
    Incrementing moves one list from groups to groups, and the map to one with the key's new count. *)

From stdpp Require Import functions sorting.
From S2P Require Import Prelude Spinlock Cdb CdbStore CdbPut CdbCount CdbChain CdbView CdbGroups CdbLeave CdbInc CdbKeep.

(** ** The map *)

Definition all_nodes (gss : list (list group)) : list Z := concat (nodes <$> gss).
Definition all_keys (gss : list (list group)) : list nat := concat (keys_in <$> gss).

(** The keys of a list with the list's number and their counts; those of all lists. *)
Definition tag (k : nat) (gs : list group) : list (nat * (Z * Z)) := (fun p => (p.1, (Z.of_nat k, p.2))) <$> counts_of gs.
Fixpoint tags_from (k : nat) (gss : list (list group)) : list (nat * (Z * Z)) :=
  match gss with [] => [] | gs :: gss => tag k gs ++ tags_from (S k) gss end.
Definition tags (gss : list (list group)) : list (nat * (Z * Z)) := tags_from 0 gss.

Abbreviation counters := (gmap (list Z) (Z * Z)).
Definition keyed (log : list entry) (p : nat * (Z * Z)) : list Z * (Z * Z) := (default [] (e_key <$> log !! p.1), p.2).
Definition counters_of (log : list entry) (gss : list (list group)) : counters := list_to_map (keyed log <$> tags gss).

Lemma all_nodes_mid a gs b : all_nodes (a ++ gs :: b) ≡ₚ nodes gs ++ all_nodes a ++ all_nodes b.
Proof. unfold all_nodes. rewrite fmap_app, fmap_cons, concat_app. cbn [concat]. solve_Permutation. Qed.
Lemma all_keys_mid a gs b : all_keys (a ++ gs :: b) ≡ₚ keys_in gs ++ all_keys a ++ all_keys b.
Proof. unfold all_keys. rewrite fmap_app, fmap_cons, concat_app. cbn [concat]. solve_Permutation. Qed.

Lemma tags_from_app k a b : tags_from k (a ++ b) = tags_from k a ++ tags_from (length a + k) b.
Proof. revert k. induction a as [|gs a IH]; intros k; cbn; [done|]. rewrite IH, <-(assoc_L (++)). do 3 f_equal. lia. Qed.
Lemma tags_mid a gs b : tags (a ++ gs :: b) ≡ₚ tag (length a) gs ++ tags_from 0 a ++ tags_from (S (length a)) b.
Proof. unfold tags. rewrite tags_from_app. cbn [tags_from]. rewrite Nat.add_0_r. solve_Permutation. Qed.

Lemma tag_keys k gs : (tag k gs).*1 = keys_in gs.
Proof. unfold tag. rewrite <-list_fmap_compose. rewrite <-(counts_of_keys gs). by apply list_fmap_ext. Qed.
Lemma tags_keys gss : (tags gss).*1 = all_keys gss.
Proof.
  unfold tags. generalize 0%nat as k. induction gss as [|gs gss IH]; intros k; [done|]. cbn [tags_from]. rewrite fmap_app, tag_keys, IH. done.
Qed.

Lemma keyed_keys log gss : (keyed log <$> tags gss).*1 = (fun i => default [] (e_key <$> log !! i)) <$> all_keys gss.
Proof. rewrite <-tags_keys, <-!list_fmap_compose. done. Qed.

(** The keys of all lists are different, when those of the entries are. *)
Lemma keys_NoDup log gss : NoDup (e_key <$> log) -> NoDup (all_keys gss) -> (forall i, i ∈ all_keys gss -> is_Some (log !! i)) -> NoDup (keyed log <$> tags gss).*1.
Proof.
  intros Nd Nk Hi. rewrite keyed_keys. apply NoDup_fmap_2_strong; [|done]. intros i j Hx Hy E.
  destruct (Hi i Hx) as [e Ei]. destruct (Hi j Hy) as [f Ej]. rewrite Ei, Ej in E. cbn in E.
  apply (proj1 (NoDup_alt _) Nd i j (e_key e)); rewrite list_lookup_fmap; [by rewrite Ei|by rewrite Ej, E].
Qed.

Lemma in_counts_of i n gs : (i, n) ∈ counts_of gs <-> exists g, g ∈ gs /\ i ∈ g_keys g /\ n = g_count g.
Proof.
  induction gs as [|g gs IH]; [split; [by intros ?%elem_of_nil|by intros (g & ?%elem_of_nil & _)]|].
  rewrite counts_of_cons, elem_of_app, IH, list_elem_of_fmap. split.
  - intros [(j & [= <- ->] & Hj)|(g' & Hg & X)]; [exists g|exists g']; (split; [set_solver|done]).
  - intros (g' & Hg & Hi & ->). apply elem_of_cons in Hg as [->|Hg]; [left; by exists i|right; by exists g'].
Qed.
Lemma in_tags k i n gs gss : gss !! k = Some gs -> (i, n) ∈ counts_of gs -> (i, (Z.of_nat k, n)) ∈ tags gss.
Proof.
  intros Hk Hi. rewrite <-(take_drop_middle gss k gs Hk), tags_mid. apply elem_of_app. left. apply list_elem_of_fmap. exists (i, n). cbn.
  rewrite length_take_le by (apply lookup_lt_Some in Hk; lia). done.
Qed.

(** What the map says of a key. *)
Lemma counters_lookup log gss k gs i e n : NoDup (keyed log <$> tags gss).*1 -> gss !! k = Some gs -> (i, n) ∈ counts_of gs -> log !! i = Some e ->
  counters_of log gss !! e_key e = Some (Z.of_nat k, n).
Proof.
  intros Nd Hk Hi E. apply elem_of_list_to_map; [done|]. apply list_elem_of_fmap. exists (i, (Z.of_nat k, n)). split; [unfold keyed; cbn; by rewrite E|]. by apply (in_tags k i n gs).
Qed.
Lemma counters_none log gss key : (forall i, i ∈ all_keys gss -> is_Some (log !! i)) -> (forall i e, log !! i = Some e -> e_key e <> key) -> counters_of log gss !! key = None.
Proof.
  intros Hi Hn. apply not_elem_of_list_to_map. rewrite keyed_keys. intros (i & E & Hx)%list_elem_of_fmap. destruct (Hi i Hx) as [e Ee]. rewrite Ee in E. by apply (Hn i e).
Qed.

(** One key gets another count. *)
Lemma counters_step log log' a gs gs' b i e n rest : (forall j, e_key <$> log' !! j = e_key <$> log !! j) -> log !! i = Some e ->
  NoDup (keyed log <$> tags (a ++ gs :: b)).*1 -> NoDup (keyed log <$> tags (a ++ gs' :: b)).*1 ->
  counts_of gs ≡ₚ count_before i n ++ rest -> counts_of gs' ≡ₚ (i, n) :: rest ->
  counters_of log' (a ++ gs' :: b) = <[e_key e := (Z.of_nat (length a), n)]> (counters_of log (a ++ gs :: b)).
Proof.
  intros Ek E Nd Nd' C C'. set (R := keyed log <$> tags_from 0 a ++ tags_from (S (length a)) b).
  assert (Kl : forall l, keyed log' <$> l = keyed log <$> l) by (intros l; apply list_fmap_ext; intros j p _; unfold keyed; by rewrite Ek).
  set (tg := fun q : nat * Z => (q.1, (Z.of_nat (length a), q.2))).
  assert (Tg : forall p, keyed log <$> (tg <$> [(i, p)]) = [(e_key e, (Z.of_nat (length a), p))]) by (intros p; cbn; unfold keyed; cbn; by rewrite E).
  assert (P : forall g c, counts_of g ≡ₚ c ++ rest -> keyed log <$> tags (a ++ g :: b) ≡ₚ (keyed log <$> (tg <$> c)) ++ (keyed log <$> (tg <$> rest)) ++ R).
  { intros g c Hg. rewrite tags_mid, fmap_app. unfold tag. fold tg. rewrite Hg, !fmap_app. unfold R. by rewrite <-(assoc_L (++)), fmap_app. }
  pose proof (P gs' [(i, n)] C') as P2. rewrite Tg in P2. pose proof (P gs (count_before i n) C) as P1.
  unfold counters_of. rewrite Kl. rewrite (list_to_map_proper _ _ Nd' P2), (list_to_map_proper _ _ Nd P1). cbn [app list_to_map foldr].
  unfold count_before. case_decide; [done|]. rewrite Tg. cbn [app]. rewrite !list_to_map_cons. cbn. by rewrite insert_insert_eq.
Qed.

(** ** Instances whose entries are counters *)

(** Where other entries are does not matter for a list. *)
Lemma chain_name {A} (name name' : A -> Z) R p xs q : (forall x, x ∈ xs -> name x = name' x) -> chain name R p xs q -> chain name' R p xs q.
Proof.
  revert p. induction xs as [|x xs IH]; intros p Hn; [done|]. cbn. intros [Hx Hc].
  assert (Hf : first name xs q = first name' xs q) by (destruct xs as [|y xs]; [done|]; apply Hn; right; left).
  rewrite <-Hf, <-(Hn x) by left. split; [done|]. apply IH; [|done]. intros y Hy. apply Hn. by right.
Qed.
Lemma counted_pos pos pos' cn log gs lo hi : (forall i, i ∈ keys_in gs -> pos i = pos' i) -> counted pos cn log gs lo hi -> counted pos' cn log gs lo hi.
Proof.
  intros Hp [A B C D E F]. split; try done. rewrite Forall_forall in *. intros g Hg. destruct (D g Hg) as [G1 G2 G3 G4].
  assert (Hpg : forall i, i ∈ g_keys g -> pos i = pos' i) by (intros i Hi; apply Hp; by apply (key_of_group g)).
  split; [done| |done|].
  - rewrite G2. destruct (g_keys g) as [|i ks]; [done|]. apply Hpg. left.
  - by apply (chain_name pos).
Qed.

Abbreviation lists_max := (Z.to_nat SXE_CDB_COUNTS_LISTS_MAX).

Abbreviation reps_of V := (reps (position (v_log V)) (vpos (v_log V)) (fun i => e_key <$> v_log V !! i)).

Section Counting.
Context `{Build, CdbSystem, !MapLaw}.
Implicit Types (c : SXE_CDB_INSTANCE) (t : TLS) (log : list entry) (V : view).

(** The entries [extra] are in no list yet. *)
Record counting c V (gss : list (list group)) (extra : list nat) : Prop := {
  ct_rep : rep c V;
  ct_lists : length gss = lists_max;
  ct_lo : length (v_lo V) = lists_max;
  ct_hi : length (v_hi V) = lists_max;
  ct_counted : forall k gs, gss !! k = Some gs -> counted (position (v_log V)) (v_cn V) (v_log V) gs (v_lo V !!! k) (v_hi V !!! k);
  ct_used : v_used V ≡ₚ all_nodes gss;
  ct_keys : all_keys gss ++ extra ≡ₚ seq 0 (length (v_log V));
  ct_unique : NoDup (e_key <$> v_log V)
}.

Lemma counting_reps c V gss extra : counting c V gss extra -> reps_of V c V.
Proof. intros C. by split; [apply C|]. Qed.

Lemma counting_NoDup c V gss extra : counting c V gss extra -> NoDup (all_keys gss ++ extra).
Proof. intros C. rewrite (ct_keys _ _ _ _ C). apply NoDup_seq. Qed.
Lemma counting_entry c V gss extra i : counting c V gss extra -> i ∈ all_keys gss ++ extra <-> is_Some (v_log V !! i).
Proof. intros C. rewrite (ct_keys _ _ _ _ C), lookup_lt_is_Some, elem_of_seq. lia. Qed.

(** One list among the others. *)
Lemma counting_focus c V a gs b extra : counting c V (a ++ gs :: b) extra ->
  focus (position (v_log V)) (Z.of_nat (length a)) V gs (all_nodes a ++ all_nodes b).
Proof.
  intros C. pose proof (ct_lists _ _ _ _ C) as Hl. rewrite length_app in Hl. cbn [length] in Hl. pose proof (ct_lo _ _ _ _ C). pose proof (ct_hi _ _ _ _ C).
  split; rewrite ?Nat2Z.id; unfold zlen; try lia.
  - apply (ct_counted _ _ _ _ C). by apply list_lookup_middle.
  - by rewrite (ct_used _ _ _ _ C), all_nodes_mid.
  - pose proof (counting_NoDup _ _ _ _ C) as Nd. rewrite all_keys_mid in Nd. apply NoDup_app in Nd as [Nd _]. by apply NoDup_app in Nd as [Nd _].
Qed.

Lemma lookup_others {A} (a b : list A) x y k : k <> length a -> (a ++ x :: b) !! k = (a ++ y :: b) !! k.
Proof.
  intros Hk. destruct (decide (k < length a)%nat) as [Hlt|Hge]; [by rewrite !lookup_app_l|]. rewrite !lookup_app_r by lia.
  by destruct (k - length a)%nat eqn:E; [lia|].
Qed.
Lemma in_others (a b : list (list group)) gs k gsk : k <> length a -> (a ++ gs :: b) !! k = Some gsk ->
  (forall n, n ∈ nodes gsk -> n ∈ all_nodes a ++ all_nodes b) /\ (forall i, i ∈ keys_in gsk -> i ∈ all_keys a ++ all_keys b).
Proof.
  intros Hk E. assert (Hin : gsk ∈ a ++ b).
  { destruct (decide (k < length a)%nat) as [Hlt|Hge].
    - rewrite lookup_app_l in E by done. apply elem_of_app. left. by apply (list_elem_of_lookup_2 _ k).
    - rewrite lookup_app_r in E by lia. destruct (k - length a)%nat as [|j] eqn:Ej; [lia|]. apply elem_of_app. right. by apply (list_elem_of_lookup_2 _ j). }
  unfold all_nodes, all_keys. rewrite <-!concat_app, <-!fmap_app. split; intros x Hx; apply list_elem_of_In, in_concat.
  - exists (nodes gsk). split; apply list_elem_of_In; [by apply list_elem_of_fmap_2|done].
  - exists (keys_in gsk). split; apply list_elem_of_In; [by apply list_elem_of_fmap_2|done].
Qed.

(** A step of one list is one of the whole. *)
Lemma counting_step c V a gs b extra c' V' gs' extra' ks : counting c V (a ++ gs :: b) extra -> reps_of V c' V' ->
  steps_to (position (v_log V)) (Z.of_nat (length a)) V V' gs' (all_nodes a ++ all_nodes b) ks ->
  (forall j, j ∈ ks -> j ∈ keys_in gs ++ extra) -> keys_in gs' ++ extra' ≡ₚ keys_in gs ++ extra -> counting c' V' (a ++ gs' :: b) extra'.
Proof.
  intros C [R (Sp & _ & Sk)] [S1 [S2 S2'] [S3 S3'] S4 S5 S6] Hks Hkeys. rewrite Nat2Z.id in *. pose proof (counting_NoDup _ _ _ _ C) as Nd. rewrite all_keys_mid in Nd.
  assert (Ek : e_key <$> v_log V' = e_key <$> v_log V) by (apply list_eq; intros i; by rewrite !list_lookup_fmap).
  split; try done.
  - rewrite <-(ct_lists _ _ _ _ C), !length_app. done.
  - rewrite S2. apply C.
  - rewrite S3. apply C.
  - intros k gsk E. apply (counted_pos (position (v_log V))); [intros i _; by rewrite Sp|]. destruct (decide (k = length a)) as [->|Hk].
    + rewrite list_lookup_middle in E by done. by injection E as <-.
    + rewrite (lookup_others a b gs' gs k Hk) in E. rewrite S2', S3' by done. destruct (in_others a b gs k gsk Hk E) as [In Ik].
      apply (counted_frame _ (v_cn V) _ (v_log V)); [| |by apply (ct_counted _ _ _ _ C)].
      * intros n Hn. by apply S4, In.
      * intros i Hi. apply S5. intros Hx. specialize (Ik i Hi). specialize (Hks i Hx). clear -Nd Ik Hks.
        rewrite <-(assoc_L (++)) in Nd. apply NoDup_app in Nd as (_ & N1 & N2). apply NoDup_app in N2 as (_ & N2 & _).
        apply elem_of_app in Hks as [Hks|Hks]; [apply (N1 i Hks); set_solver|by apply (N2 i)].
  - by rewrite S6, all_nodes_mid.
  - assert (Hl : length (v_log V') = length (v_log V)) by (by rewrite <-(length_fmap e_key (v_log V')), Ek, length_fmap).
    rewrite Hl, <-(ct_keys _ _ _ _ C), !all_keys_mid.
    transitivity ((keys_in gs' ++ extra') ++ all_keys a ++ all_keys b); [solve_Permutation|]. rewrite Hkeys. solve_Permutation.
  - rewrite Ek. apply C.
Qed.

(** How many entries and nodes there are. *)
Lemma counting_pairs c V gss extra : counting c V gss extra -> NoDup (keyed (v_log V) <$> tags gss).*1.
Proof.
  intros C. apply keys_NoDup; [apply C| |].
  - pose proof (counting_NoDup _ _ _ _ C) as Nd. by apply NoDup_app in Nd as [Nd _].
  - intros i Hi. apply (counting_entry _ _ _ _ _ C). set_solver.
Qed.
Lemma few_nodes pos cn log gs : Forall (group_ok pos cn log) gs -> (length (nodes gs) <= length (keys_in gs))%nat.
Proof.
  induction 1 as [|g gs [_ _ Hg _] _ IH]; [done|]. rewrite keys_in_cons, length_app. cbn [nodes fmap list_fmap length]. destruct (g_keys g); [done|]. cbn. unfold nodes in IH. lia.
Qed.
Lemma few_all_nodes (gss : list (list group)) : (forall gs, gs ∈ gss -> (length (nodes gs) <= length (keys_in gs))%nat) -> (length (all_nodes gss) <= length (all_keys gss))%nat.
Proof.
  unfold all_nodes, all_keys. induction gss as [|gs gss IH]; intros Hg; [done|]. cbn. rewrite !length_app. specialize (Hg gs ltac:(left)) as Hg1. specialize (IH ltac:(intros x Hx; apply Hg; by right)). lia.
Qed.
Lemma counting_size c V gss : counting c V gss [] ->
  zlen (v_log V) = Z.of_nat (size (counters_of (v_log V) gss)) /\ zlen (v_used V) <= Z.of_nat (size (counters_of (v_log V) gss)).
Proof.
  intros C. pose proof (ct_keys _ _ _ _ C) as Hk. rewrite app_nil_r in Hk. apply Permutation_length in Hk. rewrite length_seq in Hk.
  assert (Hs : size (counters_of (v_log V) gss) = length (all_keys gss)).
  { unfold counters_of. rewrite map_size_list_to_map by (by apply (counting_pairs c V gss [])). by rewrite length_fmap, <-tags_keys, length_fmap. }
  rewrite Hs. unfold zlen. split; [lia|]. rewrite (ct_used _ _ _ _ C). apply inj_le, few_all_nodes. intros gs [k Hgs]%list_elem_of_lookup.
  apply (few_nodes (position (v_log V)) (v_cn V) (v_log V)). apply (ct_counted _ _ _ _ C k gs Hgs).
Qed.

(** ** The entries of an instance and its counters *)

Lemma rep_frame c c' V log : counts_part c' = counts_part c -> store c' log -> rep c V -> rep c' (with_log log V).
Proof.
  intros [= E1 E2 E3 E4 E5 E6 E7] St [R1 [A1 A2 [A3 A3'] A4 A5 A6] R3 R4 R5].
  assert (Ec : forall n, count_at c' n = count_at c n) by (intros n; unfold count_at; by rewrite E1).
  split; cbn [with_log v_log v_used v_free v_cn v_lo v_hi]; [done| | |congruence|congruence].
  - split; rewrite ?E2, ?E3, ?E1; try done. split; [|congruence]. rewrite E4. by apply (free_chain_ext (count_at c)).
  - intros n Hn. rewrite Ec. by apply R3.
Qed.
Lemma same_counts_part c c' : same c c' -> counts_part c' = counts_part c.
Proof. by intros (x & y & ->). Qed.
Lemma counting_same c c' V gss extra : same c c' -> counting c V gss extra -> counting c' V gss extra.
Proof.
  intros Sm C. pose proof (rep_frame c c' V (v_log V) (same_counts_part c c' Sm) (store_same c c' _ Sm (rp_store _ _ (ct_rep _ _ _ _ C))) (ct_rep _ _ _ _ C)) as R.
  destruct C as [_ C2 C3 C4 C5 C6 C7 C8]. split; try done. by destruct V.
Qed.

(** A new entry is in no list yet. *)
Lemma position_app log e i : (i <= length log)%nat -> position (log ++ [e]) i = position log i.
Proof. intros Hi. unfold position. by rewrite take_app_le. Qed.
Lemma counting_put c c' V gss e : counting c V gss [] -> counts_part c' = counts_part c -> store c' (v_log V ++ [e]) ->
  (forall i f, v_log V !! i = Some f -> e_key f <> e_key e) -> counting c' (with_log (v_log V ++ [e]) V) gss [length (v_log V)].
Proof.
  intros C Ec St Hn. split; cbn [with_log v_log v_used v_free v_cn v_lo v_hi]; try apply C.
  - apply (rep_frame c); [done|done|apply C].
  - intros k gs E. assert (Hk : forall i, i ∈ keys_in gs -> (i < length (v_log V))%nat).
    { intros i Hi. apply lookup_lt_is_Some. apply (counting_entry _ _ _ _ _ C). rewrite app_nil_r, <-(take_drop_middle gss k gs E), all_keys_mid. set_solver. }
    apply (counted_pos (position (v_log V))); [intros i Hi; rewrite position_app; [done|specialize (Hk i Hi); lia]|].
    apply (counted_frame _ (v_cn V) _ (v_log V)); [done| |by apply (ct_counted _ _ _ _ C)]. intros i Hi. apply lookup_app_l. by apply Hk.
  - pose proof (ct_keys _ _ _ _ C) as Hk. rewrite app_nil_r in Hk. rewrite Hk, length_app. cbn. by rewrite Nat.add_1_r, seq_S.
  - rewrite fmap_app. apply NoDup_app. split; [apply C|]. split; [|apply NoDup_singleton]. intros x (f & -> & Hf)%list_elem_of_fmap Hx. cbn in Hx. apply list_elem_of_singleton in Hx.
    apply list_elem_of_lookup in Hf as [i Hi]. by apply (Hn i f).
Qed.

(** The list and the group of an entry. *)
Lemma counting_find c V gss i e : counting c V gss [] -> v_log V !! i = Some e ->
  exists k gs pre n1 m a b post, gss !! k = Some gs /\ gs = pre ++ mk_group n1 m (a ++ i :: b) :: post /\
    counters_of (v_log V) gss !! e_key e = Some (Z.of_nat k, m).
Proof.
  intros C E. assert (Hi : i ∈ all_keys gss).
  { pose proof (proj2 (counting_entry _ _ _ _ i C) ltac:(by exists e)) as Hi. by rewrite app_nil_r in Hi. }
  apply list_elem_of_In, in_concat in Hi as (ks & Hks & Hi). apply list_elem_of_In, list_elem_of_fmap in Hks as (gs & -> & [k Hk]%list_elem_of_lookup).
  apply in_concat in Hi as (ks & Hks & Hi). apply list_elem_of_In, list_elem_of_fmap in Hks as ([n1 m ks'] & -> & Hg). apply list_elem_of_In in Hi. cbn [g_keys] in Hi.
  assert (Hc : (i, m) ∈ counts_of gs) by (apply in_counts_of; by exists (mk_group n1 m ks')).
  apply list_elem_of_split in Hg as (pre & post & ->). apply list_elem_of_split in Hi as (a & b & ->).
  exists k, (pre ++ mk_group n1 m (a ++ i :: b) :: post), pre, n1, m, a, b, post. do 2 (split; [done|]).
  apply (counters_lookup _ _ k (pre ++ mk_group n1 m (a ++ i :: b) :: post) i); [by apply (counting_pairs c V gss [])|done..].
Qed.
End Counting.
