(* ===== verification/CdbCounting.v ===== *)
(** * CdbCounting: sxe_cdb_instance_inc increments a counter of the map (lib-sxe-cdb/sxe-cdb.c)

    A client of an instance that is used for counters increments keys, each always in the same of the 256 lists. *)

From stdpp Require Import functions sorting.
From S2P Require Import Prelude Spinlock Cdb CdbStore CdbPut CdbRefine CdbCount CdbChain CdbView CdbGroups CdbLeave CdbInc CdbKeep CdbCounters.

Section Counting.
Context `{Build, CdbSystem, !MapLaw, !HashWords}.
Implicit Types (c : SXE_CDB_INSTANCE) (t : TLS) (log : list entry) (V : view).

(** A step of one list is one of the map. *)
Lemma counting_inc c V a gs b extra c' V' gs' i e n m : counting c V (a ++ gs :: b) extra -> reps_of V c' V' ->
  steps_to (position (v_log V)) (Z.of_nat (length a)) V V' gs' (all_nodes a ++ all_nodes b) (i :: keys_in gs) ->
  inc_groups i n gs gs' m -> v_log V !! i = Some e -> (if decide (m = 1) then extra = [i] else extra = [] /\ i ∈ keys_in gs) ->
  counting c' V' (a ++ gs' :: b) [] /\
  counters_of (v_log V') (a ++ gs' :: b) = <[e_key e := (Z.of_nat (length a), m)]> (counters_of (v_log V) (a ++ gs :: b)).
Proof.
  intros C R S Ig E Hx. assert (Hpos : Forall (fun g => 0 < g_count g) gs).
  { pose proof (cd_bounds _ _ _ _ _ _ (ct_counted _ _ _ _ C (length a) gs ltac:(by apply list_lookup_middle))) as B. eapply Forall_impl; [exact B|]. cbn. lia. }
  destruct (inc_groups_counts i n gs gs' m Hpos Ig) as (Hm & rest & P1 & P2).
  assert (K1 : keys_in gs ++ extra ≡ₚ i :: rest.*1).
  { rewrite <-counts_of_keys, P1. unfold count_before. case_decide; [rewrite Hx; cbn; solve_Permutation|]. destruct Hx as [-> _]. cbn. by rewrite app_nil_r. }
  assert (K2 : keys_in gs' ++ [] ≡ₚ keys_in gs ++ extra) by (rewrite K1, app_nil_r, <-counts_of_keys; by rewrite P2).
  assert (Hk : forall j, j ∈ i :: keys_in gs -> j ∈ keys_in gs ++ extra).
  { intros j Hj. case_decide; [subst extra; set_solver|]. destruct Hx as [-> Hi]. set_solver. }
  pose proof (counting_step c V a gs b extra c' V' gs' [] _ C R S Hk K2) as C'. split; [exact C'|]. destruct R as [_ (_ & _ & Ek)].
  apply (counters_step (v_log V) (v_log V') a gs gs' b i e m rest); [done|done| | |done|done].
  - by apply (counting_pairs c V _ extra).
  - pose proof (counting_pairs c' V' _ [] C') as Nd. rewrite !keyed_keys in *. erewrite list_fmap_ext; [exact Nd|]. intros j x _. cbn. by rewrite Ek.
Qed.

(** Incrementing a counter that is there. *)
Lemma inc_put_run c t V gss i e k n : counting c V gss [] -> v_log V !! i = Some e -> counters_of (v_log V) gss !! e_key e = Some (k, n) ->
  val_len (t_part t) = zlen (e_val e) -> n + 1 < 2 ^ 48 ->
  match inc_put k (position (v_log V) i) (mk_cdb c t) with
  | Ret (m, st) => exists c' V' gss', st = mk_cdb c' t /\ m = n + 1 /\ counting c' V' gss' [] /\
      counters_of (v_log V') gss' = <[e_key e := (k, n + 1)]> (counters_of (v_log V) gss)
  | Abort => no_map (v_used V)
  | Fault => False
  end.
Proof.
  intros C E Hm Hv Hn. destruct (counting_find c V gss i e C E) as (k' & gs & pre & n1 & m & a & b & post & Hk & Egs & Hl). rewrite Hm in Hl. injection Hl as -> <-.
  set (pos := position (v_log V)). set (A := take k' gss). set (B := drop (S k') gss). assert (Eg : gss = A ++ gs :: B) by (symmetry; by apply take_drop_middle).
  assert (HA : length A = k') by (apply length_take_le; apply lookup_lt_Some in Hk; lia). rewrite Eg in C. rewrite <-HA.
  pose proof (counting_focus c V A gs B [] C) as F. pose proof (counting_reps c V _ _ C) as R. rewrite Egs in F.
  assert (I : in_middle pos (Z.of_nat (length A)) (all_nodes A ++ all_nodes B) pre post n1 n a b i V) by (split; [exact F|done]).
  pose proof (middle_of _ _ _ _ _ _ _ _ _ _ _ _ c V R I) as M. pose proof (mi_link M) as L. destruct (key_link_some _ _ _ _ _ L) as (e' & E' & Ev). rewrite E in E'. injection E' as <-.
  unfold inc_put. step_by (ptr_step _ _ _ c t V i R ltac:(by exists e)). step_by (rd_tls_ret c t). rewrite Hv, Ev, zlen_list_val. change (negb (SXE_CDB_HKV_LIST_BYTES =? SXE_CDB_HKV_LIST_BYTES)) with false. cbv iota.
  destruct (rd_step _ _ _ c t V n1 i _ _ R L) as (R0 & _ & _). step_by R0. assert (Hr : 0 < n1) by (apply (mi_range M); rewrite nodes_app; set_solver).
  step_by (assert_6_true (negb (SXE_CDB_COUNT_NONE =? n1)) c t ltac:(change SXE_CDB_COUNT_NONE with 0; lia)). step_by (rd_inst_ret c t).
  assert (Hb : n1 < counts_size c).
  { pose proof (al_range _ _ _ (rp_alloc _ _ (proj1 R))) as Ar. rewrite Forall_forall in Ar. apply Ar. apply elem_of_app. left. apply (mi_used M). }
  destruct (Z.geb_spec n1 (counts_size c)); [lia|].
  pose proof (inc_counter_run _ _ _ _ _ pre post n1 n a b i c t V R I) as Hi. destruct (inc_counter _ _ _ _ (mk_cdb c t)) as [[m st]| |]; [|done..].
  destruct Hi as (c' & V' & n' & gs' & -> & -> & R' & S & Ig). rewrite <-Egs in S, Ig.
  assert (Hne : n + 1 <> 1) by (pose proof (mi_m M); lia).
  destruct (counting_inc c V A gs B [] c' V' gs' i e n' (n + 1) C R' S Ig E) as [C' Hc'].
  { rewrite decide_False by done. split; [done|]. rewrite Egs, keys_in_app, keys_in_cons. cbn [g_keys]. set_solver. }
  exists c', V', (A ++ gs' :: B). do 2 (split; [done|]). split; [exact C'|]. by rewrite Hc', Eg.
Qed.

(** The list of a new counter is empty, or its lowest count is higher, or it is 1. *)
Lemma inc_new_list c t V a gs b i e : counting c V (a ++ gs :: b) [i] -> v_log V !! i = Some e -> zlen (e_val e) = SXE_CDB_HKV_LIST_BYTES ->
  let l := Z.of_nat (length a) in let pos := position (v_log V) in
  match (this_c ← rd_lo l;
         if SXE_CDB_COUNT_NONE =? this_c then add_first_count l (pos i) (vpos (v_log V) i)
         else
           n ← rd_count this_c;
           if 1 <? count n then add_lowest_count l (pos i) (vpos (v_log V) i) this_c
           else add_to_lowest (pos i) (vpos (v_log V) i) this_c) (mk_cdb c t) with
  | Ret (m, st) => exists c' V' gs', st = mk_cdb c' t /\ m = 1 /\ counting c' V' (a ++ gs' :: b) [] /\
      counters_of (v_log V') (a ++ gs' :: b) = <[e_key e := (l, 1)]> (counters_of (v_log V) (a ++ gs :: b))
  | Abort => no_map (v_used V)
  | Fault => False
  end.
Proof.
  intros C E Hz l pos. pose proof (counting_focus c V a gs b [i] C) as F. pose proof (counting_reps c V _ _ C) as R. pose proof (fc_counted _ _ _ _ _ F) as Ct.
  assert (Hi : i ∉ keys_in gs).
  { pose proof (counting_NoDup _ _ _ _ C) as Nd. rewrite all_keys_mid in Nd. apply NoDup_app in Nd as (_ & Nd & _). intros Hx. apply (Nd i); set_solver. }
  assert (Fin : forall c' V' gs' n m, reps_of V c' V' -> steps_to pos l V V' gs' (all_nodes a ++ all_nodes b) (i :: keys_in gs) -> inc_groups i n gs gs' m -> m = 1 ->
    exists c2 V2 gs2, mk_cdb c' t = mk_cdb c2 t /\ m = 1 /\ counting c2 V2 (a ++ gs2 :: b) [] /\
      counters_of (v_log V2) (a ++ gs2 :: b) = <[e_key e := (l, 1)]> (counters_of (v_log V) (a ++ gs :: b))).
  { intros c' V' gs' n m R' S Ig ->. exists c', V', gs'. do 2 (split; [done|]). by apply (counting_inc c V a gs b [i] c' V' gs' i e n 1 C R' S Ig E). }
  step_by (rd_lo_ret c t V l (proj1 R) (fc_lo _ _ _ _ _ F)). pose proof (cd_lo _ _ _ _ _ _ Ct) as Elo. fold l in Elo. rewrite Elo.
  destruct gs as [|[n1 m1 ks] gs].
  - change (SXE_CDB_COUNT_NONE =? first id (nodes []) 0) with true. cbv iota. pose proof (add_first_run _ _ _ c t l V _ i e R F E Hz) as Ha.
    destruct (add_first_count l _ _ (mk_cdb c t)) as [[m st]| |]; [|done..]. destruct Ha as (c' & V' & n & -> & -> & R' & S). apply (Fin c' V' _ n 1 R' S); [by apply inc_first|done].
  - cbn [first nodes fmap list_fmap g_node]. unfold id. pose proof (first_node_not_none _ _ _ l V _ _ _ c R F) as Hn. cbn in Hn. change SXE_CDB_COUNT_NONE with 0. destruct (Z.eqb_spec 0 n1); [lia|].
    step_by (read_step _ _ _ c t V n1 R ltac:(apply (in_used pos l V _ _ n1 F); left)). pose proof (cd_groups _ _ _ _ _ _ Ct) as G. apply Forall_cons in G as [G _]. pose proof (go_count _ _ _ _ G) as Ec. cbn in Ec. rewrite Ec.
    pose proof (cd_bounds _ _ _ _ _ _ Ct) as B. apply Forall_cons in B as [B _]. cbn in B. destruct (Z.ltb_spec 1 m1).
    + assert (Ab : above 1 (mk_group n1 m1 ks :: gs)) by done.
      pose proof (add_lowest_run _ _ _ c t l V _ gs _ i e R F Ab Hi E Hz) as Ha. cbn [g_node] in Ha.
      destruct (add_lowest_count l _ _ n1 (mk_cdb c t)) as [[m st]| |]; [|done..]. destruct Ha as (c' & V' & n' & -> & -> & R' & S). apply (Fin c' V' (mk_group n' 1 [i] :: mk_group n1 m1 ks :: gs) n' 1 R'); [|by apply inc_first|done].
      destruct S as [S1 S2 S3 S4 S5 S6]. split; try done. intros j Hj. apply S5. set_solver.
    + assert (m1 = 1) as -> by lia. pose proof (go_keys _ _ _ _ G) as Hne. cbn in Hne. destruct ks as [|j ks]; [done|].
      destruct (add_to_lowest_run _ _ _ c t l V n1 j ks gs _ i e R F Hi E Hz) as (c' & V' & W & R' & S). fold pos in W. rewrite W. apply (Fin c' V' _ 0 1 R' S); [by apply inc_lowest|done].
Qed.

(** Incrementing a key that is not there. *)
Definition not_counted (key : list Z) V : Prop := forall i f, v_log V !! i = Some f -> e_key f <> key.
Lemma inc_new_run c t V gss key k dummy : counting c V gss [] -> prepared t key -> not_counted key V -> (k < lists_max)%nat -> zlen dummy = SXE_CDB_HKV_LIST_BYTES ->
  zlen key + 8212 <= 4294967296 ->
  match inc_new dummy (Z.of_nat k) (mk_cdb c t) with
  | Ret (m, st) => exists c' t' V' gss', st = mk_cdb c' t' /\ same_tls t t' /\ counting c' V' gss' [] /\
      ((m = 0 /\ counters_of (v_log V') gss' = counters_of (v_log V) gss) \/
       (m = 1 /\ counters_of (v_log V') gss' = <[key := (Z.of_nat k, 1)]> (counters_of (v_log V) gss)))
  | Abort => (~ not_put key c dummy /\ put_refused key t c (v_log V) dummy) \/ no_map (v_used V)
  | Fault => False
  end.
Proof.
  intros C P Hn Hk Hd Hz. pose proof (ct_rep _ _ _ _ C) as R. change SXE_CDB_HKV_LIST_BYTES with 12 in *.
  assert (Hs : slice dummy 0 12 = Some dummy) by (rewrite <-Hd; apply slice_all).
  assert (Hp : match sxe_cdb_instance_put_val dummy 12 (mk_cdb c t) with
    | Ret (uid, st) => exists c1, st = mk_cdb c1 t /\ ((uid = SXE_CDB_UID_NONE /\ store c1 (v_log V)) \/
        (exists row j, uid = uid_of (put_entry key row j dummy) /\ store c1 (v_log V ++ [put_entry key row j dummy])))
    | Abort => ~ not_put key c dummy /\ put_refused key t c (v_log V) dummy
    | Fault => False
    end).
  { destruct (decide (not_put key c dummy)) as [Hno|Hno].
    - rewrite (put_val_refused key c t dummy 12 dummy P Hs Hno). exists c. split; [done|]. left. split; [done|]. apply (rp_store _ _ R).
    - pose proof (put_val_run key c t (v_log V) dummy 12 dummy (rp_store _ _ R) P Hs ltac:(lia) Hno) as Hp.
      destruct (sxe_cdb_instance_put_val dummy 12 (mk_cdb c t)) as [[uid st]| |]; [|done..].
      destruct Hp as (c1 & c' & -> & _ & St1 & [(-> & -> & _)|(row & j & Hu & _ & _ & _ & St)]); eexists; (split; [done|]); [by left|right; by exists row, j]. } pose proof (keeps_put_val dummy 12 (mk_cdb c t)) as Kp. cbn [inst] in Kp.
  unfold inc_new. change SXE_CDB_HKV_LIST_BYTES with 12. destruct (sxe_cdb_instance_put_val dummy 12 (mk_cdb c t)) as [[uid st]| |] eqn:Ep; [| |done].
  2: { unfold mbind at 1, cmd_bind at 1. rewrite Ep. by left. }
  step_by Ep. destruct Hp as (c1 & -> & [(-> & St)|(row & j & Hu & St)]).
  - change (SXE_CDB_UID_NONE =? SXE_CDB_UID_NONE) with true. cbv iota. exists c1, t, V, gss. split; [done|]. split; [apply same_tls_refl|]. split; [|by left].
    pose proof (rep_frame c c1 V (v_log V) Kp St R) as R1. destruct C as [_ C2 C3 C4 C5 C6 C7 C8]. split; try done. by destruct V.
  - set (e := put_entry key row j dummy) in *. set (log := v_log V ++ [e]) in *. set (i := length (v_log V)) in *. set (V1 := with_log log V).
    assert (Ei : log !! i = Some e) by (by apply list_lookup_middle).
    pose proof (uid_of_parts e (store_ok _ _ _ _ St Ei)) as (_ & _ & _ & _ & Hur). change (2 ^ 40) with 1099511627776 in Hur.
    destruct (Z.eqb_spec uid SXE_CDB_UID_NONE) as [Hx|_]; [unfold SXE_CDB_UID_NONE in Hx; lia|].
    assert (C1 : counting c1 V1 gss [i]) by (by apply (counting_put c)).
    destruct (get_hkv_raw_run log key c1 t St P) as (r & c2 & t2 & Rg & Sm & Ts & Fr & _). step_by Rg.
    assert (Hr : exists f, r = Some (i, f) /\ f = e).
    { destruct r as [[i' f]|]; cbn [finds] in Fr; [|by destruct (Fr i e Ei)]. destruct Fr as [Ef Ek]. exists f. destruct (decide (i' < i)%nat) as [Hlt|Hge].
      - unfold log in Ef. rewrite lookup_app_l in Ef by done. by destruct (Hn i' f Ef).
      - pose proof (lookup_lt_Some _ _ _ Ef) as Hl. unfold log in Hl. rewrite length_app in Hl. cbn in Hl. assert (i' = i) as -> by lia. by rewrite Ei in Ef; injection Ef as <-. }
    destruct Hr as (f & -> & ->). cbn [fmap option_fmap option_map fst].
    step_by (assert_6_true (bool_decide (is_Some (Some (position log i)))) c2 t2 eq_refl). step_by (cdb_lift_ret (load (Some (position log i))) _ c2 t2 eq_refl).
    pose proof (counting_same c1 c2 V1 gss [i] Sm C1) as C2. pose proof (counting_reps c2 V1 gss [i] C2) as R2.
    step_by (ptr_step _ _ _ c2 t2 V1 i R2 ltac:(by exists e)).
    assert (Hkl : (k < length gss)%nat) by (by rewrite (ct_lists _ _ _ _ C)). destruct (lookup_lt_is_Some_2 gss k Hkl) as [gs Hgs].
    set (A := take k gss). set (B := drop (S k) gss). assert (Eg : gss = A ++ gs :: B) by (symmetry; by apply take_drop_middle). assert (HA : length A = k) by (apply length_take_le; lia).
    assert (Sk : counters_of log gss = counters_of (v_log V) gss).
    { unfold counters_of. f_equal. apply list_fmap_ext. intros x [i' p] Hx. unfold keyed. cbn [fst snd]. unfold log. rewrite lookup_app_l; [done|]. change (i' < i)%nat.
      apply lookup_lt_is_Some. apply (counting_entry _ _ _ _ _ C). rewrite app_nil_r, <-tags_keys. apply list_elem_of_fmap. exists (i', p). split; [done|]. by apply (list_elem_of_lookup_2 _ x). }
    rewrite <-HA. rewrite Eg in C2. pose proof (inc_new_list c2 t2 V1 A gs B i e C2 Ei Hd) as Hl. cbv zeta in Hl. change (v_log V1) with log in Hl. rewrite <-Eg, Sk in Hl.
    match goal with |- match ?x with _ => _ end => match type of Hl with match ?y with _ => _ end => change y with x in Hl; destruct x as [[m st]| |]; [|by right|done] end end.
    destruct Hl as (c' & V' & gs' & -> & -> & C' & Hc). exists c', t2, V', (A ++ gs' :: B). do 2 (split; [done|]). split; [done|]. by right.
Qed.

(** ** The map that a client counts in *)

(** What incrementing a key may answer, and the map after it. *)
Inductive spec_inc (m : counters) (key : list Z) (l : Z) : Z -> counters -> Prop :=
| spec_inc_more n : m !! key = Some (l, n) -> spec_inc m key l (n + 1) (<[key := (l, n + 1)]> m)
| spec_inc_new : m !! key = None -> spec_inc m key l 1 (<[key := (l, 1)]> m)
| spec_inc_full : m !! key = None -> spec_inc m key l 0 m.

(** The thread and the instance count as the map says. *)
Definition counts_hold (s : cdb) (m : counters) : Prop :=
  exists V gss, counting (inst s) V gss [] /\ tls_ok (tls s) /\ m = counters_of (v_log V) gss.

(** Why counting a key aborts in a state: putting a new key is refused, where [c1] is the instance but for its counts of misses; or the nodes of the counts take
    all of the pages that are mapped for them, and the system does not map one more. *)
Definition inc_refused (s : cdb) (t1 : TLS) (key dummy : list Z) : Prop :=
  exists V gss, counting (inst s) V gss [] /\
  ((exists c1, same (inst s) c1 /\ not_counted key V /\ ~ not_put key c1 dummy /\ put_refused key t1 c1 (v_log V) dummy) \/ no_map (v_used V)).

Definition inc_ok (m : counters) (key : list Z) (l : Z) (dummy : list Z) : Prop :=
  0 <= l < SXE_CDB_COUNTS_LISTS_MAX /\ zlen key + 8212 <= 4294967296 /\ zlen dummy = SXE_CDB_HKV_LIST_BYTES /\
  forall l' n, m !! key = Some (l', n) -> l' = l /\ n + 1 < 2 ^ 48.

Lemma inc_run c t m key l dummy : counts_hold (mk_cdb c t) m -> prepared t key -> inc_ok m key l dummy ->
  match sxe_cdb_instance_inc dummy l (mk_cdb c t) with
  | Ret (r, s') => exists m', spec_inc m key l r m' /\ counts_hold s' m'
  | Abort => exists t1, same_tls t t1 /\ inc_refused (mk_cdb c t) t1 key dummy
  | Fault => False
  end.
Proof.
  intros (V & gss & C & Tk & ->) P (Hl & Hk & Hd & Hm). cbn [inst tls] in C, Tk. change SXE_CDB_COUNTS_LISTS_MAX with 256 in *.
  destruct (counting_size c V gss C) as [Sz Su]. unfold zlen in Sz, Su.
  destruct (get_hkv_raw_run (v_log V) key c t (rp_store _ _ (ct_rep _ _ _ _ C)) P) as (r & c1 & t1 & Rg & Sm & Ts & Fr & Pt).
  unfold sxe_cdb_instance_inc. step_by (assert_6_true (l <? SXE_CDB_COUNTS_LISTS_MAX) c t ltac:(change SXE_CDB_COUNTS_LISTS_MAX with 256; lia)). step_by Rg.
  pose proof (counting_same c c1 V gss [] Sm C) as C1. assert (Tk1 : tls_ok t1) by (by destruct Ts as (p & ->)).
  destruct r as [[i e]|]; cbn [finds fmap option_fmap option_map fst] in *.
  - destruct Fr as [E <-]. destruct (counting_find c1 V gss i e C1 E) as (k & _ & _ & _ & n & _ & _ & _ & _ & _ & Hc).
    destruct (Hm _ _ Hc) as [El Hn]. assert (Hv : val_len (t_part t1) = zlen (e_val e)) by (by rewrite (Pt i e eq_refl)). rewrite El in Hc.
    pose proof (inc_put_run c1 t1 V gss i e l n C1 E Hc Hv Hn) as Hi. destruct (inc_put l _ (mk_cdb c1 t1)) as [[r st]| |]; [| |done].
    + destruct Hi as (c' & V' & gss' & -> & -> & C' & Hc'). exists (counters_of (v_log V') gss'). split; [rewrite Hc'; by apply spec_inc_more|]. by exists V', gss'.
    + exists t1. split; [done|]. exists V, gss. split; [done|]. by right.
  - assert (Hno : counters_of (v_log V) gss !! key = None).
    { apply counters_none; [|done]. intros i Hi. apply (counting_entry _ _ _ _ _ C). set_solver. }
    pose proof (inc_new_run c1 t1 V gss key (Z.to_nat l) dummy C1 (prepared_same _ _ _ Ts P) Fr ltac:(unfold SXE_CDB_COUNTS_LISTS_MAX; lia) Hd Hk) as Hi. rewrite Z2Nat.id in Hi by lia.
    destruct (inc_new dummy l (mk_cdb c1 t1)) as [[r st]| |]; [| |done].
    + destruct Hi as (c' & t' & V' & gss' & -> & Ts' & C' & Hi). exists (counters_of (v_log V') gss').
      split; [|exists V', gss'; split; [done|split; [by destruct Ts' as (p & ->)|done]]].
      destruct Hi as [[-> ->]|[-> ->]]; [by apply spec_inc_full|by apply spec_inc_new].
    + exists t1. split; [done|]. exists V, gss. split; [done|]. destruct Hi as [Hi|Hi]; [left; by exists c1|by right].
Qed.

(** An increment of a client: the key, its list, and what is in the local array that the code does not initialize. *)
Record inc_op := mk_inc_op { o_key : list Z; o_list : Z; o_dummy : list Z }.
Definition run_inc (o : inc_op) : cmd cdb Z := sxe_cdb_prepare (Some (o_key o)) (zlen (o_key o));; sxe_cdb_instance_inc (o_dummy o) (o_list o).
Fixpoint run_incs (ops : list inc_op) : cmd cdb (list Z) :=
  match ops with [] => mret [] | o :: ops => r ← run_inc o; rs ← run_incs ops; mret (r :: rs) end.
(** A client's run gets to a state where its next increment is refused. *)
Definition op_inc_refused (o : inc_op) (s : cdb) : Prop :=
  exists t1, same_tls (prepare_tls (o_key o) (zlen (o_key o)) (o_key o) (tls s)) t1 /\ inc_refused s t1 (o_key o) (o_dummy o).
Fixpoint incs_refused (ops : list inc_op) (s : cdb) : Prop :=
  match ops with
  | [] => False
  | o :: ops => op_inc_refused o s \/ exists r s1, run_inc o s = Ret (r, s1) /\ incs_refused ops s1
  end.
Inductive spec_incs : counters -> list inc_op -> list Z -> counters -> Prop :=
| spec_incs_nil m : spec_incs m [] [] m
| spec_incs_cons m o ops r m1 rs m2 : spec_inc m (o_key o) (o_list o) r m1 -> spec_incs m1 ops rs m2 -> spec_incs m (o :: ops) (r :: rs) m2.

(** What is asked of a client: lists that there are, keys that fit, and always the same list for a key. *)
Definition incs_ok (ops : list inc_op) : Prop :=
  Forall (fun o => 0 <= o_list o < SXE_CDB_COUNTS_LISTS_MAX /\ zlen (o_key o) + 8212 <= 4294967296 /\ zlen (o_dummy o) = SXE_CDB_HKV_LIST_BYTES) ops /\
  (forall o o', o ∈ ops -> o' ∈ ops -> o_key o = o_key o' -> o_list o = o_list o') /\ zlen ops < 2 ^ 48.

(** A map that a client may go on to count in: the lists are the client's, and [d] increments were done. *)
Definition counted_by (ops : list inc_op) (d : nat) (m : counters) : Prop :=
  (size m <= d)%nat /\ forall key l n, m !! key = Some (l, n) -> n <= Z.of_nat d /\ exists o, o ∈ ops /\ o_key o = key /\ o_list o = l.

Lemma counted_by_step ops d m o r m' : counted_by ops d m -> o ∈ ops -> spec_inc m (o_key o) (o_list o) r m' -> counted_by ops (S d) m'.
Proof.
  intros [Cs C] Ho Sp. assert (Ins : forall n, n <= Z.of_nat (S d) -> counted_by ops (S d) (<[o_key o := (o_list o, n)]> m)).
  { intros n Hn. split; [destruct (m !! o_key o) eqn:E; [rewrite map_size_insert_Some by done|rewrite map_size_insert_None by done]; lia|].
    intros key l n' Hl. destruct (decide (key = o_key o)) as [->|Hk].
    - rewrite lookup_insert_eq in Hl. injection Hl as <- <-. split; [done|]. by exists o.
    - rewrite lookup_insert_ne in Hl by done. destruct (C key l n' Hl) as [C1 C2]. split; [lia|done]. }
  destruct Sp as [n Hl|Hl|Hl].
  - apply Ins. destruct (C _ _ _ Hl). lia.
  - apply Ins. lia.
  - split; [lia|]. intros key l n Hl'. destruct (C key l n Hl') as [C1 C2]. split; [lia|done].
Qed.

Lemma run_incs_run all : incs_ok all -> forall ops d s m, (forall o, o ∈ ops -> o ∈ all) -> (d + length ops <= length all)%nat -> counts_hold s m -> counted_by all d m ->
  match run_incs ops s with
  | Ret (rs, s') => exists m', spec_incs m ops rs m' /\ counts_hold s' m'
  | Abort => incs_refused ops s
  | Fault => False
  end.
Proof.
  intros (Ok & Same & Hn). unfold zlen in Hn. induction ops as [|o ops IH]; intros d [c t] m Hin Hd Hs Cb; cbn [run_incs incs_refused]; [by exists m; split; [constructor|]|].
  pose proof (proj1 (Forall_forall _ _) Ok o (Hin o ltac:(left))) as (O1 & O2 & O3). cbn [length] in Hd. destruct Cb as [Cs Cb].
  pose proof (slice_all (o_key o)) as Hk. set (t1 := prepare_tls (o_key o) (zlen (o_key o)) (o_key o) t).
  assert (Hs1 : counts_hold (mk_cdb c t1) m) by (destruct Hs as (V & gss & X1 & X2 & X3); by exists V, gss).
  assert (Oi : inc_ok m (o_key o) (o_list o) (o_dummy o)).
  { do 3 (split; [done|]). intros l n Hl. destruct (Cb _ _ _ Hl) as (Hb & o' & Ho' & Ek & <-). split; [|lia]. apply Same; [done|by apply Hin; left|done]. }
  pose proof (inc_run c t1 m _ _ _ Hs1 (prepared_prepare (o_key o) (zlen (o_key o)) (o_key o) t Hk) Oi) as Hi.
  assert (Run : run_inc o (mk_cdb c t) = sxe_cdb_instance_inc (o_dummy o) (o_list o) (mk_cdb c t1)) by (unfold run_inc; by step_by (prepare_run c t (o_key o) (zlen (o_key o)) (o_key o) Hk)).
  destruct (sxe_cdb_instance_inc (o_dummy o) (o_list o) (mk_cdb c t1)) as [[r s1]| |]; [| |done].
  2: { unfold mbind at 1, cmd_bind at 1. rewrite Run. by left. }
  step_by Run. destruct Hi as (m1 & Sp & Hs').
  pose proof (IH (S d) s1 m1 ltac:(intros x Hx; apply Hin; by right) ltac:(lia) Hs' ltac:(apply (counted_by_step all d m o r); [by split|by apply Hin; left|done])) as Hr.
  destruct (run_incs ops s1) as [[rs s2]| |] eqn:E2; [| |done].
  - step_by E2. destruct Hr as (m2 & Sp2 & Hs2). exists m2. split; [by econstructor|done].
  - unfold mbind at 1, cmd_bind at 1. rewrite E2. right. by exists r, s1.
Qed.

(** A new instance has no counters. *)
Lemma new_counts_part keys maximum : match sxe_cdb_instance_new keys maximum with
  | Ret c => counts_part c = (None, (0, 0, 1, 0), (replicate lists_max SXE_CDB_COUNT_NONE, replicate lists_max SXE_CDB_COUNT_NONE))
  | _ => True
  end.
Proof.
  assert (B1 : forall b {A} (k : outcome A), (assert1 b;; k) = if b then k else Abort) by (by intros []).
  assert (B6 : forall b {A} (k : outcome A), (assert6 b;; k) = if debug && negb b then Abort else k) by (intros [] A k; unfold assert6; by destruct debug).
  unfold sxe_cdb_instance_new. rewrite B1, !B6. destruct (malloc_ok _); [|done]. repeat match goal with |- context [if debug && ?b then _ else _] => destruct (debug && b); [done|] end.
  unfold sxe_cdb_instance_new_init. cbv zeta. rewrite !B1. destruct (map_ok _ _); [|done]. destruct (map_ok _ _); [|done]. reflexivity.
Qed.
Lemma new_counts keys maximum t : 0 <= keys < 2 ^ 28 -> tls_ok t ->
  match sxe_cdb_instance_new keys maximum with
  | Ret c => counts_hold (mk_cdb c t) ∅
  | Abort => new_refused keys maximum
  | Fault => False
  end.
Proof.
  intros Hk Tk. pose proof (instance_new_run keys maximum Hk) as Hn. pose proof (new_counts_part keys maximum) as Hp. destruct (sxe_cdb_instance_new keys maximum) as [c| |]; [|done..].
  destruct Hn as [St _]. pose proof (f_equal (fun p => p.2.1) Hp : counts_lo c = replicate lists_max SXE_CDB_COUNT_NONE) as E6. pose proof (f_equal (fun p => p.2.2) Hp : counts_hi c = replicate lists_max SXE_CDB_COUNT_NONE) as E7.
  injection Hp as E1 E2 E3 E4 E5 _ _. set (V := mk_view (count_at c) [] (counts_lo c) (counts_hi c) [] []).
  assert (Al : alloc c [] []).
  { split; rewrite ?E2, ?E3; [constructor|constructor|by split|done|done|done|lia]. }
  assert (Nil : forall k gs, replicate lists_max ([] : list group) !! k = Some gs -> gs = [] /\ (k < lists_max)%nat) by (intros k gs Hx; by apply lookup_replicate in Hx).
  exists V, (replicate lists_max []). split; [|split; [done|]].
  - split; cbn [v_log v_lo v_hi v_used V].
    + by split.
    + apply length_replicate.
    + rewrite E6. apply length_replicate.
    + rewrite E7. apply length_replicate.
    + intros k gs Hx. destruct (Nil k gs Hx) as [-> Hlt]. rewrite E6, E7, !lookup_total_replicate_2 by done. split; try done; constructor.
    + unfold all_nodes. by rewrite fmap_replicate.
    + unfold all_keys. by rewrite fmap_replicate.
    + constructor.
  - unfold counters_of, tags. by vm_compute.
Qed.

(** C6: an instance that is used for counters is a map from keys to counts. A client increments keys on a new instance for fewer than 2^28 keys, each key always in the same
    one of the 256 lists, fewer than 2^48 times in all, with keys that leave 8212 bytes below 4 GB. Every increment answers as the map does: the key's count is one more than it
    was, or 1 if the key is new; only for a new key it may answer 0, and then
    nothing is counted. The nodes of the lists are linked by ascending count in both directions, with the keys of each count, also after nodes were
    inserted, emptied and used again, and keys and values moved. No call reads or writes outside of the memory. An abort has one of these reasons: the
    system refuses the memory of the new instance; or the run has come to an increment of a new key that cannot be put, since the instance, with its sheets split as
    often as could be, has only full rows for it and its sheet cannot be split, or the system refuses the memory for the entry; or to one where the nodes
    of the counts take all of the pages that are mapped for them and the system does not map one more. *)
Theorem counters_refine_map keys maximum ops t : 0 <= keys < 2 ^ 28 -> tls_ok t -> incs_ok ops ->
  match sxe_cdb_instance_new keys maximum with
  | Ret c =>
      match run_incs ops (mk_cdb c t) with
      | Ret (rs, s') => exists m, spec_incs ∅ ops rs m /\ counts_hold s' m
      | Abort => incs_refused ops (mk_cdb c t)
      | Fault => False
      end
  | Abort => new_refused keys maximum
  | Fault => False
  end.
Proof.
  intros Hk Tk Ok. pose proof (new_counts keys maximum t Hk Tk) as Hn. destruct (sxe_cdb_instance_new keys maximum) as [c| |]; [|done..].
  apply (run_incs_run ops Ok ops 0); [done|done|done|]. split; [by rewrite map_size_empty|by intros key l n ?%lookup_empty_Some].
Qed.
End Counting.
