(* ===== verification/CdbWalk.v ===== *)
(** * CdbWalk: walking a list of counters (lib-sxe-cdb/sxe-cdb.c, sxe_cdb_instance_walk)

    A walk over an instance whose entries are counters visits the keys of one list, each once, by ascending or descending count. *)

From stdpp Require Import functions sorting.
From S2P Require Import Prelude Spinlock Cdb CdbStore CdbPut CdbRefine CdbCount CdbChain CdbView CdbGroups CdbLeave CdbInc CdbKeep CdbCounters CdbCounting.

(** The groups in the direction of a walk. *)
Definition ordered (direction : Z) (gs : list group) : list group := if direction =? 0 then gs else rev gs.

Lemma final_rev {A} (name : A -> Z) xs d : final name (rev xs) d = first name xs d.
Proof. destruct xs as [|x xs]; [done|]. cbn [rev]. by rewrite final_app. Qed.
Lemma first_rev {A} (name : A -> Z) xs d : first name (rev xs) d = final name xs d.
Proof. rewrite <-(rev_involutive xs) at 2. by rewrite final_rev. Qed.
Lemma nodes_rev gs : nodes (rev gs) = rev (nodes gs).
Proof. induction gs as [|g gs IH]; [done|]. cbn [rev]. by rewrite nodes_app, IH. Qed.

(** The header's length, from what unpacking finds. *)
Lemma h_len_unpack base m hkv p : sxe_cdb_hkv_unpack base m hkv = Ret p -> sxe_cdb_h_len m hkv = Ret (key_at p - hkv).
Proof.
  unfold sxe_cdb_hkv_unpack, sxe_cdb_h_len. destruct (rd m hkv) as [b|]; [|done]. cbn [load mbind outcome_bind]. cbv zeta. set (h := h_len_of b).
  set (lens := if h =? 8 then _ else _). destruct lens as [[k v]| |]; [|done..]. cbn. intros [= <-]. cbn. f_equal. lia.
Qed.

Section Walk.
Context `{Build, CdbSystem, !MapLaw}.
Implicit Types (c : SXE_CDB_INSTANCE) (t : TLS) (log : list entry) (V : view).

Lemma entry_within c log i e : store c log -> log !! i = Some e -> position log i + zlen (image e) <= kvdata_used c < 4294967296.
Proof.
  intros St E. rewrite <-(position_step log i e E). pose proof (position_mono log (S i) (length log) ltac:(by apply lookup_lt_Some in E)) as Hp.
  unfold position at 2 in Hp. rewrite firstn_all in Hp. rewrite (st_used _ _ St). split; [done|].
  destruct (st_bytes _ _ St) as (b & rest & Hb). pose proof (st_size _ _ St) as Hz. rewrite Hb, !zlen_app in Hz. change (zlen [b]) with 1 in Hz. pose proof (zlen_nonneg rest). pose proof (st_u32 _ _ St). lia.
Qed.

(** The place of a counter is not bad, and the check unpacks it. *)
Lemma not_bad_run c t V n i e a b : rep c V -> n ∈ v_used V -> v_log V !! i = Some e -> key_link (v_log V) n i a b ->
  sxe_cdb_instance_walk_pos_is_bad n (position (v_log V) i) (mk_cdb c t) = Ret (false, mk_cdb c (set_t_part (part_at (v_log V) i e) t)).
Proof.
  intros R Hn E L. pose proof (rp_store _ _ R) as St. pose proof (entry_within c _ i e St E) as Hw. pose proof (position_pos (v_log V) i) as Hp.
  pose proof (al_range _ _ _ (rp_alloc _ _ R)) as Ar. rewrite Forall_forall in Ar. specialize (Ar n ltac:(set_solver)).
  pose proof (store_ok _ c i e St E) as Eo. pose proof (zlen_entry e Eo) as Hz. pose proof (zlen_nonneg (e_key e)). pose proof (zlen_nonneg (e_val e)).
  assert (Hh : 0 < key_header (e_key e) (e_val e)) by (destruct (eo_fits _ Eo) as (_ & _ & Hf); lia).
  unfold sxe_cdb_instance_walk_pos_is_bad. change SXE_CDB_COUNT_NONE with 0. change SXE_CDB_HKV_POS_NONE with 0.
  destruct (Z.eqb_spec 0 n); [lia|]. destruct (Z.eqb_spec 0 (position (v_log V) i)); [lia|]. cbn [negb andb]. step_by (rd_inst_ret c t).
  destruct (Z.gtb_spec n (counts_size c)); [lia|]. rewrite !u32_small by (unfold is_u32; lia). destruct (Z.gtb_spec (position (v_log V) i + 1) (kvdata_used c)); [lia|].
  pose proof (unpack_entry (v_log V) c i e St E) as Hu. pose proof (h_len_unpack _ _ _ _ Hu) as Hhl. cbn [key_at part_at] in Hhl.
  replace (position (v_log V) i + key_header (e_key e) (e_val e) - position (v_log V) i) with (key_header (e_key e) (e_val e)) in Hhl by lia.
  step_by (cdb_lift_ret _ _ c t Hhl). rewrite u32_small by (unfold is_u32; lia). destruct (Z.gtb_spec (position (v_log V) i + key_header (e_key e) (e_val e)) (kvdata_used c)); [lia|].
  step_by (cdb_lift_ret _ _ c t Hu). step_by (upd_tls_ret (set_t_part (part_at (v_log V) i e)) c t). cbn [hkv_len part_at val_len val_at].
  rewrite (u32_small (zlen (image e))) by (unfold is_u32; lia). rewrite u32_small by (unfold is_u32; lia). destruct (Z.gtb_spec (position (v_log V) i + zlen (image e)) (kvdata_used c)); [lia|].
  destruct (key_link_some _ _ _ _ _ L) as (e' & E' & Ev). rewrite E in E'. injection E' as <-. assert (Hzl : zlen (e_val e) = SXE_CDB_HKV_LIST_BYTES) by (by rewrite Ev, zlen_list_val).
  destruct (Z.eqb_spec (zlen (e_val e)) SXE_CDB_HKV_LIST_BYTES) as [_|]; [|done].
  destruct (rd_fields c (set_t_part (part_at (v_log V) i e) t) V i n a b R L) as (Rf & _ & _). unfold vpos in Rf. rewrite E in Rf. unfold val_pos in Rf. step_by Rf. by rewrite Z.eqb_refl.
Qed.

(** ** One step *)

Section List.
Context (c : SXE_CDB_INSTANCE) (V : view) (gss : list (list group)) (k : nat) (gs : list group) (C : counting c V gss []) (Hk : gss !! k = Some gs) (d : Z).
Abbreviation pos := (position (v_log V)).

Lemma list_counted : counted pos (v_cn V) (v_log V) gs (v_lo V !!! k) (v_hi V !!! k).
Proof. by apply (ct_counted _ _ _ _ C). Qed.
Lemma list_node n : n ∈ nodes gs -> n ∈ v_used V /\ 0 < n.
Proof.
  intros Hn. assert (Hu : n ∈ v_used V) by (rewrite (ct_used _ _ _ _ C), <-(take_drop_middle gss k gs Hk), all_nodes_mid; set_solver). split; [done|].
  pose proof (al_range _ _ _ (rp_alloc _ _ (ct_rep _ _ _ _ C))) as Ar. rewrite Forall_forall in Ar. specialize (Ar n ltac:(set_solver)). lia.
Qed.
Lemma list_group g : g ∈ gs -> group_ok pos (v_cn V) (v_log V) g /\ g_node g ∈ nodes gs.
Proof. intros Hg. split; [|by apply list_elem_of_fmap_2]. pose proof (cd_groups _ _ _ _ _ _ list_counted) as F. rewrite Forall_forall in F. by apply F. Qed.

Lemma elem_ordered g : g ∈ ordered d gs <-> g ∈ gs.
Proof. unfold ordered. destruct (d =? 0); [done|]. by rewrite !list_elem_of_In, <-in_rev. Qed.

(** The link of a group in the direction of the walk. *)
Lemma ordered_link pre g post : ordered d gs = pre ++ g :: post ->
  (if negb (d =? 0) then last (v_cn V (g_node g)) else next (v_cn V (g_node g))) = first id (nodes post) 0.
Proof.
  intros E. pose proof (cd_chain _ _ _ _ _ _ list_counted) as Cc. unfold ordered in E. destruct (d =? 0); cbn [negb].
  - rewrite E, nodes_app in Cc. apply chain_mid in Cc as (_ & [Hx _] & _). exact Hx.
  - assert (Eg : gs = rev post ++ g :: rev pre) by (rewrite <-(rev_involutive gs), E, rev_app_distr; cbn [rev]; by rewrite <-(assoc_L (++))).
    rewrite Eg, nodes_app in Cc. apply chain_mid in Cc as (_ & [_ Hx] & _). change (id (g_node g)) with (g_node g) in Hx. by rewrite Hx, nodes_rev, final_rev.
Qed.

(** Where a walk goes on: the next key with the count, or the first key with the next count. *)
Definition first_stop (gs : list group) : Z * Z := match gs with [] => (0, 0) | g :: _ => (g_node g, first pos (g_keys g) 0) end.
Definition next_stop (g : group) (b : list nat) (post : list group) : Z * Z := match b with j :: _ => (g_node g, pos j) | [] => first_stop post end.

Lemma first_hkv_run post t : (forall g, g ∈ post -> g ∈ gs) -> first_hkv (first id (nodes post) 0) (mk_cdb c t) = Ret (snd (first_stop post), mk_cdb c t).
Proof.
  intros Hp. destruct post as [|g post]; [done|]. cbn [first nodes fmap list_fmap first_stop snd]. unfold id, first_hkv. change SXE_CDB_COUNT_NONE with 0.
  destruct (list_group g) as [G Hn]; [apply Hp; left|]. destruct (list_node _ Hn) as [Hu Hr]. destruct (Z.eqb_spec 0 (g_node g)); [lia|].
  step_by (rep_count c t V (g_node g) (ct_rep _ _ _ _ C) Hu). by rewrite (go_first _ _ _ _ G).
Qed.
Lemma first_stop_node post : fst (first_stop post) = first id (nodes post) 0.
Proof. by destruct post. Qed.

Lemma walk_at_ret x y r t : walk_at x y r (mk_cdb c t) = Ret (r, mk_cdb c (set_t_walk_hkv_pos y (set_t_walk_cnt_pos x t))).
Proof. done. Qed.

Lemma walk_on_run pre g a i b post t r : ordered d gs = pre ++ g :: post -> g_keys g = a ++ i :: b ->
  walk_on d (g_node g) (first pos b 0) r (mk_cdb c t) = Ret (r, mk_cdb c (set_t_walk_hkv_pos (snd (next_stop g b post)) (set_t_walk_cnt_pos (fst (next_stop g b post)) t))).
Proof.
  intros E Eg. assert (Hg : g ∈ gs) by (apply elem_ordered; rewrite E; set_solver). destruct (list_group g Hg) as [G Hn]. destruct (list_node _ Hn) as [Hu _].
  unfold walk_on. change SXE_CDB_HKV_POS_NONE with 0. destruct b as [|j b]; cbn [first].
  - change (0 =? 0) with true. cbv iota. step_by (rep_count c t V (g_node g) (ct_rep _ _ _ _ C) Hu). cbv zeta. rewrite (ordered_link pre g post E).
    assert (Hp : forall x, x ∈ post -> x ∈ gs) by (intros x Hx; apply elem_ordered; rewrite E; set_solver). step_by (first_hkv_run post t Hp). cbn [next_stop]. by rewrite <-first_stop_node.
  - pose proof (position_pos (v_log V) j). destruct (Z.eqb_spec 0 (pos j)); [lia|]. done.
Qed.

(** Visiting a key: the thread has a copy, the key's count, and where the walk goes on. *)
Lemma visit_run pre g a i b post t e l : ordered d gs = pre ++ g :: post -> g_keys g = a ++ i :: b -> v_log V !! i = Some e -> tls_ok t ->
  match sxe_cdb_instance_walk d (g_node g) (pos i) l (mk_cdb c t) with
  | Ret (r, s') => exists t', s' = mk_cdb c t' /\ r = true /\ tls_ok t' /\ has_copy t' e /\ t_walk_count t' = g_count g /\ (t_walk_cnt_pos t', t_walk_hkv_pos t') = next_stop g b post
  | Abort => exists n, 0 < n /\ realloc_ok n = false
  | Fault => False
  end.
Proof.
  intros E Eg Ei Tk. assert (Hg : g ∈ gs) by (apply elem_ordered; rewrite E; set_solver). destruct (list_group g Hg) as [[G1 G2 G3 G4] Hn]. destruct (list_node _ Hn) as [Hu Hr].
  pose proof (ct_rep _ _ _ _ C) as R. pose proof (rp_store _ _ R) as St. rewrite Eg in G4. apply chain_mid in G4 as (_ & L & Cb).
  pose proof (position_pos (v_log V) i) as Hp. unfold sxe_cdb_instance_walk. change SXE_CDB_COUNT_NONE with 0. change SXE_CDB_HKV_POS_NONE with 0. destruct (Z.eqb_spec 0 (g_node g)); [lia|].
  assert (Rt : (mret (Some (g_node g, pos i)) : cmd cdb (option (Z * Z))) (mk_cdb c t) = Ret (Some (g_node g, pos i), mk_cdb c t)) by done. step_by Rt. clear Rt.
  destruct (Z.eqb_spec 0 (g_node g)); [lia|]. destruct (Z.eqb_spec 0 (pos i)); [lia|].
  step_by (not_bad_run c t V (g_node g) i e _ _ R Hu Ei L). set (t1 := set_t_part (part_at (v_log V) i e) t). step_by (rd_tls_ret c t1).
  destruct (rd_fields c t1 V i (g_node g) _ _ R L) as (_ & Rx & _). unfold vpos, val_pos in Rx. rewrite Ei in Rx. change (val_at (t_part t1)) with (pos i + key_header (e_key e) (e_val e) + zlen (e_key e)). step_by Rx.
  assert (Bad : exists t2, sxe_cdb_instance_walk_pos_is_bad (g_node g) (first pos b 0) (mk_cdb c t1) = Ret (false, mk_cdb c t2) /\ tls_ok t2).
  { destruct b as [|j b]; cbn [first].
    - exists t1. split; [|done]. unfold sxe_cdb_instance_walk_pos_is_bad. change SXE_CDB_HKV_POS_NONE with 0. change (negb (0 =? 0)) with false. by rewrite andb_false_r.
    - destruct Cb as [Lj _]. destruct (key_link_some _ _ _ _ _ Lj) as (f & Ef & _). rewrite (not_bad_run c t1 V (g_node g) j f _ _ R Hu Ef Lj). by eexists. }
  destruct Bad as (t2 & Rb & Tk2). step_by Rb. pose proof (image_u32 c _ i e St Ei) as Hz.
  destruct (decide (zlen (image e) <= t_hkv_len_max t2 \/ realloc_ok (zlen (image e)) = true)) as [Hc|Hc].
  - destruct (copy_hkv_run c t2 (v_log V) i e St Ei Tk2 Hc) as (t3 & Rc & Tk3 & Hcp & _). step_by Rc. step_by (rep_count c t3 V (g_node g) R Hu). rewrite G1.
    step_by (upd_tls_ret (set_t_walk_count (g_count g)) c t3). rewrite (walk_on_run pre g a i b post _ true E Eg). eexists. split; [reflexivity|]. split; [done|]. split; [done|]. split; [done|]. split; [done|]. cbn. by destruct (next_stop g b post).
  - assert (Hf : realloc_ok (zlen (image e)) = false) by (destruct (realloc_ok _); tauto). unfold mbind at 1, cmd_bind at 1.
    rewrite (copy_hkv_refused c t2 (v_log V) i e St Ei); [|lia|done]. exists (zlen (image e)). split; [lia|done].
Qed.

(** Starting a walk: at the first group in its direction. *)
Lemma walk_start h t : 
  (gs = [] -> exists t', sxe_cdb_instance_walk d SXE_CDB_COUNT_NONE h (Z.of_nat k) (mk_cdb c t) = Ret (false, mk_cdb c t') /\ (tls_ok t -> tls_ok t')) /\
  (gs <> [] -> sxe_cdb_instance_walk d SXE_CDB_COUNT_NONE h (Z.of_nat k) (mk_cdb c t) =
    sxe_cdb_instance_walk d (fst (first_stop (ordered d gs))) (snd (first_stop (ordered d gs))) (Z.of_nat k) (mk_cdb c t)).
Proof.
  pose proof (ct_rep _ _ _ _ C) as R. assert (Hlt : (k < lists_max)%nat) by (rewrite <-(ct_lists _ _ _ _ C); by apply lookup_lt_Some in Hk).
  assert (Hl : Z.of_nat k < 256) by (change lists_max with 256%nat in Hlt; lia).
  assert (Rl : (if negb (d =? 0) then rd_hi (Z.of_nat k) else rd_lo (Z.of_nat k)) (mk_cdb c t) = Ret (first id (nodes (ordered d gs)) 0, mk_cdb c t)).
  { unfold ordered. destruct (d =? 0); cbn [negb].
    - rewrite (rd_lo_ret c t V _ R) by (unfold zlen; rewrite (ct_lo _ _ _ _ C); change lists_max with 256%nat; lia). rewrite Nat2Z.id. by rewrite (cd_lo _ _ _ _ _ _ list_counted).
    - rewrite (rd_hi_ret c t V _ R) by (unfold zlen; rewrite (ct_hi _ _ _ _ C); change lists_max with 256%nat; lia). rewrite Nat2Z.id. by rewrite (cd_hi _ _ _ _ _ _ list_counted), nodes_rev, first_rev. }
  set (fs := ordered d gs) in *. assert (Hp : forall g, g ∈ fs -> g ∈ gs) by (intros g Hx; by apply elem_ordered).
  set (start := (cnt_pos ← (if negb (d =? 0) then rd_hi (Z.of_nat k) else rd_lo (Z.of_nat k)); hkv_pos ← first_hkv cnt_pos; mret (Some (cnt_pos, hkv_pos))) : cmd cdb (option (Z * Z))).
  assert (St : start (mk_cdb c t) = Ret (Some (first_stop fs), mk_cdb c t)).
  { unfold start. step_by Rl. step_by (first_hkv_run fs t Hp). rewrite <-first_stop_node. by destruct (first_stop fs). }
  split.
  - intros Egs. assert (Ef : fs = []) by (unfold fs, ordered; rewrite Egs; by destruct (d =? 0)). rewrite Ef in St.
    unfold sxe_cdb_instance_walk. change (SXE_CDB_COUNT_NONE =? SXE_CDB_COUNT_NONE) with true. cbv iota. change SXE_CDB_COUNTS_LISTS_MAX with 256. destruct (Z.geb_spec (Z.of_nat k) 256); [lia|]. fold start. step_by St.
    cbn [first_stop]. change (SXE_CDB_COUNT_NONE =? 0) with true. cbv iota. rewrite walk_at_ret. by eexists.
  - intros Hne. assert (Hf : exists g post, fs = g :: post).
    { assert (exists g, g ∈ gs) as [g Hg] by (revert Hne; generalize gs as q; intros [|g q] Hq; [done|exists g; left]). apply elem_ordered in Hg. fold fs in Hg. destruct fs as [|g' post]; [by apply elem_of_nil in Hg|by exists g', post]. }
    destruct Hf as (g & post & Ef). destruct (list_group g) as [_ Hn]; [apply Hp; rewrite Ef; left|]. destruct (list_node _ Hn) as [_ Hr].
    unfold sxe_cdb_instance_walk. change (SXE_CDB_COUNT_NONE =? SXE_CDB_COUNT_NONE) with true. cbv iota. change SXE_CDB_COUNTS_LISTS_MAX with 256. destruct (Z.geb_spec (Z.of_nat k) 256); [lia|]. fold start. step_by St.
    rewrite Ef. cbn [first_stop fst snd]. change SXE_CDB_COUNT_NONE with 0. destruct (Z.eqb_spec 0 (g_node g)); [lia|].
    assert (Rt : forall o, (mret o : cmd cdb (option (Z * Z))) (mk_cdb c t) = Ret (o, mk_cdb c t)) by done. step_by (Rt (Some (g_node g, first pos (g_keys g) 0))).
    by destruct (Z.eqb_spec 0 (g_node g)); [lia|].
Qed.
End List.
End Walk.

(** ** The whole walk *)

Section Client.
Context `{Build, CdbSystem, !MapLaw}.

(** A client walks from where the thread noted that the walk goes on, until there is nothing more, and takes the keys of the copies, with their counts. *)
Fixpoint walk_from (fuel : nat) (direction cnt_pos hkv_pos counts_list : Z) : cmd cdb (list (list Z * Z)) :=
  match fuel with
  | O => lift Fault
  | S fuel =>
      got ← sxe_cdb_instance_walk direction cnt_pos hkv_pos counts_list;
      if (got : bool) then
        kv ← copied_pair;
        t ← rd_tls;
        rest ← (if t_walk_cnt_pos t =? SXE_CDB_COUNT_NONE then mret []
                else walk_from fuel direction (t_walk_cnt_pos t) (t_walk_hkv_pos t) counts_list);
        mret ((fst kv, t_walk_count t) :: rest)
      else mret []
  end.

(** The keys of groups with their counts. *)
Definition with_names (log : list entry) (l : list (nat * Z)) : list (list Z * Z) := (fun p => (default [] (e_key <$> log !! p.1), p.2)) <$> l.

Lemma walk_from_run c V gss k gs d l : counting c V gss [] -> gss !! k = Some gs ->
  forall fuel pre g a i b post t, ordered d gs = pre ++ g :: post -> g_keys g = a ++ i :: b -> tls_ok t -> (length b + length (keys_in post) < fuel)%nat ->
  match walk_from fuel d (g_node g) (position (v_log V) i) l (mk_cdb c t) with
  | Ret (ps, s') => inst s' = c /\ tls_ok (tls s') /\ ps = with_names (v_log V) (((fun j => (j, g_count g)) <$> i :: b) ++ counts_of post)
  | Abort => exists n, 0 < n /\ realloc_ok n = false
  | Fault => False
  end.
Proof.
  intros C Hk. induction fuel as [|fuel IH]; intros pre g a i b post t E Eg Tk Hf; [lia|].
  assert (In : forall x, x ∈ pre ++ g :: post -> x ∈ gs) by (intros x Hx; apply (elem_ordered gs d); by rewrite E).
  assert (Hi : is_Some (v_log V !! i)).
  { destruct (list_group c V gss k gs C Hk g) as [[_ _ _ G4] _]; [apply In; set_solver|]. apply (chain_keys _ _ _ _ _ _ i G4). rewrite Eg. set_solver. }
  destruct Hi as [e Ei]. cbn [walk_from]. pose proof (visit_run c V gss k gs C Hk d pre g a i b post t e l E Eg Ei Tk) as Hv.
  destruct (sxe_cdb_instance_walk d (g_node g) (position (v_log V) i) l (mk_cdb c t)) as [[r s1]| |] eqn:Ew; [| |done].
  2: { unfold mbind at 1, cmd_bind at 1. by rewrite Ew. }
  step_by Ew. destruct Hv as (t1 & -> & -> & Tk1 & Hc & Hn & Hnext). pose proof (store_ok _ c i e (rp_store _ _ (ct_rep _ _ _ _ C)) Ei) as Eo.
  step_by (copied_pair_ret c t1 e Eo Hc). step_by (rd_tls_ret c t1). cbn [fst]. rewrite Hn. pose proof (f_equal fst Hnext) as Hn1. pose proof (f_equal snd Hnext) as Hn2. cbn [fst snd] in Hn1, Hn2. rewrite Hn1, Hn2.
  set (more := if _ =? SXE_CDB_COUNT_NONE then _ else _). set (left := (match b with [] => counts_of post | _ => ((fun j => (j, g_count g)) <$> b) ++ counts_of post end)).
  assert (More : match more (mk_cdb c t1) with Ret (ps, s') => inst s' = c /\ tls_ok (tls s') /\ ps = with_names (v_log V) left | Abort => exists n, 0 < n /\ realloc_ok n = false | Fault => False end).
  { unfold more, left. destruct b as [|j b]; cbn [next_stop fst snd].
    - destruct post as [|g2 post]; cbn [first_stop fst snd]; [by change (0 =? SXE_CDB_COUNT_NONE) with true|].
      destruct (list_group c V gss k gs C Hk g2) as [[_ _ G3 _] Hn3]; [apply In; set_solver|]. destruct (list_node c V gss k gs C Hk _ Hn3) as [_ Hr].
      destruct (Z.eqb_spec (g_node g2) SXE_CDB_COUNT_NONE) as [Hx|_]; [change SXE_CDB_COUNT_NONE with 0 in Hx; lia|]. destruct (g_keys g2) as [|j b] eqn:Eg2; [done|]. cbn [first].
      rewrite keys_in_cons, Eg2, length_app in Hf. cbn in Hf. pose proof (IH (pre ++ [g]) g2 [] j b post t1 ltac:(by rewrite <-(assoc_L (++))) Eg2 Tk1 ltac:(lia)) as Hr2.
      rewrite counts_of_cons, Eg2. exact Hr2.
    - destruct (list_group c V gss k gs C Hk g) as [_ Hn3]; [apply In; set_solver|]. destruct (list_node c V gss k gs C Hk _ Hn3) as [_ Hr].
      destruct (Z.eqb_spec (g_node g) SXE_CDB_COUNT_NONE) as [Hx|_]; [change SXE_CDB_COUNT_NONE with 0 in Hx; lia|]. cbn [length] in Hf.
      apply (IH pre g (a ++ [i]) j b post t1 E); [by rewrite <-(assoc_L (++))|done|lia]. }
  destruct (more (mk_cdb c t1)) as [[ps s2]| |] eqn:Em; [| |done].
  - step_by Em. destruct More as (Es & Tk2 & ->). split; [done|]. split; [done|]. unfold with_names, left. cbn [fmap list_fmap app]. f_equal; [cbn [fst]; by rewrite Ei|]. by destruct b.
  - unfold mbind at 1, cmd_bind at 1. by rewrite Em.
Qed.

(** *** What a walk lists *)

Lemma sorted_counts (R R' : Z -> Z -> Prop) gs : (forall x, R' x x) -> (forall x y, R x y -> R' x y) -> StronglySorted R (g_count <$> gs) -> StronglySorted R' (counts_of gs).*2.
Proof.
  intros Hr Hi. induction gs as [|g gs IH]; [constructor|]. rewrite fmap_cons. intros [So Hg]%StronglySorted_inv. rewrite counts_of_cons, fmap_app. rewrite Forall_forall in Hg.
  apply StronglySorted_app. split; [|split; [|by apply IH]].
  - intros x y Hx Hy. apply list_elem_of_fmap in Hx as ([i x'] & -> & Hx). apply list_elem_of_fmap in Hx as (j & [= -> ->] & _).
    apply list_elem_of_fmap in Hy as ([i' y'] & -> & Hy). apply in_counts_of in Hy as (g' & Hg' & _ & ->). cbn. apply Hi, Hg. by apply list_elem_of_fmap_2.
  - rewrite <-list_fmap_compose. generalize (g_keys g) as ks. induction ks as [|i ks IHk]; [constructor|]. rewrite fmap_cons. constructor; [done|].
    apply Forall_forall. intros x (j & -> & _)%list_elem_of_fmap. apply Hr.
Qed.
Lemma sorted_rev (l : list Z) : StronglySorted Z.lt l -> StronglySorted Z.gt (rev l).
Proof.
  induction 1 as [|x l So IH Hx]; [constructor|]. cbn [rev]. apply StronglySorted_app. split; [|split; [done|repeat constructor]].
  intros a b Ha Hb. apply list_elem_of_singleton in Hb as ->. rewrite Forall_forall in Hx. specialize (Hx a). rewrite list_elem_of_In, <-in_rev, <-list_elem_of_In in Ha. specialize (Hx Ha). lia.
Qed.

Lemma in_tags_inv i z n : forall gss k, (i, (z, n)) ∈ tags_from k gss -> exists j gs, gss !! j = Some gs /\ z = Z.of_nat (k + j) /\ (i, n) ∈ counts_of gs.
Proof.
  induction gss as [|gs gss IH]; intros k; [by intros ?%elem_of_nil|]. cbn [tags_from]. intros [Hx|Hx]%elem_of_app.
  - apply list_elem_of_fmap in Hx as ((i' & n') & [= -> -> ->] & Hx). exists 0%nat, gs. split; [done|]. split; [f_equal; lia|done].
  - destruct (IH _ Hx) as (j & gs' & Hj & -> & Hc). exists (S j), gs'. split; [done|]. split; [f_equal; lia|done].
Qed.

(** The order of the keys of a walk. *)
Definition in_order (direction : Z) (counts : list Z) : Prop :=
  if direction =? 0 then StronglySorted Z.le counts else StronglySorted Z.ge counts.

Lemma named_ordered c V gss k gs d : counting c V gss [] -> gss !! k = Some gs ->
  let ps := with_names (v_log V) (counts_of (ordered d gs)) in
  in_order d ps.*2 /\ NoDup ps.*1 /\ forall key n, (key, n) ∈ ps <-> counters_of (v_log V) gss !! key = Some (Z.of_nat k, n).
Proof.
  intros C Hk ps. pose proof (ct_counted _ _ _ _ C k gs Hk) as Ct. pose proof (cd_sorted _ _ _ _ _ _ Ct) as So.
  assert (Entry : forall i, i ∈ keys_in gs -> is_Some (v_log V !! i)).
  { intros i Hi. apply (counting_entry c V gss [] i C). rewrite app_nil_r, <-(take_drop_middle gss k gs Hk), all_keys_mid. set_solver. }
  assert (P : counts_of (ordered d gs) ≡ₚ counts_of gs).
  { unfold ordered. destruct (d =? 0); [done|]. clear. induction gs as [|g gs IH]; [done|]. cbn [rev]. rewrite counts_of_app, IH, counts_of_cons, counts_of_cons. cbn [counts_of fmap list_fmap concat]. rewrite app_nil_r. apply Permutation_app_comm. }
  split; [|split].
  - unfold ps, with_names. rewrite <-list_fmap_compose. change (StronglySorted Z.le) with (StronglySorted Z.le). unfold in_order, ordered.
    assert (E2 : forall l : list (nat * Z), (snd ∘ (fun p : nat * Z => (default [] (e_key <$> v_log V !! p.1), p.2))) <$> l = l.*2) by (intros l; by apply list_fmap_ext). rewrite E2.
    destruct (d =? 0).
    + apply (sorted_counts Z.lt Z.le); [lia|lia|done].
    + apply (sorted_counts Z.gt Z.ge); [lia|lia|]. assert (Er : g_count <$> rev gs = rev (g_count <$> gs)) by (clear; induction gs as [|g gs IH]; [done|]; cbn [rev]; by rewrite fmap_app, IH). rewrite Er. by apply sorted_rev.
  - unfold ps, with_names. rewrite P, <-list_fmap_compose.
    assert (E1 : forall l : list (nat * Z), (fst ∘ (fun p : nat * Z => (default [] (e_key <$> v_log V !! p.1), p.2))) <$> l = (fun i => default [] (e_key <$> v_log V !! i)) <$> l.*1) by (intros l; rewrite <-list_fmap_compose; by apply list_fmap_ext).
    rewrite E1, counts_of_keys. pose proof (counting_pairs c V gss [] C) as Nd. rewrite keyed_keys, <-(take_drop_middle gss k gs Hk), all_keys_mid, fmap_app in Nd. by apply NoDup_app in Nd as [Nd _].
  - intros key n. unfold ps, with_names. rewrite P, list_elem_of_fmap. pose proof (counting_pairs c V gss [] C) as Nd. split.
    + intros ([i n'] & Ekn & Hi). injection Ekn as -> <-. assert (Hik : i ∈ keys_in gs) by (rewrite <-counts_of_keys; apply list_elem_of_fmap; by exists (i, n)).
      destruct (Entry i Hik) as [e Ee]. cbn [fst]. rewrite Ee. cbn [default fmap option_fmap option_map]. by apply (counters_lookup _ _ k gs i e n).
    + intros Hl. apply elem_of_list_to_map in Hl; [|done]. apply list_elem_of_fmap in Hl as ((i & z & n') & [= Ek <- <-] & Ht).
      apply in_tags_inv in Ht as (j & gs' & Hj & Ez & Hc). assert (j = k) as -> by lia. rewrite Hk in Hj. injection Hj as <-. exists (i, n). by rewrite Ek.
Qed.

(** C7: walking a list of counters. From the start of one of the 256 lists, in either direction, a walk gives every key of the list with its count,
    each key once, by ascending or descending count, and nothing else; of a list that does not exist it gives nothing. It ends
    after at most one step for each counter, does not change the instance, and never reads outside of the memory: the thread's checks of the positions never
    refuse one that a step noted. It aborts only when the system gives no memory for the copy of a key. *)
Theorem walk_counts_spec s m l direction h fuel : counts_hold s m -> 0 <= l -> (size m < fuel)%nat ->
  match walk_from fuel direction SXE_CDB_COUNT_NONE h l s with
  | Ret (ps, s') => inst s' = inst s /\ counts_hold s' m /\ in_order direction ps.*2 /\ NoDup ps.*1 /\ forall key n, (key, n) ∈ ps <-> m !! key = Some (l, n)
  | Abort => exists n, 0 < n /\ realloc_ok n = false
  | Fault => False
  end.
Proof.
  destruct s as [c t]. intros (V & gss & C & Tk & ->) Hl Hf. cbn [inst tls] in *. destruct fuel as [|fuel]; [lia|].
  destruct (decide (l < 256)) as [Hlt|Hge].
  2: { cbn [walk_from]. unfold sxe_cdb_instance_walk. change (SXE_CDB_COUNT_NONE =? SXE_CDB_COUNT_NONE) with true. cbv iota. change SXE_CDB_COUNTS_LISTS_MAX with 256. destruct (Z.geb_spec l 256); [|lia].
       split; [done|]. split; [by exists V, gss|]. split; [unfold in_order; destruct (direction =? 0); constructor|]. split; [constructor|]. intros key n. split; [by intros ?%elem_of_nil|].
       intros Hm. apply elem_of_list_to_map in Hm; [|by apply (counting_pairs c V gss [])]. apply list_elem_of_fmap in Hm as ((i & z & n') & [= Ek <- <-] & Ht).
       apply in_tags_inv in Ht as (j & gs' & Hj & -> & _). apply lookup_lt_Some in Hj. rewrite (ct_lists _ _ _ _ C) in Hj. change lists_max with 256%nat in Hj. lia. }
  set (k := Z.to_nat l). assert (El : Z.of_nat k = l) by lia. destruct (lookup_lt_is_Some_2 gss k) as [gs Hk]; [rewrite (ct_lists _ _ _ _ C); change lists_max with 256%nat; lia|].
  destruct (named_ordered c V gss k gs direction C Hk) as (N1 & N2 & N3). rewrite El in N3. destruct (walk_start c V gss k gs C Hk direction h t) as [W1 W2]. rewrite El in W1, W2.
  destruct (decide (gs = [])) as [Egs|Egs].
  - destruct (W1 Egs) as (t' & W & Tk'). cbn [walk_from]. step_by W. assert (En : with_names (v_log V) (counts_of (ordered direction gs)) = []) by (rewrite Egs; unfold ordered; by destruct (direction =? 0)).
    rewrite En in N1, N2, N3. split; [done|]. split; [by exists V, gss; auto|done].
  - assert (Eo : exists g post, ordered direction gs = g :: post).
    { destruct (ordered direction gs) as [|g post] eqn:E; [|by exists g, post]. destruct gs as [|g gs']; [done|]. assert (Hg : g ∈ ordered direction (g :: gs')) by (apply elem_ordered; left). rewrite E in Hg. by apply elem_of_nil in Hg. }
    destruct Eo as (g & post & Eo). destruct (list_group c V gss k gs C Hk g) as [[_ _ G3 _] _]; [apply (elem_ordered gs direction); rewrite Eo; left|].
    destruct (g_keys g) as [|i b] eqn:Eg; [done|].
    assert (Ew : walk_from (S fuel) direction SXE_CDB_COUNT_NONE h l (mk_cdb c t) = walk_from (S fuel) direction (g_node g) (position (v_log V) i) l (mk_cdb c t)).
    { cbn [walk_from]. unfold mbind, cmd_bind. rewrite (W2 Egs), Eo. cbn [first_stop fst snd]. by rewrite Eg. }
    assert (Hlen : (length b + length (keys_in post) < S fuel)%nat).
    { destruct (counting_size c V gss C) as [Hs _]. unfold zlen in Hs. assert (Hz : (length (keys_in gs) <= length (v_log V))%nat).
      { pose proof (Permutation_length (ct_keys _ _ _ _ C)) as Hp. rewrite app_nil_r, length_seq in Hp. rewrite <-Hp, <-(take_drop_middle gss k gs Hk), all_keys_mid, length_app. lia. }
      assert (Hpl : length (keys_in (ordered direction gs)) = length (keys_in gs)).
      { unfold ordered. destruct (direction =? 0); [done|]. clear. induction gs as [|x gs IH]; [done|]. cbn [rev]. rewrite keys_in_app, !keys_in_cons, !length_app, IH. cbn. lia. }
      rewrite Eo, keys_in_cons, Eg, length_app in Hpl. cbn in Hpl. lia. }
    pose proof (walk_from_run c V gss k gs direction l C Hk (S fuel) [] g [] i b post t Eo Eg Tk Hlen) as Hw. rewrite Ew.
    destruct (walk_from (S fuel) direction (g_node g) (position (v_log V) i) l (mk_cdb c t)) as [[ps s']| |]; [|done..]. destruct Hw as (Es & Tk' & Eps).
    assert (En : ps = with_names (v_log V) (counts_of (ordered direction gs))) by (by rewrite Eo, counts_of_cons, Eg). rewrite En. split; [done|]. split; [|done].
    exists V, gss. by rewrite Es.
Qed.
End Client.
