(* ===== verification/CdbCountExample.v ===== *)
(** * CdbCountExample: counters on concrete keys

    The theorems about counters at a concrete system, client and list. *)

From S2P Require Import Prelude Spinlock Cdb CdbStore CdbPut CdbRefine CdbExample CdbCount CdbCounters CdbCounting CdbWalk.

Module CdbCountExample.
Import CdbExample.

(** A client that increments one key three times, others once or twice, and one in another list. *)
Definition garbage : list Z := [1; 2; 3; 4; 5; 6; 7; 8; 9; 10; 11; 12].
Definition inc1 (key : list Z) (l : Z) : inc_op := mk_inc_op key l garbage.
Definition ops1 : list inc_op :=
  [inc1 [1; 2; 3] 0; inc1 [4; 5] 0; inc1 [1; 2; 3] 0; inc1 [6] 255; inc1 [1; 2; 3] 0; inc1 [7; 8] 0; inc1 [9] 0; inc1 [9] 0].

Lemma ops1_ok : incs_ok ops1.
Proof.
  split; [|split; [|by vm_compute]].
  - repeat (constructor; [by split_and!; vm_compute|]). constructor.
  - intros o o' Ho Ho' E. set_unfold. repeat (destruct Ho as [->|Ho]; [repeat (destruct Ho' as [->|Ho']; [done|]); done|]). done.
Qed.

(** The client runs on the new instance to its end, and is answered as by the map. *)
Definition counted_new : option (list Z) :=
  match sxe_cdb_instance_new 100 0 with
  | Ret c => match run_incs ops1 (mk_cdb c fresh_tls) with Ret (rs, _) => Some rs | _ => None end
  | _ => None
  end.
Lemma counters_refine_map_witness : exists rs m, counted_new = Some rs /\ spec_incs ∅ ops1 rs m.
Proof.
  assert (Hr : match counted_new with Some _ => True | None => False end) by (vm_compute; exact I). revert Hr. unfold counted_new.
  pose proof (counters_refine_map 100 0 ops1 fresh_tls ltac:(by split) ltac:(by split) ops1_ok) as Hc. destruct (sxe_cdb_instance_new 100 0) as [c| |]; [|done..].
  destruct (run_incs ops1 (mk_cdb c fresh_tls)) as [[rs s']| |]; [|done..]. destruct Hc as (m & Sp & _). by exists rs, m.
Defined.

(** What the client is answered, and the instance after it. *)
Definition counted1 : outcome (list Z * cdb) := run_incs ops1 (mk_cdb instance1 fresh_tls).
Definition answers1 : list Z := match counted1 with Ret (rs, _) => rs | _ => [] end.
Definition state1 : cdb := match counted1 with Ret (_, s) => s | _ => mk_cdb instance1 fresh_tls end.
Example answers1_are : answers1 = [1; 1; 2; 1; 3; 1; 1; 2].
Proof. by vm_compute. Qed.

(** The map is what the answers make of it. *)
Definition replay1 (m : counters) (o : inc_op) (r : Z) : counters := if r =? 0 then m else <[o_key o := (o_list o, r)]> m.
Fixpoint replay (m : counters) (ops : list inc_op) (rs : list Z) : counters :=
  match ops, rs with o :: ops, r :: rs => replay (replay1 m o r) ops rs | _, _ => m end.
Lemma spec_incs_replay m ops rs m' : (forall key l n, m !! key = Some (l, n) -> 0 < n) -> spec_incs m ops rs m' -> m' = replay m ops rs.
Proof.
  intros Hp S. revert Hp. induction S as [m|m o ops r m1 rs m2 Hi _ IH]; intros Hp; [done|]. cbn [replay].
  assert (E : m1 = replay1 m o r /\ forall key l n, m1 !! key = Some (l, n) -> 0 < n).
  { unfold replay1. destruct Hi as [n Hl|Hl|Hl]; [pose proof (Hp _ _ _ Hl); destruct (Z.eqb_spec (n + 1) 0); [lia|]| |done];
      (split; [done|]; intros key l n' Hk; destruct (decide (key = o_key o)) as [->|Hne]; [rewrite lookup_insert_eq in Hk; injection Hk as _ <-; lia|rewrite lookup_insert_ne in Hk by done; by apply (Hp key l)]). }
  destruct E as [-> Hp']. by apply IH.
Qed.
Definition counts1 : counters := replay ∅ ops1 answers1.
Example counts1_are : map_to_list counts1 ≡ₚ [([1; 2; 3], (0, 3)); ([4; 5], (0, 1)); ([6], (255, 1)); ([7; 8], (0, 1)); ([9], (0, 2))].
Proof.
  assert (E : counts1 = list_to_map [([1; 2; 3], (0, 3)); ([4; 5], (0, 1)); ([6], (255, 1)); ([7; 8], (0, 1)); ([9], (0, 2))]) by (vm_compute; reflexivity).
  rewrite E. apply map_to_list_to_map. apply (bool_decide_unpack (NoDup _)). by vm_compute.
Qed.

Lemma state1_counts : counts_hold state1 counts1.
Proof.
  pose proof (new_counts 100 0 fresh_tls ltac:(by split) ltac:(by split)) as Hn. assert (Hi : counts_hold (mk_cdb instance1 fresh_tls) ∅).
  { unfold instance1. destruct (sxe_cdb_instance_new 100 0) as [c| |] eqn:E; [done| |done]. exfalso.
    assert (Er : match sxe_cdb_instance_new 100 0 with Ret _ => true | _ => false end = true) by (vm_compute; reflexivity). by rewrite E in Er. }
  assert (Hr : match counted1 with Ret (rs, s') => exists m, spec_incs ∅ ops1 rs m /\ counts_hold s' m | Abort => incs_refused ops1 (mk_cdb instance1 fresh_tls) | Fault => False end).
  { unfold counted1. apply (run_incs_run ops1 ops1_ok ops1 0); [done|done|exact Hi|]. split; [by rewrite map_size_empty|by intros key l n ?%lookup_empty_Some]. }
  unfold counts1, answers1, state1.
  assert (Er : match counted1 with Ret _ => true | _ => false end = true) by (vm_compute; reflexivity). destruct counted1 as [[rs s]| |]; [|done..].
  destruct Hr as (m & Sp & Hs). apply spec_incs_replay in Sp as ->; [done|]. by intros key l n ?%lookup_empty_Some.
Qed.

(** Walking down the first list: the key that was incremented three times comes first. *)
Lemma walk_counts_spec_witness :
  match walk_from 6 1 SXE_CDB_COUNT_NONE 77 0 state1 with
  | Ret (ps, s') => inst s' = inst state1 /\ counts_hold s' counts1 /\ in_order 1 ps.*2 /\ NoDup ps.*1 /\ forall key n, (key, n) ∈ ps <-> counts1 !! key = Some (0, n)
  | Abort => exists n, 0 < n /\ realloc_ok n = false
  | Fault => False
  end.
Proof. apply (walk_counts_spec state1 counts1 0 1 77 6); [exact state1_counts|lia|]. apply Nat.ltb_lt. vm_compute. reflexivity. Defined.

Definition walked (direction : Z) : list (list Z * Z) := match walk_from 6 direction SXE_CDB_COUNT_NONE 77 0 state1 with Ret (ps, _) => ps | _ => [] end.
Example walked_down : walked 1 = [([1; 2; 3], 3); ([9], 2); ([7; 8], 1); ([4; 5], 1)].
Proof. by vm_compute. Qed.
Example walked_up : walked 0 = [([7; 8], 1); ([4; 5], 1); ([9], 2); ([1; 2; 3], 3)].
Proof. by vm_compute. Qed.

(** A key that is incremented in another list than before: the list that has it does not know of its new highest count, and walking down misses the key. *)
Definition other_list : outcome (list Z * cdb) := run_incs [inc1 [1] 0; inc1 [2] 0; inc1 [1] 1] (mk_cdb instance1 fresh_tls).
Definition walked_other (direction : Z) : list (list Z * Z) :=
  match other_list with
  | Ret (_, s) => match walk_from 6 direction SXE_CDB_COUNT_NONE 0 0 s with Ret (ps, _) => ps | _ => [] end
  | _ => []
  end.
Example other_list_hides_key : walked_other 0 = [([2], 1); ([1], 2)] /\ walked_other 1 = [([2], 1)].
Proof. by vm_compute. Qed.
End CdbCountExample.
